(* ===== verification/_CoqProject ===== *)
-Q . S2P
Prelude.v
Protocol.v
Memory.v
Utils.v
Buffers.v
ChunkBuilder.v
HeaderBuild.v
ChunkIterator.v
RoundTrip.v
PayloadList.v
Devices.v
Accessors.v
MessageIO.v
CommandIO.v
EndToEnd.v
ResponseIO.v
ResponseEndToEnd.v
Transmission.v
Queue.v
MessageQueue.v
DList.v
HashObject.v
HashTable.v
ObjectStore.v
NameTable.v
Tags.v
TagRefs.v
TagPages.v
TagOps.v
TagSave.v
TagMatch.v
TagCommands.v
TagHandlers.v
TagClean.v
TagSelect.v
TagQueries.v
TagRequests.v
TagRun.v
Mutexes.v
Locks.v
Semaphore.v
SessionLock.v
Lzss3.v
Lzss3Code.v
Lzss3Tree.v
Lzss3Nodes.v
Lzss3Pack.v
Compressor.v
CompressorOk.v
PayloadIO.v
CompressedEndToEnd.v
TagManagerOk.v
CStrings.v
ParserTokens.v
Parser.v
ParserSafe.v
ParserGrammar.v
ParserRun.v
ParserOk.v
DChain.v
Optimizer.v
OptimizerHooks.v
OptimizerChains.v
OptimizerInv.v
OptimizerSteps.v
OptimizerHandlers.v
OptimizerSweep.v
OptimizerGC.v
OptimizerLoops.v
OptimizerFree.v
OptimizerOk.v
StoreCommands.v
SessionStore.v
StoreOk.v
StoreAdd.v
StoreInit.v
SessionOk.v
SessionContract.v
SessionStoreOk.v
