(* ===== verification/Prelude.v ===== *)
(** * A verification of CyberCache Cluster

    CyberCache is a cache server for session records and full-page-cache entries of web
    applications, with a client library, a console and a PHP extension. This library
    models its core in Rocq, by shallow embedding, and proves it correct.

    ** The program and its model

    The server ([src/src/server]) and its clients talk in _messages_, commands and
    responses, which the common library ([src/lib/c3lib]) builds, sends, receives and
    takes apart. Commands end up in _stores_, which keep objects in hash tables; worker
    threads share the stores, and hand work to service threads through message queues.

    The _messages_:
    - [Protocol]: codes, descriptors and chunk formats ([io_protocol.h], [c3_types.h]).
    - [Memory]: quotas and accounting of memory objects ([c3_memory.h]).
    - [Buffers]: [DataBuffer], [SharedBuffers] and the header access of [ReaderWriter]
      ([io_data_buffer.*], [io_shared_buffers.*], [io_reader_writer.*]).
    - [ChunkBuilder], [HeaderBuild]: [ListChunkBuilder] and [HeaderChunkBuilder] with its
      command and response subclasses ([io_chunk_builders.*]).
    - [PayloadList]: [PayloadListChunkBuilder].
    - [ChunkIterator], [RoundTrip]: [ChunkIterator] over headers and payloads
      ([io_chunk_iterators.*]).
    - [Accessors]: [CommandReader]'s and [ResponseReader]'s views of a header
      ([io_command_handlers.*], [io_response_handlers.*]).
    - [Devices]: reading from and writing to sockets and files ([io_device_handlers.*]); the
      system calls are functions of the environment.
    - [MessageIO], [CommandIO], [ResponseIO]: the automata that read and write messages in
      pieces, as the device provides them.
    - [EndToEnd], [ResponseEndToEnd], [Transmission]: what a peer gets to see.

    _Compression_:
    - [Lzss3]: the LZSS3 engine ([compressors/engine_lzss3.*]); [Lzss3Code]: its code and
      what unpacking makes of it; [Lzss3Tree], [Lzss3Nodes]: its search trees; [Lzss3Pack]:
      packing.
    - [Compressor], [CompressorOk]: [CompressorLibrary] ([c3_compressor.*]) over the
      interface [CompressorEngine] and [Allocator] ([c3_memory.h]).
    - [PayloadIO], [CompressedEndToEnd]: [PayloadChunkBuilder] and the constructor of
      [PayloadChunkIterator], which use the library, and a message with such a payload.

    The _containers_:
    - [Utils]: powers of two ([c3_utils.*]).
    - [Queue]: the ring buffer ([c3_queue.h]), over a class [Message] of what it stores.
    - [MessageQueue]: [CommandMessage], [MessageQueue] and [CriticalMessageQueue]
      ([mt_message_queue.h]), the critical sections of which any number of threads run.
    - [DList]: doubly linked lists through fields of heap objects.
    - [HashObject], [HashTable], [ObjectStore]: objects, tables and their deferred disposal
      ([ht_objects.*], [ht_stores.*]).

    The _tag manager_ ([ht_tag_manager.*], [TagRef], [TagObject] and [PageObject] of
    [ht_objects.*]), a thread that keeps the tags of pages:
    - [NameTable]: the interface through which it finds tags by name, and [ObjectStore] as
      its implementation.
    - [Tags]: the model of its data, handlers and main loop, as state passing functions.
    - [TagRefs], [TagPages], [TagOps]: the invariant: the chain of each tag, the references
      of each page, and what the operations on them preserve.
    - [TagSave], [TagMatch], [TagCommands], [TagHandlers], [TagClean], [TagSelect],
      [TagQueries]: the handlers one by one.
    - [TagRequests]: the contract, as a relation on the pages as clients see them;
      [TagRun]: the states of a run; [TagManagerOk]: the theorems.

    The _optimizers_ ([ht_optimizer.*]), threads that keep the objects of a store in order of use and evict
    them:
    - [DChain]: doubly linked lists with both ends.
    - [Optimizer]: chains, iterators, the handlers of messages and the eviction pass of [run], for any
      class with the virtual methods [Hooks]; [OptimizerHooks]: those of [SessionOptimizer] and [PageOptimizer].
    - [OptimizerChains]: the chains as lists, and the way of the iterator through them;
      [OptimizerInv]: the invariant; [OptimizerSteps]: the contract of the virtual methods, and steps
      of handlers; [OptimizerHandlers]: messages about one object.
    - [OptimizerSweep], [OptimizerGC], [OptimizerLoops], [OptimizerFree]: eviction, by garbage collection, [run] and
      requests for memory.
    - [OptimizerOk]: the contract of a turn of the thread, and the theorem.

    The _session store_ ([ht_session_store.*]), the handlers that connection threads run for commands about
    sessions, with what they share with the page store ([ht_page_store.*], [ht_shared_buffers.*]):
    - [StoreCommands]: looking up, creating and giving up objects, payloads and readers, in sections between
      the points where a thread waits; [SessionStore]: the handlers of [READ], [WRITE], [DESTROY], [GC].
    - [StoreInit]: allocation of a store; [StoreOk]: the invariant of a store (tables, queues of deleted
      objects, memory, and that a name has one record), and changes of one object; [StoreAdd]: the section
      that adds an object, and disposes of deleted ones.
    - [SessionOk]: the handlers one by one; [SessionContract]: the contract, a map from ids to records with
      the answers and messages of each command, and everything else that happens to a store;
      [SessionStoreOk]: the theorems.

    The _locks_:
    - [Mutexes]: [DynamicMutex] ([mt_mutexes.*]), which protects a table.
    - [Locks]: [LockableObject] ([mt_lockable_object.*]) on [QuickEvent]
      ([mt_quick_event.*]), which protects an object.
    - [Semaphore]: [QuickSemaphore] ([mt_quick_semaphore.*]), the readers of an object's buffer.
    - [SessionLock]: the lock of a session across requests ([ht_objects.cc]).

    The _configuration_:
    - [CStrings]: comparison of names, and masks with wildcards ([c3_string.*]).
    - [ParserTokens]: the values of options, as text ([parser_token_t] and the printing of
      sizes and durations of [c3_parser.*]), with the functions of the C library they use.
    - [Parser]: the class [Parser]; [ParserSafe]: its behaviour on arbitrary bytes;
      [ParserGrammar]: a grammar of configuration files and what they mean; [ParserRun]:
      that this is what the parser does; [ParserOk]: the theorems.

    ** Conventions

    A C++ object is a record with the fields of the class; a method is a function from the
    old object to the new one and the result. Unsigned integers are values of [Z], reduced
    explicitly ([u8] ... [u64]) where the code computes with them; bytes are values of [Z]
    between 0 and 255. [None] is a failed assertion, an access out of bounds or any other
    undefined behaviour, so a theorem that a function returns [Some] also says that none
    of them occurs; errors that the program handles are values. Pointers to objects are
    keys of a heap (a [gmap]); [nullptr] is [None]. [float] is [spec_float] of the Standard
    Library with 24 bits of precision. What concurrent threads do is cut into sections,
    at the level of mutexes ([MessageQueue], [Mutexes], [SessionLock]) or of single
    atomic operations ([Locks], [Semaphore], in sequentially consistent order), and a step
    relation or an executable step function interleaves them freely.

    Loops of the code that have no structural bound take fuel: the automata of [CommandIO]
    and [ResponseIO] get the number of bytes still to come (each turn that does not end
    the call makes progress), chains of hash objects and of optimizers the size of the heap (each object is
    visited once), loops that evict objects their number (an iterator only moves forward), chains of tag references their number, [set_index_shift] the 31 bits of an [int], the search trees of LZSS3 the
    number of their nodes, packing the length of the text (each turn encodes a byte) and
    unpacking that of the code, parsing the length of the text; the theorems prove these
    amounts to be enough, as they conclude that a result is returned. [Parser] tells lack of
    fuel from undefined behaviour, since one of its loops may never end.

    ** The theorems

    - C1 - C7: a message built, sent and received, over any device and in whatever
      pieces, is read back as it was given, and nothing else is consumed; the parts
      (writers, readers, header layout, chunks, payload lists)
      have theorems of their own. C10 and C11 show where checks on sizes fall short, and by how much.
    - C8: the session store is a map from ids to records, through any sequence of commands, readers and
      work of the optimizer that are [ready] when their turn comes; C9: what is written is read; C22: the growth of a table
      hides a session, which C8 and C9 exclude by a condition ([calm]) on names in a table that is about to grow;
      C39: what two concurrent writers of a new session can do to it.
    - C12 - C14: queues are first-in first-out lists, for one thread and for many; the one that
      always accepts fails an assertion exactly if it is full and gets no memory.
    - C15, C16: a hash table finds the newest object of a name, until it grows, and is a finite map if no name is there twice;
      deferred disposal destroys what nobody reads, and only that.
    - C17 - C21: mutual exclusion for the mutexes and locks, without lost wake-ups for the
      former; two interleavings in which the latter, and the semaphore, go wrong.
    - C23: locks of sessions are never taken. ([session_lock_protocol]: what the code would do if they were.)
    - C24, C25: LZSS3 packs and unpacks any text, and unpacking is safe on any code.
    - C26 - C28: so do the library, with any engine that keeps its contract, and a command
      with a payload that went through it; the library gives back its memory.
    - C29, C30: the tag manager implements its contract in every state of a run, with an
      invariant on its chains; C31: matching of tags against its definition; C32, C33:
      tags saved are tags reported, from the bytes a client sends; C34: a command that
      makes an assertion fail.
    - C35: configuration files do what they mean; C36, C37: the parser is safe and ends on
      any short text, and neither on longer ones; C38: values of options are read as they are
      printed. Masks select the names that they stand for ([enumerate_names]).
    - C40: the optimizers keep their contract in every turn of their threads: chains, flags, counters and
      accounting stay consistent; what is evicted, and in which order, is given by a function ([chosen]).

    ** Not modelled

    Sockets, epoll, files, threads, signals, logging, the PHP and console front ends, and
    the vendored compression, hash and regular expression libraries; performance counters
    and lock monitoring, which do not influence the rest. Of the core, the handlers of the
    page store, binary logs, the handlers of options and the vectors are left out: they hand requests
    over to the components that are modelled, or are input and output. The contract of the session store takes each
    command as a whole; the locks under which threads run its sections have models of their own, [Mutexes] and
    [Locks]. Of the optimizers, the recompression of buffers in the second pass of [run], which gives
    up an object's lock in between, auto-save and the clean up at shutdown are not modelled; of the
    parser, the values of type [float] and [double]. Compression engines other than LZSS3 are parameters with the
    contract of [CompressorEngine].

    This first file holds what all others share: machine integers, byte lists, the
    assertion monad, lemmas and tactics. *)

From stdpp Require Export base numbers list option sorting gmap.
From Stdlib Require Export ZArith Lia.

#[global] Open Scope Z_scope.

(** ** Machine-width integers

    Unsigned C arithmetic is written over [Z] with an explicit reduction. *)

Definition u8 (z : Z) : Z := z mod 2 ^ 8.
Definition u16 (z : Z) : Z := z mod 2 ^ 16.
Definition u32 (z : Z) : Z := z mod 2 ^ 32.
Definition u64 (z : Z) : Z := z mod 2 ^ 64.

(** Conversion to a signed type of width [w] (two's complement). *)
Definition to_signed (w : Z) (z : Z) : Z :=
  let m := z mod 2 ^ w in if m <? 2 ^ (w - 1) then m else m - 2 ^ w.

Definition is_u8 (z : Z) : Prop := 0 <= z < 2 ^ 8.
Definition is_u16 (z : Z) : Prop := 0 <= z < 2 ^ 16.
Definition is_u32 (z : Z) : Prop := 0 <= z < 2 ^ 32.
Definition is_u64 (z : Z) : Prop := 0 <= z < 2 ^ 64.

(** A byte string: the contents of a [c3_byte_t] buffer. *)
Abbreviation bytes := (list Z).
Definition bytes_ok (l : bytes) : Prop := Forall is_u8 l.

(** Length of a buffer as a C integer. *)
Definition zlen {A} (l : list A) : Z := Z.of_nat (length l).

(** ** Assertions

    The models follow the [C3_SAFEST] configuration of [c3_build.h]: both
    [assert] and [c3_assert] are live. [None] stands for an aborted assertion or
    for an access outside the accessed object. *)

Definition c3_assert (b : bool) : option unit := if b then Some tt else None.

(** ** Raw memory access on a byte string *)

Definition slice (l : bytes) (off n : Z) : option bytes :=
  if (0 <=? off) && (0 <=? n) && (off + n <=? zlen l)
  then Some (take (Z.to_nat n) (drop (Z.to_nat off) l)) else None.

Definition byte_at (l : bytes) (off : Z) : option Z :=
  if 0 <=? off then l !! Z.to_nat off else None.

(** Overwrite [zlen bs] bytes at [off]. *)
Definition blit (l : bytes) (off : Z) (bs : bytes) : option bytes :=
  if (0 <=? off) && (off + zlen bs <=? zlen l)
  then Some (take (Z.to_nat off) l ++ bs ++ drop (Z.to_nat off + length bs) l)
  else None.

(** ** Little-endian integers *)

Fixpoint le_bytes (n : nat) (z : Z) : bytes :=
  match n with
  | O => []
  | S n => u8 z :: le_bytes n (Z.shiftr z 8)
  end.

Fixpoint le_val (l : bytes) : Z :=
  match l with
  | [] => 0
  | b :: t => Z.shiftl (le_val t) 8 + b
  end.

(** ** Automation *)

Create HintDb c3 discriminated.
Create Rewrite HintDb zlen.

(** Turns boolean comparisons of the code into propositions. *)
Ltac zbool :=
  repeat match goal with
  | H : _ && _ = true |- _ => apply andb_true_iff in H as [? ?]
  | H : _ || _ = false |- _ => apply orb_false_iff in H as [? ?]
  | H : negb _ = true |- _ => apply negb_true_iff in H
  | H : negb _ = false |- _ => apply negb_false_iff in H
  | H : (_ =? _) = true |- _ => apply Z.eqb_eq in H
  | H : (_ =? _) = false |- _ => apply Z.eqb_neq in H
  | H : (_ <=? _) = true |- _ => apply Z.leb_le in H
  | H : (_ <=? _) = false |- _ => apply Z.leb_gt in H
  | H : (_ <? _) = true |- _ => apply Z.ltb_lt in H
  | H : (_ <? _) = false |- _ => apply Z.ltb_ge in H
  end.

(** Case analysis on the first boolean test of the goal. *)
Ltac zcase :=
  match goal with
  | |- context [if ?b then _ else _] =>
      lazymatch b with
      | context [if _ then _ else _] => fail
      | _ => let E := fresh "E" in destruct b eqn:E; zbool
      end
  end.

Ltac zcases := repeat (zcase; try lia; try done).

(** Inversion of a successful run of the option monad. *)
Ltac inv_opt :=
  repeat match goal with
  | H : Some _ = Some _ |- _ => injection H as H; subst
  | H : None = Some _ |- _ => discriminate H
  | H : Some _ = None |- _ => discriminate H
  | H : (_ ≫= _) = Some _ |- _ =>
      let x := fresh "x" in let E := fresh "Hx" in
      apply bind_Some in H as (x & E & H)
  | H : c3_assert ?b = Some _ |- _ =>
      let E := fresh "Ha" in destruct b eqn:E; cbn in H; [zbool | discriminate H];
      clear H
  end.

(** ** Arithmetic lemmas *)

Lemma zlen_nonneg {A} (l : list A) : 0 <= zlen l.
Proof. unfold zlen. lia. Qed.

Lemma zlen_app {A} (l k : list A) : zlen (l ++ k) = zlen l + zlen k.
Proof. unfold zlen. rewrite length_app. lia. Qed.

Lemma zlen_cons {A} (x : A) l : zlen (x :: l) = 1 + zlen l.
Proof. unfold zlen. cbn. lia. Qed.

Lemma zlen_nil : zlen (@nil Z) = 0.
Proof. done. Qed.

Lemma u8_small z : is_u8 z -> u8 z = z.
Proof. apply Z.mod_small. Qed.
Lemma u16_small z : is_u16 z -> u16 z = z.
Proof. apply Z.mod_small. Qed.
Lemma u32_small z : is_u32 z -> u32 z = z.
Proof. apply Z.mod_small. Qed.
Lemma u64_small z : is_u64 z -> u64 z = z.
Proof. apply Z.mod_small. Qed.

Lemma u8_range z : is_u8 (u8 z).
Proof. apply Z.mod_pos_bound. lia. Qed.
Lemma u16_range z : is_u16 (u16 z).
Proof. apply Z.mod_pos_bound. lia. Qed.
Lemma u32_range z : is_u32 (u32 z).
Proof. apply Z.mod_pos_bound. lia. Qed.
Lemma u64_range z : is_u64 (u64 z).
Proof. apply Z.mod_pos_bound. lia. Qed.

#[export] Hint Resolve u8_range u16_range u32_range u64_range zlen_nonneg : c3.
#[export] Hint Rewrite @zlen_app @zlen_cons zlen_nil : zlen.

Ltac zlen := autorewrite with zlen in *; try lia.

(** The mask tests [(n & 0xFF..00) == 0] of the code are range tests. *)
Lemma land_high_mask n k w :
  0 <= k <= w -> 0 <= n < 2 ^ w ->
  (Z.land n (2 ^ w - 2 ^ k) =? 0) = (n <? 2 ^ k).
Proof.
  intros Hk Hn.
  replace (2 ^ w - 2 ^ k) with (Z.shiftl (Z.ones (w - k)) k); cycle 1.
  { rewrite Z.shiftl_mul_pow2, Z.ones_equiv by lia.
    replace w with (w - k + k) at 2 by lia. rewrite Z.pow_add_r by lia. lia. }
  assert (Z.land n (Z.shiftl (Z.ones (w - k)) k) = Z.shiftl (Z.shiftr n k) k) as ->.
  { apply Z.bits_inj'. intros i Hi.
    rewrite Z.land_spec, Z.shiftl_spec by lia.
    destruct (decide (i < k)).
    { rewrite (Z.testbit_neg_r (Z.ones _)) by lia.
      rewrite Z.shiftl_spec_low by lia. apply andb_false_r. }
    rewrite Z.shiftl_spec, Z.shiftr_spec by lia.
    replace (i - k + k) with i by lia.
    destruct (decide (i < w)).
    - rewrite Z.ones_spec_low by lia. apply andb_true_r.
    - destruct (decide (n = 0)) as [->|]; [by rewrite Z.testbit_0_l|].
      rewrite (Z.bits_above_log2 n); [done|lia|].
      enough (Z.log2 n < w) by lia. apply Z.log2_lt_pow2; lia. }
  rewrite Z.shiftl_mul_pow2, Z.shiftr_div_pow2 by lia.
  pose proof (Z.pow_pos_nonneg 2 k ltac:(lia) ltac:(lia)).
  destruct (n <? 2 ^ k) eqn:E; zbool.
  - rewrite Z.div_small by lia. done.
  - apply Z.eqb_neq. pose proof (Z.div_le_lower_bound n (2 ^ k) 1). nia.
Qed.

(** A decidable property of a small integer range, checked by computation. *)
Lemma seqZ_forallb (P : Z -> bool) lo n :
  forallb P (seqZ lo n) = true -> forall z, lo <= z < lo + n -> P z = true.
Proof.
  intros H z Hz. rewrite forallb_forall in H. apply H.
  apply list_elem_of_In, elem_of_seqZ. lia.
Qed.

(** ** Little-endian lemmas *)

Lemma length_le_bytes n z : length (le_bytes n z) = n.
Proof. revert z. induction n; cbn; congruence. Qed.

Lemma zlen_le_bytes n z : zlen (le_bytes n z) = Z.of_nat n.
Proof. unfold zlen. by rewrite length_le_bytes. Qed.

#[export] Hint Rewrite zlen_le_bytes : zlen.

Lemma le_bytes_ok n z : bytes_ok (le_bytes n z).
Proof. revert z. induction n; intros z; constructor; auto with c3. apply IHn. Qed.

Lemma le_val_range l : bytes_ok l -> 0 <= le_val l < 2 ^ (8 * zlen l).
Proof.
  induction 1 as [|b t Hb Ht IH]; [by unfold zlen; cbn|].
  cbn. rewrite Z.shiftl_mul_pow2 by lia. rewrite zlen_cons.
  pose proof (zlen_nonneg t).
  replace (8 * (1 + zlen t)) with (8 + 8 * zlen t) by lia.
  rewrite Z.pow_add_r by lia. unfold is_u8 in *. nia.
Qed.

Lemma le_val_le_bytes n z : le_val (le_bytes n z) = z mod 2 ^ (8 * Z.of_nat n).
Proof.
  revert z. induction n as [|n IH]; intros z; [by rewrite Z.mod_1_r|].
  cbn [le_bytes le_val]. rewrite IH, Z.shiftl_mul_pow2, Z.shiftr_div_pow2 by lia.
  unfold u8. replace (8 * Z.of_nat (S n)) with (8 + 8 * Z.of_nat n) by lia.
  rewrite Z.pow_add_r by lia. rewrite Z.rem_mul_r by lia. lia.
Qed.

Lemma le_bytes_le_val l : bytes_ok l -> le_bytes (length l) (le_val l) = l.
Proof.
  induction 1 as [|b t Hb Ht IH]; [done|].
  cbn. rewrite Z.shiftl_mul_pow2 by lia.
  assert (u8 (le_val t * 2 ^ 8 + b) = b) as ->.
  { unfold u8. rewrite Z.add_comm, Z_mod_plus_full. by apply Z.mod_small. }
  rewrite Z.shiftr_div_pow2 by lia.
  rewrite Z.add_comm, Z.div_add, Z.div_small by (unfold is_u8 in *; lia).
  by rewrite Z.add_0_l, IH.
Qed.

(** ** Memory access lemmas *)

Lemma slice_app_mid (a b c : bytes) :
  slice (a ++ b ++ c) (zlen a) (zlen b) = Some b.
Proof.
  unfold slice. pose proof (zlen_nonneg a). pose proof (zlen_nonneg b).
  pose proof (zlen_nonneg c). rewrite !zlen_app.
  destruct (_ && _) eqn:E; cycle 1.
  { apply andb_false_iff in E as [E|E]; [apply andb_false_iff in E as [E|E]|]; zbool; lia. }
  unfold zlen. rewrite !Nat2Z.id. by rewrite drop_app_length, take_app_length.
Qed.

Lemma byte_at_app_mid (a : bytes) b c : byte_at (a ++ b :: c) (zlen a) = Some b.
Proof.
  unfold byte_at, zlen. destruct (0 <=? _) eqn:E; zbool; [|lia].
  rewrite Nat2Z.id. by rewrite list_lookup_middle.
Qed.

Lemma zlen_blit l off bs l' : blit l off bs = Some l' -> zlen l' = zlen l.
Proof.
  unfold blit. intros H. destruct (_ && _) eqn:E; [|done]. zbool. inv_opt.
  unfold zlen in *. rewrite !length_app, length_take, length_drop. lia.
Qed.

(** Writing over a block of the same size replaces exactly that block. *)
Lemma blit_app_mid (a b c bs : bytes) :
  zlen bs = zlen b -> blit (a ++ b ++ c) (zlen a) bs = Some (a ++ bs ++ c).
Proof.
  intros Hl. unfold blit. rewrite !zlen_app.
  pose proof (zlen_nonneg a). pose proof (zlen_nonneg c).
  destruct (_ && _) eqn:E; cycle 1.
  { apply andb_false_iff in E as [E|E]; zbool; lia. }
  unfold zlen in *. rewrite Nat2Z.id, take_app_length. do 2 f_equal.
  rewrite app_assoc, drop_app_ge by (rewrite length_app; lia).
  rewrite length_app. replace (_ - _)%nat with 0%nat by lia. by rewrite app_nil_r || done.
Qed.

(** Writing at the end of a known prefix. *)
Lemma blit_app (a rest bs : bytes) :
  zlen bs <= zlen rest ->
  blit (a ++ rest) (zlen a) bs = Some (a ++ bs ++ drop (length bs) rest).
Proof.
  intros H. rewrite <- (take_drop (length bs) rest) at 1. apply blit_app_mid.
  unfold zlen in *. rewrite length_take. lia.
Qed.

Lemma blit_prefix (l bs : bytes) :
  zlen bs <= zlen l -> blit l 0 bs = Some (bs ++ drop (length bs) l).
Proof. apply (blit_app [] l bs). Qed.

Lemma zlen_drop (l k : bytes) : zlen k <= zlen l -> zlen (drop (length k) l) = zlen l - zlen k.
Proof. unfold zlen. rewrite length_drop. lia. Qed.

Lemma zlen_take (l k : bytes) : zlen k <= zlen l -> zlen (take (length k) l) = zlen k.
Proof. unfold zlen. rewrite length_take. lia. Qed.

Lemma byte_at_0 (x : Z) l : byte_at (x :: l) 0 = Some x.
Proof. done. Qed.

Lemma slice_app_l (a b : bytes) i n : i + n <= zlen a -> slice (a ++ b) i n = slice a i n.
Proof.
  intros Hle. unfold slice. rewrite zlen_app. pose proof (zlen_nonneg b).
  destruct (0 <=? i) eqn:E1; zbool; [|done]. destruct (0 <=? n) eqn:E2; zbool; [|done].
  destruct (_ <=? zlen a + _) eqn:E3; zbool; [|lia]. destruct (_ <=? zlen a) eqn:E4; zbool; [|lia].
  cbn [andb]. f_equal. unfold zlen in *. rewrite drop_app_le by lia. apply take_app_le.
  rewrite length_drop. lia.
Qed.

Lemma byte_at_app_l (a b : bytes) i : i < zlen a -> byte_at (a ++ b) i = byte_at a i.
Proof.
  intros Hlt. unfold byte_at. destruct (0 <=? i) eqn:E; zbool; [|done].
  apply lookup_app_l. unfold zlen in *. lia.
Qed.

(** Two ways to cut the same list, the first cut not later than the second. *)
Lemma app_cut {A} (x y a b : list A) :
  x ++ y = a ++ b -> zlen x <= zlen a -> exists k, a = x ++ k /\ y = k ++ b.
Proof.
  intros He Hle. apply app_eq_inv in He as [(k & -> & ->)|(k & -> & ->)]; [|by eexists].
  rewrite zlen_app in Hle. destruct k; [|rewrite zlen_cons in Hle; pose proof (zlen_nonneg k); lia].
  exists []. by rewrite !app_nil_r.
Qed.

Lemma zlen_pos_nil {A} (l : list A) : zlen l <= 0 -> l = [].
Proof. destruct l; [done|]. rewrite zlen_cons. pose proof (zlen_nonneg l). lia. Qed.

Lemma zlen_singleton {A} (l : list A) : 0 < zlen l <= 1 -> exists x, l = [x].
Proof.
  destruct l as [|x l]; [unfold zlen; cbn; lia|]. rewrite zlen_cons. intros Hl.
  exists x. by rewrite (zlen_pos_nil l) by lia.
Qed.

Lemma zlen_to_nat {A} (l : list A) : Z.to_nat (zlen l) = length l.
Proof. apply Nat2Z.id. Qed.

(** ** Counting the elements that satisfy a predicate *)

Section Tally.
Context {A : Type} (p : A -> bool).

Definition tally (l : list A) : Z := foldr (fun x n => Z.b2z (p x) + n) 0 l.

Lemma b2z_range b : 0 <= Z.b2z b <= 1.
Proof. destruct b; cbn; lia. Qed.

Lemma tally_range l : 0 <= tally l <= zlen l.
Proof.
  unfold tally. induction l as [|x l IH]; cbn [foldr]; [unfold zlen; cbn; lia|].
  rewrite zlen_cons. pose proof (b2z_range (p x)). lia.
Qed.

Lemma tally_insert l i x y : l !! i = Some x -> tally (<[i := y]> l) = tally l - Z.b2z (p x) + Z.b2z (p y).
Proof.
  unfold tally. revert i. induction l as [|z l IH]; intros [|i] Hi; try done.
  - injection Hi as ->. cbn. lia.
  - change (<[S i := y]> (z :: l)) with (z :: <[i := y]> l). cbn [foldr]. rewrite (IH i Hi). lia.
Qed.

Lemma tally_lookup l i x : l !! i = Some x -> Z.b2z (p x) <= tally l.
Proof.
  intros Hi. pose proof (tally_insert l i x x Hi) as Ht. rewrite list_insert_id in Ht by done.
  pose proof (take_drop_middle l i x Hi) as Hl. rewrite <- Hl. clear Ht Hl Hi.
  assert (forall a b, tally (a ++ b) = tally a + tally b) as Happ
    by (intros a b; unfold tally; induction a; cbn in *; lia).
  rewrite Happ. pose proof (tally_range (take i l)). pose proof (tally_range (drop (S i) l)).
  change (tally (x :: drop (S i) l)) with (Z.b2z (p x) + tally (drop (S i) l)). lia.
Qed.

(** Two of them at different places. *)
Lemma tally_two l i j x y :
  l !! i = Some x -> l !! j = Some y -> i <> j -> Z.b2z (p x) + Z.b2z (p y) <= tally l.
Proof.
  revert i j. induction l as [|z l IH]; intros [|i] [|j] Hi Hj Hne; try done;
    change (tally (z :: l)) with (Z.b2z (p z) + tally l); cbn in Hi, Hj.
  - injection Hi as ->. pose proof (tally_lookup l j y Hj). lia.
  - injection Hj as ->. pose proof (tally_lookup l i x Hi). lia.
  - assert (i <> j) by congruence. specialize (IH i j Hi Hj ltac:(done)). pose proof (b2z_range (p z)). lia.
Qed.

Lemma tally_exists l : 0 < tally l -> exists i x, l !! i = Some x /\ p x = true.
Proof.
  unfold tally. induction l as [|x l IH]; cbn; [lia|]. destruct (p x) eqn:E; cbn.
  - intros _. by exists O, x.
  - intros H. destruct IH as (i & y & Hi & Hy); [lia|]. by exists (S i), y.
Qed.

Lemma tally_map (f : A -> A) l : (forall x, p (f x) = p x) -> tally (map f l) = tally l.
Proof. intros Hf. unfold tally. induction l as [|x l IH]; cbn; [done|]. by rewrite Hf, IH. Qed.

Lemma tally_replicate n x : p x = false -> tally (replicate n x) = 0.
Proof. intros Hx. unfold tally. induction n as [|n IH]; cbn; [done|]. by rewrite Hx, IH. Qed.

End Tally.
