(* ===== verification/Protocol.v ===== *)
(** * Protocol

    The vocabulary of the wire format: limits of the integer types
    ([c3_types.h]), command codes, descriptor masks and chunk codes
    ([io_protocol.h]), compressor codes ([c3_compressor.h]) and the I/O results
    and states of [io_reader_writer.h]. *)

From S2P Require Import Prelude.

(** ** [c3_types.h] *)

Definition INT_MAX_VAL : Z := 2147483647.
Definition INT_MIN_VAL : Z := -2147483648.
Definition LONG_MAX_VAL : Z := 9223372036854775807.
Definition LONG_MIN_VAL : Z := - LONG_MAX_VAL - 1.
Definition BYTE_MAX_VAL : Z := 255.
Definition USHORT_MAX_VAL : Z := 65535.
Definition UINT_MAX_VAL : Z := 4294967295.
Definition ULONG_MAX_VAL : Z := 18446744073709551615.
Definition INVALID_HASH_VALUE : Z := 0.
Definition INVALID_IPV4_ADDRESS : Z := 0xFFFFFFFF.

Inductive domain_t :=
| DOMAIN_INVALID
| DOMAIN_GLOBAL
| DOMAIN_SESSION
| DOMAIN_FPC.

#[export] Instance domain_t_eq_dec : EqDecision domain_t.
Proof. solve_decision. Defined.

(** ** Command codes *)

Inductive command_t :=
| CMD_INVALID
| CMD_PING
| CMD_CHECK
| CMD_INFO
| CMD_STATS
| CMD_SHUTDOWN
| CMD_LOADCONFIG
| CMD_RESTORE
| CMD_STORE
| CMD_GET
| CMD_SET
| CMD_LOG
| CMD_ROTATE
| CMD_READ
| CMD_WRITE
| CMD_DESTROY
| CMD_GC
| CMD_LOAD
| CMD_TEST
| CMD_SAVE
| CMD_REMOVE
| CMD_CLEAN
| CMD_GETIDS
| CMD_GETTAGS
| CMD_GETIDSMATCHINGTAGS
| CMD_GETIDSNOTMATCHINGTAGS
| CMD_GETIDSMATCHINGANYTAGS
| CMD_GETFILLINGPERCENTAGE
| CMD_GETMETADATAS
| CMD_TOUCH.

#[export] Instance command_t_eq_dec : EqDecision command_t.
Proof. solve_decision. Defined.

(** The byte that stands for a command on the wire. *)
Definition command_code (c : command_t) : Z :=
  match c with
  | CMD_INVALID => 0x00
  | CMD_PING => 0x01
  | CMD_CHECK => 0x02
  | CMD_INFO => 0x10
  | CMD_STATS => 0x11
  | CMD_SHUTDOWN => 0xF0
  | CMD_LOADCONFIG => 0xF1
  | CMD_RESTORE => 0xF2
  | CMD_STORE => 0xF3
  | CMD_GET => 0xF5
  | CMD_SET => 0xF6
  | CMD_LOG => 0xFA
  | CMD_ROTATE => 0xFB
  | CMD_READ => 0x21
  | CMD_WRITE => 0x22
  | CMD_DESTROY => 0x23
  | CMD_GC => 0x24
  | CMD_LOAD => 0x41
  | CMD_TEST => 0x42
  | CMD_SAVE => 0x43
  | CMD_REMOVE => 0x44
  | CMD_CLEAN => 0x45
  | CMD_GETIDS => 0x61
  | CMD_GETTAGS => 0x62
  | CMD_GETIDSMATCHINGTAGS => 0x63
  | CMD_GETIDSNOTMATCHINGTAGS => 0x64
  | CMD_GETIDSMATCHINGANYTAGS => 0x65
  | CMD_GETFILLINGPERCENTAGE => 0x67
  | CMD_GETMETADATAS => 0x68
  | CMD_TOUCH => 0x69
  end.

(** ** Command descriptor *)

Definition DESC_AUTH_BITS : Z := 0x03.
Definition DESC_NO_AUTH : Z := 0x00.
Definition DESC_USER_AUTH : Z := 0x01.
Definition DESC_ADMIN_AUTH : Z := 0x02.
Definition DESC_BULK_AUTH : Z := 0x03.

Definition DESC_HEADER_BITS : Z := 0x0C.
Definition DESC_NO_HEADER : Z := 0x00.
Definition DESC_BYTE_HEADER : Z := 0x04.
Definition DESC_WORD_HEADER : Z := 0x08.
Definition DESC_DWORD_HEADER : Z := 0x0C.

Definition DESC_PAYLOAD_BITS : Z := 0x30.
Definition DESC_NO_PAYLOAD : Z := 0x00.
Definition DESC_BYTE_PAYLOAD : Z := 0x10.
Definition DESC_WORD_PAYLOAD : Z := 0x20.
Definition DESC_DWORD_PAYLOAD : Z := 0x30.

Definition DESC_PAYLOAD_IS_COMPRESSED : Z := 0x40.
Definition DESC_MARKER_IS_PRESENT : Z := 0x80.

(** ** Header data chunks *)

Definition CHNK_TYPE_BITS : Z := 0xC0.
Definition CHNK_INTEGER : Z := 0x00.
Definition CHNK_STRING : Z := 0x40.
Definition CHNK_LIST : Z := 0x80.
Definition CHNK_SUBTYPE : Z := 0xC0.
Definition CHNK_LONG_MASK : Z := 0x3F.

Definition CHNK_SUBTYPE_BITS : Z := 0x38.
Definition CHNK_SMALL_NEGATIVE : Z := 0.
Definition CHNK_BIG_NEGATIVE : Z := Z.shiftl 1 3.
Definition CHNK_SMALL_INTEGER : Z := Z.shiftl 2 3.
Definition CHNK_SHORT_STRING : Z := Z.shiftl 3 3.
Definition CHNK_SHORT_LIST : Z := Z.shiftl 4 3.
Definition CHNK_BIG_INTEGER : Z := Z.shiftl 5 3.
Definition CHNK_LONG_STRING : Z := Z.shiftl 6 3.
Definition CHNK_LONG_LIST : Z := Z.shiftl 7 3.
Definition CHNK_SHORT_MASK : Z := 0x07.

Definition CHNK_MEDIUM_BIAS : Z := 8.
Definition CHNK_INTEGER_BIAS : Z := CHNK_MEDIUM_BIAS.
Definition CHNK_STRING_BIAS : Z := CHNK_MEDIUM_BIAS.
Definition CHNK_LIST_BIAS : Z := CHNK_MEDIUM_BIAS.

Definition CHNK_LARGE_BIAS : Z := 72.
Definition CHNK_BIG_INTEGER_BIAS : Z := CHNK_LARGE_BIAS.
Definition CHNK_LONG_STRING_BIAS : Z := CHNK_LARGE_BIAS.
Definition CHNK_LONG_LIST_BIAS : Z := CHNK_LARGE_BIAS.
Definition CHNK_SMALL_NEGATIVE_BIAS : Z := -1.
Definition CHNK_BIG_NEGATIVE_BIAS : Z := -9.

(** ** Response descriptor *)

Definition RESP_TYPE_BITS : Z := 0x03.
Definition RESP_TYPE_OK : Z := 0x00.
Definition RESP_TYPE_DATA : Z := 0x01.
Definition RESP_TYPE_LIST : Z := 0x02.
Definition RESP_TYPE_ERROR : Z := 0x03.

Definition RESP_HEADER_BITS : Z := DESC_HEADER_BITS.
Definition RESP_NO_HEADER : Z := DESC_NO_HEADER.
Definition RESP_BYTE_HEADER : Z := DESC_BYTE_HEADER.
Definition RESP_WORD_HEADER : Z := DESC_WORD_HEADER.
Definition RESP_DWORD_HEADER : Z := DESC_DWORD_HEADER.

Definition RESP_PAYLOAD_BITS : Z := DESC_PAYLOAD_BITS.
Definition RESP_NO_PAYLOAD : Z := DESC_NO_PAYLOAD.
Definition RESP_BYTE_PAYLOAD : Z := DESC_BYTE_PAYLOAD.
Definition RESP_WORD_PAYLOAD : Z := DESC_WORD_PAYLOAD.
Definition RESP_DWORD_PAYLOAD : Z := DESC_DWORD_PAYLOAD.

Definition RESP_PAYLOAD_IS_COMPRESSED : Z := DESC_PAYLOAD_IS_COMPRESSED.
Definition RESP_MARKER_IS_PRESENT : Z := DESC_MARKER_IS_PRESENT.

Definition C3_INTEGRITY_MARKER : Z := 0xC3.

(** ** User agents and cleanup modes *)

Inductive user_agent_t :=
| UA_UNKNOWN
| UA_BOT
| UA_WARMER
| UA_USER
| UA_NUMBER_OF_ELEMENTS.

#[export] Instance user_agent_t_eq_dec : EqDecision user_agent_t.
Proof. solve_decision. Defined.

Inductive clean_mode_t :=
| CM_INVALID
| CM_ALL
| CM_OLD
| CM_MATCHING_ALL_TAGS
| CM_NOT_MATCHING_ANY_TAG
| CM_MATCHING_ANY_TAG.

#[export] Instance clean_mode_t_eq_dec : EqDecision clean_mode_t.
Proof. solve_decision. Defined.

(** ** Compressors: the byte codes, as they appear in headers *)

Definition CT_NONE : Z := 0.
Definition CT_LZF : Z := 1.
Definition CT_SNAPPY : Z := 2.
Definition CT_LZ4 : Z := 3.
Definition CT_LZSS3 : Z := 4.
Definition CT_BROTLI : Z := 5.
Definition CT_ZSTD : Z := 6.
Definition CT_ZLIB : Z := 7.
Definition CT_LZHAM : Z := 8.
Definition CT_NUMBER_OF_ELEMENTS : Z := 9.

(** ** I/O results, states and flags *)

Inductive io_result_t :=
| IO_RESULT_OK
| IO_RESULT_ERROR
| IO_RESULT_RETRY
| IO_RESULT_EOF.

#[export] Instance io_result_t_eq_dec : EqDecision io_result_t.
Proof. solve_decision. Defined.

Inductive io_state_t :=
| IO_STATE_INVALID
| IO_STATE_CREATED
| IO_STATE_ERROR
| IO_STATE_RESPONSE_READ_DESCRIPTOR
| IO_STATE_RESPONSE_READ_HEADER_SIZE_BYTES
| IO_STATE_RESPONSE_READ_HEADER_BYTES
| IO_STATE_RESPONSE_READ_PAYLOAD_BYTES
| IO_STATE_RESPONSE_READ_MARKER_BYTE
| IO_STATE_RESPONSE_READ_DONE
| IO_STATE_RESPONSE_WRITE_READY
| IO_STATE_RESPONSE_WRITE_HEADER
| IO_STATE_RESPONSE_WRITE_PAYLOAD
| IO_STATE_RESPONSE_WRITE_MARKER_BYTE
| IO_STATE_RESPONSE_WRITE_DONE
| IO_STATE_COMMAND_READ_DESCRIPTOR
| IO_STATE_COMMAND_READ_HEADER_SIZE_BYTES
| IO_STATE_COMMAND_READ_HEADER_BYTES
| IO_STATE_COMMAND_READ_PAYLOAD_BYTES
| IO_STATE_COMMAND_READ_MARKER_BYTE
| IO_STATE_COMMAND_READ_DONE
| IO_STATE_COMMAND_WRITE_READY
| IO_STATE_COMMAND_WRITE_HEADER
| IO_STATE_COMMAND_WRITE_PAYLOAD
| IO_STATE_COMMAND_WRITE_MARKER_BYTE
| IO_STATE_COMMAND_WRITE_DONE.

#[export] Instance io_state_t_eq_dec : EqDecision io_state_t.
Proof. solve_decision. Defined.

Definition IO_FLAG_IS_READER : Z := 0x01.
Definition IO_FLAG_IS_RESPONSE : Z := 0x02.
Definition IO_FLAG_NETWORK : Z := 0x04.

(** ** Facts *)

(** The byte codes identify the commands. *)
Lemma command_code_inj c d : command_code c = command_code d -> c = d.
Proof. destruct c, d; done. Qed.

Lemma command_code_u8 c : is_u8 (command_code c).
Proof. destruct c; done. Qed.

#[export] Hint Resolve command_code_u8 : c3.
