(* ===== verification/Memory.v ===== *)
(** * Memory

    The accounting half of [Memory] ([c3_memory.h], [c3_memory.cc]): the domain
    quota and the number of bytes allocated through a memory object. The
    operating-system heap itself is outside the program; [malloc] is taken to
    succeed, since [alloc], [calloc] and [realloc] retry until it does. *)

From S2P Require Import Prelude Protocol.

Record Memory := mkMemory {
  m_max_size : Z;
  m_used_size : Z;
  m_domain : domain_t;
}.

Definition kilobytes2bytes (num : Z) : Z := u64 (1024 * num).
Definition megabytes2bytes (num : Z) : Z := u64 (kilobytes2bytes 1024 * num).
Definition gigabytes2bytes (num : Z) : Z := u64 (megabytes2bytes 1024 * num).

Definition DEFAULT_QUOTA : Z := 0.
Definition MIN_QUOTA : Z := megabytes2bytes 8.
(** [MAX_QUOTA] of the Community edition ([LIMITED_MEMORY_QUOTA]). *)
Definition MAX_QUOTA : Z := gigabytes2bytes 32.

Definition is_quota_set (m : Memory) : bool := negb (m_max_size m =? DEFAULT_QUOTA).

Definition set_quota (m : Memory) (new_size : Z) : option Memory :=
  if negb (new_size =? 0) then
    _ ← c3_assert ((MIN_QUOTA <=? new_size) && (new_size <=? MAX_QUOTA));
    Some (mkMemory new_size (m_used_size m) (m_domain m))
  else Some (mkMemory DEFAULT_QUOTA (m_used_size m) (m_domain m)).

(** [m_used_size.fetch_add] and [m_used_size.fetch_sub] on an [atomic_ullong]. *)
Definition fetch_add (m : Memory) (n : Z) : Memory :=
  mkMemory (m_max_size m) (u64 (m_used_size m + n)) (m_domain m).
Definition fetch_sub (m : Memory) (n : Z) : Memory :=
  mkMemory (m_max_size m) (u64 (m_used_size m - n)) (m_domain m).

Definition alloc (m : Memory) (size : Z) : option Memory :=
  _ ← c3_assert (negb (size =? 0));
  Some (fetch_add m size).

Definition calloc (m : Memory) (nelems esize : Z) : option Memory :=
  _ ← c3_assert (negb (nelems =? 0) && negb (esize =? 0));
  Some (fetch_add m (u64 (nelems * esize))).

Definition realloc (m : Memory) (new_size old_size : Z) : option Memory :=
  _ ← c3_assert (negb (new_size =? 0) && negb (old_size =? 0) && negb (new_size =? old_size));
  if old_size <? new_size then Some (fetch_add m (new_size - old_size))
  else
    let diff := old_size - new_size in
    _ ← c3_assert (diff <=? m_used_size m);
    Some (fetch_sub m diff).

Definition free (m : Memory) (size : Z) : option Memory :=
  _ ← c3_assert (negb (size =? 0));
  _ ← c3_assert (size <=? m_used_size m);
  Some (fetch_sub m size).

(** [to.transfer_used_size(from, size)] for two distinct memory objects. *)
Definition transfer_used_size (to from : Memory) (size : Z) : option (Memory * Memory) :=
  _ ← c3_assert (negb (size =? 0));
  _ ← c3_assert (size <=? m_used_size from);
  Some (fetch_add to size, fetch_sub from size).

(** ** Properties *)

(** [mem_room m n]: [n] more bytes do not overflow the 64-bit counter. *)
Definition mem_room (m : Memory) (n : Z) : Prop :=
  0 <= m_used_size m /\ 0 <= n /\ m_used_size m + n < 2 ^ 64.

Lemma fetch_add_used m n : mem_room m n -> m_used_size (fetch_add m n) = m_used_size m + n.
Proof. intros (? & ? & ?). cbn. apply u64_small. unfold is_u64. lia. Qed.

Lemma fetch_sub_used m n :
  0 <= n <= m_used_size m -> m_used_size m < 2 ^ 64 ->
  m_used_size (fetch_sub m n) = m_used_size m - n.
Proof. intros. cbn. apply u64_small. unfold is_u64. lia. Qed.

Lemma memory_eq m m' :
  m_max_size m = m_max_size m' -> m_used_size m = m_used_size m' ->
  m_domain m = m_domain m' -> m = m'.
Proof. destruct m, m'; cbn; congruence. Qed.

Lemma fetch_sub_add m n : mem_room m n -> fetch_sub (fetch_add m n) n = m.
Proof.
  intros H. pose proof H as (? & ? & ?). apply memory_eq; [done| |done].
  rewrite fetch_sub_used; rewrite ?fetch_add_used by done; lia.
Qed.

Lemma alloc_ok m n :
  mem_room m n -> n <> 0 ->
  alloc m n = Some (fetch_add m n).
Proof. intros. unfold alloc. destruct (n =? 0) eqn:E; zbool; [lia|done]. Qed.

Lemma free_ok m n :
  0 < n <= m_used_size m -> free m n = Some (fetch_sub m n).
Proof.
  intros. unfold free. destruct (n =? 0) eqn:E; zbool; [lia|].
  destruct (n <=? _) eqn:E'; zbool; [done|lia].
Qed.

(** Freeing what was allocated restores the domain's accounting. *)
Lemma alloc_free_cancel m n m' :
  mem_room m n -> 0 < n -> alloc m n = Some m' -> free m' n = Some m.
Proof.
  intros Hr Hn Ha. rewrite alloc_ok in Ha by (done || lia). inv_opt.
  rewrite free_ok; [by rewrite fetch_sub_add|].
  rewrite fetch_add_used by done. destruct Hr. lia.
Qed.

(** A transfer moves the bytes between domains: the total is conserved. *)
Lemma transfer_conserves to from size to' from' :
  mem_room to size -> m_used_size from < 2 ^ 64 ->
  transfer_used_size to from size = Some (to', from') ->
  m_used_size to' + m_used_size from' = m_used_size to + m_used_size from.
Proof.
  unfold transfer_used_size. intros Hr Hf H. inv_opt.
  rewrite fetch_add_used by done. rewrite fetch_sub_used; destruct Hr; lia.
Qed.
