(* ===== verification/Utils.v ===== *)
(** * Utils

    The integer helpers of [c3_utils.h] and [c3_utils.cc]: powers of two, which
    size the queues and hash tables and whose masks index them. *)

From S2P Require Import Prelude.

Definition get_next_power_of_2 (num : Z) : Z :=
  let num := u32 (num - 1) in
  let num := Z.lor num (Z.shiftr num 1) in
  let num := Z.lor num (Z.shiftr num 2) in
  let num := Z.lor num (Z.shiftr num 4) in
  let num := Z.lor num (Z.shiftr num 8) in
  let num := Z.lor num (Z.shiftr num 16) in
  u32 (num + 1).

Definition is_power_of_2 (num : Z) : bool := Z.land num (u32 (num - 1)) =? 0.

(** ** Specification *)

(** [pow2 n]: a power of two that fits an unsigned 32-bit integer. *)
Definition pow2 (n : Z) : Prop := exists k, 0 <= k < 32 /\ n = 2 ^ k.

Lemma pow2_pos n : pow2 n -> 0 < n < 2 ^ 32.
Proof.
  intros (k & Hk & ->). split; [apply Z.pow_pos_nonneg; lia|].
  apply Z.pow_lt_mono_r; lia.
Qed.

(** A mask of a power of two is the remainder. *)
Lemma pow2_mask n x : pow2 n -> Z.land x (n - 1) = x mod n.
Proof.
  intros (k & Hk & ->). rewrite Z.sub_1_r, <- Z.ones_equiv. apply Z.land_ones. lia.
Qed.

Lemma pow2_mod_u32 n x : pow2 n -> u32 x mod n = x mod n.
Proof.
  intros (k & Hk & ->). unfold u32.
  replace (2 ^ 32) with (2 ^ k * 2 ^ (32 - k)) by (rewrite <- Z.pow_add_r; [f_equal; lia|lia|lia]).
  rewrite Z.rem_mul_r; [|apply Z.pow_nonzero; lia|apply Z.pow_pos_nonneg; lia].
  rewrite Z.mul_comm, Z.mod_add by (apply Z.pow_nonzero; lia).
  apply Z.mod_mod, Z.pow_nonzero; lia.
Qed.

(** Two powers of two: the smaller one divides the larger one. *)
Lemma pow2_double_le m n : pow2 m -> pow2 n -> m < n -> 2 * m <= n.
Proof.
  intros (j & Hj & ->) (k & Hk & ->) Hlt.
  assert (j < k) by (apply (Z.pow_lt_mono_r_iff 2); lia).
  rewrite <- Z.pow_succ_r by lia. apply Z.pow_le_mono_r; lia.
Qed.

Lemma pow2_double n : pow2 n -> n < 2 ^ 31 -> pow2 (2 * n).
Proof.
  intros (k & Hk & ->) Hlt. exists (Z.succ k).
  assert (k < 31) by (apply (Z.pow_lt_mono_r_iff 2); lia).
  rewrite Z.pow_succ_r by lia. lia.
Qed.

(** ** [get_next_power_of_2] *)

(** [spread x w y]: bit [i] of [y] is set iff one of the [w] bits of [x] from [i]
    on is. *)
Definition spread (x w y : Z) : Prop :=
  0 <= y /\ forall i, 0 <= i -> (Z.testbit y i = true <-> exists j, i <= j < i + w /\ Z.testbit x j = true).

Lemma spread_init x : 0 <= x -> spread x 1 x.
Proof.
  split; [done|]. intros i Hi; split.
  - intros; exists i; split; [lia|done].
  - intros (j & Hj & Hb). by replace i with j by lia.
Qed.

Lemma spread_step x w y : 0 < w -> spread x w y -> spread x (w + w) (Z.lor y (Z.shiftr y w)).
Proof.
  intros Hw (Hy & H). split; [apply Z.lor_nonneg; split; [done|by apply Z.shiftr_nonneg]|].
  intros i Hi. rewrite Z.lor_spec, Z.shiftr_spec by lia. rewrite orb_true_iff.
  rewrite (H i) by lia. rewrite (H (i + w)) by lia. split.
  - intros [(j & Hj & Hb)|(j & Hj & Hb)]; exists j; (split; [lia|done]).
  - intros (j & Hj & Hb). destruct (decide (j < i + w)); [left|right]; exists j; (split; [lia|done]).
Qed.

(** Spreading over the whole width sets all bits up to the highest one. *)
Lemma spread_ones x y : 0 < x < 2 ^ 32 -> spread x 32 y -> y = Z.ones (Z.log2 x + 1).
Proof.
  intros Hx (Hy & H). pose proof (Z.log2_nonneg x).
  apply Z.bits_inj'. intros i Hi. apply eq_true_iff_eq. rewrite H by done.
  rewrite Z.testbit_ones_nonneg by lia. rewrite Z.ltb_lt.
  assert (Z.log2 x < 32) by (apply Z.log2_lt_pow2; lia). split.
  - intros (j & Hj & Hb). destruct (decide (Z.log2 x < j)) as [Hlt|]; [|lia].
    rewrite Z.bits_above_log2 in Hb by lia. done.
  - intros Hi'. exists (Z.log2 x). split; [lia|]. apply Z.bit_log2. lia.
Qed.

Lemma next_power_of_2_ones n :
  1 < n <= 2 ^ 32 -> get_next_power_of_2 n = u32 (2 ^ (Z.log2 (n - 1) + 1)).
Proof.
  intros Hn. unfold get_next_power_of_2. rewrite (u32_small (n - 1)) by (unfold is_u32; lia).
  f_equal. rewrite (spread_ones (n - 1) (Z.lor _ _)); [|lia|].
  - rewrite Z.ones_equiv. lia.
  - apply (spread_step _ 16); [lia|]. apply (spread_step _ 8); [lia|].
    apply (spread_step _ 4); [lia|]. apply (spread_step _ 2); [lia|].
    apply (spread_step _ 1); [lia|]. apply spread_init. lia.
Qed.

(** The result is the least power of two that is not less than the argument. *)
Lemma get_next_power_of_2_ok n :
  1 <= n <= 2 ^ 31 ->
  pow2 (get_next_power_of_2 n) /\ n <= get_next_power_of_2 n < 2 * n.
Proof.
  intros Hn. destruct (decide (n = 1)) as [->|Hne].
  { split; [by exists 0|by vm_compute]. }
  rewrite next_power_of_2_ones by lia.
  pose proof (Z.log2_spec (n - 1) ltac:(lia)) as [Hlo Hhi]. pose proof (Z.log2_nonneg (n - 1)).
  assert (Z.log2 (n - 1) < 31) by (apply Z.log2_lt_pow2; lia).
  rewrite Z.add_1_r. rewrite Z.pow_succ_r in * by lia.
  assert (2 ^ Z.log2 (n - 1) <= 2 ^ 30) by (apply Z.pow_le_mono_r; lia).
  rewrite u32_small by (unfold is_u32; lia). split.
  - exists (Z.succ (Z.log2 (n - 1))). rewrite Z.pow_succ_r by lia. lia.
  - lia.
Qed.

(** Zero, and everything above [2 ^ 31], wraps to zero. *)
Lemma get_next_power_of_2_wraps n :
  n = 0 \/ 2 ^ 31 < n < 2 ^ 32 -> get_next_power_of_2 n = 0.
Proof.
  intros [->|Hn]; [done|]. rewrite next_power_of_2_ones by lia.
  assert (Z.log2 (n - 1) = 31) as -> by (apply Z.log2_unique; lia). done.
Qed.

Lemma get_next_power_of_2_pow2 n : pow2 n -> get_next_power_of_2 n = n.
Proof.
  intros (k & Hk & ->). destruct (decide (k = 0)) as [->|Hne]; [done|].
  assert (2 ^ 1 <= 2 ^ k) by (apply Z.pow_le_mono_r; lia).
  assert (2 ^ k < 2 ^ 32) by (apply Z.pow_lt_mono_r; lia).
  rewrite next_power_of_2_ones by lia.
  replace (Z.log2 (2 ^ k - 1)) with (k - 1) by (rewrite (Z.sub_1_r (2 ^ k)), Z.log2_pred_pow2; lia).
  rewrite Z.sub_add. apply u32_small. unfold is_u32. lia.
Qed.

Lemma get_next_power_of_2_mono m n :
  0 <= m <= n -> pow2 n -> get_next_power_of_2 m <= n.
Proof.
  intros Hm Hn. pose proof (pow2_pos n Hn). destruct (decide (m = 0)) as [->|Hz].
  { change (get_next_power_of_2 0) with 0. lia. }
  destruct (decide (m <= 2 ^ 31)) as [Hle|Hgt].
  - destruct (get_next_power_of_2_ok m) as [Hp Hb]; [lia|].
    destruct (decide (get_next_power_of_2 m <= n)) as [|Hbad]; [done|].
    pose proof (pow2_double_le _ _ Hn Hp). lia.
  - rewrite get_next_power_of_2_wraps by lia. lia.
Qed.

(** ** [is_power_of_2] *)

Lemma is_power_of_2_ok n : 0 < n < 2 ^ 32 -> is_power_of_2 n = true <-> pow2 n.
Proof.
  intros Hn. unfold is_power_of_2. rewrite u32_small by (unfold is_u32; lia).
  rewrite Z.eqb_eq. split; cycle 1.
  { intros Hp. rewrite pow2_mask by done. apply Z.mod_same. lia. }
  intros Hl. exists (Z.log2 n). pose proof (Z.log2_nonneg n).
  assert (Z.log2 n < 32) by (apply Z.log2_lt_pow2; lia). split; [lia|].
  pose proof (Z.log2_spec n ltac:(lia)) as [Hlo Hhi]. rewrite Z.pow_succ_r in Hhi by lia.
  destruct (decide (n = 2 ^ Z.log2 n)) as [|Hne]; [done|exfalso].
  assert (Z.log2 (n - 1) = Z.log2 n) as Hlog by (apply Z.log2_unique; [done|rewrite Z.pow_succ_r by lia; lia]).
  assert (Z.testbit (Z.land n (n - 1)) (Z.log2 n) = true) as Hb.
  { rewrite Z.land_spec, Z.bit_log2 by lia. rewrite <- Hlog. rewrite Z.bit_log2; [done|].
    assert (1 <= 2 ^ Z.log2 n) by (apply (Z.pow_le_mono_r 2 0); lia). lia. }
  rewrite Hl, Z.bits_0 in Hb. done.
Qed.
