(* ===== verification/Buffers.v ===== *)
(** * Buffers

    [DataBuffer] ([io_data_buffer.h/.cc]), [SharedBuffers]
    ([io_shared_buffers.h/.cc]) and the data and accessors of [ReaderWriter]
    ([io_reader_writer.h/.cc]). Freshly allocated memory holds unspecified
    bytes: they are read from the variable [junk], over which every theorem is
    quantified. The memory object is part of the state of the buffers that use
    it. *)

From S2P Require Import Prelude Protocol Memory.

(** ** [DataBuffer] *)

Record DataBuffer := mkDataBuffer {
  db_buffer : option bytes;
  db_size : Z;
}.

Definition empty_db : DataBuffer := mkDataBuffer None 0.

Definition db_bytes (db : DataBuffer) : bytes := default [] (db_buffer db).

(** [validate()] *)
Definition db_validate (db : DataBuffer) : option unit :=
  c3_assert match db_buffer db with
            | None => db_size db =? 0
            | Some _ => negb (db_size db =? 0)
            end.

Definition db_empty (mem : Memory) (db : DataBuffer) : option (Memory * DataBuffer) :=
  _ ← db_validate db;
  match db_buffer db with
  | Some _ => mem' ← free mem (db_size db); Some (mem', empty_db)
  | None => Some (mem, empty_db)
  end.

(** [reset_buffer_transferred_to_another_object()]: forgets, does not free. *)
Definition db_reset (db : DataBuffer) : option DataBuffer :=
  _ ← db_validate db; Some empty_db.

(** [get_bytes(offset, size)]: the pointer is the offset itself. *)
Definition db_get_bytes (db : DataBuffer) (offset size : Z) : option Z :=
  _ ← db_validate db;
  _ ← c3_assert (u32 (offset + size) <=? db_size db);
  _ ← c3_assert (bool_decide (is_Some (db_buffer db)));
  Some offset.

Section Junk.
Context (junk : nat -> Z).

(** A block of [n] bytes as [malloc] returns it. *)
Definition fresh (n : Z) : bytes := junk <$> seq 0 (Z.to_nat n).

(** The block [realloc] returns: the common prefix is kept. *)
Definition regrown (old : bytes) (n : Z) : bytes :=
  take (Z.to_nat n) (old ++ drop (length old) (fresh n)).

Definition db_set_size (mem : Memory) (db : DataBuffer) (size : Z)
  : option (Memory * DataBuffer) :=
  _ ← c3_assert (negb (size =? 0));
  _ ← db_validate db;
  match db_buffer db with
  | Some old =>
      if negb (db_size db =? size) then
        mem' ← realloc mem size (db_size db);
        Some (mem', mkDataBuffer (Some (regrown old size)) size)
      else Some (mem, db)
  | None =>
      mem' ← alloc mem size;
      Some (mem', mkDataBuffer (Some (fresh size)) size)
  end.

(** ** [SharedBuffers] *)

Definition AUX_DATA_SIZE : Z := 12.

Record SharedBuffers := mkSharedBuffers {
  sb_memory : Memory;
  sb_data : DataBuffer;
  sb_payload : DataBuffer;
  sb_aux : bytes;
  sb_nrefs : Z;
}.

Definition with_memory (sb : SharedBuffers) (m : Memory) : SharedBuffers :=
  mkSharedBuffers m (sb_data sb) (sb_payload sb) (sb_aux sb) (sb_nrefs sb).
Definition with_data (sb : SharedBuffers) (d : DataBuffer) : SharedBuffers :=
  mkSharedBuffers (sb_memory sb) d (sb_payload sb) (sb_aux sb) (sb_nrefs sb).
Definition with_payload (sb : SharedBuffers) (d : DataBuffer) : SharedBuffers :=
  mkSharedBuffers (sb_memory sb) (sb_data sb) d (sb_aux sb) (sb_nrefs sb).
Definition with_aux (sb : SharedBuffers) (a : bytes) : SharedBuffers :=
  mkSharedBuffers (sb_memory sb) (sb_data sb) (sb_payload sb) a (sb_nrefs sb).
Definition with_nrefs (sb : SharedBuffers) (n : Z) : SharedBuffers :=
  mkSharedBuffers (sb_memory sb) (sb_data sb) (sb_payload sb) (sb_aux sb) n.

(** The state of a [SharedBuffers] object after its constructor. The block of
    the object itself is accounted by [create]. *)
Definition sb_init (m : Memory) : SharedBuffers :=
  mkSharedBuffers m empty_db empty_db (fresh AUX_DATA_SIZE) 0.

Definition add_reference (sb : SharedBuffers) : SharedBuffers :=
  with_nrefs sb (u32 (sb_nrefs sb + 1)).

(** [remove_reference()]: [true] when the last reference went away and the
    buffers were released ([obj_size] is the size of the object's own block). *)
Definition remove_reference (sb : SharedBuffers) (obj_size : Z)
  : option (bool * SharedBuffers) :=
  _ ← c3_assert (1 <=? sb_nrefs sb);
  let prev := sb_nrefs sb in
  let sb := with_nrefs sb (u32 (prev - 1)) in
  if prev =? 1 then
    '(m, d) ← db_empty (sb_memory sb) (sb_data sb);
    '(m, p) ← db_empty m (sb_payload sb);
    let sb := with_payload (with_data sb d) p in
    _ ← c3_assert ((sb_nrefs sb =? 0) && (db_size (sb_data sb) =? 0)
                   && (db_size (sb_payload sb) =? 0));
    m ← free m obj_size;
    Some (true, with_memory sb m)
  else Some (false, sb).

Definition using_static_header (sb : SharedBuffers) : bool := db_size (sb_data sb) =? 0.

Definition get_available_header_size (sb : SharedBuffers) : Z :=
  let size := db_size (sb_data sb) in if 0 <? size then size else AUX_DATA_SIZE.

Definition get_header_bytes (sb : SharedBuffers) (offset size : Z) : option Z :=
  if 0 <? db_size (sb_data sb) then db_get_bytes (sb_data sb) offset size
  else _ ← c3_assert (u32 (offset + size) <=? AUX_DATA_SIZE); Some offset.

(** The block a pointer returned by [get_header_bytes] points into. *)
Definition header_buffer (sb : SharedBuffers) : bytes :=
  if 0 <? db_size (sb_data sb) then db_bytes (sb_data sb) else sb_aux sb.

Definition set_header_buffer (sb : SharedBuffers) (b : bytes) : SharedBuffers :=
  if 0 <? db_size (sb_data sb) then with_data sb (mkDataBuffer (Some b) (db_size (sb_data sb)))
  else with_aux sb b.

(** Loads and stores through such a pointer. *)
Definition hdr_load (sb : SharedBuffers) (p n : Z) : option bytes :=
  slice (header_buffer sb) p n.
Definition hdr_store (sb : SharedBuffers) (p : Z) (bs : bytes) : option SharedBuffers :=
  b ← blit (header_buffer sb) p bs; Some (set_header_buffer sb b).

Definition sb_configure_header (sb : SharedBuffers) (used_size full_size : Z)
  : option SharedBuffers :=
  _ ← c3_assert ((used_size <=? AUX_DATA_SIZE) && (used_size <? full_size));
  if AUX_DATA_SIZE <? full_size then
    '(m, d) ← db_set_size (sb_memory sb) (sb_data sb) full_size;
    used ← slice (sb_aux sb) 0 used_size;
    b ← blit (db_bytes d) 0 used;
    Some (with_data (with_memory sb m) (mkDataBuffer (Some b) (db_size d)))
  else Some sb.

Definition get_payload_size (sb : SharedBuffers) : Z := db_size (sb_payload sb).

Definition get_payload_bytes (sb : SharedBuffers) (offset size : Z) : option Z :=
  db_get_bytes (sb_payload sb) offset size.

Definition set_payload_size (sb : SharedBuffers) (size : Z) : option SharedBuffers :=
  '(m, d) ← db_set_size (sb_memory sb) (sb_payload sb) size;
  Some (with_payload (with_memory sb m) d).

Definition payload_load (sb : SharedBuffers) (p n : Z) : option bytes :=
  slice (db_bytes (sb_payload sb)) p n.
Definition payload_store (sb : SharedBuffers) (p : Z) (bs : bytes) : option SharedBuffers :=
  b ← blit (db_bytes (sb_payload sb)) p bs;
  Some (with_payload sb (mkDataBuffer (Some b) (db_size (sb_payload sb)))).

End Junk.

(** ** Integer accessors of [ReaderWriter]

    Little-endian with unaligned access, the default configuration of
    [c3_build.h]. *)

Definition get_header_byte_at (sb : SharedBuffers) (i : Z) : option Z :=
  p ← get_header_bytes sb i 1; byte_at (header_buffer sb) p.

Definition get_header_ushort_at (sb : SharedBuffers) (i : Z) : option Z :=
  p ← get_header_bytes sb i 2; bs ← hdr_load sb p 2; Some (le_val bs).

Definition get_header_uint3_at (sb : SharedBuffers) (i : Z) : option Z :=
  p ← get_header_bytes sb i 3; bs ← hdr_load sb p 3; Some (le_val bs).

Definition get_header_uint_at (sb : SharedBuffers) (i : Z) : option Z :=
  p ← get_header_bytes sb i 4; bs ← hdr_load sb p 4; Some (le_val bs).

Definition get_header_ulong_at (sb : SharedBuffers) (i : Z) : option Z :=
  p ← get_header_bytes sb i 8; bs ← hdr_load sb p 8; Some (le_val bs).

(** What becomes of a store through a pointer that was asked for with [get_header_bytes(i, checked)]: the
    assertion on the range fails, or the store goes past the end of the block, by so many
    bytes, or it is done. *)
Inductive store_outcome := SO_ASSERTION | SO_OVERRUN (past_end : Z) | SO_STORED (sb : SharedBuffers).

Definition hdr_put (sb : SharedBuffers) (i checked : Z) (bs : bytes) : store_outcome :=
  match get_header_bytes sb i checked with
  | None => SO_ASSERTION
  | Some p =>
      match hdr_store sb p bs with
      | None => SO_OVERRUN (p + zlen bs - zlen (header_buffer sb))
      | Some sb => SO_STORED sb
      end
  end.

(** The setters for 3, 4 and 8 bytes ask [get_header_bytes] for 2 bytes only. *)
Definition put_header_byte_at (sb : SharedBuffers) (i n : Z) : store_outcome := hdr_put sb i 1 [u8 n].
Definition put_header_ushort_at (sb : SharedBuffers) (i n : Z) : store_outcome := hdr_put sb i 2 (le_bytes 2 n).
Definition put_header_uint3_at (sb : SharedBuffers) (i n : Z) : store_outcome := hdr_put sb i 2 (le_bytes 3 n).
Definition put_header_uint_at (sb : SharedBuffers) (i n : Z) : store_outcome := hdr_put sb i 2 (le_bytes 4 n).
Definition put_header_ulong_at (sb : SharedBuffers) (i n : Z) : store_outcome := hdr_put sb i 2 (le_bytes 8 n).

(** Callers need the store to be done. *)
Definition stored (r : store_outcome) : option SharedBuffers :=
  match r with SO_STORED sb => Some sb | _ => None end.

Definition set_header_byte_at (sb : SharedBuffers) (i n : Z) : option SharedBuffers := stored (put_header_byte_at sb i n).
Definition set_header_ushort_at (sb : SharedBuffers) (i n : Z) : option SharedBuffers := stored (put_header_ushort_at sb i n).
Definition set_header_uint3_at (sb : SharedBuffers) (i n : Z) : option SharedBuffers := stored (put_header_uint3_at sb i n).
Definition set_header_uint_at (sb : SharedBuffers) (i n : Z) : option SharedBuffers := stored (put_header_uint_at sb i n).
Definition set_header_ulong_at (sb : SharedBuffers) (i n : Z) : option SharedBuffers := stored (put_header_ulong_at sb i n).

(** ** [ReaderWriter]: the data members *)

Record ReaderWriter := mkReaderWriter {
  rw_sb : SharedBuffers;
  rw_fd : Z;
  rw_ipv4 : Z;
  rw_pos : Z;
  rw_remains : Z;
  rw_domain : domain_t;
  rw_state : io_state_t;
  rw_flags : Z;
}.

Definition rw_with_sb (rw : ReaderWriter) (sb : SharedBuffers) : ReaderWriter :=
  mkReaderWriter sb (rw_fd rw) (rw_ipv4 rw) (rw_pos rw) (rw_remains rw)
    (rw_domain rw) (rw_state rw) (rw_flags rw).

(** Position, remaining bytes and state, the part the I/O automata change. *)
Definition rw_at (rw : ReaderWriter) (pos remains : Z) (st : io_state_t) : ReaderWriter :=
  mkReaderWriter (rw_sb rw) (rw_fd rw) (rw_ipv4 rw) pos remains (rw_domain rw) st
    (rw_flags rw).

Definition rw_with_state (rw : ReaderWriter) (st : io_state_t) : ReaderWriter :=
  rw_at rw (rw_pos rw) (rw_remains rw) st.

(** Constructor [ReaderWriter(memory, flags, fd, ipv4, sb)]. *)
Definition rw_create (domain : domain_t) (flags fd ipv4 : Z) (sb : SharedBuffers)
  : option ReaderWriter :=
  _ ← c3_assert (0 <=? fd);
  Some (mkReaderWriter (add_reference sb) fd ipv4 0 0 domain IO_STATE_CREATED flags).

Definition is_set (rw : ReaderWriter) (flags : Z) : bool := negb (Z.land (rw_flags rw) flags =? 0).
Definition is_clear (rw : ReaderWriter) (flags : Z) : bool := Z.land (rw_flags rw) flags =? 0.
Definition rw_is_valid (rw : ReaderWriter) : bool :=
  bool_decide (rw_state rw <> IO_STATE_INVALID) && (0 <=? rw_fd rw).
Definition rw_is_active (rw : ReaderWriter) : bool :=
  bool_decide (rw_state rw <> IO_STATE_INVALID) && (0 <? rw_fd rw).

Definition set_error_state (rw : ReaderWriter) : ReaderWriter :=
  rw_at rw UINT_MAX_VAL 0 IO_STATE_ERROR.

Definition header_is_not_initialized (rw : ReaderWriter) : bool :=
  using_static_header (rw_sb rw).

Definition initialize_header (junk : nat -> Z) (rw : ReaderWriter) (size : Z)
  : option ReaderWriter :=
  _ ← c3_assert (header_is_not_initialized rw);
  sb ← sb_configure_header junk (rw_sb rw) 0 size;
  Some (rw_with_sb rw sb).

Definition command_writer_set_ready_state (rw : ReaderWriter) : option ReaderWriter :=
  _ ← c3_assert (is_clear rw IO_FLAG_IS_READER && is_clear rw IO_FLAG_IS_RESPONSE
                 && bool_decide (rw_state rw = IO_STATE_CREATED));
  Some (rw_with_state rw IO_STATE_COMMAND_WRITE_READY).

Definition response_writer_set_ready_state (rw : ReaderWriter) : option ReaderWriter :=
  _ ← c3_assert (is_clear rw IO_FLAG_IS_READER && is_set rw IO_FLAG_IS_RESPONSE
                 && bool_decide (rw_state rw = IO_STATE_CREATED));
  Some (rw_with_state rw IO_STATE_RESPONSE_WRITE_READY).

(** [has_payload_data()] *)
Definition has_payload_data (sb : SharedBuffers) : option bool :=
  d ← get_header_byte_at sb 0; Some (negb (Z.land d DESC_PAYLOAD_BITS =? 0)).

(** ** Well-formed buffers *)

Definition db_ok (db : DataBuffer) : Prop :=
  match db_buffer db with
  | None => db_size db = 0
  | Some b => db_size db = zlen b /\ 0 < zlen b < 2 ^ 32
  end.

Definition sb_ok (sb : SharedBuffers) : Prop :=
  db_ok (sb_data sb) /\ db_ok (sb_payload sb) /\ zlen (sb_aux sb) = AUX_DATA_SIZE.

(** [hdr_frame sb sb']: only header bytes differ. *)
Definition hdr_frame (sb sb' : SharedBuffers) : Prop :=
  sb_memory sb' = sb_memory sb /\ sb_payload sb' = sb_payload sb
  /\ sb_nrefs sb' = sb_nrefs sb /\ db_size (sb_data sb') = db_size (sb_data sb).

#[export] Instance hdr_frame_refl : Reflexive hdr_frame.
Proof. done. Qed.
#[export] Instance hdr_frame_trans : Transitive hdr_frame.
Proof. unfold hdr_frame. intros a b c (?&?&?&?) (?&?&?&?). repeat split; congruence. Qed.

Lemma db_ok_size db : db_ok db -> db_size db = zlen (db_bytes db) /\ 0 <= db_size db < 2 ^ 32.
Proof.
  unfold db_ok, db_bytes. destruct (db_buffer db); cbn; [lia|].
  intros ->. rewrite zlen_nil. lia.
Qed.

Lemma db_ok_validate db : db_ok db -> db_validate db = Some tt.
Proof.
  unfold db_ok, db_validate. destruct (db_buffer db); intros; [|by subst; rewrite H].
  destruct (_ =? 0) eqn:E; zbool; [lia|done].
Qed.

Lemma db_get_bytes_ok db off n :
  db_ok db -> 0 <= off -> 0 <= n -> off + n <= db_size db -> 0 < db_size db ->
  db_get_bytes db off n = Some off.
Proof.
  intros Hok Ho Hn Hle Hpos. unfold db_get_bytes. rewrite (db_ok_validate _ Hok). cbn.
  destruct (db_ok_size _ Hok) as [_ ?].
  rewrite u32_small by (unfold is_u32; lia).
  destruct (_ <=? _) eqn:E; zbool; [|lia]. cbn.
  unfold db_ok in Hok. destruct (db_buffer db); [done|lia].
Qed.

Lemma header_buffer_len sb :
  sb_ok sb -> zlen (header_buffer sb) = get_available_header_size sb.
Proof.
  intros (Hd & _ & Ha). unfold header_buffer, get_available_header_size.
  destruct (0 <? _) eqn:E; [|done]. by destruct (db_ok_size _ Hd).
Qed.

Lemma get_header_bytes_ok sb off n :
  sb_ok sb -> 0 <= off -> 0 <= n -> off + n <= zlen (header_buffer sb) ->
  get_header_bytes sb off n = Some off.
Proof.
  intros Hok Ho Hn Hle. pose proof Hok as (Hd & _ & Ha).
  rewrite header_buffer_len in Hle by done.
  unfold get_header_bytes, get_available_header_size in *.
  destruct (0 <? _) eqn:E; zbool.
  - by apply db_get_bytes_ok.
  - unfold AUX_DATA_SIZE in *. rewrite u32_small by (unfold is_u32; lia).
    destruct (_ <=? 12) eqn:E'; zbool; [done|lia].
Qed.

(** The setters, without the difference between the ways to fail. *)
Lemma stored_hdr_put sb i checked bs : stored (hdr_put sb i checked bs) = (p ← get_header_bytes sb i checked; hdr_store sb p bs).
Proof. unfold hdr_put. destruct (get_header_bytes _ _ _) as [p|]; [|done]. cbn. by destruct (hdr_store _ _ _). Qed.

Lemma set_header_byte_at_eq sb i n : set_header_byte_at sb i n = (p ← get_header_bytes sb i 1; hdr_store sb p [u8 n]).
Proof. apply stored_hdr_put. Qed.
Lemma set_header_ushort_at_eq sb i n : set_header_ushort_at sb i n = (p ← get_header_bytes sb i 2; hdr_store sb p (le_bytes 2 n)).
Proof. apply stored_hdr_put. Qed.
Lemma set_header_uint3_at_eq sb i n : set_header_uint3_at sb i n = (p ← get_header_bytes sb i 2; hdr_store sb p (le_bytes 3 n)).
Proof. apply stored_hdr_put. Qed.
Lemma set_header_uint_at_eq sb i n : set_header_uint_at sb i n = (p ← get_header_bytes sb i 2; hdr_store sb p (le_bytes 4 n)).
Proof. apply stored_hdr_put. Qed.
Lemma set_header_ulong_at_eq sb i n : set_header_ulong_at sb i n = (p ← get_header_bytes sb i 2; hdr_store sb p (le_bytes 8 n)).
Proof. apply stored_hdr_put. Qed.

Lemma hdr_store_ok sb a b c bs :
  sb_ok sb -> header_buffer sb = a ++ b ++ c -> zlen bs = zlen b ->
  exists sb', hdr_store sb (zlen a) bs = Some sb' /\ sb_ok sb' /\ hdr_frame sb sb'
              /\ header_buffer sb' = a ++ bs ++ c.
Proof.
  intros Hok Hb Hl. pose proof (header_buffer_len _ Hok) as Hlen.
  destruct Hok as (Hd & Hp & Ha).
  unfold hdr_store. rewrite Hb, blit_app_mid by done. cbn. eexists; split; [done|].
  assert (zlen (a ++ bs ++ c) = zlen (a ++ b ++ c)) as Hz by (rewrite !zlen_app; lia).
  unfold header_buffer, set_header_buffer, get_available_header_size in *.
  destruct (0 <? db_size (sb_data sb)) eqn:E; cbn; rewrite E; zbool.
  - split; [|done]. split; [|done]. unfold db_ok; cbn.
    destruct (db_ok_size _ Hd). rewrite Hz, <- Hb, Hlen. lia.
  - split; [|done]. split; [done|]. split; [done|]. cbn. by rewrite Hz, <- Hb.
Qed.

(** Beyond the end of the header the assertion fails. *)
Lemma get_header_bytes_fails sb off n :
  sb_ok sb -> 0 <= off -> 0 <= n -> off + n < 2 ^ 32 -> zlen (header_buffer sb) < off + n ->
  get_header_bytes sb off n = None.
Proof.
  intros Hok Ho Hn Hlt Hle. pose proof Hok as (Hd & _ & Ha). rewrite header_buffer_len in Hle by done.
  unfold get_header_bytes, get_available_header_size in *. rewrite (u32_small (off + n)) by (unfold is_u32; lia).
  destruct (0 <? _) eqn:E; zbool.
  - unfold db_get_bytes. rewrite (db_ok_validate _ Hd). cbn [mbind option_bind]. rewrite (u32_small (off + n)) by (unfold is_u32; lia).
    destruct (_ <=? _) eqn:E'; zbool; [lia|done].
  - unfold AUX_DATA_SIZE in *. destruct (_ <=? 12) eqn:E'; zbool; [lia|done].
Qed.

Lemma hdr_store_fails sb p bs : zlen (header_buffer sb) < p + zlen bs -> hdr_store sb p bs = None.
Proof.
  intros Hlt. unfold hdr_store, blit. destruct (p + zlen bs <=? _) eqn:E; zbool; [lia|]. by rewrite andb_false_r.
Qed.

(** ** Reading and writing integers at the boundary of a known prefix *)

Section Access.
Context (sb : SharedBuffers) (Hok : sb_ok sb).

Lemma get_header_byte_at_ok a b c :
  header_buffer sb = a ++ b :: c -> get_header_byte_at sb (zlen a) = Some b.
Proof.
  intros Hb. unfold get_header_byte_at.
  rewrite get_header_bytes_ok; [cbn; by rewrite Hb, byte_at_app_mid|done|auto with c3|lia|].
  rewrite Hb, zlen_app, zlen_cons. pose proof (zlen_nonneg c). lia.
Qed.

Lemma hdr_get_ok a bs c n :
  header_buffer sb = a ++ bs ++ c -> n = zlen bs ->
  (p ← get_header_bytes sb (zlen a) n; x ← hdr_load sb p n; Some (le_val x)) = Some (le_val bs).
Proof.
  intros Hb ->. rewrite get_header_bytes_ok; auto with c3.
  - cbn. unfold hdr_load. by rewrite Hb, slice_app_mid.
  - rewrite Hb, !zlen_app. pose proof (zlen_nonneg c). lia.
Qed.

Lemma get_header_ushort_at_ok a bs c :
  header_buffer sb = a ++ bs ++ c -> zlen bs = 2 ->
  get_header_ushort_at sb (zlen a) = Some (le_val bs).
Proof. intros. by eapply hdr_get_ok. Qed.

Lemma get_header_uint3_at_ok a bs c :
  header_buffer sb = a ++ bs ++ c -> zlen bs = 3 ->
  get_header_uint3_at sb (zlen a) = Some (le_val bs).
Proof. intros. by eapply hdr_get_ok. Qed.

Lemma get_header_uint_at_ok a bs c :
  header_buffer sb = a ++ bs ++ c -> zlen bs = 4 ->
  get_header_uint_at sb (zlen a) = Some (le_val bs).
Proof. intros. by eapply hdr_get_ok. Qed.

Lemma get_header_ulong_at_ok a bs c :
  header_buffer sb = a ++ bs ++ c -> zlen bs = 8 ->
  get_header_ulong_at sb (zlen a) = Some (le_val bs).
Proof. intros. by eapply hdr_get_ok. Qed.

(** [n] bytes checked, [zlen bs >= n] bytes written. *)
Lemma hdr_set_ok a b c n bs :
  header_buffer sb = a ++ b ++ c -> zlen bs = zlen b -> 0 <= n <= zlen bs ->
  exists sb', (p ← get_header_bytes sb (zlen a) n; hdr_store sb p bs) = Some sb'
    /\ sb_ok sb' /\ hdr_frame sb sb' /\ header_buffer sb' = a ++ bs ++ c.
Proof.
  intros Hb Hl Hn. rewrite get_header_bytes_ok; auto with c3; [|lia|].
  - cbn. by eapply hdr_store_ok.
  - rewrite Hb, !zlen_app. pose proof (zlen_nonneg c). lia.
Qed.

End Access.
