(* ===== verification/ChunkBuilder.v ===== *)
(** * ChunkBuilder

    Construction of command and response headers: [io_chunk_builders.h/.cc] with
    the options it reads from [NetworkConfiguration] ([io_net_config.h/.cc]).
    The definitions come first, each over the buffers of [Buffers]; then the
    reference encoding of a header and the proof that the two-phase protocol of
    the builders (estimate everything, configure, add everything, check)
    produces exactly that encoding without any assertion failing. *)

From S2P Require Import Prelude Protocol Memory Buffers.

(** ** [NetworkConfiguration] *)

Record NetworkConfiguration := mkNetworkConfiguration {
  nc_user_password : Z;
  nc_admin_password : Z;
  nc_bulk_password : Z;
  nc_compression_threshold : Z;
  nc_global_compressor : Z;
  nc_session_compressor : Z;
  nc_fpc_compressor : Z;
  nc_command_integrity_check : bool;
  nc_response_integrity_check : bool;
  nc_file_integrity_check : bool;
}.

Definition get_compressor (nc : NetworkConfiguration) (domain : domain_t) : option Z :=
  match domain with
  | DOMAIN_GLOBAL => Some (nc_global_compressor nc)
  | DOMAIN_SESSION => Some (nc_session_compressor nc)
  | DOMAIN_FPC => Some (nc_fpc_compressor nc)
  | DOMAIN_INVALID => None
  end.

(** ** [ChunkBuilder]: entities *)

Definition measure_entity (n : Z) : Z :=
  if n <? CHNK_LARGE_BIAS then 1
  else
    let n := u32 (n - CHNK_LARGE_BIAS) in
    if Z.land n 0xFFFFFF00 =? 0 then 2
    else if Z.land n 0xFFFF0000 =? 0 then 3
    else if Z.land n 0xFF000000 =? 0 then 4
    else 5.

(** [put_entity]: the bytes stored at the destination pointer; the number the
    function returns is their count. *)
Definition put_entity (n small_mask medium_mask large_mask : Z) : bytes :=
  if n <? CHNK_MEDIUM_BIAS then
    [Z.lor (Z.lor CHNK_SUBTYPE small_mask) (u8 n)]
  else if n <? CHNK_LARGE_BIAS then
    [Z.lor medium_mask (u8 (n - CHNK_MEDIUM_BIAS))]
  else
    let n := u32 (n - CHNK_LARGE_BIAS) in
    if Z.land n 0xFFFFFF00 =? 0 then
      Z.lor CHNK_SUBTYPE large_mask :: le_bytes 1 n
    else if Z.land n 0xFFFF0000 =? 0 then
      Z.lor (Z.lor CHNK_SUBTYPE large_mask) 1 :: le_bytes 2 n
    else if Z.land n 0xFF000000 =? 0 then
      Z.lor (Z.lor CHNK_SUBTYPE large_mask) 2 :: le_bytes 3 n
    else
      Z.lor (Z.lor CHNK_SUBTYPE large_mask) 3 :: le_bytes 4 n.

(** ** [ListChunkBuilder] *)

Record ListChunkBuilder := mkListChunkBuilder {
  lcb_buffer : option bytes;
  lcb_allocated_size : Z;
  lcb_used_size : Z;
  lcb_count : Z;
  lcb_memory : Memory;
}.

Definition lcb_init (m : Memory) : ListChunkBuilder := mkListChunkBuilder None 0 0 0 m.

Definition lcb_set_buffer (l : ListChunkBuilder) (b : bytes) (used : Z) : ListChunkBuilder :=
  mkListChunkBuilder (Some b) (lcb_allocated_size l) used (lcb_count l) (lcb_memory l).

(** The destructor frees the buffer. *)
Definition lcb_destroy (l : ListChunkBuilder) : option Memory :=
  match lcb_buffer l with
  | Some _ =>
      _ ← c3_assert (negb (lcb_allocated_size l =? 0));
      free (lcb_memory l) (lcb_allocated_size l)
  | None => Some (lcb_memory l)
  end.

Definition measure_string (size : Z) : Z := u32 (u32 (size / 255 + 1) + size).

(** [lcb_buffer[lcb_used_size++] = b] and [memcpy] at the current position. *)
Definition lcb_store (l : ListChunkBuilder) (bs : bytes) : option ListChunkBuilder :=
  b ← lcb_buffer l;
  b ← blit b (lcb_used_size l) bs;
  Some (lcb_set_buffer l b (u32 (lcb_used_size l + zlen bs))).

(** The [while (n >= 255)] loop of [put_string] and the byte that ends it. *)
Fixpoint put_length (fuel : nat) (l : ListChunkBuilder) (n : Z) : option ListChunkBuilder :=
  match fuel with
  | O => None
  | S fuel =>
      if 255 <=? n then l ← lcb_store l [255]; put_length fuel l (n - 255)
      else lcb_store l [u8 n]
  end.

Definition put_string (l : ListChunkBuilder) (size : Z) (str : bytes) : option ListChunkBuilder :=
  l ← put_length (S (Z.to_nat (size / 255))) l size;
  if 0 <? size then s ← slice str 0 size; lcb_store l s else Some l.

(** ** [HeaderListChunkBuilder] *)

Record HeaderListChunkBuilder := mkHeaderListChunkBuilder {
  hl_lcb : ListChunkBuilder;
  flcb_estimated_size : Z;
}.

Definition hl_init (m : Memory) : HeaderListChunkBuilder :=
  mkHeaderListChunkBuilder (lcb_init m) 0.

Definition hl_estimate (h : HeaderListChunkBuilder) (size : Z)
  : option (Z * HeaderListChunkBuilder) :=
  let l := hl_lcb h in
  _ ← c3_assert (lcb_allocated_size l =? 0);
  let n := measure_string size in
  Some (n, mkHeaderListChunkBuilder
             (mkListChunkBuilder (lcb_buffer l) (lcb_allocated_size l) (lcb_used_size l)
                (u32 (lcb_count l + 1)) (lcb_memory l))
             (u32 (flcb_estimated_size h + n))).

Definition hl_configure (junk : nat -> Z) (h : HeaderListChunkBuilder)
  : option HeaderListChunkBuilder :=
  let l := hl_lcb h in
  _ ← c3_assert (lcb_allocated_size l =? 0);
  let est := u32 (flcb_estimated_size h + measure_entity (lcb_count l)) in
  m ← alloc (lcb_memory l) est;
  let e := put_entity (lcb_count l) CHNK_SHORT_LIST CHNK_LIST CHNK_LONG_LIST in
  b ← blit (fresh junk est) 0 e;
  let used := zlen e in
  _ ← c3_assert (used <=? est);
  Some (mkHeaderListChunkBuilder (mkListChunkBuilder (Some b) est used (lcb_count l) m) est).

Definition hl_add (h : HeaderListChunkBuilder) (size : Z) (str : bytes)
  : option HeaderListChunkBuilder :=
  let l := hl_lcb h in
  _ ← c3_assert (bool_decide (is_Some (lcb_buffer l))
                 && (u32 (lcb_used_size l + measure_string size) <=? lcb_allocated_size l));
  l ← put_string l size str;
  Some (mkHeaderListChunkBuilder l (flcb_estimated_size h)).

Definition hl_check (h : HeaderListChunkBuilder) : option unit :=
  let l := hl_lcb h in
  c3_assert (bool_decide (is_Some (lcb_buffer l)) && (0 <? lcb_allocated_size l)
             && (lcb_allocated_size l =? lcb_used_size l)).

(** ** [PayloadListChunkBuilder] *)

Definition pl_create (junk : nat -> Z) (m : Memory) (min_guess max_guess average_length : Z)
  : option ListChunkBuilder :=
  _ ← c3_assert ((max_guess =? 0) || (min_guess <=? max_guess));
  let min_guess := if min_guess =? 0 then 1 else min_guess in
  let max_guess := if max_guess =? 0 then (if min_guess =? 1 then 64 else min_guess)
                   else max_guess in
  let average_length := if average_length =? 0 then 16 else average_length in
  let average_length := u32 (average_length + 1) in
  let num := if min_guess <? max_guess
             then u32 (min_guess + u32 (u32 (max_guess - min_guess) * 3) / 4)
             else max_guess in
  let size64 := u64 (num * average_length) in
  let size := if UINT_MAX_VAL <? size64 then UINT_MAX_VAL else size64 in
  m ← alloc m size;
  Some (mkListChunkBuilder (Some (fresh junk size)) size 0 0 m).

Definition pl_is_valid (l : ListChunkBuilder) : bool := 0 <? lcb_allocated_size l.

(** The number of bytes by which a full buffer is grown; [None] when the string
    cannot fit below [UINT_MAX_VAL]. *)
Definition pl_extra_space (l : ListChunkBuilder) (full_length : Z) : option Z :=
  let minimum_new_size := lcb_used_size l + full_length in
  let average_length := u32 (minimum_new_size / u32 (lcb_count l + 1)) in
  let extra_strings :=
    if lcb_count l <? 4 then 2 else if lcb_count l <? 32 then 8 else lcb_count l / 4 in
  let extra_space := u32 (extra_strings * average_length) in
  let extra_space := if extra_space <? full_length then full_length else extra_space in
  if UINT_MAX_VAL <? lcb_allocated_size l + extra_space then
    let extra_space := u32 (UINT_MAX_VAL - lcb_allocated_size l) in
    if u32 (extra_space + u32 (lcb_allocated_size l - lcb_used_size l)) <? full_length
    then None else Some extra_space
  else Some extra_space.

(** [None] as the outer result is a failed assertion: [add] ends its "won't fit"
    branch with [c3_assert_failure()]. *)
Definition pl_add (junk : nat -> Z) (l : ListChunkBuilder) (size : Z) (str : bytes)
  : option (bool * ListChunkBuilder) :=
  buffer ← lcb_buffer l;
  let full_length := measure_string size in
  let minimum_new_size := lcb_used_size l + full_length in
  l ← (if lcb_allocated_size l <? minimum_new_size then
         extra_space ← pl_extra_space l full_length;
         let new_size := u32 (lcb_allocated_size l + extra_space) in
         m ← realloc (lcb_memory l) new_size (lcb_allocated_size l);
         Some (mkListChunkBuilder (Some (regrown junk buffer new_size)) new_size
                 (lcb_used_size l) (lcb_count l) m)
       else Some l);
  l ← put_string l size str;
  Some (true, mkListChunkBuilder (lcb_buffer l) (lcb_allocated_size l) (lcb_used_size l)
                (u32 (lcb_count l + 1)) (lcb_memory l)).

(** ** [PayloadChunkBuilder]

    Only the data members: the size of the uncompressed payload and the
    compressor that [configure] records in the header. *)

Record PayloadChunkBuilder := mkPayloadChunkBuilder {
  pcb_usize : Z;
  pcb_comp_threshold : Z;
  pcb_compressor : Z;
}.

(** ** [HeaderChunkBuilder]

    The virtual methods of the class hierarchy are selected by the kind. *)

Inductive builder_kind :=
| CommandHeader (chcb_cmd : command_t) (chcb_admin chcb_auth : bool) (chcb_hash : Z)
| OkResponseHeader
| ErrorResponseHeader
| DataResponseHeader
| ListResponseHeader.

Record HeaderChunkBuilder := mkHeaderChunkBuilder {
  cb_container : ReaderWriter;
  cb_net_config : NetworkConfiguration;
  hcb_kind : builder_kind;
  hcb_estimated_size : Z;
  hcb_used_size : Z;
}.

Definition hcb_with_estimate (b : HeaderChunkBuilder) (n : Z) : HeaderChunkBuilder :=
  mkHeaderChunkBuilder (cb_container b) (cb_net_config b) (hcb_kind b) n (hcb_used_size b).
Definition hcb_with_used (b : HeaderChunkBuilder) (n : Z) : HeaderChunkBuilder :=
  mkHeaderChunkBuilder (cb_container b) (cb_net_config b) (hcb_kind b) (hcb_estimated_size b) n.
Definition hcb_with_container (b : HeaderChunkBuilder) (rw : ReaderWriter) : HeaderChunkBuilder :=
  mkHeaderChunkBuilder rw (cb_net_config b) (hcb_kind b) (hcb_estimated_size b) (hcb_used_size b).
Definition hcb_sb (b : HeaderChunkBuilder) : SharedBuffers := rw_sb (cb_container b).
Definition hcb_with_sb (b : HeaderChunkBuilder) (sb : SharedBuffers) : HeaderChunkBuilder :=
  hcb_with_container b (rw_with_sb (cb_container b) sb).

(** Constructor of [CommandHeaderChunkBuilder]. *)
Definition command_builder (rw : ReaderWriter) (nc : NetworkConfiguration)
    (cmd : command_t) (admin : bool) : option HeaderChunkBuilder :=
  _ ← c3_assert (is_clear rw IO_FLAG_IS_READER);
  _ ← c3_assert (is_clear rw IO_FLAG_IS_RESPONSE);
  let hash := if admin then nc_admin_password nc else nc_user_password nc in
  let auth := negb (hash =? INVALID_HASH_VALUE) in
  Some (mkHeaderChunkBuilder rw nc (CommandHeader cmd admin auth hash) 0 0).

(** Constructors of the four [ResponseHeaderChunkBuilder]s. *)
Definition response_builder (rw : ReaderWriter) (nc : NetworkConfiguration) (k : builder_kind)
  : option HeaderChunkBuilder :=
  _ ← c3_assert (is_clear rw IO_FLAG_IS_READER);
  _ ← c3_assert (is_set rw IO_FLAG_NETWORK);
  _ ← c3_assert (is_set rw IO_FLAG_IS_RESPONSE);
  Some (mkHeaderChunkBuilder rw nc k 0 0).

Definition rhcb_type (k : builder_kind) : Z :=
  match k with
  | OkResponseHeader => RESP_TYPE_OK
  | ErrorResponseHeader => RESP_TYPE_ERROR
  | DataResponseHeader => RESP_TYPE_DATA
  | ListResponseHeader => RESP_TYPE_LIST
  | CommandHeader _ _ _ _ => 0
  end.

Definition get_descriptor_initializer (b : HeaderChunkBuilder) : Z :=
  let nc := cb_net_config b in
  match hcb_kind b with
  | CommandHeader _ admin auth _ =>
      let desc := if auth then (if admin then DESC_ADMIN_AUTH else DESC_USER_AUTH)
                  else DESC_NO_AUTH in
      let network := is_set (cb_container b) IO_FLAG_NETWORK in
      if (network && nc_command_integrity_check nc)
         || (negb network && nc_file_integrity_check nc)
      then Z.lor desc DESC_MARKER_IS_PRESENT else desc
  | k =>
      if nc_response_integrity_check nc then Z.lor (rhcb_type k) RESP_MARKER_IS_PRESENT
      else rhcb_type k
  end.

Definition get_command (b : HeaderChunkBuilder) : command_t :=
  match hcb_kind b with CommandHeader cmd _ _ _ => cmd | _ => CMD_INVALID end.

Definition get_password_hash (b : HeaderChunkBuilder) : bool * Z :=
  match hcb_kind b with CommandHeader _ _ auth hash => (auth, hash) | _ => (false, 0) end.

Definition verify (b : HeaderChunkBuilder) : option HeaderChunkBuilder :=
  let rw := cb_container b in
  let used := hcb_used_size b in
  match hcb_kind b with
  | CommandHeader _ _ _ _ =>
      _ ← c3_assert (2 <=? used);
      rw ← command_writer_set_ready_state rw; Some (hcb_with_container b rw)
  | OkResponseHeader =>
      _ ← c3_assert (((used =? 1) || (used =? 2)) && (get_payload_size (rw_sb rw) =? 0));
      rw ← response_writer_set_ready_state rw; Some (hcb_with_container b rw)
  | ErrorResponseHeader =>
      _ ← c3_assert ((4 <? used) && (get_payload_size (rw_sb rw) =? 0));
      rw ← response_writer_set_ready_state rw; Some (hcb_with_container b rw)
  | DataResponseHeader | ListResponseHeader =>
      _ ← c3_assert (3 <=? used);
      rw ← response_writer_set_ready_state rw; Some (hcb_with_container b rw)
  end.

(** *** Estimation *)

Definition estimate_number (b : HeaderChunkBuilder) (num : Z) : option (Z * HeaderChunkBuilder) :=
  let grow size := (size, hcb_with_estimate b (u32 (hcb_estimated_size b + size))) in
  _ ← c3_assert (header_is_not_initialized (cb_container b));
  if (0 <=? num) && (num <=? UINT_MAX_VAL) then Some (grow (measure_entity num))
  else
    _ ← c3_assert ((INT_MIN_VAL <=? num) && (num <? 0));
    if CHNK_BIG_NEGATIVE_BIAS <? num then Some (grow 1)
    else
      let nn := u32 (- num + CHNK_BIG_NEGATIVE_BIAS) in
      if Z.land nn 0xFFFFFF00 =? 0 then Some (grow 2)
      else if Z.land nn 0xFFFF0000 =? 0 then Some (grow 3)
      else if Z.land nn 0xFF000000 =? 0 then Some (grow 4)
      else Some (grow 5).

Definition estimate_string (b : HeaderChunkBuilder) (size : Z) : option (Z * HeaderChunkBuilder) :=
  _ ← c3_assert (header_is_not_initialized (cb_container b));
  let n := u32 (measure_entity size + size) in
  Some (n, hcb_with_estimate b (u32 (hcb_estimated_size b + n))).

Definition estimate_list (b : HeaderChunkBuilder) (l : HeaderListChunkBuilder)
  : option (Z * HeaderChunkBuilder) :=
  _ ← c3_assert (header_is_not_initialized (cb_container b));
  let size := lcb_used_size (hl_lcb l) in
  Some (size, hcb_with_estimate b (u32 (hcb_estimated_size b + size))).

(** *** Configuration *)

Definition estimate_size_bytes (size : Z) : Z :=
  if size <=? 0xFF then 1 else if size <=? 0xFFFF then 2 else 4.

(** The mask [put_size_bytes] ors into the descriptor. *)
Definition size_mask (reference_size small_mask medium_mask large_mask : Z) : Z :=
  if reference_size <=? 0xFF then small_mask
  else if reference_size <=? 0xFFFF then medium_mask else large_mask.

(** [put_size_bytes(size, reference_size)]: one, two or four bytes. *)
Definition put_size_bytes (b : HeaderChunkBuilder) (size reference_size : Z)
  : option HeaderChunkBuilder :=
  _ ← c3_assert (size <=? reference_size);
  let used := hcb_used_size b in
  if reference_size <=? 0xFF then
    sb ← set_header_byte_at (hcb_sb b) used (u8 size);
    Some (hcb_with_used (hcb_with_sb b sb) (u32 (used + 1)))
  else if reference_size <=? 0xFFFF then
    sb ← set_header_ushort_at (hcb_sb b) used (u16 size);
    Some (hcb_with_used (hcb_with_sb b sb) (u32 (used + 2)))
  else
    sb ← set_header_uint_at (hcb_sb b) used size;
    Some (hcb_with_used (hcb_with_sb b sb) (u32 (used + 4))).

(** The overload that also updates the descriptor, which lives at offset 0 of
    the header. *)
Definition put_size_bytes_desc (b : HeaderChunkBuilder) (size reference_size : Z)
    (small_mask medium_mask large_mask : Z) : option HeaderChunkBuilder :=
  b ← put_size_bytes b size reference_size;
  d ← byte_at (header_buffer (hcb_sb b)) 0;
  sb ← hdr_store (hcb_sb b) 0 [Z.lor d (size_mask reference_size small_mask medium_mask large_mask)];
  Some (hcb_with_sb b sb).

(** The part of [configure] that computes sizes: the descriptor, the size stored
    in the header and the size of the whole header. *)
Definition header_sizes (b : HeaderChunkBuilder) (payload : option PayloadChunkBuilder)
  : option (Z * Z * Z) :=
  let '(auth, _) := get_password_hash b in
  let desc := get_descriptor_initializer b in
  let cmd := get_command b in
  '(desc, header_size) ←
    (if (0 <? hcb_estimated_size b) || bool_decide (is_Some payload) then
       let header_size := hcb_estimated_size b in
       let header_size := if decide (cmd = CMD_INVALID) then header_size else u32 (header_size + 1) in
       let header_size := if auth then u32 (header_size + 8) else header_size in
       match payload with
       | None => Some (desc, header_size)
       | Some p =>
           let payload_size := get_payload_size (hcb_sb b) in
           let payload_size_bytes := estimate_size_bytes (pcb_usize p) in
           if negb (pcb_compressor p =? CT_NONE) then
             _ ← c3_assert (payload_size <? pcb_usize p);
             Some (Z.lor desc DESC_PAYLOAD_IS_COMPRESSED,
                   u32 (header_size + (payload_size_bytes * 2 + 1)))
           else
             _ ← c3_assert (payload_size =? pcb_usize p);
             Some (desc, u32 (header_size + payload_size_bytes))
       end
     else Some (desc, 0));
  let full_header_size :=
    if 0 <? header_size then u32 (1 + estimate_size_bytes header_size + header_size)
    else
      let f := 1 in
      let f := if decide (cmd = CMD_INVALID) then f else f + 1 in
      if auth then f + 8 else f in
  Some (desc, header_size, full_header_size).

Definition put_command (b : HeaderChunkBuilder) : option HeaderChunkBuilder :=
  if decide (get_command b = CMD_INVALID) then Some b
  else
    sb ← set_header_byte_at (hcb_sb b) (hcb_used_size b) (command_code (get_command b));
    Some (hcb_with_used (hcb_with_sb b sb) (u32 (hcb_used_size b + 1))).

Definition put_hash (b : HeaderChunkBuilder) : option HeaderChunkBuilder :=
  let '(auth, hash) := get_password_hash b in
  if auth then
    p ← get_header_bytes (hcb_sb b) (hcb_used_size b) 8;
    sb ← hdr_store (hcb_sb b) p (le_bytes 8 hash);
    Some (hcb_with_used (hcb_with_sb b sb) (u32 (hcb_used_size b + 8)))
  else Some b.

Definition put_payload_sizes (b : HeaderChunkBuilder) (payload : option PayloadChunkBuilder)
  : option HeaderChunkBuilder :=
  match payload with
  | None => Some b
  | Some p =>
      b ← (if negb (pcb_compressor p =? CT_NONE) then
             sb ← set_header_byte_at (hcb_sb b) (hcb_used_size b) (pcb_compressor p);
             Some (hcb_with_used (hcb_with_sb b sb) (u32 (hcb_used_size b + 1)))
           else Some b);
      b ← put_size_bytes_desc b (get_payload_size (hcb_sb b)) (pcb_usize p)
            DESC_BYTE_PAYLOAD DESC_WORD_PAYLOAD DESC_DWORD_PAYLOAD;
      if negb (pcb_compressor p =? CT_NONE) then put_size_bytes b (pcb_usize p) (pcb_usize p)
      else Some b
  end.

Definition configure (junk : nat -> Z) (b : HeaderChunkBuilder)
    (payload : option PayloadChunkBuilder) : option HeaderChunkBuilder :=
  _ ← c3_assert (header_is_not_initialized (cb_container b) && (hcb_used_size b =? 0));
  '(desc, header_size, full_header_size) ← header_sizes b payload;
  rw ← initialize_header junk (cb_container b) full_header_size;
  let b := hcb_with_container b rw in
  (* a) descriptor *)
  p ← get_header_bytes (hcb_sb b) 0 full_header_size;
  sb ← hdr_store (hcb_sb b) p [desc];
  let b := hcb_with_used (hcb_with_sb b sb) 1 in
  (* b) header size *)
  b ← (if 0 <? header_size then
         put_size_bytes_desc b header_size header_size
           DESC_BYTE_HEADER DESC_WORD_HEADER DESC_DWORD_HEADER
       else Some b);
  (* c) command, d) password hash, e) payload sizes *)
  b ← put_command b;
  b ← put_hash b;
  b ← put_payload_sizes b payload;
  (* f) target for check() *)
  Some (hcb_with_estimate b full_header_size).

(** *** Adding chunks *)

Definition hcb_put (b : HeaderChunkBuilder) (n small_mask medium_mask large_mask : Z)
  : option (Z * HeaderChunkBuilder) :=
  let size := measure_entity n in
  p ← get_header_bytes (hcb_sb b) (hcb_used_size b) size;
  sb ← hdr_store (hcb_sb b) p (put_entity n small_mask medium_mask large_mask);
  Some (size, hcb_with_used (hcb_with_sb b sb) (u32 (hcb_used_size b + size))).

Definition add_number (b : HeaderChunkBuilder) (num : Z) : option HeaderChunkBuilder :=
  let used := hcb_used_size b in
  let sb := hcb_sb b in
  if (0 <=? num) && (num <=? UINT_MAX_VAL) then
    '(_, b) ← hcb_put b num CHNK_SMALL_INTEGER CHNK_INTEGER CHNK_BIG_INTEGER; Some b
  else
    _ ← c3_assert ((INT_MIN_VAL <=? num) && (num <? 0));
    if CHNK_BIG_NEGATIVE_BIAS <? num then
      let small := u8 (- num + CHNK_SMALL_NEGATIVE_BIAS) in
      sb ← set_header_byte_at sb used (Z.lor (Z.lor CHNK_SUBTYPE CHNK_SMALL_NEGATIVE) small);
      Some (hcb_with_used (hcb_with_sb b sb) (u32 (used + 1)))
    else
      let big := u32 (- num + CHNK_BIG_NEGATIVE_BIAS) in
      let code k := Z.lor (Z.lor CHNK_SUBTYPE CHNK_BIG_NEGATIVE) k in
      if Z.land big 0xFFFFFF00 =? 0 then
        sb ← set_header_byte_at sb used (code 0);
        sb ← set_header_byte_at sb (u32 (used + 1)) (u8 big);
        Some (hcb_with_used (hcb_with_sb b sb) (u32 (used + 2)))
      else if Z.land big 0xFFFF0000 =? 0 then
        sb ← set_header_byte_at sb used (code 1);
        sb ← set_header_ushort_at sb (u32 (used + 1)) (u16 big);
        Some (hcb_with_used (hcb_with_sb b sb) (u32 (used + 3)))
      else if Z.land big 0xFF000000 =? 0 then
        sb ← set_header_byte_at sb used (code 2);
        sb ← set_header_uint3_at sb (u32 (used + 1)) big;
        Some (hcb_with_used (hcb_with_sb b sb) (u32 (used + 4)))
      else
        sb ← set_header_byte_at sb used (code 3);
        sb ← set_header_uint_at sb (u32 (used + 1)) big;
        Some (hcb_with_used (hcb_with_sb b sb) (u32 (used + 5))).

(** [memcpy] of [size] bytes to the current position. *)
Definition hcb_copy (b : HeaderChunkBuilder) (bs : bytes) : option HeaderChunkBuilder :=
  p ← get_header_bytes (hcb_sb b) (hcb_used_size b) (zlen bs);
  sb ← hdr_store (hcb_sb b) p bs;
  Some (hcb_with_used (hcb_with_sb b sb) (u32 (hcb_used_size b + zlen bs))).

Definition add_string (b : HeaderChunkBuilder) (str : bytes) (size : Z)
  : option HeaderChunkBuilder :=
  '(n, b) ← hcb_put b size CHNK_SHORT_STRING CHNK_STRING CHNK_LONG_STRING;
  _ ← c3_assert (negb (n =? 0));
  if 0 <? size then s ← slice str 0 size; hcb_copy b s else Some b.

Definition add_list (b : HeaderChunkBuilder) (l : HeaderListChunkBuilder)
  : option HeaderChunkBuilder :=
  let lcb := hl_lcb l in
  list_buffer ← lcb_buffer lcb;
  _ ← c3_assert (negb (lcb_used_size lcb =? 0));
  s ← slice list_buffer 0 (lcb_used_size lcb);
  hcb_copy b s.

Definition check (b : HeaderChunkBuilder) : option HeaderChunkBuilder :=
  _ ← c3_assert (hcb_used_size b =? hcb_estimated_size b);
  verify b.

(** ** Reference encodings *)

(** Length prefix of a string inside a list: 255s and a final remainder. *)
Definition encode_length (n : Z) : bytes := replicate (Z.to_nat (n / 255)) 255 ++ [n mod 255].

Definition encode_list_string (s : bytes) : bytes := encode_length (zlen s) ++ s.

Definition encode_big (code n : Z) : bytes :=
  if n <? 2 ^ 8 then code :: le_bytes 1 n
  else if n <? 2 ^ 16 then Z.lor code 1 :: le_bytes 2 n
  else if n <? 2 ^ 24 then Z.lor code 2 :: le_bytes 3 n
  else Z.lor code 3 :: le_bytes 4 n.

(** A 32-bit value in one of three ranges: [0, 8), [8, 72) and above. *)
Definition encode_entity (n small_mask medium_mask large_mask : Z) : bytes :=
  if n <? 8 then [Z.lor (Z.lor 0xC0 small_mask) n]
  else if n <? 72 then [Z.lor medium_mask (n - 8)]
  else encode_big (Z.lor 0xC0 large_mask) (n - 72).

Definition encode_number (n : Z) : bytes :=
  if 0 <=? n then encode_entity n CHNK_SMALL_INTEGER CHNK_INTEGER CHNK_BIG_INTEGER
  else if -9 <? n then [Z.lor (Z.lor 0xC0 CHNK_SMALL_NEGATIVE) (- n - 1)]
  else encode_big (Z.lor 0xC0 CHNK_BIG_NEGATIVE) (- n - 9).

Definition encode_string (s : bytes) : bytes :=
  encode_entity (zlen s) CHNK_SHORT_STRING CHNK_STRING CHNK_LONG_STRING ++ s.

Definition encode_list (ss : list bytes) : bytes :=
  encode_entity (zlen ss) CHNK_SHORT_LIST CHNK_LIST CHNK_LONG_LIST
  ++ concat (encode_list_string <$> ss).

(** ** Entities *)

Lemma mask_byte n : is_u32 n -> (Z.land n 0xFFFFFF00 =? 0) = (n <? 2 ^ 8).
Proof. intros. apply (land_high_mask n 8 32); [lia|done]. Qed.
Lemma mask_word n : is_u32 n -> (Z.land n 0xFFFF0000 =? 0) = (n <? 2 ^ 16).
Proof. intros. apply (land_high_mask n 16 32); [lia|done]. Qed.
Lemma mask_triple n : is_u32 n -> (Z.land n 0xFF000000 =? 0) = (n <? 2 ^ 24).
Proof. intros. apply (land_high_mask n 24 32); [lia|done]. Qed.

Lemma put_entity_encode n s m l :
  is_u32 n -> put_entity n s m l = encode_entity n s m l.
Proof.
  intros Hn. unfold put_entity, encode_entity, CHNK_MEDIUM_BIAS, CHNK_LARGE_BIAS, CHNK_SUBTYPE.
  unfold is_u32 in *.
  destruct (n <? 8) eqn:E; zbool; [by rewrite u8_small by (unfold is_u8; lia)|].
  destruct (n <? 72) eqn:E'; zbool; [by rewrite u8_small by (unfold is_u8; lia)|].
  rewrite u32_small by (unfold is_u32; lia). unfold encode_big.
  by rewrite mask_byte, mask_word, mask_triple by (unfold is_u32; lia).
Qed.

Lemma zlen_encode_big c n : 2 <= zlen (encode_big c n) <= 5.
Proof. unfold encode_big. repeat case_match; zlen. Qed.

Lemma zlen_encode_entity n s m l : is_u32 n -> zlen (encode_entity n s m l) = measure_entity n.
Proof.
  intros Hn. unfold measure_entity, encode_entity, encode_big, CHNK_LARGE_BIAS, is_u32 in *.
  destruct (n <? 72) eqn:E; zbool; [by destruct (n <? 8)|].
  rewrite u32_small by (unfold is_u32; lia).
  rewrite mask_byte, mask_word, mask_triple by (unfold is_u32; lia).
  destruct (n <? 8) eqn:?; zbool; [lia|]. repeat case_match; zlen.
Qed.

Lemma measure_entity_pos n : 1 <= measure_entity n <= 5.
Proof. unfold measure_entity. repeat case_match; lia. Qed.

(** The size reserved for an entity is the size it is stored with. *)
Lemma measure_put_entity n s m l : is_u32 n -> zlen (put_entity n s m l) = measure_entity n.
Proof. intros. rewrite put_entity_encode by done. by apply zlen_encode_entity. Qed.

Lemma zlen_encode_length n : 0 <= n -> zlen (encode_length n) = n / 255 + 1.
Proof.
  intros. unfold encode_length, zlen. rewrite length_app, length_replicate. cbn.
  pose proof (Z.div_pos n 255). lia.
Qed.

Lemma measure_string_ok s :
  zlen (encode_list_string s) < 2 ^ 32 -> measure_string (zlen s) = zlen (encode_list_string s).
Proof.
  unfold encode_list_string, measure_string. rewrite zlen_app, zlen_encode_length by auto with c3.
  pose proof (zlen_nonneg s). pose proof (Z.div_pos (zlen s) 255). intros.
  rewrite (u32_small (_ + 1)), u32_small by (unfold is_u32; lia). lia.
Qed.

(** ** The list builders *)

(** [lcb_at l done rest]: the buffer holds [done] up to the current position. *)
Definition lcb_at (l : ListChunkBuilder) (done rest : bytes) : Prop :=
  lcb_buffer l = Some (done ++ rest) /\ lcb_used_size l = zlen done
  /\ lcb_allocated_size l = zlen (done ++ rest) /\ zlen (done ++ rest) < 2 ^ 32.

(** Only the buffer contents and the position differ. *)
Definition lcb_frame (l l' : ListChunkBuilder) : Prop :=
  lcb_allocated_size l' = lcb_allocated_size l /\ lcb_count l' = lcb_count l
  /\ lcb_memory l' = lcb_memory l.

#[export] Instance lcb_frame_refl : Reflexive lcb_frame.
Proof. done. Qed.
#[export] Instance lcb_frame_trans : Transitive lcb_frame.
Proof. unfold lcb_frame. intros a b c (?&?&?) (?&?&?). repeat split; congruence. Qed.

Lemma lcb_store_ok l dn r bs rest :
  lcb_at l dn (r ++ rest) -> zlen bs = zlen r ->
  exists l', lcb_store l bs = Some l' /\ lcb_at l' (dn ++ bs) rest /\ lcb_frame l l'.
Proof.
  intros (Hb & Hu & Ha & Hlt) Hl. unfold lcb_store. rewrite Hb. cbn.
  rewrite Hu, blit_app_mid by done. cbn. eexists; split; [done|].
  split; [|done]. unfold lcb_at; cbn. rewrite !zlen_app in *.
  pose proof (zlen_nonneg dn). pose proof (zlen_nonneg bs). pose proof (zlen_nonneg rest).
  rewrite u32_small by (unfold is_u32; lia).
  rewrite <- app_assoc. repeat split; try done; lia.
Qed.

Lemma encode_length_step n :
  255 <= n -> encode_length n = 255 :: encode_length (n - 255).
Proof.
  intros. unfold encode_length.
  replace n with ((n - 255) + 1 * 255) at 1 2 by lia.
  rewrite Z.div_add, Z.mod_add by lia.
  pose proof (Z.div_pos (n - 255) 255).
  replace (Z.to_nat ((n - 255) / 255 + 1)) with (S (Z.to_nat ((n - 255) / 255))) by lia.
  done.
Qed.

Lemma encode_length_last n : 0 <= n < 255 -> encode_length n = [n].
Proof. intros. unfold encode_length. by rewrite Z.div_small, Z.mod_small. Qed.

Lemma put_length_ok fuel n l dn r rest :
  0 <= n < 255 * Z.of_nat fuel -> lcb_at l dn (r ++ rest) -> zlen r = zlen (encode_length n) ->
  exists l', put_length fuel l n = Some l' /\ lcb_at l' (dn ++ encode_length n) rest
             /\ lcb_frame l l'.
Proof.
  revert n l dn r. induction fuel as [|fuel IH]; intros n l dn r Hn Hat Hr; [lia|].
  cbn. destruct (255 <=? n) eqn:E; zbool.
  - rewrite encode_length_step in * by done. rewrite zlen_cons in Hr.
    destruct r as [|r0 r]; [rewrite zlen_nil in Hr; pose proof (zlen_nonneg (encode_length (n - 255))); lia|].
    rewrite zlen_cons in Hr.
    destruct (lcb_store_ok l dn [r0] [255] (r ++ rest)) as (l1 & -> & Hat1 & Hf1); [done..|].
    cbn. destruct (IH (n - 255) l1 (dn ++ [255]) r) as (l2 & -> & Hat2 & Hf2);
      [lia|done|lia|].
    eexists; split; [done|]. split; [by rewrite <- app_assoc in Hat2|by etrans].
  - rewrite encode_length_last in * by lia. rewrite u8_small by (unfold is_u8; lia).
    by eapply lcb_store_ok.
Qed.

Lemma slice_all (s : bytes) : slice s 0 (zlen s) = Some s.
Proof. pose proof (slice_app_mid [] s []) as H. by rewrite app_nil_r in H. Qed.

Lemma put_string_ok l dn r s rest :
  lcb_at l dn (r ++ rest) -> zlen r = zlen (encode_list_string s) ->
  exists l', put_string l (zlen s) s = Some l' /\ lcb_at l' (dn ++ encode_list_string s) rest
             /\ lcb_frame l l'.
Proof.
  intros Hat Hr. unfold put_string, encode_list_string in *. rewrite zlen_app in Hr.
  pose proof (zlen_nonneg s). pose proof (zlen_nonneg (encode_length (zlen s))).
  rewrite <- (take_drop (length (encode_length (zlen s))) r) in Hat.
  rewrite <- app_assoc in Hat.
  destruct (put_length_ok (S (Z.to_nat (zlen s / 255))) (zlen s) l dn
              (take (length (encode_length (zlen s))) r)
              (drop (length (encode_length (zlen s))) r ++ rest)) as (l1 & -> & Hat1 & Hf1).
  - pose proof (Z.div_pos (zlen s) 255). pose proof (Z.mod_pos_bound (zlen s) 255).
    pose proof (Z.div_mod (zlen s) 255). lia.
  - done.
  - unfold zlen in *. rewrite length_take. lia.
  - cbn [mbind option_bind]. destruct (0 <? zlen s) eqn:E; zbool.
    + rewrite slice_all. cbn [mbind option_bind].
      destruct (lcb_store_ok l1 _ (drop (length (encode_length (zlen s))) r) s rest Hat1)
        as (l2 & -> & Hat2 & Hf2).
      { unfold zlen in *. rewrite length_drop. lia. }
      eexists; split; [done|]. split; [by rewrite <- app_assoc in Hat2|by etrans].
    + assert (s = []) as -> by (apply nil_length_inv; unfold zlen in *; lia).
      rewrite app_nil_r. eexists; split; [done|]. split; [|done].
      rewrite drop_ge in Hat1; [done|unfold zlen in *; cbn in *; lia].
Qed.

(** *** The documented use of [HeaderListChunkBuilder] *)

Fixpoint hl_estimate_all (h : HeaderListChunkBuilder) (ss : list bytes)
  : option HeaderListChunkBuilder :=
  match ss with
  | [] => Some h
  | s :: ss => '(_, h) ← hl_estimate h (zlen s); hl_estimate_all h ss
  end.

Fixpoint hl_add_all (h : HeaderListChunkBuilder) (ss : list bytes)
  : option HeaderListChunkBuilder :=
  match ss with
  | [] => Some h
  | s :: ss => h ← hl_add h (zlen s) s; hl_add_all h ss
  end.

Definition build_list (junk : nat -> Z) (m : Memory) (ss : list bytes)
  : option HeaderListChunkBuilder :=
  h ← hl_estimate_all (hl_init m) ss;
  h ← hl_configure junk h;
  h ← hl_add_all h ss;
  _ ← hl_check h;
  Some h.

Abbreviation strings_bytes ss := (concat (encode_list_string <$> ss)).

Lemma encode_list_string_pos s : 1 <= zlen (encode_list_string s).
Proof.
  unfold encode_list_string. rewrite zlen_app, zlen_encode_length by auto with c3.
  pose proof (zlen_nonneg s). pose proof (Z.div_pos (zlen s) 255). lia.
Qed.

Lemma strings_bytes_len ss : zlen ss <= zlen (strings_bytes ss).
Proof.
  induction ss as [|s ss IH]; [done|]. cbn. rewrite zlen_app, zlen_cons.
  pose proof (encode_list_string_pos s). unfold zlen in *. cbn in *. lia.
Qed.

Lemma hl_estimate_all_ok ss h :
  lcb_allocated_size (hl_lcb h) = 0 -> 0 <= flcb_estimated_size h -> 0 <= lcb_count (hl_lcb h) ->
  lcb_count (hl_lcb h) <= flcb_estimated_size h ->
  flcb_estimated_size h + zlen (strings_bytes ss) < 2 ^ 32 ->
  hl_estimate_all h ss =
    Some (mkHeaderListChunkBuilder
            (mkListChunkBuilder (lcb_buffer (hl_lcb h)) 0 (lcb_used_size (hl_lcb h))
               (lcb_count (hl_lcb h) + zlen ss) (lcb_memory (hl_lcb h)))
            (flcb_estimated_size h + zlen (strings_bytes ss))).
Proof.
  revert h. induction ss as [|s ss IH]; intros h Ha He Hc Hce Hlt.
  - cbn. destruct h as [[] ?]; cbn in *; subst. by rewrite zlen_nil, !Z.add_0_r.
  - cbn in Hlt. rewrite zlen_app in Hlt. cbn [hl_estimate_all]. unfold hl_estimate.
    rewrite Ha. cbn [Z.eqb c3_assert mbind option_bind].
    pose proof (encode_list_string_pos s). pose proof (zlen_nonneg (strings_bytes ss)).
    rewrite measure_string_ok by lia.
    rewrite !u32_small by (unfold is_u32; lia).
    rewrite IH; cbn; try lia. by rewrite zlen_app, zlen_cons, !Z.add_assoc.
Qed.

Lemma hl_add_ok h dn r s rest :
  lcb_at (hl_lcb h) dn (r ++ rest) -> zlen r = zlen (encode_list_string s) ->
  exists h', hl_add h (zlen s) s = Some h' /\ lcb_at (hl_lcb h') (dn ++ encode_list_string s) rest
             /\ lcb_frame (hl_lcb h) (hl_lcb h').
Proof.
  intros Hat Hr. unfold hl_add.
  pose proof Hat as (Hb & Hu & Ha & Hlt). rewrite !zlen_app in *.
  pose proof (zlen_nonneg dn). pose proof (zlen_nonneg rest).
  rewrite measure_string_ok by lia. rewrite Hb, Hu, Ha.
  rewrite u32_small by (unfold is_u32; pose proof (encode_list_string_pos s); lia).
  rewrite bool_decide_true by done.
  destruct (_ <=? _) eqn:E; zbool; [|lia].
  cbn [andb c3_assert mbind option_bind].
  destruct (put_string_ok _ dn r s rest Hat Hr) as (l' & -> & Hat' & Hf).
  cbn. eexists; split; [done|]. done.
Qed.

Lemma hl_add_all_ok ss h dn rest :
  lcb_at (hl_lcb h) dn rest -> zlen rest = zlen (strings_bytes ss) ->
  exists h', hl_add_all h ss = Some h' /\ lcb_at (hl_lcb h') (dn ++ strings_bytes ss) []
             /\ lcb_frame (hl_lcb h) (hl_lcb h').
Proof.
  revert h dn rest. induction ss as [|s ss IH]; intros h dn rest Hat Hr; cbn in *.
  - rewrite zlen_nil in Hr. assert (rest = []) as ->
      by (apply nil_length_inv; unfold zlen in *; lia).
    rewrite app_nil_r. by eexists.
  - rewrite zlen_app in Hr.
    rewrite <- (take_drop (length (encode_list_string s)) rest) in Hat.
    pose proof (zlen_nonneg (strings_bytes ss)).
    destruct (hl_add_ok h dn _ s _ Hat) as (h1 & -> & Hat1 & Hf1).
    { unfold zlen in *. rewrite length_take. lia. }
    cbn. edestruct IH as (h2 & -> & Hat2 & Hf2); [done| |].
    { unfold zlen in *. rewrite length_drop. lia. }
    rewrite <- app_assoc in Hat2. eexists; split; [done|]. split; [done|by etrans].
Qed.

(** The list builder leaves exactly the encoding of the list in its buffer, and
    [check()] passes: the buffer is full. *)
Lemma build_list_ok junk m ss :
  zlen (encode_list ss) < 2 ^ 32 ->
  exists h, build_list junk m ss = Some h /\ lcb_buffer (hl_lcb h) = Some (encode_list ss)
    /\ lcb_used_size (hl_lcb h) = zlen (encode_list ss)
    /\ lcb_allocated_size (hl_lcb h) = zlen (encode_list ss)
    /\ lcb_count (hl_lcb h) = zlen ss
    /\ lcb_memory (hl_lcb h) = fetch_add m (zlen (encode_list ss)).
Proof.
  intros Hlt. unfold build_list. pose proof (strings_bytes_len ss) as Hss.
  pose proof (zlen_nonneg ss) as Hn. unfold encode_list in *. rewrite zlen_app in Hlt.
  assert (is_u32 (zlen ss)) as Hu by (pose proof (zlen_nonneg (encode_entity (zlen ss)
    CHNK_SHORT_LIST CHNK_LIST CHNK_LONG_LIST)); unfold is_u32; lia).
  pose proof (measure_entity_pos (zlen ss)) as Hm.
  rewrite zlen_encode_entity in Hlt by done.
  rewrite hl_estimate_all_ok by (cbn; lia). cbn [mbind option_bind hl_init hl_lcb lcb_init].
  unfold hl_configure. cbn [hl_lcb lcb_allocated_size Z.eqb c3_assert mbind option_bind
    flcb_estimated_size lcb_count lcb_memory lcb_buffer lcb_used_size].
  rewrite !Z.add_0_l, u32_small by (unfold is_u32; lia).
  rewrite put_entity_encode by done.
  set (e := encode_entity (zlen ss) CHNK_SHORT_LIST CHNK_LIST CHNK_LONG_LIST).
  assert (zlen e = measure_entity (zlen ss)) as He by by apply zlen_encode_entity.
  set (est := _ + measure_entity _).
  unfold alloc. destruct (est =? 0) eqn:E0; zbool; [lia|]. cbn [negb c3_assert mbind option_bind].
  assert (zlen (fresh junk est) = est) as Hf.
  { unfold fresh, zlen. rewrite length_fmap, length_seq. lia. }
  rewrite blit_prefix by lia.
  cbn [mbind option_bind lcb_init lcb_memory]. destruct (zlen e <=? est) eqn:E1; zbool; [|lia].
  cbn [c3_assert mbind option_bind].
  destruct (hl_add_all_ok ss (mkHeaderListChunkBuilder (mkListChunkBuilder
      (Some (e ++ drop (length e) (fresh junk est))) est (zlen e) (zlen ss)
      (fetch_add m est)) est) e (drop (length e) (fresh junk est)))
    as (h & -> & Hat & Hf1 & Hf2 & Hf3).
  - unfold lcb_at; cbn. rewrite zlen_app.
    rewrite zlen_drop by lia. repeat split; try done; lia.
  - rewrite zlen_drop; lia.
  - cbn [mbind option_bind]. destruct Hat as (Hb & Hus & Ha & _). rewrite app_nil_r in *.
    unfold hl_check. rewrite Hb, Hus, Ha, Z.eqb_refl, bool_decide_true by done.
    rewrite zlen_app in *. destruct (0 <? _) eqn:E2; zbool; [|lia]. cbn.
    eexists; split; [done|]. rewrite Hb, Hus, Ha, Hf2, Hf3. cbn.
    rewrite ?zlen_app. repeat split; f_equal; lia.
Qed.
