(* ===== verification/HeaderBuild.v ===== *)
(** * HeaderBuild

    What [HeaderChunkBuilder] builds. The reference layout of a header, and the
    theorem that the documented sequence of calls (estimate every chunk,
    configure, add every chunk, check) runs without a failing assertion and
    leaves that layout in the container. *)

From S2P Require Import Prelude Protocol Memory Buffers ChunkBuilder.

(** ** Header items and the sequence of calls *)

(** A chunk to be put into a header; a list is passed as a finished builder. *)
Inductive hdr_item :=
| INumber (n : Z)
| IString (s : bytes)
| IList (h : HeaderListChunkBuilder).

Definition estimate_item (b : HeaderChunkBuilder) (i : hdr_item)
  : option (Z * HeaderChunkBuilder) :=
  match i with
  | INumber n => estimate_number b n
  | IString s => estimate_string b (zlen s)
  | IList h => estimate_list b h
  end.

Definition add_item (b : HeaderChunkBuilder) (i : hdr_item) : option HeaderChunkBuilder :=
  match i with
  | INumber n => add_number b n
  | IString s => add_string b s (zlen s)
  | IList h => add_list b h
  end.

Fixpoint estimate_items (b : HeaderChunkBuilder) (l : list hdr_item) : option HeaderChunkBuilder :=
  match l with
  | [] => Some b
  | i :: l => '(_, b) ← estimate_item b i; estimate_items b l
  end.

Fixpoint add_items (b : HeaderChunkBuilder) (l : list hdr_item) : option HeaderChunkBuilder :=
  match l with
  | [] => Some b
  | i :: l => b ← add_item b i; add_items b l
  end.

Definition build_header (junk : nat -> Z) (b : HeaderChunkBuilder)
    (payload : option PayloadChunkBuilder) (l : list hdr_item) : option HeaderChunkBuilder :=
  b ← estimate_items b l;
  b ← configure junk b payload;
  b ← add_items b l;
  check b.

(** ** Reference layout *)

(** The payload part of a header: compressor, size, uncompressed size. *)
Definition payload_layout (payload : option PayloadChunkBuilder) (size : Z) : bytes :=
  match payload with
  | None => []
  | Some p =>
      let w := Z.to_nat (estimate_size_bytes (pcb_usize p)) in
      if pcb_compressor p =? CT_NONE then le_bytes w size
      else u8 (pcb_compressor p) :: le_bytes w size ++ le_bytes w (pcb_usize p)
  end.

Definition payload_desc (payload : option PayloadChunkBuilder) (desc : Z) : Z :=
  match payload with
  | None => desc
  | Some p =>
      Z.lor desc (size_mask (pcb_usize p) DESC_BYTE_PAYLOAD DESC_WORD_PAYLOAD DESC_DWORD_PAYLOAD)
  end.

Definition command_layout (b : HeaderChunkBuilder) : bytes :=
  if decide (get_command b = CMD_INVALID) then [] else [command_code (get_command b)].

Definition hash_layout (b : HeaderChunkBuilder) : bytes :=
  let '(auth, hash) := get_password_hash b in if auth then le_bytes 8 hash else [].

(** Everything between the header size and the chunks. *)
Definition fixed_layout (b : HeaderChunkBuilder) (payload : option PayloadChunkBuilder) : bytes :=
  command_layout b ++ hash_layout b ++ payload_layout payload (get_payload_size (hcb_sb b)).

Definition base_desc (b : HeaderChunkBuilder) (payload : option PayloadChunkBuilder) : Z :=
  match payload with
  | Some p => if pcb_compressor p =? CT_NONE then get_descriptor_initializer b
              else Z.lor (get_descriptor_initializer b) DESC_PAYLOAD_IS_COMPRESSED
  | None => get_descriptor_initializer b
  end.

(** A header carries its size unless there is nothing but a command and a hash;
    [n] is the total size of the chunks. *)
Definition sized (payload : option PayloadChunkBuilder) (n : Z) : bool :=
  (0 <? n) || bool_decide (is_Some payload).

Definition header_prefix (b : HeaderChunkBuilder) (payload : option PayloadChunkBuilder)
    (n : Z) : bytes :=
  let fixed := fixed_layout b payload in
  let size := zlen fixed + n in
  if sized payload n then
    payload_desc payload
      (Z.lor (base_desc b payload) (size_mask size DESC_BYTE_HEADER DESC_WORD_HEADER DESC_DWORD_HEADER))
    :: le_bytes (Z.to_nat (estimate_size_bytes size)) size ++ fixed
  else base_desc b payload :: fixed.

Definition header_layout (b : HeaderChunkBuilder) (payload : option PayloadChunkBuilder)
    (chunks : bytes) : bytes :=
  header_prefix b payload (zlen chunks) ++ chunks.

(** The payload builder describes the payload that sits in the container. *)
Definition payload_ok (payload : option PayloadChunkBuilder) (size : Z) : Prop :=
  match payload with
  | None => True
  | Some p => is_u32 (pcb_usize p) /\ 0 <= size
              /\ if pcb_compressor p =? CT_NONE then size = pcb_usize p else size < pcb_usize p
  end.

(** [item_encodes i bs]: the item is valid and [bs] is its encoding. *)
Definition item_encodes (i : hdr_item) (bs : bytes) : Prop :=
  match i with
  | INumber n => INT_MIN_VAL <= n <= UINT_MAX_VAL /\ bs = encode_number n
  | IString s => bs = encode_string s
  | IList h => lcb_buffer (hl_lcb h) = Some bs /\ lcb_used_size (hl_lcb h) = zlen bs
               /\ 0 < zlen bs
  end.

(** ** The builder's position in the header *)

Definition hcb_at (b : HeaderChunkBuilder) (dn rest : bytes) : Prop :=
  sb_ok (hcb_sb b) /\ header_buffer (hcb_sb b) = dn ++ rest /\ hcb_used_size b = zlen dn.

(** Only header bytes and the position differ. *)
Definition hcb_same (b b' : HeaderChunkBuilder) : Prop :=
  b' = hcb_with_used (hcb_with_sb b (hcb_sb b')) (hcb_used_size b')
  /\ hdr_frame (hcb_sb b) (hcb_sb b').

#[export] Instance hcb_same_refl : Reflexive hcb_same.
Proof. intros [[]]. by split. Qed.
#[export] Instance hcb_same_trans : Transitive hcb_same.
Proof.
  intros a b c [Hab Fab] [Hbc Fbc]. split; [|by etrans].
  rewrite Hbc. rewrite Hab. done.
Qed.

Lemma hcb_at_lt b dn rest : hcb_at b dn rest -> zlen (dn ++ rest) < 2 ^ 32.
Proof.
  intros (Hok & Hb & _). rewrite <- Hb, header_buffer_len by done.
  destruct Hok as (Hd & _ & _). apply db_ok_size in Hd.
  unfold get_available_header_size, AUX_DATA_SIZE. case_match; lia.
Qed.

(** The common shape of every write of the builder. *)
Lemma hcb_write_ok b dn rest bs n k :
  hcb_at b dn rest -> zlen bs <= zlen rest -> 0 <= n <= zlen bs -> k = zlen bs ->
  exists sb',
    (p ← get_header_bytes (hcb_sb b) (hcb_used_size b) n; hdr_store (hcb_sb b) p bs) = Some sb'
    /\ (let b' := hcb_with_used (hcb_with_sb b sb') (u32 (hcb_used_size b + k)) in
        hcb_at b' (dn ++ bs) (drop (length bs) rest) /\ hcb_same b b').
Proof.
  intros Hat Hl Hn ->. pose proof (hcb_at_lt _ _ _ Hat) as Hlt.
  destruct Hat as (Hok & Hb & Hu). rewrite zlen_app in Hlt.
  destruct (hdr_set_ok (hcb_sb b) Hok dn (take (length bs) rest) (drop (length bs) rest) n bs)
    as (sb' & He & Hok' & Hf & Hb').
  - by rewrite take_drop.
  - by rewrite zlen_take.
  - done.
  - rewrite Hu, He. eexists; split; [done|]. split.
    + split; [done|]. cbn. split; [by rewrite <- app_assoc|].
      rewrite zlen_app, u32_small; [done|].
      pose proof (zlen_nonneg dn). pose proof (zlen_nonneg bs). unfold is_u32; lia.
    + split; [by destruct b as [[]]|done].
Qed.

(** *** Sizes *)

Lemma estimate_size_bytes_val n : estimate_size_bytes n = 1 \/ estimate_size_bytes n = 2
  \/ estimate_size_bytes n = 4.
Proof. unfold estimate_size_bytes. repeat case_match; lia. Qed.

Lemma zlen_size_bytes n z : zlen (le_bytes (Z.to_nat (estimate_size_bytes n)) z) = estimate_size_bytes n.
Proof. rewrite zlen_le_bytes. destruct (estimate_size_bytes_val n) as [->|[->| ->]]; done. Qed.

Lemma u8_u8 z : u8 (u8 z) = u8 z.
Proof. apply u8_small, u8_range. Qed.

Lemma put_size_bytes_ok b dn rest size ref :
  hcb_at b dn rest -> 0 <= size <= ref -> is_u32 ref -> estimate_size_bytes ref <= zlen rest ->
  exists b', put_size_bytes b size ref = Some b'
    /\ hcb_at b' (dn ++ le_bytes (Z.to_nat (estimate_size_bytes ref)) size)
         (drop (Z.to_nat (estimate_size_bytes ref)) rest)
    /\ hcb_same b b'.
Proof.
  intros Hat Hs Hr Hw. unfold put_size_bytes, estimate_size_bytes, is_u32 in *.
  destruct (size <=? ref) eqn:E; zbool; [|lia]. cbn [c3_assert mbind option_bind].
  destruct (ref <=? 255) eqn:E1; zbool; [|destruct (ref <=? 65535) eqn:E2; zbool].
  - destruct (hcb_write_ok b dn rest [u8 size] 1 1) as (sb & He & H1 & H2);
      [done|by cbn|by cbn|done|].
    rewrite set_header_byte_at_eq. rewrite u8_u8, He. cbn. eauto.
  - destruct (hcb_write_ok b dn rest (le_bytes 2 size) 2 2) as (sb & He & H1 & H2);
      [done|by cbn|by cbn|done|].
    rewrite set_header_ushort_at_eq. rewrite u16_small, He by (unfold is_u16; lia). cbn. eauto.
  - destruct (hcb_write_ok b dn rest (le_bytes 4 size) 2 4) as (sb & He & H1 & H2);
      [done|by cbn|by cbn|done|].
    rewrite set_header_uint_at_eq. rewrite He. cbn. eauto.
Qed.

Lemma put_size_bytes_desc_ok b d dn rest size ref s m l :
  hcb_at b (d :: dn) rest -> 0 <= size <= ref -> is_u32 ref -> estimate_size_bytes ref <= zlen rest ->
  exists b', put_size_bytes_desc b size ref s m l = Some b'
    /\ hcb_at b' (Z.lor d (size_mask ref s m l) :: dn
                  ++ le_bytes (Z.to_nat (estimate_size_bytes ref)) size)
         (drop (Z.to_nat (estimate_size_bytes ref)) rest)
    /\ hcb_same b b'.
Proof.
  intros Hat Hs Hr Hw. unfold put_size_bytes_desc.
  destruct (put_size_bytes_ok b (d :: dn) rest size ref) as (b1 & -> & Hat1 & Hs1); [done..|].
  cbn [mbind option_bind]. destruct Hat1 as (Hok1 & Hb1 & Hu1).
  rewrite <- !app_comm_cons in *. rewrite Hb1, byte_at_0. cbn [mbind option_bind].
  set (d' := Z.lor d _).
  destruct (hdr_store_ok (hcb_sb b1) [] [d] ((dn ++ le_bytes (Z.to_nat (estimate_size_bytes ref)) size)
     ++ drop (Z.to_nat (estimate_size_bytes ref)) rest) [d']) as (sb2 & He & Hok2 & Hf2 & Hb2);
    [done|done|done|].
  rewrite zlen_nil in He. rewrite He. cbn. eexists; split; [done|]. split.
  - split; [done|]. cbn. split; [done|]. rewrite Hu1. by rewrite !zlen_cons.
  - etrans; [done|]. split; [by destruct b1 as [[]]|done].
Qed.

(** *** [configure] *)

Lemma zlen_fresh junk n : 0 <= n -> zlen (fresh junk n) = n.
Proof. intros. unfold fresh, zlen. rewrite length_fmap, length_seq. lia. Qed.

Lemma sb_configure_header_ok junk sb size :
  sb_ok sb -> using_static_header sb = true -> 0 < size < 2 ^ 32 ->
  exists sb', sb_configure_header junk sb 0 size = Some sb' /\ sb_ok sb'
    /\ size <= zlen (header_buffer sb') /\ sb_payload sb' = sb_payload sb
    /\ sb_nrefs sb' = sb_nrefs sb
    /\ (12 < size -> zlen (header_buffer sb') = size).
Proof.
  intros Hok Hst Hs. pose proof Hok as (Hd & Hp & Ha). unfold using_static_header in Hst. zbool.
  unfold sb_configure_header, AUX_DATA_SIZE in *.
  destruct (0 <? size) eqn:E0; zbool; [|lia]. cbn [Z.leb Z.compare andb c3_assert mbind option_bind].
  destruct (12 <? size) eqn:E; zbool; cycle 1.
  - eexists; split; [done|]. split; [done|]. unfold header_buffer. rewrite Hst. cbn.
    repeat split; lia.
  - unfold db_set_size. destruct (size =? 0) eqn:E1; zbool; [lia|].
    cbn [negb c3_assert mbind option_bind]. rewrite db_ok_validate by done.
    assert (db_buffer (sb_data sb) = None) as ->.
    { unfold db_ok in Hd. destruct (db_buffer _); [lia|done]. }
    unfold alloc. rewrite (proj2 (Z.eqb_neq _ _) E1).
    cbn [negb c3_assert mbind option_bind db_bytes db_buffer db_size default].
    assert (slice (sb_aux sb) 0 0 = Some []) as ->.
    { unfold slice. rewrite Ha. done. }
    cbn [mbind option_bind]. change (id (fresh junk size)) with (fresh junk size).
    rewrite blit_prefix by (rewrite zlen_fresh, zlen_nil; lia).
    cbn [length app drop mbind option_bind]. rewrite drop_0.
    eexists; split; [done|]. unfold header_buffer, sb_ok, db_ok; cbn.
    destruct (0 <? size) eqn:E2; zbool; [|lia]. cbn. rewrite zlen_fresh by lia.
    repeat split; try done; lia.
Qed.

Lemma hcb_same_layout b b' :
  hcb_same b b' ->
  get_command b' = get_command b /\ get_password_hash b' = get_password_hash b
  /\ get_payload_size (hcb_sb b') = get_payload_size (hcb_sb b).
Proof.
  intros [-> (_ & Hp & _)]. split; [done|]. split; [done|].
  unfold get_payload_size, hcb_sb in *. cbn in *. by rewrite Hp.
Qed.

Lemma put_command_ok b dn rest :
  hcb_at b dn rest -> zlen (command_layout b) <= zlen rest ->
  exists b', put_command b = Some b'
    /\ hcb_at b' (dn ++ command_layout b) (drop (length (command_layout b)) rest)
    /\ hcb_same b b'.
Proof.
  intros Hat Hl. unfold put_command, command_layout in *. case_decide.
  - rewrite app_nil_r, drop_0. by eexists.
  - destruct (hcb_write_ok b dn rest [command_code (get_command b)] 1 1)
      as (sb & He & H1 & H2); [done|done|by cbn|done|].
    rewrite set_header_byte_at_eq. rewrite u8_small, He by auto with c3. cbn. eauto.
Qed.

Lemma put_hash_ok b dn rest :
  hcb_at b dn rest -> zlen (hash_layout b) <= zlen rest ->
  exists b', put_hash b = Some b'
    /\ hcb_at b' (dn ++ hash_layout b) (drop (length (hash_layout b)) rest)
    /\ hcb_same b b'.
Proof.
  intros Hat Hl. unfold put_hash, hash_layout in *.
  destruct (get_password_hash b) as [[] h]; cycle 1.
  - rewrite app_nil_r, drop_0. by eexists.
  - destruct (hcb_write_ok b dn rest (le_bytes 8 h) 8 8)
      as (sb & He & H1 & H2); [done|done|by cbn|done|].
    destruct (get_header_bytes (hcb_sb b) (hcb_used_size b) 8) as [p|]; [|done].
    cbn [mbind option_bind] in He. cbn [mbind option_bind]. rewrite He. cbn. eauto.
Qed.

Lemma put_payload_sizes_ok b d dn rest payload size :
  hcb_at b (d :: dn) rest -> size = get_payload_size (hcb_sb b) -> payload_ok payload size ->
  zlen (payload_layout payload size) <= zlen rest ->
  exists b', put_payload_sizes b payload = Some b'
    /\ hcb_at b' (payload_desc payload d :: dn ++ payload_layout payload size)
         (drop (length (payload_layout payload size)) rest)
    /\ hcb_same b b'.
Proof.
  intros Hat -> Hok Hl. unfold put_payload_sizes, payload_desc. destruct payload as [p|]; cycle 1.
  { cbn. rewrite app_nil_r, drop_0. by eexists. }
  destruct Hok as (Hu & Hs0 & Hs). unfold payload_layout in *.
  set (size := get_payload_size (hcb_sb b)) in *.
  set (w := Z.to_nat (estimate_size_bytes (pcb_usize p))) in *.
  assert (estimate_size_bytes (pcb_usize p) = Z.of_nat w) as Hw
    by (destruct (estimate_size_bytes_val (pcb_usize p)) as [?|[?|?]]; lia).
  destruct (pcb_compressor p =? CT_NONE) eqn:Ec; zbool; cbn [negb].
  - rewrite zlen_le_bytes in Hl.
    destruct (put_size_bytes_desc_ok b d dn rest size (pcb_usize p)
      DESC_BYTE_PAYLOAD DESC_WORD_PAYLOAD DESC_DWORD_PAYLOAD) as (b1 & He & H1 & H2);
      [done|lia|done|lia|].
    cbn [mbind option_bind]. fold size. rewrite He. cbn. rewrite length_le_bytes. eauto.
  - rewrite zlen_cons, zlen_app, !zlen_le_bytes in Hl.
    destruct (hcb_write_ok b (d :: dn) rest [u8 (pcb_compressor p)] 1 1)
      as (sb & He & H1 & H2); [done|zlen|by cbn|done|].
    rewrite set_header_byte_at_eq. rewrite He. cbn [mbind option_bind].
    set (b1 := hcb_with_used _ _) in *.
    destruct (hcb_same_layout _ _ H2) as (_ & _ & Hsz). rewrite Hsz. fold size.
    assert (zlen (drop 1 rest) = zlen rest - 1) as Hd1 by (apply (zlen_drop rest [0]); zlen).
    destruct (put_size_bytes_desc_ok b1 d (dn ++ [u8 (pcb_compressor p)]) (drop 1 rest) size (pcb_usize p)
      DESC_BYTE_PAYLOAD DESC_WORD_PAYLOAD DESC_DWORD_PAYLOAD) as (b2 & He2 & H12 & H22);
      [done|lia|done|lia|].
    rewrite He2. cbn [mbind option_bind]. fold w in H12.
    destruct (put_size_bytes_ok b2 _ _ (pcb_usize p) (pcb_usize p) H12) as (b3 & He3 & H13 & H23);
      [unfold is_u32 in *; lia|done| |].
    { pose proof (zlen_drop (drop 1 rest) (le_bytes w 0)) as Hd2.
      rewrite length_le_bytes, zlen_le_bytes in Hd2. rewrite Hd2; lia. }
    rewrite He3. fold w in H13. eexists; split; [done|]. split; [|by etrans; [|etrans]].
    rewrite !drop_drop in H13. cbn [length]. rewrite length_app, !length_le_bytes.
    rewrite <- !app_comm_cons, <- !app_assoc in H13. cbn [app] in H13.
    by replace (S (w + w)) with (1 + w + w)%nat by lia.
Qed.

Lemma zlen_command_layout b :
  zlen (command_layout b) = if decide (get_command b = CMD_INVALID) then 0 else 1.
Proof. unfold command_layout. by case_decide. Qed.

Lemma zlen_hash_layout b : zlen (hash_layout b) = if (get_password_hash b).1 then 8 else 0.
Proof. unfold hash_layout. by destruct (get_password_hash b) as [[]]. Qed.

Lemma zlen_payload_layout p size :
  zlen (payload_layout (Some p) size) =
    if pcb_compressor p =? CT_NONE then estimate_size_bytes (pcb_usize p)
    else 2 * estimate_size_bytes (pcb_usize p) + 1.
Proof.
  unfold payload_layout. destruct (_ =? _); [apply zlen_size_bytes|].
  rewrite zlen_cons, zlen_app, !zlen_size_bytes. lia.
Qed.

Lemma zlen_header_prefix b payload n :
  zlen (header_prefix b payload n) =
    if sized payload n
    then 1 + estimate_size_bytes (zlen (fixed_layout b payload) + n) + zlen (fixed_layout b payload)
    else 1 + zlen (fixed_layout b payload).
Proof.
  unfold header_prefix. destruct (sized payload n); rewrite zlen_cons; [|done].
  rewrite zlen_app, zlen_size_bytes. lia.
Qed.

Lemma header_sizes_ok b payload n :
  hcb_estimated_size b = n -> 0 <= n -> payload_ok payload (get_payload_size (hcb_sb b)) ->
  zlen (header_prefix b payload n) + n < 2 ^ 32 ->
  header_sizes b payload =
    Some (base_desc b payload, if sized payload n then zlen (fixed_layout b payload) + n else 0,
          zlen (header_prefix b payload n) + n).
Proof.
  intros He Hn Hp Hlt. rewrite zlen_header_prefix in *. unfold header_sizes. rewrite He.
  fold (sized payload n).
  pose proof (estimate_size_bytes_val (zlen (fixed_layout b payload) + n)) as Hev.
  destruct (get_password_hash b) as [auth hash] eqn:Ea.
  assert (zlen (fixed_layout b payload) = (if decide (get_command b = CMD_INVALID) then 0 else 1)
    + (if auth then 8 else 0) + zlen (payload_layout payload (get_payload_size (hcb_sb b)))) as Hf.
  { unfold fixed_layout. rewrite !zlen_app, zlen_command_layout, zlen_hash_layout, Ea. cbn. lia. }
  set (c := if decide (get_command b = CMD_INVALID) then 0 else 1) in *.
  set (a := if auth then 8 else 0) in *.
  assert (0 <= c /\ 0 <= a) as [Hc Ha] by (unfold c, a; split; [case_decide|destruct auth]; lia).
  assert (n + c + a < 2 ^ 32 ->
    (let h := if decide (get_command b = CMD_INVALID) then n else u32 (n + 1) in
     if auth then u32 (h + 8) else h) = n + c + a) as Hh.
  { intros Hlt'. unfold c, a in *. cbn zeta. case_decide; destruct auth;
      rewrite ?u32_small; unfold is_u32; rewrite ?u32_small; unfold is_u32; lia. }
  unfold base_desc. destruct payload as [p|].
  - unfold sized in *. rewrite bool_decide_true, orb_true_r in * by done.
    rewrite zlen_payload_layout in Hf. destruct Hp as (Hu & Hs0 & Hs).
    pose proof (estimate_size_bytes_val (pcb_usize p)).
    set (e := estimate_size_bytes (pcb_usize p)) in *.
    cbn zeta in Hh. cbn zeta. rewrite Hh by (destruct (_ =? CT_NONE); lia).
    destruct (pcb_compressor p =? CT_NONE) eqn:Ec; cbn [negb].
    + rewrite Hs, Z.eqb_refl. cbn [c3_assert mbind option_bind].
      rewrite (u32_small (_ + e)) by (unfold is_u32; lia).
      replace (n + c + a + e) with (zlen (fixed_layout b (Some p)) + n) by lia.
      destruct (0 <? _) eqn:E0; zbool; [|lia].
      rewrite u32_small by (unfold is_u32; lia). do 2 f_equal. lia.
    + destruct (_ <? pcb_usize p) eqn:E1; zbool; [|lia]. cbn [c3_assert mbind option_bind].
      rewrite (u32_small (_ + (e * 2 + 1))) by (unfold is_u32; lia).
      replace (n + c + a + (e * 2 + 1)) with (zlen (fixed_layout b (Some p)) + n) by lia.
      destruct (0 <? zlen _ + n) eqn:E0; zbool; [|lia].
      rewrite u32_small by (unfold is_u32; lia). do 2 f_equal. lia.
  - cbn [payload_layout] in Hf. rewrite zlen_nil in Hf.
    unfold sized in *. rewrite bool_decide_false, orb_false_r in * by (intros [? ?]; done).
    destruct (0 <? n) eqn:E; zbool.
    + cbn zeta in Hh. cbn zeta. rewrite Hh by lia. cbn [mbind option_bind].
      replace (n + c + a) with (zlen (fixed_layout b None) + n) by lia.
      destruct (0 <? zlen _ + n) eqn:E0; zbool; [|lia].
      rewrite u32_small by (unfold is_u32; lia). do 2 f_equal. lia.
    + cbn [mbind option_bind Z.ltb Z.compare]. do 2 f_equal. rewrite Hf.
      unfold c, a. case_decide; destruct auth; lia.
Qed.

Lemma sized_pos b payload n :
  sized payload n = true -> 0 <= n -> 0 < zlen (fixed_layout b payload) + n.
Proof.
  intros Hs Hn. pose proof (zlen_nonneg (fixed_layout b payload)).
  unfold sized in Hs. apply orb_true_iff in Hs as [Hs|Hs]; [zbool; lia|].
  apply bool_decide_eq_true in Hs as [p ->]. unfold fixed_layout in *.
  rewrite !zlen_app, zlen_payload_layout in *.
  pose proof (estimate_size_bytes_val (pcb_usize p)).
  pose proof (zlen_nonneg (command_layout b)). pose proof (zlen_nonneg (hash_layout b)).
  case_match; lia.
Qed.

Lemma fixed_layout_same b b' payload :
  hcb_same b b' -> fixed_layout b' payload = fixed_layout b payload.
Proof.
  intros H. destruct (hcb_same_layout _ _ H) as (Hc & Hh & Hp).
  unfold fixed_layout, command_layout, hash_layout. by rewrite Hc, Hh, Hp.
Qed.

(** Steps c), d) and e) of [configure]. *)
Lemma put_fixed_ok b d dn rest payload :
  hcb_at b (d :: dn) rest -> payload_ok payload (get_payload_size (hcb_sb b)) ->
  zlen (fixed_layout b payload) <= zlen rest ->
  exists b', (b ← put_command b; b ← put_hash b; put_payload_sizes b payload) = Some b'
    /\ hcb_at b' (payload_desc payload d :: dn ++ fixed_layout b payload)
         (drop (length (fixed_layout b payload)) rest)
    /\ hcb_same b b'.
Proof.
  intros Hat Hp Hl. unfold fixed_layout in *. rewrite !zlen_app in Hl.
  pose proof (zlen_nonneg (hash_layout b)).
  pose proof (zlen_nonneg (payload_layout payload (get_payload_size (hcb_sb b)))).
  destruct (put_command_ok b _ _ Hat) as (b1 & -> & Hat1 & Hs1); [lia|].
  destruct (hcb_same_layout _ _ Hs1) as (Hc1 & Hh1 & Hp1).
  assert (hash_layout b1 = hash_layout b) as Hhl by (unfold hash_layout; by rewrite Hh1).
  cbn [mbind option_bind].
  destruct (put_hash_ok b1 _ _ Hat1) as (b2 & -> & Hat2 & Hs2).
  { rewrite Hhl, zlen_drop; lia. }
  rewrite Hhl in Hat2. destruct (hcb_same_layout _ _ Hs2) as (Hc2 & Hh2 & Hp2).
  cbn [mbind option_bind]. rewrite <- !app_comm_cons in Hat2.
  destruct (put_payload_sizes_ok b2 d _ _ payload (get_payload_size (hcb_sb b)) Hat2)
    as (b3 & -> & Hat3 & Hs3); [congruence|done| |].
  { rewrite zlen_drop; rewrite zlen_drop; lia. }
  eexists; split; [done|]. split; [|by etrans; [|etrans]].
  rewrite !drop_drop, <- !app_assoc in Hat3. rewrite !length_app. done.
Qed.

(** Step b). *)
Lemma put_header_size_ok b d rest size :
  hcb_at b [d] rest -> 0 < size -> is_u32 size -> estimate_size_bytes size <= zlen rest ->
  exists b', put_size_bytes_desc b size size DESC_BYTE_HEADER DESC_WORD_HEADER DESC_DWORD_HEADER
               = Some b'
    /\ hcb_at b' (Z.lor d (size_mask size DESC_BYTE_HEADER DESC_WORD_HEADER DESC_DWORD_HEADER)
                  :: le_bytes (Z.to_nat (estimate_size_bytes size)) size)
         (drop (Z.to_nat (estimate_size_bytes size)) rest)
    /\ hcb_same b b'.
Proof. intros. eapply put_size_bytes_desc_ok with (dn := []); auto; lia. Qed.

(** The builder reaches the end of the prefix with room for the chunks. *)
Lemma configure_ok junk b payload n :
  sb_ok (hcb_sb b) -> header_is_not_initialized (cb_container b) = true ->
  hcb_used_size b = 0 -> hcb_estimated_size b = n -> 0 <= n ->
  payload_ok payload (get_payload_size (hcb_sb b)) ->
  zlen (header_prefix b payload n) + n < 2 ^ 32 ->
  exists b' rest, configure junk b payload = Some b'
    /\ hcb_at b' (header_prefix b payload n) rest /\ n <= zlen rest
    /\ hcb_estimated_size b' = zlen (header_prefix b payload n) + n
    /\ hcb_kind b' = hcb_kind b /\ cb_net_config b' = cb_net_config b
    /\ cb_container b' = rw_with_sb (cb_container b) (hcb_sb b')
    /\ sb_payload (hcb_sb b') = sb_payload (hcb_sb b)
    /\ sb_nrefs (hcb_sb b') = sb_nrefs (hcb_sb b).
Proof.
  intros Hok Hst Hu He Hn Hp Hlt. unfold configure. rewrite Hst, Hu.
  cbn [Z.eqb andb c3_assert mbind option_bind].
  rewrite (header_sizes_ok b payload n) by done. cbn [mbind option_bind].
  remember (zlen (header_prefix b payload n) + n) as full eqn:Hfull.
  assert (1 <= zlen (header_prefix b payload n)) as Hpos.
  { rewrite zlen_header_prefix. pose proof (zlen_nonneg (fixed_layout b payload)).
    pose proof (estimate_size_bytes_val (zlen (fixed_layout b payload) + n)). case_match; lia. }
  unfold initialize_header. rewrite Hst. cbn [c3_assert mbind option_bind].
  destruct (sb_configure_header_ok junk (rw_sb (cb_container b)) full)
    as (sb0 & -> & Hok0 & Hlen0 & Hpl0 & Hnr0 & _); [done|done|lia|].
  cbn [mbind option_bind].
  set (b0 := hcb_with_container b (rw_with_sb (cb_container b) sb0)).
  change (hcb_sb b0) with sb0.
  rewrite get_header_bytes_ok by (done || (lia)). cbn [mbind option_bind].
  destruct (hdr_store_ok sb0 [] (take 1 (header_buffer sb0)) (drop 1 (header_buffer sb0))
    [base_desc b payload]) as (sb1 & He1 & Hok1 & Hf1 & Hb1).
  { done. }
  { cbn [app]. by rewrite take_drop. }
  { symmetry. apply (zlen_take _ [0]). rewrite zlen_cons, zlen_nil. lia. }
  rewrite zlen_nil in He1. rewrite He1. cbn [mbind option_bind].
  set (b1 := hcb_with_used (hcb_with_sb b0 sb1) 1).
  assert (hcb_at b1 [base_desc b payload] (drop 1 (header_buffer sb0))) as Hat1.
  { split; [done|]. split; [exact Hb1|done]. }
  assert (zlen (drop 1 (header_buffer sb0)) = zlen (header_buffer sb0) - 1) as Hd1
    by (apply (zlen_drop _ [0]); rewrite zlen_cons, zlen_nil; lia).
  set (r1 := drop 1 (header_buffer sb0)) in *.
  assert (get_payload_size (hcb_sb b1) = get_payload_size (hcb_sb b)) as Hps.
  { unfold get_payload_size. destruct Hf1 as (_ & Hpl1 & _). cbn.
    unfold hcb_sb in *. cbn. by rewrite Hpl1, Hpl0. }
  assert (cb_container b1 = rw_with_sb (cb_container b) sb1) as Hc1 by done.
  assert (fixed_layout b1 payload = fixed_layout b payload) as Hfl.
  { unfold fixed_layout. by rewrite Hps. }
  assert (forall b5, hcb_same b1 b5 ->
    hcb_kind b5 = hcb_kind b /\ cb_net_config b5 = cb_net_config b
    /\ cb_container b5 = rw_with_sb (cb_container b) (hcb_sb b5)
    /\ sb_payload (hcb_sb b5) = sb_payload (hcb_sb b)
    /\ sb_nrefs (hcb_sb b5) = sb_nrefs (hcb_sb b)) as Hsame.
  { intros b5 [-> (_ & Hpl5 & Hnr5 & _)]. destruct Hf1 as (_ & Hpl1 & Hnr1 & _).
    unfold hcb_sb in *. cbn in *. split_and!; first [done|congruence]. }
  pose proof (zlen_nonneg (fixed_layout b payload)) as Hfx.
  pose proof (zlen_header_prefix b payload n) as Hzp.
  destruct (sized payload n) eqn:Es.
  - pose proof (sized_pos b payload n Es Hn) as Hsp.
    destruct (0 <? _) eqn:E0; zbool; [|lia].
    pose proof (estimate_size_bytes_val (zlen (fixed_layout b payload) + n)) as Hev.
    destruct (put_header_size_ok b1 _ r1 (zlen (fixed_layout b payload) + n) Hat1)
      as (b2 & -> & Hat2 & Hs2); [done|unfold is_u32; lia|lia|].
    cbn [mbind option_bind].
    set (w := estimate_size_bytes (zlen (fixed_layout b payload) + n)) in *.
    assert (zlen (drop (Z.to_nat w) r1) = zlen r1 - w) as Hd2.
    { unfold zlen in *. rewrite length_drop. lia. }
    destruct (put_fixed_ok b2 _ _ _ payload Hat2) as (b5 & H5 & Hat5 & Hs5).
    { destruct (hcb_same_layout _ _ Hs2) as (_ & _ & ->). by rewrite Hps. }
    { rewrite (fixed_layout_same _ _ _ Hs2), Hfl, Hd2. lia. }
    rewrite (fixed_layout_same _ _ _ Hs2), Hfl in Hat5.
    destruct (Hsame b5) as (? & ? & ? & ? & ?); [by etrans|].
    apply bind_Some in H5 as (b3 & -> & H5). cbn [mbind option_bind].
    apply bind_Some in H5 as (b4 & -> & H5). cbn [mbind option_bind]. rewrite H5.
    cbn [mbind option_bind]. do 2 eexists. split; [done|].
    split_and!; try done.
    + unfold header_prefix. rewrite Es. exact Hat5.
    + rewrite zlen_drop; rewrite Hd2; lia.
  - cbn [Z.ltb Z.compare mbind option_bind].
    destruct (put_fixed_ok b1 _ [] _ payload Hat1) as (b5 & H5 & Hat5 & Hs5).
    { by rewrite Hps. }
    { rewrite Hfl. lia. }
    rewrite Hfl in Hat5. destruct (Hsame b5 Hs5) as (? & ? & ? & ? & ?).
    apply bind_Some in H5 as (b3 & -> & H5). cbn [mbind option_bind].
    apply bind_Some in H5 as (b4 & -> & H5). cbn [mbind option_bind]. rewrite H5.
    cbn [mbind option_bind]. do 2 eexists. split; [done|].
    split_and!; try done.
    + unfold header_prefix. rewrite Es. unfold sized in Es.
      apply orb_false_iff in Es as [_ Es]. apply bool_decide_eq_false in Es.
      destruct payload; [by destruct Es; eexists|]. exact Hat5.
    + rewrite zlen_drop; lia.
Qed.

(** *** Adding chunks *)

(** A one-byte code followed by [bs], as [add_number] writes them. *)
Lemma hcb_write2_ok b dn rest c bs n k :
  hcb_at b dn rest -> 1 + zlen bs <= zlen rest -> 0 <= n <= zlen bs -> is_u8 c ->
  k = 1 + zlen bs ->
  exists sb1 sb2, set_header_byte_at (hcb_sb b) (hcb_used_size b) c = Some sb1
    /\ (p ← get_header_bytes sb1 (u32 (hcb_used_size b + 1)) n; hdr_store sb1 p bs) = Some sb2
    /\ (let b' := hcb_with_used (hcb_with_sb b sb2) (u32 (hcb_used_size b + k)) in
        hcb_at b' (dn ++ c :: bs) (drop (S (length bs)) rest) /\ hcb_same b b').
Proof.
  intros Hat Hl Hn Hc ->. pose proof (hcb_at_lt _ _ _ Hat) as Hlt. rewrite zlen_app in Hlt.
  pose proof (zlen_nonneg bs). pose proof (zlen_nonneg dn).
  destruct (hcb_write_ok b dn rest [c] 1 1) as (sb1 & He1 & Hat1 & Hs1);
    [done|zlen|by cbn|done|].
  rewrite set_header_byte_at_eq. rewrite u8_small, He1 by done.
  set (b1 := hcb_with_used _ _) in *.
  destruct (hcb_write_ok b1 _ _ bs n (zlen bs) Hat1) as (sb2 & He2 & Hat2 & Hs2); [|done|done|].
  { rewrite zlen_drop; zlen. }
  do 2 eexists; split; [done|]. split; [exact He2|].
  pose proof Hat as (_ & _ & Hu).
  assert (u32 (hcb_used_size b1 + zlen bs) = u32 (hcb_used_size b + (1 + zlen bs))) as Hu2.
  { cbn. rewrite !u32_small; unfold is_u32; rewrite ?u32_small; unfold is_u32; lia. }
  rewrite Hu2 in *. cbn zeta. split.
  - rewrite <- app_assoc, drop_drop in Hat2. exact Hat2.
  - etrans; [exact Hs1|exact Hs2].
Qed.

Lemma estimate_item_ok b i bs :
  item_encodes i bs -> header_is_not_initialized (cb_container b) = true ->
  0 <= hcb_estimated_size b -> hcb_estimated_size b + zlen bs < 2 ^ 32 ->
  estimate_item b i = Some (zlen bs, hcb_with_estimate b (hcb_estimated_size b + zlen bs)).
Proof.
  intros Hi Hst He Hlt. pose proof (zlen_nonneg bs).
  destruct i as [n|s|h]; cbn [estimate_item item_encodes] in *.
  - destruct Hi as [Hn ->]. unfold estimate_number. rewrite Hst. cbn [c3_assert mbind option_bind].
    unfold encode_number, INT_MIN_VAL, UINT_MAX_VAL, CHNK_BIG_NEGATIVE_BIAS in *.
    destruct (0 <=? n) eqn:E; zbool; cbn [andb].
    + destruct (n <=? 4294967295) eqn:E1; zbool; [|lia].
      rewrite zlen_encode_entity in * by (unfold is_u32; lia).
      by rewrite u32_small by (unfold is_u32; lia).
    + destruct (-2147483648 <=? n) eqn:E1; zbool; [|lia].
      destruct (n <? 0) eqn:E2; zbool; [|lia]. cbn [andb c3_assert mbind option_bind].
      replace (-9 <? n) with (-9 <? n) by done. destruct (-9 <? n) eqn:E3; zbool.
      * rewrite zlen_cons, zlen_nil in *. by rewrite u32_small by (unfold is_u32; lia).
      * rewrite (u32_small (- n + -9)) by (unfold is_u32; lia).
        rewrite mask_byte, mask_word, mask_triple by (unfold is_u32; lia).
        unfold encode_big in *. replace (- n - 9) with (- n + -9) in * by lia.
        repeat case_match; autorewrite with zlen in *;
          rewrite u32_small by (unfold is_u32; lia); do 2 f_equal; lia.
  - subst bs. unfold estimate_string, encode_string in *. rewrite Hst. cbn [c3_assert mbind option_bind].
    rewrite zlen_app in *. clear H. pose proof (zlen_nonneg s).
    pose proof (zlen_nonneg (encode_entity (zlen s) CHNK_SHORT_STRING CHNK_STRING CHNK_LONG_STRING)).
    assert (zlen (encode_entity (zlen s) CHNK_SHORT_STRING CHNK_STRING CHNK_LONG_STRING)
            = measure_entity (zlen s)) as Hm by (apply zlen_encode_entity; unfold is_u32; lia).
    rewrite Hm in *.
    rewrite (u32_small (measure_entity (zlen s) + zlen s)) by (unfold is_u32; lia).
    by rewrite u32_small by (unfold is_u32; lia).
  - destruct Hi as (Hb & Hu & Hp). unfold estimate_list. rewrite Hst, Hu.
    cbn [c3_assert mbind option_bind]. by rewrite u32_small by (unfold is_u32; lia).
Qed.

Lemma hcb_put_ok b n s m l dn rest :
  hcb_at b dn rest -> is_u32 n -> zlen (encode_entity n s m l) <= zlen rest ->
  exists b', hcb_put b n s m l = Some (measure_entity n, b')
    /\ hcb_at b' (dn ++ encode_entity n s m l) (drop (length (encode_entity n s m l)) rest)
    /\ hcb_same b b'.
Proof.
  intros Hat Hn Hl. unfold hcb_put. rewrite put_entity_encode by done.
  pose proof (zlen_encode_entity n s m l Hn) as Hm. pose proof (measure_entity_pos n).
  destruct (hcb_write_ok b dn rest (encode_entity n s m l) (measure_entity n) (measure_entity n))
    as (sb & He & Hat1 & Hs1); [done|done|lia|done|].
  apply bind_Some in He as (p & -> & He). cbn [mbind option_bind]. rewrite He. cbn. eauto.
Qed.

Lemma hcb_copy_ok b bs dn rest :
  hcb_at b dn rest -> zlen bs <= zlen rest ->
  exists b', hcb_copy b bs = Some b' /\ hcb_at b' (dn ++ bs) (drop (length bs) rest)
    /\ hcb_same b b'.
Proof.
  intros Hat Hl. unfold hcb_copy. pose proof (zlen_nonneg bs).
  destruct (hcb_write_ok b dn rest bs (zlen bs) (zlen bs))
    as (sb & He & Hat1 & Hs1); [done|done|lia|done|].
  apply bind_Some in He as (p & -> & He). cbn [mbind option_bind]. rewrite He. cbn. eauto.
Qed.

(** Finishes a branch of [add_number] after [hcb_write2_ok]. *)
Ltac write2_done H1 H2 :=
  rewrite H1; cbn [mbind option_bind]; rewrite H2; cbn [mbind option_bind];
  eexists; split; [done|]; split; eassumption.

Lemma add_negative_ok b n dn rest :
  hcb_at b dn rest -> INT_MIN_VAL <= n < 0 -> zlen (encode_number n) <= zlen rest ->
  exists b', add_number b n = Some b'
    /\ hcb_at b' (dn ++ encode_number n) (drop (length (encode_number n)) rest)
    /\ hcb_same b b'.
Proof.
  intros Hat Hn Hl.
  unfold add_number, encode_number, INT_MIN_VAL, UINT_MAX_VAL, CHNK_BIG_NEGATIVE_BIAS,
    CHNK_SMALL_NEGATIVE_BIAS, CHNK_SUBTYPE in *.
  destruct (0 <=? n) eqn:E; zbool; [lia|]. cbn [andb].
  destruct (-2147483648 <=? n) eqn:E1; zbool; [|lia].
  destruct (n <? 0) eqn:E2; zbool; [|lia]. cbn [andb c3_assert mbind option_bind].
  destruct (-9 <? n) eqn:E3; zbool.
  - destruct (hcb_write_ok b dn rest [Z.lor (Z.lor 192 CHNK_SMALL_NEGATIVE) (- n - 1)] 1 1)
      as (sb & He & H1 & H2); [done|done|by cbn|done|].
    rewrite set_header_byte_at_eq. rewrite (u8_small (- n + -1)) by (unfold is_u8; lia).
    replace (- n + -1) with (- n - 1) by lia. rewrite u8_small, He; [cbn; eauto|].
    assert (0 <= - n - 1 < 8) as Hr by lia. revert Hr. generalize (- n - 1). clear.
    intros z Hz. apply (seqZ_forallb (fun z => (0 <=? Z.lor (Z.lor 192 CHNK_SMALL_NEGATIVE) z)
      && (Z.lor (Z.lor 192 CHNK_SMALL_NEGATIVE) z <? 256)) 0 8) in Hz; [|done].
    zbool. unfold is_u8. lia.
  - rewrite (u32_small (- n + -9)) by (unfold is_u32; lia).
    rewrite mask_byte, mask_word, mask_triple by (unfold is_u32; lia).
    unfold encode_big in *. replace (- n - 9) with (- n + -9) in * by lia.
    set (z := - n + -9) in *. assert (0 <= z < 2 ^ 32) by lia.
    destruct (z <? 2 ^ 8) eqn:B1; [|destruct (z <? 2 ^ 16) eqn:B2; [|destruct (z <? 2 ^ 24) eqn:B3]];
      zbool.
    + destruct (hcb_write2_ok b dn rest (Z.lor (Z.lor 192 CHNK_BIG_NEGATIVE) 0) (le_bytes 1 z) 1 2)
        as (sb1 & sb2 & H1 & H2 & H3 & H4); [done..|].
      change (le_bytes 1 z) with [u8 z] in H2. rewrite <- u8_u8, <- set_header_byte_at_eq in H2. write2_done H1 H2.
    + destruct (hcb_write2_ok b dn rest (Z.lor (Z.lor 192 CHNK_BIG_NEGATIVE) 1) (le_bytes 2 z) 2 3)
        as (sb1 & sb2 & H1 & H2 & H3 & H4); [done..|].
      rewrite <- set_header_ushort_at_eq in H2. rewrite u16_small by (unfold is_u16; lia). write2_done H1 H2.
    + destruct (hcb_write2_ok b dn rest (Z.lor (Z.lor 192 CHNK_BIG_NEGATIVE) 2) (le_bytes 3 z) 2 4)
        as (sb1 & sb2 & H1 & H2 & H3 & H4); [done..|].
      rewrite <- set_header_uint3_at_eq in H2. write2_done H1 H2.
    + destruct (hcb_write2_ok b dn rest (Z.lor (Z.lor 192 CHNK_BIG_NEGATIVE) 3) (le_bytes 4 z) 2 5)
        as (sb1 & sb2 & H1 & H2 & H3 & H4); [done..|].
      rewrite <- set_header_uint_at_eq in H2. write2_done H1 H2.
Qed.

Lemma add_item_ok b i bs dn rest :
  item_encodes i bs -> hcb_at b dn rest -> zlen bs <= zlen rest ->
  exists b', add_item b i = Some b' /\ hcb_at b' (dn ++ bs) (drop (length bs) rest)
    /\ hcb_same b b'.
Proof.
  intros Hi Hat Hl. destruct i as [n|s|h]; cbn [add_item item_encodes] in *.
  - destruct Hi as [Hn ->]. destruct (decide (n < 0)).
    { apply add_negative_ok; auto; unfold INT_MIN_VAL in *; lia. }
    unfold add_number, encode_number, UINT_MAX_VAL in *.
    destruct (0 <=? n) eqn:E; zbool; [|lia].
    destruct (n <=? 4294967295) eqn:E1; zbool; [|lia]. cbn [andb].
    edestruct hcb_put_ok as (b' & -> & H1 & H2); [done|unfold is_u32; lia|done|].
    cbn. eauto.
  - subst bs. unfold add_string, encode_string in *. rewrite zlen_app in Hl.
    pose proof (zlen_nonneg s) as Hs. pose proof (hcb_at_lt _ _ _ Hat) as Hlt.
    rewrite zlen_app in Hlt. pose proof (zlen_nonneg dn).
    set (e := encode_entity _ _ _ _) in *. pose proof (zlen_nonneg e).
    destruct (hcb_put_ok b (zlen s) CHNK_SHORT_STRING CHNK_STRING CHNK_LONG_STRING dn rest Hat)
      as (b1 & -> & Hat1 & Hs1); [unfold is_u32; lia|fold e; lia|].
    fold e in Hat1. cbn [mbind option_bind].
    pose proof (measure_entity_pos (zlen s)).
    destruct (measure_entity (zlen s) =? 0) eqn:E; zbool; [lia|].
    cbn [negb c3_assert mbind option_bind].
    destruct (0 <? zlen s) eqn:E1; zbool.
    + rewrite slice_all. cbn [mbind option_bind].
      destruct (hcb_copy_ok b1 s _ _ Hat1) as (b2 & -> & Hat2 & Hs2); [rewrite zlen_drop; lia|].
      eexists; split; [done|]. split; [|by etrans].
      by rewrite <- app_assoc, drop_drop, <- length_app in Hat2.
    + assert (s = []) as -> by (apply nil_length_inv; unfold zlen in *; lia).
      rewrite app_nil_r. eauto.
  - destruct Hi as (Hb & Hu & Hp). unfold add_list. rewrite Hb, Hu.
    cbn [mbind option_bind]. destruct (zlen bs =? 0) eqn:E; zbool; [lia|].
    cbn [negb c3_assert mbind option_bind]. rewrite slice_all. cbn [mbind option_bind].
    by apply hcb_copy_ok.
Qed.

Lemma estimate_items_ok l bss b :
  Forall2 item_encodes l bss -> header_is_not_initialized (cb_container b) = true ->
  0 <= hcb_estimated_size b -> hcb_estimated_size b + zlen (concat bss) < 2 ^ 32 ->
  estimate_items b l = Some (hcb_with_estimate b (hcb_estimated_size b + zlen (concat bss))).
Proof.
  intros HF. revert b. induction HF as [|i bs l bss Hi HF IH]; intros b Hst He Hlt; cbn in *.
  - rewrite zlen_nil, Z.add_0_r. by destruct b.
  - rewrite zlen_app in *. pose proof (zlen_nonneg bs). pose proof (zlen_nonneg (concat bss)).
    rewrite (estimate_item_ok b i bs) by (done || lia). cbn [mbind option_bind].
    rewrite IH; cbn; [|done|lia|lia]. by rewrite Z.add_assoc.
Qed.

Lemma add_items_ok l bss b dn rest :
  Forall2 item_encodes l bss -> hcb_at b dn rest -> zlen (concat bss) <= zlen rest ->
  exists b', add_items b l = Some b' /\ hcb_at b' (dn ++ concat bss) (drop (length (concat bss)) rest)
    /\ hcb_same b b'.
Proof.
  intros HF. revert b dn rest. induction HF as [|i bs l bss Hi HF IH]; intros b dn rest Hat Hl; cbn in *.
  - rewrite app_nil_r, drop_0. by eexists.
  - rewrite zlen_app in Hl. pose proof (zlen_nonneg (concat bss)).
    destruct (add_item_ok b i bs dn rest Hi Hat) as (b1 & -> & Hat1 & Hs1); [lia|].
    cbn [mbind option_bind]. destruct (IH b1 _ _ Hat1) as (b2 & -> & Hat2 & Hs2).
    { rewrite zlen_drop; lia. }
    eexists; split; [done|]. rewrite <- app_assoc, drop_drop, <- length_app in Hat2.
    split; [done|by etrans].
Qed.

(** ** The main theorems *)

(** A container ready to be filled by a command builder. *)
Definition fresh_writer (rw : ReaderWriter) : Prop :=
  sb_ok (rw_sb rw) /\ header_is_not_initialized rw = true
  /\ rw_state rw = IO_STATE_CREATED /\ is_clear rw IO_FLAG_IS_READER = true.

(** The state every builder is in right before [verify()]. *)
Lemma build_header_before_verify junk b payload l bss :
  sb_ok (hcb_sb b) -> header_is_not_initialized (cb_container b) = true ->
  hcb_used_size b = 0 -> hcb_estimated_size b = 0 ->
  payload_ok payload (get_payload_size (hcb_sb b)) -> Forall2 item_encodes l bss ->
  zlen (header_layout b payload (concat bss)) < 2 ^ 32 ->
  exists b' rest, build_header junk b payload l = verify b'
    /\ hcb_at b' (header_layout b payload (concat bss)) rest
    /\ hcb_kind b' = hcb_kind b /\ cb_container b' = rw_with_sb (cb_container b) (hcb_sb b')
    /\ sb_payload (hcb_sb b') = sb_payload (hcb_sb b).
Proof.
  intros Hok Hst Hu He Hp HF Hlt. unfold header_layout in *. rewrite zlen_app in Hlt.
  pose proof (zlen_nonneg (concat bss)).
  pose proof (zlen_nonneg (header_prefix b payload (zlen (concat bss)))).
  unfold build_header. rewrite (estimate_items_ok l bss) by (done || lia).
  cbn [mbind option_bind]. rewrite He, Z.add_0_l.
  set (b1 := hcb_with_estimate b (zlen (concat bss))).
  destruct (configure_ok junk b1 payload (zlen (concat bss)))
    as (b2 & rest & -> & Hat & Hr & He2 & Hk & Hn & Hc & Hpl & Hnr); [done..|].
  cbn [mbind option_bind].
  destruct (add_items_ok l bss b2 _ _ HF Hat Hr) as (b3 & -> & Hat3 & Hs3).
  cbn [mbind option_bind]. destruct Hat3 as (Hok3 & Hb3 & Hu3).
  destruct Hs3 as [Hb3' (_ & Hpl3 & _)].
  assert (hcb_estimated_size b3 = hcb_estimated_size b2) as He3 by (rewrite Hb3'; done).
  unfold check. rewrite He3, He2, Hu3, zlen_app, Z.eqb_refl. cbn [c3_assert mbind option_bind].
  exists b3, (drop (length (concat bss)) rest). split; [done|]. split; [done|].
  rewrite Hpl3, Hpl. split; [rewrite Hb3'; exact Hk|]. split; [|done].
  rewrite Hb3'. cbn. rewrite Hc. done.
Qed.

Lemma is_clear_with_sb rw sb f : is_clear (rw_with_sb rw sb) f = is_clear rw f.
Proof. done. Qed.

Lemma command_prefix_len b payload n cmd admin auth hash :
  hcb_kind b = CommandHeader cmd admin auth hash -> cmd <> CMD_INVALID ->
  2 <= zlen (header_prefix b payload n).
Proof.
  intros Hk Hc. rewrite zlen_header_prefix. unfold fixed_layout. rewrite !zlen_app.
  rewrite zlen_command_layout. unfold get_command. rewrite Hk. rewrite decide_False by done.
  pose proof (zlen_nonneg (hash_layout b)).
  pose proof (zlen_nonneg (payload_layout payload (get_payload_size (hcb_sb b)))).
  pose proof (estimate_size_bytes_val
    (1 + (zlen (hash_layout b) + zlen (payload_layout payload (get_payload_size (hcb_sb b)))) + n)).
  destruct (sized payload n); lia.
Qed.

(** Every command header is built without a failing assertion: the sizes
    reserved by the estimates are the sizes written, the header is exactly the
    reference layout, and the container is left ready for transmission with its
    payload untouched. *)
Lemma build_command_ok junk rw nc cmd admin payload l bss :
  fresh_writer rw -> is_clear rw IO_FLAG_IS_RESPONSE = true -> cmd <> CMD_INVALID ->
  payload_ok payload (get_payload_size (rw_sb rw)) -> Forall2 item_encodes l bss ->
  exists b, command_builder rw nc cmd admin = Some b /\
    (zlen (header_layout b payload (concat bss)) < 2 ^ 32 ->
     exists b' rest, build_header junk b payload l = Some b'
       /\ sb_ok (hcb_sb b')
       /\ header_buffer (hcb_sb b') = header_layout b payload (concat bss) ++ rest
       /\ cb_container b'
          = rw_with_state (rw_with_sb rw (hcb_sb b')) IO_STATE_COMMAND_WRITE_READY
       /\ sb_payload (hcb_sb b') = sb_payload (rw_sb rw)).
Proof.
  intros (Hok & Hst & Hs & Hr) Hresp Hc Hp HF. unfold command_builder.
  rewrite Hr, Hresp. cbn [c3_assert mbind option_bind]. eexists; split; [done|]. intros Hlt.
  match type of Hlt with context [header_layout ?b _ _] => set (b0 := b) in * end.
  destruct (build_header_before_verify junk b0 payload l bss)
    as (b1 & rest & -> & (Hok1 & Hb1 & Hu1) & Hk1 & Hc1 & Hpl1); [done..|].
  unfold verify. rewrite Hk1. cbn [b0 hcb_kind].
  unfold header_layout in *. rewrite zlen_app in *.
  pose proof (command_prefix_len b0 payload (zlen (concat bss)) _ _ _ _ eq_refl Hc).
  pose proof (zlen_nonneg (concat bss)).
  rewrite Hu1. destruct (2 <=? _) eqn:E; zbool; [|lia]. cbn [c3_assert mbind option_bind].
  unfold command_writer_set_ready_state. rewrite Hc1, !is_clear_with_sb. cbn [b0 cb_container].
  rewrite Hr, Hresp, bool_decide_true by done. cbn.
  do 2 eexists. split; [done|]. cbn. by rewrite Hpl1.
Qed.
