(* ===== verification/ChunkIterator.v ===== *)
(** * ChunkIterator

    Retrieval of chunks: [io_chunk_iterators.h/.cc]. A header iterator reads the
    header buffer of a [ReaderWriter], a payload iterator the payload or its
    uncompressed copy; string lists are read through the interface they share,
    the class [ByteSource]. *)

From S2P Require Import Prelude Protocol Memory Buffers ChunkBuilder HeaderBuild.

Inductive chunk_t := CHUNK_NONE | CHUNK_NUMBER | CHUNK_STRING | CHUNK_LIST.

#[export] Instance chunk_t_eq_dec : EqDecision chunk_t.
Proof. solve_decision. Defined.

(** ** [ChunkIterator] *)

Record ChunkIterator := mkChunkIterator {
  ci_offset : Z;
  ci_remains : Z;
}.

Definition skip (it : ChunkIterator) (n : Z) : option ChunkIterator :=
  _ ← c3_assert (n <=? ci_remains it);
  Some (mkChunkIterator (u32 (ci_offset it + n)) (u32 (ci_remains it - n))).

Definition ci_is_valid (it : ChunkIterator) : bool := negb (ci_offset it =? UINT_MAX_VAL).
Definition ci_invalidate : ChunkIterator := mkChunkIterator UINT_MAX_VAL 0.
Definition has_more_chunks (it : ChunkIterator) : bool := negb (ci_remains it =? 0).

(** The virtual accessors of an iterator: [get_byte] and [get_bytes]. *)
Class ByteSource (A : Type) := {
  get_byte : A -> Z -> option Z;
  get_bytes : A -> Z -> Z -> option bytes;
}.

(** ** [NumberChunk] and [StringChunk] *)

Definition nc_is_valid (v : Z) : bool := negb (v =? LONG_MAX_VAL).
Definition nc_is_valid_int (v : Z) : bool := (INT_MIN_VAL <=? v) && (v <=? INT_MAX_VAL).
Definition nc_is_valid_uint (v : Z) : bool := (0 <=? v) && (v <=? UINT_MAX_VAL).
Definition nc_is_in_range (v from to : Z) : bool := (from <=? v) && (v <=? to).

Record StringChunk := mkStringChunk {
  sc_offset : Z;
  sc_length : Z;
}.

Definition sc_is_valid (it : ChunkIterator) (s : StringChunk) : bool :=
  ci_is_valid it && negb (sc_offset s =? UINT_MAX_VAL).
Definition sc_is_valid_name (it : ChunkIterator) (s : StringChunk) : bool :=
  sc_is_valid it s && (0 <? sc_length s) && (sc_length s <=? USHORT_MAX_VAL).

Definition get_chars {A} `{ByteSource A} (src : A) (it : ChunkIterator) (s : StringChunk)
  : option bytes :=
  _ ← c3_assert (sc_is_valid it s);
  get_bytes src (sc_offset s) (sc_length s).

(** ** [ListChunk] *)

Record ListChunk := mkListChunk {
  sl_count : Z;
  sl_num : Z;
}.

Definition sl_is_valid (it : ChunkIterator) (l : ListChunk) : bool :=
  ci_is_valid it && negb (sl_num l =? UINT_MAX_VAL).

(** The [do ... while (c == 255)] loop of [get_string]; every iteration consumes
    a byte, so [ci_remains] bounds their number. *)
Fixpoint get_length {A} `{ByteSource A} (fuel : nat) (src : A) (it : ChunkIterator)
    (length : Z) : option (Z * ChunkIterator) :=
  match fuel with
  | O => None
  | S fuel =>
      c ← get_byte src (ci_offset it);
      it ← skip it 1;
      let length := u32 (length + c) in
      if c =? 255 then get_length fuel src it length else Some (length, it)
  end.

Definition list_get_string {A} `{ByteSource A} (src : A) (it : ChunkIterator) (l : ListChunk)
  : option (StringChunk * ChunkIterator * ListChunk) :=
  _ ← c3_assert (sl_is_valid it l && (sl_num l <? sl_count l));
  '(length, it) ← get_length (S (Z.to_nat (ci_remains it))) src it 0;
  let offset := ci_offset it in
  it ← skip it length;
  Some (mkStringChunk offset length, it, mkListChunk (sl_count l) (u32 (sl_num l + 1))).

(** ** [HeaderChunkIterator] *)

#[export] Instance HeaderSource : ByteSource SharedBuffers := {
  get_byte sb off := get_header_byte_at sb off;
  get_bytes sb off size := p ← get_header_bytes sb off size; hdr_load sb p size;
}.

(** [chunk_data_t] together with the [chunk_t] that says which field is set. *)
Inductive chunk_data :=
| NoChunk
| NumberData (dc_number : Z)
| StringData (s_offset s_length : Z)
| ListData (l_count : Z).

Definition chunk_type (d : chunk_data) : chunk_t :=
  match d with
  | NoChunk => CHUNK_NONE
  | NumberData _ => CHUNK_NUMBER
  | StringData _ _ => CHUNK_STRING
  | ListData _ => CHUNK_LIST
  end.

Definition get_count (sb : SharedBuffers) (it : ChunkIterator) (c : Z)
  : option (Z * ChunkIterator) :=
  let at1 := u32 (ci_offset it + 1) in
  let k := Z.land c CHNK_SHORT_MASK in
  if k =? 0 then r ← get_header_byte_at sb at1; it ← skip it 2; Some (r, it)
  else if k =? 1 then r ← get_header_ushort_at sb at1; it ← skip it 3; Some (r, it)
  else if k =? 2 then r ← get_header_uint3_at sb at1; it ← skip it 4; Some (r, it)
  else if k =? 3 then r ← get_header_uint_at sb at1; it ← skip it 5; Some (r, it)
  else None.

Definition get_next_chunk (sb : SharedBuffers) (it : ChunkIterator)
  : option (chunk_data * ChunkIterator) :=
  if 0 <? ci_remains it then
    c ← get_header_byte_at sb (ci_offset it);
    let t := Z.land c CHNK_TYPE_BITS in
    if t =? CHNK_INTEGER then
      it ← skip it 1;
      Some (NumberData (Z.land c CHNK_LONG_MASK + CHNK_INTEGER_BIAS), it)
    else if t =? CHNK_STRING then
      let len := Z.land c CHNK_LONG_MASK + CHNK_STRING_BIAS in
      let off := u32 (ci_offset it + 1) in
      it ← skip it (u32 (len + 1));
      Some (StringData off len, it)
    else if t =? CHNK_LIST then
      it ← skip it 1;
      Some (ListData (Z.land c CHNK_LONG_MASK + CHNK_LIST_BIAS), it)
    else
      let s := Z.land c CHNK_SUBTYPE_BITS in
      if s =? CHNK_SMALL_NEGATIVE then
        it ← skip it 1;
        Some (NumberData (- Z.land c CHNK_SHORT_MASK + CHNK_SMALL_NEGATIVE_BIAS), it)
      else if s =? CHNK_BIG_NEGATIVE then
        '(n, it) ← get_count sb it c;
        Some (NumberData (- n + CHNK_BIG_NEGATIVE_BIAS), it)
      else if s =? CHNK_SMALL_INTEGER then
        it ← skip it 1;
        Some (NumberData (Z.land c CHNK_SHORT_MASK), it)
      else if s =? CHNK_SHORT_STRING then
        let len := Z.land c CHNK_SHORT_MASK in
        let off := u32 (ci_offset it + 1) in
        it ← skip it (u32 (len + 1));
        Some (StringData off len, it)
      else if s =? CHNK_SHORT_LIST then
        it ← skip it 1;
        Some (ListData (Z.land c CHNK_SHORT_MASK), it)
      else if s =? CHNK_BIG_INTEGER then
        '(n, it) ← get_count sb it c;
        Some (NumberData (u32 (n + CHNK_BIG_INTEGER_BIAS)), it)
      else if s =? CHNK_LONG_STRING then
        '(n, it) ← get_count sb it c;
        let len := u32 (n + CHNK_LONG_STRING_BIAS) in
        let off := ci_offset it in
        it ← skip it len;
        Some (StringData off len, it)
      else
        '(n, it) ← get_count sb it c;
        Some (ListData (u32 (n + CHNK_LONG_LIST_BIAS)), it)
  else Some (NoChunk, it).

Definition get_next_chunk_type (sb : SharedBuffers) (it : ChunkIterator) : option chunk_t :=
  if 0 <? ci_remains it then
    c ← get_header_byte_at sb (ci_offset it);
    let t := Z.land c CHNK_TYPE_BITS in
    if t =? CHNK_INTEGER then Some CHUNK_NUMBER
    else if t =? CHNK_STRING then Some CHUNK_STRING
    else if t =? CHNK_LIST then Some CHUNK_LIST
    else
      let s := Z.land c CHNK_SUBTYPE_BITS in
      if (s =? CHNK_SHORT_STRING) || (s =? CHNK_LONG_STRING) then Some CHUNK_STRING
      else if (s =? CHNK_SHORT_LIST) || (s =? CHNK_LONG_LIST) then Some CHUNK_LIST
      else Some CHUNK_NUMBER
  else Some CHUNK_NONE.

Definition get_number (sb : SharedBuffers) (it : ChunkIterator) : option (Z * ChunkIterator) :=
  '(d, it) ← get_next_chunk sb it;
  match d with
  | NumberData n =>
      _ ← c3_assert ((INT_MIN_VAL <=? n) && (n <=? UINT_MAX_VAL)); Some (n, it)
  | _ => None
  end.

Definition get_string (sb : SharedBuffers) (it : ChunkIterator)
  : option (StringChunk * ChunkIterator) :=
  '(d, it) ← get_next_chunk sb it;
  match d with
  | StringData off len => Some (mkStringChunk off len, it)
  | _ => None
  end.

Definition get_list (sb : SharedBuffers) (it : ChunkIterator)
  : option (ListChunk * ChunkIterator) :=
  '(d, it) ← get_next_chunk sb it;
  match d with
  | ListData n => _ ← c3_assert (n <=? ci_remains it); Some (mkListChunk n 0, it)
  | _ => None
  end.

(** ** [PayloadChunkIterator]

    [pci_buffer] is the uncompressed copy of a compressed payload, if any. *)

Record PayloadChunkIterator := mkPayloadChunkIterator {
  pci_sb : SharedBuffers;
  pci_buffer : option bytes;
  pci_usize : Z;
}.

#[export] Instance PayloadSource : ByteSource PayloadChunkIterator := {
  get_byte p off :=
    match pci_buffer p with
    | Some b => _ ← c3_assert (off <? pci_usize p); byte_at b off
    | None => q ← get_payload_bytes (pci_sb p) off 1;
              bs ← payload_load (pci_sb p) q 1; head bs
    end;
  get_bytes p off size :=
    match pci_buffer p with
    | Some b => _ ← c3_assert (u32 (off + size) <=? pci_usize p); slice b off size
    | None => q ← get_payload_bytes (pci_sb p) off size; payload_load (pci_sb p) q size
    end;
}.

(** ** What a source promises to list iteration *)

Class ByteSourceLaws (A : Type) `{ByteSource A} := {
  src_view : A -> bytes;
  src_ok : A -> Prop;
  src_get_byte s a b c :
    src_ok s -> src_view s = a ++ b :: c -> get_byte s (zlen a) = Some b;
  src_get_bytes s a bs c :
    src_ok s -> src_view s = a ++ bs ++ c -> get_bytes s (zlen a) (zlen bs) = Some bs;
}.

Lemma header_get_bytes_ok sb a bs c :
  sb_ok sb -> header_buffer sb = a ++ bs ++ c ->
  (p ← get_header_bytes sb (zlen a) (zlen bs); hdr_load sb p (zlen bs)) = Some bs.
Proof.
  intros Hok Hb. rewrite get_header_bytes_ok; auto with c3.
  - cbn. unfold hdr_load. by rewrite Hb, slice_app_mid.
  - rewrite Hb, !zlen_app. pose proof (zlen_nonneg c). lia.
Qed.

#[export] Instance HeaderSource_laws : ByteSourceLaws SharedBuffers := {
  src_view := header_buffer;
  src_ok := sb_ok;
  src_get_byte s a b c Hok Hb := get_header_byte_at_ok s Hok a b c Hb;
  src_get_bytes := header_get_bytes_ok;
}.

Definition pci_view (p : PayloadChunkIterator) : bytes :=
  match pci_buffer p with Some b => b | None => db_bytes (sb_payload (pci_sb p)) end.

Definition pci_ok (p : PayloadChunkIterator) : Prop :=
  match pci_buffer p with
  | Some b => pci_usize p = zlen b /\ zlen b < 2 ^ 32
  | None => db_ok (sb_payload (pci_sb p)) /\ 0 < get_payload_size (pci_sb p)
  end.

Lemma payload_get_bytes_ok (p : PayloadChunkIterator) a bs c :
  pci_ok p -> pci_view p = a ++ bs ++ c -> get_bytes p (zlen a) (zlen bs) = Some bs.
Proof.
  unfold pci_ok, pci_view. cbn [get_bytes PayloadSource].
  pose proof (zlen_nonneg a). pose proof (zlen_nonneg bs). pose proof (zlen_nonneg c).
  destruct (pci_buffer p) as [b|]; intros Hok Hb.
  - destruct Hok as [Hu Hlt]. rewrite Hu. rewrite Hb in *. rewrite !zlen_app in *.
    rewrite u32_small by (unfold is_u32; lia).
    destruct (_ <=? _) eqn:E; zbool; [|lia]. apply slice_app_mid.
  - destruct Hok as [Hok Hpos]. unfold get_payload_bytes, payload_load, get_payload_size in *.
    destruct (db_ok_size _ Hok) as [Hs Hr]. rewrite Hb, !zlen_app in Hs.
    rewrite db_get_bytes_ok; auto with c3; [|lia]. cbn. by rewrite Hb, slice_app_mid.
Qed.

Lemma payload_get_byte_ok (p : PayloadChunkIterator) a b c :
  pci_ok p -> pci_view p = a ++ b :: c -> get_byte p (zlen a) = Some b.
Proof.
  unfold pci_ok, pci_view. cbn [get_byte PayloadSource].
  pose proof (zlen_nonneg a). pose proof (zlen_nonneg c).
  destruct (pci_buffer p) as [bf|]; intros Hok Hb.
  - destruct Hok as [Hu Hlt]. rewrite Hu, Hb, zlen_app, zlen_cons.
    destruct (_ <? _) eqn:E; zbool; [|lia]. cbn. apply byte_at_app_mid.
  - destruct Hok as [Hok Hpos]. unfold get_payload_bytes, payload_load, get_payload_size in *.
    destruct (db_ok_size _ Hok) as [Hs Hr]. rewrite Hb, zlen_app, zlen_cons in Hs.
    rewrite db_get_bytes_ok; auto with c3; [|lia..]. cbn. rewrite Hb.
    change (a ++ b :: c) with (a ++ [b] ++ c). change 1 with (zlen [b]).
    by rewrite slice_app_mid.
Qed.

#[export] Instance PayloadSource_laws : ByteSourceLaws PayloadChunkIterator := {
  src_view := pci_view;
  src_ok := pci_ok;
  src_get_byte := payload_get_byte_ok;
  src_get_bytes := payload_get_bytes_ok;
}.

(** ** Moving the iterator *)

Definition advance (it : ChunkIterator) (n : Z) : ChunkIterator :=
  mkChunkIterator (ci_offset it + n) (ci_remains it - n).

(** [ci_in it n]: at least [n] bytes remain and no counter overflows. *)
Definition ci_in (it : ChunkIterator) (n : Z) : Prop :=
  0 <= ci_offset it /\ 0 <= n <= ci_remains it /\ ci_offset it + ci_remains it < UINT_MAX_VAL.

Lemma skip_ok it n : ci_in it n -> skip it n = Some (advance it n).
Proof.
  unfold ci_in, skip, advance, UINT_MAX_VAL. intros (? & ? & ?).
  destruct (_ <=? _) eqn:E; zbool; [|lia]. cbn.
  by rewrite !u32_small by (unfold is_u32; lia).
Qed.

Lemma ci_in_advance it n m : ci_in it (n + m) -> 0 <= n -> 0 <= m -> ci_in (advance it n) m.
Proof. unfold ci_in, advance. cbn. lia. Qed.

Lemma ci_in_le it n m : ci_in it n -> 0 <= m <= n -> ci_in it m.
Proof. unfold ci_in. lia. Qed.

Lemma advance_advance it n m : advance (advance it n) m = advance it (n + m).
Proof. unfold advance. cbn. f_equal; lia. Qed.

Lemma advance_0 it : advance it 0 = it.
Proof. destruct it. unfold advance. cbn. f_equal; lia. Qed.

Section List.
Context {A : Type} `{ByteSourceLaws A} (src : A).
Hypothesis Hsrc : src_ok src.

Lemma get_length_ok fuel n acc it a c :
  src_view src = a ++ encode_length n ++ c -> ci_offset it = zlen a -> 0 <= n ->
  ci_in it (zlen (encode_length n)) -> 0 <= acc -> acc + n < 2 ^ 32 ->
  (length (encode_length n) <= fuel)%nat ->
  get_length fuel src it acc = Some (acc + n, advance it (zlen (encode_length n))).
Proof.
  revert n acc it a. induction fuel as [|fuel IH]; intros n acc it a Hv Ho Hn Hin Ha Hlt Hf.
  { exfalso. unfold encode_length in Hf. rewrite length_app in Hf. cbn in Hf. lia. }
  destruct (decide (n < 255)) as [Hs|Hs].
  - rewrite encode_length_last in * by lia. cbn [get_length].
    rewrite Ho, (src_get_byte src a n c) by done. cbn [mbind option_bind].
    rewrite zlen_cons, zlen_nil in *. rewrite skip_ok by done. cbn [mbind option_bind].
    rewrite u32_small by (unfold is_u32; lia).
    destruct (n =? 255) eqn:E; zbool; [lia|done].
  - rewrite encode_length_step in * by lia. cbn [get_length].
    rewrite Ho, (src_get_byte src a 255 (encode_length (n - 255) ++ c)) by done.
    cbn [mbind option_bind]. rewrite zlen_cons in *.
    pose proof (zlen_nonneg (encode_length (n - 255))).
    rewrite skip_ok by (eapply ci_in_le; [done|lia]). cbn [mbind option_bind].
    rewrite u32_small by (unfold is_u32; lia). cbn [Z.eqb Pos.eqb].
    rewrite (IH (n - 255) (acc + 255) _ (a ++ [255])); [|by rewrite Hv, <- !app_assoc| | | | | |].
    + rewrite advance_advance. do 2 f_equal. lia.
    + cbn. rewrite zlen_app, zlen_cons, zlen_nil. lia.
    + lia.
    + apply ci_in_advance; [done|lia|lia].
    + lia.
    + lia.
    + cbn in Hf. lia.
Qed.

(** One string of a list: the iterator moves past it and the returned chunk
    denotes its characters. *)
Lemma list_get_string_ok s it l a c :
  src_view src = a ++ encode_list_string s ++ c -> ci_offset it = zlen a ->
  ci_in it (zlen (encode_list_string s)) -> 0 <= sl_num l < sl_count l -> is_u32 (sl_count l) ->
  let sc := mkStringChunk (zlen a + zlen (encode_length (zlen s))) (zlen s) in
  let it' := advance it (zlen (encode_list_string s)) in
  list_get_string src it l = Some (sc, it', mkListChunk (sl_count l) (sl_num l + 1))
  /\ get_chars src it' sc = Some s.
Proof.
  intros Hv Ho Hin Hl Hu sc it'. pose proof (zlen_nonneg s).
  pose proof (encode_list_string_pos s) as Hp. pose proof Hin as (Hi1 & Hi2 & Hi3).
  pose proof (zlen_nonneg (encode_length (zlen s))).
  assert (zlen (encode_list_string s) = zlen (encode_length (zlen s)) + zlen s) as Hz
    by (unfold encode_list_string; by rewrite zlen_app).
  split.
  - unfold list_get_string, sl_is_valid, ci_is_valid, UINT_MAX_VAL, is_u32 in *.
    destruct (ci_offset it =? _) eqn:E1; zbool; [lia|].
    destruct (sl_num l =? _) eqn:E2; zbool; [lia|].
    destruct (_ <? _) eqn:E3; zbool; [|lia]. cbn [negb andb c3_assert mbind option_bind].
    rewrite (get_length_ok _ (zlen s) 0 it a (s ++ c)).
    + cbn [mbind option_bind]. rewrite Z.add_0_l.
      rewrite skip_ok by (apply ci_in_advance; [|lia|lia]; by rewrite <- Hz).
      cbn [mbind option_bind]. rewrite advance_advance, <- Hz.
      rewrite u32_small by (unfold is_u32; lia). cbn. by rewrite Ho.
    + rewrite Hv. unfold encode_list_string. by rewrite <- app_assoc.
    + done.
    + lia.
    + eapply ci_in_le; [done|lia].
    + lia.
    + lia.
    + unfold zlen in *. lia.
  - unfold get_chars, sc_is_valid, ci_is_valid, sc, it', advance. cbn [ci_offset sc_offset sc_length].
    destruct (_ =? UINT_MAX_VAL) eqn:E1; zbool; [lia|].
    destruct (zlen a + _ =? UINT_MAX_VAL) eqn:E2; zbool; [lia|]. cbn.
    rewrite <- zlen_app. apply (src_get_bytes src _ s c); [done|].
    rewrite Hv. unfold encode_list_string. by rewrite <- !app_assoc.
Qed.

(** Reading [k] strings in a row. *)
Fixpoint read_strings (k : nat) (it : ChunkIterator) (l : ListChunk)
  : option (list bytes * ChunkIterator) :=
  match k with
  | O => Some ([], it)
  | S k =>
      '(sc, it, l) ← list_get_string src it l;
      s ← get_chars src it sc;
      '(ss, it) ← read_strings k it l;
      Some (s :: ss, it)
  end.

Lemma read_strings_ok ss it l a c :
  src_view src = a ++ strings_bytes ss ++ c -> ci_offset it = zlen a ->
  ci_in it (zlen (strings_bytes ss)) -> 0 <= sl_num l -> sl_num l + zlen ss = sl_count l ->
  is_u32 (sl_count l) ->
  read_strings (length ss) it l = Some (ss, advance it (zlen (strings_bytes ss))).
Proof.
  revert it l a. induction ss as [|s ss IH]; intros it l a Hv Ho Hin Hl Hc Hu.
  { cbn. by rewrite zlen_nil, advance_0. }
  cbn [length read_strings]. cbn [fmap list_fmap concat] in *. rewrite zlen_app, <- app_assoc in *.
  pose proof (zlen_nonneg (strings_bytes ss)). pose proof (zlen_nonneg (encode_list_string s)).
  rewrite zlen_cons in Hc. pose proof (zlen_nonneg ss).
  destruct (list_get_string_ok s it l a (strings_bytes ss ++ c)) as [He Hg];
    [done|done|eapply ci_in_le; [done|lia]|lia|done|].
  rewrite He. cbn [mbind option_bind]. rewrite Hg. cbn [mbind option_bind].
  rewrite (IH _ _ (a ++ encode_list_string s)); cbn [sl_num sl_count].
  - cbn [mbind option_bind]. by rewrite advance_advance.
  - by rewrite Hv, <- app_assoc.
  - cbn. rewrite zlen_app. lia.
  - apply ci_in_advance; [done|lia|lia].
  - lia.
  - lia.
  - done.
Qed.

End List.
