(* ===== verification/RoundTrip.v ===== *)
(** * RoundTrip

    What is written by the chunk builders is read back by the chunk iterators:
    for each kind of chunk, and for whole headers. *)

From S2P Require Import Prelude Protocol Memory Buffers ChunkBuilder HeaderBuild ChunkIterator.

(** ** The data carried by a header *)

Inductive chunk :=
| CNumber (n : Z)
| CString (s : bytes)
| CList (ss : list bytes).

Definition encode_chunk (c : chunk) : bytes :=
  match c with
  | CNumber n => encode_number n
  | CString s => encode_string s
  | CList ss => encode_list ss
  end.

(** Numbers outside this range are refused by the builders. *)
Definition chunk_ok (c : chunk) : Prop :=
  match c with CNumber n => INT_MIN_VAL <= n <= UINT_MAX_VAL | _ => True end.

(** A command handler's way of reading one chunk: look at its type, retrieve it,
    and, for a list, retrieve its strings. *)
Definition read_chunk (sb : SharedBuffers) (it : ChunkIterator)
  : option (option chunk * ChunkIterator) :=
  t ← get_next_chunk_type sb it;
  match t with
  | CHUNK_NONE => Some (None, it)
  | CHUNK_NUMBER => '(n, it) ← get_number sb it; Some (Some (CNumber n), it)
  | CHUNK_STRING =>
      '(sc, it) ← get_string sb it; s ← get_chars sb it sc; Some (Some (CString s), it)
  | CHUNK_LIST =>
      '(l, it) ← get_list sb it;
      '(ss, it) ← read_strings sb (Z.to_nat (sl_count l)) it l;
      Some (Some (CList ss), it)
  end.

Fixpoint read_chunks (fuel : nat) (sb : SharedBuffers) (it : ChunkIterator)
  : option (list chunk) :=
  match fuel with
  | O => None
  | S fuel =>
      '(c, it) ← read_chunk sb it;
      match c with
      | None => Some []
      | Some c => cs ← read_chunks fuel sb it; Some (c :: cs)
      end
  end.

(** ** Decoding the first byte of a chunk *)

Lemma code_small k n :
  0 <= k < 8 -> 0 <= n < 8 ->
  let c := Z.lor (Z.lor 0xC0 (Z.shiftl k 3)) n in
  Z.land c 0xC0 = 0xC0 /\ Z.land c 0x38 = Z.shiftl k 3 /\ Z.land c 0x07 = n.
Proof.
  intros Hk Hn c. subst c.
  pose (P k n := let c := Z.lor (Z.lor 0xC0 (Z.shiftl k 3)) n in
     (Z.land c 0xC0 =? 0xC0) && ((Z.land c 0x38 =? Z.shiftl k 3) && (Z.land c 0x07 =? n))).
  assert (forallb (fun k => forallb (P k) (seqZ 0 8)) (seqZ 0 8) = true) as H by reflexivity.
  apply (seqZ_forallb _ 0 8) with (z := k) in H; [|lia].
  apply (seqZ_forallb _ 0 8) with (z := n) in H; [|lia].
  unfold P in H. zbool. done.
Qed.

Lemma code_medium k n :
  0 <= k < 3 -> 0 <= n < 64 ->
  let c := Z.lor (Z.shiftl k 6) n in
  Z.land c 0xC0 = Z.shiftl k 6 /\ Z.land c 0x3F = n.
Proof.
  intros Hk Hn c. subst c.
  pose (P k n := let c := Z.lor (Z.shiftl k 6) n in
     (Z.land c 0xC0 =? Z.shiftl k 6) && (Z.land c 0x3F =? n)).
  assert (forallb (fun k => forallb (P k) (seqZ 0 64)) (seqZ 0 3) = true) as H by reflexivity.
  apply (seqZ_forallb _ 0 3) with (z := k) in H; [|lia].
  apply (seqZ_forallb _ 0 64) with (z := n) in H; [|lia].
  unfold P in H. zbool. done.
Qed.

Section Decode.
Context (sb : SharedBuffers) (Hok : sb_ok sb).
Context (it : ChunkIterator) (a c : bytes) (Hoff : ci_offset it = zlen a).

(** [get_count] undoes [encode_big], whatever the code. *)
Lemma get_count_ok k n :
  0 <= k < 8 -> is_u32 n ->
  header_buffer sb = a ++ encode_big (Z.lor 0xC0 (Z.shiftl k 3)) n ++ c ->
  ci_in it (zlen (encode_big (Z.lor 0xC0 (Z.shiftl k 3)) n)) ->
  exists b, get_header_byte_at sb (ci_offset it) = Some b
    /\ Z.land b 0xC0 = 0xC0 /\ Z.land b 0x38 = Z.shiftl k 3
    /\ get_count sb it b = Some (n, advance it (zlen (encode_big (Z.lor 0xC0 (Z.shiftl k 3)) n))).
Proof.
  intros Hk Hn Hb Hin.
  assert (forall j z, 0 <= j < 4 -> zlen z = j + 1 -> le_val z = n ->
    header_buffer sb = a ++ (Z.lor (Z.lor 0xC0 (Z.shiftl k 3)) j :: z) ++ c -> ci_in it (2 + j) ->
    exists b, get_header_byte_at sb (ci_offset it) = Some b
      /\ Z.land b 0xC0 = 0xC0 /\ Z.land b 0x38 = Z.shiftl k 3
      /\ get_count sb it b = Some (n, advance it (2 + j))) as Hgen.
  { clear Hb Hin. intros j z Hj Hz Hv Hb Hin. destruct (code_small k j) as (H1 & H2 & H3); [lia|lia|].
    exists (Z.lor (Z.lor 0xC0 (Z.shiftl k 3)) j).
    split; [rewrite Hoff; by apply get_header_byte_at_ok with (c := z ++ c)|].
    split; [done|]. split; [done|]. unfold get_count, CHNK_SHORT_MASK. rewrite H3.
    pose proof Hin as (? & ? & ?). unfold UINT_MAX_VAL in *.
    rewrite u32_small by (unfold is_u32; lia).
    set (cd := Z.lor (Z.lor 0xC0 (Z.shiftl k 3)) j) in *.
    assert (ci_offset it + 1 = zlen (a ++ [cd])) as Hz1
      by (rewrite zlen_app, zlen_cons, zlen_nil; lia).
    assert (header_buffer sb = (a ++ [cd]) ++ z ++ c) as Hb'
      by (rewrite Hb, <- !app_assoc; done).
    rewrite Hz1. assert (j = 0 \/ j = 1 \/ j = 2 \/ j = 3) as Hc by lia.
    destruct Hc as [->|[->|[->| ->]]]; cbn [Z.eqb Pos.eqb].
    - destruct z as [|z0 [|]]; [done| |by rewrite !zlen_cons in Hz; pose proof (zlen_nonneg l); lia].
      rewrite (get_header_byte_at_ok sb Hok _ z0 c) by done. cbn in Hv. rewrite <- Hv.
      cbn [mbind option_bind]. by rewrite skip_ok.
    - rewrite (get_header_ushort_at_ok sb Hok _ z c), Hv by done. cbn [mbind option_bind].
      by rewrite skip_ok.
    - rewrite (get_header_uint3_at_ok sb Hok _ z c), Hv by done. cbn [mbind option_bind].
      by rewrite skip_ok.
    - rewrite (get_header_uint_at_ok sb Hok _ z c), Hv by done. cbn [mbind option_bind].
      by rewrite skip_ok. }
  unfold encode_big, is_u32 in *.
  repeat case_match; zbool; rewrite zlen_cons, zlen_le_bytes in *.
  - apply (Hgen 0 (le_bytes 1 n)); try done.
    + rewrite le_val_le_bytes. apply Z.mod_small. lia.
    + by rewrite Z.lor_0_r.
  - apply (Hgen 1 (le_bytes 2 n)); try done. rewrite le_val_le_bytes. apply Z.mod_small. lia.
  - apply (Hgen 2 (le_bytes 3 n)); try done. rewrite le_val_le_bytes. apply Z.mod_small. lia.
  - apply (Hgen 3 (le_bytes 4 n)); try done. rewrite le_val_le_bytes. apply Z.mod_small. lia.
Qed.

(** The three shapes of an encoded entity, as the iterator tells them apart. *)
Lemma entity_cases n ks km kl :
  0 <= ks < 8 -> 0 <= km < 3 -> 0 <= kl < 8 -> is_u32 n ->
  let e := encode_entity n (Z.shiftl ks 3) (Z.shiftl km 6) (Z.shiftl kl 3) in
  header_buffer sb = a ++ e ++ c -> ci_in it (zlen e) ->
  exists b, get_header_byte_at sb (ci_offset it) = Some b /\ 0 < zlen e /\
    ( (n < 8 /\ zlen e = 1 /\ Z.land b 0xC0 = 0xC0 /\ Z.land b 0x38 = Z.shiftl ks 3 /\ Z.land b 7 = n)
    \/ (8 <= n < 72 /\ zlen e = 1 /\ Z.land b 0xC0 = Z.shiftl km 6 /\ Z.land b 0x3F = n - 8)
    \/ (72 <= n /\ Z.land b 0xC0 = 0xC0 /\ Z.land b 0x38 = Z.shiftl kl 3
        /\ get_count sb it b = Some (n - 72, advance it (zlen e)))).
Proof.
  intros Hks Hkm Hkl Hn e Hb Hin. unfold e, encode_entity, is_u32 in *.
  destruct (n <? 8) eqn:E1; zbool; [|destruct (n <? 72) eqn:E2; zbool].
  - destruct (code_small ks n) as (?&?&?); [lia|lia|]. eexists.
    split; [rewrite Hoff; by apply get_header_byte_at_ok with (c := c)|]. split; [done|]. by left.
  - destruct (code_medium km (n - 8)) as (?&?); [lia|lia|]. eexists.
    split; [rewrite Hoff; by apply get_header_byte_at_ok with (c := c)|]. split; [done|]. right. by left.
  - destruct (get_count_ok kl (n - 72)) as (b & ?&?&?&?); [done|unfold is_u32; lia|done|done|].
    exists b. split; [done|]. split; [unfold encode_big; by repeat case_match|]. right. by right.
Qed.

End Decode.

Section Chunks.
Context (sb : SharedBuffers) (Hok : sb_ok sb).
Context (it : ChunkIterator) (a c : bytes) (Hoff : ci_offset it = zlen a).

(** Evaluates [get_next_chunk] and [get_next_chunk_type] once the code bits of the
    first byte are known. *)
Ltac chunk_step Hb :=
  unfold get_next_chunk, get_next_chunk_type;
  match goal with |- context [0 <? ci_remains ?it] =>
    let E := fresh in assert ((0 <? ci_remains it) = true) as E
      by (apply Z.ltb_lt; unfold ci_in in *; lia); rewrite E; clear E
  end; rewrite Hb; cbn [mbind option_bind];
  unfold CHNK_TYPE_BITS, CHNK_SUBTYPE_BITS, CHNK_LONG_MASK, CHNK_SHORT_MASK;
  repeat match goal with H : Z.land _ _ = _ |- _ => rewrite ?H; clear H end;
  repeat match goal with
  | |- context [?x =? ?y] =>
      let v := eval vm_compute in (x =? y) in
      match v with
      | true => change (x =? y) with true
      | false => change (x =? y) with false
      end
  end; cbn [orb];
  repeat match goal with
  | H : get_count _ _ _ = _ |- _ => rewrite H; clear H; cbn [mbind option_bind]
  | H : zlen ?e = 1 |- _ => rewrite H in *; clear H
  end.

(** [get_next_chunk] and [get_next_chunk_type] on the encoding of a number. *)
Lemma next_number_ok n :
  header_buffer sb = a ++ encode_number n ++ c -> ci_in it (zlen (encode_number n)) ->
  INT_MIN_VAL <= n <= UINT_MAX_VAL ->
  get_next_chunk_type sb it = Some CHUNK_NUMBER
  /\ get_next_chunk sb it = Some (NumberData n, advance it (zlen (encode_number n))).
Proof.
  intros Hb Hin Hn. unfold encode_number, INT_MIN_VAL, UINT_MAX_VAL in *.
  destruct (0 <=? n) eqn:E; zbool; [|destruct (-9 <? n) eqn:E'; zbool].
  - destruct (entity_cases sb Hok it a c Hoff n 2 0 5) as (b & Hg & Hpos & [(?&Hz&?&?&?)|[(?&Hz&?&?)|(?&?&?&?)]]);
      [lia|lia|lia|unfold is_u32; lia|done|done|..]; change (Z.shiftl 2 3) with CHNK_SMALL_INTEGER in *;
      change (Z.shiftl 0 6) with CHNK_INTEGER in *; change (Z.shiftl 5 3) with CHNK_BIG_INTEGER in *;
      chunk_step Hg.
    + by rewrite skip_ok.
    + rewrite skip_ok by done. split; [done|]. cbn. do 3 f_equal. unfold CHNK_INTEGER_BIAS, CHNK_MEDIUM_BIAS. lia.
    + split; [done|]. unfold CHNK_BIG_INTEGER_BIAS, CHNK_LARGE_BIAS.
      rewrite u32_small by (unfold is_u32; lia). do 3 f_equal. lia.
  - destruct (code_small 0 (- n - 1)) as (?&?&?); [lia|lia|].
    assert (get_header_byte_at sb (ci_offset it) = Some (Z.lor (Z.lor 0xC0 CHNK_SMALL_NEGATIVE) (- n - 1))) as Hg
      by (rewrite Hoff; by apply get_header_byte_at_ok with (c := c)).
    change (zlen [_]) with 1 in *.
    change (Z.shiftl 0 3) with CHNK_SMALL_NEGATIVE in *.
    chunk_step Hg. rewrite skip_ok by done. split; [done|].
    cbn. do 3 f_equal. unfold CHNK_SMALL_NEGATIVE_BIAS. lia.
  - destruct (get_count_ok sb Hok it a c Hoff 1 (- n - 9)) as (b & Hg & ?&?&?);
      [lia|unfold is_u32; lia|done|done|].
    assert (0 < zlen (encode_big (Z.lor 192 CHNK_BIG_NEGATIVE) (- n - 9)))
      by (unfold encode_big; by repeat case_match).
    chunk_step Hg. split; [done|]. do 3 f_equal. unfold CHNK_BIG_NEGATIVE_BIAS. lia.
Qed.

Lemma next_string_ok s :
  header_buffer sb = a ++ encode_string s ++ c -> ci_in it (zlen (encode_string s)) ->
  get_next_chunk_type sb it = Some CHUNK_STRING
  /\ get_next_chunk sb it
     = Some (StringData (zlen a + (zlen (encode_string s) - zlen s)) (zlen s),
             advance it (zlen (encode_string s))).
Proof.
  intros Hb Hin. unfold encode_string in *. rewrite zlen_app in *. rewrite <- app_assoc in Hb.
  pose proof (zlen_nonneg s). pose proof Hin as (Hi1 & Hi2 & Hi3). unfold UINT_MAX_VAL in *.
  destruct (entity_cases sb Hok it a (s ++ c) Hoff (zlen s) 3 1 6)
    as (b & Hg & Hpos & [(?&Hz&?&?&?)|[(?&Hz&?&?)|(?&?&?&?)]]);
    [lia|lia|lia| |done| |..].
  { unfold is_u32. pose proof (zlen_nonneg (encode_entity (zlen s) CHNK_SHORT_STRING CHNK_STRING CHNK_LONG_STRING)). lia. }
  { eapply ci_in_le; [done|]. pose proof (zlen_nonneg (encode_entity (zlen s) (Z.shiftl 3 3) (Z.shiftl 1 6) (Z.shiftl 6 3))).
    change (Z.shiftl 1 6) with CHNK_STRING in *. unfold CHNK_SHORT_STRING, CHNK_LONG_STRING in *. lia. }
  all: change (Z.shiftl 3 3) with CHNK_SHORT_STRING in *; change (Z.shiftl 1 6) with CHNK_STRING in *;
      change (Z.shiftl 6 3) with CHNK_LONG_STRING in *;
  set (e := encode_entity _ _ _ _) in *; chunk_step Hg.
  - rewrite !u32_small by (unfold is_u32; lia).
    rewrite (Z.add_comm (zlen s) 1), skip_ok by done. split; [done|].
    cbn [mbind option_bind]. by rewrite Hoff, Z.add_simpl_r.
  - unfold CHNK_STRING_BIAS, CHNK_MEDIUM_BIAS. rewrite Z.sub_add.
    rewrite !u32_small by (unfold is_u32; lia).
    rewrite (Z.add_comm (zlen s) 1), skip_ok by done. split; [done|].
    cbn [mbind option_bind]. by rewrite Hoff, Z.add_simpl_r.
  - unfold CHNK_LONG_STRING_BIAS, CHNK_LARGE_BIAS. rewrite Z.sub_add.
    rewrite !u32_small by (unfold is_u32; lia).
    rewrite skip_ok by (apply ci_in_advance; [done|lia|lia]). split; [done|].
    cbn [mbind option_bind]. rewrite advance_advance, Z.add_simpl_r. cbn. by rewrite Hoff.
Qed.

Lemma next_list_ok ss :
  header_buffer sb = a ++ encode_list ss ++ c -> ci_in it (zlen (encode_list ss)) ->
  get_next_chunk_type sb it = Some CHUNK_LIST
  /\ get_next_chunk sb it
     = Some (ListData (zlen ss),
             advance it (zlen (encode_list ss) - zlen (strings_bytes ss))).
Proof.
  intros Hb Hin. unfold encode_list in *. rewrite zlen_app in *. rewrite <- app_assoc in Hb.
  pose proof (zlen_nonneg ss). pose proof (strings_bytes_len ss).
  pose proof Hin as (Hi1 & Hi2 & Hi3). unfold UINT_MAX_VAL in *.
  pose proof (zlen_nonneg (encode_entity (zlen ss) CHNK_SHORT_LIST CHNK_LIST CHNK_LONG_LIST)).
  destruct (entity_cases sb Hok it a (strings_bytes ss ++ c) Hoff (zlen ss) 4 2 7)
    as (b & Hg & Hpos & [(?&Hz&?&?&?)|[(?&Hz&?&?)|(?&?&?&?)]]);
    [lia|lia|lia| |done| |..].
  { unfold is_u32. lia. }
  { eapply ci_in_le; [done|].
    change (Z.shiftl 2 6) with CHNK_LIST in *. unfold CHNK_SHORT_LIST, CHNK_LONG_LIST in *. lia. }
  all: change (Z.shiftl 4 3) with CHNK_SHORT_LIST in *; change (Z.shiftl 2 6) with CHNK_LIST in *;
      change (Z.shiftl 7 3) with CHNK_LONG_LIST in *;
  set (e := encode_entity _ _ _ _) in *; rewrite (Z.add_simpl_r (zlen e)); chunk_step Hg.
  - rewrite skip_ok by (eapply ci_in_le; [done|lia]). split; [done|]. done.
  - unfold CHNK_LIST_BIAS, CHNK_MEDIUM_BIAS. rewrite Z.sub_add.
    rewrite skip_ok by (eapply ci_in_le; [done|lia]). done.
  - unfold CHNK_LONG_LIST_BIAS, CHNK_LARGE_BIAS. rewrite Z.sub_add.
    rewrite !u32_small by (unfold is_u32; lia). done.
Qed.

End Chunks.

(** ** Whole headers *)

Section Whole.
Context (sb : SharedBuffers) (Hok : sb_ok sb).

Lemma zlen_encode_chunk_pos ch : chunk_ok ch -> 0 < zlen (encode_chunk ch).
Proof.
  intros H.
  assert (forall n s m l, 0 < zlen (encode_entity n s m l)) as He.
  { intros. unfold encode_entity, encode_big. by repeat case_match. }
  destruct ch as [n|s|ss]; cbn.
  - unfold encode_number, encode_big. repeat case_match; try done; apply He.
  - unfold encode_string. rewrite zlen_app.
    pose proof (He (zlen s) CHNK_SHORT_STRING CHNK_STRING CHNK_LONG_STRING). pose proof (zlen_nonneg s). lia.
  - unfold encode_list. rewrite zlen_app.
    pose proof (He (zlen ss) CHNK_SHORT_LIST CHNK_LIST CHNK_LONG_LIST).
    pose proof (zlen_nonneg (strings_bytes ss)). lia.
Qed.

(** Reading one chunk moves the iterator exactly past its encoding. *)
Lemma read_chunk_ok ch it a c :
  chunk_ok ch -> ci_offset it = zlen a ->
  header_buffer sb = a ++ encode_chunk ch ++ c -> ci_in it (zlen (encode_chunk ch)) ->
  read_chunk sb it = Some (Some ch, advance it (zlen (encode_chunk ch))).
Proof.
  intros Hch Hoff Hb Hin. pose proof Hin as (Hi1 & Hi2 & Hi3).
  unfold read_chunk. destruct ch as [n|s|ss]; cbn [encode_chunk chunk_ok] in *.
  - destruct (next_number_ok sb Hok it a c Hoff n) as [-> Hn]; [done..|].
    unfold get_number. cbn [mbind option_bind]. rewrite Hn. cbn [mbind option_bind].
    destruct (_ && _) eqn:E; [done|]. apply andb_false_iff in E as [E|E]; zbool; lia.
  - destruct (next_string_ok sb Hok it a c Hoff s) as [-> Hn]; [done..|].
    unfold get_string. cbn [mbind option_bind]. rewrite Hn. cbn [mbind option_bind].
    unfold encode_string in *. rewrite zlen_app, Z.add_simpl_r, <- zlen_app in *.
    unfold get_chars, sc_is_valid, ci_is_valid. cbn [sc_offset sc_length advance ci_offset].
    pose proof (zlen_nonneg s). rewrite !zlen_app in *.
    set (e := encode_entity _ _ _ _) in *. pose proof (zlen_nonneg e).
    rewrite Hoff in *.
    destruct (_ =? UINT_MAX_VAL) eqn:E1; zbool; [lia|].
    destruct (zlen a + zlen e =? UINT_MAX_VAL) eqn:E2; zbool; [lia|].
    cbn [negb andb c3_assert mbind option_bind]. rewrite <- (zlen_app a e).
    rewrite (src_get_bytes sb (a ++ e) s c) by (try done; cbn; by rewrite Hb, <- !app_assoc).
    done.
  - destruct (next_list_ok sb Hok it a c Hoff ss) as [-> Hn]; [done..|].
    unfold get_list. cbn [mbind option_bind]. rewrite Hn. cbn [mbind option_bind].
    unfold encode_list in *. rewrite zlen_app, Z.add_simpl_r, <- zlen_app in *.
    pose proof (strings_bytes_len ss). rewrite !zlen_app in *. pose proof (zlen_nonneg ss).
    set (e := encode_entity _ _ _ _) in *. pose proof (zlen_nonneg e).
    unfold UINT_MAX_VAL in *.
    destruct (_ <=? _) eqn:E1; zbool; [|cbn in E1; lia]. cbn [c3_assert mbind option_bind sl_count].
    unfold zlen at 1. rewrite Nat2Z.id.
    rewrite (@read_strings_ok _ _ HeaderSource_laws sb Hok ss _ _ (a ++ e) c); cbn [sl_num sl_count].
    + cbn. by rewrite advance_advance.
    + cbn. by rewrite Hb, <- !app_assoc.
    + cbn. rewrite zlen_app. lia.
    + apply ci_in_advance; [done|lia|lia].
    + lia.
    + lia.
    + unfold is_u32. lia.
Qed.

(** Reading until the header is exhausted retrieves every chunk, in order. *)
Lemma read_chunks_ok chs it a c :
  Forall chunk_ok chs -> ci_offset it = zlen a ->
  header_buffer sb = a ++ concat (encode_chunk <$> chs) ++ c ->
  ci_remains it = zlen (concat (encode_chunk <$> chs)) ->
  zlen a + zlen (concat (encode_chunk <$> chs)) < UINT_MAX_VAL ->
  read_chunks (S (length chs)) sb it = Some chs.
Proof.
  intros HF. revert it a. induction HF as [|ch chs Hch HF IH]; intros it a Ho Hb Hr Hlt.
  - cbn. unfold read_chunk, get_next_chunk_type. rewrite Hr. done.
  - cbn [fmap list_fmap concat] in *. rewrite zlen_app, <- app_assoc in *.
    set (rest := concat (encode_chunk <$> chs)) in *.
    pose proof (zlen_nonneg a). pose proof (zlen_nonneg rest). pose proof (zlen_nonneg (encode_chunk ch)).
    cbn [length]. remember (S (length chs)) as fuel eqn:Hf. cbn [read_chunks].
    rewrite (read_chunk_ok ch it a (rest ++ c)); [|done|done|done|unfold ci_in; lia].
    cbn [mbind option_bind]. rewrite (IH (advance it (zlen (encode_chunk ch))) (a ++ encode_chunk ch)); [done|..].
    + cbn. rewrite zlen_app. lia.
    + by rewrite Hb, <- app_assoc.
    + cbn. lia.
    + rewrite zlen_app. lia.
Qed.

End Whole.

Lemma subtype_cases x : exists k, 0 <= k < 8 /\ Z.land x CHNK_SUBTYPE_BITS = Z.shiftl k 3.
Proof.
  exists (Z.land (Z.shiftr x 3) (Z.ones 3)). split.
  - rewrite Z.land_ones by lia. apply Z.mod_pos_bound. lia.
  - apply Z.bits_inj'. intros n Hn. rewrite Z.shiftl_spec by lia.
    change CHNK_SUBTYPE_BITS with (Z.shiftl (Z.ones 3) 3).
    destruct (decide (n < 3)).
    + rewrite (Z.testbit_neg_r _ (n - 3)), Z.land_spec, Z.shiftl_spec_low by lia. apply andb_false_r.
    + rewrite !Z.land_spec, Z.shiftl_spec, Z.shiftr_spec by lia. by rewrite Z.sub_add.
Qed.

(** The two functions of the iterator agree on the type of every chunk, valid or
    not: whenever [get_next_chunk] retrieves a chunk, [get_next_chunk_type] has
    announced its type. *)
Lemma next_type_agrees sb it d it' :
  get_next_chunk sb it = Some (d, it') -> get_next_chunk_type sb it = Some (chunk_type d).
Proof.
  unfold get_next_chunk, get_next_chunk_type. intros H.
  destruct (0 <? _); [|by inv_opt]. inv_opt. rewrite Hx. cbn [mbind option_bind].
  repeat match goal with
  | H : (if ?b then _ else _) = Some _ |- _ => destruct b eqn:?; zbool
  | H : context [if ?b then _ else _] |- _ => fail 1
  end; inv_opt; repeat match goal with x : (_ * _)%type |- _ => destruct x end; inv_opt; try done.
  all: repeat match goal with H : Z.land _ _ = _ |- _ => rewrite H end; cbn; try done.
  destruct (subtype_cases x) as (k & Hk & He). rewrite He in *.
  assert (k = 0 \/ k = 1 \/ k = 2 \/ k = 3 \/ k = 4 \/ k = 5 \/ k = 6 \/ k = 7) as Hc by lia.
  by decompose [or] Hc; subst.
Qed.
