(* ===== verification/PayloadList.v ===== *)
(** * PayloadList

    String lists kept in payloads: [PayloadListChunkBuilder] grows its buffer as
    strings are added ([io_chunk_builders.cc]); [ResponsePayloadIterator] reads
    them back ([io_response_handlers.h], [io_chunk_iterators.cc]). *)

From S2P Require Import Prelude Protocol Memory Buffers ChunkBuilder HeaderBuild ChunkIterator.

(** ** Growing *)

Lemma regrown_app junk (old : bytes) n :
  zlen old <= n -> exists x, regrown junk old n = old ++ x /\ zlen (old ++ x) = n.
Proof.
  intros Hn. unfold regrown. exists (take (Z.to_nat n - length old) (drop (length old) (fresh junk n))).
  assert (length old <= Z.to_nat n)%nat as Hl by (unfold zlen in Hn; lia).
  rewrite take_app_ge by done. split; [done|].
  pose proof (zlen_nonneg old). unfold zlen in *. rewrite length_app, length_take, length_drop.
  unfold fresh. rewrite length_fmap, length_seq. lia.
Qed.

(** The buffer only grows, and the memory object accounts for its size. *)
Definition pl_accounts (l l' : ListChunkBuilder) : Prop :=
  lcb_allocated_size l <= lcb_allocated_size l'
  /\ lcb_memory l' = fetch_add (lcb_memory l) (lcb_allocated_size l' - lcb_allocated_size l).

Lemma pl_accounts_refl l : is_u64 (m_used_size (lcb_memory l)) -> pl_accounts l l.
Proof.
  intros Hu. split; [lia|]. unfold fetch_add. destruct (lcb_memory l) as [x u d]. cbn in *.
  by rewrite Z.sub_diag, Z.add_0_r, u64_small.
Qed.

Lemma pl_accounts_trans l1 l2 l3 : pl_accounts l1 l2 -> pl_accounts l2 l3 -> pl_accounts l1 l3.
Proof.
  intros [H1 M1] [H2 M2]. split; [lia|]. rewrite M2, M1. unfold fetch_add. cbn. f_equal.
  unfold u64. rewrite Zplus_mod_idemp_l. f_equal. lia.
Qed.

Lemma pl_accounts_u64 l l' : pl_accounts l l' -> is_u64 (m_used_size (lcb_memory l')).
Proof. intros [_ ->]. cbn. apply u64_range. Qed.

(** The space by which a full buffer grows is enough for the string, and leaves the
    size below the 32-bit limit. *)
Lemma pl_extra_space_ok l len :
  0 <= lcb_used_size l <= lcb_allocated_size l -> lcb_allocated_size l <= UINT_MAX_VAL ->
  0 < len -> lcb_used_size l + len <= UINT_MAX_VAL ->
  lcb_allocated_size l < lcb_used_size l + len ->
  exists e, pl_extra_space l len = Some e /\ 0 < e
    /\ lcb_used_size l + len <= lcb_allocated_size l + e <= UINT_MAX_VAL.
Proof.
  intros Hu Ha Hl Hfit Hfull. unfold pl_extra_space, UINT_MAX_VAL in *.
  set (x := u32 (_ * u32 _)). set (y := if x <? len then len else x).
  assert (len <= y < 2 ^ 32) as Hy.
  { unfold y. destruct (x <? len) eqn:E; zbool; [lia|]. pose proof (u32_range
      ((if lcb_count l <? 4 then 2 else if lcb_count l <? 32 then 8 else lcb_count l / 4)
       * u32 ((lcb_used_size l + len) / u32 (lcb_count l + 1)))) as Hr.
    fold x in Hr. unfold is_u32 in Hr. lia. }
  destruct (_ <? lcb_allocated_size l + y) eqn:E; zbool; [|exists y; split; [done|lia]].
  rewrite (u32_small (4294967295 - _)), (u32_small (lcb_allocated_size l - _)), u32_small
    by (unfold is_u32; lia).
  clearbody y. destruct (_ <? len) eqn:E'; zbool; [lia|]. eexists; split; [done|]. lia.
Qed.

(** [add] appends the encoding of the string, whether or not the buffer has to be
    moved. *)
Lemma pl_add_ok junk l dn rest s :
  lcb_at l dn rest -> 0 <= lcb_count l <= zlen dn -> 0 < zlen (dn ++ rest) ->
  is_u64 (m_used_size (lcb_memory l)) ->
  zlen dn + zlen (encode_list_string s) <= UINT_MAX_VAL ->
  exists l' rest', pl_add junk l (zlen s) s = Some (true, l')
    /\ lcb_at l' (dn ++ encode_list_string s) rest' /\ lcb_count l' = lcb_count l + 1
    /\ pl_accounts l l'.
Proof.
  intros (Hb & Hu & Ha & Hlt) Hc Hpos Hmu Hfit. unfold pl_add. rewrite Hb. cbn [mbind option_bind].
  pose proof (encode_list_string_pos s) as Hs. pose proof (zlen_nonneg rest).
  unfold UINT_MAX_VAL in *. rewrite measure_string_ok by lia. rewrite Hu, Ha.
  set (n := zlen (encode_list_string s)) in *.
  assert (exists l1 x, (if zlen (dn ++ rest) <? zlen dn + n then
      extra_space ← pl_extra_space l n;
      m ← realloc (lcb_memory l) (u32 (zlen (dn ++ rest) + extra_space)) (zlen (dn ++ rest));
      Some (mkListChunkBuilder (Some (regrown junk (dn ++ rest) (u32 (zlen (dn ++ rest) + extra_space))))
        (u32 (zlen (dn ++ rest) + extra_space)) (zlen dn) (lcb_count l) m)
    else Some l) = Some l1 /\ lcb_at l1 dn x /\ n <= zlen x /\ lcb_count l1 = lcb_count l
      /\ pl_accounts l l1) as (l1 & x & -> & Hat & Hx & Hc1 & Hm1).
  { destruct (zlen (dn ++ rest) <? zlen dn + n) eqn:E; zbool.
    - destruct (pl_extra_space_ok l n) as (e & -> & He & Hr);
        [rewrite Hu, Ha, zlen_app; lia|rewrite Ha; unfold UINT_MAX_VAL; lia|lia
        |rewrite Hu; unfold UINT_MAX_VAL; lia|lia|].
      rewrite Hu, Ha in Hr. unfold UINT_MAX_VAL in Hr. cbn [mbind option_bind].
      rewrite u32_small by (unfold is_u32; lia). unfold realloc.
      destruct (_ && _) eqn:E1; cycle 1.
      { apply andb_false_iff in E1 as [E1|E1]; [apply andb_false_iff in E1 as [E1|E1]|]; zbool; lia. }
      cbn [c3_assert mbind option_bind]. destruct (_ <? _ + e) eqn:E2; zbool; [|lia].
      cbn [mbind option_bind].
      destruct (regrown_app junk (dn ++ rest) (zlen (dn ++ rest) + e)) as (y & -> & Hy); [lia|].
      do 2 eexists; split; [done|]. split; [|split; [|split; [done|]]].
      + unfold lcb_at. cbn. rewrite <- app_assoc in Hy |- *. split_and!; [done|done|done|lia].
      + rewrite <- app_assoc, !zlen_app in Hy. rewrite !zlen_app in *. lia.
      + split; cbn; rewrite Ha; [lia|]. f_equal; lia.
    - exists l, rest. rewrite zlen_app in E. split_and!; [done|done|lia|done|].
      by apply pl_accounts_refl. }
  cbn [mbind option_bind]. rewrite <- (take_drop (length (encode_list_string s)) x) in Hat.
  destruct (put_string_ok l1 dn (take (length (encode_list_string s)) x) s
    (drop (length (encode_list_string s)) x) Hat) as (l2 & -> & Hat2 & (Hf1 & Hf2 & Hf3));
    [by apply zlen_take|].
  cbn [mbind option_bind]. do 2 eexists; split; [done|]. split; [exact Hat2|]. cbn.
  rewrite Hf2, Hc1. split; [rewrite u32_small; [done|unfold is_u32; lia]|].
  unfold pl_accounts in *. cbn. by rewrite Hf1, Hf3.
Qed.

(** ** The whole list *)

Fixpoint pl_add_all (junk : nat -> Z) (l : ListChunkBuilder) (ss : list bytes)
  : option ListChunkBuilder :=
  match ss with
  | [] => Some l
  | s :: ss => '(_, l) ← pl_add junk l (zlen s) s; pl_add_all junk l ss
  end.

Lemma pl_add_all_ok junk ss l dn rest :
  lcb_at l dn rest -> 0 <= lcb_count l <= zlen dn -> 0 < zlen (dn ++ rest) ->
  is_u64 (m_used_size (lcb_memory l)) ->
  zlen dn + zlen (strings_bytes ss) <= UINT_MAX_VAL ->
  exists l' rest', pl_add_all junk l ss = Some l'
    /\ lcb_at l' (dn ++ strings_bytes ss) rest' /\ lcb_count l' = lcb_count l + zlen ss
    /\ pl_accounts l l'.
Proof.
  revert l dn rest. induction ss as [|s ss IH]; intros l dn rest Hat Hc Hp Hmu Hle.
  { exists l, rest. cbn. rewrite app_nil_r. split_and!; try done; [unfold zlen; cbn; lia|].
    by apply pl_accounts_refl. }
  cbn [fmap list_fmap concat pl_add_all] in *. rewrite zlen_app in Hle.
  pose proof (zlen_nonneg (strings_bytes ss)). pose proof (encode_list_string_pos s).
  destruct (pl_add_ok junk l dn rest s) as (l1 & r1 & -> & Hat1 & Hc1 & Hm1); [done..|lia|].
  cbn [mbind option_bind]. destruct (IH l1 _ _ Hat1) as (l2 & r2 & -> & Hat2 & Hc2 & Hm2).
  - rewrite Hc1, zlen_app. lia.
  - rewrite !zlen_app. pose proof (zlen_nonneg r1). pose proof (zlen_nonneg dn). lia.
  - by eapply pl_accounts_u64.
  - rewrite zlen_app. lia.
  - exists l2, r2. rewrite <- app_assoc in Hat2. split_and!; try done.
    + rewrite Hc2, Hc1, zlen_cons. lia.
    + by eapply pl_accounts_trans.
Qed.

(** [ResponsePayloadIterator::get_list(num_elements)], then its strings. *)
Definition read_payload_list (p : PayloadChunkIterator) (it : ChunkIterator) (num : Z)
  : option (list bytes * ChunkIterator) :=
  read_strings p (Z.to_nat num) it (mkListChunk num 0).

(** The initial guess of the size, when it neither wraps to nothing nor overflows. *)
Lemma pl_create_ok junk m lo hi avg l :
  pl_create junk m lo hi avg = Some l ->
  exists rest, lcb_at l [] rest /\ 0 < zlen rest /\ lcb_count l = 0
    /\ lcb_memory l = fetch_add m (lcb_allocated_size l).
Proof.
  unfold pl_create. intros H. inv_opt. clear Ha.
  match goal with H : alloc _ ?s = Some _ |- _ => set (size := s) in * end.
  assert (0 <= size < 2 ^ 32) as Hs.
  { unfold size, UINT_MAX_VAL. match goal with |- context [u64 ?v] =>
      generalize (u64_range v); generalize (u64 v) end.
    unfold is_u64. intros w Hw. destruct (_ <? w) eqn:E; zbool; lia. }
  clearbody size.
  unfold alloc in Hx0. inv_opt.
  exists (fresh junk size). unfold lcb_at. cbn. rewrite zlen_fresh by lia.
  change (zlen []) with 0. split_and!; try done; lia.
Qed.

(** ** Property *)

(** (C3) A list of strings built by [PayloadListChunkBuilder] — whatever the initial
    guesses, and however many times the buffer is reallocated — is read back by the
    payload iterator unchanged; the memory object accounts for exactly the final
    size of the buffer, so that the destructor gives all of it back. *)
Theorem payload_list_round_trip junk m lo hi avg l ss :
  pl_create junk m lo hi avg = Some l -> zlen (strings_bytes ss) < UINT_MAX_VAL ->
  0 <= m_used_size m -> m_used_size m + UINT_MAX_VAL < 2 ^ 64 ->
  exists l' b, pl_add_all junk l ss = Some l' /\ lcb_buffer l' = Some b
    /\ lcb_count l' = zlen ss
    /\ (forall p, pci_ok p -> pci_view p = take (Z.to_nat (lcb_used_size l')) b ->
          read_payload_list p (mkChunkIterator 0 (lcb_used_size l')) (lcb_count l')
          = Some (ss, mkChunkIterator (lcb_used_size l') 0))
    /\ lcb_destroy l' = Some m.
Proof.
  intros Hcr Hlt Hm0 Hm1. destruct (pl_create_ok _ _ _ _ _ _ Hcr) as (rest & Hat & Hpos & Hc & Hm).
  destruct (pl_add_all_ok junk ss l [] rest Hat) as (l' & rest' & Hadd & Hat' & Hc' & Hacc);
    [rewrite Hc; done|done|rewrite Hm; apply u64_range|change (zlen []) with 0; lia|].
  cbn [app] in Hat'. destruct Hat' as (Hb & Hu & Ha & Hl). pose proof (zlen_nonneg (strings_bytes ss)).
  pose proof (strings_bytes_len ss). pose proof (zlen_nonneg ss). pose proof (zlen_nonneg rest').
  exists l', (strings_bytes ss ++ rest'). rewrite Hc in Hc'. split_and!; try done.
  - intros p Hp Hv. unfold read_payload_list. rewrite Hc', Hu, Z.add_0_l in *.
    rewrite zlen_to_nat. rewrite zlen_to_nat, take_app_length in Hv.
    rewrite (@read_strings_ok _ _ PayloadSource_laws p Hp ss _ _ [] []); cbn [sl_num sl_count ci_offset].
    + unfold advance. cbn. do 3 f_equal; lia.
    + cbn. by rewrite app_nil_r.
    + done.
    + unfold ci_in. cbn. unfold UINT_MAX_VAL in *. lia.
    + lia.
    + lia.
    + unfold is_u32, UINT_MAX_VAL in *. lia.
  - unfold lcb_destroy. rewrite Hb. destruct Hacc as [Hle Hmem].
    destruct Hat as (_ & _ & Hal & _). cbn [app] in Hal.
    destruct (_ =? 0) eqn:E; zbool; [lia|]. cbn [negb c3_assert mbind option_bind].
    assert (lcb_memory l' = fetch_add m (lcb_allocated_size l')) as ->.
    { rewrite Hmem, Hm. unfold fetch_add. cbn. f_equal. unfold u64.
      rewrite Zplus_mod_idemp_l. f_equal. lia. }
    assert (mem_room m (lcb_allocated_size l')) as Hroom
      by (unfold mem_room, UINT_MAX_VAL in *; lia).
    unfold free. rewrite fetch_add_used by done.
    destruct (lcb_allocated_size l' =? 0) eqn:E1; zbool; [lia|].
    destruct (_ <=? _) eqn:E2; zbool; [|lia]. cbn [negb c3_assert mbind option_bind].
    by rewrite fetch_sub_add.
Qed.

(** Three strings, one longer than 255 bytes, in a buffer first made for one. *)
Lemma payload_list_round_trip_witness :
  let m := mkMemory 0 1000 DOMAIN_FPC in
  let ss := [[97; 98]; []; replicate 300 7] in
  exists l l', pl_create (fun _ => 0) m 1 1 1 = Some l
    /\ pl_add_all (fun _ => 0) l ss = Some l' /\ lcb_destroy l' = Some m.
Proof.
  intros m ss. destruct (pl_create (fun _ => 0) m 1 1 1) as [l|] eqn:E; [|by vm_compute in E].
  destruct (payload_list_round_trip (fun _ => 0) m 1 1 1 l ss E) as (l' & b & Ha & _ & _ & _ & Hd);
    [by vm_compute|by vm_compute|by vm_compute|].
  by exists l, l'.
Defined.
