(* ===== verification/Devices.v ===== *)
(** * Devices

    Physical I/O: [SocketReader], [SocketWriter], [FileReader] and [FileWriter]
    ([io_device_handlers.h/.cc]), the implementations of the virtual methods of
    [DeviceReaderWriter].

    The operating system is a parameter: the class [SysIO] has one operation for
    [recv(2)]/[read(2)] and one for [send(2)]/[write(2)] on one open descriptor,
    the class [SysIOLaws] states their documented behaviour. The logical readers
    and writers of commands and responses only see the class
    [DeviceReaderWriter] and its laws. *)

From S2P Require Import Prelude Protocol.

(** ** System calls *)

Definition EPIPE : Z := 32.
Definition EAGAIN : Z := 11.
Definition EWOULDBLOCK : Z := EAGAIN.
Definition ECONNRESET : Z := 104.

(** Result of a reading call: [-1] with [errno], or the bytes put into the buffer. *)
Inductive sys_in := SysInError (errno : Z) | SysIn (bs : bytes).

(** Result of a writing call: [-1] with [errno], or the number of bytes taken. *)
Inductive sys_out := SysOutError (errno : Z) | SysOut (n : Z).

Class SysIO (K : Type) := {
  sys_read : K -> Z -> Z -> sys_in * K;
  sys_write : K -> Z -> bytes -> sys_out * K;
}.

(** Documented behaviour, for a request of at least one byte: a reading call
    delivers, in order, at most as many bytes as requested (none at the end of
    the stream) and nothing on error; a writing call accepts a non-empty prefix
    of the buffer or reports an error. *)
Class SysIOLaws (K : Type) `{SysIO K} := {
  sys_incoming : K -> bytes;
  sys_outgoing : K -> bytes;
  sys_read_law k fd n :
    0 < n ->
    match sys_read k fd n with
    | (SysIn bs, k') => sys_incoming k = bs ++ sys_incoming k' /\ zlen bs <= n
    | (SysInError _, k') => sys_incoming k' = sys_incoming k
    end;
  sys_write_law k fd bs :
    0 < zlen bs ->
    match sys_write k fd bs with
    | (SysOut n, k') =>
        0 < n <= zlen bs
        /\ sys_outgoing k' = sys_outgoing k ++ take (Z.to_nat n) bs
    | (SysOutError _, k') => sys_outgoing k' = sys_outgoing k
    end;
}.

(** ** The four device classes *)

Section Device.
Context {K : Type} `{SysIO K}.

Definition socket_error (errno : Z) : io_result_t :=
  if (errno =? EAGAIN) || (errno =? EWOULDBLOCK) then IO_RESULT_RETRY
  else if (errno =? ECONNRESET) || (errno =? EPIPE) then IO_RESULT_EOF
  else IO_RESULT_ERROR.

(** [SocketReader::read_bytes] *)
Definition socket_read_bytes (k : K) (fd nbytes : Z) : option (io_result_t * bytes * K) :=
  _ ← c3_assert ((0 <? fd) && negb (nbytes =? 0));
  match sys_read k fd nbytes with
  | (SysInError errno, k) => Some (socket_error errno, [], k)
  | (SysIn [], k) => Some (IO_RESULT_EOF, [], k)
  | (SysIn bs, k) => Some (IO_RESULT_OK, bs, k)
  end.

(** [SocketWriter::write_bytes] *)
Definition socket_write_bytes (k : K) (fd : Z) (bs : bytes) : option (io_result_t * Z * K) :=
  _ ← c3_assert ((0 <? fd) && negb (zlen bs =? 0));
  match sys_write k fd bs with
  | (SysOutError errno, k) => Some (socket_error errno, 0, k)
  | (SysOut n, k) =>
      _ ← c3_assert ((0 <? n) && (n <=? zlen bs)); Some (IO_RESULT_OK, n, k)
  end.

(** [FileReader::read_bytes] *)
Definition file_read_bytes (k : K) (fd nbytes : Z) : option (io_result_t * bytes * K) :=
  _ ← c3_assert ((0 <? fd) && negb (nbytes =? 0));
  match sys_read k fd nbytes with
  | (SysInError _, k) => Some (IO_RESULT_ERROR, [], k)
  | (SysIn [], k) => Some (IO_RESULT_EOF, [], k)
  | (SysIn bs, k) => _ ← c3_assert (zlen bs <=? nbytes); Some (IO_RESULT_OK, bs, k)
  end.

(** [FileWriter::write_bytes] *)
Definition file_write_bytes (k : K) (fd : Z) (bs : bytes) : option (io_result_t * Z * K) :=
  _ ← c3_assert ((0 <? fd) && negb (zlen bs =? 0));
  match sys_write k fd bs with
  | (SysOutError _, k) => Some (IO_RESULT_ERROR, 0, k)
  | (SysOut n, k) =>
      if n =? 0 then Some (IO_RESULT_ERROR, 0, k)
      else _ ← c3_assert ((0 <? n) && (n <=? zlen bs)); Some (IO_RESULT_OK, n, k)
  end.

End Device.

(** ** The interface *)

(** [DeviceReaderWriter]: [read_bytes] returns the result and the bytes stored
    into the caller's buffer, [write_bytes] the result and their number. *)
Class DeviceReaderWriter (D : Type) := {
  read_bytes : D -> Z -> Z -> option (io_result_t * bytes * D);
  write_bytes : D -> Z -> bytes -> option (io_result_t * Z * D);
}.

(** What a device promises to the logical readers and writers: "OK" means that
    at least one byte was transferred; anything else, that none was. *)
Class DeviceLaws (D : Type) `{DeviceReaderWriter D} := {
  dev_in : D -> bytes;
  dev_out : D -> bytes;
  read_bytes_law d fd n :
    0 < fd -> 0 < n ->
    exists r bs d', read_bytes d fd n = Some (r, bs, d') /\ dev_in d = bs ++ dev_in d'
      /\ if bool_decide (r = IO_RESULT_OK) then 0 < zlen bs <= n else bs = [];
  write_bytes_law d fd bs :
    0 < fd -> 0 < zlen bs ->
    exists r n d', write_bytes d fd bs = Some (r, n, d')
      /\ dev_out d' = dev_out d ++ take (Z.to_nat n) bs
      /\ if bool_decide (r = IO_RESULT_OK) then 0 < n <= zlen bs else n = 0;
}.

Record SocketDevice (K : Type) := Socket { socket_kernel : K }.
Record FileDevice (K : Type) := File { file_kernel : K }.
Arguments Socket {K}. Arguments socket_kernel {K}.
Arguments File {K}. Arguments file_kernel {K}.

#[export] Instance SocketReaderWriter K `{SysIO K} : DeviceReaderWriter (SocketDevice K) := {
  read_bytes d fd n :=
    '(r, bs, k) ← socket_read_bytes (socket_kernel d) fd n; Some (r, bs, Socket k);
  write_bytes d fd bs :=
    '(r, n, k) ← socket_write_bytes (socket_kernel d) fd bs; Some (r, n, Socket k);
}.

#[export] Instance FileReaderWriter K `{SysIO K} : DeviceReaderWriter (FileDevice K) := {
  read_bytes d fd n :=
    '(r, bs, k) ← file_read_bytes (file_kernel d) fd n; Some (r, bs, File k);
  write_bytes d fd bs :=
    '(r, n, k) ← file_write_bytes (file_kernel d) fd bs; Some (r, n, File k);
}.

Lemma socket_error_not_ok e : socket_error e <> IO_RESULT_OK.
Proof. unfold socket_error. by repeat case_match. Qed.

Section Laws.
Context {K : Type} `{SysIOLaws K}.

Lemma socket_read_bytes_law (d : SocketDevice K) fd n :
  0 < fd -> 0 < n ->
  exists r bs d', read_bytes d fd n = Some (r, bs, d')
    /\ sys_incoming (socket_kernel d) = bs ++ sys_incoming (socket_kernel d')
    /\ if bool_decide (r = IO_RESULT_OK) then 0 < zlen bs <= n else bs = [].
Proof.
  intros Hfd Hn. cbn. unfold socket_read_bytes. pose proof (sys_read_law (socket_kernel d) fd n Hn) as Hl.
  destruct (_ && _) eqn:E; [|apply andb_false_iff in E as [E|E]; zbool; lia]. cbn [c3_assert mbind option_bind].
  destruct (sys_read _ _ _) as [[e|[|b bs]] k']; (do 3 eexists; split; [done|]).
  - split; [done|]. by rewrite bool_decide_false by apply socket_error_not_ok.
  - by destruct Hl.
  - destruct Hl as [He Hz]. split; [done|]. rewrite bool_decide_true by done.
    pose proof (zlen_nonneg bs). rewrite zlen_cons in *. lia.
Qed.

Lemma socket_write_bytes_law (d : SocketDevice K) fd bs :
  0 < fd -> 0 < zlen bs ->
  exists r n d', write_bytes d fd bs = Some (r, n, d')
    /\ sys_outgoing (socket_kernel d') = sys_outgoing (socket_kernel d) ++ take (Z.to_nat n) bs
    /\ if bool_decide (r = IO_RESULT_OK) then 0 < n <= zlen bs else n = 0.
Proof.
  intros Hfd Hn. cbn. unfold socket_write_bytes. pose proof (sys_write_law (socket_kernel d) fd bs Hn) as Hl.
  destruct (_ && _) eqn:E; [|apply andb_false_iff in E as [E|E]; zbool; lia]. cbn [c3_assert mbind option_bind].
  destruct (sys_write _ _ _) as [[e|n] k'].
  - do 3 eexists; split; [done|]. cbn. rewrite app_nil_r. split; [done|].
    by rewrite bool_decide_false by apply socket_error_not_ok.
  - destruct Hl as [Hr Ho]. clear E. destruct (_ && _) eqn:E'; [|apply andb_false_iff in E' as [E'|E']; zbool; lia]. cbn [c3_assert mbind option_bind].
    do 3 eexists; split; [done|]. by rewrite bool_decide_true.
Qed.

Lemma file_read_bytes_law (d : FileDevice K) fd n :
  0 < fd -> 0 < n ->
  exists r bs d', read_bytes d fd n = Some (r, bs, d')
    /\ sys_incoming (file_kernel d) = bs ++ sys_incoming (file_kernel d')
    /\ if bool_decide (r = IO_RESULT_OK) then 0 < zlen bs <= n else bs = [].
Proof.
  intros Hfd Hn. cbn. unfold file_read_bytes. pose proof (sys_read_law (file_kernel d) fd n Hn) as Hl.
  destruct (_ && _) eqn:E; [|apply andb_false_iff in E as [E|E]; zbool; lia]. cbn [c3_assert mbind option_bind].
  destruct (sys_read _ _ _) as [[e|[|b bs]] k']; [by do 3 eexists..| |].
  { destruct Hl. by do 3 eexists. }
  destruct Hl as [He Hz]. destruct (_ <=? n) eqn:E'; zbool; [|lia].
  do 3 eexists; split; [done|]. split; [done|]. rewrite bool_decide_true by done.
  pose proof (zlen_nonneg bs). rewrite zlen_cons in *. lia.
Qed.

Lemma file_write_bytes_law (d : FileDevice K) fd bs :
  0 < fd -> 0 < zlen bs ->
  exists r n d', write_bytes d fd bs = Some (r, n, d')
    /\ sys_outgoing (file_kernel d') = sys_outgoing (file_kernel d) ++ take (Z.to_nat n) bs
    /\ if bool_decide (r = IO_RESULT_OK) then 0 < n <= zlen bs else n = 0.
Proof.
  intros Hfd Hn. cbn. unfold file_write_bytes. pose proof (sys_write_law (file_kernel d) fd bs Hn) as Hl.
  destruct (_ && _) eqn:E; [|apply andb_false_iff in E as [E|E]; zbool; lia]. cbn [c3_assert mbind option_bind].
  destruct (sys_write _ _ _) as [[e|n] k'].
  - do 3 eexists; split; [done|]. cbn. by rewrite app_nil_r.
  - destruct Hl as [Hr Ho]. clear E. destruct (n =? 0) eqn:E0; zbool; [lia|].
    destruct (_ && _) eqn:E'; [|apply andb_false_iff in E' as [E'|E']; zbool; lia]. cbn [c3_assert mbind option_bind].
    do 3 eexists; split; [done|]. by rewrite bool_decide_true.
Qed.

#[export] Instance SocketReaderWriter_laws : DeviceLaws (SocketDevice K) := {
  dev_in d := sys_incoming (socket_kernel d);
  dev_out d := sys_outgoing (socket_kernel d);
  read_bytes_law := socket_read_bytes_law;
  write_bytes_law := socket_write_bytes_law;
}.

#[export] Instance FileReaderWriter_laws : DeviceLaws (FileDevice K) := {
  dev_in d := sys_incoming (file_kernel d);
  dev_out d := sys_outgoing (file_kernel d);
  read_bytes_law := file_read_bytes_law;
  write_bytes_law := file_write_bytes_law;
}.

End Laws.

(** ** A concrete peer

    One end of a connection whose calls follow a script: each entry either
    limits the number of bytes moved by a call or makes it fail. It shows that
    the laws can be met, and lets the readers and writers run. *)

Inductive sys_event := Move (limit : nat) | Fails (errno : Z).

Record Peer := mkPeer {
  peer_in : bytes;
  peer_out : bytes;
  peer_script : list sys_event;
}.

#[export] Instance PeerIO : SysIO Peer := {
  sys_read p _ n :=
    match peer_script p with
    | Fails e :: s => (SysInError e, mkPeer (peer_in p) (peer_out p) s)
    | Move l :: s =>
        let m := Nat.min (S l) (Z.to_nat n) in
        (SysIn (take m (peer_in p)), mkPeer (drop m (peer_in p)) (peer_out p) s)
    | [] =>
        let m := Z.to_nat n in
        (SysIn (take m (peer_in p)), mkPeer (drop m (peer_in p)) (peer_out p) [])
    end;
  sys_write p _ bs :=
    match peer_script p with
    | Fails e :: s => (SysOutError e, mkPeer (peer_in p) (peer_out p) s)
    | Move l :: s =>
        let m := Nat.min (S l) (length bs) in
        (SysOut (Z.of_nat m), mkPeer (peer_in p) (peer_out p ++ take m bs) s)
    | [] => (SysOut (zlen bs), mkPeer (peer_in p) (peer_out p ++ bs) [])
    end;
}.

#[export] Instance PeerIO_laws : SysIOLaws Peer.
Proof.
  refine {| sys_incoming := peer_in; sys_outgoing := peer_out |}.
  - intros [i o [|[l|e] s]] fd n Hn; cbn -[Nat.min]; try done.
    + rewrite take_drop. split; [done|]. unfold zlen. rewrite length_take. lia.
    + rewrite take_drop. split; [done|]. unfold zlen. rewrite length_take. lia.
  - intros [i o [|[l|e] s]] fd bs Hn; cbn -[Nat.min]; unfold zlen in *; try done.
    + rewrite Nat2Z.id, take_ge by lia. split; [lia|done].
    + rewrite Nat2Z.id. split; [lia|done].
Defined.
