(* ===== verification/Accessors.v ===== *)
(** * Accessors

    [CommandAccessor] ([io_command_handlers.h/.cc]) and [ResponseAccessor]
    ([io_response_handlers.h/.cc]): what a descriptor byte and the bytes that
    follow it say about sizes, password hash, data chunks and payload. *)

From S2P Require Import Prelude Protocol Memory Buffers.

(** ** Results *)

Record header_info_t := mkHeaderInfo {
  hi_chunks_offset : Z;
  hi_chunks_size : Z;
}.

Definition hi_invalid : header_info_t := mkHeaderInfo UINT_MAX_VAL 0.

Record payload_info_t := mkPayloadInfo {
  pi_buffer : option Z;
  pi_size : Z;
  pi_usize : Z;
  pi_compressor : Z;
  pi_has_errors : bool;
}.

(** [invalidate(has_errors)] also returns its argument. *)
Definition pi_invalidate (has_errors : bool) : bool * payload_info_t :=
  (has_errors, mkPayloadInfo None 0 0 CT_NONE has_errors).

(** ** [CommandAccessor] *)

Definition CPT_NO_PASSWORD : Z := DESC_NO_AUTH.
Definition CPT_USER_PASSWORD : Z := DESC_USER_AUTH.
Definition CPT_ADMIN_PASSWORD : Z := DESC_ADMIN_AUTH.
Definition CPT_BULK_PASSWORD : Z := DESC_BULK_AUTH.

Definition get_command_descriptor (sb : SharedBuffers) : option Z := get_header_byte_at sb 0.

Definition get_auth_type (sb : SharedBuffers) : option Z :=
  desc ← get_command_descriptor sb; Some (Z.land desc DESC_AUTH_BITS).

Definition get_command_header_data_size_length (sb : SharedBuffers) : option Z :=
  desc ← get_command_descriptor sb;
  let h := Z.land desc DESC_HEADER_BITS in
  Some (if h =? DESC_NO_HEADER then 0
        else if h =? DESC_BYTE_HEADER then 1
        else if h =? DESC_WORD_HEADER then 2
        else 4).

Definition get_command_id_byte (sb : SharedBuffers) : option Z :=
  n ← get_command_header_data_size_length sb; get_header_byte_at sb (n + 1).

Definition get_command_sizeless_header_size (sb : SharedBuffers) : option Z :=
  n ← get_command_header_data_size_length sb;
  _ ← c3_assert (n =? 0);
  auth ← get_auth_type sb;
  Some (if negb (auth =? DESC_NO_AUTH) then 10 else 2).

Definition get_command_header_size (sb : SharedBuffers) : option Z :=
  desc ← get_command_descriptor sb;
  let h := Z.land desc DESC_HEADER_BITS in
  if h =? DESC_NO_HEADER then get_command_sizeless_header_size sb
  else if h =? DESC_BYTE_HEADER then n ← get_header_byte_at sb 1; Some (u32 (n + 2))
  else if h =? DESC_WORD_HEADER then n ← get_header_ushort_at sb 1; Some (u32 (n + 3))
  else n ← get_header_uint_at sb 1; Some (u32 (n + 5)).

Definition command_marker_is_present (sb : SharedBuffers) : option bool :=
  desc ← get_command_descriptor sb; Some (negb (Z.land desc DESC_MARKER_IS_PRESENT =? 0)).

(** [get_command_pwd_hash]: the password type and, unless there is no password,
    the hash. *)
Definition get_command_pwd_hash (sb : SharedBuffers) : option (Z * option Z) :=
  type ← get_auth_type sb;
  if negb (type =? CPT_NO_PASSWORD) then
    n ← get_command_header_data_size_length sb;
    hash ← get_header_ulong_at sb (n + 2);
    Some (type, Some hash)
  else Some (type, None).

(** [desc & ~DESC_AUTH_BITS] is computed on [int]s; the descriptor is a byte. *)
Definition set_command_pwd_hash (sb : SharedBuffers) (type hash : Z)
  : option (bool * SharedBuffers) :=
  desc ← get_command_descriptor sb;
  let auth := Z.land desc DESC_AUTH_BITS in
  let put (sb : SharedBuffers) :=
    if negb (type =? CPT_NO_PASSWORD) then
      _ ← c3_assert (negb (auth =? 0));
      n ← get_command_header_data_size_length sb;
      sb ← set_header_ulong_at sb (n + 2) hash;
      Some (true, sb)
    else Some (true, sb) in
  if negb (auth =? type) then
    if (auth =? DESC_NO_AUTH) || (type =? CPT_NO_PASSWORD) then Some (false, sb)
    else
      sb ← set_header_byte_at sb 0 (Z.lor (Z.land desc (Z.lnot DESC_AUTH_BITS)) type);
      put sb
  else put sb.

(** The bytes that payload sizes and compressor take, from the descriptor. *)
Definition payload_size_bytes (desc : Z) : Z :=
  let p := Z.land desc DESC_PAYLOAD_BITS in
  let compressed := negb (Z.land desc DESC_PAYLOAD_IS_COMPRESSED =? 0) in
  if p =? DESC_NO_PAYLOAD then 0
  else if p =? DESC_BYTE_PAYLOAD then if compressed then 3 else 1
  else if p =? DESC_WORD_PAYLOAD then if compressed then 5 else 2
  else if compressed then 9 else 4.

(** The end of [get_header_info], the same for commands and responses. *)
Definition header_info_at (offset header_size : Z) : option (bool * header_info_t) :=
  if offset <? header_size then
    Some (true, mkHeaderInfo offset (u32 (header_size - offset)))
  else _ ← c3_assert (offset =? header_size); Some (false, hi_invalid).

(** [CommandAccessor::get_header_info] *)
Definition command_get_header_info (sb : SharedBuffers) : option (bool * header_info_t) :=
  desc ← get_command_descriptor sb;
  let offset := if negb (Z.land desc DESC_AUTH_BITS =? 0) then 10 else 2 in
  let h := Z.land desc DESC_HEADER_BITS in
  if h =? DESC_NO_HEADER then Some (false, hi_invalid)
  else
    let offset := offset + (if h =? DESC_BYTE_HEADER then 1
                            else if h =? DESC_WORD_HEADER then 2 else 4) in
    let offset := offset + payload_size_bytes desc in
    header_size ← get_command_header_size sb;
    header_info_at offset header_size.

(** One of the six cases that read the payload sizes: [n] bytes must be
    available; the integer reader gets the compressed and uncompressed size. *)
Definition read_payload_sizes (sb : SharedBuffers) (desc offset available : Z)
    (get : SharedBuffers -> Z -> option Z) (width : Z) : option (option (Z * Z)) :=
  if negb (Z.land desc DESC_PAYLOAD_IS_COMPRESSED =? 0) then
    if available <? offset + (2 * width + 1) then Some None
    else size ← get sb (offset + 1); usize ← get sb (offset + 1 + width); Some (Some (size, usize))
  else
    if available <? offset + width then Some None
    else size ← get sb offset; Some (Some (size, size)).

(** [get_payload_info] once the descriptor and the offset of the payload sizes are
    known, the same for commands and responses. *)
Definition payload_info_at (sb : SharedBuffers) (desc offset : Z)
  : option (bool * payload_info_t) :=
  let available := get_available_header_size sb in
  let p := Z.land desc DESC_PAYLOAD_BITS in
  sizes ← (if p =? DESC_BYTE_PAYLOAD
           then read_payload_sizes sb desc offset available get_header_byte_at 1
           else if p =? DESC_WORD_PAYLOAD
           then read_payload_sizes sb desc offset available get_header_ushort_at 2
           else read_payload_sizes sb desc offset available get_header_uint_at 4);
  match sizes with
  | None => Some (pi_invalidate true)
  | Some (size, usize) =>
      compressor ← (if negb (Z.land desc DESC_PAYLOAD_IS_COMPRESSED =? 0) then
                      c ← get_header_byte_at sb offset;
                      Some (if (c =? CT_NONE) || (CT_NUMBER_OF_ELEMENTS <=? c)
                               || (size =? 0) || (usize <=? size)
                            then None else Some c)
                    else Some (Some CT_NONE));
      match compressor with
      | None => Some (pi_invalidate true)
      | Some c =>
          let payload_size := get_payload_size sb in
          if 0 <? payload_size then
            if payload_size =? size then
              p ← get_payload_bytes sb 0 payload_size;
              Some (true, mkPayloadInfo (Some p) size usize c false)
            else Some (pi_invalidate true)
          else Some (true, mkPayloadInfo None size usize c false)
      end
  end.

(** [CommandAccessor::get_payload_info] *)
Definition command_get_payload_info (sb : SharedBuffers) : option (bool * payload_info_t) :=
  desc ← get_command_descriptor sb;
  if Z.land desc DESC_PAYLOAD_BITS =? DESC_NO_PAYLOAD then Some (pi_invalidate false)
  else
    n ← get_command_header_data_size_length sb;
    payload_info_at sb desc (n + 2 + (if negb (Z.land desc DESC_AUTH_BITS =? 0) then 8 else 0)).

(** ** [ResponseAccessor] *)

Inductive response_type_t :=
| RESPONSE_INVALID
| RESPONSE_OK
| RESPONSE_DATA
| RESPONSE_LIST
| RESPONSE_ERROR.

#[export] Instance response_type_t_eq_dec : EqDecision response_type_t.
Proof. solve_decision. Defined.

Definition get_response_descriptor (sb : SharedBuffers) : option Z := get_header_byte_at sb 0.

Definition get_response_type (sb : SharedBuffers) : option Z :=
  desc ← get_response_descriptor sb; Some (Z.land desc RESP_TYPE_BITS).

Definition get_translated_response_type (sb : SharedBuffers) : option response_type_t :=
  t ← get_response_type sb;
  Some (if t =? RESP_TYPE_OK then RESPONSE_OK
        else if t =? RESP_TYPE_DATA then RESPONSE_DATA
        else if t =? RESP_TYPE_LIST then RESPONSE_LIST
        else RESPONSE_ERROR).

Definition get_response_header_data_size_length (sb : SharedBuffers) : option Z :=
  desc ← get_response_descriptor sb;
  let h := Z.land desc RESP_HEADER_BITS in
  Some (if h =? RESP_NO_HEADER then 0
        else if h =? RESP_BYTE_HEADER then 1
        else if h =? RESP_WORD_HEADER then 2
        else 4).

Definition get_response_header_size (sb : SharedBuffers) : option Z :=
  desc ← get_response_descriptor sb;
  let h := Z.land desc RESP_HEADER_BITS in
  if h =? RESP_NO_HEADER then Some 1
  else if h =? RESP_BYTE_HEADER then n ← get_header_byte_at sb 1; Some (u32 (n + 2))
  else if h =? RESP_WORD_HEADER then n ← get_header_ushort_at sb 1; Some (u32 (n + 3))
  else n ← get_header_uint_at sb 1; Some (u32 (n + 5)).

Definition response_marker_is_present (sb : SharedBuffers) : option bool :=
  desc ← get_response_descriptor sb; Some (negb (Z.land desc RESP_MARKER_IS_PRESENT =? 0)).

(** [ResponseAccessor::get_header_info] *)
Definition response_get_header_info (sb : SharedBuffers) : option (bool * header_info_t) :=
  desc ← get_response_descriptor sb;
  let h := Z.land desc RESP_HEADER_BITS in
  if h =? RESP_NO_HEADER then Some (false, hi_invalid)
  else
    let offset := if h =? RESP_BYTE_HEADER then 2 else if h =? RESP_WORD_HEADER then 3 else 5 in
    let offset := offset + payload_size_bytes desc in
    header_size ← get_response_header_size sb;
    header_info_at offset header_size.

(** [ResponseAccessor::get_payload_info] *)
Definition response_get_payload_info (sb : SharedBuffers) : option (bool * payload_info_t) :=
  desc ← get_response_descriptor sb;
  if Z.land desc RESP_PAYLOAD_BITS =? RESP_NO_PAYLOAD then Some (pi_invalidate false)
  else
    n ← get_response_header_data_size_length sb;
    payload_info_at sb desc (n + 1).

(** ** Reference reading of a header

    The same information as functions of the header bytes alone. *)

Definition size_length (desc : Z) : Z :=
  let h := Z.land desc DESC_HEADER_BITS in
  if h =? DESC_NO_HEADER then 0
  else if h =? DESC_BYTE_HEADER then 1
  else if h =? DESC_WORD_HEADER then 2
  else 4.

Definition auth_bytes (desc : Z) : Z := if Z.land desc DESC_AUTH_BITS =? 0 then 0 else 8.

Definition h_val (h : bytes) (i n : Z) : option Z := le_val <$> slice h i n.

(** Size of the header, from its first bytes; [sizeless] is the size of a header
    that does not carry one. *)
Definition header_size_of (sizeless : Z -> Z) (h : bytes) : option Z :=
  desc ← byte_at h 0;
  let n := size_length desc in
  if n =? 0 then Some (sizeless desc)
  else v ← h_val h 1 n; Some (u32 (v + (n + 1))).

Definition command_header_size_of : bytes -> option Z :=
  header_size_of (fun desc => 2 + auth_bytes desc).
Definition response_header_size_of : bytes -> option Z := header_size_of (fun _ => 1).

(** Payload size, uncompressed size and compressor of a header whose payload
    sizes are at [off]; [None] when they are missing or inconsistent. *)
Definition payload_of (off : Z) (h : bytes) : option (Z * Z * Z) :=
  desc ← byte_at h 0;
  let p := Z.land desc DESC_PAYLOAD_BITS in
  if p =? DESC_NO_PAYLOAD then Some (0, 0, CT_NONE)
  else
    let w := if p =? DESC_BYTE_PAYLOAD then 1 else if p =? DESC_WORD_PAYLOAD then 2 else 4 in
    if Z.land desc DESC_PAYLOAD_IS_COMPRESSED =? 0 then
      s ← h_val h off w; Some (s, s, CT_NONE)
    else
      c ← byte_at h off;
      s ← h_val h (off + 1) w;
      u ← h_val h (off + 1 + w) w;
      if (c =? CT_NONE) || (CT_NUMBER_OF_ELEMENTS <=? c) || (s =? 0) || (u <=? s) then None
      else Some (s, u, c).

Definition command_payload_of (h : bytes) : option (Z * Z * Z) :=
  desc ← byte_at h 0; payload_of (size_length desc + 2 + auth_bytes desc) h.
Definition response_payload_of (h : bytes) : option (Z * Z * Z) :=
  desc ← byte_at h 0; payload_of (size_length desc + 1) h.

Definition marker_of (h : bytes) : bytes :=
  match byte_at h 0 with
  | Some desc => if Z.land desc DESC_MARKER_IS_PRESENT =? 0 then [] else [C3_INTEGRITY_MARKER]
  | None => []
  end.

(** ** The accessors implement the reference reading *)

Lemma slice_split h i n z :
  slice h i n = Some z -> exists a c, h = a ++ z ++ c /\ zlen a = i /\ zlen z = n.
Proof.
  unfold slice. intros H. destruct (_ && _) eqn:E; [|done]. zbool. inv_opt.
  exists (take (Z.to_nat i) h), (drop (Z.to_nat n) (drop (Z.to_nat i) h)).
  unfold zlen in *. rewrite !length_take, length_drop.
  split; [by rewrite !take_drop|]. lia.
Qed.

Lemma byte_at_split h i b : byte_at h i = Some b -> exists a c, h = a ++ b :: c /\ zlen a = i.
Proof.
  unfold byte_at. intros H. destruct (0 <=? i) eqn:E; [|done]. zbool.
  exists (take (Z.to_nat i) h), (drop (S (Z.to_nat i)) h). split.
  - by rewrite take_drop_middle.
  - unfold zlen. rewrite length_take. apply lookup_lt_Some in H. lia.
Qed.

Lemma byte_at_pos h d : byte_at h 0 = Some d -> 0 < zlen h.
Proof.
  intros (a & c & -> & _)%byte_at_split. rewrite zlen_app, zlen_cons.
  pose proof (zlen_nonneg a). pose proof (zlen_nonneg c). lia.
Qed.

Lemma header_info_at_ok o n :
  0 <= o <= n -> n < 2 ^ 32 ->
  header_info_at o n
  = Some (if o <? n then (true, mkHeaderInfo o (n - o)) else (false, hi_invalid)).
Proof.
  intros Ho Hn. unfold header_info_at. destruct (_ <? n) eqn:E; zbool.
  - rewrite u32_small; [done|]. unfold is_u32. lia.
  - destruct (_ =? n) eqn:E'; zbool; [done|lia].
Qed.

Section Read.
Context (sb : SharedBuffers) (h r : bytes).
Hypothesis Hok : sb_ok sb.
Hypothesis Hb : header_buffer sb = h ++ r.

Lemma get_header_byte_at_of i b : byte_at h i = Some b -> get_header_byte_at sb i = Some b.
Proof.
  intros (a & c & Hh & <-)%byte_at_split. apply get_header_byte_at_ok with (c := c ++ r); [done|].
  by rewrite Hb, Hh, <- app_assoc.
Qed.

(** The readers of a little-endian integer of [w] bytes. *)
Definition reader_of_width (w : Z) (get : SharedBuffers -> Z -> option Z) : Prop :=
  forall i v, h_val h i w = Some v -> get sb i = Some v.

Lemma hdr_get_of i w v :
  h_val h i w = Some v ->
  (p ← get_header_bytes sb i w; x ← hdr_load sb p w; Some (le_val x)) = Some v.
Proof.
  unfold h_val. intros (z & Hs & ->)%fmap_Some. 
  apply slice_split in Hs as (a & c & Hh & <- & Hz).
  apply hdr_get_ok with (c := c ++ r); [done| |done]. by rewrite Hb, Hh, <- !app_assoc.
Qed.

Lemma ushort_reader : reader_of_width 2 get_header_ushort_at.
Proof. intros i v. apply hdr_get_of. Qed.
Lemma uint_reader : reader_of_width 4 get_header_uint_at.
Proof. intros i v. apply hdr_get_of. Qed.
Lemma ulong_reader : reader_of_width 8 get_header_ulong_at.
Proof. intros i v. apply hdr_get_of. Qed.
Lemma byte_reader : reader_of_width 1 get_header_byte_at.
Proof.
  intros i v (z & Hz & ->)%fmap_Some. apply get_header_byte_at_of.
  apply slice_split in Hz as (a & c & Hh & <- & Hz).
  destruct z as [|b [|]]; [done| |by rewrite !zlen_cons in Hz; pose proof (zlen_nonneg l); lia].
  rewrite Hh. cbn. by rewrite byte_at_app_mid.
Qed.

Lemma size_length_of desc :
  byte_at h 0 = Some desc -> get_command_header_data_size_length sb = Some (size_length desc).
Proof.
  intros Hd. unfold get_command_header_data_size_length, get_command_descriptor.
  by rewrite (get_header_byte_at_of _ _ Hd).
Qed.

Lemma command_header_size_ok n :
  command_header_size_of h = Some n -> get_command_header_size sb = Some n.
Proof.
  unfold command_header_size_of, header_size_of. intros H. inv_opt. rename x into desc.
  pose proof (size_length_of _ Hx) as Hs.
  unfold get_command_header_size, get_command_sizeless_header_size, get_auth_type, get_command_descriptor.
  rewrite Hs, (get_header_byte_at_of _ _ Hx). cbn [mbind option_bind].
  unfold size_length, auth_bytes in *.
  destruct (_ =? DESC_NO_HEADER) eqn:E0.
  { cbn in *. inv_opt. by destruct (Z.land desc DESC_AUTH_BITS =? _). }
  destruct (_ =? DESC_BYTE_HEADER) eqn:E1; [|destruct (_ =? DESC_WORD_HEADER) eqn:E2];
    cbn [Z.eqb Pos.eqb] in H; inv_opt.
  - by rewrite (byte_reader _ _ Hx0).
  - by rewrite (ushort_reader _ _ Hx0).
  - by rewrite (uint_reader _ _ Hx0).
Qed.

Lemma response_header_size_ok n :
  response_header_size_of h = Some n -> get_response_header_size sb = Some n.
Proof.
  unfold response_header_size_of, header_size_of. intros H. inv_opt. rename x into desc.
  unfold get_response_header_size, get_response_descriptor.
  rewrite (get_header_byte_at_of _ _ Hx). cbn [mbind option_bind].
  unfold size_length, RESP_NO_HEADER, RESP_BYTE_HEADER, RESP_WORD_HEADER, RESP_HEADER_BITS in *.
  destruct (_ =? DESC_NO_HEADER) eqn:E0; [by cbn in *|].
  destruct (_ =? DESC_BYTE_HEADER) eqn:E1; [|destruct (_ =? DESC_WORD_HEADER) eqn:E2];
    cbn [Z.eqb Pos.eqb] in H; inv_opt.
  - by rewrite (byte_reader _ _ Hx0).
  - by rewrite (ushort_reader _ _ Hx0).
  - by rewrite (uint_reader _ _ Hx0).
Qed.

Lemma slice_bound i n z : slice h i n = Some z -> i + n <= get_available_header_size sb.
Proof.
  intros Hz. unfold slice in Hz. destruct (_ && _) eqn:E; [|done]. zbool.
  rewrite <- header_buffer_len, Hb, zlen_app by done. pose proof (zlen_nonneg r). lia.
Qed.

Lemma h_val_bound i n v : h_val h i n = Some v -> i + n <= get_available_header_size sb.
Proof. intros (z & Hz & ->)%fmap_Some. by eapply slice_bound. Qed.

(** [payload_info_at] on a header that specifies a payload: it is found, either
    not received yet or with its buffer. *)
Lemma payload_info_at_ok desc off s u c :
  byte_at h 0 = Some desc -> (Z.land desc DESC_PAYLOAD_BITS =? DESC_NO_PAYLOAD) = false ->
  payload_of off h = Some (s, u, c) ->
  get_payload_size sb = 0 \/ (get_payload_size sb = s /\ 0 < s) ->
  payload_info_at sb desc off
  = Some (true, mkPayloadInfo (if 0 <? get_payload_size sb then Some 0 else None) s u c false).
Proof.
  intros Hd Hp Hof Hs. unfold payload_of in Hof. rewrite Hd in Hof. cbn [mbind option_bind] in Hof.
  rewrite Hp in Hof. unfold payload_info_at.
  set (w := if _ =? DESC_BYTE_PAYLOAD then 1 else _) in *.
  assert (exists get, reader_of_width w get /\
    (if Z.land desc DESC_PAYLOAD_BITS =? DESC_BYTE_PAYLOAD
     then read_payload_sizes sb desc off (get_available_header_size sb) get_header_byte_at 1
     else if Z.land desc DESC_PAYLOAD_BITS =? DESC_WORD_PAYLOAD
     then read_payload_sizes sb desc off (get_available_header_size sb) get_header_ushort_at 2
     else read_payload_sizes sb desc off (get_available_header_size sb) get_header_uint_at 4)
    = read_payload_sizes sb desc off (get_available_header_size sb) get w) as (get & Hget & ->).
  { subst w. destruct (_ =? DESC_BYTE_PAYLOAD); [|destruct (_ =? DESC_WORD_PAYLOAD)].
    - exists get_header_byte_at. by split; [apply byte_reader|].
    - exists get_header_ushort_at. by split; [apply ushort_reader|].
    - exists get_header_uint_at. by split; [apply uint_reader|]. }
  assert (forall s, (get_payload_size sb = 0 \/ (get_payload_size sb = s /\ 0 < s)) -> forall u c,
    (if 0 <? get_payload_size sb then
       if get_payload_size sb =? s then
         p ← get_payload_bytes sb 0 (get_payload_size sb);
         Some (true, mkPayloadInfo (Some p) s u c false)
       else Some (pi_invalidate true)
     else Some (true, mkPayloadInfo None s u c false))
    = Some (true, mkPayloadInfo (if 0 <? get_payload_size sb then Some 0 else None) s u c false)) as Hend.
  { intros s' [Hz|[Hz Hz']] u' c'; [by rewrite Hz|]. destruct Hok as (_ & Hpd & _).
    unfold get_payload_bytes, get_payload_size in *. rewrite Hz in *.
    destruct (0 <? s') eqn:E; zbool; [|lia]. rewrite Z.eqb_refl.
    by rewrite db_get_bytes_ok by (try done; lia). }
  unfold read_payload_sizes.
  destruct (Z.land desc DESC_PAYLOAD_IS_COMPRESSED =? 0) eqn:Ec; cbn [negb].
  - inv_opt. pose proof (h_val_bound _ _ _ Hx). destruct (_ <? off + w) eqn:E; zbool; [lia|].
    rewrite (Hget _ _ Hx). cbn [mbind option_bind]. by apply Hend.
  - apply bind_Some in Hof as (c' & Hc & Hof). apply bind_Some in Hof as (s' & Hs' & Hof).
    apply bind_Some in Hof as (u' & Hu' & Hof).
    pose proof (h_val_bound _ _ _ Hu'). destruct (_ <? off + _) eqn:E; zbool; [lia|].
    rewrite (Hget _ _ Hs'), (Hget _ _ Hu'). cbn [mbind option_bind].
    rewrite (get_header_byte_at_of _ _ Hc). cbn [mbind option_bind].
    destruct (_ || _); [done|]. inv_opt. by apply Hend.
Qed.

(** The payload information of a well-formed header. *)
Definition payload_info_of (p : Z * Z * Z) : bool * payload_info_t :=
  let '(s, u, c) := p in
  (true, mkPayloadInfo (if 0 <? get_payload_size sb then Some 0 else None) s u c false).

Lemma command_payload_info_ok desc s u c :
  byte_at h 0 = Some desc -> command_payload_of h = Some (s, u, c) ->
  get_payload_size sb = 0 \/ (get_payload_size sb = s /\ 0 < s) ->
  command_get_payload_info sb
  = Some (if Z.land desc DESC_PAYLOAD_BITS =? DESC_NO_PAYLOAD then pi_invalidate false
          else payload_info_of (s, u, c)).
Proof.
  intros Hd Hof Hs. unfold command_payload_of in Hof. rewrite Hd in Hof. cbn [mbind option_bind] in Hof.
  unfold command_get_payload_info, get_command_descriptor.
  rewrite (get_header_byte_at_of _ _ Hd). cbn [mbind option_bind].
  destruct (_ =? DESC_NO_PAYLOAD) eqn:E; [done|].
  rewrite (size_length_of _ Hd). cbn [mbind option_bind]. unfold auth_bytes in Hof.
  rewrite negb_if. by rewrite (payload_info_at_ok desc _ s u c).
Qed.

Lemma response_payload_info_ok desc s u c :
  byte_at h 0 = Some desc -> response_payload_of h = Some (s, u, c) ->
  get_payload_size sb = 0 \/ (get_payload_size sb = s /\ 0 < s) ->
  response_get_payload_info sb
  = Some (if Z.land desc DESC_PAYLOAD_BITS =? DESC_NO_PAYLOAD then pi_invalidate false
          else payload_info_of (s, u, c)).
Proof.
  intros Hd Hof Hs. unfold response_payload_of in Hof. rewrite Hd in Hof. cbn [mbind option_bind] in Hof.
  unfold response_get_payload_info, get_response_descriptor.
  rewrite (get_header_byte_at_of _ _ Hd). cbn [mbind option_bind].
  unfold RESP_PAYLOAD_BITS, RESP_NO_PAYLOAD.
  destruct (_ =? DESC_NO_PAYLOAD) eqn:E; [done|].
  change (get_response_header_data_size_length sb) with (get_command_header_data_size_length sb).
  rewrite (size_length_of _ Hd). cbn [mbind option_bind].
  by rewrite (payload_info_at_ok desc _ s u c).
Qed.

(** Where the data chunks of a command are. *)
Definition command_chunks_offset (desc : Z) : Z :=
  2 + size_length desc + auth_bytes desc + payload_size_bytes desc.
Definition response_chunks_offset (desc : Z) : Z :=
  1 + size_length desc + payload_size_bytes desc.

Lemma command_header_info_ok desc n :
  byte_at h 0 = Some desc -> command_header_size_of h = Some n -> n < 2 ^ 32 ->
  size_length desc <> 0 -> command_chunks_offset desc <= n ->
  command_get_header_info sb
  = Some (if command_chunks_offset desc <? n
          then (true, mkHeaderInfo (command_chunks_offset desc) (n - command_chunks_offset desc))
          else (false, hi_invalid)).
Proof.
  intros Hd Hn Hlt Hs Hle. unfold command_get_header_info, get_command_descriptor.
  rewrite (get_header_byte_at_of _ _ Hd). cbn [mbind option_bind].
  rewrite (command_header_size_ok _ Hn). cbn [mbind option_bind].
  assert (0 <= command_chunks_offset desc) as H0
    by (unfold command_chunks_offset, size_length, auth_bytes, payload_size_bytes; repeat case_match; lia).
  rewrite <- header_info_at_ok by lia.
  unfold command_chunks_offset, size_length, auth_bytes in *.
  destruct (_ =? DESC_NO_HEADER); [done|]. f_equal.
  rewrite negb_if. repeat case_match; lia.
Qed.

Lemma response_header_info_ok desc n :
  byte_at h 0 = Some desc -> response_header_size_of h = Some n -> n < 2 ^ 32 ->
  size_length desc <> 0 -> response_chunks_offset desc <= n ->
  response_get_header_info sb
  = Some (if response_chunks_offset desc <? n
          then (true, mkHeaderInfo (response_chunks_offset desc) (n - response_chunks_offset desc))
          else (false, hi_invalid)).
Proof.
  intros Hd Hn Hlt Hs Hle. unfold response_get_header_info, get_response_descriptor.
  rewrite (get_header_byte_at_of _ _ Hd). cbn [mbind option_bind].
  rewrite (response_header_size_ok _ Hn). cbn [mbind option_bind].
  assert (0 <= response_chunks_offset desc) as H0
    by (unfold response_chunks_offset, size_length, auth_bytes, payload_size_bytes; repeat case_match; lia).
  rewrite <- header_info_at_ok by lia.
  unfold response_chunks_offset, size_length, auth_bytes in *.
  unfold RESP_NO_HEADER, RESP_BYTE_HEADER, RESP_WORD_HEADER, RESP_HEADER_BITS.
  destruct (_ =? DESC_NO_HEADER); [done|]. f_equal. repeat case_match; lia.
Qed.

End Read.
