(* ===== verification/MessageIO.v ===== *)
(** * MessageIO

    What the logical readers and writers of commands and of responses share: one
    call of a device on a part of the header or of the payload buffer, and the
    outcome of one turn of the [for (;;) switch (rw_state)] loops. *)

From S2P Require Import Prelude Protocol Memory Buffers ChunkBuilder HeaderBuild Devices Accessors.

(** Outcome of one turn of a loop: [continue] or [return]. *)
Inductive turn (D : Type) :=
| Continue (rw : ReaderWriter) (d : D) (ntotal : Z)
| Return (r : io_result_t) (rw : ReaderWriter) (d : D) (ntotal : Z).
Arguments Continue {D}. Arguments Return {D}.

(** [case IO_RESULT_ERROR: case IO_RESULT_EOF: rw_state = IO_STATE_ERROR;] and
    the fall through to [default]. *)
Definition after_failure (r : io_result_t) (rw : ReaderWriter) : ReaderWriter :=
  match r with
  | IO_RESULT_ERROR | IO_RESULT_EOF => rw_with_state rw IO_STATE_ERROR
  | _ => rw
  end.

(** A pipeline that calls [read] or [write] again, at most [k] more times, when it
    is told to retry; byte counts add up. *)
Fixpoint retry {D : Type} (op : ReaderWriter -> D -> option (io_result_t * ReaderWriter * D * Z))
    (k : nat) (rw : ReaderWriter) (d : D) : option (io_result_t * ReaderWriter * D * Z) :=
  '(r, rw, d, n) ← op rw d;
  match r, k with
  | IO_RESULT_RETRY, S k => '(r, rw, d, n') ← retry op k rw d; Some (r, rw, d, n + n')
  | _, _ => Some (r, rw, d, n)
  end.

Section Calls.
Context {D : Type} `{DeviceReaderWriter D}.

(** [read_bytes(get_fd(), get_header_bytes(pos, n), n, nread)] *)
Definition read_into_header (rw : ReaderWriter) (d : D) (pos n : Z)
  : option (io_result_t * Z * ReaderWriter * D) :=
  p ← get_header_bytes (rw_sb rw) pos n;
  '(r, bs, d) ← read_bytes d (rw_fd rw) n;
  sb ← hdr_store (rw_sb rw) p bs;
  Some (r, zlen bs, rw_with_sb rw sb, d).

(** [read_bytes(get_fd(), get_payload_bytes(pos, n), n, nread)] *)
Definition read_into_payload (rw : ReaderWriter) (d : D) (pos n : Z)
  : option (io_result_t * Z * ReaderWriter * D) :=
  p ← get_payload_bytes (rw_sb rw) pos n;
  '(r, bs, d) ← read_bytes d (rw_fd rw) n;
  sb ← payload_store (rw_sb rw) p bs;
  Some (r, zlen bs, rw_with_sb rw sb, d).

(** [write_bytes(get_fd(), get_header_bytes(pos, n), n, nwritten)] *)
Definition write_from_header (rw : ReaderWriter) (d : D) (pos n : Z)
  : option (io_result_t * Z * D) :=
  p ← get_header_bytes (rw_sb rw) pos n;
  bs ← hdr_load (rw_sb rw) p n;
  write_bytes d (rw_fd rw) bs.

(** [write_bytes(get_fd(), get_payload_bytes(pos, n), n, nwritten)] *)
Definition write_from_payload (rw : ReaderWriter) (d : D) (pos n : Z)
  : option (io_result_t * Z * D) :=
  p ← get_payload_bytes (rw_sb rw) pos n;
  bs ← payload_load (rw_sb rw) p n;
  write_bytes d (rw_fd rw) bs.

End Calls.

(** ** Buffers *)

(** [configure_header] keeps what was received into the static part. *)
Lemma configure_header_ok junk sb dn r size :
  sb_ok sb -> using_static_header sb = true -> header_buffer sb = dn ++ r ->
  zlen dn < size < 2 ^ 32 ->
  exists sb' r', sb_configure_header junk sb (zlen dn) size = Some sb' /\ sb_ok sb'
    /\ header_buffer sb' = dn ++ r' /\ size <= zlen (header_buffer sb')
    /\ sb_payload sb' = sb_payload sb /\ sb_nrefs sb' = sb_nrefs sb.
Proof.
  intros Hok Hst Hb Hs. pose proof Hok as (Hd & Hp & Ha). unfold using_static_header in Hst. zbool.
  assert (sb_aux sb = dn ++ r) as Haux by (unfold header_buffer in Hb; by rewrite Hst in Hb).
  pose proof (zlen_nonneg dn). pose proof (zlen_nonneg r).
  rewrite Haux, zlen_app in Ha. unfold sb_configure_header, AUX_DATA_SIZE in *.
  destruct (zlen dn <=? 12) eqn:E0; zbool; [|lia]. destruct (zlen dn <? size) eqn:E1; zbool; [|lia].
  cbn [andb c3_assert mbind option_bind]. destruct (12 <? size) eqn:E; zbool; cycle 1.
  { exists sb, r. rewrite Hb, zlen_app. split_and!; try done. lia. }
  unfold db_set_size. destruct (size =? 0) eqn:E2; zbool; [lia|].
  cbn [negb c3_assert mbind option_bind]. rewrite db_ok_validate by done.
  assert (db_buffer (sb_data sb) = None) as ->.
  { unfold db_ok in Hd. destruct (db_buffer _); [lia|done]. }
  unfold alloc. rewrite (proj2 (Z.eqb_neq _ _) E2).
  cbn [negb c3_assert mbind option_bind db_bytes db_buffer db_size default].
  rewrite Haux, (slice_app_mid [] dn r : slice (dn ++ r) 0 (zlen dn) = Some dn).
  cbn [mbind option_bind]. change (id (fresh junk size)) with (fresh junk size).
  rewrite blit_prefix by (rewrite zlen_fresh; lia). cbn [mbind option_bind].
  exists (with_data (with_memory sb (fetch_add (sb_memory sb) size))
           (mkDataBuffer (Some (dn ++ drop (length dn) (fresh junk size))) size)), (drop (length dn) (fresh junk size)).
  split; [done|].
  assert (zlen (dn ++ drop (length dn) (fresh junk size)) = size) as Hz
    by (rewrite zlen_app, zlen_drop; rewrite zlen_fresh; lia).
  unfold header_buffer, sb_ok, db_ok; cbn. rewrite Haux, Hz, (zlen_app dn r).
  destruct (0 <? size) eqn:E3; zbool; [|lia]. cbn. rewrite Hz.
  split_and!; try done; lia.
Qed.

Lemma set_payload_size_ok junk sb n :
  sb_ok sb -> get_payload_size sb = 0 -> 0 < n < 2 ^ 32 ->
  exists sb', set_payload_size junk sb n = Some sb' /\ sb_ok sb'
    /\ header_buffer sb' = header_buffer sb /\ get_payload_size sb' = n
    /\ sb_nrefs sb' = sb_nrefs sb.
Proof.
  intros (Hd & Hp & Ha) Hs Hn. unfold set_payload_size, db_set_size, get_payload_size in *.
  destruct (n =? 0) eqn:E; zbool; [lia|]. cbn [negb c3_assert mbind option_bind].
  rewrite db_ok_validate by done.
  assert (db_buffer (sb_payload sb) = None) as ->.
  { unfold db_ok in Hp. destruct (db_buffer _); [lia|done]. }
  unfold alloc. rewrite (proj2 (Z.eqb_neq _ _) E). cbn [negb c3_assert mbind option_bind].
  eexists; split; [done|]. unfold sb_ok, db_ok; cbn. rewrite zlen_fresh by lia. done.
Qed.

Lemma payload_store_ok sb a b c bs :
  sb_ok sb -> 0 < get_payload_size sb -> db_bytes (sb_payload sb) = a ++ b ++ c -> zlen bs = zlen b ->
  exists sb', payload_store sb (zlen a) bs = Some sb' /\ sb_ok sb'
    /\ header_buffer sb' = header_buffer sb /\ get_payload_size sb' = get_payload_size sb
    /\ db_bytes (sb_payload sb') = a ++ bs ++ c /\ sb_nrefs sb' = sb_nrefs sb.
Proof.
  intros (Hd & Hp & Ha) Hpos Hb Hl. unfold payload_store, get_payload_size in *.
  rewrite Hb, blit_app_mid by done. cbn. eexists; split; [done|].
  destruct (db_ok_size _ Hp) as [Hs Hr]. rewrite Hb in Hs.
  assert (zlen (a ++ bs ++ c) = zlen (a ++ b ++ c)) as Hz by (rewrite !zlen_app; lia).
  unfold sb_ok, db_ok; cbn. rewrite Hz. repeat split; try done; lia.
Qed.

(** ** Calls that fill or send a part of a buffer *)

(** [transferred r bs n]: the device's promise on a request of [n] bytes. *)
Definition transferred (r : io_result_t) (bs : bytes) (n : Z) : Prop :=
  if bool_decide (r = IO_RESULT_OK) then 0 < zlen bs <= n else bs = [].

Section Laws.
Context {D : Type} `{DeviceLaws D}.

Lemma read_into_header_ok rw (d : D) dn r n :
  sb_ok (rw_sb rw) -> header_buffer (rw_sb rw) = dn ++ r -> 0 < n <= zlen r -> 0 < rw_fd rw ->
  exists res bs d' sb' r', read_into_header rw d (zlen dn) n = Some (res, zlen bs, rw_with_sb rw sb', d')
    /\ dev_in d = bs ++ dev_in d' /\ transferred res bs n /\ sb_ok sb'
    /\ hdr_frame (rw_sb rw) sb' /\ header_buffer sb' = (dn ++ bs) ++ r' /\ zlen r' = zlen r - zlen bs.
Proof.
  intros Hok Hb Hn Hfd. unfold read_into_header.
  rewrite get_header_bytes_ok; [|done|auto with c3|lia|rewrite Hb, zlen_app; lia].
  cbn [mbind option_bind].
  destruct (read_bytes_law d (rw_fd rw) n) as (res & bs & d' & -> & Hd & Hr); [done|lia|].
  cbn [mbind option_bind].
  assert (zlen bs <= n) as Hle by (case_bool_decide; [lia|subst; rewrite zlen_nil; lia]).
  destruct (hdr_store_ok (rw_sb rw) dn (take (length bs) r) (drop (length bs) r) bs)
    as (sb' & -> & Hok' & Hf & Hb'); [done|by rewrite take_drop|rewrite zlen_take; lia|].
  exists res, bs, d', sb', (drop (length bs) r). rewrite <- app_assoc, zlen_drop by lia. done.
Qed.

Lemma read_into_payload_ok rw (d : D) dn r n :
  sb_ok (rw_sb rw) -> db_bytes (sb_payload (rw_sb rw)) = dn ++ r -> 0 < n <= zlen r -> 0 < rw_fd rw ->
  exists res bs d' sb' r', read_into_payload rw d (zlen dn) n = Some (res, zlen bs, rw_with_sb rw sb', d')
    /\ dev_in d = bs ++ dev_in d' /\ transferred res bs n /\ sb_ok sb'
    /\ header_buffer sb' = header_buffer (rw_sb rw)
    /\ get_payload_size sb' = get_payload_size (rw_sb rw)
    /\ db_bytes (sb_payload sb') = (dn ++ bs) ++ r' /\ zlen r' = zlen r - zlen bs.
Proof.
  intros Hok Hb Hn Hfd. unfold read_into_payload, get_payload_bytes.
  pose proof Hok as (_ & Hp & _). destruct (db_ok_size _ Hp) as [Hs Hr']. rewrite Hb, zlen_app in Hs.
  pose proof (zlen_nonneg dn).
  rewrite db_get_bytes_ok; [|done|auto with c3|lia|lia|lia].
  cbn [mbind option_bind].
  destruct (read_bytes_law d (rw_fd rw) n) as (res & bs & d' & -> & Hd & Hr); [done|lia|].
  cbn [mbind option_bind].
  assert (zlen bs <= n) as Hle by (case_bool_decide; [lia|subst; rewrite zlen_nil; lia]).
  destruct (payload_store_ok (rw_sb rw) dn (take (length bs) r) (drop (length bs) r) bs)
    as (sb' & -> & Hok' & Hf & Hs' & Hb' & _);
    [done|unfold get_payload_size; lia|by rewrite take_drop|rewrite zlen_take; lia|].
  exists res, bs, d', sb', (drop (length bs) r). rewrite <- app_assoc, zlen_drop by lia. done.
Qed.

(** The device's promise on a buffer [bs]: the bytes [snt] went out. *)
Definition sent (r : io_result_t) (snt bs : bytes) : Prop :=
  if bool_decide (r = IO_RESULT_OK) then 0 < zlen snt /\ exists rest, bs = snt ++ rest else snt = [].

Lemma write_bytes_sent (d : D) fd bs :
  0 < fd -> 0 < zlen bs ->
  exists r snt d', write_bytes d fd bs = Some (r, zlen snt, d')
    /\ dev_out d' = dev_out d ++ snt /\ sent r snt bs.
Proof.
  intros Hfd Hl. destruct (write_bytes_law d fd bs) as (r & n & d' & Hw & Ho & Hr); [done..|].
  exists r, (take (Z.to_nat n) bs), d'.
  assert (zlen (take (Z.to_nat n) bs) = n) as Hz.
  { unfold zlen in *. rewrite length_take. case_bool_decide; lia. }
  rewrite Hz. split; [done|]. split; [done|]. unfold sent. case_bool_decide.
  - rewrite Hz. split; [lia|]. exists (drop (Z.to_nat n) bs). by rewrite take_drop.
  - by subst.
Qed.

Lemma write_from_header_ok rw (d : D) a bs c :
  sb_ok (rw_sb rw) -> header_buffer (rw_sb rw) = a ++ bs ++ c -> 0 < zlen bs -> 0 < rw_fd rw ->
  exists r snt d', write_from_header rw d (zlen a) (zlen bs) = Some (r, zlen snt, d')
    /\ dev_out d' = dev_out d ++ snt /\ sent r snt bs.
Proof.
  intros Hok Hb Hl Hfd. unfold write_from_header.
  rewrite get_header_bytes_ok; [|done|auto with c3..|rewrite Hb, !zlen_app; pose proof (zlen_nonneg c); lia].
  cbn [mbind option_bind]. unfold hdr_load. rewrite Hb, slice_app_mid. by apply write_bytes_sent.
Qed.

Lemma write_from_payload_ok rw (d : D) a bs c :
  sb_ok (rw_sb rw) -> db_bytes (sb_payload (rw_sb rw)) = a ++ bs ++ c -> 0 < zlen bs -> 0 < rw_fd rw ->
  exists r snt d', write_from_payload rw d (zlen a) (zlen bs) = Some (r, zlen snt, d')
    /\ dev_out d' = dev_out d ++ snt /\ sent r snt bs.
Proof.
  intros (_ & Hp & _) Hb Hl Hfd. unfold write_from_payload, get_payload_bytes.
  destruct (db_ok_size _ Hp) as [Hs Hr']. rewrite Hb, !zlen_app in Hs.
  pose proof (zlen_nonneg a). pose proof (zlen_nonneg c).
  rewrite db_get_bytes_ok; [|done|auto with c3|lia..].
  cbn [mbind option_bind]. unfold payload_load. rewrite Hb, slice_app_mid. by apply write_bytes_sent.
Qed.

End Laws.
