(* ===== verification/EndToEnd.v ===== *)
(** * EndToEnd

    From the call of a chunk builder on one side to the chunks, password and
    payload seen by a command handler on the other: the header a builder makes is
    a well-formed command, so writer and reader transmit it. *)

From S2P Require Import Prelude Protocol Memory Buffers ChunkBuilder HeaderBuild ChunkIterator RoundTrip Devices Accessors MessageIO CommandIO.

(** ** The descriptor of a built header *)

Definition type_bits (b : HeaderChunkBuilder) : Z :=
  match hcb_kind b with
  | CommandHeader _ admin auth _ =>
      if auth then (if admin then DESC_ADMIN_AUTH else DESC_USER_AUTH) else DESC_NO_AUTH
  | k => rhcb_type k
  end.

Definition marker_bit (b : HeaderChunkBuilder) : Z :=
  let nc := cb_net_config b in
  match hcb_kind b with
  | CommandHeader _ _ _ _ =>
      let network := is_set (cb_container b) IO_FLAG_NETWORK in
      if (network && nc_command_integrity_check nc) || (negb network && nc_file_integrity_check nc)
      then DESC_MARKER_IS_PRESENT else 0
  | _ => if nc_response_integrity_check nc then RESP_MARKER_IS_PRESENT else 0
  end.

Definition compressed_bit (payload : option PayloadChunkBuilder) : Z :=
  match payload with
  | Some p => if pcb_compressor p =? CT_NONE then 0 else DESC_PAYLOAD_IS_COMPRESSED
  | None => 0
  end.

Definition payload_bits (payload : option PayloadChunkBuilder) : Z :=
  match payload with
  | Some p => size_mask (pcb_usize p) DESC_BYTE_PAYLOAD DESC_WORD_PAYLOAD DESC_DWORD_PAYLOAD
  | None => 0
  end.

Definition header_bits (payload : option PayloadChunkBuilder) (size n : Z) : Z :=
  if sized payload n then size_mask size DESC_BYTE_HEADER DESC_WORD_HEADER DESC_DWORD_HEADER else 0.

(** The fields of a descriptor do not overlap. *)
Lemma descriptor_fields t m c s p :
  In t [0; 1; 2; 3] -> In m [0; 0x80] -> In c [0; 0x40] -> In s [0; 4; 8; 12] ->
  In p [0; 0x10; 0x20; 0x30] ->
  let desc := Z.lor (Z.lor (Z.lor (Z.lor t m) c) s) p in
  Z.land desc DESC_AUTH_BITS = t /\ Z.land desc DESC_HEADER_BITS = s
  /\ Z.land desc DESC_PAYLOAD_BITS = p /\ Z.land desc DESC_PAYLOAD_IS_COMPRESSED = c
  /\ Z.land desc DESC_MARKER_IS_PRESENT = m.
Proof.
  intros Ht Hm Hc Hs Hp desc. subst desc.
  pose (P t m c s p := let desc := Z.lor (Z.lor (Z.lor (Z.lor t m) c) s) p in
    (Z.land desc DESC_AUTH_BITS =? t) && ((Z.land desc DESC_HEADER_BITS =? s)
    && ((Z.land desc DESC_PAYLOAD_BITS =? p) && ((Z.land desc DESC_PAYLOAD_IS_COMPRESSED =? c)
    && (Z.land desc DESC_MARKER_IS_PRESENT =? m))))).
  assert (forallb (fun t => forallb (fun m => forallb (fun c => forallb (fun s =>
    forallb (P t m c s) [0; 0x10; 0x20; 0x30]) [0; 4; 8; 12]) [0; 0x40]) [0; 0x80]) [0; 1; 2; 3]
    = true) as H by reflexivity.
  do 5 (rewrite forallb_forall in H; specialize (H _ ltac:(eassumption))).
  unfold P in H. zbool. done.
Qed.

Lemma size_bytes_bound n :
  0 <= n < 2 ^ 32 -> n < 2 ^ (8 * Z.of_nat (Z.to_nat (estimate_size_bytes n))).
Proof.
  intros Hn. pose proof (estimate_size_bytes_val n) as Hv. rewrite Z2Nat.id by lia. clear Hv.
  unfold estimate_size_bytes. repeat case_match; zbool; cbn; lia.
Qed.

Lemma size_bytes_fit n : 0 <= n < 2 ^ 32 -> le_val (le_bytes (Z.to_nat (estimate_size_bytes n)) n) = n.
Proof.
  intros Hn. rewrite le_val_le_bytes. apply Z.mod_small. pose proof (size_bytes_bound n Hn). lia.
Qed.

Lemma sized_false payload (chunks : bytes) :
  sized payload (zlen chunks) = false -> payload = None /\ chunks = [].
Proof.
  unfold sized. intros E. apply orb_false_iff in E as [E1 E2]. zbool. split; [by destruct payload|].
  apply zlen_pos_nil. lia.
Qed.

Section Layout.
Context (b : HeaderChunkBuilder) (payload : option PayloadChunkBuilder) (chunks : bytes).

Let size := zlen (fixed_layout b payload) + zlen chunks.
Let h := header_layout b payload chunks.

Definition layout_desc : Z :=
  Z.lor (Z.lor (Z.lor (Z.lor (type_bits b) (marker_bit b)) (compressed_bit payload))
               (header_bits payload size (zlen chunks))) (payload_bits payload).

Lemma descriptor_initializer_eq :
  get_descriptor_initializer b = Z.lor (type_bits b) (marker_bit b).
Proof.
  unfold get_descriptor_initializer, type_bits, marker_bit.
  destruct (hcb_kind b); case_match; by rewrite ?Z.lor_0_r.
Qed.

Lemma layout_eq :
  h = layout_desc ::
      (if sized payload (zlen chunks)
       then le_bytes (Z.to_nat (estimate_size_bytes size)) size else [])
      ++ fixed_layout b payload ++ chunks.
Proof.
  unfold h, header_layout, header_prefix, layout_desc, header_bits. fold size.
  unfold base_desc, payload_desc, compressed_bit, payload_bits.
  rewrite descriptor_initializer_eq.
  destruct (sized payload (zlen chunks)) eqn:E.
  - rewrite <- app_comm_cons, <- !app_assoc. destruct payload as [p|]; [|by rewrite !Z.lor_0_r].
    destruct (_ =? CT_NONE); by rewrite ?Z.lor_0_r.
  - unfold sized in E. apply orb_false_iff in E as [_ E]. destruct payload; [done|].
    by rewrite !Z.lor_0_r.
Qed.

Lemma layout_fields :
  Z.land layout_desc DESC_AUTH_BITS = type_bits b
  /\ Z.land layout_desc DESC_HEADER_BITS = header_bits payload size (zlen chunks)
  /\ Z.land layout_desc DESC_PAYLOAD_BITS = payload_bits payload
  /\ Z.land layout_desc DESC_PAYLOAD_IS_COMPRESSED = compressed_bit payload
  /\ Z.land layout_desc DESC_MARKER_IS_PRESENT = marker_bit b.
Proof.
  apply descriptor_fields.
  - unfold type_bits. destruct (hcb_kind b) as [? [] []| | | |]; cbn; tauto.
  - unfold marker_bit. repeat case_match; cbn; tauto.
  - unfold compressed_bit. repeat case_match; cbn; tauto.
  - unfold header_bits, size_mask. repeat case_match; cbn; tauto.
  - unfold payload_bits, size_mask. repeat case_match; cbn; tauto.
Qed.

Lemma layout_size_length :
  size_length layout_desc
  = if sized payload (zlen chunks) then estimate_size_bytes size else 0.
Proof.
  unfold size_length. destruct layout_fields as (_ & -> & _).
  unfold header_bits, size_mask, estimate_size_bytes. by repeat case_match.
Qed.

Lemma layout_payload_bytes :
  payload_size_bytes layout_desc = zlen (payload_layout payload (get_payload_size (hcb_sb b))).
Proof.
  unfold payload_size_bytes. destruct layout_fields as (_ & _ & -> & -> & _).
  unfold payload_bits, compressed_bit, payload_layout, size_mask, estimate_size_bytes.
  destruct payload as [p|]; [|done].
  destruct (pcb_compressor p =? CT_NONE); cbn [negb];
    repeat case_match; zlen; rewrite ?zlen_le_bytes; try done.
Qed.

Lemma layout_marker : marker_of h = if marker_bit b =? 0 then [] else [C3_INTEGRITY_MARKER].
Proof.
  unfold marker_of. rewrite layout_eq, byte_at_0.
  by destruct layout_fields as (_ & _ & _ & _ & ->).
Qed.

(** A built header states its own size; [sz] is the size of a header without one. *)
Lemma layout_size_of (sz : Z -> Z) :
  zlen h < 2 ^ 32 ->
  (sized payload (zlen chunks) = false -> sz layout_desc = zlen h) ->
  header_size_of sz h = Some (zlen h).
Proof.
  intros Hlt Hsz. unfold header_size_of. rewrite layout_eq, byte_at_0, <- layout_eq.
  cbn [mbind option_bind]. rewrite layout_size_length.
  destruct (sized payload (zlen chunks)) eqn:E; [|cbn; by rewrite Hsz].
  pose proof (estimate_size_bytes_val size) as Hv.
  pose proof (zlen_nonneg (fixed_layout b payload)). pose proof (zlen_nonneg chunks).
  destruct (_ =? 0) eqn:E0; zbool; [lia|]. rewrite layout_eq, E in Hlt |- *.
  rewrite zlen_cons, !zlen_app, zlen_size_bytes in Hlt |- *. fold size in Hlt |- *.
  unfold h_val. set (bs := le_bytes _ _) in *.
  assert (zlen bs = estimate_size_bytes size) as Hbs by apply zlen_size_bytes.
  replace (slice _ _ _) with (Some bs).
  - cbn [fmap option_fmap option_map mbind option_bind]. unfold bs. rewrite size_bytes_fit by lia.
    rewrite u32_small by (unfold is_u32; lia). f_equal. lia.
  - symmetry. rewrite <- Hbs. apply (slice_app_mid [layout_desc] bs).
Qed.

(** The bytes between the header size and the payload sizes. *)
Definition before_payload : bytes :=
  layout_desc :: (if sized payload (zlen chunks)
                  then le_bytes (Z.to_nat (estimate_size_bytes size)) size else [])
              ++ command_layout b ++ hash_layout b.

Lemma layout_split :
  h = before_payload ++ payload_layout payload (get_payload_size (hcb_sb b)) ++ chunks.
Proof.
  rewrite layout_eq. unfold before_payload, fixed_layout. by rewrite <- app_comm_cons, <- !app_assoc.
Qed.

(** The payload sizes and the compressor are found where they were put. *)
Lemma layout_payload_of ps :
  ps = get_payload_size (hcb_sb b) -> payload_ok payload ps ->
  match payload with
  | None => ps = 0
  | Some p => is_u8 (pcb_compressor p) /\ (pcb_compressor p = CT_NONE \/
      (pcb_compressor p < CT_NUMBER_OF_ELEMENTS /\ ps <> 0))
  end ->
  payload_of (zlen before_payload) h
  = Some (match payload with
          | None => (0, 0, CT_NONE)
          | Some p => (ps, pcb_usize p, pcb_compressor p)
          end).
Proof.
  intros Hps Hok Hc. unfold payload_of. rewrite layout_eq, byte_at_0, <- layout_eq.
  cbn [mbind option_bind]. destruct layout_fields as (_ & _ & -> & -> & _).
  rewrite layout_split, <- Hps. unfold payload_bits, compressed_bit, payload_layout.
  set (bp := before_payload). clearbody bp.
  destruct payload as [p|]; [|done]. cbn in Hok. destruct Hok as (Hu & H0 & Hrel).
  set (w := if _ =? DESC_BYTE_PAYLOAD then 1 else _).
  assert (w = estimate_size_bytes (pcb_usize p)) as Hw
    by (unfold w, size_mask, estimate_size_bytes; by repeat case_match).
  assert (size_mask (pcb_usize p) DESC_BYTE_PAYLOAD DESC_WORD_PAYLOAD DESC_DWORD_PAYLOAD
          =? DESC_NO_PAYLOAD = false) as -> by (unfold size_mask; by repeat case_match).
  rewrite Hw. set (W := Z.to_nat (estimate_size_bytes (pcb_usize p))).
  assert (forall v x y, 0 <= v <= pcb_usize p ->
    h_val (x ++ le_bytes W v ++ y) (zlen x) (estimate_size_bytes (pcb_usize p)) = Some v) as Hval.
  { intros v x y Hv. unfold h_val. rewrite <- (zlen_size_bytes (pcb_usize p) v).
    fold W. rewrite slice_app_mid. cbn. f_equal. rewrite le_val_le_bytes. apply Z.mod_small.
    pose proof (size_bytes_bound (pcb_usize p) Hu). unfold W. lia. }
  destruct (pcb_compressor p =? CT_NONE) eqn:Ec; zbool.
  - cbn [Z.eqb]. rewrite Hval by lia. cbn [mbind option_bind]. by rewrite Ec, Hrel.
  - cbn [Z.eqb DESC_PAYLOAD_IS_COMPRESSED]. destruct Hc as (Hu8 & [Hc|[Hc Hnz]]); [done|].
    rewrite u8_small by done.
    rewrite <- app_comm_cons, byte_at_app_mid. cbn [mbind option_bind].
    set (cc := pcb_compressor p) in *.
    assert (bp ++ cc :: (le_bytes W ps ++ le_bytes W (pcb_usize p)) ++ chunks
      = (bp ++ [cc]) ++ le_bytes W ps ++ le_bytes W (pcb_usize p) ++ chunks) as He1
      by (by rewrite <- !app_assoc).
    assert (bp ++ cc :: (le_bytes W ps ++ le_bytes W (pcb_usize p)) ++ chunks
      = (bp ++ cc :: le_bytes W ps) ++ le_bytes W (pcb_usize p) ++ chunks) as He2
      by (by rewrite <- !app_assoc).
    replace (zlen bp + 1) with (zlen (bp ++ [cc])) by (rewrite zlen_app; done).
    rewrite He1 at 1. rewrite Hval by lia. cbn [mbind option_bind].
    replace (zlen (bp ++ [cc]) + _) with (zlen (bp ++ cc :: le_bytes W ps))
      by (rewrite !zlen_app, !zlen_cons, zlen_nil; unfold W; rewrite zlen_size_bytes; lia).
    rewrite He2 at 1. rewrite Hval by lia. cbn [mbind option_bind].
    unfold CT_NONE, CT_NUMBER_OF_ELEMENTS, is_u8 in *.
    destruct (_ || _) eqn:E; [|done]. exfalso.
    repeat (apply orb_true_iff in E as [E|E]); zbool; lia.
Qed.

End Layout.

(** ** A built command *)

(** The payload builder agrees with the payload in the container: a compressed
    payload has a known compressor and is not empty. *)
Definition payload_described (payload : option PayloadChunkBuilder) (ps : Z) : Prop :=
  payload_ok payload ps /\
  match payload with
  | None => ps = 0
  | Some p => is_u8 (pcb_compressor p) /\ (pcb_compressor p = CT_NONE \/
      (pcb_compressor p < CT_NUMBER_OF_ELEMENTS /\ ps <> 0))
  end.

Section Command.
Context (b : HeaderChunkBuilder) (payload : option PayloadChunkBuilder) (chunks pl : bytes).
Context (cmd : command_t) (admin auth : bool) (hash : Z).
Hypothesis Hkind : hcb_kind b = CommandHeader cmd admin auth hash.
Hypothesis Hcmd : cmd <> CMD_INVALID.
Hypothesis Hsb : db_ok (sb_payload (hcb_sb b)).
Hypothesis Hpl : db_bytes (sb_payload (hcb_sb b)) = pl.
Hypothesis Hdesc : payload_described payload (zlen pl).

Let h := header_layout b payload chunks.
Let desc := layout_desc b payload chunks.
Hypothesis Hlt : zlen h < 2 ^ 32.

Lemma command_payload_size : zlen pl = get_payload_size (hcb_sb b).
Proof. unfold get_payload_size. destruct (db_ok_size _ Hsb) as [-> _]. by rewrite Hpl. Qed.

Lemma command_auth_bytes : auth_bytes desc = zlen (hash_layout b).
Proof.
  unfold auth_bytes, desc. destruct (layout_fields b payload chunks) as (-> & _).
  unfold type_bits, hash_layout, get_password_hash. rewrite Hkind. by destruct admin, auth.
Qed.

Lemma command_layout_eq : command_layout b = [command_code cmd].
Proof. unfold command_layout, get_command. rewrite Hkind. by rewrite decide_False. Qed.

Lemma command_before_payload :
  zlen (before_payload b payload chunks) = size_length desc + 2 + auth_bytes desc.
Proof.
  unfold before_payload. rewrite zlen_cons, !zlen_app, command_layout_eq, command_auth_bytes.
  unfold desc. rewrite layout_size_length. change (zlen [command_code cmd]) with 1.
  destruct (sized _ _); [rewrite zlen_size_bytes|rewrite zlen_nil]; lia.
Qed.

Lemma command_chunks_offset_eq :
  command_chunks_offset desc = zlen h - zlen chunks.
Proof.
  unfold command_chunks_offset, h. rewrite layout_split, !zlen_app, command_before_payload.
  unfold desc. rewrite layout_payload_bytes. lia.
Qed.

Lemma command_desc : byte_at h 0 = Some desc.
Proof. unfold h. by rewrite layout_eq, byte_at_0. Qed.

Lemma built_command_wf : command_wf h pl.
Proof.
  destruct Hdesc as [Hpok Hpd]. destruct (db_ok_size _ Hsb) as [_ Hr].
  pose proof command_payload_size as Hps. unfold get_payload_size in Hps.
  pose proof (layout_payload_of b payload chunks (zlen pl) command_payload_size Hpok Hpd) as Hp.
  exists desc.
  assert (exists u c, command_payload_of h = Some (zlen pl, u, c)) as (u & c & Hpo).
  { unfold command_payload_of. rewrite command_desc. cbn [mbind option_bind].
    rewrite <- command_before_payload. unfold h. rewrite Hp.
    destruct payload; [by do 2 eexists|]. rewrite Hpd. by do 2 eexists. }
  exists u, c. split; [apply command_desc|]. split.
  { apply layout_size_of; [done|]. intros E. fold desc. rewrite command_auth_bytes.
    destruct (sized_false _ _ E) as [-> ->].
    unfold h. rewrite layout_split, zlen_app. unfold before_payload. rewrite E.
    rewrite zlen_cons, !zlen_app, command_layout_eq. cbn -[zlen]. rewrite !zlen_nil.
    change (zlen [command_code cmd]) with 1. lia. }
  split; [done|]. split; [split; [|done]|lia].
  unfold h. rewrite layout_split, zlen_app, command_before_payload.
  pose proof (zlen_nonneg (payload_layout payload (get_payload_size (hcb_sb b)) ++ chunks)).
  assert (0 <= auth_bytes desc) by (unfold auth_bytes; destruct (_ =? 0); lia). lia.
Qed.

(** *** What a receiver of the command finds in it *)

Context (rw : ReaderWriter).
Hypothesis Hrec : received h pl rw.

Lemma received_command_id : get_command_id rw = Some (command_code cmd).
Proof.
  destruct Hrec as (Hst & Hok & (r & Hb) & _).
  unfold get_command_id, command_reader_io_completed, get_command_id_byte.
  rewrite bool_decide_true by done. cbn [c3_assert mbind option_bind].
  rewrite (size_length_of _ _ _ Hok Hb _ command_desc). cbn [mbind option_bind].
  apply (get_header_byte_at_of _ _ _ Hok Hb).
  unfold h. rewrite layout_split. unfold before_payload. rewrite command_layout_eq.
  unfold desc. rewrite layout_size_length, <- !app_comm_cons, <- !app_assoc.
  set (sz := if sized _ _ then le_bytes _ _ else []).
  replace ((if sized _ _ then _ else 0) + 1) with (zlen (layout_desc b payload chunks :: sz)).
  - apply (byte_at_app_mid (layout_desc b payload chunks :: sz)).
  - rewrite zlen_cons. unfold sz. destruct (sized _ _); [rewrite zlen_size_bytes|rewrite zlen_nil]; lia.
Qed.

Lemma received_pwd_hash :
  is_u64 hash ->
  get_command_pwd_hash (rw_sb rw)
  = Some (type_bits b, if auth then Some hash else None).
Proof.
  intros Hu. destruct Hrec as (Hst & Hok & (r & Hb) & _).
  unfold get_command_pwd_hash, get_auth_type, get_command_descriptor.
  rewrite (get_header_byte_at_of _ _ _ Hok Hb _ _ command_desc). cbn [mbind option_bind].
  destruct (layout_fields b payload chunks) as (Hty & _). fold desc in Hty. rewrite Hty.
  assert (type_bits b =? CPT_NO_PASSWORD = negb auth) as ->.
  { unfold type_bits. rewrite Hkind. by destruct admin, auth. }
  assert (auth = true \/ auth = false) as [Ha|Ha] by (destruct auth; tauto); rewrite Ha; [|done].
  cbn [negb].
  rewrite (size_length_of _ _ _ Hok Hb _ command_desc). cbn [mbind option_bind].
  rewrite (ulong_reader _ _ _ Hok Hb _ hash); [done|]. unfold h_val, h. rewrite layout_split.
  unfold before_payload. rewrite command_layout_eq.
  assert (hash_layout b = le_bytes 8 hash) as ->.
  { unfold hash_layout, get_password_hash. by rewrite Hkind, Ha. }
  unfold desc. rewrite layout_size_length, <- !app_comm_cons, <- !app_assoc.
  set (sz := if sized _ _ then le_bytes _ _ else []).
  replace ((if sized _ _ then _ else 0) + 2)
    with (zlen ((layout_desc b payload chunks :: sz) ++ [command_code cmd])).
  - replace (layout_desc b payload chunks :: sz ++ _)
      with (((layout_desc b payload chunks :: sz) ++ [command_code cmd]) ++ le_bytes 8 hash
            ++ payload_layout payload (get_payload_size (hcb_sb b)) ++ chunks)
      by (by rewrite <- !app_comm_cons, <- !app_assoc).
    rewrite (slice_app_mid _ (le_bytes 8 hash) _ : slice _ _ 8 = _). cbn [fmap option_fmap option_map]. f_equal.
    rewrite le_val_le_bytes. by apply Z.mod_small.
  - rewrite zlen_app, zlen_cons. unfold sz. change (zlen [_]) with 1.
    destruct (sized _ _); [rewrite zlen_size_bytes|rewrite zlen_nil]; lia.
Qed.

Lemma received_iterator :
  zlen h < UINT_MAX_VAL ->
  exists it, command_header_iterator rw = Some it /\ ci_remains it = zlen chunks
    /\ (0 < zlen chunks -> ci_offset it = zlen h - zlen chunks).
Proof.
  intros Hlt'. destruct Hrec as (Hst & Hok & (r & Hb) & _).
  pose proof built_command_wf as (desc' & u & c & Hd & Hs & _ & Hl & _).
  rewrite command_desc in Hd. injection Hd as <-.
  unfold command_header_iterator, command_reader_io_completed. rewrite bool_decide_true by done.
  cbn [negb]. pose proof (zlen_nonneg chunks). pose proof command_chunks_offset_eq as Hof.
  destruct (decide (size_length desc = 0)) as [Hz|Hz].
  - unfold command_get_header_info, get_command_descriptor.
    rewrite (get_header_byte_at_of _ _ _ Hok Hb _ _ command_desc). cbn [mbind option_bind].
    assert (Z.land desc DESC_HEADER_BITS =? DESC_NO_HEADER = true) as ->.
    { unfold size_length in Hz. by repeat case_match. }
    eexists; split; [done|]. cbn.
    assert (zlen chunks = 0) as ->; [|lia]. unfold desc in Hz. rewrite layout_size_length in Hz.
    destruct (sized payload (zlen chunks)) eqn:E.
    + pose proof (estimate_size_bytes_val (zlen (fixed_layout b payload) + zlen chunks)). lia.
    + destruct (sized_false _ _ E) as [_ ->]. done.
  - rewrite (command_header_info_ok _ _ _ Hok Hb desc (zlen h)); [|apply command_desc|done|done|done|lia].
    cbn [mbind option_bind]. rewrite Hof. eexists; split; [done|].
    destruct (_ <? zlen h) eqn:E; zbool; cbn; lia.
Qed.

Lemma received_chunks chs :
  zlen h < UINT_MAX_VAL -> chunks = concat (encode_chunk <$> chs) -> Forall chunk_ok chs ->
  (it ← command_header_iterator rw; read_chunks (S (length chs)) (rw_sb rw) it) = Some chs.
Proof.
  intros Hlt' Hch HF. destruct (received_iterator Hlt') as (it & -> & Hr & Ho).
  destruct Hrec as (Hst & Hok & (r & Hb) & _). cbn [mbind option_bind].
  destruct chs as [|c0 chs].
  { subst chunks. cbn in Hr. cbn. unfold read_chunk, get_next_chunk_type. by rewrite Hr. }
  assert (0 < zlen chunks) as Hpos.
  { rewrite Hch. cbn. rewrite zlen_app. apply Forall_cons in HF as [Hc0 _].
    pose proof (zlen_encode_chunk_pos c0 Hc0). pose proof (zlen_nonneg (concat (encode_chunk <$> chs))). lia. }
  specialize (Ho Hpos).
  set (a := before_payload b payload chunks ++ payload_layout payload (get_payload_size (hcb_sb b))).
  assert (h = a ++ chunks) as Hh by (unfold h, a; by rewrite layout_split, app_assoc).
  assert (zlen h = zlen a + zlen chunks) as Hzh by (by rewrite Hh, zlen_app).
  apply (read_chunks_ok (rw_sb rw) Hok (c0 :: chs) it a r HF).
  - lia.
  - by rewrite Hb, Hh, <- Hch, <- app_assoc.
  - by rewrite Hr, Hch.
  - rewrite <- Hch. lia.
Qed.

End Command.

(** ** Building from data *)

(** The builder call for a chunk; a list is first put together by its own builder. *)
Definition make_item (junk : nat -> Z) (m : Memory) (c : chunk) : option hdr_item :=
  match c with
  | CNumber n => Some (INumber n)
  | CString s => Some (IString s)
  | CList ss => h ← build_list junk m ss; Some (IList h)
  end.

(** A client that builds a command from its data. *)
Definition build_command (junk : nat -> Z) (m : Memory) (rw : ReaderWriter)
    (nc : NetworkConfiguration) (cmd : command_t) (admin : bool)
    (payload : option PayloadChunkBuilder) (chs : list chunk) : option ReaderWriter :=
  items ← mapM (make_item junk m) chs;
  b ← command_builder rw nc cmd admin;
  b ← build_header junk b payload items;
  Some (cb_container b).

(** The state of a command builder before the first call. *)
Definition new_command (rw : ReaderWriter) (nc : NetworkConfiguration) (cmd : command_t)
    (admin : bool) : HeaderChunkBuilder :=
  let hash := if admin then nc_admin_password nc else nc_user_password nc in
  mkHeaderChunkBuilder rw nc
    (CommandHeader cmd admin (negb (hash =? INVALID_HASH_VALUE)) hash) 0 0.

Definition chunks_bytes (chs : list chunk) : bytes := concat (encode_chunk <$> chs).

Lemma make_items_ok junk m chs :
  Forall chunk_ok chs -> zlen (chunks_bytes chs) < 2 ^ 32 ->
  exists items, mapM (make_item junk m) chs = Some items
    /\ Forall2 item_encodes items (encode_chunk <$> chs).
Proof.
  unfold chunks_bytes. induction 1 as [|c chs Hc HF IH]; intros Hlt; [by exists []|].
  cbn [fmap list_fmap concat] in Hlt. rewrite zlen_app in Hlt.
  pose proof (zlen_nonneg (concat (encode_chunk <$> chs))). pose proof (zlen_nonneg (encode_chunk c)).
  destruct IH as (items & He & HF2); [lia|].
  assert (exists i, make_item junk m c = Some i /\ item_encodes i (encode_chunk c)) as (i & Hi & Hie).
  { destruct c as [n|s|ss]; cbn in *; [by eexists|by eexists|].
    destruct (build_list_ok junk m ss) as (h & -> & Hb & Hu & _); [lia|].
    eexists; split; [done|]. cbn. split_and!; [done..|].
    apply (zlen_encode_chunk_pos (CList ss) I). }
  exists (i :: items). cbn. rewrite Hi. cbn. rewrite He. split; [done|]. by constructor.
Qed.

(** Hypotheses on a writer that is given a command to build. *)
Record can_build (rw : ReaderWriter) (nc : NetworkConfiguration) (cmd : command_t) (admin : bool)
    (payload : option PayloadChunkBuilder) (chs : list chunk) (pl : bytes) : Prop := {
  cbu_fresh : fresh_writer rw;
  cbu_command : is_clear rw IO_FLAG_IS_RESPONSE = true;
  cbu_fd : 0 < rw_fd rw;
  cbu_cmd : cmd <> CMD_INVALID;
  cbu_payload : db_bytes (sb_payload (rw_sb rw)) = pl;
  cbu_described : payload_described payload (zlen pl);
  cbu_chunks : Forall chunk_ok chs;
  cbu_size : zlen (header_layout (new_command rw nc cmd admin) payload (chunks_bytes chs)) < UINT_MAX_VAL;
}.

Section Build.
Context (junk : nat -> Z) (m : Memory) (rw : ReaderWriter) (nc : NetworkConfiguration).
Context (cmd : command_t) (admin : bool) (payload : option PayloadChunkBuilder).
Context (chs : list chunk) (pl : bytes).
Hypothesis Hcan : can_build rw nc cmd admin payload chs pl.

Let h := header_layout (new_command rw nc cmd admin) payload (chunks_bytes chs).

Lemma can_build_pl : zlen pl = get_payload_size (rw_sb rw) /\ db_ok (sb_payload (rw_sb rw)).
Proof.
  destruct Hcan as [(Hok & _) _ _ _ Hpl _ _ _]. destruct Hok as (_ & Hd & _). split; [|done].
  unfold get_payload_size. destruct (db_ok_size _ Hd) as [-> _]. by rewrite Hpl.
Qed.

(** The built writer is ready and holds the header layout and the payload. *)
Lemma build_command_holds :
  exists w, build_command junk m rw nc cmd admin payload chs = Some w
    /\ holds h pl w /\ sending h pl w (command_bytes h pl).
Proof.
  pose proof can_build_pl as [Hps Hpd]. destruct Hcan as [Hf Hr Hfd Hc Hpl [Hpok Hdes] HF Hlt].
  unfold UINT_MAX_VAL in Hlt. unfold build_command.
  assert (zlen (chunks_bytes chs) < 2 ^ 32) as Hcl.
  { revert Hlt. unfold header_layout. rewrite zlen_app.
    match goal with |- zlen ?x + _ < _ -> _ => pose proof (zlen_nonneg x) end. lia. }
  destruct (make_items_ok junk m chs HF Hcl) as (items & -> & HF2). cbn [mbind option_bind].
  destruct (build_command_ok junk rw nc cmd admin payload items (encode_chunk <$> chs))
    as (b & Hb & Hbuild); [done|done|done|by rewrite <- Hps|done|].
  rewrite Hb. cbn [mbind option_bind].
  assert (b = new_command rw nc cmd admin) as ->.
  { unfold command_builder in Hb. inv_opt. done. }
  destruct Hbuild as (b' & rest & -> & Hok & Hhb & Hcb & Hpb); [unfold chunks_bytes in Hlt; lia|].
  cbn [mbind option_bind]. eexists; split; [done|].
  rewrite Hcb. split; [|by constructor]. unfold holds, reader_ok. cbn.
  split_and!; [done|done|by exists rest|by rewrite Hpb].
Qed.

Lemma build_command_wf : command_wf h pl.
Proof.
  pose proof can_build_pl as [Hps Hpd]. destruct Hcan as [Hf Hr Hfd Hc Hpl Hdes HF Hlt].
  unfold UINT_MAX_VAL in Hlt.
  eapply built_command_wf; [done|done|done|done|done|lia].
Qed.

(** What a command handler sees in a reader that has received the command. *)
Definition handler_sees (rwr : ReaderWriter) : Prop :=
  let hash := if admin then nc_admin_password nc else nc_user_password nc in
  get_command_id rwr = Some (command_code cmd)
  /\ get_command_pwd_hash (rw_sb rwr)
     = Some (if hash =? INVALID_HASH_VALUE then (CPT_NO_PASSWORD, None)
             else (if admin then CPT_ADMIN_PASSWORD else CPT_USER_PASSWORD, Some hash))
  /\ (it ← command_header_iterator rwr; read_chunks (S (length chs)) (rw_sb rwr) it) = Some chs
  /\ db_bytes (sb_payload (rw_sb rwr)) = pl.

Lemma received_handler_sees rwr :
  is_u64 (nc_admin_password nc) -> is_u64 (nc_user_password nc) ->
  received h pl rwr -> handler_sees rwr.
Proof.
  intros Ha Hu Hrec. pose proof can_build_pl as [Hps Hpd].
  destruct Hcan as [Hf Hr Hfd Hc Hpl Hdes HF Hlt]. fold h in Hlt.
  assert (zlen h < 2 ^ 32) as Hlt' by (unfold UINT_MAX_VAL in Hlt; lia). unfold handler_sees. split_and!.
  - by apply (received_command_id (new_command rw nc cmd admin) _ _ _ _ _ _ _ eq_refl Hc _ Hrec).
  - rewrite (received_pwd_hash (new_command rw nc cmd admin) _ _ _ _ _ _ _ eq_refl Hc _ Hrec) by (by destruct admin).
    unfold type_bits, new_command. cbn [hcb_kind].
    destruct (_ =? INVALID_HASH_VALUE); by destruct admin.
  - by apply (received_chunks (new_command rw nc cmd admin) _ _ _ _ _ _ _ eq_refl Hc Hpd Hpl Hdes Hlt' _ Hrec).
  - by destruct Hrec as (_ & _ & _ & ->).
Qed.

End Build.

Lemma command_bytes_len h pl : command_wf h pl -> zlen (command_bytes h pl) < 2 ^ 64.
Proof.
  intros (desc & u & c & _ & _ & _ & Hl & Hp). unfold command_bytes. rewrite !zlen_app.
  assert (zlen (marker_of h) <= 1) by (unfold marker_of; repeat case_match; done). lia.
Qed.

(** ** Properties *)

(** (C1) End to end: a command built from a command code, a password choice, a
    payload and any list of numbers, strings and string lists is built without a
    failing assertion; sending it, in however many calls and fragments the
    device imposes, never fails an assertion, and when it succeeds exactly the
    command's bytes were sent; receiving those bytes, again in any number of
    calls and fragments and with any bytes following, never fails an assertion,
    and when it succeeds the handler sees the same command, password hash, data
    and payload, and the bytes that follow are left in the stream. *)
Theorem command_end_to_end {D : Type} `{DeviceLaws D} {E : Type} `{DeviceLaws E}
    (junk junk' : nat -> Z) m rw nc cmd admin payload chs pl :
  can_build rw nc cmd admin payload chs pl ->
  is_u64 (nc_admin_password nc) -> is_u64 (nc_user_password nc) ->
  let msg := command_bytes (header_layout (new_command rw nc cmd admin) payload (chunks_bytes chs)) pl in
  exists w, build_command junk m rw nc cmd admin payload chs = Some w
  /\ (forall (d : D) calls fuel, (length msg < fuel)%nat ->
        exists r w' d' n, retry (command_write fuel) calls w d = Some (r, w', d', n)
          /\ (r = IO_RESULT_OK -> dev_out d' = dev_out d ++ msg /\ n = zlen msg))
  /\ (forall rwr (d : E) tail calls fuel,
        reader_ok rwr -> rw_state rwr = IO_STATE_CREATED ->
        using_static_header (rw_sb rwr) = true -> get_payload_size (rw_sb rwr) = 0 ->
        dev_in d = msg ++ tail -> (length msg < fuel)%nat ->
        exists r rwr' d' n, retry (command_read junk' fuel) calls rwr d = Some (r, rwr', d', n)
          /\ (r = IO_RESULT_OK ->
              handler_sees nc cmd admin chs pl rwr' /\ dev_in d' = tail /\ n = zlen msg)).
Proof.
  intros Hcan Ha Hu msg.
  destruct (build_command_holds junk m _ _ _ _ _ _ _ Hcan) as (w & Hw & Hh & Hs).
  pose proof (build_command_wf _ _ _ _ _ _ _ Hcan) as Hwf. exists w. split; [done|].
  assert (zlen msg < 2 ^ 64) as Hlt by by apply command_bytes_len.
  split.
  - intros d calls fuel Hf.
    destruct (write_retry_ok _ _ Hwf fuel calls w d msg) as (r & w' & d' & n & He & Hp); [done..|].
    exists r, w', d', n. split; [done|]. intros ->.
    destruct Hp as (bs & todo & Hm & Ho & -> & -> & _). rewrite app_nil_r in Hm. by rewrite Ho, Hm.
  - intros rwr d tail calls fuel Hok Hst Hsh Hps Hin Hf.
    destruct (read_retry_ok junk' _ _ tail Hwf fuel calls rwr d msg) as (r & rw' & d' & n & He & Hp);
      [done|constructor; auto|done|done|done|].
    exists r, rw', d', n. split; [done|]. intros ->. destruct Hp as (-> & Hrec & Hd).
    split_and!; [|done|done]. by eapply received_handler_sees.
Qed.

(** ** A concrete exchange *)

Module Exchange.

Definition zeros (_ : nat) : Z := 0.
Definition mem : Memory := mkMemory 0 0 DOMAIN_FPC.
Definition nc : NetworkConfiguration :=
  mkNetworkConfiguration 0x1122334455667788 7 0 2048 CT_SNAPPY CT_LZF CT_ZSTD true true true.

Definition payload_data : bytes := [1; 2; 3; 4; 5].
Definition sb : SharedBuffers :=
  mkSharedBuffers mem empty_db (mkDataBuffer (Some payload_data) 5) (fresh zeros 12) 1.
Definition writer : ReaderWriter :=
  mkReaderWriter sb 3 0 0 0 DOMAIN_FPC IO_STATE_CREATED IO_FLAG_NETWORK.
Definition reader : ReaderWriter :=
  mkReaderWriter (sb_init zeros mem) 4 0 0 0 DOMAIN_FPC IO_STATE_CREATED
    (Z.lor IO_FLAG_IS_READER IO_FLAG_NETWORK).

Definition chunks : list chunk :=
  [CNumber 5; CNumber (-1000); CString [97; 98; 99]; CList [[120]; []; [121; 122]]].
(** A payload compressed from 80 to 5 bytes. *)
Definition payload : option PayloadChunkBuilder :=
  Some (mkPayloadChunkBuilder 80 2048 CT_LZ4).

Definition msg : bytes :=
  command_bytes (header_layout (new_command writer nc CMD_SAVE false) payload (chunks_bytes chunks))
    payload_data.

(** The reader's end of the connection: fragments and pauses. *)
Definition peer : SocketDevice Peer :=
  Socket (mkPeer (msg ++ [9; 9]) [] [Move 0; Fails EAGAIN; Move 2; Move 7; Fails EAGAIN; Move 1]).

Lemma can_send : can_build writer nc CMD_SAVE false payload chunks payload_data.
Proof.
  constructor; try done.
  - split; [by split_and!|]. split; [done|]. by right.
  - repeat constructor; done.
Defined.

Lemma reader_fresh : reader_ok reader.
Proof. by split. Defined.

End Exchange.

(** A command with a compressed payload, received in six fragments with two
    pauses: the handler sees what was built, and two bytes are left. *)
Lemma command_end_to_end_witness :
  exists rwr d n,
    retry (command_read Exchange.zeros 100) 5 Exchange.reader Exchange.peer
      = Some (IO_RESULT_OK, rwr, d, n)
    /\ handler_sees Exchange.nc CMD_SAVE false Exchange.chunks Exchange.payload_data rwr
    /\ dev_in d = [9; 9].
Proof.
  destruct (command_end_to_end (D := FileDevice Peer) (E := SocketDevice Peer)
    Exchange.zeros Exchange.zeros Exchange.mem Exchange.writer Exchange.nc CMD_SAVE false
    Exchange.payload Exchange.chunks Exchange.payload_data Exchange.can_send ltac:(done) ltac:(done))
    as (w & _ & _ & Hr).
  assert (length Exchange.msg < 100)%nat as Hf by (vm_compute; lia).
  destruct (Hr Exchange.reader Exchange.peer [9; 9] 5%nat 100%nat Exchange.reader_fresh
    eq_refl eq_refl eq_refl eq_refl Hf) as (r & rwr & d & n & He & Hp).
  exists rwr, d, n. assert (r = IO_RESULT_OK) as ->.
  { vm_compute in He. by injection He. }
  split; [exact He|]. destruct (Hp eq_refl) as (Hs & Hd & _). exact (conj Hs Hd).
Defined.
