(* ===== verification/ResponseIO.v ===== *)
(** * ResponseIO

    [ResponseReader] and [ResponseWriter] ([io_response_handlers.h/.cc]): the
    automata that receive and send a response through a device, in as many calls
    as the device needs. They differ from those of commands in what a header
    without a size means, and in that a reader that got only a part of the
    payload returns to its caller instead of trying again. *)

From S2P Require Import Prelude Protocol Memory Buffers ChunkBuilder HeaderBuild ChunkIterator Devices Accessors MessageIO CommandIO.

Section Automata.
Context {D : Type} `{DeviceReaderWriter D} (junk : nat -> Z).

(** ** [ResponseReader] *)

(** The state that reads the descriptor byte. *)
Definition response_read_descriptor (rw : ReaderWriter) (d : D) (ntotal : Z) : option (turn D) :=
  '(r, nread, rw, d) ← read_into_header rw d 0 1;
  match r with
  | IO_RESULT_OK =>
      _ ← c3_assert (nread =? 1);
      let ntotal := u64 (ntotal + 1) in
      remains ← get_response_header_data_size_length (rw_sb rw);
      if remains =? 0 then
        type ← get_response_type (rw_sb rw);
        if type =? RESP_TYPE_OK then
          Some (Continue (rw_at rw 1 remains IO_STATE_RESPONSE_READ_MARKER_BYTE) d ntotal)
        else None
      else Some (Continue (rw_at rw 1 remains IO_STATE_RESPONSE_READ_HEADER_SIZE_BYTES) d ntotal)
  | r => Some (Return r (after_failure r rw) d ntotal)
  end.

(** One turn of the loop of [ResponseReader::read]. *)
Definition response_read_turn (rw : ReaderWriter) (d : D) (ntotal : Z) : option (turn D) :=
  match rw_state rw with
  | IO_STATE_CREATED =>
      response_read_descriptor (rw_with_state rw IO_STATE_RESPONSE_READ_DESCRIPTOR) d ntotal
  | IO_STATE_RESPONSE_READ_DESCRIPTOR => response_read_descriptor rw d ntotal
  | IO_STATE_RESPONSE_READ_HEADER_SIZE_BYTES =>
      '(r, nread, rw, d) ← read_into_header rw d (rw_pos rw) (rw_remains rw);
      match r with
      | IO_RESULT_OK =>
          let ntotal := u64 (ntotal + nread) in
          let pos := u32 (rw_pos rw + nread) in
          if nread =? rw_remains rw then
            full_header_size ← get_response_header_size (rw_sb rw);
            _ ← c3_assert (pos <? full_header_size);
            sb ← sb_configure_header junk (rw_sb rw) pos full_header_size;
            Some (Continue (rw_at (rw_with_sb rw sb) pos (u32 (full_header_size - pos))
                              IO_STATE_RESPONSE_READ_HEADER_BYTES) d ntotal)
          else Some (Continue (rw_at rw pos (u32 (rw_remains rw - nread)) (rw_state rw)) d ntotal)
      | r => Some (Return r (after_failure r rw) d ntotal)
      end
  | IO_STATE_RESPONSE_READ_HEADER_BYTES =>
      '(r, nread, rw, d) ← read_into_header rw d (rw_pos rw) (rw_remains rw);
      match r with
      | IO_RESULT_OK =>
          let ntotal := u64 (ntotal + nread) in
          if nread =? rw_remains rw then
            '(ok, pi) ← response_get_payload_info (rw_sb rw);
            if ok && (0 <? pi_size pi) then
              _ ← c3_assert (negb (pi_has_errors pi));
              sb ← set_payload_size junk (rw_sb rw) (pi_size pi);
              Some (Continue (rw_at (rw_with_sb rw sb) 0 (pi_size pi)
                                IO_STATE_RESPONSE_READ_PAYLOAD_BYTES) d ntotal)
            else if pi_has_errors pi then
              Some (Return IO_RESULT_ERROR (rw_with_state rw IO_STATE_ERROR) d ntotal)
            else Some (Continue (rw_with_state rw IO_STATE_RESPONSE_READ_MARKER_BYTE) d ntotal)
          else Some (Continue (rw_at rw (u32 (rw_pos rw + nread)) (u32 (rw_remains rw - nread))
                                 (rw_state rw)) d ntotal)
      | r => Some (Return r (after_failure r rw) d ntotal)
      end
  | IO_STATE_RESPONSE_READ_PAYLOAD_BYTES =>
      '(r, nread, rw, d) ← read_into_payload rw d (rw_pos rw) (rw_remains rw);
      match r with
      | IO_RESULT_OK =>
          let ntotal := u64 (ntotal + nread) in
          if nread =? rw_remains rw then
            Some (Continue (rw_with_state rw IO_STATE_RESPONSE_READ_MARKER_BYTE) d ntotal)
          else Some (Return IO_RESULT_RETRY (rw_at rw (u32 (rw_pos rw + nread)) (u32 (rw_remains rw - nread))
                                 (rw_state rw)) d ntotal)
      | r => Some (Return r (after_failure r rw) d ntotal)
      end
  | IO_STATE_RESPONSE_READ_MARKER_BYTE =>
      let done := rw_at rw UINT_MAX_VAL 0 IO_STATE_RESPONSE_READ_DONE in
      present ← response_marker_is_present (rw_sb rw);
      if present : bool then
        '(r, bs, d) ← read_bytes d (rw_fd rw) 1;
        match r with
        | IO_RESULT_OK =>
            let ntotal := u64 (ntotal + 1) in
            marker ← head bs;
            if marker =? C3_INTEGRITY_MARKER then Some (Return IO_RESULT_OK done d ntotal)
            else Some (Return IO_RESULT_ERROR (rw_with_state rw IO_STATE_ERROR) d ntotal)
        | r => Some (Return r (after_failure r rw) d ntotal)
        end
      else Some (Return IO_RESULT_OK done d ntotal)
  | _ => None
  end.

Fixpoint response_read_loop (fuel : nat) (rw : ReaderWriter) (d : D) (ntotal : Z)
  : option (io_result_t * ReaderWriter * D * Z) :=
  match fuel with
  | O => None
  | S fuel =>
      t ← response_read_turn rw d ntotal;
      match t with
      | Continue rw d ntotal => response_read_loop fuel rw d ntotal
      | Return r rw d ntotal => Some (r, rw, d, ntotal)
      end
  end.

(** [ResponseReader::read(ntotal)] *)
Definition response_read (fuel : nat) (rw : ReaderWriter) (d : D)
  : option (io_result_t * ReaderWriter * D * Z) :=
  response_read_loop fuel rw d 0.

Definition response_reader_io_completed (rw : ReaderWriter) : bool :=
  bool_decide (rw_state rw = IO_STATE_RESPONSE_READ_DONE).

(** [ResponseReader::get_type] *)
Definition response_reader_get_type (rw : ReaderWriter) : option response_type_t :=
  _ ← c3_assert (response_reader_io_completed rw); get_translated_response_type (rw_sb rw).

(** Constructor of [ResponseHeaderIterator]. *)
Definition response_header_iterator (rw : ReaderWriter) : option ChunkIterator :=
  info ← response_get_header_info (rw_sb rw);
  type ← response_reader_get_type rw;
  Some (if bool_decide (type = RESPONSE_INVALID) || bool_decide (type = RESPONSE_OK)
        then ci_invalidate else header_chunk_iterator info).

(** ** [ResponseWriter] *)

(** One turn of the loop of [ResponseWriter::write]; [c3_begin_data_block] and
    [c3_end_data_block] set a socket option and move no data. *)
Definition response_write_header (rw : ReaderWriter) (d : D) (ntotal : Z) : option (turn D) :=
  '(r, nwritten, d) ← write_from_header rw d (rw_pos rw) (rw_remains rw);
  match r with
  | IO_RESULT_OK =>
      let ntotal := u64 (ntotal + nwritten) in
      if nwritten =? rw_remains rw then
        let remains := get_payload_size (rw_sb rw) in
        if 0 <? remains then
          Some (Continue (rw_at rw 0 remains IO_STATE_RESPONSE_WRITE_PAYLOAD) d ntotal)
        else
          Some (Continue (rw_at rw (rw_pos rw) remains IO_STATE_RESPONSE_WRITE_MARKER_BYTE) d ntotal)
      else Some (Continue (rw_at rw (u32 (rw_pos rw + nwritten)) (u32 (rw_remains rw - nwritten))
                             (rw_state rw)) d ntotal)
  | r => Some (Return r (after_failure r rw) d ntotal)
  end.

Definition response_write_turn (rw : ReaderWriter) (d : D) (ntotal : Z) : option (turn D) :=
  match rw_state rw with
  | IO_STATE_RESPONSE_WRITE_READY =>
      remains ← get_response_header_size (rw_sb rw);
      response_write_header (rw_at rw 0 remains IO_STATE_RESPONSE_WRITE_HEADER) d ntotal
  | IO_STATE_RESPONSE_WRITE_HEADER => response_write_header rw d ntotal
  | IO_STATE_RESPONSE_WRITE_PAYLOAD =>
      '(r, nwritten, d) ← write_from_payload rw d (rw_pos rw) (rw_remains rw);
      match r with
      | IO_RESULT_OK =>
          let ntotal := u64 (ntotal + nwritten) in
          if nwritten =? rw_remains rw then
            Some (Continue (rw_with_state rw IO_STATE_RESPONSE_WRITE_MARKER_BYTE) d ntotal)
          else Some (Continue (rw_at rw (u32 (rw_pos rw + nwritten)) (u32 (rw_remains rw - nwritten))
                                 (rw_state rw)) d ntotal)
      | r => Some (Return r (after_failure r rw) d ntotal)
      end
  | IO_STATE_RESPONSE_WRITE_MARKER_BYTE =>
      let done := rw_at rw UINT_MAX_VAL 0 IO_STATE_RESPONSE_WRITE_DONE in
      present ← response_marker_is_present (rw_sb rw);
      if present : bool then
        '(r, _, d) ← write_bytes d (rw_fd rw) [C3_INTEGRITY_MARKER];
        match r with
        | IO_RESULT_OK => Some (Return IO_RESULT_OK done d (u64 (ntotal + 1)))
        | r => Some (Return r (after_failure r rw) d ntotal)
        end
      else Some (Return IO_RESULT_OK done d ntotal)
  | IO_STATE_ERROR => Some (Return IO_RESULT_ERROR rw d ntotal)
  | _ => None
  end.

Fixpoint response_write_loop (fuel : nat) (rw : ReaderWriter) (d : D) (ntotal : Z)
  : option (io_result_t * ReaderWriter * D * Z) :=
  match fuel with
  | O => None
  | S fuel =>
      t ← response_write_turn rw d ntotal;
      match t with
      | Continue rw d ntotal => response_write_loop fuel rw d ntotal
      | Return r rw d ntotal => Some (r, rw, d, ntotal)
      end
  end.

(** [ResponseWriter::write(ntotal)] *)
Definition response_write (fuel : nat) (rw : ReaderWriter) (d : D)
  : option (io_result_t * ReaderWriter * D * Z) :=
  response_write_loop fuel rw d 0.

Definition response_writer_io_completed (rw : ReaderWriter) : bool :=
  bool_decide (rw_state rw = IO_STATE_RESPONSE_WRITE_DONE).

End Automata.

(** ** A well-formed response *)

(** [response_wf h pl]: [h] is a header that states its own size and the size of
    the payload [pl], or the descriptor of an "OK" response. *)
Definition response_wf (h pl : bytes) : Prop :=
  exists desc u c,
    byte_at h 0 = Some desc /\ response_header_size_of h = Some (zlen h)
    /\ (if size_length desc =? 0 then Z.land desc RESP_TYPE_BITS = RESP_TYPE_OK /\ pl = []
        else response_payload_of h = Some (zlen pl, u, c) /\ 1 + size_length desc < zlen h)
    /\ zlen h < 2 ^ 32 /\ zlen pl < 2 ^ 32.

(** The bytes of the response on the wire. *)
Definition response_bytes (h pl : bytes) : bytes := h ++ pl ++ marker_of h.

(** ** Receiving a well-formed response *)

(** [resp_receiving h pl rw todo]: the reader has received the response up to the bytes
    [todo], and its buffers hold what was received. *)
Inductive resp_receiving (h pl : bytes) (rw : ReaderWriter) : bytes -> Prop :=
| resp_recv_start :
    rw_state rw = IO_STATE_CREATED \/ rw_state rw = IO_STATE_RESPONSE_READ_DESCRIPTOR ->
    using_static_header (rw_sb rw) = true -> get_payload_size (rw_sb rw) = 0 ->
    resp_receiving h pl rw (response_bytes h pl)
| resp_recv_size desc dn r todo :
    rw_state rw = IO_STATE_RESPONSE_READ_HEADER_SIZE_BYTES ->
    using_static_header (rw_sb rw) = true -> get_payload_size (rw_sb rw) = 0 ->
    byte_at h 0 = Some desc -> h = dn ++ todo -> 0 < zlen dn ->
    header_buffer (rw_sb rw) = dn ++ r -> rw_pos rw = zlen dn ->
    rw_remains rw = 1 + size_length desc - zlen dn -> 0 < rw_remains rw ->
    resp_receiving h pl rw (todo ++ pl ++ marker_of h)
| resp_recv_header dn r todo :
    rw_state rw = IO_STATE_RESPONSE_READ_HEADER_BYTES -> get_payload_size (rw_sb rw) = 0 ->
    h = dn ++ todo -> header_buffer (rw_sb rw) = dn ++ r -> zlen todo <= zlen r ->
    rw_pos rw = zlen dn -> rw_remains rw = zlen todo -> 0 < zlen todo -> 0 < zlen dn ->
    resp_receiving h pl rw (todo ++ pl ++ marker_of h)
| resp_recv_payload r dn todo q :
    rw_state rw = IO_STATE_RESPONSE_READ_PAYLOAD_BYTES ->
    header_buffer (rw_sb rw) = h ++ r -> pl = dn ++ todo ->
    db_bytes (sb_payload (rw_sb rw)) = dn ++ q -> zlen q = zlen todo ->
    rw_pos rw = zlen dn -> rw_remains rw = zlen todo -> 0 < zlen todo ->
    resp_receiving h pl rw (todo ++ marker_of h)
| resp_recv_marker r :
    rw_state rw = IO_STATE_RESPONSE_READ_MARKER_BYTE ->
    header_buffer (rw_sb rw) = h ++ r -> db_bytes (sb_payload (rw_sb rw)) = pl ->
    resp_receiving h pl rw (marker_of h).

(** The reader holds the complete response. *)
Definition resp_received (h pl : bytes) (rw : ReaderWriter) : Prop :=
  rw_state rw = IO_STATE_RESPONSE_READ_DONE /\ sb_ok (rw_sb rw)
  /\ (exists r, header_buffer (rw_sb rw) = h ++ r) /\ db_bytes (sb_payload (rw_sb rw)) = pl.

Section Receive.
Context {D : Type} `{DeviceLaws D} (junk : nat -> Z).
Context (h pl tail : bytes) (Hwf : response_wf h pl).

(** What one turn, or a whole call, does to a reader that still expects [todo]. *)
Definition resp_turn_post (todo : bytes) (n : Z) (t : turn D) : Prop :=
  match t with
  | Continue rw' d' n' =>
      exists bs todo', todo = bs ++ todo' /\ 0 < zlen bs /\ n' = u64 (n + zlen bs)
        /\ reader_ok rw' /\ resp_receiving h pl rw' todo' /\ dev_in d' = todo' ++ tail
  | Return IO_RESULT_OK rw' d' n' =>
      n' = u64 (n + zlen todo) /\ resp_received h pl rw' /\ dev_in d' = tail
  | Return IO_RESULT_RETRY rw' d' n' =>
      exists bs todo', todo = bs ++ todo' /\ n' = u64 (n + zlen bs)
        /\ reader_ok rw' /\ resp_receiving h pl rw' todo' /\ dev_in d' = todo' ++ tail
  | Return _ rw' _ _ => rw_state rw' = IO_STATE_ERROR
  end.

(** A response that has more than a descriptor is sized. *)
Lemma resp_sized :
  1 < zlen h \/ pl <> [] \/ (exists desc, byte_at h 0 = Some desc /\ size_length desc <> 0) ->
  exists desc u c, byte_at h 0 = Some desc /\ response_header_size_of h = Some (zlen h)
    /\ response_payload_of h = Some (zlen pl, u, c)
    /\ 1 + size_length desc < zlen h < 2 ^ 32 /\ zlen pl < 2 ^ 32.
Proof.
  intros Hor. destruct Hwf as (desc & u & c & Hd & Hs & Hif & Hh & Hp). exists desc, u, c.
  destruct (size_length desc =? 0) eqn:E; [|by destruct Hif]. exfalso. zbool.
  destruct Hor as [Hor|[Hor|(desc' & Hd' & Hor)]]; [|by destruct Hif|by rewrite Hd in Hd'; inv_opt].
  unfold response_header_size_of, header_size_of in Hs. rewrite Hd in Hs. cbn [mbind option_bind] in Hs.
  rewrite E in Hs. cbn in Hs. injection Hs as Hs. lia.
Qed.

(** The size of the header is known once its first bytes are there. *)
Lemma resp_size_from_prefix desc dn r sb r' :
  byte_at h 0 = Some desc -> h = dn ++ r -> zlen dn = 1 + size_length desc -> sb_ok sb ->
  header_buffer sb = dn ++ r' -> get_response_header_size sb = Some (zlen h).
Proof.
  intros Hd Hh Hl Hok Hb. destruct Hwf as (desc' & u & c & Hd' & Hs & _).
  apply (response_header_size_ok sb dn r'); [done..|]. rewrite <- Hs.
  assert (0 <= size_length desc) by (unfold size_length; repeat case_match; lia).
  unfold response_header_size_of, header_size_of. rewrite Hh.
  rewrite byte_at_app_l by lia. assert (byte_at dn 0 = Some desc) as ->.
  { rewrite Hh, byte_at_app_l in Hd by lia. done. }
  cbn [mbind option_bind]. case_match; [done|]. unfold h_val. by rewrite slice_app_l by lia.
Qed.

(** The failing branches of every state. *)
Lemma resp_failed_turn rw sb' (d d' : D) todo n r :
  r <> IO_RESULT_OK -> 0 <= n < 2 ^ 64 -> dev_in d' = dev_in d -> dev_in d = todo ++ tail ->
  reader_ok (rw_with_sb rw sb') -> resp_receiving h pl (rw_with_sb rw sb') todo ->
  resp_turn_post todo n (Return r (after_failure r (rw_with_sb rw sb')) d' n).
Proof.
  intros Hr Hn Hd Hin Hok Hrec. destruct r; cbn; try done. exists [], todo.
  rewrite zlen_nil, Z.add_0_r, u64_small, Hd by done. done.
Qed.

(** First turn: the descriptor. *)
Lemma resp_turn_descriptor rw (d : D) n :
  0 <= n < 2 ^ 64 ->
  reader_ok rw -> rw_state rw = IO_STATE_RESPONSE_READ_DESCRIPTOR ->
  using_static_header (rw_sb rw) = true -> get_payload_size (rw_sb rw) = 0 ->
  dev_in d = response_bytes h pl ++ tail ->
  exists t, response_read_descriptor rw d n = Some t /\ resp_turn_post (response_bytes h pl) n t.
Proof.
  intros Hn [Hok Hfd] Hst Hsh Hps Hin. pose proof Hwf as (desc & u & c & Hd & Hs & Hif & Hlen & Hpl).
  unfold response_read_descriptor.
  assert (zlen (header_buffer (rw_sb rw)) = 12) as Hl12.
  { rewrite header_buffer_len by done. unfold get_available_header_size.
    unfold using_static_header in Hsh. zbool. by rewrite Hsh. }
  destruct (read_into_header_ok rw d [] (header_buffer (rw_sb rw)) 1)
    as (r & bs & d' & sb' & r' & He & Hd' & Ht & Hok' & Hf & Hb' & Hr'); [done|done|lia|done|].
  rewrite zlen_nil in He. rewrite He. cbn [mbind option_bind].
  destruct (hdr_frame_static _ _ Hf Hsh Hps) as [Hsh' Hps'].
  unfold transferred in Ht. case_bool_decide as Hr; cycle 1.
  { subst bs. assert (resp_receiving h pl (rw_with_sb rw sb') (response_bytes h pl))
      by (apply resp_recv_start; try done; by right).
    destruct r; [done|..]; (eexists; split; [done|]; by eapply resp_failed_turn). }
  subst r. apply zlen_singleton in Ht as [b ->].
  change (zlen [b] =? 1) with true. cbn [c3_assert mbind option_bind].
  unfold response_bytes in Hin. rewrite Hd' in Hin.
  destruct (app_cut [b] (dev_in d') h ((pl ++ marker_of h) ++ tail)) as (h' & Hh & Hin');
    [by rewrite Hin, <- app_assoc|change (zlen [b]) with 1; pose proof (byte_at_pos _ _ Hd); lia|].
  assert (b = desc) as ->. { rewrite Hh in Hd. by injection Hd. }
  change ([] ++ [desc]) with [desc] in Hb'.
  assert (byte_at [desc] 0 = Some desc) as Hdn by done.
  cbn [rw_sb rw_with_sb].
  change (get_response_header_data_size_length sb') with (get_command_header_data_size_length sb').
  rewrite (size_length_of sb' [desc] r' Hok' Hb' desc Hdn). cbn [mbind option_bind].
  assert (zlen h = 1 + zlen h') as Hzh by (rewrite Hh, zlen_app; done).
  destruct (size_length desc =? 0) eqn:E0; zbool.
  - destruct Hif as [Hty Hpl0].
    unfold get_response_type, get_response_descriptor.
    rewrite (get_header_byte_at_of sb' [desc] r' Hok' Hb' 0 desc Hdn). cbn [mbind option_bind].
    rewrite Hty. cbn [Z.eqb RESP_TYPE_OK]. eexists; split; [done|].
    exists [desc], (marker_of h). assert (h' = []) as Hnil.
    { unfold response_header_size_of, header_size_of in Hs. rewrite Hd in Hs.
      cbn [mbind option_bind] in Hs. rewrite E0 in Hs. cbn in Hs. injection Hs as Hs.
      apply zlen_pos_nil. lia. }
    split_and!; try done.
    + unfold response_bytes. rewrite Hh at 1. by rewrite Hnil, Hpl0.
    + eapply (resp_recv_marker _ _ _ r'); cbn; [done|by rewrite Hb', Hh, Hnil|].
      rewrite Hpl0. destruct Hok' as (_ & Hpd & _). destruct (db_ok_size _ Hpd) as [Hz _].
      apply zlen_pos_nil. unfold get_payload_size in Hps'. lia.
    + by rewrite Hin', Hnil, Hpl0.
  - eexists; split; [done|]. exists [desc], (h' ++ pl ++ marker_of h).
    pose proof (size_length_bounds desc). split_and!; try done.
    + unfold response_bytes. rewrite Hh at 1. by rewrite <- app_assoc.
    + eapply (resp_recv_size _ _ _ desc [desc]); cbn; try done.
      * change (zlen [desc]) with 1. lia.
      * lia.
    + by rewrite Hin', !app_assoc.
Qed.

Lemma resp_turn_size rw (d : D) n desc dn r todo :
  0 <= n < 2 ^ 64 ->
  reader_ok rw -> rw_state rw = IO_STATE_RESPONSE_READ_HEADER_SIZE_BYTES ->
  using_static_header (rw_sb rw) = true -> get_payload_size (rw_sb rw) = 0 ->
  byte_at h 0 = Some desc -> h = dn ++ todo -> 0 < zlen dn ->
  header_buffer (rw_sb rw) = dn ++ r -> rw_pos rw = zlen dn ->
  rw_remains rw = 1 + size_length desc - zlen dn -> 0 < rw_remains rw ->
  dev_in d = (todo ++ pl ++ marker_of h) ++ tail ->
  exists t, response_read_turn junk rw d n = Some t /\ resp_turn_post (todo ++ pl ++ marker_of h) n t.
Proof.
  intros Hn [Hok Hfd] Hst Hsh Hps Hd Hh Hdn Hb Hpos Hrem Hrem0 Hin.
  destruct resp_sized as (desc' & u & c & Hd1 & Hs & Hp & Hlen & Hpl).
  { do 2 right. exists desc. split; [done|lia]. }
  rewrite Hd in Hd1. injection Hd1 as <-. pose proof (size_length_bounds desc) as Hsl.
  assert (zlen h = zlen dn + zlen todo) as Hzh by (by rewrite Hh, zlen_app).
  assert (zlen dn + zlen r = 12) as Hl12.
  { rewrite <- zlen_app, <- Hb, header_buffer_len by done. unfold get_available_header_size.
    unfold using_static_header in Hsh. zbool. by rewrite Hsh. }
  unfold response_read_turn. rewrite Hst, Hpos.
  destruct (read_into_header_ok rw d dn r (rw_remains rw))
    as (res & bs & d' & sb' & r' & -> & Hd' & Ht & Hok' & Hf & Hb' & Hr'); [done|done|lia|done|].
  cbn [mbind option_bind].
  destruct (hdr_frame_static _ _ Hf Hsh Hps) as [Hsh' Hps'].
  unfold transferred in Ht. case_bool_decide as Hr; cycle 1.
  { subst bs. rewrite app_nil_r in Hb'.
    destruct res; [done|..]; (eexists; split; [done|]; eapply resp_failed_turn; try done; by eapply resp_recv_size). }
  subst res. destruct (delivered tail bs d d' todo (pl ++ marker_of h)) as (todo' & Htd & Hin'); [done|done|lia|].
  cbn [rw_sb rw_with_sb rw_remains rw_pos].
  assert (zlen todo = zlen bs + zlen todo') as Hzt by (by rewrite Htd, zlen_app).
  pose proof (zlen_nonneg todo'). rewrite Hpos, (u32_small (_ + _)) by (unfold is_u32; lia).
  assert (h = (dn ++ bs) ++ todo') as Hh' by (by rewrite Hh, Htd, app_assoc).
  destruct (zlen bs =? rw_remains rw) eqn:E; zbool.
  - rewrite (resp_size_from_prefix desc (dn ++ bs) todo' sb' r'); [|done|done|rewrite zlen_app; lia|done|done].
    cbn [mbind option_bind]. destruct (_ <? zlen h) eqn:E'; zbool; [|lia].
    cbn [c3_assert mbind option_bind]. rewrite <- (zlen_app dn bs) in *.
    destruct (configure_header_ok junk sb' (dn ++ bs) r' (zlen h)) as (sb2 & r2 & -> & Hok2 & Hb2 & Hl2 & Hp2 & _);
      [done|done|done|lia|].
    cbn [mbind option_bind].
    eexists; split; [done|]. exists bs, (todo' ++ pl ++ marker_of h). split_and!; try done.
    + by rewrite Htd, <- !app_assoc.
    + lia.
    + assert (zlen h = zlen (dn ++ bs) + zlen todo') as Hz3 by (by rewrite Hh', zlen_app).
      eapply (resp_recv_header _ _ _ (dn ++ bs)); cbn; try done.
      * unfold get_payload_size in *. by rewrite Hp2.
      * rewrite Hb2, zlen_app in Hl2. lia.
      * rewrite u32_small by (unfold is_u32; lia). lia.
      * lia.
      * rewrite zlen_app. lia.
  - eexists; split; [done|]. exists bs, (todo' ++ pl ++ marker_of h).
    rewrite (u32_small (_ - _)) by (unfold is_u32; lia). split_and!; try done.
    + by rewrite Htd, <- !app_assoc.
    + lia.
    + eapply (resp_recv_size _ _ _ desc (dn ++ bs)); cbn; try done; rewrite ?zlen_app; lia.
Qed.

(** The turn that completes the header: on to the payload, or to the marker. *)
Lemma resp_header_complete rw sb' (d' : D) n desc r' u c :
  sb_ok sb' -> 0 < rw_fd rw -> header_buffer sb' = h ++ r' -> get_payload_size sb' = 0 ->
  byte_at h 0 = Some desc -> response_payload_of h = Some (zlen pl, u, c) -> zlen pl < 2 ^ 32 ->
  dev_in d' = (pl ++ marker_of h) ++ tail ->
  exists rw', ('(ok, pi) ← response_get_payload_info sb';
    if ok && (0 <? pi_size pi) then
      _ ← c3_assert (negb (pi_has_errors pi));
      sb ← set_payload_size junk sb' (pi_size pi);
      Some (Continue (rw_at (rw_with_sb (rw_with_sb rw sb') sb) 0 (pi_size pi)
                        IO_STATE_RESPONSE_READ_PAYLOAD_BYTES) d' n)
    else if pi_has_errors pi then
      Some (Return IO_RESULT_ERROR (rw_with_state (rw_with_sb rw sb') IO_STATE_ERROR) d' n)
    else Some (Continue (rw_with_state (rw_with_sb rw sb') IO_STATE_RESPONSE_READ_MARKER_BYTE) d' n))
    = Some (Continue rw' d' n) /\ reader_ok rw' /\ resp_receiving h pl rw' (pl ++ marker_of h).
Proof.
  intros Hok Hfd Hb Hps Hd Hp Hpl Hin. pose proof (zlen_nonneg pl).
  rewrite (response_payload_info_ok sb' h r' Hok Hb desc _ _ _ Hd Hp (or_introl Hps)).
  assert (forall rw', rw' = rw_with_state (rw_with_sb rw sb') IO_STATE_RESPONSE_READ_MARKER_BYTE ->
    pl = [] -> reader_ok rw' /\ resp_receiving h pl rw' (pl ++ marker_of h)) as Hmark.
  { intros rw' -> ->. split; [done|]. eapply resp_recv_marker; cbn; [done|done|].
    destruct Hok as (_ & Hpd & _). destruct (db_ok_size _ Hpd) as [Hz _].
    apply zlen_pos_nil. unfold get_payload_size in Hps. lia. }
  destruct (_ =? DESC_NO_PAYLOAD) eqn:E; cbn [mbind option_bind pi_invalidate payload_info_of andb pi_has_errors pi_size].
  - eexists; split; [done|]. apply Hmark; [done|]. apply zlen_pos_nil.
    unfold response_payload_of, payload_of in Hp. rewrite Hd in Hp. cbn [mbind option_bind] in Hp.
    rewrite E in Hp. cbn in Hp. injection Hp as Hz _ _. lia.
  - destruct (0 <? zlen pl) eqn:E0; zbool.
    + cbn [negb c3_assert mbind option_bind].
      destruct (set_payload_size_ok junk sb' (zlen pl)) as (sb2 & -> & Hok2 & Hb2 & Hp2 & _); [done|done|lia|].
      cbn [mbind option_bind]. eexists; split; [done|]. split; [done|].
      eapply (resp_recv_payload _ _ _ r' [] pl (db_bytes (sb_payload sb2))); cbn; try done.
      * by rewrite Hb2.
      * destruct Hok2 as (_ & Hpd & _). destruct (db_ok_size _ Hpd) as [Hz _].
        unfold get_payload_size in Hp2. lia.
    + eexists; split; [done|]. apply Hmark; [done|]. apply zlen_pos_nil. lia.
Qed.

Lemma resp_turn_header rw (d : D) n dn r todo :
  0 <= n < 2 ^ 64 ->
  reader_ok rw -> rw_state rw = IO_STATE_RESPONSE_READ_HEADER_BYTES -> get_payload_size (rw_sb rw) = 0 ->
  h = dn ++ todo -> header_buffer (rw_sb rw) = dn ++ r -> zlen todo <= zlen r ->
  rw_pos rw = zlen dn -> rw_remains rw = zlen todo -> 0 < zlen todo -> 0 < zlen dn ->
  dev_in d = (todo ++ pl ++ marker_of h) ++ tail ->
  exists t, response_read_turn junk rw d n = Some t /\ resp_turn_post (todo ++ pl ++ marker_of h) n t.
Proof.
  intros Hn [Hok Hfd] Hst Hps Hh Hb Hr Hpos Hrem Htd0 Hdn0 Hin.
  assert (zlen h = zlen dn + zlen todo) as Hzh by (by rewrite Hh, zlen_app).
  destruct resp_sized as (desc & u & c & Hd & Hs & Hp & Hlen & Hpl); [left; lia|].
  unfold response_read_turn. rewrite Hst, Hpos, Hrem.
  destruct (read_into_header_ok rw d dn r (zlen todo))
    as (res & bs & d' & sb' & r' & -> & Hd' & Ht & Hok' & Hf & Hb' & Hr'); [done|done|lia|done|].
  cbn [mbind option_bind].
  assert (get_payload_size sb' = 0) as Hps'.
  { unfold get_payload_size in *. destruct Hf as (_ & -> & _). done. }
  unfold transferred in Ht. case_bool_decide as Hro; cycle 1.
  { subst bs. rewrite app_nil_r in Hb'.
    destruct res; [done|..]; (eexists; split; [done|]; eapply resp_failed_turn; try done; eapply resp_recv_header; try done;
      change (zlen []) with 0 in Hr'; lia). }
  subst res. destruct (delivered tail bs d d' todo (pl ++ marker_of h)) as (todo' & Htd & Hin'); [done|done|lia|].
  cbn [rw_sb rw_with_sb rw_remains rw_pos rw_state]. rewrite Hrem, Hpos.
  assert (zlen todo = zlen bs + zlen todo') as Hzt by (by rewrite Htd, zlen_app).
  pose proof (zlen_nonneg todo'). pose proof (zlen_nonneg dn).
  assert (h = (dn ++ bs) ++ todo') as Hh' by (by rewrite Hh, Htd, app_assoc).
  destruct (zlen bs =? zlen todo) eqn:E; zbool.
  - assert (todo' = []) as -> by (apply zlen_pos_nil; lia). rewrite app_nil_r in Hh'.
    destruct (resp_header_complete rw sb' d' (u64 (n + zlen bs)) desc r' u c) as (rw' & -> & Hok2 & Hrec);
      [done|done|by rewrite Hb', <- Hh'|done..|].
    eexists; split; [done|]. exists bs, (pl ++ marker_of h). rewrite app_nil_r in Htd. rewrite Htd. split_and!; try done. lia.
  - rewrite !u32_small by (unfold is_u32; lia). eexists; split; [done|].
    exists bs, (todo' ++ pl ++ marker_of h). split_and!; try done.
    + by rewrite Htd, <- !app_assoc.
    + lia.
    + eapply (resp_recv_header _ _ _ (dn ++ bs)); cbn; try done; rewrite ?zlen_app; lia.
Qed.

Lemma resp_turn_payload rw (d : D) n r dn todo q :
  0 <= n < 2 ^ 64 ->
  reader_ok rw -> rw_state rw = IO_STATE_RESPONSE_READ_PAYLOAD_BYTES ->
  header_buffer (rw_sb rw) = h ++ r -> pl = dn ++ todo ->
  db_bytes (sb_payload (rw_sb rw)) = dn ++ q -> zlen q = zlen todo ->
  rw_pos rw = zlen dn -> rw_remains rw = zlen todo -> 0 < zlen todo ->
  dev_in d = (todo ++ marker_of h) ++ tail ->
  exists t, response_read_turn junk rw d n = Some t /\ resp_turn_post (todo ++ marker_of h) n t.
Proof.
  intros Hn [Hok Hfd] Hst Hb Hh Hdb Hq Hpos Hrem Htd0 Hin.
  destruct resp_sized as (desc & u & c & Hd & Hs & Hp & Hlen & Hpl).
  { right. left. intros Hnil. rewrite Hnil in Hh. destruct dn, todo; try done. }
  assert (zlen pl = zlen dn + zlen todo) as Hzh by (by rewrite Hh, zlen_app).
  unfold response_read_turn. rewrite Hst, Hpos, Hrem.
  destruct (read_into_payload_ok rw d dn q (zlen todo))
    as (res & bs & d' & sb' & r' & -> & Hd' & Ht & Hok' & Hhb & Hps & Hb' & Hr'); [done|done|lia|done|].
  cbn [mbind option_bind].
  unfold transferred in Ht. case_bool_decide as Hro; cycle 1.
  { subst bs. rewrite app_nil_r in Hb'. change (zlen []) with 0 in Hr'.
    destruct res; [done|..]; (eexists; split; [done|]; eapply resp_failed_turn; try done;
      eapply resp_recv_payload; cbn; try done; [by rewrite Hhb|lia]). }
  subst res. destruct (delivered tail bs d d' todo (marker_of h)) as (todo' & Htd & Hin'); [done|done|lia|].
  cbn [rw_sb rw_with_sb rw_remains rw_pos rw_state]. rewrite Hrem, Hpos.
  assert (zlen todo = zlen bs + zlen todo') as Hzt by (by rewrite Htd, zlen_app).
  pose proof (zlen_nonneg todo'). pose proof (zlen_nonneg dn).
  assert (pl = (dn ++ bs) ++ todo') as Hh' by (by rewrite Hh, Htd, app_assoc).
  destruct (zlen bs =? zlen todo) eqn:E; zbool.
  - assert (todo' = []) as -> by (apply zlen_pos_nil; lia). rewrite app_nil_r in Hh'.
    assert (r' = []) as -> by (apply zlen_pos_nil; lia). rewrite app_nil_r in Hb', Htd.
    eexists; split; [done|]. exists bs, (marker_of h). rewrite Htd. split_and!; try done; [lia|].
    eapply resp_recv_marker; cbn; [done|by rewrite Hhb|by rewrite Hb'].
  - rewrite !u32_small by (unfold is_u32; lia). eexists; split; [done|].
    exists bs, (todo' ++ marker_of h). split_and!; try done.
    + by rewrite Htd, <- !app_assoc.
    + eapply (resp_recv_payload _ _ _ r (dn ++ bs) todo' r'); cbn; try done; rewrite ?zlen_app; try lia.
      by rewrite Hhb.
Qed.

Lemma resp_turn_marker rw (d : D) n r :
  reader_ok rw -> rw_state rw = IO_STATE_RESPONSE_READ_MARKER_BYTE ->
  header_buffer (rw_sb rw) = h ++ r -> db_bytes (sb_payload (rw_sb rw)) = pl ->
  dev_in d = marker_of h ++ tail -> 0 <= n < 2 ^ 64 ->
  exists t, response_read_turn junk rw d n = Some t /\ resp_turn_post (marker_of h) n t.
Proof.
  intros [Hok Hfd] Hst Hb Hdb Hin Hn. pose proof Hwf as (desc & u & c & Hd & _).
  assert (resp_receiving h pl rw (marker_of h)) as Hrec by by eapply resp_recv_marker.
  assert (resp_received h pl (rw_at rw UINT_MAX_VAL 0 IO_STATE_RESPONSE_READ_DONE)) as Hdone.
  { unfold resp_received. cbn. split_and!; try done. by exists r. }
  unfold response_read_turn, response_marker_is_present, get_response_descriptor. rewrite Hst.
  rewrite (get_header_byte_at_of _ _ _ Hok Hb _ _ Hd). cbn [mbind option_bind].
  unfold marker_of in *. rewrite Hd in *. destruct (_ =? 0) eqn:E; cbn [negb].
  { eexists; split; [done|]. split; [|done].
    change (zlen []) with 0. rewrite Z.add_0_r. by rewrite u64_small. }
  destruct (read_bytes_law d (rw_fd rw) 1) as (res & bs & d' & -> & Hd' & Ht); [done|lia|].
  cbn [mbind option_bind]. rewrite Hd' in Hin. case_bool_decide as Hro; cycle 1.
  { subst bs. destruct res; [done|..]; (eexists; split; [done|]); cbn; try done.
    exists [], [C3_INTEGRITY_MARKER]. by rewrite zlen_nil, Z.add_0_r, u64_small. }
  subst res. apply zlen_singleton in Ht as [b ->]. injection Hin as -> Hin'.
  cbn [head mbind option_bind]. eexists; split; [done|]. split; [done|]. done.
Qed.

(** Every turn of a reader that is receiving a well-formed response. *)
Lemma resp_read_turn_ok rw (d : D) todo n :
  reader_ok rw -> resp_receiving h pl rw todo -> dev_in d = todo ++ tail -> 0 <= n < 2 ^ 64 ->
  exists t, response_read_turn junk rw d n = Some t /\ resp_turn_post todo n t.
Proof.
  intros Hok Hrec Hin Hn. destruct Hrec as [Hst| | | |].
  - unfold response_read_turn. destruct Hst as [Hst|Hst]; rewrite Hst.
    + by apply resp_turn_descriptor.
    + by apply resp_turn_descriptor.
  - by eapply resp_turn_size.
  - by eapply resp_turn_header.
  - by eapply resp_turn_payload.
  - by eapply resp_turn_marker.
Qed.

(** The state in which a call of [read] leaves a reader that expected [todo]. *)
Definition resp_read_post (todo : bytes) (n : Z) (r : io_result_t) (rw' : ReaderWriter) (d' : D) (n' : Z) : Prop :=
  match r with
  | IO_RESULT_OK => n' = n + zlen todo /\ resp_received h pl rw' /\ dev_in d' = tail
  | IO_RESULT_RETRY =>
      exists bs todo', todo = bs ++ todo' /\ n' = n + zlen bs
        /\ reader_ok rw' /\ resp_receiving h pl rw' todo' /\ dev_in d' = todo' ++ tail
  | _ => rw_state rw' = IO_STATE_ERROR
  end.

Lemma resp_read_loop_ok fuel rw (d : D) todo n :
  reader_ok rw -> resp_receiving h pl rw todo -> dev_in d = todo ++ tail ->
  0 <= n -> n + zlen todo < 2 ^ 64 -> (length todo < fuel)%nat ->
  exists r rw' d' n', response_read_loop junk fuel rw d n = Some (r, rw', d', n')
    /\ resp_read_post todo n r rw' d' n'.
Proof.
  revert rw d todo n. induction fuel as [|fuel IH]; intros rw d todo n Hok Hrec Hin Hn Hlt Hf; [lia|].
  pose proof (zlen_nonneg todo).
  destruct (resp_read_turn_ok rw d todo n) as (t & Ht & Hpost); [done..|lia|]. cbn [response_read_loop].
  rewrite Ht. cbn [mbind option_bind]. destruct t as [rw' d' n'|r rw' d' n']; cbn in Hpost.
  - destruct Hpost as (bs & todo' & -> & Hbs & -> & Hok' & Hrec' & Hin').
    rewrite zlen_app in *. pose proof (zlen_nonneg todo'). rewrite length_app in Hf.
    rewrite u64_small by (unfold is_u64; lia).
    destruct (IH rw' d' todo' (n + zlen bs)) as (r & rw2 & d2 & n2 & -> & Hp2); [done|done|done|lia|lia| |].
    { unfold zlen in Hbs. lia. }
    do 4 eexists; split; [done|]. destruct r; cbn in *; try done.
    + destruct Hp2 as (-> & ? & ?). rewrite zlen_app. split_and!; try done. lia.
    + destruct Hp2 as (bs2 & todo2 & -> & -> & ? & ? & ?). exists (bs ++ bs2), todo2.
      rewrite zlen_app, <- app_assoc. split_and!; try done. lia.
  - do 4 eexists; split; [done|]. destruct r; cbn in *; try done.
    + destruct Hpost as (-> & ? & ?). rewrite u64_small by (unfold is_u64; lia). done.
    + destruct Hpost as (bs & todo' & -> & -> & ? & ? & ?). exists bs, todo'.
      rewrite zlen_app in *. pose proof (zlen_nonneg bs). pose proof (zlen_nonneg todo').
      rewrite u64_small by (unfold is_u64; lia). done.
Qed.

(** Any number of calls, as long as the device asks to retry. *)
Lemma resp_read_retry_ok fuel k rw (d : D) todo :
  reader_ok rw -> resp_receiving h pl rw todo -> dev_in d = todo ++ tail ->
  zlen todo < 2 ^ 64 -> (length todo < fuel)%nat ->
  exists r rw' d' n, retry (response_read junk fuel) k rw d = Some (r, rw', d', n)
    /\ resp_read_post todo 0 r rw' d' n.
Proof.
  revert rw d todo. induction k as [|k IH]; intros rw d todo Hok Hrec Hin Hlt Hf;
    destruct (resp_read_loop_ok fuel rw d todo 0) as (r & rw' & d' & n & Hr & Hp); try done; try lia;
    cbn [retry]; change (response_read junk fuel rw d) with (response_read_loop junk fuel rw d 0);
    rewrite Hr; cbn [mbind option_bind].
  - do 4 eexists. split; [by destruct r|]. done.
  - destruct r; [by do 4 eexists|by do 4 eexists| |by do 4 eexists].
    destruct Hp as (bs & todo' & -> & -> & Hok' & Hrec' & Hin').
    rewrite zlen_app in Hlt. pose proof (zlen_nonneg bs). rewrite length_app in Hf.
    destruct (IH rw' d' todo') as (r2 & rw2 & d2 & n2 & -> & Hp2); [done|done|done|lia|lia|].
    cbn [mbind option_bind]. do 4 eexists. split; [done|]. destruct r2; cbn in *; try done.
    + destruct Hp2 as (-> & ? & ?). rewrite zlen_app. split_and!; try done; lia.
    + destruct Hp2 as (bs2 & todo2 & -> & -> & ? & ? & ?). exists (bs ++ bs2), todo2.
      rewrite zlen_app, <- app_assoc. split_and!; try done; lia.
Qed.

End Receive.

(** ** Sending a well-formed response *)

(** [resp_sending h pl rw todo]: the writer holds the response and still has to send the
    bytes [todo]. *)
Inductive resp_sending (h pl : bytes) (rw : ReaderWriter) : bytes -> Prop :=
| resp_send_ready : rw_state rw = IO_STATE_RESPONSE_WRITE_READY -> resp_sending h pl rw (response_bytes h pl)
| resp_send_header dn todo :
    rw_state rw = IO_STATE_RESPONSE_WRITE_HEADER -> h = dn ++ todo ->
    rw_pos rw = zlen dn -> rw_remains rw = zlen todo -> 0 < zlen todo ->
    resp_sending h pl rw (todo ++ pl ++ marker_of h)
| resp_send_payload dn todo :
    rw_state rw = IO_STATE_RESPONSE_WRITE_PAYLOAD -> pl = dn ++ todo ->
    rw_pos rw = zlen dn -> rw_remains rw = zlen todo -> 0 < zlen todo ->
    resp_sending h pl rw (todo ++ marker_of h)
| resp_send_marker : rw_state rw = IO_STATE_RESPONSE_WRITE_MARKER_BYTE -> resp_sending h pl rw (marker_of h).

(** The buffers of a writer that holds the response. *)
Definition resp_holds (h pl : bytes) (rw : ReaderWriter) : Prop :=
  reader_ok rw /\ (exists r, header_buffer (rw_sb rw) = h ++ r)
  /\ db_bytes (sb_payload (rw_sb rw)) = pl.

Section Send.
Context {D : Type} `{DeviceLaws D}.
Context (h pl : bytes) (Hwf : response_wf h pl).

Definition resp_write_turn_post (out todo : bytes) (n : Z) (t : turn D) : Prop :=
  match t with
  | Continue rw' d' n' =>
      exists bs todo', todo = bs ++ todo' /\ 0 < zlen bs /\ n' = u64 (n + zlen bs)
        /\ resp_holds h pl rw' /\ resp_sending h pl rw' todo' /\ dev_out d' = out ++ bs
  | Return IO_RESULT_OK rw' d' n' =>
      n' = u64 (n + zlen todo) /\ resp_holds h pl rw' /\ rw_state rw' = IO_STATE_RESPONSE_WRITE_DONE
      /\ dev_out d' = out ++ todo
  | Return IO_RESULT_RETRY rw' d' n' =>
      n' = n /\ resp_holds h pl rw' /\ resp_sending h pl rw' todo /\ dev_out d' = out
  | Return _ rw' d' _ => rw_state rw' = IO_STATE_ERROR /\ dev_out d' = out
  end.

Lemma resp_write_failed_turn rw (d d' : D) todo n r :
  r <> IO_RESULT_OK -> dev_out d' = dev_out d ++ [] -> resp_holds h pl rw -> resp_sending h pl rw todo ->
  resp_write_turn_post (dev_out d) todo n (Return r (after_failure r rw) d' n).
Proof. rewrite app_nil_r. intros Hr Hd Hh Hs. by destruct r. Qed.

Lemma resp_write_turn_header rw (d : D) n dn todo :
  resp_holds h pl rw -> rw_state rw = IO_STATE_RESPONSE_WRITE_HEADER -> h = dn ++ todo ->
  rw_pos rw = zlen dn -> rw_remains rw = zlen todo -> 0 < zlen todo ->
  exists t, response_write_header rw d n = Some t
    /\ resp_write_turn_post (dev_out d) (todo ++ pl ++ marker_of h) n t.
Proof.
  intros Hh Hst Hhd Hpos Hrem H0'. pose proof Hh as ([Hok Hfd] & (r & Hb) & Hpl).
  pose proof Hwf as (desc & u & c & Hd & Hs & Hp & Hlen & Hpl').
  assert (zlen h = zlen dn + zlen todo) as Hzh by (by rewrite Hhd, zlen_app).
  unfold response_write_header. rewrite Hpos, Hrem.
  destruct (write_from_header_ok rw d dn todo r) as (res & snt & d' & -> & Ho & Ht);
    [done|rewrite Hb, Hhd; by rewrite <- app_assoc|done|done|].
  cbn [mbind option_bind]. unfold sent in Ht. case_bool_decide as Hro; cycle 1.
  { subst snt. destruct res; [done|..]; (eexists; split; [done|]; apply resp_write_failed_turn; try done;
      by eapply resp_send_header). }
  subst res. destruct Ht as [Hs0 [rest Hrest]].
  assert (zlen todo = zlen snt + zlen rest) as Hzt by (by rewrite Hrest, zlen_app).
  pose proof (zlen_nonneg rest). pose proof (zlen_nonneg dn).
  destruct (zlen snt =? zlen todo) eqn:E; zbool.
  - assert (rest = []) as -> by (apply zlen_pos_nil; lia). rewrite app_nil_r in Hrest.
    pose proof Hok as (_ & Hpd & _). destruct (db_ok_size _ Hpd) as [Hz _]. rewrite Hpl in Hz.
    unfold get_payload_size. rewrite Hz.
    destruct (0 <? zlen pl) eqn:E'; zbool.
    + eexists; split; [done|]. exists snt, (pl ++ marker_of h). split_and!; try done; [by rewrite Hrest|].
      by eapply (resp_send_payload _ _ _ []).
    + assert (pl = []) as Hnil by (apply zlen_pos_nil; lia).
      eexists; split; [done|]. exists snt, (marker_of h).
      rewrite Hrest, Hnil. split_and!; try done; [by rewrite Hnil in Hh|]. by apply resp_send_marker.
  - rewrite !u32_small by (unfold is_u32; lia). eexists; split; [done|].
    exists snt, (rest ++ pl ++ marker_of h). split_and!; try done.
    + by rewrite Hrest, <- !app_assoc.
    + eapply (resp_send_header _ _ _ (dn ++ snt) rest); cbn; try done; rewrite ?zlen_app; try lia.
      by rewrite Hhd, Hrest, <- app_assoc.
Qed.

Lemma resp_write_turn_payload rw (d : D) n dn todo :
  resp_holds h pl rw -> rw_state rw = IO_STATE_RESPONSE_WRITE_PAYLOAD -> pl = dn ++ todo ->
  rw_pos rw = zlen dn -> rw_remains rw = zlen todo -> 0 < zlen todo ->
  exists t, response_write_turn rw d n = Some t
    /\ resp_write_turn_post (dev_out d) (todo ++ marker_of h) n t.
Proof.
  intros Hh Hst Hhd Hpos Hrem H0'. pose proof Hh as ([Hok Hfd] & (r & Hb) & Hpl).
  pose proof Hwf as (desc & u & c & Hd & Hs & Hp & Hlen & Hpl').
  assert (zlen pl = zlen dn + zlen todo) as Hzh by (by rewrite Hhd, zlen_app).
  unfold response_write_turn. rewrite Hst, Hpos, Hrem.
  destruct (write_from_payload_ok rw d dn todo []) as (res & snt & d' & -> & Ho & Ht);
    [done|by rewrite Hpl, Hhd, app_nil_r|done|done|].
  cbn [mbind option_bind]. unfold sent in Ht. case_bool_decide as Hro; cycle 1.
  { subst snt. destruct res; [done|..]; (eexists; split; [done|]; apply resp_write_failed_turn; try done;
      by eapply resp_send_payload). }
  subst res. destruct Ht as [Hs0 [rest Hrest]].
  assert (zlen todo = zlen snt + zlen rest) as Hzt by (by rewrite Hrest, zlen_app).
  pose proof (zlen_nonneg rest). pose proof (zlen_nonneg dn).
  destruct (zlen snt =? zlen todo) eqn:E; zbool.
  - assert (rest = []) as -> by (apply zlen_pos_nil; lia). rewrite app_nil_r in Hrest.
    eexists; split; [done|]. exists snt, (marker_of h). split_and!; try done; [by rewrite Hrest|].
    by apply resp_send_marker.
  - rewrite !u32_small by (unfold is_u32; lia). eexists; split; [done|].
    exists snt, (rest ++ marker_of h). split_and!; try done.
    + by rewrite Hrest, <- !app_assoc.
    + eapply (resp_send_payload _ _ _ (dn ++ snt) rest); cbn; try done; rewrite ?zlen_app; try lia.
      by rewrite Hhd, Hrest, <- app_assoc.
Qed.

Lemma resp_write_turn_marker rw (d : D) n :
  resp_holds h pl rw -> rw_state rw = IO_STATE_RESPONSE_WRITE_MARKER_BYTE -> 0 <= n < 2 ^ 64 ->
  exists t, response_write_turn rw d n = Some t /\ resp_write_turn_post (dev_out d) (marker_of h) n t.
Proof.
  intros Hh Hst Hn. pose proof Hh as ([Hok Hfd] & (r & Hb) & Hpl).
  pose proof Hwf as (desc & u & c & Hd & _).
  assert (resp_sending h pl rw (marker_of h)) as Hsend by by apply resp_send_marker.
  unfold response_write_turn, response_marker_is_present, get_response_descriptor. rewrite Hst.
  rewrite (get_header_byte_at_of _ _ _ Hok Hb _ _ Hd). cbn [mbind option_bind].
  unfold marker_of in *. rewrite Hd in *. destruct (_ =? 0) eqn:E; cbn [negb].
  { eexists; split; [done|]. cbn. rewrite Z.add_0_r, u64_small, app_nil_r by done. done. }
  destruct (write_bytes_sent d (rw_fd rw) [C3_INTEGRITY_MARKER]) as (res & snt & d' & -> & Ho & Ht); [done..|].
  cbn [mbind option_bind]. unfold sent in Ht. case_bool_decide as Hro; cycle 1.
  { subst snt. destruct res; [done|..]; (eexists; split; [done|]; by apply resp_write_failed_turn). }
  subst res. destruct Ht as [Hs0 [rest Hrest]].
  assert (snt = [C3_INTEGRITY_MARKER]) as ->.
  { destruct snt as [|b [|]]; [done|..]; injection Hrest as -> Hn'; [done|discriminate]. }
  eexists; split; [done|]. done.
Qed.

Lemma resp_write_turn_ok rw (d : D) todo n :
  resp_holds h pl rw -> resp_sending h pl rw todo -> 0 <= n < 2 ^ 64 ->
  exists t, response_write_turn rw d n = Some t /\ resp_write_turn_post (dev_out d) todo n t.
Proof.
  intros Hh Hs Hn. destruct Hs as [Hst|dn todo Hst| |].
  - unfold response_write_turn. rewrite Hst.
    pose proof Hwf as (desc & u & c & Hd & Hs & Hp & Hlen & Hpl').
    pose proof Hh as ([Hok Hfd] & (r & Hb) & Hpl).
    rewrite (response_header_size_ok _ _ _ Hok Hb _ Hs). cbn [mbind option_bind].
    pose proof (byte_at_pos _ _ Hd).
    by apply (resp_write_turn_header (rw_at rw 0 (zlen h) IO_STATE_RESPONSE_WRITE_HEADER) d n [] h); try done; lia.
  - unfold response_write_turn. rewrite Hst. by eapply resp_write_turn_header.
  - by eapply resp_write_turn_payload.
  - by apply resp_write_turn_marker.
Qed.

Definition resp_write_post (out todo : bytes) (n : Z) (r : io_result_t) (rw' : ReaderWriter) (d' : D) (n' : Z) : Prop :=
  exists bs todo', todo = bs ++ todo' /\ dev_out d' = out ++ bs /\
  match r with
  | IO_RESULT_OK => n' = n + zlen todo /\ todo' = [] /\ resp_holds h pl rw'
                    /\ rw_state rw' = IO_STATE_RESPONSE_WRITE_DONE
  | IO_RESULT_RETRY => n' = n + zlen bs /\ resp_holds h pl rw' /\ resp_sending h pl rw' todo'
  | _ => rw_state rw' = IO_STATE_ERROR
  end.

Lemma resp_write_loop_ok fuel rw (d : D) todo n :
  resp_holds h pl rw -> resp_sending h pl rw todo ->
  0 <= n -> n + zlen todo < 2 ^ 64 -> (length todo < fuel)%nat ->
  exists r rw' d' n', response_write_loop fuel rw d n = Some (r, rw', d', n')
    /\ resp_write_post (dev_out d) todo n r rw' d' n'.
Proof.
  revert rw d todo n. induction fuel as [|fuel IH]; intros rw d todo n Hok Hrec Hn Hlt Hf; [lia|].
  pose proof (zlen_nonneg todo).
  destruct (resp_write_turn_ok rw d todo n) as (t & Ht & Hpost); [done..|lia|]. cbn [response_write_loop].
  rewrite Ht. cbn [mbind option_bind]. destruct t as [rw' d' n'|r rw' d' n']; cbn in Hpost.
  - destruct Hpost as (bs & todo' & -> & Hbs & -> & Hok' & Hrec' & Hout).
    rewrite zlen_app in *. pose proof (zlen_nonneg todo'). rewrite length_app in Hf.
    rewrite u64_small by (unfold is_u64; lia).
    destruct (IH rw' d' todo' (n + zlen bs)) as (r & rw2 & d2 & n2 & -> & Hp2); [done|done|lia|lia| |].
    { unfold zlen in Hbs. lia. }
    do 4 eexists; split; [done|]. destruct Hp2 as (bs2 & todo2 & -> & Ho2 & Hp2).
    exists (bs ++ bs2), todo2. rewrite Ho2, Hout, <- !app_assoc. split_and!; [done..|].
    destruct r; try done; destruct Hp2 as (-> & Hp2); rewrite !zlen_app;
      (split; [lia|]); tauto.
  - do 4 eexists; split; [done|]. destruct r; cbn in *.
    + destruct Hpost as (-> & ? & ? & Ho). exists todo, [].
      rewrite u64_small by (unfold is_u64; lia). by rewrite app_nil_r, Ho.
    + destruct Hpost as (? & Ho). exists [], todo. by rewrite app_nil_r, Ho.
    + destruct Hpost as (-> & ? & ? & Ho). exists [], todo.
      by rewrite app_nil_r, zlen_nil, Z.add_0_r, Ho.
    + destruct Hpost as (? & Ho). exists [], todo. by rewrite app_nil_r, Ho.
Qed.

Lemma resp_write_retry_ok fuel k rw (d : D) todo :
  resp_holds h pl rw -> resp_sending h pl rw todo -> zlen todo < 2 ^ 64 -> (length todo < fuel)%nat ->
  exists r rw' d' n, retry (response_write fuel) k rw d = Some (r, rw', d', n)
    /\ resp_write_post (dev_out d) todo 0 r rw' d' n.
Proof.
  revert rw d todo. induction k as [|k IH]; intros rw d todo Hok Hrec Hlt Hf;
    destruct (resp_write_loop_ok fuel rw d todo 0) as (r & rw' & d' & n & Hr & Hp); try done; try lia;
    cbn [retry]; change (response_write fuel rw d) with (response_write_loop fuel rw d 0);
    rewrite Hr; cbn [mbind option_bind].
  - do 4 eexists. split; [by destruct r|]. done.
  - destruct r; [by do 4 eexists|by do 4 eexists| |by do 4 eexists].
    destruct Hp as (bs & todo' & -> & Ho & -> & Hok' & Hrec').
    rewrite zlen_app in Hlt. pose proof (zlen_nonneg bs). rewrite length_app in Hf.
    destruct (IH rw' d' todo') as (r2 & rw2 & d2 & n2 & -> & Hp2); [done|done|lia|lia|].
    cbn [mbind option_bind]. do 4 eexists. split; [done|].
    destruct Hp2 as (bs2 & todo2 & -> & Ho2 & Hp2). exists (bs ++ bs2), todo2.
    rewrite Ho2, Ho, <- !app_assoc. split_and!; [done..|].
    destruct r2; try done; destruct Hp2 as (-> & Hp2); rewrite !zlen_app; (split; [lia|]); tauto.
Qed.

End Send.
