(* ===== verification/ResponseEndToEnd.v ===== *)
(** * ResponseEndToEnd

    The same as [EndToEnd], for responses: what a response builder makes is
    received unchanged by a response reader. *)

From S2P Require Import Prelude Protocol Memory Buffers ChunkBuilder HeaderBuild ChunkIterator RoundTrip Devices Accessors MessageIO CommandIO EndToEnd ResponseIO.

(** The check of [verify()] on the number of bytes used, by kind of response. *)
Definition response_used_ok (k : builder_kind) (used ps : Z) : bool :=
  match k with
  | OkResponseHeader => ((used =? 1) || (used =? 2)) && (ps =? 0)
  | ErrorResponseHeader => (4 <? used) && (ps =? 0)
  | DataResponseHeader | ListResponseHeader => 3 <=? used
  | CommandHeader _ _ _ _ => false
  end.

(** The type a receiver gets for a response of this kind. *)
Definition response_type_of (k : builder_kind) : response_type_t :=
  match k with
  | OkResponseHeader => RESPONSE_OK
  | ErrorResponseHeader => RESPONSE_ERROR
  | DataResponseHeader => RESPONSE_DATA
  | ListResponseHeader => RESPONSE_LIST
  | CommandHeader _ _ _ _ => RESPONSE_INVALID
  end.

Definition new_response (rw : ReaderWriter) (nc : NetworkConfiguration) (k : builder_kind)
  : HeaderChunkBuilder := mkHeaderChunkBuilder rw nc k 0 0.

(** A server thread that builds a response from its data. *)
Definition build_response (junk : nat -> Z) (m : Memory) (rw : ReaderWriter)
    (nc : NetworkConfiguration) (k : builder_kind)
    (payload : option PayloadChunkBuilder) (chs : list chunk) : option ReaderWriter :=
  items ← mapM (make_item junk m) chs;
  b ← response_builder rw nc k;
  b ← build_header junk b payload items;
  Some (cb_container b).

Record can_respond (rw : ReaderWriter) (nc : NetworkConfiguration) (k : builder_kind)
    (payload : option PayloadChunkBuilder) (chs : list chunk) (pl : bytes) : Prop := {
  crs_fresh : fresh_writer rw;
  crs_network : is_set rw IO_FLAG_NETWORK = true;
  crs_response : is_set rw IO_FLAG_IS_RESPONSE = true;
  crs_fd : 0 < rw_fd rw;
  crs_payload : db_bytes (sb_payload (rw_sb rw)) = pl;
  crs_described : payload_described payload (zlen pl);
  crs_chunks : Forall chunk_ok chs;
  crs_used : response_used_ok k
    (zlen (header_layout (new_response rw nc k) payload (chunks_bytes chs))) (zlen pl) = true;
  crs_size : zlen (header_layout (new_response rw nc k) payload (chunks_bytes chs)) < UINT_MAX_VAL;
}.

Section Response.
Context (junk : nat -> Z) (m : Memory) (rw : ReaderWriter) (nc : NetworkConfiguration).
Context (k : builder_kind) (payload : option PayloadChunkBuilder).
Context (chs : list chunk) (pl : bytes).
Hypothesis Hcan : can_respond rw nc k payload chs pl.

Let b := new_response rw nc k.
Let h := header_layout b payload (chunks_bytes chs).
Let desc := layout_desc b payload (chunks_bytes chs).

Lemma respond_pl : zlen pl = get_payload_size (rw_sb rw) /\ db_ok (sb_payload (rw_sb rw)).
Proof.
  destruct Hcan as [(Hok & _) _ _ _ Hpl _ _ _ _]. destruct Hok as (_ & Hd & _). split; [|done].
  unfold get_payload_size. destruct (db_ok_size _ Hd) as [-> _]. by rewrite Hpl.
Qed.

Lemma respond_kind : exists k', k = k' /\ get_command b = CMD_INVALID /\ get_password_hash b = (false, 0).
Proof. exists k. destruct Hcan as [_ _ _ _ _ _ _ Hu _]. by destruct k. Qed.

Lemma respond_fixed : command_layout b = [] /\ hash_layout b = [].
Proof.
  destruct respond_kind as (k' & _ & Hc & Hp). unfold command_layout, hash_layout. by rewrite Hc, Hp.
Qed.

Lemma respond_before :
  zlen (before_payload b payload (chunks_bytes chs)) = size_length desc + 1.
Proof.
  destruct respond_fixed as [Hc Hh]. unfold before_payload. rewrite Hc, Hh, !app_nil_r, zlen_cons.
  unfold desc. rewrite layout_size_length.
  destruct (sized _ _); [rewrite zlen_size_bytes|rewrite zlen_nil]; lia.
Qed.

Lemma respond_desc : byte_at h 0 = Some desc.
Proof. unfold h. by rewrite layout_eq, byte_at_0. Qed.

Lemma respond_offset : response_chunks_offset desc = zlen h - zlen (chunks_bytes chs).
Proof.
  unfold response_chunks_offset, h. rewrite layout_split, !zlen_app, respond_before.
  unfold desc. rewrite layout_payload_bytes. lia.
Qed.

(** Only an "OK" response has no size. *)
Lemma respond_sizeless :
  sized payload (zlen (chunks_bytes chs)) = false ->
  k = OkResponseHeader /\ zlen h = 1 /\ pl = [] /\ chs = [].
Proof.
  intros E. destruct (sized_false _ _ E) as [Hp Hc].
  assert (zlen h = 1) as Hz.
  { unfold h. rewrite layout_split, zlen_app, respond_before. unfold desc.
    rewrite layout_size_length, E, Hp, Hc. done. }
  destruct Hcan as [_ _ _ _ Hpl [_ Hd] HF Hu _]. fold b h in Hu. rewrite Hz in Hu.
  destruct k; try done. split_and!; try done.
  - rewrite Hp in Hd. apply zlen_pos_nil. lia.
  - destruct chs as [|c0 chs']; [done|]. exfalso. apply Forall_cons in HF as [Hc0 _].
    unfold chunks_bytes in Hc. cbn in Hc. pose proof (zlen_encode_chunk_pos c0 Hc0).
    destruct (encode_chunk c0); [done|discriminate].
Qed.

Lemma respond_type : Z.land desc RESP_TYPE_BITS = rhcb_type k.
Proof.
  unfold desc. destruct (layout_fields b payload (chunks_bytes chs)) as (Ht & _).
  change RESP_TYPE_BITS with DESC_AUTH_BITS. rewrite Ht.
  destruct Hcan as [_ _ _ _ _ _ _ Hu _]. unfold type_bits, b, new_response. cbn. by destruct k.
Qed.

Lemma respond_wf : response_wf h pl.
Proof.
  pose proof respond_pl as [Hps Hpd]. pose proof respond_sizeless as Hsl.
  destruct (db_ok_size _ Hpd) as [_ Hr]. unfold get_payload_size in Hps.
  pose proof respond_type as Hty. destruct Hcan as [_ _ _ _ Hpl [Hpok Hdes] _ _ Hlt].
  fold b h in Hlt. unfold UINT_MAX_VAL in Hlt.
  pose proof (layout_payload_of b payload (chunks_bytes chs) (zlen pl) Hps Hpok Hdes) as Hp.
  rewrite respond_before in Hp. fold h in Hp.
  assert (exists u c, payload_of (size_length desc + 1) h = Some (zlen pl, u, c)) as (u & c & Hpo).
  { rewrite Hp. destruct payload; [by do 2 eexists|]. rewrite Hdes. by do 2 eexists. }
  exists desc, u, c. split; [apply respond_desc|]. split.
  { apply layout_size_of; [unfold h in Hlt; lia|]. intros E. destruct (Hsl E) as (_ & Hz & _).
    fold h. by rewrite Hz. }
  split; [|lia]. assert (size_length desc = if sized payload (zlen (chunks_bytes chs))
    then estimate_size_bytes (zlen (fixed_layout b payload) + zlen (chunks_bytes chs)) else 0) as Hsz
    by (unfold desc; apply layout_size_length).
  destruct (sized payload (zlen (chunks_bytes chs))) eqn:E.
  - pose proof (estimate_size_bytes_val (zlen (fixed_layout b payload) + zlen (chunks_bytes chs))) as Hv.
    destruct (size_length desc =? 0) eqn:E0; zbool; [lia|]. split.
    + unfold response_payload_of. rewrite respond_desc. exact Hpo.
    + unfold h. rewrite layout_split, !zlen_app, respond_before.
      unfold sized in E. pose proof (zlen_nonneg (chunks_bytes chs)).
      pose proof (zlen_nonneg (payload_layout payload (get_payload_size (hcb_sb b)))).
      apply orb_true_iff in E as [E|E]; zbool; [lia|].
      apply bool_decide_eq_true in E as [p Hpe]. rewrite Hpe in *. rewrite zlen_payload_layout.
      pose proof (estimate_size_bytes_val (pcb_usize p)). destruct (pcb_compressor p =? CT_NONE); lia.
  - destruct (Hsl eq_refl) as (Hk & _ & Hnil & _). rewrite Hsz. cbn [Z.eqb]. split; [|done].
    by rewrite Hty, Hk.
Qed.

(** The built writer is ready and holds the layout and the payload. *)
Lemma build_response_holds :
  exists w, build_response junk m rw nc k payload chs = Some w
    /\ resp_holds h pl w /\ resp_sending h pl w (response_bytes h pl).
Proof.
  pose proof respond_pl as [Hps Hpd].
  destruct Hcan as [Hf Hnet Hresp Hfd Hpl [Hpok Hdes] HF Hu Hlt]. fold b h in Hu, Hlt.
  unfold UINT_MAX_VAL in Hlt. unfold build_response.
  assert (zlen (chunks_bytes chs) < 2 ^ 32) as Hcl.
  { unfold h, header_layout in Hlt. rewrite zlen_app in Hlt.
    pose proof (zlen_nonneg (header_prefix b payload (zlen (chunks_bytes chs)))). lia. }
  destruct (make_items_ok junk m chs HF Hcl) as (items & -> & HF2). cbn [mbind option_bind].
  destruct Hf as (Hok & Hst & Hs & Hr). unfold response_builder. rewrite Hr, Hnet, Hresp.
  cbn [c3_assert mbind option_bind]. fold (new_response rw nc k). fold b.
  destruct (build_header_before_verify junk b payload items (encode_chunk <$> chs))
    as (b1 & rest & -> & (Hok1 & Hb1 & Hu1) & Hk1 & Hc1 & Hpl1);
    [done|done|done|done|change (hcb_sb b) with (rw_sb rw); by rewrite <- Hps|done|fold (chunks_bytes chs); fold h; lia|].
  fold (chunks_bytes chs) in Hb1, Hu1. fold h in Hb1, Hu1. cbn in Hpl1.
  assert (verify b1 = rw ← response_writer_set_ready_state (cb_container b1);
                      Some (hcb_with_container b1 rw)) as ->.
  { assert (get_payload_size (hcb_sb b1) = zlen pl) as Hps1
      by (unfold get_payload_size; rewrite Hpl1; symmetry; exact Hps).
    unfold verify. cbv zeta. change (rw_sb (cb_container b1)) with (hcb_sb b1).
    rewrite Hk1, Hu1, Hps1. cbn [b new_response hcb_kind].
    destruct k; cbn in Hu; try done; by rewrite Hu. }
  unfold response_writer_set_ready_state. rewrite Hc1. unfold is_set, is_clear in *. cbn [rw_flags rw_with_sb rw_state].
  cbn [b new_response cb_container]. rewrite Hr, Hresp, bool_decide_true by done.
  cbn [andb c3_assert mbind option_bind]. eexists; split; [done|]. cbn.
  split; [|by constructor]. unfold resp_holds, reader_ok. cbn.
  split_and!; [done|done|by exists rest|by rewrite Hpl1].
Qed.

(** What a client sees in a reader that has received the response. *)
Definition client_sees (rwr : ReaderWriter) : Prop :=
  response_reader_get_type rwr = Some (response_type_of k)
  /\ (it ← response_header_iterator rwr; read_chunks (S (length chs)) (rw_sb rwr) it) = Some chs
  /\ db_bytes (sb_payload (rw_sb rwr)) = pl.

Context (rwr : ReaderWriter).
Hypothesis Hrec : resp_received h pl rwr.

Lemma received_type : response_reader_get_type rwr = Some (response_type_of k).
Proof.
  pose proof respond_type as Hty. destruct Hrec as (Hst & Hok & (r & Hb) & _).
  unfold response_reader_get_type, response_reader_io_completed, get_translated_response_type,
    get_response_type, get_response_descriptor.
  rewrite bool_decide_true by done. cbn [c3_assert mbind option_bind].
  rewrite (get_header_byte_at_of _ _ _ Hok Hb _ _ respond_desc). cbn [mbind option_bind].
  rewrite Hty. destruct Hcan as [_ _ _ _ _ _ _ Hu _]. by destruct k.
Qed.

Lemma received_response_iterator :
  exists it, response_header_iterator rwr = Some it /\ ci_remains it = zlen (chunks_bytes chs)
    /\ (0 < zlen (chunks_bytes chs) -> ci_offset it = zlen h - zlen (chunks_bytes chs)).
Proof.
  pose proof received_type as Hty. pose proof respond_sizeless as Hsl. pose proof respond_offset as Hof.
  destruct Hrec as (Hst & Hok & (r & Hb) & _).
  pose proof respond_wf as (desc' & u & c & Hd & Hs & Hif & Hl & _).
  rewrite respond_desc in Hd. injection Hd as <-. pose proof (zlen_nonneg (chunks_bytes chs)).
  assert (size_length desc = if sized payload (zlen (chunks_bytes chs))
    then estimate_size_bytes (zlen (fixed_layout b payload) + zlen (chunks_bytes chs)) else 0) as Hsz
    by (unfold desc; apply layout_size_length).
  unfold response_header_iterator. rewrite Hty.
  destruct (sized payload (zlen (chunks_bytes chs))) eqn:E.
  - pose proof (estimate_size_bytes_val (zlen (fixed_layout b payload) + zlen (chunks_bytes chs))) as Hv.
    rewrite (response_header_info_ok _ _ _ Hok Hb desc (zlen h)); [|apply respond_desc|done|done|lia|lia].
    cbn [mbind option_bind]. rewrite Hof.
    assert (k <> OkResponseHeader) as Hk.
    { intros Hk. destruct (size_length desc =? 0) eqn:E0; zbool; [lia|]. destruct Hif as [_ Hif].
      destruct Hcan as [_ _ _ _ _ _ _ Hu _]. fold b h in Hu. rewrite Hk in Hu.
      apply andb_true_iff in Hu as [Hu _]. apply orb_true_iff in Hu as [Hu|Hu]; zbool; lia. }
    rewrite !bool_decide_false; cycle 1.
    { by destruct k. }
    { destruct Hcan as [_ _ _ _ _ _ _ Hu _]. by destruct k. }
    cbn [orb]. eexists; split; [done|]. destruct (_ <? zlen h) eqn:E1; zbool; cbn; lia.
  - destruct (Hsl eq_refl) as (Hk & _ & _ & Hcs).
    unfold response_get_header_info, get_response_descriptor.
    rewrite (get_header_byte_at_of _ _ _ Hok Hb _ _ respond_desc). cbn [mbind option_bind].
    unfold size_length in Hsz. unfold RESP_HEADER_BITS, RESP_NO_HEADER.
    destruct (_ =? DESC_NO_HEADER); [|by repeat case_match].
    cbn [mbind option_bind]. rewrite Hk, Hcs. eexists; split; [done|]. done.
Qed.

Lemma received_client_sees : client_sees rwr.
Proof.
  split; [apply received_type|].
  destruct received_response_iterator as (it & -> & Hr & Ho).
  destruct Hrec as (Hst & Hok & (r & Hb) & Hp). split; [|done]. cbn [mbind option_bind].
  destruct Hcan as [_ _ _ _ _ _ HF _ Hlt]. fold b h in Hlt.
  assert (chs = [] \/ chs <> []) as [Hn|Hn] by (destruct chs; [by left|by right]).
  { rewrite Hn in Hr |- *. cbn in *. unfold read_chunk, get_next_chunk_type. by rewrite Hr. }
  assert (0 < zlen (chunks_bytes chs)) as Hpos.
  { unfold chunks_bytes. destruct chs as [|c0 cs]; [done|]. cbn. rewrite zlen_app.
    apply Forall_cons in HF as [Hc0 _]. pose proof (zlen_encode_chunk_pos c0 Hc0).
    pose proof (zlen_nonneg (concat (encode_chunk <$> cs))). lia. }
  specialize (Ho Hpos).
  set (a := before_payload b payload (chunks_bytes chs)
            ++ payload_layout payload (get_payload_size (hcb_sb b))).
  assert (h = a ++ chunks_bytes chs) as Hh by (unfold h, a; by rewrite layout_split, app_assoc).
  assert (zlen h = zlen a + zlen (chunks_bytes chs)) as Hzh by (by rewrite Hh, zlen_app).
  apply (read_chunks_ok (rw_sb rwr) Hok chs it a r HF); fold (chunks_bytes chs).
  - lia.
  - by rewrite Hb, Hh, <- app_assoc.
  - by rewrite Hr.
  - lia.
Qed.

End Response.

Lemma response_bytes_len h pl : response_wf h pl -> zlen (response_bytes h pl) < 2 ^ 64.
Proof.
  intros (desc & u & c & _ & _ & _ & Hl & Hp). unfold response_bytes. rewrite !zlen_app.
  assert (zlen (marker_of h) <= 1) by (unfold marker_of; repeat case_match; done). lia.
Qed.

(** ** Properties *)

(** (C2) End to end for responses: an "OK", "error", "data" or "list" response that
    satisfies the size check of its builder is built without a failing assertion,
    sent byte for byte whatever the fragmentation and number of calls, and received
    from any stream it starts: the client then sees the type of the response, its
    data chunks and its payload, and the bytes that follow stay in the stream. *)
Theorem response_end_to_end {D : Type} `{DeviceLaws D} {E : Type} `{DeviceLaws E}
    (junk junk' : nat -> Z) m rw nc k payload chs pl :
  can_respond rw nc k payload chs pl ->
  let msg := response_bytes (header_layout (new_response rw nc k) payload (chunks_bytes chs)) pl in
  exists w, build_response junk m rw nc k payload chs = Some w
  /\ (forall (d : D) calls fuel, (length msg < fuel)%nat ->
        exists r w' d' n, retry (response_write fuel) calls w d = Some (r, w', d', n)
          /\ (r = IO_RESULT_OK -> dev_out d' = dev_out d ++ msg /\ n = zlen msg))
  /\ (forall rwr (d : E) tail calls fuel,
        reader_ok rwr -> rw_state rwr = IO_STATE_CREATED ->
        using_static_header (rw_sb rwr) = true -> get_payload_size (rw_sb rwr) = 0 ->
        dev_in d = msg ++ tail -> (length msg < fuel)%nat ->
        exists r rwr' d' n, retry (response_read junk' fuel) calls rwr d = Some (r, rwr', d', n)
          /\ (r = IO_RESULT_OK ->
              client_sees k chs pl rwr' /\ dev_in d' = tail /\ n = zlen msg)).
Proof.
  intros Hcan msg.
  destruct (build_response_holds junk m _ _ _ _ _ _ Hcan) as (w & Hw & Hh & Hs).
  pose proof (respond_wf _ _ _ _ _ _ Hcan) as Hwf. exists w. split; [done|].
  assert (zlen msg < 2 ^ 64) as Hlt by by apply response_bytes_len.
  split.
  - intros d calls fuel Hf.
    destruct (resp_write_retry_ok _ _ Hwf fuel calls w d msg) as (r & w' & d' & n & He & Hp); [done..|].
    exists r, w', d', n. split; [done|]. intros ->.
    destruct Hp as (bs & todo & Hm & Ho & -> & -> & _). rewrite app_nil_r in Hm. by rewrite Ho, Hm.
  - intros rwr d tail calls fuel Hok Hst Hsh Hps Hin Hf.
    destruct (resp_read_retry_ok junk' _ _ tail Hwf fuel calls rwr d msg) as (r & rw' & d' & n & He & Hp);
      [done|constructor; auto|done|done|done|].
    exists r, rw', d', n. split; [done|]. intros ->. destruct Hp as (-> & Hrec & Hd).
    split_and!; [|done|done]. by eapply received_client_sees.
Qed.

Module ResponseExchange.

Definition writer : ReaderWriter :=
  mkReaderWriter Exchange.sb 3 0 0 0 DOMAIN_FPC IO_STATE_CREATED
    (Z.lor IO_FLAG_IS_RESPONSE IO_FLAG_NETWORK).

Definition msg : bytes :=
  response_bytes (header_layout (new_response writer Exchange.nc ListResponseHeader)
    Exchange.payload (chunks_bytes [CNumber 2])) Exchange.payload_data.

(** The payload arrives in two parts, so that the reader returns in between. *)
Definition peer : SocketDevice Peer :=
  Socket (mkPeer (msg ++ [9]) [] [Move 0; Move 5; Move 5; Move 2; Move 9]).

Lemma can_answer : can_respond writer Exchange.nc ListResponseHeader Exchange.payload [CNumber 2]
  Exchange.payload_data.
Proof.
  constructor; try done.
  - split; [by split_and!|]. split; [done|]. by right.
  - repeat constructor; done.
Defined.

End ResponseExchange.

Lemma response_end_to_end_witness :
  exists rwr d n,
    retry (response_read Exchange.zeros 100) 5 Exchange.reader ResponseExchange.peer
      = Some (IO_RESULT_OK, rwr, d, n)
    /\ client_sees ListResponseHeader [CNumber 2] Exchange.payload_data rwr
    /\ dev_in d = [9].
Proof.
  destruct (response_end_to_end (D := FileDevice Peer) (E := SocketDevice Peer)
    Exchange.zeros Exchange.zeros Exchange.mem ResponseExchange.writer Exchange.nc ListResponseHeader
    Exchange.payload [CNumber 2] Exchange.payload_data ResponseExchange.can_answer) as (w & _ & _ & Hr).
  assert (length ResponseExchange.msg < 100)%nat as Hf by (vm_compute; lia).
  destruct (Hr Exchange.reader ResponseExchange.peer [9] 5%nat 100%nat Exchange.reader_fresh
    eq_refl eq_refl eq_refl eq_refl Hf) as (r & rwr & d & n & He & Hp).
  exists rwr, d, n. assert (r = IO_RESULT_OK) as ->.
  { vm_compute in He. by injection He. }
  split; [exact He|]. destruct (Hp eq_refl) as (Hs & Hd & _). exact (conj Hs Hd).
Defined.
