(* ===== verification/Transmission.v ===== *)
(** * Transmission

    Properties of the single steps of a transmission, for messages of any
    origin: the reader and the writer on any well-formed message, the chunk
    iterator on any header, the password fields, and the places where the code
    relies on bytes it has not received or does not own. *)

From S2P Require Import Prelude Protocol Memory Buffers ChunkBuilder HeaderBuild ChunkIterator RoundTrip Devices Accessors MessageIO CommandIO EndToEnd.

(** (C4) The command reader on a stream that starts with any well-formed command: for
    every device, fragmentation and number of calls, no assertion fails and the
    loop ends; on success header and payload buffers hold exactly the bytes of the
    command, and the rest of the stream is untouched; when told to retry it has
    consumed a prefix of the command and nothing else, and resumes from there;
    in every other case it is in the error state. *)
Theorem command_reader_receives {D : Type} `{DeviceLaws D} (junk : nat -> Z) h pl tail
    (rw : ReaderWriter) (d : D) calls fuel :
  command_wf h pl -> reader_ok rw -> rw_state rw = IO_STATE_CREATED ->
  using_static_header (rw_sb rw) = true -> get_payload_size (rw_sb rw) = 0 ->
  dev_in d = command_bytes h pl ++ tail -> (length (command_bytes h pl) < fuel)%nat ->
  exists r rw' d' n, retry (command_read junk fuel) calls rw d = Some (r, rw', d', n) /\
    match r with
    | IO_RESULT_OK =>
        command_reader_io_completed rw' = true
        /\ (exists x, header_buffer (rw_sb rw') = h ++ x) /\ db_bytes (sb_payload (rw_sb rw')) = pl
        /\ dev_in d' = tail /\ n = zlen (command_bytes h pl)
    | IO_RESULT_RETRY =>
        exists bs todo, command_bytes h pl = bs ++ todo /\ receiving h pl rw' todo
          /\ dev_in d' = todo ++ tail /\ n = zlen bs
    | _ => rw_state rw' = IO_STATE_ERROR
    end.
Proof.
  intros Hwf Hok Hst Hsh Hps Hin Hf.
  destruct (read_retry_ok junk h pl tail Hwf fuel calls rw d (command_bytes h pl))
    as (r & rw' & d' & n & He & Hp); [done|constructor; auto|done|by apply command_bytes_len|done|].
  exists r, rw', d', n. split; [done|]. destruct r; try done.
  - destruct Hp as (-> & (Hst' & Hok' & Hx & Hpl) & Hd).
    unfold command_reader_io_completed. by rewrite bool_decide_true.
  - destruct Hp as (bs & todo & Hm & -> & _ & Hrec & Hd). by exists bs, todo.
Qed.

Lemma command_reader_receives_witness :
  exists r rw' d' n,
    retry (command_read Exchange.zeros 100) 0 Exchange.reader Exchange.peer = Some (r, rw', d', n)
    /\ exists bs todo, Exchange.msg = bs ++ todo /\ dev_in d' = todo ++ [9; 9] /\ n = zlen bs.
Proof.
  set (h := header_layout (new_command Exchange.writer Exchange.nc CMD_SAVE false)
              Exchange.payload (chunks_bytes Exchange.chunks)).
  assert (command_wf h Exchange.payload_data) as Hwf
    by exact (build_command_wf _ _ _ _ _ _ _ Exchange.can_send).
  assert (length (command_bytes h Exchange.payload_data) < 100)%nat as Hf by (vm_compute; lia).
  assert (dev_in Exchange.peer = command_bytes h Exchange.payload_data ++ [9; 9]) as Hin
    by (vm_compute; reflexivity).
  destruct (command_reader_receives (D := SocketDevice Peer) Exchange.zeros h Exchange.payload_data
    [9; 9] Exchange.reader Exchange.peer 0%nat 100%nat Hwf Exchange.reader_fresh eq_refl eq_refl
    eq_refl Hin Hf) as (r & rw' & d' & n & He & Hp).
  exists r, rw', d', n. split; [exact He|]. assert (r = IO_RESULT_RETRY) as ->.
  { vm_compute in He. by injection He. }
  destruct Hp as (bs & todo & Hm & _ & Hd & Hn). exists bs, todo.
  exact (conj Hm (conj Hd Hn)).
Defined.

(** (C5) The command writer: for every device, fragmentation and number of calls, no
    assertion fails and the loop ends; what went out is always a prefix of the
    command's bytes (header, payload, integrity marker), all of them on success;
    after a retry the rest is still to be sent, and only after success is the
    writer done. *)
Theorem command_writer_sends {D : Type} `{DeviceLaws D} h pl (rw : ReaderWriter) (d : D) calls fuel :
  command_wf h pl -> holds h pl rw -> rw_state rw = IO_STATE_COMMAND_WRITE_READY ->
  (length (command_bytes h pl) < fuel)%nat ->
  exists r rw' d' n bs todo, retry (command_write fuel) calls rw d = Some (r, rw', d', n)
    /\ command_bytes h pl = bs ++ todo /\ dev_out d' = dev_out d ++ bs
    /\ (command_writer_io_completed rw' = true <-> r = IO_RESULT_OK)
    /\ match r with
       | IO_RESULT_OK => todo = [] /\ n = zlen bs
       | IO_RESULT_RETRY => sending h pl rw' todo /\ n = zlen bs
       | _ => rw_state rw' = IO_STATE_ERROR
       end.
Proof.
  intros Hwf Hh Hst Hf.
  destruct (write_retry_ok h pl Hwf fuel calls rw d (command_bytes h pl))
    as (r & rw' & d' & n & He & (bs & todo & Hm & Ho & Hp));
    [done|by constructor|by apply command_bytes_len|done|].
  exists r, rw', d', n, bs, todo. split; [done|]. split; [done|]. split; [done|].
  unfold command_writer_io_completed. rewrite bool_decide_eq_true. destruct r.
  - destruct Hp as (-> & -> & _ & ->). rewrite Hm, app_nil_r. done.
  - by rewrite Hp.
  - destruct Hp as (-> & _ & Hs). split; [|done]. split; [|done]. intros Hd. exfalso.
    destruct Hs; congruence.
  - by rewrite Hp.
Qed.

Lemma command_writer_sends_witness :
  exists w r rw' d' n bs todo,
    build_command Exchange.zeros Exchange.mem Exchange.writer Exchange.nc CMD_SAVE false
      Exchange.payload Exchange.chunks = Some w
    /\ retry (command_write 100) 1 w
         (Socket (mkPeer [] [1] [Move 3; Fails EAGAIN; Move 4; Fails EPIPE])) = Some (r, rw', d', n)
    /\ Exchange.msg = bs ++ todo /\ dev_out d' = [1] ++ bs.
Proof.
  destruct (build_command_holds Exchange.zeros Exchange.mem _ _ _ _ _ _ _ Exchange.can_send)
    as (w & Hw & Hh & Hs).
  set (h := header_layout (new_command Exchange.writer Exchange.nc CMD_SAVE false)
              Exchange.payload (chunks_bytes Exchange.chunks)) in *.
  assert (command_wf h Exchange.payload_data) as Hwf
    by exact (build_command_wf _ _ _ _ _ _ _ Exchange.can_send).
  assert (length (command_bytes h Exchange.payload_data) < 100)%nat as Hf by (vm_compute; lia).
  assert (rw_state w = IO_STATE_COMMAND_WRITE_READY) as Hst
    by (vm_compute in Hw; injection Hw as <-; reflexivity).
  destruct (command_writer_sends (D := SocketDevice Peer) h Exchange.payload_data w
    (Socket (mkPeer [] [1] [Move 3; Fails EAGAIN; Move 4; Fails EPIPE])) 1%nat 100%nat Hwf Hh Hst Hf)
    as (r & rw' & d' & n & bs & todo & He & Hm & Ho & _).
  exists w, r, rw', d', n, bs, todo. exact (conj Hw (conj He (conj Hm Ho))).
Defined.

(** (C6) A command header is built without a failing assertion, the estimated sizes are
    the sizes written, and the header is exactly its reference layout: descriptor,
    size of what follows, command code, password hash, payload sizes, data chunks.
    The payload is untouched and the writer is ready. *)
Theorem command_header_layout junk rw nc cmd admin payload l bss :
  fresh_writer rw -> is_clear rw IO_FLAG_IS_RESPONSE = true -> cmd <> CMD_INVALID ->
  payload_ok payload (get_payload_size (rw_sb rw)) -> Forall2 item_encodes l bss ->
  zlen (header_layout (new_command rw nc cmd admin) payload (concat bss)) < 2 ^ 32 ->
  exists b b' rest, command_builder rw nc cmd admin = Some b
    /\ build_header junk b payload l = Some b'
    /\ header_buffer (hcb_sb b')
       = header_layout (new_command rw nc cmd admin) payload (concat bss) ++ rest
    /\ rw_state (cb_container b') = IO_STATE_COMMAND_WRITE_READY
    /\ sb_payload (hcb_sb b') = sb_payload (rw_sb rw).
Proof.
  intros Hf Hr Hc Hp HF Hlt.
  destruct (build_command_ok junk rw nc cmd admin payload l bss) as (b & Hb & Hbuild); [done..|].
  assert (b = new_command rw nc cmd admin) as -> by (unfold command_builder in Hb; by inv_opt).
  destruct (Hbuild Hlt) as (b' & rest & He & _ & Hh & Hcb & Hpb).
  exists (new_command rw nc cmd admin), b', rest. rewrite Hcb. done.
Qed.

Lemma command_header_layout_witness :
  let rw := rw_with_sb Exchange.writer (sb_init Exchange.zeros Exchange.mem) in
  exists b b' rest, command_builder rw Exchange.nc CMD_SAVE true = Some b
    /\ build_header Exchange.zeros b None [INumber 300; IString [65]] = Some b'
    /\ header_buffer (hcb_sb b')
       = [134; 13; 67; 7; 0; 0; 0; 0; 0; 0; 0; 232; 228; 217; 65] ++ rest.
Proof.
  intros rw.
  destruct (command_header_layout Exchange.zeros rw Exchange.nc CMD_SAVE true None
    [INumber 300; IString [65]] [encode_number 300; encode_string [65]])
    as (b & b' & rest & Hb & He & Hh & _);
    [by split_and!|done|done|done|repeat constructor; done|by vm_compute|].
  exists b, b', rest. exact (conj Hb (conj He Hh)).
Defined.

(** (C7) Chunks read from a header are the chunks that were encoded into it: for any
    list of numbers in the protocol's range, strings and string lists, at any
    offset and with anything around them, and then the iterator reports the end. *)
Theorem header_chunks_round_trip sb it a c chs :
  sb_ok sb -> Forall chunk_ok chs -> ci_offset it = zlen a ->
  header_buffer sb = a ++ concat (encode_chunk <$> chs) ++ c ->
  ci_remains it = zlen (concat (encode_chunk <$> chs)) ->
  zlen a + zlen (concat (encode_chunk <$> chs)) < UINT_MAX_VAL ->
  read_chunks (S (length chs)) sb it = Some chs.
Proof. intros Hok HF. intros. by eapply read_chunks_ok. Qed.

Lemma header_chunks_round_trip_witness :
  let chs := [CNumber (-2147483648); CNumber 4294967295; CString (replicate 100 9); CList []] in
  let sb := mkSharedBuffers Exchange.mem
    (mkDataBuffer (Some ([1; 2] ++ chunks_bytes chs ++ [3])) (3 + zlen (chunks_bytes chs)))
    empty_db (fresh Exchange.zeros 12) 1 in
  read_chunks 5 sb (mkChunkIterator 2 (zlen (chunks_bytes chs))) = Some chs.
Proof.
  intros chs sb.
  apply (header_chunks_round_trip sb (mkChunkIterator 2 (zlen (chunks_bytes chs))) [1; 2] [3] chs).
  - by split_and!.
  - repeat constructor; done.
  - reflexivity.
  - reflexivity.
  - reflexivity.
  - by vm_compute.
Defined.

(** On every header, valid or not, the chunk type announced by
    [get_next_chunk_type] is the type of the chunk that [get_next_chunk]
    retrieves. *)
Theorem chunk_type_announced sb it d it' :
  get_next_chunk sb it = Some (d, it') -> get_next_chunk_type sb it = Some (chunk_type d).
Proof. apply next_type_agrees. Qed.

Lemma chunk_type_announced_witness :
  let sb := mkSharedBuffers Exchange.mem (mkDataBuffer (Some [0xE0; 5]) 2) empty_db
              (fresh Exchange.zeros 12) 1 in
  get_next_chunk_type sb (mkChunkIterator 0 2) = Some CHUNK_LIST.
Proof.
  intros sb. apply (chunk_type_announced sb (mkChunkIterator 0 2) (ListData 0) (mkChunkIterator 1 1)).
  reflexivity.
Defined.

(** ** Passwords *)

(** A header with a password: descriptor, size bytes, command code, hash. *)
Definition password_header (h : bytes) (desc : Z) (sz hash rest : bytes) (id : Z) : Prop :=
  h = desc :: sz ++ id :: hash ++ rest /\ is_u8 desc /\ zlen sz = size_length desc
  /\ zlen hash = 8.

Lemma land_lor_fields desc type :
  is_u8 desc -> 0 <= type <= 3 ->
  let d := Z.lor (Z.land desc (Z.lnot DESC_AUTH_BITS)) type in
  u8 d = d /\ Z.land d DESC_AUTH_BITS = type /\ Z.land d DESC_HEADER_BITS = Z.land desc DESC_HEADER_BITS.
Proof.
  intros Hd Ht d. subst d.
  pose (P desc type := let d := Z.lor (Z.land desc (Z.lnot DESC_AUTH_BITS)) type in
    (u8 d =? d) && ((Z.land d DESC_AUTH_BITS =? type)
    && (Z.land d DESC_HEADER_BITS =? Z.land desc DESC_HEADER_BITS))).
  assert (forallb (fun d => forallb (P d) (seqZ 0 4)) (seqZ 0 256) = true) as H by (vm_compute; reflexivity).
  apply (seqZ_forallb _ 0 256) with (z := desc) in H; [|unfold is_u8 in Hd; lia].
  apply (seqZ_forallb _ 0 4) with (z := type) in H; [|lia].
  unfold P in H. zbool. done.
Qed.

(** Normalises concatenations on both sides of an equation. *)
Ltac app_norm := cbn [app]; rewrite <- ?app_assoc; cbn [app]; rewrite <- ?app_assoc; reflexivity.

(** Putting back the same password type changes nothing. *)
Lemma auth_bits_keep desc :
  desc = Z.lor (Z.land desc (Z.lnot DESC_AUTH_BITS)) (Z.land desc DESC_AUTH_BITS).
Proof.
  apply Z.bits_inj'. intros n Hn. rewrite Z.lor_spec, !Z.land_spec, Z.lnot_spec by lia.
  destruct (Z.testbit desc n), (Z.testbit DESC_AUTH_BITS n); done.
Qed.

Section Password.
Context (sb : SharedBuffers) (h r : bytes) (desc : Z) (sz hash rest : bytes) (id : Z).
Hypothesis Hok : sb_ok sb.
Hypothesis Hb : header_buffer sb = h ++ r.
Hypothesis Hh : password_header h desc sz hash rest id.

(** Storing the hash where the header keeps it. *)
Lemma put_hash_at v :
  exists sb', (n ← get_command_header_data_size_length sb; set_header_ulong_at sb (n + 2) v) = Some sb'
    /\ sb_ok sb' /\ hdr_frame sb sb'
    /\ header_buffer sb' = (desc :: sz ++ id :: le_bytes 8 v ++ rest) ++ r.
Proof.
  destruct Hh as (Hhe & Hu & Hsz & Hl).
  assert (byte_at h 0 = Some desc) as Hd by (by rewrite Hhe).
  rewrite (size_length_of _ _ _ Hok Hb _ Hd). cbn [mbind option_bind].
  replace (size_length desc + 2) with (zlen (desc :: sz ++ [id]))
    by (rewrite zlen_cons, zlen_app; change (zlen [id]) with 1; lia).
  destruct (hdr_set_ok sb Hok (desc :: sz ++ [id]) hash (rest ++ r) 2 (le_bytes 8 v))
    as (sb' & He & Hok' & Hf & Hb'); [|by rewrite zlen_le_bytes|by rewrite zlen_le_bytes; lia|].
  { rewrite Hb, Hhe. app_norm. }
  exists sb'. split; [by rewrite set_header_ulong_at_eq|]. split; [done|]. split; [done|].
  rewrite Hb'. app_norm.
Qed.

Lemma get_hash_at :
  get_command_pwd_hash sb
  = Some (Z.land desc DESC_AUTH_BITS,
          if Z.land desc DESC_AUTH_BITS =? CPT_NO_PASSWORD then None else Some (le_val hash)).
Proof.
  destruct Hh as (Hhe & Hu & Hsz & Hl).
  assert (byte_at h 0 = Some desc) as Hd by (by rewrite Hhe).
  unfold get_command_pwd_hash, get_auth_type, get_command_descriptor.
  rewrite (get_header_byte_at_of _ _ _ Hok Hb _ _ Hd). cbn [mbind option_bind].
  destruct (_ =? CPT_NO_PASSWORD); [done|]. cbn [negb].
  rewrite (size_length_of _ _ _ Hok Hb _ Hd). cbn [mbind option_bind].
  replace (size_length desc + 2) with (zlen (desc :: sz ++ [id]))
    by (rewrite zlen_cons, zlen_app; change (zlen [id]) with 1; lia).
  rewrite (get_header_ulong_at_ok sb Hok (desc :: sz ++ [id]) hash (rest ++ r)); [done| |done].
  rewrite Hb, Hhe. app_norm.
Qed.

End Password.

(** Replacing the hash of a header that has one, of the type in its descriptor. *)
Lemma replace_hash_ok sb r desc sz hash rest id type v :
  sb_ok sb -> password_header (desc :: sz ++ id :: hash ++ rest) desc sz hash rest id ->
  header_buffer sb = (desc :: sz ++ id :: hash ++ rest) ++ r -> Z.land desc DESC_AUTH_BITS = type -> type <> CPT_NO_PASSWORD -> is_u64 v ->
  exists sb', (n ← get_command_header_data_size_length sb;
               sb ← set_header_ulong_at sb (n + 2) v; Some (true, sb)) = Some (true, sb')
    /\ header_buffer sb' = (desc :: sz ++ id :: le_bytes 8 v ++ rest) ++ r
    /\ get_command_pwd_hash sb' = Some (type, Some v) /\ sb_payload sb' = sb_payload sb.
Proof.
  intros Hok Hh Hb Ht Hne Hv. destruct (put_hash_at sb _ r desc sz hash rest id Hok Hb Hh v) as (sb' & He & Hok' & Hf & Hb').
  destruct (get_command_header_data_size_length sb) as [n|]; [|done].
  cbn [mbind option_bind] in *. rewrite He. cbn [mbind option_bind]. exists sb'.
  split; [done|]. split; [done|]. destruct Hf as (_ & Hp & _). split; [|done].
  rewrite (get_hash_at sb' (desc :: sz ++ id :: le_bytes 8 v ++ rest) r desc sz (le_bytes 8 v) rest id Hok' Hb').
  - rewrite Ht, (proj2 (Z.eqb_neq type CPT_NO_PASSWORD) Hne). do 3 f_equal. rewrite le_val_le_bytes. by apply Z.mod_small.
  - destruct Hh as (_ & ? & ? & _). split_and!; try done.
Qed.

(** Changing the password of a finished command header: a header that has a
    password gets the new type and hash, nothing else in it changes, and they are
    what the receiver reads; a password cannot be added or removed, in which case
    the header is untouched and [false] is returned. *)
Theorem set_command_pwd_hash_spec sb h r desc sz hash rest id type v :
  sb_ok sb -> header_buffer sb = h ++ r -> password_header h desc sz hash rest id ->
  0 <= type <= 3 -> is_u64 v ->
  let auth := Z.land desc DESC_AUTH_BITS in
  if (auth =? CPT_NO_PASSWORD) || (type =? CPT_NO_PASSWORD) then
    set_command_pwd_hash sb type v = Some (auth =? type, sb)
  else
    exists sb' desc', set_command_pwd_hash sb type v = Some (true, sb')
      /\ header_buffer sb' = (desc' :: sz ++ id :: le_bytes 8 v ++ rest) ++ r
      /\ Z.land desc' DESC_AUTH_BITS = type
      /\ desc' = Z.lor (Z.land desc (Z.lnot DESC_AUTH_BITS)) type
      /\ get_command_pwd_hash sb' = Some (type, Some v)
      /\ sb_payload sb' = sb_payload sb.
Proof.
  intros Hok Hb Hh Ht Hv auth. pose proof Hh as (Hhe & Hu & Hsz & Hl).
  assert (byte_at h 0 = Some desc) as Hd by (by rewrite Hhe).
  unfold set_command_pwd_hash, get_command_descriptor.
  rewrite (get_header_byte_at_of _ _ _ Hok Hb _ _ Hd). cbn [mbind option_bind]. fold auth.
  unfold CPT_NO_PASSWORD, DESC_NO_AUTH in *.
  destruct (land_lor_fields desc type Hu Ht) as (Hu8 & Hau & Hhb).
  set (desc' := Z.lor _ type) in *.
  destruct (auth =? 0) eqn:E0; zbool; [cbn [orb]|destruct (type =? 0) eqn:E1; zbool; cbn [orb]].
  - destruct (auth =? type) eqn:E; zbool; cbn [negb]; [|done].
    rewrite <- E, E0. done.
  - assert (auth =? type = false) as -> by (apply Z.eqb_neq; lia). cbn [negb]. done.
  - destruct (auth =? type) eqn:E; zbool; cbn [negb].
    + destruct (replace_hash_ok sb r desc sz hash rest id type v) as (sb' & He & Hb' & Hg & Hp); [done|by rewrite Hhe in Hh|by rewrite Hb, Hhe|done..|].
      assert (desc = desc') as Hdd by (unfold desc'; rewrite <- E; apply auth_bits_keep).
      exists sb', desc. rewrite <- Hdd. split; [exact He|]. by split_and!.
    + destruct (hdr_set_ok sb Hok [] [desc] ((sz ++ id :: hash ++ rest) ++ r) 1 [u8 desc'])
        as (sb1 & He1 & Hok1 & Hf1 & Hb1); [by rewrite Hb, Hhe|done|by change (zlen _) with 1|].
      change (zlen []) with 0 in He1. rewrite set_header_byte_at_eq, He1.
      cbn [mbind option_bind]. rewrite Hu8 in Hb1.
      destruct (replace_hash_ok sb1 r desc' sz hash rest id type v) as (sb' & He & Hb' & Hg & Hp); try done.
      * split_and!; try done; [rewrite <- Hu8; apply u8_range|].
        rewrite Hsz. unfold size_length. by rewrite Hhb.
      * exists sb', desc'. split; [exact He|]. destruct Hf1 as (_ & Hp1 & _). split_and!; try done. by rewrite Hp.
Qed.

Lemma set_command_pwd_hash_spec_witness :
  let h := [0x85; 9; 0x43] ++ le_bytes 8 77 in
  let sb := mkSharedBuffers Exchange.mem empty_db empty_db (h ++ [0]) 1 in
  exists sb', set_command_pwd_hash sb CPT_ADMIN_PASSWORD 12345 = Some (true, sb')
    /\ get_command_pwd_hash sb' = Some (CPT_ADMIN_PASSWORD, Some 12345).
Proof.
  intros h sb.
  destruct (set_command_pwd_hash_spec sb h [0] 0x85 [9] (le_bytes 8 77) [] 0x43 CPT_ADMIN_PASSWORD 12345)
    as (sb' & desc' & He & _ & _ & _ & Hg & _);
    [by split_and!|reflexivity|by split_and!|done|done|].
  exists sb'. exact (conj He Hg).
Defined.

(** ** Bytes that were not received, and bytes that are not owned *)

(** A reader whose static header buffer holds [b] in every byte. *)
Definition stale_reader (b : Z) : ReaderWriter :=
  mkReaderWriter (mkSharedBuffers Exchange.mem empty_db empty_db (replicate 12 b) 1)
    4 0 0 0 DOMAIN_FPC IO_STATE_CREATED (Z.lor IO_FLAG_IS_READER IO_FLAG_NETWORK).

(** A command whose descriptor announces a payload, but whose header of three bytes
    (descriptor, size, command code) has no payload size in it. *)
Definition short_command : bytes := [Z.lor DESC_BYTE_HEADER DESC_BYTE_PAYLOAD; 1; command_code CMD_TEST].

(** (C10) [get_payload_info] checks the payload size field against the 12 bytes of the
    static header buffer rather than against the size of the header: after the
    three bytes of [short_command] the reader expects as many payload bytes as the
    next byte of the buffer says, a byte it never received. *)
Theorem reader_trusts_unreceived_size b :
  0 < b < 256 ->
  exists rw' d', command_read Exchange.zeros 10 (stale_reader b)
      (Socket (mkPeer short_command [] [Move 0; Move 0; Move 0; Fails EAGAIN]))
    = Some (IO_RESULT_RETRY, rw', d', 3)
    /\ rw_state rw' = IO_STATE_COMMAND_READ_PAYLOAD_BYTES /\ rw_remains rw' = b.
Proof.
  intros Hb.
  pose (P b := match command_read Exchange.zeros 10 (stale_reader b)
      (Socket (mkPeer short_command [] [Move 0; Move 0; Move 0; Fails EAGAIN])) with
    | Some (IO_RESULT_RETRY, rw', _, n) =>
        bool_decide (rw_state rw' = IO_STATE_COMMAND_READ_PAYLOAD_BYTES)
        && ((rw_remains rw' =? b) && (n =? 3))
    | _ => false
    end).
  assert (forallb P (seqZ 1 255) = true) as HP by (vm_compute; reflexivity).
  apply (seqZ_forallb _ 1 255) with (z := b) in HP; [|lia]. unfold P in HP.
  destruct (command_read _ _ _ _) as [[[[[] rw'] d'] n]|]; try done.
  apply andb_true_iff in HP as [Hs HP]. apply bool_decide_eq_true in Hs. zbool. subst n.
  by exists rw', d'.
Qed.

Lemma reader_trusts_unreceived_size_witness :
  exists rw' d', command_read Exchange.zeros 10 (stale_reader 200)
      (Socket (mkPeer short_command [] [Move 0; Move 0; Move 0; Fails EAGAIN]))
    = Some (IO_RESULT_RETRY, rw', d', 3) /\ rw_remains rw' = 200.
Proof.
  destruct (reader_trusts_unreceived_size 200) as (rw' & d' & He & _ & Hr); [lia|].
  exists rw', d'. exact (conj He Hr).
Defined.




