(* ===== verification/Queue.v ===== *)
(** * Queue

    The ring buffer of [c3_queue.h] ([Queue]), which [mt_message_queue.h] repeats
    for [MessageQueue]: capacity rules, reallocation, put and get; and what the
    queues require of the objects they move around (the classes [Message] and
    [MessageLaws], with instances for [Pointer] of [c3_types.h] and for
    [CommandMessage] of [mt_message_queue.h]). The invariant [ring] relates a ring
    buffer to the list of its elements. *)

From S2P Require Import Prelude Protocol Memory Utils.

(** ** Elements *)

(** What the queues use of a type: [T()], the object made of zero bytes ([calloc]),
    the move constructor (the new object and what is left of the old one), the
    move assignment [d = std::move(s)] ([d] and [s] afterwards) and [sizeof(T)]. *)
Class Message (T : Type) := {
  msg_default : T;
  msg_zero : T;
  move_ctor : T -> T * T;
  move_assign : T -> T -> T * T;
  msg_size : Z;
}.

(** [inert x]: [x] owns nothing, so that its destructor has no effect. *)
Class MessageLaws (T : Type) `{Message T} := {
  inert : T -> Prop;
  inert_default : inert msg_default;
  inert_zero : inert msg_zero;
  move_ctor_fst x : fst (move_ctor x) = x;
  move_ctor_snd x : inert (snd (move_ctor x));
  move_assign_fst d s : fst (move_assign d s) = s;
  move_assign_snd d s : inert d -> inert (snd (move_assign d s));
  msg_size_range : 0 < msg_size < 2 ^ 16;
}.

(** [Pointer]: an object with the implicit move operations, which copy. *)
Record Pointer := mkPointer { p_pointer : Z }.
Definition p_is_valid (p : Pointer) : bool := negb (p_pointer p =? 0).

#[global] Instance PointerMessage : Message Pointer := {
  msg_default := mkPointer 0;
  msg_zero := mkPointer 0;
  move_ctor p := (p, p);
  move_assign _ s := (s, s);
  msg_size := 8;
}.

#[global] Instance PointerMessage_laws : MessageLaws Pointer.
Proof. refine {| inert _ := True |}; done. Defined.

(** ** The queue *)

Record Queue (T : Type) := mkQueue {
  q_memory : Memory;
  q_buffer : option (list T);
  q_max_capacity : Z;
  q_capacity : Z;
  q_count : Z;
  q_put_index : Z;
  q_get_index : Z;
  q_index_mask : Z;
}.
Arguments mkQueue {T}. Arguments q_memory {T}. Arguments q_buffer {T}.
Arguments q_max_capacity {T}. Arguments q_capacity {T}. Arguments q_count {T}.
Arguments q_put_index {T}. Arguments q_get_index {T}. Arguments q_index_mask {T}.

Definition Q_MIN_ALLOWED_CAPACITY : Z := 1.
Definition Q_MAX_ALLOWED_CAPACITY : Z := USHORT_MAX_VAL + 1.

Definition validate_capacity (capacity : Z) : Z :=
  let capacity := if capacity <? Q_MIN_ALLOWED_CAPACITY then Q_MIN_ALLOWED_CAPACITY else capacity in
  let capacity := if Q_MAX_ALLOWED_CAPACITY <? capacity then Q_MAX_ALLOWED_CAPACITY else capacity in
  get_next_power_of_2 capacity.

Section Operations.
Context {T : Type} `{Message T}.

(** [q[i]] as an array access *)
Definition slot (b : list T) (i : Z) : option T := if 0 <=? i then b !! Z.to_nat i else None.
Definition set_slot (b : list T) (i : Z) (x : T) : list T := <[Z.to_nat i := x]> b.

(** [for (i ...; i < n) buffer[i] = std::move(old[(get + i) & mask])] *)
Fixpoint move_elements (n : nat) (i get_index mask : Z) (old buffer : list T)
  : option (list T * list T) :=
  match n with
  | O => Some (buffer, old)
  | S n =>
      let j := Z.land (u32 (get_index + i)) mask in
      s ← slot old j;
      d ← slot buffer i;
      let '(d, s) := move_assign d s in
      move_elements n (i + 1) get_index mask (set_slot old j s) (set_slot buffer i d)
  end.

(** The body of [if (capacity != q_capacity)] in [configure_capacity]. *)
Definition q_resize (q : Queue T) (capacity : Z) : option (Queue T) :=
  m ← calloc (q_memory q) capacity msg_size;
  let buffer := replicate (Z.to_nat capacity) msg_zero in
  '(buffer, m) ← match q_buffer q with
    | Some old =>
        '(buffer, _) ← move_elements (Z.to_nat (q_count q)) 0 (q_get_index q) (q_index_mask q) old buffer;
        m ← free m (u64 (q_capacity q * msg_size));
        Some (buffer, m)
    | None => Some (buffer, m)
    end;
  let mask := u32 (capacity - 1) in
  Some (mkQueue m (Some buffer) (q_max_capacity q) capacity (q_count q)
          (Z.land (q_count q) mask) 0 mask).

Definition q_configure_capacity (q : Queue T) (capacity : Z) : option (Queue T) :=
  let capacity := validate_capacity capacity in
  let capacity := if q_max_capacity q <? capacity then q_max_capacity q else capacity in
  let min_possible_capacity := get_next_power_of_2 (q_count q) in
  let capacity := if capacity <? min_possible_capacity then min_possible_capacity else capacity in
  if negb (capacity =? q_capacity q) then q_resize q capacity else Some q.

Definition q_with_max_capacity (q : Queue T) (n : Z) : Queue T :=
  mkQueue (q_memory q) (q_buffer q) n (q_capacity q) (q_count q) (q_put_index q)
    (q_get_index q) (q_index_mask q).

Definition q_configure_max_capacity (q : Queue T) (max_capacity : Z) : option (Queue T) :=
  let max_capacity := validate_capacity max_capacity in
  if max_capacity <? q_capacity q then
    q ← q_configure_capacity q max_capacity;
    let max_capacity := if max_capacity <? q_capacity q then q_capacity q else max_capacity in
    Some (q_with_max_capacity q max_capacity)
  else Some (q_with_max_capacity q max_capacity).

Definition q_reset_fields (m : Memory) : Queue T := mkQueue m None 0 0 0 0 0 0.

Definition q_create (m : Memory) (capacity max_capacity : Z) : option (Queue T) :=
  q ← q_configure_max_capacity (q_reset_fields m)
        (if 0 <? max_capacity then max_capacity else capacity);
  q_configure_capacity q capacity.

Definition q_dispose (q : Queue T) : option (Queue T) :=
  match q_buffer q with
  | Some _ =>
      _ ← c3_assert (negb (q_capacity q =? 0));
      m ← free (q_memory q) (u64 (q_capacity q * msg_size));
      Some (q_reset_fields m)
  | None => Some q
  end.

Definition q_has_messages (q : Queue T) : bool := negb (q_count q =? 0).

Definition q_set_capacity (q : Queue T) (capacity : Z) : option (Z * Queue T) :=
  _ ← q_buffer q;
  q ← q_configure_capacity q capacity;
  Some (q_capacity q, q).

Definition q_set_max_capacity (q : Queue T) (max_capacity : Z) : option (Z * Queue T) :=
  _ ← q_buffer q;
  q ← q_configure_max_capacity q max_capacity;
  Some (q_max_capacity q, q).

(** [q_buffer[q_put_index++] = std::move(o); q_put_index &= q_index_mask; q_count++];
    also returns what is left in [o]. *)
Definition q_store (q : Queue T) (o : T) : option (Queue T * T) :=
  b ← q_buffer q;
  d ← slot b (q_put_index q);
  let '(d, o) := move_assign d o in
  Some (mkQueue (q_memory q) (Some (set_slot b (q_put_index q) d)) (q_max_capacity q)
          (q_capacity q) (u32 (q_count q + 1))
          (Z.land (u32 (q_put_index q + 1)) (q_index_mask q)) (q_get_index q) (q_index_mask q), o).

(** [T result = std::move(q_buffer[q_get_index++]); q_get_index &= q_index_mask;
    q_count--; return std::move(result)] *)
Definition q_fetch (q : Queue T) : option (T * Queue T) :=
  b ← q_buffer q;
  x ← slot b (q_get_index q);
  let '(result, x) := move_ctor x in
  Some (fst (move_ctor result),
        mkQueue (q_memory q) (Some (set_slot b (q_get_index q) x)) (q_max_capacity q)
          (q_capacity q) (u32 (q_count q - 1)) (q_put_index q)
          (Z.land (u32 (q_get_index q + 1)) (q_index_mask q)) (q_index_mask q)).

(** Result, queue, and what is left in the argument. *)
Definition q_put (q : Queue T) (o : T) : option (bool * Queue T * T) :=
  _ ← q_buffer q;
  if q_count q =? q_capacity q then
    q ← (if q_capacity q <? q_max_capacity q
         then q_configure_capacity q (u32 (q_capacity q * 2)) else Some q);
    if q_count q =? q_capacity q then
      _ ← c3_assert (q_get_index q =? q_put_index q);
      Some (false, q, o)
    else '(q, o) ← q_store q o; Some (true, q, o)
  else '(q, o) ← q_store q o; Some (true, q, o).

Definition q_get (q : Queue T) : option (T * Queue T) :=
  _ ← q_buffer q;
  if q_count q =? 0 then
    _ ← c3_assert (q_get_index q =? q_put_index q);
    Some (fst (move_ctor msg_default), q)
  else q_fetch q.

End Operations.

(** ** Capacities *)

Lemma validate_capacity_pow2 n :
  0 <= n -> pow2 (validate_capacity n) /\ validate_capacity n <= Q_MAX_ALLOWED_CAPACITY.
Proof.
  intros Hn. unfold validate_capacity, Q_MIN_ALLOWED_CAPACITY, Q_MAX_ALLOWED_CAPACITY.
  change (USHORT_MAX_VAL + 1) with 65536.
  set (c := if 65536 <? _ then _ else _).
  assert (1 <= c <= 65536) as Hc by (unfold c; repeat zcase; lia). clearbody c.
  destruct (get_next_power_of_2_ok c) as [Hp _]; [lia|]. split; [done|].
  apply get_next_power_of_2_mono; [lia|]. by exists 16.
Qed.

Lemma validate_capacity_id n : pow2 n -> n <= Q_MAX_ALLOWED_CAPACITY -> validate_capacity n = n.
Proof.
  intros Hp Hle. pose proof (pow2_pos n Hp). unfold validate_capacity, Q_MIN_ALLOWED_CAPACITY in *.
  destruct (n <? 1) eqn:E; zbool; [lia|]. destruct (_ <? n) eqn:E'; zbool; [lia|].
  by apply get_next_power_of_2_pow2.
Qed.

(** ** Rotations *)

Lemma rotate_succ {A} (b r : list A) (g : nat) x :
  (g < length b)%nat -> rotate g b = x :: r -> rotate (S g mod length b) b = r ++ [x].
Proof.
  intros Hg. unfold rotate. rewrite Nat.mod_small by lia. intros Hr.
  assert (drop g b = x :: drop (S g) b) as Hd.
  { destruct (drop g b) as [|y t] eqn:E.
    { apply (f_equal length) in E. rewrite length_drop in E. cbn in E. lia. }
    injection Hr as -> Hr. f_equal.
    replace (S g) with (g + 1)%nat by lia. by rewrite <- drop_drop, E. }
  rewrite Hd in Hr. injection Hr as <-. rewrite <- app_assoc.
  assert (take (S g) b = take g b ++ [x]) as Ht.
  { apply take_S_r. rewrite <- (Nat.add_0_r g), <- lookup_drop, Hd. done. }
  destruct (decide (S g = length b)) as [He|Hne].
  - rewrite He, Nat.Div0.mod_same, Nat.Div0.mod_0_l. cbn. rewrite take_0, app_nil_r.
    rewrite (drop_ge b (length b)) by lia. cbn. rewrite <- Ht, He. by rewrite take_ge.
  - rewrite !(Nat.mod_small (S g)) by lia. by rewrite Ht.
Qed.

Section Ring.
Context {T : Type} `{MessageLaws T}.

(** [ring u q l]: the elements of [q], in the order in which they will be retrieved,
    are [l]; everything else in the buffer is inert; [u] bytes of the memory
    object are in use for other purposes. *)
Record ring (u : Z) (q : Queue T) (l : list T) : Prop := mkRing {
  ring_capacity : pow2 (q_capacity q);
  ring_max : pow2 (q_max_capacity q);
  ring_le_max : q_capacity q <= q_max_capacity q;
  ring_mask : q_index_mask q = q_capacity q - 1;
  ring_count : q_count q = zlen l;
  ring_get : 0 <= q_get_index q < q_capacity q;
  ring_put : q_put_index q = (q_get_index q + q_count q) mod q_capacity q;
  ring_used : m_used_size (q_memory q) = u + q_capacity q * msg_size;
  ring_buffer : exists b rest, q_buffer q = Some b /\ zlen b = q_capacity q
    /\ rotate (Z.to_nat (q_get_index q)) b = l ++ rest /\ Forall inert rest;
}.

(** Bytes in use by others: a counter of 64 bits does not overflow. *)
Definition others (u : Z) : Prop := 0 <= u < 2 ^ 62.

Lemma ring_full u q l : ring u q l -> 0 <= q_count q <= q_capacity q.
Proof.
  intros Hq. destruct (ring_buffer _ _ _ Hq) as (b & rest & _ & Hl & Hr & _).
  rewrite (ring_count _ _ _ Hq). apply (f_equal length) in Hr.
  rewrite length_rotate, length_app in Hr. unfold zlen in *. lia.
Qed.

Lemma bytes_range n : 0 < n < 2 ^ 32 -> 0 < n * msg_size < 2 ^ 48.
Proof.
  intros Hn. pose proof msg_size_range. change (2 ^ 48) with (2 ^ 32 * 2 ^ 16). nia.
Qed.

(** Position [i] of the queue is at index [(get + i) mod capacity] of the buffer. *)
Lemma slot_rotate (b : list T) g i :
  0 <= g < zlen b -> 0 <= i < zlen b ->
  slot b ((g + i) mod zlen b) = rotate (Z.to_nat g) b !! Z.to_nat i.
Proof.
  intros Hg Hi. unfold zlen in *. rewrite lookup_rotate_r by lia. unfold slot, rotate_nat_add.
  pose proof (Z.mod_pos_bound (g + i) (Z.of_nat (length b))).
  destruct (0 <=? _) eqn:E; zbool; [|lia]. do 2 f_equal. rewrite !Z2Nat.id by lia. done.
Qed.

Lemma set_slot_rotate (b : list T) g i x :
  0 <= g < zlen b -> 0 <= i < zlen b ->
  rotate (Z.to_nat g) (set_slot b ((g + i) mod zlen b) x)
  = <[Z.to_nat i := x]> (rotate (Z.to_nat g) b).
Proof.
  intros Hg Hi. unfold zlen in *. rewrite <- rotate_insert_l by lia.
  unfold set_slot, rotate_nat_add. rewrite !Z2Nat.id by lia. done.
Qed.

Lemma zlen_set_slot (b : list T) i x : zlen (set_slot b i x) = zlen b.
Proof. unfold zlen, set_slot. by rewrite length_insert. Qed.

Lemma slot_app_mid (a c : list T) x : slot (a ++ x :: c) (zlen a) = Some x.
Proof.
  unfold slot. pose proof (zlen_nonneg a). destruct (0 <=? _) eqn:E; zbool; [|lia].
  unfold zlen. rewrite Nat2Z.id. by rewrite list_lookup_middle.
Qed.

Lemma insert_app_mid (a c : list T) x y : <[length a := y]> (a ++ x :: c) = a ++ y :: c.
Proof. replace (length a) with (length a + 0)%nat by lia. by rewrite insert_app_r. Qed.

Lemma set_slot_app_mid (a c : list T) x y : set_slot (a ++ x :: c) (zlen a) y = a ++ y :: c.
Proof. unfold set_slot, zlen. rewrite Nat2Z.id. apply insert_app_mid. Qed.

Lemma move_elements_ok cap get_index xs : pow2 cap -> 0 <= get_index < cap ->
  forall i old buffer pre post a d,
  zlen old = cap -> rotate (Z.to_nat get_index) old = pre ++ xs ++ post -> zlen pre = i ->
  buffer = a ++ d -> zlen a = i -> (length xs <= length d)%nat ->
  exists old', move_elements (length xs) i get_index (cap - 1) old buffer
    = Some (a ++ xs ++ drop (length xs) d, old').
Proof.
  intros Hc Hg. induction xs as [|x xs IH]; intros i old buffer pre post a d Ho Hr Hp Hb Ha Hle.
  { exists old. subst. cbn. by rewrite drop_0. }
  destruct d as [|d0 d]; cbn in Hle; [lia|].
  cbn [move_elements length]. rewrite pow2_mask, pow2_mod_u32 by done.
  pose proof (zlen_nonneg pre). pose proof (pow2_pos cap Hc).
  assert (i < cap) as Hi.
  { rewrite <- Ho. apply (f_equal length) in Hr. rewrite length_rotate, !length_app in Hr.
    cbn in Hr. unfold zlen in *. lia. }
  assert (slot old ((get_index + i) mod cap) = Some x) as ->.
  { rewrite <- Ho, slot_rotate by lia. rewrite Hr. apply list_lookup_middle.
    rewrite <- Hp. unfold zlen. lia. }
  assert (slot buffer i = Some d0) as -> by (rewrite Hb, <- Ha; apply slot_app_mid).
  subst buffer.
  cbn [mbind option_bind]. destruct (move_assign d0 x) as [d' s'] eqn:Em.
  pose proof (move_assign_fst d0 x) as Hm. rewrite Em in Hm. cbn in Hm. subst d'.
  destruct (IH (i + 1) (set_slot old ((get_index + i) mod cap) s') (set_slot (a ++ d0 :: d) i x)
    (pre ++ [s']) post (a ++ [x]) d) as (old' & He).
  - by rewrite zlen_set_slot.
  - rewrite <- Ho. rewrite set_slot_rotate by lia. rewrite Hr.
    rewrite <- Hp. unfold zlen. rewrite Nat2Z.id. cbn [app]. rewrite insert_app_mid.
    by rewrite <- !app_assoc.
  - rewrite zlen_app. unfold zlen in *; cbn. lia.
  - rewrite <- Ha, set_slot_app_mid. by rewrite <- app_assoc.
  - rewrite zlen_app. unfold zlen in *; cbn. lia.
  - lia.
  - exists old'. rewrite He. by rewrite <- app_assoc.
Qed.

Lemma calloc_ring m u used n :
  others u -> m_used_size m = u + used -> 0 <= used < 2 ^ 48 -> 0 < n < 2 ^ 32 ->
  exists m', calloc m n msg_size = Some m' /\ m_used_size m' = u + used + n * msg_size.
Proof.
  intros Hu Hm Hused Hn. pose proof msg_size_range. pose proof (bytes_range n Hn). unfold others in Hu.
  unfold calloc. destruct (n =? 0) eqn:E; zbool; [lia|]. destruct (msg_size =? 0) eqn:E'; zbool; [lia|].
  cbn. eexists; split; [done|]. cbn. rewrite Hm, (u64_small (n * _)) by (unfold is_u64; lia).
  apply u64_small. unfold is_u64. lia.
Qed.

Lemma free_ring m u used n :
  others u -> m_used_size m = u + used + n * msg_size -> 0 <= used < 2 ^ 48 -> 0 < n < 2 ^ 32 ->
  exists m', free m (u64 (n * msg_size)) = Some m' /\ m_used_size m' = u + used.
Proof.
  intros Hu Hm Hused Hn. pose proof (bytes_range n Hn). unfold others in Hu.
  rewrite (u64_small (n * _)) by (unfold is_u64; lia).
  rewrite free_ok by lia. eexists; split; [done|]. rewrite fetch_sub_used by lia. lia.
Qed.

(** The new buffer: the elements at its start, zeroes after them. *)
Lemma fresh_ring u m max cap l rest :
  pow2 cap -> pow2 max -> cap <= max -> zlen l <= cap -> zlen (l ++ rest) = cap -> Forall inert rest ->
  m_used_size m = u + cap * msg_size ->
  ring u (mkQueue m (Some (l ++ rest)) max cap (zlen l) (Z.land (zlen l) (u32 (cap - 1))) 0 (u32 (cap - 1))) l.
Proof.
  intros Hc Hm Hle Hl Hz Hr Hu. pose proof (pow2_pos cap Hc).
  rewrite (u32_small (cap - 1)) by (unfold is_u32; lia). constructor; cbn; try done; try lia.
  { by rewrite pow2_mask. }
  exists (l ++ rest), rest. split_and!; try done.
  unfold rotate. rewrite Nat.Div0.mod_0_l. cbn. by rewrite take_0, app_nil_r, drop_0.
Qed.

Lemma q_resize_ok u q l cap :
  others u -> ring u q l -> pow2 cap -> zlen l <= cap -> cap <= q_max_capacity q ->
  exists q', q_resize q cap = Some q' /\ ring u q' l
    /\ q_capacity q' = cap /\ q_max_capacity q' = q_max_capacity q.
Proof.
  intros Hu Hq Hc Hl Hle. destruct (ring_buffer _ _ _ Hq) as (b & rest & Hb & Hz & Hr & Hi).
  pose proof (pow2_pos cap Hc). pose proof (ring_capacity _ _ _ Hq) as Hold. pose proof (pow2_pos _ Hold).
  unfold q_resize. destruct (calloc_ring (q_memory q) u (q_capacity q * msg_size) cap) as (m1 & -> & Hm1);
    [done|apply ring_used with l; done|pose proof (bytes_range (q_capacity q)); lia|done|].
  cbn [mbind option_bind]. rewrite Hb, (ring_mask _ _ _ Hq), (ring_count _ _ _ Hq).
  rewrite zlen_to_nat.
  destruct (move_elements_ok (q_capacity q) (q_get_index q) l Hold (ring_get _ _ _ Hq) 0 b
    (replicate (Z.to_nat cap) msg_zero) [] rest [] (replicate (Z.to_nat cap) msg_zero)) as (old' & ->);
    [done|done|done|done|done|rewrite length_replicate; unfold zlen in *; lia|].
  cbn [mbind option_bind app].
  destruct (free_ring m1 u (cap * msg_size) (q_capacity q)) as (m2 & -> & Hm2);
    [done|lia|pose proof (bytes_range cap); lia|done|]. cbn [mbind option_bind].
  eexists; split; [done|]. split; [|done]. rewrite drop_replicate.
  apply fresh_ring; try done.
  - apply (ring_max _ _ _ Hq).
  - rewrite zlen_app. unfold zlen in *. rewrite length_replicate. lia.
  - apply Forall_replicate, inert_zero.
Qed.

Lemma q_configure_capacity_ok u q l n :
  others u -> ring u q l -> 0 <= n ->
  exists q', q_configure_capacity q n = Some q' /\ ring u q' l /\ q_max_capacity q' = q_max_capacity q
    /\ q_capacity q' = Z.max (Z.min (validate_capacity n) (q_max_capacity q)) (get_next_power_of_2 (zlen l)).
Proof.
  intros Hu Hq Hn. unfold q_configure_capacity. pose proof (ring_full _ _ _ Hq) as Hf.
  destruct (validate_capacity_pow2 n Hn) as [Hv _]. pose proof (ring_max _ _ _ Hq) as Hm.
  pose proof (ring_capacity _ _ _ Hq) as Hc. pose proof (ring_le_max _ _ _ Hq).
  pose proof (get_next_power_of_2_mono (q_count q) (q_capacity q) Hf Hc) as Hle.
  rewrite <- (ring_count _ _ _ Hq).
  set (np := get_next_power_of_2 (q_count q)) in *.
  assert ((pow2 np \/ np = 0) /\ q_count q <= np) as [Hnp Hnc].
  { unfold np. destruct (decide (q_count q = 0)) as [->|]; [change (get_next_power_of_2 0) with 0; lia|].
    destruct (decide (q_count q <= 2 ^ 31)).
    - destruct (get_next_power_of_2_ok (q_count q)); [lia|]. split; [by left|lia].
    - destruct Hc as (k & Hk & Hc). assert (2 ^ k <= 2 ^ 31) by (apply Z.pow_le_mono_r; lia). lia. }
  clearbody np. set (c0 := if q_max_capacity q <? validate_capacity n then _ else _).
  assert (pow2 c0 /\ c0 = Z.min (validate_capacity n) (q_max_capacity q)) as [Hc0 Hmin].
  { unfold c0. zcase; split; (done || lia). }
  clearbody c0. set (c1 := if c0 <? np then np else c0).
  assert (pow2 c1 /\ c1 = Z.max c0 np) as [Hc1 Hmax].
  { pose proof (pow2_pos _ Hc0). unfold c1. zcase; split; try done; [by destruct Hnp; [|lia]|lia|lia]. }
  clearbody c1. rewrite <- Hmin, <- Hmax.
  destruct (c1 =? q_capacity q) eqn:E; zbool; cbn [negb].
  - by exists q.
  - destruct (q_resize_ok u q l c1) as (q' & He & Hq' & Hcap & Hmx); try done.
    + rewrite <- (ring_count _ _ _ Hq). lia.
    + lia.
    + by exists q'.
Qed.

Lemma ring_with_max u q l n :
  ring u q l -> pow2 n -> q_capacity q <= n -> ring u (q_with_max_capacity q n) l.
Proof. intros [] ? ?. by constructor. Qed.

(** The maximum capacity never falls below what the elements need. *)
Lemma q_configure_max_capacity_ok u q l n :
  others u -> ring u q l -> 0 <= n ->
  exists q', q_configure_max_capacity q n = Some q' /\ ring u q' l
    /\ q_max_capacity q' = Z.max (validate_capacity n) (get_next_power_of_2 (zlen l)).
Proof.
  intros Hu Hq Hn. destruct (validate_capacity_pow2 n Hn) as [Hv Hvm].
  pose proof (ring_le_max _ _ _ Hq). pose proof (ring_full _ _ _ Hq) as Hf.
  pose proof (get_next_power_of_2_mono (q_count q) (q_capacity q) Hf (ring_capacity _ _ _ Hq)) as Hle.
  rewrite (ring_count _ _ _ Hq) in Hle.
  unfold q_configure_max_capacity. destruct (_ <? _) eqn:E; zbool.
  - destruct (q_configure_capacity_ok u q l (validate_capacity n)) as (q' & -> & Hq' & Hm & Hc);
      [done|done|pose proof (pow2_pos _ Hv); lia|]. cbn [mbind option_bind].
    rewrite validate_capacity_id in Hc by done.
    eexists; split; [done|]. pose proof (ring_capacity _ _ _ Hq').
    split; cycle 1.
    { cbn. zcase; lia. }
    apply ring_with_max; [done|zcase; done|zcase; lia].
  - eexists; split; [done|]. split; [by apply ring_with_max|]. cbn. lia.
Qed.

Lemma q_create_ok u m n max :
  others u -> m_used_size m = u -> 0 < n -> 0 <= max ->
  exists q, q_create m n max = Some q /\ ring u q []
    /\ q_max_capacity q = validate_capacity (if 0 <? max then max else n).
Proof.
  intros Hu Hm Hn Hmax. unfold q_create, q_configure_max_capacity.
  set (mx := if 0 <? max then max else n).
  assert (0 < mx) as Hmx by (unfold mx; zcase; lia). clearbody mx.
  destruct (validate_capacity_pow2 mx ltac:(lia)) as [Hv _]. pose proof (pow2_pos _ Hv).
  destruct (validate_capacity_pow2 n ltac:(lia)) as [Hvn _]. pose proof (pow2_pos _ Hvn).
  cbn [q_capacity q_reset_fields]. destruct (_ <? 0) eqn:E; zbool; [lia|].
  cbn [mbind option_bind]. unfold q_configure_capacity. cbn [q_max_capacity q_count q_capacity q_with_max_capacity q_reset_fields].
  change (get_next_power_of_2 0) with 0.
  set (c0 := if validate_capacity mx <? _ then _ else _).
  assert (pow2 c0 /\ c0 <= validate_capacity mx) as [Hc0 Hle] by (unfold c0; zcase; split; (done || lia)).
  clearbody c0. pose proof (pow2_pos _ Hc0). destruct (c0 <? 0) eqn:E1; zbool; [lia|].
  destruct (c0 =? 0) eqn:E2; zbool; [lia|]. cbn [negb]. unfold q_resize. cbn [q_memory q_buffer q_with_max_capacity q_reset_fields].
  destruct (calloc_ring m u 0 c0) as (m1 & -> & Hm1); [done|lia|lia|done|].
  cbn [mbind option_bind]. eexists; split; [done|]. split; [|done].
  change (replicate (Z.to_nat c0) msg_zero) with ([] ++ replicate (Z.to_nat c0) (msg_zero : T)).
  apply (fresh_ring u m1 (validate_capacity mx) c0 []); [done..| | | |lia].
  - unfold zlen; cbn; lia.
  - unfold zlen; cbn. rewrite length_replicate. lia.
  - apply Forall_replicate, inert_zero.
Qed.

(** Storing appends an element; what is left of the argument is inert. *)
Lemma q_store_ok u q l o :
  ring u q l -> zlen l < q_capacity q ->
  exists q' o', q_store q o = Some (q', o') /\ ring u q' (l ++ [o]) /\ inert o'
    /\ q_capacity q' = q_capacity q /\ q_max_capacity q' = q_max_capacity q.
Proof.
  intros Hq Hl. destruct (ring_buffer _ _ _ Hq) as (b & rest & Hb & Hz & Hr & Hi).
  pose proof (zlen_nonneg l). pose proof (pow2_pos _ (ring_capacity _ _ _ Hq)).
  pose proof (ring_get _ _ _ Hq) as Hg. pose proof (ring_count _ _ _ Hq) as Hcount.
  pose proof (ring_put _ _ _ Hq) as Hput. rewrite Hcount in Hput.
  destruct rest as [|y rest].
  { apply (f_equal length) in Hr. rewrite length_rotate, length_app in Hr. cbn in Hr. unfold zlen in *. lia. }
  unfold q_store. rewrite Hb. cbn [mbind option_bind].
  assert (slot b (q_put_index q) = Some y) as ->.
  { rewrite Hput, <- Hz, slot_rotate by lia. rewrite Hr, zlen_to_nat. by apply list_lookup_middle. }
  cbn [mbind option_bind]. destruct (move_assign y o) as [d' o'] eqn:Em.
  pose proof (move_assign_fst y o) as Hd. pose proof (move_assign_snd y o) as Ho'. rewrite Em in Hd, Ho'.
  cbn in Hd, Ho'. subst d'. inversion Hi as [|? ? Hy Hrest]; subst.
  eexists _, _; split; [done|]. split; [|split_and!; [by apply Ho'|done|done]].
  destruct Hq. constructor; cbn; try done.
  - rewrite Hcount, zlen_app, u32_small; [done|unfold is_u32; lia].
  - rewrite ring_mask0, pow2_mask, pow2_mod_u32 by done.
    rewrite Hput, Hcount, u32_small by (unfold is_u32; lia).
    rewrite Z.add_mod_idemp_l by lia. f_equal; lia.
  - exists (set_slot b (q_put_index q) o), rest. split_and!; [done|by rewrite zlen_set_slot| |done].
    rewrite Hput, <- Hz, set_slot_rotate by lia. rewrite Hr, zlen_to_nat, insert_app_mid.
    by rewrite <- app_assoc.
Qed.

(** Fetching removes the first element. *)
Lemma q_fetch_ok u q x l :
  ring u q (x :: l) ->
  exists q', q_fetch q = Some (x, q') /\ ring u q' l
    /\ q_capacity q' = q_capacity q /\ q_max_capacity q' = q_max_capacity q.
Proof.
  intros Hq. destruct (ring_buffer _ _ _ Hq) as (b & rest & Hb & Hz & Hr & Hi).
  pose proof (zlen_nonneg l). pose proof (pow2_pos _ (ring_capacity _ _ _ Hq)).
  pose proof (ring_get _ _ _ Hq) as Hg. pose proof (ring_count _ _ _ Hq) as Hcount.
  pose proof (ring_full _ _ _ Hq) as Hfull. rewrite zlen_cons in Hcount.
  unfold q_fetch. rewrite Hb. cbn [mbind option_bind].
  assert (q_get_index q = (q_get_index q + 0) mod zlen b) as Hg0
    by (rewrite Z.add_0_r, Z.mod_small; lia).
  assert (slot b (q_get_index q) = Some x) as ->.
  { rewrite Hg0, slot_rotate by lia. by rewrite Hr. }
  cbn [mbind option_bind]. destruct (move_ctor x) as [r s] eqn:Em.
  pose proof (move_ctor_fst x) as Hx. pose proof (move_ctor_snd x) as Hs. rewrite Em in Hx, Hs.
  cbn in Hx, Hs. subst r. rewrite Em. cbn [fst].
  eexists; split; [done|]. split; [|done]. destruct Hq. constructor; cbn; try done.
  - rewrite Hcount. rewrite u32_small by (unfold is_u32; lia). lia.
  - rewrite ring_mask0, pow2_mask, pow2_mod_u32 by done. apply Z.mod_pos_bound. lia.
  - rewrite ring_mask0, pow2_mask, pow2_mod_u32 by done. rewrite Z.add_mod_idemp_l by lia.
    rewrite ring_put0, Hcount. rewrite u32_small by (unfold is_u32; lia). f_equal; lia.
  - assert (rotate (Z.to_nat (q_get_index q)) (set_slot b (q_get_index q) s) = s :: (l ++ rest)) as Hr'.
    { rewrite Hg0 at 2. rewrite set_slot_rotate by lia. by rewrite Hr. }
    exists (set_slot b (q_get_index q) s), (rest ++ [s]).
    split_and!; [done|by rewrite zlen_set_slot| |].
    + apply rotate_succ in Hr'; [|unfold set_slot; rewrite length_insert; unfold zlen in *; lia].
      unfold set_slot in *. rewrite length_insert in Hr'. rewrite app_assoc, <- Hr'. f_equal.
      rewrite ring_mask0, pow2_mask, pow2_mod_u32 by done. rewrite <- Hz. unfold zlen.
      rewrite Z2Nat.inj_mod by lia. rewrite Nat2Z.id. f_equal. lia.
    + apply Forall_app. split; [done|]. by constructor.
Qed.

Lemma q_put_ok u q l o :
  others u -> ring u q l -> q_max_capacity q <= Q_MAX_ALLOWED_CAPACITY ->
  exists ok q' o', q_put q o = Some (ok, q', o')
    /\ q_max_capacity q' = q_max_capacity q
    /\ (if zlen l <? q_max_capacity q then ok = true /\ ring u q' (l ++ [o]) /\ inert o'
        else ok = false /\ q' = q /\ o' = o).
Proof.
  intros Hu Hq Hmx. destruct (ring_buffer _ _ _ Hq) as (b & rest & Hb & _).
  pose proof (ring_full _ _ _ Hq) as Hf. pose proof (ring_count _ _ _ Hq) as Hcount.
  pose proof (ring_le_max _ _ _ Hq) as Hle. pose proof (ring_capacity _ _ _ Hq) as Hc.
  pose proof (pow2_pos _ Hc). pose proof (ring_max _ _ _ Hq) as Hm.
  unfold q_put. rewrite Hb. cbn [mbind option_bind].
  destruct (q_count q =? q_capacity q) eqn:E; zbool; cycle 1.
  { destruct (q_store_ok u q l o) as (q' & o' & -> & Hq' & Ho & _ & Hm'); [done|lia|].
    cbn. exists true, q', o'. destruct (_ <? _) eqn:E'; zbool; [done|lia]. }
  destruct (q_capacity q <? q_max_capacity q) eqn:E1; zbool.
  - pose proof (pow2_double_le _ _ Hc Hm E1) as Hd. unfold Q_MAX_ALLOWED_CAPACITY in *.
    change (USHORT_MAX_VAL + 1) with 65536 in *.
    rewrite u32_small by (unfold is_u32; lia).
    destruct (q_configure_capacity_ok u q l (q_capacity q * 2)) as (q1 & -> & Hq1 & Hm1 & Hc1);
      [done|done|lia|]. cbn [mbind option_bind].
    rewrite validate_capacity_id in Hc1;
      [|rewrite Z.mul_comm; apply pow2_double; [done|lia]|unfold Q_MAX_ALLOWED_CAPACITY; change (USHORT_MAX_VAL + 1) with 65536; lia].
    assert (zlen l < q_capacity q1) by lia.
    rewrite (ring_count _ _ _ Hq1). destruct (zlen l =? q_capacity q1) eqn:E2; zbool; [lia|].
    destruct (q_store_ok u q1 l o) as (q' & o' & -> & Hq' & Ho & _ & Hm'); [done|lia|].
    cbn. exists true, q', o'. destruct (_ <? _) eqn:E'; zbool; [|lia]. split_and!; try done; congruence.
  - cbn [mbind option_bind]. destruct (q_count q =? q_capacity q) eqn:E2; zbool; [|lia].
    assert (q_get_index q = q_put_index q) as Heq.
    { rewrite (ring_put _ _ _ Hq), E. rewrite Zplus_mod, Z.mod_same, Z.add_0_r, Z.mod_mod by lia.
      rewrite Z.mod_small; [done|]. apply (ring_get _ _ _ Hq). }
    rewrite Heq, Z.eqb_refl. cbn. exists false, q, o. destruct (_ <? _) eqn:E'; zbool; [lia|]. done.
Qed.

Lemma q_get_ok u q l :
  ring u q l ->
  exists q', q_get q = Some (default msg_default (head l), q') /\ ring u q' (tail l)
    /\ q_max_capacity q' = q_max_capacity q.
Proof.
  intros Hq. destruct (ring_buffer _ _ _ Hq) as (b & rest & Hb & _).
  unfold q_get. rewrite Hb. cbn [mbind option_bind]. rewrite (ring_count _ _ _ Hq).
  destruct l as [|x l].
  - change (zlen [] =? 0) with true. cbn [negb].
    assert (q_get_index q = q_put_index q) as Heq.
    { rewrite (ring_put _ _ _ Hq), (ring_count _ _ _ Hq). change (zlen []) with 0.
      rewrite Z.add_0_r, Z.mod_small; [done|apply (ring_get _ _ _ Hq)]. }
    rewrite Heq, Z.eqb_refl. cbn. exists q. by rewrite move_ctor_fst.
  - pose proof (zlen_nonneg l). rewrite zlen_cons. destruct (_ =? 0) eqn:E; zbool; [lia|].
    destruct (q_fetch_ok u q x l Hq) as (q' & -> & Hq' & _ & Hm). by exists q'.
Qed.

(** Disposing gives back exactly the buffer. *)
Lemma q_dispose_ok u q l :
  others u -> ring u q l ->
  exists q', q_dispose q = Some q' /\ q_buffer q' = None /\ m_used_size (q_memory q') = u.
Proof.
  intros Hu Hq. destruct (ring_buffer _ _ _ Hq) as (b & rest & Hb & _).
  pose proof (pow2_pos _ (ring_capacity _ _ _ Hq)). unfold q_dispose. rewrite Hb.
  destruct (q_capacity q =? 0) eqn:E; zbool; [lia|]. cbn [negb c3_assert mbind option_bind].
  destruct (free_ring (q_memory q) u 0 (q_capacity q)) as (m' & -> & Hm'); [done| |lia|done|].
  { rewrite (ring_used _ _ _ Hq). lia. }
  cbn. eexists; split; [done|]. cbn. split; [done|lia].
Qed.

End Ring.

(** ** Refinement: a bounded first-in first-out list *)

Inductive queue_op (T : Type) :=
| OpPut (o : T)
| OpGet
| OpSetCapacity (n : Z)
| OpSetMaxCapacity (n : Z).
Arguments OpPut {T}. Arguments OpGet {T}. Arguments OpSetCapacity {T}. Arguments OpSetMaxCapacity {T}.

Inductive queue_result (T : Type) :=
| ResPut (ok : bool)
| ResGet (x : T)
| ResCapacity
| ResMaxCapacity (n : Z).
Arguments ResPut {T}. Arguments ResGet {T}. Arguments ResCapacity {T}. Arguments ResMaxCapacity {T}.

(** The specification: a list of elements and a bound on their number. *)
Record fifo (T : Type) := mkFifo { f_elements : list T; f_bound : Z }.
Arguments mkFifo {T}. Arguments f_elements {T}. Arguments f_bound {T}.

Section Refinement.
Context {T : Type} `{MessageLaws T}.

Definition q_step (q : Queue T) (op : queue_op T) : option (queue_result T * Queue T) :=
  match op with
  | OpPut o => '(ok, q, _) ← q_put q o; Some (ResPut ok, q)
  | OpGet => '(x, q) ← q_get q; Some (ResGet x, q)
  | OpSetCapacity n => '(_, q) ← q_set_capacity q n; Some (ResCapacity, q)
  | OpSetMaxCapacity n => '(n, q) ← q_set_max_capacity q n; Some (ResMaxCapacity n, q)
  end.

Fixpoint q_run (q : Queue T) (ops : list (queue_op T)) : option (list (queue_result T) * Queue T) :=
  match ops with
  | [] => Some ([], q)
  | op :: ops => '(r, q) ← q_step q op; '(rs, q) ← q_run q ops; Some (r :: rs, q)
  end.

Definition fifo_step (s : fifo T) (op : queue_op T) : queue_result T * fifo T :=
  let '(mkFifo l n) := s in
  match op with
  | OpPut o => if zlen l <? n then (ResPut true, mkFifo (l ++ [o]) n) else (ResPut false, s)
  | OpGet => (ResGet (default msg_default (head l)), mkFifo (tail l) n)
  | OpSetCapacity _ => (ResCapacity, s)
  | OpSetMaxCapacity m =>
      let m := Z.max (validate_capacity m) (get_next_power_of_2 (zlen l)) in
      (ResMaxCapacity m, mkFifo l m)
  end.

Fixpoint fifo_run (s : fifo T) (ops : list (queue_op T)) : list (queue_result T) * fifo T :=
  match ops with
  | [] => ([], s)
  | op :: ops => let '(r, s) := fifo_step s op in let '(rs, s) := fifo_run s ops in (r :: rs, s)
  end.

Definition op_ok (op : queue_op T) : Prop :=
  match op with OpSetCapacity n | OpSetMaxCapacity n => is_u32 n | _ => True end.

Definition implements (u : Z) (q : Queue T) (s : fifo T) : Prop :=
  ring u q (f_elements s) /\ q_max_capacity q = f_bound s /\ f_bound s <= Q_MAX_ALLOWED_CAPACITY.

Lemma np2_le_max u q l : ring u q l -> q_max_capacity q <= Q_MAX_ALLOWED_CAPACITY ->
  get_next_power_of_2 (zlen l) <= Q_MAX_ALLOWED_CAPACITY.
Proof.
  intros Hq Hm. pose proof (ring_full _ _ _ Hq). pose proof (ring_le_max _ _ _ Hq).
  pose proof (get_next_power_of_2_mono (zlen l) (q_capacity q)) as Hle.
  rewrite (ring_count _ _ _ Hq) in *. specialize (Hle ltac:(lia) (ring_capacity _ _ _ Hq)). lia.
Qed.

Lemma q_step_ok u q s op :
  others u -> implements u q s -> op_ok op ->
  exists q', q_step q op = Some (fst (fifo_step s op), q') /\ implements u q' (snd (fifo_step s op)).
Proof.
  intros Hu (Hq & Hm & Hb) Hop. destruct s as [l n]. cbn in Hq, Hm, Hb. subst n.
  pose proof (np2_le_max u q l Hq Hb) as Hnp.
  destruct (ring_buffer _ _ _ Hq) as (b & rest & Hbuf & _). unfold implements.
  destruct op as [o| |n|n]; cbn [q_step fifo_step].
  - destruct (q_put_ok u q l o Hu Hq Hb) as (ok & q' & o' & -> & Hm' & Hp). cbn [mbind option_bind].
    destruct (zlen l <? q_max_capacity q); cbn; destruct Hp as (-> & Hp).
    + destruct Hp as [Hq' _]. by exists q'.
    + destruct Hp as [-> _]. by exists q.
  - destruct (q_get_ok u q l Hq) as (q' & -> & Hq' & Hm'). cbn. by exists q'.
  - cbn in Hop. unfold is_u32 in Hop. unfold q_set_capacity. rewrite Hbuf. cbn [mbind option_bind].
    destruct (q_configure_capacity_ok u q l n Hu Hq) as (q' & -> & Hq' & Hm' & _); [lia|].
    cbn. by exists q'.
  - cbn in Hop. unfold is_u32 in Hop. unfold q_set_max_capacity. rewrite Hbuf. cbn [mbind option_bind].
    destruct (q_configure_max_capacity_ok u q l n Hu Hq) as (q' & -> & Hq' & Hm'); [lia|].
    destruct (validate_capacity_pow2 n) as [_ Hv]; [lia|].
    cbn. rewrite Hm'. exists q'. split_and!; try done. lia.
Qed.

Lemma q_run_ok u ops : forall q s,
  others u -> implements u q s -> Forall op_ok ops ->
  exists q', q_run q ops = Some (fst (fifo_run s ops), q') /\ implements u q' (snd (fifo_run s ops)).
Proof.
  induction ops as [|op ops IH]; intros q s Hu Hi Hops; cbn [q_run fifo_run]; [by exists q|].
  inversion Hops as [|? ? Hop Hrest]; subst.
  destruct (q_step_ok u q s op Hu Hi Hop) as (q1 & -> & Hi1). cbn [mbind option_bind].
  destruct (fifo_step s op) as [r s1]. cbn in Hi1 |- *.
  destruct (IH q1 s1 Hu Hi1 Hrest) as (q2 & -> & Hi2). cbn [mbind option_bind].
  destruct (fifo_run s1 ops) as [rs s2]. cbn in Hi2 |- *. by exists q2.
Qed.

End Refinement.

(** (C12) Whatever the capacities and whatever is done with it, a queue behaves as a
    first-in first-out list whose length is bounded by the maximum capacity: no
    assertion fails and no index leaves the buffer; [put] succeeds exactly below
    the bound, and at the bound returns [false] at once, without waiting (as the comment on
    the class would have it), and leaves the queue as it is; [get] returns the oldest element or an invalid one; changing
    capacities keeps the elements and never sets a bound below their number; and
    disposing the queue returns all the memory it took. *)
Theorem queue_refines_fifo {T : Type} `{MessageLaws T} m capacity max_capacity (ops : list (queue_op T)) :
  others (m_used_size m) -> 0 < capacity -> 0 <= max_capacity -> Forall op_ok ops ->
  let bound := validate_capacity (if 0 <? max_capacity then max_capacity else capacity) in
  exists q q' q'', q_create m capacity max_capacity = Some q
    /\ q_run q ops = Some (fst (fifo_run (mkFifo [] bound) ops), q')
    /\ q_count q' = zlen (f_elements (snd (fifo_run (mkFifo [] bound) ops)))
    /\ q_dispose q' = Some q'' /\ m_used_size (q_memory q'') = m_used_size m.
Proof.
  intros Hu Hc Hm Hops bound.
  destruct (q_create_ok (m_used_size m) m capacity max_capacity) as (q & Hq & Hr & Hb); [done..|].
  assert (implements (m_used_size m) q (mkFifo [] bound)) as Hi.
  { split; [done|]. cbn. split; [done|]. apply validate_capacity_pow2. zcase; lia. }
  destruct (q_run_ok (m_used_size m) ops q (mkFifo [] bound)) as (q' & Hrun & Hr' & _); [done..|].
  destruct (q_dispose_ok (m_used_size m) q' _ Hu Hr') as (q'' & Hd & _ & Hmem).
  exists q, q', q''. split_and!; try done. apply (ring_count _ _ _ Hr').
Qed.

Lemma queue_refines_fifo_witness :
  let m := mkMemory 0 1000 DOMAIN_GLOBAL in
  let p n := OpPut (mkPointer n) in
  let ops := [p 1; p 2; OpGet; p 3; p 4; OpSetMaxCapacity 8; p 5; OpSetCapacity 1; OpGet; p 6;
              OpGet; OpGet; OpGet; OpGet] in
  exists q q' q'', q_create m 2 0 = Some q
    /\ q_run q ops = Some ([ResPut true; ResPut true; ResGet (mkPointer 1); ResPut true; ResPut false;
         ResMaxCapacity 8; ResPut true; ResCapacity; ResGet (mkPointer 2); ResPut true;
         ResGet (mkPointer 3); ResGet (mkPointer 5); ResGet (mkPointer 6); ResGet (mkPointer 0)], q')
    /\ q_dispose q' = Some q'' /\ m_used_size (q_memory q'') = 1000.
Proof.
  intros m p ops.
  destruct (queue_refines_fifo m 2 0 ops) as (q & q' & q'' & Hq & Hrun & _ & Hd & Hu).
  - by vm_compute.
  - lia.
  - lia.
  - repeat constructor; by vm_compute.
  - exists q, q', q''. split; [exact Hq|]. split; [|exact (conj Hd Hu)]. rewrite Hrun. reflexivity.
Defined.
