(* ===== verification/MessageQueue.v ===== *)
(** * MessageQueue

    [mt_message_queue.h]: messages ([CommandMessage]), the synchronized queue
    ([MessageQueue]) and its variant that always accepts ([CriticalMessageQueue]).

    The critical sections under [mq_mutex] are functions on the ring buffer of
    [Queue]; [std::condition_variable::wait] splits an operation in the section
    before it and the one after it. The step relation [mq_step] interleaves the
    sections of any number of threads; a thread that waits on a condition variable
    is asleep until it is notified, may also wake up without notification, and
    may time out. Guards of [mt_thread_guards.h] always pass when lock monitoring
    is off ([C3LM_ENABLED] is 0). *)

From S2P Require Import Prelude Protocol Memory Utils Queue.

(** ** Messages *)

Inductive command_message_type_t := CMT_INVALID | CMT_ID_COMMAND | CMT_DATA_COMMAND | CMT_OBJECT.

(** The union of an identifier and of two pointers is one machine word. *)
Record CommandMessage := mkCommandMessage { cm_id_command : Z }.

#[global] Instance CommandMessageMessage : Message CommandMessage := {
  msg_default := mkCommandMessage 0;
  msg_zero := mkCommandMessage 0;
  move_ctor cm := (cm, mkCommandMessage 0);
  move_assign d s := (s, d);
  msg_size := 8;
}.

#[global] Instance CommandMessage_laws : MessageLaws CommandMessage.
Proof. refine {| inert m := m = mkCommandMessage 0 |}; done. Defined.

Section CommandMessages.
(** [N], the bound on identifiers, and [D::is_you()] on a pointer. *)
Context (N : Z) (is_you : Z -> bool).

Definition cm_get_type (cm : CommandMessage) : command_message_type_t :=
  if cm_id_command cm <? N then
    if 0 <? cm_id_command cm then CMT_ID_COMMAND else CMT_INVALID
  else if is_you (cm_id_command cm) then CMT_DATA_COMMAND else CMT_OBJECT.

Definition cm_is_valid (cm : CommandMessage) : bool := negb (cm_id_command cm =? 0).
Definition cm_is_id_command (cm : CommandMessage) : bool :=
  (0 <? cm_id_command cm) && (cm_id_command cm <? N).
Definition cm_is_data_command (cm : CommandMessage) : bool :=
  (N <=? cm_id_command cm) && is_you (cm_id_command cm).
Definition cm_is_object (cm : CommandMessage) : bool :=
  (N <=? cm_id_command cm) && negb (is_you (cm_id_command cm)).

Definition cm_get_id_command (cm : CommandMessage) : option Z :=
  _ ← c3_assert (cm_is_id_command cm); Some (cm_id_command cm).
Definition cm_fetch_data_command (cm : CommandMessage) : option (Z * CommandMessage) :=
  _ ← c3_assert (cm_is_data_command cm); Some (cm_id_command cm, mkCommandMessage 0).
Definition cm_fetch_object (cm : CommandMessage) : option (Z * CommandMessage) :=
  _ ← c3_assert (cm_is_object cm); Some (cm_id_command cm, mkCommandMessage 0).

(** The object destroyed and freed, if any, and the message afterwards. *)
Definition cm_dispose (cm : CommandMessage) : option (command_message_type_t * Z) * CommandMessage :=
  (if N <=? cm_id_command cm then
     if is_you (cm_id_command cm) then Some (CMT_DATA_COMMAND, cm_id_command cm)
     else Some (CMT_OBJECT, cm_id_command cm)
   else None, mkCommandMessage 0).

(** The four kinds exclude each other, and only what is still owned is destroyed. *)
Lemma cm_dispose_owned cm :
  0 < N ->
  fst (cm_dispose cm) =
    match cm_get_type cm with
    | CMT_INVALID | CMT_ID_COMMAND => None
    | t => Some (t, cm_id_command cm)
    end.
Proof.
  intros HN. unfold cm_dispose, cm_get_type. cbn.
  destruct (N <=? _) eqn:E, (_ <? N) eqn:E'; zbool; try lia.
  - by destruct (is_you _).
  - by destruct (0 <? _).
Qed.

Lemma cm_fetch_then_dispose cm p cm' :
  0 < N -> cm_fetch_object cm = Some (p, cm') \/ cm_fetch_data_command cm = Some (p, cm') ->
  fst (cm_dispose cm') = None /\ fst (cm_dispose cm) = Some (cm_get_type cm, p).
Proof.
  intros HN Hf. assert (cm' = mkCommandMessage 0 /\ p = cm_id_command cm /\ N <= cm_id_command cm) as (-> & -> & Hn).
  { unfold cm_fetch_object, cm_fetch_data_command, cm_is_object, cm_is_data_command in Hf.
    destruct Hf as [Hf|Hf]; inv_opt; done. }
  split.
  - unfold cm_dispose. cbn. destruct (N <=? 0) eqn:E; zbool; [lia|done].
  - rewrite cm_dispose_owned by done. unfold cm_get_type. destruct (_ <? N) eqn:E; zbool; [lia|].
    by destruct (is_you _).
Qed.

End CommandMessages.

(** ** Critical sections *)

Section Sections.
Context {T : Type} `{Message T}.

(** [MessageQueue] has the fields of [Queue], with the prefix [mq_]. *)
Abbreviation MessageQueue := (Queue T).

(** [granted]: whether [optional_calloc] returns a buffer. *)
Definition mq_configure_capacity (granted : bool) (q : MessageQueue) (capacity : Z) (force : bool)
  : option MessageQueue :=
  let capacity :=
    if negb force then
      let capacity := validate_capacity capacity in
      let capacity := if q_max_capacity q <? capacity then q_max_capacity q else capacity in
      let min_possible_capacity := get_next_power_of_2 (q_count q) in
      if capacity <? min_possible_capacity then min_possible_capacity else capacity
    else capacity in
  if negb (capacity =? q_capacity q) then
    if granted then q_resize q capacity else Some q
  else Some q.

Definition mq_configure_max_capacity (granted : bool) (q : MessageQueue) (max_capacity : Z)
  : option MessageQueue :=
  let max_capacity := validate_capacity max_capacity in
  if max_capacity <? q_capacity q then
    q ← mq_configure_capacity granted q max_capacity false;
    let max_capacity := if max_capacity <? q_capacity q then q_capacity q else max_capacity in
    Some (q_with_max_capacity q max_capacity)
  else Some (q_with_max_capacity q max_capacity).

Definition mq_create (granted : bool) (m : Memory) (capacity max_capacity : Z) : option MessageQueue :=
  q ← mq_configure_max_capacity granted (q_reset_fields m)
        (if 0 <? max_capacity then max_capacity else capacity);
  mq_configure_capacity granted q capacity false.

Definition mq_set_capacity (granted : bool) (q : MessageQueue) (capacity : Z) : option (Z * MessageQueue) :=
  _ ← q_buffer q;
  q ← mq_configure_capacity granted q capacity false;
  Some (q_capacity q, q).

Definition mq_set_max_capacity (granted : bool) (q : MessageQueue) (max_capacity : Z)
  : option (Z * MessageQueue) :=
  _ ← q_buffer q;
  q ← mq_configure_max_capacity granted q max_capacity;
  Some (q_max_capacity q, q).

(** [put] up to the wait: [true] if the message was stored (and the condition
    "not empty" notified), [false] if the thread waits; and what is left in the
    argument. *)
Definition mq_put_enter (granted : bool) (q : MessageQueue) (o : T) : option (bool * MessageQueue * T) :=
  _ ← q_buffer q;
  if q_count q =? q_capacity q then
    q ← (if q_capacity q <? q_max_capacity q
         then mq_configure_capacity granted q (u32 (q_capacity q * 2)) false else Some q);
    if q_count q =? q_capacity q then
      _ ← c3_assert (q_get_index q =? q_put_index q);
      Some (false, q, o)
    else '(q, o) ← q_store q o; Some (true, q, o)
  else '(q, o) ← q_store q o; Some (true, q, o).

(** [put] after a wake-up: the condition is tested again. *)
Definition mq_put_resume (q : MessageQueue) (o : T) : option (bool * MessageQueue * T) :=
  if q_count q <? q_capacity q then '(q, o) ← q_store q o; Some (true, q, o)
  else Some (false, q, o).

(** [get] up to the wait: a message, or [None] if the thread waits. *)
Definition mq_get_enter (q : MessageQueue) : option (option T * MessageQueue) :=
  _ ← q_buffer q;
  if q_count q =? 0 then
    _ ← c3_assert (q_get_index q =? q_put_index q);
    Some (None, q)
  else '(x, q) ← q_fetch q; Some (Some x, q).

Definition mq_get_resume (q : MessageQueue) : option (option T * MessageQueue) :=
  if 0 <? q_count q then '(x, q) ← q_fetch q; Some (Some x, q) else Some (None, q).

(** [try_get]: [None] stands for the invalid message [T()]. *)
Definition mq_try_get (q : MessageQueue) : option (option T * MessageQueue) :=
  _ ← q_buffer q;
  if negb (q_count q =? 0) then '(x, q) ← q_fetch q; Some (Some x, q) else Some (None, q).

(** ** [CriticalMessageQueue] *)

Definition mq_put_always (granted : bool) (q : MessageQueue) (o : T) : option (bool * MessageQueue * T) :=
  _ ← q_buffer q;
  if q_count q =? q_capacity q then
    if (q_capacity q =? q_max_capacity q) && negb (q_max_capacity q <? INT_MAX_VAL + 1) then
      Some (false, q, o)
    else
      let q := if q_capacity q =? q_max_capacity q
               then q_with_max_capacity q (u32 (q_max_capacity q * 2)) else q in
      q ← mq_configure_capacity granted q (u32 (q_capacity q * 2)) true;
      _ ← c3_assert (q_count q <? q_capacity q);
      '(q, o) ← q_store q o; Some (true, q, o)
  else '(q, o) ← q_store q o; Some (true, q, o).

Record CriticalMessageQueue := mkCriticalMessageQueue {
  cmq : MessageQueue;
  cmq_set_max_capacity : Z;
}.

Definition cmq_create (granted : bool) (m : Memory) (capacity max_capacity : Z) : option CriticalMessageQueue :=
  q ← mq_create granted m capacity max_capacity;
  Some (mkCriticalMessageQueue q (q_max_capacity q)).

Definition cmq_store_and_set_max_capacity (granted : bool) (c : CriticalMessageQueue) (max_capacity : Z)
  : option (Z * CriticalMessageQueue) :=
  let limit := validate_capacity max_capacity in
  '(n, q) ← mq_set_max_capacity granted (cmq c) limit;
  Some (n, mkCriticalMessageQueue q limit).

Definition cmq_reduce_capacity (granted : bool) (c : CriticalMessageQueue) : option (bool * CriticalMessageQueue) :=
  let current_max_capacity := q_max_capacity (cmq c) in
  if cmq_set_max_capacity c <? current_max_capacity then
    '(new_max_capacity, q) ← mq_set_max_capacity granted (cmq c) (cmq_set_max_capacity c);
    Some (new_max_capacity <? current_max_capacity, mkCriticalMessageQueue q (cmq_set_max_capacity c))
  else Some (false, c).

End Sections.

(** ** The sections keep the elements *)

Section SectionLemmas.
Context {T : Type} `{MessageLaws T}.

Lemma mq_configure_capacity_ok g u q (l : list T) n :
  others u -> ring u q l -> 0 <= n ->
  exists q', mq_configure_capacity g q n false = Some q' /\ ring u q' l
    /\ q_max_capacity q' = q_max_capacity q
    /\ (g = true -> q_configure_capacity q n = Some q').
Proof.
  intros Hu Hq Hn. destruct (q_configure_capacity_ok u q l n Hu Hq Hn) as (q' & He & Hq' & Hm & _).
  unfold mq_configure_capacity. cbn [negb]. destruct g.
  - exists q'. unfold q_configure_capacity in *. done.
  - exists q. by case_match.
Qed.

Lemma mq_configure_max_capacity_ok g u q (l : list T) n :
  others u -> ring u q l -> 0 <= n ->
  exists q', mq_configure_max_capacity g q n = Some q' /\ ring u q' l.
Proof.
  intros Hu Hq Hn. destruct (validate_capacity_pow2 n Hn) as [Hv _]. pose proof (pow2_pos _ Hv).
  unfold mq_configure_max_capacity. destruct (_ <? _) eqn:E; zbool.
  - destruct (mq_configure_capacity_ok g u q l (validate_capacity n)) as (q' & -> & Hq' & _); [done|done|lia|].
    cbn. eexists; split; [done|]. pose proof (ring_capacity _ _ _ Hq').
    apply ring_with_max; [done|zcase; done|zcase; lia].
  - eexists; split; [done|]. by apply ring_with_max.
Qed.

Lemma mq_set_max_capacity_ok g u q (l : list T) n :
  others u -> ring u q l -> 0 <= n -> exists r q', mq_set_max_capacity g q n = Some (r, q') /\ ring u q' l.
Proof.
  intros Hu Hq Hn. destruct (mq_configure_max_capacity_ok g u q l n Hu Hq Hn) as (q' & He & Hq'). destruct (ring_buffer _ _ _ Hq) as (b & rest & Hb & _).
  exists (q_max_capacity q'), q'. split; [|done]. unfold mq_set_max_capacity. by rewrite Hb, He.
Qed.

(** In a full queue the two indices coincide. *)
Lemma full_indices u q (l : list T) :
  ring u q l -> q_count q = q_capacity q -> (q_get_index q =? q_put_index q) = true.
Proof.
  intros Hq E. apply Z.eqb_eq. pose proof (pow2_pos _ (ring_capacity _ _ _ Hq)).
  rewrite (ring_put _ _ _ Hq), E. rewrite Zplus_mod, Z.mod_same, Z.add_0_r, Z.mod_mod by lia.
  rewrite Z.mod_small; [done|]. apply (ring_get _ _ _ Hq).
Qed.

(** What a section that puts a message guarantees. *)
Definition put_post (u : Z) (l : list T) (o : T) (r : option (bool * Queue T * T)) : Prop :=
  exists ok q' o', r = Some (ok, q', o')
    /\ if ok then ring u q' (l ++ [o]) /\ inert o' else ring u q' l /\ o' = o.

Lemma q_store_post u q (l : list T) o :
  ring u q l -> q_count q <> q_capacity q ->
  put_post u l o ('(q, o) ← q_store q o; Some (true, q, o)).
Proof.
  intros Hq Hne. pose proof (ring_full _ _ _ Hq). rewrite (ring_count _ _ _ Hq) in *.
  destruct (q_store_ok u q l o) as (q' & o' & -> & Hq' & Ho & _); [done|lia|].
  exists true, q', o'. done.
Qed.

Lemma mq_put_enter_ok g u q (l : list T) o :
  others u -> ring u q l -> put_post u l o (mq_put_enter g q o).
Proof.
  intros Hu Hq. destruct (ring_buffer _ _ _ Hq) as (b & rest & Hb & _).
  unfold mq_put_enter. rewrite Hb. cbn [mbind option_bind].
  destruct (q_count q =? q_capacity q) eqn:E; zbool; [|by apply q_store_post].
  assert (exists q1, (if q_capacity q <? q_max_capacity q
    then mq_configure_capacity g q (u32 (q_capacity q * 2)) false else Some q) = Some q1 /\ ring u q1 l)
    as (q1 & -> & Hq1).
  { zcase; [|by exists q]. pose proof (u32_range (q_capacity q * 2)).
    destruct (mq_configure_capacity_ok g u q l (u32 (q_capacity q * 2))) as (q1 & He & Hq1 & _);
      [done|done|unfold is_u32 in *; lia|]. by exists q1. }
  cbn [mbind option_bind]. destruct (q_count q1 =? q_capacity q1) eqn:E1; zbool.
  - rewrite (full_indices u q1 l) by done. cbn. exists false, q1, o. done.
  - by apply q_store_post.
Qed.

Lemma mq_put_resume_ok u q (l : list T) o : ring u q l -> put_post u l o (mq_put_resume q o).
Proof.
  intros Hq. unfold mq_put_resume. destruct (_ <? _) eqn:E; zbool.
  - apply q_store_post; [done|lia].
  - exists false, q, o. done.
Qed.

(** The queue that always accepts refuses a message only at [2 ^ 31] elements. *)
Lemma mq_put_always_ok u q (l : list T) o :
  others u -> ring u q l ->
  put_post u l o (mq_put_always true q o)
  /\ (zlen l < 2 ^ 31 -> exists q' o', mq_put_always true q o = Some (true, q', o')).
Proof.
  intros Hu Hq. destruct (ring_buffer _ _ _ Hq) as (b & rest & Hb & _).
  pose proof (ring_count _ _ _ Hq) as Hcount. pose proof (ring_le_max _ _ _ Hq) as Hle.
  pose proof (ring_capacity _ _ _ Hq) as Hc. pose proof (ring_max _ _ _ Hq) as Hm.
  pose proof (pow2_pos _ Hc). pose proof (pow2_pos _ Hm).
  unfold mq_put_always. rewrite Hb. cbn [mbind option_bind]. change (INT_MAX_VAL + 1) with (2 ^ 31).
  assert (forall q1, ring u q1 l -> q_count q1 <> q_capacity q1 -> let r := ('(q, o) ← q_store q1 o; Some (true, q, o)) in
    put_post u l o r /\ (zlen l < 2 ^ 31 -> exists q' o', r = Some (true, q', o'))) as Hstore.
  { intros q1 Hq1 Hne r. pose proof (ring_full _ _ _ Hq1). split; [by apply q_store_post|]. intros _.
    destruct (q_store_ok u q1 l o) as (q' & o' & He & _); [done|rewrite <- (ring_count _ _ _ Hq1); lia|].
    exists q', o'. unfold r. by rewrite He. }
  destruct (q_count q =? q_capacity q) eqn:E; zbool; [|by apply Hstore].
  destruct ((q_capacity q =? q_max_capacity q) && negb (q_max_capacity q <? 2 ^ 31)) eqn:E1; zbool.
  { split; [by exists false, q, o|lia]. }
  set (q0 := if q_capacity q =? q_max_capacity q then _ else q).
  assert (ring u q0 l /\ q_capacity q0 = q_capacity q /\ 2 * q_capacity q <= q_max_capacity q0
    /\ q_capacity q < 2 ^ 31) as (Hq0 & Hc0 & Hm0 & Hlt).
  { unfold q0. destruct (q_capacity q =? q_max_capacity q) eqn:E2; cbn [andb] in E1; zbool.
    - rewrite (u32_small (_ * 2)) by (unfold is_u32; lia). cbn. split_and!; try lia.
      apply ring_with_max; [done|rewrite Z.mul_comm; by apply pow2_double|lia].
    - pose proof (pow2_double_le _ _ Hc Hm ltac:(lia)). split_and!; try done; lia. }
  clearbody q0. cbv zeta. rewrite Hc0. rewrite (u32_small (q_capacity q * 2)) by (unfold is_u32; lia).
  unfold mq_configure_capacity. cbn [negb]. rewrite Hc0.
  destruct (q_capacity q * 2 =? q_capacity q) eqn:E3; zbool; [lia|]. cbn [negb].
  destruct (q_resize_ok u q0 l (q_capacity q * 2)) as (q1 & -> & Hq1 & Hc1 & _);
    [done|done|rewrite Z.mul_comm; by apply pow2_double|lia|lia|].
  cbn [mbind option_bind]. rewrite (ring_count _ _ _ Hq1), Hc1.
  destruct (zlen l <? q_capacity q * 2) eqn:E4; zbool; [|lia]. cbn [c3_assert mbind option_bind].
  apply Hstore; [done|]. rewrite (ring_count _ _ _ Hq1). lia.
Qed.

(** What a section that retrieves a message guarantees. *)
Definition get_post (u : Z) (l : list T) (r : option (option T * Queue T)) : Prop :=
  exists q', r = Some (head l, q') /\ ring u q' (tail l).

Lemma q_fetch_post u q x (l : list T) :
  ring u q (x :: l) -> get_post u (x :: l) ('(x, q) ← q_fetch q; Some (Some x, q)).
Proof. intros Hq. destruct (q_fetch_ok u q x l Hq) as (q' & -> & Hq' & _). by exists q'. Qed.

Lemma mq_get_resume_ok u q (l : list T) : ring u q l -> get_post u l (mq_get_resume q).
Proof.
  intros Hq. unfold mq_get_resume. rewrite (ring_count _ _ _ Hq). destruct l as [|x l].
  - by exists q.
  - rewrite zlen_cons. pose proof (zlen_nonneg l). destruct (0 <? _) eqn:E; zbool; [|lia].
    by apply q_fetch_post.
Qed.

Lemma mq_try_get_ok u q (l : list T) : ring u q l -> get_post u l (mq_try_get q).
Proof.
  intros Hq. destruct (ring_buffer _ _ _ Hq) as (b & rest & Hb & _).
  unfold mq_try_get. rewrite Hb, (ring_count _ _ _ Hq). cbn [mbind option_bind]. destruct l as [|x l].
  - by exists q.
  - rewrite zlen_cons. pose proof (zlen_nonneg l). destruct (_ =? 0) eqn:E; zbool; [lia|].
    by apply q_fetch_post.
Qed.

Lemma mq_get_enter_ok u q (l : list T) : ring u q l -> get_post u l (mq_get_enter q).
Proof.
  intros Hq. destruct (ring_buffer _ _ _ Hq) as (b & rest & Hb & _).
  unfold mq_get_enter. rewrite Hb, (ring_count _ _ _ Hq). cbn [mbind option_bind]. destruct l as [|x l].
  - change (zlen [] =? 0) with true. cbn [negb].
    rewrite (ring_put _ _ _ Hq), (ring_count _ _ _ Hq). change (zlen []) with 0.
    rewrite Z.add_0_r, Z.mod_small by apply (ring_get _ _ _ Hq).
    rewrite Z.eqb_refl. cbn. by exists q.
  - rewrite zlen_cons. pose proof (zlen_nonneg l). destruct (_ =? 0) eqn:E; zbool; [lia|].
    by apply q_fetch_post.
Qed.

(** When memory is granted, capacities are set as in [Queue]. *)
Lemma mq_configure_capacity_granted (q : Queue T) n :
  mq_configure_capacity true q n false = q_configure_capacity q n.
Proof. unfold mq_configure_capacity, q_configure_capacity. cbn [negb]. done. Qed.

Lemma mq_configure_max_capacity_granted (q : Queue T) n :
  mq_configure_max_capacity true q n = q_configure_max_capacity q n.
Proof.
  unfold mq_configure_max_capacity, q_configure_max_capacity. by rewrite mq_configure_capacity_granted.
Qed.

Lemma mq_create_ok u m n max :
  others u -> m_used_size m = u -> 0 < n -> 0 <= max ->
  exists q : Queue T, mq_create true m n max = Some q /\ ring u q [].
Proof.
  intros Hu Hm Hn Hmax. destruct (q_create_ok u m n max Hu Hm Hn Hmax) as (q & He & Hq & _).
  exists q. split; [|done]. rewrite <- He. unfold mq_create, q_create.
  rewrite mq_configure_max_capacity_granted. destruct (q_configure_max_capacity _ _) as [q1|]; [|done].
  apply mq_configure_capacity_granted.
Qed.

End SectionLemmas.

(** ** Threads *)

(** The queue, the producers that wait for "not full" with the message they hold,
    and the consumers that wait for "not empty"; of both, those still asleep and
    those already notified. *)
Record mq_system (T : Type) := mkSystem {
  sys_queue : Queue T;
  producers_asleep : list (Z * T);
  producers_woken : list (Z * T);
  consumers_asleep : list Z;
  consumers_woken : list Z;
}.
Arguments mkSystem {T}. Arguments sys_queue {T}. Arguments producers_asleep {T}.
Arguments producers_woken {T}. Arguments consumers_asleep {T}. Arguments consumers_woken {T}.

(** [notify_one]: one of the threads asleep, if there is any, is woken. *)
Inductive notify_one {A : Type} : list A -> list A -> list A -> list A -> Prop :=
| notify_nobody woken : notify_one [] woken [] woken
| notify_somebody x asleep asleep' woken :
    asleep ≡ₚ x :: asleep' -> notify_one asleep woken asleep' (x :: woken).

(** A waiting thread runs: after a notification, or without any. *)
Inductive runs {A : Type} (x : A) : list A -> list A -> list A -> list A -> Prop :=
| runs_notified asleep woken woken' : woken ≡ₚ x :: woken' -> runs x asleep woken asleep woken'
| runs_spurious asleep asleep' woken : asleep ≡ₚ x :: asleep' -> runs x asleep woken asleep' woken.

(** What a step does to the contents. *)
Inductive mq_event (T : Type) := EvPut (o : T) | EvGet (x : T) | EvNone.
Arguments EvPut {T}. Arguments EvGet {T}. Arguments EvNone {T}.

Section Steps.
Context {T : Type} `{Message T}.

Inductive mq_step : mq_system T -> mq_event T -> mq_system T -> Prop :=
| step_put g q o q' o' pa pw ca cw ca' cw' :
    mq_put_enter g q o = Some (true, q', o') -> notify_one ca cw ca' cw' ->
    mq_step (mkSystem q pa pw ca cw) (EvPut o) (mkSystem q' pa pw ca' cw')
| step_put_wait g t q o q' o' pa pw ca cw :
    mq_put_enter g q o = Some (false, q', o') ->
    mq_step (mkSystem q pa pw ca cw) EvNone (mkSystem q' ((t, o') :: pa) pw ca cw)
| step_put_resume t q o q' o' pa pw pa' pw' ca cw ca' cw' :
    runs (t, o) pa pw pa' pw' -> mq_put_resume q o = Some (true, q', o') ->
    notify_one ca cw ca' cw' ->
    mq_step (mkSystem q pa pw ca cw) (EvPut o) (mkSystem q' pa' pw' ca' cw')
| step_put_again t q o q' o' pa pw pa' pw' ca cw :
    runs (t, o) pa pw pa' pw' -> mq_put_resume q o = Some (false, q', o') ->
    mq_step (mkSystem q pa pw ca cw) EvNone (mkSystem q' ((t, o') :: pa') pw' ca cw)
| step_put_timeout t q o q' o' pa pw pa' pw' ca cw :
    runs (t, o) pa pw pa' pw' -> mq_put_resume q o = Some (false, q', o') ->
    mq_step (mkSystem q pa pw ca cw) EvNone (mkSystem q' pa' pw' ca cw)
| step_put_always g q o q' o' pa pw ca cw ca' cw' :
    mq_put_always g q o = Some (true, q', o') -> notify_one ca cw ca' cw' ->
    mq_step (mkSystem q pa pw ca cw) (EvPut o) (mkSystem q' pa pw ca' cw')
| step_get q x q' pa pw pa' pw' ca cw :
    mq_get_enter q = Some (Some x, q') \/ mq_try_get q = Some (Some x, q') ->
    notify_one pa pw pa' pw' ->
    mq_step (mkSystem q pa pw ca cw) (EvGet x) (mkSystem q' pa' pw' ca cw)
| step_get_wait t q q' pa pw ca cw :
    mq_get_enter q = Some (None, q') ->
    mq_step (mkSystem q pa pw ca cw) EvNone (mkSystem q' pa pw (t :: ca) cw)
| step_get_resume t q x q' pa pw pa' pw' ca cw ca' cw' :
    runs t ca cw ca' cw' -> mq_get_resume q = Some (Some x, q') -> notify_one pa pw pa' pw' ->
    mq_step (mkSystem q pa pw ca cw) (EvGet x) (mkSystem q' pa' pw' ca' cw')
| step_get_again t q q' pa pw ca cw ca' cw' :
    runs t ca cw ca' cw' -> mq_get_resume q = Some (None, q') ->
    mq_step (mkSystem q pa pw ca cw) EvNone (mkSystem q' pa pw (t :: ca') cw')
| step_get_timeout t q q' pa pw ca cw ca' cw' :
    runs t ca cw ca' cw' -> mq_get_resume q = Some (None, q') ->
    mq_step (mkSystem q pa pw ca cw) EvNone (mkSystem q' pa pw ca' cw')
| step_set_capacity g n q r q' pa pw ca cw :
    0 <= n -> mq_set_capacity g q n = Some (r, q') ->
    mq_step (mkSystem q pa pw ca cw) EvNone (mkSystem q' pa pw ca cw)
| step_set_max_capacity g n q r q' pa pw ca cw :
    0 <= n -> mq_set_max_capacity g q n = Some (r, q') ->
    mq_step (mkSystem q pa pw ca cw) EvNone (mkSystem q' pa pw ca cw).

Inductive mq_trace (s : mq_system T) : list (mq_event T) -> mq_system T -> Prop :=
| trace_nil : mq_trace s [] s
| trace_snoc tr s' e s'' : mq_trace s tr s' -> mq_step s' e s'' -> mq_trace s (tr ++ [e]) s''.

Definition puts_of (tr : list (mq_event T)) : list T :=
  omap (fun e => match e with EvPut o => Some o | _ => None end) tr.
Definition gets_of (tr : list (mq_event T)) : list T :=
  omap (fun e => match e with EvGet x => Some x | _ => None end) tr.

End Steps.

Section Invariant.
Context {T : Type} `{MessageLaws T} (u : Z) (Hu : others u).

(** The elements are [l]; while a consumer is asleep, there are at least as many
    notified consumers as elements. *)
Definition mq_inv (s : mq_system T) (l : list T) : Prop :=
  ring u (sys_queue s) l /\ (consumers_asleep s <> [] -> zlen l <= zlen (consumers_woken s)).

Lemma runs_len {A} (x : A) a w a' w' :
  runs x a w a' w' -> (a' <> [] -> a <> []) /\ zlen w <= zlen w' + 1 /\ (a = [] -> zlen w = zlen w' + 1).
Proof.
  intros [? ? ? Hp|? ? ? Hp]; split_and!; try done.
  - apply Permutation_length in Hp. unfold zlen. cbn in Hp. lia.
  - intros. apply Permutation_length in Hp. unfold zlen. cbn in Hp. lia.
  - intros _ ->. by apply Permutation_nil_cons in Hp.
  - lia.
  - intros ->. by apply Permutation_nil_cons in Hp.
Qed.

Lemma notify_keeps {A} (l : list T) o (ca cw ca' cw' : list A) :
  (ca <> [] -> zlen l <= zlen cw) -> notify_one ca cw ca' cw' ->
  ca' <> [] -> zlen (l ++ [o]) <= zlen cw'.
Proof.
  intros Hw Hn Hne. rewrite zlen_app. change (zlen [o]) with 1. destruct Hn as [|x a a' w Hp]; [done|].
  rewrite zlen_cons. assert (a <> []) as Ha by (intros ->; by apply Permutation_nil_cons in Hp).
  specialize (Hw Ha). lia.
Qed.

(** The facts about one section, in terms of its actual result. *)
Lemma put_section (l : list T) o r ok q' o' :
  put_post u l o r -> r = Some (ok, q', o') -> ring u q' (if ok then l ++ [o] else l).
Proof. intros (ok1 & q1 & o1 & -> & Hp) ?. simplify_eq. by destruct ok, Hp. Qed.

Lemma get_section (l : list T) r x q' :
  get_post u l r -> r = Some (x, q') -> head l = x /\ ring u q' (tail l).
Proof. intros (q1 & -> & Hq) ?. by simplify_eq. Qed.

Lemma always_section g q (l : list T) o q' o' :
  ring u q l -> mq_put_always g q o = Some (true, q', o') -> ring u q' (l ++ [o]).
Proof.
  intros Hq He. destruct g.
  { eapply (put_section l o _ true q' o'); [|exact He]. by apply mq_put_always_ok. }
  destruct (decide (q_count q = q_capacity q)) as [Hf|Hf].
  - exfalso. unfold mq_put_always in He. rewrite Hf, Z.eqb_refl in He. inv_opt.
    destruct (_ && _); [done|]. inv_opt. unfold mq_configure_capacity in *. cbn [negb] in *.
    destruct (q_capacity q =? q_max_capacity q); cbn in *; repeat case_match; simplify_eq; cbn in *; lia.
  - unfold mq_put_always in He. rewrite (proj2 (Z.eqb_neq _ _) Hf) in He.
    destruct (q_buffer q); [|done]. cbn [mbind option_bind] in He.
    by eapply (put_section l o _ true q' o'); [by apply (q_store_post u q)|].
Qed.

(** Every step appends what it puts, or removes what it gets from the front. *)
Definition step_effect (e : mq_event T) (l l' : list T) : Prop :=
  match e with
  | EvPut o => l' = l ++ [o]
  | EvGet x => l = x :: l'
  | EvNone => l' = l
  end.

Lemma mq_step_inv s e s' l :
  mq_inv s l -> mq_step s e s' -> exists l', mq_inv s' l' /\ step_effect e l l'.
Proof.
  intros (Hq & Hw) Hs. unfold mq_inv.
  assert (forall x (l : list T), head l = Some x -> l = x :: tail l) as Hhd by (by intros x [|]; cbn; intros; simplify_eq).
  assert (forall l : list T, head l = None -> l = []) as Hnil by (by intros []).
  destruct Hs as [g q o q' o' pa pw ca cw ca' cw' He Hn | g t q o q' o' pa pw ca cw He
    | t q o q' o' pa pw pa' pw' ca cw ca' cw' Hr He Hn | t q o q' o' pa pw pa' pw' ca cw Hr He
    | t q o q' o' pa pw pa' pw' ca cw Hr He | g q o q' o' pa pw ca cw ca' cw' He Hn
    | q x q' pa pw pa' pw' ca cw He Hn | t q q' pa pw ca cw He
    | t q x q' pa pw pa' pw' ca cw ca' cw' Hr He Hn | t q q' pa pw ca cw ca' cw' Hr He
    | t q q' pa pw ca cw ca' cw' Hr He | g n q r q' pa pw ca cw Hn He | g n q r q' pa pw ca cw Hn He];
    cbn in Hq, Hw |- *.
  1,2: eapply put_section in He; [|by apply mq_put_enter_ok]; eauto 7 using notify_keeps.
  1,2,3: eapply put_section in He; [|by apply mq_put_resume_ok]; eauto 7 using notify_keeps.
  - eapply always_section in He; [|done]. eauto 7 using notify_keeps.
  - assert (head l = Some x /\ ring u q' (tail l)) as [Hh Hq'].
    { destruct He as [He|He]; (eapply get_section; [|exact He]); [by apply mq_get_enter_ok|by apply mq_try_get_ok]. }
    apply Hhd in Hh. exists (tail l). split_and!; [done| |done].
    intros Hne. specialize (Hw Hne). rewrite Hh, zlen_cons in Hw. lia.
  - eapply get_section in He as [Hh Hq']; [|by apply mq_get_enter_ok]. apply Hnil in Hh. subst l.
    exists []. split_and!; [done|intros; apply zlen_nonneg|done].
  - eapply get_section in He as [Hh Hq']; [|by apply mq_get_resume_ok]. apply Hhd in Hh.
    exists (tail l). split_and!; [done| |done]. intros Hne.
    destruct (runs_len _ _ _ _ _ Hr) as (Ha & Hl & _). specialize (Hw (Ha Hne)). rewrite Hh, zlen_cons in Hw. lia.
  - eapply get_section in He as [Hh Hq']; [|by apply mq_get_resume_ok]. apply Hnil in Hh. subst l.
    exists []. split_and!; [done|intros; apply zlen_nonneg|done].
  - eapply get_section in He as [Hh Hq']; [|by apply mq_get_resume_ok]. apply Hnil in Hh. subst l.
    exists []. split_and!; [done|intros; apply zlen_nonneg|done].
  - unfold mq_set_capacity in He. inv_opt.
    destruct (mq_configure_capacity_ok g u q l n Hu Hq Hn) as (q1 & He' & Hq1 & _). simplify_eq. by exists l.
  - unfold mq_set_max_capacity in He. inv_opt.
    destruct (mq_configure_max_capacity_ok g u q l n Hu Hq Hn) as (q1 & He' & Hq1). simplify_eq. by exists l.
Qed.

Lemma mq_trace_inv s0 tr s :
  mq_inv s0 [] -> mq_trace s0 tr s -> exists l, mq_inv s l /\ puts_of tr = gets_of tr ++ l.
Proof.
  intros Hi Ht. induction Ht as [|tr s' e s'' Ht (l & Hl & Heq) Hs]; [by exists []|].
  destruct (mq_step_inv _ _ _ _ Hl Hs) as (l' & Hl' & He). exists l'. split; [done|].
  unfold puts_of, gets_of in *. rewrite !omap_app, Heq. destruct e; cbn in *; subst; rewrite ?app_nil_r.
  - by rewrite <- app_assoc.
  - by rewrite <- app_assoc.
  - done.
Qed.

End Invariant.

(** ** Properties *)

(** (C13) Under any interleaving of producers, consumers, timeouts, spurious wake-ups and
    capacity changes, with memory granted or refused: messages come out in the
    order in which they went in and none is lost or duplicated; a consumer never
    stays asleep without a notified one while there is a message; and in every
    reachable state [put] and [get] run without a failing assertion, [put] either
    taking the message over or leaving it with the caller. *)
Theorem message_queue_fifo {T : Type} `{MessageLaws T} m capacity max_capacity (q : Queue T) tr s :
  others (m_used_size m) -> 0 < capacity -> 0 <= max_capacity ->
  mq_create true m capacity max_capacity = Some q ->
  mq_trace (mkSystem q [] [] [] []) tr s ->
  exists l, puts_of tr = gets_of tr ++ l /\ q_count (sys_queue s) = zlen l
    /\ (consumers_asleep s <> [] -> consumers_woken s = [] -> l = [])
    /\ (forall g o, exists ok q' o', mq_put_enter g (sys_queue s) o = Some (ok, q', o')
          /\ if ok then inert o' else o' = o)
    /\ (exists q', mq_get_enter (sys_queue s) = Some (head l, q')).
Proof.
  intros Hu Hc Hm He Ht.
  destruct (mq_create_ok (T := T) (m_used_size m) m capacity max_capacity) as (q0 & He0 & Hq); [done..|].
  rewrite He in He0. simplify_eq.
  destruct (mq_trace_inv (m_used_size m) Hu (mkSystem q0 [] [] [] []) tr s) as (l & (Hl & Hw) & Heq); [done|done|].
  exists l. split_and!; [done|apply (ring_count _ _ _ Hl)| | |].
  - intros Hne Hnil. specialize (Hw Hne). rewrite Hnil in Hw.
    destruct l; [done|]. rewrite zlen_cons in Hw. pose proof (zlen_nonneg l). change (zlen (@nil Z)) with 0 in Hw. lia.
  - intros g o. destruct (mq_put_enter_ok g _ _ _ o Hu Hl) as (ok & q' & o' & Hp & Hr).
    exists ok, q', o'. split; [done|]. by destruct ok, Hr.
  - destruct (mq_get_enter_ok _ _ _ Hl) as (q' & Hg & _). by exists q'.
Qed.

(** A queue for one message: the second producer waits until the first message is
    taken and its own wake-up. *)
Lemma message_queue_fifo_witness :
  let m := mkMemory 0 0 DOMAIN_GLOBAL in
  let cm n := mkCommandMessage n in
  let tr := [EvPut (cm 5); EvNone; EvGet (cm 5); EvPut (cm 6)] in
  exists q s l, mq_create true m 1 0 = Some q /\ mq_trace (mkSystem q [] [] [] []) tr s
    /\ puts_of tr = gets_of tr ++ l /\ l = [cm 6].
Proof.
  intros m cm tr.
  set (q1 := default (q_reset_fields m) (mq_create true m 1 0)).
  set (q2 := match mq_put_enter true q1 (cm 5) with Some (_, q, _) => q | None => q1 end).
  set (q3 := match mq_get_enter q2 with Some (_, q) => q | None => q2 end).
  set (q4 := match mq_put_resume q3 (cm 6) with Some (_, q, _) => q | None => q3 end).
  assert (mq_trace (mkSystem q1 [] [] [] []) tr (mkSystem q4 [] [] [] [])) as Ht.
  { change tr with (((([] ++ [EvPut (cm 5)]) ++ [EvNone]) ++ [EvGet (cm 5)]) ++ [EvPut (cm 6)]).
    eapply trace_snoc; [eapply trace_snoc; [eapply trace_snoc; [eapply trace_snoc; [apply trace_nil|]|]|]|].
    - eapply (step_put true q1 (cm 5) q2 (cm 0)); [vm_compute; reflexivity|constructor].
    - eapply (step_put_wait true 2 q2 (cm 6) q2 (cm 6)). vm_compute. reflexivity.
    - eapply (step_get q2 (cm 5) q3 [(2, cm 6)] [] [] [(2, cm 6)]); [left; vm_compute; reflexivity|].
      by constructor.
    - eapply (step_put_resume 2 q3 (cm 6) q4 (cm 0) [] [(2, cm 6)] [] []);
        [by constructor|vm_compute; reflexivity|constructor]. }
  destruct (message_queue_fifo m 1 0 q1 tr (mkSystem q4 [] [] [] [])) as (l & Hl & Hrest).
  - by vm_compute.
  - lia.
  - lia.
  - vm_compute. reflexivity.
  - exact Ht.
  - exists q1, (mkSystem q4 [] [] [] []), l. split; [vm_compute; reflexivity|]. split; [exact Ht|].
    split; [exact Hl|]. cbn in Hl. by injection Hl.
Defined.

Section Critical.
Context {T : Type} `{MessageLaws T}.

(** [put_always] for each message of a list, each with whether memory would be granted, as long as it is accepted:
    the queue, and the messages from the first one that is not. *)
Fixpoint mq_put_all (q : Queue T) (os : list (bool * T)) : Queue T * list (bool * T) :=
  match os with
  | [] => (q, [])
  | (g, o) :: os' =>
      match mq_put_always g q o with
      | Some (true, q, _) => mq_put_all q os'
      | _ => (q, os)
      end
  end.

(** [try_get] until the queue is empty. *)
Fixpoint mq_drain (fuel : nat) (q : Queue T) : option (list T) :=
  match fuel with
  | O => None
  | S fuel => '(x, q) ← mq_try_get q;
      match x with
      | Some x => xs ← mq_drain fuel q; Some (x :: xs)
      | None => Some []
      end
  end.

(** [put_always] fails its assertion exactly if the queue is full and [optional_calloc] returns no buffer. *)
Lemma mq_put_always_total u q (l : list T) g o : others u -> ring u q l -> zlen l < 2 ^ 31 ->
  if negb g && (q_count q =? q_capacity q) then mq_put_always g q o = None
  else exists q' o', mq_put_always g q o = Some (true, q', o') /\ ring u q' (l ++ [o]).
Proof.
  intros Hu Hq Hl. destruct g; cbn [negb andb].
  { destruct (mq_put_always_ok u q l o Hu Hq) as [Hp Hok]. destruct (Hok Hl) as (q' & o' & He). exists q', o'. split; [done|].
    by apply (put_section u l o _ true q' o' Hp). }
  destruct (ring_buffer _ _ _ Hq) as (b & rest & Hb & _). pose proof (ring_count _ _ _ Hq) as Hcount. pose proof (pow2_pos _ (ring_capacity _ _ _ Hq)).
  unfold mq_put_always. rewrite Hb. cbn [mbind option_bind]. destruct (q_count q =? q_capacity q) eqn:E; zbool.
  - change (INT_MAX_VAL + 1) with (2 ^ 31).
    destruct (q_capacity q =? q_max_capacity q) eqn:Em; cbn [andb]; zbool.
    + destruct (q_max_capacity q <? 2 ^ 31) eqn:E31; zbool; [|lia]. cbn [negb]. unfold mq_configure_capacity. cbn [negb q_capacity q_with_max_capacity].
      rewrite (u32_small (q_capacity q * 2)) by (unfold is_u32; lia).
      destruct (q_capacity q * 2 =? q_capacity q) eqn:E2; zbool; [lia|]. cbn [negb mbind option_bind q_count q_capacity q_with_max_capacity].
      by rewrite E, Z.ltb_irrefl.
    + unfold mq_configure_capacity. cbn [negb]. rewrite (u32_small (q_capacity q * 2)) by (unfold is_u32; lia).
      destruct (q_capacity q * 2 =? q_capacity q) eqn:E2; zbool; [lia|]. cbn [negb mbind option_bind].
      by rewrite E, Z.ltb_irrefl.
  - destruct (q_store_post u q l o Hq E) as (ok & q' & o' & He & Hp). destruct (q_store q o) as [[q1 o1]|]; [|done]. cbn in He |- *. injection He as <- <- <-.
    exists q1, o1. by destruct Hp.
Qed.

Lemma mq_put_all_ok u os : forall q (l : list T),
  others u -> ring u q l -> zlen l + zlen os <= 2 ^ 31 ->
  exists q' taken rest, mq_put_all q os = (q', rest) /\ os = taken ++ rest /\ ring u q' (l ++ map snd taken)
    /\ (rest = [] \/ q_count q' = q_capacity q' /\ exists o rest', rest = (false, o) :: rest').
Proof.
  induction os as [|[g o] os IH]; intros q l Hu Hq Hl; cbn [mq_put_all].
  { exists q, [], []. cbn [map app]. rewrite app_nil_r. split_and!; [done|done|done|by left]. }
  rewrite zlen_cons in Hl. pose proof (zlen_nonneg os). pose proof (mq_put_always_total u q l g o Hu Hq ltac:(lia)) as Hp.
  destruct (negb g && (q_count q =? q_capacity q)) eqn:E.
  - rewrite Hp. apply andb_true_iff in E as [Eg E]. destruct g; [done|]. zbool. exists q, [], ((false, o) :: os). rewrite app_nil_r.
    split_and!; [done|done|done|]. right. split; [done|]. by exists o, os.
  - destruct Hp as (q1 & o1 & -> & Hq1). destruct (IH q1 (l ++ [o]) Hu Hq1) as (q2 & taken & rest & -> & -> & Hq2 & Hr).
    { rewrite zlen_app. change (zlen [o]) with 1. lia. }
    exists q2, ((g, o) :: taken), rest. rewrite <- app_assoc in Hq2. by split_and!.
Qed.

Lemma mq_drain_ok u (l : list T) : forall q, ring u q l -> mq_drain (S (length l)) q = Some l.
Proof.
  induction l as [|x l IH]; intros q Hq; cbn [mq_drain length].
  - destruct (mq_try_get_ok u q [] Hq) as (q' & -> & _). done.
  - destruct (mq_try_get_ok u q (x :: l) Hq) as (q' & -> & Hq'). cbn [mbind option_bind head].
    cbn in Hq'. specialize (IH q' Hq'). cbn [mq_drain length] in IH. rewrite IH. done.
Qed.

End Critical.

(** (C14) The queue that always accepts loses nothing. Whatever its configured capacity, of up to [2 ^ 31] messages, each put
    with memory for a larger buffer granted or refused: [put_always] takes each of them, or fails its
    assertion, which happens exactly if the queue is full and memory for a larger
    buffer is refused; it never returns [false]. Reducing the capacity afterwards, again with or without
    memory for a smaller buffer, keeps all messages that were taken, in order. *)
Theorem critical_queue_keeps_all {T : Type} `{MessageLaws T} m capacity max_capacity (os : list (bool * T)) granted :
  others (m_used_size m) -> 0 < capacity -> 0 <= max_capacity -> zlen os <= 2 ^ 31 ->
  exists c q' taken rest, cmq_create true m capacity max_capacity = Some c
    /\ mq_put_all (cmq c) os = (q', rest) /\ os = taken ++ rest
    /\ (rest = [] \/ q_count q' = q_capacity q' /\ exists o rest', rest = (false, o) :: rest')
    /\ (zlen taken < 2 ^ 31 -> forall g o, if negb g && (q_count q' =? q_capacity q') then mq_put_always g q' o = None
          else exists q'' o', mq_put_always g q' o = Some (true, q'', o'))
    /\ exists b c', cmq_reduce_capacity granted (mkCriticalMessageQueue q' (cmq_set_max_capacity c)) = Some (b, c')
    /\ mq_drain (S (length taken)) (cmq c') = Some (map snd taken).
Proof.
  intros Hu Hc Hm Hl.
  destruct (mq_create_ok (T := T) (m_used_size m) m capacity max_capacity) as (q0 & He0 & Hq0); [done..|].
  destruct (mq_put_all_ok (m_used_size m) os q0 [] Hu Hq0 Hl) as (q' & taken & rest & Hput & Hos & Hq' & Hrest). cbn [app] in Hq'.
  exists (mkCriticalMessageQueue q0 (q_max_capacity q0)), q', taken, rest.
  unfold cmq_create. rewrite He0. split; [done|]. split; [done|]. split; [done|]. split; [done|]. split.
  { intros Ht g o. pose proof (mq_put_always_total _ q' _ g o Hu Hq') as Hp. unfold zlen in *. rewrite length_map in Hp. specialize (Hp Ht).
    destruct (_ && _); [done|]. destruct Hp as (q'' & o' & Hp & _). by exists q'', o'. }
  rewrite <- (length_map snd taken). unfold cmq_reduce_capacity. cbn [cmq cmq_set_max_capacity].
  destruct (q_max_capacity q0 <? q_max_capacity q').
  - destruct (mq_set_max_capacity_ok granted (m_used_size m) q' (map snd taken) (q_max_capacity q0)) as (n & q2 & -> & Hq2);
      [done|done|pose proof (pow2_pos _ (ring_max _ _ _ Hq0)); lia|].
    eexists _, _; split; [done|]. by eapply mq_drain_ok.
  - eexists _, _; split; [done|]. by eapply mq_drain_ok.
Qed.

(** The third message needs a buffer for four, which is granted; the fifth one needs one for eight, which is not. *)
Lemma critical_queue_keeps_all_witness :
  let m := mkMemory 0 0 DOMAIN_SESSION in
  let os := [(true, mkPointer 10); (true, mkPointer 20); (true, mkPointer 30); (false, mkPointer 40); (false, mkPointer 50)] in
  exists c q' b c', cmq_create true m 1 2 = Some c /\ mq_put_all (cmq c) os = (q', [(false, mkPointer 50)])
    /\ cmq_reduce_capacity true (mkCriticalMessageQueue q' (cmq_set_max_capacity c)) = Some (b, c')
    /\ mq_drain 5 (cmq c') = Some (mkPointer <$> [10; 20; 30; 40]).
Proof.
  intros m os.
  destruct (critical_queue_keeps_all m 1 2 os true) as (c & q' & taken & rest & Hc & Hp & Hos & _ & _ & b & c' & Hr & Hd).
  - by vm_compute.
  - lia.
  - lia.
  - by vm_compute.
  - assert (rest = [(false, mkPointer 50)]) as ->.
    { vm_compute in Hc. injection Hc as <-. vm_compute in Hp. by injection Hp as _ <-. }
    apply (app_inj_tail (take 4 os)) in Hos as [<- _].
    exists c, q', b, c'. exact (conj Hc (conj Hp (conj Hr Hd))).
Defined.
