(* ===== verification/DList.v ===== *)
(** * DList

    Intrusive doubly linked lists over a heap of objects. The server links the
    same object into several lists through different pairs of fields (bucket and
    table chains of [HashTable], the optimizers' chains, the chains of tag
    references); a pair of fields is a [links] record, and the operations and
    lemmas are stated once for any pair. *)

From S2P Require Import Prelude.

(** Addresses; a pointer is an [option loc], [None] being [nullptr]. *)
Abbreviation loc := positive.
Abbreviation ptr := (option loc).

(** A pair of fields that link objects of type [O]. *)
Record links (O : Type) := mkLinks {
  l_prev : O -> ptr;
  l_next : O -> ptr;
  set_prev : ptr -> O -> O;
  set_next : ptr -> O -> O;
}.
Arguments mkLinks {O}. Arguments l_prev {O}. Arguments l_next {O}.
Arguments set_prev {O}. Arguments set_next {O}.

(** The two fields can be written independently of each other. *)
Class LinkLaws {O : Type} (c : links O) : Prop := {
  prev_set_prev p o : l_prev c (set_prev c p o) = p;
  prev_set_next n o : l_prev c (set_next c n o) = l_prev c o;
  next_set_prev p o : l_next c (set_prev c p o) = l_next c o;
  next_set_next n o : l_next c (set_next c n o) = n;
}.

(** [f] does not depend on the fields of [c]. *)
Class Unlinked {O A : Type} (c : links O) (f : O -> A) : Prop := {
  unlinked_prev p o : f (set_prev c p o) = f o;
  unlinked_next n o : f (set_next c n o) = f o;
}.

Section Operations.
Context {O : Type} (c : links O).
Abbreviation heap := (gmap loc O).

(** [x->field = v] *)
Definition update (h : heap) (x : loc) (f : O -> O) : option heap :=
  o ← h !! x; Some (<[x := f o]> h).

(** [if (p != nullptr) p->field = v] *)
Definition update_ptr (h : heap) (p : ptr) (f : O -> O) : option heap :=
  match p with Some x => update h x f | None => Some h end.

(** [x->prev = nullptr; if ((x->next = first) != nullptr) x->next->prev = x;] and
    [first = x] at the place where the caller keeps it. *)
Definition link_front (h : heap) (first : ptr) (x : loc) : option heap :=
  h ← update h x (set_prev c None);
  h ← update h x (set_next c first);
  update_ptr h first (set_prev c (Some x)).

(** Unlinking as in [HashTable::remove], with its assertions; the new [first]. *)
Definition unlink (h : heap) (first : ptr) (x : loc) : option (heap * ptr) :=
  o ← h !! x;
  '(h, first) ← match l_prev c o with
    | Some p =>
        po ← h !! p;
        _ ← c3_assert (bool_decide (l_next c po = Some x));
        h ← update h p (set_next c (l_next c o));
        Some (h, first)
    | None =>
        _ ← c3_assert (bool_decide (first = Some x));
        Some (h, l_next c o)
    end;
  h ← match l_next c o with
    | Some n =>
        no ← h !! n;
        _ ← c3_assert (bool_decide (l_prev c no = Some x));
        update h n (set_prev c (l_prev c o))
    | None => Some h
    end;
  h ← update h x (set_prev c None);
  h ← update h x (set_next c None);
  Some (h, first).

(** ** Lists as sequences *)

Definition prev_of (h : heap) (x : loc) : option ptr := l_prev c <$> h !! x.
Definition next_of (h : heap) (x : loc) : option ptr := l_next c <$> h !! x.

(** The pointer to the first element of [l], or [q]. *)
Definition first_or (l : list loc) (q : ptr) : ptr := match l with [] => q | x :: _ => Some x end.
Definition last_or (p : ptr) (l : list loc) : ptr := match last l with Some x => Some x | None => p end.

(** [l] is a segment of a list: [p] precedes it and [q] follows it. *)
Fixpoint dseg (h : heap) (p : ptr) (l : list loc) (q : ptr) : Prop :=
  match l with
  | [] => True
  | x :: l => prev_of h x = Some p /\ next_of h x = Some (first_or l q) /\ dseg h (Some x) l q
  end.

(** [first] heads a whole list whose elements are [l]. *)
Definition dlist (h : heap) (first : ptr) (l : list loc) : Prop :=
  first = first_or l None /\ dseg h None l None /\ NoDup l.

End Operations.

Section Lemmas.
Context {O : Type} (c : links O) `{!LinkLaws c}.
Abbreviation heap := (gmap loc O).
Implicit Types (h : heap).

Lemma first_or_app l1 l2 q : first_or (l1 ++ l2) q = first_or l1 (first_or l2 q).
Proof. by destruct l1. Qed.

Lemma last_or_cons p x l : last_or p (x :: l) = last_or (Some x) l.
Proof. unfold last_or. rewrite last_cons. by destruct (last l). Qed.

Lemma dseg_app h l1 : forall p l2 q,
  dseg c h p (l1 ++ l2) q <-> dseg c h p l1 (first_or l2 q) /\ dseg c h (last_or p l1) l2 q.
Proof.
  induction l1 as [|x l1 IH]; intros p l2 q; cbn.
  { unfold last_or; cbn. tauto. }
  rewrite IH, first_or_app, last_or_cons. tauto.
Qed.

(** A segment depends on the links of its elements only. *)
Lemma dseg_frame h h' l : forall p q,
  (forall x, x ∈ l -> prev_of c h' x = prev_of c h x /\ next_of c h' x = next_of c h x) ->
  dseg c h p l q -> dseg c h' p l q.
Proof.
  induction l as [|x l IH]; intros p q Hx; cbn; [done|].
  intros (Hp & Hn & Hl). destruct (Hx x) as [-> ->]; [left|]. split_and!; [done..|].
  apply IH; [|done]. intros y Hy. apply Hx. by right.
Qed.

Lemma dseg_last h p l q x : dseg c h p l q -> last l = Some x -> next_of c h x = Some q.
Proof.
  destruct l as [|y l _] using rev_ind; [done|]. rewrite last_snoc. intros [_ (_ & Hn & _)]%dseg_app [= ->]. done.
Qed.

Lemma dseg_elem h p l q x : dseg c h p l q -> x ∈ l -> is_Some (h !! x).
Proof.
  revert p. induction l as [|y l IH]; intros p; [by intros _ ?%elem_of_nil|].
  intros (Hp & _ & Hl) [->|Hx]%elem_of_cons; [|by eapply IH].
  unfold prev_of in Hp. destruct (h !! y); [by eexists|done].
Qed.

(** ** Updates *)

Lemma update_ok h x o f : h !! x = Some o -> update h x f = Some (<[x := f o]> h).
Proof. intros Hx. unfold update. by rewrite Hx. Qed.

(** Writes through the links of [c] are invisible to everything else. *)
Lemma update_other {A} (f : O -> A) h h' x g y :
  (forall o, f (g o) = f o) -> update h x g = Some h' -> f <$> h' !! y = f <$> h !! y.
Proof.
  intros Hf Hu. unfold update in Hu. destruct (h !! x) as [o|] eqn:E; [|done]. cbn in Hu. simplify_eq.
  destruct (decide (x = y)) as [->|Hne].
  - rewrite lookup_insert_eq, E. cbn. by rewrite Hf.
  - by rewrite lookup_insert_ne.
Qed.

Lemma update_dom h h' x g : update h x g = Some h' -> dom h' = dom h.
Proof.
  intros Hu. unfold update in Hu. destruct (h !! x) as [o|] eqn:E; [|done]. cbn in Hu. simplify_eq.
  rewrite dom_insert_L. apply elem_of_dom_2 in E. set_solver.
Qed.

Lemma update_eq h h' x g : update h x g = Some h' -> h' !! x = g <$> h !! x.
Proof.
  intros Hu. unfold update in Hu. destruct (h !! x) as [o|] eqn:E; [|done]. cbn in Hu. simplify_eq.
  by rewrite lookup_insert_eq.
Qed.

Lemma update_ne h h' x y g : update h x g = Some h' -> x <> y -> h' !! y = h !! y.
Proof.
  intros Hu Hne. unfold update in Hu. destruct (h !! x) as [o|] eqn:E; [|done]. cbn in Hu. simplify_eq.
  by rewrite lookup_insert_ne.
Qed.

(** [relinked c h h' l]: only links of [c], and only of objects in [l], differ. *)
Definition relinked h h' (l : list loc) : Prop :=
  dom h' = dom h
  /\ (forall y, y ∉ l -> h' !! y = h !! y)
  /\ (forall A (f : O -> A), Unlinked c f -> forall y, f <$> h' !! y = f <$> h !! y).

Lemma relinked_refl h l : relinked h h l.
Proof. done. Qed.

Lemma relinked_trans h1 h2 h3 l : relinked h1 h2 l -> relinked h2 h3 l -> relinked h1 h3 l.
Proof.
  intros (D1 & E1 & F1) (D2 & E2 & F2). split_and!.
  - congruence.
  - intros y Hy. rewrite E2, E1 by done. done.
  - intros A f Hf y. rewrite (F2 A f Hf y). by apply F1.
Qed.

Lemma relinked_mono h h' l l' : relinked h h' l -> l ⊆ l' -> relinked h h' l'.
Proof. intros (D & E & F) Hs. split_and!; [done| |done]. intros y Hy. apply E. set_solver. Qed.

Lemma relinked_prev h h' x l p : x ∈ l -> update h x (set_prev c p) = Some h' -> relinked h h' l.
Proof.
  intros Hx Hu. split_and!; [by eapply update_dom| |].
  - intros y Hy. eapply update_ne; [done|]. intros ->. done.
  - intros A f Hf y. eapply update_other; [|done]. apply unlinked_prev.
Qed.

Lemma relinked_next h h' x l n : x ∈ l -> update h x (set_next c n) = Some h' -> relinked h h' l.
Proof.
  intros Hx Hu. split_and!; [by eapply update_dom| |].
  - intros y Hy. eapply update_ne; [done|]. intros ->. done.
  - intros A f Hf y. eapply update_other; [|done]. apply unlinked_next.
Qed.

(** Reading links after a write. *)
Lemma prev_of_set_prev h h' x p y :
  update h x (set_prev c p) = Some h' ->
  prev_of c h' y = (if bool_decide (y = x) then Some p else prev_of c h y)
  /\ next_of c h' y = next_of c h y.
Proof.
  intros Hu. unfold prev_of, next_of. split; [|by eapply update_other; [apply next_set_prev|]].
  case_bool_decide as Hy; [subst y|by erewrite update_ne].
  rewrite (update_eq _ _ _ _ Hu). unfold update in Hu. destruct (h !! x); [|done]. cbn. by rewrite prev_set_prev.
Qed.

Lemma next_of_set_next h h' x n y :
  update h x (set_next c n) = Some h' ->
  next_of c h' y = (if bool_decide (y = x) then Some n else next_of c h y)
  /\ prev_of c h' y = prev_of c h y.
Proof.
  intros Hu. unfold prev_of, next_of. split; [|by eapply update_other; [apply prev_set_next|]].
  case_bool_decide as Hy; [subst y|by erewrite update_ne].
  rewrite (update_eq _ _ _ _ Hu). unfold update in Hu. destruct (h !! x); [|done]. cbn. by rewrite next_set_next.
Qed.

Lemma update_some h x f : is_Some (h !! x) -> exists h', update h x f = Some h'.
Proof. intros [o Ho]. exists (<[x := f o]> h). by apply update_ok. Qed.

Lemma update_is_some h h' x f y : update h x f = Some h' -> is_Some (h !! y) -> is_Some (h' !! y).
Proof.
  intros Hu Hy. apply elem_of_dom. rewrite (update_dom _ _ _ _ Hu). by apply elem_of_dom.
Qed.

(** Changing what follows, or what precedes, a segment. *)
Lemma dseg_end h h' l : forall p q q',
  dseg c h p l q -> NoDup l ->
  (forall y, y ∈ l -> prev_of c h' y = prev_of c h y
     /\ next_of c h' y = (if bool_decide (last l = Some y) then Some q' else next_of c h y)) ->
  dseg c h' p l q'.
Proof.
  induction l as [|x l IH]; intros p q q' Hd Hnd Hy; [done|]. cbn in Hd |- *.
  destruct Hd as (Hp & Hn & Hl). apply NoDup_cons in Hnd as [Hx Hnd].
  destruct (Hy x) as [Hp' Hn']; [left|]. split_and!.
  - by rewrite Hp'.
  - rewrite Hn'. destruct l as [|z l]; [by rewrite bool_decide_true|]. rewrite bool_decide_false; [done|].
    intros Hlast. apply Hx. apply last_Some_elem_of. by rewrite last_cons_cons in Hlast.
  - apply (IH (Some x) q); [done|done|]. intros y Hin. destruct (Hy y) as [Hpy Hny]; [by right|].
    split; [done|]. rewrite Hny. destruct l as [|z l]; [by apply elem_of_nil in Hin|].
    by rewrite last_cons_cons.
Qed.

Lemma dseg_start h h' l p p' q :
  dseg c h p l q -> NoDup l ->
  (forall y, y ∈ l -> next_of c h' y = next_of c h y
     /\ prev_of c h' y = (if bool_decide (head l = Some y) then Some p' else prev_of c h y)) ->
  dseg c h' p' l q.
Proof.
  destruct l as [|x l]; intros Hd Hnd Hy; [done|]. cbn in Hd |- *.
  destruct Hd as (Hp & Hn & Hl). apply NoDup_cons in Hnd as [Hx Hnd].
  destruct (Hy x) as [Hn' Hp']; [left|]. cbn in Hp'. rewrite bool_decide_true in Hp' by done.
  split_and!; [done|by rewrite Hn'|]. eapply dseg_frame; [|done]. intros y Hin.
  destruct (Hy y) as [Hny Hpy]; [by right|]. split; [|done]. rewrite Hpy. cbn.
  rewrite bool_decide_false; [done|]. intros [= ->]. done.
Qed.

(** Linking at the front. *)
Lemma link_front_ok h first l x :
  dlist c h first l -> x ∉ l -> is_Some (h !! x) ->
  exists h', link_front c h first x = Some h' /\ dlist c h' (Some x) (x :: l) /\ relinked h h' (x :: l).
Proof.
  intros (-> & Hd & Hnd) Hx Hs. unfold link_front.
  destruct (update_some h x (set_prev c None) Hs) as (h1 & H1). rewrite H1. cbn [mbind option_bind].
  destruct (update_some h1 x (set_next c (first_or l None))) as (h2 & H2); [by eapply update_is_some|].
  rewrite H2. cbn [mbind option_bind].
  assert (relinked h h2 (x :: l)) as Hr2.
  { eapply relinked_trans; [eapply relinked_prev|eapply relinked_next]; [left|done|left|done]. }
  assert (forall y, prev_of c h2 y = (if bool_decide (y = x) then Some None else prev_of c h y)
    /\ next_of c h2 y = (if bool_decide (y = x) then Some (first_or l None) else next_of c h y)) as Hl2.
  { intros y. destruct (prev_of_set_prev _ _ _ _ y H1) as [<- <-].
    destruct (next_of_set_next _ _ _ _ y H2) as [<- <-]. done. }
  destruct l as [|y l]; cbn [first_or update_ptr] in *.
  - exists h2. split_and!; [done| |done]. destruct (Hl2 x) as [Hp Hn]. rewrite bool_decide_true in Hp, Hn by done.
    split_and!; [done|done|apply NoDup_singleton].
  - destruct (update_some h2 y (set_prev c (Some x))) as (h3 & H3).
    { apply elem_of_dom. destruct Hr2 as [-> _]. apply elem_of_dom. eapply dseg_elem; [done|left]. }
    exists h3. rewrite H3. split_and!; [done| |].
    + assert (forall z, prev_of c h3 z = (if bool_decide (z = y) then Some (Some x) else prev_of c h2 z)
        /\ next_of c h3 z = next_of c h2 z) as Hl3 by (intros z; by apply prev_of_set_prev).
      apply not_elem_of_cons in Hx as Hxy. destruct Hxy as [Hxy Hxl].
      split; [done|]. split; [|by constructor].
      destruct (Hl3 x) as [Hp Hn], (Hl2 x) as [Hp2 Hn2]. rewrite bool_decide_false in Hp by done.
      rewrite bool_decide_true in Hp2, Hn2 by done.
      split_and!; [by rewrite Hp|by rewrite Hn|]. apply (dseg_start h h3 (y :: l) None (Some x)); [done|done|].
      intros z Hz. assert (z <> x) as Hzx by (intros ->; done). cbn.
      destruct (Hl3 z) as [-> ->], (Hl2 z) as [-> ->]. rewrite !(bool_decide_false (z = x)) by done.
      split; [done|]. destruct (decide (z = y)) as [->|Hzy]; [by rewrite !bool_decide_true|].
      rewrite !bool_decide_false; [done|congruence|done].
    + eapply relinked_trans; [exact Hr2|]. eapply relinked_prev; [|exact H3]. right. left.
Qed.

(** The two halves of unlinking [x] from [l1 ++ x :: l2]: the predecessor, or
    [first], is made to point past [x]; the successor is made to point before it. *)
Lemma unlink_before h l1 x l2 o :
  dlist c h (first_or (l1 ++ x :: l2) None) (l1 ++ x :: l2) -> h !! x = Some o ->
  exists h1, match l_prev c o with
    | Some p =>
        po ← h !! p;
        _ ← c3_assert (bool_decide (l_next c po = Some x));
        h ← update h p (set_next c (l_next c o));
        Some (h, first_or (l1 ++ x :: l2) None)
    | None =>
        _ ← c3_assert (bool_decide (first_or (l1 ++ x :: l2) None = Some x));
        Some (h, l_next c o)
    end = Some (h1, first_or (l1 ++ l2) None)
  /\ relinked h h1 l1
  /\ forall y, prev_of c h1 y = prev_of c h y
     /\ next_of c h1 y = (if bool_decide (last l1 = Some y) then Some (l_next c o) else next_of c h y).
Proof.
  intros (_ & Hd & Hnd) Ho. apply dseg_app in Hd as [H1 (Hp & Hn & H2)].
  unfold prev_of in Hp. unfold next_of in Hn. rewrite Ho in Hp, Hn. cbn in Hp, Hn. injection Hp as Hp. injection Hn as Hn.
  rewrite Hp. destruct l1 as [|p l1 _] using rev_ind.
  - cbn. rewrite bool_decide_true by done. cbn. exists h. rewrite Hn. split_and!; [done|apply relinked_refl|].
    intros y. by rewrite bool_decide_false.
  - unfold last_or. rewrite last_snoc. apply dseg_app in H1 as [_ (_ & Hnp & _)]. cbn in Hnp.
    unfold next_of in Hnp. destruct (h !! p) as [po|] eqn:Epo; [|done]. cbn in Hnp. injection Hnp as Hnp.
    cbn [mbind option_bind]. rewrite bool_decide_true by done. cbn [c3_assert mbind option_bind].
    destruct (update_some h p (set_next c (l_next c o))) as (h1 & Hu); [by eexists|].
    rewrite Hu. cbn [mbind option_bind]. exists h1. split_and!.
    + rewrite <- !app_assoc. by destruct l1.
    + eapply relinked_next; [|done]. apply elem_of_app. right. left.
    + intros y. destruct (next_of_set_next _ _ _ _ y Hu) as [-> ->]. split; [done|].
      repeat case_bool_decide; congruence.
Qed.

Lemma unlink_after h l1 x l2 o h1 :
  dlist c h (first_or (l1 ++ x :: l2) None) (l1 ++ x :: l2) -> h !! x = Some o ->
  relinked h h1 l1 -> (forall y, prev_of c h1 y = prev_of c h y) ->
  exists h2, match l_next c o with
    | Some n =>
        no ← h1 !! n;
        _ ← c3_assert (bool_decide (l_prev c no = Some x));
        update h1 n (set_prev c (l_prev c o))
    | None => Some h1
    end = Some h2
  /\ relinked h1 h2 l2
  /\ forall y, next_of c h2 y = next_of c h1 y
     /\ prev_of c h2 y = (if bool_decide (head l2 = Some y) then Some (l_prev c o) else prev_of c h1 y).
Proof.
  intros (_ & Hd & Hnd) Ho Hr Hpv. apply dseg_app in Hd as [H1 (Hp & Hn & H2)].
  unfold next_of in Hn. rewrite Ho in Hn. cbn in Hn. injection Hn as Hn.
  rewrite Hn. destruct l2 as [|n l2]; cbn [first_or].
  - exists h1. split_and!; [done|apply relinked_refl|]. intros y. by rewrite bool_decide_false.
  - destruct H2 as (Hpn & _ & _). rewrite <- Hpv in Hpn. unfold prev_of in Hpn.
    destruct (h1 !! n) as [no|] eqn:Eno; [|done]. cbn in Hpn. injection Hpn as Hpn.
    cbn [mbind option_bind]. rewrite bool_decide_true by done. cbn [c3_assert mbind option_bind].
    destruct (update_some h1 n (set_prev c (l_prev c o))) as (h2 & Hu); [by eexists|].
    exists h2. split_and!; [done|eapply relinked_prev; [left|done]|].
    intros y. destruct (prev_of_set_prev _ _ _ _ y Hu) as [-> ->]. split; [done|]. cbn.
    repeat case_bool_decide; congruence.
Qed.

(** Unlinking removes the element, clears its links and keeps the other elements in
    order. *)
Lemma unlink_ok h first l1 x l2 :
  dlist c h first (l1 ++ x :: l2) ->
  exists h', unlink c h first x = Some (h', first_or (l1 ++ l2) None)
    /\ dlist c h' (first_or (l1 ++ l2) None) (l1 ++ l2)
    /\ relinked h h' (l1 ++ x :: l2)
    /\ prev_of c h' x = Some None /\ next_of c h' x = Some None.
Proof.
  intros Hd. pose proof Hd as (Hf & Hds & Hnd). subst first.
  assert (is_Some (h !! x)) as [o Ho] by (eapply dseg_elem; [done|]; apply elem_of_app; right; left).
  destruct (unlink_before h l1 x l2 o Hd Ho) as (h1 & E1 & R1 & L1).
  destruct (unlink_after h l1 x l2 o h1 Hd Ho R1) as (h2 & E2 & R2 & L2); [intros y; apply L1|].
  unfold unlink. rewrite Ho. cbn [mbind option_bind]. setoid_rewrite E1. cbn [mbind option_bind].
  setoid_rewrite E2. cbn [mbind option_bind].
  assert (is_Some (h2 !! x)) as Hs2.
  { apply elem_of_dom. destruct R2 as [-> _], R1 as [-> _]. apply elem_of_dom. by eexists. }
  destruct (update_some h2 x (set_prev c None) Hs2) as (h3 & U3). rewrite U3. cbn [mbind option_bind].
  destruct (update_some h3 x (set_next c None)) as (h4 & U4); [by eapply update_is_some|].
  rewrite U4. cbn [mbind option_bind]. exists h4. split; [done|].
  assert (forall y, prev_of c h4 y = (if bool_decide (y = x) then Some None else prev_of c h2 y)
    /\ next_of c h4 y = (if bool_decide (y = x) then Some None else next_of c h2 y)) as L4.
  { intros y. destruct (prev_of_set_prev _ _ _ _ y U3) as [<- <-].
    destruct (next_of_set_next _ _ _ _ y U4) as [-> ->]. done. }
  apply NoDup_app in Hnd as (Hnd1 & Hdis & Hnd2). apply NoDup_cons in Hnd2 as [Hx2 Hnd2].
  assert (x ∉ l1) as Hx1 by (intros Hin; apply (Hdis x Hin); left).
  assert (forall y, y ∈ l1 -> y ∉ l2) as Hd12 by (intros y Hy Hy'; apply (Hdis y Hy); by right).
  split_and!.
  - split; [done|]. split; [|apply NoDup_app; split_and!; done]. apply dseg_app in Hds as [H1 (Hp & Hn & H2)].
    unfold prev_of in Hp. unfold next_of in Hn. rewrite Ho in Hp, Hn. cbn in Hp, Hn. injection Hp as Hp. injection Hn as Hn.
    rewrite Hp in L2. rewrite Hn in L1. apply dseg_app. split.
    + apply (dseg_end h h4 l1 None (Some x)); [done|done|]. intros y Hy.
      destruct (L4 y) as [-> ->], (L2 y) as [-> ->], (L1 y) as [-> ->].
      rewrite !(bool_decide_false (y = x)) by (intros ->; done). split; [|done].
      rewrite bool_decide_false; [done|]. intros Hh. apply (Hd12 y Hy). destruct l2; [done|]. cbn in Hh.
      injection Hh as ->. left.
    + apply (dseg_start h h4 l2 (Some x)); [done|done|]. intros y Hy.
      destruct (L4 y) as [-> ->], (L2 y) as [-> ->], (L1 y) as [-> ->].
      rewrite !(bool_decide_false (y = x)) by (intros ->; done). split; [|done].
      rewrite bool_decide_false; [done|]. intros Hh. apply (Hd12 y); [by apply last_Some_elem_of|done].
  - eapply relinked_trans; [eapply relinked_mono; [exact R1|set_solver]|].
    eapply relinked_trans; [eapply relinked_mono; [exact R2|set_solver]|].
    eapply relinked_trans; [eapply relinked_prev|eapply relinked_next]; [|exact U3| |exact U4]; set_solver.
  - destruct (L4 x) as [-> _]. by rewrite bool_decide_true.
  - destruct (L4 x) as [_ ->]. by rewrite bool_decide_true.
Qed.

(** Chains survive changes that do not touch their links. *)
Lemma dlist_frame h h' first l :
  (forall x, x ∈ l -> prev_of c h' x = prev_of c h x /\ next_of c h' x = next_of c h x) ->
  dlist c h first l -> dlist c h' first l.
Proof. intros Hx (-> & Hd & Hn). split_and!; [done| |done]. by eapply dseg_frame. Qed.

Lemma relinked_disjoint_dlist h h' l first k :
  (forall x, x ∈ k -> x ∉ l) -> relinked h h' l -> dlist c h first k -> dlist c h' first k.
Proof.
  intros Hd (_ & E & _). apply dlist_frame. intros x Hx. unfold prev_of, next_of. by rewrite E by auto.
Qed.

(** The steps of a successful unlinking. *)
Lemma unlink_inv h first x o h' first' :
  h !! x = Some o -> unlink c h first x = Some (h', first') ->
  exists h1 h2, match l_prev c o with
      | Some p => update h p (set_next c (l_next c o)) = Some h1 /\ first' = first
      | None => first = Some x /\ h1 = h /\ first' = l_next c o
      end
    /\ update_ptr h1 (l_next c o) (set_prev c (l_prev c o)) = Some h2
    /\ h' = <[x := set_next c None (set_prev c None (default o (h2 !! x)))]> h2 /\ is_Some (h2 !! x).
Proof.
  intros Ho Hu. unfold unlink in Hu. rewrite Ho in Hu. cbn [mbind option_bind] in Hu.
  apply bind_Some in Hu as ([h1 f1] & Hb & Hu). apply bind_Some in Hu as (h2 & Ha & Hu).
  apply bind_Some in Hu as (h3 & H3 & Hu). apply bind_Some in Hu as (h4 & H4 & Hu). injection Hu as <- <-.
  exists h1, h2. split; [|split].
  - destruct (l_prev c o) as [p|]; inv_opt; [done|]. by apply bool_decide_eq_true in Ha0 as ->.
  - destruct (l_next c o); inv_opt; done.
  - unfold update in H3. destruct (h2 !! x) as [o2|] eqn:E2; [|done]. cbn in H3. injection H3 as <-.
    unfold update in H4. rewrite lookup_insert_eq in H4. cbn in H4. injection H4 as <-.
    by rewrite insert_insert_eq.
Qed.

End Lemmas.
