(* ===== verification/HashObject.v ===== *)
(** * HashObject

    The objects kept in hash tables ([ht_objects.h], [ht_objects.cc]): flags, the
    fields of [HashObject] and [PayloadHashObject], their buffers and their
    disposal. The lock word is that of [LockableObject] ([mt_lockable_object.h]),
    the reader word that of [QuickSemaphore] ([mt_quick_semaphore.h]); here they are
    only inspected. *)

From S2P Require Import Prelude Protocol Memory DList.

(** ** Flags *)

Definition HOF_FPC : Z := 0x01.
Definition HOF_PAYLOAD : Z := 0x02.
Definition HOF_LINKED_BY_OPTIMIZER : Z := 0x04.
Definition HOF_LINKED_BY_TM : Z := 0x08.
Definition HOF_BEING_OPTIMIZED : Z := 0x10.
Definition HOF_OPTIMIZED : Z := 0x20.
Definition HOF_BEING_DELETED : Z := 0x40.
Definition HOF_DELETED : Z := 0x80.
Definition HOF_TYPE_BITS : Z := Z.lor HOF_FPC HOF_PAYLOAD.

Inductive hash_object_type_t := HOT_INVALID | HOT_SESSION_OBJECT | HOT_TAG_OBJECT | HOT_PAGE_OBJECT.

#[export] Instance hash_object_type_t_eq_dec : EqDecision hash_object_type_t.
Proof. solve_decision. Defined.

(** ** Objects *)

(** [pho_buffer]: no buffer, the static [ZERO_LENGTH_BUFFER], or an allocated one. *)
Inductive payload_buffer :=
| NoBuffer
| ZeroLengthBuffer
| Buffer (bs : bytes).

(** The fields of [PayloadHashObject]. *)
Record PayloadFields := mkPayloadFields {
  pho_buffer : payload_buffer;
  pho_opt_prev : ptr;
  pho_opt_next : ptr;
  pho_size : Z;
  pho_usize : Z;
  pho_mod_time : Z;
  pho_exp_time : Z;
  pho_semaphore : Z;
  pho_count : Z;
  pho_opt_useragent : user_agent_t;
  pho_opt_comp : Z;
}.

Record HashObject := mkHashObject {
  ho_ht_prev : ptr;
  ho_ht_next : ptr;
  ho_prev : ptr;
  ho_next : ptr;
  ho_hash : Z;
  ho_length : Z;
  ho_name : bytes;
  ho_flags : Z;
  lo_state : Z;
  ho_payload : PayloadFields;
}.

Abbreviation heap := (gmap loc HashObject).

(** The two chains of a hash table. *)
Definition table_chain : links HashObject :=
  mkLinks ho_prev ho_next
    (fun p o => mkHashObject (ho_ht_prev o) (ho_ht_next o) p (ho_next o) (ho_hash o) (ho_length o)
                  (ho_name o) (ho_flags o) (lo_state o) (ho_payload o))
    (fun n o => mkHashObject (ho_ht_prev o) (ho_ht_next o) (ho_prev o) n (ho_hash o) (ho_length o)
                  (ho_name o) (ho_flags o) (lo_state o) (ho_payload o)).
Definition bucket_chain : links HashObject :=
  mkLinks ho_ht_prev ho_ht_next
    (fun p o => mkHashObject p (ho_ht_next o) (ho_prev o) (ho_next o) (ho_hash o) (ho_length o)
                  (ho_name o) (ho_flags o) (lo_state o) (ho_payload o))
    (fun n o => mkHashObject (ho_ht_prev o) n (ho_prev o) (ho_next o) (ho_hash o) (ho_length o)
                  (ho_name o) (ho_flags o) (lo_state o) (ho_payload o)).

#[export] Instance table_chain_laws : LinkLaws table_chain.
Proof. by split. Qed.
#[export] Instance bucket_chain_laws : LinkLaws bucket_chain.
Proof. by split. Qed.

Definition ho_with_flags (o : HashObject) (f : Z) : HashObject :=
  mkHashObject (ho_ht_prev o) (ho_ht_next o) (ho_prev o) (ho_next o) (ho_hash o) (ho_length o)
    (ho_name o) f (lo_state o) (ho_payload o).
Definition ho_with_payload (o : HashObject) (p : PayloadFields) : HashObject :=
  mkHashObject (ho_ht_prev o) (ho_ht_next o) (ho_prev o) (ho_next o) (ho_hash o) (ho_length o)
    (ho_name o) (ho_flags o) (lo_state o) p.

(** ** Accessors *)

Definition get_type (o : HashObject) : hash_object_type_t :=
  let t := Z.land (ho_flags o) HOF_TYPE_BITS in
  if t =? HOF_PAYLOAD then HOT_SESSION_OBJECT
  else if t =? HOF_FPC then HOT_TAG_OBJECT
  else if t =? Z.lor HOF_PAYLOAD HOF_FPC then HOT_PAGE_OBJECT
  else HOT_INVALID.

Definition get_domain (o : HashObject) : domain_t :=
  if negb (Z.land (ho_flags o) HOF_FPC =? 0) then DOMAIN_FPC else DOMAIN_SESSION.

Definition ho_nlength (o : HashObject) : Z := zlen (ho_name o).

Definition flags_are_set (o : HashObject) (flags : Z) : bool := Z.land (ho_flags o) flags =? flags.
Definition some_flags_are_set (o : HashObject) (flags : Z) : bool := negb (Z.land (ho_flags o) flags =? 0).
Definition flags_are_clear (o : HashObject) (flags : Z) : bool := Z.land (ho_flags o) flags =? 0.
Definition set_flags (o : HashObject) (flags : Z) : HashObject :=
  ho_with_flags o (Z.lor (ho_flags o) flags).
Definition clear_flags (o : HashObject) (flags : Z) : HashObject :=
  ho_with_flags o (Z.land (ho_flags o) (u8 (Z.lnot flags))).

(** Flags are bits. *)
Lemma flags_set_bit o k : 0 <= k -> flags_are_set o (2 ^ k) = Z.testbit (ho_flags o) k.
Proof.
  intros Hk. unfold flags_are_set. destruct (Z.testbit (ho_flags o) k) eqn:E.
  - apply Z.eqb_eq, Z.bits_inj'. intros i Hi. rewrite Z.land_spec, Z.pow2_bits_eqb by lia.
    destruct (k =? i) eqn:Ei; zbool; [subst; by rewrite E|apply andb_false_r].
  - apply Z.eqb_neq. intros Hz. apply (f_equal (fun z => Z.testbit z k)) in Hz.
    rewrite Z.land_spec, Z.pow2_bits_eqb, Z.eqb_refl, E in Hz by lia. done.
Qed.

Lemma flags_clear_bit o k : 0 <= k -> flags_are_clear o (2 ^ k) = negb (Z.testbit (ho_flags o) k).
Proof.
  intros Hk. unfold flags_are_clear. destruct (Z.testbit (ho_flags o) k) eqn:E; cbn.
  - apply Z.eqb_neq. intros Hz. apply (f_equal (fun z => Z.testbit z k)) in Hz.
    rewrite Z.land_spec, Z.pow2_bits_eqb, Z.eqb_refl, E, Z.bits_0 in Hz by lia. done.
  - apply Z.eqb_eq, Z.bits_inj'. intros i Hi. rewrite Z.land_spec, Z.pow2_bits_eqb, Z.bits_0 by lia.
    destruct (k =? i) eqn:Ei; zbool; [subst; by rewrite E|apply andb_false_r].
Qed.

Definition LO_LOCKED : Z := 0x8000000000000000.
Definition is_locked (o : HashObject) : bool := negb (Z.land (lo_state o) LO_LOCKED =? 0).

Definition READERS_COUNT_MASK : Z := 0x00FFFFFF.
Definition has_readers (o : HashObject) : bool :=
  negb (Z.land (pho_semaphore (ho_payload o)) READERS_COUNT_MASK =? 0).

(** [sizeof(HashObject)], the fixed part in front of the fields of derived classes. *)
Definition SIZEOF_HASH_OBJECT : Z := 56.

(** The constructor of [HashObject], with the fields [payload] of the derived class. *)
Definition ho_create (hash flags : Z) (name : bytes) (size : Z) (payload : PayloadFields) : option HashObject :=
  _ ← c3_assert ((SIZEOF_HASH_OBJECT + zlen name <? size) && negb (flags =? 0)
                 && negb (zlen name =? 0) && negb (hash =? INVALID_HASH_VALUE));
  Some (mkHashObject None None None None hash size name flags 0 payload).

(** ** Buffers of payload objects *)

Definition pho_with_buffer (p : PayloadFields) (b : payload_buffer) (size usize comp : Z) : PayloadFields :=
  mkPayloadFields b (pho_opt_prev p) (pho_opt_next p) size usize (pho_mod_time p) (pho_exp_time p)
    (pho_semaphore p) (pho_count p) (pho_opt_useragent p) comp.

Definition reset_user_agent (o : HashObject) : HashObject :=
  let p := ho_payload o in
  ho_with_payload o (mkPayloadFields (pho_buffer p) (pho_opt_prev p) (pho_opt_next p) (pho_size p)
    (pho_usize p) (pho_mod_time p) (pho_exp_time p) (pho_semaphore p) (pho_count p)
    UA_NUMBER_OF_ELEMENTS (pho_opt_comp p)).

(** [set_buffer]: takes over the buffer [bs] of [size] bytes. *)
Definition set_buffer (o : HashObject) (compressor size usize : Z) (bs : bytes) (m : Memory)
  : option (HashObject * Memory) :=
  let p := ho_payload o in
  _ ← c3_assert (size <=? usize);
  _ ← c3_assert (is_locked o && negb (has_readers o) && flags_are_clear o HOF_BEING_DELETED);
  '(o, m) ← match pho_buffer p with
    | NoBuffer => Some (o, m)
    | b =>
        _ ← c3_assert (pho_size p <=? pho_usize p);
        m ← (if 0 <? pho_size p then
               _ ← c3_assert (match b with Buffer _ => true | _ => false end);
               free m (pho_size p)
             else
               _ ← c3_assert (match b with ZeroLengthBuffer => true | _ => false end);
               Some m);
        Some (clear_flags o (Z.lor HOF_BEING_OPTIMIZED HOF_OPTIMIZED), m)
    end;
  Some (ho_with_payload o (pho_with_buffer (ho_payload o)
          (if 0 <? size then Buffer bs else ZeroLengthBuffer) size usize compressor), m).

(** [dispose_buffer]: the number of bytes freed. *)
Definition dispose_buffer (o : HashObject) (m : Memory) : option (Z * HashObject * Memory) :=
  let p := ho_payload o in
  match pho_buffer p with
  | NoBuffer => Some (0, o, m)
  | b =>
      _ ← c3_assert ((pho_size p <=? pho_usize p) && flags_are_set o HOF_BEING_DELETED && negb (has_readers o));
      if 0 <? pho_size p then
        _ ← c3_assert (match b with Buffer _ => true | _ => false end);
        m ← free m (pho_size p);
        Some (pho_size p, ho_with_payload o (pho_with_buffer p NoBuffer 0 0 (pho_opt_comp p)), m)
      else
        _ ← c3_assert (match b with ZeroLengthBuffer => true | _ => false end && (pho_usize p =? 0));
        Some (0, ho_with_payload o (pho_with_buffer p NoBuffer (pho_size p) (pho_usize p) (pho_opt_comp p)), m)
  end.

(** ** Disposal

    [HashObject::dispose]; what it reads of the derived classes is given as
    arguments: [extra], the bytes of a page object's external tag references
    ([PageObject::dispose_tag_refs]), and [marked], the number of objects marked
    with a tag. [m] is the memory object of the object's domain. *)

Definition can_dispose (o : HashObject) : bool :=
  negb (is_locked o) && flags_are_set o (Z.lor HOF_BEING_DELETED HOF_DELETED)
  && flags_are_clear o (Z.lor (Z.lor HOF_LINKED_BY_TM HOF_LINKED_BY_OPTIMIZER) HOF_BEING_OPTIMIZED)
  && bool_decide (ho_ht_prev o = None) && bool_decide (ho_ht_next o = None)
  && bool_decide (ho_prev o = None) && bool_decide (ho_next o = None) && negb (ho_length o =? 0).

Definition dispose (h : heap) (x : loc) (extra marked : Z) (m : Memory) : option (heap * Memory) :=
  o ← h !! x;
  _ ← c3_assert (can_dispose o);
  match get_type o with
  | HOT_SESSION_OBJECT =>
      '(_, o, m) ← dispose_buffer o m;
      m ← free m (ho_length o);
      Some (delete x h, m)
  | HOT_PAGE_OBJECT =>
      '(_, o, m) ← dispose_buffer o m;
      m ← (if negb (extra =? 0) then free m extra else Some m);
      m ← free m (ho_length o);
      Some (delete x h, m)
  | HOT_TAG_OBJECT =>
      _ ← c3_assert (marked =? 0);
      m ← free m (ho_length o);
      Some (delete x h, m)
  | HOT_INVALID => None
  end.
