(* ===== verification/HashTable.v ===== *)
(** * HashTable

    [Store] and [HashTable] of [ht_stores.h] and [ht_stores.cc]: the division of a
    hash code between tables and buckets, the fill factor in single-precision
    floating point, and the table itself with its chain of all objects and its
    bucket chains. The representation predicate [ht_rep] relates a table to the
    list of its objects, [in_search] to the order in which objects of one name are
    found; the operations refine a specification by these two lists, which is a finite map from (hash, name) to
    objects as long as no name is added twice. *)

From Stdlib Require Import SpecFloat.
From S2P Require Import Prelude Protocol Memory Utils DList HashObject.

(** ** Fill factors *)

(** [float]: 24 bits of precision, exponents below 128. *)
Definition float_of_uint (n : Z) : spec_float := binary_normalize 24 128 n 0 false.

(** [(c3_uint_t) f]: truncation, undefined when out of range. *)
Definition uint_of_float (f : spec_float) : option Z :=
  match f with
  | S754_zero _ => Some 0
  | S754_finite s m e =>
      let v := if 0 <=? e then Z.shiftl (Zpos m) e else Z.shiftr (Zpos m) (- e) in
      if v =? 0 then Some 0 else if s then None
      else if v <? 2 ^ 32 then Some v else None
  | _ => None
  end.

(** ** [Store] *)

Record Store := mkStore {
  s_fill_factor : spec_float;
  s_index_shift : Z;
}.

(** [0.5f], [1.5f] and [10.0f] *)
Definition MIN_FACTOR : spec_float := SFdiv 24 128 (float_of_uint 1) (float_of_uint 2).
Definition DEFAULT_FACTOR : spec_float := SFdiv 24 128 (float_of_uint 3) (float_of_uint 2).
Definition MAX_FACTOR : spec_float := float_of_uint 10.

Definition set_fill_factor (s : Store) (factor : spec_float) : option Store :=
  _ ← c3_assert (SFleb MIN_FACTOR factor && SFleb factor MAX_FACTOR);
  Some (mkStore factor (s_index_shift s)).

(** [while ((ntables & (1 << s_index_shift)) == 0) s_index_shift++]; an [int] has 31
    value bits to shift into. *)
Fixpoint index_shift_loop (fuel : nat) (ntables shift : Z) : option Z :=
  match fuel with
  | O => None
  | S fuel =>
      if Z.land ntables (Z.shiftl 1 shift) =? 0 then index_shift_loop fuel ntables (shift + 1)
      else Some shift
  end.

Definition set_index_shift (s : Store) (ntables : Z) : option Store :=
  _ ← c3_assert (is_power_of_2 ntables);
  shift ← index_shift_loop 31 ntables 0;
  Some (mkStore (s_fill_factor s) shift).

Definition get_base_index (s : Store) (hash : Z) : option Z :=
  _ ← c3_assert (negb (hash =? INVALID_HASH_VALUE));
  Some (u32 (Z.shiftr hash (s_index_shift s))).

(** ** [HashTable] *)

Definition MIN_NUM_BUCKETS : Z := 64.
Definition MAX_NUM_BUCKETS : Z := 2 ^ 31.
Definition SIZEOF_POINTER : Z := 8.

Record HashTable := mkHashTable {
  ht_buckets : option (list ptr);
  ht_first : ptr;
  ht_nbuckets : Z;
  ht_count : Z;
}.

Definition get_bucket_index (s : Store) (t : HashTable) (hash : Z) : option Z :=
  i ← get_base_index s hash; Some (Z.land i (u32 (ht_nbuckets t - 1))).

(** [ht_buckets[i]] and [ht_buckets[i] = p] *)
Definition get_bucket (t : HashTable) (i : Z) : option ptr :=
  bs ← ht_buckets t; if 0 <=? i then bs !! Z.to_nat i else None.
Definition set_bucket (t : HashTable) (i : Z) (p : ptr) : option HashTable :=
  bs ← ht_buckets t;
  _ ← get_bucket t i;
  Some (mkHashTable (Some (<[Z.to_nat i := p]> bs)) (ht_first t) (ht_nbuckets t) (ht_count t)).
Definition ht_with_first (t : HashTable) (p : ptr) : HashTable :=
  mkHashTable (ht_buckets t) p (ht_nbuckets t) (ht_count t).
Definition ht_with_count (t : HashTable) (n : Z) : HashTable :=
  mkHashTable (ht_buckets t) (ht_first t) (ht_nbuckets t) n.

Definition allocate_buckets (t : HashTable) (m : Memory) : option (HashTable * Memory) :=
  _ ← c3_assert (match ht_buckets t with None => true | Some _ => false end);
  m ← calloc m (ht_nbuckets t) SIZEOF_POINTER;
  Some (mkHashTable (Some (replicate (Z.to_nat (ht_nbuckets t)) None)) (ht_first t)
          (ht_nbuckets t) (ht_count t), m).

Definition free_buckets (t : HashTable) (m : Memory) : option (HashTable * Memory) :=
  _ ← ht_buckets t;
  m ← free m (u64 (ht_nbuckets t * SIZEOF_POINTER));
  Some (mkHashTable None (ht_first t) (ht_nbuckets t) (ht_count t), m).

(** The constructor, on memory of zero bytes. *)
Definition ht_create (s : Store) (init_capacity : Z) (m : Memory) : option (HashTable * Memory) :=
  nbuckets ← uint_of_float (SFdiv 24 128 (float_of_uint init_capacity) (s_fill_factor s));
  let nbuckets := if nbuckets <? MIN_NUM_BUCKETS then MIN_NUM_BUCKETS else nbuckets in
  let nbuckets := get_next_power_of_2 nbuckets in
  let nbuckets := if nbuckets =? 0 then MAX_NUM_BUCKETS else nbuckets in
  allocate_buckets (mkHashTable None None nbuckets 0) m.

(** Linking an object into the chain of its bucket. *)
Definition link_bucket (s : Store) (t : HashTable) (h : heap) (x : loc) : option (HashTable * heap) :=
  o ← h !! x;
  index ← get_bucket_index s t (ho_hash o);
  first ← get_bucket t index;
  h ← link_front bucket_chain h first x;
  t ← set_bucket t index (Some x);
  Some (t, h).

(** The loop of [resize_table] over the chain of all objects. *)
Fixpoint rebuild (fuel : nat) (s : Store) (t : HashTable) (h : heap) (p : ptr) : option (HashTable * heap) :=
  match p with
  | None => Some (t, h)
  | Some x =>
      match fuel with
      | O => None
      | S fuel =>
          '(t, h) ← link_bucket s t h x;
          o ← h !! x;
          rebuild fuel s t h (ho_next o)
      end
  end.

(** Loops over chains run at most once for each object of the heap. *)
Definition chain_fuel (h : heap) : nat := size h.

Definition resize_table (s : Store) (t : HashTable) (h : heap) (m : Memory)
  : option (bool * HashTable * heap * Memory) :=
  if ht_nbuckets t <? MAX_NUM_BUCKETS then
    '(t, m) ← free_buckets t m;
    let t := mkHashTable (ht_buckets t) (ht_first t) (u32 (Z.shiftl (ht_nbuckets t) 1)) (ht_count t) in
    '(t, m) ← allocate_buckets t m;
    '(t, h) ← rebuild (chain_fuel h) s t h (ht_first t);
    Some (true, t, h, m)
  else Some (false, t, h, m).

(** [ho->ho_hash == hash && ho->ho_nlength == len && std::memcmp(...) == 0] *)
Definition is_match (o : HashObject) (hash : Z) (name : bytes) : bool :=
  (ho_hash o =? hash) && (ho_nlength o =? zlen name) && bool_decide (ho_name o = name).

Fixpoint find_in_chain (fuel : nat) (h : heap) (p : ptr) (hash : Z) (name : bytes) : option ptr :=
  match p with
  | None => Some None
  | Some x =>
      match fuel with
      | O => None
      | S fuel =>
          o ← h !! x;
          if is_match o hash name then Some (Some x)
          else find_in_chain fuel h (ho_ht_next o) hash name
      end
  end.

Definition ht_find (s : Store) (t : HashTable) (h : heap) (hash : Z) (name : bytes) : option ptr :=
  _ ← c3_assert (negb (hash =? INVALID_HASH_VALUE) && negb (zlen name =? 0));
  index ← get_bucket_index s t hash;
  p ← get_bucket t index;
  find_in_chain (chain_fuel h) h p hash name.

Definition ht_add (s : Store) (t : HashTable) (h : heap) (m : Memory) (x : loc)
  : option (bool * HashTable * heap * Memory) :=
  limit ← uint_of_float (SFmul 24 128 (float_of_uint (ht_nbuckets t)) (s_fill_factor s));
  '(resized, t, h, m) ← (if limit <=? ht_count t then resize_table s t h m else Some (false, t, h, m));
  h ← link_front table_chain h (ht_first t) x;
  let t := ht_with_first t (Some x) in
  '(t, h) ← link_bucket s t h x;
  Some (resized, ht_with_count t (u32 (ht_count t + 1)), h, m).

(** Unlinking an object from the chain of its bucket. The code looks up the bucket
    only when the object heads its chain; otherwise [unlink] returns the head it
    was given, and storing it back changes nothing. *)
Definition unlink_bucket (s : Store) (t : HashTable) (h : heap) (x : loc) : option (HashTable * heap) :=
  o ← h !! x;
  index ← get_bucket_index s t (ho_hash o);
  bucket ← get_bucket t index;
  '(h, bucket) ← unlink bucket_chain h bucket x;
  t ← set_bucket t index bucket;
  Some (t, h).

Definition ht_remove (s : Store) (t : HashTable) (h : heap) (x : loc) : option (HashTable * heap) :=
  '(h, first) ← unlink table_chain h (ht_first t) x;
  '(t, h) ← unlink_bucket s (ht_with_first t first) h x;
  _ ← c3_assert (negb (ht_count t =? 0));
  Some (ht_with_count t (u32 (ht_count t - 1)), h).

(** [enumerate]: the callback gets each object and its context, and says whether to
    go on. *)
Fixpoint enumerate_chain {C : Type} (fuel : nat) (h : heap) (callback : C -> loc -> option (bool * C)) (ctx : C)
    (p : ptr) : option (bool * C) :=
  match p with
  | None => Some (true, ctx)
  | Some x =>
      match fuel with
      | O => None
      | S fuel =>
          '(go_on, ctx) ← callback ctx x;
          if (go_on : bool) then o ← h !! x; enumerate_chain fuel h callback ctx (ho_next o)
          else Some (false, ctx)
      end
  end.

Definition ht_enumerate {C : Type} (t : HashTable) (h : heap) (callback : C -> loc -> option (bool * C)) (ctx : C)
  : option (bool * C) :=
  enumerate_chain (chain_fuel h) h callback ctx (ht_first t).

(** ** Representation *)

(** Everything in an object but its links in the table. *)
Definition core (o : HashObject) := (ho_hash o, ho_length o, ho_name o, ho_flags o, lo_state o, ho_payload o).

#[export] Instance bucket_unlinked_core : Unlinked bucket_chain core.
Proof. by split. Qed.
#[export] Instance table_unlinked_core : Unlinked table_chain core.
Proof. by split. Qed.
#[export] Instance bucket_unlinked_prev : Unlinked bucket_chain (l_prev table_chain).
Proof. by split. Qed.
#[export] Instance bucket_unlinked_next : Unlinked bucket_chain (l_next table_chain).
Proof. by split. Qed.
#[export] Instance table_unlinked_prev : Unlinked table_chain (l_prev bucket_chain).
Proof. by split. Qed.
#[export] Instance table_unlinked_next : Unlinked table_chain (l_next bucket_chain).
Proof. by split. Qed.

(** [same_core h h']: only links differ. *)
Definition same_core (h h' : heap) : Prop := forall x, core <$> h' !! x = core <$> h !! x.

Lemma same_core_trans h1 h2 h3 : same_core h1 h2 -> same_core h2 h3 -> same_core h1 h3.
Proof. intros H1 H2 x. by rewrite H2. Qed.

Lemma same_core_lookup h h' x o :
  same_core h h' -> h !! x = Some o -> exists o', h' !! x = Some o' /\ core o' = core o.
Proof.
  intros Hc Hx. specialize (Hc x). rewrite Hx in Hc. destruct (h' !! x) as [o'|]; [|done].
  change (Some (core o') = Some (core o)) in Hc. exists o'. split; [done|]. congruence.
Qed.

Lemma same_core_size h h' : same_core h h' -> size h' = size h.
Proof.
  intros Hc. assert (dom h' = dom h) as Hd.
  { apply set_eq. intros x. rewrite !elem_of_dom. specialize (Hc x).
    destruct (h !! x), (h' !! x); cbn in Hc; try done; split; intros _; by eexists. }
  by rewrite <- !size_dom, Hd.
Qed.

(** The bucket of a hash code among [n] buckets. *)
Definition bucket_of (s : Store) (n hash : Z) : nat := Z.to_nat (u32 (Z.shiftr hash (s_index_shift s)) mod n).

(** Object [x] belongs to bucket [i]. *)
Definition in_bucket (s : Store) (h : heap) (n : Z) (x : loc) (i : nat) : Prop :=
  exists o, h !! x = Some o /\ bucket_of s n (ho_hash o) = i.

(** The chains of the buckets partition the objects [l] by their bucket. *)
Definition chains_rep (s : Store) (h : heap) (n : Z) (bs : list ptr) (l : list loc) (chain : nat -> list loc) : Prop :=
  forall i, (i < length bs)%nat ->
    (forall first, bs !! i = Some first -> dlist bucket_chain h first (chain i))
    /\ forall x, x ∈ chain i <-> x ∈ l /\ in_bucket s h n x i.
Definition buckets_rep (s : Store) (h : heap) (n : Z) (bs : list ptr) (l : list loc) : Prop :=
  zlen bs = n /\ exists chain, chains_rep s h n bs l chain.

(** The chains after bucket [i] got the chain [k]. *)
Definition with_bucket (chain : nat -> list loc) (i : nat) (k : list loc) : nat -> list loc :=
  fun j => if decide (j = i) then k else chain j.

#[export] Instance in_bucket_dec s h n x i : Decision (in_bucket s h n x i).
Proof.
  refine (match h !! x as r return h !! x = r -> _ with
    | Some o => fun E => cast_if (decide (bucket_of s n (ho_hash o) = i))
    | None => fun E => right _
    end eq_refl); unfold in_bucket; [by exists o|intros (? & ? & ?); simplify_eq; tauto|by intros (? & ? & ?); simplify_eq].
Defined.

(** The chains of a table in which objects are found in the order of the list [S]. *)
Definition in_search (s : Store) (h : heap) (n : Z) (S : list loc) : nat -> list loc :=
  fun i => filter (fun x => in_bucket s h n x i) S.

(** Objects in tables have valid hash codes. *)
Definition hashed (h : heap) (l : list loc) : Prop :=
  forall x, x ∈ l -> exists o, h !! x = Some o /\ ho_hash o <> INVALID_HASH_VALUE.

Record ht_rep (s : Store) (t : HashTable) (h : heap) (l : list loc) : Prop := mkHtRep {
  rep_nbuckets : pow2 (ht_nbuckets t);
  rep_table : dlist table_chain h (ht_first t) l;
  rep_buckets : exists bs, ht_buckets t = Some bs /\ buckets_rep s h (ht_nbuckets t) bs l;
  rep_hashed : hashed h l;
  rep_count : ht_count t = zlen l;
}.

Lemma get_bucket_index_ok s t hash :
  pow2 (ht_nbuckets t) -> hash <> INVALID_HASH_VALUE ->
  get_bucket_index s t hash = Some (Z.of_nat (bucket_of s (ht_nbuckets t) hash)).
Proof.
  intros Hp Hh. unfold get_bucket_index, get_base_index. pose proof (pow2_pos _ Hp).
  destruct (hash =? INVALID_HASH_VALUE) eqn:E; zbool; [done|]. cbn.
  rewrite (u32_small (ht_nbuckets t - 1)) by (unfold is_u32; lia). rewrite pow2_mask by done.
  unfold bucket_of. pose proof (Z.mod_pos_bound (u32 (Z.shiftr hash (s_index_shift s))) (ht_nbuckets t)).
  by rewrite Z2Nat.id by lia.
Qed.

Lemma bucket_of_lt s n hash : pow2 n -> (bucket_of s n hash < Z.to_nat n)%nat.
Proof.
  intros Hp. pose proof (pow2_pos _ Hp). unfold bucket_of.
  pose proof (Z.mod_pos_bound (u32 (Z.shiftr hash (s_index_shift s))) n). lia.
Qed.

Lemma in_bucket_core s h h' n x i : same_core h h' -> in_bucket s h n x i <-> in_bucket s h' n x i.
Proof.
  intros Hc. specialize (Hc x). unfold in_bucket.
  destruct (h !! x) as [o|], (h' !! x) as [o'|]; cbn in Hc; try done.
  injection Hc as Hh. split; intros (? & ? & <-); simplify_eq; eexists; (split; [done|]); congruence.
Qed.

Lemma hashed_core h h' l : same_core h h' -> hashed h l -> hashed h' l.
Proof.
  intros Hc Hh x Hx. destruct (Hh x Hx) as (o & Ho & Hne).
  destruct (same_core_lookup h h' x o Hc Ho) as (o' & Ho' & Heq). exists o'. split; [done|].
  unfold core in Heq. congruence.
Qed.

Lemma relinked_core (c : links HashObject) (h h' : heap) l : Unlinked c core -> relinked c h h' l -> same_core h h'.
Proof. intros Hu (_ & _ & F) x. by apply F. Qed.

Lemma relinked_other_dlist (c c' : links HashObject) (h h' : heap) l first k :
  Unlinked c (l_prev c') -> Unlinked c (l_next c') ->
  relinked c h h' l -> dlist c' h first k -> dlist c' h' first k.
Proof.
  intros Hp Hn (_ & _ & F). apply dlist_frame. intros x _. unfold prev_of, next_of. split; by apply F.
Qed.

(** ** Search order *)

Lemma in_search_core s h h' n S i : same_core h h' -> in_search s h' n S i = in_search s h n S i.
Proof. intros Hc. apply list_filter_iff. intros x. symmetry. by apply in_bucket_core. Qed.

Lemma in_search_cons s h n S x i j : in_bucket s h n x i ->
  with_bucket (in_search s h n S) i (x :: in_search s h n S i) j = in_search s h n (x :: S) j.
Proof.
  intros Hx. unfold with_bucket, in_search. destruct (decide (j = i)) as [->|Hne].
  - by rewrite filter_cons_True.
  - rewrite filter_cons_False; [done|]. intros (o & Ho & Hj). destruct Hx as (o' & Ho' & Hi). simplify_eq.
Qed.

Lemma chains_rep_ext s h n bs l chain chain' : (forall i, chain i = chain' i) -> chains_rep s h n bs l chain -> chains_rep s h n bs l chain'.
Proof. intros He Hch i Hi. destruct (Hch i Hi) as [Hd Hx]. rewrite <- He. by split. Qed.

Lemma chains_rep_equiv s h n bs l l' chain : (forall x, x ∈ l <-> x ∈ l') -> chains_rep s h n bs l chain -> chains_rep s h n bs l' chain.
Proof. intros Hl Hch i Hi. destruct (Hch i Hi) as [Hd Hx]. split; [done|]. intros x. by rewrite Hx, Hl. Qed.

(** ** Buckets *)

(** A new head in one bucket, with the chain of that bucket extended or cut. *)
Lemma buckets_update s h h' n bs l l' i first chain k k' :
  pow2 n -> chains_rep s h n bs l chain -> (i < length bs)%nat -> chain i = k ->
  relinked bucket_chain h h' (k ++ k') -> dlist bucket_chain h' first k' ->
  (forall x, x ∈ k' -> in_bucket s h n x i) ->
  (forall x, x ∈ k' <-> x ∈ l' /\ in_bucket s h n x i) ->
  (forall x, ~ in_bucket s h n x i -> x ∈ l' <-> x ∈ l) ->
  chains_rep s h' n (<[i := first]> bs) l' (with_bucket chain i k').
Proof.
  intros Hp Hch Hi Heq Hr Hd Hin Hk' Hl'. destruct (Hch i Hi) as [_ Hk]. rewrite Heq in Hk. clear Heq.
  assert (same_core h h') as Hc by (eapply (relinked_core bucket_chain); [apply _|done]).
  intros j Hj. rewrite length_insert in Hj. unfold with_bucket.
  destruct (decide (j = i)) as [->|Hne].
  - split.
    + intros f Hf. rewrite list_lookup_insert_eq in Hf by done. by simplify_eq.
    + intros x. rewrite <- (in_bucket_core s h h') by done. apply Hk'.
  - destruct (Hch j Hj) as [Hdj Hxj]. assert (forall x, x ∈ chain j -> ~ in_bucket s h n x i) as Hni.
    { intros x Hx (o & Ho & He). apply Hxj in Hx as (_ & o' & Ho' & He'). simplify_eq. }
    split.
    + intros f Hf. rewrite list_lookup_insert_ne in Hf by done. eapply relinked_disjoint_dlist; [|done|by apply Hdj].
      intros x Hx. apply not_elem_of_app. split; intros Hx'; apply (Hni x Hx); [by apply Hk|by apply Hin].
    + intros x. rewrite Hxj. rewrite <- (in_bucket_core s h h') by done.
      assert (in_bucket s h n x j -> ~ in_bucket s h n x i) as Hji.
      { intros (o & Ho & He) (o' & Ho' & He'). simplify_eq. }
      split; intros [Hl Hb]; (split; [|done]); by apply (Hl' x (Hji Hb)).
Qed.

Lemma link_bucket_ok s t h bs l x o chain :
  pow2 (ht_nbuckets t) -> ht_buckets t = Some bs -> zlen bs = ht_nbuckets t -> chains_rep s h (ht_nbuckets t) bs l chain ->
  h !! x = Some o -> ho_hash o <> INVALID_HASH_VALUE -> x ∉ l ->
  exists bs' h', link_bucket s t h x = Some (mkHashTable (Some bs') (ht_first t) (ht_nbuckets t) (ht_count t), h')
    /\ zlen bs' = ht_nbuckets t
    /\ (let i := bucket_of s (ht_nbuckets t) (ho_hash o) in
        chains_rep s h' (ht_nbuckets t) bs' (x :: l) (with_bucket chain i (x :: chain i)))
    /\ relinked bucket_chain h h' (x :: l).
Proof.
  intros Hp Hbs Hz Hch Hx Hh Hxl.
  unfold link_bucket. rewrite Hx. cbn [mbind option_bind]. rewrite get_bucket_index_ok by done. cbn [mbind option_bind].
  set (i := bucket_of s (ht_nbuckets t) (ho_hash o)).
  assert (i < length bs)%nat as Hi.
  { pose proof (bucket_of_lt s (ht_nbuckets t) (ho_hash o) Hp). unfold zlen in Hz. fold i in H. lia. }
  destruct (lookup_lt_is_Some_2 bs i Hi) as [first Hf]. destruct (Hch i Hi) as [Hd Hxi].
  assert (get_bucket t (Z.of_nat i) = Some first) as Hg.
  { unfold get_bucket. rewrite Hbs. cbn. destruct (0 <=? Z.of_nat i) eqn:E; zbool; [|lia]. by rewrite Nat2Z.id. }
  rewrite Hg. cbn [mbind option_bind].
  destruct (link_front_ok bucket_chain h first (chain i) x) as (h' & -> & Hd' & Hr);
    [by apply Hd|intros Hin; apply Hxi in Hin as [? _]; done|by eexists|].
  cbn [mbind option_bind]. unfold set_bucket. rewrite Hbs. cbn [mbind option_bind]. rewrite Hg. cbn [mbind option_bind].
  rewrite Nat2Z.id. eexists _, h'. split; [done|]. split; [unfold zlen in *; by rewrite length_insert|]. cbn zeta.
  split; [|apply (relinked_mono bucket_chain _ _ _ _ Hr); intros y [->|Hy]%elem_of_cons; [left|right; by apply Hxi]].
  assert (in_bucket s h (ht_nbuckets t) x i) as Hxb by (by exists o).
  eapply (buckets_update s h h' _ bs l (x :: l) i (Some x) chain (chain i) (x :: chain i)); try done.
  - apply (relinked_mono bucket_chain _ _ _ _ Hr). set_solver.
  - intros y [->|Hy]%elem_of_cons; [done|]. by apply Hxi.
  - intros y. rewrite !elem_of_cons, Hxi. split.
    + intros [->|[? ?]]; split; auto.
    + intros [[->|?] ?]; auto.
  - intros y Hy. rewrite elem_of_cons. split; [|auto]. intros [->|]; [done|auto].
Qed.

Lemma link_bucket_search s t h0 h bs l x o S :
  pow2 (ht_nbuckets t) -> ht_buckets t = Some bs -> zlen bs = ht_nbuckets t ->
  same_core h0 h -> chains_rep s h (ht_nbuckets t) bs l (in_search s h0 (ht_nbuckets t) S) ->
  h !! x = Some o -> ho_hash o <> INVALID_HASH_VALUE -> x ∉ l ->
  exists bs' h', link_bucket s t h x = Some (mkHashTable (Some bs') (ht_first t) (ht_nbuckets t) (ht_count t), h')
    /\ zlen bs' = ht_nbuckets t
    /\ chains_rep s h' (ht_nbuckets t) bs' (x :: l) (in_search s h0 (ht_nbuckets t) (x :: S))
    /\ relinked bucket_chain h h' (x :: l).
Proof.
  intros Hp Hbs Hz Hc Hch Hx Hh Hxl. destruct (link_bucket_ok s t h bs l x o _ Hp Hbs Hz Hch Hx Hh Hxl) as (bs' & h' & He & Hz' & Hch' & Hr).
  exists bs', h'. split_and!; [done|done| |done]. eapply chains_rep_ext; [|exact Hch']. intros j. apply in_search_cons.
  apply (in_bucket_core s h0 h); [done|]. by exists o.
Qed.

Lemma chains_rep_frame s h h' n bs l chain k :
  relinked table_chain h h' k -> chains_rep s h n bs l chain -> chains_rep s h' n bs l chain.
Proof.
  intros Hr Hch i Hi. destruct (Hch i Hi) as [Hd Hx]. split.
  - intros f Hf. eapply (relinked_other_dlist table_chain bucket_chain); [apply _..|done|by apply Hd].
  - intros x. rewrite <- (in_bucket_core s h h'); [done|]. by eapply (relinked_core table_chain); [apply _|].
Qed.

Lemma chains_rep_empty s h n k : chains_rep s h n (replicate k None) [] (fun _ => []).
Proof.
  intros i Hi. split.
  - intros f Hf. apply lookup_replicate in Hf as [-> _]. split_and!; [done|done|constructor].
  - intros x. split; [by intros ?%elem_of_nil|]. by intros [?%elem_of_nil _].
Qed.

Lemma buckets_rep_empty s h n : 0 <= n -> buckets_rep s h n (replicate (Z.to_nat n) None) [].
Proof.
  intros Hn. split; [unfold zlen; rewrite length_replicate; lia|]. exists (fun _ => []). apply chains_rep_empty.
Qed.

(** The loop of [resize_table] puts every object of the chain into its bucket, before those that it has put there already. *)
Lemma rebuild_ok s h0 l : forall fuel t h p bs S,
  pow2 (ht_nbuckets t) -> ht_buckets t = Some bs -> zlen bs = ht_nbuckets t -> same_core h0 h ->
  chains_rep s h (ht_nbuckets t) bs S (in_search s h0 (ht_nbuckets t) S) ->
  dseg table_chain h p l None -> hashed h l -> NoDup l -> (forall x, x ∈ l -> x ∉ S) ->
  (length l <= fuel)%nat ->
  exists bs' h', rebuild fuel s t h (first_or l None)
      = Some (mkHashTable (Some bs') (ht_first t) (ht_nbuckets t) (ht_count t), h')
    /\ zlen bs' = ht_nbuckets t
    /\ chains_rep s h' (ht_nbuckets t) bs' (rev l ++ S) (in_search s h0 (ht_nbuckets t) (rev l ++ S))
    /\ relinked bucket_chain h h' (l ++ S)
    /\ same_core h h'
    /\ (forall x, prev_of table_chain h' x = prev_of table_chain h x
          /\ next_of table_chain h' x = next_of table_chain h x).
Proof.
  induction l as [|x l IH]; intros fuel t h p bs S Hp Hbs Hz Hc0 Hch Hd Hh Hnd Hdis Hf.
  { destruct t; cbn in *; subst. exists bs, h. destruct fuel; done. }
  cbn in Hf. destruct fuel as [|fuel]; [lia|]. destruct Hd as (Hpx & Hnx & Hd).
  apply NoDup_cons in Hnd as [Hxl Hnd]. destruct (Hh x) as (o & Hx & Hne); [left|].
  destruct (link_bucket_search s t h0 h bs S x o S) as (bs1 & h1 & E1 & Hz1 & Hch1 & Hr1); try done.
  { apply Hdis. left. }
  pose proof Hr1 as (_ & _ & F1).
  assert (forall y, prev_of table_chain h1 y = prev_of table_chain h y
    /\ next_of table_chain h1 y = next_of table_chain h y) as Hl1 by (intros y; split; apply F1; apply _).
  assert (same_core h h1) as Hc1 by (by eapply (relinked_core bucket_chain); [apply _|]).
  cbn [rebuild first_or]. rewrite E1. cbn [mbind option_bind].
  destruct (Hl1 x) as [_ Hnx1]. rewrite Hnx in Hnx1. unfold next_of in Hnx1.
  destruct (h1 !! x) as [o1|]; [|done]. cbn in Hnx1. injection Hnx1 as Hnx1. cbn [mbind option_bind]. rewrite Hnx1.
  destruct (IH fuel (mkHashTable (Some bs1) (ht_first t) (ht_nbuckets t) (ht_count t)) h1 (Some x) bs1 (x :: S))
    as (bs2 & h2 & E2 & Hz2 & Hch2 & Hr2 & Hc2 & Hl2); try done.
  - by eapply same_core_trans.
  - eapply dseg_frame; [|done]. intros y _. apply Hl1.
  - eapply hashed_core; [done|]. intros y Hy. apply Hh. by right.
  - intros y Hy. apply not_elem_of_cons. split; [by intros ->|]. apply Hdis. by right.
  - lia.
  - exists bs2, h2. cbn [rev]. rewrite <- app_assoc. split_and!; [exact E2|done|exact Hch2| |by eapply same_core_trans|].
    + apply (relinked_trans bucket_chain _ h1).
      * apply (relinked_mono bucket_chain _ _ _ _ Hr1). intros y. rewrite elem_of_cons, elem_of_app, elem_of_cons. tauto.
      * apply (relinked_mono bucket_chain _ _ _ _ Hr2). intros y. rewrite !elem_of_app, !elem_of_cons. tauto.
    + intros y. destruct (Hl2 y) as [-> ->]. apply Hl1.
Qed.

(** A list without repetitions is no longer than the heap it lives in. *)
Lemma length_le_size (h : heap) l :
  NoDup l -> (forall x, x ∈ l -> is_Some (h !! x)) -> (length l <= size h)%nat.
Proof.
  intros Hnd Hl. rewrite <- size_dom. rewrite <- (size_list_to_set l (C := gset loc)) by done.
  apply subseteq_size. intros x Hx. apply elem_of_list_to_set in Hx. apply elem_of_dom. by apply Hl.
Qed.

(** The chains of a table. *)
Definition ht_chains (s : Store) (t : HashTable) (h : heap) (l : list loc) (chain : nat -> list loc) : Prop :=
  exists bs, ht_buckets t = Some bs /\ zlen bs = ht_nbuckets t /\ chains_rep s h (ht_nbuckets t) bs l chain.

Lemma ht_chains_ext s t h l chain chain' : (forall i, chain i = chain' i) -> ht_chains s t h l chain -> ht_chains s t h l chain'.
Proof. intros He (bs & Hbs & Hz & Hch). exists bs. split_and!; [done|done|by eapply chains_rep_ext]. Qed.

(** Bytes in use for other purposes than the buckets. *)
Definition ht_others (t : HashTable) (m : Memory) (u : Z) : Prop :=
  0 <= u < 2 ^ 62 /\ m_used_size m = u + ht_nbuckets t * SIZEOF_POINTER.

Lemma calloc_buckets m u n t :
  0 <= u < 2 ^ 62 -> m_used_size m = u -> pow2 n -> ht_nbuckets t = n -> ht_buckets t = None ->
  exists m', allocate_buckets t m
    = Some (mkHashTable (Some (replicate (Z.to_nat n) None)) (ht_first t) n (ht_count t), m')
    /\ m_used_size m' = u + n * SIZEOF_POINTER.
Proof.
  intros Hu Hm Hn Ht Hb. pose proof (pow2_pos _ Hn). unfold allocate_buckets. rewrite Hb, Ht.
  cbn [c3_assert mbind option_bind]. unfold calloc, SIZEOF_POINTER.
  destruct (n =? 0) eqn:E; zbool; [lia|]. cbn. eexists; split; [done|]. cbn.
  rewrite Hm, (u64_small (n * 8)) by (unfold is_u64; lia). apply u64_small. unfold is_u64. lia.
Qed.

Lemma resize_table_ok s t h m u l :
  ht_rep s t h l -> ht_others t m u ->
  exists r t' h' m', resize_table s t h m = Some (r, t', h', m') /\ ht_rep s t' h' l
    /\ same_core h h' /\ ht_others t' m' u /\ ht_nbuckets t <= ht_nbuckets t'
    /\ relinked bucket_chain h h' l /\ r = (ht_nbuckets t <? MAX_NUM_BUCKETS)
    /\ (if r then ht_nbuckets t' = ht_nbuckets t * 2 /\ ht_chains s t' h' l (in_search s h (ht_nbuckets t') (rev l)) else t' = t /\ h' = h).
Proof.
  intros Hrep (Hu & Hm). pose proof (rep_nbuckets _ _ _ _ Hrep) as Hp. pose proof (pow2_pos _ Hp) as Hpos.
  unfold resize_table. destruct (ht_nbuckets t <? MAX_NUM_BUCKETS) eqn:E; zbool; cycle 1.
  { exists false, t, h, m. split_and!; done. }
  unfold MAX_NUM_BUCKETS in E. destruct (rep_buckets _ _ _ _ Hrep) as (bs & Hbs & Hb).
  unfold free_buckets. rewrite Hbs. cbn [mbind option_bind]. unfold SIZEOF_POINTER in *.
  rewrite (u64_small (_ * 8)) by (unfold is_u64; lia). rewrite free_ok by lia. cbn [mbind option_bind ht_buckets ht_first ht_nbuckets ht_count].
  rewrite Z.shiftl_mul_pow2, Z.pow_1_r by lia. rewrite (u32_small (_ * 2)) by (unfold is_u32; lia).
  pose proof (pow2_double _ Hp E) as Hp2. rewrite Z.mul_comm in Hp2.
  destruct (calloc_buckets (fetch_sub m (ht_nbuckets t * 8)) u (ht_nbuckets t * 2)
    (mkHashTable None (ht_first t) (ht_nbuckets t * 2) (ht_count t))) as (m' & -> & Hm'); try done.
  { rewrite fetch_sub_used; lia. }
  cbn [mbind option_bind ht_first ht_count]. destruct (rep_table _ _ _ _ Hrep) as (Hfirst & Hd & Hnd).
  rewrite Hfirst.
  destruct (rebuild_ok s h l (chain_fuel h) (mkHashTable (Some (replicate (Z.to_nat (ht_nbuckets t * 2)) None))
    (first_or l None) (ht_nbuckets t * 2) (ht_count t)) h None (replicate (Z.to_nat (ht_nbuckets t * 2)) None) []) as (bs' & h' & -> & Hz' & Hch' & Hrk & Hc & Hl); try done.
  { unfold zlen. rewrite length_replicate. cbn. lia. }
  { apply chains_rep_empty. }
  { apply (rep_hashed _ _ _ _ Hrep). }
  { by intros x _ ?%elem_of_nil. }
  { apply length_le_size; [done|]. intros x Hx. by eapply dseg_elem. }
  cbn [mbind option_bind]. eexists _, _, _, _; split; [done|]. cbn in *. rewrite app_nil_r in Hrk. rewrite app_nil_r in Hch'.
  apply (chains_rep_equiv _ _ _ _ _ l) in Hch'; [|intros x; by rewrite list_elem_of_In, <- in_rev, list_elem_of_In].
  split; [|split; [done|split; [done|split; [lia|split; [exact Hrk|split; [done|split; [done|by exists bs']]]]]]].
  - constructor; cbn; try done.
    + split_and!; [done| |done]. eapply dseg_frame; [|done]. intros x _. apply Hl.
    + exists bs'. split; [done|]. split; [done|]. by eexists.
    + eapply hashed_core; [done|]. apply (rep_hashed _ _ _ _ Hrep).
    + apply (rep_count _ _ _ _ Hrep).
Qed.

(** ** Operations *)

Lemma is_match_ok o hash name : is_match o hash name = true <-> ho_hash o = hash /\ ho_name o = name.
Proof.
  unfold is_match, ho_nlength. rewrite !andb_true_iff, bool_decide_eq_true, !Z.eqb_eq. split; [tauto|].
  by intros [-> ->].
Qed.

Definition matches (h : heap) (hash : Z) (name : bytes) (x : loc) : Prop :=
  exists o, h !! x = Some o /\ ho_hash o = hash /\ ho_name o = name.

#[export] Instance matches_dec h hash name x : Decision (matches h hash name x).
Proof.
  refine (match h !! x as r return h !! x = r -> _ with
    | Some o => fun E => cast_if (decide (ho_hash o = hash /\ ho_name o = name))
    | None => fun E => right _
    end eq_refl); unfold matches; [by exists o|intros (? & ? & ?); simplify_eq; tauto|by intros (? & ? & ?); simplify_eq].
Defined.

(** The first object of a chain that has a name. *)
Fixpoint first_match (h : heap) (hash : Z) (name : bytes) (c : list loc) : ptr :=
  match c with
  | [] => None
  | x :: c => if decide (matches h hash name x) then Some x else first_match h hash name c
  end.

Lemma first_match_ok h hash name c :
  match first_match h hash name c with
  | Some x => x ∈ c /\ matches h hash name x
  | None => forall x, x ∈ c -> ~ matches h hash name x
  end.
Proof.
  induction c as [|x c IH]; cbn; [by intros x ?%elem_of_nil|].
  destruct (decide _) as [Hm|Hm]; [by split; [left|]|]. destruct (first_match h hash name c) as [y|].
  - split; [by right; apply IH|apply IH].
  - intros y [->|Hy]%elem_of_cons; [done|by apply IH].
Qed.

Lemma find_in_chain_ok h hash name c : forall fuel p,
  dseg bucket_chain h p c None -> (length c <= fuel)%nat ->
  find_in_chain fuel h (first_or c None) hash name = Some (first_match h hash name c).
Proof.
  induction c as [|x c IH]; intros fuel p Hd Hf; [by destruct fuel|].
  cbn in Hf. destruct fuel as [|fuel]; [lia|]. destruct Hd as (_ & Hn & Hd). unfold next_of in Hn.
  cbn [find_in_chain first_or first_match]. destruct (h !! x) as [o|] eqn:Ho; [|done]. cbn in Hn. injection Hn as Hn.
  cbn [mbind option_bind]. rewrite Hn. pose proof (is_match_ok o hash name) as Hok. destruct (is_match o hash name) eqn:Em.
  - rewrite decide_True; [done|]. exists o. split; [done|]. by apply Hok.
  - rewrite decide_False; [by apply (IH fuel (Some x)); [|lia]|]. intros (o' & Ho' & Hk). simplify_eq. by apply Hok in Hk.
Qed.

Lemma ht_rep_chains s t h l : ht_rep s t h l -> exists chain, ht_chains s t h l chain.
Proof. intros Hrep. destruct (rep_buckets _ _ _ _ Hrep) as (bs & Hbs & Hz & chain & Hch). exists chain, bs. done. Qed.

Lemma ht_find_chain s t h l hash name chain :
  ht_rep s t h l -> ht_chains s t h l chain -> hash <> INVALID_HASH_VALUE -> name <> [] ->
  ht_find s t h hash name = Some (first_match h hash name (chain (bucket_of s (ht_nbuckets t) hash))).
Proof.
  intros Hrep (bs & Hbs & Hz & Hch) Hh Hname. unfold ht_find. pose proof (rep_nbuckets _ _ _ _ Hrep) as Hp.
  destruct (hash =? INVALID_HASH_VALUE) eqn:E; zbool; [done|].
  destruct (zlen name =? 0) eqn:E'; zbool; [by destruct name|]. cbn [negb andb c3_assert mbind option_bind].
  rewrite get_bucket_index_ok by done. cbn [mbind option_bind].
  set (i := bucket_of s (ht_nbuckets t) hash).
  assert (i < length bs)%nat as Hi.
  { pose proof (bucket_of_lt s (ht_nbuckets t) hash Hp). unfold zlen in Hz. fold i in H. lia. }
  destruct (Hch i Hi) as [Hd Hx]. destruct (lookup_lt_is_Some_2 bs i Hi) as [first Hf].
  unfold get_bucket. rewrite Hbs. cbn [mbind option_bind].
  destruct (0 <=? Z.of_nat i) eqn:E0; zbool; [|lia]. rewrite Nat2Z.id, Hf. cbn [mbind option_bind].
  destruct (Hd first Hf) as (-> & Hseg & Hnd). eapply find_in_chain_ok; [done|].
  apply length_le_size; [done|]. intros x Hin. by eapply dseg_elem.
Qed.

(** A matching object is in the chain of its hash code. *)
Lemma chain_matches s t h l chain hash name x :
  ht_rep s t h l -> ht_chains s t h l chain -> matches h hash name x ->
  x ∈ chain (bucket_of s (ht_nbuckets t) hash) <-> x ∈ l.
Proof.
  intros Hrep (bs & Hbs & Hz & Hch) (o & Ho & Hk & _).
  assert (bucket_of s (ht_nbuckets t) hash < length bs)%nat as Hi.
  { pose proof (bucket_of_lt s (ht_nbuckets t) hash (rep_nbuckets _ _ _ _ Hrep)). unfold zlen in Hz. lia. }
  destruct (Hch _ Hi) as [_ ->]. split; [tauto|]. intros Hx. split; [done|]. exists o. by rewrite Hk.
Qed.

Lemma ht_find_ok s t h l hash name :
  ht_rep s t h l -> hash <> INVALID_HASH_VALUE -> name <> [] ->
  exists r, ht_find s t h hash name = Some r
    /\ match r with
       | Some x => x ∈ l /\ matches h hash name x
       | None => forall x, x ∈ l -> ~ matches h hash name x
       end.
Proof.
  intros Hrep Hh Hname. destruct (ht_rep_chains _ _ _ _ Hrep) as (chain & Hch).
  eexists. split; [by eapply ht_find_chain|]. pose proof (first_match_ok h hash name (chain (bucket_of s (ht_nbuckets t) hash))) as Hm.
  destruct (first_match _ _ _ _) as [x|].
  - destruct Hm as [Hx Hm]. split; [|done]. by apply (chain_matches _ _ _ _ _ _ _ _ Hrep Hch Hm).
  - intros x Hx Hmx. apply (Hm x); [|done]. by apply (chain_matches _ _ _ _ _ _ _ _ Hrep Hch Hmx).
Qed.

(** Whether so many objects fill up [n] buckets; whether [add] will try to resize the table. *)
Definition fills (s : Store) (n count : Z) : bool :=
  match uint_of_float (SFmul 24 128 (float_of_uint n) (s_fill_factor s)) with
  | Some limit => limit <=? count
  | None => false
  end.
Definition ht_full (s : Store) (t : HashTable) : bool := fills s (ht_nbuckets t) (ht_count t).

Lemma ht_add_resized s t h m x t' h' m' : ht_add s t h m x = Some (true, t', h', m') -> ht_full s t = true.
Proof.
  unfold ht_add, ht_full, fills. destruct (uint_of_float _) as [limit|]; [|done]. cbn [mbind option_bind].
  destruct (limit <=? ht_count t); [done|]. cbn [mbind option_bind]. intros Ha. apply bind_Some in Ha as (h1 & _ & Ha).
  by apply bind_Some in Ha as ([t1 h2] & _ & Ha).
Qed.

(** The limit on the number of objects can be computed for every table size. *)
Definition fill_ok (s : Store) : Prop :=
  forall n, pow2 n -> is_Some (uint_of_float (SFmul 24 128 (float_of_uint n) (s_fill_factor s))).

(** A new object becomes the first one of the table, and of the chain of its bucket. *)
Lemma ht_link_ok s t h l x o :
  ht_rep s t h l -> h !! x = Some o -> ho_hash o <> INVALID_HASH_VALUE -> x ∉ l -> zlen l + 1 < 2 ^ 32 ->
  exists h2 t3 h3, link_front table_chain h (ht_first t) x = Some h2
    /\ link_bucket s (ht_with_first t (Some x)) h2 x = Some (t3, h3)
    /\ let t' := ht_with_count t3 (u32 (ht_count t3 + 1)) in
       ht_rep s t' h3 (x :: l) /\ same_core h h3 /\ ht_nbuckets t' = ht_nbuckets t
       /\ (forall y, y ∉ x :: l -> h3 !! y = h !! y)
       /\ forall chain, ht_chains s t h l chain ->
          let i := bucket_of s (ht_nbuckets t) (ho_hash o) in ht_chains s t' h3 (x :: l) (with_bucket chain i (x :: chain i)).
Proof.
  intros Hrep Hx Hh Hxl Hlt. pose proof (rep_nbuckets _ _ _ _ Hrep) as Hp.
  destruct (link_front_ok table_chain h (ht_first t) l x) as (h2 & E2 & Hd2 & Hr2); [apply (rep_table _ _ _ _ Hrep)|done|by eexists|].
  assert (same_core h h2) as Hc2 by (by eapply (relinked_core table_chain); [apply _|]).
  destruct (same_core_lookup h h2 x o Hc2 Hx) as (o2 & Hx2 & Ho2). assert (ho_hash o2 = ho_hash o) as Heq2 by (unfold core in Ho2; congruence).
  destruct (rep_buckets _ _ _ _ Hrep) as (bs & Hbs & Hz & chain & Hch).
  assert (forall chain, chains_rep s h (ht_nbuckets t) bs l chain -> chains_rep s h2 (ht_nbuckets t) bs l chain) as Hframe
    by (intros; by eapply chains_rep_frame).
  destruct (link_bucket_ok s (ht_with_first t (Some x)) h2 bs l x o2 chain) as (bs' & h3 & Elink & Hz3 & Hb3 & Hr3);
    [done|done|done|by apply Hframe|done|congruence|done|].
  assert (same_core h2 h3) as Hc3 by (by eapply (relinked_core bucket_chain); [apply _|]).
  eexists h2, _, h3; split; [done|]. split; [exact Elink|]. cbn zeta. split_and!.
  - constructor; cbn; [done| |exists bs'; split; [done|]; split; [done|by eexists]| |].
    + eapply (relinked_other_dlist bucket_chain table_chain); [apply _..|done|done].
    + intros y [->|Hy]%elem_of_cons; [|by eapply hashed_core; [|apply (rep_hashed _ _ _ _ Hrep)|]; [eapply same_core_trans|]].
      destruct (same_core_lookup h2 h3 x o2 Hc3 Hx2) as (o3 & Hx3 & Ho3). exists o3. split; [done|].
      unfold core in Ho3. congruence.
    + rewrite (rep_count _ _ _ _ Hrep), zlen_cons. pose proof (zlen_nonneg l).
      rewrite u32_small by (unfold is_u32; lia). lia.
  - by eapply same_core_trans.
  - done.
  - intros y Hy. destruct Hr3 as (_ & -> & _); [|done]. by destruct Hr2 as (_ & -> & _).
  - intros ch (bs0 & Hbs0 & _ & Hch0). assert (bs0 = bs) as -> by congruence.
    destruct (link_bucket_ok s (ht_with_first t (Some x)) h2 bs l x o2 ch) as (bs1 & h4 & E4 & Hz4 & Hb4 & _);
      [done|done|done|by apply Hframe|done|congruence|done|]. rewrite Elink in E4. simplify_eq.
    exists bs1. split_and!; [done|done|]. cbn in Hb4. by rewrite Heq2 in Hb4.
Qed.

(** [add] when the table does not grow, and when it does: then objects are found from the oldest to the newest one, but for
    the one that has been added. *)
Lemma ht_add_full s t h m u l x o :
  ht_rep s t h l -> ht_others t m u -> fill_ok s ->
  h !! x = Some o -> ho_hash o <> INVALID_HASH_VALUE -> x ∉ l -> zlen l + 1 < 2 ^ 32 ->
  exists r t' h' m', ht_add s t h m x = Some (r, t', h', m') /\ ht_rep s t' h' (x :: l)
    /\ same_core h h' /\ ht_others t' m' u /\ (forall y, y ∉ x :: l -> h' !! y = h !! y)
    /\ r = ht_full s t && (ht_nbuckets t <? MAX_NUM_BUCKETS)
    /\ ht_nbuckets t' = (if r then ht_nbuckets t * 2 else ht_nbuckets t)
    /\ forall chain, (if r then forall i, chain i = in_search s h (ht_nbuckets t') (rev l) i else ht_chains s t h l chain) ->
        let i := bucket_of s (ht_nbuckets t') (ho_hash o) in
        ht_chains s t' h' (x :: l) (with_bucket chain i (x :: chain i)).
Proof.
  intros Hrep Hm Hfill Hx Hh Hxl Hlt. unfold ht_add, ht_full, fills.
  destruct (Hfill _ (rep_nbuckets _ _ _ _ Hrep)) as [limit ->]. cbn [mbind option_bind].
  assert (exists r t1 h1 m1, (if limit <=? ht_count t then resize_table s t h m else Some (false, t, h, m))
      = Some (r, t1, h1, m1) /\ ht_rep s t1 h1 l /\ same_core h h1 /\ ht_others t1 m1 u
        /\ relinked bucket_chain h h1 l /\ r = (limit <=? ht_count t) && (ht_nbuckets t <? MAX_NUM_BUCKETS)
        /\ (if r then ht_nbuckets t1 = ht_nbuckets t * 2 /\ ht_chains s t1 h1 l (in_search s h (ht_nbuckets t1) (rev l)) else t1 = t /\ h1 = h))
    as (r & t1 & h1 & m1 & -> & Hrep1 & Hc1 & Hm1 & Hrk1 & Hr & Hgrown).
  { destruct (limit <=? ht_count t); [|exists false, t, h, m; split_and!; done].
    destruct (resize_table_ok s t h m u l Hrep Hm) as (r & t1 & h1 & m1 & ? & ? & ? & ? & _ & ? & ? & ?).
    by exists r, t1, h1, m1. }
  cbn [mbind option_bind]. destruct (same_core_lookup h h1 x o Hc1 Hx) as (o1 & Hx1 & Ho1). assert (ho_hash o1 = ho_hash o) as Heq by (unfold core in Ho1; congruence).
  destruct (ht_link_ok s t1 h1 l x o1 Hrep1 Hx1 ltac:(congruence) Hxl Hlt) as (h2 & t3 & h3 & -> & E3 & Hrep3 & Hc3 & Hnb & Hfr & Hch).
  cbn [mbind option_bind]. rewrite E3. cbn [mbind option_bind]. rewrite Heq in Hch. eexists r, _, h3, m1. split; [done|]. split_and!; try done.
  - by eapply same_core_trans.
  - unfold ht_others in *. by rewrite Hnb.
  - intros y Hy. rewrite Hfr by done. destruct Hrk1 as (_ & -> & _); [done|]. intros Hyl. apply Hy. by right.
  - rewrite Hnb. destruct r; [apply Hgrown|]. by destruct Hgrown as [-> _].
  - rewrite Hnb. intros chain Hc. apply Hch. destruct r; [|by destruct Hgrown as [-> ->]].
    eapply ht_chains_ext; [|apply Hgrown]. intros i. by rewrite Hc.
Qed.

Lemma ht_add_ok s t h m u l x o :
  ht_rep s t h l -> ht_others t m u -> fill_ok s ->
  h !! x = Some o -> ho_hash o <> INVALID_HASH_VALUE -> x ∉ l -> zlen l + 1 < 2 ^ 32 ->
  exists r t' h' m', ht_add s t h m x = Some (r, t', h', m') /\ ht_rep s t' h' (x :: l)
    /\ same_core h h' /\ ht_others t' m' u.
Proof.
  intros Hrep Hm Hf Hx Hh Hxl Hlt. destruct (ht_add_full s t h m u l x o) as (r & t' & h' & m' & ? & ? & ? & ? & _); try done.
  by exists r, t', h', m'.
Qed.

Lemma nodup_mid {A} (l1 l2 : list A) x :
  NoDup (l1 ++ x :: l2) -> forall y, y ∈ l1 ++ l2 <-> y ∈ l1 ++ x :: l2 /\ y <> x.
Proof.
  intros (_ & Hdis & [Hx2 _]%NoDup_cons)%NoDup_app y. rewrite !elem_of_app, elem_of_cons. split; [|tauto].
  intros [Hy|Hy]; (split; [tauto|]); intros ->; [apply (Hdis x Hy); left|done].
Qed.

(** A list without one of its elements. *)
Definition without (x : loc) (l : list loc) : list loc := filter (fun y => y <> x) l.

Lemma without_mid l1 x l2 : NoDup (l1 ++ x :: l2) -> without x (l1 ++ x :: l2) = l1 ++ l2.
Proof.
  intros (_ & Hd & [Hx _]%NoDup_cons)%NoDup_app. unfold without.
  assert (forall l : list loc, x ∉ l -> filter (fun y => y <> x) l = l) as Hid.
  { induction l as [|y l IH]; intros Hn; [done|]. apply not_elem_of_cons in Hn as [Hne Hn]. rewrite filter_cons_True by done.
    by rewrite IH. }
  rewrite filter_app, filter_cons_False by tauto. rewrite !Hid; [done|done|]. intros Hx1. apply (Hd x Hx1). left.
Qed.

Lemma unlink_bucket_ok s t h bs l l' x o chain :
  pow2 (ht_nbuckets t) -> ht_buckets t = Some bs -> zlen bs = ht_nbuckets t -> chains_rep s h (ht_nbuckets t) bs l chain ->
  h !! x = Some o -> ho_hash o <> INVALID_HASH_VALUE -> x ∈ l -> (forall y, y ∈ l' <-> y ∈ l /\ y <> x) ->
  exists bs' h', unlink_bucket s t h x = Some (mkHashTable (Some bs') (ht_first t) (ht_nbuckets t) (ht_count t), h')
    /\ zlen bs' = ht_nbuckets t
    /\ (let i := bucket_of s (ht_nbuckets t) (ho_hash o) in
        chains_rep s h' (ht_nbuckets t) bs' l' (with_bucket chain i (without x (chain i))))
    /\ relinked bucket_chain h h' l
    /\ prev_of bucket_chain h' x = Some None /\ next_of bucket_chain h' x = Some None.
Proof.
  intros Hp Hbs Hz Hch Ho Hh Hxl Hl'.
  unfold unlink_bucket. rewrite Ho. cbn [mbind option_bind]. rewrite get_bucket_index_ok by done. cbn [mbind option_bind].
  set (i := bucket_of s (ht_nbuckets t) (ho_hash o)).
  assert (i < length bs)%nat as Hi.
  { pose proof (bucket_of_lt s (ht_nbuckets t) (ho_hash o) Hp). unfold zlen in Hz. fold i in H. lia. }
  destruct (Hch i Hi) as [Hd Hin]. destruct (lookup_lt_is_Some_2 bs i Hi) as [first Hf].
  assert (get_bucket t (Z.of_nat i) = Some first) as Hg.
  { unfold get_bucket. rewrite Hbs. cbn. destruct (0 <=? Z.of_nat i) eqn:E; zbool; [|lia]. by rewrite Nat2Z.id. }
  rewrite Hg. cbn [mbind option_bind].
  assert (x ∈ chain i) as Hxi by (apply Hin; split; [done|by exists o]).
  pose proof (Hd first Hf) as Hdi. apply list_elem_of_split in Hxi as (k1 & k2 & Hk). rewrite Hk in Hdi, Hin.
  destruct (unlink_ok bucket_chain h first k1 x k2 Hdi) as (h2 & -> & Hd2 & Hr2 & Hpx2 & Hnx2).
  cbn [mbind option_bind]. unfold set_bucket. rewrite Hg, Hbs. cbn [mbind option_bind]. rewrite Nat2Z.id.
  pose proof (nodup_mid k1 k2 x (proj2 (proj2 Hdi))) as Hmid.
  eexists _, h2. split; [done|]. cbn zeta. fold i. rewrite Hk, without_mid by apply Hdi.
  assert (relinked bucket_chain h h2 l) as Hr3 by (apply (relinked_mono bucket_chain _ _ _ _ Hr2); intros y Hy; by apply Hin).
  split; [unfold zlen in *; by rewrite length_insert|]. split; [|done].
  eapply (buckets_update s h h2 _ bs l l' i _ chain (k1 ++ x :: k2) (k1 ++ k2)); try done.
  - apply (relinked_mono bucket_chain _ _ _ _ Hr2). intros y. rewrite !elem_of_app. tauto.
  - intros y Hy. apply Hin. by apply Hmid in Hy as [? _].
  - intros y. rewrite Hmid, Hin, Hl'. tauto.
  - intros y Hy. rewrite Hl'. split; [tauto|]. intros Hyl. split; [done|]. intros ->. apply Hy. by exists o.
Qed.

Lemma ht_remove_full s t h l1 x l2 :
  ht_rep s t h (l1 ++ x :: l2) -> zlen (l1 ++ x :: l2) < 2 ^ 32 ->
  exists t' h', ht_remove s t h x = Some (t', h') /\ ht_rep s t' h' (l1 ++ l2) /\ same_core h h'
    /\ ht_nbuckets t' = ht_nbuckets t
    /\ (exists o, h' !! x = Some o /\ ho_prev o = None /\ ho_next o = None /\ ho_ht_prev o = None /\ ho_ht_next o = None)
    /\ (forall y, y ∉ l1 ++ x :: l2 -> h' !! y = h !! y)
    /\ forall chain, ht_chains s t h (l1 ++ x :: l2) chain ->
        exists i, in_bucket s h (ht_nbuckets t) x i /\ ht_chains s t' h' (l1 ++ l2) (with_bucket chain i (without x (chain i))).
Proof.
  intros Hrep Hlen. unfold ht_remove. pose proof (rep_nbuckets _ _ _ _ Hrep) as Hp.
  pose proof (rep_table _ _ _ _ Hrep) as (_ & _ & Hnd). pose proof (nodup_mid l1 l2 x Hnd) as Hl'.
  assert (x ∈ l1 ++ x :: l2) as Hxl by (apply elem_of_app; right; left).
  destruct (unlink_ok table_chain h (ht_first t) l1 x l2 (rep_table _ _ _ _ Hrep)) as (h1 & -> & Hd1 & Hr1 & Hpx & Hnx).
  cbn [mbind option_bind]. assert (same_core h h1) as Hc1 by (by eapply (relinked_core table_chain); [apply _|]).
  destruct (rep_hashed _ _ _ _ Hrep x Hxl) as (o & Ho & Hh).
  destruct (same_core_lookup h h1 x o Hc1 Ho) as (o1 & Ho1 & Hk1).
  destruct (rep_buckets _ _ _ _ Hrep) as (bs & Hbs & Hz & chain & Hch).
  assert (ho_hash o1 = ho_hash o) as Heq1 by (unfold core in Hk1; congruence).
  assert (forall chain, chains_rep s h (ht_nbuckets t) bs (l1 ++ x :: l2) chain ->
    chains_rep s h1 (ht_nbuckets t) bs (l1 ++ x :: l2) chain) as Hframe by (intros; by eapply chains_rep_frame).
  destruct (unlink_bucket_ok s (ht_with_first t (first_or (l1 ++ l2) None)) h1 bs (l1 ++ x :: l2) (l1 ++ l2) x o1 chain)
    as (bs' & h2 & Eun & Hz2' & Hb2 & Hr2 & Hpx2 & Hnx2); [done|done|done|by apply Hframe|done|congruence|done..|]. rewrite Eun.
  cbn [mbind option_bind ht_count ht_with_first]. rewrite (rep_count _ _ _ _ Hrep).
  assert (zlen (l1 ++ x :: l2) = zlen (l1 ++ l2) + 1) as Hz2 by (rewrite !zlen_app, zlen_cons; lia).
  pose proof (zlen_nonneg (l1 ++ l2)).
  destruct (zlen (l1 ++ x :: l2) =? 0) eqn:E; zbool; [lia|]. cbn [negb c3_assert mbind option_bind].
  assert (same_core h1 h2) as Hc2 by (by eapply (relinked_core bucket_chain); [apply _|]).
  assert (same_core h h2) as Hc by (by eapply same_core_trans).
  eexists _, h2. split; [done|]. split_and!; try done.
  - constructor; cbn; [done| |exists bs'; split; [done|]; split; [done|by eexists]| |].
    + eapply (relinked_other_dlist bucket_chain table_chain); [apply _..|done|done].
    + apply (hashed_core h h2); [done|]. intros y Hy. apply (rep_hashed _ _ _ _ Hrep). by apply Hl'.
    + rewrite Hz2, u32_small by (unfold is_u32; lia). lia.
  - destruct (same_core_lookup h1 h2 x o1 Hc2 Ho1) as (o2 & Ho2 & _). exists o2. pose proof Hr2 as (_ & _ & F2).
    pose proof (F2 _ _ bucket_unlinked_prev x) as Fp. pose proof (F2 _ _ bucket_unlinked_next x) as Fn.
    unfold prev_of, next_of in *. rewrite Ho2 in *. rewrite Ho1 in *. cbn in *. split_and!; congruence.
  - intros y Hy. destruct Hr2 as (_ & -> & _); [|done]. by destruct Hr1 as (_ & -> & _).
  - intros ch (bs0 & Hbs0 & _ & Hch0). assert (bs0 = bs) as -> by congruence. exists (bucket_of s (ht_nbuckets t) (ho_hash o1)).
    split; [exists o; by rewrite Heq1|].
    destruct (unlink_bucket_ok s (ht_with_first t (first_or (l1 ++ l2) None)) h1 bs (l1 ++ x :: l2) (l1 ++ l2) x o1 ch)
      as (bs1 & h4 & E4 & Hz4 & Hb4 & _); [done|done|done|by apply Hframe|done|congruence|done..|]. rewrite Eun in E4. simplify_eq.
    by exists bs1.
Qed.

Lemma ht_remove_at s t h l1 x l2 :
  ht_rep s t h (l1 ++ x :: l2) -> zlen (l1 ++ x :: l2) < 2 ^ 32 ->
  exists t' h', ht_remove s t h x = Some (t', h') /\ ht_rep s t' h' (l1 ++ l2) /\ same_core h h'
    /\ ht_nbuckets t' = ht_nbuckets t
    /\ exists o, h' !! x = Some o /\ ho_prev o = None /\ ho_next o = None /\ ho_ht_prev o = None /\ ho_ht_next o = None.
Proof.
  intros Hrep Hlen. destruct (ht_remove_full s t h l1 x l2 Hrep Hlen) as (t' & h' & ? & ? & ? & ? & ? & _).
  by exists t', h'.
Qed.

Lemma ht_remove_ok s t h l x :
  ht_rep s t h l -> x ∈ l -> zlen l < 2 ^ 32 ->
  exists t' h' l', ht_remove s t h x = Some (t', h') /\ ht_rep s t' h' l' /\ same_core h h'
    /\ (forall y, y ∈ l' <-> y ∈ l /\ y <> x) /\ zlen l = zlen l' + 1 /\ ht_nbuckets t' = ht_nbuckets t
    /\ exists o, h' !! x = Some o /\ ho_prev o = None /\ ho_next o = None /\ ho_ht_prev o = None /\ ho_ht_next o = None.
Proof.
  intros Hrep (l1 & l2 & ->)%list_elem_of_split Hlen.
  destruct (ht_remove_at s t h l1 x l2 Hrep Hlen) as (t' & h' & He & Hrep' & Hc & Hnb & Ho).
  exists t', h', (l1 ++ l2). pose proof (nodup_mid l1 l2 x (proj2 (proj2 (rep_table _ _ _ _ Hrep)))).
  split_and!; try done. rewrite !zlen_app, zlen_cons. lia.
Qed.

(** ** Names in use more than once

    While deleted objects are still in a table a name may occur several times; which of
    its objects [find] returns depends on the order of the chains. *)

Lemma matches_core h h' hash name x : same_core h h' -> matches h' hash name x <-> matches h hash name x.
Proof.
  intros Hc. specialize (Hc x). unfold matches.
  destruct (h !! x) as [o|], (h' !! x) as [o'|]; cbn in Hc; try done.
  injection Hc as Hh Hl Hn. split; intros (o1 & ? & <- & <-); simplify_eq; eexists; done.
Qed.

Lemma first_match_core h h' hash name c : same_core h h' -> first_match h' hash name c = first_match h hash name c.
Proof.
  intros Hc. induction c as [|x c IH]; [done|]. cbn. rewrite IH.
  by rewrite (decide_ext _ _ _ _ (matches_core h h' hash name x Hc)).
Qed.

Lemma first_match_without h hash name c x y :
  first_match h hash name c = Some y -> y <> x -> first_match h hash name (without x c) = Some y.
Proof.
  unfold without. induction c as [|z c IH]; [done|]. cbn [first_match]. intros Hf Hne.
  destruct (decide (z = x)) as [->|Hz].
  - rewrite filter_cons_False by tauto. destruct (decide _); [by simplify_eq|by apply IH].
  - rewrite filter_cons_True by done. cbn [first_match]. destruct (decide _); [done|by apply IH].
Qed.

Lemma ht_find_args s t h hash name r : ht_find s t h hash name = Some r -> hash <> INVALID_HASH_VALUE /\ name <> [].
Proof.
  unfold ht_find. destruct (hash =? _) eqn:E; zbool; [done|]. destruct (zlen name =? 0) eqn:E'; zbool; [done|].
  intros _. split; [done|]. by intros ->.
Qed.

(** Objects that have been removed are not found again, and hide no other object. *)
Lemma ht_remove_find s t h l x t' h' hash name y :
  ht_rep s t h l -> x ∈ l -> zlen l < 2 ^ 32 -> ht_remove s t h x = Some (t', h') ->
  ht_find s t h hash name = Some (Some y) -> y <> x -> ht_find s t' h' hash name = Some (Some y).
Proof.
  intros Hrep (l1 & l2 & ->)%list_elem_of_split Hlen Hr Hf Hne. destruct (ht_find_args _ _ _ _ _ _ Hf) as [Hh Hn].
  destruct (ht_remove_full s t h l1 x l2 Hrep Hlen) as (t1 & h1 & Hr1 & Hrep1 & Hc1 & Hnb & _ & _ & Hch1). rewrite Hr in Hr1. simplify_eq.
  destruct (ht_rep_chains _ _ _ _ Hrep) as (chain & Hch). destruct (Hch1 chain Hch) as (i & _ & Hch').
  rewrite (ht_find_chain _ _ _ _ _ _ _ Hrep Hch) in Hf by done. injection Hf as Hf.
  rewrite (ht_find_chain _ _ _ _ _ _ _ Hrep1 Hch') by done. rewrite (first_match_core h) by done. rewrite Hnb. f_equal.
  unfold with_bucket. case_decide; [subst; by apply first_match_without|done].
Qed.

Lemma ht_remove_frame s t h l x t' h' y :
  ht_rep s t h l -> x ∈ l -> zlen l < 2 ^ 32 -> ht_remove s t h x = Some (t', h') -> y ∉ l -> h' !! y = h !! y.
Proof.
  intros Hrep (l1 & l2 & ->)%list_elem_of_split Hlen Hr Hy.
  destruct (ht_remove_full s t h l1 x l2 Hrep Hlen) as (t1 & h1 & Hr1 & _ & _ & _ & _ & Hf & _). rewrite Hr in Hr1. simplify_eq. auto.
Qed.

(** What is outside of the table does not matter. *)
(** What a table reads of its objects, but for their names. *)
Definition link_view (o : HashObject) := (ho_ht_prev o, ho_ht_next o, ho_prev o, ho_next o, ho_hash o).

Lemma ht_rep_view s t h h' l : (forall y, y ∈ l -> link_view <$> h' !! y = link_view <$> h !! y) ->
  ht_rep s t h l -> ht_rep s t h' l.
Proof.
  intros Hv [Hp Ht (bs & Hbs & Hz & chain & Hch) Hh Hc].
  assert (forall y, y ∈ l -> forall o, h !! y = Some o -> exists o', h' !! y = Some o' /\ link_view o' = link_view o) as Hv1.
  { intros y Hy o Ho. specialize (Hv y Hy). rewrite Ho in Hv. destruct (h' !! y) as [o'|]; [|done].
    change (Some (link_view o') = Some (link_view o)) in Hv. exists o'. split; [done|congruence]. }
  assert (forall (c : links HashObject) f k, (c = bucket_chain \/ c = table_chain) -> (forall y, y ∈ k -> y ∈ l) ->
    dlist c h f k -> dlist c h' f k) as Hd.
  { intros c f k Hc0 Hk. apply dlist_frame. intros y Hy. specialize (Hv y (Hk y Hy)). unfold prev_of, next_of.
    destruct (h !! y) as [o|], (h' !! y) as [o'|]; try done. change (Some (link_view o') = Some (link_view o)) in Hv.
    injection Hv as E1 E2 E3 E4 _. destruct Hc0 as [-> | ->]; cbn; by rewrite ?E1, ?E2, ?E3, ?E4. }
  assert (forall y i, y ∈ l -> in_bucket s h' (ht_nbuckets t) y i <-> in_bucket s h (ht_nbuckets t) y i) as Hin.
  { intros y i Hy. specialize (Hv y Hy). unfold in_bucket. destruct (h !! y) as [o|], (h' !! y) as [o'|]; try done.
    change (Some (link_view o') = Some (link_view o)) in Hv. injection Hv as _ _ _ _ Eh.
    split; intros (o1 & ? & <-); simplify_eq; eexists; (split; [done|]); congruence. }
  constructor; [done|apply Hd; auto| | |done].
  - exists bs. split; [done|]. split; [done|]. exists chain. intros i Hi. destruct (Hch i Hi) as [Hci Hmem]. split.
    + intros f Hf. apply Hd; [by left| |by apply Hci]. intros y Hy. by apply Hmem.
    + intros y. rewrite Hmem. split; intros [Hy Hb]; (split; [done|]); by apply Hin.
  - intros y Hy. destruct (Hh y Hy) as (o & Ho & Hne). destruct (Hv1 y Hy o Ho) as (o' & Ho' & Hl). exists o'. split; [done|].
    unfold link_view in Hl. congruence.
Qed.

Lemma ht_rep_frame s t h h' l : (forall y, y ∈ l -> h' !! y = h !! y) -> ht_rep s t h l -> ht_rep s t h' l.
Proof. intros Hne. apply ht_rep_view. intros y Hy. by rewrite Hne. Qed.

Lemma ht_find_frame s t h h' l hash name : ht_rep s t h l -> (forall z, z ∈ l -> h' !! z = h !! z) ->
  hash <> INVALID_HASH_VALUE -> name <> [] -> ht_find s t h' hash name = ht_find s t h hash name.
Proof.
  intros Hrep Hne Hh Hn. pose proof (ht_rep_frame _ _ _ h' _ Hne Hrep) as Hrep'.
  destruct (ht_rep_chains _ _ _ _ Hrep) as (chain & bs & Hbs & Hz & Hch).
  assert (ht_chains s t h' l chain) as Hch'.
  { exists bs. split_and!; [done|done|]. intros i Hi. destruct (Hch i Hi) as [Hd Hk]. split.
    - intros first Hf'. eapply dlist_frame; [|by apply Hd]. intros z Hz'. unfold prev_of, next_of.
      by rewrite Hne by (by apply Hk in Hz' as [? _]).
    - intros z. rewrite Hk. split; intros [Hzl Hb]; (split; [done|]); unfold in_bucket in *; [by rewrite Hne|by rewrite Hne in Hb]. }
  assert (ht_chains s t h l chain) as Hch0 by (by exists bs).
  rewrite (ht_find_chain _ _ _ _ _ _ _ Hrep Hch0), (ht_find_chain _ _ _ _ _ _ _ Hrep' Hch') by done. f_equal.
  assert (bucket_of s (ht_nbuckets t) hash < length bs)%nat as Hi.
  { pose proof (bucket_of_lt s (ht_nbuckets t) hash (rep_nbuckets _ _ _ _ Hrep)). unfold zlen in Hz. lia. }
  destruct (Hch _ Hi) as [_ Hk].
  assert (forall c, (forall z, z ∈ c -> z ∈ l) -> first_match h' hash name c = first_match h hash name c) as Hfm.
  { induction c as [|z c IH]; intros Hc; [done|]. cbn [first_match]. rewrite IH by (intros z' Hz'; apply Hc; by right).
    assert (matches h' hash name z <-> matches h hash name z) as Hm by (unfold matches; by rewrite Hne by (apply Hc; left)).
    by rewrite (decide_ext _ _ _ _ Hm). }
  apply Hfm. intros z Hz'. by apply Hk in Hz' as [? _].
Qed.

(** Without a resize, a new object hides the older ones of its name. *)
Lemma ht_add_find s t h m u l x o t' h' m' hash name :
  ht_rep s t h l -> ht_others t m u -> fill_ok s ->
  h !! x = Some o -> ho_hash o <> INVALID_HASH_VALUE -> x ∉ l -> zlen l + 1 < 2 ^ 32 ->
  ht_add s t h m x = Some (false, t', h', m') -> hash <> INVALID_HASH_VALUE -> name <> [] ->
  ht_find s t' h' hash name = if decide (matches h hash name x) then Some (Some x) else ht_find s t h hash name.
Proof.
  intros Hrep Hm Hf Hx Hh Hxl Hlt Ha Hh' Hn.
  destruct (ht_add_full s t h m u l x o) as (r & t1 & h1 & m1 & Ha1 & Hrep1 & Hc1 & _ & _ & _ & Hnb & Hch1); try done. rewrite Ha in Ha1. simplify_eq.
  destruct (ht_rep_chains _ _ _ _ Hrep) as (chain & Hch). specialize (Hch1 chain Hch) as Hch2. cbn zeta in Hch2. rewrite Hnb in Hch2.
  rewrite (ht_find_chain _ _ _ _ _ _ _ Hrep1 Hch2), (ht_find_chain _ _ _ _ _ _ _ Hrep Hch) by done.
  rewrite (first_match_core h) by done. rewrite Hnb. unfold with_bucket. case_decide as Hi.
  - rewrite Hi. cbn [first_match]. by case_decide.
  - case_decide as Hmx; [|done]. destruct Hmx as (o' & Ho' & <- & _). simplify_eq.
Qed.

(** If only one object has a name, it is found wherever it is. *)
Lemma ht_find_unique s t h l hash name x :
  ht_rep s t h l -> hash <> INVALID_HASH_VALUE -> name <> [] -> x ∈ l -> matches h hash name x ->
  (forall y, y ∈ l -> matches h hash name y -> y = x) -> ht_find s t h hash name = Some (Some x).
Proof.
  intros Hrep Hh Hn Hx Hm Hu. destruct (ht_find_ok s t h l hash name Hrep Hh Hn) as (r & -> & Hr). destruct r as [y|].
  - destruct Hr as [Hy Hmy]. by rewrite (Hu y Hy Hmy).
  - by destruct (Hr x Hx).
Qed.

(** What [find] reads of objects. *)
Definition find_view (o : HashObject) := (ho_hash o, ho_name o, ho_ht_next o).

Lemma ht_find_view s t h h' hash name : (forall x, find_view <$> h' !! x = find_view <$> h !! x) ->
  ht_find s t h' hash name = ht_find s t h hash name.
Proof.
  intros Hv. unfold ht_find, chain_fuel.
  assert (size h' = size h) as ->.
  { rewrite <- !size_dom. f_equal. apply set_eq. intros x. rewrite !elem_of_dom. specialize (Hv x).
    destruct (h !! x), (h' !! x); cbn in Hv; try done; split; intros _; by eexists. }
  assert (forall fuel p, find_in_chain fuel h' p hash name = find_in_chain fuel h p hash name) as Hf.
  { induction fuel as [|fuel IH]; intros [x|]; try done. cbn. specialize (Hv x).
    destruct (h !! x) as [o|], (h' !! x) as [o'|]; cbn in Hv; try done. injection Hv as Hh Hnm Hx. cbn [mbind option_bind].
    unfold is_match, ho_nlength. rewrite Hh, Hnm, Hx. destruct (_ && _); [done|apply IH]. }
  destruct (c3_assert _); [|done]. cbn. destruct (get_bucket_index s t hash); [|done]. cbn. destruct (get_bucket t _); [|done]. apply Hf.
Qed.

(** ** Enumeration *)

(** The callback applied to the elements of a list, until it says to stop. *)
Fixpoint visit {C : Type} (callback : C -> loc -> option (bool * C)) (ctx : C) (l : list loc) : option (bool * C) :=
  match l with
  | [] => Some (true, ctx)
  | x :: l => '(go_on, ctx) ← callback ctx x;
      if (go_on : bool) then visit callback ctx l else Some (false, ctx)
  end.

Lemma enumerate_chain_ok {C} h (callback : C -> loc -> option (bool * C)) l : forall fuel p ctx,
  dseg table_chain h p l None -> (length l <= fuel)%nat ->
  enumerate_chain fuel h callback ctx (first_or l None) = visit callback ctx l.
Proof.
  induction l as [|x l IH]; intros fuel p ctx Hd Hf; [by destruct fuel|].
  cbn in Hf. destruct fuel as [|fuel]; [lia|]. destruct Hd as (_ & Hn & Hd). unfold next_of in Hn.
  cbn [enumerate_chain first_or visit]. destruct (callback ctx x) as [[[] ctx']|]; cbn [mbind option_bind]; [|done..].
  destruct (h !! x) as [o|]; [|done]. cbn in Hn. injection Hn as Hn. cbn [mbind option_bind]. rewrite Hn.
  eapply IH; [done|lia].
Qed.

Lemma ht_enumerate_ok {C} s t h l (callback : C -> loc -> option (bool * C)) ctx :
  ht_rep s t h l -> ht_enumerate t h callback ctx = visit callback ctx l.
Proof.
  intros Hrep. destruct (rep_table _ _ _ _ Hrep) as (Hf & Hd & Hnd). unfold ht_enumerate. rewrite Hf.
  eapply enumerate_chain_ok; [done|]. apply length_le_size; [done|]. intros x Hx. by eapply dseg_elem.
Qed.

(** Collecting the objects. *)
Definition collect (ctx : list loc) (x : loc) : option (bool * list loc) := Some (true, ctx ++ [x]).

Lemma visit_collect l : forall ctx, visit collect ctx l = Some (true, ctx ++ l).
Proof.
  induction l as [|x l IH]; intros ctx; cbn; [by rewrite app_nil_r|]. by rewrite IH, <- app_assoc.
Qed.

(** ** Refinement: lists in the order of search, and a finite map *)

Inductive table_op := TFind (hash : Z) (name : bytes) | TAdd (x : loc) | TRemove (x : loc).

Record table_state := mkTableState { ts_table : HashTable; ts_heap : heap; ts_memory : Memory }.

(** The result is the pointer found, for [TFind]. *)
Definition ht_step (s : Store) (st : table_state) (op : table_op) : option (ptr * table_state) :=
  let '(mkTableState t h m) := st in
  match op with
  | TFind hash name => p ← ht_find s t h hash name; Some (p, st)
  | TAdd x => '(_, t, h, m) ← ht_add s t h m x; Some (None, mkTableState t h m)
  | TRemove x => '(t, h) ← ht_remove s t h x; Some (None, mkTableState t h m)
  end.

Fixpoint ht_run (s : Store) (st : table_state) (ops : list table_op) : option (list ptr * table_state) :=
  match ops with
  | [] => Some ([], st)
  | op :: ops => '(r, st) ← ht_step s st op; '(rs, st) ← ht_run s st ops; Some (r :: rs, st)
  end.

(** The key of an object: its hash code and its name. *)
Definition key_of (h : heap) (x : loc) : option (Z * bytes) := (fun o => (ho_hash o, ho_name o)) <$> h !! x.

Abbreviation objects := (gmap (Z * list Z) loc).

Definition map_step (h : heap) (M : objects) (op : table_op) : ptr * objects :=
  match op with
  | TFind hash name => (M !! (hash, name), M)
  | TAdd x => (None, match key_of h x with Some k => <[k := x]> M | None => M end)
  | TRemove x => (None, match key_of h x with Some k => delete k M | None => M end)
  end.

Fixpoint map_run (h : heap) (M : objects) (ops : list table_op) : list ptr * objects :=
  match ops with
  | [] => ([], M)
  | op :: ops => let '(r, M) := map_step h M op in let '(rs, M) := map_run h M ops in (r :: rs, M)
  end.

(** Callers look for valid keys, add objects whose key is not there, and remove
    objects that are there. *)
Definition op_valid (h : heap) (M : objects) (op : table_op) : Prop :=
  match op with
  | TFind hash name => hash <> INVALID_HASH_VALUE /\ name <> []
  | TAdd x => exists k, key_of h x = Some k /\ fst k <> INVALID_HASH_VALUE /\ M !! k = None
  | TRemove x => exists k, key_of h x = Some k /\ M !! k = Some x
  end.

Fixpoint ops_valid (h : heap) (M : objects) (ops : list table_op) : Prop :=
  match ops with
  | [] => True
  | op :: ops => op_valid h M op /\ ops_valid h (snd (map_step h M op)) ops
  end.

Definition table_models (s : Store) (h0 : heap) (u : Z) (st : table_state) (M : objects) (l : list loc) : Prop :=
  ht_rep s (ts_table st) (ts_heap st) l /\ same_core h0 (ts_heap st)
  /\ ht_others (ts_table st) (ts_memory st) u
  /\ forall k x, M !! k = Some x <-> x ∈ l /\ key_of h0 x = Some k.

Lemma key_of_core h h' x : same_core h h' -> key_of h' x = key_of h x.
Proof.
  intros Hc. specialize (Hc x). unfold key_of. destruct (h !! x), (h' !! x); cbn in Hc |- *; [|done..].
  injection Hc. intros. congruence.
Qed.

Lemma matches_key h x hash name : matches h hash name x <-> key_of h x = Some (hash, name).
Proof.
  unfold matches, key_of. destruct (h !! x) as [o|]; cbn.
  - split; [by intros (? & [= <-] & -> & ->)|]. intros [= <- <-]. by exists o.
  - split; [by intros (? & ? & _)|done].
Qed.

Lemma ht_step_ok s h0 u st M l op :
  fill_ok s -> Z.of_nat (size h0) < 2 ^ 32 -> table_models s h0 u st M l -> op_valid h0 M op ->
  exists st' l', ht_step s st op = Some (fst (map_step h0 M op), st')
    /\ table_models s h0 u st' (snd (map_step h0 M op)) l'.
Proof.
  intros Hfill Hsz (Hrep & Hc & Hm & HM) Hop. destruct st as [t h m]. cbn in Hrep, Hc, Hm. unfold table_models.
  pose proof (rep_table _ _ _ _ Hrep) as (_ & Hseg & Hnd).
  destruct op as [hash name|x|x]; cbn [ht_step map_step fst snd op_valid] in *.
  - destruct Hop as [Hh Hn]. destruct (ht_find_ok s t h l hash name Hrep Hh Hn) as (r & -> & Hr).
    cbn. exists (mkTableState t h m), l. split; [|done]. do 2 f_equal. destruct r as [x|].
    + destruct Hr as [Hx Hk]. symmetry. apply HM. split; [done|].
      rewrite <- (key_of_core h0 h) by done. by apply matches_key.
    + destruct (M !! (hash, name)) as [x|] eqn:E; [|done]. apply HM in E as [Hx Hk]. exfalso.
      apply (Hr x Hx). apply matches_key. by rewrite (key_of_core h0 h).
  - destruct Hop as (k & Hk & Hh & Hfree). rewrite Hk.
    assert (x ∉ l) as Hxl by (intros Hin; assert (M !! k = Some x) by (by apply HM); congruence).
    rewrite <- (key_of_core h0 h) in Hk by done. unfold key_of in Hk. destruct (h !! x) as [o|] eqn:Ho; [|done].
    cbn in Hk. injection Hk as <-. cbn in Hh.
    assert (length (x :: l) <= size h)%nat as Hlen.
    { apply length_le_size; [by constructor|]. intros y [->|Hy]%elem_of_cons; [by eexists|by eapply dseg_elem]. }
    rewrite (same_core_size h0 h Hc) in Hlen. cbn in Hlen.
    destruct (ht_add_ok s t h m u l x o) as (r & t' & h' & m' & -> & Hrep' & Hc' & Hm'); try done.
    { unfold zlen. lia. }
    cbn. exists (mkTableState t' h' m'), (x :: l). split; [done|]. cbn. split_and!; [done|by eapply same_core_trans|done|].
    intros k y. rewrite lookup_insert_Some, elem_of_cons, HM.
    assert (key_of h0 x = Some (ho_hash o, ho_name o)) as Hkx.
    { rewrite <- (key_of_core h0 h) by done. unfold key_of. by rewrite Ho. }
    split.
    + intros [[<- <-]|[Hne [Hy Hky]]]; [by split; [left|]|split; [by right|done]].
    + intros [[->|Hy] Hky]; [left; split; congruence|].
      destruct (decide ((ho_hash o, ho_name o) = k)) as [<-|]; [|by right].
      assert (M !! (ho_hash o, ho_name o) = Some y) by (by apply HM). congruence.
  - destruct Hop as (k & Hk & Hin). rewrite Hk. apply HM in Hin as [Hx _].
    assert (length l <= size h)%nat as Hlen by (apply length_le_size; [done|]; intros y Hy; by eapply dseg_elem).
    rewrite (same_core_size h0 h Hc) in Hlen.
    destruct (ht_remove_ok s t h l x Hrep Hx) as (t' & h' & l' & -> & Hrep' & Hc' & Hl' & _ & Hnb & _).
    { unfold zlen. lia. }
    cbn. exists (mkTableState t' h' m), l'. split; [done|]. cbn. split_and!; [done|by eapply same_core_trans| |].
    { unfold ht_others in *. by rewrite Hnb. }
    intros k' y. rewrite lookup_delete_Some, HM, Hl'. split.
    + intros [Hne [Hy Hky]]. split_and!; try done. intros ->. congruence.
    + intros [[Hy Hne] Hky]. split; [|done]. intros <-. apply Hne.
      assert (M !! k = Some x) by (by apply HM). assert (M !! k = Some y) by (by apply HM). congruence.
Qed.

Lemma ht_run_ok s h0 u ops : forall st M l,
  fill_ok s -> Z.of_nat (size h0) < 2 ^ 32 -> table_models s h0 u st M l -> ops_valid h0 M ops ->
  exists st' l', ht_run s st ops = Some (fst (map_run h0 M ops), st')
    /\ table_models s h0 u st' (snd (map_run h0 M ops)) l'.
Proof.
  induction ops as [|op ops IH]; intros st M l Hf Hsz Hmod Hv; cbn [ht_run map_run]; [by exists st, l|].
  destruct Hv as [Hop Hv]. destruct (ht_step_ok s h0 u st M l op) as (st1 & l1 & -> & Hmod1); [done..|].
  cbn [mbind option_bind]. destruct (map_step h0 M op) as [r M1]. cbn in Hmod1, Hv |- *.
  destruct (IH st1 M1 l1) as (st2 & l2 & -> & Hmod2); [done..|]. cbn [mbind option_bind].
  destruct (map_run h0 M1 ops) as [rs M2]. by exists st2, l2.
Qed.

(** What a table does when names may occur several times: [sp_order] are its objects, the newest one first, and
    [sp_search] the same objects in the order in which [find] comes upon them. A new object is the
    first in both; but when the table grows, those that it holds are from then on found from the
    oldest to the newest. *)
Record table_spec := mkTableSpec { sp_buckets : Z; sp_order : list loc; sp_search : list loc }.

Definition spec_step (s : Store) (h : heap) (sp : table_spec) (op : table_op) : ptr * table_spec :=
  let '(mkTableSpec n order search) := sp in
  match op with
  | TFind hash name => (first_match h hash name search, sp)
  | TAdd x =>
      (None, if fills s n (zlen order) && (n <? MAX_NUM_BUCKETS) then mkTableSpec (n * 2) (x :: order) (x :: rev order)
             else mkTableSpec n (x :: order) (x :: search))
  | TRemove x => (None, mkTableSpec n (without x order) (without x search))
  end.

Fixpoint spec_run (s : Store) (h : heap) (sp : table_spec) (ops : list table_op) : list ptr * table_spec :=
  match ops with
  | [] => ([], sp)
  | op :: ops => let '(r, sp) := spec_step s h sp op in let '(rs, sp) := spec_run s h sp ops in (r :: rs, sp)
  end.

(** Callers look for valid keys, add objects with a valid hash code that are not in the table, and remove some that are. *)
Definition spec_valid (h : heap) (sp : table_spec) (op : table_op) : Prop :=
  match op with
  | TFind hash name => hash <> INVALID_HASH_VALUE /\ name <> []
  | TAdd x => x ∉ sp_order sp /\ exists o, h !! x = Some o /\ ho_hash o <> INVALID_HASH_VALUE
  | TRemove x => x ∈ sp_order sp
  end.

#[export] Instance spec_valid_dec h sp op : Decision (spec_valid h sp op).
Proof.
  destruct op as [hash name|x|x]; cbn; [apply _| |apply _]. apply and_dec; [apply _|].
  destruct (h !! x) as [o|] eqn:E; [|by right; intros (? & ? & _)].
  destruct (decide (ho_hash o = INVALID_HASH_VALUE)) as [Hi|Hi]; [right; intros (? & [= <-] & ?); done|left; by exists o].
Defined.

Fixpoint spec_all_valid (s : Store) (h : heap) (sp : table_spec) (ops : list table_op) : Prop :=
  match ops with
  | [] => True
  | op :: ops => spec_valid h sp op /\ spec_all_valid s h (snd (spec_step s h sp op)) ops
  end.

#[export] Instance spec_all_valid_dec s h ops : forall sp, Decision (spec_all_valid s h sp ops).
Proof. induction ops as [|op ops IH]; intros sp; cbn [spec_all_valid]; apply _. Defined.

Definition table_holds (s : Store) (h0 : heap) (u : Z) (st : table_state) (sp : table_spec) : Prop :=
  ht_rep s (ts_table st) (ts_heap st) (sp_order sp) /\ same_core h0 (ts_heap st)
  /\ ht_others (ts_table st) (ts_memory st) u
  /\ ht_nbuckets (ts_table st) = sp_buckets sp
  /\ ht_chains s (ts_table st) (ts_heap st) (sp_order sp) (in_search s h0 (sp_buckets sp) (sp_search sp)).

(** A name is looked for in one chain only, which is enough. *)
Lemma first_match_filter s h n hash name S : first_match h hash name (in_search s h n S (bucket_of s n hash)) = first_match h hash name S.
Proof.
  unfold in_search. induction S as [|x S IH]; [done|]. rewrite filter_cons. destruct (decide (in_bucket _ _ _ _ _)) as [Hb|Hb]; cbn [first_match].
  - by rewrite IH.
  - rewrite (decide_False (P := matches h hash name x)); [done|]. intros (o & Ho & <- & _). apply Hb. by exists o.
Qed.

Lemma in_search_without s h n S x i j : in_bucket s h n x i ->
  with_bucket (in_search s h n S) i (without x (in_search s h n S i)) j = in_search s h n (without x S) j.
Proof.
  intros Hx. unfold with_bucket, in_search, without. destruct (decide (j = i)) as [->|Hne]; rewrite !list_filter_filter.
  - apply list_filter_iff. tauto.
  - apply list_filter_iff. intros y. split; [|by intros []]. intros Hy. split; [done|]. intros ->. destruct Hy as (o & Ho & Hj), Hx as (o' & Ho' & Hi). simplify_eq.
Qed.

Lemma spec_step_ok s h0 u st sp op :
  fill_ok s -> Z.of_nat (size h0) < 2 ^ 32 -> table_holds s h0 u st sp -> spec_valid h0 sp op ->
  exists st', ht_step s st op = Some (fst (spec_step s h0 sp op), st') /\ table_holds s h0 u st' (snd (spec_step s h0 sp op)).
Proof.
  intros Hfill Hsz (Hrep & Hc & Hm & Hn & Hch) Hop. destruct st as [t h m], sp as [n l S]. cbn in Hrep, Hc, Hm, Hn, Hch. subst n. unfold table_holds.
  pose proof (rep_table _ _ _ _ Hrep) as (_ & Hseg & Hnd).
  assert (forall l', NoDup l' -> (forall y, y ∈ l' -> is_Some (h !! y)) -> zlen l' < 2 ^ 32) as Hlen.
  { intros l' Hl' Hin. pose proof (length_le_size h l' Hl' Hin). rewrite (same_core_size h0 h Hc) in *. unfold zlen. lia. }
  destruct op as [hash name|x|x]; cbn [ht_step spec_step fst snd spec_valid sp_order] in *.
  - destruct Hop as [Hh Hname]. rewrite (ht_find_chain _ _ _ _ _ _ _ Hrep Hch Hh Hname). cbn [mbind option_bind].
    exists (mkTableState t h m). split; [|done]. by rewrite (first_match_core h0), first_match_filter.
  - destruct Hop as (Hxl & o0 & Ho0 & Hh). destruct (same_core_lookup h0 h x o0 Hc Ho0) as (o & Ho & Hk). assert (ho_hash o = ho_hash o0) as Eh by (unfold core in Hk; congruence).
    assert (zlen (x :: l) < 2 ^ 32) as Hl by (apply Hlen; [by constructor|]; intros y [->|Hy]%elem_of_cons; [by eexists|by eapply dseg_elem]).
    rewrite zlen_cons in Hl. destruct (ht_add_full s t h m u l x o) as (r & t' & h' & m' & -> & Hrep' & Hc' & Hm' & _ & Hr & Hnb & Hch'); try done; [congruence|lia|].
    cbn [mbind option_bind]. exists (mkTableState t' h' m'). split; [done|]. unfold ht_full in Hr. rewrite (rep_count _ _ _ _ Hrep) in Hr. rewrite <- Hr.
    assert (same_core h0 h') as Hc2 by (by eapply same_core_trans).
    specialize (Hch' (in_search s h0 (ht_nbuckets t') (if r then rev l else S))). cbn zeta in Hch'.
    assert (ht_chains s t' h' (x :: l) (in_search s h0 (ht_nbuckets t') (x :: if r then rev l else S))) as Hgoal.
    { eapply ht_chains_ext; [|apply Hch'].
      - intros j. apply in_search_cons. exists o0. by rewrite Eh.
      - destruct r; [intros i; symmetry; by apply in_search_core|by rewrite Hnb]. }
    rewrite Hnb in Hgoal. destruct r; cbn [snd sp_order sp_buckets sp_search ts_table ts_heap ts_memory]; by split_and!.
  - apply list_elem_of_split in Hop as (l1 & l2 & ->). assert (zlen (l1 ++ x :: l2) < 2 ^ 32) as Hl by (apply Hlen; [done|]; intros y Hy; by eapply dseg_elem).
    destruct (ht_remove_full s t h l1 x l2 Hrep Hl) as (t' & h' & -> & Hrep' & Hc' & Hnb & _ & _ & Hch').
    destruct (Hch' _ Hch) as (i & Hx & Hch2). cbn [mbind option_bind]. rewrite (without_mid l1 x l2 Hnd). exists (mkTableState t' h' m). split; [done|].
    cbn [snd sp_order sp_buckets sp_search ts_table ts_heap ts_memory]. split_and!; [done|by eapply same_core_trans|by unfold ht_others in *; rewrite Hnb|done|].
    eapply ht_chains_ext; [|exact Hch2]. intros j. apply in_search_without. by apply (in_bucket_core s h0 h).
Qed.

Lemma spec_run_ok s h0 u ops : forall st sp,
  fill_ok s -> Z.of_nat (size h0) < 2 ^ 32 -> table_holds s h0 u st sp -> spec_all_valid s h0 sp ops ->
  exists st', ht_run s st ops = Some (fst (spec_run s h0 sp ops), st') /\ table_holds s h0 u st' (snd (spec_run s h0 sp ops)).
Proof.
  induction ops as [|op ops IH]; intros st sp Hf Hsz Hmod Hv; cbn [ht_run spec_run]; [by exists st|].
  destruct Hv as [Hop Hv]. destruct (spec_step_ok s h0 u st sp op) as (st1 & -> & Hmod1); [done..|].
  cbn [mbind option_bind]. destruct (spec_step s h0 sp op) as [r sp1]. cbn in Hmod1, Hv |- *.
  destruct (IH st1 sp1) as (st2 & -> & Hmod2); [done..|]. cbn [mbind option_bind].
  destruct (spec_run s h0 sp1 ops) as [rs sp2]. by exists st2.
Qed.

Lemma uint_of_float_range f n : uint_of_float f = Some n -> 0 <= n < 2 ^ 32.
Proof.
  destruct f as [|?| |sg m e]; cbn [uint_of_float]; intros He; simplify_eq; [lia|].
  assert (0 <= if 0 <=? e then Z.shiftl (Zpos m) e else Z.shiftr (Zpos m) (- e)) as Hv
    by (zcase; [by apply Z.shiftl_nonneg|by apply Z.shiftr_nonneg]).
  revert He Hv. generalize (if 0 <=? e then Z.shiftl (Zpos m) e else Z.shiftr (Zpos m) (- e)). intros v He Hv.
  destruct (v =? 0) eqn:E0; zbool; [simplify_eq; lia|]. destruct sg; [done|].
  destruct (v <? 2 ^ 32) eqn:E1; zbool; [simplify_eq; lia|done].
Qed.

Local Strategy 1000 [allocate_buckets get_next_power_of_2 uint_of_float calloc].

Lemma ht_create_ok s n m u t m' h :
  ht_create s n m = Some (t, m') -> 0 <= u < 2 ^ 62 -> m_used_size m = u -> 
  ht_rep s t h [] /\ ht_others t m' u.
Proof.
  intros Hc Hu Hm. unfold ht_create in Hc. destruct (uint_of_float _) as [nb|] eqn:E; [|done].
  cbn [mbind option_bind] in Hc.
  pose proof (uint_of_float_range _ _ E) as Hnb. clear E. set (c0 := if nb <? MIN_NUM_BUCKETS then MIN_NUM_BUCKETS else nb) in Hc.
  assert (1 <= c0 < 2 ^ 32) as Hc0 by (unfold c0, MIN_NUM_BUCKETS; zcase; lia). clearbody c0.
  set (c1 := if get_next_power_of_2 c0 =? 0 then _ else _) in Hc.
  assert (pow2 c1) as Hp1.
  { unfold c1. destruct (decide (c0 <= 2 ^ 31)) as [Hle|Hgt].
    - destruct (get_next_power_of_2_ok c0) as [Hp _]; [lia|]. pose proof (pow2_pos _ Hp). zcase; [lia|done].
    - rewrite get_next_power_of_2_wraps by lia. by exists 31. }
  clearbody c1. pose proof (pow2_pos _ Hp1).
  destruct (calloc_buckets m u c1 (mkHashTable None None c1 0)) as (m1 & He & Hm1); [done..|].
  rewrite He in Hc. injection Hc as <- <-. split.
  - constructor; cbn; try done; [split_and!; [done|done|constructor]| |by intros x ?%elem_of_nil].
    eexists; split; [done|]. apply buckets_rep_empty. lia.
  - done.
Qed.

(** ** Properties *)

(** The default fill factor never overflows the conversion. *)
Lemma default_fill_ok shift : fill_ok (mkStore DEFAULT_FACTOR shift).
Proof.
  intros n (k & Hk & ->). cbn [s_fill_factor].
  assert (forallb (fun k => match uint_of_float (SFmul 24 128 (float_of_uint (2 ^ k)) DEFAULT_FACTOR) with
    | Some _ => true | None => false end) (seqZ 0 32) = true) as Hall by (vm_compute; reflexivity).
  apply (seqZ_forallb _ _ _ Hall) in Hk. clear Hall. destruct (uint_of_float _); [by eexists|discriminate Hk].
Qed.

(** (C15) A hash table does what [table_spec] says, for any sequence of look-ups of valid keys, additions of objects
    that are not in the table, of names that may be there already, and removals of objects that are: through any number
    of reallocations of the buckets every operation runs without a failing assertion or a dangling pointer; every
    look-up returns the first object of that name in the order of search, where the newest object comes first, until
    the table grows, which it does exactly when it is full, and puts the oldest first; enumeration
    visits each object once, the newest first, and the count is their number. As long as nobody adds
    an object whose key is there already, the table is a finite map from (hash code, name) to objects. *)
Theorem hash_table_refines_map s init_capacity m t m' h ops :
  fill_ok s -> 0 <= m_used_size m < 2 ^ 62 -> Z.of_nat (size h) < 2 ^ 32 ->
  ht_create s init_capacity m = Some (t, m') ->
  let sp := mkTableSpec (ht_nbuckets t) [] [] in
  spec_all_valid s h sp ops ->
  exists t'' h'' m'', let '(rs, sp') := spec_run s h sp ops in
    ht_run s (mkTableState t h m') ops = Some (rs, mkTableState t'' h'' m'')
    /\ ht_enumerate t'' h'' collect [] = Some (true, sp_order sp') /\ NoDup (sp_order sp') /\ ht_count t'' = zlen (sp_order sp')
    /\ same_core h h'' /\ m_used_size m'' = m_used_size m + sp_buckets sp' * SIZEOF_POINTER
    /\ (ops_valid h ∅ ops -> rs = fst (map_run h ∅ ops) /\ forall x, x ∈ sp_order sp' <-> exists k, snd (map_run h ∅ ops) !! k = Some x).
Proof.
  intros Hf Hu Hsz Hc sp Hv. destruct (ht_create_ok s init_capacity m _ t m' h Hc Hu eq_refl) as [Hrep Hoth].
  destruct (ht_rep_chains _ _ _ _ Hrep) as (chain & bs & Hbs & Hz & Hch).
  destruct (spec_run_ok s h (m_used_size m) ops (mkTableState t h m') sp Hf Hsz) as ([t2 h2 m2] & Hrun & Hrep2 & Hc2 & Hm2 & Hn2 & _); [|done|].
  { split_and!; try done. exists bs. split_and!; [done|done|]. intros i Hi. destruct (Hch i Hi) as [Hd Hx]. cbn. split; [|intros x; split; [by intros ?%elem_of_nil|by intros [?%elem_of_nil _]]].
    assert (chain i = []) as E; [|rewrite <- E; exact Hd]. apply elem_of_nil_inv. intros x [?%elem_of_nil _]%Hx. done. }
  exists t2, h2, m2. destruct (spec_run s h sp ops) as [rs sp']. cbn [fst snd ts_table ts_heap ts_memory] in *. rewrite (ht_enumerate_ok s t2 h2 (sp_order sp')), visit_collect by done.
  split_and!; try done; [apply (rep_table _ _ _ _ Hrep2)|apply (rep_count _ _ _ _ Hrep2)|rewrite <- Hn2; apply Hm2|].
  intros Hvm. destruct (ht_run_ok s h (m_used_size m) ops (mkTableState t h m') ∅ []) as ([t3 h3 m3] & l & Hrun3 & Hrep3 & Hc3 & _ & HM);
    [done|done| |done|]. { split_and!; try done. intros k x. split; [done|by intros [?%elem_of_nil _]]. }
  rewrite Hrun in Hrun3. injection Hrun3 as -> -> -> ->. split; [done|]. cbn [ts_table ts_heap] in *.
  assert (l = sp_order sp') as ->. { pose proof (ht_enumerate_ok s t3 h3 l collect [] Hrep3) as E. rewrite (ht_enumerate_ok s t3 h3 (sp_order sp') collect [] Hrep2), !visit_collect in E. by injection E. }
  intros x. split; [|by intros (k & Hk); apply HM in Hk as [? _]]. intros Hx. destruct (rep_hashed _ _ _ _ Hrep2 x Hx) as (o & Ho & _).
  exists (ho_hash o, ho_name o). apply HM. split; [done|]. rewrite <- (key_of_core h h3) by done. unfold key_of. by rewrite Ho.
Qed.

Module TableExample.

Definition payload : PayloadFields :=
  mkPayloadFields NoBuffer None None 0 0 0 0 0 0 UA_UNKNOWN 0.
Definition object (hash : Z) (name : bytes) : HashObject :=
  default (mkHashObject None None None None 0 0 [] 0 0 payload)
    (ho_create hash HOF_PAYLOAD name 200 payload).
Definition objs : heap := {[1%positive := object 12 [65]; 2%positive := object 12 [66]; 3%positive := object 76 [67]]}.
Definition memory : Memory := mkMemory 0 0 DOMAIN_SESSION.
Definition store : Store := mkStore DEFAULT_FACTOR 2.

End TableExample.

(** A table of 64 buckets, which grows when it holds 32 objects: of two objects of one name the newer one is found, until 31 others follow. *)
Module GrowthExample.

Definition store : Store := mkStore MIN_FACTOR 0.
Definition objs : heap :=
  <[1%positive := TableExample.object 12 [65]]> (<[2%positive := TableExample.object 12 [65]]>
    (list_to_map ((fun i => (Pos.of_succ_nat (2 + i), TableExample.object (Z.of_nat (100 + i)) [66; Z.of_nat i])) <$> seq 0 31))).
Definition others : list table_op := (fun i => TAdd (Pos.of_succ_nat (2 + i))) <$> seq 0 31.
Definition ops : list table_op :=
  [TAdd 1%positive; TAdd 2%positive; TFind 12 [65]] ++ others ++ [TFind 12 [65]; TRemove 1%positive; TFind 12 [65]].

End GrowthExample.

Lemma hash_table_refines_map_witness :
  exists t m' rs st, ht_create GrowthExample.store 10 TableExample.memory = Some (t, m') /\ ht_nbuckets t = 64
    /\ ht_run GrowthExample.store (mkTableState t GrowthExample.objs m') GrowthExample.ops = Some (rs, st)
    /\ omap id rs = [2%positive; 1%positive; 2%positive] /\ exists l, ht_enumerate (ts_table st) (ts_heap st) collect [] = Some (true, l) /\ length l = 32%nat.
Proof.
  destruct (ht_create GrowthExample.store 10 TableExample.memory) as [[t m']|] eqn:Hc; [|by vm_compute in Hc].
  assert (ht_nbuckets t = 64) as Hn by (vm_compute in Hc; by injection Hc as <- _).
  exists t, m'. assert (fill_ok GrowthExample.store) as Hf.
  { intros n (k & Hk & ->).
    assert (forallb (fun k => match uint_of_float (SFmul 24 128 (float_of_uint (2 ^ k)) MIN_FACTOR) with Some _ => true | None => false end) (seqZ 0 32) = true)
      as Hall by (vm_compute; reflexivity).
    apply (seqZ_forallb _ _ _ Hall) in Hk. clear Hall. cbn [s_fill_factor GrowthExample.store]. destruct (uint_of_float _); [by eexists|discriminate Hk]. }
  destruct (hash_table_refines_map GrowthExample.store 10 TableExample.memory t m' GrowthExample.objs GrowthExample.ops) as (t2 & h2 & m2 & Hrun).
  - exact Hf.
  - vm_compute. split; [discriminate|reflexivity].
  - vm_compute. reflexivity.
  - exact Hc.
  - rewrite Hn. apply (bool_decide_unpack _). vm_compute. exact I.
  - rewrite Hn in Hrun. destruct (spec_run GrowthExample.store GrowthExample.objs (mkTableSpec 64 [] []) GrowthExample.ops) as [rs sp] eqn:E.
    destruct Hrun as (Hrun & He & _). vm_compute in E. injection E as <- <-.
    eexists _, _. split; [reflexivity|]. split; [exact Hn|]. split; [exact Hrun|]. split; [reflexivity|]. eexists. split; [exact He|reflexivity].
Defined.
