(* ===== verification/ObjectStore.v ===== *)
(** * ObjectStore

    [ObjectStore], [PayloadObjectStore] and the disposal policy of [TableLock]
    ([ht_stores.h], [ht_stores.cc]): the choice of a table by hash code, the
    queues of deleted objects and their deferred disposal while readers are
    attached. *)

From S2P Require Import Prelude Protocol Memory Utils Queue MessageQueue DList HashObject HashTable.

Definition MAX_NUM_TABLES_PER_STORE : Z := 4.

(** The parts of a store that disposal concerns; all of them use the memory object of
    the store's domain. [ps_xrefs] is the number of bytes of the external tag
    references of a page object. *)
Record PayloadObjectStore := mkPayloadObjectStore {
  ps_store : Store;
  os_tables : list HashTable;
  pos_queues : list (Queue Pointer);
  ps_heap : heap;
  ps_memory : Memory;
  pos_dispose_if_resized : Z;
  pos_dispose_if_not_resized : Z;
  pos_num_deleted_objects : Z;
  ps_xrefs : loc -> Z;
}.

Definition os_ntables (st : PayloadObjectStore) : Z := zlen (os_tables st).

Definition get_table_index (st : PayloadObjectStore) (hash : Z) : option Z :=
  _ ← c3_assert (negb (hash =? INVALID_HASH_VALUE) && negb (os_ntables st =? 0));
  Some (Z.land (u32 hash) (u32 (os_ntables st - 1))).

Definition ps_with_objects (st : PayloadObjectStore) (h : heap) (m : Memory) : PayloadObjectStore :=
  mkPayloadObjectStore (ps_store st) (os_tables st) (pos_queues st) h m (pos_dispose_if_resized st)
    (pos_dispose_if_not_resized st) (pos_num_deleted_objects st) (ps_xrefs st).
Definition ps_with_table (st : PayloadObjectStore) (i : nat) (t : HashTable) : PayloadObjectStore :=
  mkPayloadObjectStore (ps_store st) (<[i := t]> (os_tables st)) (pos_queues st) (ps_heap st) (ps_memory st)
    (pos_dispose_if_resized st) (pos_dispose_if_not_resized st) (pos_num_deleted_objects st) (ps_xrefs st).
Definition ps_with_queue (st : PayloadObjectStore) (i : nat) (q : Queue Pointer) : PayloadObjectStore :=
  mkPayloadObjectStore (ps_store st) (os_tables st) (<[i := q]> (pos_queues st)) (ps_heap st) (ps_memory st)
    (pos_dispose_if_resized st) (pos_dispose_if_not_resized st) (pos_num_deleted_objects st) (ps_xrefs st).
Definition ps_with_deleted (st : PayloadObjectStore) (n : Z) : PayloadObjectStore :=
  mkPayloadObjectStore (ps_store st) (os_tables st) (pos_queues st) (ps_heap st) (ps_memory st)
    (pos_dispose_if_resized st) (pos_dispose_if_not_resized st) n (ps_xrefs st).

(** A queue operation that allocates from the store's memory object. *)
Definition q_with_memory (q : Queue Pointer) (m : Memory) : Queue Pointer :=
  mkQueue m (q_buffer q) (q_max_capacity q) (q_capacity q) (q_count q) (q_put_index q) (q_get_index q) (q_index_mask q).

Definition put_deleted (st : PayloadObjectStore) (i : nat) (x : loc) : option (bool * PayloadObjectStore) :=
  q ← pos_queues st !! i;
  '(ok, q, _) ← mq_put_always true (q_with_memory q (ps_memory st)) (mkPointer (Zpos x));
  Some (ok, ps_with_queue (ps_with_objects st (ps_heap st) (q_memory q)) i q).

Definition post_unlink_message (st : PayloadObjectStore) (x : loc) : option (bool * PayloadObjectStore) :=
  o ← ps_heap st !! x;
  _ ← c3_assert (bool_decide (pho_opt_useragent (ho_payload o) <> UA_NUMBER_OF_ELEMENTS)
        && flags_are_set o HOF_BEING_DELETED
        && flags_are_clear o (Z.lor (Z.lor HOF_LINKED_BY_OPTIMIZER HOF_LINKED_BY_TM) HOF_DELETED));
  let o := set_flags (reset_user_agent o) HOF_DELETED in
  let st := ps_with_objects st (<[x := o]> (ps_heap st)) (ps_memory st) in
  index ← get_table_index st (ho_hash o);
  '(ok, st) ← put_deleted st (Z.to_nat index) x;
  if (ok : bool) then Some (true, ps_with_deleted st (u32 (pos_num_deleted_objects st + 1))) else Some (false, st).

(** What is asserted of an object taken from a queue of deleted objects. *)
Definition is_deleted (o : HashObject) : bool :=
  flags_are_clear o (Z.lor HOF_LINKED_BY_TM HOF_LINKED_BY_OPTIMIZER)
  && flags_are_set o (Z.lor HOF_BEING_DELETED HOF_DELETED) && negb (is_locked o).

(** One turn of the loop of [dispose_deleted_objects]: [None] at the [break]. *)
Definition dispose_one (st : PayloadObjectStore) (i : nat) : option (option PayloadObjectStore) :=
  q ← pos_queues st !! i;
  '(msg, q) ← mq_try_get q;
  let st := ps_with_queue st i q in
  match msg with
  | Some (mkPointer (Zpos x)) =>
      o ← ps_heap st !! x;
      _ ← c3_assert (is_deleted o);
      if has_readers o then
        '(_, st) ← put_deleted st i x;
        Some (Some st)
      else
        t ← os_tables st !! i;
        '(t, h) ← ht_remove (ps_store st) t (ps_heap st) x;
        '(h, m) ← dispose h x (ps_xrefs st x) 0 (ps_memory st);
        Some (Some (ps_with_deleted (ps_with_objects (ps_with_table st i t) h m)
                      (u32 (pos_num_deleted_objects st - 1))))
  | _ => Some None
  end.

Fixpoint dispose_loop (num : nat) (st : PayloadObjectStore) (i : nat) : option PayloadObjectStore :=
  match num with
  | O => Some st
  | S num => r ← dispose_one st i;
      match r with Some st => dispose_loop num st i | None => Some st end
  end.

(** [if (num > 0) do { ... } while (--num != 0)] *)
Definition dispose_deleted_objects (st : PayloadObjectStore) (index num : Z) : option PayloadObjectStore :=
  _ ← os_tables st !! Z.to_nat index;
  _ ← pos_queues st !! Z.to_nat index;
  dispose_loop (Z.to_nat num) st (Z.to_nat index).

(** [TableLock::process_deleted_objects] of a lock on table [index]. *)
Definition process_deleted_objects (st : PayloadObjectStore) (index : Z) (queue_processed table_resized : bool)
  : option (bool * PayloadObjectStore) :=
  if queue_processed then Some (true, st)
  else
    let num := if table_resized then pos_dispose_if_resized st else pos_dispose_if_not_resized st in
    st ← dispose_deleted_objects st index num;
    Some (true, st).

(** ** Disposal of one object *)

(** What holds of deleted objects beyond what [is_deleted] checks: they are session or
    page objects, not being optimized, with a consistent buffer. *)
Definition buffer_wf (p : PayloadFields) : Prop :=
  match pho_buffer p with
  | NoBuffer => True
  | ZeroLengthBuffer => pho_size p = 0 /\ pho_usize p = 0
  | Buffer _ => 0 < pho_size p <= pho_usize p
  end.

Definition disposable (o : HashObject) (extra : Z) : Prop :=
  is_deleted o = true /\ flags_are_clear o HOF_BEING_OPTIMIZED = true
  /\ (get_type o = HOT_SESSION_OBJECT \/ get_type o = HOT_PAGE_OBJECT)
  /\ buffer_wf (ho_payload o) /\ 0 < ho_length o /\ 0 <= extra.

(** Bytes that disposing of an object gives back. *)
Definition buffer_bytes (p : PayloadFields) : Z :=
  match pho_buffer p with Buffer _ => pho_size p | _ => 0 end.
Definition object_bytes (o : HashObject) (extra : Z) : Z :=
  buffer_bytes (ho_payload o) + (match get_type o with HOT_PAGE_OBJECT => extra | _ => 0 end) + ho_length o.

Lemma disposable_bytes o extra : disposable o extra -> 0 < object_bytes o extra.
Proof.
  intros (_ & _ & Ht & Hb & Hl & He). unfold object_bytes, buffer_bytes. unfold buffer_wf in Hb.
  destruct (pho_buffer _); destruct Ht as [-> | ->]; lia.
Qed.

Lemma flags_clear_lor o a b :
  flags_are_clear o a = true -> flags_are_clear o b = true -> flags_are_clear o (Z.lor a b) = true.
Proof.
  unfold flags_are_clear. rewrite !Z.eqb_eq. intros Ha Hb. by rewrite Z.land_lor_distr_r, Ha, Hb.
Qed.

Lemma flags_set_lor o a b : flags_are_set o (Z.lor a b) = true -> flags_are_set o a = true.
Proof.
  unfold flags_are_set. rewrite !Z.eqb_eq. intros H. apply Z.bits_inj'. intros n Hn.
  apply (f_equal (fun z => Z.testbit z n)) in H. rewrite !Z.land_spec, Z.lor_spec in *.
  destruct (Z.testbit (ho_flags o) n), (Z.testbit a n); cbn in *; congruence.
Qed.

Lemma free_exact m n : 0 < n <= m_used_size m -> m_used_size m < 2 ^ 64 ->
  exists m', free m n = Some m' /\ m_used_size m' = m_used_size m - n.
Proof. intros Hn Hm. rewrite free_ok by done. eexists; split; [done|]. by apply fetch_sub_used; [lia|]. Qed.

Lemma dispose_buffer_ok o m :
  flags_are_set o HOF_BEING_DELETED = true -> has_readers o = false -> buffer_wf (ho_payload o) ->
  buffer_bytes (ho_payload o) <= m_used_size m < 2 ^ 64 ->
  exists n o' m', dispose_buffer o m = Some (n, o', m') /\ ho_length o' = ho_length o
    /\ m_used_size m' = m_used_size m - buffer_bytes (ho_payload o).
Proof.
  intros Hf Hr Hb Hm. unfold dispose_buffer, buffer_bytes, buffer_wf in *. rewrite Hf, Hr.
  destruct (pho_buffer (ho_payload o)) as [| |bs].
  - exists 0, o, m. split_and!; [done|done|lia].
  - destruct Hb as [-> ->]. cbn. eexists _, _, _; split_and!; [done|done|lia].
  - destruct (pho_size (ho_payload o) <=? _) eqn:E; zbool; [|lia]. destruct (0 <? _) eqn:E0; zbool; [|lia].
    cbn [andb negb c3_assert mbind option_bind].
    destruct (free_exact m (pho_size (ho_payload o))) as (m' & -> & Hm'); [lia|lia|].
    cbn. eexists _, _, _; split_and!; [done|done|done].
Qed.

Lemma dispose_ok h x o extra m :
  h !! x = Some o -> disposable o extra -> has_readers o = false ->
  ho_prev o = None /\ ho_next o = None /\ ho_ht_prev o = None /\ ho_ht_next o = None ->
  object_bytes o extra <= m_used_size m < 2 ^ 64 ->
  exists m', dispose h x extra 0 m = Some (delete x h, m')
    /\ m_used_size m' = m_used_size m - object_bytes o extra.
Proof.
  intros Hx (Hd & Ho & Ht & Hb & Hl & He) Hr (Hp & Hn & Hbp & Hbn) Hm. unfold dispose. rewrite Hx.
  cbn [mbind option_bind]. unfold is_deleted in Hd. apply andb_true_iff in Hd as [[Hc Hs]%andb_true_iff Hlk].
  assert (can_dispose o = true) as ->.
  { unfold can_dispose. rewrite Hlk, Hs, Hp, Hn, Hbp, Hbn, flags_clear_lor by done.
    destruct (ho_length o =? 0) eqn:E; zbool; [lia|done]. }
  cbn [c3_assert mbind option_bind]. unfold object_bytes in *.
  assert (0 <= buffer_bytes (ho_payload o)) as Hbb.
  { unfold buffer_bytes, buffer_wf in *. destruct (pho_buffer _); lia. }
  destruct (dispose_buffer_ok o m) as (n & o' & m1 & E1 & Hl1 & Hm1); [by eapply flags_set_lor|done|done| |].
  { destruct Ht as [Ht|Ht]; rewrite Ht in Hm; lia. }
  destruct Ht as [Ht|Ht]; rewrite Ht in *; rewrite E1; cbn [mbind option_bind]; rewrite Hl1.
  - destruct (free_exact m1 (ho_length o)) as (m2 & -> & Hm2); [lia|lia|]. cbn. exists m2. split; [done|lia].
  - assert (exists m2, (if negb (extra =? 0) then free m1 extra else Some m1) = Some m2
      /\ m_used_size m2 = m_used_size m1 - extra) as (m2 & -> & Hm2).
    { destruct (extra =? 0) eqn:E; zbool; cbn [negb]; [exists m1; split; [done|lia]|].
      apply free_exact; lia. }
    cbn [mbind option_bind]. destruct (free_exact m2 (ho_length o)) as (m3 & -> & Hm3); [lia|lia|].
    cbn. exists m3. split; [done|lia].
Qed.

(** ** The queue of deleted objects *)

(** [holds q qs]: the queue holds the objects [qs], whatever else uses its memory. *)
Definition holds (q : Queue Pointer) (qs : list loc) : Prop :=
  exists u, ring u q (map (fun x => mkPointer (Zpos x)) qs).

Lemma holds_memory q m qs : holds q qs -> holds (q_with_memory q m) qs.
Proof.
  intros [u [? ? ? ? ? ? ? ? ?]]. exists (m_used_size m - q_capacity q * msg_size).
  constructor; cbn; try done. lia.
Qed.

Lemma try_get_empty q : holds q [] -> exists q', mq_try_get q = Some (None, q') /\ holds q' [].
Proof. intros [u Hq]. destruct (mq_try_get_ok u q _ Hq) as (q' & -> & Hq'). exists q'. split; [done|]. by exists u. Qed.

(** The message taken, the queue has room to put it back without reallocation. *)
Lemma try_get_next q x qs : holds q (x :: qs) ->
  exists q', mq_try_get q = Some (Some (mkPointer (Zpos x)), q') /\ holds q' qs /\ zlen qs < q_capacity q'.
Proof.
  intros [u Hq]. cbn [map] in Hq. destruct (ring_buffer _ _ _ Hq) as (b & rest & Hb & _).
  pose proof (ring_full _ _ _ Hq) as Hf. pose proof (ring_count _ _ _ Hq) as Hc. rewrite zlen_cons in Hc.
  assert (zlen (map (fun x => mkPointer (Zpos x)) qs) = zlen qs) as Hl by (unfold zlen; by rewrite length_map).
  destruct (q_fetch_ok u q _ _ Hq) as (q' & Hq1 & Hq' & Hcap & _). exists q'. pose proof (zlen_nonneg qs).
  unfold mq_try_get. rewrite Hb. cbn [mbind option_bind]. destruct (q_count q =? 0) eqn:E; zbool; [lia|].
  cbn [negb]. rewrite Hq1. split; [done|]. split; [by exists u|lia].
Qed.

Lemma put_always_room q x qs : holds q qs -> zlen qs < q_capacity q ->
  exists q' o, mq_put_always true q (mkPointer (Zpos x)) = Some (true, q', o)
    /\ q_memory q' = q_memory q /\ holds q' (qs ++ [x]).
Proof.
  intros [u Hq] Hl. destruct (ring_buffer _ _ _ Hq) as (b & rest & Hb & _).
  assert (zlen (map (fun x => mkPointer (Zpos x)) qs) = zlen qs) as Hm by (unfold zlen; by rewrite length_map).
  pose proof (ring_count _ _ _ Hq) as Hc. unfold mq_put_always. rewrite Hb. cbn [mbind option_bind].
  destruct (q_count q =? q_capacity q) eqn:E; zbool; [lia|].
  destruct (q_store_ok u q _ (mkPointer (Zpos x)) Hq) as (q' & o & He & Hq' & _); [lia|].
  rewrite He. cbn [mbind option_bind]. exists q', o. split_and!; [done| |].
  - unfold q_store in He. rewrite Hb in He. cbn [mbind option_bind] in He.
    destruct (slot b (q_put_index q)); [|done]. cbn in He. by simplify_eq.
  - exists u. by rewrite map_app.
Qed.

Lemma ht_rep_delete s t h l x : ht_rep s t h l -> x ∉ l -> ht_rep s t (delete x h) l.
Proof.
  intros Hrep Hx. apply (ht_rep_frame _ _ h); [|done]. intros y Hy. apply lookup_delete_ne. by intros ->.
Qed.

(** ** Disposal of queued objects *)

Definition total (sz : loc -> Z) (l : list loc) : Z := foldr (fun x n => sz x + n) 0 l.

Lemma total_app sz l l' : total sz (l ++ l') = total sz l + total sz l'.
Proof. unfold total. induction l as [|x l IH]; cbn in *; lia. Qed.

(** Table [i] holds the objects [l]; its queue holds [qs], objects of the table that are
    ready to be disposed; [rd] tells which of them have readers and [sz] how many
    bytes they take, all of which the memory object accounts for. *)
Record deleting (rd : loc -> bool) (sz : loc -> Z) (st : PayloadObjectStore) (i : nat) (l qs : list loc) : Prop :=
  mkDeleting {
    del_table : exists t, os_tables st !! i = Some t /\ ht_rep (ps_store st) t (ps_heap st) l;
    del_queue : exists q, pos_queues st !! i = Some q /\ holds q qs;
    del_length : zlen l < 2 ^ 32;
    del_nodup : NoDup qs;
    del_in : forall x, x ∈ qs -> x ∈ l;
    del_object : forall x, x ∈ qs -> exists o, ps_heap st !! x = Some o /\ disposable o (ps_xrefs st x)
      /\ has_readers o = rd x /\ object_bytes o (ps_xrefs st x) = sz x;
    del_memory : total sz qs <= m_used_size (ps_memory st) < 2 ^ 64;
  }.

(** What [find] returns in table [i]. *)
Definition found (st : PayloadObjectStore) (i : nat) (hash : Z) (name : bytes) : option ptr :=
  t ← os_tables st !! i; ht_find (ps_store st) t (ps_heap st) hash name.

(** From [st] to [st'], exactly the objects [ds] have left table [i] and the heap. *)
Record disposed (sz : loc -> Z) (st st' : PayloadObjectStore) (i : nat) (l l' ds : list loc) : Prop := mkDisposed {
  dis_table : forall x, x ∈ l' <-> x ∈ l /\ x ∉ ds;
  dis_gone : forall x, x ∈ ds -> ps_heap st' !! x = None;
  dis_kept : forall x, x ∉ ds -> core <$> ps_heap st' !! x = core <$> ps_heap st !! x;
  dis_memory : m_used_size (ps_memory st') = m_used_size (ps_memory st) - total sz ds;
  dis_count : u32 (pos_num_deleted_objects st') = u32 (pos_num_deleted_objects st - zlen ds);
  dis_others : ps_store st' = ps_store st /\ ps_xrefs st' = ps_xrefs st
    /\ forall j, j <> i -> os_tables st' !! j = os_tables st !! j /\ pos_queues st' !! j = pos_queues st !! j;
  dis_frame : forall y, y ∉ l -> ps_heap st' !! y = ps_heap st !! y;
  dis_found : forall hash name y, found st i hash name = Some (Some y) -> y ∉ ds -> found st' i hash name = Some (Some y);
  dis_fixed : ht_nbuckets <$> os_tables st' !! i = ht_nbuckets <$> os_tables st !! i
    /\ length (os_tables st') = length (os_tables st) /\ length (pos_queues st') = length (pos_queues st)
    /\ pos_dispose_if_resized st' = pos_dispose_if_resized st /\ pos_dispose_if_not_resized st' = pos_dispose_if_not_resized st;
}.

Lemma disposed_none sz st st' i l :
  ps_heap st' = ps_heap st -> ps_memory st' = ps_memory st ->
  pos_num_deleted_objects st' = pos_num_deleted_objects st -> ps_store st' = ps_store st -> ps_xrefs st' = ps_xrefs st ->
  os_tables st' = os_tables st -> length (pos_queues st') = length (pos_queues st) ->
  pos_dispose_if_resized st' = pos_dispose_if_resized st -> pos_dispose_if_not_resized st' = pos_dispose_if_not_resized st ->
  (forall j, j <> i -> pos_queues st' !! j = pos_queues st !! j) ->
  disposed sz st st' i l l [].
Proof.
  intros Hh Hm Hn Hs Hx Ht Hl Hr1 Hr2 Ho. constructor; try done.
  - intros x. split; [intros; split; [done|by apply not_elem_of_nil]|by intros []].
  - by intros x ?%elem_of_nil.
  - intros x _. by rewrite Hh.
  - rewrite Hm. cbn. lia.
  - rewrite Hn. by rewrite Z.sub_0_r.
  - split_and!; [done..|]. intros j Hj. rewrite Ht. auto.
  - intros y _. by rewrite Hh.
  - intros hash name y Hf _. unfold found in *. by rewrite Ht, Hs, Hh.
  - by rewrite Ht.
Qed.

Lemma disposed_trans sz st1 st2 st3 i l1 l2 l3 d1 d2 :
  disposed sz st1 st2 i l1 l2 d1 -> disposed sz st2 st3 i l2 l3 d2 -> disposed sz st1 st3 i l1 l3 (d1 ++ d2).
Proof.
  intros [T1 G1 K1 M1 C1 (S1 & X1 & O1) F1 D1 (N1 & L1 & Q1 & R1 & U1)] [T2 G2 K2 M2 C2 (S2 & X2 & O2) F2 D2 (N2 & L2 & Q2 & R2 & U2)]. constructor.
  - intros x. rewrite T2, T1, not_elem_of_app. tauto.
  - intros x Hx. destruct (decide (x ∈ d2)) as [H2|H2]; [by apply G2|].
    apply elem_of_app in Hx as [Hx|Hx]; [|done]. specialize (K2 x H2). rewrite (G1 x Hx) in K2.
    by destruct (ps_heap st3 !! x).
  - intros x [H1 H2]%not_elem_of_app. by rewrite K2, K1.
  - rewrite M2, M1, total_app. lia.
  - rewrite C2, zlen_app. unfold u32 in *. rewrite <- Zminus_mod_idemp_l, C1, Zminus_mod_idemp_l. f_equal. lia.
  - split_and!; [congruence..|]. intros j Hj. destruct (O1 j Hj), (O2 j Hj). split; congruence.
  - intros y Hy. rewrite F2, F1; [done|done|]. rewrite T1. tauto.
  - intros hash name y Hf [Hy1 Hy2]%not_elem_of_app. auto.
  - split_and!; congruence.
Qed.

Lemma dispose_one_requeues rd sz st i l x qs :
  deleting rd sz st i l (x :: qs) -> rd x = true ->
  exists st', dispose_one st i = Some (Some st') /\ deleting rd sz st' i l (qs ++ [x]) /\ disposed sz st st' i l l [].
Proof.
  intros [(t & Ht & Hrep) (q & Hq & Hh) Hlen Hnd Hin Hobj Hm] Hr. unfold dispose_one. rewrite Hq. cbn [mbind option_bind].
  destruct (try_get_next q x qs Hh) as (q1 & -> & Hh1 & Hroom). cbn [mbind option_bind].
  destruct (Hobj x) as (o & Ho & Hd & Hrd & Hsz); [by left|]. cbn [ps_heap ps_with_queue]. rewrite Ho. cbn [mbind option_bind].
  rewrite (proj1 Hd). cbn [c3_assert mbind option_bind]. rewrite Hrd, Hr. unfold put_deleted.
  pose proof (lookup_lt_Some _ _ _ Hq) as Hi. cbn [pos_queues ps_with_queue ps_memory].
  rewrite list_lookup_insert_eq by done. cbn [mbind option_bind].
  destruct (put_always_room (q_with_memory q1 (ps_memory st)) x qs) as (q2 & o2 & -> & Hm2 & Hh2); [by apply holds_memory|done|].
  cbn [mbind option_bind]. eexists; split; [done|]. rewrite Hm2. split; [|apply disposed_none; try done].
  - constructor; cbn; try done; [by exists t| | | | |].
    + exists q2. split; [|done]. rewrite list_insert_insert_eq. by apply list_lookup_insert_eq.
    + rewrite NoDup_app. apply NoDup_cons in Hnd as [Hx Hnd]. split_and!; [done| |apply NoDup_singleton].
      intros y Hy Hyx%list_elem_of_singleton. by subst y.
    + intros y [Hy|Hy%list_elem_of_singleton]%elem_of_app; apply Hin; [by right|subst; by left].
    + intros y [Hy|Hy%list_elem_of_singleton]%elem_of_app; apply Hobj; [by right|subst; by left].
    + rewrite total_app. unfold total in *. cbn in Hm |- *. lia.
  - cbn. by rewrite !length_insert.
  - intros j Hj. cbn. by rewrite !list_lookup_insert_ne by done.
Qed.

Lemma core_disposable o o' extra : core o' = core o -> disposable o extra -> disposable o' extra.
Proof.
  destruct o, o'. unfold core, disposable, is_deleted, flags_are_clear, flags_are_set, is_locked, get_type. cbn.
  by intros [= -> -> -> -> -> ->].
Qed.

Lemma core_bytes o o' extra : core o' = core o -> object_bytes o' extra = object_bytes o extra.
Proof. destruct o, o'. unfold core, object_bytes, get_type. cbn. by intros [= -> -> -> -> -> ->]. Qed.

Lemma core_readers o o' : core o' = core o -> has_readers o' = has_readers o.
Proof. destruct o, o'. unfold core, has_readers. cbn. by intros [= -> -> -> -> -> ->]. Qed.

Lemma total_nonneg sz l : (forall x, x ∈ l -> 0 <= sz x) -> 0 <= total sz l.
Proof.
  unfold total. induction l as [|x l IH]; intros H; cbn; [lia|]. pose proof (H x ltac:(by left)).
  specialize (IH (fun y Hy => H y ltac:(by right))). lia.
Qed.

Lemma dispose_one_disposes rd sz st i l x qs :
  deleting rd sz st i l (x :: qs) -> rd x = false ->
  exists st' l', dispose_one st i = Some (Some st') /\ deleting rd sz st' i l' qs /\ disposed sz st st' i l l' [x].
Proof.
  intros [(t & Ht & Hrep) (q & Hq & Hh) Hlen Hnd Hin Hobj Hm] Hr. unfold dispose_one. rewrite Hq. cbn [mbind option_bind].
  destruct (try_get_next q x qs Hh) as (q1 & -> & Hh1 & _). cbn [mbind option_bind].
  apply NoDup_cons in Hnd as [Hx Hnd].
  destruct (Hobj x) as (o & Ho & Hd & Hrd & Hsz); [by left|]. cbn [ps_heap ps_with_queue]. rewrite Ho. cbn [mbind option_bind].
  rewrite (proj1 Hd). cbn [c3_assert mbind option_bind]. rewrite Hrd, Hr. cbn [os_tables ps_store ps_with_queue]. rewrite Ht. cbn [mbind option_bind].
  assert (x ∈ l) as Hxl by (apply Hin; by left).
  destruct (ht_remove_ok (ps_store st) t (ps_heap st) l x Hrep) as (t' & h' & l' & Erem & Hrep' & Hc & Hl' & Hz & Hnb & o' & Ho' & Hlinks);
    [done..|]. rewrite Erem. cbn [mbind option_bind].
  assert (core o' = core o) as Hoo.
  { destruct (same_core_lookup _ _ x o Hc Ho) as (o1 & Ho1 & Heq). congruence. }
  assert (0 <= total sz qs) as Hqs.
  { apply total_nonneg. intros y Hy. destruct (Hobj y) as (oy & _ & Hdy & _ & <-); [by right|].
    apply Z.lt_le_incl. by apply disposable_bytes. }
  assert (total sz (x :: qs) = sz x + total sz qs) as Htot by done. pose proof (disposable_bytes _ _ Hd).
  destruct (dispose_ok h' x o' (ps_xrefs st x) (ps_memory st)) as (m' & He & Hm'); try done;
    [by eapply core_disposable|by rewrite (core_readers o o'), Hrd|rewrite (core_bytes o o') by done; lia|].
  cbn [ps_memory ps_xrefs ps_with_queue]. rewrite He. cbn [mbind option_bind].
  pose proof (lookup_lt_Some _ _ _ Hq). pose proof (lookup_lt_Some _ _ _ Ht). rewrite (core_bytes o o') in Hm' by done.
  assert (x ∉ l') as Hxl' by (rewrite Hl'; tauto).
  eexists _, l'. split; [done|]. split; constructor; cbn; try done.
  - exists t'. split; [by apply list_lookup_insert_eq|by apply ht_rep_delete].
  - exists q1. split; [by apply list_lookup_insert_eq|done].
  - lia.
  - intros y Hy. apply Hl'. split; [apply Hin; by right|]. by intros ->.
  - intros y Hy. destruct (Hobj y) as (oy & Hoy & Hdy & Hry & Hsy); [by right|].
    destruct (same_core_lookup _ _ y oy Hc Hoy) as (oy' & Hoy' & Heq). exists oy'.
    rewrite lookup_delete_ne by (by intros ->). split_and!; [done|by eapply core_disposable|by rewrite (core_readers oy)|by rewrite (core_bytes oy)].
  - lia.
  - intros y. by rewrite Hl', list_elem_of_singleton.
  - intros y Hy%list_elem_of_singleton. subst. apply lookup_delete_eq.
  - intros y Hy. rewrite list_elem_of_singleton in Hy. rewrite lookup_delete_ne by congruence. apply Hc.
  - unfold total. cbn. lia.
  - unfold u32. by rewrite Z.mod_mod.
  - split_and!; [done..|]. intros j Hj. by rewrite !list_lookup_insert_ne by done.
  - intros y Hy. rewrite lookup_delete_ne by (intros ->; done). eapply ht_remove_frame; done.
  - intros hash name y Hf Hy. rewrite list_elem_of_singleton in Hy. unfold found in *. rewrite Ht in Hf. cbn [os_tables ps_store ps_heap ps_with_deleted ps_with_objects ps_with_table mbind option_bind] in Hf |- *.
    rewrite list_lookup_insert_eq by done. cbn [mbind option_bind].
    assert (ht_find (ps_store st) t' h' hash name = Some (Some y)) as Hf' by (by apply (ht_remove_find _ t (ps_heap st) l x)).
    destruct (ht_find_args _ _ _ _ _ _ Hf) as [Hh0 Hn0].
    rewrite (ht_find_frame _ _ h' _ l'); [done|done| |done..].
    intros z Hz'. apply lookup_delete_ne. intros ->. by apply Hl' in Hz' as [_ []].
  - split_and!; [|by rewrite length_insert|by rewrite length_insert|done|done]. cbn.
    rewrite list_lookup_insert_eq, Ht by done. cbn. by rewrite Hnb.
Qed.

Lemma dispose_one_empty rd sz st i l : deleting rd sz st i l [] -> dispose_one st i = Some None.
Proof.
  intros [_ (q & Hq & Hh) _ _ _ _ _]. unfold dispose_one. rewrite Hq. cbn [mbind option_bind].
  destruct (try_get_empty q Hh) as (q' & -> & _). done.
Qed.

Lemma filter_take_snoc (P : loc -> Prop) `{forall x, Decision (P x)} n l x :
  ~ P x -> filter P (take n (l ++ [x])) = filter P (take n l).
Proof.
  intros Hx. rewrite take_app, filter_app. destruct (n - length l)%nat; cbn [take]; [by rewrite app_nil_r|].
  rewrite take_nil, filter_cons_False by done. by rewrite app_nil_r.
Qed.

Lemma dispose_loop_ok rd sz i num : forall st l qs,
  deleting rd sz st i l qs ->
  let ds := filter (fun x => rd x = false) (take num qs) in
  exists st' l' qs', dispose_loop num st i = Some st' /\ deleting rd sz st' i l' qs' /\ disposed sz st st' i l l' ds
    /\ Permutation qs (qs' ++ ds)
    /\ ((num <= length qs)%nat -> qs' = drop num qs ++ filter (fun x => rd x = true) (take num qs)).
Proof.
  induction num as [|num IH]; intros st l qs Hdel.
  { exists st, l, qs. cbn. rewrite !app_nil_r, drop_0. split_and!; try done. by apply disposed_none. }
  cbn [dispose_loop]. destruct qs as [|x qs].
  { rewrite (dispose_one_empty _ _ _ _ _ Hdel). exists st, l, []. cbn. split_and!; try done. by apply disposed_none. }
  cbn [take drop length]. destruct (rd x) eqn:Hr.
  - destruct (dispose_one_requeues rd sz st i l x qs) as (st1 & -> & Hdel1 & Hdis1); [done..|]. cbn [mbind option_bind].
    destruct (IH st1 l (qs ++ [x]) Hdel1) as (st2 & l2 & qs2 & -> & Hdel2 & Hdis2 & Hperm & Hqs).
    rewrite filter_take_snoc in Hdis2, Hperm by congruence.
    rewrite filter_cons_False by congruence. rewrite filter_cons_True by done.
    exists st2, l2, qs2. split_and!; try done; [by apply (disposed_trans _ _ _ _ _ _ _ _ _ _ Hdis1 Hdis2)|by rewrite Permutation_cons_append|].
    intros Hle. rewrite Hqs by (rewrite length_app; cbn; lia).
    rewrite drop_app_le, take_app_le by lia. by rewrite <- app_assoc.
  - destruct (dispose_one_disposes rd sz st i l x qs) as (st1 & l1 & -> & Hdel1 & Hdis1); [done..|]. cbn [mbind option_bind].
    destruct (IH st1 l1 qs Hdel1) as (st2 & l2 & qs2 & -> & Hdel2 & Hdis2 & Hperm & Hqs).
    rewrite filter_cons_True by done. rewrite (filter_cons_False (fun x => rd x = true)) by congruence.
    exists st2, l2, qs2. split_and!; try done.
    + apply (disposed_trans _ _ _ _ _ _ _ _ _ _ Hdis1 Hdis2).
    + rewrite <- Permutation_middle. by apply Permutation_skip.
    + intros Hle. apply Hqs. lia.
Qed.

(** ** Properties *)

(** Whether an object has readers, and the bytes that it takes. *)
Definition readers_of (st : PayloadObjectStore) (x : loc) : bool :=
  match ps_heap st !! x with Some o => has_readers o | None => false end.
Definition bytes_of (st : PayloadObjectStore) (x : loc) : Z :=
  match ps_heap st !! x with Some o => object_bytes o (ps_xrefs st x) | None => 0 end.

(** (C16) Deferred disposal is safe and complete: looking at the first [num] objects in the
    queue of a table destroys exactly those that nobody is reading, takes them out
    of the table (which stays a well-formed hash table without them), returns
    exactly their memory and leaves the count of deleted objects right; objects
    with readers stay in memory and in the table and go back to the end of the
    queue; no other object, table or queue changes, and no assertion fails. *)
Theorem deferred_disposal st index num l qs :
  0 <= index -> 0 <= num ->
  deleting (readers_of st) (bytes_of st) st (Z.to_nat index) l qs ->
  let seen := take (Z.to_nat num) qs in
  let ds := filter (fun x => readers_of st x = false) seen in
  exists st' l' qs', dispose_deleted_objects st index num = Some st'
    /\ disposed (bytes_of st) st st' (Z.to_nat index) l l' ds
    /\ deleting (readers_of st) (bytes_of st) st' (Z.to_nat index) l' qs'
    /\ Permutation qs (qs' ++ ds)
    /\ (num <= zlen qs -> qs' = drop (Z.to_nat num) qs ++ filter (fun x => readers_of st x = true) seen).
Proof.
  intros Hi Hn Hdel. destruct (dispose_loop_ok _ _ _ (Z.to_nat num) st l qs Hdel) as (st' & l' & qs' & He & Hdel' & Hdis & Hp & Hq).
  exists st', l', qs'. destruct (del_table _ _ _ _ _ _ Hdel) as (t & Ht & _). destruct (del_queue _ _ _ _ _ _ Hdel) as (q & Hqq & _).
  unfold dispose_deleted_objects. rewrite Ht, Hqq. cbn [mbind option_bind]. split_and!; try done.
  intros Hle. apply Hq. unfold zlen in Hle. lia.
Qed.

Module DisposalExample.

(** A deleted session record of 60 bytes, with a buffer of 3 and some readers. *)
Definition session (hash : Z) (name : bytes) (readers : Z) : HashObject :=
  mkHashObject None None None None hash 60 name (Z.lor HOF_PAYLOAD (Z.lor HOF_BEING_DELETED HOF_DELETED)) 0
    (mkPayloadFields (Buffer [1; 2; 3]) None None 3 5 0 0 readers 0 UA_NUMBER_OF_ELEMENTS 0).
Definition heap0 : heap := {[1%positive := session 12 [65] 1; 2%positive := session 12 [66] 0]}.
Definition store0 : Store := mkStore DEFAULT_FACTOR 0.
Definition memory0 : Memory := mkMemory 0 126 DOMAIN_SESSION.

Lemma session_disposable hash name readers : disposable (session hash name readers) 0.
Proof. repeat split; try done. by left. Qed.

Lemma table0 : exists t h m l, ht_rep store0 t h l /\ same_core heap0 h /\ Permutation l [1; 2]%positive
  /\ ht_others t m 126.
Proof.
  destruct (ht_create store0 64 memory0) as [[t m]|] eqn:Hc; [|by vm_compute in Hc].
  destruct (ht_create_ok store0 64 memory0 126 t m heap0 Hc) as [Hrep Hm]; [lia|done|]. clear Hc.
  destruct (ht_run_ok store0 heap0 126 [TAdd 1%positive; TAdd 2%positive] (mkTableState t heap0 m) ∅ [])
    as ([t' h' m'] & l & _ & Hrep' & Hcore & Hm' & HM).
  - apply default_fill_ok.
  - vm_compute. reflexivity.
  - split_and!; try done. intros k x. split; [done|by intros [?%elem_of_nil _]].
  - split; [|split; [|done]]; cbn [op_valid]; eexists; repeat split; try (vm_compute; reflexivity); done.
  - exists t', h', m', l. split_and!; [done|done| |done]. cbn in Hrep'. apply NoDup_Permutation.
    + apply (rep_table _ _ _ _ Hrep').
    + apply NoDup_cons. split; [by intros ?%list_elem_of_singleton|apply NoDup_singleton].
    + intros x. split.
      * intros Hx. destruct (rep_hashed _ _ _ _ Hrep' x Hx) as (o & Ho & _). specialize (Hcore x). cbn in Hcore.
        rewrite Ho in Hcore. destruct (decide (x = 1%positive)) as [->|H1]; [by left|].
        destruct (decide (x = 2%positive)) as [->|H2]; [by right; left|].
        unfold heap0 in Hcore. rewrite lookup_insert_ne, lookup_singleton_ne in Hcore by done. done.
      * intros Hx. assert (exists k, snd (map_run heap0 ∅ [TAdd 1%positive; TAdd 2%positive]) !! k = Some x) as (k & Hk).
        { apply elem_of_cons in Hx as [->|Hx%list_elem_of_singleton]; [exists (12, [65])|subst; exists (12, [66])]; by vm_compute. }
        by apply HM in Hk as [? _].
Qed.

Lemma queue0 : exists q, holds q [1; 2]%positive.
Proof.
  destruct (mq_create_ok (T := Pointer) 0 (mkMemory 0 0 DOMAIN_SESSION) 4 8) as (q & _ & Hq); [by vm_compute|done|lia|lia|].
  destruct (mq_put_always_ok 0 q [] (mkPointer 1)) as [(ok & q1 & o1 & E1 & H1) H1']; [by vm_compute|done|].
  destruct H1' as (? & ? & E1'); [by vm_compute|]. rewrite E1' in E1. injection E1 as <- -> ->. destruct H1 as [H1 _].
  destruct (mq_put_always_ok 0 q1 ([] ++ [mkPointer 1]) (mkPointer 2)) as [(ok & q2 & o2 & E2 & H2) H2']; [by vm_compute|done|].
  destruct H2' as (? & ? & E2'); [by vm_compute|]. rewrite E2' in E2. injection E2 as <- -> ->. destruct H2 as [H2 _].
  exists q2. by exists 0.
Qed.

End DisposalExample.

(** Of two deleted sessions, the one that is being read survives. *)
Lemma deferred_disposal_witness :
  exists st st' (l qs l' : list loc), deleting (readers_of st) (bytes_of st) st 0 l qs
    /\ dispose_deleted_objects st 0 5 = Some st'
    /\ is_Some (ps_heap st' !! 1%positive) /\ ps_heap st' !! 2%positive = None
    /\ (forall x, x ∈ l' <-> x ∈ l /\ x ∉ [2%positive])
    /\ m_used_size (ps_memory st') = m_used_size (ps_memory st) - 63.
Proof.
  destruct DisposalExample.table0 as (t & h & m & l & Hrep & Hc & Hl & Hm). destruct DisposalExample.queue0 as (q & Hq).
  set (st := mkPayloadObjectStore DisposalExample.store0 [t] [q] h m 2 1 2 (fun _ => 0)).
  assert (forall x o, DisposalExample.heap0 !! x = Some o -> readers_of st x = has_readers o /\ bytes_of st x = object_bytes o 0) as Hro.
  { intros x o Ho. destruct (same_core_lookup _ _ x o Hc Ho) as (o' & Ho' & He). unfold readers_of, bytes_of. cbn [ps_heap st ps_xrefs].
    rewrite Ho'. by rewrite (core_readers o o' He), (core_bytes o o' 0 He). }
  destruct (Hro 1%positive _ eq_refl) as [R1 B1]. destruct (Hro 2%positive _ eq_refl) as [R2 B2].
  assert (deleting (readers_of st) (bytes_of st) st 0 l [1; 2]%positive) as Hdel.
  { constructor; cbn [st os_tables pos_queues ps_heap ps_store ps_xrefs ps_memory].
    - by exists t.
    - by exists q.
    - unfold zlen. by rewrite Hl.
    - apply NoDup_cons. split; [by intros ?%list_elem_of_singleton|apply NoDup_singleton].
    - intros x. by rewrite Hl.
    - intros x Hx. assert (exists hash name n, DisposalExample.heap0 !! x = Some (DisposalExample.session hash name n)) as (hash & name & n & Ho).
      { apply elem_of_cons in Hx as [->|Hx%list_elem_of_singleton]; [exists 12, [65], 1|subst; exists 12, [66], 0]; by vm_compute. }
      destruct (Hro _ _ Ho) as [-> ->]. destruct (same_core_lookup _ _ x _ Hc Ho) as (o' & Ho' & He). exists o'.
      split_and!; [done|eapply core_disposable; [exact He|apply DisposalExample.session_disposable]|by apply core_readers|by apply core_bytes].
    - unfold total. cbn [foldr]. rewrite B1, B2. change (object_bytes _ 0) with 63. destruct Hm as [_ ->].
      pose proof (pow2_pos _ (rep_nbuckets _ _ _ _ Hrep)). unfold SIZEOF_POINTER. lia. }
  destruct (deferred_disposal st 0 5 l [1; 2]%positive) as (st' & l' & qs' & He & [Ht Hg Hk Hmem _ _] & _); [lia|lia|exact Hdel|].
  exists st, st', l, [1; 2]%positive, l'.
  assert (filter (fun x => readers_of st x = false) (take (Z.to_nat 5) [1; 2]%positive) = [2]%positive) as Hf.
  { change (take (Z.to_nat 5) [1; 2]%positive) with [1; 2]%positive. rewrite filter_cons_False, filter_cons_True by (by rewrite ?R1, ?R2). done. }
  rewrite Hf in *. split_and!; [exact Hdel|exact He| |apply Hg; by left|exact Ht|].
  - specialize (Hk 1%positive). destruct (ps_heap st' !! 1%positive); [by eexists|]. exfalso.
    assert (1%positive ∉ [2%positive]) as Hn by (by intros ?%list_elem_of_singleton). specialize (Hk Hn). cbn [st ps_heap] in Hk.
    rewrite (Hc 1%positive) in Hk. done.
  - rewrite Hmem. unfold total. cbn [foldr]. rewrite B2. done.
Defined.
