(* ===== verification/NameTable.v ===== *)
(** * NameTable

    What a store promises to the code that looks objects up by name: the class
    [NameTable] of operations and the class [NameTableLaws] of their laws, stated
    over the list of (name, object) pairs in a store. The instance is an
    [ObjectStore] ([ht_stores.h], [ht_stores.cc]): hash tables chosen by the low bits
    of the hash code. Each table keeps the [HashObject] parts of its own objects. *)

From S2P Require Import Prelude Protocol Memory Utils DList HashObject HashTable.

(** ** Operations and laws *)

Class NameTable (T : Type) := {
  nt_find : T -> bytes -> option ptr;
  nt_add : T -> bytes -> loc -> option T;
  nt_remove : T -> bytes -> loc -> option T;
  nt_enumerate {C : Type} : T -> (C -> loc -> option (bool * C)) -> C -> option (bool * C);
}.

(** Names accepted by the commands: [StringChunk::is_valid_name]. *)
Definition valid_name (n : bytes) : Prop := 0 < zlen n <= USHORT_MAX_VAL.

Class NameTableLaws (T : Type) `{NameTable T} := {
  nt_rep : T -> list (bytes * loc) -> Prop;
  nt_names t l : nt_rep t l -> NoDup l.*1;
  nt_locs t l : nt_rep t l -> NoDup l.*2;
  nt_find_ok t l n : nt_rep t l -> valid_name n ->
    exists p, nt_find t n = Some p /\ forall x, p = Some x <-> (n, x) ∈ l;
  nt_add_ok t l n x : nt_rep t l -> valid_name n -> n ∉ l.*1 -> x ∉ l.*2 -> zlen l + 1 < 2 ^ 32 ->
    exists t' l', nt_add t n x = Some t' /\ nt_rep t' l' /\ Permutation l' ((n, x) :: l);
  nt_remove_ok t l n x : nt_rep t l -> (n, x) ∈ l -> zlen l < 2 ^ 32 ->
    exists t' l', nt_remove t n x = Some t' /\ nt_rep t' l' /\ Permutation l ((n, x) :: l');
  nt_enumerate_ok {C} t l (cb : C -> loc -> option (bool * C)) c :
    nt_rep t l -> nt_enumerate t cb c = visit cb c l.*2;
}.

(** ** Lists of lists *)

Lemma concat_insert {A} (ls : list (list A)) : forall i k k', ls !! i = Some k ->
  Permutation (concat (<[i := k']> ls) ++ k) (concat ls ++ k').
Proof.
  induction ls as [|a ls IH]; intros [|i] k k' Hi; try done; cbn in *.
  - injection Hi as ->. rewrite <- !app_assoc, (Permutation_app_comm (concat ls) k), (Permutation_app_comm (concat ls) k').
    rewrite (app_assoc k' k), (app_assoc k k'). apply Permutation_app_tail, Permutation_app_comm.
  - rewrite <- !app_assoc. apply Permutation_app_head. by apply IH.
Qed.

Lemma concat_insert_cons {A} (ls : list (list A)) i k k' a : ls !! i = Some k -> Permutation k' (a :: k) ->
  Permutation (concat (<[i := k']> ls)) (a :: concat ls).
Proof.
  intros Hi Hp. apply (Permutation_app_inv_r k). rewrite concat_insert, Hp by done.
  by rewrite <- Permutation_middle.
Qed.

Lemma concat_insert_delete {A} (ls : list (list A)) i k k' a : ls !! i = Some k -> Permutation k (a :: k') ->
  Permutation (concat ls) (a :: concat (<[i := k']> ls)).
Proof.
  intros Hi Hp. apply (Permutation_app_inv_r k'). rewrite <- (concat_insert ls i k k' Hi), Hp.
  by rewrite <- Permutation_middle.
Qed.

Lemma elem_of_concat {A} (ls : list (list A)) x : x ∈ concat ls <-> exists i k, ls !! i = Some k /\ x ∈ k.
Proof.
  induction ls as [|a ls IH]; cbn.
  - split; [by intros ?%elem_of_nil|]. by intros (i & k & Hi & _).
  - rewrite elem_of_app, IH. split.
    + intros [Hx|(i & k & Hi & Hx)]; [by exists 0%nat, a|by exists (S i), k].
    + intros ([|i] & k & Hi & Hx); cbn in Hi; [injection Hi as ->; by left|right; by exists i, k].
Qed.

Lemma visit_app {C} (cb : C -> loc -> option (bool * C)) l k : forall c,
  visit cb c (l ++ k) = ('(go_on, c) ← visit cb c l; if (go_on : bool) then visit cb c k else Some (false, c)).
Proof.
  induction l as [|x l IH]; intros c; [done|]. cbn. destruct (cb c x) as [[[] c']|]; cbn; [apply IH|done..].
Qed.

(** ** Object stores *)

Record store_table := mkStoreTable { st_table : HashTable; st_objects : heap }.
Record name_store := mkNameStore {
  ns_store : Store;
  ns_tables : list store_table;
  ns_memory : Memory;
}.

(** [ObjectStore::get_table_index] *)
Definition table_index (ntables hash : Z) : option Z :=
  _ ← c3_assert (negb (hash =? INVALID_HASH_VALUE) && negb (ntables =? 0));
  Some (Z.land (u32 hash) (u32 (ntables - 1))).

(** The fields a tag has no use for. *)
Definition no_payload : PayloadFields := mkPayloadFields NoBuffer None None 0 0 0 0 0 0 UA_UNKNOWN 0.

(** [init_object_store] *)
Fixpoint init_tables (n : nat) (s : Store) (capacity : Z) (m : Memory) : option (list store_table * Memory) :=
  match n with
  | O => Some ([], m)
  | S n =>
      '(t, m) ← ht_create s capacity m;
      '(ts, m) ← init_tables n s capacity m;
      Some (mkStoreTable t ∅ :: ts, m)
  end.

Definition SIZEOF_HASH_TABLE : Z := 32.
Definition init_object_store (s : Store) (ntables capacity : Z) (m : Memory) : option name_store :=
  _ ← c3_assert (0 <? ntables);
  m ← calloc m ntables SIZEOF_HASH_TABLE;
  '(ts, m) ← init_tables (Z.to_nat ntables) s capacity m;
  Some (mkNameStore s ts m).

Fixpoint enumerate_tables {C : Type} (ts : list store_table) (cb : C -> loc -> option (bool * C)) (ctx : C)
  : option (bool * C) :=
  match ts with
  | [] => Some (true, ctx)
  | st :: ts =>
      '(go_on, ctx) ← ht_enumerate (st_table st) (st_objects st) cb ctx;
      if (go_on : bool) then enumerate_tables ts cb ctx else Some (false, ctx)
  end.

Section Store.

(** [table_hasher]: one of several third-party hash functions. *)
Context (hash : bytes -> Z) (sizeof : Z).

Definition ns_table (s : name_store) (h : Z) : option (nat * store_table) :=
  i ← table_index (zlen (ns_tables s)) h;
  _ ← c3_assert (i <? zlen (ns_tables s));
  st ← ns_tables s !! Z.to_nat i;
  Some (Z.to_nat i, st).

Definition ns_with_table (s : name_store) (i : nat) (st : store_table) (m : Memory) : name_store :=
  mkNameStore (ns_store s) (<[i := st]> (ns_tables s)) m.

Definition ns_find (s : name_store) (n : bytes) : option ptr :=
  '(_, st) ← ns_table s (hash n);
  ht_find (ns_store s) (st_table st) (st_objects st) (hash n) n.

(** An object of [sizeof + nlen] bytes is constructed at [x] and added. *)
Definition ns_add (s : name_store) (n : bytes) (x : loc) : option name_store :=
  o ← ho_create (hash n) HOF_FPC n (sizeof + zlen n) no_payload;
  '(i, st) ← ns_table s (hash n);
  '(_, t, h, m) ← ht_add (ns_store s) (st_table st) (<[x := o]> (st_objects st)) (ns_memory s) x;
  Some (ns_with_table s i (mkStoreTable t h) m).

(** The object [x] of name [n] is removed and freed. *)
Definition ns_remove (s : name_store) (n : bytes) (x : loc) : option name_store :=
  '(i, st) ← ns_table s (hash n);
  '(t, h) ← ht_remove (ns_store s) (st_table st) (st_objects st) x;
  Some (ns_with_table s i (mkStoreTable t (delete x h)) (ns_memory s)).

Definition ns_enumerate {C : Type} (s : name_store) (cb : C -> loc -> option (bool * C)) (ctx : C)
  : option (bool * C) := enumerate_tables (ns_tables s) cb ctx.

#[export] Instance StoreNames : NameTable name_store := {
  nt_find := ns_find;
  nt_add := ns_add;
  nt_remove := ns_remove;
  nt_enumerate := @ns_enumerate;
}.

(** ** Laws *)

(** What the code relies on: names get valid hash codes. *)
Hypothesis hash_valid : forall n, valid_name n -> hash n <> INVALID_HASH_VALUE.
Hypothesis sizeof_ok : SIZEOF_HASH_OBJECT < sizeof.

(** The objects of one table: those whose names hash to it. *)
Record table_holds (s : Store) (n : Z) (i : nat) (st : store_table) (l : list (bytes * loc)) : Prop := {
  th_rep : ht_rep s (st_table st) (st_objects st) l.*2;
  th_objects x : is_Some (st_objects st !! x) <-> x ∈ l.*2;
  th_names : NoDup l.*1;
  th_object nm x : (nm, x) ∈ l -> valid_name nm /\ table_index n (hash nm) = Some (Z.of_nat i)
    /\ exists o, st_objects st !! x = Some o /\ ho_hash o = hash nm /\ ho_name o = nm;
}.

Definition buckets_bytes (ts : list store_table) : Z :=
  foldr (fun st z => ht_nbuckets (st_table st) * SIZEOF_POINTER + z) 0 ts.

Record ns_rep (s : name_store) (l : list (bytes * loc)) : Prop := {
  ns_pow2 : pow2 (zlen (ns_tables s)) /\ zlen (ns_tables s) <= 4;
  ns_fill : fill_ok (ns_store s);
  ns_bytes : exists u, 0 <= u < 2 ^ 61 /\ m_used_size (ns_memory s) = u + buckets_bytes (ns_tables s);
  ns_lists : exists ls, length ls = length (ns_tables s) /\ l = concat ls /\ NoDup l.*2
    /\ forall i st k, ns_tables s !! i = Some st -> ls !! i = Some k ->
         table_holds (ns_store s) (zlen (ns_tables s)) i st k;
}.

(** *** The table of a name *)

Lemma table_index_ok n h : pow2 n -> n <= 4 -> h <> INVALID_HASH_VALUE ->
  exists i, table_index n h = Some (Z.of_nat i) /\ Z.of_nat i < n.
Proof.
  intros Hp Hn Hh. unfold table_index. pose proof (pow2_pos _ Hp).
  destruct (h =? INVALID_HASH_VALUE) eqn:E; zbool; [done|]. destruct (n =? 0) eqn:E'; zbool; [lia|]. cbn.
  rewrite (u32_small (n - 1)) by (unfold is_u32; lia). rewrite pow2_mask by done.
  pose proof (Z.mod_pos_bound (u32 h) n ltac:(lia)). exists (Z.to_nat (u32 h mod n)).
  rewrite Z2Nat.id by lia. split; [done|lia].
Qed.

Lemma ns_table_ok s ls h :
  pow2 (zlen (ns_tables s)) -> zlen (ns_tables s) <= 4 -> length ls = length (ns_tables s) ->
  h <> INVALID_HASH_VALUE ->
  exists i st (k : list (bytes * loc)), ns_table s h = Some (i, st) /\ ns_tables s !! i = Some st /\ ls !! i = Some k
    /\ table_index (zlen (ns_tables s)) h = Some (Z.of_nat i).
Proof.
  intros Hp Hn Hl Hh. destruct (table_index_ok _ h Hp Hn Hh) as (i & Hi & Hlt).
  assert (i < length (ns_tables s))%nat as Hlt' by (unfold zlen in *; lia).
  destruct (lookup_lt_is_Some_2 _ _ Hlt') as [st Hst]. destruct (lookup_lt_is_Some_2 ls i) as [k Hk]; [lia|].
  exists i, st, k. unfold ns_table. rewrite Hi. cbn. destruct (_ <? _) eqn:E; zbool; [|lia]. cbn.
  rewrite Nat2Z.id, Hst. done.
Qed.

Section Rep.
Context (s : name_store) (ls : list (list (bytes * loc))).
Hypothesis Hp : pow2 (zlen (ns_tables s)).
Hypothesis Hlen : length ls = length (ns_tables s).
Hypothesis Hholds : forall i st k, ns_tables s !! i = Some st -> ls !! i = Some k ->
  table_holds (ns_store s) (zlen (ns_tables s)) i st k.

Lemma table_of_list i k : ls !! i = Some k -> exists st, ns_tables s !! i = Some st
  /\ table_holds (ns_store s) (zlen (ns_tables s)) i st k.
Proof.
  intros Hk. destruct (lookup_lt_is_Some_2 (ns_tables s) i) as [st Hst].
  { rewrite <- Hlen. by eapply lookup_lt_Some. }
  exists st. split; [done|]. by apply Hholds.
Qed.

(** A name can only be in the table its hash code chooses. *)
Lemma name_in_table n x i k : ls !! i = Some k -> table_index (zlen (ns_tables s)) (hash n) = Some (Z.of_nat i) ->
  (n, x) ∈ concat ls <-> (n, x) ∈ k.
Proof.
  intros Hk Hi. rewrite elem_of_concat. split; [|by exists i, k].
  intros (j & k' & Hj & Hx). destruct (table_of_list j k' Hj) as (st & _ & Hh).
  destruct (th_object _ _ _ _ _ Hh n x Hx) as (_ & Hj' & _). rewrite Hi in Hj'. injection Hj' as Hj'.
  apply Nat2Z.inj in Hj' as ->. congruence.
Qed.

Lemma names_nodup : NoDup (concat ls).*1.
Proof.
  assert (forall m i, (forall j k, m !! j = Some k -> ls !! (i + j)%nat = Some k) -> NoDup (concat m).*1) as Hgen.
  { induction m as [|a m IH]; intros i Hm; [constructor|]. cbn. rewrite fmap_app. apply NoDup_app.
    destruct (table_of_list i a) as (st & _ & Ha); [rewrite <- (Hm 0%nat a eq_refl); by rewrite Nat.add_0_r|].
    split_and!; [apply (th_names _ _ _ _ _ Ha)| |].
    - intros n Hn Hn'. apply list_elem_of_fmap in Hn as ([n1 x] & -> & Hx), Hn' as ([n2 y] & Heq & Hy). cbn in Heq. subst n2.
      apply elem_of_concat in Hy as (j & k & Hj & Hy). destruct (table_of_list (i + S j) k) as (st' & _ & Hk); [by apply Hm|].
      destruct (th_object _ _ _ _ _ Ha n1 x Hx) as (_ & E1 & _), (th_object _ _ _ _ _ Hk n1 y Hy) as (_ & E2 & _).
      rewrite E1 in E2. injection E2 as E2. lia.
    - apply (IH (S i)). intros j k Hj. specialize (Hm (S j) k Hj). by rewrite <- Nat.add_succ_comm in Hm. }
  by apply (Hgen ls 0%nat).
Qed.

End Rep.

(** *** Operations *)

Lemma ns_find_ok s l n : ns_rep s l -> valid_name n ->
  exists p, ns_find s n = Some p /\ forall x, p = Some x <-> (n, x) ∈ l.
Proof.
  intros [[Hp Hle] _ _ (ls & Hlen & -> & _ & Hh)] Hn. pose proof (hash_valid n Hn) as Hv.
  destruct (ns_table_ok s ls (hash n) Hp Hle Hlen Hv) as (i & st & k & Ht & Hst & Hk & Hi).
  pose proof (Hh i st k Hst Hk) as Hhold. unfold ns_find. rewrite Ht. cbn [mbind option_bind].
  destruct (ht_find_ok _ _ _ _ (hash n) n (th_rep _ _ _ _ _ Hhold) Hv) as (r & -> & Hr).
  { intros ->. unfold valid_name, zlen in Hn. cbn in Hn. lia. }
  exists r. split; [done|]. intros x. rewrite (name_in_table s ls Hlen Hh n x i k Hk Hi). split.
  - intros ->. destruct Hr as [Hx (o & Ho & _ & Hnm)]. apply list_elem_of_fmap in Hx as ([m y] & -> & Hy).
    destruct (th_object _ _ _ _ _ Hhold m y Hy) as (_ & _ & o' & Ho' & _ & Hm). cbn in Ho. by simplify_eq.
  - intros Hx. destruct (th_object _ _ _ _ _ Hhold n x Hx) as (_ & _ & o & Ho & Hho & Hno).
    destruct r as [y|].
    + destruct Hr as [Hy (o' & Ho' & _ & Hnm)]. apply list_elem_of_fmap in Hy as ([m z] & -> & Hy).
      destruct (th_object _ _ _ _ _ Hhold m z Hy) as (_ & _ & o2 & Ho2 & _ & Hm2). cbn in *. simplify_eq.
      f_equal. pose proof (th_names _ _ _ _ _ Hhold) as Hnd.
      apply list_elem_of_lookup in Hx as (a & Ha), Hy as (b & Hb).
      assert (a = b) as <-; [|by simplify_eq].
      eapply NoDup_lookup; [exact Hnd| |]; rewrite list_lookup_fmap; [by rewrite Ha|by rewrite Hb].
    + exfalso. apply (Hr x); [apply list_elem_of_fmap; by exists (n, x)|]. by exists o.
Qed.

#[local] Arguments buckets_bytes : simpl never.

Lemma buckets_bytes_cons st ts :
  buckets_bytes (st :: ts) = ht_nbuckets (st_table st) * SIZEOF_POINTER + buckets_bytes ts.
Proof. done. Qed.

Lemma buckets_bytes_insert ts : forall i st st', ts !! i = Some st ->
  buckets_bytes (<[i := st']> ts)
  = buckets_bytes ts - ht_nbuckets (st_table st) * SIZEOF_POINTER + ht_nbuckets (st_table st') * SIZEOF_POINTER.
Proof.
  induction ts as [|a ts IH]; intros [|i] st st' Hi; try done; cbn in *; rewrite !buckets_bytes_cons;
    [injection Hi as ->; lia|]. etransitivity; [exact (f_equal (Z.add _) (IH i st st' Hi))|lia].
Qed.

Lemma buckets_bytes_range ts :
  (forall i st, ts !! i = Some st -> pow2 (ht_nbuckets (st_table st))) -> 0 <= buckets_bytes ts <= zlen ts * 2 ^ 35.
Proof.
  induction ts as [|a ts IH]; intros Hp; [done|]. rewrite buckets_bytes_cons, zlen_cons.
  pose proof (pow2_pos _ (Hp 0%nat a eq_refl)). unfold SIZEOF_POINTER.
  specialize (IH (fun i => Hp (S i))). lia.
Qed.

Lemma buckets_bytes_part ts :
  (forall i st, ts !! i = Some st -> pow2 (ht_nbuckets (st_table st))) ->
  forall i st, ts !! i = Some st -> ht_nbuckets (st_table st) * SIZEOF_POINTER <= buckets_bytes ts.
Proof.
  induction ts as [|a ts IH]; intros Hp [|i] st Hi; try done; rewrite buckets_bytes_cons; cbn in Hi.
  - injection Hi as ->. pose proof (buckets_bytes_range ts (fun i => Hp (S i))). lia.
  - pose proof (pow2_pos _ (Hp 0%nat a eq_refl)). specialize (IH (fun i => Hp (S i)) i st Hi).
    unfold SIZEOF_POINTER in *. lia.
Qed.

Lemma ns_others s i st : zlen (ns_tables s) <= 4 -> (exists u, 0 <= u < 2 ^ 61
    /\ m_used_size (ns_memory s) = u + buckets_bytes (ns_tables s)) ->
  (forall i st, ns_tables s !! i = Some st -> pow2 (ht_nbuckets (st_table st))) -> ns_tables s !! i = Some st ->
  exists u, ht_others (st_table st) (ns_memory s) u /\ forall st' m', ht_others (st_table st') m' u ->
    exists v, 0 <= v < 2 ^ 61 /\ m_used_size m' = v + buckets_bytes (<[i := st']> (ns_tables s)).
Proof.
  intros Hle (u & Hu & Hm) Hp Hst. pose proof (buckets_bytes_range _ Hp) as Hb.
  exists (u + buckets_bytes (ns_tables s) - ht_nbuckets (st_table st) * SIZEOF_POINTER).
  pose proof (buckets_bytes_part _ Hp i st Hst) as Hz.
  split.
  - unfold ht_others. split; [|lia]. unfold SIZEOF_POINTER in *. pose proof (pow2_pos _ (Hp i st Hst)). lia.
  - intros st' m' [_ Hm']. exists u. split; [done|]. rewrite (buckets_bytes_insert _ i st st' Hst). lia.
Qed.

(** Replacing one table and its list. *)
Lemma ns_rep_insert s ls i st' k' m' :
  pow2 (zlen (ns_tables s)) -> zlen (ns_tables s) <= 4 -> fill_ok (ns_store s) -> length ls = length (ns_tables s) ->
  (forall j st k, ns_tables s !! j = Some st -> ls !! j = Some k ->
    table_holds (ns_store s) (zlen (ns_tables s)) j st k) ->
  table_holds (ns_store s) (zlen (ns_tables s)) i st' k' -> NoDup (concat (<[i := k']> ls)).*2 ->
  (exists u, 0 <= u < 2 ^ 61 /\ m_used_size m' = u + buckets_bytes (<[i := st']> (ns_tables s))) ->
  ns_rep (ns_with_table s i st' m') (concat (<[i := k']> ls)).
Proof.
  intros Hp Hle Hf Hlen Hh Hi Hnd Hm.
  assert (zlen (<[i := st']> (ns_tables s)) = zlen (ns_tables s)) as Hz by (unfold zlen; by rewrite length_insert).
  constructor; cbn; rewrite ?Hz; [done|done|done|]. exists (<[i := k']> ls).
  split; [by rewrite !length_insert|]. split; [done|]. split; [done|]. intros j st k Hst Hk.
  destruct (decide (i = j)) as [<-|Hne].
  - rewrite list_lookup_insert_eq in Hst by (rewrite <- (length_insert _ i st'); by eapply lookup_lt_Some).
    rewrite list_lookup_insert_eq in Hk by (rewrite <- (length_insert _ i k'); by eapply lookup_lt_Some). by simplify_eq.
  - rewrite list_lookup_insert_ne in Hst by done. rewrite list_lookup_insert_ne in Hk by done. by apply Hh.
Qed.

Lemma ns_add_ok s l n x : ns_rep s l -> valid_name n -> n ∉ l.*1 -> x ∉ l.*2 -> zlen l + 1 < 2 ^ 32 ->
  exists s' l', ns_add s n x = Some s' /\ ns_rep s' l' /\ Permutation l' ((n, x) :: l).
Proof.
  intros [[Hp Hle] Hf Hm (ls & Hlen & -> & Hnd & Hh)] Hn Hnn Hxn Hz. pose proof (hash_valid n Hn) as Hv.
  destruct (ns_table_ok s ls (hash n) Hp Hle Hlen Hv) as (i & st & k & Ht & Hst & Hk & Hi).
  pose proof (Hh i st k Hst Hk) as Hhold.
  assert (forall y, y ∈ k -> y ∈ concat ls) as Hsub by (intros y Hy; apply elem_of_concat; by exists i, k).
  assert (x ∉ k.*2) as Hxk.
  { intros (y & -> & Hy)%list_elem_of_fmap. apply Hxn, list_elem_of_fmap. exists y. auto. }
  assert (n ∉ k.*1) as Hnk.
  { intros (y & -> & Hy)%list_elem_of_fmap. apply Hnn, list_elem_of_fmap. exists y. auto. }
  unfold ns_add, ho_create. unfold valid_name in Hn.
  destruct (_ <? sizeof + zlen n) eqn:E1; zbool; [|lia]. destruct (zlen n =? 0) eqn:E2; zbool; [lia|].
  destruct (hash n =? _) eqn:E3; zbool; [done|]. cbn [negb andb c3_assert mbind option_bind HOF_FPC Z.eqb].
  rewrite Ht. cbn [mbind option_bind]. set (o := mkHashObject _ _ _ _ _ _ _ _ _ _).
  assert (forall y, y ∈ k.*2 -> <[x := o]> (st_objects st) !! y = st_objects st !! y) as Hfr
    by (intros y Hy; apply lookup_insert_ne; by intros ->).
  destruct (ns_others s i st Hle Hm) as (u & Hu & Hu'); [|done|].
  { intros j st0 Hj. destruct (lookup_lt_is_Some_2 ls j) as [k0 Hk0]; [rewrite Hlen; by eapply lookup_lt_Some|].
    apply (rep_nbuckets _ _ _ _ (th_rep _ _ _ _ _ (Hh j st0 k0 Hj Hk0))). }
  destruct (ht_add_ok (ns_store s) (st_table st) (<[x := o]> (st_objects st)) (ns_memory s) u k.*2 x o)
    as (r & t' & h' & m' & -> & Hrep' & Hcore & Hoth); [|done|done|by rewrite lookup_insert_eq|done|done| |].
  { eapply ht_rep_frame; [|apply (th_rep _ _ _ _ _ Hhold)]. done. }
  { assert (zlen k <= zlen (concat ls)); [|unfold zlen in *; rewrite length_fmap; lia].
    rewrite <- (take_drop_middle ls i k Hk), concat_app. cbn. rewrite !zlen_app.
    pose proof (zlen_nonneg (concat (take i ls))). pose proof (zlen_nonneg (concat (drop (S i) ls))). lia. }
  cbn [mbind option_bind]. eexists _, (concat (<[i := (n, x) :: k]> ls)). split; [done|].
  assert (Permutation (concat (<[i := (n, x) :: k]> ls)) ((n, x) :: concat ls)) as Hperm
    by (by eapply concat_insert_cons).
  split; [|done]. apply ns_rep_insert; try done.
  - constructor; cbn [st_table st_objects fmap list_fmap fst snd]; [done| | |].
    + intros y. rewrite <- elem_of_dom.
      assert (y ∈ dom h' <-> y ∈ dom (<[x := o]> (st_objects st))) as ->.
      { rewrite !elem_of_dom. specialize (Hcore y). destruct (h' !! y), (<[x := o]> (st_objects st) !! y); try done;
        split; try (intros [? ?]; done); by eexists. }
      rewrite dom_insert, elem_of_union, elem_of_singleton, elem_of_cons, elem_of_dom.
      rewrite (th_objects _ _ _ _ _ Hhold). done.
    + constructor; [done|apply (th_names _ _ _ _ _ Hhold)].
    + assert (forall y o1, <[x := o]> (st_objects st) !! y = Some o1 ->
        exists o2, h' !! y = Some o2 /\ ho_hash o2 = ho_hash o1 /\ ho_name o2 = ho_name o1) as Hsame.
      { intros y o1 Ho1. destruct (same_core_lookup _ _ y o1 Hcore Ho1) as (o2 & Ho2 & Hc2). exists o2.
        unfold core in Hc2. by simplify_eq. }
      intros nm y [Heq|Hy]%elem_of_cons.
      * simplify_eq. split; [done|]. split; [done|]. by destruct (Hsame x o) as (o2 & ? & ? & ?);
          [by rewrite lookup_insert_eq|exists o2].
      * destruct (th_object _ _ _ _ _ Hhold nm y Hy) as (Hvn & Hti & o1 & Ho1 & Hh1 & Hn1). split; [done|]. split; [done|].
        destruct (Hsame y o1) as (o2 & ? & ? & ?); [|exists o2; split_and!; congruence].
        rewrite Hfr; [done|]. apply list_elem_of_fmap. by exists (nm, y).
  - rewrite Hperm. cbn. by constructor.
  - by apply Hu'.
Qed.

Lemma ns_remove_ok s l n x : ns_rep s l -> (n, x) ∈ l -> zlen l < 2 ^ 32 ->
  exists s' l', ns_remove s n x = Some s' /\ ns_rep s' l' /\ Permutation l ((n, x) :: l').
Proof.
  intros [[Hp Hle] Hf Hm (ls & Hlen & -> & Hnd & Hh)] Hx Hz.
  pose proof Hx as (j & k0 & Hj & Hxk0)%elem_of_concat. destruct (table_of_list s ls Hlen Hh j k0 Hj) as (st0 & _ & Hh0).
  destruct (th_object _ _ _ _ _ Hh0 n x Hxk0) as (Hn & _ & _). clear j k0 Hj Hxk0 st0 Hh0.
  pose proof (hash_valid n Hn) as Hv.
  destruct (ns_table_ok s ls (hash n) Hp Hle Hlen Hv) as (i & st & k & Ht & Hst & Hk & Hi).
  pose proof (Hh i st k Hst Hk) as Hhold. apply (name_in_table s ls Hlen Hh n x i k Hk Hi) in Hx.
  assert (x ∈ k.*2) as Hx2 by (apply list_elem_of_fmap; by exists (n, x)).
  assert (zlen k <= zlen (concat ls)) as Hzk.
  { rewrite <- (take_drop_middle ls i k Hk), concat_app. cbn. rewrite !zlen_app.
    pose proof (zlen_nonneg (concat (take i ls))). pose proof (zlen_nonneg (concat (drop (S i) ls))). lia. }
  unfold ns_remove. rewrite Ht. cbn [mbind option_bind].
  apply list_elem_of_split in Hx2 as (l1 & l2 & Hk2). pose proof (th_rep _ _ _ _ _ Hhold) as Hrep. rewrite Hk2 in Hrep.
  destruct (ht_remove_at _ _ _ l1 x l2 Hrep) as (t' & h' & -> & Hrep' & Hcore & Hnb & _);
    [rewrite <- Hk2; unfold zlen in *; rewrite length_fmap; lia|]. cbn [mbind option_bind].
  apply fmap_app_inv in Hk2 as (k1 & k2 & E1 & E2 & ->). symmetry in E2.
  apply fmap_cons_inv in E2 as ([n' y] & k3 & E3 & -> & ->). cbn in E3. subst y l1.
  assert (n' = n) as ->.
  { destruct (th_object _ _ _ _ _ Hhold n x Hx) as (_ & _ & o & Ho & _ & <-).
    destruct (th_object _ _ _ _ _ Hhold n' x) as (_ & _ & o' & Ho' & _ & <-); [|congruence].
    apply elem_of_app. right. left. }
  eexists _, (concat (<[i := k1 ++ k3]> ls)). split; [done|].
  assert (Permutation (concat ls) ((n, x) :: concat (<[i := k1 ++ k3]> ls))) as Hperm.
  { eapply concat_insert_delete; [done|]. by rewrite <- Permutation_middle. }
  split; [|done]. rewrite Hperm in Hnd. cbn in Hnd. apply NoDup_cons in Hnd as [Hxn Hnd].
  assert (x ∉ (k1 ++ k3).*2) as Hx13.
  { intros (y & -> & Hy)%list_elem_of_fmap. apply Hxn, list_elem_of_fmap. exists y. split; [done|].
    apply elem_of_concat. exists i, (k1 ++ k3). split; [|done]. apply list_lookup_insert_eq. by eapply lookup_lt_Some. }
  apply ns_rep_insert; try done.
  - rewrite fmap_app in Hx13. constructor; cbn [st_table st_objects]; rewrite ?fmap_app.
    + eapply ht_rep_frame; [|done]. intros y Hy. apply lookup_delete_ne. by intros ->.
    + intros y. pose proof (th_objects _ _ _ _ _ Hhold y) as Hy. rewrite fmap_app in Hy. cbn in Hy.
      rewrite elem_of_app, elem_of_cons in Hy. rewrite elem_of_app in Hx13 |- *. destruct (decide (x = y)) as [<-|Hne].
      * rewrite lookup_delete_eq. split; [by intros [? ?]|tauto].
      * rewrite lookup_delete_ne by done. specialize (Hcore y).
        destruct (h' !! y), (st_objects st !! y); try done; split; intros Hs; try done.
        -- destruct Hy as [Hy _]. destruct Hy as [?|[?|?]]; [by eexists|tauto|congruence|tauto].
        -- exfalso. destruct Hy as [_ Hy]. destruct Hy as [? ?]; [tauto|done..].
    + pose proof (th_names _ _ _ _ _ Hhold) as Hnm. rewrite fmap_app in Hnm. cbn in Hnm.
      rewrite <- fmap_app. rewrite <- Permutation_middle in Hnm. apply NoDup_cons in Hnm as [_ Hnm].
      by rewrite <- fmap_app in Hnm.
    + intros nm y Hy. destruct (th_object _ _ _ _ _ Hhold nm y) as (Hvn & Hti & o1 & Ho1 & Hh1 & Hn1).
      { apply elem_of_app in Hy as [Hy|Hy]; apply elem_of_app; [by left|right; by right]. }
      split; [done|]. split; [done|]. destruct (same_core_lookup _ _ y o1 Hcore Ho1) as (o2 & Ho2 & Hc2).
      exists o2. unfold core in Hc2. split; [|split; congruence]. rewrite lookup_delete_ne; [done|].
      intros ->. rewrite <- fmap_app in Hx13. apply Hx13, list_elem_of_fmap. by exists (nm, y).
  - destruct Hm as (u & Hu & Hm). exists u. split; [done|]. rewrite (buckets_bytes_insert _ i st _ Hst).
    cbn [st_table]. rewrite Hnb. lia.
Qed.

Lemma ns_enumerate_ok {C} s l (cb : C -> loc -> option (bool * C)) c :
  ns_rep s l -> ns_enumerate s cb c = visit cb c l.*2.
Proof.
  intros [_ _ _ (ls & Hlen & -> & _ & Hh)]. unfold ns_enumerate.
  assert (forall ts m i c, length m = length ts ->
    (forall j st k, ts !! j = Some st -> m !! j = Some k -> exists n, table_holds (ns_store s) n (i + j) st k) ->
    enumerate_tables ts cb c = visit cb c (concat m).*2) as Hgen.
  { clear -cb. induction ts as [|st ts IH]; intros [|k m] i c Hl Hm; try done. cbn.
    destruct (Hm 0%nat st k eq_refl eq_refl) as (n & Hk).
    rewrite (ht_enumerate_ok _ _ _ _ cb c (th_rep _ _ _ _ _ Hk)), fmap_app, visit_app.
    destruct (visit cb c k.*2) as [[[] c']|]; cbn; [|done..]. apply (IH m (S i)); [by injection Hl|].
    intros j st' k' Hst' Hk'. destruct (Hm (S j) st' k' Hst' Hk') as (n' & Hn'). exists n'. by rewrite <- Nat.add_succ_comm in Hn'. }
  apply (Hgen _ _ 0%nat); [done|]. intros j st k Hst Hk. eexists. by apply Hh.
Qed.

Lemma ns_rep_names s l : ns_rep s l -> NoDup l.*1.
Proof. intros [_ _ _ (ls & Hlen & -> & _ & Hh)]. by apply (names_nodup s). Qed.

Lemma ns_rep_locs s l : ns_rep s l -> NoDup l.*2.
Proof. by intros [_ _ _ (ls & _ & _ & Hnd & _)]. Qed.

(** A store that has just been set up is empty. *)
Lemma init_tables_ok s capacity n : forall m ts m', (n <= 4)%nat -> 0 <= m_used_size m < 2 ^ 61 + 2 ^ 35 * (4 - Z.of_nat n) ->
  init_tables n s capacity m = Some (ts, m') ->
  length ts = n /\ (forall i st, ts !! i = Some st -> st_objects st = ∅ /\ ht_rep s (st_table st) ∅ [])
  /\ m_used_size m' = m_used_size m + buckets_bytes ts.
Proof.
  induction n as [|n IH]; intros m ts m' Hn Hm Hi; [cbn in Hi; injection Hi as <- <-; split_and!; [done|done|change (buckets_bytes []) with 0; lia]|].
  cbn in Hi. apply bind_Some in Hi as ([t m1] & Hc & Hi). apply bind_Some in Hi as ([ts1 m2] & Ht & Hi). injection Hi as <- <-.
  destruct (ht_create_ok s capacity m (m_used_size m) t m1 ∅ Hc) as [Hrep [_ Hm1]]; [lia|done|].
  pose proof (pow2_pos _ (rep_nbuckets _ _ _ _ Hrep)). unfold SIZEOF_POINTER in Hm1.
  destruct (IH m1 ts1 m2) as (Hl & Hts & Hm2); [lia|lia|done|]. split_and!; [cbn; lia| |].
  - intros [|i] st Hst; [injection Hst as <-; done|]. by apply (Hts i).
  - change (buckets_bytes (mkStoreTable t ∅ :: ts1)) with (ht_nbuckets t * 8 + buckets_bytes ts1). lia.
Qed.

Lemma init_object_store_ok s n capacity m ns : pow2 n -> n <= 4 -> fill_ok s -> 0 <= m_used_size m < 2 ^ 60 ->
  init_object_store s n capacity m = Some ns -> ns_rep ns [].
Proof.
  intros Hp Hn Hf Hm Hi. pose proof (pow2_pos _ Hp). unfold init_object_store in Hi. apply bind_Some in Hi as (? & _ & Hi).
  apply bind_Some in Hi as (m1 & Hm1 & Hi). apply bind_Some in Hi as ([ts m2] & Ht & Hi). injection Hi as <-.
  assert (m_used_size m1 = m_used_size m + n * SIZEOF_HASH_TABLE) as Hu.
  { unfold calloc in Hm1. apply bind_Some in Hm1 as (? & _ & Hm1). injection Hm1 as <-. unfold fetch_add, SIZEOF_HASH_TABLE. cbn.
    rewrite (u64_small (n * 32)) by (unfold is_u64; lia). rewrite u64_small; [lia|]. unfold is_u64. lia. }
  unfold SIZEOF_HASH_TABLE in Hu. destruct (init_tables_ok s capacity (Z.to_nat n) m1 ts m2) as (Hl & Hts & Hm2); [lia|lia|done|].
  assert (zlen ts = n) as Hz by (unfold zlen; lia). constructor; cbn [ns_tables ns_store ns_memory]; rewrite ?Hz; try done.
  - exists (m_used_size m1). split; [lia|done].
  - exists (replicate (length ts) []). assert (concat (replicate (length ts) ([] : list (bytes * loc))) = []) as Hcat
      by (generalize (length ts); intros k; by induction k).
    rewrite length_replicate, Hcat. split_and!; [done|done|constructor|]. intros i st k Hst Hk.
    apply lookup_replicate in Hk as [-> _]. destruct (Hts i st Hst) as [Ho Hrep]. constructor.
    + cbn. by rewrite Ho.
    + intros y. rewrite Ho, lookup_empty. split; [by intros [? ?]|by intros ?%elem_of_nil].
    + constructor.
    + by intros nm y ?%elem_of_nil.
Qed.

#[export] Instance StoreNames_laws : NameTableLaws name_store := {
  nt_rep := ns_rep;
  nt_names := ns_rep_names;
  nt_locs := ns_rep_locs;
  nt_find_ok := ns_find_ok;
  nt_add_ok := ns_add_ok;
  nt_remove_ok := ns_remove_ok;
  nt_enumerate_ok := @ns_enumerate_ok;
}.

End Store.
