(* ===== verification/Tags.v ===== *)
(** * Tags

    The tag manager: [TagRef], [TagObject] and [PageObject] ([ht_objects.h],
    [ht_objects.cc]) and [TagStore] ([ht_tag_manager.h], [ht_tag_manager.cc]). A page
    object holds an array of references, each of which is linked into the chain of
    the tag it refers to; pages without tags are linked into the chain of a special
    tag. The tag manager runs in one thread and locks a page while it works on it,
    so a handler is a function on the state. Messages posted to the optimizer, to the
    page store and to the socket pipeline are recorded in order in [tm_posted].
    The counters of [fpc_memory] are not kept here; [post_ok] is what the consumer
    of responses returns. *)

From S2P Require Import Prelude Protocol Memory Buffers ChunkBuilder HeaderBuild ChunkIterator Accessors CommandIO DList HashObject HashTable NameTable.

(** ** Data *)

Record TagRef := mkTagRef {
  tr_page : ptr;
  tr_tag : ptr;
  tr_prev : ptr;
  tr_next : ptr;
}.

Record TagObject := mkTagObject {
  to_name : bytes;
  to_first : ptr;
  to_num : Z;
  to_untagged : bool;
}.

(** [po_tags] and [po_xtags] are the addresses of the references. *)
Record PageObject := mkPageObject {
  po_base : HashObject;
  po_xtags : option (list loc);
  po_tags : list loc;
}.

(** The chain of a tag. *)
Definition ref_chain : links TagRef :=
  mkLinks tr_prev tr_next
    (fun p r => mkTagRef (tr_page r) (tr_tag r) p (tr_next r))
    (fun n r => mkTagRef (tr_page r) (tr_tag r) (tr_prev r) n).

#[export] Instance ref_chain_laws : LinkLaws ref_chain.
Proof. by split. Qed.

Definition no_ref : TagRef := mkTagRef None None None None.

Definition get_num_tag_refs (po : PageObject) : Z := pho_count (ho_payload (po_base po)).

Definition po_with_base (po : PageObject) (o : HashObject) : PageObject :=
  mkPageObject o (po_xtags po) (po_tags po).

(** [set_count] *)
Definition ho_with_count (o : HashObject) (count : Z) : option HashObject :=
  _ ← c3_assert (count <=? USHORT_MAX_VAL);
  let p := ho_payload o in
  Some (ho_with_payload o (mkPayloadFields (pho_buffer p) (pho_opt_prev p) (pho_opt_next p) (pho_size p)
    (pho_usize p) (pho_mod_time p) (pho_exp_time p) (pho_semaphore p) (u16 count)
    (pho_opt_useragent p) (pho_opt_comp p))).

(** The object part of [try_dispose_buffer]. *)
Definition try_dispose_buffer (o : HashObject) : option HashObject :=
  if has_readers o then Some o
  else
    let p := ho_payload o in
    match pho_buffer p with
    | NoBuffer => Some o
    | b =>
        _ ← c3_assert ((pho_size p <=? pho_usize p) && flags_are_set o HOF_BEING_DELETED);
        if 0 <? pho_size p then
          _ ← c3_assert (match b with Buffer _ => true | _ => false end);
          Some (ho_with_payload o (pho_with_buffer p NoBuffer 0 0 (pho_opt_comp p)))
        else
          _ ← c3_assert (match b with ZeroLengthBuffer => true | _ => false end && (pho_usize p =? 0));
          Some (ho_with_payload o (pho_with_buffer p NoBuffer (pho_size p) (pho_usize p) (pho_opt_comp p)))
    end.

(** ** What the tag manager posts *)

Inductive response :=
| OkResponse
| FormatError
| InternalError
| ListResponse (ids : list bytes)
| DataResponse (exp_time mod_time : Z) (tags : list bytes).

Inductive tm_event :=
| PostDelete (p : loc)
| PostWrite (p : loc) (user_agent lifetime : Z)
| PostRead (p : loc) (user_agent : user_agent_t)
| PostGC (seconds : Z)
| PostUnlink (p : loc)
| SetQueueCapacity (n : Z)
| SetMaxQueueCapacity (n : Z)
| Respond (r : response).

Inductive TagMessage :=
| TC_UNLINK_OBJECT (p : loc)
| TC_CAPACITY_CHANGE (n : Z)
| TC_MAX_CAPACITY_CHANGE (n : Z)
| TC_QUIT
| TagCommand (cr : ReaderWriter) (pho : ptr).

Inductive tag_select_condition_t := TSC_ALWAYS | TSC_MATCH | TSC_NOT_MATCH.

(** Addresses for new objects: as many distinct ones as asked for, not in use. *)
Class NewLocs := {
  new_locs : gset loc -> nat -> list loc;
  new_locs_length X n : length (new_locs X n) = n;
  new_locs_nodup X n : NoDup (new_locs X n);
  new_locs_fresh X n x : x ∈ new_locs X n -> x ∉ X;
}.

(** The name of the tag that links pages without tags: [sizeof] of a [const char*],
    less one, bytes of the constant. *)
Definition NAME_OF_TAG_FOR_UNTAGGED_PAGES : bytes :=
  [60; 60; 60; 32; 85; 78; 84; 65; 71; 71; 69; 68; 32; 62; 62; 62].
Definition untagged_name : bytes := take (Z.to_nat (SIZEOF_POINTER - 1)) NAME_OF_TAG_FOR_UNTAGGED_PAGES.

(** The codes of [clean_mode_t]. *)
Definition clean_mode_code (m : clean_mode_t) : Z :=
  match m with
  | CM_INVALID => 0
  | CM_ALL => 1
  | CM_OLD => 2
  | CM_MATCHING_ALL_TAGS => 3
  | CM_NOT_MATCHING_ANY_TAG => 4
  | CM_MATCHING_ANY_TAG => 5
  end.

Definition MAX_TIMESTAMP : Z := INT_MAX_VAL.

Record TagStore (T : Type) := mkTagStore {
  tm_table : T;
  tm_tags : gmap loc TagObject;
  tm_refs : gmap loc TagRef;
  tm_pages : gmap loc PageObject;
  tm_page_tables : list (list loc);
  ts_untagged : ptr;
  ts_quitting : bool;
  tm_posted : list tm_event;
}.
Arguments mkTagStore {T}. Arguments tm_table {T}. Arguments tm_tags {T}. Arguments tm_refs {T}.
Arguments tm_pages {T}. Arguments tm_page_tables {T}. Arguments ts_untagged {T}. Arguments ts_quitting {T}.
Arguments tm_posted {T}.

Section TagManager.
Context {T : Type} `{NameTable T} `{NewLocs}.
(** [PageObject::po_num_internal_tag_refs], set before the server starts. *)
Context (po_num_internal_tag_refs : Z).
Abbreviation store := (TagStore T).

Definition with_table (st : store) (t : T) (tags : gmap loc TagObject) : store :=
  mkTagStore t tags (tm_refs st) (tm_pages st) (tm_page_tables st) (ts_untagged st) (ts_quitting st) (tm_posted st).
Definition with_refs (st : store) (refs : gmap loc TagRef) (tags : gmap loc TagObject) : store :=
  mkTagStore (tm_table st) tags refs (tm_pages st) (tm_page_tables st) (ts_untagged st) (ts_quitting st) (tm_posted st).
Definition with_page (st : store) (p : loc) (po : PageObject) (refs : gmap loc TagRef) : store :=
  mkTagStore (tm_table st) (tm_tags st) refs (<[p := po]> (tm_pages st)) (tm_page_tables st) (ts_untagged st)
    (ts_quitting st) (tm_posted st).
Definition with_untagged (st : store) (x : ptr) : store :=
  mkTagStore (tm_table st) (tm_tags st) (tm_refs st) (tm_pages st) (tm_page_tables st) x (ts_quitting st) (tm_posted st).
Definition with_quitting (st : store) (q : bool) : store :=
  mkTagStore (tm_table st) (tm_tags st) (tm_refs st) (tm_pages st) (tm_page_tables st) (ts_untagged st) q (tm_posted st).
Definition post (st : store) (e : tm_event) : store :=
  mkTagStore (tm_table st) (tm_tags st) (tm_refs st) (tm_pages st) (tm_page_tables st) (ts_untagged st)
    (ts_quitting st) (tm_posted st ++ [e]).

(** [po->set_flags(flags)] and [po->clear_flags(flags)] *)
Definition page_set_flags (st : store) (p : loc) (flags : Z) : option store :=
  po ← tm_pages st !! p;
  Some (with_page st p (po_with_base po (set_flags (po_base po) flags)) (tm_refs st)).
Definition page_clear_flags (st : store) (p : loc) (flags : Z) : option store :=
  po ← tm_pages st !! p;
  Some (with_page st p (po_with_base po (clear_flags (po_base po) flags)) (tm_refs st)).

(** ** [TagRef] *)

Definition tagref_link (st : store) (r p x : loc) : option store :=
  po ← tm_pages st !! p;
  to ← tm_tags st !! x;
  _ ← c3_assert (bool_decide (get_type (po_base po) = HOT_PAGE_OBJECT));
  refs ← update (tm_refs st) r (fun _ => mkTagRef (Some p) (Some x) None (to_first to));
  refs ← update_ptr refs (to_first to) (set_prev ref_chain (Some r));
  Some (with_refs st refs
    (<[x := mkTagObject (to_name to) (Some r) (u32 (to_num to + 1)) (to_untagged to)]> (tm_tags st))).

(** The tag that the unlinking has emptied, and the new state. *)
Definition tagref_unlink (st : store) (r : loc) : option (ptr * store) :=
  rf ← tm_refs st !! r;
  p ← tr_page rf;
  po ← tm_pages st !! p;
  x ← tr_tag rf;
  to ← tm_tags st !! x;
  _ ← c3_assert (bool_decide (get_type (po_base po) = HOT_PAGE_OBJECT) && negb (to_num to =? 0));
  '(refs, first) ← match tr_prev rf with
    | Some q =>
        _ ← c3_assert (negb (bool_decide (to_first to = Some r)) && (1 <? to_num to));
        refs ← update (tm_refs st) q (set_next ref_chain (tr_next rf));
        Some (refs, to_first to)
    | None =>
        _ ← c3_assert (bool_decide (to_first to = Some r));
        Some (tm_refs st, tr_next rf)
    end;
  refs ← update_ptr refs (tr_next rf) (set_prev ref_chain (tr_prev rf));
  let num := u32 (to_num to - 1) in
  let empty := if (num =? 0) && negb (to_untagged to) then Some x else None in
  refs ← update refs r (fun _ => no_ref);
  Some (empty, with_refs st refs (<[x := mkTagObject (to_name to) first num (to_untagged to)]> (tm_tags st))).

(** ** [PageObject] *)

Definition get_tag_ref (po : PageObject) (i : Z) : option loc :=
  _ ← c3_assert (i <? get_num_tag_refs po);
  if i <? po_num_internal_tag_refs then po_tags po !! Z.to_nat i
  else xtags ← po_xtags po; xtags !! Z.to_nat (i - po_num_internal_tag_refs).

(** A block of references with given contents. *)
Fixpoint insert_refs (refs : gmap loc TagRef) (rs : list loc) (cs : list TagRef) : gmap loc TagRef :=
  match rs with
  | [] => refs
  | r :: rs =>
      match cs with
      | [] => <[r := no_ref]> (insert_refs refs rs [])
      | c :: cs => <[r := c]> (insert_refs refs rs cs)
      end
  end.
Definition delete_refs (refs : gmap loc TagRef) (rs : list loc) : gmap loc TagRef := foldr delete refs rs.

Definition alloc_tag_xrefs (refs : gmap loc TagRef) (ntags : Z) : option (gmap loc TagRef * option (list loc)) :=
  _ ← c3_assert (po_num_internal_tag_refs <? ntags);
  let xtags := new_locs (dom refs) (Z.to_nat (ntags - po_num_internal_tag_refs)) in
  Some (insert_refs refs xtags [], Some xtags).

Definition free_tag_xrefs (refs : gmap loc TagRef) (po : PageObject) (xtags : list loc)
  : option (gmap loc TagRef * option (list loc)) :=
  _ ← c3_assert (po_num_internal_tag_refs <? get_num_tag_refs po);
  Some (delete_refs refs xtags, None).

(** [realloc]: the contents are kept up to the smaller of the two sizes; the new block
    may lie anywhere outside of the other blocks. *)
Definition realloc_tag_xrefs (refs : gmap loc TagRef) (old : list loc) (ntags : Z)
  : option (gmap loc TagRef * option (list loc)) :=
  contents ← mapM (fun r => refs !! r) old;
  let others := delete_refs refs old in
  let xtags := new_locs (dom others) (Z.to_nat (ntags - po_num_internal_tag_refs)) in
  Some (insert_refs others xtags contents, Some xtags).

Definition set_num_tag_refs (st : store) (p : loc) (ntags : Z) : option store :=
  po ← tm_pages st !! p;
  _ ← c3_assert (negb (ntags =? 0));
  if ntags =? get_num_tag_refs po then Some st
  else
    '(refs, xtags) ← (
      if po_num_internal_tag_refs <? ntags then
        match po_xtags po with
        | Some old => realloc_tag_xrefs (tm_refs st) old ntags
        | None => alloc_tag_xrefs (tm_refs st) ntags
        end
      else
        match po_xtags po with
        | Some old => free_tag_xrefs (tm_refs st) po old
        | None => Some (tm_refs st, None)
        end);
    o ← ho_with_count (po_base po) ntags;
    Some (with_page st p (mkPageObject o xtags (po_tags po)) refs).

(** The inner loop of [matches_tags]: whether the number of matches has reached
    [min_nmatches], and the number. *)
Fixpoint match_tag (tags : list loc) (to : ptr) (min_nmatches nmatches : Z) : bool * Z :=
  match tags with
  | [] => (false, nmatches)
  | t :: tags =>
      if bool_decide (Some t = to) then
        let nmatches := u32 (nmatches + 1) in
        if nmatches =? min_nmatches then (true, nmatches) else match_tag tags to min_nmatches nmatches
      else match_tag tags to min_nmatches nmatches
  end.

Fixpoint match_refs (refs : gmap loc TagRef) (rs : list loc) (tags : list loc) (min_nmatches nmatches : Z)
  : option (bool * Z) :=
  match rs with
  | [] => Some (false, nmatches)
  | r :: rs =>
      rf ← refs !! r;
      let '(found, nmatches) := match_tag tags (tr_tag rf) min_nmatches nmatches in
      if found : bool then Some (true, nmatches) else match_refs refs rs tags min_nmatches nmatches
  end.

(** The first elements of an array, read by a [do ... while (++i < n)] loop: at
    least one. *)
Definition read_array (l : list loc) (n : Z) : option (list loc) :=
  _ ← c3_assert (Z.max 1 n <=? zlen l);
  Some (take (Z.to_nat (Z.max 1 n)) l).

Definition matches_tags (st : store) (po : PageObject) (min_nmatches : Z) (tags : list loc) : option bool :=
  _ ← c3_assert (negb (min_nmatches =? 0) && negb (zlen tags =? 0));
  rs ← read_array (po_tags po) (Z.min (get_num_tag_refs po) po_num_internal_tag_refs);
  '(found, nmatches) ← match_refs (tm_refs st) rs tags min_nmatches 0;
  if found : bool then Some true
  else
    match po_xtags po with
    | Some xtags =>
        _ ← c3_assert (po_num_internal_tag_refs <? get_num_tag_refs po);
        rs ← read_array xtags (get_num_tag_refs po - po_num_internal_tag_refs);
        '(found, _) ← match_refs (tm_refs st) rs tags min_nmatches nmatches;
        Some found
    | None => Some false
    end.

(** ** [TagStore] *)

Definition find_tag (st : store) (name : bytes) : option ptr := nt_find (tm_table st) name.

Definition create_tag (st : store) (name : bytes) (untagged : bool) : option (loc * store) :=
  x ← head (new_locs (dom (tm_tags st)) 1);
  table ← nt_add (tm_table st) name x;
  Some (x, with_table st table (<[x := mkTagObject name None 0 untagged]> (tm_tags st))).

Definition find_create_tag (st : store) (name : bytes) : option (loc * store) :=
  p ← nt_find (tm_table st) name;
  match p with
  | Some x => Some (x, st)
  | None => create_tag st name false
  end.

Definition allocate_tag_store (st : store) : option store :=
  '(x, st) ← create_tag st untagged_name true;
  Some (with_untagged st (Some x)).

(** The loop of [extract_tag_names]: the tag with the fewest objects, the other tags,
    whether the format is right and whether all tags were found. *)
Fixpoint extract_loop (k : nat) (st : store) (sb : SharedBuffers) (it : ChunkIterator) (lc : ListChunk)
    (shortest : ptr) (tags : list loc) (all_tags_found : bool) : option (ptr * list loc * bool * bool * ChunkIterator) :=
  match k with
  | O => Some (shortest, tags, true, all_tags_found, it)
  | S k =>
      '(chunk, it, lc) ← list_get_string sb it lc;
      if sc_is_valid_name it chunk then
        name ← get_chars sb it chunk;
        t ← find_tag st name;
        match t with
        | Some tag =>
            if existsb (Pos.eqb tag) tags then extract_loop k st sb it lc shortest tags all_tags_found
            else
              match shortest with
              | Some s =>
                  so ← tm_tags st !! s;
                  to ← tm_tags st !! tag;
                  if to_num to <? to_num so
                  then extract_loop k st sb it lc (Some tag) (tags ++ [s]) all_tags_found
                  else extract_loop k st sb it lc (Some s) (tags ++ [tag]) all_tags_found
              | None => extract_loop k st sb it lc (Some tag) tags all_tags_found
              end
        | None => extract_loop k st sb it lc shortest tags false
        end
      else Some (shortest, tags, false, all_tags_found, it)
  end.

Definition extract_tag_names (st : store) (sb : SharedBuffers) (it : ChunkIterator) (lc : ListChunk)
  : option (ptr * list loc * bool * bool * ChunkIterator) :=
  if sl_is_valid it lc then extract_loop (Z.to_nat (sl_count lc)) st sb it lc None [] true
  else Some (None, [], false, true, it).

Definition dispose_tag (st : store) (x : loc) : option store :=
  to ← tm_tags st !! x;
  _ ← c3_assert (to_num to =? 0);
  table ← nt_remove (tm_table st) (to_name to) x;
  Some (with_table st table (delete x (tm_tags st))).

Fixpoint unlink_refs (st : store) (p : loc) (idx : list Z) : option store :=
  match idx with
  | [] => Some st
  | i :: idx =>
      po ← tm_pages st !! p;
      r ← get_tag_ref po i;
      '(empty, st) ← tagref_unlink st r;
      st ← match empty with Some x => dispose_tag st x | None => Some st end;
      unlink_refs st p idx
  end.

Definition unlink_object_tags (st : store) (p : loc) : option store :=
  po ← tm_pages st !! p;
  _ ← c3_assert (flags_are_set (po_base po) HOF_LINKED_BY_TM && negb (get_num_tag_refs po =? 0));
  st ← unlink_refs st p (seqZ 0 (get_num_tag_refs po));
  page_clear_flags st p HOF_LINKED_BY_TM.

Definition page_dispose_buffer (st : store) (p : loc) : option store :=
  po ← tm_pages st !! p;
  o ← try_dispose_buffer (po_base po);
  Some (with_page st p (po_with_base po o) (tm_refs st)).

Definition page_type (po : PageObject) : bool := bool_decide (get_type (po_base po) = HOT_PAGE_OBJECT).

Definition unlink_object (st : store) (p : loc) : option store :=
  po ← tm_pages st !! p;
  _ ← c3_assert (page_type po);
  _ ← c3_assert (flags_are_set (po_base po) HOF_BEING_DELETED
                 && flags_are_clear (po_base po) (Z.lor HOF_DELETED HOF_LINKED_BY_OPTIMIZER));
  st ← page_dispose_buffer st p;
  st ← (if flags_are_set (po_base po) HOF_LINKED_BY_TM then unlink_object_tags st p else Some st);
  Some (post st (PostUnlink p)).

(** *** Callbacks *)

Definition tag_enum_callback (st : store) (ids : list bytes) (x : loc) : option (bool * list bytes) :=
  to ← tm_tags st !! x;
  Some (true, if (0 <? to_num to) && negb (to_untagged to) then ids ++ [to_name to] else ids).

Definition object_cleanup_unlink_callback (st : store) (p : loc) : option (bool * store) :=
  po ← tm_pages st !! p;
  _ ← c3_assert (page_type po);
  st ← (if flags_are_set (po_base po) HOF_LINKED_BY_TM then unlink_object_tags st p else Some st);
  Some (true, st).

(** The condition of the two callbacks below. *)
Definition selects (st : store) (po : PageObject) (tags : list loc) (condition : tag_select_condition_t) : option bool :=
  match condition with
  | TSC_ALWAYS => Some true
  | TSC_MATCH => matches_tags st po 1 tags
  | TSC_NOT_MATCH => b ← matches_tags st po 1 tags; Some (negb b)
  end.

Definition taggable (po : PageObject) : bool :=
  flags_are_clear (po_base po) HOF_BEING_DELETED && flags_are_set (po_base po) HOF_LINKED_BY_TM.

Definition object_unlink_callback (tags : list loc) (condition : tag_select_condition_t) (st : store) (p : loc)
  : option (bool * store) :=
  po ← tm_pages st !! p;
  _ ← c3_assert (page_type po);
  if taggable po then
    do_unlink ← selects st po tags condition;
    if do_unlink : bool then
      st ← unlink_object_tags st p;
      st ← page_set_flags st p HOF_BEING_DELETED;
      Some (true, post st (PostDelete p))
    else Some (true, st)
  else Some (true, st).

Definition object_enum_callback (st : store) (tags : list loc) (condition : tag_select_condition_t)
    (ids : list bytes) (p : loc) : option (bool * list bytes) :=
  po ← tm_pages st !! p;
  _ ← c3_assert (page_type po);
  if taggable po then
    do_list ← selects st po tags condition;
    Some (true, if (do_list : bool) then ids ++ [ho_name (po_base po)] else ids)
  else Some (true, ids).

(** [PayloadObjectStore::lock_enumerate_all]: the tables of the page store, in order. *)
Fixpoint lock_enumerate_all {C : Type} (tables : list (list loc)) (callback : C -> loc -> option (bool * C)) (ctx : C)
  : option (bool * C) :=
  match tables with
  | [] => Some (true, ctx)
  | t :: tables =>
      '(go_on, ctx) ← visit callback ctx t;
      if (go_on : bool) then lock_enumerate_all tables callback ctx else Some (false, ctx)
  end.

(** [ObjectStore::enumerate_all]: the same without the locks. *)
Definition enumerate_all {C : Type} (tables : list (list loc)) (callback : C -> loc -> option (bool * C)) (ctx : C)
  : option (bool * C) := lock_enumerate_all tables callback ctx.

Definition unlink_objects (st : store) (tags : list loc) (condition : tag_select_condition_t) : option store :=
  '(_, st) ← lock_enumerate_all (tm_page_tables st) (object_unlink_callback tags condition) st; Some st.
Definition unlink_all_objects (st : store) : option store := unlink_objects st [] TSC_ALWAYS.

Definition enum_objects (st : store) (tags : list loc) (condition : tag_select_condition_t) : option (list bytes) :=
  '(_, ids) ← lock_enumerate_all (tm_page_tables st) (object_enum_callback st tags condition) []; Some ids.
Definition enum_all_objects (st : store) : option (list bytes) := enum_objects st [] TSC_ALWAYS.

Definition tag_add_reference (st : store) (x : loc) : option store :=
  to ← tm_tags st !! x;
  _ ← c3_assert (negb (to_num to =? 0));
  Some (with_refs st (tm_refs st)
    (<[x := mkTagObject (to_name to) (to_first to) (u32 (to_num to + 1)) (to_untagged to)]> (tm_tags st))).

Fixpoint add_dummy_references (st : store) (tags : list loc) : option store :=
  match tags with
  | [] => Some st
  | x :: tags => st ← tag_add_reference st x; add_dummy_references st tags
  end.

Fixpoint remove_dummy_references (st : store) (tags : list loc) : option store :=
  match tags with
  | [] => Some st
  | x :: tags =>
      to ← tm_tags st !! x;
      _ ← c3_assert (negb (to_num to =? 0));
      let num := u32 (to_num to - 1) in
      let st := with_refs st (tm_refs st)
        (<[x := mkTagObject (to_name to) (to_first to) num (to_untagged to)]> (tm_tags st)) in
      st ← (if num =? 0 then dispose_tag st x else Some st);
      remove_dummy_references st tags
  end.

(** ** Commands *)

(** *** [SAVE] *)

(** Unlinking the existing tags, without disposing of those that become empty. *)
Fixpoint unlink_existing (st : store) (p : loc) (idx : list Z) (empty_tags : list loc) : option (list loc * store) :=
  match idx with
  | [] => Some (empty_tags, st)
  | i :: idx =>
      po ← tm_pages st !! p;
      r ← get_tag_ref po i;
      '(empty, st) ← tagref_unlink st r;
      unlink_existing st p idx (match empty with Some x => empty_tags ++ [x] | None => empty_tags end)
  end.

(** The names in the list, each once. *)
Fixpoint unique_names (k : nat) (sb : SharedBuffers) (it : ChunkIterator) (lc : ListChunk) (names : list bytes)
  : option (list bytes * ChunkIterator) :=
  match k with
  | O => Some (names, it)
  | S k =>
      '(str, it, lc) ← list_get_string sb it lc;
      name ← get_chars sb it str;
      _ ← c3_assert (sc_length str <=? USHORT_MAX_VAL);
      if existsb (fun n => bool_decide (n = name)) names then unique_names k sb it lc names
      else unique_names k sb it lc (names ++ [name])
  end.

Fixpoint link_names (st : store) (p : loc) (l : Z) (names : list bytes) : option store :=
  match names with
  | [] => Some st
  | name :: names =>
      '(x, st) ← find_create_tag st name;
      po ← tm_pages st !! p;
      r ← get_tag_ref po l;
      st ← tagref_link st r p x;
      link_names st p (l + 1) names
  end.

(** Step 2: the tags in the list, or the special tag if there are none. *)
Definition link_tags (st : store) (p : loc) (names : list bytes) : option store :=
  if negb (zlen names =? 0) then
    st ← set_num_tag_refs st p (zlen names);
    link_names st p 0 names
  else
    st ← set_num_tag_refs st p 1;
    u ← ts_untagged st;
    po ← tm_pages st !! p;
    r ← get_tag_ref po 0;
    tagref_link st r p u.

Fixpoint dispose_empty (st : store) (empty_tags : list loc) : option store :=
  match empty_tags with
  | [] => Some st
  | x :: empty_tags =>
      to ← tm_tags st !! x;
      st ← (if to_num to =? 0 then dispose_tag st x else Some st);
      dispose_empty st empty_tags
  end.

Definition process_save_command (st : store) (cr : ReaderWriter) (p : loc) : option store :=
  po ← tm_pages st !! p;
  _ ← c3_assert (page_type po);
  let num_existing_tags := get_num_tag_refs po in
  if negb (flags_are_set (po_base po) HOF_LINKED_BY_TM) && flags_are_set (po_base po) HOF_BEING_DELETED then Some st
  else
    '(empty_tags, st) ← (
      if flags_are_set (po_base po) HOF_LINKED_BY_TM then
        _ ← c3_assert (negb (num_existing_tags =? 0));
        unlink_existing st p (seqZ 0 num_existing_tags) []
      else _ ← c3_assert (num_existing_tags =? 0); Some ([], st));
    let sb := rw_sb cr in
    it ← command_header_iterator cr;
    '(_, it) ← get_string sb it;
    '(agent, it) ← get_number sb it;
    '(lifetime, it) ← get_number sb it;
    '(lc, it) ← get_list sb it;
    _ ← c3_assert (nc_is_valid agent && nc_is_valid lifetime && sl_is_valid it lc);
    '(names, it) ← unique_names (Z.to_nat (sl_count lc)) sb it lc [];
    st ← link_tags st p names;
    st ← dispose_empty st empty_tags;
    st ← page_set_flags st p HOF_LINKED_BY_TM;
    _ ← c3_assert (nc_is_valid_uint agent && ((lifetime <? 0) || nc_is_valid_uint lifetime));
    let lt := if lifetime <? 0 then MAX_TIMESTAMP else lifetime in
    Some (post st (PostWrite p (u8 agent) lt)).

(** *** [REMOVE] *)

Definition process_remove_command (st : store) (p : loc) : option store :=
  po ← tm_pages st !! p;
  _ ← c3_assert (page_type po);
  _ ← c3_assert (flags_are_set (po_base po) HOF_BEING_DELETED);
  if flags_are_set (po_base po) HOF_LINKED_BY_TM then
    st ← unlink_object_tags st p;
    st ← page_dispose_buffer st p;
    Some (post st (PostDelete p))
  else Some st.

(** *** [CLEAN] *)

(** Walking the chain of the shortest tag; [matches_tags] is not called when there are
    no other tags. *)
Fixpoint clean_chain (fuel : nat) (st : store) (tags : list loc) (ref : ptr) : option store :=
  match ref with
  | None => Some st
  | Some r =>
      match fuel with
      | O => None
      | S fuel =>
          rf ← tm_refs st !! r;
          p ← tr_page rf;
          po ← tm_pages st !! p;
          let next_ref := tr_next rf in
          if flags_are_clear (po_base po) HOF_BEING_DELETED then
            _ ← c3_assert (flags_are_set (po_base po) HOF_LINKED_BY_TM);
            m ← (if zlen tags =? 0 then Some true else matches_tags st po (zlen tags) tags);
            if m : bool then
              st ← page_set_flags st p HOF_BEING_DELETED;
              st ← unlink_object_tags st p;
              clean_chain fuel (post st (PostDelete p)) tags next_ref
            else clean_chain fuel st tags next_ref
          else clean_chain fuel st tags next_ref
      end
  end.

Definition clean_matching_all (st : store) (shortest : loc) (tags : list loc) : option store :=
  st ← tag_add_reference st shortest;
  st ← add_dummy_references st tags;
  to ← tm_tags st !! shortest;
  st ← clean_chain (S (size (tm_refs st))) st tags (to_first to);
  remove_dummy_references st (tags ++ [shortest]).

Definition clean_by_tags (st : store) (tags : list loc) (condition : tag_select_condition_t) : option store :=
  st ← add_dummy_references st tags;
  st ← unlink_objects st tags condition;
  remove_dummy_references st tags.

Definition clean_tags (st : store) (mode : Z) (shortest : ptr) (tags : list loc) (all_tags_found : bool)
  : option store :=
  if mode =? clean_mode_code CM_MATCHING_ALL_TAGS then
    match shortest with
    | Some s => if all_tags_found then clean_matching_all st s tags else Some st
    | None => Some st
    end
  else if mode =? clean_mode_code CM_NOT_MATCHING_ANY_TAG then
    match shortest with
    | Some s => clean_by_tags st (tags ++ [s]) TSC_NOT_MATCH
    | None => unlink_all_objects st
    end
  else if mode =? clean_mode_code CM_MATCHING_ANY_TAG then
    match shortest with
    | Some s => clean_by_tags st (tags ++ [s]) TSC_MATCH
    | None => Some st
    end
  else None.

(** Whether the format was right, and the new state. *)
Definition process_clean (st : store) (cr : ReaderWriter) : option (bool * store) :=
  let sb := rw_sb cr in
  it ← command_header_iterator cr;
  '(mode, it) ← get_number sb it;
  has_payload ← has_payload_data sb;
  if nc_is_valid_uint mode && negb has_payload then
    if mode =? clean_mode_code CM_ALL then
      if has_more_chunks it then Some (false, st) else st ← unlink_all_objects st; Some (true, st)
    else if mode =? clean_mode_code CM_OLD then
      if has_more_chunks it then Some (false, st) else Some (true, post st (PostGC 0))
    else
      '(lc, it) ← get_list sb it;
      if sl_is_valid it lc then
        '(shortest, tags, format_is_ok, all_tags_found, _) ← extract_tag_names st sb it lc;
        if (format_is_ok : bool) then st ← clean_tags st mode shortest tags all_tags_found; Some (true, st)
        else Some (false, st)
      else Some (false, st)
  else Some (false, st).

Definition process_clean_command (st : store) (cr : ReaderWriter) : option store :=
  '(ok, st) ← process_clean st cr;
  Some (post st (Respond (if ok : bool then OkResponse else FormatError))).

(** *** Queries *)

Definition has_header_data (cr : ReaderWriter) : option bool :=
  '(ok, hi) ← command_get_header_info (rw_sb cr); Some (ok && (0 <? hi_chunks_size hi)).

Definition has_any_data (cr : ReaderWriter) : option bool :=
  b ← has_header_data cr;
  if b : bool then Some true else has_payload_data (rw_sb cr).

(** [post_list_response] and what the handlers do when it fails. *)
Definition respond_list (st : store) (post_ok : bool) (ids : list bytes) : store :=
  let st := post st (Respond (ListResponse ids)) in
  if post_ok then st else post st (Respond InternalError).

Definition process_getids_command (post_ok : bool) (st : store) (cr : ReaderWriter) : option store :=
  b ← has_any_data cr;
  if b : bool then Some (post st (Respond FormatError))
  else ids ← enum_all_objects st; Some (respond_list st post_ok ids).

Definition process_gettags_command (post_ok : bool) (st : store) (cr : ReaderWriter) : option store :=
  b ← has_any_data cr;
  if b : bool then Some (post st (Respond FormatError))
  else '(_, ids) ← nt_enumerate (tm_table st) (tag_enum_callback st) []; Some (respond_list st post_ok ids).

(** The chain of the shortest tag, for [GETIDSMATCHINGTAGS]. *)
Fixpoint list_chain (fuel : nat) (st : store) (tags : list loc) (ref : ptr) (ids : list bytes) : option (list bytes) :=
  match ref with
  | None => Some ids
  | Some r =>
      match fuel with
      | O => None
      | S fuel =>
          rf ← tm_refs st !! r;
          p ← tr_page rf;
          po ← tm_pages st !! p;
          if flags_are_clear (po_base po) HOF_BEING_DELETED then
            _ ← c3_assert (flags_are_set (po_base po) HOF_LINKED_BY_TM);
            m ← (if zlen tags =? 0 then Some true else matches_tags st po (zlen tags) tags);
            list_chain fuel st tags (tr_next rf) (if (m : bool) then ids ++ [ho_name (po_base po)] else ids)
          else list_chain fuel st tags (tr_next rf) ids
      end
  end.

Definition matching_ids (st : store) (cmd : command_t) (shortest : ptr) (tags : list loc) (all_tags_found : bool)
  : option (list bytes) :=
  match cmd with
  | CMD_GETIDSMATCHINGTAGS =>
      match shortest with
      | Some s =>
          if all_tags_found then
            to ← tm_tags st !! s; list_chain (S (size (tm_refs st))) st tags (to_first to) []
          else Some []
      | None => Some []
      end
  | CMD_GETIDSNOTMATCHINGTAGS =>
      match shortest with
      | Some s => enum_objects st (tags ++ [s]) TSC_NOT_MATCH
      | None => enum_all_objects st
      end
  | CMD_GETIDSMATCHINGANYTAGS =>
      match shortest with
      | Some s => enum_objects st (tags ++ [s]) TSC_MATCH
      | None => Some []
      end
  | _ => None
  end.

Definition process_getmatchingids_command (post_ok : bool) (cmd : command_t) (st : store) (cr : ReaderWriter)
  : option store :=
  let sb := rw_sb cr in
  it ← command_header_iterator cr;
  '(lc, it) ← get_list sb it;
  has_payload ← has_payload_data sb;
  if sl_is_valid it lc && negb has_payload then
    '(shortest, tags, format_is_ok, all_tags_found, _) ← extract_tag_names st sb it lc;
    if (format_is_ok : bool) then
      ids ← matching_ids st cmd shortest tags all_tags_found;
      Some (respond_list st post_ok ids)
    else Some (post st (Respond FormatError))
  else Some (post st (Respond FormatError)).

Fixpoint tag_names (st : store) (po : PageObject) (idx : list Z) : option (list bytes) :=
  match idx with
  | [] => Some []
  | i :: idx =>
      r ← get_tag_ref po i;
      rf ← tm_refs st !! r;
      x ← tr_tag rf;
      to ← tm_tags st !! x;
      names ← tag_names st po idx;
      Some (if to_untagged to then names else to_name to :: names)
  end.

Definition process_getmetadatas_command (post_ok : bool) (st : store) (cr : ReaderWriter) (p : loc) : option store :=
  po ← tm_pages st !! p;
  _ ← c3_assert (page_type po);
  if taggable po then
    names ← tag_names st po (seqZ 0 (get_num_tag_refs po));
    let pho := ho_payload (po_base po) in
    let st := post st (Respond (DataResponse (pho_exp_time pho) (pho_mod_time pho) names)) in
    if post_ok then
      match pho_opt_useragent pho with
      | UA_NUMBER_OF_ELEMENTS => Some st
      | ua => Some (post st (PostRead p ua))
      end
    else Some (post st (Respond InternalError))
  else Some (post st (Respond OkResponse)).

(** ** Messages *)

Definition process_id_message (st : store) (msg : TagMessage) : option store :=
  match msg with
  | TC_UNLINK_OBJECT p => unlink_object st p
  | TC_CAPACITY_CHANGE n => Some (post st (SetQueueCapacity n))
  | TC_MAX_CAPACITY_CHANGE n => Some (post st (SetMaxQueueCapacity n))
  | TC_QUIT => Some (with_quitting st true)
  | TagCommand _ _ => None
  end.

Definition process_command_message (post_ok : bool) (st : store) (cr : ReaderWriter) (pho : ptr) : option store :=
  id ← get_command_id cr;
  if id =? command_code CMD_SAVE then p ← pho; process_save_command st cr p
  else if id =? command_code CMD_REMOVE then p ← pho; process_remove_command st p
  else if id =? command_code CMD_GETMETADATAS then p ← pho; process_getmetadatas_command post_ok st cr p
  else
    _ ← c3_assert (bool_decide (pho = None));
    if id =? command_code CMD_CLEAN then process_clean_command st cr
    else if id =? command_code CMD_GETIDS then process_getids_command post_ok st cr
    else if id =? command_code CMD_GETTAGS then process_gettags_command post_ok st cr
    else if id =? command_code CMD_GETIDSMATCHINGTAGS
    then process_getmatchingids_command post_ok CMD_GETIDSMATCHINGTAGS st cr
    else if id =? command_code CMD_GETIDSNOTMATCHINGTAGS
    then process_getmatchingids_command post_ok CMD_GETIDSNOTMATCHINGTAGS st cr
    else if id =? command_code CMD_GETIDSMATCHINGANYTAGS
    then process_getmatchingids_command post_ok CMD_GETIDSMATCHINGANYTAGS st cr
    else None.

Definition process_message (post_ok : bool) (st : store) (msg : TagMessage) : option store :=
  match msg with
  | TagCommand cr pho => process_command_message post_ok st cr pho
  | msg => process_id_message st msg
  end.

(** ** The thread *)

(** What is left of the store: [HashTable::dispose] disposes of every tag. *)
Fixpoint dispose_tags (tags : gmap loc TagObject) (xs : list loc) : option (gmap loc TagObject) :=
  match xs with
  | [] => Some tags
  | x :: xs =>
      to ← tags !! x;
      _ ← c3_assert (to_num to =? 0);
      dispose_tags (delete x tags) xs
  end.

Definition dispose_tag_store (st : store) : option store :=
  '(_, st) ← enumerate_all (tm_page_tables st) object_cleanup_unlink_callback st;
  '(_, xs) ← nt_enumerate (tm_table st) collect [];
  tags ← dispose_tags (tm_tags st) xs;
  Some (with_refs st (tm_refs st) tags).

(** The main loop of [thread_proc], over the messages in the queue: while the thread is
    not told to quit it waits for the next message; then it takes what is left in
    the queue and disposes of the store. [stop] says, at each turn, whether the
    thread was told to stop. The result is the state and whether the thread has
    ended. *)
Fixpoint thread_proc (post_ok : bool) (st : store) (turns : list (bool * TagMessage)) : option (bool * store) :=
  match turns with
  | [] => if ts_quitting st then st ← dispose_tag_store st; Some (true, st) else Some (false, st)
  | (stop, msg) :: turns =>
      let st := if stop : bool then with_quitting st true else st in
      st ← process_message post_ok st msg;
      thread_proc post_ok st turns
  end.

End TagManager.
