(* ===== verification/TagRefs.v ===== *)
(** * TagRefs

    The chains of tag references: which page and which tag each reference links,
    and the effect of [TagRef::link] and [TagRef::unlink] on the chains of all
    tags. *)

From S2P Require Import Prelude Protocol DList HashObject HashTable NameTable Tags.

(** ** What the references say *)

(** The page and the tag that a linked reference joins. *)
Definition tagging (refs : gmap loc TagRef) : gmap loc (loc * loc) :=
  omap (fun rf => p ← tr_page rf; x ← tr_tag rf; Some (p, x)) refs.

#[global] Arguments tagging : simpl never.

Definition ref_ends (rf : TagRef) : ptr * ptr := (tr_page rf, tr_tag rf).

#[export] Instance ref_ends_unlinked : Unlinked ref_chain ref_ends.
Proof. by split. Qed.

Lemma lookup_tagging refs r p x :
  tagging refs !! r = Some (p, x) <-> exists rf, refs !! r = Some rf /\ tr_page rf = Some p /\ tr_tag rf = Some x.
Proof.
  unfold tagging. rewrite lookup_omap. destruct (refs !! r) as [[q y pr nx]|] eqn:E; cbn; cycle 1.
  { split; [done|]. by intros (rf & ? & _). }
  destruct q as [q|], y as [y|]; cbn; split; try done; try (intros (rf & Hrf & ? & ?); by simplify_eq/=).
  intros [= -> ->]. by eexists.
Qed.

Lemma tagging_ext refs refs' :
  (forall r, ref_ends <$> refs' !! r = ref_ends <$> refs !! r) -> tagging refs' = tagging refs.
Proof.
  intros Hr. apply map_eq. intros r. unfold tagging. rewrite !lookup_omap. specialize (Hr r).
  destruct (refs' !! r) as [[]|], (refs !! r) as [[]|]; cbn in *; try done. by simplify_eq.
Qed.

Lemma tagging_relinked refs refs' l : relinked ref_chain refs refs' l -> tagging refs' = tagging refs.
Proof. intros (_ & _ & F). apply tagging_ext. intros r. by apply F, _. Qed.

Lemma tagging_insert refs r rf :
  tagging (<[r := rf]> refs)
  = match tr_page rf, tr_tag rf with
    | Some p, Some x => <[r := (p, x)]> (tagging refs)
    | _, _ => delete r (tagging refs)
    end.
Proof.
  unfold tagging. destruct rf as [[p|] [x|] pr nx]; cbn; [by apply omap_insert_Some|by apply omap_insert_None..].
Qed.

(** ** Chains *)

(** Every tag heads the list of the references to it; [dummy] counts the references
    added to keep a tag alive. *)
Record chains (refs : gmap loc TagRef) (tags : gmap loc TagObject) (dummy : loc -> Z) : Prop := mkChains {
  ch_tag r p x : tagging refs !! r = Some (p, x) -> is_Some (tags !! x);
  ch_chain x to : tags !! x = Some to -> exists c,
    dlist ref_chain refs (to_first to) c
    /\ (forall r, r ∈ c <-> exists p, tagging refs !! r = Some (p, x))
    /\ to_num to = zlen c + dummy x;
  ch_dummy x : 0 <= dummy x;
}.

(** The number of references to a tag. *)
Definition refs_to (refs : gmap loc TagRef) (x : loc) : gmap loc (loc * loc) :=
  filter (fun kv => kv.2.2 = x) (tagging refs).

Lemma elem_refs_to refs x r : r ∈ dom (refs_to refs x) <-> exists p, tagging refs !! r = Some (p, x).
Proof.
  unfold refs_to. rewrite elem_of_dom. split.
  - intros [[p y] Hr]. apply map_lookup_filter_Some in Hr as [Hr Hy]. cbn in Hy. subst y. by exists p.
  - intros [p Hr]. exists (p, x). by apply map_lookup_filter_Some.
Qed.

Lemma chain_length refs x (c : list loc) :
  NoDup c -> (forall r, r ∈ c <-> exists p, tagging refs !! r = Some (p, x)) -> zlen c = Z.of_nat (size (refs_to refs x)).
Proof.
  intros Hnd Hc. unfold zlen. f_equal. rewrite <- size_dom, <- (size_list_to_set (C := gset loc) c Hnd).
  f_equal. apply set_eq. intros r. by rewrite elem_of_list_to_set, elem_refs_to, Hc.
Qed.

Lemma refs_to_le refs x : Z.of_nat (size (refs_to refs x)) <= Z.of_nat (size refs).
Proof.
  apply Nat2Z.inj_le. rewrite <- !size_dom. apply subseteq_size. intros r.
  rewrite elem_refs_to, elem_of_dom. intros (p & (rf & ? & _)%lookup_tagging). by eexists.
Qed.

Section Chains.
Context (refs : gmap loc TagRef) (tags : gmap loc TagObject) (dummy : loc -> Z).
Hypothesis Hch : chains refs tags dummy.

Lemma tag_num x to : tags !! x = Some to -> to_num to = Z.of_nat (size (refs_to refs x)) + dummy x.
Proof.
  intros Hx. destruct (ch_chain _ _ _ Hch x to Hx) as (c & (_ & _ & Hnd) & Hc & ->). by rewrite (chain_length refs x c).
Qed.

(** Chains of different tags are disjoint. *)
Lemma chains_disjoint x y (c d : list loc) :
  x <> y -> (forall r, r ∈ c <-> exists p, tagging refs !! r = Some (p, x)) ->
  (forall r, r ∈ d <-> exists p, tagging refs !! r = Some (p, y)) -> forall r, r ∈ d -> r ∉ c.
Proof. intros Hne Hc Hd r Hr Hrc. apply Hd in Hr as [p Hp]. apply Hc in Hrc as [q Hq]. congruence. Qed.

(** Linking. *)
Lemma chains_link r p x to :
  tagging refs !! r = None -> is_Some (refs !! r) -> tags !! x = Some to -> to_num to + 1 < 2 ^ 32 ->
  exists refs', (h ← update refs r (fun _ => mkTagRef (Some p) (Some x) None (to_first to));
                 update_ptr h (to_first to) (set_prev ref_chain (Some r))) = Some refs'
    /\ chains refs' (<[x := mkTagObject (to_name to) (Some r) (u32 (to_num to + 1)) (to_untagged to)]> tags) dummy
    /\ tagging refs' = <[r := (p, x)]> (tagging refs) /\ dom refs' = dom refs.
Proof.
  intros Hr [rf Hrf] Hx Hlt. destruct (ch_chain _ _ _ Hch x to Hx) as (c & Hd & Hc & Hn).
  set (h0 := <[r := mkTagRef (Some p) (Some x) (tr_prev rf) (tr_next rf)]> refs).
  assert (forall y (d : list loc) f, (forall q, q ∈ d <-> exists p, tagging refs !! q = Some (p, y)) ->
    dlist ref_chain refs f d -> dlist ref_chain h0 f d) as Hfr.
  { intros y d f Hd'. apply dlist_frame. intros q Hq. unfold prev_of, next_of, h0. rewrite lookup_insert_ne; [done|].
    intros ->. apply Hd' in Hq as [? Hq]. congruence. }
  assert (r ∉ c) as Hrc by (intros [q Hq]%Hc; congruence).
  destruct (link_front_ok ref_chain h0 (to_first to) c r) as (h' & Hl & Hd' & Hrel);
    [by eapply Hfr|done|unfold h0; rewrite lookup_insert_eq; by eexists|].
  exists h'. assert (tagging h' = <[r := (p, x)]> (tagging refs)) as Ht.
  { rewrite (tagging_relinked _ _ _ Hrel). unfold h0. by rewrite tagging_insert. }
  split_and!.
  - rewrite <- Hl. unfold link_front, update. rewrite Hrf. unfold h0. rewrite lookup_insert_eq. cbn.
    rewrite lookup_insert_eq. cbn. by rewrite !insert_insert_eq.
  - pose proof (zlen_nonneg c). pose proof (ch_dummy _ _ _ Hch x). constructor.
    + intros q pq y Hq. rewrite Ht in Hq. destruct (decide (x = y)) as [->|Hne].
      { rewrite lookup_insert_eq. by eexists. }
      rewrite lookup_insert_ne by done. destruct (decide (r = q)) as [->|Hrq].
      * rewrite lookup_insert_eq in Hq. congruence.
      * rewrite lookup_insert_ne in Hq by done. by eapply ch_tag.
    + intros y ty Hy. destruct (decide (x = y)) as [<-|Hne].
      * rewrite lookup_insert_eq in Hy. injection Hy as <-. exists (r :: c). cbn. split_and!; [done| |].
        -- intros q. rewrite elem_of_cons, Ht. destruct (decide (r = q)) as [<-|Hrq].
           ++ rewrite lookup_insert_eq. split; [by eexists|by left].
           ++ rewrite lookup_insert_ne by done. rewrite <- Hc. split; [intros [?|?]; [congruence|done]|by right].
        -- rewrite zlen_cons, u32_small; [lia|]. unfold is_u32. lia.
      * rewrite lookup_insert_ne in Hy by done. destruct (ch_chain _ _ _ Hch y ty Hy) as (d & Hdy & Hdm & Hdn).
        exists d. split_and!; [|intros q|done].
        -- eapply (relinked_disjoint_dlist ref_chain h0 h'); [|done|by eapply Hfr].
           intros q Hq. rewrite elem_of_cons. intros [->|Hqc].
           ++ apply Hdm in Hq as [? Hq]. congruence.
           ++ by eapply (chains_disjoint x y c d).
        -- rewrite Hdm, Ht. destruct (decide (r = q)) as [<-|Hrq].
           ++ rewrite lookup_insert_eq, Hr. split; intros [? ?]; [done|congruence].
           ++ by rewrite lookup_insert_ne.
    + intros y. apply (ch_dummy _ _ _ Hch).
  - done.
  - destruct Hrel as [-> _]. unfold h0. rewrite dom_insert_L. apply elem_of_dom_2 in Hrf. set_solver.
Qed.

(** Unlinking: the assertions hold and the reference leaves its chain. *)
Lemma chains_unlink r p x to :
  tagging refs !! r = Some (p, x) -> tags !! x = Some to ->
  exists rf refs1 refs2 first, refs !! r = Some rf /\ tr_page rf = Some p /\ tr_tag rf = Some x /\ 0 < to_num to
    /\ match tr_prev rf with
       | Some q => to_first to <> Some r /\ 1 < to_num to
           /\ update refs q (set_next ref_chain (tr_next rf)) = Some refs1 /\ first = to_first to
       | None => to_first to = Some r /\ refs1 = refs /\ first = tr_next rf
       end
    /\ update_ptr refs1 (tr_next rf) (set_prev ref_chain (tr_prev rf)) = Some refs2
    /\ is_Some (refs2 !! r)
    /\ chains (<[r := no_ref]> refs2) (<[x := mkTagObject (to_name to) first (to_num to - 1) (to_untagged to)]> tags) dummy
    /\ tagging (<[r := no_ref]> refs2) = delete r (tagging refs) /\ dom (<[r := no_ref]> refs2) = dom refs
    /\ (forall q, q <> r -> next_of ref_chain refs q <> Some (Some r) ->
         next_of ref_chain (<[r := no_ref]> refs2) q = next_of ref_chain refs q).
Proof.
  intros Hr Hx. pose proof Hr as (rf & Hrf & Hp & Htag)%lookup_tagging.
  destruct (ch_chain _ _ _ Hch x to Hx) as (c & Hd & Hc & Hn).
  assert (r ∈ c) as Hrc by (apply Hc; by eexists). apply list_elem_of_split in Hrc as (l1 & l2 & ->).
  destruct (unlink_ok ref_chain refs (to_first to) l1 r l2 Hd) as (h' & Hu & Hd' & Hrel & _ & _).
  destruct (unlink_inv ref_chain refs (to_first to) r rf _ _ Hrf Hu) as (refs1 & refs2 & Hb & Ha & Hh' & [o2 Ho2]).
  rewrite zlen_app, zlen_cons in Hn. pose proof (zlen_nonneg l1). pose proof (zlen_nonneg l2).
  pose proof (ch_dummy _ _ _ Hch x). destruct Hd as (Hf & Hseg & Hnd).
  apply dseg_app in Hseg as [Hseg1 (Hprev & _ & _)]. unfold prev_of in Hprev. rewrite Hrf in Hprev. cbn in Hprev.
  injection Hprev as Hprev. pose proof (nodup_mid l1 l2 r Hnd) as Hmid.
  exists rf, refs1, refs2, (first_or (l1 ++ l2) None). split; [done|]. split; [done|]. split; [done|]. split; [lia|].
  assert (<[r := no_ref]> refs2 = <[r := no_ref]> h') as Heq by (subst h'; by rewrite insert_insert_eq).
  assert (tagging (<[r := no_ref]> refs2) = delete r (tagging refs)) as Ht.
  { rewrite Heq, tagging_insert. cbn. by rewrite (tagging_relinked _ _ _ Hrel). }
  assert (forall q, q <> r -> next_of ref_chain refs q <> Some (Some r) -> next_of ref_chain refs2 q = next_of ref_chain refs q) as Hnx.
  { intros q Hq Hnq. transitivity (next_of ref_chain refs1 q).
    - cbn in Ha. destruct (tr_next rf) as [n|]; cbn in Ha; [|congruence]. by apply (prev_of_set_prev ref_chain refs1 refs2 n _ q Ha).
    - cbn in Hb. destruct (tr_prev rf) as [b|] eqn:Eb; [|by destruct Hb as (_ & -> & _)]. destruct Hb as [Hb _].
      rewrite (proj1 (next_of_set_next ref_chain refs refs1 b _ q Hb)), bool_decide_false; [done|]. intros ->.
      apply Hnq. apply (dseg_last ref_chain _ _ _ _ _ Hseg1). unfold last_or in Hprev. destruct (last l1); [|congruence]. congruence. }
  split; [|split; [done|split; [by eexists|split; [|split; [done|split]]]]]; cycle -1.
  { intros q Hq Hnq. rewrite <- Hnx by done. unfold next_of. by rewrite lookup_insert_ne. }
  - cbn in Hb. destruct (tr_prev rf) as [q|] eqn:Eq.
    + destruct Hb as [Hb Hfeq]. destruct l1 as [|z l1]; [done|]. cbn in Hf. rewrite zlen_cons in Hn.
      pose proof (zlen_nonneg l1). split_and!; [|lia|done|done]. rewrite Hf. intros [= ->].
      apply NoDup_cons in Hnd as [Hnd _]. apply Hnd, elem_of_app. right. left.
    + destruct Hb as (? & -> & ?). done.
  - assert (forall (d : list loc) f, r ∉ d -> dlist ref_chain h' f d -> dlist ref_chain (<[r := no_ref]> h') f d) as Hfr.
    { intros d f Hrd. apply dlist_frame. intros q Hq. unfold prev_of, next_of.
      rewrite lookup_insert_ne; [done|]. by intros ->. }
    assert (r ∉ l1 ++ l2) as Hr12 by (intros Hin; by apply Hmid in Hin as [_ ?]).
    constructor.
    + intros q pq y Hq. rewrite Ht in Hq. apply lookup_delete_Some in Hq as [_ Hq].
      destruct (decide (x = y)) as [->|Hne]; [rewrite lookup_insert_eq; by eexists|].
      rewrite lookup_insert_ne by done. by eapply ch_tag.
    + intros y ty Hy. rewrite Heq. destruct (decide (x = y)) as [<-|Hne].
      * rewrite lookup_insert_eq in Hy. injection Hy as <-. exists (l1 ++ l2). cbn. split_and!.
        -- by apply Hfr.
        -- intros q. rewrite <- Heq, Ht, Hmid, Hc. split.
           ++ intros [[pq Hq] Hne]. exists pq. by rewrite lookup_delete_ne.
           ++ intros [pq [Hne Hq]%lookup_delete_Some]. split; [by eexists|done].
        -- rewrite zlen_app. lia.
      * rewrite lookup_insert_ne in Hy by done. destruct (ch_chain _ _ _ Hch y ty Hy) as (d & Hdy & Hdm & Hdn).
        assert (r ∉ d) as Hrd by (intros [q Hq]%Hdm; congruence).
        exists d. split_and!; [|intros q|done].
        -- apply Hfr; [done|]. eapply (relinked_disjoint_dlist ref_chain refs h'); [|done|done].
           intros q Hq. by eapply (chains_disjoint x y (l1 ++ r :: l2) d).
        -- rewrite <- Heq, Hdm, Ht. split.
           ++ intros [pq Hq]. exists pq. rewrite lookup_delete_ne; [done|]. intros <-. congruence.
           ++ intros [pq [_ Hq]%lookup_delete_Some]. by exists pq.
    + apply (ch_dummy _ _ _ Hch).
  - rewrite Heq, dom_insert_L. destruct Hrel as [-> _]. apply elem_of_dom_2 in Hrf. set_solver.
Qed.

End Chains.
