(* ===== verification/TagPages.v ===== *)
(** * TagPages

    The invariant of the tag manager's state, and the effect on it of the
    operations on one page: linking and unlinking references, creating and
    disposing of tags, changing the number of references. *)

From S2P Require Import Prelude Protocol DList HashObject HashTable ObjectStore NameTable Tags TagRefs.

(** ** Flags *)

(** The two flags the tag manager uses. *)
Definition linked (po : PageObject) : bool := Z.testbit (ho_flags (po_base po)) 3.
Definition deleted (po : PageObject) : bool := Z.testbit (ho_flags (po_base po)) 6.

Lemma linked_flag po : flags_are_set (po_base po) HOF_LINKED_BY_TM = linked po.
Proof. by apply (flags_set_bit (po_base po) 3). Qed.
Lemma deleted_flag po : flags_are_set (po_base po) HOF_BEING_DELETED = deleted po.
Proof. by apply (flags_set_bit (po_base po) 6). Qed.
Lemma not_deleted_flag po : flags_are_clear (po_base po) HOF_BEING_DELETED = negb (deleted po).
Proof. by apply (flags_clear_bit (po_base po) 6). Qed.

Lemma taggable_flags po : taggable po = negb (deleted po) && linked po.
Proof. unfold taggable. by rewrite not_deleted_flag, linked_flag. Qed.

Lemma type_flags f g : Z.land g 3 = Z.land f 3 -> forall o o', ho_flags o = f -> ho_flags o' = g -> get_type o' = get_type o.
Proof. intros He o o' <- <-. unfold get_type. change HOF_TYPE_BITS with 3. by rewrite He. Qed.

Section Flags.
Context (po : PageObject).
Let set8 := po_with_base po (set_flags (po_base po) HOF_LINKED_BY_TM).
Let set64 := po_with_base po (set_flags (po_base po) HOF_BEING_DELETED).
Let clear8 := po_with_base po (clear_flags (po_base po) HOF_LINKED_BY_TM).

Lemma set_linked : linked set8 = true /\ deleted set8 = deleted po /\ get_type (po_base set8) = get_type (po_base po).
Proof.
  unfold linked, deleted, set8. cbn [po_base po_with_base set_flags clear_flags ho_with_flags ho_flags]. rewrite !Z.lor_spec. split_and!.
  - apply orb_true_r.
  - apply orb_false_r.
  - eapply type_flags; [|reflexivity|reflexivity]. unfold set_flags, clear_flags. cbn [ho_flags ho_with_flags]. by rewrite Z.land_lor_distr_l, Z.lor_0_r.
Qed.

Lemma set_deleted : linked set64 = linked po /\ deleted set64 = true /\ get_type (po_base set64) = get_type (po_base po).
Proof.
  unfold linked, deleted, set64. cbn [po_base po_with_base set_flags clear_flags ho_with_flags ho_flags]. rewrite !Z.lor_spec. split_and!.
  - apply orb_false_r.
  - apply orb_true_r.
  - eapply type_flags; [|reflexivity|reflexivity]. unfold set_flags, clear_flags. cbn [ho_flags ho_with_flags]. by rewrite Z.land_lor_distr_l, Z.lor_0_r.
Qed.

Lemma clear_linked : linked clear8 = false /\ deleted clear8 = deleted po /\ get_type (po_base clear8) = get_type (po_base po).
Proof.
  unfold linked, deleted, clear8. cbn [po_base po_with_base set_flags clear_flags ho_with_flags ho_flags]. rewrite !Z.land_spec. split_and!.
  - apply andb_false_r.
  - apply andb_true_r.
  - eapply type_flags; [|reflexivity|reflexivity]. unfold set_flags, clear_flags. cbn [ho_flags ho_with_flags]. by rewrite <- Z.land_assoc.
Qed.

End Flags.

(** ** Pages *)

Definition page_refs (po : PageObject) : list loc := po_tags po ++ default [] (po_xtags po).

(** The tags a page's references point to. *)
Definition tags_of (tg : gmap loc (loc * loc)) (po : PageObject) : list loc :=
  omap (fun r => snd <$> tg !! r) (page_refs po).

(** Exactly the references from [a] up to [b] are linked. *)
Definition page_tagged (tg : gmap loc (loc * loc)) (po : PageObject) (a b : Z) : Prop :=
  forall i r, page_refs po !! i = Some r -> is_Some (tg !! r) <-> a <= Z.of_nat i < b.

Record page_shape (nint : Z) (po : PageObject) : Prop := {
  ps_type : get_type (po_base po) = HOT_PAGE_OBJECT;
  ps_tags : zlen (po_tags po) = nint;
  ps_count : 0 <= get_num_tag_refs po <= USHORT_MAX_VAL;
  ps_xtags : match po_xtags po with
    | Some x => zlen x = get_num_tag_refs po - nint /\ nint < get_num_tag_refs po
    | None => get_num_tag_refs po <= nint
    end;
  ps_nodup : NoDup (page_refs po);
  ps_buffer : buffer_wf (ho_payload (po_base po));
}.

Record page_linking (refs : gmap loc TagRef) (p : loc) (po : PageObject) : Prop := {
  pl_refs r : r ∈ page_refs po -> is_Some (refs !! r);
  pl_owner r q x : r ∈ page_refs po -> tagging refs !! r = Some (q, x) -> q = p;
  pl_nodup : NoDup (tags_of (tagging refs) po);
}.

(** A page that is not being worked on. *)
Definition page_settled (tg : gmap loc (loc * loc)) (po : PageObject) : Prop :=
  if linked po then 0 < get_num_tag_refs po /\ page_tagged tg po 0 (get_num_tag_refs po)
  else page_tagged tg po 0 0 /\ (deleted po = true \/ get_num_tag_refs po = 0).

(** ** The invariant

    [dummy] counts references held by a command in progress, [pend] lists tags that
    may be empty for the time being, [busy] is the page being worked on. *)

Section Invariant.
Context {T : Type} `{NameTableLaws T} `{NewLocs}.
Context (nint : Z).
Implicit Types (st : TagStore T).

Record tm_inv st (dummy : loc -> Z) (pend : list loc) (busy : ptr) : Prop := mkInv {
  inv_table : exists l, nt_rep (tm_table st) l
    /\ forall n x, (n, x) ∈ l <-> exists to, tm_tags st !! x = Some to /\ to_name to = n;
  inv_names x to : tm_tags st !! x = Some to -> valid_name (to_name to);
  inv_chains : chains (tm_refs st) (tm_tags st) dummy;
  inv_num x to : tm_tags st !! x = Some to -> to_num to < 2 ^ 32;
  inv_ntags : Z.of_nat (size (tm_tags st)) < 2 ^ 32;
  inv_live x to : tm_tags st !! x = Some to -> to_untagged to = false -> to_num to = 0 -> x ∈ pend;
  inv_untagged : exists u to, ts_untagged st = Some u /\ tm_tags st !! u = Some to /\ to_name to = untagged_name;
  inv_special x to : tm_tags st !! x = Some to -> to_untagged to = true <-> ts_untagged st = Some x;
  inv_shape p po : tm_pages st !! p = Some po -> page_shape nint po;
  inv_linking p po : tm_pages st !! p = Some po -> page_linking (tm_refs st) p po;
  inv_settled p po : tm_pages st !! p = Some po -> busy <> Some p -> page_settled (tagging (tm_refs st)) po;
  inv_owned r p x : tagging (tm_refs st) !! r = Some (p, x) -> exists po, tm_pages st !! p = Some po /\ r ∈ page_refs po;
  inv_disjoint p q po qo r : tm_pages st !! p = Some po -> tm_pages st !! q = Some qo ->
    r ∈ page_refs po -> r ∈ page_refs qo -> p = q;
  inv_tables : NoDup (concat (tm_page_tables st));
  inv_enumerated p : p ∈ concat (tm_page_tables st) <-> is_Some (tm_pages st !! p);
}.

Definition no_dummies : loc -> Z := fun _ => 0.

(** Between messages. *)
Definition tm_ok st : Prop := tm_inv st no_dummies [] None.

(** ** What a page is marked with *)

(** The user tag at [x]. *)
Definition name_of st (x : loc) : option bytes :=
  to ← tm_tags st !! x; if to_untagged to then None else Some (to_name to).

Definition page_names st (po : PageObject) : list bytes :=
  omap (name_of st) (tags_of (tagging (tm_refs st)) po).

(** Only the page [p] is affected. *)
Record only_page (p : loc) st st' : Prop := mkOnlyPage {
  op_tables : tm_page_tables st' = tm_page_tables st;
  op_untagged : ts_untagged st' = ts_untagged st;
  op_quitting : ts_quitting st' = ts_quitting st;
  op_posted : tm_posted st' = tm_posted st;
  op_page q : q <> p -> tm_pages st' !! q = tm_pages st !! q;
  op_tags q po : q <> p -> tm_pages st !! q = Some po -> tags_of (tagging (tm_refs st')) po = tags_of (tagging (tm_refs st)) po;
  op_names q po : q <> p -> tm_pages st !! q = Some po -> page_names st' po = page_names st po;
}.

Lemma only_page_refl p st : only_page p st st.
Proof. by constructor. Qed.

Lemma only_page_trans p st1 st2 st3 : only_page p st1 st2 -> only_page p st2 st3 -> only_page p st1 st3.
Proof.
  intros [A1 A2 A3 A4 A5 A6 A7] [B1 B2 B3 B4 B5 B6 B7]. constructor; try congruence.
  - intros q Hq. by rewrite B5, A5.
  - intros q po Hq Hp. rewrite (B6 q), (A6 q); try done. by rewrite A5.
  - intros q po Hq Hp. rewrite (B7 q), (A7 q); try done. by rewrite A5.
Qed.

(** Tags of pages exist. *)
Lemma tags_of_exist st d pend busy p po x :
  tm_inv st d pend busy -> tm_pages st !! p = Some po -> x ∈ tags_of (tagging (tm_refs st)) po ->
  exists r, r ∈ page_refs po /\ tagging (tm_refs st) !! r = Some (p, x) /\ is_Some (tm_tags st !! x).
Proof.
  intros Hinv Hp Hx. unfold tags_of in Hx. apply list_elem_of_omap in Hx as (r & Hr & Hx).
  destruct (tagging (tm_refs st) !! r) as [[q y]|] eqn:E; [|done]. cbn in Hx. injection Hx as ->.
  pose proof (pl_owner _ _ _ (inv_linking _ _ _ _ Hinv p po Hp) r q x Hr E) as ->.
  exists r. split_and!; [done|done|]. by eapply (ch_tag _ _ _ (inv_chains _ _ _ _ Hinv)).
Qed.

(** [tags_of] depends on the page's references only. *)
Lemma tags_of_ext tg tg' po : (forall r, r ∈ page_refs po -> tg' !! r = tg !! r) -> tags_of tg' po = tags_of tg po.
Proof.
  unfold tags_of. induction (page_refs po) as [|r rs IH]; intros He; [done|]. cbn. rewrite He by left.
  rewrite IH; [done|]. intros q Hq. apply He. by right.
Qed.

Lemma page_names_ext st st' (po : PageObject) :
  tags_of (tagging (tm_refs st')) po = tags_of (tagging (tm_refs st)) po ->
  (forall x, x ∈ tags_of (tagging (tm_refs st)) po -> name_of st' x = name_of st x) ->
  page_names st' po = page_names st po.
Proof.
  unfold page_names. intros ->. induction (tags_of _ po) as [|x xs IH]; intros He; [done|]. cbn.
  rewrite He by left. rewrite IH; [done|]. intros y Hy. apply He. by right.
Qed.

(** ** Changing references and chains *)

(** What does not change about a tag. *)
Definition tag_meta (to : TagObject) : bytes * bool := (to_name to, to_untagged to).
Definition same_meta (tags tags' : gmap loc TagObject) : Prop := forall x, tag_meta <$> tags' !! x = tag_meta <$> tags !! x.

Lemma same_meta_lookup tags tags' x to : same_meta tags tags' -> tags' !! x = Some to ->
  exists to0, tags !! x = Some to0 /\ to_name to0 = to_name to /\ to_untagged to0 = to_untagged to.
Proof.
  intros Hs Hx. specialize (Hs x). rewrite Hx in Hs. destruct (tags !! x) as [to0|]; [|done]. cbn in Hs.
  exists to0. unfold tag_meta in Hs. by simplify_eq.
Qed.

Lemma same_meta_dom tags tags' : same_meta tags tags' -> dom tags' = dom tags.
Proof.
  intros Hs. apply set_eq. intros x. rewrite !elem_of_dom. specialize (Hs x).
  destruct (tags' !! x), (tags !! x); try done; split; intros [? ?]; done.
Qed.

Lemma same_meta_sym tags tags' : same_meta tags tags' -> same_meta tags' tags.
Proof. intros Hs x. by rewrite Hs. Qed.

Lemma same_meta_insert tags x to to' : tags !! x = Some to -> tag_meta to' = tag_meta to -> same_meta tags (<[x := to']> tags).
Proof.
  intros Hx Hm y. destruct (decide (x = y)) as [<-|Hne]; [rewrite lookup_insert_eq, Hx; cbn; by rewrite Hm|].
  by rewrite lookup_insert_ne.
Qed.

Lemma name_of_meta st refs' tags' x : same_meta (tm_tags st) tags' -> name_of (with_refs st refs' tags') x = name_of st x.
Proof.
  intros Hs. unfold name_of. cbn. specialize (Hs x).
  destruct (tags' !! x) as [[]|], (tm_tags st !! x) as [[]|]; cbn in *; try done. by injection Hs as -> ->.
Qed.

Lemma inv_with_refs st d pend busy refs' tags' d' pend' :
  tm_inv st d pend busy -> chains refs' tags' d' -> dom refs' = dom (tm_refs st) -> same_meta (tm_tags st) tags' ->
  (forall x to, tags' !! x = Some to -> to_num to < 2 ^ 32) ->
  (forall x to, tags' !! x = Some to -> to_untagged to = false -> to_num to = 0 -> x ∈ pend') ->
  (forall r, (forall p po, busy = Some p -> tm_pages st !! p = Some po -> r ∉ page_refs po) ->
     tagging refs' !! r = tagging (tm_refs st) !! r) ->
  (forall p po, busy = Some p -> tm_pages st !! p = Some po ->
     (forall r q x, r ∈ page_refs po -> tagging refs' !! r = Some (q, x) -> q = p) /\ NoDup (tags_of (tagging refs') po)) ->
  tm_inv (with_refs st refs' tags') d' pend' busy
  /\ forall p, (forall q, busy = Some q -> q = p) -> only_page p st (with_refs st refs' tags').
Proof.
  intros Hinv Hch Hdom Hmeta Hnum Hlive Htg Hp.
  assert (forall q po, busy <> Some q -> tm_pages st !! q = Some po -> forall r, r ∈ page_refs po ->
    tagging refs' !! r = tagging (tm_refs st) !! r) as Hother.
  { intros q po Hq Hpo r Hr. apply Htg. intros p po' -> Hpo' Hr'. apply Hq. f_equal.
    by eapply (inv_disjoint _ _ _ _ Hinv). }
  split; [constructor; cbn|].
  - destruct (inv_table _ _ _ _ Hinv) as (l & Hl & Hx). exists l. split; [done|]. intros n x. rewrite Hx. split.
    + intros (to & Hto & <-). destruct (same_meta_lookup tags' (tm_tags st) x to) as (to' & ? & ? & _);
        [by apply same_meta_sym|done|]. by exists to'.
    + intros (to & Hto & <-). destruct (same_meta_lookup (tm_tags st) tags' x to) as (to' & ? & ? & _); [done..|]. by exists to'.
  - intros x to Hx. destruct (same_meta_lookup _ _ x to Hmeta Hx) as (to0 & Ht0 & <- & _). by eapply (inv_names _ _ _ _ Hinv).
  - done.
  - done.
  - rewrite <- size_dom, (same_meta_dom _ _ Hmeta), size_dom. apply (inv_ntags _ _ _ _ Hinv).
  - done.
  - destruct (inv_untagged _ _ _ _ Hinv) as (u & to & Hu & Hto & Hn).
    destruct (same_meta_lookup tags' (tm_tags st) u to) as (to' & ? & ? & _); [by apply same_meta_sym|done|].
    exists u, to'. split_and!; [done|done|congruence].
  - intros x to Hx. destruct (same_meta_lookup _ _ x to Hmeta Hx) as (to0 & Ht0 & _ & <-). by apply (inv_special _ _ _ _ Hinv).
  - apply (inv_shape _ _ _ _ Hinv).
  - intros q po Hq. pose proof (inv_linking _ _ _ _ Hinv q po Hq) as [L1 L2 L3].
    assert (forall r, r ∈ page_refs po -> is_Some (refs' !! r)) as Hs.
    { intros r Hr. apply elem_of_dom. rewrite Hdom. apply elem_of_dom. by apply L1. }
    destruct (decide (busy = Some q)) as [Hb|Hb].
    + destruct (Hp q po Hb Hq) as [Ho Hn]. constructor; [done|by intros r q' x; apply Ho|done].
    + pose proof (Hother q po Hb Hq) as He. constructor; [done| |by rewrite (tags_of_ext _ _ _ He)].
      intros r q' x Hr. rewrite He by done. by apply L2.
  - intros q po Hq Hb. pose proof (inv_settled _ _ _ _ Hinv q po Hq Hb) as Hs. unfold page_settled, page_tagged in *.
    pose proof (Hother q po Hb Hq) as He.
    assert (forall a b, (forall i r, page_refs po !! i = Some r -> is_Some (tagging (tm_refs st) !! r) <-> a <= Z.of_nat i < b) ->
      forall i r, page_refs po !! i = Some r -> is_Some (tagging refs' !! r) <-> a <= Z.of_nat i < b) as Hpt.
    { intros a b Hab i r Hr. rewrite He; [by apply Hab|]. by eapply list_elem_of_lookup_2. }
    destruct (linked po); destruct Hs as [Hs1 Hs2]; (split; [auto|auto]).
  - intros r q x Hr.
    assert ((exists p po, busy = Some p /\ tm_pages st !! p = Some po /\ r ∈ page_refs po)
      \/ forall p po, busy = Some p -> tm_pages st !! p = Some po -> r ∉ page_refs po) as [He|Hne].
    { destruct busy as [p|]; [|by right]. destruct (tm_pages st !! p) as [po|] eqn:Epo; [|right; congruence].
      destruct (decide (r ∈ page_refs po)); [left; by exists p, po|]. right. intros ? ? [= <-] ?. congruence. }
    + destruct He as (p & po & Hb & Hpo & Hin). destruct (Hp p po Hb Hpo) as [Ho _].
      rewrite (Ho r q x Hin Hr). by exists po.
    + rewrite Htg in Hr by done. by eapply (inv_owned _ _ _ _ Hinv).
  - apply (inv_disjoint _ _ _ _ Hinv).
  - apply (inv_tables _ _ _ _ Hinv).
  - apply (inv_enumerated _ _ _ _ Hinv).
  - intros p Hbp. assert (forall q po, q <> p -> tm_pages st !! q = Some po ->
      tags_of (tagging refs') po = tags_of (tagging (tm_refs st)) po) as Ht.
    { intros q po Hq Hpo. apply tags_of_ext, (Hother q); [|done]. intros Hb. apply Hbp in Hb. done. }
    constructor; try done; cbn.
    intros q po Hq Hpo. apply page_names_ext; cbn; [by apply (Ht q)|]. intros x _. by apply name_of_meta.
Qed.

(** ** Linking and unlinking one reference *)

Lemma tags_of_split (tg : gmap loc (loc * loc)) po r : NoDup (page_refs po) -> r ∈ page_refs po ->
  exists a b, forall tg' : gmap loc (loc * loc), (forall q, q ∈ page_refs po -> q <> r -> tg' !! q = tg !! q) ->
    tags_of tg' po = a ++ option_list (snd <$> tg' !! r) ++ b.
Proof.
  intros Hnd Hr. apply list_elem_of_split in Hr as (l1 & l2 & Hl). unfold tags_of. rewrite Hl in *.
  apply NoDup_app in Hnd as (Hnd1 & Hdis & [Hr2 Hnd2]%NoDup_cons).
  exists (omap (fun r => snd <$> tg !! r) l1), (omap (fun r => snd <$> tg !! r) l2). intros tg' Htg.
  assert (forall l : list loc, (forall q, q ∈ l -> q ∈ l1 ++ r :: l2 /\ q <> r) ->
    omap (fun r => snd <$> tg' !! r) l = omap (fun r => snd <$> tg !! r) l) as He.
  { clear -Htg. induction l as [|q l IH]; intros Hl; [done|]. cbn. destruct (Hl q) as [? ?]; [left|].
    rewrite Htg by done. rewrite IH; [done|]. intros q' Hq'. apply Hl. by right. }
  rewrite omap_app. rewrite He.
  - f_equal. cbn. rewrite He; [by destruct (tg' !! r) as [[]|]|]. intros q Hq. split; [|by intros ->].
    apply elem_of_app. right. by right.
  - intros q Hq. split; [apply elem_of_app; by left|]. intros ->. apply (Hdis r Hq). left.
Qed.

Lemma tags_of_insert (tg : gmap loc (loc * loc)) po r q x : NoDup (page_refs po) -> r ∈ page_refs po -> tg !! r = None ->
  Permutation (tags_of (<[r := (q, x)]> tg) po) (x :: tags_of tg po).
Proof.
  intros Hnd Hr Hn. destruct (tags_of_split tg po r Hnd Hr) as (a & b & He).
  rewrite (He tg) by done. rewrite (He (<[r := (q, x)]> tg)) by (intros q' _ Hq'; by apply lookup_insert_ne).
  rewrite lookup_insert_eq, Hn. cbn. by rewrite <- Permutation_middle.
Qed.

Lemma tags_of_delete (tg : gmap loc (loc * loc)) po r q x : NoDup (page_refs po) -> r ∈ page_refs po -> tg !! r = Some (q, x) ->
  Permutation (tags_of tg po) (x :: tags_of (delete r tg) po).
Proof.
  intros Hnd Hr Hn. destruct (tags_of_split tg po r Hnd Hr) as (a & b & He).
  rewrite (He tg) by done. rewrite (He (delete r tg)) by (intros q' _ Hq'; by apply lookup_delete_ne).
  rewrite lookup_delete_eq, Hn. cbn. by rewrite <- Permutation_middle.
Qed.

Lemma tagref_link_ok st d pend p po r x to :
  tm_inv st d pend (Some p) -> tm_pages st !! p = Some po -> r ∈ page_refs po -> tagging (tm_refs st) !! r = None ->
  tm_tags st !! x = Some to -> x ∉ tags_of (tagging (tm_refs st)) po -> to_num to + 1 < 2 ^ 32 ->
  exists st', tagref_link st r p x = Some st' /\ tm_inv st' d pend (Some p) /\ only_page p st st'
    /\ tm_pages st' = tm_pages st /\ tagging (tm_refs st') = <[r := (p, x)]> (tagging (tm_refs st))
    /\ dom (tm_refs st') = dom (tm_refs st) /\ same_meta (tm_tags st) (tm_tags st').
Proof.
  intros Hinv Hp Hr Hn Hx Hxn Hlt. unfold tagref_link. rewrite Hp. cbn [mbind option_bind]. rewrite Hx. cbn [mbind option_bind].
  rewrite bool_decide_true by apply (ps_type _ _ (inv_shape _ _ _ _ Hinv p po Hp)). cbn [c3_assert mbind option_bind].
  destruct (chains_link _ _ _ (inv_chains _ _ _ _ Hinv) r p x to Hn) as (refs' & He & Hch & Ht & Hdom); [|done|done|].
  { by apply (pl_refs _ _ _ (inv_linking _ _ _ _ Hinv p po Hp)). }
  apply bind_Some in He as (h1 & -> & He). cbn [mbind option_bind]. rewrite He. cbn [mbind option_bind].
  eexists. split; [done|].
  assert (same_meta (tm_tags st) (<[x := mkTagObject (to_name to) (Some r) (u32 (to_num to + 1)) (to_untagged to)]> (tm_tags st)))
    as Hmeta by (by eapply same_meta_insert).
  edestruct (inv_with_refs st d pend (Some p) refs'
    (<[x := mkTagObject (to_name to) (Some r) (u32 (to_num to + 1)) (to_untagged to)]> (tm_tags st)) d pend Hinv)
    as [Hinv' Honly]; [done|done|done| | | | |].
  - intros y ty Hy. destruct (decide (x = y)) as [<-|Hne].
    + rewrite lookup_insert_eq in Hy. injection Hy as <-. cbn. apply u32_range.
    + rewrite lookup_insert_ne in Hy by done. by eapply (inv_num _ _ _ _ Hinv).
  - intros y ty Hy Hu Hz. destruct (decide (x = y)) as [<-|Hne].
    + rewrite lookup_insert_eq in Hy. injection Hy as <-. cbn in *.
      pose proof (tag_num _ _ _ (inv_chains _ _ _ _ Hinv) x to Hx). pose proof (ch_dummy _ _ _ (inv_chains _ _ _ _ Hinv) x).
      rewrite u32_small in Hz by (unfold is_u32; lia). lia.
    + rewrite lookup_insert_ne in Hy by done. by eapply (inv_live _ _ _ _ Hinv).
  - intros q Hq. rewrite Ht, lookup_insert_ne; [done|]. intros <-. by eapply Hq.
  - intros q qo [= <-] Hqo. assert (qo = po) as -> by congruence. rewrite Ht. split.
    + intros q q' y Hq. destruct (decide (r = q)) as [<-|Hne]; [rewrite lookup_insert_eq; congruence|].
      rewrite lookup_insert_ne by done. by apply (pl_owner _ _ _ (inv_linking _ _ _ _ Hinv p po Hp)).
    + rewrite (tags_of_insert _ po r p x); [|apply (ps_nodup _ _ (inv_shape _ _ _ _ Hinv p po Hp))|done|done].
      apply NoDup_cons. split; [done|]. apply (pl_nodup _ _ _ (inv_linking _ _ _ _ Hinv p po Hp)).
  - split_and!; try done. apply Honly. by intros ? [= ->].
Qed.

Lemma tagref_unlink_ok st d pend p po r x to :
  tm_inv st d pend (Some p) -> tm_pages st !! p = Some po -> r ∈ page_refs po ->
  tagging (tm_refs st) !! r = Some (p, x) -> tm_tags st !! x = Some to ->
  let empty := if (to_num to =? 1) && negb (to_untagged to) then Some x else None in
  exists st', tagref_unlink st r = Some (empty, st') /\ tm_inv st' d (option_list empty ++ pend) (Some p) /\ only_page p st st'
    /\ tm_pages st' = tm_pages st /\ tagging (tm_refs st') = delete r (tagging (tm_refs st))
    /\ dom (tm_refs st') = dom (tm_refs st) /\ same_meta (tm_tags st) (tm_tags st')
    /\ (exists to', tm_tags st' !! x = Some to' /\ to_num to' = to_num to - 1)
    /\ (forall y, y <> x -> tm_tags st' !! y = tm_tags st !! y)
    /\ (forall q, q <> r -> next_of ref_chain (tm_refs st) q <> Some (Some r) ->
         next_of ref_chain (tm_refs st') q = next_of ref_chain (tm_refs st) q).
Proof.
  intros Hinv Hp Hr Ht Hx empty. pose proof (inv_num _ _ _ _ Hinv x to Hx) as Hlt. unfold tagref_unlink.
  destruct (chains_unlink _ _ _ (inv_chains _ _ _ _ Hinv) r p x to Ht Hx)
    as (rf & refs1 & refs2 & first & Hrf & Hpg & Htag & Hpos & Hb & Ha & [o2 Ho2] & Hch & Ht' & Hdom & Hnx).
  rewrite Hrf. cbn [mbind option_bind]. rewrite Hpg. cbn [mbind option_bind]. rewrite Hp. cbn [mbind option_bind].
  rewrite Htag. cbn [mbind option_bind]. rewrite Hx. cbn [mbind option_bind].
  rewrite (bool_decide_true (get_type _ = _)) by apply (ps_type _ _ (inv_shape _ _ _ _ Hinv p po Hp)).
  destruct (to_num to =? 0) eqn:E0; zbool; [lia|]. cbn [andb negb c3_assert mbind option_bind].
  assert (match tr_prev rf with
    | Some q => _ ← c3_assert (negb (bool_decide (to_first to = Some r)) && (1 <? to_num to));
                refs ← update (tm_refs st) q (set_next ref_chain (tr_next rf)); Some (refs, to_first to)
    | None => _ ← c3_assert (bool_decide (to_first to = Some r)); Some (tm_refs st, tr_next rf)
    end = Some (refs1, first)) as ->.
  { destruct (tr_prev rf) as [q|].
    - destruct Hb as (Hf & Hn & Hu & ->). rewrite bool_decide_false by done. destruct (1 <? _) eqn:E1; zbool; [|lia].
      cbn [andb negb c3_assert mbind option_bind]. by rewrite Hu.
    - destruct Hb as (Hf & -> & ->). by rewrite bool_decide_true. }
  cbn [mbind option_bind]. rewrite Ha. cbn [mbind option_bind]. rewrite (update_ok refs2 r o2) by done. cbn [mbind option_bind].
  rewrite (u32_small (to_num to - 1)) by (unfold is_u32; lia).
  assert ((to_num to - 1 =? 0) = (to_num to =? 1)) as ->
    by (destruct (to_num to =? 1) eqn:E1; zbool; [apply Z.eqb_eq; lia|apply Z.eqb_neq; lia]).
  eexists. split; [done|].
  edestruct (inv_with_refs st d pend (Some p) (<[r := no_ref]> refs2)
    (<[x := mkTagObject (to_name to) first (to_num to - 1) (to_untagged to)]> (tm_tags st)) d (option_list empty ++ pend) Hinv)
    as [Hinv' Honly]; [done|done|by eapply same_meta_insert| | | | |].
  - intros y ty Hy. destruct (decide (x = y)) as [<-|Hne].
    + rewrite lookup_insert_eq in Hy. injection Hy as <-. cbn. lia.
    + rewrite lookup_insert_ne in Hy by done. by eapply (inv_num _ _ _ _ Hinv).
  - intros y ty Hy Hu Hz. destruct (decide (x = y)) as [<-|Hne].
    + rewrite lookup_insert_eq in Hy. injection Hy as <-. cbn in *. unfold empty. rewrite Hu.
      destruct (to_num to =? 1) eqn:E1; zbool; [cbn; left|lia].
    + rewrite lookup_insert_ne in Hy by done. apply elem_of_app. right. by eapply (inv_live _ _ _ _ Hinv).
  - intros q Hq. rewrite Ht', lookup_delete_ne; [done|]. intros <-. by eapply Hq.
  - intros q qo [= <-] Hqo. assert (qo = po) as -> by congruence. rewrite Ht'. split.
    + intros q q' y Hq [_ Hq']%lookup_delete_Some. by eapply (pl_owner _ _ _ (inv_linking _ _ _ _ Hinv p po Hp)).
    + pose proof (pl_nodup _ _ _ (inv_linking _ _ _ _ Hinv p po Hp)) as Hnd.
      rewrite (tags_of_delete _ po r p x) in Hnd; [|apply (ps_nodup _ _ (inv_shape _ _ _ _ Hinv p po Hp))|done|done].
      by apply NoDup_cons in Hnd as [_ Hnd].
  - split_and!; try done; [apply Honly; by intros ? [= ->]|by eapply same_meta_insert| |].
    + exists (mkTagObject (to_name to) first (to_num to - 1) (to_untagged to)). cbn. by rewrite lookup_insert_eq.
    + intros y Hy. cbn. by rewrite lookup_insert_ne.
Qed.

(** ** Creating and disposing of tags *)

Lemma table_length (tags : gmap loc TagObject) (l : list (bytes * loc)) :
  NoDup l.*2 -> (forall n x, (n, x) ∈ l <-> exists to, tags !! x = Some to /\ to_name to = n) ->
  zlen l = Z.of_nat (size tags).
Proof.
  intros Hnd Hl. unfold zlen. f_equal.
  rewrite <- size_dom, <- (length_fmap snd), <- (size_list_to_set (C := gset loc) (l.*2) Hnd). f_equal.
  apply set_eq. intros x. rewrite elem_of_list_to_set, elem_of_dom, list_elem_of_fmap. split.
  - intros ([n y] & -> & Hy). apply Hl in Hy as (to & ? & _). by eexists.
  - intros [to Hto]. exists (to_name to, x). split; [done|]. apply Hl. by exists to.
Qed.

(** No page refers to an empty tag. *)
Lemma empty_unused st d pend busy x to : tm_inv st d pend busy -> tm_tags st !! x = Some to -> to_num to = 0 ->
  forall r p, tagging (tm_refs st) !! r <> Some (p, x).
Proof.
  intros Hinv Hx Hz r p Hr. pose proof (tag_num _ _ _ (inv_chains _ _ _ _ Hinv) x to Hx) as Hn.
  pose proof (ch_dummy _ _ _ (inv_chains _ _ _ _ Hinv) x).
  assert (size (refs_to (tm_refs st) x) = 0%nat) as Hs by lia. rewrite <- size_dom in Hs.
  apply size_empty_inv in Hs. apply (not_elem_of_empty (C := gset loc) r), Hs, elem_refs_to. by exists p.
Qed.

(** Replacing the table: pages and references stay, and tags that pages refer to keep
    their names. *)
Lemma inv_with_table st d pend busy table tags' d' pend' :
  tm_inv st d pend busy ->
  (exists l, nt_rep table l /\ forall n x, (n, x) ∈ l <-> exists to, tags' !! x = Some to /\ to_name to = n) ->
  (forall x to, tags' !! x = Some to -> valid_name (to_name to)) -> chains (tm_refs st) tags' d' ->
  (forall x to, tags' !! x = Some to -> to_num to < 2 ^ 32) -> Z.of_nat (size tags') < 2 ^ 32 ->
  (forall x to, tags' !! x = Some to -> to_untagged to = false -> to_num to = 0 -> x ∈ pend') ->
  (forall x, ts_untagged st = Some x -> tags' !! x = tm_tags st !! x) ->
  (forall x to, tags' !! x = Some to -> to_untagged to = true <-> ts_untagged st = Some x) ->
  (forall r p x, tagging (tm_refs st) !! r = Some (p, x) -> tags' !! x = tm_tags st !! x) ->
  tm_inv (with_table st table tags') d' pend' busy /\ forall p, only_page p st (with_table st table tags').
Proof.
  intros Hinv Ht Hn Hch Hnum Hsz Hl Hu Hs Hr. split; [constructor; cbn; try done|].
  - destruct (inv_untagged _ _ _ _ Hinv) as (u & to & Hu' & Hto & Hnm). exists u, to. split_and!; [done| |done].
    by rewrite Hu.
  - apply (inv_shape _ _ _ _ Hinv).
  - apply (inv_linking _ _ _ _ Hinv).
  - apply (inv_settled _ _ _ _ Hinv).
  - apply (inv_owned _ _ _ _ Hinv).
  - apply (inv_disjoint _ _ _ _ Hinv).
  - apply (inv_tables _ _ _ _ Hinv).
  - apply (inv_enumerated _ _ _ _ Hinv).
  - intros p. constructor; try done. intros q po Hq Hpo. apply page_names_ext; [done|]. intros x Hx.
    destruct (tags_of_exist _ _ _ _ _ _ _ Hinv Hpo Hx) as (r & _ & Htg & _). unfold name_of. cbn. by rewrite (Hr r q x).
Qed.

Lemma dispose_tag_ok st d pend busy x to :
  tm_inv st d pend busy -> tm_tags st !! x = Some to -> to_num to = 0 -> to_untagged to = false ->
  exists table, dispose_tag st x = Some (with_table st table (delete x (tm_tags st)))
    /\ tm_inv (with_table st table (delete x (tm_tags st))) d (filter (fun y => y <> x) pend) busy
    /\ forall p, only_page p st (with_table st table (delete x (tm_tags st))).
Proof.
  intros Hinv Hx Hz Hut. pose proof (inv_ntags _ _ _ _ Hinv) as Hlt. unfold dispose_tag. rewrite Hx. cbn [mbind option_bind]. rewrite Hz. cbn [Z.eqb c3_assert mbind option_bind].
  destruct (inv_table _ _ _ _ Hinv) as (l & Hrep & Hl).
  assert ((to_name to, x) ∈ l) as Hin by (apply Hl; by exists to).
  destruct (nt_remove_ok _ l (to_name to) x Hrep Hin) as (t' & l' & -> & Hrep' & Hperm).
  { by rewrite (table_length (tm_tags st) l (nt_locs _ _ Hrep) Hl). }
  cbn [mbind option_bind]. exists t'. split; [done|].
  pose proof (empty_unused _ _ _ _ _ _ Hinv Hx Hz) as Hun.
  apply (inv_with_table st d pend); try done.
  - exists l'. split; [done|]. pose proof (nt_locs _ _ Hrep) as Hnd. rewrite Hperm in Hnd. cbn in Hnd.
    apply NoDup_cons in Hnd as [Hxl Hnd]. intros n y. split.
    + intros Hy. assert ((n, y) ∈ l) as (ty & Hty & Hn)%Hl by (rewrite Hperm; by right). exists ty. split; [|done].
      rewrite lookup_delete_ne; [done|]. intros ->. apply Hxl, list_elem_of_fmap. by exists (n, y).
    + intros (ty & [Hne Hty]%lookup_delete_Some & Hn). assert ((n, y) ∈ l) as Hy by (apply Hl; by exists ty).
      rewrite Hperm in Hy. apply elem_of_cons in Hy as [Heq|Hy]; [|done]. congruence.
  - intros y ty [_ Hty]%lookup_delete_Some. by eapply (inv_names _ _ _ _ Hinv).
  - destruct (inv_chains _ _ _ _ Hinv) as [C1 C2 C3]. constructor; [|intros y ty [_ Hty]%lookup_delete_Some; by apply C2|done].
    intros r p y Hr. rewrite lookup_delete_ne; [by eapply C1|]. intros <-. by eapply Hun.
  - intros y ty [_ Hty]%lookup_delete_Some. by eapply (inv_num _ _ _ _ Hinv).
  - rewrite map_size_delete, Hx. lia.
  - intros y ty [Hne Hty]%lookup_delete_Some Hu' Hz'. apply list_elem_of_filter. split; [congruence|].
    by eapply (inv_live _ _ _ _ Hinv).
  - intros y Hy. apply lookup_delete_ne. intros <-. apply (inv_special _ _ _ _ Hinv x to) in Hy; [congruence|done].
  - intros y ty [_ Hty]%lookup_delete_Some. by apply (inv_special _ _ _ _ Hinv).
  - intros r p y Hr. apply lookup_delete_ne. intros <-. by eapply Hun.
Qed.

Lemma create_tag_ok st pend busy name :
  tm_inv st no_dummies pend busy -> valid_name name ->
  (forall x to, tm_tags st !! x = Some to -> to_name to <> name) -> Z.of_nat (size (tm_tags st)) + 1 < 2 ^ 32 ->
  exists x table, create_tag st name false = Some (x, with_table st table (<[x := mkTagObject name None 0 false]> (tm_tags st)))
    /\ tm_tags st !! x = None
    /\ tm_inv (with_table st table (<[x := mkTagObject name None 0 false]> (tm_tags st))) no_dummies (x :: pend) busy
    /\ forall p, only_page p st (with_table st table (<[x := mkTagObject name None 0 false]> (tm_tags st))).
Proof.
  intros Hinv Hv Hnew Hlt. unfold create_tag.
  pose proof (new_locs_length (dom (tm_tags st)) 1) as Hlen. pose proof (new_locs_fresh (dom (tm_tags st)) 1) as Hfr.
  destruct (new_locs (dom (tm_tags st)) 1) as [|x rest]; [done|]. cbn [head mbind option_bind].
  assert (tm_tags st !! x = None) as Hx by (apply not_elem_of_dom, Hfr; left).
  destruct (inv_table _ _ _ _ Hinv) as (l & Hrep & Hl).
  destruct (nt_add_ok _ l name x Hrep Hv) as (t' & l' & -> & Hrep' & Hperm).
  { intros ([n y] & -> & Hy)%list_elem_of_fmap. apply Hl in Hy as (to & Hto & Hn). by eapply Hnew. }
  { intros ([n y] & -> & Hy)%list_elem_of_fmap. apply Hl in Hy as (to & Hto & Hn). cbn in Hx. congruence. }
  { by rewrite (table_length (tm_tags st) l (nt_locs _ _ Hrep) Hl). }
  cbn [mbind option_bind]. exists x, t'. split; [done|]. split; [done|].
  assert (forall r p, tagging (tm_refs st) !! r <> Some (p, x)) as Hun.
  { intros r p Hr. apply (ch_tag _ _ _ (inv_chains _ _ _ _ Hinv)) in Hr as [? ?]. congruence. }
  apply (inv_with_table st no_dummies pend); try done.
  - exists l'. split; [done|]. intros n y. rewrite Hperm, elem_of_cons, Hl. destruct (decide (x = y)) as [<-|Hne].
    + rewrite lookup_insert_eq, Hx. split.
      * intros [Heq|(to & ? & _)]; [|done]. injection Heq as ->. by eexists.
      * intros (to & [= <-] & <-). by left.
    + rewrite lookup_insert_ne by done. split; [intros [?|?]; [congruence|done]|by right].
  - intros y ty Hy. destruct (decide (x = y)) as [<-|Hne].
    + rewrite lookup_insert_eq in Hy. by injection Hy as <-.
    + rewrite lookup_insert_ne in Hy by done. by eapply (inv_names _ _ _ _ Hinv).
  - destruct (inv_chains _ _ _ _ Hinv) as [C1 C2 C3]. constructor; [| |done].
    + intros r p y Hr. rewrite lookup_insert_ne; [by eapply C1|]. intros <-. by eapply Hun.
    + intros y ty Hy. destruct (decide (x = y)) as [<-|Hne].
      * rewrite lookup_insert_eq in Hy. injection Hy as <-. exists []. split_and!; [|intros r|done].
        -- split_and!; [done|done|constructor].
        -- split; [by intros ?%elem_of_nil|]. intros [p Hp]. by apply Hun in Hp.
      * rewrite lookup_insert_ne in Hy by done. by apply C2.
  - intros y ty Hy. destruct (decide (x = y)) as [<-|Hne].
    + rewrite lookup_insert_eq in Hy. by injection Hy as <-.
    + rewrite lookup_insert_ne in Hy by done. by eapply (inv_num _ _ _ _ Hinv).
  - rewrite map_size_insert, Hx. lia.
  - intros y ty Hy Hu Hz. destruct (decide (x = y)) as [<-|Hne]; [left|].
    rewrite lookup_insert_ne in Hy by done. right. by eapply (inv_live _ _ _ _ Hinv).
  - intros y Hy. apply lookup_insert_ne. intros <-.
    destruct (inv_untagged _ _ _ _ Hinv) as (u & to & Hu & Hto & _). congruence.
  - intros y ty Hy. destruct (decide (x = y)) as [<-|Hne].
    + rewrite lookup_insert_eq in Hy. injection Hy as <-. cbn. split; [done|]. intros Hu'.
      destruct (inv_untagged _ _ _ _ Hinv) as (u & to & Hu & Hto & _). congruence.
    + rewrite lookup_insert_ne in Hy by done. by apply (inv_special _ _ _ _ Hinv).
  - intros r p y Hr. apply lookup_insert_ne. intros <-. by eapply Hun.
Qed.

(** A tag is found by its name. *)
Lemma find_tag_ok st d pend busy name : tm_inv st d pend busy -> valid_name name ->
  exists t, find_tag st name = Some t
    /\ match t with
       | Some x => exists to, tm_tags st !! x = Some to /\ to_name to = name
       | None => forall x to, tm_tags st !! x = Some to -> to_name to <> name
       end.
Proof.
  intros Hinv Hv. destruct (inv_table _ _ _ _ Hinv) as (l & Hrep & Hl).
  destruct (nt_find_ok _ l name Hrep Hv) as (t & He & Ht). exists t. split; [done|]. destruct t as [x|].
  - apply Hl. by apply Ht.
  - intros x to Hx Hn. assert (None = Some x) as ?; [|done]. apply Ht, Hl. by exists to.
Qed.

(** Names identify tags. *)
Lemma tag_name_inj st d pend busy x y tx ty : tm_inv st d pend busy ->
  tm_tags st !! x = Some tx -> tm_tags st !! y = Some ty -> to_name tx = to_name ty -> x = y.
Proof.
  intros Hinv Hx Hy He. destruct (inv_table _ _ _ _ Hinv) as (l & Hrep & Hl).
  assert ((to_name tx, x) ∈ l) as Hxl by (apply Hl; by exists tx). assert ((to_name tx, y) ∈ l) as Hyl by (apply Hl; by exists ty).
  apply list_elem_of_lookup in Hxl as (a & Ha), Hyl as (b & Hb). assert (a = b) as <-; [|by simplify_eq].
  eapply NoDup_lookup; [exact (nt_names _ _ Hrep)| |]; rewrite list_lookup_fmap; [by rewrite Ha|by rewrite Hb].
Qed.

End Invariant.
