(* ===== verification/TagOps.v ===== *)
(** * TagOps

    The tag manager's operations on whole pages: unlinking a page from all its
    tags, and linking it to a new list of tags. *)

From S2P Require Import Prelude Protocol DList HashObject HashTable ObjectStore NameTable Tags TagRefs TagPages.

Section Ops.
Context {T : Type} `{NameTableLaws T} `{NewLocs}.
Context (nint : Z) (Hnint : 0 < nint).
Implicit Types (st : TagStore T).
Local Abbreviation tm_inv := (tm_inv nint).

(** ** The invariant at work on a page *)

Lemma inv_weaken st d pend pend' busy : tm_inv st d pend busy -> (forall x, x ∈ pend -> x ∈ pend') -> tm_inv st d pend' busy.
Proof.
  intros Hinv Hs. constructor; try apply Hinv. intros x to Hx Hu Hz. apply Hs. by eapply (inv_live _ _ _ _ _ Hinv).
Qed.

Lemma inv_busy st d pend p : tm_inv st d pend None -> tm_inv st d pend (Some p).
Proof. intros Hinv. constructor; try apply Hinv. intros q po Hq _. by apply (inv_settled _ _ _ _ _ Hinv q). Qed.

Lemma inv_settle st d pend p :
  tm_inv st d pend (Some p) -> (forall po, tm_pages st !! p = Some po -> page_settled (tagging (tm_refs st)) po) ->
  tm_inv st d pend None.
Proof.
  intros Hinv Hp. constructor; try apply Hinv. intros q po Hq _. destruct (decide (q = p)) as [->|Hne]; [by apply Hp|].
  apply (inv_settled _ _ _ _ _ Hinv q); congruence.
Qed.

Lemma inv_with_page st d pend p po po' refs' :
  tm_inv st d pend (Some p) -> tm_pages st !! p = Some po -> page_shape nint po' ->
  chains refs' (tm_tags st) d -> tagging refs' = tagging (tm_refs st) -> page_linking refs' p po' ->
  (forall r x, tagging (tm_refs st) !! r = Some (p, x) -> r ∈ page_refs po') ->
  (forall r, r ∉ page_refs po -> is_Some (tm_refs st !! r) -> is_Some (refs' !! r)) ->
  (forall q qo r, q <> p -> tm_pages st !! q = Some qo -> r ∈ page_refs po' -> r ∉ page_refs qo) ->
  tm_inv (with_page st p po' refs') d pend (Some p) /\ only_page p st (with_page st p po' refs').
Proof.
  intros Hinv Hp Hsh Hch Ht Hlk Hown Hdom Hdis. split; [constructor; cbn; try apply Hinv; try done|].
  - intros q qo Hq. destruct (decide (p = q)) as [<-|Hne]; [rewrite lookup_insert_eq in Hq; congruence|].
    rewrite lookup_insert_ne in Hq by done. by eapply (inv_shape _ _ _ _ _ Hinv).
  - intros q qo Hq. destruct (decide (p = q)) as [<-|Hne]; [rewrite lookup_insert_eq in Hq; congruence|].
    rewrite lookup_insert_ne in Hq by done. destruct (inv_linking _ _ _ _ _ Hinv q qo Hq) as [L1 L2 L3].
    constructor; rewrite ?Ht; [|done|done]. intros r Hr. apply Hdom; [|by apply L1]. intros Hr'.
    apply Hne. by eapply (inv_disjoint _ _ _ _ _ Hinv).
  - intros q qo Hq Hne. rewrite lookup_insert_ne in Hq by congruence. rewrite Ht. by eapply (inv_settled _ _ _ _ _ Hinv).
  - intros r q x Hr. rewrite Ht in Hr. destruct (decide (p = q)) as [<-|Hne].
    + exists po'. rewrite lookup_insert_eq. split; [done|]. by eapply Hown.
    + rewrite lookup_insert_ne by done. by eapply (inv_owned _ _ _ _ _ Hinv).
  - intros a b ao bo r Ha Hb Hra Hrb.
    destruct (decide (p = a)) as [<-|Ha'], (decide (p = b)) as [<-|Hb']; [done| | |].
    + rewrite lookup_insert_eq in Ha. rewrite lookup_insert_ne in Hb by done. injection Ha as <-.
      exfalso. eapply (Hdis b bo r); eauto.
    + rewrite lookup_insert_ne in Ha by done. rewrite lookup_insert_eq in Hb. injection Hb as <-.
      exfalso. eapply (Hdis a ao r); eauto.
    + rewrite lookup_insert_ne in Ha by done. rewrite lookup_insert_ne in Hb by done. by eapply (inv_disjoint _ _ _ _ _ Hinv).
  - intros q. rewrite (inv_enumerated _ _ _ _ _ Hinv). destruct (decide (p = q)) as [<-|Hne].
    + rewrite lookup_insert_eq, Hp. done.
    + by rewrite lookup_insert_ne.
  - constructor; try done; cbn.
    + intros q Hq. by rewrite lookup_insert_ne.
    + intros q qo Hq Hqo. by rewrite Ht.
    + intros q qo Hq Hqo. apply page_names_ext; cbn; [by rewrite Ht|done].
Qed.

(** Changing fields of the page that have nothing to do with tags. *)
Lemma inv_with_base st d pend p po o :
  tm_inv st d pend (Some p) -> tm_pages st !! p = Some po ->
  get_type o = get_type (po_base po) -> pho_count (ho_payload o) = get_num_tag_refs po -> buffer_wf (ho_payload o) ->
  tm_inv (with_page st p (po_with_base po o) (tm_refs st)) d pend (Some p)
  /\ only_page p st (with_page st p (po_with_base po o) (tm_refs st)).
Proof.
  intros Hinv Hp Hty Hc Hb. destruct (inv_shape _ _ _ _ _ Hinv p po Hp) as [S1 S2 S3 S4 S5 S6].
  apply (inv_with_page st d pend p po); try done.
  - assert (get_num_tag_refs (po_with_base po o) = get_num_tag_refs po) as Hn by done.
    constructor; rewrite ?Hn; cbn; [congruence|done..].
  - apply Hinv.
  - destruct (inv_linking _ _ _ _ _ Hinv p po Hp) as [L1 L2 L3]. constructor; [exact L1|exact L2|exact L3].
  - intros r x Hr. destruct (inv_owned _ _ _ _ _ Hinv r p x Hr) as (po1 & Hpo1 & Hin).
    by replace po1 with po in Hin by congruence.
  - intros q qo r Hq Hqo Hr Hr'. apply Hq. by eapply (inv_disjoint _ _ _ _ _ Hinv).
Qed.

Lemma get_tag_ref_ok po i : page_shape nint po -> 0 <= i < get_num_tag_refs po ->
  exists r, get_tag_ref nint po i = Some r /\ page_refs po !! Z.to_nat i = Some r.
Proof.
  intros [_ Hl Hc Hx _ _] Hi. unfold get_tag_ref, page_refs. destruct (i <? get_num_tag_refs po) eqn:E; zbool; [|lia].
  cbn [c3_assert mbind option_bind]. destruct (i <? nint) eqn:E1; zbool.
  - destruct (lookup_lt_is_Some_2 (po_tags po) (Z.to_nat i)) as [r Hr]; [unfold zlen in Hl; lia|].
    exists r. split; [done|]. by apply lookup_app_l_Some.
  - destruct (po_xtags po) as [x|]; [|lia]. cbn [mbind option_bind default]. destruct Hx as [Hx _].
    destruct (lookup_lt_is_Some_2 x (Z.to_nat (i - nint))) as [r Hr]; [unfold zlen in Hx; lia|].
    exists r. split; [done|]. rewrite lookup_app_r by (unfold zlen in Hl; lia).
    rewrite <- Hr. f_equal. unfold zlen in Hl. lia.
Qed.

Lemma page_refs_length po : page_shape nint po -> zlen (page_refs po) = Z.max nint (get_num_tag_refs po).
Proof.
  intros [_ Hl Hc Hx _ _]. unfold page_refs. rewrite zlen_app, Hl. destruct (po_xtags po) as [x|]; cbn; [|unfold zlen; cbn; lia].
  destruct Hx as [-> ?]. lia.
Qed.

(** No reference is linked iff the page has no tags. *)
Lemma untagged_tags_of (tg : gmap loc (loc * loc)) po :
  (forall i r, page_refs po !! i = Some r -> tg !! r = None) -> tags_of tg po = [].
Proof.
  unfold tags_of. induction (page_refs po) as [|r rs IH]; intros Hn; [done|]. cbn.
  rewrite (Hn 0%nat r eq_refl). cbn. apply IH. intros i. apply (Hn (S i)).
Qed.

Lemma page_tagged_none (tg : gmap loc (loc * loc)) po a : page_tagged tg po a a -> forall i r, page_refs po !! i = Some r -> tg !! r = None.
Proof.
  intros Hp i r Hr. specialize (Hp i r Hr). destruct (tg !! r) as [v|]; [|done]. exfalso.
  assert (a <= Z.of_nat i < a) by (apply Hp; by eexists). lia.
Qed.

(** Unlinking one more reference of the page. *)
Lemma page_tagged_unlink (tg : gmap loc (loc * loc)) po a b r : NoDup (page_refs po) -> page_refs po !! Z.to_nat a = Some r -> 0 <= a < b ->
  page_tagged tg po a b -> page_tagged (delete r tg) po (a + 1) b.
Proof.
  intros Hnd Hr Ha Ht i q Hq. destruct (decide (r = q)) as [<-|Hne].
  - rewrite lookup_delete_eq. pose proof (NoDup_lookup _ _ _ _ Hnd Hr Hq). split; [by intros [? ?]|lia].
  - rewrite lookup_delete_ne by done. rewrite (Ht i q Hq). assert (i <> Z.to_nat a) by (intros ->; congruence). lia.
Qed.

Lemma page_tagged_link (tg : gmap loc (loc * loc)) po b r v : NoDup (page_refs po) -> page_refs po !! Z.to_nat b = Some r -> 0 <= b ->
  page_tagged tg po 0 b -> page_tagged (<[r := v]> tg) po 0 (b + 1).
Proof.
  intros Hnd Hr Hb Ht i q Hq. destruct (decide (r = q)) as [<-|Hne].
  - rewrite lookup_insert_eq. pose proof (NoDup_lookup _ _ _ _ Hnd Hr Hq). split; [lia|by eexists].
  - rewrite lookup_insert_ne by done. rewrite (Ht i q Hq). assert (i <> Z.to_nat b) by (intros ->; congruence). lia.
Qed.

(** ** Unlinking *)

(** The reference that is next to be unlinked, and its tag. *)
Lemma next_tagged st d pend p po a b :
  tm_inv st d pend (Some p) -> tm_pages st !! p = Some po -> page_tagged (tagging (tm_refs st)) po a b ->
  0 <= a < b -> b <= get_num_tag_refs po ->
  exists r x to, get_tag_ref nint po a = Some r /\ page_refs po !! Z.to_nat a = Some r /\ r ∈ page_refs po
    /\ tagging (tm_refs st) !! r = Some (p, x) /\ tm_tags st !! x = Some to.
Proof.
  intros Hinv Hp Ht Hab Hb. destruct (get_tag_ref_ok po a (inv_shape _ _ _ _ _ Hinv p po Hp)) as (r & Hg & Hr); [lia|].
  assert (r ∈ page_refs po) as Hin by (by eapply list_elem_of_lookup_2).
  destruct (proj2 (Ht _ r Hr)) as [[q x] Hq]; [lia|].
  pose proof (pl_owner _ _ _ (inv_linking _ _ _ _ _ Hinv p po Hp) r q x Hin Hq) as ->.
  destruct (ch_tag _ _ _ (inv_chains _ _ _ _ _ Hinv) r p x Hq) as [to Hto]. by exists r, x, to.
Qed.

(** Only tags disappear, and not those that are held by dummy references. *)
Record shrinks (d : loc -> Z) st st' : Prop := mkShrinks {
  sh_refs : dom (tm_refs st') = dom (tm_refs st);
  sh_sub x to' : tm_tags st' !! x = Some to' -> exists to, tm_tags st !! x = Some to /\ tag_meta to = tag_meta to';
  sh_held x : 0 < d x -> tag_meta <$> tm_tags st' !! x = tag_meta <$> tm_tags st !! x;
}.

Lemma shrinks_refl d st : shrinks d st st.
Proof. constructor; try done. by eexists. Qed.

Lemma shrinks_trans d st1 st2 st3 : shrinks d st1 st2 -> shrinks d st2 st3 -> shrinks d st1 st3.
Proof.
  intros [A1 A2 A3] [B1 B2 B3]. constructor; [congruence| |].
  - intros x to3 Hx. destruct (B2 x to3 Hx) as (to2 & H2 & <-). by apply A2.
  - intros x Hx. by rewrite B3, A3.
Qed.

(** References of other pages keep their tags, and their successors in the chains unless
    these belong to the page. *)
Record refs_frame (po : PageObject) st st' : Prop := mkRefsFrame {
  rf_tagging r : r ∉ page_refs po -> tagging (tm_refs st') !! r = tagging (tm_refs st) !! r;
  rf_next r : r ∉ page_refs po -> (forall q, next_of ref_chain (tm_refs st) r = Some (Some q) -> q ∉ page_refs po) ->
    next_of ref_chain (tm_refs st') r = next_of ref_chain (tm_refs st) r;
}.

Lemma refs_frame_refl po st : refs_frame po st st.
Proof. by constructor. Qed.

Lemma refs_frame_trans po st1 st2 st3 : refs_frame po st1 st2 -> refs_frame po st2 st3 -> refs_frame po st1 st3.
Proof.
  intros [A1 A2] [B1 B2]. constructor; [intros r Hr; by rewrite B1, A1|]. intros r Hr Hn. rewrite B2, A2; try done.
  by rewrite A2.
Qed.

(** [unlink_refs] unlinks all references and disposes of the tags that become empty. *)
Lemma unlink_refs_ok d pend p po n : forall a st,
  tm_inv st d pend (Some p) -> tm_pages st !! p = Some po ->
  page_tagged (tagging (tm_refs st)) po a (get_num_tag_refs po) -> 0 <= a -> a + Z.of_nat n = get_num_tag_refs po ->
  exists st', unlink_refs nint st p (seqZ a (Z.of_nat n)) = Some st' /\ tm_inv st' d pend (Some p) /\ only_page p st st'
    /\ tm_pages st' = tm_pages st /\ page_tagged (tagging (tm_refs st')) po 0 0 /\ shrinks d st st'
    /\ refs_frame po st st'.
Proof.
  induction n as [|n IH]; intros a st Hinv Hp Ht Ha Hn.
  - exists st. cbn. split_and!; try done; [|apply shrinks_refl].
    intros i r Hr. rewrite (Ht i r Hr). lia.
  - rewrite seqZ_cons by lia. cbn [unlink_refs]. rewrite Hp. cbn [mbind option_bind].
    destruct (next_tagged st d pend p po a _ Hinv Hp Ht) as (r & x & to & Hg & Hr & Hin & Hq & Hto); [lia|lia|].
    rewrite Hg. cbn [mbind option_bind].
    destruct (tagref_unlink_ok nint st d pend p po r x to Hinv Hp Hin Hq Hto)
      as (st1 & -> & Hinv1 & Hon1 & Hpg1 & Ht1 & Hdom1 & Hmeta1 & (to1 & Hto1 & Hnum1) & Hoth1 & Hnx1).
    cbn [mbind option_bind].
    assert (page_tagged (tagging (tm_refs st1)) po (a + 1) (get_num_tag_refs po)) as Htg1.
    { rewrite Ht1. eapply page_tagged_unlink; [apply (inv_shape _ _ _ _ _ Hinv p po Hp)|done|lia|done]. }
    assert (refs_frame po st st1) as Hq1.
    { constructor; intros q Hq'.
      - rewrite Ht1. apply lookup_delete_ne. by intros ->.
      - intros Hn'. apply Hnx1; [by intros ->|]. intros Hn1. by apply Hn' in Hn1. }
    assert (exists st2, match (if (to_num to =? 1) && negb (to_untagged to) then Some x else None) with
        | Some x => dispose_tag st1 x | None => Some st1 end = Some st2
      /\ tm_inv st2 d pend (Some p) /\ only_page p st1 st2 /\ tm_pages st2 = tm_pages st1 /\ tm_refs st2 = tm_refs st1
      /\ shrinks d st1 st2) as (st2 & -> & Hinv2 & Hon2 & Hpg2 & Hrf2 & Hsh2).
    { destruct ((to_num to =? 1) && negb (to_untagged to)) eqn:Ee; zbool; cycle 1.
      { exists st1. split_and!; try done. apply shrinks_refl. }
      assert (to_untagged to1 = false) as Hu1.
      { destruct (same_meta_lookup _ _ x to1 Hmeta1 Hto1) as (t0 & ? & _ & ?). congruence. }
      destruct (dispose_tag_ok nint st1 d _ (Some p) x to1 Hinv1 Hto1) as (tb & He & Hinv2 & Hon2); [lia|done|].
      eexists. split; [exact He|]. split_and!; [|apply Hon2|done|done|constructor; [done| |]].
      - eapply inv_weaken; [exact Hinv2|]. by intros y [Hy [->|Hy']%elem_of_cons]%list_elem_of_filter.
      - cbn. intros y to' [_ Hy]%lookup_delete_Some. by eexists.
      - cbn. intros y Hy. rewrite lookup_delete_ne; [done|]. intros <-.
        pose proof (tag_num _ _ _ (inv_chains _ _ _ _ _ Hinv1) x to1 Hto1). lia. }
    cbn [mbind option_bind]. replace (Z.of_nat (S n) - 1) with (Z.of_nat n) in * by lia.
    replace (Z.pred (Z.of_nat (S n))) with (Z.of_nat n) by lia. replace (Z.succ a) with (a + 1) by lia.
    assert (shrinks d st st1) as Hsh1.
    { constructor; [done| |by intros y _; apply Hmeta1]. intros y to' Hy. specialize (Hmeta1 y). rewrite Hy in Hmeta1.
      destruct (tm_tags st !! y) as [t0|]; [|done]. exists t0. split; [done|]. cbn in Hmeta1. congruence. }
    destruct (IH (a + 1) st2) as (st3 & -> & Hinv3 & Hon3 & Hpg3 & Htg3 & Hsh3 & Hq3);
      [done|by rewrite Hpg2, Hpg1|by rewrite Hrf2|lia|lia|].
    exists st3. split_and!; try done.
    + eapply only_page_trans; [exact Hon1|]. by eapply only_page_trans.
    + congruence.
    + eapply shrinks_trans; [exact Hsh1|]. by eapply shrinks_trans.
    + eapply refs_frame_trans; [exact Hq1|]. destruct Hq3 as [B1 B2]. rewrite Hrf2 in B1, B2. by constructor.
Qed.

Definition unlinked_page (po : PageObject) : PageObject :=
  po_with_base po (clear_flags (po_base po) HOF_LINKED_BY_TM).

Lemma unlink_object_tags_ok st d pend p po :
  tm_inv st d pend (Some p) -> tm_pages st !! p = Some po -> linked po = true -> 0 < get_num_tag_refs po ->
  page_tagged (tagging (tm_refs st)) po 0 (get_num_tag_refs po) ->
  exists st', unlink_object_tags nint st p = Some st' /\ tm_inv st' d pend (Some p) /\ only_page p st st'
    /\ tm_pages st' = <[p := unlinked_page po]> (tm_pages st)
    /\ page_tagged (tagging (tm_refs st')) (unlinked_page po) 0 0 /\ shrinks d st st'
    /\ refs_frame po st st'.
Proof.
  intros Hinv Hp Hl Hc Ht. unfold unlink_object_tags. rewrite Hp. cbn [mbind option_bind]. rewrite linked_flag, Hl.
  destruct (_ =? 0) eqn:E; zbool; [lia|]. cbn [andb negb c3_assert mbind option_bind].
  destruct (unlink_refs_ok d pend p po (Z.to_nat (get_num_tag_refs po)) 0 st) as (st1 & He & Hinv1 & Hon1 & Hpg1 & Ht1 & Hsh1 & Hq1);
    [done|done|done|lia|lia|].
  rewrite Z2Nat.id in He by lia. rewrite He. cbn [mbind option_bind]. unfold page_clear_flags. rewrite Hpg1, Hp.
  cbn [mbind option_bind]. eexists. split; [done|]. fold (unlinked_page po).
  assert (tm_pages st1 !! p = Some po) as Hp1 by (by rewrite Hpg1).
  destruct (clear_linked po) as (_ & _ & Hty). pose proof (ps_buffer _ _ (inv_shape _ _ _ _ _ Hinv p po Hp)) as Hb.
  destruct (inv_with_base st1 d pend p po (clear_flags (po_base po) HOF_LINKED_BY_TM)) as [Hinv2 Hon2]; [done|done|done|done|done|].
  split_and!; [done|by eapply only_page_trans| |done| |].
  - cbn. by rewrite Hpg1.
  - destruct Hsh1 as [A1 A2 A3]. by constructor.
  - destruct Hq1 as [A1 A2]. by constructor.
Qed.

(** Unlinking without disposing of the tags: the empty ones are collected. *)
Definition empty_tag st (x : loc) : Prop :=
  exists to, tm_tags st !! x = Some to /\ to_num to = 0 /\ to_untagged to = false.

Lemma unlink_existing_ok d p po n : forall a st es,
  tm_inv st d es (Some p) -> tm_pages st !! p = Some po ->
  page_tagged (tagging (tm_refs st)) po a (get_num_tag_refs po) -> 0 <= a -> a + Z.of_nat n = get_num_tag_refs po ->
  NoDup es -> (forall x, x ∈ es -> empty_tag st x) ->
  exists es' st', unlink_existing nint st p (seqZ a (Z.of_nat n)) es = Some (es', st') /\ tm_inv st' d es' (Some p)
    /\ only_page p st st' /\ tm_pages st' = tm_pages st /\ page_tagged (tagging (tm_refs st')) po 0 0
    /\ same_meta (tm_tags st) (tm_tags st') /\ (size (tagging (tm_refs st')) <= size (tagging (tm_refs st)))%nat
    /\ NoDup es' /\ (forall x, x ∈ es' -> empty_tag st' x).
Proof.
  induction n as [|n IH]; intros a st es Hinv Hp Ht Ha Hn Hnd Hes.
  - exists es, st. cbn. split_and!; try done. intros i r Hr. rewrite (Ht i r Hr). lia.
  - rewrite seqZ_cons by lia. cbn [unlink_existing]. rewrite Hp. cbn [mbind option_bind].
    destruct (next_tagged st d es p po a _ Hinv Hp Ht) as (r & x & to & Hg & Hr & Hin & Hq & Hto); [lia|lia|].
    rewrite Hg. cbn [mbind option_bind].
    destruct (tagref_unlink_ok nint st d es p po r x to Hinv Hp Hin Hq Hto)
      as (st1 & -> & Hinv1 & Hon1 & Hpg1 & Ht1 & Hdom1 & Hmeta1 & (to1 & Hto1 & Hnum1) & Hoth1 & _).
    cbn [mbind option_bind]. set (e := if (to_num to =? 1) && negb (to_untagged to) then Some x else None) in *.
    assert (page_tagged (tagging (tm_refs st1)) po (a + 1) (get_num_tag_refs po)) as Htg1.
    { rewrite Ht1. eapply page_tagged_unlink; [apply (inv_shape _ _ _ _ _ Hinv p po Hp)|done|lia|done]. }
    assert (x ∉ es) as Hxe.
    { intros (t0 & Ht0 & Hz & _)%Hes. pose proof (empty_unused _ _ _ _ _ _ _ Hinv Ht0 Hz) as Hun. by eapply Hun. }
    assert (match e with Some x => es ++ [x] | None => es end = es ++ option_list e) as Hees
      by (destruct e; cbn; by rewrite ?app_nil_r). rewrite Hees.
    replace (Z.pred (Z.of_nat (S n))) with (Z.of_nat n) by lia. replace (Z.succ a) with (a + 1) by lia.
    destruct (IH (a + 1) st1 (es ++ option_list e)) as (es' & st' & -> & Hinv' & Hon' & Hpg' & Htg' & Hmeta' & Hsz' & Hnd' & Hes').
    + eapply inv_weaken; [exact Hinv1|]. intros y. rewrite !elem_of_app. tauto.
    + by rewrite Hpg1.
    + done.
    + lia.
    + lia.
    + unfold e. destruct (_ && _); cbn; [|by rewrite app_nil_r]. apply NoDup_app. split_and!; [done| |apply NoDup_singleton].
      intros y Hy ->%list_elem_of_singleton. done.
    + intros y [Hy|Hy]%elem_of_app.
      * destruct (Hes y Hy) as (ty & Hty & ?). exists ty. split; [|done]. rewrite Hoth1; [done|]. by intros ->.
      * unfold e in Hy. destruct ((to_num to =? 1) && negb (to_untagged to)) eqn:Ee; zbool; [|by apply elem_of_nil in Hy].
        apply list_elem_of_singleton in Hy as ->. exists to1. split; [done|]. split; [lia|].
        destruct (same_meta_lookup _ _ x to1 Hmeta1 Hto1) as (t0 & ? & _ & ?). congruence.
    + exists es', st'. split_and!; try done; [by eapply only_page_trans|congruence|intros y; by rewrite Hmeta'|].
      rewrite Ht1 in Hsz'. rewrite map_size_delete, Hq in Hsz'. lia.
Qed.

(** ** The number of references *)

Definition unlinked_ref (rf : TagRef) : Prop := tr_page rf = None \/ tr_tag rf = None.

Lemma tagging_none refs r rf : refs !! r = Some rf -> tagging refs !! r = None <-> unlinked_ref rf.
Proof.
  intros Hr. unfold tagging, unlinked_ref. rewrite lookup_omap, Hr. destruct rf as [[p|] [x|] ? ?]; cbn; split; try done; try (intros [?|?]; done); auto.
Qed.

Lemma insert_refs_lookup rs : forall refs cs r,
  (r ∉ rs -> insert_refs refs rs cs !! r = refs !! r)
  /\ (r ∈ rs -> exists rf, insert_refs refs rs cs !! r = Some rf /\ (rf = no_ref \/ rf ∈ cs)).
Proof.
  induction rs as [|q rs IH]; intros refs cs r; cbn.
  { split; [done|]. by intros ?%elem_of_nil. }
  rewrite not_elem_of_cons, elem_of_cons. destruct cs as [|c cs]; destruct (decide (r = q)) as [->|Hne].
  - split; [tauto|]. intros _. exists no_ref. rewrite lookup_insert_eq. auto.
  - rewrite lookup_insert_ne by done. destruct (IH refs [] r) as [I1 I2]. split; [tauto|].
    intros [?|Hr]; [done|]. destruct (I2 Hr) as (rf & ? & [?|Hin]); [|by apply elem_of_nil in Hin]. exists rf. auto.
  - split; [tauto|]. intros _. exists c. rewrite lookup_insert_eq. split; [done|]. right. left.
  - rewrite lookup_insert_ne by done. destruct (IH refs cs r) as [I1 I2]. split; [tauto|].
    intros [?|Hr]; [done|]. destruct (I2 Hr) as (rf & ? & [?|Hin]); exists rf; split; try done; [by left|]. right. by right.
Qed.

Lemma delete_refs_lookup rs : forall refs r,
  (r ∉ rs -> delete_refs refs rs !! r = refs !! r) /\ (r ∈ rs -> delete_refs refs rs !! r = None).
Proof.
  induction rs as [|q rs IH]; intros refs r; cbn.
  { split; [done|]. by intros ?%elem_of_nil. }
  rewrite not_elem_of_cons, elem_of_cons. destruct (IH refs r) as [I1 I2]. destruct (decide (r = q)) as [->|Hne].
  - rewrite lookup_delete_eq. split; [tauto|done].
  - rewrite lookup_delete_ne by done. split; [tauto|]. intros [?|?]; [done|auto].
Qed.

(** Chains do not depend on references that are not linked. *)
Lemma chains_frame refs refs' tags d :
  (forall r, is_Some (tagging refs !! r) -> refs' !! r = refs !! r) -> tagging refs' = tagging refs ->
  chains refs tags d -> chains refs' tags d.
Proof.
  intros He Ht [C1 C2 C3]. constructor; rewrite ?Ht; [done| |done]. intros x to Hx.
  destruct (C2 x to Hx) as (c & Hd & Hc & Hn). exists c. split_and!; [|done|done].
  eapply dlist_frame; [|exact Hd]. intros r Hr. apply Hc in Hr as [p Hr]. unfold prev_of, next_of.
  rewrite He; [done|]. by eexists.
Qed.

Lemma tagging_frame refs refs' :
  (forall r, refs' !! r = refs !! r \/ tagging refs !! r = None /\ forall rf, refs' !! r = Some rf -> unlinked_ref rf) ->
  tagging refs' = tagging refs.
Proof.
  intros He. apply map_eq. intros r. destruct (He r) as [Heq|[Hn Hu]].
  - unfold tagging. by rewrite !lookup_omap, Heq.
  - rewrite Hn. destruct (refs' !! r) as [rf|] eqn:E; [by apply (tagging_none refs' r rf E), Hu|].
    unfold tagging. by rewrite lookup_omap, E.
Qed.

Lemma mapM_lookup (refs : gmap loc TagRef) l :
  (forall r, r ∈ l -> is_Some (refs !! r)) -> exists cs, mapM (fun r => refs !! r) l = Some cs
    /\ forall rf, rf ∈ cs -> exists r, r ∈ l /\ refs !! r = Some rf.
Proof.
  induction l as [|r l IH]; intros Hl; [exists []; split; [done|]; by intros ? ?%elem_of_nil|]. cbn.
  destruct (Hl r) as [rf Hrf]; [left|]. rewrite Hrf. cbn. destruct IH as (cs & -> & Hcs).
  { intros q Hq. apply Hl. by right. }
  cbn. exists (rf :: cs). split; [done|]. intros rf' [->|Hin]%elem_of_cons; [exists r; split; [left|done]|].
  destruct (Hcs rf' Hin) as (q & ? & ?). exists q. split; [by right|done].
Qed.

Definition counted_page (po : PageObject) (o : HashObject) (xt : option (list loc)) : PageObject := mkPageObject o xt (po_tags po).

(** A new block of external references, in place of the old one. *)
Lemma replace_xtags_ok st d pend p po xt refs' n :
  tm_inv st d pend (Some p) -> tm_pages st !! p = Some po -> page_tagged (tagging (tm_refs st)) po 0 0 -> 0 < n <= USHORT_MAX_VAL ->
  match xt with Some x => zlen x = n - nint /\ nint < n | None => n <= nint end -> NoDup (default [] xt) ->
  (forall r, r ∈ default [] xt -> (exists rf, refs' !! r = Some rf /\ unlinked_ref rf)
     /\ (is_Some (tm_refs st !! r) -> r ∈ default [] (po_xtags po))) ->
  (forall r, r ∉ default [] xt -> r ∉ default [] (po_xtags po) -> refs' !! r = tm_refs st !! r) ->
  (forall r, r ∉ default [] xt -> r ∈ default [] (po_xtags po) -> refs' !! r = None) ->
  exists o, ho_with_count (po_base po) n = Some o
    /\ let st' := with_page st p (counted_page po o xt) refs' in
       tm_inv st' d pend (Some p) /\ only_page p st st' /\ tagging (tm_refs st') = tagging (tm_refs st)
       /\ page_tagged (tagging (tm_refs st')) (counted_page po o xt) 0 0
       /\ get_num_tag_refs (counted_page po o xt) = n
       /\ ho_flags o = ho_flags (po_base po) /\ ho_name o = ho_name (po_base po).
Proof.
  intros Hinv Hp Ht Hn Hx Hnd Hnew Hkeep Hgone. destruct (inv_shape _ _ _ _ _ Hinv p po Hp) as [S1 S2 S3 S4 S5 S6].
  unfold ho_with_count. destruct (_ <=? _) eqn:E; zbool; [|lia]. cbn [c3_assert mbind option_bind].
  rewrite (u16_small n) by (unfold is_u16, USHORT_MAX_VAL in *; lia). eexists. split; [done|].
  set (o := ho_with_payload _ _). set (po' := counted_page po o xt).
  assert (page_refs po' = po_tags po ++ default [] xt) as Hpr' by done. unfold page_refs in S5.
  apply NoDup_app in S5 as (N1 & N2 & N3).
  pose proof (page_tagged_none _ _ _ Ht) as Hun.
  assert (forall r, r ∈ page_refs po -> tagging (tm_refs st) !! r = None) as Hun'.
  { intros r Hr. apply list_elem_of_lookup in Hr as [i Hi]. by eapply Hun. }
  assert (forall r, r ∈ po_tags po -> r ∈ page_refs po) as Hint by (intros r Hr; apply elem_of_app; by left).
  assert (forall r, r ∈ default [] (po_xtags po) -> r ∈ page_refs po) as Hext by (intros r Hr; apply elem_of_app; by right).
  pose proof (inv_linking _ _ _ _ _ Hinv p po Hp) as [L1 L2 L3].
  assert (forall r, r ∈ po_tags po -> r ∉ default [] xt) as Hfresh.
  { intros r Hr Hr'. apply Hnew in Hr' as [_ Hr']. apply (N2 r Hr), Hr', L1. auto. }
  assert (tagging refs' = tagging (tm_refs st)) as Htg.
  { apply tagging_frame. intros r. destruct (decide (r ∈ default [] xt)) as [Hr|Hr].
    - right. destruct (Hnew r Hr) as [(rf & Hrf & Hu) Hold]. split.
      + destruct (tm_refs st !! r) as [rf'|] eqn:E'; [|unfold tagging; by rewrite lookup_omap, E'].
        apply Hun', Hext, Hold. by eexists.
      + intros rf2 Hrf2. congruence.
    - destruct (decide (r ∈ default [] (po_xtags po))) as [Hr'|Hr']; [|left; auto].
      right. split; [by apply Hun', Hext|]. intros rf Hrf. rewrite Hgone in Hrf by done. done. }
  assert (page_tagged (tagging refs') po' 0 0) as Htg'.
  { intros i r Hr. rewrite Htg. split; [|lia]. intros [v Hv]. exfalso. apply list_elem_of_lookup_2 in Hr.
    rewrite Hpr' in Hr. apply elem_of_app in Hr as [Hr|Hr].
    - rewrite Hun' in Hv by auto. done.
    - destruct (Hnew r Hr) as [_ Hold]. destruct v as [q x]. apply lookup_tagging in Hv as Hv'.
      destruct Hv' as (rf & Hrf & _). rewrite Hun' in Hv; [done|]. apply Hext, Hold. by eexists. }
  destruct (inv_with_page st d pend p po po' refs') as [Hinv' Hon']; try done.
  - constructor; try done.
    + assert (get_num_tag_refs po' = n) as -> by done. lia.
    + rewrite Hpr'. apply NoDup_app. split_and!; [done|by intros r Hr; apply Hfresh|done].
  - apply (chains_frame (tm_refs st)); [|done|apply Hinv]. intros r [[q x] Hr]. pose proof Hr as (rf & Hrf & _)%lookup_tagging.
    apply Hkeep; intros Hr'.
    + destruct (Hnew r Hr') as [_ Hold]. rewrite Hun' in Hr; [done|]. apply Hext, Hold. by eexists.
    + rewrite Hun' in Hr; [done|]. auto.
  - constructor; rewrite ?Htg.
    + intros r Hr. rewrite Hpr' in Hr. apply elem_of_app in Hr as [Hr|Hr].
      * rewrite Hkeep; [|by apply Hfresh|by intros Hr'; eapply N2]. auto.
      * destruct (Hnew r Hr) as [(rf & ? & _) _]. by eexists.
    + intros r q x Hr Hq. exfalso. apply list_elem_of_lookup in Hr as [i Hi].
      rewrite <- Htg in Hq. by rewrite (page_tagged_none _ _ _ Htg' i r Hi) in Hq.
    + rewrite <- Htg. rewrite (untagged_tags_of _ po'); [constructor|]. by apply (page_tagged_none _ _ 0).
  - intros r x Hr. exfalso. destruct (inv_owned _ _ _ _ _ Hinv r p x Hr) as (po1 & Hpo1 & Hin).
    replace po1 with po in Hin by congruence. by rewrite Hun' in Hr.
  - intros r Hr Hs. destruct (decide (r ∈ default [] xt)) as [Hr'|Hr'].
    + destruct (Hnew r Hr') as [(rf & ? & _) _]. by eexists.
    + rewrite Hkeep; [done|done|]. auto.
  - intros q qo r Hq Hqo Hr Hr'. rewrite Hpr' in Hr. apply Hq.
    enough (r ∈ page_refs po) by (by eapply (inv_disjoint _ _ _ _ _ Hinv)). apply elem_of_app in Hr as [Hr|Hr]; [auto|].
    apply Hext. destruct (Hnew r Hr) as [_ Hold]. apply Hold.
    by apply (pl_refs _ _ _ (inv_linking _ _ _ _ _ Hinv q qo Hqo)).
Qed.

Lemma set_num_tag_refs_ok st d pend p po n :
  tm_inv st d pend (Some p) -> tm_pages st !! p = Some po -> page_tagged (tagging (tm_refs st)) po 0 0 -> 0 < n <= USHORT_MAX_VAL ->
  exists st' po', set_num_tag_refs nint st p n = Some st' /\ tm_inv st' d pend (Some p) /\ only_page p st st'
    /\ tm_pages st' = <[p := po']> (tm_pages st) /\ page_tagged (tagging (tm_refs st')) po' 0 0
    /\ get_num_tag_refs po' = n /\ ho_flags (po_base po') = ho_flags (po_base po) /\ ho_name (po_base po') = ho_name (po_base po)
    /\ tm_tags st' = tm_tags st /\ tagging (tm_refs st') = tagging (tm_refs st).
Proof.
  intros Hinv Hp Ht Hn. unfold set_num_tag_refs. rewrite Hp. cbn [mbind option_bind].
  destruct (n =? 0) eqn:E0; zbool; [lia|]. cbn [negb c3_assert mbind option_bind].
  destruct (n =? get_num_tag_refs po) eqn:E1; zbool.
  { exists st, po. split_and!; try done. by rewrite insert_id. }
  destruct (inv_shape _ _ _ _ _ Hinv p po Hp) as [S1 S2 S3 S4 S5 S6].
  pose proof (inv_linking _ _ _ _ _ Hinv p po Hp) as [L1 L2 L3].
  assert (forall r, r ∈ default [] (po_xtags po) -> r ∈ page_refs po) as Hext by (intros r Hr; apply elem_of_app; by right).
  assert (forall r rf, r ∈ default [] (po_xtags po) -> tm_refs st !! r = Some rf -> unlinked_ref rf) as Hun.
  { intros r rf Hr Hrf. apply (tagging_none _ r rf Hrf). apply Hext, list_elem_of_lookup in Hr as [i Hi].
    by apply (page_tagged_none _ _ _ Ht i r Hi). }
  assert (exists refs' xt, (
      if nint <? n then
        match po_xtags po with
        | Some old => realloc_tag_xrefs nint (tm_refs st) old n
        | None => alloc_tag_xrefs nint (tm_refs st) n
        end
      else
        match po_xtags po with
        | Some old => free_tag_xrefs nint (tm_refs st) po old
        | None => Some (tm_refs st, None)
        end) = Some (refs', xt)
    /\ match xt with Some x => zlen x = n - nint /\ nint < n | None => n <= nint end /\ NoDup (default [] xt)
    /\ (forall r, r ∈ default [] xt -> (exists rf, refs' !! r = Some rf /\ unlinked_ref rf)
         /\ (is_Some (tm_refs st !! r) -> r ∈ default [] (po_xtags po)))
    /\ (forall r, r ∉ default [] xt -> r ∉ default [] (po_xtags po) -> refs' !! r = tm_refs st !! r)
    /\ (forall r, r ∉ default [] xt -> r ∈ default [] (po_xtags po) -> refs' !! r = None))
    as (refs' & xt & -> & Hx & Hnd & Hnew & Hkeep & Hgone).
  { destruct (nint <? n) eqn:E2; zbool; destruct (po_xtags po) as [old|] eqn:Eo; cbn [default] in *.
    - unfold realloc_tag_xrefs. destruct (mapM_lookup (tm_refs st) old) as (cs & -> & Hcs); [by intros r Hr; apply L1, Hext|].
      cbn [mbind option_bind]. set (oth := delete_refs (tm_refs st) old).
      pose proof (new_locs_length (dom oth) (Z.to_nat (n - nint))) as Hl. pose proof (new_locs_nodup (dom oth) (Z.to_nat (n - nint))) as Hd.
      pose proof (new_locs_fresh (dom oth) (Z.to_nat (n - nint))) as Hf. set (new := new_locs _ _) in *.
      eexists _, (Some new). split; [done|]. cbn [default]. split_and!; [unfold zlen; lia|lia|done| | |].
      + intros r Hr. split.
        * destruct (insert_refs_lookup new oth cs r) as [_ I2]. destruct (I2 Hr) as (rf & Hrf & [->|Hin]).
          -- exists no_ref. split; [done|by left].
          -- destruct (Hcs rf Hin) as (q & Hq & Hrfq). exists rf. split; [done|]. by eapply Hun.
        * intros [rf Hrf]. destruct (decide (r ∈ old)) as [|Hno]; [done|]. exfalso. apply (Hf r Hr), elem_of_dom.
          exists rf. unfold oth. destruct (delete_refs_lookup old (tm_refs st) r) as [-> _]; done.
      + intros r Hr Hr'. destruct (insert_refs_lookup new oth cs r) as [-> _]; [|done]. unfold oth.
        by destruct (delete_refs_lookup old (tm_refs st) r) as [-> _].
      + intros r Hr Hr'. destruct (insert_refs_lookup new oth cs r) as [-> _]; [|done]. unfold oth.
        by destruct (delete_refs_lookup old (tm_refs st) r) as [_ ->].
    - unfold alloc_tag_xrefs. destruct (nint <? n) eqn:E3; zbool; [|lia]. cbn [c3_assert mbind option_bind].
      pose proof (new_locs_length (dom (tm_refs st)) (Z.to_nat (n - nint))) as Hl.
      pose proof (new_locs_nodup (dom (tm_refs st)) (Z.to_nat (n - nint))) as Hd.
      pose proof (new_locs_fresh (dom (tm_refs st)) (Z.to_nat (n - nint))) as Hf. set (new := new_locs _ _) in *.
      eexists _, (Some new). split; [done|]. cbn [default]. split_and!; [unfold zlen; lia|lia|done| | |].
      + intros r Hr. destruct (insert_refs_lookup new (tm_refs st) [] r) as [_ I2].
        destruct (I2 Hr) as (rf & Hrf & [->|Hin]); [|by apply elem_of_nil in Hin]. split; [exists no_ref; split; [done|by left]|].
        intros Hs. exfalso. by apply (Hf r Hr), elem_of_dom.
      + intros r Hr _. by destruct (insert_refs_lookup new (tm_refs st) [] r) as [-> _].
      + by intros r _ ?%elem_of_nil.
    - unfold free_tag_xrefs. destruct (_ <? _) eqn:E3; zbool; [|lia]. cbn [c3_assert mbind option_bind].
      eexists _, None. split; [done|]. cbn [default]. split_and!; [done|constructor|by intros r ?%elem_of_nil| |].
      + intros r _ Hr. by destruct (delete_refs_lookup old (tm_refs st) r) as [-> _].
      + intros r _ Hr. by destruct (delete_refs_lookup old (tm_refs st) r) as [_ ->].
    - exists (tm_refs st), None. cbn [default]. split_and!; try done; [constructor|..]; by intros r ? ?%elem_of_nil || intros r ?%elem_of_nil. }
  cbn [mbind option_bind].
  destruct (replace_xtags_ok st d pend p po xt refs' n) as (o & -> & Hinv' & Hon' & Htg' & Hpt' & Hc' & Hfl' & Hnm'); try done.
  cbn [mbind option_bind]. eexists _, (counted_page po o xt). split; [done|]. by split_and!.
Qed.

End Ops.
