(* ===== verification/TagSave.v ===== *)
(** * TagSave

    [SAVE] in the tag manager: linking a page to the tags of a list of names. *)

From S2P Require Import Prelude Protocol DList HashObject HashTable ObjectStore NameTable Tags TagRefs TagPages TagOps.

Section Save.
Context {T : Type} `{NameTableLaws T} `{NewLocs}.
Context (nint : Z) (Hnint : 0 < nint).
Implicit Types (st : TagStore T).
Local Abbreviation tm_inv := (tm_inv nint).

(** ** Tags found or created *)

Lemma inv_drop st d pend busy x :
  tm_inv st d (x :: pend) busy -> (forall to, tm_tags st !! x = Some to -> to_num to <> 0) -> tm_inv st d pend busy.
Proof.
  intros Hinv Hx. constructor; try apply Hinv. intros y to Hy Hu Hz.
  pose proof (inv_live _ _ _ _ _ Hinv y to Hy Hu Hz) as [->|?]%elem_of_cons; [|done]. by apply Hx in Hy.
Qed.

Lemma find_create_tag_ok st pend busy name :
  tm_inv st no_dummies pend busy -> valid_name name -> Z.of_nat (size (tm_tags st)) + 1 < 2 ^ 32 ->
  exists x st' to, find_create_tag st name = Some (x, st') /\ tm_inv st' no_dummies (x :: pend) busy
    /\ (forall p, only_page p st st') /\ tm_pages st' = tm_pages st /\ tm_refs st' = tm_refs st
    /\ tm_tags st' !! x = Some to /\ to_name to = name
    /\ (forall y ty, tm_tags st !! y = Some ty -> tm_tags st' !! y = Some ty)
    /\ Z.of_nat (size (tm_tags st')) <= Z.of_nat (size (tm_tags st)) + 1.
Proof.
  intros Hinv Hv Hlt. unfold find_create_tag. destruct (find_tag_ok nint st _ _ _ name Hinv Hv) as (t & He & Ht).
  unfold find_tag in He. rewrite He. cbn [mbind option_bind]. destruct t as [x|].
  - destruct Ht as (to & Hx & Hn). exists x, st, to. split_and!; try done; [|lia].
    eapply (inv_weaken nint); [exact Hinv|]. by right.
  - destruct (create_tag_ok nint st pend busy name Hinv Hv Ht Hlt) as (x & tb & -> & Hx & Hinv' & Hon).
    eexists x, _, _. split; [done|]. cbn. rewrite lookup_insert_eq. split_and!; try done.
    + intros y ty Hy. rewrite lookup_insert_ne; [done|]. intros <-. congruence.
    + rewrite map_size_insert, Hx. lia.
Qed.

(** ** Linking *)

(** Linking the next reference appends to the page's tags. *)
Lemma tags_of_snoc (tg : gmap loc (loc * loc)) po b r q x :
  NoDup (page_refs po) -> page_refs po !! Z.to_nat b = Some r -> 0 <= b -> page_tagged tg po 0 b ->
  tags_of (<[r := (q, x)]> tg) po = tags_of tg po ++ [x].
Proof.
  intros Hnd Hr Hb Ht. unfold tags_of. set (f := fun g : gmap loc (loc * loc) => fun r => snd <$> g !! r).
  change (omap (f (<[r := (q, x)]> tg)) (page_refs po) = omap (f tg) (page_refs po) ++ [x]).
  rewrite <- (take_drop_middle _ _ _ Hr). rewrite !omap_app.
  assert (forall l : list loc, r ∉ l -> omap (f (<[r := (q, x)]> tg)) l = omap (f tg) l) as He.
  { clear. induction l as [|y l IH]; intros Hl; [done|]. apply not_elem_of_cons in Hl as [? ?]. cbn.
    assert (f (<[r := (q, x)]> tg) y = f tg y) as -> by (unfold f; by rewrite lookup_insert_ne). by rewrite IH. }
  rewrite <- (take_drop_middle _ _ _ Hr) in Hnd. apply NoDup_app in Hnd as (N1 & N2 & [N3 N4]%NoDup_cons).
  rewrite He by (intros Hin; apply (N2 r Hin); left). cbn. assert (f (<[r := (q, x)]> tg) r = Some x) as -> by (unfold f; by rewrite lookup_insert_eq). rewrite He by done.
  assert (f tg r = None) as ->.
  { unfold f. destruct (tg !! r) eqn:E; [|done]. exfalso. assert (is_Some (tg !! r)) as Hs by (by eexists).
    apply (Ht _ _ Hr) in Hs. lia. }
  assert (omap (f tg) (drop (S (Z.to_nat b)) (page_refs po)) = []) as ->; [|by rewrite app_nil_r].
  assert (forall l : list loc, (forall y, y ∈ l -> tg !! y = None) -> omap (f tg) l = []) as Hn.
  { clear. induction l as [|y l IH]; intros Hl; [done|]. cbn. assert (f tg y = None) as -> by (unfold f; by rewrite Hl by left). apply IH.
    intros z Hz. apply Hl. by right. }
  apply Hn. intros y Hy. apply list_elem_of_lookup in Hy as [i Hi]. rewrite lookup_drop in Hi.
  destruct (tg !! y) eqn:E; [|done]. exfalso. assert (is_Some (tg !! y)) as Hs by (by eexists). apply (Ht _ _ Hi) in Hs. lia.
Qed.

(** The tags [xs] have the names [ns]. *)
Definition named (tags : gmap loc TagObject) (xs : list loc) (ns : list bytes) : Prop :=
  Forall2 (fun x n => exists to, tags !! x = Some to /\ to_name to = n) xs ns.

Lemma named_mono tags tags' xs ns :
  (forall y ty, tags !! y = Some ty -> exists ty', tags' !! y = Some ty' /\ to_name ty' = to_name ty) -> named tags xs ns -> named tags' xs ns.
Proof. intros Hm Hn. eapply Forall2_impl; [exact Hn|]. intros x n (to & Hx & <-). destruct (Hm x to Hx) as (to' & ? & ?). eauto. Qed.

Lemma tag_num_tagging refs tags d x to : chains refs tags d -> tags !! x = Some to ->
  to_num to <= Z.of_nat (size (tagging refs)) + d x.
Proof.
  intros Hch Hx. rewrite (tag_num _ _ _ Hch x to Hx). enough (size (refs_to refs x) <= size (tagging refs))%nat by lia.
  unfold refs_to. apply map_size_filter.
Qed.

Lemma link_names_ok p po names : forall l st pend done_names,
  tm_inv st no_dummies pend (Some p) -> tm_pages st !! p = Some po ->
  page_tagged (tagging (tm_refs st)) po 0 l -> 0 <= l -> l + zlen names = get_num_tag_refs po ->
  named (tm_tags st) (tags_of (tagging (tm_refs st)) po) done_names ->
  Forall valid_name names -> NoDup (done_names ++ names) ->
  Z.of_nat (size (tm_tags st)) + zlen names < 2 ^ 32 -> Z.of_nat (size (tagging (tm_refs st))) + zlen names < 2 ^ 32 ->
  exists st', link_names nint st p l names = Some st' /\ tm_inv st' no_dummies pend (Some p) /\ only_page p st st'
    /\ tm_pages st' = tm_pages st /\ page_tagged (tagging (tm_refs st')) po 0 (get_num_tag_refs po)
    /\ named (tm_tags st') (tags_of (tagging (tm_refs st')) po) (done_names ++ names)
    /\ (forall y ty, tm_tags st !! y = Some ty -> exists ty', tm_tags st' !! y = Some ty' /\ tag_meta ty' = tag_meta ty).
Proof.
  induction names as [|n names IH]; intros l st pend dn Hinv Hp Ht Hl Hc Hnm Hv Hnd Hs1 Hs2.
  { exists st. cbn. rewrite app_nil_r. unfold zlen in Hc. cbn in Hc. replace (get_num_tag_refs po) with l by lia.
    split_and!; try done. eauto. }
  rewrite zlen_cons in *. pose proof (zlen_nonneg names). apply Forall_cons in Hv as [Hvn Hv]. cbn [link_names].
  destruct (find_create_tag_ok st pend (Some p) n Hinv Hvn) as (x & st1 & to & -> & Hinv1 & Hon1 & Hpg1 & Hrf1 & Hx & Hxn & Hsub1 & Hsz1); [lia|].
  cbn [mbind option_bind]. rewrite Hpg1, Hp. cbn [mbind option_bind]. pose proof (inv_shape _ _ _ _ _ Hinv p po Hp) as Hsh.
  destruct (get_tag_ref_ok nint Hnint po l Hsh) as (r & -> & Hr); [lia|]. cbn [mbind option_bind].
  assert (r ∈ page_refs po) as Hin by (by eapply list_elem_of_lookup_2).
  assert (tagging (tm_refs st1) !! r = None) as Hn1.
  { rewrite Hrf1. destruct (tagging (tm_refs st) !! r) eqn:E; [|done]. exfalso.
    assert (is_Some (tagging (tm_refs st) !! r)) as Hs by (by eexists). apply (Ht _ _ Hr) in Hs. lia. }
  assert (named (tm_tags st1) (tags_of (tagging (tm_refs st1)) po) dn) as Hnm1.
  { rewrite Hrf1. eapply named_mono; [|exact Hnm]. intros y ty Hy. exists ty. split; [by apply Hsub1|done]. }
  assert (n ∉ dn) as Hndn by (apply NoDup_app in Hnd as (_ & Hd & _); intros Hn; apply (Hd n Hn); left).
  assert (x ∉ tags_of (tagging (tm_refs st1)) po) as Hxt.
  { intros Hxin. apply list_elem_of_lookup in Hxin as [i Hi]. destruct (Forall2_lookup_l _ _ _ _ _ Hnm1 Hi) as (n' & Hn' & to' & Hto' & Hnn').
    apply Hndn. replace n with n' by congruence. by eapply list_elem_of_lookup_2. }
  destruct (tagref_link_ok nint st1 no_dummies (x :: pend) p po r x to Hinv1) as (st2 & -> & Hinv2 & Hon2 & Hpg2 & Ht2 & Hdom2 & Hmeta2); try done.
  { by rewrite Hpg1. }
  { pose proof (tag_num_tagging _ _ _ x to (inv_chains _ _ _ _ _ Hinv1) Hx) as Hb. rewrite Hrf1 in Hb. unfold no_dummies in Hb. lia. }
  cbn [mbind option_bind].
  destruct (IH (l + 1) st2 pend (dn ++ [n])) as (st3 & -> & Hinv3 & Hon3 & Hpg3 & Ht3 & Hnm3 & Hsub3); try done.
  - eapply inv_drop; [exact Hinv2|]. intros to2 Hto2 Hz.
    pose proof (tag_num _ _ _ (inv_chains _ _ _ _ _ Hinv2) x to2 Hto2) as Hnum. unfold no_dummies in Hnum.
    apply (empty_unused _ _ _ _ _ _ _ Hinv2 Hto2 Hz r p). by rewrite Ht2, lookup_insert_eq.
  - by rewrite Hpg2, Hpg1.
  - rewrite Ht2, Hrf1. apply page_tagged_link; [apply Hsh|done|lia|done].
  - lia.
  - lia.
  - rewrite Ht2. rewrite (tags_of_snoc _ po l r p x); [|apply Hsh|done|done|by rewrite Hrf1]. apply Forall2_app.
    + eapply named_mono; [|exact Hnm1]. intros y ty Hy. destruct (same_meta_lookup (tm_tags st2) (tm_tags st1) y ty) as (t & ? & ? & _);
        [by apply same_meta_sym|done|]. eauto.
    + constructor; [|constructor]. destruct (same_meta_lookup (tm_tags st2) (tm_tags st1) x to) as (t & ? & ? & _);
        [by apply same_meta_sym|done|]. exists t. split; [done|congruence].
  - by rewrite <- app_assoc.
  - rewrite <- (size_dom (tm_tags st2)), (same_meta_dom _ _ Hmeta2), size_dom. lia.
  - rewrite Ht2, map_size_insert, Hn1, Hrf1. lia.
  - exists st3. rewrite <- app_assoc in Hnm3. split_and!; try done.
    + eapply only_page_trans; [apply Hon1|]. by eapply only_page_trans.
    + congruence.
    + intros y ty Hy. apply Hsub1 in Hy. pose proof (Hmeta2 y) as Hm. rewrite Hy in Hm.
      destruct (tm_tags st2 !! y) as [t2|] eqn:E2; [|done]. destruct (Hsub3 y t2 E2) as (t3 & ? & ?). exists t3.
      split; [done|]. cbn in Hm. congruence.
Qed.

(** What the page is marked with when its tags have given names: the name of the
    special tag does not count. *)
Definition user_names (ns : list bytes) : list bytes := filter (fun n => n <> untagged_name) ns.

Lemma named_user_names st d pend busy xs ns :
  tm_inv st d pend busy -> named (tm_tags st) xs ns -> omap (name_of st) xs = user_names ns.
Proof.
  intros Hinv. unfold user_names. induction 1 as [|x n xs ns (to & Hx & Hn) _ IH]; [done|].
  rewrite filter_cons. cbn [omap list_omap]. rewrite IH. unfold name_of. rewrite Hx. cbn [mbind option_bind].
  destruct (inv_untagged _ _ _ _ _ Hinv) as (u & tu & Hu & Htu & Hun).
  pose proof (inv_special _ _ _ _ _ Hinv x to Hx) as Hsp. destruct (to_untagged to) eqn:E.
  - rewrite decide_False; [done|]. intros Hne. apply Hne. destruct Hsp as [Hsp _]. specialize (Hsp eq_refl).
    replace to with tu in * by congruence. congruence.
  - rewrite decide_True; [by rewrite Hn|]. intros Heq. destruct Hsp as [_ Hsp].
    assert (x = u) as -> by (eapply (tag_name_inj nint); [done|done|done|congruence]). by specialize (Hsp Hu).
Qed.

Lemma link_tags_ok st pend p po names :
  tm_inv st no_dummies pend (Some p) -> tm_pages st !! p = Some po -> page_tagged (tagging (tm_refs st)) po 0 0 ->
  Forall valid_name names -> NoDup names -> zlen names <= USHORT_MAX_VAL ->
  Z.of_nat (size (tm_tags st)) + zlen names < 2 ^ 32 -> Z.of_nat (size (tagging (tm_refs st))) + zlen names + 1 < 2 ^ 32 ->
  exists st' po', link_tags nint st p names = Some st' /\ tm_inv st' no_dummies pend (Some p) /\ only_page p st st'
    /\ tm_pages st' = <[p := po']> (tm_pages st) /\ 0 < get_num_tag_refs po'
    /\ page_tagged (tagging (tm_refs st')) po' 0 (get_num_tag_refs po')
    /\ page_names st' po' = user_names names
    /\ ho_flags (po_base po') = ho_flags (po_base po) /\ ho_name (po_base po') = ho_name (po_base po)
    /\ (forall y ty, tm_tags st !! y = Some ty -> exists ty', tm_tags st' !! y = Some ty' /\ tag_meta ty' = tag_meta ty).
Proof.
  intros Hinv Hp Ht Hv Hnd Hlen Hs1 Hs2. unfold link_tags. pose proof (zlen_nonneg names).
  destruct (zlen names =? 0) eqn:E0; zbool; cbn [negb].
  - destruct (set_num_tag_refs_ok nint st no_dummies pend p po 1 Hinv Hp Ht) as
      (st1 & po1 & -> & Hinv1 & Hon1 & Hpg1 & Ht1 & Hc1 & Hf1 & Hn1 & Htags1 & Htg1); [unfold USHORT_MAX_VAL; lia|].
    cbn [mbind option_bind]. destruct (inv_untagged _ _ _ _ _ Hinv1) as (u & tu & Hu & Htu & Hun).
    rewrite Hu. cbn [mbind option_bind]. assert (tm_pages st1 !! p = Some po1) as Hp1 by (by rewrite Hpg1, lookup_insert_eq).
    rewrite Hp1. cbn [mbind option_bind]. pose proof (inv_shape _ _ _ _ _ Hinv1 p po1 Hp1) as Hsh.
    destruct (get_tag_ref_ok nint Hnint po1 0 Hsh) as (r & -> & Hr); [lia|]. cbn [mbind option_bind].
    pose proof (page_tagged_none _ _ _ Ht1) as Hun1.
    assert (tags_of (tagging (tm_refs st1)) po1 = []) as Hto by (by apply untagged_tags_of).
    destruct (tagref_link_ok nint st1 no_dummies pend p po1 r u tu Hinv1 Hp1) as (st2 & -> & Hinv2 & Hon2 & Hpg2 & Ht2 & _ & Hmeta2); try done.
    { by eapply list_elem_of_lookup_2. }
    { by eapply Hun1. }
    { rewrite Hto. by intros ?%elem_of_nil. }
    { pose proof (tag_num_tagging _ _ _ u tu (inv_chains _ _ _ _ _ Hinv1) Htu) as Hb. rewrite Htg1 in Hb. unfold no_dummies in Hb. lia. }
    exists st2, po1. split_and!; try done; [by eapply only_page_trans|by rewrite Hpg2|lia| | |].
    + rewrite Ht2, Hc1. apply (page_tagged_link _ po1 0); [apply Hsh|done|lia|done].
    + unfold page_names. rewrite Ht2, (tags_of_snoc _ po1 0 r p u); [|apply Hsh|done|lia|done]. rewrite Hto. cbn.
      assert (names = []) as -> by (by apply zlen_pos_nil; lia). unfold name_of.
      specialize (Hmeta2 u). rewrite Htu in Hmeta2. destruct (tm_tags st2 !! u) as [t2|] eqn:E2; [|done]. cbn.
      pose proof (inv_special _ _ _ _ _ Hinv2 u t2 E2) as [_ ->]; [done|]. rewrite (op_untagged _ _ _ Hon2). done.
    + intros y ty Hy. rewrite <- Htags1 in Hy. specialize (Hmeta2 y). rewrite Hy in Hmeta2.
      destruct (tm_tags st2 !! y) as [t2|]; [|done]. exists t2. split; [done|]. cbn in Hmeta2. congruence.
  - destruct (set_num_tag_refs_ok nint st no_dummies pend p po (zlen names) Hinv Hp Ht) as
      (st1 & po1 & -> & Hinv1 & Hon1 & Hpg1 & Ht1 & Hc1 & Hf1 & Hn1 & Htags1 & Htg1); [lia|].
    cbn [mbind option_bind]. assert (tm_pages st1 !! p = Some po1) as Hp1 by (by rewrite Hpg1, lookup_insert_eq).
    pose proof (page_tagged_none _ _ _ Ht1) as Hun1.
    destruct (link_names_ok p po1 names 0 st1 pend []) as (st2 & -> & Hinv2 & Hon2 & Hpg2 & Ht2 & Hnm2 & Hsub2); try done.
    { rewrite (untagged_tags_of _ po1) by done. constructor. }
    { by rewrite Htags1. }
    { rewrite Htg1. lia. }
    exists st2, po1. split_and!; try done; [by eapply only_page_trans|by rewrite Hpg2|lia| |].
    + unfold page_names. by eapply named_user_names.
    + intros y ty Hy. rewrite <- Htags1 in Hy. by apply Hsub2.
Qed.

(** ** Disposing of the tags left empty *)

Lemma dispose_empty_ok d busy es : forall st,
  tm_inv st d es busy -> NoDup es -> (forall x, x ∈ es -> exists to, tm_tags st !! x = Some to /\ to_untagged to = false) ->
  exists st', dispose_empty st es = Some st' /\ tm_inv st' d [] busy /\ (forall p, only_page p st st')
    /\ tm_pages st' = tm_pages st /\ tm_refs st' = tm_refs st
    /\ (forall r p x, tagging (tm_refs st) !! r = Some (p, x) -> tm_tags st' !! x = tm_tags st !! x).
Proof.
  induction es as [|x es IH]; intros st Hinv Hnd Hes; [by exists st|]. cbn. apply NoDup_cons in Hnd as [Hx Hnd].
  destruct (Hes x) as (to & Hto & Hu); [left|]. rewrite Hto. cbn [mbind option_bind]. destruct (to_num to =? 0) eqn:E; zbool.
  - destruct (dispose_tag_ok nint st d _ busy x to Hinv Hto E Hu) as (tb & -> & Hinv1 & Hon1). cbn [mbind option_bind].
    destruct (IH (with_table st tb (delete x (tm_tags st)))) as (st' & -> & Hinv' & Hon' & Hpg' & Hrf' & Hkeep'); [|done| |].
    + eapply (inv_weaken nint); [exact Hinv1|]. by intros y [Hy [->|Hy']%elem_of_cons]%list_elem_of_filter.
    + intros y Hy. destruct (Hes y) as (ty & Hty & Huy); [by right|]. exists ty. split; [|done]. cbn.
      rewrite lookup_delete_ne; [done|]. by intros ->.
    + exists st'. split_and!; try done; [intros p; by eapply only_page_trans|].
      intros r p y Hr. rewrite (Hkeep' r p y Hr). cbn. apply lookup_delete_ne. intros <-.
      by apply (empty_unused _ _ _ _ _ _ _ Hinv Hto E r p).
  - apply IH; [|done|].
    + eapply inv_drop; [exact Hinv|]. intros to' Hto'. congruence.
    + intros y Hy. apply Hes. by right.
Qed.

End Save.
