(* ===== verification/TagMatch.v ===== *)
(** * TagMatch

    [PageObject::matches_tags] against its definition: the page is marked with at
    least so many of the given tags. The code stops as soon as the number is
    reached, and reads two arrays. *)

From S2P Require Import Prelude Protocol DList HashObject HashTable ObjectStore NameTable Tags TagRefs TagPages TagOps TagSave.

(** ** Counting *)

(** How many of [tags] are equal to [x]. *)
Definition occurrences (x : loc) (tags : list loc) : Z := zlen (filter (fun t => t = x) tags).

(** How many of [tags] are among [xs]. *)
Definition matching (xs tags : list loc) : Z := zlen (filter (fun t => t ∈ xs) tags).

Lemma occurrences_nonneg x tags : 0 <= occurrences x tags.
Proof. apply zlen_nonneg. Qed.

Lemma occurrences_cons x t tags : occurrences x (t :: tags) = (if decide (t = x) then 1 else 0) + occurrences x tags.
Proof. unfold occurrences. rewrite filter_cons. destruct (decide (t = x)); [by rewrite zlen_cons|lia]. Qed.

(** Distinct tags of the page are counted separately. *)
Lemma matching_cons x xs tags : x ∉ xs -> matching (x :: xs) tags = occurrences x tags + matching xs tags.
Proof.
  intros Hx. unfold matching. induction tags as [|t tags IH]; [done|]. rewrite occurrences_cons, !filter_cons.
  destruct (decide (t = x)) as [Heq|Hne].
  - subst t. rewrite decide_True by left. rewrite decide_False by done. rewrite zlen_cons. lia.
  - destruct (decide (t ∈ xs)) as [Hin|Hin].
    + rewrite decide_True by (by right). rewrite !zlen_cons. lia.
    + rewrite decide_False by (intros [?|?]%elem_of_cons; done). lia.
Qed.

Lemma matching_nil tags : matching [] tags = 0.
Proof. unfold matching. induction tags as [|t tags IH]; [done|]. rewrite filter_cons. rewrite decide_False; [done|]. by intros ?%elem_of_nil. Qed.

Lemma matching_range xs tags : 0 <= matching xs tags <= zlen tags.
Proof. split; [apply zlen_nonneg|]. unfold matching, zlen. pose proof (length_filter (fun t => t ∈ xs) tags). lia. Qed.

Lemma matching_all xs tags : zlen tags <= matching xs tags <-> forall t, t ∈ tags -> t ∈ xs.
Proof.
  unfold matching. induction tags as [|t tags IH].
  { split; [by intros _ t ?%elem_of_nil|done]. }
  rewrite filter_cons, zlen_cons. pose proof (matching_range xs tags) as Hr. unfold matching in Hr.
  destruct (decide (t ∈ xs)) as [Hin|Hin].
  - rewrite zlen_cons. split.
    + intros Hle y [->|Hy]%elem_of_cons; [done|]. apply IH; [lia|done].
    + intros Ha. enough (zlen tags <= zlen (filter (fun t => t ∈ xs) tags)) by lia. apply IH. intros y Hy. apply Ha. by right.
  - split; [lia|]. intros Ha. exfalso. apply Hin, Ha. left.
Qed.

Lemma matching_some xs tags : 1 <= matching xs tags <-> exists t, t ∈ tags /\ t ∈ xs.
Proof.
  unfold matching. split.
  - intros Hle. destruct (filter (fun t => t ∈ xs) tags) as [|t k] eqn:E; [done|].
    assert (t ∈ filter (fun t => t ∈ xs) tags) as [? ?]%list_elem_of_filter by (rewrite E; left). eauto.
  - intros (t & Ht & Hx). assert (t ∈ filter (fun t => t ∈ xs) tags) as Hin by (by apply list_elem_of_filter).
    destruct (filter _ tags); [by apply elem_of_nil in Hin|]. rewrite zlen_cons. pose proof (zlen_nonneg l). lia.
Qed.

(** ** The loops *)

Lemma match_tag_ok min to tags : forall n, 0 <= n < min -> min < 2 ^ 32 ->
  match_tag tags (Some to) min n
  = (min <=? n + occurrences to tags, if min <=? n + occurrences to tags then min else n + occurrences to tags).
Proof.
  induction tags as [|t tags IH]; intros n Hn Hm; cbn.
  { unfold occurrences. cbn. rewrite Z.add_0_r. destruct (min <=? n) eqn:E; zbool; [lia|done]. }
  rewrite occurrences_cons. pose proof (occurrences_nonneg to tags). destruct (decide (t = to)) as [->|Hne].
  - rewrite bool_decide_true by done. rewrite u32_small by (unfold is_u32; lia). destruct (n + 1 =? min) eqn:E; zbool.
    + destruct (min <=? _) eqn:E1; zbool; [by subst|lia].
    + rewrite IH by lia. by replace (n + 1 + occurrences to tags) with (n + (1 + occurrences to tags)) by lia.
  - rewrite bool_decide_false by congruence. rewrite IH by lia. by rewrite Z.add_0_l.
Qed.

Lemma match_refs_ok refs min tags rs : forall xs n,
  Forall2 (fun r x => exists rf, refs !! r = Some rf /\ tr_tag rf = Some x) rs xs -> NoDup xs -> 0 <= n < min -> min < 2 ^ 32 ->
  match_refs refs rs tags min n
  = Some (min <=? n + matching xs tags, if min <=? n + matching xs tags then min else n + matching xs tags).
Proof.
  induction rs as [|r rs IH]; intros xs n HF Hnd Hn Hm.
  { apply Forall2_nil_inv_l in HF as ->. cbn. rewrite matching_nil, Z.add_0_r. destruct (min <=? n) eqn:E; zbool; [lia|done]. }
  apply Forall2_cons_inv_l in HF as (x & xs' & (rf & Hrf & Htag) & HF & ->). apply NoDup_cons in Hnd as [Hx Hnd].
  cbn. rewrite Hrf. cbn. rewrite Htag, match_tag_ok by done. rewrite matching_cons by done.
  pose proof (matching_range xs' tags). pose proof (occurrences_nonneg x tags). destruct (min <=? n + occurrences x tags) eqn:E; zbool.
  - destruct (min <=? n + (_ + _)) eqn:E1; zbool; [done|lia].
  - rewrite (IH xs') by (done || lia). by replace (n + occurrences x tags + matching xs' tags) with (n + (occurrences x tags + matching xs' tags)) by lia.
Qed.

Lemma read_array_ok l n : Z.max 1 n <= zlen l -> read_array l n = Some (take (Z.to_nat (Z.max 1 n)) l).
Proof. intros Hl. unfold read_array. destruct (_ <=? _) eqn:E; zbool; [done|lia]. Qed.

Section Match.
Context {T : Type} `{NameTableLaws T} `{NewLocs}.
Context (nint : Z) (Hnint : 0 < nint).
Implicit Types (st : TagStore T).

(** The tags of the first references of a page. *)
Lemma tags_of_take (tg : gmap loc (loc * loc)) p l :
  (forall i r, l !! i = Some r -> exists x, tg !! r = Some (p, x)) ->
  Forall2 (fun r x => tg !! r = Some (p, x)) l (omap (fun r => snd <$> tg !! r) l).
Proof.
  induction l as [|r l IH]; intros Hl; [constructor|]. cbn. destruct (Hl 0%nat r eq_refl) as (x & Hx). rewrite Hx. cbn.
  constructor; [done|]. apply IH. intros i. apply (Hl (S i)).
Qed.

Lemma tags_of_linked st d pend busy p po :
  tm_inv nint st d pend busy -> tm_pages st !! p = Some po ->
  page_tagged (tagging (tm_refs st)) po 0 (get_num_tag_refs po) ->
  Forall2 (fun r x => tagging (tm_refs st) !! r = Some (p, x)) (take (Z.to_nat (get_num_tag_refs po)) (page_refs po))
    (tags_of (tagging (tm_refs st)) po).
Proof.
  intros Hinv Hp Ht. set (tg := tagging (tm_refs st)) in *. set (k := Z.to_nat (get_num_tag_refs po)).
  unfold tags_of. rewrite <- (take_drop k (page_refs po)) at 2. rewrite omap_app.
  assert (forall l : list loc, (forall r, r ∈ l -> tg !! r = None) -> omap (fun r => snd <$> tg !! r) l = []) as Hn.
  { clear. induction l as [|r l IH]; intros Hl; [done|]. cbn. rewrite Hl by left. cbn. apply IH. intros q Hq. apply Hl. by right. }
  rewrite (Hn (drop k (page_refs po))), app_nil_r.
  - apply tags_of_take. intros i r Hi. apply lookup_take_Some in Hi as [Hi Hik].
    destruct (proj2 (Ht i r Hi)) as [[q x] Hq]; [unfold k in Hik; lia|].
    exists x. fold tg. rewrite Hq. do 2 f_equal.
    by eapply (pl_owner _ _ _ (inv_linking _ _ _ _ _ Hinv p po Hp)); [eapply list_elem_of_lookup_2|].
  - intros r Hr. apply list_elem_of_lookup in Hr as [i Hi]. rewrite lookup_drop in Hi.
    destruct (tg !! r) eqn:E; [|done]. exfalso. assert (is_Some (tg !! r)) as Hs by (by eexists).
    apply (Ht _ _ Hi) in Hs. unfold k in Hs. lia.
Qed.

Lemma matches_tags_count st d pend busy p po min tags :
  tm_inv nint st d pend busy -> tm_pages st !! p = Some po -> 0 < get_num_tag_refs po ->
  page_tagged (tagging (tm_refs st)) po 0 (get_num_tag_refs po) -> 0 < min < 2 ^ 32 -> tags <> [] ->
  matches_tags nint st po min tags = Some (min <=? matching (tags_of (tagging (tm_refs st)) po) tags).
Proof.
  intros Hinv Hp Hc Ht Hm Hne. unfold matches_tags. destruct (inv_shape _ _ _ _ _ Hinv p po Hp) as [S1 S2 S3 S4 S5 S6].
  destruct (min =? 0) eqn:E0; zbool; [lia|].
  destruct (zlen tags =? 0) eqn:E1; zbool; [by destruct tags; [|rewrite zlen_cons in E1; pose proof (zlen_nonneg tags); lia]|].
  cbn [negb andb c3_assert mbind option_bind]. pose proof (tags_of_linked st d pend busy p po Hinv Hp Ht) as HF.
  assert (NoDup (tags_of (tagging (tm_refs st)) po)) as Hnd by apply (inv_linking _ _ _ _ _ Hinv p po Hp).
  assert (Forall2 (fun r x => exists rf, tm_refs st !! r = Some rf /\ tr_tag rf = Some x)
    (take (Z.to_nat (get_num_tag_refs po)) (page_refs po)) (tags_of (tagging (tm_refs st)) po)) as HF'.
  { eapply Forall2_impl; [exact HF|]. intros r x (rf & Hrf & _ & Htag)%lookup_tagging. eauto. }
  set (xs := tags_of _ po) in *. unfold page_refs in HF'. rewrite take_app in HF'.
  apply Forall2_app_inv_l in HF' as (xs1 & xs2 & HF1 & HF2 & Hxs). rewrite Hxs in *.
  apply NoDup_app in Hnd as (N1 & N12 & N2).
  assert (matching (xs1 ++ xs2) tags = matching xs1 tags + matching xs2 tags) as Hmt.
  { clear -N1 N12. induction xs1 as [|x xs1 IH]; cbn; [by rewrite matching_nil|]. apply NoDup_cons in N1 as [? ?].
    rewrite !matching_cons; [rewrite IH; [lia|done|]|done|].
    - intros y Hy. apply N12. by right.
    - intros [?|Hx]%elem_of_app; [done|]. apply (N12 x); [left|done]. }
  rewrite (read_array_ok (po_tags po)) by lia. cbn [mbind option_bind]. unfold zlen in S2.
  replace (take (Z.to_nat (Z.max 1 (Z.min (get_num_tag_refs po) nint))) (po_tags po))
    with (take (Z.to_nat (get_num_tag_refs po)) (po_tags po)); cycle 1.
  { destruct (decide (get_num_tag_refs po <= nint)) as [Hle|Hgt]; [by replace (Z.max 1 _) with (get_num_tag_refs po) by lia|].
    rewrite !take_ge by lia. done. }
  rewrite (match_refs_ok _ min tags _ xs1 0) by (done || lia). cbn [mbind option_bind]. rewrite !Z.add_0_l.
  pose proof (matching_range xs1 tags). pose proof (matching_range xs2 tags). rewrite Hmt.
  destruct (min <=? matching xs1 tags) eqn:E3; zbool.
  { destruct (min <=? _ + _) eqn:E4; zbool; [done|lia]. }
  destruct (po_xtags po) as [x|]; cycle 1.
  { cbn [default] in HF2. rewrite take_nil in HF2. apply Forall2_nil_inv_l in HF2 as ->. rewrite matching_nil in *.
    destruct (min <=? _ + _) eqn:E4; zbool; [lia|done]. }
  destruct S4 as [S4 S4']. destruct (nint <? _) eqn:E4; zbool; [|lia]. cbn [c3_assert mbind option_bind default] in *.
  rewrite read_array_ok by lia. cbn [mbind option_bind].
  replace (take (Z.to_nat (Z.max 1 (get_num_tag_refs po - nint))) x)
    with (take (Z.to_nat (get_num_tag_refs po) - length (po_tags po)) x) by (f_equal; lia).
  rewrite (match_refs_ok _ min tags _ xs2) by (done || lia). cbn [mbind option_bind]. done.
Qed.

End Match.
