(* ===== verification/TagCommands.v ===== *)
(** * TagCommands

    What the tag manager's handlers read from a command: each retrieval of a chunk
    by a handler yields the next element of the command's data, and the loops over
    a string list visit its strings in order. *)

From S2P Require Import Prelude Protocol Memory Buffers ChunkBuilder HeaderBuild ChunkIterator RoundTrip Accessors CommandIO DList HashObject HashTable ObjectStore NameTable Tags TagRefs TagPages TagOps TagSave.

(** ** Iterators *)

(** The counters of the iterator do not overflow. *)
Definition ci_ok (it : ChunkIterator) : Prop := ci_in it 0.

Lemma skip_ci_ok it n it' : ci_ok it -> 0 <= n -> skip it n = Some it' -> it' = advance it n /\ ci_ok it'.
Proof.
  intros Hok Hn Hs. assert (ci_in it n) as Hin.
  { unfold skip in Hs. destruct (n <=? ci_remains it) eqn:E; [|done]. zbool. unfold ci_ok, ci_in in *. lia. }
  rewrite (skip_ok it n Hin) in Hs. injection Hs as <-. split; [done|]. unfold ci_ok. apply ci_in_advance; [|lia|lia].
  by rewrite Z.add_0_r.
Qed.

Lemma skip_ci_ok' it n it' : ci_ok it -> 0 <= n -> skip it n = Some it' -> ci_ok it'.
Proof. intros. by eapply skip_ci_ok. Qed.

Lemma ci_ok_valid it : ci_ok it -> ci_is_valid it = true.
Proof. unfold ci_ok, ci_in, ci_is_valid. intros (? & ? & ?). destruct (_ =? _) eqn:E; zbool; [lia|done]. Qed.

Lemma u32_nonneg z : 0 <= u32 z.
Proof. apply u32_range. Qed.

Lemma get_count_ci_ok sb it c n it' : ci_ok it -> get_count sb it c = Some (n, it') -> ci_ok it'.
Proof.
  intros Hok. unfold get_count. repeat case_match; intros Hg; inv_opt; (eapply skip_ci_ok'; [exact Hok| |eassumption]); lia.
Qed.

Lemma get_next_chunk_ci_ok sb it d it' : ci_ok it -> get_next_chunk sb it = Some (d, it') -> ci_ok it'.
Proof.
  intros Hok. unfold get_next_chunk. destruct (0 <? ci_remains it); [|by intros [= <- <-]].
  destruct (get_header_byte_at sb (ci_offset it)) as [x|]; [|done]. cbn [mbind option_bind].
  repeat match goal with |- context [if ?b then _ else _] => destruct b end; intros Hg; inv_opt;
    repeat match goal with x : _ * _ |- _ => destruct x end; inv_opt;
    try (eapply skip_ci_ok'; [exact Hok| |eassumption]; (lia || apply u32_nonneg));
    try (eapply get_count_ci_ok; [exact Hok|eassumption]);
    try (eapply skip_ci_ok'; [eapply get_count_ci_ok; [exact Hok|eassumption]|apply u32_nonneg|eassumption]).
Qed.

(** ** Chunks *)

Section Read.
Context (sb : SharedBuffers).

(** The iterator stands before the data [chs]. *)
Definition reads (it : ChunkIterator) (chs : list chunk) : Prop :=
  ci_ok it /\ exists fuel, read_chunks fuel sb it = Some chs.

Lemma reads_inv it c chs : reads it (c :: chs) -> exists it', read_chunk sb it = Some (Some c, it') /\ exists fuel, read_chunks fuel sb it' = Some chs.
Proof.
  intros (Hok & [|fuel] & Hr); [done|]. cbn in Hr. apply bind_Some in Hr as ([oc it'] & Hc & Hr).
  destruct oc as [c'|]; [|done]. apply bind_Some in Hr as (cs & Hcs & Hr). injection Hr as -> ->.
  exists it'. split; [done|]. by exists fuel.
Qed.

Lemma get_number_reads it n chs : reads it (CNumber n :: chs) ->
  exists it', get_number sb it = Some (n, it') /\ reads it' chs /\ INT_MIN_VAL <= n <= UINT_MAX_VAL.
Proof.
  intros Hr. pose proof Hr as [Hok _]. apply reads_inv in Hr as (it' & Hc & Hr). unfold read_chunk in Hc.
  apply bind_Some in Hc as (t & _ & Hc). destruct t; simplify_eq/=;
    repeat (apply bind_Some in Hc as (? & ? & Hc); repeat match goal with x : _ * _ |- _ => destruct x end); simplify_eq/=.
  rename H into Hg. exists it'. split; [done|]. unfold get_number in Hg. apply bind_Some in Hg as ([d it1] & Hd & Hg).
  destruct d as [|m| |]; try done. inv_opt. split; [|lia]. split; [by eapply get_next_chunk_ci_ok|done].
Qed.

Lemma get_string_reads it s chs : reads it (CString s :: chs) ->
  exists sc it', get_string sb it = Some (sc, it') /\ get_chars sb it' sc = Some s /\ reads it' chs.
Proof.
  intros Hr. pose proof Hr as [Hok _]. apply reads_inv in Hr as (it' & Hc & Hr). unfold read_chunk in Hc.
  apply bind_Some in Hc as (t & _ & Hc). destruct t; simplify_eq/=;
    repeat (apply bind_Some in Hc as (? & ? & Hc); repeat match goal with x : _ * _ |- _ => destruct x end); simplify_eq/=.
  eexists _, it'. split; [done|]. split; [done|]. split; [|done].
  rename H into Hx. unfold get_string in Hx. apply bind_Some in Hx as ([d it1] & Hd & Hg). destruct d; try done. inv_opt.
  by eapply get_next_chunk_ci_ok.
Qed.

Lemma get_list_reads it ss chs : reads it (CList ss :: chs) ->
  exists lc it' it'', get_list sb it = Some (lc, it') /\ sl_is_valid it' lc = true /\ ci_ok it'
    /\ read_strings sb (Z.to_nat (sl_count lc)) it' lc = Some (ss, it'') /\ exists fuel, read_chunks fuel sb it'' = Some chs.
Proof.
  intros Hr. pose proof Hr as [Hok _]. apply reads_inv in Hr as (it' & Hc & Hr). unfold read_chunk in Hc.
  apply bind_Some in Hc as (t & _ & Hc). destruct t; simplify_eq/=;
    repeat (apply bind_Some in Hc as (? & ? & Hc); repeat match goal with x : _ * _ |- _ => destruct x end); simplify_eq/=.
  eexists _, _, it'. split; [done|]. rename H into Hx. unfold get_list in Hx. apply bind_Some in Hx as ([d it1] & Hd & Hg).
  destruct d; try done. inv_opt. assert (ci_ok c) as Hok0 by (by eapply get_next_chunk_ci_ok).
  split_and!; [|done|done|done]. unfold sl_is_valid. by rewrite ci_ok_valid.
Qed.

Lemma reads_nil it : reads it [] -> has_more_chunks it = false.
Proof.
  intros (Hok & [|fuel] & Hr); [done|]. cbn in Hr. apply bind_Some in Hr as ([oc it'] & Hc & Hr).
  destruct oc as [c|]; [apply bind_Some in Hr as (? & _ & Hr); done|]. unfold read_chunk in Hc.
  apply bind_Some in Hc as (t & Ht & Hc). unfold get_next_chunk_type in Ht. destruct Hok as (_ & ? & _).
  unfold has_more_chunks. destruct (0 <? ci_remains it) eqn:E; zbool; [|by replace (ci_remains it) with 0 by lia].
  exfalso. apply bind_Some in Ht as (c & _ & Ht).
  repeat match type of Ht with context [if ?b then _ else _] => destruct b end; injection Ht as <-;
    repeat (apply bind_Some in Hc as (? & ? & Hc); repeat match goal with x : _ * _ |- _ => destruct x end); simplify_eq/=.
Qed.

(** ** String lists *)

Lemma get_chars_length it sc s : get_chars sb it sc = Some s -> zlen s = sc_length sc.
Proof.
  unfold get_chars. intros Hg. inv_opt. cbn in Hg. inv_opt. unfold hdr_load, slice in Hg.
  destruct (_ && _) eqn:E; [|done]. zbool. injection Hg as <-. unfold zlen in *. rewrite length_take, length_drop. lia.
Qed.

Lemma read_strings_inv k it lc ss it'' : read_strings sb (S k) it lc = Some (ss, it'') ->
  exists sc it' lc' s ss', ss = s :: ss' /\ list_get_string sb it lc = Some (sc, it', lc')
    /\ get_chars sb it' sc = Some s /\ read_strings sb k it' lc' = Some (ss', it'').
Proof.
  cbn. intros Hr. apply bind_Some in Hr as ([[sc it'] lc'] & Hs & Hr). apply bind_Some in Hr as (s & Hc & Hr).
  apply bind_Some in Hr as ([ss' it1] & Hk & Hr). injection Hr as <- <-. by eexists sc, it', lc', s, ss'.
Qed.

Lemma valid_name_chunk it sc s : get_chars sb it sc = Some s -> valid_name s -> sc_is_valid_name it sc = true.
Proof.
  intros Hg Hv. pose proof (get_chars_length _ _ _ Hg) as Hl. unfold get_chars in Hg. inv_opt.
  unfold sc_is_valid_name. unfold valid_name in Hv. rewrite Ha. destruct (0 <? _) eqn:E1; zbool; [|lia].
  destruct (_ <=? _) eqn:E2; zbool; [done|lia].
Qed.

End Read.

(** A command whose handler reads the data [chs]. *)
Definition sees (cr : ReaderWriter) (chs : list chunk) : Prop :=
  exists it, command_header_iterator cr = Some it /\ reads (rw_sb cr) it chs.

(** ** The names in a list *)

(** Each name once, in the order of first occurrence. *)
Fixpoint uniq (acc ns : list bytes) : list bytes :=
  match ns with
  | [] => acc
  | n :: ns => if decide (n ∈ acc) then uniq acc ns else uniq (acc ++ [n]) ns
  end.

Lemma uniq_nodup ns : forall acc, NoDup acc -> NoDup (uniq acc ns).
Proof.
  induction ns as [|n ns IH]; intros acc Hnd; cbn; [done|]. destruct (decide (n ∈ acc)) as [|Hn]; apply IH; [done|].
  apply NoDup_app. split_and!; [done| |apply NoDup_singleton]. by intros m Hm ->%list_elem_of_singleton.
Qed.

Lemma elem_of_uniq ns n : forall acc, n ∈ uniq acc ns <-> n ∈ acc \/ n ∈ ns.
Proof.
  induction ns as [|m ns IH]; intros acc; cbn; [split; [by left|intros [?|?%elem_of_nil]; done]|].
  destruct (decide (m ∈ acc)) as [Hm|Hm]; rewrite IH, elem_of_cons; [|rewrite elem_of_app, list_elem_of_singleton; tauto].
  split; [tauto|]. intros [?|[->|?]]; auto.
Qed.

Lemma uniq_length ns : forall acc, zlen (uniq acc ns) <= zlen acc + zlen ns.
Proof.
  induction ns as [|m ns IH]; intros acc; cbn; [unfold zlen; cbn; lia|]. rewrite zlen_cons.
  destruct (decide (m ∈ acc)); [specialize (IH acc); lia|]. specialize (IH (acc ++ [m])). rewrite zlen_app in IH.
  unfold zlen in *. cbn in IH. lia.
Qed.

Lemma unique_names_ok sb k : forall it lc ss it'' acc, read_strings sb k it lc = Some (ss, it'') -> Forall valid_name ss ->
  unique_names k sb it lc acc = Some (uniq acc ss, it'').
Proof.
  induction k as [|k IH]; intros it lc ss it'' acc Hr Hv; [cbn in Hr; by simplify_eq|].
  apply read_strings_inv in Hr as (sc & it' & lc' & s & ss' & -> & Hs & Hc & Hr). apply Forall_cons in Hv as [Hvs Hv].
  cbn [unique_names]. rewrite Hs. cbn [mbind option_bind]. rewrite Hc. cbn [mbind option_bind].
  rewrite <- (get_chars_length _ _ _ _ Hc). unfold valid_name in Hvs. destruct (_ <=? _) eqn:E; zbool; [|lia].
  cbn [c3_assert mbind option_bind uniq]. assert (existsb (fun n => bool_decide (n = s)) acc = bool_decide (s ∈ acc)) as ->.
  { apply eq_true_iff_eq. rewrite bool_decide_eq_true, existsb_exists. split.
    - intros (y & Hy & ->%bool_decide_eq_true). by apply list_elem_of_In.
    - intros Hin. exists s. split; [by apply list_elem_of_In|by apply bool_decide_eq_true]. }
  destruct (decide (s ∈ acc)); [rewrite bool_decide_true by done|rewrite bool_decide_false by done]; by apply IH.
Qed.

(** ** The tags in a list *)

Section Extract.
Context {T : Type} `{NameTableLaws T} `{NewLocs} (nint : Z) (st : TagStore T) (d : loc -> Z) (pend : list loc) (busy : ptr).
Hypothesis Hinv : tm_inv nint st d pend busy.

(** [x] is the tag named [n]. *)
Definition tag_named (n : bytes) (x : loc) : Prop := exists to, tm_tags st !! x = Some to /\ to_name to = n.

(** The tags taken from a list: the shortest one and the others. *)
Definition taken (shortest : ptr) (tags : list loc) (x : loc) : Prop := shortest = Some x \/ x ∈ tags.

Lemma extract_loop_ok sb k : forall it lc ss it'' sh tags all,
  read_strings sb k it lc = Some (ss, it'') -> Forall valid_name ss ->
  (sh = None -> tags = []) -> (forall x, taken sh tags x -> is_Some (tm_tags st !! x)) ->
  exists sh' tags' all', extract_loop k st sb it lc sh tags all = Some (sh', tags', true, all', it'')
    /\ (sh' = None -> tags' = [])
    /\ (forall x, taken sh' tags' x <-> taken sh tags x \/ exists n, n ∈ ss /\ tag_named n x)
    /\ (all' = true <-> all = true /\ forall n, n ∈ ss -> exists x, tag_named n x)
    /\ zlen tags' <= zlen tags + zlen ss.
Proof.
  unfold taken. induction k as [|k IH]; intros it lc ss it'' sh tags all Hr Hv Hnone Hex.
  { cbn in Hr. simplify_eq. exists sh, tags, all. cbn. split_and!; try done; [| |unfold zlen; cbn; lia].
    - intros x. split; [tauto|]. intros [?|(n & Hn & _)]; [done|]. by apply elem_of_nil in Hn.
    - split; [|tauto]. intros ->. split; [done|]. by intros n ?%elem_of_nil. }
  apply read_strings_inv in Hr as (sc & it' & lc' & s & ss' & -> & Hs & Hc & Hr). apply Forall_cons in Hv as [Hvs Hv].
  cbn [extract_loop]. rewrite Hs. cbn [mbind option_bind]. rewrite (valid_name_chunk _ _ _ _ Hc Hvs), Hc. cbn [mbind option_bind].
  rewrite zlen_cons. pose proof (zlen_nonneg ss'). pose proof (zlen_nonneg tags).
  destruct (find_tag_ok nint st d pend busy s Hinv Hvs) as (t & -> & Ht). cbn [mbind option_bind].
  destruct t as [x|]; cycle 1.
  { destruct (IH it' lc' ss' it'' sh tags false) as (sh' & tags' & all' & -> & H1' & H2' & H3' & H4'); [done..|].
    exists sh', tags', all'. split_and!; try done; [| |lia].
    - intros y. rewrite H2'. split; [intros [?|(n & ? & ?)]; [by left|right; exists n; split; [by right|done]]|].
      intros [?|(n & [->|Hn]%elem_of_cons & Hy)]; [by left| |right; eauto]. destruct Hy as (ty & Hty & Hn). by apply Ht in Hty.
    - rewrite H3'. split; [by intros [? _]|]. intros [_ Ha]. exfalso. destruct (Ha s) as (y & ty & Hty & Hn); [left|].
      by apply Ht in Hty. }
  destruct Ht as (to & Hto & Hn).
  assert (forall y, tag_named s y <-> y = x) as Huniq.
  { intros y. split; [|intros ->; by exists to]. intros (ty & Hty & Hny). eapply (tag_name_inj nint); [done|done|done|congruence]. }
  assert (forall sh0 tags0, (sh0 = None -> tags0 = []) -> zlen tags0 <= zlen tags + 1 ->
    (forall y, (sh0 = Some y \/ y ∈ tags0) <-> (sh = Some y \/ y ∈ tags) \/ y = x) ->
    exists sh' tags' all', extract_loop k st sb it' lc' sh0 tags0 all = Some (sh', tags', true, all', it'')
    /\ (sh' = None -> tags' = [])
    /\ (forall x, sh' = Some x \/ x ∈ tags' <-> (sh = Some x \/ x ∈ tags) \/ exists n, n ∈ s :: ss' /\ tag_named n x)
    /\ (all' = true <-> all = true /\ forall n, n ∈ s :: ss' -> exists x, tag_named n x)
    /\ zlen tags' <= zlen tags + (1 + zlen ss')) as Hnext.
  { intros sh0 tags0 Hn0 Hz0 Ht0. destruct (IH it' lc' ss' it'' sh0 tags0 all) as (sh' & tags' & all' & -> & H1' & H2' & H3' & H4'); try done.
    { intros y Hy. apply Ht0 in Hy as [Hy|Hy]; [by apply Hex|subst y; by eexists]. }
    exists sh', tags', all'. split_and!; try done; [| |lia].
    - intros y. rewrite H2', Ht0. setoid_rewrite elem_of_cons. split.
      + intros [[?|?]|(n & ? & ?)]; [by left|right; exists s; rewrite Huniq; auto|right; exists n; auto].
      + intros [?|(n & [->|?] & Hy)]; [auto|rewrite Huniq in Hy; auto|right; eauto].
    - rewrite H3'. setoid_rewrite elem_of_cons. split; intros [? Ha]; (split; [done|]); [|auto].
      intros n [->|?]; [exists x; by apply Huniq|auto]. }
  destruct (existsb (Pos.eqb x) tags) eqn:Ee.
  { apply existsb_exists in Ee as (y & Hy & ->%Pos.eqb_eq). apply list_elem_of_In in Hy. apply Hnext; [done|lia|].
    intros z. split; [tauto|]. intros [?| ->]; auto. }
  destruct sh as [sh|].
  - destruct (Hex sh) as [so Hso]; [by left|]. rewrite Hso. cbn [mbind option_bind]. rewrite Hto. cbn [mbind option_bind].
    destruct (_ <? _); (apply Hnext; [done|rewrite zlen_app; unfold zlen; cbn; lia|]); intros z;
      rewrite elem_of_app, list_elem_of_singleton; (split; [intros [[= ->]|[?| ->]]; auto|intros [[[= ->]|?]| ->]; auto]).
  - apply Hnext; [done|lia|]. intros z. rewrite (Hnone eq_refl). split; [intros [[= ->]|?]; auto|].
    intros [[?|?]| ->]; [done|by right|by left].
Qed.

Lemma extract_tag_names_ok sb it lc ss it'' :
  sl_is_valid it lc = true -> read_strings sb (Z.to_nat (sl_count lc)) it lc = Some (ss, it'') -> Forall valid_name ss ->
  exists sh tags all, extract_tag_names st sb it lc = Some (sh, tags, true, all, it'')
    /\ (sh = None -> tags = [])
    /\ (forall x, taken sh tags x <-> exists n, n ∈ ss /\ tag_named n x)
    /\ (all = true <-> forall n, n ∈ ss -> exists x, tag_named n x)
    /\ zlen tags <= zlen ss.
Proof.
  intros Hval Hr Hv. unfold extract_tag_names. rewrite Hval.
  destruct (extract_loop_ok sb _ it lc ss it'' None [] true Hr Hv) as (sh & tags & all & -> & H1' & H2' & H3' & H4'); [done| |].
  { by intros x [?|?%elem_of_nil]. }
  exists sh, tags, all. split_and!; try done.
  - intros x. rewrite H2'. split; [|by right]. intros [[?|?%elem_of_nil]|?]; done.
  - rewrite H3'. tauto.
Qed.

End Extract.
