(* ===== verification/TagHandlers.v ===== *)
(** * TagHandlers

    What the tag manager's state means to its clients, and the handlers that work
    on one page: [SAVE], [REMOVE], the optimizer's request to unlink an object,
    [GETMETADATAS]. *)

From S2P Require Import Prelude Protocol Memory Buffers ChunkBuilder HeaderBuild ChunkIterator RoundTrip Accessors CommandIO DList HashObject HashTable ObjectStore NameTable Tags TagRefs TagPages TagOps TagSave TagMatch TagCommands.

(** ** The abstract state *)

(** A page: its name, whether it is being deleted, and the names of the tags it is
    marked with, or [None] if it is not (or no longer) linked. *)
Record page_view := mkPageView {
  v_name : bytes;
  v_deleted : bool;
  v_tags : option (list bytes);
}.

Section Handlers.
Context {T : Type} `{NameTableLaws T} `{NewLocs}.
Context (nint : Z) (Hnint : 0 < nint).
Implicit Types (st : TagStore T).
Local Abbreviation tm_inv := (tm_inv nint).
Local Abbreviation tm_ok := (tm_ok nint).

Definition view_of st (po : PageObject) : page_view :=
  mkPageView (ho_name (po_base po)) (deleted po) (if linked po then Some (page_names st po) else None).
Definition view st : gmap loc page_view := view_of st <$> tm_pages st.

Lemma lookup_view st p : view st !! p = view_of st <$> tm_pages st !! p.
Proof. apply lookup_fmap. Qed.

Lemma view_only_page p st st' po' :
  only_page p st st' -> tm_pages st' !! p = Some po' -> view st' = <[p := view_of st' po']> (view st).
Proof.
  intros Hon Hp. apply map_eq. intros q. destruct (decide (p = q)) as [<-|Hne].
  - by rewrite lookup_insert_eq, lookup_view, Hp.
  - rewrite lookup_insert_ne, !lookup_view, (op_page _ _ _ Hon) by done.
    destruct (tm_pages st !! q) as [po|] eqn:E; [|done]. cbn. unfold view_of. by rewrite (op_names _ _ _ Hon q po).
Qed.

(** The effect of a message: the new abstract state and what was posted. *)
Record effect st st' (V : gmap loc page_view) (evs : list tm_event) : Prop := mkEffect {
  ef_view : view st' = V;
  ef_posted : tm_posted st' = tm_posted st ++ evs;
  ef_tables : tm_page_tables st' = tm_page_tables st;
  ef_quitting : ts_quitting st' = ts_quitting st;
}.

Lemma effect_none st : effect st st (view st) [].
Proof. constructor; try done. by rewrite app_nil_r. Qed.

Lemma effect_page p st st' po' : only_page p st st' -> tm_pages st' !! p = Some po' ->
  effect st st' (<[p := view_of st' po']> (view st)) [].
Proof.
  intros Hon Hp. constructor; [by apply view_only_page|rewrite app_nil_r; apply Hon|apply Hon|apply Hon].
Qed.

Lemma effect_post st st' V evs e : effect st st' V evs -> effect st (post st' e) V (evs ++ [e]).
Proof. intros [A1 A2 A3 A4]. constructor; try done. cbn. by rewrite A2, app_assoc. Qed.

Lemma tm_ok_post st e : tm_ok st -> tm_ok (post st e).
Proof. intros Hinv. constructor; apply Hinv. Qed.

(** ** Unlinking one page *)

(** A page is unlinked from its tags and marked, and may lose its buffer. *)
Lemma try_dispose_buffer_ok po : deleted po = true -> buffer_wf (ho_payload (po_base po)) ->
  exists o, try_dispose_buffer (po_base po) = Some o /\ ho_flags o = ho_flags (po_base po) /\ ho_name o = ho_name (po_base po)
    /\ pho_count (ho_payload o) = get_num_tag_refs po /\ buffer_wf (ho_payload o).
Proof.
  intros Hd Hb. unfold try_dispose_buffer. destruct (has_readers (po_base po)); [by eexists|].
  rewrite deleted_flag, Hd. unfold buffer_wf in Hb. destruct (pho_buffer (ho_payload (po_base po))) as [| |bs] eqn:E.
  - exists (po_base po). split_and!; try done. unfold buffer_wf. by rewrite E.
  - destruct Hb as [-> ->]. cbn. by eexists.
  - destruct (_ <=? _) eqn:E1; zbool; [|lia]. destruct (0 <? _) eqn:E2; zbool; [|lia]. cbn. by eexists.
Qed.

Lemma page_dispose_buffer_ok st d pend p po :
  tm_inv st d pend (Some p) -> tm_pages st !! p = Some po -> deleted po = true ->
  exists st' po', page_dispose_buffer st p = Some st' /\ tm_inv st' d pend (Some p) /\ only_page p st st'
    /\ tm_pages st' !! p = Some po' /\ linked po' = linked po /\ deleted po' = true
    /\ ho_name (po_base po') = ho_name (po_base po) /\ get_num_tag_refs po' = get_num_tag_refs po
    /\ page_refs po' = page_refs po /\ tm_refs st' = tm_refs st /\ page_names st' po' = page_names st po.
Proof.
  intros Hinv Hp Hd. unfold page_dispose_buffer. rewrite Hp. cbn [mbind option_bind].
  destruct (try_dispose_buffer_ok po Hd) as (o & -> & Hf & Hn & Hc & Hb); [apply (inv_shape _ _ _ _ _ Hinv p po Hp)|].
  cbn [mbind option_bind]. eexists _, (po_with_base po o). split; [done|].
  destruct (inv_with_base nint st d pend p po o Hinv Hp) as [Hinv' Hon']; [by eapply type_flags; [|done|done]; rewrite Hf|done|done|].
  assert (forall k, Z.testbit (ho_flags o) k = Z.testbit (ho_flags (po_base po)) k) as Hk by (by rewrite Hf).
  split_and!; try done; [cbn; by rewrite lookup_insert_eq|apply Hk|rewrite <- Hd; apply Hk].
Qed.

(** The page after it has been unlinked and marked as deleted. *)
Lemma unlink_page_ok st d pend p po :
  tm_inv st d pend (Some p) -> tm_pages st !! p = Some po -> linked po = true -> 0 < get_num_tag_refs po ->
  page_tagged (tagging (tm_refs st)) po 0 (get_num_tag_refs po) ->
  exists st' po', unlink_object_tags nint st p = Some st' /\ tm_inv st' d pend (Some p) /\ only_page p st st' /\ shrinks d st st'
    /\ tm_pages st' !! p = Some po' /\ linked po' = false /\ deleted po' = deleted po
    /\ ho_name (po_base po') = ho_name (po_base po) /\ page_tagged (tagging (tm_refs st')) po' 0 0
    /\ refs_frame po st st'.
Proof.
  intros Hinv Hp Hl Hc Ht.
  destruct (unlink_object_tags_ok nint Hnint st d pend p po Hinv Hp Hl Hc Ht) as (st' & -> & Hinv' & Hon' & Hpg' & Ht' & Hsh' & Hq').
  destruct (clear_linked po) as (? & ? & _).
  exists st', (unlinked_page po). split_and!; try done. by rewrite Hpg', lookup_insert_eq.
Qed.

(** An unlinked page that is marked as deleted is settled. *)
Lemma settled_deleted st d pend p po :
  tm_inv st d pend (Some p) -> tm_pages st !! p = Some po -> linked po = false -> deleted po = true ->
  page_tagged (tagging (tm_refs st)) po 0 0 -> tm_inv st d pend None.
Proof.
  intros Hinv Hp Hl Hd Ht. apply (inv_settle nint st d pend p Hinv). intros po1 Hp1. replace po1 with po by congruence.
  unfold page_settled. rewrite Hl. auto.
Qed.

Lemma settled_linked st d pend busy p po : tm_inv st d pend busy -> busy <> Some p -> tm_pages st !! p = Some po -> linked po = true ->
  0 < get_num_tag_refs po /\ page_tagged (tagging (tm_refs st)) po 0 (get_num_tag_refs po).
Proof. intros Hinv Hb Hp Hl. pose proof (inv_settled _ _ _ _ _ Hinv p po Hp Hb) as Hs. unfold page_settled in Hs. by rewrite Hl in Hs. Qed.

Definition removed (v : page_view) : page_view := mkPageView (v_name v) true None.

(** ** [REMOVE] and the optimizer's request *)

Lemma process_remove_ok st p po :
  tm_ok st -> tm_pages st !! p = Some po -> deleted po = true ->
  exists st', process_remove_command nint st p = Some st' /\ tm_ok st'
    /\ effect st st' (<[p := removed (view_of st po)]> (view st)) (if linked po then [PostDelete p] else []).
Proof.
  intros Hinv Hp Hd. unfold process_remove_command. rewrite Hp. cbn [mbind option_bind]. unfold page_type.
  rewrite bool_decide_true by apply (inv_shape _ _ _ _ _ Hinv p po Hp). rewrite deleted_flag, Hd, linked_flag.
  cbn [c3_assert mbind option_bind]. destruct (linked po) eqn:El; cycle 1.
  { exists st. split_and!; try done. pose proof (effect_none st) as [A1 A2 A3 A4]. constructor; try done.
    rewrite insert_id; [done|]. rewrite lookup_view, Hp. cbn. unfold view_of, removed. by rewrite El, Hd. }
  destruct (settled_linked st _ _ None p po Hinv) as [Hc Ht]; [done..|].
  destruct (unlink_page_ok st no_dummies [] p po) as (st1 & po1 & -> & Hinv1 & Hon1 & _ & Hp1 & Hl1 & Hd1 & Hn1 & Ht1 & _);
    [by apply inv_busy|done..|]. cbn [mbind option_bind].
  destruct (page_dispose_buffer_ok st1 no_dummies [] p po1) as
    (st2 & po2 & -> & Hinv2 & Hon2 & Hp2 & Hl2 & Hd2 & Hn2 & Hc2 & Hr2 & Hrf2 & _); [done|done|congruence|]. cbn [mbind option_bind].
  eexists. split; [done|]. split.
  - apply tm_ok_post. eapply settled_deleted; [done|done|congruence|done|].
    intros i r Hi. rewrite Hr2 in Hi. rewrite Hrf2. by apply Ht1.
  - apply (effect_post st st2 _ [] (PostDelete p)).
    replace (removed (view_of st po)) with (view_of st2 po2); [by apply effect_page; [eapply only_page_trans|]|].
    unfold view_of, removed. cbn [v_name]. rewrite Hl2, Hl1, Hd2, Hn2, Hn1. done.
Qed.

Lemma unlink_object_ok st p po :
  tm_ok st -> tm_pages st !! p = Some po -> deleted po = true ->
  flags_are_clear (po_base po) (Z.lor HOF_DELETED HOF_LINKED_BY_OPTIMIZER) = true ->
  exists st', unlink_object nint st p = Some st' /\ tm_ok st'
    /\ effect st st' (<[p := removed (view_of st po)]> (view st)) [PostUnlink p].
Proof.
  intros Hinv Hp Hd Hf. unfold unlink_object. rewrite Hp. cbn [mbind option_bind]. unfold page_type.
  rewrite bool_decide_true by apply (inv_shape _ _ _ _ _ Hinv p po Hp). rewrite deleted_flag, Hd, linked_flag, Hf.
  cbn [andb c3_assert mbind option_bind].
  destruct (page_dispose_buffer_ok st no_dummies [] p po) as
    (st1 & po1 & -> & Hinv1 & Hon1 & Hp1 & Hl1 & Hd1 & Hn1 & Hc1 & Hr1 & Hrf1 & _); [by apply inv_busy|done|done|]. cbn [mbind option_bind].
  destruct (linked po) eqn:El.
  - destruct (settled_linked st _ _ None p po Hinv) as [Hc Ht]; [done..|].
    assert (page_tagged (tagging (tm_refs st1)) po1 0 (get_num_tag_refs po1)) as Ht1.
    { intros i r Hi. rewrite Hr1 in Hi. rewrite Hrf1, Hc1. by apply Ht. }
    destruct (unlink_page_ok st1 no_dummies [] p po1) as (st2 & po2 & -> & Hinv2 & Hon2 & _ & Hp2 & Hl2 & Hd2 & Hn2 & Ht2 & _);
      [done|done|congruence|lia|done|]. cbn [mbind option_bind].
    eexists. split; [done|]. split; [apply tm_ok_post; eapply settled_deleted; try done; congruence|].
    apply (effect_post st st2 _ [] (PostUnlink p)).
    replace (removed (view_of st po)) with (view_of st2 po2); [by apply effect_page; [eapply only_page_trans|]|].
    unfold view_of, removed. cbn [v_name]. rewrite Hl2, Hd2, Hd1, Hn2, Hn1. done.
  - cbn [mbind option_bind]. eexists. split; [done|].
    pose proof (inv_settled _ _ _ _ _ Hinv p po Hp ltac:(done)) as Hs. unfold page_settled in Hs. rewrite El in Hs. destruct Hs as [Ht _].
    split.
    + apply tm_ok_post. eapply settled_deleted; [done|done|congruence|done|]. intros i r Hi. rewrite Hr1 in Hi. rewrite Hrf1. by apply Ht.
    + apply (effect_post st st1 _ [] (PostUnlink p)).
      replace (removed (view_of st po)) with (view_of st1 po1); [by apply effect_page|].
      unfold view_of, removed. cbn [v_name]. rewrite Hl1, Hd1, Hn1. done.
Qed.

(** ** [SAVE] *)

Definition saved (v : page_view) (ns : list bytes) : page_view :=
  mkPageView (v_name v) (v_deleted v) (Some (user_names (uniq [] ns))).

(** The counters have room for [n] more tags and references. *)
Definition room st (n : Z) : Prop :=
  Z.of_nat (size (tm_tags st)) + n < 2 ^ 32 /\ Z.of_nat (size (tagging (tm_refs st))) + n + 1 < 2 ^ 32.

(** Step 1: the page leaves its old tags, which may remain empty for now. *)
Lemma save_unlink_ok st p po :
  tm_ok st -> tm_pages st !! p = Some po -> (linked po = false -> deleted po = false) ->
  exists es st', (if flags_are_set (po_base po) HOF_LINKED_BY_TM then
        _ ← c3_assert (negb (get_num_tag_refs po =? 0)); unlink_existing nint st p (seqZ 0 (get_num_tag_refs po)) []
      else _ ← c3_assert (get_num_tag_refs po =? 0); Some ([], st)) = Some (es, st')
    /\ tm_inv st' no_dummies es (Some p) /\ only_page p st st' /\ tm_pages st' = tm_pages st
    /\ page_tagged (tagging (tm_refs st')) po 0 0 /\ same_meta (tm_tags st) (tm_tags st')
    /\ (size (tagging (tm_refs st')) <= size (tagging (tm_refs st)))%nat
    /\ NoDup es /\ (forall x, x ∈ es -> empty_tag st' x).
Proof.
  intros Hinv Hp Hd. rewrite linked_flag. pose proof (inv_settled _ _ _ _ _ Hinv p po Hp ltac:(done)) as Hs. unfold page_settled in Hs.
  destruct (linked po) eqn:El; destruct Hs as [H1' H2'].
  - destruct (_ =? 0) eqn:E; zbool; [lia|]. cbn [negb c3_assert mbind option_bind].
    destruct (unlink_existing_ok nint Hnint no_dummies p po (Z.to_nat (get_num_tag_refs po)) 0 st [])
      as (es & st' & He & ? & ? & ? & ? & ? & ? & ? & ?); [by apply inv_busy|done|done|lia|lia|constructor|by intros x ?%elem_of_nil|].
    rewrite Z2Nat.id in He by lia. exists es, st'. by split_and!.
  - destruct H2' as [?|H2']; [rewrite Hd in *; done|]. rewrite H2'. cbn [Z.eqb c3_assert mbind option_bind].
    exists [], st. split_and!; try done; [by apply inv_busy|constructor|by intros x ?%elem_of_nil].
Qed.

(** Steps 2 and 3: the page is linked to its new tags, and the tags that are still empty
    are disposed of. *)
Lemma save_link_ok st p po es names :
  tm_inv st no_dummies es (Some p) -> tm_pages st !! p = Some po -> page_tagged (tagging (tm_refs st)) po 0 0 ->
  NoDup es -> (forall x, x ∈ es -> empty_tag st x) ->
  Forall valid_name names -> NoDup names -> zlen names <= USHORT_MAX_VAL -> room st (zlen names) ->
  exists st' po', (st ← link_tags nint st p names; st ← dispose_empty st es; page_set_flags st p HOF_LINKED_BY_TM) = Some st'
    /\ tm_ok st' /\ only_page p st st' /\ tm_pages st' !! p = Some po' /\ linked po' = true /\ deleted po' = deleted po
    /\ ho_name (po_base po') = ho_name (po_base po) /\ page_names st' po' = user_names names.
Proof.
  intros Hinv Hp Ht Hnd Hes Hv Hndn Hlen [Hs1 Hs2].
  destruct (link_tags_ok nint Hnint st es p po names Hinv Hp Ht) as
    (st1 & po1 & -> & Hinv1 & Hon1 & Hpg1 & Hc1 & Ht1 & Hnm1 & Hf1 & Hn1 & Hsub1); [done..|]. cbn [mbind option_bind].
  assert (tm_pages st1 !! p = Some po1) as Hp1 by (by rewrite Hpg1, lookup_insert_eq).
  destruct (dispose_empty_ok nint no_dummies (Some p) es st1) as (st2 & -> & Hinv2 & Hon2 & Hpg2 & Hrf2 & Hkeep2); [done|done| |].
  { intros x (to & Hx & _ & Hu)%Hes. destruct (Hsub1 x to Hx) as (to' & Hx' & Hm). exists to'. split; [done|].
    unfold tag_meta in Hm. congruence. }
  cbn [mbind option_bind]. unfold page_set_flags. assert (tm_pages st2 !! p = Some po1) as Hp2 by (by rewrite Hpg2).
  rewrite Hp2. cbn [mbind option_bind]. set (po2 := po_with_base po1 (set_flags (po_base po1) HOF_LINKED_BY_TM)).
  destruct (set_linked po1) as (Hl2 & Hd2 & Hty2). fold po2 in Hl2, Hd2, Hty2.
  destruct (inv_with_base nint st2 no_dummies [] p po1 (set_flags (po_base po1) HOF_LINKED_BY_TM)) as [Hinv3 Hon3];
    [done|done|exact Hty2|done|exact (ps_buffer _ _ (inv_shape _ _ _ _ _ Hinv2 p po1 Hp2))|].
  eexists _, po2. split; [done|]. fold po2 in Hinv3, Hon3. split_and!; try done.
  - apply (inv_settle nint _ _ _ p Hinv3). intros po3 Hp3. cbn in Hp3. rewrite lookup_insert_eq in Hp3. injection Hp3 as <-.
    unfold page_settled. rewrite Hl2. split; [done|]. intros i r Hi. cbn. rewrite Hrf2. by apply Ht1.
  - eapply only_page_trans; [exact Hon1|]. eapply only_page_trans; [apply Hon2|done].
  - cbn. by rewrite lookup_insert_eq.
  - rewrite Hd2. unfold deleted. by rewrite Hf1.
  - rewrite <- Hnm1. change (page_names (with_page st2 p po2 (tm_refs st2)) po1 = page_names st1 po1).
    apply page_names_ext; cbn; [by rewrite Hrf2|]. intros x Hx.
    destruct (tags_of_exist nint st1 _ _ _ p po1 x Hinv1 Hp1) as (r & _ & Hr & _); [done|].
    unfold name_of. cbn. by rewrite (Hkeep2 r p x Hr).
Qed.

Lemma process_save_ok st cr p po id agent lifetime ns :
  tm_ok st -> tm_pages st !! p = Some po -> sees cr [CString id; CNumber agent; CNumber lifetime; CList ns] ->
  0 <= agent -> Forall valid_name ns -> zlen (uniq [] ns) <= USHORT_MAX_VAL -> room st (zlen ns) ->
  exists st', process_save_command nint st cr p = Some st' /\ tm_ok st'
    /\ (if negb (linked po) && deleted po then effect st st' (view st) []
        else effect st st' (<[p := saved (view_of st po) ns]> (view st))
               [PostWrite p (u8 agent) (if lifetime <? 0 then MAX_TIMESTAMP else lifetime)]).
Proof.
  intros Hinv Hp (it & Hit & Hrd) Hag Hv Hlen [Hs1 Hs2]. unfold process_save_command. rewrite Hp. cbn [mbind option_bind]. unfold page_type.
  rewrite bool_decide_true by apply (inv_shape _ _ _ _ _ Hinv p po Hp). rewrite linked_flag, deleted_flag. cbn [c3_assert mbind option_bind].
  destruct (negb (linked po) && deleted po) eqn:Eb.
  { exists st. split_and!; try done. apply effect_none. }
  destruct (save_unlink_ok st p po Hinv Hp) as (es & st1 & He & Hinv1 & Hon1 & Hpg1 & Ht1 & Hm1 & Hsz1 & Hnd1 & Hes1).
  { intros Hl. rewrite Hl in Eb. by destruct (deleted po). }
  rewrite linked_flag in He. rewrite He. cbn [mbind option_bind]. rewrite Hit. cbn [mbind option_bind].
  apply get_string_reads in Hrd as (sc & it1 & -> & _ & Hrd). cbn [mbind option_bind].
  apply get_number_reads in Hrd as (it2 & -> & Hrd & Hr1). cbn [mbind option_bind].
  apply get_number_reads in Hrd as (it3 & -> & Hrd & Hr2). cbn [mbind option_bind].
  apply get_list_reads in Hrd as (lc & it4 & it5 & -> & Hval & _ & Hss & _). cbn [mbind option_bind].
  assert (nc_is_valid agent = true /\ nc_is_valid lifetime = true) as [-> ->].
  { unfold nc_is_valid, INT_MIN_VAL, UINT_MAX_VAL, LONG_MAX_VAL in *.
    split; apply negb_true_iff, Z.eqb_neq; lia. }
  rewrite Hval. cbn [andb c3_assert mbind option_bind]. rewrite (unique_names_ok _ _ _ _ _ _ [] Hss Hv). cbn [mbind option_bind].
  pose proof (uniq_length ns []) as Hul. unfold zlen in Hul at 2. cbn in Hul.
  destruct (save_link_ok st1 p po es (uniq [] ns)) as (st2 & po2 & He2 & Hok2 & Hon2 & Hp2 & Hl2 & Hd2 & Hn2 & Hnm2); try done.
  { by rewrite Hpg1. }
  { apply Forall_forall. intros n Hn. apply elem_of_uniq in Hn as [?%elem_of_nil|Hn]; [done|]. by eapply Forall_forall in Hv. }
  { apply uniq_nodup. constructor. }
  { split; [|lia]. rewrite <- (size_dom (tm_tags st1)), (same_meta_dom _ _ Hm1), size_dom. lia. }
  apply bind_Some in He2 as (sta & -> & He2). cbn [mbind option_bind]. apply bind_Some in He2 as (stb & -> & He2). cbn [mbind option_bind].
  rewrite He2. cbn [mbind option_bind].
  assert (nc_is_valid_uint agent && ((lifetime <? 0) || nc_is_valid_uint lifetime) = true) as ->.
  { unfold nc_is_valid_uint. destruct (0 <=? agent) eqn:E1; zbool; [|lia]. destruct (agent <=? _) eqn:E2; zbool; [|lia].
    destruct (lifetime <? 0) eqn:E3; zbool; [done|]. destruct (0 <=? lifetime) eqn:E4; zbool; [|lia].
    destruct (lifetime <=? _) eqn:E5; zbool; [done|lia]. }
  cbn [c3_assert mbind option_bind]. eexists. split; [done|]. split; [by apply tm_ok_post|].
  apply (effect_post st st2 _ []). replace (saved (view_of st po) ns) with (view_of st2 po2).
  - apply effect_page; [by eapply only_page_trans|done].
  - unfold view_of, saved. cbn [v_name v_deleted]. by rewrite Hl2, Hd2, Hn2, Hnm2.
Qed.

(** ** [GETMETADATAS] *)

Lemma tag_names_ok st d pend busy p po n : forall a,
  tm_inv st d pend busy -> tm_pages st !! p = Some po -> page_tagged (tagging (tm_refs st)) po 0 (get_num_tag_refs po) ->
  0 <= a -> a + Z.of_nat n = get_num_tag_refs po ->
  tag_names nint st po (seqZ a (Z.of_nat n)) = Some (omap (name_of st) (drop (Z.to_nat a) (tags_of (tagging (tm_refs st)) po))).
Proof.
  induction n as [|n IH]; intros a Hinv Hp Ht Ha Hn; pose proof (tags_of_linked nint st d pend busy p po Hinv Hp Ht) as HF.
  - rewrite drop_ge; [done|]. rewrite <- (Forall2_length _ _ _ HF), length_take. lia.
  - rewrite seqZ_cons by lia. cbn [tag_names]. replace (Z.succ a) with (a + 1) by lia. replace (Z.pred (Z.of_nat (S n))) with (Z.of_nat n) by lia.
    destruct (get_tag_ref_ok nint Hnint po a (inv_shape _ _ _ _ _ Hinv p po Hp)) as (r & -> & Hr); [lia|]. cbn [mbind option_bind].
    destruct (Forall2_lookup_l _ _ _ (Z.to_nat a) r HF) as (x & Hx & Hrx); [by rewrite lookup_take_lt by lia|].
    destruct (ch_tag _ _ _ (inv_chains _ _ _ _ _ Hinv) r p x Hrx) as [to Hto]. apply lookup_tagging in Hrx as (rf & -> & _ & Htag).
    cbn [mbind option_bind]. rewrite Htag. cbn [mbind option_bind]. rewrite Hto. cbn [mbind option_bind].
    rewrite (IH (a + 1)) by (done || lia). cbn [mbind option_bind]. rewrite (drop_S _ _ _ Hx).
    replace (Z.to_nat (a + 1)) with (S (Z.to_nat a)) by lia. cbn [omap list_omap].
    assert (name_of st x = if to_untagged to then None else Some (to_name to)) as -> by (unfold name_of; by rewrite Hto).
    by destruct (to_untagged to).
Qed.

Lemma process_getmetadatas_ok st cr p po ok : tm_ok st -> tm_pages st !! p = Some po ->
  let pf := ho_payload (po_base po) in
  process_getmetadatas_command nint ok st cr p
  = Some (match v_tags (view_of st po) with
          | Some names =>
              if deleted po then post st (Respond OkResponse)
              else
                let st := post st (Respond (DataResponse (pho_exp_time pf) (pho_mod_time pf) names)) in
                if ok then if decide (pho_opt_useragent pf = UA_NUMBER_OF_ELEMENTS) then st else post st (PostRead p (pho_opt_useragent pf))
                else post st (Respond InternalError)
          | None => post st (Respond OkResponse)
          end).
Proof.
  intros Hinv Hp pf. unfold process_getmetadatas_command. rewrite Hp. cbn [mbind option_bind]. unfold page_type.
  rewrite bool_decide_true by apply (inv_shape _ _ _ _ _ Hinv p po Hp). cbn [c3_assert mbind option_bind]. rewrite taggable_flags.
  unfold view_of. cbn [v_tags]. destruct (linked po) eqn:El; [|by rewrite andb_false_r]. destruct (deleted po); [done|]. cbn [andb negb].
  destruct (settled_linked st _ _ None p po Hinv) as [Hc Ht]; [done..|].
  pose proof (tag_names_ok st _ _ _ p po (Z.to_nat (get_num_tag_refs po)) 0 Hinv Hp Ht) as Hn. rewrite Z2Nat.id in Hn by lia.
  rewrite Hn by lia. cbn [mbind option_bind]. rewrite drop_0. fold (page_names st po). fold pf.
  destruct ok; [|done]. by destruct (pho_opt_useragent pf).
Qed.

End Handlers.
