(* ===== verification/TagClean.v ===== *)
(** * TagClean

    [CLEAN] in the tag manager: which pages are removed, whether the pages are found
    by going through the page store or along the chain of a tag. Tags named in the
    command are kept alive by extra references meanwhile. *)

From S2P Require Import Prelude Protocol Memory Buffers ChunkBuilder HeaderBuild ChunkIterator RoundTrip Accessors CommandIO DList HashObject HashTable ObjectStore NameTable Tags TagRefs TagPages TagOps TagSave TagMatch TagCommands TagHandlers.

Lemma filter_ext_in {A} (f g : A -> bool) (l : list A) : (forall x, x ∈ l -> f x = g x) ->
  filter (fun x => f x = true) l = filter (fun x => g x = true) l.
Proof.
  induction l as [|x l IH]; intros He; [done|]. rewrite !filter_cons, (He x) by left.
  rewrite IH; [done|]. intros y Hy. apply He. by right.
Qed.

Section Clean.
Context {T : Type} `{NameTableLaws T} `{NewLocs}.
Context (nint : Z) (Hnint : 0 < nint).
Implicit Types (st : TagStore T).
Local Abbreviation tm_inv := (tm_inv nint).
Local Abbreviation tm_ok := (tm_ok nint).

(** ** Removing several pages *)

Definition remove_pages (ps : list loc) (V : gmap loc page_view) : gmap loc page_view :=
  foldl (fun V p => alter removed p V) V ps.

Lemma lookup_remove_pages ps q : forall V,
  remove_pages ps V !! q = if decide (q ∈ ps) then removed <$> V !! q else V !! q.
Proof.
  induction ps as [|p ps IH]; intros V; [done|]. cbn [remove_pages foldl].
  fold (remove_pages ps (alter removed p V)). rewrite IH. destruct (decide (p = q)) as [<-|Hne].
  - rewrite lookup_alter_eq. rewrite (decide_True (P := p ∈ p :: ps)) by left. destruct (decide (p ∈ ps)); [|done].
    by destruct (V !! p).
  - rewrite lookup_alter_ne by done. destruct (decide (q ∈ ps)) as [Hq|Hq].
    + by rewrite decide_True by (by right).
    + rewrite decide_False; [done|]. intros [?|?]%elem_of_cons; congruence.
Qed.

Lemma effect_trans st1 st2 st3 V2 (f : gmap loc page_view -> gmap loc page_view) e1 e2 :
  effect st1 st2 V2 e1 -> effect st2 st3 (f (view st2)) e2 -> effect st1 st3 (f V2) (e1 ++ e2).
Proof.
  intros [A1 A2 A3 A4] [B1 B2 B3 B4]. constructor; [by rewrite B1, A1|by rewrite B2, A2, app_assoc|congruence..].
Qed.

(** The pages whose tags satisfy [m]. *)
Definition picked st (m : list loc -> bool) (p : loc) : bool :=
  match tm_pages st !! p with
  | Some po => negb (deleted po) && linked po && m (tags_of (tagging (tm_refs st)) po)
  | None => false
  end.

Lemma picked_only_page p q m st st' : only_page p st st' -> q <> p -> picked st' m q = picked st m q.
Proof.
  intros Hon Hq. unfold picked. rewrite (op_page _ _ _ Hon q Hq). destruct (tm_pages st !! q) as [po|] eqn:E; [|done].
  by rewrite (op_tags _ _ _ Hon q po Hq E).
Qed.

Lemma tm_inv_post st d pend busy e : tm_inv st d pend busy -> tm_inv (post st e) d pend busy.
Proof. intros Hinv. constructor; apply Hinv. Qed.

(** ** One page *)

Lemma set_deleted_ok st d pend p po : tm_inv st d pend (Some p) -> tm_pages st !! p = Some po ->
  exists st' po', page_set_flags st p HOF_BEING_DELETED = Some st' /\ tm_inv st' d pend (Some p) /\ only_page p st st'
    /\ tm_pages st' !! p = Some po' /\ linked po' = linked po /\ deleted po' = true
    /\ ho_name (po_base po') = ho_name (po_base po) /\ get_num_tag_refs po' = get_num_tag_refs po
    /\ page_refs po' = page_refs po /\ tm_refs st' = tm_refs st /\ tm_tags st' = tm_tags st.
Proof.
  intros Hinv Hp. unfold page_set_flags. rewrite Hp. cbn [mbind option_bind]. destruct (set_deleted po) as (Hl & Hd & Hty).
  destruct (inv_with_base nint st d pend p po (set_flags (po_base po) HOF_BEING_DELETED)) as [Hinv' Hon'];
    [done|done|exact Hty|done|exact (ps_buffer _ _ (inv_shape _ _ _ _ _ Hinv p po Hp))|].
  eexists _, _. split; [done|]. split; [done|]. split; [done|]. split; [cbn; by rewrite lookup_insert_eq|]. by split_and!.
Qed.

(** What cleaning one page does, in either order of the two steps. *)
Record page_cleaned (d : loc -> Z) (p : loc) (po : PageObject) st st' : Prop := mkPageCleaned {
  pc_inv : tm_inv st' d [] None;
  pc_page : only_page p st st';
  pc_shrinks : shrinks d st st';
  pc_frame : refs_frame po st st';
  pc_effect : effect st st' (alter removed p (view st)) [];
}.

Lemma alter_view st p po : tm_pages st !! p = Some po -> alter removed p (view st) = <[p := removed (view_of st po)]> (view st).
Proof.
  intros Hp. apply map_eq. intros q. destruct (decide (p = q)) as [<-|Hne].
  - by rewrite lookup_alter_eq, lookup_insert_eq, lookup_view, Hp.
  - by rewrite lookup_alter_ne, lookup_insert_ne.
Qed.

Lemma page_cleaned_intro d p po st st' po' : tm_inv st' d [] (Some p) -> tm_pages st !! p = Some po -> only_page p st st' ->
  shrinks d st st' -> refs_frame po st st' -> tm_pages st' !! p = Some po' -> linked po' = false -> deleted po' = true ->
  ho_name (po_base po') = ho_name (po_base po) -> page_tagged (tagging (tm_refs st')) po' 0 0 -> page_cleaned d p po st st'.
Proof.
  intros Hinv Hp Hon Hsh Hf Hp' Hl Hd Hn Ht. constructor; try done; [by eapply settled_deleted|]. rewrite (alter_view st p po Hp).
  replace (removed (view_of st po)) with (view_of st' po'); [by apply effect_page|].
  unfold view_of, removed. cbn [v_name]. by rewrite Hl, Hd, Hn.
Qed.

Lemma unlink_then_mark st d p po : tm_inv st d [] None -> tm_pages st !! p = Some po -> linked po = true ->
  exists st', (st ← unlink_object_tags nint st p; page_set_flags st p HOF_BEING_DELETED) = Some st' /\ page_cleaned d p po st st'.
Proof.
  intros Hinv Hp Hl. destruct (settled_linked nint st _ _ None p po Hinv) as [Hc Ht]; [done..|].
  destruct (unlink_page_ok nint Hnint st d [] p po) as (st1 & po1 & -> & Hinv1 & Hon1 & Hsh1 & Hp1 & Hl1 & Hd1 & Hn1 & Ht1 & Hf1);
    [by apply inv_busy|done..|]. cbn [mbind option_bind].
  destruct (set_deleted_ok st1 d [] p po1 Hinv1 Hp1) as (st2 & po2 & -> & Hinv2 & Hon2 & Hp2 & Hl2 & Hd2 & Hn2 & _ & Hr2 & Hrf2 & Htg2).
  exists st2. split; [done|]. eapply (page_cleaned_intro d p po st st2 po2); try done; [by eapply only_page_trans| | |congruence|congruence|].
  - destruct Hsh1 as [A1 A2 A3]. by constructor; rewrite ?Hrf2, ?Htg2.
  - destruct Hf1 as [A1 A2]. by constructor; rewrite Hrf2.
  - intros i r Hi. rewrite Hr2 in Hi. rewrite Hrf2. by apply Ht1.
Qed.

Lemma mark_then_unlink st d p po : tm_inv st d [] None -> tm_pages st !! p = Some po -> linked po = true ->
  exists st', (st ← page_set_flags st p HOF_BEING_DELETED; unlink_object_tags nint st p) = Some st' /\ page_cleaned d p po st st'.
Proof.
  intros Hinv Hp Hl. destruct (settled_linked nint st _ _ None p po Hinv) as [Hc Ht]; [done..|].
  destruct (set_deleted_ok st d [] p po) as (st1 & po1 & -> & Hinv1 & Hon1 & Hp1 & Hl1 & Hd1 & Hn1 & Hc1 & Hr1 & Hrf1 & Htg1);
    [by apply inv_busy|done|]. cbn [mbind option_bind].
  assert (page_tagged (tagging (tm_refs st1)) po1 0 (get_num_tag_refs po1)) as Ht1.
  { intros i r Hi. rewrite Hr1 in Hi. rewrite Hrf1, Hc1. by apply Ht. }
  destruct (unlink_page_ok nint Hnint st1 d [] p po1) as (st2 & po2 & -> & Hinv2 & Hon2 & Hsh2 & Hp2 & Hl2 & Hd2 & Hn2 & Ht2 & Hf2);
    [done|done|congruence|lia|done|]. exists st2. split; [done|].
  eapply (page_cleaned_intro d p po st st2 po2); try done; [by eapply only_page_trans| | |congruence|congruence].
  - destruct Hsh2 as [A1 A2 A3]. rewrite Hrf1 in A1. rewrite Htg1 in A2, A3. by constructor.
  - destruct Hf2 as [A1 A2]. rewrite Hrf1 in A1, A2. rewrite Hr1 in A1, A2. by constructor.
Qed.

(** ** Going through the page store *)

(** The condition on the tags of a page. *)
Definition satisfies (condition : tag_select_condition_t) (tags xs : list loc) : bool :=
  match condition with
  | TSC_ALWAYS => true
  | TSC_MATCH => 1 <=? matching xs tags
  | TSC_NOT_MATCH => negb (1 <=? matching xs tags)
  end.

Lemma selects_ok st d p po tags condition : tm_inv st d [] None -> tm_pages st !! p = Some po -> linked po = true ->
  (condition <> TSC_ALWAYS -> tags <> []) ->
  selects nint st po tags condition = Some (satisfies condition tags (tags_of (tagging (tm_refs st)) po)).
Proof.
  intros Hinv Hp Hl Hne. destruct (settled_linked nint st _ _ None p po Hinv) as [Hc Ht]; [done..|].
  destruct condition; cbn [selects satisfies]; [done| |]; rewrite (matches_tags_count nint Hnint st d [] None p po 1 tags Hinv Hp) by (done || lia || auto); done.
Qed.

Lemma object_unlink_ok st d p po tags condition : tm_inv st d [] None -> tm_pages st !! p = Some po ->
  (condition <> TSC_ALWAYS -> tags <> []) ->
  exists st', object_unlink_callback nint tags condition st p = Some (true, st') /\ tm_inv st' d [] None /\ shrinks d st st'
    /\ (forall m q, q <> p -> picked st' m q = picked st m q)
    /\ (if picked st (satisfies condition tags) p then effect st st' (alter removed p (view st)) [PostDelete p]
        else st' = st).
Proof.
  intros Hinv Hp Hne. unfold object_unlink_callback, picked. rewrite Hp. cbn [mbind option_bind]. unfold page_type.
  rewrite bool_decide_true by apply (inv_shape _ _ _ _ _ Hinv p po Hp). cbn [c3_assert mbind option_bind]. rewrite taggable_flags.
  assert (exists st', Some (true, st) = Some (true, st') /\ tm_inv st' d [] None /\ shrinks d st st'
    /\ (forall m q, q <> p -> picked st' m q = picked st m q) /\ st' = st) as Hsame.
  { exists st. split_and!; try done; apply shrinks_refl. }
  destruct (negb (deleted po)) eqn:Ed; [|done]. destruct (linked po) eqn:El; [|done]. cbn [andb].
  rewrite (selects_ok st d p po tags condition) by done. cbn [mbind option_bind].
  destruct (satisfies condition tags _); [|done]. destruct (unlink_then_mark st d p po Hinv Hp El) as (st' & He & [P1 P2 P3 P4 P5]).
  apply bind_Some in He as (st1 & -> & He). cbn [mbind option_bind]. rewrite He. cbn [mbind option_bind].
  exists (post st' (PostDelete p)). split_and!; [done|by apply tm_inv_post| | |by apply (effect_post st st' _ [])].
  - destruct P3 as [A1 A2 A3]. by constructor.
  - intros m q Hq. by apply (picked_only_page p q m st st').
Qed.

Lemma unlink_visit_ok d tags condition l : forall st, tm_inv st d [] None -> NoDup l ->
  (forall p, p ∈ l -> is_Some (tm_pages st !! p)) -> (condition <> TSC_ALWAYS -> tags <> []) ->
  exists st', visit (object_unlink_callback nint tags condition) st l = Some (true, st') /\ tm_inv st' d [] None /\ shrinks d st st'
    /\ let ps := filter (fun p => picked st (satisfies condition tags) p = true) l in
       effect st st' (remove_pages ps (view st)) (PostDelete <$> ps).
Proof.
  induction l as [|p l IH]; intros st Hinv Hnd Hl Hne.
  { exists st. split_and!; try done; [apply shrinks_refl|apply effect_none]. }
  apply NoDup_cons in Hnd as [Hpl Hnd]. destruct (Hl p) as [po Hp]; [left|]. cbn [visit].
  destruct (object_unlink_ok st d p po tags condition Hinv Hp Hne) as (st1 & -> & Hinv1 & Hsh1 & Hpk1 & Hef1). cbn [mbind option_bind].
  assert (forall q, is_Some (tm_pages st !! q) -> is_Some (tm_pages st1 !! q)) as Hdom.
  { intros q [qo Hq]. destruct (picked st _ p); [|subst; by eexists]. assert (is_Some (view st1 !! q)) as [v Hv].
    { rewrite (ef_view _ _ _ _ Hef1). apply lookup_alter_is_Some. rewrite lookup_view, Hq. by eexists. }
    rewrite lookup_view in Hv. destruct (tm_pages st1 !! q); [by eexists|done]. }
  destruct (IH st1 Hinv1 Hnd) as (st2 & -> & Hinv2 & Hsh2 & Hef2); [intros q Hq; apply Hdom, Hl; by right|done|].
  exists st2. split_and!; [done|done|by eapply shrinks_trans|]. cbn zeta in *. rewrite filter_cons.
  replace (filter (fun q => picked st (satisfies condition tags) q = true) l)
    with (filter (fun q => picked st1 (satisfies condition tags) q = true) l).
  2:{ apply filter_ext_in. intros q Hq. apply Hpk1. by intros ->. }
  destruct (picked st _ p) eqn:E.
  - rewrite decide_True by done. cbn [fmap list_fmap]. apply (effect_trans st st1 st2 _ (remove_pages _) [PostDelete p] _ Hef1 Hef2).
  - rewrite decide_False by done. by subst st1.
Qed.

Lemma lock_enumerate_all_visit {C} (cb : C -> loc -> option (bool * C)) ts : forall c,
  lock_enumerate_all ts cb c = visit cb c (concat ts).
Proof.
  induction ts as [|t ts IH]; intros c; [done|]. cbn. rewrite visit_app. destruct (visit cb c t) as [[[] c']|]; cbn; [apply IH|done..].
Qed.

(** ** Extra references *)

Lemma inv_dummy_ext st d d' pend busy : (forall x, d x = d' x) -> tm_inv st d pend busy -> tm_inv st d' pend busy.
Proof.
  intros He Hinv. constructor; try apply Hinv. destruct (inv_chains _ _ _ _ _ Hinv) as [C1 C2 C3]. constructor; [done| |].
  - intros x to Hx. rewrite <- He. by apply C2.
  - intros x. by rewrite <- He.
Qed.

Definition renumbered (to : TagObject) (num : Z) : TagObject := mkTagObject (to_name to) (to_first to) num (to_untagged to).

Lemma inv_renumber st d d' pend pend' x to num :
  tm_inv st d pend None -> tm_tags st !! x = Some to -> num < 2 ^ 32 -> num = to_num to + (d' x - d x) ->
  (forall y, y <> x -> d' y = d y) -> 0 <= d' x ->
  (to_untagged to = false -> num = 0 -> x ∈ pend') -> (forall y, y ∈ pend -> y ∈ pend') ->
  let st' := with_refs st (tm_refs st) (<[x := renumbered to num]> (tm_tags st)) in
  tm_inv st' d' pend' None /\ forall p, only_page p st st'.
Proof.
  intros Hinv Hx Hlt Hnum Hd Hpos Hpend Hsub. destruct (inv_chains _ _ _ _ _ Hinv) as [C1 C2 C3].
  destruct (inv_with_refs nint st d pend None (tm_refs st) (<[x := renumbered to num]> (tm_tags st)) d' pend' Hinv) as [Hinv' Hon'];
    try done; [|by eapply same_meta_insert| | |split; [done|intros p; by apply Hon']].
  - constructor.
    + intros r p y Hr. apply C1 in Hr. destruct (decide (x = y)) as [<-|Hne]; [rewrite lookup_insert_eq; by eexists|].
      by rewrite lookup_insert_ne.
    + intros y ty Hy. destruct (decide (x = y)) as [<-|Hne].
      * rewrite lookup_insert_eq in Hy. injection Hy as <-. destruct (C2 x to Hx) as (c & ? & ? & Hn). exists c. split_and!; try done.
        cbn. lia.
      * rewrite lookup_insert_ne in Hy by done. rewrite Hd by done. by apply C2.
    + intros y. destruct (decide (y = x)) as [->|Hne]; [done|]. by rewrite Hd.
  - intros y ty Hy. destruct (decide (x = y)) as [<-|Hne]; [rewrite lookup_insert_eq in Hy; by injection Hy as <-|].
    rewrite lookup_insert_ne in Hy by done. by eapply (inv_num _ _ _ _ _ Hinv).
  - intros y ty Hy Hu Hz. destruct (decide (x = y)) as [<-|Hne].
    + rewrite lookup_insert_eq in Hy. injection Hy as <-. by apply Hpend.
    + rewrite lookup_insert_ne in Hy by done. apply Hsub. by eapply (inv_live _ _ _ _ _ Hinv).
Qed.

(** User tags with room for [n] more references. *)
Definition holdable st (n : Z) (x : loc) : Prop :=
  exists to, tm_tags st !! x = Some to /\ to_untagged to = false /\ to_num to + n < 2 ^ 32.

Lemma add_dummies_ok tags : forall st d, tm_inv st d [] None -> (forall x, x ∈ tags -> holdable st (zlen tags) x) ->
  exists st', add_dummy_references st tags = Some st' /\ tm_inv st' (fun x => d x + occurrences x tags) [] None
    /\ (forall p, only_page p st st') /\ tm_pages st' = tm_pages st /\ tm_refs st' = tm_refs st
    /\ same_meta (tm_tags st) (tm_tags st') /\ (forall x, to_first <$> tm_tags st' !! x = to_first <$> tm_tags st !! x).
Proof.
  induction tags as [|x tags IH]; intros st d Hinv Hh.
  { exists st. split_and!; try done. eapply inv_dummy_ext; [|exact Hinv]. intros x. change (occurrences x []) with 0. lia. }
  rewrite zlen_cons in Hh. pose proof (zlen_nonneg tags). destruct (Hh x) as (to & Hx & Hu & Hb); [left|].
  cbn [add_dummy_references]. unfold tag_add_reference. rewrite Hx. cbn [mbind option_bind].
  pose proof (tag_num _ _ _ (inv_chains _ _ _ _ _ Hinv) x to Hx) as Hn. pose proof (ch_dummy _ _ _ (inv_chains _ _ _ _ _ Hinv) x).
  destruct (to_num to =? 0) eqn:E; zbool; [by pose proof (inv_live _ _ _ _ _ Hinv x to Hx Hu E) as ?%elem_of_nil|].
  cbn [negb c3_assert mbind option_bind]. rewrite u32_small by (unfold is_u32; lia). fold (renumbered to (to_num to + 1)).
  set (d1 := fun y => d y + if decide (x = y) then 1 else 0).
  destruct (inv_renumber st d d1 [] [] x to (to_num to + 1) Hinv Hx) as [Hinv1 Hon1]; unfold d1; try done; [lia| | | |intros _ ?; lia|].
  { rewrite decide_True by done. lia. }
  { intros y Hy. rewrite decide_False by done. lia. }
  { rewrite decide_True by done. lia. }
  set (st1 := with_refs st _ _) in *.
  assert (forall y, tag_meta <$> tm_tags st1 !! y = tag_meta <$> tm_tags st !! y) as Hm1 by (by eapply same_meta_insert).
  destruct (IH st1 d1 Hinv1) as (st' & -> & Hinv' & Hon' & Hpg' & Hrf' & Hm' & Hf').
  { intros y Hy. destruct (Hh y) as (ty & Hty & Huy & Hby); [by right|]. destruct (decide (x = y)) as [<-|Hne].
    - exists (renumbered to (to_num to + 1)). replace ty with to in * by congruence. cbn. rewrite lookup_insert_eq. split_and!; [done|done|lia].
    - exists ty. cbn. rewrite lookup_insert_ne by done. split_and!; [done|done|lia]. }
  exists st'. split_and!; try done.
  - eapply inv_dummy_ext; [|exact Hinv']. intros y. unfold d1. rewrite occurrences_cons. cbn. lia.
  - intros p. by eapply only_page_trans.
  - intros y. by rewrite Hm', Hm1.
  - intros y. rewrite Hf'. cbn. destruct (decide (x = y)) as [<-|Hne]; [by rewrite lookup_insert_eq, Hx|by rewrite lookup_insert_ne].
Qed.

Lemma occurrences_pos x tags : x ∈ tags <-> 0 < occurrences x tags.
Proof.
  induction tags as [|t tags IH]; [split; [by intros ?%elem_of_nil|done]|]. rewrite occurrences_cons, elem_of_cons, IH.
  pose proof (occurrences_nonneg x tags). destruct (decide (t = x)) as [->|Hne]; [split; [lia|by left]|]. split; [intros [?|?]; [done|lia]|].
  intros ?. right. lia.
Qed.

Lemma remove_dummies_ok tags : forall st d, tm_inv st (fun x => d x + occurrences x tags) [] None -> (forall x, 0 <= d x) ->
  (forall x, x ∈ tags -> exists to, tm_tags st !! x = Some to /\ to_untagged to = false) ->
  exists st', remove_dummy_references st tags = Some st' /\ tm_inv st' d [] None
    /\ (forall p, only_page p st st') /\ tm_pages st' = tm_pages st /\ tm_refs st' = tm_refs st.
Proof.
  induction tags as [|x tags IH]; intros st d Hinv Hd Hex.
  { exists st. split_and!; try done. eapply inv_dummy_ext; [|exact Hinv]. intros x. cbn. change (occurrences x []) with 0. lia. }
  destruct (Hex x) as (to & Hx & Hu); [left|]. pose proof (tag_num _ _ _ (inv_chains _ _ _ _ _ Hinv) x to Hx) as Hn. cbn beta in Hn.
  rewrite occurrences_cons, decide_True in Hn by done. pose proof (occurrences_nonneg x tags). pose proof (Hd x).
  pose proof (inv_num _ _ _ _ _ Hinv x to Hx). cbn [remove_dummy_references]. rewrite Hx. cbn [mbind option_bind].
  destruct (to_num to =? 0) eqn:E; zbool; [lia|]. cbn [negb c3_assert mbind option_bind].
  rewrite u32_small by (unfold is_u32; lia). fold (renumbered to (to_num to - 1)). cbn zeta.
  set (st1 := with_refs st _ _). set (d1 := fun y => d y + occurrences y tags).
  destruct (inv_renumber st (fun y => d y + occurrences y (x :: tags)) d1 [] [x] x to (to_num to - 1) Hinv Hx) as [Hinv1 Hon1].
  { lia. }
  { unfold d1. rewrite occurrences_cons, decide_True by done. lia. }
  { intros y Hy. unfold d1. rewrite occurrences_cons, decide_False by done. lia. }
  { unfold d1. lia. }
  { intros _ _. left. }
  { by intros y ?%elem_of_nil. }
  fold st1 in Hinv1, Hon1. assert (tm_tags st1 !! x = Some (renumbered to (to_num to - 1))) as Hx1 by (cbn; by rewrite lookup_insert_eq).
  assert (forall y, y <> x -> tm_tags st1 !! y = tm_tags st !! y) as Hy1 by (intros y Hy; cbn; by rewrite lookup_insert_ne).
  assert (exists st2, (if to_num to - 1 =? 0 then dispose_tag st1 x else Some st1) = Some st2 /\ tm_inv st2 d1 [] None
    /\ (forall p, only_page p st1 st2) /\ tm_pages st2 = tm_pages st1 /\ tm_refs st2 = tm_refs st1
    /\ (forall y, y ∈ tags -> tm_tags st2 !! y = tm_tags st1 !! y)) as (st2 & -> & Hinv2 & Hon2 & Hpg2 & Hrf2 & Hk2).
  { destruct (to_num to - 1 =? 0) eqn:E1; zbool.
    - destruct (dispose_tag_ok nint st1 d1 _ None x _ Hinv1 Hx1) as (tb & -> & Hinv2 & Hon2); [done|done|].
      eexists. split_and!; try done.
      + eapply inv_weaken; [exact Hinv2|]. intros y [Hy ->%list_elem_of_singleton]%list_elem_of_filter. done.
      + intros y Hy. cbn. rewrite lookup_delete_ne; [done|]. intros <-. apply occurrences_pos in Hy. lia.
    - exists st1. split_and!; try done. eapply inv_drop; [exact Hinv1|]. intros t Ht. rewrite Hx1 in Ht. injection Ht as <-. cbn. lia. }
  cbn [mbind option_bind]. destruct (IH st2 d Hinv2 Hd) as (st' & -> & Hinv' & Hon' & Hpg' & Hrf').
  { intros y Hy. rewrite Hk2 by done. destruct (decide (y = x)) as [->|Hne]; [eexists; by split|].
    rewrite Hy1 by done. apply Hex. by right. }
  exists st'. split_and!; try done; [|by rewrite Hpg', Hpg2|by rewrite Hrf', Hrf2]. intros p.
  eapply only_page_trans; [apply Hon1|]. eapply only_page_trans; [apply Hon2|apply Hon'].
Qed.

(** Tags held while pages are cleaned are still there. *)
Lemma held_exist d st st' x to : shrinks d st st' -> 0 < d x -> tm_tags st !! x = Some to ->
  exists to', tm_tags st' !! x = Some to' /\ tag_meta to' = tag_meta to.
Proof.
  intros Hsh Hd Hx. pose proof (sh_held _ _ _ Hsh x Hd) as Hm. rewrite Hx in Hm. destruct (tm_tags st' !! x) as [to'|]; [|done].
  exists to'. split; [done|]. cbn in Hm. congruence.
Qed.

Lemma view_same st st' : (forall p, only_page p st st') -> tm_pages st' = tm_pages st -> effect st st' (view st) [].
Proof.
  intros Hon Hpg. constructor; [|rewrite app_nil_r; apply (Hon xH)|apply (Hon xH)|apply (Hon xH)].
  apply map_eq. intros q. rewrite !lookup_view, Hpg. destruct (tm_pages st !! q) as [po|] eqn:E; [|done]. cbn. unfold view_of.
  assert (exists p : loc, q <> p) as (p & Hp) by (exists (Pos.succ q); apply Pos.succ_discr). by rewrite (op_names _ _ _ (Hon p) q po Hp E).
Qed.

Lemma picked_same st st' m p : (forall p, only_page p st st') -> tm_pages st' = tm_pages st -> tm_refs st' = tm_refs st -> picked st' m p = picked st m p.
Proof. intros _ Hpg Hrf. unfold picked. by rewrite Hpg, Hrf. Qed.

(** [CLEAN] through the page store. *)
Definition in_order st (m : list loc -> bool) : list loc :=
  filter (fun p => picked st m p = true) (concat (tm_page_tables st)).

Lemma unlink_objects_ok st d tags condition : tm_inv st d [] None -> (condition <> TSC_ALWAYS -> tags <> []) ->
  exists st', unlink_objects nint st tags condition = Some st' /\ tm_inv st' d [] None /\ shrinks d st st'
    /\ let ps := in_order st (satisfies condition tags) in effect st st' (remove_pages ps (view st)) (PostDelete <$> ps).
Proof.
  intros Hinv Hne. unfold unlink_objects. rewrite lock_enumerate_all_visit.
  destruct (unlink_visit_ok d tags condition (concat (tm_page_tables st)) st Hinv) as (st' & -> & Hinv' & Hsh' & Hef');
    [apply (inv_tables _ _ _ _ _ Hinv)|intros p Hp; by apply (inv_enumerated _ _ _ _ _ Hinv)|done|].
  exists st'. by split_and!.
Qed.

Lemma clean_by_tags_ok st tags condition : tm_ok st -> tags <> [] -> (forall x, x ∈ tags -> holdable st (zlen tags) x) ->
  exists st', clean_by_tags nint st tags condition = Some st' /\ tm_ok st'
    /\ let ps := in_order st (satisfies condition tags) in effect st st' (remove_pages ps (view st)) (PostDelete <$> ps).
Proof.
  intros Hinv Hne Hh. unfold clean_by_tags.
  destruct (add_dummies_ok tags st no_dummies Hinv Hh) as (st1 & -> & Hinv1 & Hon1 & Hpg1 & Hrf1 & Hm1 & _). cbn [mbind option_bind].
  destruct (unlink_objects_ok st1 _ tags condition Hinv1) as (st2 & -> & Hinv2 & Hsh2 & Hef2); [done|]. cbn [mbind option_bind].
  destruct (remove_dummies_ok tags st2 no_dummies Hinv2) as (st3 & -> & Hinv3 & Hon3 & Hpg3 & Hrf3); [done| |].
  { intros x Hx. destruct (Hh x Hx) as (to & Hto & Hu & _). destruct (same_meta_lookup (tm_tags st1) (tm_tags st) x to) as (t1 & Ht1 & Hn1 & Hu1);
      [by apply same_meta_sym|done|].
    destruct (held_exist _ st1 st2 x t1 Hsh2) as (t2 & Ht2 & Hm2); [|done|].
    - apply occurrences_pos in Hx. unfold no_dummies. lia.
    - exists t2. split; [done|]. unfold tag_meta in Hm2. congruence. }
  exists st3. split; [done|]. split; [done|]. cbn zeta in *.
  replace (in_order st1 (satisfies condition tags)) with (in_order st (satisfies condition tags)) in Hef2; cycle 1.
  { unfold in_order. rewrite (op_tables _ _ _ (Hon1 xH)). apply filter_ext_in. intros p _. symmetry. by apply picked_same. }
  pose proof (effect_trans _ _ _ _ (remove_pages _) _ _ (view_same st st1 Hon1 Hpg1) Hef2) as Hef12.
  pose proof (effect_trans _ _ _ _ (fun V => V) _ _ Hef12 (view_same st2 st3 Hon3 Hpg3)) as Hef. cbn in Hef.
  by rewrite app_nil_r in Hef.
Qed.

(** ** Along the chain of a tag *)

Fixpoint nexts (refs : gmap loc TagRef) (l : list loc) : Prop :=
  match l with
  | [] => True
  | r :: l => next_of ref_chain refs r = Some (first_or l None) /\ nexts refs l
  end.

Lemma dseg_nexts refs l : forall q, dseg ref_chain refs q l None -> nexts refs l.
Proof. induction l as [|r l IH]; intros q; [done|]. intros (_ & Hn & Hl). split; [done|]. by eapply IH. Qed.

Lemma nexts_frame refs refs' l : nexts refs l -> (forall r, r ∈ l -> next_of ref_chain refs' r = next_of ref_chain refs r) -> nexts refs' l.
Proof.
  induction l as [|r l IH]; [done|]. intros [Hn Hl] He. split; [rewrite He; [done|left]|]. apply IH; [done|].
  intros q Hq. apply He. by right.
Qed.

Lemma nexts_in refs l r q : nexts refs l -> r ∈ l -> next_of ref_chain refs r = Some (Some q) -> q ∈ l.
Proof.
  induction l as [|a l IH]; [by intros _ ?%elem_of_nil|]. intros [Hn Hl] [->|Hr]%elem_of_cons Hq.
  - rewrite Hn in Hq. destruct l as [|b l]; [done|]. injection Hq as ->. right. left.
  - right. by apply IH.
Qed.

(** A page has one reference to a tag. *)
Lemma one_ref_per_tag st d pend busy p x r q : tm_inv st d pend busy ->
  tagging (tm_refs st) !! r = Some (p, x) -> tagging (tm_refs st) !! q = Some (p, x) -> r = q.
Proof.
  intros Hinv Hr Hq. destruct (decide (r = q)) as [|Hne]; [done|]. exfalso.
  destruct (inv_owned _ _ _ _ _ Hinv r p x Hr) as (po & Hp & Hin). destruct (inv_owned _ _ _ _ _ Hinv q p x Hq) as (po' & Hp' & Hin').
  replace po' with po in * by congruence. pose proof (pl_nodup _ _ _ (inv_linking _ _ _ _ _ Hinv p po Hp)) as Hnd.
  rewrite (tags_of_delete _ po r p x) in Hnd; [|apply (inv_shape _ _ _ _ _ Hinv p po Hp)|done|done].
  apply NoDup_cons in Hnd as [Hnd _]. apply Hnd. unfold tags_of. apply list_elem_of_omap. exists q. split; [done|].
  rewrite lookup_delete_ne by done. by rewrite Hq.
Qed.

(** Pages referred to by the chains are linked. *)
Lemma tagged_linked st d pend p x r : tm_inv st d pend None -> tagging (tm_refs st) !! r = Some (p, x) ->
  exists po, tm_pages st !! p = Some po /\ r ∈ page_refs po /\ linked po = true.
Proof.
  intros Hinv Hr. destruct (inv_owned _ _ _ _ _ Hinv r p x Hr) as (po & Hp & Hin). exists po. split_and!; [done|done|].
  pose proof (inv_settled _ _ _ _ _ Hinv p po Hp ltac:(done)) as Hs. unfold page_settled in Hs. destruct (linked po); [done|].
  destruct Hs as [Hs _]. apply list_elem_of_lookup in Hin as [i Hi]. by rewrite (page_tagged_none _ _ _ Hs i r Hi) in Hr.
Qed.

Definition page_of st (r : loc) : ptr := fst <$> tagging (tm_refs st) !! r.

Definition matches_all (tags xs : list loc) : bool := zlen tags <=? matching xs tags.

(** The test that is made for each page on the chain. *)
Lemma chain_match_ok st d p po tags : tm_inv st d [] None -> tm_pages st !! p = Some po -> linked po = true -> zlen tags < 2 ^ 32 ->
  (if zlen tags =? 0 then Some true else matches_tags nint st po (zlen tags) tags)
  = Some (matches_all tags (tags_of (tagging (tm_refs st)) po)).
Proof.
  intros Hinv Hp Hl Hlt. destruct (settled_linked nint st _ _ None p po Hinv) as [Hc Ht]; [done..|]. pose proof (zlen_nonneg tags).
  unfold matches_all. destruct (zlen tags =? 0) eqn:E; zbool.
  - pose proof (matching_range (tags_of (tagging (tm_refs st)) po) tags). destruct (_ <=? _) eqn:E1; zbool; [done|lia].
  - rewrite (matches_tags_count nint Hnint st d [] None p po (zlen tags) tags Hinv Hp) by (done || lia || (by intros ->)). done.
Qed.

Lemma clean_chain_ok tags s d : zlen tags < 2 ^ 32 -> forall l fuel st, tm_inv st d [] None -> nexts (tm_refs st) l -> NoDup l ->
  (forall r, r ∈ l -> exists p, tagging (tm_refs st) !! r = Some (p, s)) -> (length l <= fuel)%nat ->
  exists st', clean_chain nint fuel st tags (first_or l None) = Some st' /\ tm_inv st' d [] None /\ shrinks d st st'
    /\ let ps := filter (fun p => picked st (matches_all tags) p = true) (omap (page_of st) l) in
       effect st st' (remove_pages ps (view st)) (PostDelete <$> ps).
Proof.
  intros Hlt. induction l as [|r l IH]; intros fuel st Hinv Hnx Hnd Htg Hfuel.
  { exists st. cbn. destruct fuel; (split_and!; [done|done|apply shrinks_refl|apply effect_none]). }
  destruct fuel as [|fuel]; [cbn in Hfuel; lia|]. cbn in Hfuel. destruct Hnx as [Hn Hnx]. apply NoDup_cons in Hnd as [Hrl Hnd].
  destruct (Htg r) as (p & Hr); [left|]. destruct (tagged_linked st d [] p s r Hinv Hr) as (po & Hp & Hin & Hl).
  pose proof Hr as (rf & Hrf & Hpg & _)%lookup_tagging. cbn [first_or clean_chain]. rewrite Hrf. cbn [mbind option_bind].
  rewrite Hpg. cbn [mbind option_bind]. rewrite Hp. cbn [mbind option_bind]. unfold next_of in Hn. rewrite Hrf in Hn. cbn in Hn. injection Hn as Hn.
  cbn zeta. rewrite Hn, not_deleted_flag, linked_flag, Hl. cbn [c3_assert mbind option_bind].
  rewrite (chain_match_ok st d p po tags) by done. cbn [mbind option_bind].
  assert (page_of st r = Some p) as Hpr by (unfold page_of; by rewrite Hr). cbn [omap list_omap]. rewrite Hpr, filter_cons.
  assert (picked st (matches_all tags) p = negb (deleted po) && matches_all tags (tags_of (tagging (tm_refs st)) po)) as Hpk
    by (unfold picked; by rewrite Hp, Hl, andb_true_r).
  assert (forall q, q ∈ l -> exists p', tagging (tm_refs st) !! q = Some (p', s)) as Htg' by (intros q Hq; apply Htg; by right).
  destruct (negb (deleted po)); cbn [andb] in Hpk; cycle 1.
  { rewrite decide_False by (by rewrite Hpk). apply IH; [done..|lia]. }
  destruct (matches_all tags _); cycle 1.
  { rewrite decide_False by (by rewrite Hpk). apply IH; [done..|lia]. }
  rewrite decide_True by done. destruct (mark_then_unlink st d p po Hinv Hp Hl) as (st1 & He & [P1 P2 P3 P4 P5]).
  apply bind_Some in He as (sta & -> & He). cbn [mbind option_bind]. rewrite He. cbn [mbind option_bind].
  assert (forall q, q ∈ l -> q ∉ page_refs po) as Hother.
  { intros q Hq Hqp. destruct (Htg' q Hq) as (p' & Hp'). pose proof (pl_owner _ _ _ (inv_linking _ _ _ _ _ Hinv p po Hp) q p' s Hqp Hp') as ->.
    apply Hrl. by rewrite (one_ref_per_tag st d [] None p s r q Hinv Hr Hp'). }
  destruct (IH fuel (post st1 (PostDelete p))) as (st2 & -> & Hinv2 & Hsh2 & Hef2).
  - by apply tm_inv_post.
  - eapply nexts_frame; [exact Hnx|]. intros q Hq. apply (rf_next _ _ _ P4); [by apply Hother|].
    intros q' Hq'. apply Hother. by eapply nexts_in.
  - done.
  - intros q Hq. cbn. rewrite (rf_tagging _ _ _ P4) by auto. auto.
  - lia.
  - exists st2. split_and!; [done|done|eapply shrinks_trans; [|exact Hsh2]; destruct P3; by constructor|]. cbn zeta in *.
    assert (omap (page_of (post st1 (PostDelete p))) l = omap (page_of st) l) as Ho.
    { clear -Hother P4. induction l as [|q l IH]; [done|]. cbn. assert (page_of (post st1 (PostDelete p)) q = page_of st q) as ->.
      { unfold page_of. cbn. rewrite (rf_tagging _ _ _ P4); [done|]. apply Hother. left. }
      rewrite IH; [done|]. intros y Hy. apply Hother. by right. }
    rewrite Ho in Hef2. rewrite (filter_ext_in _ (picked st (matches_all tags))) in Hef2; cycle 1.
    { intros q Hq. apply list_elem_of_omap in Hq as (r' & Hr' & Hq). apply (picked_only_page p q _ st st1 P2). intros ->.
      unfold page_of in Hq. destruct (tagging (tm_refs st) !! r') as [[a b]|] eqn:Eq; [|done]. cbn in Hq. injection Hq as ->.
      destruct (Htg' r' Hr') as (p' & Hp'). rewrite Eq in Hp'. injection Hp' as <- ->.
      apply Hrl. by rewrite (one_ref_per_tag st d [] None p s r r' Hinv Hr Eq). }
    pose proof (effect_post _ _ _ _ (PostDelete p) P5) as P6.
    apply (effect_trans st _ st2 _ (remove_pages _) [PostDelete p] _ P6 Hef2).
Qed.

Lemma occurrences_app x l k : occurrences x (l ++ k) = occurrences x l + occurrences x k.
Proof. unfold occurrences. by rewrite filter_app, zlen_app. Qed.

(** The pages on the chain are the pages with the tag. *)
Lemma chain_pages st d pend s c : tm_inv st d pend None -> NoDup c ->
  (forall r, r ∈ c <-> exists p, tagging (tm_refs st) !! r = Some (p, s)) ->
  NoDup (omap (page_of st) c)
  /\ forall p, p ∈ omap (page_of st) c <-> exists po, tm_pages st !! p = Some po /\ s ∈ tags_of (tagging (tm_refs st)) po.
Proof.
  intros Hinv Hnd Hc. split.
  - assert (forall r, r ∈ c -> exists p, tagging (tm_refs st) !! r = Some (p, s)) as Hc' by (intros r Hr; by apply Hc). clear Hc.
    induction c as [|r c IH]; [constructor|]. apply NoDup_cons in Hnd as [Hr Hnd]. cbn. destruct (Hc' r) as (p & Hp); [left|].
    assert (page_of st r = Some p) as -> by (unfold page_of; by rewrite Hp). apply NoDup_cons. split; [|apply IH; [done|]].
    + intros Hin. apply list_elem_of_omap in Hin as (q & Hq & Hpq). destruct (Hc' q) as (p' & Hp'); [by right|].
      unfold page_of in Hpq. rewrite Hp' in Hpq. cbn in Hpq. injection Hpq as ->. apply Hr. by rewrite (one_ref_per_tag st d pend None p s r q).
    + intros q Hq. apply Hc'. by right.
  - intros p. rewrite list_elem_of_omap. split.
    + intros (r & Hr & Hp). apply Hc in Hr as (p' & Hr). unfold page_of in Hp. rewrite Hr in Hp. cbn in Hp. injection Hp as ->.
      destruct (inv_owned _ _ _ _ _ Hinv r p s Hr) as (po & Hp & Hin). exists po. split; [done|]. apply list_elem_of_omap. exists r. by rewrite Hr.
    + intros (po & Hp & Hs). destruct (tags_of_exist nint st d pend None p po s Hinv Hp Hs) as (r & _ & Hr & _). exists r.
      split; [apply Hc; by exists p|]. unfold page_of. by rewrite Hr.
Qed.

Lemma clean_matching_all_ok st s tags : tm_ok st -> (forall x, x ∈ s :: tags -> holdable st (zlen (s :: tags)) x) ->
  exists st' ps, clean_matching_all nint st s tags = Some st' /\ tm_ok st'
    /\ effect st st' (remove_pages ps (view st)) (PostDelete <$> ps) /\ NoDup ps
    /\ forall p, p ∈ ps <-> picked st (matches_all (s :: tags)) p = true.
Proof.
  intros Hinv Hh. destruct (add_dummies_ok (s :: tags) st no_dummies Hinv Hh) as (st1 & He1 & Hinv1 & Hon1 & Hpg1 & Hrf1 & Hm1 & Hf1).
  destruct (Hh s) as (to & Hto & Hu & Hlt); [left|]. rewrite zlen_cons in Hlt.
  pose proof (tag_num _ _ _ (inv_chains _ _ _ _ _ Hinv) s to Hto) as Hnum. unfold no_dummies in Hnum at 1.
  destruct (ch_chain _ _ _ (inv_chains _ _ _ _ _ Hinv) s to Hto) as (c & Hd & Hc & Hlen). unfold clean_matching_all.
  cbn [add_dummy_references] in He1. apply bind_Some in He1 as (sta & -> & He1). cbn [mbind option_bind]. rewrite He1. cbn [mbind option_bind].
  specialize (Hf1 s) as Hfs. rewrite Hto in Hfs. destruct (tm_tags st1 !! s) as [to1|]; [|done]. cbn in Hfs. injection Hfs as Hfs.
  cbn [mbind option_bind]. destruct Hd as (Hfirst & Hseg & Hnd). rewrite Hfs, Hfirst.
  destruct (clean_chain_ok tags s _ ltac:(lia) c (S (size (tm_refs st1))) st1 Hinv1) as (st2 & -> & Hinv2 & Hsh2 & Hef2).
  { rewrite Hrf1. by eapply dseg_nexts. }
  { done. }
  { intros r Hr. rewrite Hrf1. by apply Hc. }
  { pose proof (chain_length _ s c Hnd Hc) as Hcl. pose proof (refs_to_le (tm_refs st) s) as Hle. unfold zlen in Hcl. rewrite Hrf1. lia. }
  cbn [mbind option_bind]. destruct (remove_dummies_ok (tags ++ [s]) st2 no_dummies) as (st3 & -> & Hinv3 & Hon3 & Hpg3 & Hrf3).
  { eapply inv_dummy_ext; [|exact Hinv2]. intros x. cbn. rewrite occurrences_app, !occurrences_cons. change (occurrences x []) with 0. lia. }
  { done. }
  { intros x Hx. assert (x ∈ s :: tags) as Hx'.
    { apply elem_of_app in Hx as [?| ->%list_elem_of_singleton]; [by right|left]. }
    destruct (Hh x Hx') as (tx & Htx & Hux & _). destruct (same_meta_lookup (tm_tags st1) (tm_tags st) x tx) as (t1 & Ht1 & Hn1 & Hu1);
      [by apply same_meta_sym|done|].
    destruct (held_exist _ st1 st2 x t1 Hsh2) as (t2 & Ht2 & Hm2); [|done|].
    - apply occurrences_pos in Hx'. unfold no_dummies. lia.
    - exists t2. split; [done|]. unfold tag_meta in Hm2. congruence. }
  cbn zeta in Hef2. set (ps := filter _ _) in Hef2. exists st3, ps. split; [done|]. split; [done|]. split.
  - pose proof (effect_trans _ _ _ _ (remove_pages _) _ _ (view_same st st1 Hon1 Hpg1) Hef2) as Hef12.
    pose proof (effect_trans _ _ _ _ (fun V => V) _ _ Hef12 (view_same st2 st3 Hon3 Hpg3)) as Hef. cbn in Hef.
    by rewrite app_nil_r in Hef.
  - assert (ps = filter (fun p => picked st (matches_all tags) p = true) (omap (page_of st) c)) as Hps.
    { unfold ps. rewrite (filter_ext_in _ (picked st (matches_all tags))) by (intros p _; by apply picked_same).
      unfold page_of. by rewrite Hrf1. }
    rewrite Hps. destruct (chain_pages st _ _ s c Hinv Hnd Hc) as [Hnd' Hmem]. split; [by apply NoDup_filter|].
    intros p. rewrite list_elem_of_filter, Hmem. unfold picked. destruct (tm_pages st !! p) as [po|]; [|split; [by intros [? _]|done]].
    rewrite !andb_true_iff. unfold matches_all. rewrite !Z.leb_le, !matching_all. split.
    + intros ([? Ha] & po' & [= <-] & Hs). split; [done|]. intros t [->|Ht]%elem_of_cons; auto.
    + intros [? Ha]. split; [split; [done|]|exists po; split; [done|]]; [intros t Ht; apply Ha; by right|apply Ha; left].
Qed.

End Clean.
