(* ===== verification/TagSelect.v ===== *)
(** * TagSelect

    Selecting pages by the names of their tags, and the [CLEAN] command in these
    terms. *)

From S2P Require Import Prelude Protocol Memory Buffers ChunkBuilder HeaderBuild ChunkIterator RoundTrip Accessors CommandIO DList HashObject HashTable ObjectStore NameTable Tags TagRefs TagPages TagOps TagSave TagMatch TagCommands TagHandlers TagClean.

(** ** Selection *)

Inductive tag_mode := AllTags | NoTag | AnyTag.

(** Whether the tags [ts] of a page satisfy the condition. *)
Definition tags_match (mode : tag_mode) (ns ts : list bytes) : bool :=
  match mode with
  | AllTags => negb (zlen ns =? 0) && bool_decide (Forall (fun n => n ∈ ts) ns)
  | NoTag => negb (bool_decide (Exists (fun n => n ∈ ts) ns))
  | AnyTag => bool_decide (Exists (fun n => n ∈ ts) ns)
  end.

(** Pages that are linked and not being deleted, and whose tags satisfy [m]. *)
Definition live_where (m : list bytes -> bool) (v : page_view) : bool :=
  match v_tags v with Some ts => negb (v_deleted v) && m ts | None => false end.

Definition clean_pages (sel : page_view -> bool) (V : gmap loc page_view) : gmap loc page_view :=
  (fun v => if sel v then removed v else v) <$> V.

Section Select.
Context {T : Type} `{NameTableLaws T} `{NewLocs}.
Context (nint : Z) (Hnint : 0 < nint).
Implicit Types (st : TagStore T).
Local Abbreviation tm_inv := (tm_inv nint).
Local Abbreviation tm_ok := (tm_ok nint).

(** The pages [sel] selects, each once. *)
Definition selected (V : gmap loc page_view) (sel : page_view -> bool) (ps : list loc) : Prop :=
  NoDup ps /\ forall p, p ∈ ps <-> exists v, V !! p = Some v /\ sel v = true.

Lemma remove_selected st sel ps : selected (view st) sel ps -> remove_pages ps (view st) = clean_pages sel (view st).
Proof.
  intros [_ Hp]. apply map_eq. intros q. unfold clean_pages. rewrite lookup_remove_pages, lookup_fmap.
  destruct (view st !! q) as [v|] eqn:E; cbn; cycle 1.
  { by destruct (decide (q ∈ ps)). }
  destruct (decide (q ∈ ps)) as [Hq|Hq].
  - apply Hp in Hq as (v' & Hv & Hs). replace v' with v in Hs by congruence. by rewrite Hs.
  - destruct (sel v) eqn:Es; [|done]. exfalso. apply Hq, Hp. by exists v.
Qed.

(** What a command that removes pages does. *)
Definition cleaned st st' (sel : page_view -> bool) : Prop :=
  exists ps, selected (view st) sel ps /\ effect st st' (clean_pages sel (view st)) (PostDelete <$> ps).

Lemma cleaned_none st sel : (forall p v, view st !! p = Some v -> sel v = false) -> cleaned st st sel.
Proof.
  intros Hn. exists []. assert (selected (view st) sel []) as Hs.
  { split; [constructor|]. intros p. split; [by intros ?%elem_of_nil|]. intros (v & Hv & Hs). by rewrite (Hn p v Hv) in Hs. }
  split; [done|]. rewrite <- (remove_selected _ _ _ Hs). apply effect_none.
Qed.

(** ** Tags and their names *)

Lemma name_of_named st d pend busy n x : tm_inv st d pend busy -> n <> untagged_name -> name_of st x = Some n <-> tag_named st n x.
Proof.
  intros Hinv Hn. unfold name_of, tag_named. destruct (tm_tags st !! x) as [to|] eqn:E; cbn; cycle 1.
  { split; [done|]. by intros (to & ? & _). }
  destruct (to_untagged to) eqn:Eu.
  - split; [done|]. intros (to' & [= <-] & Hnm). exfalso. apply (inv_special _ _ _ _ _ Hinv x to E) in Eu.
    destruct (inv_untagged _ _ _ _ _ Hinv) as (u & tu & Hu & Htu & Hun). congruence.
  - split; [intros [= <-]; by exists to|]. intros (to' & [= <-] & ->). done.
Qed.

Lemma page_has_name st d pend busy po n : tm_inv st d pend busy -> n <> untagged_name ->
  n ∈ page_names st po <-> exists x, tag_named st n x /\ x ∈ tags_of (tagging (tm_refs st)) po.
Proof.
  intros Hinv Hn. unfold page_names. rewrite list_elem_of_omap. split; intros (x & H1' & H2'); exists x.
  - split; [|done]. by eapply name_of_named.
  - split; [done|]. by eapply name_of_named.
Qed.

(** A list of tags stands for a list of names. *)
Definition stands_for st (xs : list loc) (ns : list bytes) : Prop := forall x, x ∈ xs <-> exists n, n ∈ ns /\ tag_named st n x.

Lemma any_tag st d pend busy po xs ns : tm_inv st d pend busy -> untagged_name ∉ ns -> stands_for st xs ns ->
  (1 <=? matching (tags_of (tagging (tm_refs st)) po) xs) = bool_decide (Exists (fun n => n ∈ page_names st po) ns).
Proof.
  intros Hinv Hu Hxs. apply eq_true_iff_eq. rewrite Z.leb_le, matching_some, bool_decide_eq_true, Exists_exists. split.
  - intros (x & Hx & Hin). apply Hxs in Hx as (n & Hn & Hnm). exists n. split; [done|]. eapply page_has_name; [done|by intros ->|]. eauto.
  - intros (n & Hn & Hin). eapply page_has_name in Hin as (x & Hnm & Hx); [|done|by intros ->]. exists x. split; [|done]. apply Hxs. eauto.
Qed.

Lemma all_tags st d pend busy po xs ns : tm_inv st d pend busy -> untagged_name ∉ ns -> stands_for st xs ns ->
  (forall n, n ∈ ns -> exists x, tag_named st n x) ->
  matches_all xs (tags_of (tagging (tm_refs st)) po) = bool_decide (Forall (fun n => n ∈ page_names st po) ns).
Proof.
  intros Hinv Hu Hxs Hall. apply eq_true_iff_eq. unfold matches_all. rewrite Z.leb_le, matching_all, bool_decide_eq_true, Forall_forall. split.
  - intros Ha n Hn. eapply page_has_name; [done|by intros ->|]. destruct (Hall n Hn) as (x & Hx). exists x. split; [done|].
    apply Ha, Hxs. eauto.
  - intros Ha x Hx. apply Hxs in Hx as (n & Hn & Hnm). specialize (Ha n Hn). eapply page_has_name in Ha as (y & Hy & Hin); [|done|by intros ->].
    assert (x = y) as ->; [|done]. destruct Hnm as (tx & ? & ?), Hy as (ty & ? & ?). eapply (tag_name_inj nint); [done|done|done|congruence].
Qed.

(** Selection by tags is selection by names. *)
Lemma picked_view st d pend m f p : tm_inv st d pend None ->
  (forall po, tm_pages st !! p = Some po -> m (tags_of (tagging (tm_refs st)) po) = f (page_names st po)) ->
  picked st m p = true <-> exists v, view st !! p = Some v /\ live_where f v = true.
Proof.
  intros Hinv Hmf. unfold picked. rewrite lookup_view. destruct (tm_pages st !! p) as [po|] eqn:E;
    cbn [fmap option_fmap option_map]; cycle 1.
  { split; [done|]. by intros (v & ? & _). }
  unfold live_where. rewrite (Hmf po) by done. split.
  - intros Hp. eexists. split; [done|]. unfold view_of. cbn [v_tags v_deleted]. revert Hp. by destruct (linked po), (deleted po).
  - intros (v & [= <-] & Hv). unfold view_of in Hv. cbn [v_tags v_deleted] in Hv. revert Hv. by destruct (linked po), (deleted po).
Qed.

Lemma selected_in_order st d pend m f : tm_inv st d pend None ->
  (forall p po, tm_pages st !! p = Some po -> m (tags_of (tagging (tm_refs st)) po) = f (page_names st po)) ->
  selected (view st) (live_where f) (in_order st m).
Proof.
  intros Hinv Hmf. unfold in_order. split; [apply NoDup_filter, (inv_tables _ _ _ _ _ Hinv)|]. intros p.
  rewrite list_elem_of_filter, (inv_enumerated _ _ _ _ _ Hinv), (picked_view st d pend m f p Hinv (Hmf p)).
  split; [by intros [? _]|]. intros (v & Hv & Hs). split; [by exists v|]. rewrite lookup_view in Hv. destruct (tm_pages st !! p); [by eexists|done].
Qed.

Lemma cleaned_in_order st st' d pend m f : tm_inv st d pend None ->
  (forall p po, tm_pages st !! p = Some po -> m (tags_of (tagging (tm_refs st)) po) = f (page_names st po)) ->
  effect st st' (remove_pages (in_order st m) (view st)) (PostDelete <$> in_order st m) -> cleaned st st' (live_where f).
Proof.
  intros Hinv Hmf Hef. pose proof (selected_in_order st d pend m f Hinv Hmf) as Hs. exists (in_order st m). split; [done|].
  by rewrite <- (remove_selected _ _ _ Hs).
Qed.

(** ** [CLEAN] *)

Definition clean_mode (mode : tag_mode) : clean_mode_t :=
  match mode with AllTags => CM_MATCHING_ALL_TAGS | NoTag => CM_NOT_MATCHING_ANY_TAG | AnyTag => CM_MATCHING_ANY_TAG end.

(** The tags that a command names: what [extract_tag_names] delivers. *)
Record extracted st (ns : list bytes) (sh : ptr) (tags : list loc) (all : bool) : Prop := mkExtracted {
  ex_none : sh = None -> tags = [];
  ex_taken x : taken sh tags x <-> exists n, n ∈ ns /\ tag_named st n x;
  ex_all : all = true <-> forall n, n ∈ ns -> exists x, tag_named st n x;
  ex_length : zlen tags <= zlen ns;
}.

Lemma extracted_none st d pend busy ns tags all po : tm_inv st d pend busy -> untagged_name ∉ ns -> extracted st ns None tags all ->
  Forall (fun n => n ∉ page_names st po) ns.
Proof.
  intros Hinv Hu [E1 E2 _ _]. apply Forall_forall. intros n Hn Hin. eapply page_has_name in Hin as (x & Hx & _); [|done|by intros ->].
  destruct (proj2 (E2 x)) as [?|Ht]; [by exists n|done|]. rewrite (E1 eq_refl) in Ht. by apply elem_of_nil in Ht.
Qed.

Lemma extracted_stands st ns s tags all : extracted st ns (Some s) tags all ->
  stands_for st (tags ++ [s]) ns /\ stands_for st (s :: tags) ns.
Proof.
  intros [_ E2 _ _]. unfold taken in E2. split; intros x; rewrite <- E2.
  - rewrite elem_of_app, list_elem_of_singleton. split; [intros [?| ->]; auto|intros [[= ->]|?]; auto].
  - rewrite elem_of_cons. split; [intros [->|?]; auto|intros [[= ->]|?]; auto].
Qed.

Lemma named_holdable st d pend busy n x k : tm_inv st d pend busy -> (forall y, d y = 0) -> n <> untagged_name -> tag_named st n x ->
  Z.of_nat (size (tagging (tm_refs st))) + k < 2 ^ 32 -> holdable st k x.
Proof.
  intros Hinv Hd Hn Hx Hlt. pose proof Hx as (to & Hto & Hnm). exists to. split; [done|].
  pose proof (tag_num_tagging _ _ _ x to (inv_chains _ _ _ _ _ Hinv) Hto) as Hb. rewrite Hd in Hb. split; [|lia].
  eapply name_of_named in Hx; [|done|done]. unfold name_of in Hx. rewrite Hto in Hx. cbn in Hx. by destruct (to_untagged to).
Qed.

Lemma exists_false {A} (P : A -> Prop) `{!forall x, Decision (P x)} l : Forall (fun x => ~ P x) l -> bool_decide (Exists P l) = false.
Proof. intros Hl. apply bool_decide_eq_false. rewrite Exists_exists. rewrite Forall_forall in Hl. intros (x & Hx & Hp). by eapply Hl. Qed.

Lemma clean_all_ok st d : tm_inv st d [] None ->
  exists st', unlink_all_objects nint st = Some st' /\ tm_inv st' d [] None /\ cleaned st st' (live_where (fun _ => true)).
Proof.
  intros Hinv. destruct (unlink_objects_ok nint Hnint st d [] TSC_ALWAYS Hinv) as (st' & He & Hinv' & _ & Hef); [done|].
  exists st'. split_and!; try done. by eapply cleaned_in_order; [exact Hinv| |exact Hef].
Qed.

Lemma cleaned_ext st st' f g : cleaned st st' (live_where f) ->
  (forall p po, tm_pages st !! p = Some po -> f (page_names st po) = g (page_names st po)) -> cleaned st st' (live_where g).
Proof.
  intros (ps & [Hnd Hs] & Hef) Hfg. assert (forall p v, view st !! p = Some v -> live_where f v = live_where g v) as He.
  { intros p v. rewrite lookup_view. destruct (tm_pages st !! p) as [po|] eqn:E; [|done]. intros [= <-]. unfold live_where, view_of.
    cbn [v_tags v_deleted]. destruct (linked po); [|done]. by rewrite (Hfg p po E). }
  exists ps. split.
  - split; [done|]. intros p. rewrite Hs. split; intros (v & Hv & Hl); exists v; (split; [done|]); [rewrite <- (He p v Hv)|rewrite (He p v Hv)]; done.
  - replace (clean_pages (live_where g) (view st)) with (clean_pages (live_where f) (view st)); [done|]. apply map_eq. intros p.
    unfold clean_pages. rewrite !lookup_fmap. destruct (view st !! p) as [v|] eqn:E; [|done]. cbn. by rewrite (He p v E).
Qed.

Lemma clean_tags_ok st mode ns sh tags all : tm_ok st -> untagged_name ∉ ns -> extracted st ns sh tags all ->
  Z.of_nat (size (tagging (tm_refs st))) + zlen ns + 1 < 2 ^ 32 ->
  exists st', clean_tags nint st (clean_mode_code (clean_mode mode)) sh tags all = Some st' /\ tm_ok st'
    /\ cleaned st st' (live_where (tags_match mode ns)).
Proof.
  intros Hinv Hu Hex Hroom. unfold clean_tags. destruct sh as [s|].
  - destruct (extracted_stands _ _ _ _ _ Hex) as [Hst Hst']. pose proof (ex_length _ _ _ _ _ Hex) as Hlen.
    assert (forall x, x ∈ tags ++ [s] -> holdable st (zlen tags + 1) x) as Hh.
    { intros x (n & Hn & Hnm)%Hst. eapply (named_holdable st no_dummies [] None n); [done|done|by intros ->|done|lia]. }
    destruct mode; cbn [clean_mode clean_mode_code Z.eqb Pos.eqb].
    + destruct all; cycle 1.
      { exists st. split_and!; try done. apply cleaned_none. intros p v. rewrite lookup_view.
        destruct (tm_pages st !! p) as [po|] eqn:E; [|done]. intros [= <-]. unfold live_where, view_of. cbn [v_tags v_deleted].
        destruct (linked po); [|done]. cbn [tags_match]. rewrite (bool_decide_false (Forall _ _)); [by rewrite !andb_false_r|].
        rewrite Forall_forall. intros Ha. assert (false = true); [|done]. apply (ex_all _ _ _ _ _ Hex). intros n Hn. specialize (Ha n Hn).
        eapply page_has_name in Ha as (x & Hx & _); [by exists x|done|by intros ->]. }
      destruct (clean_matching_all_ok nint Hnint st s tags Hinv) as (st' & ps & -> & Hok & Hef & Hnd & Hps).
      { intros x Hx. replace (zlen (s :: tags)) with (zlen tags + 1) by (rewrite zlen_cons; lia). apply Hh. apply elem_of_cons in Hx as [->|Hx]; apply elem_of_app; [right; by left|by left]. }
      exists st'. split_and!; try done.
      assert (forall p po, tm_pages st !! p = Some po ->
        matches_all (s :: tags) (tags_of (tagging (tm_refs st)) po) = tags_match AllTags ns (page_names st po)) as Hm.
      { intros p po Hp. rewrite (all_tags st _ _ _ po (s :: tags) ns Hinv Hu Hst') by (by apply (ex_all _ _ _ _ _ Hex)). cbn [tags_match].
        destruct (zlen ns =? 0) eqn:E; zbool; [|done]. assert (ns = []) as -> by (apply zlen_pos_nil; lia). exfalso.
        destruct (proj1 (ex_taken _ _ _ _ _ Hex s)) as (n & ?%elem_of_nil & _); [by left|done]. }
      assert (selected (view st) (live_where (tags_match AllTags ns)) ps) as Hsel.
      { split; [done|]. intros p. rewrite Hps. eapply picked_view; [done|]. intros po Hp. by eapply Hm. }
      exists ps. split; [done|]. by rewrite <- (remove_selected _ _ _ Hsel).
    + destruct (clean_by_tags_ok nint Hnint st (tags ++ [s]) TSC_NOT_MATCH Hinv) as (st' & -> & Hok & Hef); [by destruct tags| |].
      { intros x Hx. rewrite zlen_app. by apply Hh. }
      exists st'. split_and!; try done. eapply cleaned_in_order; [exact Hinv| |exact Hef]. intros p po Hp. cbn [satisfies tags_match].
      by rewrite (any_tag st _ _ _ po _ ns Hinv Hu Hst).
    + destruct (clean_by_tags_ok nint Hnint st (tags ++ [s]) TSC_MATCH Hinv) as (st' & -> & Hok & Hef); [by destruct tags| |].
      { intros x Hx. rewrite zlen_app. by apply Hh. }
      exists st'. split_and!; try done. eapply cleaned_in_order; [exact Hinv| |exact Hef]. intros p po Hp. cbn [satisfies tags_match].
      by rewrite (any_tag st _ _ _ po _ ns Hinv Hu Hst).
  - pose proof (fun po => extracted_none st _ _ _ ns tags all po Hinv Hu Hex) as Hnone.
    assert (forall mode, mode <> NoTag -> cleaned st st (live_where (tags_match mode ns))) as Hsame.
    { intros m Hm. apply cleaned_none. intros p v. rewrite lookup_view. destruct (tm_pages st !! p) as [po|] eqn:E; [|done].
      intros [= <-]. unfold live_where, view_of. cbn [v_tags v_deleted]. destruct (linked po); [|done]. specialize (Hnone po).
      destruct m; cbn [tags_match]; [|done|by rewrite exists_false, andb_false_r]. destruct ns as [|n ns]; [by rewrite andb_false_r|].
      rewrite bool_decide_false; [by rewrite !andb_false_r|]. apply Forall_cons in Hnone as [Hn _]. by intros [? _]%Forall_cons. }
    destruct mode; cbn [clean_mode clean_mode_code Z.eqb Pos.eqb]; [exists st; split_and!; try done; by apply Hsame| |exists st; split_and!; try done; by apply Hsame].
    destruct (clean_all_ok st no_dummies Hinv) as (st' & -> & Hok & Hcl). exists st'. split_and!; try done.
    eapply cleaned_ext; [exact Hcl|]. intros p po _. cbn. by rewrite exists_false by apply Hnone.
Qed.

End Select.
