(* ===== verification/TagQueries.v ===== *)
(** * TagQueries

    The queries of the tag manager: the names of all pages, of the pages that match
    a list of tags, and of all tags. *)

From S2P Require Import Prelude Protocol Memory Buffers ChunkBuilder HeaderBuild ChunkIterator RoundTrip Accessors CommandIO DList HashObject HashTable ObjectStore NameTable Tags TagRefs TagPages TagOps TagSave TagMatch TagCommands TagHandlers TagClean TagSelect.

Section Queries.
Context {T : Type} `{NameTableLaws T} `{NewLocs}.
Context (nint : Z) (Hnint : 0 < nint).
Implicit Types (st : TagStore T).
Local Abbreviation tm_inv := (tm_inv nint).
Local Abbreviation tm_ok := (tm_ok nint).

Definition page_name st (p : loc) : option bytes := (fun po => ho_name (po_base po)) <$> tm_pages st !! p.

(** ** Pages *)

Lemma enum_visit_ok st d tags condition l : tm_inv st d [] None -> (condition <> TSC_ALWAYS -> tags <> []) ->
  (forall p, p ∈ l -> is_Some (tm_pages st !! p)) -> forall ids,
  visit (object_enum_callback nint st tags condition) ids l
  = Some (true, ids ++ omap (page_name st) (filter (fun p => picked st (satisfies condition tags) p = true) l)).
Proof.
  intros Hinv Hne. induction l as [|p l IH]; intros Hl ids; [cbn; by rewrite app_nil_r|]. destruct (Hl p) as [po Hp]; [left|].
  assert (forall ids, visit (object_enum_callback nint st tags condition) ids l
    = Some (true, ids ++ omap (page_name st) (filter (fun p => picked st (satisfies condition tags) p = true) l))) as IH'.
  { apply IH. intros q Hq. apply Hl. by right. }
  assert (object_enum_callback nint st tags condition ids p
    = Some (true, if picked st (satisfies condition tags) p then ids ++ [ho_name (po_base po)] else ids)) as He.
  { unfold object_enum_callback, picked. rewrite Hp. cbn [mbind option_bind]. unfold page_type.
    rewrite bool_decide_true by apply (inv_shape _ _ _ _ _ Hinv p po Hp). cbn [c3_assert mbind option_bind]. rewrite taggable_flags.
    destruct (negb (deleted po)); [|done]. destruct (linked po) eqn:El; [|done]. cbn [andb].
    by rewrite (selects_ok nint Hnint st d p po tags condition). }
  cbn [visit]. rewrite He. cbn [mbind option_bind]. rewrite IH', filter_cons. destruct (picked st (satisfies condition tags) p).
  - rewrite decide_True by done. rewrite <- app_assoc. do 3 f_equal. cbn [omap list_omap]. unfold page_name at 2. by rewrite Hp.
  - by rewrite decide_False by done.
Qed.

Lemma enum_objects_ok st d tags condition : tm_inv st d [] None -> (condition <> TSC_ALWAYS -> tags <> []) ->
  enum_objects nint st tags condition = Some (omap (page_name st) (in_order st (satisfies condition tags))).
Proof.
  intros Hinv Hne. unfold enum_objects. rewrite lock_enumerate_all_visit, (enum_visit_ok st d tags condition); [done|done|done|].
  intros p. apply (inv_enumerated _ _ _ _ _ Hinv).
Qed.

Lemma list_chain_ok st d tags s : tm_inv st d [] None -> zlen tags < 2 ^ 32 -> forall l fuel ids, nexts (tm_refs st) l ->
  (forall r, r ∈ l -> exists p, tagging (tm_refs st) !! r = Some (p, s)) -> (length l <= fuel)%nat ->
  list_chain nint fuel st tags (first_or l None) ids
  = Some (ids ++ omap (page_name st) (filter (fun p => picked st (matches_all tags) p = true) (omap (page_of st) l))).
Proof.
  intros Hinv Hlt. induction l as [|r l IH]; intros fuel ids Hnx Htg Hfuel; [cbn; rewrite app_nil_r; by destruct fuel|].
  destruct fuel as [|fuel]; [cbn in Hfuel; lia|]. cbn in Hfuel. destruct Hnx as [Hn Hnx].
  destruct (Htg r) as (p & Hr); [left|]. destruct (tagged_linked nint st d [] p s r Hinv Hr) as (po & Hp & Hin & Hl).
  pose proof Hr as (rf & Hrf & Hpg & _)%lookup_tagging. cbn [first_or list_chain]. rewrite Hrf. cbn [mbind option_bind].
  rewrite Hpg. cbn [mbind option_bind]. rewrite Hp. cbn [mbind option_bind]. unfold next_of in Hn. rewrite Hrf in Hn. cbn in Hn. injection Hn as Hn.
  rewrite Hn, not_deleted_flag, linked_flag, Hl. cbn [c3_assert mbind option_bind].
  rewrite (chain_match_ok nint Hnint st d p po tags) by done. cbn [mbind option_bind].
  assert (page_of st r = Some p) as Hpr by (unfold page_of; by rewrite Hr). cbn [omap list_omap]. rewrite Hpr, filter_cons.
  assert (picked st (matches_all tags) p = negb (deleted po) && matches_all tags (tags_of (tagging (tm_refs st)) po)) as Hpk
    by (unfold picked; by rewrite Hp, Hl, andb_true_r).
  assert (forall ids, list_chain nint fuel st tags (first_or l None) ids
    = Some (ids ++ omap (page_name st) (filter (fun p => picked st (matches_all tags) p = true) (omap (page_of st) l)))) as IH'.
  { intros ids'. apply IH; [done| |lia]. intros q Hq. apply Htg. by right. }
  destruct (negb (deleted po)); cbn [andb] in Hpk; cycle 1.
  { rewrite decide_False by (by rewrite Hpk). apply IH'. }
  destruct (matches_all tags _).
  - rewrite decide_True by (by rewrite Hpk). rewrite IH', <- app_assoc. do 2 f_equal. cbn [omap list_omap]. unfold page_name at 2. by rewrite Hp.
  - rewrite decide_False by (by rewrite Hpk). apply IH'.
Qed.

(** The command for each of the conditions. *)
Definition query_of (mode : tag_mode) : command_t :=
  match mode with
  | AllTags => CMD_GETIDSMATCHINGTAGS
  | NoTag => CMD_GETIDSNOTMATCHINGTAGS
  | AnyTag => CMD_GETIDSMATCHINGANYTAGS
  end.

Lemma enum_all_ok st d : tm_inv st d [] None ->
  exists ps, enum_all_objects nint st = Some (omap (page_name st) ps) /\ selected (view st) (live_where (fun _ => true)) ps.
Proof.
  intros Hinv. exists (in_order st (satisfies TSC_ALWAYS [])). split; [by apply (enum_objects_ok st d)|].
  by eapply selected_in_order.
Qed.

Lemma selected_ext st f g ps : selected (view st) (live_where f) ps ->
  (forall p po, tm_pages st !! p = Some po -> f (page_names st po) = g (page_names st po)) -> selected (view st) (live_where g) ps.
Proof.
  intros [Hnd Hs] Hfg. split; [done|]. intros p. rewrite Hs.
  assert (forall v, view st !! p = Some v -> live_where f v = live_where g v) as He.
  { intros v. rewrite lookup_view. destruct (tm_pages st !! p) as [po|] eqn:E; [|done]. intros [= <-]. unfold live_where, view_of.
    cbn [v_tags v_deleted]. destruct (linked po); [|done]. by rewrite (Hfg p po E). }
  split; intros (v & Hv & Hl); exists v; (split; [done|]); [rewrite <- (He v Hv)|rewrite (He v Hv)]; done.
Qed.

Lemma selected_nothing st f : (forall p po, tm_pages st !! p = Some po -> f (page_names st po) = false) -> selected (view st) (live_where f) [].
Proof.
  intros Hf. split; [constructor|]. intros p. split; [by intros ?%elem_of_nil|]. intros (v & Hv & Hl). exfalso.
  rewrite lookup_view in Hv. destruct (tm_pages st !! p) as [po|] eqn:E; [|done]. injection Hv as <-. unfold live_where, view_of in Hl.
  cbn [v_tags v_deleted] in Hl. destruct (linked po); [|done]. by rewrite (Hf p po E), andb_false_r in Hl.
Qed.

(** The pages listed for a list of tags. *)
Lemma matching_ids_ok st mode ns sh tags all : tm_ok st -> untagged_name ∉ ns -> extracted st ns sh tags all -> zlen ns < 2 ^ 32 ->
  exists ps, matching_ids nint st (query_of mode) sh tags all = Some (omap (page_name st) ps)
    /\ selected (view st) (live_where (tags_match mode ns)) ps.
Proof.
  intros Hinv Hu Hex Hlt. unfold matching_ids. destruct sh as [s|].
  - destruct (extracted_stands _ _ _ _ _ Hex) as [Hst Hst']. pose proof (ex_length _ _ _ _ _ Hex) as Hlen.
    destruct mode; cbn [query_of].
    + destruct all; cycle 1.
      { exists []. split; [done|]. apply selected_nothing. intros p po Hp. cbn [tags_match].
        rewrite (bool_decide_false (Forall _ _)); [by rewrite andb_false_r|]. rewrite Forall_forall. intros Ha.
        assert (false = true); [|done]. apply (ex_all _ _ _ _ _ Hex). intros n Hn. specialize (Ha n Hn).
        eapply (page_has_name nint) in Ha as (x & Hx & _); [by exists x|done|by intros ->]. }
      destruct (proj1 (ex_taken _ _ _ _ _ Hex s)) as (n & Hn & to & Hto & Hnm); [by left|]. rewrite Hto. cbn [mbind option_bind].
      destruct (ch_chain _ _ _ (inv_chains _ _ _ _ _ Hinv) s to Hto) as (c & (Hfirst & Hseg & Hnd) & Hc & Hcl). rewrite Hfirst.
      rewrite (list_chain_ok st no_dummies tags s Hinv); [|lia|by eapply dseg_nexts|by intros r Hr; apply Hc|]; cycle 1.
      { pose proof (chain_length _ s c Hnd Hc) as Hl. pose proof (refs_to_le (tm_refs st) s). unfold zlen in Hl. lia. }
      cbn [app]. eexists. split; [done|]. destruct (chain_pages nint st _ _ s c Hinv Hnd Hc) as [Hnd' Hmem].
      split; [by apply NoDup_filter|]. intros p. rewrite list_elem_of_filter, Hmem.
      rewrite <- (picked_view nint st no_dummies [] (matches_all (s :: tags)) (tags_match AllTags ns) p Hinv).
      * unfold picked. destruct (tm_pages st !! p) as [po|]; [|split; [by intros [? _]|done]].
        rewrite !andb_true_iff. unfold matches_all. rewrite !Z.leb_le, !matching_all. split.
        -- intros ([? Ha] & po' & [= <-] & Hs). split; [done|]. intros t [->|Ht]%elem_of_cons; auto.
        -- intros [? Ha]. split; [split; [done|]|exists po; split; [done|]]; [intros t Ht; apply Ha; by right|apply Ha; left].
      * intros po Hp. rewrite (all_tags nint st _ _ _ po (s :: tags) ns Hinv Hu Hst') by (by apply (ex_all _ _ _ _ _ Hex)). cbn [tags_match].
        destruct (zlen ns =? 0) eqn:E; zbool; [|done]. assert (ns = []) as -> by (apply zlen_pos_nil; lia). by apply elem_of_nil in Hn.
    + rewrite (enum_objects_ok st no_dummies) by (done || by destruct tags). eexists. split; [done|].
      eapply (selected_in_order nint); [exact Hinv|]. intros p po Hp. cbn [satisfies tags_match]. by rewrite (any_tag nint st _ _ _ po _ ns Hinv Hu Hst).
    + rewrite (enum_objects_ok st no_dummies) by (done || by destruct tags). eexists. split; [done|].
      eapply (selected_in_order nint); [exact Hinv|]. intros p po Hp. cbn [satisfies tags_match]. by rewrite (any_tag nint st _ _ _ po _ ns Hinv Hu Hst).
  - pose proof (fun po => extracted_none nint st _ _ _ ns tags all po Hinv Hu Hex) as Hnone. destruct mode; cbn [query_of].
    + exists []. split; [done|]. apply selected_nothing. intros p po Hp. cbn [tags_match]. specialize (Hnone po).
      destruct ns as [|n ns]; [done|]. rewrite bool_decide_false; [by rewrite andb_false_r|]. apply Forall_cons in Hnone as [Hn _].
      by intros [? _]%Forall_cons.
    + destruct (enum_all_ok st no_dummies Hinv) as (ps & -> & Hps). exists ps. split; [done|]. eapply selected_ext; [exact Hps|].
      intros p po _. cbn [tags_match]. by rewrite exists_false by apply Hnone.
    + exists []. split; [done|]. apply selected_nothing. intros p po Hp. cbn [tags_match]. by rewrite exists_false by apply Hnone.
Qed.

(** ** Tags *)

Lemma tag_enum_visit_ok st xs : tm_ok st -> (forall x, x ∈ xs -> is_Some (tm_tags st !! x)) -> forall ids,
  visit (tag_enum_callback st) ids xs = Some (true, ids ++ omap (name_of st) xs).
Proof.
  intros Hinv. induction xs as [|x xs IH]; intros Hx ids; [cbn; by rewrite app_nil_r|]. destruct (Hx x) as [to Hto]; [left|].
  cbn [visit]. assert (tag_enum_callback st ids x
    = Some (true, if (0 <? to_num to) && negb (to_untagged to) then ids ++ [to_name to] else ids)) as -> by (unfold tag_enum_callback; by rewrite Hto).
  cbn [mbind option_bind]. rewrite IH by (intros y Hy; apply Hx; by right).
  do 2 f_equal. assert (name_of st x = if to_untagged to then None else Some (to_name to)) as Hn by (unfold name_of; by rewrite Hto).
  cbn [omap list_omap]. rewrite Hn. destruct (to_untagged to) eqn:Eu; [by rewrite andb_false_r|].
  pose proof (tag_num _ _ _ (inv_chains _ _ _ _ _ Hinv) x to Hto) as Hnum. unfold no_dummies in Hnum.
  destruct (0 <? to_num to) eqn:E; zbool; [cbn [andb negb]; by rewrite <- app_assoc|].
  assert (to_num to = 0) as Hz by lia. by apply (inv_live _ _ _ _ _ Hinv x to Hto Eu) in Hz as ?%elem_of_nil.
Qed.

Lemma used_tag st x to : tm_ok st -> tm_tags st !! x = Some to -> to_untagged to = false -> exists r p, tagging (tm_refs st) !! r = Some (p, x).
Proof.
  intros Hinv Hto Hu. pose proof (tag_num _ _ _ (inv_chains _ _ _ _ _ Hinv) x to Hto) as Hnum. unfold no_dummies in Hnum.
  destruct (decide (refs_to (tm_refs st) x = ∅)) as [He|Hne].
  - rewrite He, map_size_empty in Hnum. assert (to_num to = 0) as Hz by lia.
    by apply (inv_live _ _ _ _ _ Hinv x to Hto Hu) in Hz as ?%elem_of_nil.
  - apply map_choose in Hne as (r & v & Hr). assert (r ∈ dom (refs_to (tm_refs st) x)) as Hd by (apply elem_of_dom; by eexists).
    apply elem_refs_to in Hd as [p Hp]. eauto.
Qed.

(** The names of the tags in use. *)
Definition tag_list (V : gmap loc page_view) (ids : list bytes) : Prop :=
  NoDup ids /\ forall n, n ∈ ids <-> exists p v ts, V !! p = Some v /\ v_tags v = Some ts /\ n ∈ ts.

Lemma enumerate_tags_ok st : tm_ok st ->
  exists ids, nt_enumerate (tm_table st) (tag_enum_callback st) [] = Some (true, ids) /\ tag_list (view st) ids.
Proof.
  intros Hinv. destruct (inv_table _ _ _ _ _ Hinv) as (l & Hrep & Hl). rewrite (nt_enumerate_ok _ l _ _ Hrep).
  rewrite tag_enum_visit_ok; [|done|].
  2:{ intros x ([n y] & -> & Hy)%list_elem_of_fmap. apply Hl in Hy as (to & Hto & _). by eexists. }
  cbn [app]. eexists. split; [done|]. split.
  - assert (omap (name_of st) l.*2 `sublist_of` l.*1) as Hsub; [|eapply sublist_NoDup; [exact (nt_names _ _ Hrep)|exact Hsub]].
    assert (forall n x, (n, x) ∈ l -> name_of st x = Some n \/ name_of st x = None) as Hn.
    { intros n x (to & Hto & <-)%Hl. unfold name_of. rewrite Hto. cbn. destruct (to_untagged to); auto. }
    clear -Hn. induction l as [|[n x] l IH]; [constructor|]. cbn. destruct (Hn n x) as [-> | ->]; [left| |];
      [apply sublist_skip|apply sublist_cons]; apply IH; intros; apply Hn; by right.
  - intros n. rewrite list_elem_of_omap. split.
    + intros (x & _ & Hn). unfold name_of in Hn. destruct (tm_tags st !! x) as [to|] eqn:Ex; [|done]. cbn in Hn.
      destruct (to_untagged to) eqn:Eu; [done|]. injection Hn as <-. destruct (used_tag st x to Hinv Ex Eu) as (r & p & Hr).
      destruct (tagged_linked nint st _ _ p x r Hinv Hr) as (po & Hp & Hin & Hlk). exists p, (view_of st po), (page_names st po).
      rewrite lookup_view, Hp. split_and!; [done|unfold view_of; cbn [v_tags]; by rewrite Hlk|]. unfold page_names. apply list_elem_of_omap.
      exists x. split; [unfold tags_of; apply list_elem_of_omap; exists r; by rewrite Hr|]. unfold name_of. rewrite Ex. cbn. by rewrite Eu.
    + intros (p & v & ts & Hv & Hts & Hn). rewrite lookup_view in Hv. destruct (tm_pages st !! p) as [po|] eqn:Ep; [|done]. injection Hv as <-.
      unfold view_of in Hts. cbn [v_tags] in Hts. destruct (linked po); [|done]. injection Hts as <-. unfold page_names in Hn.
      apply list_elem_of_omap in Hn as (x & Hx & Hn). exists x. split; [|done]. destruct (tags_of_exist nint st _ _ _ p po x Hinv Ep Hx) as (r & _ & _ & [to Hto]).
      apply list_elem_of_fmap. exists (to_name to, x). split; [done|]. apply Hl. by exists to.
Qed.

End Queries.
