(* ===== verification/TagRequests.v ===== *)
(** * TagRequests

    The contract of the tag manager: requests, the effect each of them has on the
    pages as clients see them, and that the handlers implement it. *)

From S2P Require Import Prelude Protocol Memory Buffers ChunkBuilder HeaderBuild ChunkIterator RoundTrip Accessors CommandIO DList HashObject HashTable ObjectStore NameTable Tags TagRefs TagPages TagOps TagSave TagMatch TagCommands TagHandlers TagClean TagSelect TagQueries.

(** ** Requests *)

Inductive request :=
| QSave (p : loc) (user_agent lifetime : Z) (ns : list bytes)
| QRemove (p : loc)
| QMetadata (p : loc)
| QCleanAll
| QCleanOld
| QClean (mode : tag_mode) (ns : list bytes)
| QIds
| QTags
| QIdsBy (mode : tag_mode) (ns : list bytes)
| QUnlink (p : loc)
| QCapacity (n : Z)
| QMaxCapacity (n : Z)
| QQuit.

(** A command with a given code. *)
Definition is_command (cr : ReaderWriter) (cmd : command_t) : Prop := get_command_id cr = Some (command_code cmd).

(** What a message asks for. *)
Inductive reads_as : TagMessage -> request -> Prop :=
| reads_save cr p id agent lifetime ns : is_command cr CMD_SAVE ->
    sees cr [CString id; CNumber agent; CNumber lifetime; CList ns] ->
    reads_as (TagCommand cr (Some p)) (QSave p agent lifetime ns)
| reads_remove cr p : is_command cr CMD_REMOVE -> reads_as (TagCommand cr (Some p)) (QRemove p)
| reads_metadata cr p : is_command cr CMD_GETMETADATAS -> reads_as (TagCommand cr (Some p)) (QMetadata p)
| reads_clean_all cr : is_command cr CMD_CLEAN -> has_payload_data (rw_sb cr) = Some false ->
    sees cr [CNumber (clean_mode_code CM_ALL)] -> reads_as (TagCommand cr None) QCleanAll
| reads_clean_old cr : is_command cr CMD_CLEAN -> has_payload_data (rw_sb cr) = Some false ->
    sees cr [CNumber (clean_mode_code CM_OLD)] -> reads_as (TagCommand cr None) QCleanOld
| reads_clean cr mode ns chs : is_command cr CMD_CLEAN -> has_payload_data (rw_sb cr) = Some false ->
    sees cr (CNumber (clean_mode_code (clean_mode mode)) :: CList ns :: chs) -> reads_as (TagCommand cr None) (QClean mode ns)
| reads_ids cr : is_command cr CMD_GETIDS -> has_any_data cr = Some false -> reads_as (TagCommand cr None) QIds
| reads_tags cr : is_command cr CMD_GETTAGS -> has_any_data cr = Some false -> reads_as (TagCommand cr None) QTags
| reads_ids_by cr mode ns chs : is_command cr (query_of mode) -> has_payload_data (rw_sb cr) = Some false ->
    sees cr (CList ns :: chs) -> reads_as (TagCommand cr None) (QIdsBy mode ns)
| reads_unlink p : reads_as (TC_UNLINK_OBJECT p) (QUnlink p)
| reads_capacity n : reads_as (TC_CAPACITY_CHANGE n) (QCapacity n)
| reads_max_capacity n : reads_as (TC_MAX_CAPACITY_CHANGE n) (QMaxCapacity n)
| reads_quit : reads_as TC_QUIT QQuit.

#[export] Instance tag_mode_eq_dec : EqDecision tag_mode.
Proof. solve_decision. Defined.
#[export] Instance request_eq_dec : EqDecision request.
Proof. solve_decision. Defined.

(** ** The specification *)

Definition names_in (V : gmap loc page_view) (ps : list loc) : list bytes := omap (fun p => v_name <$> V !! p) ps.

(** The answer to a query, and the error that follows it if it cannot be sent. *)
Definition answers (ok : bool) (ids : list bytes) : list tm_event :=
  Respond (ListResponse ids) :: (if ok then [] else [Respond InternalError]).

(** [spec ok V q V' evs]: in state [V] the request [q] leads to [V'] and posts [evs]. *)
Inductive spec (ok : bool) (V : gmap loc page_view) : request -> gmap loc page_view -> list tm_event -> Prop :=
| spec_save p v ua lt ns : V !! p = Some v -> (v_tags v = None -> v_deleted v = false) ->
    spec ok V (QSave p ua lt ns) (<[p := saved v ns]> V) [PostWrite p (u8 ua) (if lt <? 0 then MAX_TIMESTAMP else lt)]
| spec_save_late p v ua lt ns : V !! p = Some v -> v_tags v = None -> v_deleted v = true -> spec ok V (QSave p ua lt ns) V []
| spec_remove p v : V !! p = Some v -> v_deleted v = true ->
    spec ok V (QRemove p) (<[p := removed v]> V) (match v_tags v with Some _ => [PostDelete p] | None => [] end)
| spec_unlink p v : V !! p = Some v -> v_deleted v = true ->
    spec ok V (QUnlink p) (<[p := removed v]> V) [PostUnlink p]
| spec_metadata p v ts et mt rd : V !! p = Some v -> v_tags v = Some ts -> v_deleted v = false ->
    rd = [] \/ (exists ua, ua <> UA_NUMBER_OF_ELEMENTS /\ rd = [PostRead p ua]) ->
    spec ok V (QMetadata p) V (Respond (DataResponse et mt ts) :: if ok then rd else [Respond InternalError])
| spec_no_metadata p v : V !! p = Some v -> v_tags v = None \/ v_deleted v = true -> spec ok V (QMetadata p) V [Respond OkResponse]
| spec_clean_all ps : selected V (live_where (fun _ => true)) ps ->
    spec ok V QCleanAll (clean_pages (live_where (fun _ => true)) V) ((PostDelete <$> ps) ++ [Respond OkResponse])
| spec_clean_old : spec ok V QCleanOld V [PostGC 0; Respond OkResponse]
| spec_clean mode ns ps : selected V (live_where (tags_match mode ns)) ps ->
    spec ok V (QClean mode ns) (clean_pages (live_where (tags_match mode ns)) V) ((PostDelete <$> ps) ++ [Respond OkResponse])
| spec_ids ps : selected V (live_where (fun _ => true)) ps -> spec ok V QIds V (answers ok (names_in V ps))
| spec_tags ids : tag_list V ids -> spec ok V QTags V (answers ok ids)
| spec_ids_by mode ns ps : selected V (live_where (tags_match mode ns)) ps -> spec ok V (QIdsBy mode ns) V (answers ok (names_in V ps))
| spec_capacity n : spec ok V (QCapacity n) V [SetQueueCapacity n]
| spec_max_capacity n : spec ok V (QMaxCapacity n) V [SetMaxQueueCapacity n]
| spec_quit : spec ok V QQuit V [].

Section Requests.
Context {T : Type} `{NameTableLaws T} `{NewLocs}.
Context (nint : Z) (Hnint : 0 < nint).
Implicit Types (st : TagStore T).
Local Abbreviation tm_inv := (tm_inv nint).
Local Abbreviation tm_ok := (tm_ok nint).

(** What the tag manager relies on: the page is in the page store, pages to be removed are
    marked, names are valid and do not include that of the special tag, and the
    32-bit counters have room. *)
Definition requires st (q : request) : Prop :=
  match q with
  | QSave p ua _ ns => is_Some (tm_pages st !! p) /\ 0 <= ua /\ Forall valid_name ns /\ zlen (uniq [] ns) <= USHORT_MAX_VAL /\ room st (zlen ns)
  | QRemove p => exists po, tm_pages st !! p = Some po /\ deleted po = true
  | QUnlink p => exists po, tm_pages st !! p = Some po /\ deleted po = true
      /\ flags_are_clear (po_base po) (Z.lor HOF_DELETED HOF_LINKED_BY_OPTIMIZER) = true
  | QMetadata p => is_Some (tm_pages st !! p)
  | QClean _ ns | QIdsBy _ ns => Forall valid_name ns /\ untagged_name ∉ ns /\ room st (zlen ns)
  | _ => True
  end.

Lemma names_in_view st ps : omap (page_name st) ps = names_in (view st) ps.
Proof.
  unfold names_in. induction ps as [|p ps IH]; [done|]. cbn [omap list_omap]. rewrite IH. unfold page_name. rewrite lookup_view.
  by destruct (tm_pages st !! p).
Qed.

(** The outcome of a handler, against the specification. *)
Definition implements (ok : bool) (q : request) st (o : option (TagStore T)) : Prop :=
  exists st' V' evs, o = Some st' /\ tm_ok st' /\ effect (if decide (q = QQuit) then with_quitting st true else st) st' V' evs
    /\ spec ok (view st) q V' evs.

Lemma implements_intro ok q st st' V' evs : q <> QQuit -> tm_ok st' -> effect st st' V' evs -> spec ok (view st) q V' evs ->
  implements ok q st (Some st').
Proof. intros Hq Hok Hef Hs. exists st', V', evs. by rewrite decide_False. Qed.

Lemma implements_query ok q st ids : q <> QQuit -> tm_ok st -> spec ok (view st) q (view st) (answers ok ids) ->
  implements ok q st (Some (respond_list st ok ids)).
Proof.
  intros Hq Hok Hs. eapply implements_intro; [done| | |exact Hs]; unfold respond_list.
  - destruct ok; repeat apply tm_ok_post; done.
  - destruct ok; cbn.
    + apply (effect_post st st (view st) []), effect_none.
    + apply (effect_post st _ (view st) [_]). apply (effect_post st st (view st) []), effect_none.
Qed.

Lemma implements_clean ok q st st' sel : q <> QQuit -> tm_ok st' -> cleaned st st' sel ->
  (forall ps, selected (view st) sel ps -> spec ok (view st) q (clean_pages sel (view st)) ((PostDelete <$> ps) ++ [Respond OkResponse])) ->
  implements ok q st (Some (post st' (Respond OkResponse))).
Proof.
  intros Hq Hok (ps & Hps & Hef) Hs. eapply implements_intro; [done|by apply tm_ok_post| |by apply Hs]. by apply effect_post.
Qed.

Lemma implements_save ok st cr p id agent lifetime ns : tm_ok st ->
  sees cr [CString id; CNumber agent; CNumber lifetime; CList ns] -> requires st (QSave p agent lifetime ns) ->
  implements ok (QSave p agent lifetime ns) st (process_save_command nint st cr p).
Proof.
  intros Hok Hs ([po Hp] & Hag & Hv & Hlen & Hroom).
  destruct (process_save_ok nint Hnint st cr p po id agent lifetime ns) as (st' & -> & Hok' & Hef); [done..|].
  assert (view st !! p = Some (view_of st po)) as Hvp by (by rewrite lookup_view, Hp).
  destruct (linked po) eqn:El, (deleted po) eqn:Ed; cbn [negb andb] in Hef; (eapply implements_intro; [done|done|exact Hef|]).
  - apply spec_save; [done|]. unfold view_of. cbn [v_tags]. by rewrite El.
  - apply spec_save; [done|]. unfold view_of. cbn [v_tags]. by rewrite El.
  - apply (spec_save_late _ _ p (view_of st po)); [done|unfold view_of; cbn [v_tags]; by rewrite El|done].
  - apply spec_save; [done|]. done.
Qed.

Lemma implements_remove ok st p : tm_ok st -> requires st (QRemove p) -> implements ok (QRemove p) st (process_remove_command nint st p).
Proof.
  intros Hok (po & Hp & Hd). destruct (process_remove_ok nint Hnint st p po Hok Hp Hd) as (st' & -> & Hok' & Hef).
  eapply implements_intro; [done|done|exact Hef|].
  replace (if linked po then [PostDelete p] else []) with (match v_tags (view_of st po) with Some _ => [PostDelete p] | None => [] end)
    by (unfold view_of; cbn [v_tags]; by destruct (linked po)).
  apply spec_remove; [by rewrite lookup_view, Hp|done].
Qed.

Lemma implements_unlink ok st p : tm_ok st -> requires st (QUnlink p) -> implements ok (QUnlink p) st (unlink_object nint st p).
Proof.
  intros Hok (po & Hp & Hd & Hf). destruct (unlink_object_ok nint Hnint st p po Hok Hp Hd Hf) as (st' & -> & Hok' & Hef).
  eapply implements_intro; [done|done|exact Hef|]. apply spec_unlink; [by rewrite lookup_view, Hp|done].
Qed.

Lemma implements_metadata ok st cr p : tm_ok st -> requires st (QMetadata p) ->
  implements ok (QMetadata p) st (process_getmetadatas_command nint ok st cr p).
Proof.
  intros Hok [po Hp]. rewrite (process_getmetadatas_ok nint Hnint st cr p po ok Hok Hp). cbn zeta.
  assert (view st !! p = Some (view_of st po)) as Hvp by (by rewrite lookup_view, Hp).
  assert (forall e, effect st (post st e) (view st) [e]) as Hpost by (intros e; apply (effect_post st st (view st) []), effect_none).
  assert (forall e e', effect st (post (post st e) e') (view st) [e; e']) as Hpost2 by (intros e e'; by apply (effect_post st _ (view st) [e])).
  destruct (v_tags (view_of st po)) as [ts|] eqn:Et; cycle 1.
  { eapply implements_intro; [done|by apply tm_ok_post|apply Hpost|]. eapply spec_no_metadata; [done|by left]. }
  destruct (deleted po) eqn:Ed.
  { eapply implements_intro; [done|by apply tm_ok_post|apply Hpost|]. eapply spec_no_metadata; [done|by right]. }
  destruct ok; [destruct (decide _) as [Hua|Hua]|].
  - eapply implements_intro; [done|by apply tm_ok_post|apply Hpost|]. by apply (spec_metadata true _ p (view_of st po) ts _ _ []); auto.
  - eapply implements_intro; [done|by do 2 apply tm_ok_post|apply Hpost2|].
    apply (spec_metadata true _ p (view_of st po) ts); try done. right. eauto.
  - eapply implements_intro; [done|by do 2 apply tm_ok_post|apply Hpost2|].
    by apply (spec_metadata false _ p (view_of st po) ts _ _ []); auto.
Qed.

(** The tags that a list of names in a command stands for. *)
Lemma extract_ok st sb it ns chs : tm_ok st -> Forall valid_name ns -> reads sb it (CList ns :: chs) ->
  exists lc it' sh tags all it'', get_list sb it = Some (lc, it') /\ sl_is_valid it' lc = true
    /\ extract_tag_names st sb it' lc = Some (sh, tags, true, all, it'') /\ extracted st ns sh tags all.
Proof.
  intros Hok Hv Hr. apply get_list_reads in Hr as (lc & it' & it'' & Hg & Hval & _ & Hss & _).
  destruct (extract_tag_names_ok nint st no_dummies [] None Hok sb it' lc ns it'' Hval Hss Hv) as (sh & tags & all & He & E1 & E2 & E3 & E4).
  exists lc, it', sh, tags, all, it''. split_and!; try done.
Qed.

Lemma mode_code_uint m : nc_is_valid_uint (clean_mode_code m) = true.
Proof. by destruct m. Qed.

Lemma implements_clean_tags ok st cr mode ns chs : tm_ok st -> has_payload_data (rw_sb cr) = Some false ->
  sees cr (CNumber (clean_mode_code (clean_mode mode)) :: CList ns :: chs) -> requires st (QClean mode ns) ->
  implements ok (QClean mode ns) st (process_clean_command nint st cr).
Proof.
  intros Hok Hpl (it & Hit & Hrd) (Hv & Hu & Hroom & Hroom'). unfold process_clean_command, process_clean. rewrite Hit. cbn [mbind option_bind].
  apply get_number_reads in Hrd as (it1 & -> & Hrd & _). cbn [mbind option_bind]. rewrite Hpl. cbn [mbind option_bind].
  rewrite mode_code_uint. cbn [negb andb].
  destruct (extract_ok st _ it1 ns chs Hok Hv Hrd) as (lc & it2 & sh & tags & all & it3 & -> & Hval & He & Hex).
  destruct (clean_tags_ok nint Hnint st mode ns sh tags all Hok Hu Hex) as (st' & Hcl & Hok' & Hc); [lia|].
  assert ((clean_mode_code (clean_mode mode) =? clean_mode_code CM_ALL) = false) as -> by (by destruct mode).
  assert ((clean_mode_code (clean_mode mode) =? clean_mode_code CM_OLD) = false) as -> by (by destruct mode).
  cbn [mbind option_bind]. rewrite Hval, He. cbn [mbind option_bind]. rewrite Hcl. cbn [mbind option_bind].
  eapply implements_clean; [done|done|exact Hc|]. intros ps. apply spec_clean.
Qed.

Lemma implements_clean_simple ok st cr q m : tm_ok st -> has_payload_data (rw_sb cr) = Some false ->
  sees cr [CNumber (clean_mode_code m)] -> (m = CM_ALL /\ q = QCleanAll \/ m = CM_OLD /\ q = QCleanOld) ->
  implements ok q st (process_clean_command nint st cr).
Proof.
  intros Hok Hpl (it & Hit & Hrd) Hm. unfold process_clean_command, process_clean. rewrite Hit. cbn [mbind option_bind].
  apply get_number_reads in Hrd as (it1 & -> & Hrd & _). cbn [mbind option_bind]. rewrite Hpl. cbn [mbind option_bind].
  rewrite mode_code_uint. cbn [negb andb]. rewrite (reads_nil _ _ Hrd). destruct Hm as [[-> ->]|[-> ->]]; cbn [clean_mode_code Z.eqb Pos.eqb].
  - destruct (clean_all_ok nint Hnint st no_dummies Hok) as (st' & -> & Hok' & Hc). cbn [mbind option_bind].
    eapply implements_clean; [done|done|exact Hc|]. intros ps. apply spec_clean_all.
  - cbn [mbind option_bind]. eapply implements_intro; [done|by do 2 apply tm_ok_post| |apply spec_clean_old].
    apply (effect_post st _ (view st) [_]). apply (effect_post st st (view st) []), effect_none.
Qed.

Lemma implements_ids_by ok st cr mode ns chs : tm_ok st -> has_payload_data (rw_sb cr) = Some false ->
  sees cr (CList ns :: chs) -> requires st (QIdsBy mode ns) ->
  implements ok (QIdsBy mode ns) st (process_getmatchingids_command nint ok (query_of mode) st cr).
Proof.
  intros Hok Hpl (it & Hit & Hrd) (Hv & Hu & Hroom & Hroom'). unfold process_getmatchingids_command. rewrite Hit. cbn [mbind option_bind].
  destruct (extract_ok st _ it ns chs Hok Hv Hrd) as (lc & it2 & sh & tags & all & it3 & -> & Hval & He & Hex). cbn [mbind option_bind].
  rewrite Hpl. cbn [mbind option_bind]. rewrite Hval. cbn [negb andb]. rewrite He. cbn [mbind option_bind].
  destruct (matching_ids_ok nint Hnint st mode ns sh tags all Hok Hu Hex) as (ps & -> & Hps); [lia|]. cbn [mbind option_bind].
  apply implements_query; [done|done|]. rewrite names_in_view. by apply spec_ids_by.
Qed.

Lemma implements_ids ok st cr : tm_ok st -> has_any_data cr = Some false -> implements ok QIds st (process_getids_command nint ok st cr).
Proof.
  intros Hok Hd. unfold process_getids_command. rewrite Hd. cbn [mbind option_bind].
  destruct (enum_all_ok nint Hnint st no_dummies Hok) as (ps & -> & Hps). cbn [mbind option_bind].
  apply implements_query; [done|done|]. rewrite names_in_view. by apply spec_ids.
Qed.

Lemma implements_tags ok st cr : tm_ok st -> has_any_data cr = Some false -> implements ok QTags st (process_gettags_command ok st cr).
Proof.
  intros Hok Hd. unfold process_gettags_command. rewrite Hd. cbn [mbind option_bind].
  destruct (enumerate_tags_ok nint st Hok) as (ids & -> & Hids). cbn [mbind option_bind].
  apply implements_query; [done|done|]. by apply spec_tags.
Qed.

Lemma implements_quit ok st : tm_ok st -> implements ok QQuit st (Some (with_quitting st true)).
Proof.
  intros Hok. eexists _, _, _. split; [done|]. split; [constructor; apply Hok|]. split; [apply effect_none|]. apply spec_quit.
Qed.

Lemma implements_post ok q st e : q <> QQuit -> tm_ok st -> spec ok (view st) q (view st) [e] -> implements ok q st (Some (post st e)).
Proof.
  intros Hq Hok Hs. eapply implements_intro; [done|by apply tm_ok_post| |exact Hs].
  apply (effect_post st st (view st) []), effect_none.
Qed.

End Requests.
