(* ===== verification/TagRun.v ===== *)
(** * TagRun

    Runs of the tag manager: the state the thread starts with, messages, and what
    other threads do to pages between messages. *)

From S2P Require Import Prelude Protocol Memory Buffers ChunkBuilder HeaderBuild ChunkIterator RoundTrip Accessors CommandIO DList HashObject HashTable ObjectStore NameTable Tags TagRefs TagPages TagOps TagSave TagMatch TagCommands TagHandlers TagClean TagSelect TagQueries TagRequests.

Section Run.
Context {T : Type} `{NameTableLaws T} `{NewLocs}.
Context (nint : Z) (Hnint : 0 < nint).
Implicit Types (st : TagStore T).
Local Abbreviation tm_inv := (tm_inv nint).
Local Abbreviation tm_ok := (tm_ok nint).

(** ** The start *)

Definition empty_store (t : T) (tables : list (list loc)) : TagStore T := mkTagStore t ∅ ∅ ∅ tables None false [].

Lemma allocate_ok t n st : nt_rep t [] -> allocate_tag_store (empty_store t (replicate n [])) = Some st -> tm_ok st.
Proof.
  intros Hrep Ha. unfold allocate_tag_store, create_tag in Ha. cbn [tm_tags empty_store] in Ha.
  pose proof (new_locs_length (dom (∅ : gmap loc TagObject)) 1) as Hlen. destruct (new_locs _ 1) as [|x rest]; [done|]. cbn [head mbind option_bind] in Ha.
  destruct (nt_add_ok t [] untagged_name x Hrep) as (t' & l' & He & Hrep' & Hperm); [done|by intros ?%elem_of_nil..|done|].
  cbn [tm_table empty_store] in Ha. rewrite He in Ha. cbn in Ha. injection Ha as <-.
  assert (l' = [(untagged_name, x)]) as ->. { symmetry in Hperm. by apply Permutation_singleton_l in Hperm. }
  assert (forall y (to : TagObject), ({[x := mkTagObject untagged_name None 0 true]} : gmap loc TagObject) !! y = Some to ->
    y = x /\ to = mkTagObject untagged_name None 0 true) as Hone by (intros y to Hy; by apply lookup_singleton_Some in Hy as [-> <-]).
  assert (tagging ∅ = ∅) as Htg by (unfold tagging; apply omap_empty).
  assert (concat (replicate n ([] : list loc)) = []) as Hcat by (by induction n).
  constructor; cbn; rewrite ?insert_empty, ?Htg, ?Hcat; try done.
  - exists [(untagged_name, x)]. split; [done|]. intros m y. rewrite list_elem_of_singleton. split.
    + intros [= -> ->]. eexists. by rewrite lookup_singleton_eq.
    + intros (to & [-> ->]%Hone & <-). done.
  - by intros y to [_ ->]%Hone.
  - constructor; rewrite ?Htg; [done| |done]. intros y to [-> ->]%Hone. exists []. split; [split_and!; [done|done|constructor]|].
    split; [|done]. intros r. rewrite lookup_empty. split; [by intros ?%elem_of_nil|by intros [? ?]].
  - by intros y to [_ ->]%Hone.
  - by rewrite map_size_singleton.
  - by intros y to [_ ->]%Hone.
  - exists x. eexists. by rewrite lookup_singleton_eq.
  - by intros y to [-> ->]%Hone.
  - constructor.
  - intros p. rewrite lookup_empty. split; [by intros ?%elem_of_nil|by intros [? ?]].
Qed.

(** ** Pages come and go *)

(** A page object as the page store creates it. *)
Record new_page (po : PageObject) : Prop := mkNewPage {
  np_shape : page_shape nint po;
  np_linked : linked po = false;
  np_deleted : deleted po = false;
  np_count : get_num_tag_refs po = 0;
}.

(** A page store adds a page and its references to one of its tables. *)
Definition add_page st (p : loc) (po : PageObject) (tables : list (list loc)) : TagStore T :=
  mkTagStore (tm_table st) (tm_tags st) (insert_refs (tm_refs st) (po_tags po) []) (<[p := po]> (tm_pages st)) tables
    (ts_untagged st) (ts_quitting st) (tm_posted st).

(** A page that is no longer linked is freed. *)
Definition drop_page st (p : loc) (po : PageObject) (tables : list (list loc)) : TagStore T :=
  mkTagStore (tm_table st) (tm_tags st) (delete_refs (tm_refs st) (page_refs po)) (delete p (tm_pages st)) tables
    (ts_untagged st) (ts_quitting st) (tm_posted st).

(** What other threads do between messages. *)
Inductive env_step : TagStore T -> TagStore T -> Prop :=
| env_add st p po tables : tm_pages st !! p = None -> new_page po -> (forall r, r ∈ po_tags po -> tm_refs st !! r = None) ->
    Permutation (concat tables) (p :: concat (tm_page_tables st)) -> env_step st (add_page st p po tables)
| env_mark st p st' : page_set_flags st p HOF_BEING_DELETED = Some st' -> env_step st st'
| env_touch st p po o : tm_pages st !! p = Some po -> ho_flags o = ho_flags (po_base po) -> ho_name o = ho_name (po_base po) ->
    pho_count (ho_payload o) = get_num_tag_refs po -> buffer_wf (ho_payload o) ->
    env_step st (with_page st p (po_with_base po o) (tm_refs st))
| env_drop st p po tables : tm_pages st !! p = Some po -> linked po = false -> deleted po = true ->
    Permutation (concat (tm_page_tables st)) (p :: concat tables) -> env_step st (drop_page st p po tables).

(** Pages and references change, but no links. *)
Lemma inv_pages st refs pages tables :
  tm_ok st -> tagging refs = tagging (tm_refs st) -> (forall r, is_Some (tagging (tm_refs st) !! r) -> refs !! r = tm_refs st !! r) ->
  (forall p po, pages !! p = Some po -> page_shape nint po /\ page_settled (tagging (tm_refs st)) po
     /\ page_linking refs p po) ->
  (forall r p x, tagging (tm_refs st) !! r = Some (p, x) -> exists po, pages !! p = Some po /\ r ∈ page_refs po) ->
  (forall p q po qo r, pages !! p = Some po -> pages !! q = Some qo -> r ∈ page_refs po -> r ∈ page_refs qo -> p = q) ->
  NoDup (concat tables) -> (forall p, p ∈ concat tables <-> is_Some (pages !! p)) ->
  tm_ok (mkTagStore (tm_table st) (tm_tags st) refs pages tables (ts_untagged st) (ts_quitting st) (tm_posted st)).
Proof.
  intros Hinv Ht Hr Hp Hown Hdis Hnd Hen. constructor; cbn; rewrite ?Ht; try apply Hinv; try done.
  - eapply chains_frame; [exact Hr|exact Ht|apply Hinv].
  - intros p po Hpo. by apply (Hp p po).
  - intros p po Hpo. by apply (Hp p po).
  - intros p po Hpo _. by apply (Hp p po).
Qed.

Lemma page_linking_frame refs refs' p po : tagging refs' = tagging refs -> (forall r, r ∈ page_refs po -> is_Some (refs' !! r)) ->
  page_linking refs p po -> page_linking refs' p po.
Proof. intros Ht Hr [L1 L2 L3]. by constructor; rewrite ?Ht. Qed.

Lemma env_add_ok st p po tables : tm_ok st -> tm_pages st !! p = None -> new_page po -> (forall r, r ∈ po_tags po -> tm_refs st !! r = None) ->
  Permutation (concat tables) (p :: concat (tm_page_tables st)) -> tm_ok (add_page st p po tables).
Proof.
  intros Hinv Hp [N1 N2 N3 N4] Hfresh Hperm.
  assert (page_refs po = po_tags po) as Hpr.
  { unfold page_refs. pose proof (ps_xtags _ _ N1) as Hx. destruct (po_xtags po) as [x|]; [|apply app_nil_r]. lia. }
  pose proof (fun r => insert_refs_lookup (po_tags po) (tm_refs st) [] r) as Hins.
  assert (tagging (insert_refs (tm_refs st) (po_tags po) []) = tagging (tm_refs st)) as Ht.
  { apply tagging_frame. intros r. destruct (decide (r ∈ po_tags po)) as [Hr|Hr]; [right|left; by apply Hins].
    split; [unfold tagging; by rewrite lookup_omap, (Hfresh r Hr)|]. intros rf Hrf. destruct (Hins r) as [_ Hi].
    destruct (Hi Hr) as (rf' & Hrf' & [->|?%elem_of_nil]); [|done]. replace rf with no_ref by congruence. by left. }
  assert (forall r, tagging (tm_refs st) !! r = None \/ r ∉ po_tags po) as Hun.
  { intros r. destruct (decide (r ∈ po_tags po)) as [Hr|Hr]; [left; unfold tagging; by rewrite lookup_omap, (Hfresh r Hr)|by right]. }
  assert (forall r, r ∈ po_tags po -> is_Some (insert_refs (tm_refs st) (po_tags po) [] !! r)) as Hnew.
  { intros r Hr. destruct (Hins r) as [_ Hi]. destruct (Hi Hr) as (rf & ? & _). by eexists. }
  apply (inv_pages st); try done.
  - intros r [v Hr]. apply Hins. destruct (Hun r) as [?|?]; [congruence|done].
  - intros q qo Hq. destruct (decide (p = q)) as [<-|Hne].
    + rewrite lookup_insert_eq in Hq. injection Hq as <-. split; [done|].
      assert (page_tagged (tagging (tm_refs st)) po 0 0) as Hpt.
      { intros i r Hr. rewrite Hpr in Hr. apply list_elem_of_lookup_2 in Hr. destruct (Hun r) as [->|?]; [|done]. split; [by intros [? ?]|lia]. }
      split; [unfold page_settled; rewrite N2; auto|].
      constructor; rewrite ?Hpr, ?Ht.
      * done.
      * intros r q x Hr Hq. destruct (Hun r) as [?|?]; [congruence|done].
      * rewrite (untagged_tags_of _ po); [constructor|]. by apply (page_tagged_none _ _ 0).
    + rewrite lookup_insert_ne in Hq by done. split; [by eapply (inv_shape _ _ _ _ _ Hinv)|].
      split; [by eapply (inv_settled _ _ _ _ _ Hinv)|]. pose proof (inv_linking _ _ _ _ _ Hinv q qo Hq) as Hlk.
      eapply page_linking_frame; [exact Ht| |exact Hlk]. intros r Hr. destruct (decide (r ∈ po_tags po)) as [Hr'|Hr']; [by apply Hnew|].
      destruct (Hins r) as [-> _]; [|done]. by apply (pl_refs _ _ _ Hlk).
  - intros r q x Hr. destruct (inv_owned _ _ _ _ _ Hinv r q x Hr) as (qo & Hq & Hin). exists qo. split; [|done].
    rewrite lookup_insert_ne; [done|]. intros ->. congruence.
  - assert (forall q qo r, tm_pages st !! q = Some qo -> r ∈ po_tags po -> r ∈ page_refs qo -> False) as Hd.
    { intros q qo r Hq Hr Hr'. destruct (pl_refs _ _ _ (inv_linking _ _ _ _ _ Hinv q qo Hq) r Hr') as [? ?].
      rewrite (Hfresh r Hr) in *. done. }
    intros a b ao bo r Ha Hb Hra Hrb. destruct (decide (p = a)) as [<-|Ha'], (decide (p = b)) as [<-|Hb']; [done| | |].
    + rewrite lookup_insert_eq in Ha. injection Ha as <-. rewrite Hpr in Hra. rewrite lookup_insert_ne in Hb by done. exfalso. by eapply Hd.
    + rewrite lookup_insert_eq in Hb. injection Hb as <-. rewrite Hpr in Hrb. rewrite lookup_insert_ne in Ha by done. exfalso. by eapply Hd.
    + rewrite lookup_insert_ne in Ha by done. rewrite lookup_insert_ne in Hb by done. by eapply (inv_disjoint _ _ _ _ _ Hinv).
  - rewrite Hperm. apply NoDup_cons. split; [|apply Hinv]. rewrite (inv_enumerated _ _ _ _ _ Hinv), Hp. by intros [? ?].
  - intros q. rewrite Hperm, elem_of_cons, (inv_enumerated _ _ _ _ _ Hinv). destruct (decide (p = q)) as [<-|Hne].
    + rewrite lookup_insert_eq. split; [by eexists|by left].
    + rewrite lookup_insert_ne by done. split; [by intros [?|?]|by right].
Qed.

Lemma env_drop_ok st p po tables : tm_ok st -> tm_pages st !! p = Some po -> linked po = false ->
  Permutation (concat (tm_page_tables st)) (p :: concat tables) -> tm_ok (drop_page st p po tables).
Proof.
  intros Hinv Hp Hl Hperm. pose proof (inv_settled _ _ _ _ _ Hinv p po Hp ltac:(done)) as Hs. unfold page_settled in Hs. rewrite Hl in Hs.
  destruct Hs as [Hpt _]. pose proof (page_tagged_none _ _ _ Hpt) as Hun.
  assert (forall r, r ∈ page_refs po -> tagging (tm_refs st) !! r = None) as Hun'.
  { intros r Hr. apply list_elem_of_lookup in Hr as [i Hi]. by eapply Hun. }
  pose proof (fun r => delete_refs_lookup (page_refs po) (tm_refs st) r) as Hdel.
  assert (tagging (delete_refs (tm_refs st) (page_refs po)) = tagging (tm_refs st)) as Ht.
  { apply tagging_frame. intros r. destruct (decide (r ∈ page_refs po)) as [Hr|Hr]; [right|left; by apply Hdel].
    split; [by apply Hun'|]. intros rf Hrf. destruct (Hdel r) as [_ Hd]. by rewrite (Hd Hr) in Hrf. }
  apply (inv_pages st); try done.
  - intros r [v Hr]. apply Hdel. intros Hin. by rewrite (Hun' r Hin) in Hr.
  - intros q qo [Hne Hq]%lookup_delete_Some. split; [by eapply (inv_shape _ _ _ _ _ Hinv)|].
    split; [by eapply (inv_settled _ _ _ _ _ Hinv)|]. pose proof (inv_linking _ _ _ _ _ Hinv q qo Hq) as Hlk.
    eapply page_linking_frame; [exact Ht| |exact Hlk]. intros r Hr. destruct (Hdel r) as [-> _]; [by apply (pl_refs _ _ _ Hlk)|].
    intros Hr'. apply Hne. by eapply (inv_disjoint _ _ _ _ _ Hinv).
  - intros r q x Hr. destruct (inv_owned _ _ _ _ _ Hinv r q x Hr) as (qo & Hq & Hin). exists qo. split; [|done].
    rewrite lookup_delete_ne; [done|]. intros ->. replace qo with po in Hin by congruence. by rewrite (Hun' r Hin) in Hr.
  - intros a b ao bo r [_ Ha]%lookup_delete_Some [_ Hb]%lookup_delete_Some. by apply (inv_disjoint _ _ _ _ _ Hinv a b ao bo).
  - pose proof (inv_tables _ _ _ _ _ Hinv) as Hnd. rewrite Hperm in Hnd. by apply NoDup_cons in Hnd as [_ ?].
  - pose proof (inv_tables _ _ _ _ _ Hinv) as Hnd. rewrite Hperm in Hnd. apply NoDup_cons in Hnd as [Hpt' _].
    intros q. pose proof (inv_enumerated _ _ _ _ _ Hinv q) as He. rewrite Hperm, elem_of_cons in He. destruct (decide (p = q)) as [<-|Hne].
    + rewrite lookup_delete_eq. split; [done|by intros [? ?]].
    + rewrite lookup_delete_ne by done. rewrite <- He. split; [by right|]. intros [?|?]; [congruence|done].
Qed.

Lemma env_mark_ok st p st' : tm_ok st -> page_set_flags st p HOF_BEING_DELETED = Some st' -> tm_ok st'.
Proof.
  intros Hinv Hm. destruct (tm_pages st !! p) as [po|] eqn:Hp; [|unfold page_set_flags in Hm; by rewrite Hp in Hm].
  destruct (set_deleted_ok nint st no_dummies [] p po) as (st1 & po1 & He & Hinv1 & _ & Hp1 & Hl1 & Hd1 & _ & Hc1 & Hr1 & Hrf1 & _);
    [by apply inv_busy|done|]. assert (st1 = st') as <- by congruence.
  apply (inv_settle nint st1 _ _ p Hinv1). intros po2 Hp2. replace po2 with po1 by congruence.
  pose proof (inv_settled _ _ _ _ _ Hinv p po Hp ltac:(done)) as Hs. unfold page_settled, page_tagged in *. rewrite Hl1, Hr1, Hrf1, Hc1.
  destruct (linked po); destruct Hs as [Hs1 Hs2]; (split; [done|]); [done|by left].
Qed.

Lemma env_touch_ok st p po o : tm_ok st -> tm_pages st !! p = Some po -> ho_flags o = ho_flags (po_base po) ->
  pho_count (ho_payload o) = get_num_tag_refs po -> buffer_wf (ho_payload o) -> tm_ok (with_page st p (po_with_base po o) (tm_refs st)).
Proof.
  intros Hinv Hp Hf Hc Hb. destruct (inv_with_base nint st no_dummies [] p po o) as [Hinv1 _];
    [by apply inv_busy|done|by eapply type_flags; [|done|done]; rewrite Hf|done|done|].
  apply (inv_settle nint _ _ _ p Hinv1). intros po2 Hp2. cbn in Hp2. rewrite lookup_insert_eq in Hp2. injection Hp2 as <-.
  pose proof (inv_settled _ _ _ _ _ Hinv p po Hp ltac:(done)) as Hs. unfold page_settled, linked, deleted in *.
  cbn [po_base po_with_base]. rewrite Hf. replace (get_num_tag_refs (po_with_base po o)) with (get_num_tag_refs po) by done. done.
Qed.

Lemma env_step_ok st st' : tm_ok st -> env_step st st' -> tm_ok st'.
Proof.
  intros Hinv Hs. destruct Hs; [by apply env_add_ok|by eapply env_mark_ok|by apply env_touch_ok|by apply env_drop_ok].
Qed.

(** ** Messages *)

Lemma message_ok ok st msg q : tm_ok st -> reads_as msg q -> requires st q -> implements nint ok q st (process_message nint ok st msg).
Proof.
  intros Hok Hr Hq. destruct Hr; cbn [process_message process_id_message];
    try (unfold process_command_message; match goal with H : is_command _ _ |- _ => rewrite H end; cbn [mbind option_bind]).
  - by eapply implements_save.
  - by apply implements_remove.
  - by apply implements_metadata.
  - eapply implements_clean_simple; [done|done|done|done|by left].
  - eapply implements_clean_simple; [done|done|done|done|by right].
  - by eapply implements_clean_tags.
  - by apply implements_ids.
  - by apply implements_tags.
  - destruct mode; by eapply implements_ids_by.
  - by apply implements_unlink.
  - apply implements_post; [done|done|]. apply spec_capacity.
  - apply implements_post; [done|done|]. apply spec_max_capacity.
  - by apply implements_quit.
Qed.

(** States of a run: the thread starts with the store that [TagStore::allocate] has
    made and no pages, handles messages in turn, and other threads act in between. *)
Inductive reachable (ok : bool) : TagStore T -> Prop :=
| reach_start t n st : nt_rep t [] -> allocate_tag_store (empty_store t (replicate n [])) = Some st -> reachable ok st
| reach_env st st' : reachable ok st -> env_step st st' -> reachable ok st'
| reach_message st msg q st' : reachable ok st -> reads_as msg q -> requires st q ->
    process_message nint ok st msg = Some st' -> reachable ok st'.

Lemma reachable_ok ok st : reachable ok st -> tm_ok st.
Proof.
  induction 1 as [t n st Hrep Ha|st st' _ IH Hs|st msg q st' _ IH Hr Hq He]; [by eapply allocate_ok|by eapply env_step_ok|].
  destruct (message_ok ok st msg q IH Hr Hq) as (st1 & V & evs & He1 & Hok & _). congruence.
Qed.

End Run.
