(* ===== verification/Mutexes.v ===== *)
(** * Mutexes

    [DynamicMutex] of [mt_mutexes.h] and [mt_mutexes.cc], the reader-writer lock of
    the hash tables, whose exclusive lock can be downgraded and whose shared lock
    can be upgraded. Each function below is what one method does while it holds
    [dm_mutex], up to a wait on the condition variable [dm_notifier] or after one;
    [dm_step] lets any number of threads run these sections in any order. *)

From S2P Require Import Prelude Protocol.

(** Service threads and worker threads of the Community edition. *)
Definition TI_FIRST_CONNECTION_THREAD : Z := 13.
Definition MAX_NUM_CONNECTION_THREADS : Z := 6.
Definition MAX_NUM_THREADS : Z := TI_FIRST_CONNECTION_THREAD + MAX_NUM_CONNECTION_THREADS.

Record DynamicMutex := mkDynamicMutex {
  m_num_readers : Z;
  m_exclusive : bool;
}.

Definition dm_create : DynamicMutex := mkDynamicMutex 0 false.

(** ** Critical sections

    A boolean result tells whether the thread got the lock; if not, it waits. *)

Definition shared_condition (m : DynamicMutex) : bool := negb (m_exclusive m).
Definition exclusive_condition (m : DynamicMutex) : bool := negb (m_exclusive m) && (m_num_readers m =? 0).

Definition dm_lock_shared (m : DynamicMutex) : option (bool * DynamicMutex) :=
  if shared_condition m then
    _ ← c3_assert (m_num_readers m <? MAX_NUM_THREADS);
    Some (true, mkDynamicMutex (u8 (m_num_readers m + 1)) (m_exclusive m))
  else Some (false, m).

Definition dm_lock_exclusive (m : DynamicMutex) : option (bool * DynamicMutex) :=
  if exclusive_condition m then Some (true, mkDynamicMutex (m_num_readers m) true) else Some (false, m).

(** Notifies all. *)
Definition dm_downgrade_lock (m : DynamicMutex) : option DynamicMutex :=
  _ ← c3_assert (m_exclusive m && (m_num_readers m =? 0));
  Some (mkDynamicMutex 1 false).

(** [upgrade_lock] up to its wait; after the wait it continues as [dm_lock_exclusive]. *)
Definition dm_upgrade_lock (m : DynamicMutex) : option (bool * DynamicMutex) :=
  _ ← c3_assert (negb (m_exclusive m) && (0 <? m_num_readers m));
  let m := mkDynamicMutex (u8 (m_num_readers m - 1)) (m_exclusive m) in
  if m_num_readers m =? 0 then Some (true, mkDynamicMutex (m_num_readers m) true)
  else dm_lock_exclusive m.

(** The first component tells whether all are notified. *)
Definition dm_unlock_shared (m : DynamicMutex) : option (bool * DynamicMutex) :=
  _ ← c3_assert (negb (m_exclusive m) && (0 <? m_num_readers m));
  let m := mkDynamicMutex (u8 (m_num_readers m - 1)) (m_exclusive m) in
  Some (m_num_readers m =? 0, m).

(** Notifies all. *)
Definition dm_unlock_exclusive (m : DynamicMutex) : option DynamicMutex :=
  _ ← c3_assert (m_exclusive m && (m_num_readers m =? 0));
  Some (mkDynamicMutex (m_num_readers m) false).

(** ** Threads *)

(** What a thread does with the mutex; waiting threads are asleep or already notified,
    and an upgrade may have a time limit. *)
Inductive dm_status :=
| Out
| Reading
| Writing
| WaitingShared (woken : bool)
| WaitingExclusive (woken : bool)
| Upgrading (timed woken : bool).

#[export] Instance dm_status_eq_dec : EqDecision dm_status.
Proof. solve_decision. Defined.

Record dm_system := mkDmSystem { dm_mutex : DynamicMutex; dm_threads : list dm_status }.

Definition notified (s : dm_status) : dm_status :=
  match s with
  | WaitingShared _ => WaitingShared true
  | WaitingExclusive _ => WaitingExclusive true
  | Upgrading timed _ => Upgrading timed true
  | s => s
  end.
Definition notify_all (ts : list dm_status) : list dm_status := map notified ts.

(** A waiting thread may run whether it has been notified or not. *)
Inductive dm_step : dm_system -> dm_system -> Prop :=
| step_lock_shared m ts i st ok m' :
    ts !! i = Some st -> st = Out \/ (exists w, st = WaitingShared w) ->
    dm_lock_shared m = Some (ok, m') ->
    dm_step (mkDmSystem m ts) (mkDmSystem m' (<[i := if ok then Reading else WaitingShared false]> ts))
| step_lock_exclusive m ts i st ok m' :
    ts !! i = Some st -> st = Out \/ (exists w, st = WaitingExclusive w) ->
    dm_lock_exclusive m = Some (ok, m') ->
    dm_step (mkDmSystem m ts) (mkDmSystem m' (<[i := if ok then Writing else WaitingExclusive false]> ts))
| step_downgrade m ts i m' :
    ts !! i = Some Writing -> dm_downgrade_lock m = Some m' ->
    dm_step (mkDmSystem m ts) (mkDmSystem m' (notify_all (<[i := Reading]> ts)))
| step_upgrade m ts i timed ok m' :
    ts !! i = Some Reading -> dm_upgrade_lock m = Some (ok, m') ->
    dm_step (mkDmSystem m ts) (mkDmSystem m' (<[i := if ok then Writing else Upgrading timed false]> ts))
| step_upgrade_resume m ts i timed w ok m' :
    ts !! i = Some (Upgrading timed w) -> dm_lock_exclusive m = Some (ok, m') ->
    dm_step (mkDmSystem m ts) (mkDmSystem m' (<[i := if ok then Writing else Upgrading timed false]> ts))
| step_upgrade_timeout m ts i w m' :
    ts !! i = Some (Upgrading true w) -> dm_lock_exclusive m = Some (false, m') ->
    dm_step (mkDmSystem m ts) (mkDmSystem m' (<[i := Out]> ts))
| step_unlock_shared m ts i all m' :
    ts !! i = Some Reading -> dm_unlock_shared m = Some (all, m') ->
    dm_step (mkDmSystem m ts) (mkDmSystem m' ((if all then notify_all else id) (<[i := Out]> ts)))
| step_unlock_exclusive m ts i m' :
    ts !! i = Some Writing -> dm_unlock_exclusive m = Some m' ->
    dm_step (mkDmSystem m ts) (mkDmSystem m' (notify_all (<[i := Out]> ts))).

(** The systems that [n] threads can get to. *)
Inductive dm_reachable (n : nat) : dm_system -> Prop :=
| dm_start : dm_reachable n (mkDmSystem dm_create (replicate n Out))
| dm_next s s' : dm_reachable n s -> dm_step s s' -> dm_reachable n s'.

(** ** The invariant *)

Definition is_reading (s : dm_status) : bool := match s with Reading => true | _ => false end.
Definition is_writing (s : dm_status) : bool := match s with Writing => true | _ => false end.

(** A thread is asleep only while what it waits for does not hold. *)
Definition asleep_ok (m : DynamicMutex) (s : dm_status) : Prop :=
  match s with
  | WaitingShared false => shared_condition m = false
  | WaitingExclusive false | Upgrading _ false => exclusive_condition m = false
  | _ => True
  end.

Record dm_inv (n : nat) (s : dm_system) : Prop := mkDmInv {
  inv_length : length (dm_threads s) = n;
  inv_readers : m_num_readers (dm_mutex s) = tally is_reading (dm_threads s);
  inv_writers : Z.b2z (m_exclusive (dm_mutex s)) = tally is_writing (dm_threads s);
  inv_apart : m_exclusive (dm_mutex s) = true -> m_num_readers (dm_mutex s) = 0;
  inv_asleep : forall (i : nat) st, dm_threads s !! i = Some st -> asleep_ok (dm_mutex s) st;
}.

Lemma asleep_insert m (ts : list dm_status) (i : nat) st : asleep_ok m st -> (forall (j : nat) st, ts !! j = Some st -> asleep_ok m st) ->
  forall (j : nat) st', <[i := st]> ts !! j = Some st' -> asleep_ok m st'.
Proof.
  intros Hst Hts j st' Hj. destruct (decide (i = j)) as [<-|Hne].
  - apply list_lookup_insert_Some in Hj as [(_ & <- & _)|[? _]]; [done|congruence].
  - rewrite list_lookup_insert_ne in Hj by done. by eapply Hts.
Qed.

Lemma asleep_notified m ts : forall (j : nat) st, notify_all ts !! j = Some st -> asleep_ok m st.
Proof.
  intros j st Hj. unfold notify_all in Hj. rewrite list_lookup_fmap in Hj.
  destruct (ts !! j) as [s|]; [|done]. cbn in Hj. injection Hj as <-. by destruct s.
Qed.

(** Threads stay asleep when the mutex gets more restrictive. *)
Lemma asleep_mono m m' (ts : list dm_status) :
  (shared_condition m = false -> shared_condition m' = false) ->
  (exclusive_condition m = false -> exclusive_condition m' = false) ->
  (forall (j : nat) st, ts !! j = Some st -> asleep_ok m st) -> forall (j : nat) st, ts !! j = Some st -> asleep_ok m' st.
Proof. intros Hs He H j st Hj. specialize (H j st Hj). destruct st as [| | |[]|[]|? []]; cbn in *; auto. Qed.

(** The counts when thread [i] changes its status, with or without a notification. *)
Lemma inv_change n m (ts : list dm_status) (i : nat) old new m' notify :
  dm_inv n (mkDmSystem m ts) -> ts !! i = Some old ->
  m_num_readers m' = m_num_readers m - Z.b2z (is_reading old) + Z.b2z (is_reading new) ->
  Z.b2z (m_exclusive m') = Z.b2z (m_exclusive m) - Z.b2z (is_writing old) + Z.b2z (is_writing new) ->
  (m_exclusive m' = true -> m_num_readers m' = 0) ->
  (notify = true \/ asleep_ok m' new /\ (shared_condition m = false -> shared_condition m' = false)
    /\ (exclusive_condition m = false -> exclusive_condition m' = false)) ->
  dm_inv n (mkDmSystem m' ((if notify : bool then notify_all else id) (<[i := new]> ts))).
Proof.
  intros [Hn Hr Hw Ha Hs] Hi Hr' Hw' Ha' Hs'. cbn [dm_mutex dm_threads] in *.
  assert (forall p, (forall s, p (notified s) = p s) ->
    tally p ((if notify then notify_all else id) (<[i := new]> ts)) = tally p ts - Z.b2z (p old) + Z.b2z (p new)) as Ht.
  { intros p Hp. rewrite <- (tally_insert p ts i old new Hi). destruct notify; [by apply tally_map|done]. }
  constructor; cbn [dm_mutex dm_threads].
  - destruct notify; cbn; [unfold notify_all; rewrite length_map|]; by rewrite length_insert.
  - rewrite Ht, Hr', Hr; [done|by intros []].
  - rewrite Ht, Hw', Hw; [done|by intros []].
  - done.
  - destruct notify; [apply asleep_notified|]. destruct Hs' as [|(Hnew & Hsh & Hex)]; [done|].
    apply asleep_insert; [done|]. by eapply asleep_mono.
Qed.

(** The mutex against what a thread holds. *)
Lemma inv_at n m (ts : list dm_status) (i : nat) st : dm_inv n (mkDmSystem m ts) -> ts !! i = Some st -> Z.of_nat n <= MAX_NUM_THREADS ->
  0 <= m_num_readers m <= MAX_NUM_THREADS
  /\ (st = Reading -> m_exclusive m = false /\ 0 < m_num_readers m)
  /\ (st = Writing -> m_exclusive m = true /\ m_num_readers m = 0)
  /\ (st <> Reading -> m_num_readers m < MAX_NUM_THREADS).
Proof.
  intros [Hn Hr Hw Ha _] Hi Hmax. cbn [dm_mutex dm_threads] in *. pose proof (tally_range is_reading ts) as Hrr.
  pose proof (tally_lookup is_reading ts i st Hi) as H1. pose proof (tally_lookup is_writing ts i st Hi) as H2.
  pose proof (tally_insert is_reading ts i st Reading Hi) as H3. pose proof (tally_range is_reading (<[i := Reading]> ts)) as H4.
  assert (zlen (<[i := Reading]> ts) = zlen ts) as Hz by (unfold zlen; by rewrite length_insert).
  assert (zlen ts = Z.of_nat n) as Hlen by (unfold zlen; by rewrite Hn). rewrite <- Hr in H1, H3, Hrr. rewrite <- Hw in H2.
  split_and!; [lia|lia|..].
  - intros ->. change (is_reading Reading) with true in *. destruct (m_exclusive m); [|cbn in *; split; [done|lia]].
    rewrite Ha in H1 by done. cbn in H1. lia.
  - intros ->. change (is_writing Writing) with true in H2. destruct (m_exclusive m); [by rewrite Ha|cbn in H2; lia].
  - intros Hne. assert (is_reading st = false) as E by (by destruct st). rewrite E in H3.
    change (is_reading Reading) with true in *. cbn [Z.b2z] in H3. lia.
Qed.

Lemma u8_count k : 0 <= k <= MAX_NUM_THREADS -> u8 k = k.
Proof. intros Hk. unfold u8, MAX_NUM_THREADS, TI_FIRST_CONNECTION_THREAD, MAX_NUM_CONNECTION_THREADS in *. rewrite Z.mod_small; lia. Qed.

(** The sections on a consistent mutex. *)
Lemma lock_shared_cases m : 0 <= m_num_readers m < MAX_NUM_THREADS ->
  (m_exclusive m = false /\ dm_lock_shared m = Some (true, mkDynamicMutex (m_num_readers m + 1) false))
  \/ (m_exclusive m = true /\ dm_lock_shared m = Some (false, m)).
Proof.
  intros Hr. unfold dm_lock_shared, shared_condition. destruct m as [r []]; cbn in *; [by right|left].
  destruct (r <? MAX_NUM_THREADS) eqn:E; zbool; [|lia]. cbn. by rewrite u8_count by lia.
Qed.

Lemma lock_exclusive_cases m :
  (m_exclusive m = false /\ m_num_readers m = 0 /\ dm_lock_exclusive m = Some (true, mkDynamicMutex 0 true))
  \/ (exclusive_condition m = false /\ dm_lock_exclusive m = Some (false, m)).
Proof.
  unfold dm_lock_exclusive. destruct (exclusive_condition m) eqn:E; [left|by right].
  unfold exclusive_condition in E. destruct m as [r []]; cbn in *; [done|]. zbool. by subst.
Qed.

Lemma upgrade_cases m : m_exclusive m = false -> 0 < m_num_readers m <= MAX_NUM_THREADS ->
  (m_num_readers m = 1 /\ dm_upgrade_lock m = Some (true, mkDynamicMutex 0 true))
  \/ (1 < m_num_readers m /\ dm_upgrade_lock m = Some (false, mkDynamicMutex (m_num_readers m - 1) false)).
Proof.
  intros He Hr. unfold dm_upgrade_lock. destruct m as [r e]; cbn in *. subst e. destruct (0 <? r) eqn:E; zbool; [|lia].
  cbn. rewrite u8_count by lia. destruct (r - 1 =? 0) eqn:E1; zbool.
  - left. split; [lia|]. by rewrite E1.
  - right. split; [lia|]. unfold dm_lock_exclusive, exclusive_condition. cbn. destruct (r - 1 =? 0) eqn:E2; zbool; [lia|done].
Qed.

Lemma unlock_shared_cases m : m_exclusive m = false -> 0 < m_num_readers m <= MAX_NUM_THREADS ->
  dm_unlock_shared m = Some (m_num_readers m - 1 =? 0, mkDynamicMutex (m_num_readers m - 1) false).
Proof.
  intros He Hr. unfold dm_unlock_shared. destruct m as [r e]; cbn in *. subst e. destruct (0 <? r) eqn:E; zbool; [|lia].
  cbn. by rewrite u8_count by lia.
Qed.

Lemma dm_step_inv n s s' : Z.of_nat n <= MAX_NUM_THREADS -> dm_inv n s -> dm_step s s' -> dm_inv n s'.
Proof.
  intros Hn Hinv Hstep. destruct Hstep as [m ts i st ok m' Hi Hst He|m ts i st ok m' Hi Hst He|m ts i m' Hi He|m ts i timed ok m' Hi He
    |m ts i timed w ok m' Hi He|m ts i w m' Hi He|m ts i all m' Hi He|m ts i m' Hi He];
    destruct (inv_at n m ts i _ Hinv Hi Hn) as (Hr & Hrd & Hwr & Hmx); destruct m as [r e]; cbn in Hr, Hrd, Hwr, Hmx.
  - assert (is_reading st = false /\ is_writing st = false /\ st <> Reading) as (E1 & E2 & E3)
      by (by destruct Hst as [->|[w ->]]).
    destruct (lock_shared_cases (mkDynamicMutex r e)) as [[Hx Hl]|[Hx Hl]]; [cbn; split; [lia|by apply Hmx]|..]; cbn in *;
      rewrite Hl in He; injection He as <- <-; subst e;
      (eapply (inv_change _ _ _ _ _ _ _ false); [done..| | | |right]); cbn; rewrite ?E1, ?E2; cbn; try lia; try done.
    intros _. by apply (inv_apart _ _ Hinv).
  - assert (is_reading st = false /\ is_writing st = false) as (E1 & E2) by (by destruct Hst as [->|[w ->]]).
    destruct (lock_exclusive_cases (mkDynamicMutex r e)) as [(Hx & Hz & Hl)|[Hx Hl]]; cbn in Hx; rewrite Hl in He; injection He as <- <-;
      (eapply (inv_change _ _ _ _ _ _ _ false); [done..| | | |right]); cbn; rewrite ?E1, ?E2; cbn in *; subst; cbn; try lia; try done.
    intros He. by apply (inv_apart _ _ Hinv).
  - destruct (Hwr eq_refl) as [-> ->]. cbn in He. injection He as <-.
    apply (inv_change n (mkDynamicMutex 0 true) ts i Writing Reading (mkDynamicMutex 1 false) true); try done; by left.
  - destruct (Hrd eq_refl) as [-> Hpos].
    destruct (upgrade_cases (mkDynamicMutex r false)) as [(Hx & Hl)|[Hx Hl]]; [done|cbn; lia|..]; cbn in Hx; rewrite Hl in He; injection He as <- <-;
      (eapply (inv_change _ _ _ _ _ _ _ false); [done..| | | |right]); cbn; try lia; try done.
  - destruct (lock_exclusive_cases (mkDynamicMutex r e)) as [(Hx & Hz & Hl)|[Hx Hl]]; cbn in Hx; rewrite Hl in He; injection He as <- <-;
      (eapply (inv_change _ _ _ _ _ _ _ false); [done..| | | |right]); cbn in *; subst; cbn; try lia; try done.
    intros He. by apply (inv_apart _ _ Hinv).
  - destruct (lock_exclusive_cases (mkDynamicMutex r e)) as [(Hx & Hz & Hl)|[Hx Hl]]; rewrite Hl in He; [done|]. injection He as <-.
    eapply (inv_change _ _ _ _ _ _ _ false); [done..| | | |right]; cbn; try lia; try done. apply (inv_apart _ _ Hinv).
  - destruct (Hrd eq_refl) as [-> Hpos]. rewrite unlock_shared_cases in He by (done || (cbn; lia)). cbn in He. injection He as <- <-.
    eapply inv_change; [done..| | | |]; cbn; try lia; try done.
  - destruct (Hwr eq_refl) as [-> ->]. cbn in He. injection He as <-.
    apply (inv_change n (mkDynamicMutex 0 true) ts i Writing Out (mkDynamicMutex 0 false) true); try done; by left.
Qed.

Lemma dm_reachable_inv n s : Z.of_nat n <= MAX_NUM_THREADS -> dm_reachable n s -> dm_inv n s.
Proof.
  intros Hn. induction 1 as [|s s' _ IH Hstep]; [|by eapply dm_step_inv].
  constructor; cbn [dm_mutex dm_threads].
  - apply length_replicate.
  - by rewrite tally_replicate.
  - by rewrite tally_replicate.
  - done.
  - intros i st [-> _]%lookup_replicate. done.
Qed.

(** ** Properties *)

(** What no reachable state breaks: a writer is alone, and the fields say who is in. *)
Definition dm_exclusion (s : dm_system) : Prop :=
  m_num_readers (dm_mutex s) = tally is_reading (dm_threads s)
  /\ (forall i j : nat, dm_threads s !! i = Some Writing -> dm_threads s !! j = Some Writing -> i = j)
  /\ (forall i j : nat, dm_threads s !! i = Some Writing -> dm_threads s !! j <> Some Reading)
  /\ (m_exclusive (dm_mutex s) = true <-> exists i : nat, dm_threads s !! i = Some Writing).

(** The sections that a thread may enter run to their end. *)
Definition dm_no_failure (s : dm_system) : Prop :=
  forall (i : nat) st, dm_threads s !! i = Some st ->
  match st with
  | Reading => is_Some (dm_upgrade_lock (dm_mutex s)) /\ is_Some (dm_unlock_shared (dm_mutex s))
  | Writing => is_Some (dm_downgrade_lock (dm_mutex s)) /\ is_Some (dm_unlock_exclusive (dm_mutex s))
  | _ => is_Some (dm_lock_shared (dm_mutex s)) /\ is_Some (dm_lock_exclusive (dm_mutex s))
  end.

(** When nobody is in, every waiting thread has been notified and gets its lock as soon
    as it runs. *)
Definition dm_no_lost_wakeup (s : dm_system) : Prop :=
  (forall i : nat, dm_threads s !! i <> Some Reading /\ dm_threads s !! i <> Some Writing) ->
  (forall (i : nat) w, dm_threads s !! i = Some (WaitingShared w) ->
     w = true /\ exists m, dm_lock_shared (dm_mutex s) = Some (true, m))
  /\ (forall (i : nat) w, (dm_threads s !! i = Some (WaitingExclusive w) \/ exists timed, dm_threads s !! i = Some (Upgrading timed w)) ->
     w = true /\ exists m, dm_lock_exclusive (dm_mutex s) = Some (true, m)).

Lemma tally_none {A} (p : A -> bool) (l : list A) : (forall (i : nat) x, l !! i = Some x -> p x = false) -> tally p l = 0.
Proof.
  intros H. pose proof (tally_range p l). destruct (decide (tally p l = 0)) as [|Hne]; [done|].
  destruct (tally_exists p l) as (i & x & Hi & Hx); [lia|]. rewrite (H i x Hi) in Hx. done.
Qed.

Lemma inv_exclusion n s : dm_inv n s -> dm_exclusion s.
Proof.
  intros [_ Hr Hw Ha _]. split; [done|].
  assert (forall i : nat, dm_threads s !! i = Some Writing -> m_exclusive (dm_mutex s) = true) as Hx.
  { intros i Hi. pose proof (tally_lookup is_writing _ i _ Hi) as Ht. rewrite <- Hw in Ht. by destruct (m_exclusive _). }
  split_and!.
  - intros i j Hi Hj. destruct (decide (i = j)) as [|Hne]; [done|].
    pose proof (tally_two is_writing _ i j _ _ Hi Hj Hne) as Ht. rewrite <- Hw in Ht. cbn in Ht.
    pose proof (b2z_range (m_exclusive (dm_mutex s))). lia.
  - intros i j Hi Hj. pose proof (tally_lookup is_reading _ j _ Hj) as Ht. rewrite <- Hr, Ha in Ht by eauto. cbn in Ht. lia.
  - split; [|by intros [i Hi]; eauto]. intros He. destruct (tally_exists is_writing (dm_threads s)) as (i & x & Hi & Hp).
    { rewrite <- Hw, He. cbn. lia. }
    exists i. by destruct x.
Qed.

Lemma inv_no_failure n s : Z.of_nat n <= MAX_NUM_THREADS -> dm_inv n s -> dm_no_failure s.
Proof.
  intros Hn Hinv i st Hi. destruct s as [m ts]. cbn in *.
  destruct (inv_at n m ts i st Hinv Hi Hn) as (Hr & Hrd & Hwr & Hmx).
  assert (st <> Reading -> is_Some (dm_lock_shared m)) as Hs.
  { intros Hne. destruct (lock_shared_cases m) as [[_ ->]|[_ ->]]; [split; [lia|auto]|by eexists..]. }
  assert (is_Some (dm_lock_exclusive m)) as He.
  { destruct (lock_exclusive_cases m) as [(_ & _ & ->)|[_ ->]]; by eexists. }
  destruct st; try (split; [by apply Hs|done]).
  - destruct (Hrd eq_refl) as [H1 H2]. rewrite unlock_shared_cases by (done || lia). split; [|by eexists].
    destruct (upgrade_cases m) as [[_ ->]|[_ ->]]; [done|lia|by eexists..].
  - destruct (Hwr eq_refl) as [H1 H2]. unfold dm_downgrade_lock, dm_unlock_exclusive. rewrite H1, H2. cbn. split; by eexists.
Qed.

Lemma inv_no_lost_wakeup n s : dm_inv n s -> dm_no_lost_wakeup s.
Proof.
  intros [_ Hr Hw _ Hs] Hnone. destruct s as [m ts]. cbn [dm_mutex dm_threads] in *.
  rewrite tally_none in Hr, Hw by (intros i x Hi; destruct (Hnone i); by destruct x).
  assert (m = mkDynamicMutex 0 false) as -> by (destruct m as [r []]; cbn in *; [done|by subst]).
  split.
  - intros i w Hi. specialize (Hs i _ Hi). split; [by destruct w|]. by eexists.
  - intros i w Hi. split; [|by eexists]. destruct Hi as [Hi|[timed Hi]]; specialize (Hs i _ Hi); by destruct w.
Qed.

(** (C17) The mutex of a hash table, used by any number of threads up to the maximum in any
    interleaving, with spurious wake-ups, downgrades, upgrades and upgrades that
    time out: a thread with an exclusive lock is alone, the number of readers is
    exact, no assertion can fail, and no wake-up is ever lost: once nobody holds the
    lock, all that wait for it have been notified and will get it. *)
Theorem dynamic_mutex_correct n s :
  Z.of_nat n <= MAX_NUM_THREADS -> dm_reachable n s -> dm_exclusion s /\ dm_no_failure s /\ dm_no_lost_wakeup s.
Proof.
  intros Hn Hr. pose proof (dm_reachable_inv n s Hn Hr) as Hinv.
  split_and!; [by eapply inv_exclusion|by eapply inv_no_failure|by eapply inv_no_lost_wakeup].
Qed.

(** A reader, a writer that waits for it, and the reader gone: the writer may go on. *)
Lemma dynamic_mutex_correct_witness :
  let s := mkDmSystem (mkDynamicMutex 0 false) [Out; WaitingExclusive true] in
  dm_reachable 2 s /\ dm_exclusion s /\ dm_no_failure s /\ dm_no_lost_wakeup s.
Proof.
  intros s. assert (dm_reachable 2 s) as Hr.
  { apply (dm_next _ (mkDmSystem (mkDynamicMutex 1 false) [Reading; WaitingExclusive false])).
    - apply (dm_next _ (mkDmSystem (mkDynamicMutex 1 false) [Reading; Out])).
      + apply (dm_next _ (mkDmSystem dm_create [Out; Out])); [apply dm_start|].
        apply (step_lock_shared dm_create [Out; Out] 0%nat Out true (mkDynamicMutex 1 false)); [done|by left|done].
      + apply (step_lock_exclusive (mkDynamicMutex 1 false) [Reading; Out] 1%nat Out false (mkDynamicMutex 1 false)); [done|by left|done].
    - apply (step_unlock_shared (mkDynamicMutex 1 false) [Reading; WaitingExclusive false] 0%nat true (mkDynamicMutex 0 false)); done. }
  split; [exact Hr|]. apply (dynamic_mutex_correct 2); [by vm_compute|exact Hr].
Defined.
