(* ===== verification/Locks.v ===== *)
(** * Locks

    [LockableObject] ([mt_lockable_object.h], [mt_lockable_object.cc]), the lock word
    in every hash object, and [QuickEvent] ([mt_quick_event.h],
    [mt_quick_event.cc]), the futex on which a thread waits for it. The functions
    are cut at their atomic operations; [lo_step] runs the next operation of one
    thread, so that a list of (thread, action) pairs is an interleaving. Operations
    are taken to be sequentially consistent. *)

From S2P Require Import Prelude Protocol HashObject Mutexes.

(** [qe_futex] *)
Definition QE_IDLE : Z := 0.
Definition QE_TRIGGERED : Z := 1.

(** Where a thread is:
    - [LockTry]: in [lock], before [fetch_or];
    - [WaitEvent], [Asleep], [WaitDone]: in [QuickEvent::wait], before [FUTEX_WAIT], in
      it, and before [qe_futex = QE_IDLE];
    - [LockGot]: in [lock], before [fetch_and];
    - [UnlockRestore]: in [unlock], after [exchange], with the mask of waiting threads;
    - [UnlockNotify], [UnlockWake]: in [QuickEvent::notify] of another thread, before
      [qe_futex = QE_TRIGGERED] and before [FUTEX_WAKE]. *)
Inductive lo_pc :=
| Idle
| LockTry
| WaitEvent
| Asleep
| WaitDone
| LockGot
| Holding
| UnlockRestore (state : Z)
| UnlockNotify (id : nat)
| UnlockWake (id : nat).

Record lo_thread := mkLoThread { t_pc : lo_pc; qe_futex : Z }.

Record lo_system := mkLoSystem { lo_word : Z; lo_threads : list lo_thread }.

(** What a thread does next: it is up to an idle thread whether it locks, and to the
    holder when it unlocks; all others run on; a thread asleep may also be woken
    by the system without a notification. *)
Inductive lo_action := ActLock | ActTryLock | ActUnlock | ActRun | ActSpurious.

Definition thread_mask (t : nat) : Z := Z.shiftl 1 (Z.of_nat t).

(** [for (i = 0; i < MAX_NUM_THREADS; i++) if ((state & (1ull << i)) != 0) ... break] *)
Fixpoint first_thread (fuel : nat) (i : nat) (state : Z) : option nat :=
  match fuel with
  | O => None
  | S fuel => if negb (Z.land state (thread_mask i) =? 0) then Some i else first_thread fuel (S i) state
  end.

Definition with_pc (ts : list lo_thread) (t : nat) (pc : lo_pc) : list lo_thread :=
  alter (fun th => mkLoThread pc (qe_futex th)) t ts.
Definition with_futex (ts : list lo_thread) (t : nat) (v : Z) : list lo_thread :=
  alter (fun th => mkLoThread (t_pc th) v) t ts.

(** [lo_state.fetch_or(mask)], and whether the object was locked before. *)
Definition fetch_or_locked (w mask : Z) : bool * Z := (negb (Z.land w LO_LOCKED =? 0), Z.lor w mask).

Definition lo_step (s : lo_system) (t : nat) (a : lo_action) : option lo_system :=
  let '(mkLoSystem w ts) := s in
  th ← ts !! t;
  match t_pc th, a with
  | Idle, ActLock => Some (mkLoSystem w (with_pc ts t LockTry))
  | Idle, ActTryLock =>
      let '(locked, w) := fetch_or_locked w LO_LOCKED in
      Some (mkLoSystem w (if locked then ts else with_pc ts t Holding))
  | LockTry, ActRun =>
      let '(locked, w) := fetch_or_locked w (thread_mask t + LO_LOCKED) in
      Some (mkLoSystem w (with_pc ts t (if locked then WaitEvent else LockGot)))
  | WaitEvent, ActRun =>
      Some (mkLoSystem w (with_pc ts t (if qe_futex th =? QE_IDLE then Asleep else WaitDone)))
  | Asleep, ActSpurious => Some (mkLoSystem w (with_pc ts t WaitDone))
  | WaitDone, ActRun => Some (mkLoSystem w (with_futex (with_pc ts t LockTry) t QE_IDLE))
  | LockGot, ActRun => Some (mkLoSystem (Z.land w (u64 (Z.lnot (thread_mask t)))) (with_pc ts t Holding))
  | Holding, ActUnlock =>
      let state := Z.land w (u64 (Z.lnot LO_LOCKED)) in
      Some (mkLoSystem 0 (with_pc ts t (if negb (state =? 0) then UnlockRestore state else Idle)))
  | UnlockRestore state, ActRun =>
      match first_thread (Z.to_nat MAX_NUM_THREADS) 0 state with
      | Some i => Some (mkLoSystem (Z.lor w (Z.land state (u64 (Z.lnot (thread_mask i))))) (with_pc ts t (UnlockNotify i)))
      | None => Some (mkLoSystem w (with_pc ts t Idle))
      end
  | UnlockNotify i, ActRun =>
      _ ← c3_assert (negb (Nat.eqb i t) && (Z.of_nat i <? MAX_NUM_THREADS));
      Some (mkLoSystem w (with_futex (with_pc ts t (UnlockWake i)) i QE_TRIGGERED))
  | UnlockWake i, ActRun =>
      let ts := with_pc ts t Idle in
      Some (mkLoSystem w (match ts !! i with
        | Some (mkLoThread Asleep _) => with_pc ts i WaitDone
        | _ => ts
        end))
  | _, _ => None
  end.

Fixpoint lo_run (s : lo_system) (tr : list (nat * lo_action)) : option lo_system :=
  match tr with
  | [] => Some s
  | (t, a) :: tr => s ← lo_step s t a; lo_run s tr
  end.

(** [n] threads and an unlocked object *)
Definition lo_create (n : nat) : lo_system := mkLoSystem 0 (replicate n (mkLoThread Idle QE_IDLE)).

Definition owns (th : lo_thread) : bool := match t_pc th with LockGot | Holding => true | _ => false end.

(** ** Bits of the lock word *)

Lemma testbit_mask t n : 0 <= n -> Z.testbit (thread_mask t) n = bool_decide (n = Z.of_nat t).
Proof.
  intros Hn. unfold thread_mask. rewrite Z.shiftl_1_l, Z.pow2_bits_eqb by lia.
  destruct (Z.of_nat t =? n) eqn:E; zbool; [by rewrite bool_decide_true|by rewrite bool_decide_false].
Qed.

Lemma land_mask w t : (Z.land w (thread_mask t) =? 0) = negb (Z.testbit w (Z.of_nat t)).
Proof.
  destruct (Z.testbit w (Z.of_nat t)) eqn:E; cbn.
  - apply Z.eqb_neq. intros H. apply (f_equal (fun z => Z.testbit z (Z.of_nat t))) in H.
    rewrite Z.land_spec, testbit_mask, E, bool_decide_true, Z.bits_0 in H by lia. done.
  - apply Z.eqb_eq, Z.bits_inj'. intros n Hn. rewrite Z.land_spec, testbit_mask, Z.bits_0 by lia.
    destruct (decide (n = Z.of_nat t)) as [->|]; [by rewrite E|by rewrite bool_decide_false, andb_false_r].
Qed.

Lemma LO_LOCKED_mask : LO_LOCKED = thread_mask 63.
Proof. reflexivity. Qed.

Lemma testbit_cleared w t n : 0 <= n < 64 ->
  Z.testbit (Z.land w (u64 (Z.lnot (thread_mask t)))) n = Z.testbit w n && bool_decide (n <> Z.of_nat t).
Proof.
  intros Hn. unfold u64. rewrite Z.land_spec, Z.mod_pow2_bits_low, Z.lnot_spec, testbit_mask by lia. f_equal.
  case_bool_decide as H1; case_bool_decide as H2; done || (exfalso; tauto).
Qed.

Lemma testbit_locking t n : (t < 63)%nat -> 0 <= n ->
  Z.testbit (thread_mask t + LO_LOCKED) n = bool_decide (n = Z.of_nat t) || bool_decide (n = 63).
Proof.
  intros Ht Hn. rewrite LO_LOCKED_mask.
  assert (Z.land (thread_mask t) (thread_mask 63) = 0) as Hd.
  { apply Z.eqb_eq. rewrite land_mask, testbit_mask by lia. by rewrite bool_decide_false by lia. }
  rewrite Z.add_nocarry_lxor, Z.lxor_lor, Z.lor_spec by done. by rewrite !testbit_mask by lia.
Qed.

Lemma first_thread_spec fuel : forall i state j, first_thread fuel i state = Some j ->
  Z.testbit state (Z.of_nat j) = true /\ (i <= j < i + fuel)%nat.
Proof.
  induction fuel as [|fuel IH]; intros i state j H; cbn in H; [done|].
  rewrite land_mask in H. destruct (Z.testbit state (Z.of_nat i)) eqn:E; cbn in H.
  - injection H as <-. split; [done|lia].
  - apply IH in H as [? ?]. split; [done|lia].
Qed.

Lemma first_thread_none fuel : forall i state, first_thread fuel i state = None ->
  forall j, (i <= j < i + fuel)%nat -> Z.testbit state (Z.of_nat j) = false.
Proof.
  induction fuel as [|fuel IH]; intros i state H j Hj; cbn in H; [lia|].
  rewrite land_mask in H. destruct (Z.testbit state (Z.of_nat i)) eqn:E; cbn in H; [done|].
  destruct (decide (i = j)) as [<-|]; [done|]. eapply IH; [done|lia].
Qed.

(** ** Threads *)

Lemma alter_is_insert {A} (f : A -> A) (l : list A) i x : l !! i = Some x -> alter f i l = <[i := f x]> l.
Proof.
  intros Hi. apply list_eq. intros j. destruct (decide (i = j)) as [<-|Hne].
  - rewrite list_lookup_alter_eq, Hi, list_lookup_insert_eq; [done|by eapply lookup_lt_Some].
  - by rewrite list_lookup_alter_ne, list_lookup_insert_ne.
Qed.

Lemma with_pc_lookup ts t th pc a : ts !! t = Some th ->
  with_pc ts t pc !! a = if decide (a = t) then Some (mkLoThread pc (qe_futex th)) else ts !! a.
Proof.
  intros Ht. unfold with_pc. destruct (decide (a = t)) as [->|Hne].
  - by rewrite list_lookup_alter_eq, Ht.
  - by rewrite list_lookup_alter_ne.
Qed.

Lemma with_pc_tally p ts t th pc : ts !! t = Some th ->
  tally p (with_pc ts t pc) = tally p ts - Z.b2z (p th) + Z.b2z (p (mkLoThread pc (qe_futex th))).
Proof. intros Ht. unfold with_pc. rewrite (alter_is_insert _ _ _ _ Ht). by apply tally_insert. Qed.

Lemma with_futex_owns ts t v : tally owns (with_futex ts t v) = tally owns ts.
Proof.
  unfold with_futex. destruct (ts !! t) as [th|] eqn:E.
  - rewrite (alter_is_insert _ _ _ _ E), (tally_insert _ _ _ _ _ E). unfold owns. cbn. lia.
  - f_equal. apply list_eq. intros i. destruct (decide (t = i)) as [<-|]; [by rewrite list_lookup_alter_eq, E|by rewrite list_lookup_alter_ne].
Qed.

Lemma with_futex_lookup ts t v a :
  with_futex ts t v !! a = if decide (a = t) then (fun th => mkLoThread (t_pc th) v) <$> ts !! a else ts !! a.
Proof.
  unfold with_futex. destruct (decide (a = t)) as [->|Hne]; [by rewrite list_lookup_alter_eq|by rewrite list_lookup_alter_ne].
Qed.

(** ** Mutual exclusion *)

(** The high bit of the word is set while, and only while, one thread owns the object;
    the masks that unlocking threads carry do not contain it. *)
Record lo_inv (n : nat) (s : lo_system) : Prop := mkLoInv {
  lo_length : length (lo_threads s) = n;
  lo_owner : Z.b2z (Z.testbit (lo_word s) 63) = tally owns (lo_threads s);
  lo_masks : forall (t : nat) th state, lo_threads s !! t = Some th -> t_pc th = UnlockRestore state -> Z.testbit state 63 = false;
}.

(** One thread changes its place and the word. *)
Lemma lo_inv_change n w ts t th pc w' :
  lo_inv n (mkLoSystem w ts) -> ts !! t = Some th ->
  Z.b2z (Z.testbit w' 63) = Z.b2z (Z.testbit w 63) - Z.b2z (owns th) + Z.b2z (owns (mkLoThread pc 0)) ->
  (forall state, pc = UnlockRestore state -> Z.testbit state 63 = false) ->
  lo_inv n (mkLoSystem w' (with_pc ts t pc)).
Proof.
  intros [Hn Ho Hm] Ht Hw Hpc. cbn [lo_word lo_threads] in *. constructor; cbn [lo_word lo_threads].
  - unfold with_pc. by rewrite length_alter.
  - by rewrite (with_pc_tally _ _ _ th), Hw, Ho.
  - intros u thu state Hu Hs. rewrite (with_pc_lookup _ _ th) in Hu by done. destruct (decide (u = t)); [|by eapply Hm].
    injection Hu as <-. by apply Hpc.
Qed.

Lemma lo_inv_futex n w ts t v : lo_inv n (mkLoSystem w ts) -> lo_inv n (mkLoSystem w (with_futex ts t v)).
Proof.
  intros [Hn Ho Hm]. cbn [lo_word lo_threads] in *. constructor; cbn [lo_word lo_threads].
  - unfold with_futex. by rewrite length_alter.
  - by rewrite with_futex_owns.
  - intros u thu state Hu Hs. rewrite with_futex_lookup in Hu. destruct (decide (u = t)); [|by eapply Hm].
    destruct (ts !! u) as [thu'|] eqn:E; [|done]. cbn in Hu. injection Hu as <-. by eapply Hm.
Qed.

(** An owner excludes other owners. *)
Lemma lo_inv_owner n w ts t th : lo_inv n (mkLoSystem w ts) -> ts !! t = Some th -> owns th = true -> Z.testbit w 63 = true.
Proof.
  intros [_ Ho _] Ht He. cbn [lo_word lo_threads] in *. pose proof (tally_lookup owns ts t th Ht) as Hl. rewrite He, <- Ho in Hl.
  by destruct (Z.testbit w 63).
Qed.

Lemma locked_bit w : negb (Z.land w LO_LOCKED =? 0) = Z.testbit w 63.
Proof. rewrite LO_LOCKED_mask, land_mask. by rewrite negb_involutive. Qed.

Lemma lo_step_inv n s t a s' : (n < 63)%nat -> lo_inv n s -> lo_step s t a = Some s' -> lo_inv n s'.
Proof.
  intros Hn Hinv Hs. destruct s as [w ts]. cbn in Hs. destruct (ts !! t) as [th|] eqn:Ht; [|done]. cbn [mbind option_bind] in Hs.
  assert (t < 63)%nat as Ht63 by (pose proof (lookup_lt_Some _ _ _ Ht); rewrite (lo_length _ _ Hinv : length ts = n) in *; lia).
  assert (owns th = true -> Z.testbit w 63 = true) as Hown by (by eapply lo_inv_owner).
  destruct th as [pc v]. destruct pc, a; cbn [t_pc qe_futex] in Hs; try done; unfold fetch_or_locked in Hs; rewrite ?locked_bit in Hs;
    try (apply (inj Some) in Hs; subst s').
  - eapply lo_inv_change; [done..| |done]. cbn; lia.
  - destruct (Z.testbit w 63) eqn:E.
    + destruct Hinv as [H1 H2 H3]. constructor; [exact H1| |exact H3]. cbn [lo_word lo_threads] in *. rewrite <- H2. f_equal.
      rewrite Z.lor_spec, E. done.
    + eapply lo_inv_change; [done..| |done]. rewrite Z.lor_spec, E. done.
  - eapply lo_inv_change; [done..| |by destruct (Z.testbit w 63)]. rewrite Z.lor_spec, testbit_locking by lia.
    rewrite (bool_decide_true (63 = 63)), !orb_true_r by done. by destruct (Z.testbit w 63).
  - eapply lo_inv_change; [done..| |by destruct (v =? QE_IDLE)]. destruct (v =? QE_IDLE); cbn; lia.
  - eapply lo_inv_change; [done..| |done]. cbn; lia.
  - apply lo_inv_futex. eapply lo_inv_change; [done..| |done]. cbn; lia.
  - eapply lo_inv_change; [done..| |done]. rewrite testbit_cleared, bool_decide_true, andb_true_r by lia. cbn. lia.
  - eapply lo_inv_change; [done..| |].
    + rewrite Hown by done. destruct (negb _); cbn; lia.
    + intros state Hst. destruct (negb _); [|done]. injection Hst as <-. rewrite LO_LOCKED_mask, testbit_cleared by lia.
      rewrite bool_decide_false, andb_false_r by (cbn; tauto). done.
  - pose proof (lo_masks _ _ Hinv t _ state Ht eq_refl) as Hb. destruct (first_thread _ _ _) as [i|] eqn:E; apply (inj Some) in Hs; subst s'.
    + eapply lo_inv_change; [done..| |done]. rewrite Z.lor_spec, testbit_cleared, Hb by lia. cbn. rewrite orb_false_r. lia.
    + eapply lo_inv_change; [done..| |done]. cbn. lia.
  - destruct (c3_assert _); [|done]. cbn [mbind option_bind] in Hs. apply (inj Some) in Hs; subst s'. apply lo_inv_futex. eapply lo_inv_change; [done..| |done]. cbn. lia.
  - assert (lo_inv n (mkLoSystem w (with_pc ts t Idle))) as Hinv1 by (eapply lo_inv_change; [done..| |done]; cbn; lia).
    destruct (with_pc ts t Idle !! id) as [[[] ?]|] eqn:E; try done. eapply lo_inv_change; [done..| |done]. cbn. lia.
Qed.

Lemma lo_create_inv n : lo_inv n (lo_create n).
Proof.
  constructor; cbn [lo_create lo_word lo_threads].
  - apply length_replicate.
  - by rewrite tally_replicate.
  - intros t th state [-> _]%lookup_replicate. done.
Qed.

Lemma lo_run_inv n tr : forall s s', (n < 63)%nat -> lo_inv n s -> lo_run s tr = Some s' -> lo_inv n s'.
Proof.
  induction tr as [|[t a] tr IH]; intros s s' Hn Hinv Hr; cbn in Hr; [by injection Hr as <-|].
  destruct (lo_step s t a) as [s1|] eqn:E; [|done]. cbn in Hr. eapply IH; [done| |done]. by eapply lo_step_inv.
Qed.

(** ** Properties *)

(** Thread [t] owns the object: it has returned from [lock] or [try_lock] with success, or is about to. *)
Definition is_owner (s : lo_system) (t : nat) : Prop := exists th, lo_threads s !! t = Some th /\ owns th = true.

(** (C18) The lock of a hash object is exclusive: whatever threads lock, try to lock and unlock
    it, in whatever interleaving of their atomic operations and with spurious
    wake-ups, at most one owns it; the word says so; an attempt to lock made while
    it is owned does not succeed, and one made while it is free does. *)
Theorem lock_mutual_exclusion n tr s :
  Z.of_nat n <= MAX_NUM_THREADS -> lo_run (lo_create n) tr = Some s ->
  (forall t u, is_owner s t -> is_owner s u -> t = u)
  /\ (Z.testbit (lo_word s) 63 = true <-> exists t, is_owner s t)
  /\ forall t th a s', lo_threads s !! t = Some th -> (t_pc th = LockTry /\ a = ActRun) \/ (t_pc th = Idle /\ a = ActTryLock) ->
       lo_step s t a = Some s' -> (is_owner s' t <-> ~ exists u, is_owner s u).
Proof.
  intros Hn Hr. assert (n < 63)%nat as Hn63 by (unfold MAX_NUM_THREADS, TI_FIRST_CONNECTION_THREAD, MAX_NUM_CONNECTION_THREADS in Hn; lia).
  pose proof (lo_run_inv n tr _ _ Hn63 (lo_create_inv n) Hr) as Hinv.
  assert (Z.testbit (lo_word s) 63 = true <-> exists t, is_owner s t) as Hbit.
  { split.
    - intros Hb. destruct (tally_exists owns (lo_threads s)) as (t & th & Ht & Ho); [|by exists t, th].
      rewrite <- (lo_owner _ _ Hinv), Hb. cbn. lia.
    - intros (t & th & Ht & Ho). destruct s. by eapply lo_inv_owner. }
  split_and!; [|done|].
  - intros t u (th & Ht & Ho) (thu & Hu & Hou). destruct (decide (t = u)) as [|Hne]; [done|].
    pose proof (tally_two owns _ t u _ _ Ht Hu Hne) as Hl. rewrite <- (lo_owner _ _ Hinv), Ho, Hou in Hl.
    pose proof (b2z_range (Z.testbit (lo_word s) 63)). cbn [Z.b2z] in Hl. lia.
  - intros t th a s' Ht Ha Hs. rewrite <- Hbit. destruct s as [w ts]. cbn [lo_word lo_threads] in *.
    cbn in Hs. rewrite Ht in Hs. cbn [mbind option_bind] in Hs. unfold is_owner. destruct Ha as [[Hpc ->]|[Hpc ->]];
      rewrite Hpc in Hs; unfold fetch_or_locked in Hs; rewrite locked_bit in Hs; apply (inj Some) in Hs; subst s'; cbn [lo_threads];
      destruct (Z.testbit w 63) eqn:E; rewrite ?(with_pc_lookup _ _ th), ?decide_True by done.
    + split; [by intros (? & [= <-] & ?)|tauto].
    + split; [by intros _|]. intros _. by eexists.
    + split; [|tauto]. intros (th' & Ht' & Ho). rewrite Ht in Ht'. injection Ht' as <-.
      unfold owns in Ho. by rewrite Hpc in Ho.
    + split; [by intros _|]. intros _. by eexists.
Qed.

(** Thread 0 holds the object; thread 1 tries in vain and waits. *)
Lemma lock_mutual_exclusion_witness :
  exists s, lo_run (lo_create 2) [(0, ActLock); (0, ActRun); (0, ActRun); (1, ActLock); (1, ActRun)]%nat = Some s
    /\ is_owner s 0 /\ forall t, is_owner s t -> t = 0%nat.
Proof.
  destruct (lo_run (lo_create 2) [(0, ActLock); (0, ActRun); (0, ActRun); (1, ActLock); (1, ActRun)]%nat) as [s|] eqn:E;
    [|by vm_compute in E].
  exists s. split; [reflexivity|].
  destruct (lock_mutual_exclusion 2 [(0, ActLock); (0, ActRun); (0, ActRun); (1, ActLock); (1, ActRun)]%nat s) as (Hu & _);
    [by vm_compute|exact E|].
  assert (is_owner s 0) as H0 by (vm_compute in E; injection E as <-; eexists; split; reflexivity).
  split; [exact H0|]. intros t Ht. exact (Hu t 0%nat Ht H0).
Defined.

(** ** A lost wake-up *)

(** Nothing is under way: the object is free and every thread but [t] is outside of the
    locking code. *)
Definition quiescent_but (s : lo_system) (t : nat) : Prop :=
  Z.testbit (lo_word s) 63 = false /\ forall u th, lo_threads s !! u = Some th -> u <> t -> t_pc th = Idle.

(** [notify] stores to the futex and then wakes: thread 0 is delayed between the two, so
    that its wake-up reaches thread 1 in a later wait. Thread 1 then takes the
    object after thread 2 has read the mask {1, 3} and before thread 2 has put 3 back,
    and leaves without seeing anyone; the one notification of thread 2 goes to thread 1. *)
Definition lost_wakeup_trace : list (nat * lo_action) :=
  [(0, ActLock); (0, ActRun); (0, ActRun); (1, ActLock); (1, ActRun);
   (0, ActUnlock); (0, ActRun); (0, ActRun);
   (1, ActRun); (1, ActRun); (1, ActRun); (1, ActRun); (1, ActUnlock);
   (2, ActLock); (2, ActRun); (2, ActRun);
   (1, ActLock); (1, ActRun); (1, ActRun); (3, ActLock); (3, ActRun); (3, ActRun);
   (2, ActUnlock); (0, ActRun); (1, ActRun); (1, ActRun); (1, ActRun); (1, ActUnlock);
   (2, ActRun); (2, ActRun); (2, ActRun)]%nat.

(** The same delay, but the late wake-up reaches a thread whose bit is put back into the
    mask while it owns the object. *)
Definition self_trigger_trace : list (nat * lo_action) :=
  [(0, ActLock); (0, ActRun); (0, ActRun); (3, ActLock); (3, ActRun);
   (0, ActUnlock); (0, ActRun); (0, ActRun);
   (3, ActRun); (3, ActRun); (3, ActRun); (3, ActRun); (3, ActUnlock);
   (2, ActLock); (2, ActRun); (2, ActRun);
   (1, ActLock); (1, ActRun); (1, ActRun); (3, ActLock); (3, ActRun); (3, ActRun);
   (2, ActUnlock); (0, ActRun); (3, ActRun); (3, ActRun); (3, ActRun);
   (2, ActRun); (3, ActUnlock); (3, ActRun)]%nat.

(** (C19) The locks can lose a wake-up, without any spurious wake-up by the system: there is an
    interleaving of four threads after which a thread sleeps on a free object while
    no other thread is in the locking code, and the event of a thread that waits
    for nothing stays triggered; and another after which the assertion of
    [trigger_event] that a thread does not notify itself fails. *)
Theorem lock_loses_wakeup :
  (exists s th, lo_run (lo_create 4) lost_wakeup_trace = Some s /\ quiescent_but s 3
    /\ lo_threads s !! 3%nat = Some th /\ t_pc th = Asleep
    /\ exists th1, lo_threads s !! 1%nat = Some th1 /\ t_pc th1 = Idle /\ qe_futex th1 = QE_TRIGGERED)
  /\ (forall t a, (t, a) ∈ lost_wakeup_trace ++ self_trigger_trace -> a <> ActSpurious)
  /\ exists s th, lo_run (lo_create 4) self_trigger_trace = Some s
       /\ lo_threads s !! 3%nat = Some th /\ t_pc th = UnlockNotify 3 /\ lo_step s 3 ActRun = None.
Proof.
  split_and!.
  - destruct (lo_run (lo_create 4) lost_wakeup_trace) as [s|] eqn:E; [|by vm_compute in E].
    vm_compute in E. injection E as <-. eexists _, _. split; [done|]. split_and!; try done; [|by eexists].
    split; [done|]. intros [|[|[|[|u]]]] th Hu Hne; cbn in Hu; try (injection Hu as <-); done.
  - intros t a Ha ->. assert (forallb (fun x : nat * lo_action => match snd x with ActSpurious => false | _ => true end)
      (lost_wakeup_trace ++ self_trigger_trace) = true) as Hall by reflexivity.
    rewrite forallb_forall in Hall. apply list_elem_of_In in Ha. by specialize (Hall _ Ha).
  - destruct (lo_run (lo_create 4) self_trigger_trace) as [s|] eqn:E; [|by vm_compute in E].
    vm_compute in E. injection E as <-. eexists _, _. split_and!; done.
Qed.
