(* ===== verification/Semaphore.v ===== *)
(** * Semaphore

    [QuickSemaphore] ([mt_quick_semaphore.h], [mt_quick_semaphore.cc]): the number of
    readers of an object's buffer, and the writer that waits until there are none,
    on the same kind of event as in [Locks]. A writer thread owns the object (so
    that nobody registers) while it waits; readers leave at any time. *)

From S2P Require Import Prelude Protocol ChunkBuilder HashObject Mutexes Locks.

Definition WRITER_THREAD_INDEX_MASK : Z := 0xFF000000.

(** ** Operations on the word *)

(** [register_reader]: the new state. *)
Definition qs_register_reader (state : Z) : option Z :=
  _ ← c3_assert (negb (Z.land state READERS_COUNT_MASK =? READERS_COUNT_MASK)
                 && (Z.land state WRITER_THREAD_INDEX_MASK =? 0));
  Some (u32 (state + 1)).

(** [unregister_reader]: the new state, and the thread to notify. *)
Definition qs_unregister_reader (state : Z) : option (Z * option Z) :=
  let num_readers := Z.land state READERS_COUNT_MASK in
  _ ← c3_assert (negb (num_readers =? 0) && (num_readers <=? READERS_COUNT_MASK));
  if (num_readers =? 1) && negb (Z.land state WRITER_THREAD_INDEX_MASK =? 0) then
    let waiting_thread_index := u32 (Z.shiftr state 24 - 1) in
    _ ← c3_assert (waiting_thread_index <? MAX_NUM_THREADS);
    Some (u32 (state - 1), Some waiting_thread_index)
  else Some (u32 (state - 1), None).

(** [wait_until_no_readers] of thread [id] up to its wait: the new state, and whether it
    waits. *)
Definition qs_start_waiting (id state : Z) : option (Z * bool) :=
  let waiting_thread_mask := u32 (Z.shiftl (id + 1) 24) in
  _ ← c3_assert (Z.land state WRITER_THREAD_INDEX_MASK =? 0);
  Some (Z.lor state waiting_thread_mask, negb (Z.land state READERS_COUNT_MASK =? 0)).

(** ** Threads *)

(** The writer: outside; before and in [FUTEX_WAIT]; before [qe_futex = QE_IDLE]; before
    [fs_state.store(0)]. *)
Inductive qs_pc := QsOut | QsWait | QsAsleep | QsWoken | QsStore.

(** The semaphore, the writer and its event, the readers attached, and how many readers
    are in [notify] of the writer's event, before [qe_futex = QE_TRIGGERED] and before
    [FUTEX_WAKE]. *)
Record qs_system := mkQsSystem {
  fs_state : Z;
  qs_writer : qs_pc;
  qs_event : Z;
  qs_readers : Z;
  qs_before_store : nat;
  qs_before_wake : nat;
}.

Inductive qs_action :=
| QRegister
| QUnregister
| QNotify
| QWake
| QStart
| QRun.

(** The next operation of a reader or of the writer, which is thread [id]. *)
Definition qs_step (id : Z) (s : qs_system) (a : qs_action) : option qs_system :=
  let '(mkQsSystem state pc ev r bs bw) := s in
  match a, pc with
  | QRegister, QsOut => state ← qs_register_reader state; Some (mkQsSystem state pc ev (r + 1) bs bw)
  | QUnregister, _ =>
      if 0 <? r then
        '(state, target) ← qs_unregister_reader state;
        Some (mkQsSystem state pc ev (r - 1)
                (match target with Some t => if t =? id then S bs else bs | None => bs end) bw)
      else None
  | QNotify, _ =>
      match bs with S bs => Some (mkQsSystem state pc QE_TRIGGERED r bs (S bw)) | O => None end
  | QWake, _ =>
      match bw with
      | S bw => Some (mkQsSystem state (match pc with QsAsleep => QsWoken | _ => pc end) ev r bs bw)
      | O => None
      end
  | QStart, QsOut =>
      '(state, waits) ← qs_start_waiting id state;
      Some (mkQsSystem state (if (waits : bool) then QsWait else QsStore) ev r bs bw)
  | QRun, QsWait => Some (mkQsSystem state (if ev =? QE_IDLE then QsAsleep else QsWoken) ev r bs bw)
  | QRun, QsWoken => Some (mkQsSystem state QsStore QE_IDLE r bs bw)
  | QRun, QsStore => Some (mkQsSystem 0 QsOut ev r bs bw)
  | _, _ => None
  end.

Fixpoint qs_run (id : Z) (s : qs_system) (tr : list qs_action) : option qs_system :=
  match tr with
  | [] => Some s
  | a :: tr => s ← qs_step id s a; qs_run id s tr
  end.

Definition qs_create : qs_system := mkQsSystem 0 QsOut QE_IDLE 0 0 0.

(** An interleaving in which every notification wakes at once. *)
Inductive prompt_action := PRegister | PUnregister | PNotify | PStart | PRun.
Definition expand (a : prompt_action) : list qs_action :=
  match a with
  | PRegister => [QRegister]
  | PUnregister => [QUnregister]
  | PNotify => [QNotify; QWake]
  | PStart => [QStart]
  | PRun => [QRun]
  end.

Lemma qs_run_app id s tr tr' : qs_run id s (tr ++ tr') = (s ← qs_run id s tr; qs_run id s tr').
Proof. revert s. induction tr as [|a tr IH]; intros s; cbn; [done|]. destruct (qs_step id s a); [apply IH|done]. Qed.

(** ** The fields of the word *)

Definition word (r k : Z) : Z := r + k * 2 ^ 24.

Lemma word_readers r k : 0 <= r < 2 ^ 24 -> Z.land (word r k) READERS_COUNT_MASK = r.
Proof.
  intros Hr. change READERS_COUNT_MASK with (Z.ones 24). rewrite Z.land_ones by lia. unfold word.
  rewrite Z_mod_plus_full. by apply Z.mod_small.
Qed.

Lemma word_writer r k : 0 <= r < 2 ^ 24 -> 0 <= k < 2 ^ 8 -> (Z.land (word r k) WRITER_THREAD_INDEX_MASK =? 0) = (k =? 0).
Proof.
  intros Hr Hk. unfold WRITER_THREAD_INDEX_MASK. rewrite mask_triple by (unfold is_u32, word; lia). unfold word.
  destruct (_ <? _) eqn:E, (k =? 0) eqn:E'; zbool; try done; lia.
Qed.

Lemma word_index r k : 0 <= r < 2 ^ 24 -> Z.shiftr (word r k) 24 = k.
Proof. intros Hr. rewrite Z.shiftr_div_pow2 by lia. unfold word. rewrite Z_div_plus_full by lia. rewrite Z.div_small; lia. Qed.

Lemma word_lor r k : 0 <= r < 2 ^ 24 -> 0 <= k < 2 ^ 8 -> Z.lor (word r 0) (u32 (Z.shiftl k 24)) = word r k.
Proof.
  intros Hr Hk. unfold word. rewrite Z.mul_0_l, Z.add_0_r, Z.shiftl_mul_pow2 by lia.
  rewrite u32_small by (unfold is_u32; lia). symmetry.
  assert (Z.land r (k * 2 ^ 24) = 0) as Hd.
  { rewrite <- Z.shiftl_mul_pow2 by lia. apply Z.bits_inj'. intros n Hn. rewrite Z.land_spec, Z.bits_0.
    destruct (decide (n < 24)) as [Hlt|Hge].
    - rewrite (Z.shiftl_spec_low k) by lia. apply andb_false_r.
    - rewrite Z.bits_above_log2; [done|lia|]. destruct (decide (r = 0)) as [->|Hne]; [cbn; lia|].
      assert (Z.log2 r < 24) by (apply Z.log2_lt_pow2; lia). lia. }
  by rewrite Z.add_nocarry_lxor, Z.lxor_lor.
Qed.

(** ** The invariant *)

(** What holds as long as notifications wake at once. *)
Definition qs_inv (id : Z) (s : qs_system) : Prop :=
  let '(mkQsSystem state pc ev r bs bw) := s in
  0 <= r < 2 ^ 24 /\ state = word r (match pc with QsOut => 0 | _ => id + 1 end) /\ bw = O
  /\ match pc with
     | QsOut => ev = QE_IDLE /\ bs = O
     | QsWait => (0 < r /\ ev = QE_IDLE /\ bs = O)
         \/ (r = 0 /\ ((bs = 1%nat /\ ev = QE_IDLE) \/ (bs = O /\ ev = QE_TRIGGERED)))
     | QsAsleep => ev = QE_IDLE /\ ((0 < r /\ bs = O) \/ (r = 0 /\ bs = 1%nat))
     | QsWoken => r = 0 /\ bs = O
     | QsStore => r = 0 /\ bs = O /\ ev = QE_IDLE
     end.

Lemma word_pred r k : word r k - 1 = word (r - 1) k.
Proof. unfold word. lia. Qed.

Lemma word_u32 r k : 0 <= r < 2 ^ 24 -> 0 <= k < 2 ^ 8 -> u32 (word r k) = word r k.
Proof. intros. apply u32_small. unfold is_u32, word. lia. Qed.

Lemma unregister_ok id r (waiting : bool) : 0 <= id < MAX_NUM_THREADS -> 0 < r < 2 ^ 24 ->
  let k := if waiting then id + 1 else 0 in
  qs_unregister_reader (word r k)
  = Some (word (r - 1) k, if waiting && (r =? 1) then Some id else None).
Proof.
  intros Hid Hr k. assert (0 <= k < 2 ^ 8) as Hk.
  { unfold k, MAX_NUM_THREADS, TI_FIRST_CONNECTION_THREAD, MAX_NUM_CONNECTION_THREADS in *. destruct waiting; lia. }
  unfold qs_unregister_reader. rewrite word_readers, word_writer, word_index, word_pred, word_u32 by lia.
  destruct (r =? 0) eqn:E; zbool; [lia|]. change READERS_COUNT_MASK with (2 ^ 24 - 1).
  destruct (r <=? 2 ^ 24 - 1) eqn:E1; zbool; [|lia]. cbn [negb andb c3_assert mbind option_bind].
  unfold k. destruct waiting; cbn [andb].
  - destruct (id + 1 =? 0) eqn:E2; zbool; [lia|]. destruct (r =? 1); [|done]. cbn [negb andb].
    replace (id + 1 - 1) with id by lia.
    assert (u32 id = id) as -> by (apply u32_small; unfold is_u32, MAX_NUM_THREADS, TI_FIRST_CONNECTION_THREAD, MAX_NUM_CONNECTION_THREADS in *; lia).
    destruct (id <? MAX_NUM_THREADS) eqn:E3; zbool; [done|lia].
  - by rewrite andb_false_r.
Qed.

(** The invariant down to what it says of the writer. *)
Ltac qs_split := split; [lia|]; split; [try done|]; split; [try done|].

Lemma prompt_step_inv id s a s' :
  0 <= id < MAX_NUM_THREADS -> qs_inv id s -> qs_run id s (expand a) = Some s' -> qs_inv id s'.
Proof.
  intros Hid Hinv Hs. destruct s as [state pc ev r bs bw]. destruct Hinv as (Hr & -> & -> & Hpc).
  assert (0 <= id + 1 < 2 ^ 8) as Hk by (unfold MAX_NUM_THREADS, TI_FIRST_CONNECTION_THREAD, MAX_NUM_CONNECTION_THREADS in *; lia).
  destruct a; cbn [expand qs_run qs_step] in Hs.
  - destruct pc; try done. unfold qs_register_reader in Hs. rewrite word_readers, word_writer in Hs by lia.
    destruct (r =? READERS_COUNT_MASK) eqn:E; zbool; [done|]. cbn in Hs. injection Hs as <-.
    change READERS_COUNT_MASK with (2 ^ 24 - 1) in E. split; [lia|]. split; [|done].
    replace (word r 0 + 1) with (word (r + 1) 0) by (unfold word; lia). by apply word_u32; lia.
  - destruct (0 <? r) eqn:E; zbool; [|by destruct pc].
    assert (qs_unregister_reader (word r (match pc with QsOut => 0 | _ => id + 1 end))
      = Some (word (r - 1) (match pc with QsOut => 0 | _ => id + 1 end),
              if match pc with QsOut => false | _ => true end && (r =? 1) then Some id else None)) as Hu.
    { pose proof (unregister_ok id r (match pc with QsOut => false | _ => true end) Hid ltac:(lia)) as Hu. cbn in Hu. by destruct pc. }
    destruct pc; cbn [expand qs_run qs_step] in Hs; rewrite Hu in Hs; cbn [mbind option_bind andb] in Hs;
      destruct (r =? 1) eqn:E1; zbool; rewrite ?Z.eqb_refl in Hs; apply (inj Some) in Hs; subst s';
      qs_split; intuition lia.
  - destruct bs as [|bs]; [done|]. cbn in Hs. apply (inj Some) in Hs; subst s'.
    destruct pc; qs_split; unfold QE_IDLE, QE_TRIGGERED in *; intuition lia.
  - destruct pc; try done. unfold qs_start_waiting in Hs. rewrite word_readers, word_writer, word_lor in Hs by lia.
    cbn in Hs. destruct (r =? 0) eqn:E; zbool; cbn in Hs; apply (inj Some) in Hs; subst s'; qs_split; intuition lia.
  - destruct pc; cbn in Hs; try done; apply (inj Some) in Hs; subst s'.
    + destruct (ev =? QE_IDLE) eqn:E; zbool; qs_split; unfold QE_IDLE, QE_TRIGGERED in *; intuition lia.
    + qs_split; intuition lia.
    + destruct Hpc as (-> & -> & ->). qs_split. done.
Qed.

Lemma prompt_run_inv id tr : forall s s',
  0 <= id < MAX_NUM_THREADS -> qs_inv id s -> qs_run id s (tr ≫= expand) = Some s' -> qs_inv id s'.
Proof.
  induction tr as [|a tr IH]; intros s s' Hid Hinv Hr; cbn [mbind list_bind] in Hr; [by injection Hr as <-|].
  rewrite qs_run_app in Hr. destruct (qs_run id s (expand a)) as [s1|] eqn:E; [|done]. cbn [mbind option_bind] in Hr.
  eapply IH; [done| |done]. by eapply prompt_step_inv.
Qed.

(** ** Properties *)

(** (C20) When notifications wake the writer at once, the semaphore keeps its promise in every
    interleaving of readers and writer: the word holds the exact number of readers;
    the writer goes on only when there are none; it never sleeps for ever (if it
    sleeps and nobody reads, the notification is on its way); and no assertion
    fails. *)
Theorem semaphore_prompt id tr s :
  0 <= id < MAX_NUM_THREADS -> qs_run id qs_create (tr ≫= expand) = Some s ->
  Z.land (fs_state s) READERS_COUNT_MASK = qs_readers s
  /\ (qs_writer s = QsStore -> qs_readers s = 0)
  /\ (qs_writer s = QsAsleep -> qs_readers s = 0 -> is_Some (qs_run id s (expand PNotify)))
  /\ (0 < qs_readers s -> is_Some (qs_unregister_reader (fs_state s)))
  /\ (qs_writer s = QsOut -> is_Some (qs_start_waiting id (fs_state s))).
Proof.
  intros Hid Hr. assert (qs_inv id s) as Hinv by (eapply prompt_run_inv; [done| |exact Hr]; by split).
  assert (0 <= id + 1 < 2 ^ 8) as Hk by (unfold MAX_NUM_THREADS, TI_FIRST_CONNECTION_THREAD, MAX_NUM_CONNECTION_THREADS in *; lia).
  destruct s as [state pc ev r bs bw]. destruct Hinv as (Hr' & -> & -> & Hpc). cbn [fs_state qs_readers qs_writer].
  split_and!.
  - by apply word_readers.
  - intros ->. by destruct Hpc.
  - intros -> ->. destruct Hpc as [_ [[? _]|[_ ->]]]; [lia|]. cbn. by eexists.
  - intros Hpos. pose proof (unregister_ok id r (match pc with QsOut => false | _ => true end) Hid ltac:(lia)) as Hu.
    cbn in Hu. destruct pc; rewrite Hu; by eexists.
  - intros ->. unfold qs_start_waiting. rewrite word_writer by lia. cbn. by eexists.
Qed.

(** Two readers; the writer waits for both. *)
Lemma semaphore_prompt_witness :
  exists s, qs_run 14 qs_create ([PRegister; PRegister; PStart; PRun; PUnregister; PUnregister; PNotify; PRun] ≫= expand) = Some s
    /\ qs_writer s = QsStore /\ qs_readers s = 0.
Proof.
  destruct (qs_run 14 qs_create ([PRegister; PRegister; PStart; PRun; PUnregister; PUnregister; PNotify; PRun] ≫= expand)) as [s|] eqn:E;
    [|by vm_compute in E].
  exists s. split; [reflexivity|].
  assert (qs_writer s = QsStore) as Hw by (vm_compute in E; injection E as <-; reflexivity).
  split; [exact Hw|].
  destruct (semaphore_prompt 14 [PRegister; PRegister; PStart; PRun; PUnregister; PUnregister; PNotify; PRun] s) as (_ & H & _);
    [by vm_compute|exact E|exact (H Hw)].
Defined.

(** The reader that notified first wakes the writer in its next wait. *)
Definition late_wake_trace : list qs_action :=
  [QRegister; QStart; QUnregister; QNotify; QRun; QRun; QRun; QRegister; QStart; QRun; QWake; QRun; QRun].

(** (C21) With a reader delayed between its store to the event and its wake-up call, the writer
    returns from its next wait although a reader is still attached, having erased
    the count of readers; when that reader leaves, the assertion on the count
    fails. *)
Theorem semaphore_late_wake id :
  0 <= id < MAX_NUM_THREADS ->
  exists s, qs_run id qs_create late_wake_trace = Some s
    /\ qs_writer s = QsOut /\ qs_readers s = 1 /\ fs_state s = 0 /\ qs_step id s QUnregister = None.
Proof.
  intros Hid. unfold MAX_NUM_THREADS, TI_FIRST_CONNECTION_THREAD, MAX_NUM_CONNECTION_THREADS in Hid.
  assert (id ∈ seqZ 0 19) as Hin by (apply elem_of_seqZ; lia).
  assert (Forall (fun id => exists s, qs_run id qs_create late_wake_trace = Some s
    /\ qs_writer s = QsOut /\ qs_readers s = 1 /\ fs_state s = 0 /\ qs_step id s QUnregister = None) (seqZ 0 19)) as Hall.
  { change (seqZ 0 19) with [0; 1; 2; 3; 4; 5; 6; 7; 8; 9; 10; 11; 12; 13; 14; 15; 16; 17; 18].
    repeat constructor; (eexists; split; [vm_compute; reflexivity|done]). }
  rewrite Forall_forall in Hall. by apply Hall.
Qed.

Lemma semaphore_late_wake_witness :
  exists s, qs_run 14 qs_create late_wake_trace = Some s /\ qs_readers s = 1 /\ fs_state s = 0.
Proof.
  destruct (semaphore_late_wake 14) as (s & Hr & _ & Hrd & Hs & _); [by vm_compute|].
  exists s. exact (conj Hr (conj Hrd Hs)).
Defined.
