(* ===== verification/SessionLock.v ===== *)
(** * SessionLock

    [SessionObject::lock_session] and [SessionObject::unlock_session]
    ([ht_objects.h], [ht_objects.cc]): the lock that a request is to hold on a
    session between reading and writing it. Both run while the calling thread owns
    the hash object; [lock_session] gives the object up while it waits, so it is cut
    there in two sections. *)

From S2P Require Import Prelude Protocol HashObject Mutexes Locks.

Inductive session_lock_result_t := SLR_SUCCESS | SLR_BROKE_LOCK | SLR_DELETED.

Record SessionObject := mkSessionObject {
  so_object : HashObject;
  so_threads : Z;
  so_request_id : Z;
}.

(** The constructor *)
Definition so_create (o : HashObject) : SessionObject := mkSessionObject o 0 0.

(** How a section ends: the function returns, or the thread waits on its timed event and
    remembers which request held the lock. *)
Inductive lock_outcome := Returned (r : session_lock_result_t) | Waiting (locking_request_id : Z).

(** [lock_session] of thread [t] up to its first wait. *)
Definition lock_session (lock_wait_time : Z) (t : nat) (request_id : Z) (so : SessionObject)
  : option (SessionObject * lock_outcome) :=
  _ ← c3_assert (is_locked (so_object so));
  if negb (request_id =? 0) then
    if negb (lock_wait_time =? 0) then
      let locking_request_id := so_request_id so in
      if negb (locking_request_id =? 0) && negb (locking_request_id =? request_id) then
        Some (mkSessionObject (so_object so) (Z.lor (so_threads so) (thread_mask t)) (so_request_id so),
              Waiting locking_request_id)
      else Some (so, Returned SLR_SUCCESS)
    else Some (so, Returned SLR_SUCCESS)
  else Some (so, Returned SLR_SUCCESS).

(** The body of its loop after a wait, the object locked again. *)
Definition lock_session_resume (t : nat) (request_id locking_request_id : Z) (so : SessionObject)
  : SessionObject * lock_outcome :=
  if negb (so_request_id so =? 0) && negb (so_request_id so =? locking_request_id) then
    (so, Waiting (so_request_id so))
  else
    let threads := Z.land (so_threads so) (u64 (Z.lnot (thread_mask t))) in
    let broke_the_lock := negb (so_request_id so =? 0) in
    if flags_are_set (so_object so) HOF_BEING_DELETED then
      (mkSessionObject (so_object so) threads 0, Returned SLR_DELETED)
    else
      (mkSessionObject (so_object so) threads request_id,
       Returned (if broke_the_lock then SLR_BROKE_LOCK else SLR_SUCCESS)).

(** [unlock_session]: also the thread whose timed event is triggered. *)
Definition unlock_session (request_id : Z) (so : SessionObject) : option (SessionObject * option nat) :=
  _ ← c3_assert (is_locked (so_object so));
  if negb (request_id =? 0) then
    if request_id =? so_request_id so then
      let woken := if negb (so_threads so =? 0) then first_thread (Z.to_nat MAX_NUM_THREADS) 0 (so_threads so) else None in
      Some (mkSessionObject (so_object so) (so_threads so) 0, woken)
    else Some (so, None)
  else Some (so, None).

(** ** Threads *)

(** A session, and the threads that wait for its lock: their id, their request, and the
    request that they know to hold the lock. *)
Record session_system := mkSessionSystem {
  ss_session : SessionObject;
  ss_waiting : list (nat * Z * Z);
}.

Inductive session_event := EvLocked (t : nat) (request_id : Z) (r : session_lock_result_t) | EvOther.

Definition waits_on (t : nat) (request_id : Z) (out : lock_outcome) (ws : list (nat * Z * Z)) : list (nat * Z * Z) :=
  match out with Waiting l => (t, request_id, l) :: ws | Returned _ => ws end.
Definition event_of (t : nat) (request_id : Z) (out : lock_outcome) : session_event :=
  match out with Waiting _ => EvOther | Returned r => EvLocked t request_id r end.

(** Any thread may lock and unlock for any request; a thread that waits runs on after its
    event or after the time-out; the hash object itself changes in any way. *)
Inductive session_step : session_system -> session_event -> session_system -> Prop :=
| step_lock_session so ws time t req so' out :
    lock_session time t req so = Some (so', out) ->
    session_step (mkSessionSystem so ws) (event_of t req out) (mkSessionSystem so' (waits_on t req out ws))
| step_resume so ws ws' t req l so' out :
    ws ≡ₚ (t, req, l) :: ws' -> is_locked (so_object so) = true ->
    lock_session_resume t req l so = (so', out) ->
    session_step (mkSessionSystem so ws) (event_of t req out) (mkSessionSystem so' (waits_on t req out ws'))
| step_unlock_session so ws req so' w :
    unlock_session req so = Some (so', w) ->
    session_step (mkSessionSystem so ws) EvOther (mkSessionSystem so' ws)
| step_object so ws o :
    session_step (mkSessionSystem so ws) EvOther (mkSessionSystem (mkSessionObject o (so_threads so) (so_request_id so)) ws).

Inductive session_trace (s : session_system) : list session_event -> session_system -> Prop :=
| session_nil : session_trace s [] s
| session_snoc tr s' e s'' : session_trace s tr s' -> session_step s' e s'' -> session_trace s (tr ++ [e]) s''.

(** ** What the waiting path does *)

Lemma testbit_set_mask w t u : Z.testbit (Z.lor w (thread_mask t)) (Z.of_nat u) = Z.testbit w (Z.of_nat u) || bool_decide (u = t).
Proof.
  rewrite Z.lor_spec, testbit_mask by lia. f_equal. repeat case_bool_decide; done || lia.
Qed.

(** The code of the waiting path, which no session gets to ([session_lock_never_held]: there is never a holder). On a session
    that a request held, another request would wait and be recorded; once the
    holder unlocks the session, which wakes a recorded thread, a thread that waits
    gets the lock with success; if the holder does not unlock before the time is
    up, its lock is broken; if in the meantime the lock has gone to a third request
    the wait goes on; if the record has been deleted, the lock is dropped. *)
Lemma session_lock_protocol time t req holder so :
  is_locked (so_object so) = true -> so_request_id so = holder ->
  holder <> 0 -> req <> 0 -> req <> holder -> time <> 0 -> (Z.of_nat t < MAX_NUM_THREADS) ->
  exists so1, lock_session time t req so = Some (so1, Waiting holder)
    /\ so_request_id so1 = holder /\ Z.testbit (so_threads so1) (Z.of_nat t) = true
    /\ (exists so2 w, unlock_session holder so1 = Some (so2, Some w) /\ Z.testbit (so_threads so1) (Z.of_nat w) = true
         /\ (flags_are_set (so_object so2) HOF_BEING_DELETED = false -> exists so3,
              lock_session_resume t req holder so2 = (so3, Returned SLR_SUCCESS) /\ so_request_id so3 = req
              /\ forall u, (u < 64)%nat -> Z.testbit (so_threads so3) (Z.of_nat u) = Z.testbit (so_threads so) (Z.of_nat u) && negb (bool_decide (u = t))))
    /\ (flags_are_set (so_object so1) HOF_BEING_DELETED = false -> exists so3,
         lock_session_resume t req holder so1 = (so3, Returned SLR_BROKE_LOCK) /\ so_request_id so3 = req)
    /\ (flags_are_set (so_object so1) HOF_BEING_DELETED = true -> exists so3,
         lock_session_resume t req holder so1 = (so3, Returned SLR_DELETED) /\ so_request_id so3 = 0)
    /\ forall third o, third <> 0 -> third <> holder ->
         lock_session_resume t req holder (mkSessionObject o (so_threads so1) third)
         = (mkSessionObject o (so_threads so1) third, Waiting third).
Proof.
  intros Hl Hh Hh0 Hr0 Hne Ht0 Ht. destruct so as [o ths r]. cbn in Hl, Hh. subst r.
  exists (mkSessionObject o (Z.lor ths (thread_mask t)) holder).
  assert (Z.testbit (Z.lor ths (thread_mask t)) (Z.of_nat t) = true) as Hbit
    by (rewrite testbit_set_mask, bool_decide_true, orb_true_r by done; done).
  split_and!; try done.
  - unfold lock_session. cbn. rewrite Hl. cbn. destruct (req =? 0) eqn:E1, (time =? 0) eqn:E2, (holder =? 0) eqn:E3, (holder =? req) eqn:E4; zbool; done || lia.
  - unfold unlock_session. cbn. rewrite Hl. cbn. destruct (holder =? 0) eqn:E3; zbool; [done|]. rewrite Z.eqb_refl. cbn.
    destruct (Z.lor ths (thread_mask t) =? 0) eqn:E; zbool; [by rewrite E, Z.bits_0 in Hbit|]. cbn.
    destruct (first_thread (Z.to_nat MAX_NUM_THREADS) 0 (Z.lor ths (thread_mask t))) as [w|] eqn:Ew; cycle 1.
    { rewrite (first_thread_none _ _ _ Ew t) in Hbit; [done|]. lia. }
    eexists _, w. split; [done|]. split; [by eapply first_thread_spec|]. intros Hdel. cbn in Hdel.
    unfold lock_session_resume. cbn. rewrite Hdel. eexists. split; [done|]. cbn. split; [done|].
    intros u Hu. rewrite testbit_cleared, testbit_set_mask by lia. repeat case_bool_decide; cbn; try lia;
      rewrite ?orb_false_r, ?andb_false_r, ?andb_true_r; done.
  - intros Hdel. cbn in Hdel. unfold lock_session_resume. cbn. rewrite Hdel, Z.eqb_refl. destruct (holder =? 0) eqn:E; zbool; [done|]. cbn. by eexists.
  - intros Hdel. cbn in Hdel. unfold lock_session_resume. cbn. rewrite Hdel, Z.eqb_refl. destruct (holder =? 0) eqn:E; zbool; [done|]. cbn. by eexists.
  - intros third o' H3 H3h. unfold lock_session_resume. cbn. destruct (third =? 0) eqn:E, (third =? holder) eqn:E'; zbool; done.
Qed.

Module SessionExample.

(** A session record whose hash object is locked. *)
Definition object : HashObject :=
  mkHashObject None None None None 7 120 [65] HOF_PAYLOAD LO_LOCKED
    (mkPayloadFields NoBuffer None None 0 0 0 0 0 0 UA_UNKNOWN 0).

End SessionExample.

Lemma session_lock_protocol_witness :
  let so := mkSessionObject SessionExample.object 0 5 in
  exists so1, lock_session 8000 14 6 so = Some (so1, Waiting 5) /\ so_request_id so1 = 5.
Proof.
  intros so. destruct (session_lock_protocol 8000 14 6 5 so) as (so1 & H1 & H2 & _); try done.
  exists so1. exact (conj H1 H2).
Defined.

(** ** The lock is never taken *)

Definition never_held (s : session_system) : Prop := so_request_id (ss_session s) = 0 /\ ss_waiting s = [].

Lemma session_step_inv s e s' : never_held s -> session_step s e s' ->
  never_held s' /\ forall t req r, e = EvLocked t req r -> r = SLR_SUCCESS.
Proof.
  intros [Hr Hw] Hs. destruct Hs as [so ws time t req so' out He|so ws ws' t req l so' out Hp _ _|so ws req so' w He|so ws o]; cbn in Hr, Hw; subst ws.
  - unfold lock_session in He. destruct (c3_assert _); [|done]. cbn [mbind option_bind] in He. rewrite Hr in He. cbn [Z.eqb negb andb] in He.
    destruct (negb (req =? 0)), (negb (time =? 0)); injection He as <- <-; (split; [by split|]); by intros ? ? ? [= _ _ <-].
  - by apply Permutation_nil in Hp.
  - split; [|done]. unfold unlock_session in He. destruct (c3_assert _); [|done]. cbn [mbind option_bind] in He.
    destruct (negb (req =? 0)); [|injection He as <- <-; by split].
    destruct (req =? so_request_id so); injection He as <- <-; by split.
  - by split.
Qed.

(** (C23) No request ever holds the lock of a session: on a session object as it is created,
    whatever requests lock and unlock it, the id of the holder stays 0, nobody ever
    waits, and every request that asks for the lock is told that it succeeded,
    whether or not another one has asked before it and has not unlocked. *)
Theorem session_lock_never_held o tr s :
  session_trace (mkSessionSystem (so_create o) []) tr s ->
  so_request_id (ss_session s) = 0 /\ ss_waiting s = []
  /\ forall t req r, EvLocked t req r ∈ tr -> r = SLR_SUCCESS.
Proof.
  intros Ht. assert (never_held s /\ forall t req r, EvLocked t req r ∈ tr -> r = SLR_SUCCESS) as [[H1 H2] H3]; [|done].
  induction Ht as [|tr s' e s'' _ [IH IHe] Hstep]; [split; [by split|by intros ? ? ? ?%elem_of_nil]|].
  destruct (session_step_inv s' e s'' IH Hstep) as [Hn He]. split; [done|].
  intros t req r [Hin|Hin%list_elem_of_singleton]%elem_of_app; [by eapply IHe|]. by eapply He.
Qed.

(** Requests 5 and 6 of two threads both "lock" the session. *)
Lemma session_lock_never_held_witness :
  exists s, session_trace (mkSessionSystem (so_create SessionExample.object) [])
      [EvLocked 14 5 SLR_SUCCESS; EvLocked 15 6 SLR_SUCCESS] s
    /\ so_request_id (ss_session s) = 0 /\ ss_waiting s = [].
Proof.
  assert (session_trace (mkSessionSystem (so_create SessionExample.object) [])
      ([] ++ [EvLocked 14 5 SLR_SUCCESS] ++ [EvLocked 15 6 SLR_SUCCESS]) (mkSessionSystem (so_create SessionExample.object) [])) as Ht.
  { rewrite app_assoc. eapply session_snoc; [eapply session_snoc; [apply session_nil|]|].
    - apply (step_lock_session (so_create SessionExample.object) [] 8000 14 5 (so_create SessionExample.object) (Returned SLR_SUCCESS)). reflexivity.
    - apply (step_lock_session (so_create SessionExample.object) [] 8000 15 6 (so_create SessionExample.object) (Returned SLR_SUCCESS)). reflexivity. }
  eexists. split; [exact Ht|].
  destruct (session_lock_never_held _ _ _ Ht) as (H1 & H2 & _). exact (conj H1 H2).
Defined.
