(* ===== verification/Lzss3.v ===== *)
(** * Lzss3

    The LZSS3 compression engine ([compressors/engine_lzss3.h],
    [compressors/engine_lzss3.cc]): binary search trees over the positions of a
    ring buffer, packing and unpacking. Arrays are functions on indices, read and
    written within the bounds of their declarations. *)

From S2P Require Import Prelude Protocol.

Definition LZSS_SIZE : Z := 4096.
Definition LZSS_HI : Z := 18.
Definition LZSS_LO : Z := 2.
Definition LZSS_NIL : Z := LZSS_SIZE.

(** ** Arrays *)

Definition array := Z -> Z.
Definition upd (a : array) (i v : Z) : array := fun j => if j =? i then v else a j.

Definition in_bounds (size i : Z) : bool := (0 <=? i) && (i <? size).
Definition get (size : Z) (a : array) (i : Z) : option Z := if in_bounds size i then Some (a i) else None.
Definition put (size : Z) (a : array) (i v : Z) : option array := if in_bounds size i then Some (upd a i v) else None.

Definition RING_SIZE : Z := LZSS_SIZE + LZSS_HI - 1.
Definition LCHILD_SIZE : Z := LZSS_SIZE + 1.
Definition RCHILD_SIZE : Z := LZSS_SIZE + 257.
Definition PARENT_SIZE : Z := LZSS_SIZE + 1.

Record engine := mkEngine {
  lzss_ring_buffer : array;
  lzss_match_length : Z;
  lzss_match_position : Z;
  lzss_lchild : array;
  lzss_rchild : array;
  lzss_parent : array;
}.

Definition put_ring (e : engine) (i v : Z) : option engine :=
  a ← put RING_SIZE (lzss_ring_buffer e) i v;
  Some (mkEngine a (lzss_match_length e) (lzss_match_position e) (lzss_lchild e) (lzss_rchild e) (lzss_parent e)).
Definition with_match (e : engine) (length position : Z) : engine :=
  mkEngine (lzss_ring_buffer e) length position (lzss_lchild e) (lzss_rchild e) (lzss_parent e).
Definition put_lchild (e : engine) (i v : Z) : option engine :=
  a ← put LCHILD_SIZE (lzss_lchild e) i v;
  Some (mkEngine (lzss_ring_buffer e) (lzss_match_length e) (lzss_match_position e) a (lzss_rchild e) (lzss_parent e)).
Definition put_rchild (e : engine) (i v : Z) : option engine :=
  a ← put RCHILD_SIZE (lzss_rchild e) i v;
  Some (mkEngine (lzss_ring_buffer e) (lzss_match_length e) (lzss_match_position e) (lzss_lchild e) a (lzss_parent e)).
Definition put_parent (e : engine) (i v : Z) : option engine :=
  a ← put PARENT_SIZE (lzss_parent e) i v;
  Some (mkEngine (lzss_ring_buffer e) (lzss_match_length e) (lzss_match_position e) (lzss_lchild e) (lzss_rchild e) a).
Definition get_ring (e : engine) (i : Z) : option Z := get RING_SIZE (lzss_ring_buffer e) i.
Definition get_lchild (e : engine) (i : Z) : option Z := get LCHILD_SIZE (lzss_lchild e) i.
Definition get_rchild (e : engine) (i : Z) : option Z := get RCHILD_SIZE (lzss_rchild e) i.
Definition get_parent (e : engine) (i : Z) : option Z := get PARENT_SIZE (lzss_parent e) i.

(** ** Trees *)

Fixpoint fill_parent (n : nat) (e : engine) (i : Z) : option engine :=
  match n with
  | O => Some e
  | S n => e ← put_parent e i LZSS_NIL; fill_parent n e (i + 1)
  end.
Fixpoint fill_rchild (n : nat) (e : engine) (i : Z) : option engine :=
  match n with
  | O => Some e
  | S n => e ← put_rchild e i LZSS_NIL; fill_rchild n e (i + 1)
  end.

Definition initialize_trees (e : engine) : option engine :=
  e ← fill_parent (Z.to_nat LZSS_SIZE) e 0;
  fill_rchild 256 e (LZSS_SIZE + 1).

(** [do { if ((cmp = key[i] - ring[p + i]) != 0) break; } while (++i < LZSS_HI)]; [n] more turns *)
Fixpoint compare (n : nat) (e : engine) (node p i : Z) : option (Z * Z) :=
  match n with
  | O => Some (0, i)
  | S n =>
      a ← get_ring e (node + i);
      b ← get_ring e (p + i);
      if negb (a - b =? 0) then Some (a - b, i) else compare n e node p (i + 1)
  end.

(** The loop of [insert_node]: the node is linked as a leaf, or the node with a full
    match is returned. *)
Fixpoint insert_loop (fuel : nat) (e : engine) (node cmp p : Z) : option (engine * option Z) :=
  match fuel with
  | O => None
  | S fuel =>
      let next (e : engine) (p : Z) :=
        '(cmp, i) ← compare (Z.to_nat (LZSS_HI - 1)) e node p 1;
        if lzss_match_length e <? i then
          let e := with_match e i p in
          if i =? LZSS_HI then Some (e, Some p) else insert_loop fuel e node cmp p
        else insert_loop fuel e node cmp p in
      if 0 <=? cmp then
        q ← get_rchild e p;
        if q =? LZSS_NIL then
          e ← put_rchild e p node; e ← put_parent e node p; Some (e, None)
        else next e q
      else
        q ← get_lchild e p;
        if q =? LZSS_NIL then
          e ← put_lchild e p node; e ← put_parent e node p; Some (e, None)
        else next e q
  end.

(** Node [p] makes room for [node]. *)
Definition replace_node (e : engine) (node p : Z) : option engine :=
  root ← get_parent e p;
  e ← put_parent e node root;
  l ← get_lchild e p; e ← put_lchild e node l;
  r ← get_rchild e p; e ← put_rchild e node r;
  l ← get_lchild e p; e ← put_parent e l node;
  r ← get_rchild e p; e ← put_parent e r node;
  x ← get_rchild e root;
  e ← (if x =? p then put_rchild e root node else put_lchild e root node);
  put_parent e p LZSS_NIL.

(** A turn of the loop visits another node of the tree: at most [LZSS_SIZE] of them. *)
Definition tree_fuel : nat := S (S (Z.to_nat LZSS_SIZE)).

Definition insert_node (e : engine) (node : Z) : option engine :=
  key0 ← get_ring e node;
  e ← put_lchild e node LZSS_NIL;
  e ← put_rchild e node LZSS_NIL;
  let e := with_match e 0 (lzss_match_position e) in
  '(e, full) ← insert_loop tree_fuel e node 1 (key0 + LZSS_SIZE + 1);
  match full with None => Some e | Some p => replace_node e node p end.

(** [do q = rchild[q]; while (rchild[q] != NIL)] *)
Fixpoint rightmost (fuel : nat) (e : engine) (q : Z) : option Z :=
  match fuel with
  | O => None
  | S fuel =>
      q ← get_rchild e q;
      r ← get_rchild e q;
      if negb (r =? LZSS_NIL) then rightmost fuel e q else Some q
  end.

Definition delete_node (e : engine) (node : Z) : option engine :=
  up ← get_parent e node;
  if negb (up =? LZSS_NIL) then
    r ← get_rchild e node;
    l ← get_lchild e node;
    '(e, q) ←
      (if r =? LZSS_NIL then Some (e, l)
       else if l =? LZSS_NIL then Some (e, r)
       else
         x ← get_rchild e l;
         '(e, q) ←
           (if negb (x =? LZSS_NIL) then
              q ← rightmost tree_fuel e l;
              t ← get_parent e q;
              lq ← get_lchild e q;
              e ← put_rchild e t lq; e ← put_parent e lq t;
              ln ← get_lchild e node;
              e ← put_lchild e q ln; e ← put_parent e ln q;
              Some (e, q)
            else Some (e, l));
         rn ← get_rchild e node;
         e ← put_rchild e q rn; e ← put_parent e rn q;
         Some (e, q));
    t ← get_parent e node;
    e ← put_parent e q t;
    x ← get_rchild e t;
    e ← (if x =? node then put_rchild e t q else put_lchild e t q);
    put_parent e node LZSS_NIL
  else Some e.

(** ** Packing *)

(** The local variables of [pack]: [code_buf[0]] and the bytes of [code_buf] after it. *)
Record pack_state := mkPackState {
  pk_engine : engine;
  src_pos : Z;
  pk_dst : bytes;
  cb_flags : Z;
  cb_units : bytes;
  pk_mask : Z;
  pk_s : Z;
  pk_r : Z;
  pk_len : Z;
}.

(** [code_buf[code_buf_index++] = c] *)
Definition put_code (units : bytes) (c : Z) : option bytes :=
  _ ← c3_assert (zlen units <? 16);
  Some (units ++ [c]).

(** [for (...) { if (dst_pos >= max) return 0; dst[dst_pos++] = code_buf[i]; }]: the new
    output and whether all fitted. *)
Fixpoint send (bs : bytes) (dst : bytes) (max : Z) : bool * bytes :=
  match bs with
  | [] => (true, dst)
  | b :: bs => if max <=? zlen dst then (false, dst) else send bs (dst ++ [b]) max
  end.

(** One unit: a byte or a pair of offset and length. *)
Definition encode (st : pack_state) : option pack_state :=
  let e := pk_engine st in
  let length := if pk_len st <? lzss_match_length e then pk_len st else lzss_match_length e in
  if length <=? LZSS_LO then
    c ← get_ring e (pk_r st);
    units ← put_code (cb_units st) c;
    Some (mkPackState (with_match e 1 (lzss_match_position e)) (src_pos st) (pk_dst st)
            (Z.lor (cb_flags st) (pk_mask st)) units (pk_mask st) (pk_s st) (pk_r st) (pk_len st))
  else
    let off := pk_r st - lzss_match_position e in
    let off := if off <? 0 then off + LZSS_SIZE else off in
    units ← put_code (cb_units st) (u8 off);
    units ← put_code units (u8 (Z.lor (Z.land (Z.shiftr off 4) 0xF0) (length - (LZSS_LO + 1))));
    Some (mkPackState (with_match e length (lzss_match_position e)) (src_pos st) (pk_dst st)
            (cb_flags st) units (pk_mask st) (pk_s st) (pk_r st) (pk_len st)).

(** Sends eight units when they are complete; [false] if the output is full. *)
Definition flush (st : pack_state) (max : Z) : bool * pack_state :=
  let mask := u8 (pk_mask st * 2) in
  if mask =? 0 then
    let '(ok, dst) := send (cb_flags st :: cb_units st) (pk_dst st) max in
    (ok, mkPackState (pk_engine st) (src_pos st) dst 0 [] 1 (pk_s st) (pk_r st) (pk_len st))
  else (true, mkPackState (pk_engine st) (src_pos st) (pk_dst st) (cb_flags st) (cb_units st) mask
                (pk_s st) (pk_r st) (pk_len st)).

Definition next_pos (x : Z) : Z := Z.land (u32 (x + 1)) (LZSS_SIZE - 1).

Definition pk_moved (st : pack_state) (e : engine) (src_pos s r len : Z) : pack_state :=
  mkPackState e src_pos (pk_dst st) (cb_flags st) (cb_units st) (pk_mask st) s r len.

(** The loop that reads the next bytes while there are any; [n] more turns. Also the number
    of turns left at the [break]. *)
Fixpoint read_bytes (n : nat) (src : bytes) (st : pack_state) : option (pack_state * nat) :=
  match n with
  | O => Some (st, O)
  | S n' =>
      let s := pk_s st in
      e ← delete_node (pk_engine st) s;
      if zlen src <=? src_pos st then Some (pk_moved st e (src_pos st) s (pk_r st) (pk_len st), n)
      else
        c ← byte_at src (src_pos st);
        e ← put_ring e s c;
        e ← (if s <? LZSS_HI - 1 then put_ring e (s + LZSS_SIZE) c else Some e);
        let r := next_pos (pk_r st) in
        e ← insert_node e r;
        read_bytes n' src (pk_moved st e (src_pos st + 1) (next_pos s) r (pk_len st))
  end.

(** The loop after the end of the text. *)
Fixpoint drain_bytes (n : nat) (st : pack_state) : option pack_state :=
  match n with
  | O => Some st
  | S n =>
      e ← delete_node (pk_engine st) (pk_s st);
      let r := next_pos (pk_r st) in
      let len := u32 (pk_len st - 1) in
      e ← (if negb (len =? 0) then insert_node e r else Some e);
      drain_bytes n (pk_moved st e (src_pos st) (next_pos (pk_s st)) r len)
  end.

(** The main loop: [false] at [return 0]. *)
Fixpoint pack_loop (fuel : nat) (src : bytes) (max : Z) (st : pack_state) : option (bool * pack_state) :=
  match fuel with
  | O => None
  | S fuel =>
      st ← encode st;
      let '(ok, st) := flush st max in
      if negb ok then Some (false, st)
      else
        let last_match_length := lzss_match_length (pk_engine st) in
        '(st, rest) ← read_bytes (Z.to_nat last_match_length) src st;
        st ← drain_bytes rest st;
        if 0 <? pk_len st then pack_loop fuel src max st else Some (true, st)
  end.

(** [do { if (src_pos >= src_size) break; ring[len++] = src[src_pos++]; } while (len < LZSS_HI)] *)
Fixpoint load (n : nat) (src : bytes) (e : engine) (len : Z) : option (engine * Z) :=
  match n with
  | O => Some (e, len)
  | S n =>
      if zlen src <=? len then Some (e, len)
      else c ← byte_at src len; e ← put_ring e len c; load n src e (len + 1)
  end.

(** The result and what has been written to [dst]; the main loop encodes at least one byte
    in each turn. *)
Definition lz_pack (e : engine) (src : bytes) (dst_size : Z) : option (Z * bytes * engine) :=
  _ ← c3_assert (dst_size <=? UINT_MAX_VAL);
  e ← initialize_trees e;
  '(e, len) ← load (Z.to_nat LZSS_HI) src e 0;
  e ← insert_node e 0;
  '(ok, st) ← pack_loop (length src) src dst_size (mkPackState e len [] 0 [] 1 LZSS_HI 0 len);
  if negb ok then Some (0, pk_dst st, pk_engine st)
  else
    let '(ok, dst) := match cb_units st with
      | [] => (true, pk_dst st)
      | units => send (cb_flags st :: units) (pk_dst st) dst_size
      end in
    Some (if ok && (zlen dst <? dst_size) then zlen dst else 0, dst, pk_engine st).

(** ** Unpacking

    The byte at an index that has not been written is that of the memory around [dst]:
    [around] gives it, if there is any. *)

Definition read_dst (around : Z -> option Z) (dst : bytes) (i : Z) : option Z :=
  match byte_at dst i with Some c => Some c | None => around i end.

(** [do { if (dst_pos >= dst_size) return false; dst[dst_pos++] = dst[i++]; } while (--j != 0)] *)
Fixpoint copy (around : Z -> option Z) (j : nat) (dst : bytes) (dst_size i : Z) : option (bool * bytes) :=
  match j with
  | O => Some (true, dst)
  | S j =>
      if dst_size <=? zlen dst then Some (false, dst)
      else c ← read_dst around dst i; copy around j (dst ++ [c]) dst_size (i + 1)
  end.

(** The loop, on the part of [src] not read yet; [dst] is what has been written. *)
Fixpoint unpack_loop (around : Z -> option Z) (fuel : nat) (src : bytes) (flags : Z) (dst : bytes) (dst_size : Z) : option (bool * bytes) :=
  match fuel with
  | O => None
  | S fuel =>
      let break := Some (zlen dst =? dst_size, dst) in
      let flags := Z.shiftr flags 1 in
      let unit (flags : Z) (src : bytes) :=
        if negb (Z.land flags 1 =? 0) then
          match src with
          | [] => break
          | c :: src =>
              if dst_size <=? zlen dst then Some (false, dst)
              else unpack_loop around fuel src flags (dst ++ [c]) dst_size
          end
        else
          match src with
          | i :: j :: src =>
              let i := Z.lor i (Z.shiftl (Z.land j 0xF0) 4) in
              let i := to_signed 32 (u32 (zlen dst - i)) in
              let j := Z.land j 0x0F + LZSS_LO + 1 in
              '(ok, dst) ← copy around (Z.to_nat j) dst dst_size i;
              if negb ok then Some (false, dst) else unpack_loop around fuel src flags dst dst_size
          | _ => break
          end in
      if Z.land flags 0x100 =? 0 then
        match src with
        | [] => break
        | c :: src => unit (Z.lor c 0xFF00) src
        end
      else unit flags src
  end.

(** Every turn reads at least one byte. *)
Definition lz_unpack (around : Z -> option Z) (src : bytes) (dst_size : Z) : option (bool * bytes) :=
  unpack_loop around (S (length src)) src 0 [] dst_size.
