(* ===== verification/Lzss3Code.v ===== *)
(** * Lzss3Code

    The code that LZSS3 packs to, and what unpacking makes of it: groups of up to eight
    units, literal bytes or references to text already unpacked, under a byte of flags. *)

From S2P Require Import Prelude Protocol Lzss3.

Inductive unit_code : Type :=
| Lit (c : Z)
| Ref (d l : Z).

Definition unit_bytes (u : unit_code) : bytes :=
  match u with
  | Lit c => [c]
  | Ref d l => [u8 d; u8 (Z.lor (Z.land (Z.shiftr d 4) 0xF0) (l - (LZSS_LO + 1)))]
  end.
Definition is_lit (u : unit_code) : bool := match u with Lit _ => true | Ref _ _ => false end.
Definition unit_size (u : unit_code) : Z := match u with Lit _ => 1 | Ref _ l => l end.
Definition units_bytes (us : list unit_code) : bytes := concat (map unit_bytes us).

(** Byte of flags of a group: bit [i] tells whether unit [i] is a literal. *)
Fixpoint flags_of (us : list unit_code) : Z :=
  match us with [] => 0 | u :: us => Z.b2z (is_lit u) + 2 * flags_of us end.

Definition group_bytes (us : list unit_code) : bytes := flags_of us :: units_bytes us.

(** A unit at position [c] of text [t] stands for the next bytes of the text. *)
Definition unit_ok (t : bytes) (c : Z) (u : unit_code) : Prop :=
  match u with
  | Lit x => byte_at t c = Some x
  | Ref d l => 1 <= d <= c /\ d < LZSS_SIZE /\ LZSS_LO < l <= LZSS_HI /\ c + l <= zlen t
      /\ forall k, 0 <= k < l -> byte_at t (c + k) = byte_at t (c - d + k)
  end.
Fixpoint units_ok (t : bytes) (c : Z) (us : list unit_code) : Prop :=
  match us with [] => True | u :: us => unit_ok t c u /\ units_ok t (c + unit_size u) us end.
Definition units_size (us : list unit_code) : Z := foldr (fun u n => unit_size u + n) 0 us.

Lemma units_bytes_app us vs : units_bytes (us ++ vs) = units_bytes us ++ units_bytes vs.
Proof. unfold units_bytes. by rewrite map_app, concat_app. Qed.
Lemma units_size_app us vs : units_size (us ++ vs) = units_size us + units_size vs.
Proof. unfold units_size. induction us as [|u us IH]; cbn; [done|]. rewrite IH. lia. Qed.
Lemma units_ok_app t c us vs : units_ok t c (us ++ vs) <-> units_ok t c us /\ units_ok t (c + units_size us) vs.
Proof.
  revert c. induction us as [|u us IH]; intros c; cbn [units_ok app units_size foldr].
  - rewrite Z.add_0_r. tauto.
  - rewrite IH. fold (units_size us). rewrite Z.add_assoc. tauto.
Qed.

Lemma flags_of_app us u : flags_of (us ++ [u]) = flags_of us + Z.b2z (is_lit u) * 2 ^ zlen us.
Proof.
  induction us as [|v us IH]; cbn [flags_of app]; [cbn; by destruct (is_lit u)|]. rewrite IH, zlen_cons, Z.pow_add_r by (pose proof (zlen_nonneg us); lia). lia.
Qed.

Lemma flags_of_range us : 0 <= flags_of us < 2 ^ zlen us.
Proof.
  induction us as [|u us IH]; cbn [flags_of]; [done|]. rewrite zlen_cons, Z.pow_add_r by (pose proof (zlen_nonneg us); lia).
  pose proof (b2z_range (is_lit u)). lia.
Qed.

Lemma flags_of_bit us i u : us !! i = Some u -> Z.testbit (flags_of us) (Z.of_nat i) = is_lit u.
Proof.
  revert i. induction us as [|v us IH]; intros [|i] Hi; try done; cbn [flags_of].
  - injection Hi as ->. apply Z.testbit_0_r || (rewrite Z.add_comm; apply Z.testbit_0_r).
  - rewrite Nat2Z.inj_succ, Z.add_comm. destruct (is_lit v); cbn [Z.b2z]; rewrite ?Z.add_0_r.
    + rewrite Z.testbit_odd_succ by lia. by apply IH.
    + rewrite Z.testbit_even_succ by lia. by apply IH.
Qed.

(** ** Prefixes of the text *)

Definition prefix_of (t : bytes) (c : Z) : bytes := take (Z.to_nat c) t.

Lemma zlen_prefix t c : 0 <= c <= zlen t -> zlen (prefix_of t c) = c.
Proof. intros H. unfold prefix_of, zlen in *. rewrite length_take. lia. Qed.

Lemma byte_at_lookup (t : bytes) i : 0 <= i -> byte_at t i = t !! Z.to_nat i.
Proof. intros H. unfold byte_at. destruct (0 <=? i) eqn:E; zbool; [done|lia]. Qed.

Lemma prefix_byte t c i : 0 <= i < c -> byte_at (prefix_of t c) i = byte_at t i.
Proof. intros H. rewrite !byte_at_lookup by lia. unfold prefix_of. apply lookup_take_lt. lia. Qed.

Lemma prefix_snoc t c x : 0 <= c -> byte_at t c = Some x -> prefix_of t c ++ [x] = prefix_of t (c + 1).
Proof.
  intros Hc Hx. rewrite byte_at_lookup in Hx by lia. unfold prefix_of. rewrite Z2Nat.inj_add by lia.
  rewrite Nat.add_1_r. symmetry. by apply take_S_r.
Qed.

Lemma byte_at_some (t : bytes) i : 0 <= i < zlen t -> exists x, byte_at t i = Some x.
Proof. intros H. rewrite byte_at_lookup by lia. apply lookup_lt_is_Some_2. unfold zlen in H. lia. Qed.

Lemma byte_at_lt (t : bytes) i x : byte_at t i = Some x -> 0 <= i < zlen t.
Proof.
  unfold byte_at. destruct (0 <=? i) eqn:E; zbool; [|done]. intros H. apply lookup_lt_Some in H. unfold zlen. lia.
Qed.

(** ** Unpacking *)

(** The two bytes of a reference give back the distance and the length. *)
Lemma ref_decode d l : 0 <= d < LZSS_SIZE -> LZSS_LO < l <= LZSS_HI ->
  let j := u8 (Z.lor (Z.land (Z.shiftr d 4) 0xF0) (l - (LZSS_LO + 1))) in
  Z.lor (u8 d) (Z.shiftl (Z.land j 0xF0) 4) = d /\ Z.land j 0x0F + LZSS_LO + 1 = l.
Proof.
  intros Hd Hl. pose (check d l := let j := u8 (Z.lor (Z.land (Z.shiftr d 4) 0xF0) (l - (LZSS_LO + 1))) in
    (Z.lor (u8 d) (Z.shiftl (Z.land j 0xF0) 4) =? d) && (Z.land j 0x0F + LZSS_LO + 1 =? l)).
  assert (forallb (fun d => forallb (check d) (seqZ 3 16)) (seqZ 0 4096) = true) as Hall by (vm_compute; reflexivity).
  apply seqZ_forallb with (z := d) in Hall; [|unfold LZSS_SIZE in *; lia].
  apply seqZ_forallb with (z := l) in Hall; [|unfold LZSS_LO, LZSS_HI in *; lia].
  unfold check in Hall. apply andb_true_iff in Hall as [H1 H2]. zbool. done.
Qed.

Lemma copy_ok around t c d l : 1 <= d <= c -> c + Z.of_nat l <= zlen t ->
  (forall k, 0 <= k < Z.of_nat l -> byte_at t (c + k) = byte_at t (c - d + k)) ->
  copy around l (prefix_of t c) (zlen t) (c - d) = Some (true, prefix_of t (c + Z.of_nat l)).
Proof.
  revert c. induction l as [|l IH]; intros c Hd Hl Hk; cbn [copy].
  { by rewrite Z.add_0_r. }
  rewrite zlen_prefix by lia. destruct (zlen t <=? c) eqn:E; zbool; [lia|].
  unfold read_dst. rewrite prefix_byte by lia. specialize (Hk 0 ltac:(lia)) as H0. rewrite !Z.add_0_r in H0. rewrite <- H0.
  destruct (byte_at_some t c ltac:(lia)) as [x Hx]. rewrite Hx. cbn [mbind option_bind]. rewrite (prefix_snoc t c x) by (lia || done).
  replace (c - d + 1) with (c + 1 - d) by lia. rewrite IH; [do 3 f_equal; lia|lia|lia|].
  intros k Hk'. specialize (Hk (k + 1) ltac:(lia)). replace (c + 1 + k) with (c + (k + 1)) by lia. rewrite Hk. f_equal. lia.
Qed.

(** The part of a turn of the loop that follows the test of the flags. *)
Definition unpack_unit (around : Z -> option Z) (fuel : nat) (dst : bytes) (dst_size flags : Z) (src : bytes) : option (bool * bytes) :=
  if negb (Z.land flags 1 =? 0) then
    match src with
    | [] => Some (zlen dst =? dst_size, dst)
    | c :: src => if dst_size <=? zlen dst then Some (false, dst) else unpack_loop around fuel src flags (dst ++ [c]) dst_size
    end
  else
    match src with
    | i :: j :: src =>
        '(ok, dst) ← copy around (Z.to_nat (Z.land j 0x0F + LZSS_LO + 1)) dst dst_size
                       (to_signed 32 (u32 (zlen dst - Z.lor i (Z.shiftl (Z.land j 0xF0) 4))));
        if negb ok then Some (false, dst) else unpack_loop around fuel src flags dst dst_size
    | _ => Some (zlen dst =? dst_size, dst)
    end.

Lemma unpack_loop_S around fuel src flags dst dst_size :
  unpack_loop around (S fuel) src flags dst dst_size
  = if Z.land (Z.shiftr flags 1) 0x100 =? 0 then
      match src with [] => Some (zlen dst =? dst_size, dst) | c :: src => unpack_unit around fuel dst dst_size (Z.lor c 0xFF00) src end
    else unpack_unit around fuel dst dst_size (Z.shiftr flags 1) src.
Proof. reflexivity. Qed.

Lemma bit_test_1 z : (Z.land z 1 =? 0) = negb (Z.testbit z 0).
Proof.
  change 1 with (Z.ones 1). rewrite Z.land_ones by lia. change (2 ^ 1) with 2. rewrite Zmod_odd, Z.bit0_odd. by destruct (Z.odd z).
Qed.
Lemma bit_test_256 z : (Z.land z 0x100 =? 0) = negb (Z.testbit z 8).
Proof.
  destruct (Z.testbit z 8) eqn:E; cbn [negb].
  - apply Z.eqb_neq. intros H. apply (f_equal (fun x => Z.testbit x 8)) in H. rewrite Z.land_spec, E in H. done.
  - apply Z.eqb_eq. apply Z.bits_inj'. intros n Hn. rewrite Z.land_spec, Z.bits_0. change 0x100 with (2 ^ 8).
    rewrite Z.pow2_bits_eqb by lia. destruct (8 =? n) eqn:E'; zbool; [subst; by rewrite E|apply andb_false_r].
Qed.

Section Unpack.
Context (around : Z -> option Z) (t : bytes) (Ht : zlen t < 2 ^ 31).

Lemma unpack_unit_ok fuel u rest flags c :
  0 <= c -> unit_ok t c u -> Z.testbit flags 0 = is_lit u ->
  unpack_unit around fuel (prefix_of t c) (zlen t) flags (unit_bytes u ++ rest)
  = unpack_loop around fuel rest flags (prefix_of t (c + unit_size u)) (zlen t).
Proof.
  intros Hc Hu Hbit. unfold unpack_unit. rewrite bit_test_1, Hbit. destruct u as [x|d l]; cbn [is_lit negb unit_bytes app unit_size].
  - cbn [unit_ok] in Hu. pose proof (byte_at_lt _ _ _ Hu). rewrite zlen_prefix by lia. destruct (zlen t <=? c) eqn:E; zbool; [lia|].
    by rewrite (prefix_snoc t c x).
  - destruct Hu as (Hd & Hs & Hl & Hcl & Hk). destruct (ref_decode d l) as [H1 H2]; [lia|done|]. cbn zeta in H1, H2. rewrite H1, H2.
    unfold LZSS_LO, LZSS_HI in Hl. rewrite zlen_prefix by lia. rewrite u32_small by (unfold is_u32; lia).
    assert (to_signed 32 (c - d) = c - d) as ->.
    { unfold to_signed. rewrite Z.mod_small by lia. destruct (c - d <? 2 ^ (32 - 1)) eqn:E; zbool; [done|lia]. }
    rewrite copy_ok by (rewrite ?Z2Nat.id by lia; lia || done). cbn [mbind option_bind negb]. by rewrite Z2Nat.id by lia.
Qed.

(** The units of a group after the first one. *)
Lemma unpack_units_ok us fuel rest flags c :
  0 <= c -> units_ok t c us ->
  (forall i u, us !! i = Some u -> Z.testbit flags (Z.of_nat i + 9) = true /\ Z.testbit flags (Z.of_nat i + 1) = is_lit u) ->
  unpack_loop around (length us + fuel) (units_bytes us ++ rest) flags (prefix_of t c) (zlen t)
  = unpack_loop around fuel rest (Z.shiftr flags (zlen us)) (prefix_of t (c + units_size us)) (zlen t).
Proof.
  revert flags c. induction us as [|u us IH]; intros flags c Hc Hok Hbits.
  { cbn. by rewrite Z.add_0_r. }
  destruct Hok as [Hu Hok]. destruct (Hbits 0%nat u eq_refl) as [H9 H1]. cbn [length Nat.add]. rewrite unpack_loop_S, bit_test_256.
  rewrite Z.shiftr_spec by lia. change (8 + 1) with 9. change (Z.of_nat 0 + 9) with 9 in H9. rewrite H9. cbn [negb]. unfold units_bytes. cbn [map concat]. rewrite <- app_assoc.
  assert (0 <= unit_size u) by (destruct u; cbn in *; unfold LZSS_LO in *; lia).
  rewrite unpack_unit_ok by (done || by rewrite Z.shiftr_spec). fold (units_bytes us). rewrite IH; [|lia|done|].
  - rewrite Z.shiftr_shiftr by (pose proof (zlen_nonneg us); lia). rewrite zlen_cons. cbn [units_size foldr]. fold (units_size us). by rewrite Z.add_assoc.
  - intros i v Hi. rewrite !Z.shiftr_spec by lia. destruct (Hbits (S i) v Hi) as [B1 B2].
    split; [rewrite <- B1|rewrite <- B2]; f_equal; lia.
Qed.

(** A whole group, loaded when the flags of the previous one are used up. *)
Lemma unpack_group_ok us fuel rest flags c :
  0 <= c -> us <> [] -> zlen us <= 8 -> units_ok t c us -> Z.testbit flags 9 = false ->
  unpack_loop around (length us + fuel) (group_bytes us ++ rest) flags (prefix_of t c) (zlen t)
  = unpack_loop around fuel rest (Z.shiftr (Z.lor (flags_of us) 0xFF00) (zlen us - 1)) (prefix_of t (c + units_size us)) (zlen t).
Proof.
  intros Hc Hne Hlen Hok Hb9. assert (forall i, 0 <= i < 8 -> Z.testbit 0xFF00 i = false /\ Z.testbit 0xFF00 (i + 8) = true) as Hff.
  { intros i Hi. assert (i = 0 \/ i = 1 \/ i = 2 \/ i = 3 \/ i = 4 \/ i = 5 \/ i = 6 \/ i = 7) as Hcase by lia.
    repeat destruct Hcase as [->|Hcase]; [done..|]. by subst. }
  destruct us as [|u us]; [done|]. cbn [length Nat.add]. rewrite unpack_loop_S, bit_test_256, Z.shiftr_spec by lia.
  change (8 + 1) with 9. rewrite Hb9. cbn [negb]. unfold group_bytes. cbn [app].
  set (fl := Z.lor _ _). unfold units_bytes. cbn [map concat]. rewrite <- app_assoc. fold (units_bytes us).
  destruct Hok as [Hu Hok]. assert (0 <= unit_size u) by (destruct u; cbn in *; unfold LZSS_LO in *; lia).
  rewrite unpack_unit_ok; [|done|done|].
  2:{ unfold fl. rewrite Z.lor_spec, (proj1 (Hff 0 ltac:(lia))), orb_false_r. by apply (flags_of_bit (u :: us) 0). }
  rewrite zlen_cons in *. rewrite unpack_units_ok; [|lia|done|].
  - cbn [units_size foldr]. fold (units_size us). replace (1 + zlen us - 1) with (zlen us) by lia. by rewrite Z.add_assoc.
  - intros i v Hi. pose proof (lookup_lt_Some _ _ _ Hi) as Hlt. unfold zlen in Hlen. unfold fl. rewrite !Z.lor_spec. split.
    + replace (Z.of_nat i + 9) with (Z.of_nat i + 1 + 8) by lia. rewrite (proj2 (Hff (Z.of_nat i + 1) ltac:(lia))). apply orb_true_r.
    + rewrite (proj1 (Hff (Z.of_nat i + 1) ltac:(lia))), orb_false_r. replace (Z.of_nat i + 1) with (Z.of_nat (S i)) by lia.
      by apply (flags_of_bit (u :: us) (S i)).
Qed.

Lemma unpack_end fuel flags dst : unpack_loop around (S fuel) [] flags dst (zlen t) = Some (zlen dst =? zlen t, dst).
Proof. rewrite unpack_loop_S. unfold unpack_unit. destruct (Z.land (Z.shiftr flags 1) 256 =? 0); [done|]. by destruct (negb _). Qed.

Lemma group_flags_end us : zlen us = 8 -> Z.testbit (Z.shiftr (Z.lor (flags_of us) 0xFF00) (zlen us - 1)) 9 = false.
Proof.
  intros Hl. rewrite Z.shiftr_spec by lia. rewrite Hl. change (9 + (8 - 1)) with 16. rewrite Z.lor_spec. change (Z.testbit 0xFF00 16) with false.
  rewrite orb_false_r. pose proof (flags_of_range us) as Hr. rewrite Hl in Hr. apply Z.bits_above_log2; [lia|].
  destruct (Z.eq_dec (flags_of us) 0) as [->|]; [done|]. apply Z.log2_lt_pow2; [lia|]. lia.
Qed.

(** A stream: complete groups, then a last one that may be incomplete. *)
Definition last_bytes (us : list unit_code) : bytes := match us with [] => [] | us => group_bytes us end.
Definition stream (gs : list (list unit_code)) (us : list unit_code) : bytes := concat (map group_bytes gs) ++ last_bytes us.

Lemma unit_ok_size c u : 0 <= c <= zlen t -> unit_ok t c u -> 1 <= unit_size u /\ c + unit_size u <= zlen t.
Proof.
  intros Hc Hu. destruct u as [x|d l]; cbn [unit_ok unit_size] in *; [apply byte_at_lt in Hu; lia|].
  unfold LZSS_LO in *. lia.
Qed.

Lemma units_ok_size c us : 0 <= c <= zlen t -> units_ok t c us -> zlen us <= units_size us /\ c + units_size us <= zlen t.
Proof.
  revert c. induction us as [|u us IH]; intros c Hc Hok; [unfold zlen in *; cbn; lia|]. destruct Hok as [Hu Hok].
  pose proof (unit_ok_size c u Hc Hu). destruct (IH (c + unit_size u)) as [H1 H2]; [lia|done|].
  rewrite zlen_cons. cbn [units_size foldr]. fold (units_size us). lia.
Qed.

Lemma unpack_stream_ok gs us fuel flags c :
  0 <= c <= zlen t -> Forall (fun g => zlen g = 8) gs -> zlen us <= 8 -> units_ok t c (concat gs ++ us) -> Z.testbit flags 9 = false ->
  unpack_loop around (length (concat gs ++ us) + S fuel) (stream gs us) flags (prefix_of t c) (zlen t)
  = Some (c + units_size (concat gs ++ us) =? zlen t, prefix_of t (c + units_size (concat gs ++ us))).
Proof.
  revert flags c. induction gs as [|g gs IH]; intros flags c Hc Hgs Hus Hok Hb; unfold stream; cbn [map concat app] in *.
  - pose proof (units_ok_size c us Hc Hok). pose proof (zlen_nonneg us).
    destruct us as [|u us]; [cbn [last_bytes length Nat.add]; by rewrite unpack_end, zlen_prefix, Z.add_0_r by lia|].
    cbn [last_bytes]. rewrite <- (app_nil_r (group_bytes _)), unpack_group_ok by (done || lia).
    by rewrite unpack_end, zlen_prefix by lia.
  - apply Forall_cons in Hgs as [Hg Hgs]. rewrite <- app_assoc in Hok. apply units_ok_app in Hok as [Hok1 Hok2].
    pose proof (units_ok_size c g Hc Hok1). rewrite <- !app_assoc, length_app, <- Nat.add_assoc.
    rewrite unpack_group_ok; [|lia|by intros ->|lia|done|done].
    rewrite units_size_app, Z.add_assoc. apply IH; [lia|done|done|done|by apply group_flags_end].
Qed.

Lemma zlen_units_bytes us : zlen us <= zlen (units_bytes us).
Proof.
  induction us as [|u us IH]; [done|]. unfold units_bytes. cbn [map concat]. fold (units_bytes us). rewrite zlen_cons, zlen_app.
  assert (1 <= zlen (unit_bytes u)) by (by destruct u). lia.
Qed.

Lemma zlen_stream gs us : zlen (concat gs ++ us) <= zlen (stream gs us).
Proof.
  unfold stream. rewrite !zlen_app. assert (zlen us <= zlen (last_bytes us)).
  { destruct us as [|u us]; [done|]. cbn [last_bytes]. unfold group_bytes. rewrite (zlen_cons (flags_of _)). pose proof (zlen_units_bytes (u :: us)). lia. }
  assert (zlen (concat gs) <= zlen (concat (map group_bytes gs))); [|lia]. induction gs as [|g gs IH]; [done|]. cbn [map concat].
  rewrite !zlen_app. unfold group_bytes at 1. rewrite zlen_cons. pose proof (zlen_units_bytes g). lia.
Qed.

(** Units that stand for the whole text unpack to it. *)
Lemma unpack_ok gs us :
  Forall (fun g => zlen g = 8) gs -> zlen us <= 8 -> units_ok t 0 (concat gs ++ us) -> units_size (concat gs ++ us) = zlen t ->
  lz_unpack around (stream gs us) (zlen t) = Some (true, t).
Proof.
  intros Hgs Hus Hok Hsz. unfold lz_unpack. pose proof (zlen_stream gs us) as Hlen. pose proof (zlen_nonneg t). unfold zlen in Hlen.
  replace (S (length (stream gs us))) with (length (concat gs ++ us) + S (length (stream gs us) - length (concat gs ++ us)))%nat by lia.
  change (@nil Z) with (prefix_of t 0). rewrite unpack_stream_ok by (done || lia). rewrite Z.add_0_l, Hsz, Z.eqb_refl.
  unfold prefix_of. rewrite zlen_to_nat, firstn_all. done.
Qed.

End Unpack.
