(* ===== verification/Lzss3Tree.v ===== *)
(** * Lzss3Tree

    The binary search trees of the LZSS3 engine as graphs: what links them, when they
    are well-formed, and that linking a leaf, substituting a node for another and
    splicing a node out keep them so. *)

From S2P Require Import Prelude Protocol Lzss3.

Record tree := mkTree { par : array; lc : array; rc : array }.

(** Nodes in a tree, and the roots, one for each first byte. *)
Definition live (t : tree) (p : Z) : Prop := 0 <= p < LZSS_SIZE /\ par t p <> LZSS_NIL.
Definition is_root (p : Z) : Prop := LZSS_SIZE < p <= LZSS_SIZE + 256.
Definition slot_of (t : tree) (p : Z) : Prop := live t p \/ is_root p.

(** Children and parents agree; a node has the first byte [fb] of the tree it is in; and
    going down goes deeper. *)
Record tree_inv (fb : Z -> Z) (depth : Z -> nat) (t : tree) : Prop := mkTreeInv {
  ti_right : forall p, slot_of t p -> rc t p <> LZSS_NIL -> live t (rc t p) /\ par t (rc t p) = p;
  ti_left : forall p, live t p -> lc t p <> LZSS_NIL -> live t (lc t p) /\ par t (lc t p) = p;
  ti_apart : forall p, live t p -> lc t p = rc t p -> rc t p = LZSS_NIL;
  ti_up : forall q, live t q ->
    (is_root (par t q) /\ rc t (par t q) = q /\ par t q = fb q + LZSS_SIZE + 1)
    \/ (live t (par t q) /\ (rc t (par t q) = q \/ lc t (par t q) = q) /\ fb (par t q) = fb q
        /\ (depth (par t q) < depth q)%nat);
}.

(** ** Updates *)

Lemma upd_eq a i v : upd a i v i = v.
Proof. unfold upd. by rewrite Z.eqb_refl. Qed.

Lemma upd_ne a i v j : j <> i -> upd a i v j = a j.
Proof. intros H. unfold upd. destruct (j =? i) eqn:E; zbool; done. Qed.

(** Decides the updates in the goal, by cases where necessary. *)
Ltac upd_here :=
  repeat match goal with
  | |- context [upd ?a ?i ?v ?j] =>
      first [ rewrite (upd_eq a i v) | rewrite (upd_ne a i v j) by (congruence || lia)
            | destruct (Z.eq_dec j i) as [?|?]; [subst; rewrite (upd_eq a)|rewrite (upd_ne a i v j) by done] ]
  end.

Lemma live_range t p : live t p -> 0 <= p < LZSS_SIZE.
Proof. by intros []. Qed.

Lemma root_range p : is_root p -> LZSS_SIZE < p <= LZSS_SIZE + 256.
Proof. done. Qed.

(** ** Linking a leaf *)

Definition leaf_r (t : tree) (p n : Z) : tree :=
  mkTree (upd (par t) n p) (lc t) (upd (rc t) p n).
Definition leaf_l (t : tree) (p n : Z) : tree :=
  mkTree (upd (par t) n p) (upd (lc t) p n) (rc t).

Definition deepen (depth : Z -> nat) (n : Z) (k : nat) : Z -> nat := fun x => if x =? n then k else depth x.

Lemma deepen_eq depth n k : deepen depth n k n = k.
Proof. unfold deepen. by rewrite Z.eqb_refl. Qed.
Lemma deepen_ne depth n k x : x <> n -> deepen depth n k x = depth x.
Proof. intros H. unfold deepen. destruct (x =? n) eqn:E; zbool; done. Qed.

Section Leaf.
Context (fb : Z -> Z) (depth : Z -> nat) (t : tree) (p n : Z).
Context (Ht : tree_inv fb depth t) (Hn : 0 <= n < LZSS_SIZE) (Hnl : ~ live t n).
Context (Hln : lc t n = LZSS_NIL) (Hrn : rc t n = LZSS_NIL).

Lemma live_leaf (t' : tree) x : par t' = upd (par t) n p -> slot_of t p -> live t' x <-> live t x \/ x = n.
Proof.
  intros Hp Hs. unfold live. rewrite Hp. destruct (Z.eq_dec x n) as [->|Hne].
  - rewrite upd_eq. split; [by right|]. intros _. split; [done|].
    destruct Hs as [[? _]|[? _]]; unfold LZSS_NIL; lia.
  - rewrite upd_ne by done. tauto.
Qed.

Lemma leaf_r_inv :
  slot_of t p -> rc t p = LZSS_NIL -> (is_root p -> p = fb n + LZSS_SIZE + 1) -> (live t p -> fb p = fb n) ->
  tree_inv fb (deepen depth n (S (depth p))) (leaf_r t p n).
Proof.
  intros Hs Hr Hroot Hfb. pose proof (fun x => live_leaf (leaf_r t p n) x eq_refl Hs) as Hl.
  assert (p <> n) as Hpn by (intros ->; destruct Hs as [Hs|[? _]]; [done|lia]).
  destruct Ht as [HR HL HA HU]. constructor; cbn [leaf_r par lc rc].
  - intros x Hx Hne. destruct (Z.eq_dec x n) as [->|Hxn].
    { rewrite upd_ne in Hne by congruence. done. }
    destruct (Z.eq_dec x p) as [->|Hxp].
    { rewrite upd_eq in *. split; [by apply Hl; right|apply upd_eq]. }
    rewrite !upd_ne in Hne |- * by done. destruct (HR x) as [H1 H2]; [|done|].
    { destruct Hx as [Hx|Hx]; [|by right]. apply Hl in Hx as [Hx|Hx]; [by left|done]. }
    split; [by apply Hl; left|]. rewrite upd_ne; [done|]. congruence.
  - intros x Hx Hne. destruct (Z.eq_dec x n) as [->|Hxn]; [done|].
    apply Hl in Hx as [Hx|Hx]; [|done]. destruct (HL x Hx Hne) as [H1 H2].
    split; [by apply Hl; left|]. rewrite upd_ne; [done|]. congruence.
  - intros x Hx. destruct (Z.eq_dec x n) as [->|Hxn].
    { rewrite upd_ne by congruence. done. }
    apply Hl in Hx as [Hx|Hx]; [|done]. destruct (Z.eq_dec x p) as [->|Hxp].
    { rewrite upd_eq. intros Heq. destruct (HL p Hx) as [H1 _]; [rewrite Heq; unfold LZSS_NIL; lia|]. by rewrite Heq in H1. }
    rewrite !upd_ne by done. by apply HA.
  - intros q Hq. apply Hl in Hq as [Hq| ->].
    + assert (q <> n) by congruence. rewrite (upd_ne (par t)) by done. destruct (HU q Hq) as [(H1 & H2 & H3)|(H1 & H2 & H3 & H4)].
      * left. split; [done|]. split; [|done]. destruct H1. destruct (Z.eq_dec (par t q) p) as [E|E].
        { rewrite E in H2. destruct Hq. unfold LZSS_NIL in *. lia. }
        rewrite !upd_ne by lia. done.
      * right. assert (par t q <> n) as Hqn by congruence. rewrite !deepen_ne by done. split; [by apply Hl; left|].
        split; [|done]. destruct H2 as [H2|H2]; [left|by right].
        destruct (Z.eq_dec (par t q) p) as [E|E]; [rewrite E in H2; destruct Hq; unfold LZSS_NIL in *; lia|].
        by rewrite !upd_ne.
    + rewrite (upd_eq (par t)). rewrite (upd_eq (rc t)). rewrite deepen_eq, deepen_ne by done. destruct Hs as [Hs|Hs].
      * right. split; [by apply Hl; left|]. split; [by left|]. split; [by apply Hfb|lia].
      * left. split; [done|]. split; [done|by apply Hroot].
Qed.

Lemma leaf_l_inv : live t p -> lc t p = LZSS_NIL -> fb p = fb n ->
  tree_inv fb (deepen depth n (S (depth p))) (leaf_l t p n).
Proof.
  intros Hs Hr Hfb. pose proof (fun x => live_leaf (leaf_l t p n) x eq_refl (or_introl Hs)) as Hl.
  assert (p <> n) as Hpn by congruence.
  destruct Ht as [HR HL HA HU]. constructor; cbn [leaf_l par lc rc].
  - intros x Hx Hne. destruct (Z.eq_dec x n) as [->|Hxn]; [done|].
    destruct (HR x) as [H1 H2]; [|done|].
    { destruct Hx as [Hx|Hx]; [|by right]. apply Hl in Hx as [Hx|Hx]; [by left|done]. }
    split; [by apply Hl; left|]. rewrite upd_ne; [done|]. congruence.
  - intros x Hx Hne. destruct (Z.eq_dec x n) as [->|Hxn].
    { rewrite upd_ne in Hne by congruence. done. }
    destruct (Z.eq_dec x p) as [->|Hxp].
    { rewrite upd_eq in *. split; [by apply Hl; right|apply upd_eq]. }
    rewrite !upd_ne in Hne |- * by done. apply Hl in Hx as [Hx|Hx]; [|done]. destruct (HL x Hx Hne) as [H1 H2].
    split; [by apply Hl; left|]. rewrite upd_ne; [done|]. congruence.
  - intros x Hx. destruct (Z.eq_dec x n) as [->|Hxn]; [done|].
    apply Hl in Hx as [Hx|Hx]; [|done]. destruct (Z.eq_dec x p) as [->|Hxp].
    { rewrite upd_eq. intros Heq. destruct (HR p (or_introl Hx)) as [H1 _]; [rewrite <- Heq; unfold LZSS_NIL; lia|]. by rewrite <- Heq in H1. }
    rewrite !upd_ne by done. by apply HA.
  - intros q Hq. apply Hl in Hq as [Hq| ->].
    + assert (q <> n) by congruence. rewrite (upd_ne (par t)) by done. destruct (HU q Hq) as [(H1 & H2 & H3)|(H1 & H2 & H3 & H4)].
      * left. split; [done|]. split; [|done]. done.
      * right. assert (par t q <> n) as Hqn by congruence. rewrite !deepen_ne by done. split; [by apply Hl; left|].
        split; [|done]. destruct H2 as [H2|H2]; [by left|right].
        destruct (Z.eq_dec (par t q) p) as [E|E]; [rewrite E in H2; destruct Hq; unfold LZSS_NIL in *; lia|].
        by rewrite !upd_ne.
    + rewrite (upd_eq (par t)), (upd_eq (lc t)), deepen_eq, deepen_ne by done.
      right. split; [by apply Hl; left|]. split; [by right|]. split; [done|lia].
Qed.

End Leaf.

(** ** Substituting a node for another *)

Definition rename (p n x : Z) : Z := if x =? p then n else x.

Lemma rename_eq p n : rename p n p = n.
Proof. unfold rename. by rewrite Z.eqb_refl. Qed.
Lemma rename_ne p n x : x <> p -> rename p n x = x.
Proof. intros H. unfold rename. destruct (x =? p) eqn:E; zbool; done. Qed.

(** Tree [t'] is [t] with [n] in the place of [p]. *)
Record renamed (t t' : tree) (p n : Z) : Prop := mkRenamed {
  rn_live : forall y, live t' y <-> (live t y /\ y <> p) \/ y = n;
  rn_par : forall x, live t x -> par t' (rename p n x) = rename p n (par t x);
  rn_lc : forall x, live t x -> lc t' (rename p n x) = rename p n (lc t x);
  rn_rc : forall x, slot_of t x -> rc t' (rename p n x) = rename p n (rc t x);
}.

Lemma nil_not_live t : ~ live t LZSS_NIL.
Proof. intros [? _]. unfold LZSS_NIL in *. lia. Qed.

Lemma root_not_live t p : is_root p -> ~ live t p.
Proof. intros [? _] [? _]. lia. Qed.

Section Renamed.
Context (fb : Z -> Z) (depth : Z -> nat) (t t' : tree) (p n : Z).
Context (Ht : tree_inv fb depth t) (Hp : live t p) (Hn : 0 <= n < LZSS_SIZE) (Hnl : ~ live t n).
Context (Hfb : fb p = fb n) (Hr : renamed t t' p n).

Lemma renamed_origin y : slot_of t' y -> exists x, slot_of t x /\ y = rename p n x /\ (live t' y -> live t x).
Proof.
  intros Hy. destruct (Z.eq_dec y n) as [->|Hne].
  - exists p. rewrite rename_eq. split_and!; [by left|done|done].
  - exists y. destruct Hy as [Hy|Hy].
    + apply (rn_live _ _ _ _ Hr) in Hy as [[Hy Hyp]|?]; [|done]. rewrite rename_ne by done. split_and!; [by left|done|done].
    + assert (y <> p) by (intros ->; by apply (root_not_live t p)). rewrite rename_ne by done. split_and!; [by right|done|].
      intros Hl. by apply root_not_live in Hl.
Qed.

Lemma renamed_live x : live t x -> live t' (rename p n x).
Proof.
  intros Hx. apply (rn_live _ _ _ _ Hr). destruct (Z.eq_dec x p) as [->|Hne]; [right; apply rename_eq|].
  rewrite rename_ne by done. by left.
Qed.

Lemma renamed_nil x : live t x \/ x = LZSS_NIL -> rename p n x = LZSS_NIL <-> x = LZSS_NIL.
Proof.
  intros Hx. destruct (Z.eq_dec x p) as [->|Hne].
  - rewrite rename_eq. split; [unfold LZSS_NIL; lia|]. intros ->. by apply nil_not_live in Hp.
  - by rewrite rename_ne.
Qed.

Lemma renamed_inj x y : live t x \/ x = LZSS_NIL -> live t y \/ y = LZSS_NIL -> rename p n x = rename p n y -> x = y.
Proof.
  assert (forall z, live t z \/ z = LZSS_NIL -> z <> n) as Hz.
  { intros z [Hz| ->]; [congruence|unfold LZSS_NIL; lia]. }
  intros Hx Hy. unfold rename. pose proof (Hz x Hx). pose proof (Hz y Hy).
  destruct (x =? p) eqn:E1, (y =? p) eqn:E2; zbool; congruence.
Qed.

Lemma child_rc x : slot_of t x -> live t (rc t x) \/ rc t x = LZSS_NIL.
Proof. intros Hx. destruct (Z.eq_dec (rc t x) LZSS_NIL); [by right|]. left. by apply (ti_right _ _ _ Ht). Qed.
Lemma child_lc x : live t x -> live t (lc t x) \/ lc t x = LZSS_NIL.
Proof. intros Hx. destruct (Z.eq_dec (lc t x) LZSS_NIL); [by right|]. left. by apply (ti_left _ _ _ Ht). Qed.

Lemma renamed_slot x : slot_of t x -> slot_of t' (rename p n x).
Proof.
  intros [Hx|Hx]; [left; by apply renamed_live|]. rewrite rename_ne; [by right|]. intros ->. by apply (root_not_live t p).
Qed.

Lemma renamed_inv : tree_inv fb (deepen depth n (depth p)) t'.
Proof.
  pose proof (rn_par _ _ _ _ Hr) as HP. pose proof (rn_lc _ _ _ _ Hr) as HLC. pose proof (rn_rc _ _ _ _ Hr) as HRC.
  constructor.
  - intros y Hy Hne. destruct (renamed_origin y Hy) as (x & Hx & -> & _). rewrite HRC in Hne |- * by done.
    rewrite (renamed_nil _ (child_rc x Hx)) in Hne. destruct (ti_right _ _ _ Ht x Hx Hne) as [H1 H2].
    split; [by apply renamed_live|]. by rewrite HP, H2.
  - intros y Hy Hne. destruct (renamed_origin y (or_introl Hy)) as (x & _ & -> & Hx). specialize (Hx Hy).
    rewrite HLC in Hne |- * by done. rewrite (renamed_nil _ (child_lc x Hx)) in Hne.
    destruct (ti_left _ _ _ Ht x Hx Hne) as [H1 H2]. split; [by apply renamed_live|]. by rewrite HP, H2.
  - intros y Hy. destruct (renamed_origin y (or_introl Hy)) as (x & Hs & -> & Hx). specialize (Hx Hy).
    rewrite HLC, HRC by done. intros Heq%renamed_inj; [|by apply child_lc|by apply child_rc].
    apply (renamed_nil _ (child_rc x Hs)). by apply (ti_apart _ _ _ Ht).
  - intros y Hy. destruct (renamed_origin y (or_introl Hy)) as (x & _ & -> & Hx). specialize (Hx Hy). rewrite HP by done.
    assert (forall z, live t z -> fb (rename p n z) = fb z /\ deepen depth n (depth p) (rename p n z) = depth z) as Hsame.
    { intros z Hz. destruct (Z.eq_dec z p) as [->|Hzp]; [by rewrite rename_eq, deepen_eq|].
      rewrite rename_ne, deepen_ne by congruence. done. }
    destruct (Hsame x Hx) as [-> ->]. destruct (ti_up _ _ _ Ht x Hx) as [(H1 & H2 & H3)|(H1 & H2 & H3 & H4)].
    + left. assert (par t x <> p) by (intros E; rewrite E in H1; by apply (root_not_live t p)).
      rewrite rename_ne by done. split; [done|]. split; [|done].
      rewrite <- (rename_ne p n (par t x)) by done. rewrite HRC by (by right). by rewrite H2.
    + right. destruct (Hsame (par t x) H1) as [-> ->]. split; [by apply renamed_live|]. split; [|done].
      rewrite HRC by (by left). rewrite HLC by done. destruct H2 as [-> | ->]; [by left|by right].
Qed.

End Renamed.

(** ** Splicing out a node with at most one child *)

(** Tree [t'] is [t] without [n], whose only child [q], if any, has taken its place. *)
Record spliced (t t' : tree) (n q : Z) : Prop := mkSpliced {
  sp_live : forall y, live t' y <-> live t y /\ y <> n;
  sp_par : forall x, live t x -> x <> n -> par t' x = if x =? q then par t n else par t x;
  sp_lc : forall x, live t x -> x <> n -> lc t' x = if lc t x =? n then q else lc t x;
  sp_rc : forall x, slot_of t x -> x <> n -> rc t' x = if rc t x =? n then q else rc t x;
}.

Section Spliced.
Context (fb : Z -> Z) (depth : Z -> nat) (t t' : tree) (n q : Z).
Context (Ht : tree_inv fb depth t) (Hn : live t n).
Context (Hq : (rc t n = LZSS_NIL /\ lc t n = q) \/ (lc t n = LZSS_NIL /\ rc t n = q)) (Hs : spliced t t' n q).

Lemma only_child : q <> LZSS_NIL -> live t q /\ par t q = n.
Proof.
  intros Hne. destruct Hq as [[_ <-]|[_ <-]]; [by apply (ti_left _ _ _ Ht)|apply (ti_right _ _ _ Ht); [by left|done]].
Qed.

Lemma par_irrefl x : live t x -> par t x <> x.
Proof.
  intros Hx He. destruct (ti_up _ _ _ Ht x Hx) as [(H1 & _)|(_ & _ & _ & H4)].
  - rewrite He in H1. by apply (root_not_live t x).
  - rewrite He in H4. lia.
Qed.

Lemma other_parent x : live t x -> x <> q -> par t x <> n.
Proof.
  intros Hx Hne He. destruct (ti_up _ _ _ Ht x Hx) as [(H1 & _)|(_ & H2 & _)].
  - rewrite He in H1. by apply (root_not_live t n).
  - rewrite He in H2. destruct Hq as [[E1 E2]|[E1 E2]]; rewrite E1 in H2; destruct H2 as [H2|H2]; subst; try done;
      by apply nil_not_live in Hx.
Qed.

Lemma q_not_n : q <> n.
Proof.
  intros He. assert (q <> LZSS_NIL) as Hne by (rewrite He; destruct Hn; unfold LZSS_NIL; lia).
  destruct (only_child Hne) as [H1 H2]. rewrite He in H2. by apply (par_irrefl n).
Qed.

Lemma spliced_child (child : tree -> Z -> Z) x :
  x <> n -> child t' x = (if child t x =? n then q else child t x) ->
  (child t x <> LZSS_NIL -> live t (child t x) /\ par t (child t x) = x) ->
  child t' x <> LZSS_NIL -> live t' (child t' x) /\ par t' (child t' x) = x.
Proof.
  intros Hxn Hc Hold Hne. rewrite Hc in Hne |- *. destruct (child t x =? n) eqn:E; zbool.
  - destruct (only_child Hne) as [H1 H2]. destruct Hold as [H3 H4]; [by rewrite E; destruct Hn; unfold LZSS_NIL; lia|].
    split; [apply (sp_live _ _ _ _ Hs); split; [done|apply q_not_n]|]. rewrite (sp_par _ _ _ _ Hs) by (done || apply q_not_n).
    rewrite Z.eqb_refl. by rewrite <- E.
  - destruct (Hold Hne) as [H1 H2]. split; [by apply (sp_live _ _ _ _ Hs)|]. rewrite (sp_par _ _ _ _ Hs) by done.
    destruct (child t x =? q) eqn:E'; zbool; [|done]. destruct (only_child) as [_ H3]; [by rewrite <- E'|]. congruence.
Qed.

Lemma spliced_inv : tree_inv fb depth t'.
Proof.
  pose proof (sp_live _ _ _ _ Hs) as HL. constructor.
  - intros x Hx. assert (slot_of t x /\ x <> n) as [Hx' Hxn].
    { destruct Hx as [Hx|Hx]; [apply HL in Hx as [? ?]; split; [by left|done]|].
      split; [by right|]. intros ->. by apply (root_not_live t n). }
    apply (spliced_child rc); [done|by apply (sp_rc _ _ _ _ Hs)|by apply (ti_right _ _ _ Ht)].
  - intros x Hx. apply HL in Hx as [Hx Hxn].
    apply (spliced_child lc); [done|by apply (sp_lc _ _ _ _ Hs)|by apply (ti_left _ _ _ Ht)].
  - intros x Hx. apply HL in Hx as [Hx Hxn]. rewrite (sp_lc _ _ _ _ Hs), (sp_rc _ _ _ _ Hs) by (done || by left).
    pose proof (ti_apart _ _ _ Ht x Hx) as HA.
    assert (forall z, live t z -> par t z = x -> z <> q) as Hzq.
    { intros z Hz Hp ->. destruct (only_child) as [_ ?]; [intros ->; by apply nil_not_live in Hz|]. congruence. }
    destruct (lc t x =? n) eqn:E1, (rc t x =? n) eqn:E2; zbool; intros Heq.
    + rewrite E1, E2 in HA. specialize (HA eq_refl). destruct Hn. unfold LZSS_NIL in *. lia.
    + destruct (Z.eq_dec (rc t x) LZSS_NIL) as [|Hne]; [done|]. destruct (ti_right _ _ _ Ht x (or_introl Hx) Hne). by destruct (Hzq (rc t x)).
    + destruct (Z.eq_dec (lc t x) LZSS_NIL) as [Hz|Hne]; [congruence|]. destruct (ti_left _ _ _ Ht x Hx Hne). by destruct (Hzq (lc t x)).
    + by apply HA.
  - intros y Hy. apply HL in Hy as [Hy Hyn]. rewrite (sp_par _ _ _ _ Hs) by done. destruct (y =? q) eqn:E; zbool.
    + subst y. destruct (only_child) as [_ Hpq]; [intros ->; by apply nil_not_live in Hy|].
      destruct (ti_up _ _ _ Ht q Hy) as [(H1 & _)|(_ & _ & H3 & H4)]; [rewrite Hpq in H1; by apply (root_not_live t n) in H1|].
      rewrite Hpq in H3, H4. pose proof (par_irrefl n Hn).
      destruct (ti_up _ _ _ Ht n Hn) as [(G1 & G2 & G3)|(G1 & G2 & G3 & G4)].
      * left. split; [done|]. rewrite (sp_rc _ _ _ _ Hs) by (done || by right). rewrite G2, Z.eqb_refl. split; [done|congruence].
      * right. split; [by apply HL|]. rewrite (sp_rc _ _ _ _ Hs), (sp_lc _ _ _ _ Hs) by (done || by left).
        split; [|split; [congruence|lia]]. destruct G2 as [-> | ->]; [left|right]; by rewrite Z.eqb_refl.
    + pose proof (other_parent y Hy E) as Hpn. destruct (ti_up _ _ _ Ht y Hy) as [(H1 & H2 & H3)|(H1 & H2 & H3 & H4)].
      * left. split; [done|]. split; [|done]. rewrite (sp_rc _ _ _ _ Hs) by (done || by right). rewrite H2. destruct (y =? n) eqn:E'; zbool; done.
      * right. split; [by apply HL|]. split; [|done]. rewrite (sp_rc _ _ _ _ Hs), (sp_lc _ _ _ _ Hs) by (done || by left).
        destruct H2 as [-> | ->]; [left|right]; (destruct (y =? n) eqn:E'; zbool; done).
Qed.

End Spliced.
