(* ===== verification/Lzss3Nodes.v ===== *)
(** * Lzss3Nodes

    [insert_node] and [delete_node] of the LZSS3 engine keep its trees well-formed, stay
    within the arrays and terminate; the match that [insert_node] reports is one. *)

From S2P Require Import Prelude Protocol Lzss3 Lzss3Tree.

Definition tree_of (e : engine) : tree := mkTree (lzss_parent e) (lzss_lchild e) (lzss_rchild e).

Lemma get_ok size a i : 0 <= i < size -> get size a i = Some (a i).
Proof. intros H. unfold get, in_bounds. destruct (0 <=? i) eqn:E1, (i <? size) eqn:E2; zbool; done || lia. Qed.

Lemma put_ok size a i v : 0 <= i < size -> put size a i v = Some (upd a i v).
Proof. intros H. unfold put, in_bounds. destruct (0 <=? i) eqn:E1, (i <? size) eqn:E2; zbool; done || lia. Qed.

Ltac lz_unfold := unfold RING_SIZE, LCHILD_SIZE, RCHILD_SIZE, PARENT_SIZE, LZSS_NIL, LZSS_SIZE, LZSS_HI, LZSS_LO in *.
Ltac lz_lia := lz_unfold; lia.

(** Accesses to the arrays of an engine. *)
Lemma get_parent_ok e i : 0 <= i < PARENT_SIZE -> get_parent e i = Some (lzss_parent e i).
Proof. apply get_ok. Qed.
Lemma get_lchild_ok e i : 0 <= i < LCHILD_SIZE -> get_lchild e i = Some (lzss_lchild e i).
Proof. apply get_ok. Qed.
Lemma get_rchild_ok e i : 0 <= i < RCHILD_SIZE -> get_rchild e i = Some (lzss_rchild e i).
Proof. apply get_ok. Qed.
Lemma get_ring_ok e i : 0 <= i < RING_SIZE -> get_ring e i = Some (lzss_ring_buffer e i).
Proof. apply get_ok. Qed.

Definition set_parent (e : engine) (i v : Z) : engine :=
  mkEngine (lzss_ring_buffer e) (lzss_match_length e) (lzss_match_position e) (lzss_lchild e) (lzss_rchild e) (upd (lzss_parent e) i v).
Definition set_lchild (e : engine) (i v : Z) : engine :=
  mkEngine (lzss_ring_buffer e) (lzss_match_length e) (lzss_match_position e) (upd (lzss_lchild e) i v) (lzss_rchild e) (lzss_parent e).
Definition set_rchild (e : engine) (i v : Z) : engine :=
  mkEngine (lzss_ring_buffer e) (lzss_match_length e) (lzss_match_position e) (lzss_lchild e) (upd (lzss_rchild e) i v) (lzss_parent e).

Lemma put_parent_ok e i v : 0 <= i < PARENT_SIZE -> put_parent e i v = Some (set_parent e i v).
Proof. intros H. unfold put_parent. by rewrite put_ok. Qed.
Lemma put_lchild_ok e i v : 0 <= i < LCHILD_SIZE -> put_lchild e i v = Some (set_lchild e i v).
Proof. intros H. unfold put_lchild. by rewrite put_ok. Qed.
Lemma put_rchild_ok e i v : 0 <= i < RCHILD_SIZE -> put_rchild e i v = Some (set_rchild e i v).
Proof. intros H. unfold put_rchild. by rewrite put_ok. Qed.

(** Runs the next access to an array, whose bounds follow from the context. *)
Ltac lz_step :=
  first [ rewrite get_parent_ok by lz_lia | rewrite get_lchild_ok by lz_lia | rewrite get_rchild_ok by lz_lia
        | rewrite put_parent_ok by lz_lia | rewrite put_lchild_ok by lz_lia | rewrite put_rchild_ok by lz_lia ];
  cbn [mbind option_bind set_parent set_lchild set_rchild lzss_ring_buffer lzss_match_length lzss_match_position lzss_lchild lzss_rchild lzss_parent].

(** The parts that the operations on nodes leave alone. *)
Definition same_text (e e' : engine) : Prop :=
  lzss_ring_buffer e' = lzss_ring_buffer e /\ lzss_match_length e' = lzss_match_length e
  /\ lzss_match_position e' = lzss_match_position e.

(** Ranges of links, for the bounds of accesses. *)
Lemma live_bounds t p : live t p -> 0 <= p < 4096 /\ par t p <> 4096.
Proof. by intros []. Qed.

Lemma live_not_nil t p : live t p -> p <> LZSS_NIL.
Proof. intros [? _]. lz_lia. Qed.

Lemma child_bounds t x : live t x \/ x = LZSS_NIL -> 0 <= x <= 4096.
Proof. intros [[H _]| ->]; lz_lia. Qed.

Lemma slot_bounds t x : slot_of t x -> 0 <= x < 4353 /\ x <> 4096.
Proof. intros [[H _]|H]; unfold is_root in *; lz_lia. Qed.

Lemma parent_slot fb depth t q : tree_inv fb depth t -> live t q -> slot_of t (par t q).
Proof. intros Ht Hq. destruct (ti_up _ _ _ Ht q Hq) as [(H & _)|(H & _)]; [by right|by left]. Qed.

(** A parent that does not have a node on its right has it on its left. *)
Lemma parent_left fb depth t q : tree_inv fb depth t -> live t q -> rc t (par t q) <> q ->
  live t (par t q) /\ lc t (par t q) = q.
Proof.
  intros Ht Hq Hne. destruct (ti_up _ _ _ Ht q Hq) as [(_ & H & _)|(H1 & [H|H] & _)]; done.
Qed.

(** ** Putting a node in the place of another *)

(** Links after [node] has taken over the parent and the children of [p]. *)
Record taken_over (t t' : tree) (p node : Z) : Prop := mkTakenOver {
  to_gone : par t' p = LZSS_NIL;
  to_par : par t' node = par t p;
  to_lc : lc t' node = lc t p;
  to_rc : rc t' node = rc t p;
  to_others : forall x, live t x -> x <> p -> par t' x = if (x =? lc t p) || (x =? rc t p) then node else par t x;
  to_dead : forall x, 0 <= x < LZSS_SIZE -> x <> node -> ~ live t x -> par t' x = LZSS_NIL;
  to_others_lc : forall x, live t x -> x <> p -> lc t' x = if lc t x =? p then node else lc t x;
  to_others_rc : forall x, slot_of t x -> x <> p -> rc t' x = if rc t x =? p then node else rc t x;
}.

Section TakenOver.
Context (fb : Z -> Z) (depth : Z -> nat) (t t' : tree) (p node : Z).
Context (Ht : tree_inv fb depth t) (Hp : live t p) (Hn : 0 <= node < LZSS_SIZE) (Hnl : ~ live t node).
Context (Hto : taken_over t t' p node).

Lemma child_of x : live t x -> par t x = p <-> (x =? lc t p) || (x =? rc t p) = true.
Proof.
  intros Hx. assert (x <> LZSS_NIL) as Hnil by (destruct Hx; lz_lia). split.
  - intros Hxp. destruct (ti_up _ _ _ Ht x Hx) as [(H1 & _)|(_ & H2 & _)]; rewrite Hxp in *; [by apply (root_not_live t p) in H1|].
    apply orb_true_iff. destruct H2 as [<-|<-]; [right|left]; apply Z.eqb_refl.
  - intros [E|E]%orb_true_iff; zbool; subst x; [by apply (ti_left _ _ _ Ht)|apply (ti_right _ _ _ Ht); [by left|done]].
Qed.

Lemma own_child : lc t p <> p /\ rc t p <> p.
Proof.
  pose proof (par_irrefl fb depth t Ht p Hp). pose proof (live_bounds _ _ Hp).
  split; intros E; [destruct (ti_left _ _ _ Ht p Hp) as [_ H']|destruct (ti_right _ _ _ Ht p (or_introl Hp)) as [_ H']];
    rewrite E in *; try done; lz_lia.
Qed.

Lemma taken_over_renamed : renamed t t' p node.
Proof.
  pose proof (parent_slot _ _ _ _ Ht Hp) as Hd. pose proof (slot_bounds _ _ Hd). pose proof own_child as [Hlp Hrp].
  assert (node <> p) as Hnp by congruence. constructor.
  - intros y. destruct (Z.eq_dec y p) as [->|Hyp].
    { unfold live. rewrite (to_gone _ _ _ _ Hto). intuition congruence. }
    destruct (Z.eq_dec y node) as [->|Hyn].
    { unfold live at 1. rewrite (to_par _ _ _ _ Hto). split; [by right|]. intros _. split; [done|lz_lia]. }
    split.
    + intros [Hy Hne]. left. split; [|done]. split; [done|]. intros E. apply Hne. apply (to_dead _ _ _ _ Hto); [done|done|]. by intros [].
    + intros [[Hy _]|?]; [|done]. split; [apply Hy|]. rewrite (to_others _ _ _ _ Hto) by done. destruct (_ || _); [lz_lia|apply Hy].
  - intros x Hx. destruct (Z.eq_dec x p) as [->|Hxp].
    { rewrite rename_eq, (to_par _ _ _ _ Hto), rename_ne; [done|]. by apply (par_irrefl fb depth t Ht). }
    rewrite rename_ne, (to_others _ _ _ _ Hto) by done. destruct ((x =? lc t p) || (x =? rc t p)) eqn:E.
    + apply child_of in E; [|done]. by rewrite E, rename_eq.
    + rewrite rename_ne; [done|]. intros Hxp'. apply child_of in Hxp'; [congruence|done].
  - intros x Hx. destruct (Z.eq_dec x p) as [->|Hxp]; [by rewrite rename_eq, (to_lc _ _ _ _ Hto), rename_ne|].
    by rewrite rename_ne, (to_others_lc _ _ _ _ Hto) by done.
  - intros x Hx. destruct (Z.eq_dec x p) as [->|Hxp]; [by rewrite rename_eq, (to_rc _ _ _ _ Hto), rename_ne|].
    by rewrite rename_ne, (to_others_rc _ _ _ _ Hto) by done.
Qed.

End TakenOver.

(** The slot of the parent that a node is in. *)
Lemma slot_right fb depth t p x : tree_inv fb depth t -> live t p -> slot_of t x -> rc t x = p -> x = par t p.
Proof.
  intros Ht Hp Hx He. destruct (ti_right _ _ _ Ht x Hx) as [_ H]; [rewrite He; destruct Hp; lz_lia|]. congruence.
Qed.
Lemma slot_left fb depth t p x : tree_inv fb depth t -> live t p -> live t x -> lc t x = p -> x = par t p /\ rc t (par t p) <> p.
Proof.
  intros Ht Hp Hx He. destruct (ti_left _ _ _ Ht x Hx) as [_ H]; [rewrite He; destruct Hp; lz_lia|].
  assert (x = par t p) as -> by congruence. split; [done|]. intros Hr. pose proof (ti_apart _ _ _ Ht _ Hx) as HA.
  rewrite He, Hr in HA. specialize (HA eq_refl). destruct Hp. lz_lia.
Qed.

(** Redirecting the slot of [p] in its parent to [node]: right if [p] is there, else left. *)
Lemma redirect_rc fb depth t p node x : tree_inv fb depth t -> live t p -> slot_of t x ->
  (if rc t (par t p) =? p then upd (rc t) (par t p) node else rc t) x = if rc t x =? p then node else rc t x.
Proof.
  intros Ht Hp Hx. destruct (rc t x =? p) eqn:E; zbool.
  - rewrite <- (slot_right _ _ _ _ _ Ht Hp Hx E), E, Z.eqb_refl. apply upd_eq.
  - destruct (rc t (par t p) =? p) eqn:E'; [|done]. zbool. apply upd_ne. congruence.
Qed.
Lemma redirect_lc fb depth t p node x : tree_inv fb depth t -> live t p -> live t x ->
  (if rc t (par t p) =? p then lc t else upd (lc t) (par t p) node) x = if lc t x =? p then node else lc t x.
Proof.
  intros Ht Hp Hx. destruct (lc t x =? p) eqn:E; zbool.
  - destruct (slot_left _ _ _ _ _ Ht Hp Hx E) as [-> Hne]. destruct (_ =? p) eqn:E'; zbool; [done|]. apply upd_eq.
  - destruct (rc t (par t p) =? p) eqn:E'; zbool; [done|]. apply upd_ne. intros ->.
    destruct (parent_left _ _ _ _ Ht Hp E') as [_ ?]. congruence.
Qed.

Lemma replace_node_ok fb depth e node p :
  tree_inv fb depth (tree_of e) -> live (tree_of e) p -> 0 <= node < LZSS_SIZE -> ~ live (tree_of e) node ->
  exists e', replace_node e node p = Some e' /\ same_text e e' /\ renamed (tree_of e) (tree_of e') p node.
Proof.
  intros Ht Hp Hn Hnl.
  pose proof (parent_slot _ _ _ _ Ht Hp) as Hd. pose proof (par_irrefl fb depth _ Ht p Hp) as Hdp.
  pose proof (slot_bounds _ _ Hd) as Hdb. pose proof (live_bounds _ _ Hp) as [Hpb _].
  pose proof (child_lc fb depth _ Ht p Hp) as Hlc. pose proof (child_rc fb depth _ Ht p (or_introl Hp)) as Hrc.
  pose proof (child_bounds _ _ Hlc) as Hlb. pose proof (child_bounds _ _ Hrc) as Hrb.
  destruct e as [ring ml mp l r pa]. set (t := tree_of _) in *. change pa with (par t). change l with (lc t). change r with (rc t).
  clearbody t. clear l r pa.
  assert (node <> p) as Hnp by congruence.
  assert (node <> par t p) as Hnd by (destruct Hd as [Hd|Hd]; [congruence|unfold is_root in Hd; lia]).
  assert (forall x, slot_of t x -> x <> node) as Hslot by (intros x [Hx|[Hx _]]; [congruence|lia]).
  unfold replace_node. do 7 lz_step. rewrite (upd_ne (lc t) node _ p) by congruence. lz_step. lz_step.
  rewrite (upd_ne (rc t) node _ p) by congruence. lz_step. lz_step. rewrite (upd_ne (rc t) node _ (par t p)) by congruence.
  set (par' := upd (upd (upd (par t) node (par t p)) (lc t p) node) (rc t p) node).
  assert (exists e', (e ← (if rc t (par t p) =? p
      then put_rchild (mkEngine ring ml mp (upd (lc t) node (lc t p)) (upd (rc t) node (rc t p)) par') (par t p) node
      else put_lchild (mkEngine ring ml mp (upd (lc t) node (lc t p)) (upd (rc t) node (rc t p)) par') (par t p) node);
      put_parent e p LZSS_NIL) = Some e'
    /\ lzss_ring_buffer e' = ring /\ lzss_match_length e' = ml /\ lzss_match_position e' = mp
    /\ lzss_parent e' = upd par' p LZSS_NIL
    /\ (forall x, x <> node -> lzss_lchild e' x = (if rc t (par t p) =? p then lc t else upd (lc t) (par t p) node) x)
    /\ (forall x, x <> node -> lzss_rchild e' x = (if rc t (par t p) =? p then upd (rc t) (par t p) node else rc t) x)
    /\ lzss_lchild e' node = lc t p /\ lzss_rchild e' node = rc t p) as (e' & He' & H1 & H2 & H3 & H4 & H5 & H6 & H7 & H8).
  { destruct (rc t (par t p) =? p) eqn:E; zbool.
    - lz_step. lz_step. eexists. split; [reflexivity|]. cbn. split_and!; try done; intros; upd_here; done.
    - destruct (parent_left _ _ _ _ Ht Hp E) as [Hdl _]. pose proof (live_bounds _ _ Hdl).
      lz_step. lz_step. eexists. split; [reflexivity|]. cbn. split_and!; try done; intros; upd_here; done. }
  exists e'. split; [exact He'|]. split; [done|]. eapply taken_over_renamed; [done..|].
  constructor; cbn [tree_of par lc rc]; rewrite ?H4.
  - apply upd_eq.
  - rewrite upd_ne by done. unfold par'. rewrite (upd_ne _ (rc t p)), (upd_ne _ (lc t p)); [apply upd_eq|..]; intros E.
    + destruct Hlc as [Hlc|Hlc]; [congruence|lz_lia].
    + destruct Hrc as [Hrc|Hrc]; [congruence|lz_lia].
  - done.
  - done.
  - intros x Hx Hxp. rewrite upd_ne by done. unfold par', upd at 1 2. destruct (x =? rc t p), (x =? lc t p); cbn; try done.
    rewrite upd_ne by congruence. done.
  - intros x Hx Hxn Hxl. destruct (Z.eq_dec x p) as [->|Hxp]; [apply upd_eq|]. rewrite upd_ne by done. unfold par'.
    rewrite !upd_ne; [| |intros ->|intros ->]; try done.
    + destruct (Z.eq_dec (par t x) LZSS_NIL); [done|]. by destruct Hxl.
    + destruct Hlc as [?|Hlc]; [done|lz_lia].
    + destruct Hrc as [?|Hrc]; [done|lz_lia].
  - intros x Hx Hxp. rewrite H5 by congruence. by eapply redirect_lc.
  - intros x Hx Hxp. rewrite H6 by (by apply Hslot). by eapply redirect_rc.
Qed.

(** ** Walks down a tree *)

(** The nodes passed on the way down are different: there are at most [LZSS_SIZE]. *)
Record walk (depth : Z -> nat) (t : tree) (vis : list Z) (p : Z) : Prop := mkWalk {
  wk_nodup : NoDup vis;
  wk_live : Forall (live t) vis;
  wk_above : forall x, x ∈ vis -> live t p /\ (depth x <= depth p)%nat;
}.

Lemma walk_length depth t vis p : walk depth t vis p -> (length vis <= Z.to_nat LZSS_SIZE)%nat.
Proof.
  intros [Hd Hl _]. rewrite <- (length_seqZ 0 LZSS_SIZE). apply submseteq_length, NoDup_submseteq; [done|].
  intros x Hx. rewrite Forall_forall in Hl. apply elem_of_seqZ. destruct (Hl x Hx). lia.
Qed.

Lemma walk_step fb depth t vis p q : tree_inv fb depth t -> walk depth t vis p -> slot_of t p ->
  live t q -> par t q = p -> walk depth t (q :: vis) q.
Proof.
  intros Ht [Hd Hl Ha] Hp Hq Hqp. assert (forall x, x ∈ vis -> (depth x < depth q)%nat) as Hlt.
  { intros x Hx. destruct (Ha x Hx) as [Hlp Hle]. destruct (ti_up _ _ _ Ht q Hq) as [(H & _)|(_ & _ & _ & H)]; rewrite Hqp in H; [|lia].
    by apply (root_not_live t) in H. }
  constructor.
  - constructor; [|done]. intros Hin. specialize (Hlt q Hin). lia.
  - by constructor.
  - intros x Hx. split; [done|]. apply elem_of_cons in Hx as [->|Hx]; [done|]. specialize (Hlt x Hx). lia.
Qed.

(** Well-formedness depends on the links of nodes and roots only. *)
Lemma tree_inv_ext fb fb' depth t t' :
  (forall x, live t' x <-> live t x) -> (forall x, live t x -> fb' x = fb x /\ par t' x = par t x /\ lc t' x = lc t x) ->
  (forall x, slot_of t x -> rc t' x = rc t x) -> tree_inv fb depth t -> tree_inv fb' depth t'.
Proof.
  intros Hl He Hr Ht. constructor.
  - intros p Hp. assert (slot_of t p) as Hp' by (destruct Hp as [Hp|Hp]; [left; by apply Hl|by right]). rewrite (Hr p Hp').
    intros Hne. destruct (ti_right _ _ _ Ht p Hp' Hne) as [H1 H2]. split; [by apply Hl|]. destruct (He _ H1) as (_ & -> & _). done.
  - intros p Hp%Hl. destruct (He p Hp) as (_ & _ & ->). intros Hne. destruct (ti_left _ _ _ Ht p Hp Hne) as [H1 H2].
    split; [by apply Hl|]. destruct (He _ H1) as (_ & -> & _). done.
  - intros p Hp%Hl. destruct (He p Hp) as (_ & _ & ->). rewrite (Hr p) by (by left). by apply (ti_apart _ _ _ Ht).
  - intros q Hq%Hl. pose proof (parent_slot _ _ _ _ Ht Hq) as Hs. destruct (He q Hq) as (Hf & -> & _). rewrite (Hr _ Hs), Hf.
    destruct (ti_up _ _ _ Ht q Hq) as [H|(H1 & H2 & H3 & H4)]; [by left|right]. destruct (He _ H1) as (-> & _ & ->).
    split; [by apply Hl|done].
Qed.

(** ** Insertion *)

Lemma compare_ok e node p n i : 0 <= node < LZSS_SIZE -> 0 <= p < LZSS_SIZE -> 0 <= i -> i + Z.of_nat n = LZSS_HI ->
  exists c j, compare n e node p i = Some (c, j) /\ i <= j <= LZSS_HI
    /\ forall k, i <= k < j -> lzss_ring_buffer e (node + k) = lzss_ring_buffer e (p + k).
Proof.
  intros Hn Hp. revert i. induction n as [|n IH]; intros i Hi Hin; cbn [compare].
  { eexists 0, i. split; [done|]. split; [lia|]. intros; lia. }
  rewrite !get_ring_ok by lz_lia. cbn [mbind option_bind]. destruct (negb _) eqn:E.
  - eexists _, i. split; [done|]. split; [lia|]. intros; lia.
  - apply negb_false_iff in E. zbool. destruct (IH (i + 1)) as (c & j & -> & Hj & Hk); [lia|lia|].
    eexists c, j. split; [done|]. split; [lia|]. intros k Hk'. destruct (Z.eq_dec k i) as [->|]; [lia|apply Hk; lia].
Qed.

(** What [insert_node] reports: the length of a match with a node, and the node. *)
Definition reported (t : tree) (ring : array) (node : Z) (e : engine) : Prop :=
  0 <= lzss_match_length e <= LZSS_HI
  /\ (lzss_match_length e = 0 \/ live t (lzss_match_position e)
      /\ forall k, 0 <= k < lzss_match_length e -> ring (node + k) = ring (lzss_match_position e + k)).

Section Insert.
Context (depth : Z -> nat) (t : tree) (ring : array) (node : Z).
Context (Ht : tree_inv ring depth t) (Hn : 0 <= node < LZSS_SIZE) (Hnl : ~ live t node).
Context (Hln : lc t node = LZSS_NIL) (Hrn : rc t node = LZSS_NIL).

(** Where the loop leaves the trees: with the node as a leaf, or as they were with the node
    that matches in full. *)
Definition linked (e' : engine) (full : option Z) : Prop :=
  match full with
  | Some p => tree_of e' = t /\ live t p /\ ring p = ring node
  | None => (exists depth', tree_inv ring depth' (tree_of e')) /\ (forall x, live (tree_of e') x -> live t x \/ x = node)
  end.

Lemma insert_loop_ok fuel e cmp p vis :
  tree_of e = t -> lzss_ring_buffer e = ring -> reported t ring node e ->
  walk depth t vis p -> (Z.to_nat LZSS_SIZE < fuel + length vis)%nat ->
  (live t p /\ ring p = ring node \/ p = ring node + LZSS_SIZE + 1 /\ is_root p /\ 0 <= cmp) ->
  exists e' full, insert_loop fuel e node cmp p = Some (e', full)
    /\ lzss_ring_buffer e' = ring /\ reported t ring node e' /\ linked e' full.
Proof.
  revert e cmp p vis. induction fuel as [|fuel IH]; intros e cmp p vis He Hring Hrep Hw Hfuel Hp.
  { pose proof (walk_length _ _ _ _ Hw). lia. }
  assert (slot_of t p) as Hs by (destruct Hp as [[]|(? & ? & ?)]; [by left|by right]).
  pose proof (slot_bounds _ _ Hs) as Hsb.
  set (next := fun (e : engine) (p : Z) =>
        '(cmp, i) ← compare (Z.to_nat (LZSS_HI - 1)) e node p 1;
        if lzss_match_length e <? i then
          let e := with_match e i p in
          if i =? LZSS_HI then Some (e, Some p) else insert_loop fuel e node cmp p
        else insert_loop fuel e node cmp p).
  assert (forall q, live t q -> par t q = p -> exists e' full, next e q = Some (e', full)
    /\ lzss_ring_buffer e' = ring /\ reported t ring node e' /\ linked e' full) as Hnext.
  { intros q Hq Hqp. pose proof (walk_step _ _ _ _ _ _ Ht Hw Hs Hq Hqp) as Hw'. pose proof (live_range _ _ Hq) as Hqb.
    assert (ring q = ring node) as Hfb.
    { destruct (ti_up _ _ _ Ht q Hq) as [(H1 & _ & H3)|(H1 & _ & H3 & _)]; rewrite Hqp in *; destruct Hp as [[Hp Hf]|(Hf & H & _)].
      - by apply (root_not_live t) in H1.
      - lia.
      - congruence.
      - by apply (root_not_live t) in H. }
    unfold next. destruct (compare_ok e node q (Z.to_nat (LZSS_HI - 1)) 1) as (c & j & -> & Hj & Hk); [done|done|lia|lz_lia|].
    rewrite Hring in Hk. cbn [mbind option_bind]. destruct (lzss_match_length e <? j) eqn:E; zbool.
    - assert (reported t ring node (with_match e j q)) as Hrep'.
      { split; cbn; [lz_lia|]. right. split; [done|]. intros k Hk'. destruct (Z.eq_dec k 0) as [->|]; [|apply Hk; lia].
        rewrite !Z.add_0_r. congruence. }
      destruct (j =? LZSS_HI) eqn:E'; zbool.
      + eexists _, _. split; [done|]. split; [done|]. split; [done|]. done.
      + apply (IH _ _ _ (q :: vis)); try done; [cbn [length]; lia|]. by left.
    - apply (IH _ _ _ (q :: vis)); try done; [cbn [length]; lia|]. by left. }
  cbn [insert_loop]. fold next. destruct (0 <=? cmp) eqn:Ec; zbool.
  - rewrite get_rchild_ok by lz_lia. cbn [mbind option_bind]. change (lzss_rchild e) with (rc (tree_of e)). rewrite He.
    destruct (rc t p =? LZSS_NIL) eqn:Er; zbool.
    + lz_step. lz_step. eexists _, _. split; [done|]. cbn [lzss_ring_buffer]. split; [done|]. split; [done|].
      assert (tree_of (set_parent (set_rchild e p node) node p) = leaf_r t p node) as Hleaf by (by rewrite <- He).
      change (mkEngine _ _ _ _ _ _) with (set_parent (set_rchild e p node) node p). unfold linked. rewrite Hleaf. split.
      * eexists. apply leaf_r_inv; try done; [|intros Hl]; destruct Hp as [[Hp Hf]|(Hf & Hp & _)]; try done; intros;
          by apply (root_not_live t p) in Hp || by apply (root_not_live t p).
      * intros x Hx. by apply (live_leaf t p node Hn (leaf_r t p node)) in Hx.
    + destruct (ti_right _ _ _ Ht p Hs Er). by apply Hnext.
  - destruct Hp as [[Hp Hf]|(_ & _ & ?)]; [|lia]. pose proof (live_bounds _ _ Hp).
    rewrite get_lchild_ok by lz_lia. cbn [mbind option_bind]. change (lzss_lchild e) with (lc (tree_of e)). rewrite He.
    destruct (lc t p =? LZSS_NIL) eqn:Er; zbool.
    + lz_step. lz_step. eexists _, _. split; [done|]. cbn [lzss_ring_buffer]. split; [done|]. split; [done|].
      assert (tree_of (set_parent (set_lchild e p node) node p) = leaf_l t p node) as Hleaf by (by rewrite <- He).
      change (mkEngine _ _ _ _ _ _) with (set_parent (set_lchild e p node) node p). unfold linked. rewrite Hleaf. split.
      * eexists. by apply leaf_l_inv.
      * intros x Hx. by apply (live_leaf t p node Hn (leaf_l t p node)) in Hx.
    + destruct (ti_left _ _ _ Ht p Hp Er). by apply Hnext.
Qed.

End Insert.

(** The engine state that packing maintains between operations on nodes. *)
Definition engine_inv (e : engine) : Prop := exists depth, tree_inv (lzss_ring_buffer e) depth (tree_of e).

Lemma dead_links fb depth t node l r : tree_inv fb depth t -> 0 <= node < LZSS_SIZE -> ~ live t node ->
  tree_inv fb depth (mkTree (par t) (upd (lc t) node l) (upd (rc t) node r)).
Proof.
  intros Ht Hn Hnl. apply (tree_inv_ext fb fb depth t); [done|..|done].
  - intros x Hx. split; [done|]. split; [done|]. cbn. apply upd_ne. congruence.
  - intros x Hx. cbn. apply upd_ne. intros ->. destruct Hx as [Hx|[Hx _]]; [done|lia].
Qed.

Lemma insert_node_ok e node : engine_inv e -> 0 <= node < LZSS_SIZE -> ~ live (tree_of e) node -> 0 <= lzss_ring_buffer e node < 256 ->
  exists e', insert_node e node = Some e' /\ lzss_ring_buffer e' = lzss_ring_buffer e /\ engine_inv e'
    /\ (forall x, live (tree_of e') x -> live (tree_of e) x \/ x = node)
    /\ reported (tree_of e) (lzss_ring_buffer e) node e'.
Proof.
  intros [depth Ht] Hn Hnl Hb. unfold insert_node. rewrite get_ring_ok by lz_lia. cbn [mbind option_bind]. do 2 lz_step.
  set (e0 := with_match _ _ _). pose proof (dead_links _ _ _ node LZSS_NIL LZSS_NIL Ht Hn Hnl : tree_inv _ _ (tree_of e0)) as Ht0.
  destruct (insert_loop_ok depth (tree_of e0) (lzss_ring_buffer e) node Ht0 Hn Hnl (upd_eq _ _ _) (upd_eq _ _ _)
              tree_fuel e0 1 (lzss_ring_buffer e node + LZSS_SIZE + 1) []) as (e1 & full & -> & Hring & Hrep & Hlk); try done.
  - split; [cbn; lz_lia|by left].
  - constructor; [constructor|done|]. intros x Hx. by apply not_elem_of_nil in Hx.
  - unfold tree_fuel. cbn [length]. lia.
  - right. split; [done|]. split; [unfold is_root; lz_lia|lia].
  - cbn [mbind option_bind]. destruct full as [p|]; cbn [linked] in Hlk.
    + destruct Hlk as (He1 & Hp & Hfb). rewrite <- He1 in Ht0, Hp.
      destruct (replace_node_ok (lzss_ring_buffer e) depth e1 node p) as (e2 & -> & (S1 & S2 & S3) & Hren); [done|done|done|by rewrite He1|].
      exists e2. split; [done|]. split; [congruence|]. split.
      { eexists. rewrite S1, Hring. eapply renamed_inv; try done. by rewrite He1. }
      split.
      { intros x Hx. apply (rn_live _ _ _ _ Hren) in Hx as [[Hx _]|Hx]; [left|by right]. by rewrite He1 in Hx. }
      unfold reported in *. by rewrite S2, S3.
    + destruct Hlk as ([depth' Ht1] & Hlive). exists e1. split; [done|]. split; [done|]. split; [|done].
      exists depth'. by rewrite Hring.
Qed.

(** ** Deletion *)

Lemma rightmost_ok fb depth e fuel q vis : tree_inv fb depth (tree_of e) -> walk depth (tree_of e) vis q ->
  (Z.to_nat LZSS_SIZE < fuel + length vis)%nat -> live (tree_of e) q -> lzss_rchild e q <> LZSS_NIL ->
  exists q', rightmost fuel e q = Some q' /\ live (tree_of e) q' /\ lzss_rchild e q' = LZSS_NIL
    /\ fb q' = fb q /\ (depth q <= depth (lzss_parent e q') < depth q')%nat
    /\ lzss_rchild e (lzss_parent e q') = q' /\ live (tree_of e) (lzss_parent e q').
Proof.
  intros Ht. revert q vis. induction fuel as [|fuel IH]; intros q vis Hw Hfuel Hq Hr.
  { pose proof (walk_length _ _ _ _ Hw). lia. }
  destruct (ti_right _ _ _ Ht q (or_introl Hq) Hr) as [Hl Hp]. cbn [tree_of rc par] in Hl, Hp.
  pose proof (live_bounds _ _ Hl). pose proof (live_bounds _ _ Hq).
  assert (fb (lzss_rchild e q) = fb q /\ (depth q < depth (lzss_rchild e q))%nat) as [Hf Hdep].
  { destruct (ti_up _ _ _ Ht _ Hl) as [(H1 & _)|(_ & _ & H2 & H3)]; cbn [tree_of par] in *; rewrite Hp in *; [|done].
    by apply (root_not_live (tree_of e) q) in H1. }
  cbn [rightmost]. do 2 lz_step. destruct (lzss_rchild e (lzss_rchild e q) =? LZSS_NIL) eqn:E; zbool; cbn [negb].
  - eexists. split; [done|]. rewrite Hp. done.
  - destruct (IH (lzss_rchild e q) (lzss_rchild e q :: vis)) as (q' & -> & H1 & H2 & H3 & H4 & H5); try done.
    + eapply walk_step; try done. by left.
    + cbn [length]. lia.
    + exists q'. split; [done|]. split; [done|]. split; [done|]. split; [congruence|]. split; [lia|done].
Qed.

(** The tree without a node whose only child, if any, is [q]. *)
Definition splice_out (t : tree) (n q : Z) : tree :=
  mkTree (upd (upd (par t) q (par t n)) n LZSS_NIL)
    (if rc t (par t n) =? n then lc t else upd (lc t) (par t n) q)
    (if rc t (par t n) =? n then upd (rc t) (par t n) q else rc t).

Lemma splice_out_spliced fb depth t n q : tree_inv fb depth t -> live t n -> live t q \/ q = LZSS_NIL ->
  spliced t (splice_out t n q) n q.
Proof.
  intros Ht Hn Hq. pose proof (parent_slot _ _ _ _ Ht Hn) as Hd. apply slot_bounds in Hd. constructor.
  - intros y. unfold live, splice_out at 1. cbn [par]. destruct (Z.eq_dec y n) as [->|Hyn]; [rewrite upd_eq; tauto|].
    rewrite upd_ne by done. destruct (Z.eq_dec y q) as [->|Hyq]; [rewrite upd_eq|rewrite upd_ne by done; tauto].
    destruct Hq as [[H1 H2]|Hq]; [|lz_lia]. split; [tauto|]. intros _. split; [done|lz_lia].
  - intros x Hx Hxn. unfold splice_out. cbn [par]. rewrite upd_ne by done. done.
  - intros x Hx Hxn. by eapply redirect_lc.
  - intros x Hx Hxn. by eapply redirect_rc.
Qed.

(** The end of [delete_node]: [q] takes the place of [node] in the parent of [node]. *)
Lemma lz_unlink_ok e node q : 0 <= node < LZSS_SIZE -> 0 <= q < PARENT_SIZE -> q <> node -> 0 <= lzss_parent e node < RCHILD_SIZE ->
  (lzss_rchild e (lzss_parent e node) <> node -> lzss_parent e node < LCHILD_SIZE) ->
  exists e', (t ← get_parent e node; e ← put_parent e q t; x ← get_rchild e t;
       e ← (if x =? node then put_rchild e t q else put_lchild e t q); put_parent e node LZSS_NIL) = Some e'
    /\ same_text e e' /\ tree_of e' = splice_out (tree_of e) node q.
Proof.
  intros Hn Hq Hqn Hp Hl. do 3 lz_step. unfold splice_out. cbn [tree_of par lc rc].
  destruct (lzss_rchild e (lzss_parent e node) =? node) eqn:E; zbool; [|specialize (Hl E)];
    do 2 lz_step; eexists; (split; [done|]); done.
Qed.

(** With two children, a node [q] without a right child is spliced out of the left subtree and
    takes over. *)
(** Decides the updates in the goal from the inequations in the context, else by cases. *)
Ltac upd_now :=
  repeat match goal with
  | |- context [upd ?a ?i ?v ?j] => first [rewrite (upd_eq a i v) | rewrite (upd_ne a i v j) by first [assumption | apply not_eq_sym; assumption]
      | let E := fresh in destruct (Z.eq_dec j i) as [E|E]; [rewrite E|] ]
  end.

Section TwoChildren.
Context (fb : Z -> Z) (depth : Z -> nat) (t : tree) (node q : Z).
Context (Ht : tree_inv fb depth t) (Hn : live t node) (Hl : lc t node <> LZSS_NIL) (Hr : rc t node <> LZSS_NIL).
Context (Hq : live t q) (Hrq : rc t q = LZSS_NIL).

Lemma parent_depth x : live t x -> is_root (par t x) \/ live t (par t x) /\ (depth (par t x) < depth x)%nat.
Proof. intros Hx. destruct (ti_up _ _ _ Ht x Hx) as [(H & _)|(H & _ & _ & H')]; [by left|by right]. Qed.

Lemma left_facts : live t (lc t node) /\ par t (lc t node) = node /\ (depth node < depth (lc t node))%nat.
Proof.
  destruct (ti_left _ _ _ Ht node Hn Hl) as [H1 H2]. split; [done|]. split; [done|].
  destruct (parent_depth _ H1) as [H|[_ H]]; rewrite H2 in H; [by apply (root_not_live t) in H|done].
Qed.
Lemma right_facts : live t (rc t node) /\ par t (rc t node) = node /\ rc t node <> lc t node.
Proof.
  destruct (ti_right _ _ _ Ht node (or_introl Hn) Hr) as [H1 H2]. split; [done|]. split; [done|].
  intros E. apply Hr. by apply (ti_apart _ _ _ Ht).
Qed.
Lemma below_facts : lc t q <> LZSS_NIL -> live t (lc t q) /\ par t (lc t q) = q.
Proof. by apply (ti_left _ _ _ Ht). Qed.
Lemma above_facts : par t node <> LZSS_NIL /\ par t node <> node
  /\ forall x, live t x -> (depth node <= depth x)%nat -> par t node <> x.
Proof.
  split; [by destruct Hn|]. split; [by apply (par_irrefl fb depth t Ht)|]. intros x Hx Hd E.
  destruct (parent_depth node Hn) as [H|[_ H]]; rewrite E in H; [by apply (root_not_live t) in H|lia].
Qed.

Lemma deep_taken_over :
  rc t (par t q) = q -> live t (par t q) -> (depth (lc t node) <= depth (par t q) < depth q)%nat ->
  taken_over (splice_out t q (lc t q))
    (splice_out (mkTree (upd (upd (upd (par t) (lc t q) (par t q)) (lc t node) q) (rc t node) q)
                        (upd (lc t) q (lc t node)) (upd (upd (rc t) (par t q) (lc t q)) q (rc t node))) node q) node q.
Proof.
  intros Hpq Hlp Hdq. pose proof left_facts as (L1 & L2 & L3). pose proof right_facts as (R1 & R2 & R3).
  pose proof above_facts as (A1 & A2 & A3).
  assert (par t q <> node) as N1 by (intros E; rewrite E in Hdq; lia).
  assert (q <> node) as N2 by (intros E; rewrite E in Hdq; lia).
  assert (q <> lc t node) as N3 by (intros E; rewrite <- E in Hdq; lia).
  assert (q <> rc t node) as N4 by congruence.
  assert (par t q <> q) as N5 by (by apply (par_irrefl fb depth t Ht)).
  assert (par t node <> q) as N6 by (apply A3; [done|lia]).
  assert (par t node <> par t q) as N7 by (apply A3; [done|lia]).
  assert (lc t q <> node) as N8.
  { intros E. destruct below_facts as [_ B]; [rewrite E; destruct Hn; lz_lia|]. rewrite E in B. done. }
  assert (lc t q <> lc t node /\ lc t q <> rc t node) as [N9 N10].
  { split; intros E; (destruct below_facts as [_ B]; [rewrite E; done|]); rewrite E in B; congruence. }
  pose proof (own_child fb depth t q Ht Hq) as [N11 _]. pose proof (own_child fb depth t node Ht Hn) as [N12 N13].
  unfold splice_out at 1. rewrite Hpq, Z.eqb_refl. unfold splice_out. cbn [par lc rc].
  rewrite !(upd_ne _ _ _ node) by congruence. rewrite !(upd_ne _ _ _ (par t node)) by congruence.
  constructor; cbn [par lc rc].
  - upd_now; done.
  - upd_now; done.
  - destruct (_ =? node); upd_now; done.
  - destruct (_ =? node); upd_now; done.
  - intros x [Hx Hx'] Hxn. cbn [par] in Hx'. destruct (Z.eq_dec x q) as [->|Hxq]; [by rewrite upd_eq in Hx'|].
    rewrite !(upd_ne _ _ _ node) by congruence. destruct ((x =? lc t node) || (x =? rc t node)) eqn:E.
    + apply orb_true_iff in E as [E|E]; zbool; subst x; upd_now; done.
    + apply orb_false_iff in E as [E1 E2]; zbool. rewrite !(upd_ne _ q) by done. upd_now; done.
  - intros x Hx Hxq Hxl. unfold live in Hxl. cbn [par] in Hxl. destruct (Z.eq_dec x node) as [->|Hxn]; [upd_now; done|].
    assert (upd (upd (par t) (lc t q) (par t q)) q LZSS_NIL x = LZSS_NIL) as Hnil.
    { destruct (Z.eq_dec (upd (upd (par t) (lc t q) (par t q)) q LZSS_NIL x) LZSS_NIL); [done|]. by destruct Hxl. }
    rewrite upd_ne in Hnil by done.
    assert (forall y, live t y -> par t y = node -> y <> lc t q -> x <> y) as Hxy.
    { intros y [Hy _] Hy' Hyq ->. rewrite upd_ne in Hnil by done. rewrite Hy' in Hnil. by apply (live_not_nil t node). }
    rewrite (upd_ne _ node), (upd_ne _ q), (upd_ne _ (rc t node)), (upd_ne _ (lc t node)); try done; apply Hxy; done || congruence.
  - intros x [Hx Hx'] Hxn. cbn [par] in Hx'. destruct (Z.eq_dec x q) as [->|Hxq]; [by rewrite upd_eq in Hx'|].
    assert (live t x) as Hlx.
    { split; [done|]. destruct (Z.eq_dec x (lc t q)) as [->|]; [|by rewrite !upd_ne in Hx'].
      apply below_facts. clear -Hx. lz_lia. }
    rewrite <- (redirect_lc fb depth t node q x Ht Hn Hlx). destruct (rc t (par t node) =? node); upd_now; done.
  - intros x Hx Hxn. assert (slot_of t x /\ x <> q) as [Hsx Hxq].
    { destruct Hx as [[Hx Hx']|Hx]; [|split; [by right|]; intros ->; by apply (root_not_live t) in Hx]. cbn [par] in Hx'.
      destruct (Z.eq_dec x q) as [->|Hxq]; [by rewrite upd_eq in Hx'|]. split; [|done]. left. split; [done|].
      destruct (Z.eq_dec x (lc t q)) as [->|]; [|by rewrite !upd_ne in Hx']. apply below_facts. clear -Hx. lz_lia. }
    destruct (Z.eq_dec x (par t q)) as [->|Hxt].
    + rewrite (upd_eq (rc t)). destruct (lc t q =? node) eqn:E; zbool; [done|]. destruct (rc t (par t node) =? node); upd_now; done.
    + rewrite (upd_ne (rc t)) by done. rewrite <- (redirect_rc fb depth t node q x Ht Hn Hsx).
      destruct (rc t (par t node) =? node); upd_now; done.
Qed.

Lemma shallow_taken_over : q = lc t node ->
  taken_over (splice_out t q (lc t q))
    (splice_out (mkTree (upd (par t) (rc t node) q) (lc t) (upd (rc t) q (rc t node))) node q) node q.
Proof.
  intros Hql. pose proof left_facts as (_ & L2 & L3). pose proof right_facts as (R1 & R2 & R3).
  pose proof above_facts as (A1 & A2 & A3). rewrite <- Hql in *.
  pose proof (own_child fb depth t q Ht Hq) as [N11 _]. pose proof (own_child fb depth t node Ht Hn) as [N12 N13].
  rewrite <- Hql in N12.
  assert (par t node <> q) as N6 by (apply A3; [done|lia]).
  assert (lc t q <> node) as N8.
  { intros E. destruct below_facts as [_ B]; [rewrite E; by apply (live_not_nil t)|]. rewrite E in B. done. }
  assert (lc t q <> rc t node) as N10.
  { intros E. destruct below_facts as [_ B]; [by rewrite E|]. rewrite E in B. congruence. }
  unfold splice_out at 1. rewrite L2. destruct (rc t node =? q) eqn:E; zbool; [done|]. clear E. unfold splice_out. cbn [par lc rc].
  rewrite (upd_ne _ (rc t node) _ node), (upd_ne _ q _ (par t node)) by congruence. constructor; cbn [par lc rc].
  - upd_now; done.
  - upd_now; done.
  - destruct (_ =? node); upd_now; done.
  - destruct (_ =? node); upd_now; done.
  - intros x [Hx Hx'] Hxn. cbn [par] in Hx'. destruct (Z.eq_dec x q) as [->|Hxq]; [by rewrite upd_eq in Hx'|].
    rewrite (upd_eq (lc t)). rewrite upd_ne in Hx' by done. rewrite !(upd_ne _ node), !(upd_ne _ q) by done.
    destruct (x =? rc t node) eqn:E1, (x =? lc t q) eqn:E2; zbool; cbn [orb]; upd_now; try done; try congruence.
    subst x. destruct below_facts as [_ B]; [clear -Hx; lz_lia|done].
  - intros x Hx Hxq Hxl. unfold live in Hxl. cbn [par] in Hxl. destruct (Z.eq_dec x node) as [->|Hxn]; [upd_now; done|].
    rewrite !(upd_ne _ q) in Hxl by done. rewrite (upd_ne _ node), (upd_ne _ q) by done.
    destruct (Z.eq_dec x (lc t q)) as [->|Hxm].
    { destruct Hxl. split; [done|]. rewrite upd_eq. by apply (live_not_nil t). }
    rewrite upd_ne in Hxl by done. destruct (Z.eq_dec x (rc t node)) as [->|Hxr]; [by destruct Hxl; destruct R1|]. rewrite upd_ne by done.
    destruct (Z.eq_dec (par t x) LZSS_NIL); [done|by destruct Hxl].
  - intros x [Hx Hx'] Hxn. cbn [par] in Hx'. destruct (Z.eq_dec x q) as [->|Hxq]; [by rewrite upd_eq in Hx'|].
    assert (live t x) as Hlx.
    { split; [done|]. destruct (Z.eq_dec x (lc t q)) as [->|]; [|by rewrite !upd_ne in Hx'].
      apply below_facts. clear -Hx. lz_lia. }
    rewrite (upd_ne (lc t) node) by done. rewrite <- (redirect_lc fb depth t node q x Ht Hn Hlx). destruct (rc t (par t node) =? node); upd_now; done.
  - intros x Hx Hxn. assert (slot_of t x /\ x <> q) as [Hsx Hxq].
    { destruct Hx as [[Hx Hx']|Hx]; [|split; [by right|]; intros ->; by apply (root_not_live t) in Hx]. cbn [par] in Hx'.
      destruct (Z.eq_dec x q) as [->|Hxq]; [by rewrite upd_eq in Hx'|]. split; [|done]. left. split; [done|].
      destruct (Z.eq_dec x (lc t q)) as [->|]; [|by rewrite !upd_ne in Hx']. apply below_facts. clear -Hx. lz_lia. }
    rewrite <- (redirect_rc fb depth t node q x Ht Hn Hsx). destruct (rc t (par t node) =? node); upd_now; done.
Qed.

(** Either way, the node is gone and the trees are well-formed. *)
Lemma two_children_inv t' : fb q = fb node -> q <> node -> taken_over (splice_out t q (lc t q)) t' node q ->
  (exists depth', tree_inv fb depth' t') /\ forall y, live t' y <-> live t y /\ y <> node.
Proof.
  intros Hfb Hqn Hto. pose proof (splice_out_spliced fb depth t q (lc t q) Ht Hq (child_lc fb depth t Ht q Hq)) as Hs.
  pose proof (spliced_inv fb depth t _ q (lc t q) Ht Hq (or_introl (conj Hrq eq_refl)) Hs) as Ht1. pose proof (sp_live _ _ _ _ Hs) as Hl1.
  assert (live (splice_out t q (lc t q)) node) as Hn1 by (by apply Hl1).
  assert (~ live (splice_out t q (lc t q)) q) as Hq1 by (rewrite Hl1; tauto).
  pose proof (taken_over_renamed fb depth _ t' node q Ht1 Hn1 (live_range _ _ Hq) Hq1 Hto) as Hren. split.
  - eexists. by apply (renamed_inv fb depth _ t' node q Ht1 Hn1 (live_range _ _ Hq) Hq1).
  - intros y. rewrite (rn_live _ _ _ _ Hren), Hl1. destruct (Z.eq_dec y q) as [->|]; tauto.
Qed.
End TwoChildren.

Section Delete.
Context (e : engine) (depth : Z -> nat) (node : Z).
Context (Ht : tree_inv (lzss_ring_buffer e) depth (tree_of e)) (Hn : live (tree_of e) node).

Definition unlink (e : engine) (q : Z) : option engine :=
  t ← get_parent e node; e ← put_parent e q t; x ← get_rchild e t;
  e ← (if x =? node then put_rchild e t q else put_lchild e t q); put_parent e node LZSS_NIL.

Definition deleted (r : option engine) : Prop :=
  exists e', r = Some e' /\ same_text e e' /\ engine_inv e' /\ forall x, live (tree_of e') x <-> live (tree_of e) x /\ x <> node.

Lemma own_slot : 0 <= lzss_parent e node < 4353
  /\ (lzss_rchild e (lzss_parent e node) <> node -> lzss_parent e node < LCHILD_SIZE).
Proof.
  pose proof (slot_bounds _ _ (parent_slot _ _ _ _ Ht Hn)) as [Hpb _]. split; [done|].
  intros Hne. destruct (parent_left _ _ _ _ Ht Hn Hne) as [H _]. apply live_bounds in H. cbn in H. lz_lia.
Qed.

Lemma delete_one q :
  (lzss_rchild e node = LZSS_NIL /\ lzss_lchild e node = q) \/ (lzss_lchild e node = LZSS_NIL /\ lzss_rchild e node = q) ->
  deleted (unlink e q).
Proof.
  intros Hq. assert (live (tree_of e) q \/ q = LZSS_NIL) as Hql.
  { destruct Hq as [[_ <-]|[_ <-]]; [by apply (child_lc _ _ _ Ht)|apply (child_rc _ _ _ Ht); by left]. }
  pose proof (child_bounds _ _ Hql) as Hqb. pose proof (live_range _ _ Hn). pose proof own_slot as [].
  pose proof (splice_out_spliced _ _ _ _ _ Ht Hn Hql) as Hs. pose proof (q_not_n _ _ _ _ _ _ Ht Hn Hq Hs) as Hqn.
  unfold deleted, unlink. destruct (lz_unlink_ok e node q) as (e' & -> & Hst & Htree); [done|lz_lia|done|lz_lia|done|].
  exists e'. split; [done|]. split; [done|].
  rewrite Htree. split; [|apply (sp_live _ _ _ _ Hs)]. exists depth. rewrite Htree. destruct Hst as (-> & _). by eapply spliced_inv.
Qed.

(** The end of the deletion of a node with two children, after the links of [q] are set. *)
Lemma delete_two e2 q : live (tree_of e) q -> q <> node -> lzss_rchild e q = LZSS_NIL -> lzss_ring_buffer e q = lzss_ring_buffer e node ->
  same_text e e2 -> lzss_parent e2 node = lzss_parent e node ->
  lzss_rchild e2 (lzss_parent e node) = lzss_rchild e (lzss_parent e node) ->
  taken_over (splice_out (tree_of e) q (lzss_lchild e q)) (splice_out (tree_of e2) node q) node q ->
  deleted (unlink e2 q).
Proof.
  intros Hq Hqn Hrq Hfb Hst Hp Hr Hto. pose proof own_slot as []. pose proof (live_bounds _ _ Hq) as [? _].
  pose proof (live_range _ _ Hn). unfold deleted, unlink.
  destruct (lz_unlink_ok e2 node q) as (e' & -> & Hst' & Htree); [done|lz_lia|done|rewrite Hp; lz_lia|by rewrite Hp, Hr|].
  exists e'. split; [done|]. destruct Hst as (S1 & S2 & S3), Hst' as (S4 & S5 & S6). split; [split_and!; congruence|].
  destruct (two_children_inv _ _ _ _ _ Ht Hn Hq Hrq _ Hfb Hqn Hto) as [[depth' Hd] Hl]. rewrite Htree. split; [|done].
  exists depth'. by rewrite Htree, S4, S1.
Qed.

Lemma same_tree : lzss_lchild e node <> LZSS_NIL -> lzss_ring_buffer e (lzss_lchild e node) = lzss_ring_buffer e node.
Proof.
  intros El. destruct (left_facts _ _ _ _ Ht Hn El) as (L1 & L2 & _). cbn [tree_of par lc] in L1, L2.
  destruct (ti_up _ _ _ Ht _ L1) as [(H & _)|(_ & _ & H & _)]; cbn [tree_of par] in H; rewrite L2 in H; [|done].
  by apply (root_not_live (tree_of e)) in H.
Qed.

Lemma delete_live : deleted (delete_node e node).
Proof.
  pose proof (live_bounds _ _ Hn) as [Hnb Hnp]. cbn [tree_of par] in Hnp. unfold delete_node.
  rewrite get_parent_ok by lz_lia. cbn [mbind option_bind]. destruct (lzss_parent e node =? LZSS_NIL) eqn:Ep; zbool; [lz_lia|]. cbn [negb].
  rewrite get_rchild_ok by lz_lia. cbn [mbind option_bind]. rewrite get_lchild_ok by lz_lia. cbn [mbind option_bind].
  destruct (lzss_rchild e node =? LZSS_NIL) eqn:Er; zbool; [apply delete_one; by left|].
  destruct (lzss_lchild e node =? LZSS_NIL) eqn:El; zbool; [apply delete_one; by right|].
  pose proof (left_facts _ _ _ _ Ht Hn El) as (L1 & L2 & L3). pose proof (right_facts _ _ _ _ Ht Hn Er) as (R1 & _ & _).
  cbn [tree_of par lc rc] in L1, L2, L3, R1. pose proof (live_bounds _ _ L1). pose proof (live_bounds _ _ R1).
  pose proof (own_child _ _ _ _ Ht Hn) as [N12 N13]. cbn [tree_of lc rc] in N12, N13.
  rewrite get_rchild_ok by lz_lia. cbn [mbind option_bind].
  destruct (lzss_rchild e (lzss_lchild e node) =? LZSS_NIL) eqn:Ed; zbool; cbn [negb].
  - cbn [mbind option_bind]. rewrite get_rchild_ok by lz_lia. cbn [mbind option_bind]. do 2 lz_step.
    apply (delete_two (set_parent (set_rchild e (lzss_lchild e node) (lzss_rchild e node)) (lzss_rchild e node) (lzss_lchild e node)));
      try done; cbn.
    + by apply same_tree.
    + apply upd_ne, not_eq_sym, N13.
    + apply upd_ne. apply (above_facts _ _ _ _ Ht Hn); [done|lia].
    + by apply (shallow_taken_over _ _ _ _ (lzss_lchild e node) Ht Hn El Er).
  - destruct (rightmost_ok _ _ _ tree_fuel (lzss_lchild e node) [lzss_lchild e node] Ht) as (q & -> & Q1 & Q2 & Q3 & Q4 & Q5 & Q6); try done.
    { constructor; [apply NoDup_singleton|by constructor|]. intros x ->%list_elem_of_singleton. done. }
    { unfold tree_fuel. cbn [length]. lia. }
    cbn [mbind option_bind]. pose proof (live_bounds _ _ Q1) as [? _]. pose proof (live_bounds _ _ Q6) as [? _].
    pose proof (child_bounds _ _ (child_lc _ _ _ Ht q Q1)) as Hqb. cbn [tree_of lc] in Hqb.
    pose proof (above_facts _ _ _ _ Ht Hn) as (A1 & A2 & A3). cbn [tree_of par] in A1, A2, A3.
    assert (q <> node) as Hqn by (intros E; rewrite E in Q4; lia).
    assert (lzss_parent e q <> node) as Hpn by (intros E; rewrite E in Q4; lia).
    assert (lzss_lchild e q <> node) as Hln.
    { intros E. destruct (below_facts _ _ _ _ Ht Q1) as [_ B]; cbn [tree_of lc par] in *; rewrite E in *; [by apply (live_not_nil (tree_of e))|].
      apply (A3 q Q1); [lia|done]. }
    do 7 lz_step. rewrite get_rchild_ok by lz_lia. cbn [mbind option_bind lzss_rchild set_parent set_lchild set_rchild].
    rewrite (upd_ne _ (lzss_parent e q) _ node) by congruence. do 2 lz_step.
    match goal with |- deleted (_ ← get_parent ?e2 _; _) => apply (delete_two e2 q) end; try done; cbn [lzss_parent lzss_rchild set_parent set_lchild set_rchild].
    + rewrite Q3. by apply same_tree.
    + by rewrite !upd_ne by congruence.
    + rewrite !upd_ne; [done|apply A3; [done|lia]|apply A3; [done|lia]].
    + by apply (deep_taken_over _ _ _ _ q Ht Hn El Er).
Qed.

End Delete.

Lemma delete_node_ok e node : engine_inv e -> 0 <= node < LZSS_SIZE ->
  exists e', delete_node e node = Some e' /\ same_text e e' /\ engine_inv e'
    /\ forall x, live (tree_of e') x <-> live (tree_of e) x /\ x <> node.
Proof.
  intros [depth Ht] Hn. destruct (Z.eq_dec (lzss_parent e node) LZSS_NIL) as [Ep|Ep].
  - unfold delete_node. lz_step. rewrite Ep. cbn [negb Z.eqb LZSS_NIL]. exists e. split; [done|]. split; [done|].
    split; [by eexists|]. intros x. split; [|tauto]. intros Hx. split; [done|]. intros ->. by destruct Hx.
  - by apply (delete_live e depth node Ht).
Qed.
