(* ===== verification/Lzss3Pack.v ===== *)
(** * Lzss3Pack

    Packing with LZSS3: what the ring buffer holds of the text, which positions of the
    text the nodes of the trees stand for, the units sent, and that unpacking gives the
    text back. *)

From S2P Require Import Prelude Protocol Lzss3 Lzss3Code Lzss3Tree Lzss3Nodes.

Opaque insert_node delete_node.

(** ** Positions in the ring *)

Definition slot (j : Z) : Z := j mod LZSS_SIZE.

Lemma slot_range j : 0 <= slot j < LZSS_SIZE.
Proof. apply Z.mod_pos_bound. lz_lia. Qed.

(** Positions less than the size of the ring apart are in different slots. *)
Lemma slot_inj i j : slot i = slot j -> - LZSS_SIZE < i - j < LZSS_SIZE -> i = j.
Proof. unfold slot. lz_unfold. intros H Hd. Z.div_mod_to_equations. lia. Qed.

Lemma slot_add j k : 0 <= k -> slot j + k < LZSS_SIZE -> slot (j + k) = slot j + k.
Proof. unfold slot. lz_unfold. intros. Z.div_mod_to_equations. lia. Qed.

Lemma slot_wrap j k : 0 <= k <= LZSS_SIZE -> LZSS_SIZE <= slot j + k -> slot (j + k) = slot j + k - LZSS_SIZE.
Proof. unfold slot. lz_unfold. intros. Z.div_mod_to_equations. lia. Qed.

Lemma next_slot j : next_pos (slot j) = slot (j + 1).
Proof.
  pose proof (slot_range j). unfold next_pos, slot in *. rewrite u32_small by (unfold is_u32; lz_lia).
  change (LZSS_SIZE - 1) with (Z.ones 12). rewrite Z.land_ones by lia. change (2 ^ 12) with LZSS_SIZE.
  by rewrite Zplus_mod_idemp_l.
Qed.

(** ** The text in the ring *)

(** The last bytes read, before position [loaded], are in the ring; those in its first
    slots are also after its end, once the text has gone round. *)
Record text_in (t : bytes) (ring : array) (loaded : Z) : Prop := mkTextIn {
  tx_ring : forall j, 0 <= j -> loaded - LZSS_SIZE <= j < loaded -> byte_at t j = Some (ring (slot j));
  tx_mirror : forall j, LZSS_SIZE <= j -> loaded - LZSS_SIZE <= j < loaded -> slot j < LZSS_HI - 1 ->
    byte_at t j = Some (ring (slot j + LZSS_SIZE));
}.

Lemma text_at t ring loaded j k : text_in t ring loaded -> 0 <= j -> loaded - LZSS_SIZE <= j -> 0 <= k < LZSS_HI -> j + k < loaded ->
  byte_at t (j + k) = Some (ring (slot j + k)).
Proof.
  intros [Hr Hm] Hj Hlo Hk Hlt. pose proof (slot_range j) as Hs. destruct (Z_lt_dec (slot j + k) LZSS_SIZE) as [Hin|Hout].
  - rewrite <- slot_add by lia. apply Hr; lia.
  - pose proof (slot_wrap j k) as Hw. specialize (Hw ltac:(lz_lia) ltac:(lia)). rewrite Hm.
    + do 2 f_equal. lia.
    + unfold slot in *. lz_unfold. Z.div_mod_to_equations. lia.
    + lia.
    + lz_lia.
Qed.

(** Reading a byte into the ring. *)
Definition read_in (ring : array) (s c : Z) : array :=
  if s <? LZSS_HI - 1 then upd (upd ring s c) (s + LZSS_SIZE) c else upd ring s c.

Lemma read_in_eq ring s c : 0 <= s < LZSS_SIZE -> read_in ring s c s = c.
Proof.
  intros H. unfold read_in. destruct (s <? LZSS_HI - 1); [rewrite upd_ne by lz_lia|]; apply upd_eq.
Qed.
Lemma read_in_ne ring s c x : 0 <= s -> x < LZSS_SIZE -> x <> s -> read_in ring s c x = ring x.
Proof. intros Hs Hx H. unfold read_in. destruct (s <? LZSS_HI - 1); [rewrite upd_ne by lz_lia|]; by apply upd_ne. Qed.

Lemma text_in_read t ring loaded c : 0 <= loaded -> text_in t ring loaded -> byte_at t loaded = Some c ->
  text_in t (read_in ring (slot loaded) c) (loaded + 1).
Proof.
  intros Hl [Hr Hm] Hc. pose proof (slot_range loaded) as Hs. constructor.
  - intros j Hj Hlt. destruct (Z.eq_dec j loaded) as [->|Hne]; [by rewrite read_in_eq|].
    pose proof (slot_range j). rewrite read_in_ne; [apply Hr; lia|lia|lia|]. intros E. apply slot_inj in E; lia.
  - intros j Hj Hlt Hsj. destruct (Z.eq_dec j loaded) as [->|Hne].
    + unfold read_in. destruct (slot loaded <? LZSS_HI - 1) eqn:E; zbool; [by rewrite upd_eq|lia].
    + pose proof (slot_range j). assert (slot j <> slot loaded) by (intros E; apply slot_inj in E; lia).
      rewrite Hm by lia. unfold read_in. destruct (slot loaded <? LZSS_HI - 1); rewrite !upd_ne by lia; done.
Qed.

(** ** The window of the trees *)

(** At position [cur] of the text, the nodes stand for positions from [lo] to [hi]. *)
Definition window (t : tree) (lo hi : Z) : Prop :=
  forall p, live t p -> exists j, 0 <= j /\ lo <= j <= hi /\ p = slot j.

Record at_pos (t : bytes) (e : engine) (cur loaded : Z) : Prop := mkAtPos {
  ap_trees : engine_inv e;
  ap_text : text_in t (lzss_ring_buffer e) loaded;
  ap_window : window (tree_of e) (cur + LZSS_HI - LZSS_SIZE) cur;
}.

(** What encoding at a position relies on. *)
Definition match_at (t : bytes) (e : engine) (cur loaded : Z) : Prop :=
  0 <= lzss_match_length e <= LZSS_HI
  /\ (lzss_match_length e = 0 \/ exists d, 1 <= d <= cur /\ d < LZSS_SIZE /\ lzss_match_position e = slot (cur - d)
      /\ forall k, 0 <= k < lzss_match_length e -> cur + k < loaded -> byte_at t (cur + k) = byte_at t (cur - d + k)).

Section Text.
Context (t : bytes) (Hok : bytes_ok t).

Lemma text_byte j x : byte_at t j = Some x -> 0 <= x < 256.
Proof.
  intros H. pose proof (byte_at_lt _ _ _ H). rewrite byte_at_lookup in H by lia.
  apply list_elem_of_lookup_2 in H. unfold bytes_ok in Hok. rewrite Forall_forall in Hok. by apply (Hok x).
Qed.

Lemma insert_at e cur loaded : engine_inv e -> text_in t (lzss_ring_buffer e) loaded ->
  window (tree_of e) (cur + LZSS_HI - LZSS_SIZE) (cur - 1) -> 0 <= cur < loaded -> loaded <= cur + LZSS_HI ->
  exists e', insert_node e (slot cur) = Some e' /\ at_pos t e' cur loaded /\ match_at t e' cur loaded.
Proof.
  intros Hi Ht Hw Hc Hl. pose proof (slot_range cur) as Hs.
  assert (forall k, 0 <= k < LZSS_HI -> cur + k < loaded -> byte_at t (cur + k) = Some (lzss_ring_buffer e (slot cur + k))) as Hcur.
  { intros k Hk Hlt. apply (text_at _ _ loaded); lia || done || lz_lia. }
  destruct (insert_node_ok e (slot cur)) as (e' & -> & Hring & Hi' & Hlive & Hrep); [done|done|..].
  - intros Hl'. destruct (Hw _ Hl') as (j & Hj & Hjr & E). apply slot_inj in E; lz_lia.
  - apply (text_byte (cur + 0)). rewrite Hcur by lz_lia. by rewrite Z.add_0_r.
  - exists e'. split; [done|]. split; [constructor|].
    + done.
    + by rewrite Hring.
    + intros p Hp. destruct (Hlive p Hp) as [Hp'| ->]; [|exists cur; lz_lia]. destruct (Hw p Hp') as (j & Hj & Hjr & E). exists j. lia.
    + destruct Hrep as [Hml Hm]. split; [done|]. destruct Hm as [Hm|[Hlm Hk]]; [by left|]. right.
      destruct (Hw _ Hlm) as (j & Hj & Hjr & E). exists (cur - j). split; [lia|]. split; [lz_lia|].
      replace (cur - (cur - j)) with j by lia. split; [done|]. intros k Hk' Hlt. rewrite Hcur by lia. rewrite Hk by lia. rewrite E.
      symmetry. apply (text_at _ _ loaded); lia || done || lz_lia.
Qed.

Lemma delete_at e cur loaded : at_pos t e cur loaded ->
  exists e', delete_node e (slot (cur + LZSS_HI)) = Some e' /\ same_text e e' /\ at_pos t e' cur loaded
    /\ window (tree_of e') (cur + 1 + LZSS_HI - LZSS_SIZE) cur /\ ~ live (tree_of e') (slot (cur + LZSS_HI)).
Proof.
  intros [Hi Ht Hw]. pose proof (slot_range (cur + LZSS_HI)) as Hs.
  destruct (delete_node_ok e (slot (cur + LZSS_HI)) Hi Hs) as (e' & -> & Hst & Hi' & Hlive). exists e'. split; [done|]. split; [done|].
  assert (window (tree_of e') (cur + 1 + LZSS_HI - LZSS_SIZE) cur) as Hw'.
  { intros p Hp. apply Hlive in Hp as [Hp Hne]. destruct (Hw p Hp) as (j & Hj & Hjr & E). exists j. split; [done|]. split; [|done].
    assert (j <> cur + LZSS_HI - LZSS_SIZE); [|lia]. intros ->. apply Hne. rewrite E. unfold slot. lz_unfold. Z.div_mod_to_equations. lia. }
  split.
  - constructor; [done|by destruct Hst as (-> & _)|]. intros p Hp. destruct (Hw' p Hp) as (j & ? & ? & ?). exists j. lia.
  - split; [done|]. rewrite Hlive. tauto.
Qed.

Lemma put_ring_ok e i v : 0 <= i < RING_SIZE -> put_ring e i v =
  Some (mkEngine (upd (lzss_ring_buffer e) i v) (lzss_match_length e) (lzss_match_position e) (lzss_lchild e) (lzss_rchild e) (lzss_parent e)).
Proof. intros H. unfold put_ring. by rewrite put_ok. Qed.

(** The two writes of a turn of the reading loop. *)
Lemma read_ring_ok e s c : 0 <= s < LZSS_SIZE ->
  (e ← put_ring e s c; if s <? LZSS_HI - 1 then put_ring e (s + LZSS_SIZE) c else Some e) =
  Some (mkEngine (read_in (lzss_ring_buffer e) s c) (lzss_match_length e) (lzss_match_position e) (lzss_lchild e) (lzss_rchild e) (lzss_parent e)).
Proof.
  intros Hs. rewrite put_ring_ok by lz_lia. cbn [mbind option_bind]. unfold read_in.
  destruct (s <? LZSS_HI - 1) eqn:E; zbool; [|done]. by rewrite put_ring_ok by lz_lia.
Qed.

(** Writing over the slot of a dead node keeps the trees. *)
Lemma engine_inv_ring e ring s : engine_inv e -> ~ live (tree_of e) s -> (forall x, x < LZSS_SIZE -> x <> s -> ring x = lzss_ring_buffer e x) ->
  engine_inv (mkEngine ring (lzss_match_length e) (lzss_match_position e) (lzss_lchild e) (lzss_rchild e) (lzss_parent e)).
Proof.
  intros [depth Ht] Hs Hr. exists depth. eapply tree_inv_ext; [..|exact Ht]; try done. intros x Hx. split; [|done].
  apply Hr; [destruct Hx; lia|congruence].
Qed.

(** ** The loops that move on *)

(** The variables of [pack] at position [cur]; when the match has just been looked up, it is
    [fresh]. *)
Record pack_at (fresh : Prop) (st : pack_state) (cur : Z) : Prop := mkPackAt {
  pa_cur : 0 <= cur <= zlen t;
  pa_r : pk_r st = slot cur;
  pa_s : pk_s st = slot (cur + LZSS_HI);
  pa_pos : src_pos st = Z.min (cur + LZSS_HI) (zlen t);
  pa_len : pk_len st = src_pos st - cur;
  pa_at : at_pos t (pk_engine st) cur (src_pos st);
  pa_match : fresh -> cur < zlen t -> match_at t (pk_engine st) cur (src_pos st);
}.

Lemma pack_at_mono (fresh fresh' : Prop) st cur : (fresh' -> fresh) -> pack_at fresh st cur -> pack_at fresh' st cur.
Proof. intros H []. constructor; auto. Qed.

(** What moving on does not change. *)
Definition same_code (st st' : pack_state) : Prop :=
  pk_dst st' = pk_dst st /\ cb_flags st' = cb_flags st /\ cb_units st' = cb_units st /\ pk_mask st' = pk_mask st.

Lemma read_bytes_ok fresh n st cur : pack_at fresh st cur -> cur + Z.of_nat n <= zlen t ->
  exists st' rest, read_bytes n t st = Some (st', rest) /\ same_code st st'
    /\ pack_at (fresh \/ rest <> n) st' (cur + Z.of_nat n - Z.of_nat rest)
    /\ (rest <= n)%nat /\ (rest <> O -> src_pos st' = zlen t).
Proof.
  revert fresh st cur. induction n as [|n IH]; intros fresh st cur Hp Hn; cbn [read_bytes].
  { exists st, O. rewrite Z.add_0_r, Z.sub_0_r. split; [done|]. split; [done|]. split; [|done]. eapply pack_at_mono; [|done]. tauto. }
  destruct Hp as [Hc Hr Hs Hpos Hlen Hat Hm].
  destruct (delete_at _ _ _ Hat) as (e1 & He1 & Hst & Hat1 & Hw1 & Hd1). rewrite Hs, He1. cbn [mbind option_bind].
  destruct (zlen t <=? src_pos st) eqn:E; zbool.
  - eexists _, (S n). split; [done|]. split; [done|]. replace (cur + Z.of_nat (S n) - Z.of_nat (S n)) with cur by lia.
    split; [|split; [lia|cbn; lia]]. constructor; cbn; try done. intros [Hf|?] Hlt; [|done]. specialize (Hm Hf Hlt). unfold match_at in *.
    destruct Hst as (_ & -> & ->). done.
  - pose proof Hpos as Hpos'. rewrite Z.min_l in Hpos' by lia. rewrite Hpos' in *.
    destruct (byte_at_some t (cur + LZSS_HI)) as [c Hbyte]; [lz_lia|]. rewrite Hbyte. cbn [mbind option_bind].
    pose proof (read_ring_ok e1 (slot (cur + LZSS_HI)) c (slot_range _)) as Hread.
    destruct (put_ring e1 (slot (cur + LZSS_HI)) c) as [e2|]; [|done]. cbn [mbind option_bind] in Hread |- *. rewrite Hread. cbn [mbind option_bind].
    rewrite Hr, !next_slot. destruct Hat1 as [Hi1 Ht1 _].
    destruct (insert_at (mkEngine (read_in (lzss_ring_buffer e1) (slot (cur + LZSS_HI)) c) (lzss_match_length e1) (lzss_match_position e1)
      (lzss_lchild e1) (lzss_rchild e1) (lzss_parent e1)) (cur + 1) (cur + LZSS_HI + 1)) as (e3 & -> & Hat3 & Hm3).
    + apply engine_inv_ring with (s := slot (cur + LZSS_HI)); [done|done|]. intros x Hx Hne.
      pose proof (slot_range (cur + LZSS_HI)). apply read_in_ne; lia.
    + apply text_in_read; [lz_lia|done|done].
    + by replace (cur + 1 - 1) with cur by lia.
    + lz_lia.
    + lia.
    + cbn [mbind option_bind]. edestruct (IH True (pk_moved st e3 (cur + LZSS_HI + 1) (slot (cur + LZSS_HI + 1)) (slot (cur + 1)) (pk_len st)) (cur + 1))
        as (st' & rest & -> & Hsc & Hp' & Hrest & Hend); [|lia|].
      * constructor; cbn; try done; try lia. f_equal. lia.
      * exists st', rest. split; [done|]. split; [done|]. replace (cur + Z.of_nat (S n)) with (cur + 1 + Z.of_nat n) by lia.
        split; [|split; [lia|done]]. eapply pack_at_mono; [|done]. tauto.
Qed.

Lemma drain_bytes_ok fresh n st cur : zlen t < 2 ^ 32 -> pack_at fresh st cur -> cur + Z.of_nat n <= zlen t -> (n <> O -> src_pos st = zlen t) ->
  exists st', drain_bytes n st = Some st' /\ same_code st st' /\ pack_at (fresh \/ n <> O) st' (cur + Z.of_nat n).
Proof.
  intros H32. revert fresh st cur. induction n as [|n IH]; intros fresh st cur Hp Hn Hend; cbn [drain_bytes].
  { exists st. rewrite Z.add_0_r. split; [done|]. split; [done|]. eapply pack_at_mono; [|done]. tauto. }
  specialize (Hend ltac:(done)). destruct Hp as [Hc Hr Hs Hpos Hlen Hat Hm].
  destruct (delete_at _ _ _ Hat) as (e1 & He1 & Hst & Hat1 & Hw1 & Hd1). rewrite Hs, He1. cbn [mbind option_bind].
  rewrite Hr, !next_slot, Hlen, Hend in *. rewrite u32_small by (unfold is_u32; lia).
  assert (exists e2, (if negb (zlen t - cur - 1 =? 0) then insert_node e1 (slot (cur + 1)) else Some e1) = Some e2
    /\ at_pos t e2 (cur + 1) (zlen t) /\ (cur + 1 < zlen t -> match_at t e2 (cur + 1) (zlen t))) as (e2 & -> & Hat2 & Hm2).
  { destruct Hat1 as [Hi1 Ht1 _]. destruct (zlen t - cur - 1 =? 0) eqn:E; zbool; cbn [negb].
    - exists e1. split; [done|]. split; [|lia]. constructor; [done|done|]. intros p Hp. destruct (Hw1 p Hp) as (j & ? & ? & ?). exists j. lia.
    - destruct (insert_at e1 (cur + 1) (zlen t)) as (e2 & -> & H1 & H2); try done; try lia.
      + by replace (cur + 1 - 1) with cur by lia.
      + by exists e2. }
  cbn [mbind option_bind].
  edestruct (IH True (pk_moved st e2 (zlen t) (slot (cur + LZSS_HI + 1)) (slot (cur + 1)) (zlen t - cur - 1)) (cur + 1)) as (st' & H1 & Hsc & Hp'); [|lia|done|].
  - constructor; cbn; try done; try lia. f_equal. lia.
  - replace (cur + Z.of_nat (S n)) with (cur + 1 + Z.of_nat n) by lia. exists st'. split; [done|]. split; [done|]. eapply pack_at_mono; [|done]. tauto.
Qed.

(** ** The code *)

(** The units sent and pending: complete groups [gs], then [us]. *)
Record coded (st : pack_state) (cur : Z) (gs : list (list unit_code)) (us : list unit_code) : Prop := mkCoded {
  cd_groups : Forall (fun g => zlen g = 8) gs;
  cd_dst : pk_dst st = concat (map group_bytes gs);
  cd_units : cb_units st = units_bytes us;
  cd_flags : cb_flags st = flags_of us;
  cd_mask : pk_mask st = 2 ^ zlen us;
  cd_ok : units_ok t 0 (concat gs ++ us);
  cd_size : units_size (concat gs ++ us) = cur;
}.

Lemma lor_above a k : 0 <= k -> 0 <= a < 2 ^ k -> Z.lor a (2 ^ k) = a + 2 ^ k.
Proof.
  intros Hk Ha. assert (Z.land a (2 ^ k) = 0) as H0.
  { apply Z.bits_inj'. intros n Hn. rewrite Z.land_spec, Z.bits_0, Z.pow2_bits_eqb by lia.
    destruct (k =? n) eqn:E; zbool; [subst n|apply andb_false_r]. rewrite andb_true_r.
    destruct (Z.eq_dec a 0) as [->|]; [apply Z.bits_0|]. apply Z.bits_above_log2; [lia|]. apply Z.log2_lt_pow2; lia. }
  rewrite Z.add_nocarry_lxor by done. symmetry. by apply Z.lxor_lor.
Qed.

Lemma zlen_units_bytes_le us : zlen (units_bytes us) <= 2 * zlen us.
Proof.
  induction us as [|u us IH]; [done|]. unfold units_bytes. cbn [map concat]. fold (units_bytes us). rewrite zlen_cons, zlen_app.
  assert (zlen (unit_bytes u) <= 2) by (by destruct u). lia.
Qed.

Lemma units_bytes_snoc us u : units_bytes (us ++ [u]) = units_bytes us ++ unit_bytes u.
Proof. rewrite units_bytes_app. unfold units_bytes at 2. cbn. by rewrite app_nil_r. Qed.

Lemma put_code_ok units c : zlen units < 16 -> put_code units c = Some (units ++ [c]).
Proof. intros H. unfold put_code. destruct (zlen units <? 16) eqn:E; zbool; [done|lia]. Qed.

(** Encoding adds a unit that stands for as many bytes as the match length says afterwards. *)
Lemma encode_ok st cur gs us : pack_at True st cur -> cur < zlen t -> coded st cur gs us -> zlen us < 8 ->
  exists st' u, encode st = Some st' /\ unit_ok t cur u /\ lzss_match_length (pk_engine st') = unit_size u
    /\ pack_at False st' cur /\ pk_mask st' = 2 ^ zlen us /\ pk_dst st' = pk_dst st
    /\ cb_units st' = units_bytes (us ++ [u]) /\ cb_flags st' = flags_of (us ++ [u]).
Proof.
  intros [Hc Hr Hs Hpos Hlen Hat Hm] Hlt [_ _ Hcu Hcf Hcm _ _] Hus. destruct (Hm I Hlt) as [Hml Hmatch]. pose proof (zlen_units_bytes_le us).
  assert (forall e, tree_of e = tree_of (pk_engine st) -> lzss_ring_buffer e = lzss_ring_buffer (pk_engine st) -> at_pos t e cur (src_pos st)) as Hat'.
  { intros e H1 H2. destruct Hat as [[depth ?] ? ?]. constructor; [exists depth|..]; by rewrite ?H1, ?H2. }
  assert (byte_at t cur = Some (lzss_ring_buffer (pk_engine st) (slot cur))) as Hbyte.
  { destruct Hat as [_ Ht _]. apply Ht; lz_lia. }
  unfold encode. set (len := if _ <? _ then _ else _).
  assert (len = Z.min (pk_len st) (lzss_match_length (pk_engine st))) as Hl by (unfold len; destruct (_ <? _) eqn:E; zbool; lia).
  clearbody len. destruct (len <=? LZSS_LO) eqn:E; zbool.
  - rewrite Hr, get_ring_ok by (pose proof (slot_range cur); lz_lia). cbn [mbind option_bind]. rewrite Hcu, put_code_ok by lia. cbn [mbind option_bind].
    eexists _, (Lit _). split; [reflexivity|]. cbn. split; [exact Hbyte|]. split; [done|]. split.
    { constructor; cbn; try done. by apply Hat'. }
    rewrite units_bytes_snoc, flags_of_app. cbn [is_lit Z.b2z unit_bytes]. rewrite Hcf, Hcm.
    split; [done|]. split; [done|]. split; [done|]. rewrite lor_above by (apply zlen_nonneg || apply flags_of_range). lia.
  - destruct Hmatch as [Hm0|(d & Hd & Hds & Hmp & Hk)]; [lz_lia|]. set (off := if _ <? 0 then _ else _).
    assert (off = d) as Hoff.
    { unfold off. rewrite Hr, Hmp. clear -Hds Hd. unfold slot. lz_unfold. destruct (_ <? 0) eqn:E; zbool; Z.div_mod_to_equations; lia. }
    clearbody off. subst off. rewrite Hcu, put_code_ok by lia. cbn [mbind option_bind].
    rewrite put_code_ok by (rewrite zlen_app; change (zlen [u8 d]) with 1; lia). cbn [mbind option_bind].
    eexists _, (Ref d len). split; [reflexivity|]. cbn [unit_ok unit_size pk_engine with_match lzss_match_length pk_mask pk_dst cb_units cb_flags].
    split; [|split; [done|]].
    { split; [lia|]. split; [lia|]. split; [lz_lia|]. split; [lia|]. intros k Hk'. apply Hk; lia. }
    split; [constructor; cbn; try done; by apply Hat'|].
    split; [done|]. split; [done|]. rewrite units_bytes_snoc, flags_of_app, <- app_assoc. cbn [is_lit Z.b2z]. split; [done|]. rewrite Hcf. lia.
Qed.

Lemma send_ok bs dst max : (zlen dst + zlen bs <= max -> send bs dst max = (true, dst ++ bs))
  /\ (max < zlen dst + zlen bs -> zlen dst <= max -> exists dst', send bs dst max = (false, dst') /\ zlen dst' <= max).
Proof.
  revert dst. induction bs as [|b bs IH]; intros dst; cbn [send]; [rewrite app_nil_r; split; [done|rewrite zlen_nil; lia]|].
  rewrite zlen_cons. pose proof (zlen_nonneg bs). destruct (max <=? zlen dst) eqn:E; zbool; [split; [lia|intros; by exists dst]|].
  destruct (IH (dst ++ [b])) as [IH1 IH2]. rewrite zlen_app in IH1, IH2. change (zlen [b]) with 1 in *. rewrite <- app_assoc in IH1.
  split; intros; [apply IH1; lia|apply IH2; lia].
Qed.

(** How much longer than the text the code can be: a byte of flags for eight units. *)
Lemma units_bytes_short c us : 0 <= c <= zlen t -> units_ok t c us -> zlen (units_bytes us) <= units_size us.
Proof.
  revert c. induction us as [|u us IH]; intros c Hc Hus; [done|]. destruct Hus as [Hu Hus]. pose proof (unit_ok_size t c u Hc Hu).
  specialize (IH (c + unit_size u) ltac:(lia) Hus). unfold units_bytes. cbn [map concat units_size foldr]. fold (units_bytes us) (units_size us).
  rewrite zlen_app. assert (zlen (unit_bytes u) <= unit_size u); [|lia]. destruct u as [x|d l]; cbn in *; [done|].
  unfold zlen. cbn. unfold LZSS_LO in *. lia.
Qed.

Lemma groups_short c gs : 0 <= c <= zlen t -> Forall (fun g => zlen g = 8) gs -> units_ok t c (concat gs) ->
  8 * zlen (concat (map group_bytes gs)) <= 9 * units_size (concat gs).
Proof.
  revert c. induction gs as [|g gs IH]; intros c Hc Hgs Hus; [done|]. cbn [map concat] in *. apply Forall_cons in Hgs as [Hg Hgs].
  apply units_ok_app in Hus as [H1 H2]. pose proof (units_ok_size t c g Hc H1). pose proof (units_bytes_short c g Hc H1).
  specialize (IH (c + units_size g)). rewrite zlen_app, units_size_app. unfold group_bytes at 1. rewrite zlen_cons.
  assert (8 * zlen (concat (map group_bytes gs)) <= 9 * units_size (concat gs)); [apply IH; (lia || done)|lia].
Qed.

Lemma stream_short gs us : Forall (fun g => zlen g = 8) gs -> units_ok t 0 (concat gs ++ us) ->
  8 * zlen (concat (map group_bytes gs) ++ group_bytes us) <= 9 * zlen t + 8.
Proof.
  intros Hgs Hus. pose proof (zlen_nonneg t). pose proof (units_ok_size t 0 _ ltac:(lia) Hus) as [_ Hsz]. rewrite units_size_app in Hsz.
  apply units_ok_app in Hus as [H1 H2]. pose proof (groups_short 0 gs ltac:(lia) Hgs H1). pose proof (units_ok_size t 0 _ ltac:(lia) H1).
  pose proof (zlen_nonneg (concat gs)). pose proof (units_bytes_short (0 + units_size (concat gs)) us ltac:(lia) H2).
  pose proof (units_ok_size t (0 + units_size (concat gs)) _ ltac:(lia) H2). pose proof (zlen_nonneg us).
  rewrite zlen_app. unfold group_bytes at 2. rewrite zlen_cons. lia.
Qed.

Lemma mask_next k : 0 <= k < 8 -> u8 (2 ^ k * 2) = if k =? 7 then 0 else 2 ^ (k + 1).
Proof.
  intros H. assert (k = 0 \/ k = 1 \/ k = 2 \/ k = 3 \/ k = 4 \/ k = 5 \/ k = 6 \/ k = 7) as Hcase by lia.
  by repeat destruct Hcase as [->|Hcase]; [..|subst].
Qed.

Lemma flush_ok st cur gs us u max : Forall (fun g => zlen g = 8) gs -> units_ok t 0 (concat gs ++ us ++ [u]) ->
  units_size (concat gs ++ us ++ [u]) = cur -> zlen us < 8 -> pk_dst st = concat (map group_bytes gs) -> zlen (pk_dst st) <= max ->
  cb_units st = units_bytes (us ++ [u]) -> cb_flags st = flags_of (us ++ [u]) -> pk_mask st = 2 ^ zlen us ->
  exists ok st', flush st max = (ok, st') /\ pk_engine st' = pk_engine st
    /\ (src_pos st', pk_s st', pk_r st', pk_len st') = (src_pos st, pk_s st, pk_r st, pk_len st)
    /\ zlen (pk_dst st') <= max /\ (ok = false -> 8 * max <= 9 * zlen t + 8)
    /\ (ok = true -> exists gs' us', coded st' cur gs' us' /\ zlen us' < 8).
Proof.
  intros Hgs Hok' Hsz Hus Hdst Hmax Hcu Hcf Hcm. unfold flush. pose proof (zlen_nonneg us). rewrite Hcm, mask_next by lia.
  destruct (zlen us =? 7) eqn:E; zbool.
  - cbn [Z.eqb]. rewrite Hcu, Hcf. fold (group_bytes (us ++ [u])). destruct (send_ok (group_bytes (us ++ [u])) (pk_dst st) max) as [S1 S2].
    destruct (Z_le_dec (zlen (pk_dst st) + zlen (group_bytes (us ++ [u]))) max) as [Hfit|Hfull].
    + rewrite S1 by done. eexists _, _. split; [done|]. cbn. split; [done|]. split; [done|]. split; [by rewrite zlen_app|]. split; [done|]. intros _.
      exists (gs ++ [us ++ [u]]), []. split; [|done].
      assert (concat (gs ++ [us ++ [u]]) ++ [] = concat gs ++ us ++ [u]) as Hcat by (rewrite app_nil_r, concat_app; cbn; by rewrite app_nil_r).
      constructor; cbn; rewrite ?Hcat; try done.
      * apply Forall_app. split; [done|]. constructor; [|done]. rewrite zlen_app. change (zlen [u]) with 1. lia.
      * rewrite map_app, concat_app, Hdst. cbn. by rewrite app_nil_r.
    + destruct (S2 ltac:(lia) Hmax) as (dst & -> & Hd). eexists _, _. split; [done|]. cbn.
      split; [done|]. split; [done|]. split; [done|]. split; [|done]. intros _. pose proof (stream_short gs (us ++ [u]) Hgs Hok') as Hb.
      rewrite zlen_app, <- Hdst in Hb. lia.
  - destruct (2 ^ (zlen us + 1) =? 0) eqn:E'; zbool; [pose proof (Z.pow_pos_nonneg 2 (zlen us + 1)); lia|].
    eexists _, _. split; [done|]. cbn. split; [done|]. split; [done|]. split; [done|]. split; [done|]. intros _. exists gs, (us ++ [u]).
    rewrite zlen_app. change (zlen [u]) with 1. split; [|lia]. constructor; cbn; try done. by rewrite zlen_app.
Qed.

Lemma pack_at_same fresh st st' cur : pk_engine st' = pk_engine st ->
  (src_pos st', pk_s st', pk_r st', pk_len st') = (src_pos st, pk_s st, pk_r st, pk_len st) ->
  pack_at fresh st cur -> pack_at fresh st' cur.
Proof. intros He Hv [Hc Hr Hs Hp Hl Ha Hm]. injection Hv as H1 H2 H3 H4. constructor; rewrite ?He, ?H1, ?H2, ?H3, ?H4; done. Qed.

Lemma coded_same st st' cur gs us : same_code st st' -> coded st cur gs us -> coded st' cur gs us.
Proof. intros (H1 & H2 & H3 & H4) []. constructor; rewrite ?H1, ?H2, ?H3, ?H4; done. Qed.

Lemma pack_loop_ok fuel max st cur gs us : zlen t < 2 ^ 32 ->
  pack_at True st cur -> coded st cur gs us -> zlen us < 8 -> zlen (pk_dst st) <= max -> cur < zlen t -> zlen t - cur <= Z.of_nat fuel ->
  exists ok st', pack_loop fuel t max st = Some (ok, st') /\ zlen (pk_dst st') <= max /\ (ok = false -> 8 * max <= 9 * zlen t + 8)
    /\ (ok = true -> exists gs' us', coded st' (zlen t) gs' us' /\ zlen us' < 8).
Proof.
  intros H32. revert st cur gs us. induction fuel as [|fuel IH]; intros st cur gs us Hp Hcd Hus Hmax Hlt Hfuel; [lia|]. cbn [pack_loop].
  destruct (encode_ok st cur gs us Hp Hlt Hcd Hus) as (st1 & u & -> & Hu & Hml & Hp1 & Hm1 & Hd1 & Hu1 & Hf1). cbn [mbind option_bind].
  destruct Hcd as [Cg Cd Cu Cf Cm Co Cs]. pose proof (unit_ok_size t cur u (pa_cur _ _ _ Hp) Hu) as [Hu1' Hul].
  destruct (flush_ok st1 (cur + unit_size u) gs us u max) as (ok & st2 & -> & He2 & Hv2 & Hmax2 & Hbad & Hgood); try done; try congruence.
  { rewrite app_assoc. apply units_ok_app. split; [done|]. split; [by rewrite Cs|done]. }
  { rewrite app_assoc, units_size_app, Cs. cbn. lia. }
  destruct ok; cbn [negb]; [|eexists _, _; by split]. rewrite He2, Hml. destruct Hgood as (gs2 & us2 & Hcd2 & Hus2); [done|].
  destruct (read_bytes_ok False (Z.to_nat (unit_size u)) st2 cur) as (st3 & rest & -> & Hsc3 & Hp3 & Hrest & Hend); [by eapply pack_at_same|lia|].
  cbn [mbind option_bind]. rewrite Z2Nat.id in Hp3 by lia.
  destruct (drain_bytes_ok _ rest st3 _ H32 Hp3) as (st4 & -> & Hsc4 & Hp4); [lia|done|]. cbn [mbind option_bind].
  apply (pack_at_mono _ True) in Hp4; [|intros _; destruct rest; [left; right; lia|right; lia]].
  replace (cur + unit_size u - Z.of_nat rest + Z.of_nat rest) with (cur + unit_size u) in Hp4 by lia.
  pose proof (coded_same _ _ _ _ _ Hsc4 (coded_same _ _ _ _ _ Hsc3 Hcd2)) as Hcd4.
  assert (zlen (pk_dst st4) <= max) by (destruct Hsc4 as (-> & _), Hsc3 as (-> & _); done).
  pose proof (pa_len _ _ _ Hp4) as Hlen4. pose proof (pa_pos _ _ _ Hp4) as Hpos4.
  destruct (0 <? pk_len st4) eqn:E; zbool.
  - apply (IH st4 (cur + unit_size u) gs2 us2); try done; lz_lia.
  - eexists _, _. split; [done|]. split; [done|]. split; [done|]. intros _. exists gs2, us2. split; [|done].
    assert (cur + unit_size u = zlen t) as <- by lz_lia. done.
Qed.

End Text.

(** ** The start *)

Lemma fill_parent_ok n e i : 0 <= i -> i + Z.of_nat n <= PARENT_SIZE ->
  exists e', fill_parent n e i = Some e' /\ lzss_rchild e' = lzss_rchild e
    /\ forall x, (i <= x < i + Z.of_nat n \/ lzss_parent e x = LZSS_NIL) -> lzss_parent e' x = LZSS_NIL.
Proof.
  revert e i. induction n as [|n IH]; intros e i Hi Hn; cbn [fill_parent].
  { exists e. split; [done|]. split; [done|]. intros x [?|?]; [lia|done]. }
  rewrite put_parent_ok by lia. cbn [mbind option_bind]. destruct (IH (set_parent e i LZSS_NIL) (i + 1)) as (e' & -> & Hr & Hx); [lia|lia|].
  exists e'. split; [done|]. split; [done|]. intros x Hx'. apply Hx. cbn. unfold upd. destruct (x =? i) eqn:E; zbool; [by right|].
  destruct Hx' as [?|?]; [left; lia|by right].
Qed.

Lemma fill_rchild_ok n e i : 0 <= i -> i + Z.of_nat n <= RCHILD_SIZE ->
  exists e', fill_rchild n e i = Some e' /\ lzss_parent e' = lzss_parent e
    /\ forall x, (i <= x < i + Z.of_nat n \/ lzss_rchild e x = LZSS_NIL) -> lzss_rchild e' x = LZSS_NIL.
Proof.
  revert e i. induction n as [|n IH]; intros e i Hi Hn; cbn [fill_rchild].
  { exists e. split; [done|]. split; [done|]. intros x [?|?]; [lia|done]. }
  rewrite put_rchild_ok by lia. cbn [mbind option_bind]. destruct (IH (set_rchild e i LZSS_NIL) (i + 1)) as (e' & -> & Hr & Hx); [lia|lia|].
  exists e'. split; [done|]. split; [done|]. intros x Hx'. apply Hx. cbn. unfold upd. destruct (x =? i) eqn:E; zbool; [by right|].
  destruct Hx' as [?|?]; [left; lia|by right].
Qed.

(** No nodes, empty roots: well-formed whatever the ring holds. *)
Definition empty_trees (t : tree) : Prop := (forall x, ~ live t x) /\ forall x, is_root x -> rc t x = LZSS_NIL.

Lemma initialize_trees_ok e : exists e', initialize_trees e = Some e' /\ empty_trees (tree_of e').
Proof.
  unfold initialize_trees. destruct (fill_parent_ok (Z.to_nat LZSS_SIZE) e 0) as (e1 & -> & Hr & Hp); [lia|lz_lia|]. cbn [mbind option_bind].
  destruct (fill_rchild_ok 256 e1 (LZSS_SIZE + 1)) as (e2 & -> & Hp2 & Hr2); [lz_lia|lz_lia|]. exists e2. split; [done|]. split.
  - intros x [Hx Hne]. apply Hne. cbn [tree_of par]. rewrite Hp2. apply Hp. left. lz_lia.
  - intros x [Hx Hx']. apply Hr2. left. lia.
Qed.

Lemma empty_inv e : empty_trees (tree_of e) -> engine_inv e.
Proof.
  intros [Hl Hr]. exists (fun _ => O). constructor; try (intros p Hp; by apply Hl in Hp).
  intros p [Hp|Hp] Hne; [by apply Hl in Hp|]. by apply Hr in Hp.
Qed.

Lemma load_ok t n e len : 0 <= len <= zlen t -> len + Z.of_nat n = LZSS_HI ->
  (forall j, 0 <= j < len -> byte_at t j = Some (lzss_ring_buffer e j)) ->
  exists e', load n t e len = Some (e', Z.min LZSS_HI (zlen t)) /\ tree_of e' = tree_of e
    /\ forall j, 0 <= j < Z.min LZSS_HI (zlen t) -> byte_at t j = Some (lzss_ring_buffer e' j).
Proof.
  revert e len. induction n as [|n IH]; intros e len Hlen Hn Hb; cbn [load].
  { exists e. replace (Z.min LZSS_HI (zlen t)) with len by lia. done. }
  destruct (zlen t <=? len) eqn:E; zbool.
  { exists e. replace (Z.min LZSS_HI (zlen t)) with len by lia. done. }
  destruct (byte_at_some t len ltac:(lia)) as [c Hc]. rewrite Hc. cbn [mbind option_bind]. rewrite put_ring_ok by lz_lia. cbn [mbind option_bind].
  edestruct (IH (mkEngine (upd (lzss_ring_buffer e) len c) (lzss_match_length e) (lzss_match_position e) (lzss_lchild e) (lzss_rchild e) (lzss_parent e)) (len + 1))
    as (e' & -> & Ht & Hb'); [lia|lia|..].
  - intros j Hj. cbn. unfold upd. destruct (j =? len) eqn:E'; zbool; [by subst|]. apply Hb. lia.
  - by exists e'.
Qed.

(** Before the main loop. *)
Lemma start_ok t e : bytes_ok t -> 0 < zlen t ->
  exists e1 e2 e3, initialize_trees e = Some e1 /\ load (Z.to_nat LZSS_HI) t e1 0 = Some (e2, Z.min LZSS_HI (zlen t)) /\ insert_node e2 0 = Some e3
    /\ pack_at t True (mkPackState e3 (Z.min LZSS_HI (zlen t)) [] 0 [] 1 LZSS_HI 0 (Z.min LZSS_HI (zlen t))) 0.
Proof.
  intros Hok Hlen. destruct (initialize_trees_ok e) as (e1 & Hi1 & He1).
  destruct (load_ok t (Z.to_nat LZSS_HI) e1 0) as (e2 & Hl2 & Ht2 & Hb2); [lia|lz_lia|intros; lia|]. rewrite <- Ht2 in He1.
  destruct (insert_at t Hok e2 0 (Z.min LZSS_HI (zlen t))) as (e3 & He3 & Hat & Hm).
  - by apply empty_inv.
  - constructor; [|lz_lia]. intros j Hj Hlt. unfold slot. rewrite Z.mod_small by lz_lia. apply Hb2. lia.
  - intros p Hp. destruct He1 as [Hl _]. by destruct (Hl p).
  - lz_lia.
  - lia.
  - exists e1, e2, e3. refine (conj Hi1 (conj Hl2 (conj He3 _))). clear Hi1 Hl2 He3.
    constructor; cbn [pk_r pk_s src_pos pk_len pk_engine]; [lia|reflexivity|reflexivity|lia|lia|exact Hat|by intros].
Qed.

Lemma start_coded t e len s r : coded t (mkPackState e len [] 0 [] 1 s r len) 0 [] [].
Proof. by constructor. Qed.

(** The end of [pack]: the units that are left are sent. *)
Lemma finish_ok t st max gs us : coded t st (zlen t) gs us -> zlen us < 8 -> zlen (pk_dst st) <= max ->
  exists ok dst, match cb_units st with [] => (true, pk_dst st) | units => send (cb_flags st :: units) (pk_dst st) max end = (ok, dst)
    /\ zlen dst <= max /\ (ok = true -> dst = stream gs us) /\ (ok && (zlen dst <? max) = false -> 8 * max <= 9 * zlen t + 8).
Proof.
  intros [Cg Cd Cu Cf Cm Co Cs] Hus Hmax. pose proof (stream_short t gs us Cg Co) as Hb. rewrite <- Cd in Hb. unfold stream. rewrite <- Cd.
  destruct us as [|u us].
  - rewrite Cu. cbn. eexists _, _. split; [done|]. split; [done|]. rewrite app_nil_r. split; [done|]. intros E. zbool. rewrite zlen_app in Hb.
    pose proof (zlen_nonneg (group_bytes [])). lia.
  - assert (exists b bs, cb_units st = b :: bs) as (b & bs & Hbs) by (rewrite Cu; destruct u; by eexists _, _).
    rewrite Hbs, <- Hbs, Cf, Cu. cbn [last_bytes]. fold (group_bytes (u :: us)). rewrite zlen_app in Hb.
    destruct (send_ok (group_bytes (u :: us)) (pk_dst st) max) as [S1 S2].
    destruct (Z_le_dec (zlen (pk_dst st) + zlen (group_bytes (u :: us))) max) as [Hfit|Hfull].
    + rewrite S1 by done. eexists _, _. split; [done|]. split; [by rewrite zlen_app|]. split; [done|]. rewrite zlen_app. cbn [andb]. intros E. zbool. lia.
    + destruct (S2 ltac:(lia) Hmax) as (dst & -> & Hd). eexists _, _. split; [done|]. split; [done|]. split; [done|]. intros _. lia.
Qed.

Lemma bind_some {A B} (x : A) (f : A -> option B) : (Some x ≫= f) = f x.
Proof. reflexivity. Qed.

(** ** What packing and unpacking promise *)

(** Packing succeeds if there is room, and what it writes unpacks to the text. *)
Lemma pack_unpack (around : Z -> option Z) (t : bytes) (e : engine) (dst_size : Z) :
  bytes_ok t -> 0 < zlen t < 2 ^ 31 -> 0 <= dst_size <= UINT_MAX_VAL ->
  exists size dst e', lz_pack e t dst_size = Some (size, dst, e') /\ zlen dst <= dst_size
    /\ ((size = 0 /\ 8 * dst_size <= 9 * zlen t + 8)
        \/ (0 < size < dst_size /\ zlen dst = size /\ lz_unpack around dst (zlen t) = Some (true, t))).
Proof.
  intros Hok Hlen Hdst. unfold lz_pack. destruct (dst_size <=? UINT_MAX_VAL) eqn:E; zbool; [|lia]. unfold c3_assert. rewrite bind_some.
  destruct (start_ok t e Hok ltac:(lia)) as (e1 & e2 & e3 & -> & H2 & H3 & Hp). rewrite bind_some, H2, bind_some, H3, bind_some.
  destruct (pack_loop_ok t Hok (length t) dst_size _ 0 [] [] ltac:(lia) Hp (start_coded t _ _ _ _)) as (ok & st & -> & Hmax & Hbad & Hgood);
    [done|unfold zlen; cbn; lia|lia|unfold zlen; lia|]. rewrite bind_some. destruct ok; cbn [negb].
  - destruct Hgood as (gs & us & Hcd & Hus); [done|]. destruct (finish_ok t st dst_size gs us Hcd Hus Hmax) as (ok & dst & -> & Hd & Hs & Hfull).
    eexists _, dst, _. split; [done|]. split; [done|]. destruct (ok && (zlen dst <? dst_size)) eqn:Efit; [|left; split; [done|by apply Hfull]].
    right. apply andb_true_iff in Efit as [-> Efit]. zbool. specialize (Hs eq_refl). subst dst. destruct Hcd as [Cg _ _ _ _ Co Cs].
    pose proof (zlen_stream gs us). split; [|split; [done|apply unpack_ok; done || lia]].
    assert (zlen (concat gs ++ us) <> 0); [|pose proof (zlen_nonneg (concat gs ++ us)); lia]. intros Hz.
    assert (concat gs ++ us = []) as Hnil by (apply zlen_pos_nil; lia). rewrite Hnil in Cs. cbn in Cs. lia.
  - eexists _, _, _. split; [done|]. split; [done|]. left. split; [done|by apply Hbad].
Qed.


(** (C24) Packing a text of less than 2 GiB always terminates within its arrays, whatever an
    engine was left with by earlier texts. It fails only if the buffer is not longer than the text
    and one byte for each eight; else it says how much of the buffer, less than all, it has
    used, and unpacking these bytes into a buffer of the size of the text gives the text. *)
Theorem lzss3_round_trip (around : Z -> option Z) (t : bytes) (e : engine) (dst_size : Z) :
  bytes_ok t -> 0 < zlen t < 2 ^ 31 -> 0 <= dst_size <= UINT_MAX_VAL ->
  exists size dst e', lz_pack e t dst_size = Some (size, dst, e') /\ zlen dst <= dst_size
    /\ ((size = 0 /\ 8 * dst_size <= 9 * zlen t + 8)
        \/ (0 < size < dst_size /\ zlen dst = size /\ lz_unpack around dst (zlen t) = Some (true, t))).
Proof. apply pack_unpack. Qed.

(** A text with repetitions, in an engine that has been used before. *)
Definition sample_text : bytes := [1; 2; 3; 4; 1; 2; 3; 4; 1; 2; 3; 4; 9; 1; 2; 3; 4; 1; 2; 3].
Definition used_engine : engine := mkEngine (fun i => i mod 7) 5 3 (fun i => i mod 11) (fun i => i mod 13) (fun i => i mod 17).

Lemma lzss3_round_trip_witness : exists size dst e', lz_pack used_engine sample_text 20 = Some (size, dst, e') /\ zlen dst <= 20
    /\ ((size = 0 /\ 8 * 20 <= 9 * zlen sample_text + 8)
        \/ (0 < size < 20 /\ zlen dst = size /\ lz_unpack (fun _ => None) dst (zlen sample_text) = Some (true, sample_text))).
Proof.
  apply (lzss3_round_trip (fun _ => None) sample_text used_engine 20).
  - repeat constructor; discriminate.
  - change (zlen sample_text) with 20. lia.
  - unfold UINT_MAX_VAL. lia.
Defined.

(** The same text does get shorter. *)
Example sample_packed : (x ← lz_pack used_engine sample_text 20; Some (fst x)) = Some (10, [47; 1; 2; 3; 4; 4; 5; 9; 13; 4]).
Proof. vm_compute. reflexivity. Qed.

(** ** Unpacking anything *)

Section Anything.
Context (around : Z -> option Z).

(** Reading the memory around the buffer gives something. *)
Definition readable : Prop := forall i, is_Some (around i).

Lemma copy_total j dst n i : readable -> zlen dst <= n ->
  exists ok dst', copy around j dst n i = Some (ok, dst') /\ zlen dst' <= n.
Proof.
  intros Hr. revert dst i. induction j as [|j IH]; intros dst i Hn; cbn [copy]; [by eexists _, _|].
  destruct (n <=? zlen dst) eqn:E; zbool; [by eexists _, _|].
  assert (exists c, read_dst around dst i = Some c) as [c ->] by (unfold read_dst; destruct (byte_at dst i); [by eexists|apply Hr]).
  cbn [mbind option_bind]. apply IH. rewrite zlen_app. change (zlen [c]) with 1. lia.
Qed.

Lemma unpack_loop_total fuel src flags dst n : readable -> zlen dst <= n -> (length src < fuel)%nat ->
  exists ok dst', unpack_loop around fuel src flags dst n = Some (ok, dst') /\ zlen dst' <= n /\ (ok = true -> zlen dst' = n).
Proof.
  intros Hr. revert src flags dst. induction fuel as [|fuel IH]; intros src flags dst Hn Hf; [lia|]. rewrite unpack_loop_S.
  assert (exists ok dst', Some (zlen dst =? n, dst) = Some (ok, dst') /\ zlen dst' <= n /\ (ok = true -> zlen dst' = n)) as Hbreak.
  { eexists _, _. split; [done|]. split; [done|]. intros E. by zbool. }
  assert (forall src flags, (length src <= fuel)%nat ->
    exists ok dst', unpack_unit around fuel dst n flags src = Some (ok, dst') /\ zlen dst' <= n /\ (ok = true -> zlen dst' = n)) as Hunit.
  { clear src flags Hf. intros src flags Hf. unfold unpack_unit. destruct (negb _).
    - destruct src as [|c src]; [done|]. destruct (n <=? zlen dst) eqn:E; zbool; [by eexists _, _|].
      apply IH; [rewrite zlen_app; change (zlen [c]) with 1; lia|cbn in Hf; lia].
    - destruct src as [|i [|j src]]; [done|done|]. edestruct copy_total as (ok & dst' & -> & Hd); [done|done|]. cbn [mbind option_bind].
      destruct ok; cbn [negb]; [|by eexists _, _]. apply IH; [done|cbn in Hf; lia]. }
  destruct (_ =? 0); [|apply Hunit; lia]. destruct src as [|c src]; [done|]. apply Hunit. cbn in Hf. lia.
Qed.

(** What is written does not depend on the memory around the buffer unless it is read. *)
Lemma copy_inside j dst n i r : copy (fun _ => None) j dst n i = Some r -> copy around j dst n i = Some r.
Proof.
  revert dst i. induction j as [|j IH]; intros dst i; cbn [copy]; [done|]. destruct (n <=? zlen dst); [done|].
  unfold read_dst. destruct (byte_at dst i) as [c|]; [|done]. cbn [mbind option_bind]. apply IH.
Qed.

Lemma unpack_loop_inside fuel src flags dst n r :
  unpack_loop (fun _ => None) fuel src flags dst n = Some r -> unpack_loop around fuel src flags dst n = Some r.
Proof.
  revert src flags dst. induction fuel as [|fuel IH]; intros src flags dst; [done|]. rewrite !unpack_loop_S.
  assert (forall src flags, unpack_unit (fun _ => None) fuel dst n flags src = Some r -> unpack_unit around fuel dst n flags src = Some r) as Hunit.
  { clear src flags. intros src flags. unfold unpack_unit. destruct (negb _).
    - destruct src as [|c src]; [done|]. destruct (n <=? zlen dst); [done|apply IH].
    - destruct src as [|i [|j src]]; [done|done|]. destruct (copy (fun _ => None) _ _ _ _) as [[ok dst']|] eqn:Ec; [|done].
      apply copy_inside in Ec. rewrite Ec. cbn [mbind option_bind]. destruct ok; cbn [negb]; [apply IH|done]. }
  destruct (_ =? 0); [destruct src as [|c src]; [done|]|]; apply Hunit.
Qed.

End Anything.

(** (C25) Unpacking terminates on any bytes, valid code or not: it never writes past the
    size it was given, and reports success only when it has written exactly that many
    bytes. If it never reads before what it has written, the result is the same whatever
    the memory around the buffer holds. *)
Theorem lzss3_unpack_total (around : Z -> option Z) (src : bytes) (dst_size : Z) :
  0 <= dst_size ->
  (readable around -> exists ok dst, lz_unpack around src dst_size = Some (ok, dst)
     /\ zlen dst <= dst_size /\ (ok = true -> zlen dst = dst_size))
  /\ (forall r, lz_unpack (fun _ => None) src dst_size = Some r -> lz_unpack around src dst_size = Some r).
Proof.
  intros Hn. split; [|intros r; apply unpack_loop_inside]. intros Hr. apply unpack_loop_total; [done|done|lia].
Qed.

Lemma lzss3_unpack_total_witness :
  (readable (fun _ => Some 0) -> exists ok dst, lz_unpack (fun _ => Some 0) [1; 7; 200; 3] 9 = Some (ok, dst)
     /\ zlen dst <= 9 /\ (ok = true -> zlen dst = 9))
  /\ (forall r, lz_unpack (fun _ => None) [1; 7; 200; 3] 9 = Some r -> lz_unpack (fun _ => Some 0) [1; 7; 200; 3] 9 = Some r).
Proof. apply (lzss3_unpack_total (fun _ => Some 0) [1; 7; 200; 3] 9). lia. Defined.

(** A reference before the start of the buffer is followed: what is unpacked comes from the
    memory before it. *)
Lemma lzss3_unpack_leaks : lz_unpack (fun i => if (-100 <=? i) && (i <? 0) then Some (- i) else None) [0; 100; 0] 3 = Some (true, [100; 99; 98]).
Proof. reflexivity. Qed.
