(* ===== verification/Compressor.v ===== *)
(** * Compressor

    The compressor library ([c3_compressor.h], [c3_compressor.cc]): what an engine has to
    promise, the engines and the buffer of a thread, packing and unpacking through an
    allocator. LZSS3 keeps the promise ([Lzss3Pack]); the engines that call third-party code
    are a parameter. *)

From S2P Require Import Prelude Protocol Memory Buffers ChunkBuilder Lzss3 Lzss3Code Lzss3Pack.

Definition CL_NUMBER_OF_ELEMENTS : Z := 4.
Definition CD_NUMBER_OF_ELEMENTS : Z := 3.
Definition CL_FASTEST : Z := 0.
Definition CD_TEXT : Z := 1.

(** ** Engines *)

(** The virtual methods of [CompressorEngine]: the state knows which engine it is of. [pack]
    gives the size, what it has written to the buffer and the new state. *)
Class CompressorEngine (St : Type) := {
  engine_type : St -> Z;
  get_compressed_size : St -> Z -> Z;
  engine_pack : St -> bytes -> Z -> Z -> Z -> option (Z * bytes * St);
  engine_unpack : St -> bytes -> Z -> option (bool * bytes * St);
}.

(** What the library relies on: packing returns zero or the size of what, unpacked by an
    engine of the same type into a buffer of the right size, is the source. *)
Class EngineLaws (St : Type) `{CompressorEngine St} := {
  engine_limit : Z -> Z;
  compressed_size_range e n : 0 < n < 2 ^ 32 -> 0 <= get_compressed_size e n < 2 ^ 64;
  engine_pack_ok e src level hint :
    bytes_ok src -> 0 < zlen src < 2 ^ 32 -> zlen src < engine_limit (engine_type e) ->
    0 <= level < CL_NUMBER_OF_ELEMENTS -> 0 <= hint < CD_NUMBER_OF_ELEMENTS -> 0 < get_compressed_size e (zlen src) ->
    exists size dst e', engine_pack e src (get_compressed_size e (zlen src)) level hint = Some (size, dst, e')
      /\ 0 <= size <= zlen dst /\ zlen dst <= get_compressed_size e (zlen src)
      /\ (size <> 0 -> forall e2, engine_type e2 = engine_type e ->
            exists e3, engine_unpack e2 (take (Z.to_nat size) dst) (zlen src) = Some (true, src, e3));
  engine_pack_type e src n level hint size dst e' :
    engine_pack e src n level hint = Some (size, dst, e') -> engine_type e' = engine_type e;
  engine_unpack_type e src n ok dst e' : engine_unpack e src n = Some (ok, dst, e') -> engine_type e' = engine_type e;
}.

Section Lzss3Engine.
Context (around : Z -> option Z).

#[local] Instance CompressorLZSS3 : CompressorEngine engine := {
  engine_type _ := CT_LZSS3;
  get_compressed_size _ size := size;
  engine_pack e src dst_size _ _ := lz_pack e src dst_size;
  engine_unpack e src dst_size := '(ok, dst) ← lz_unpack around src dst_size; Some (ok, dst, e);
}.

End Lzss3Engine.

(** Dispatch between two families of engines. *)
#[export] Instance sum_engine {A B} `{CompressorEngine A} `{CompressorEngine B} : CompressorEngine (A + B) := {
  engine_type e := match e with inl e => engine_type e | inr e => engine_type e end;
  get_compressed_size e n := match e with inl e => get_compressed_size e n | inr e => get_compressed_size e n end;
  engine_pack e src n level hint :=
    match e with
    | inl e => '(size, dst, e) ← engine_pack e src n level hint; Some (size, dst, inl e)
    | inr e => '(size, dst, e) ← engine_pack e src n level hint; Some (size, dst, inr e)
    end;
  engine_unpack e src n :=
    match e with
    | inl e => '(ok, dst, e) ← engine_unpack e src n; Some (ok, dst, inl e)
    | inr e => '(ok, dst, e) ← engine_unpack e src n; Some (ok, dst, inr e)
    end;
}.

Lemma sum_pack_l {A B} `{CompressorEngine A} `{CompressorEngine B} (e : A) src n level hint :
  engine_pack (inl e : A + B) src n level hint = '(size, dst, e) ← engine_pack e src n level hint; Some (size, dst, inl e).
Proof. reflexivity. Qed.
Lemma sum_unpack_l {A B} `{CompressorEngine A} `{CompressorEngine B} (e : A) src n :
  engine_unpack (inl e : A + B) src n = '(ok, dst, e) ← engine_unpack e src n; Some (ok, dst, inl e).
Proof. reflexivity. Qed.

(** ** Allocators *)

(** [alloc] makes a buffer, [al_write] copies bytes to its beginning. *)
Class Allocator (A : Type) := {
  al_alloc : A -> Z -> option A;
  al_free : A -> Z -> option A;
  al_write : A -> bytes -> option A;
}.

(** [DefaultAllocator]: the buffer is the value returned. *)
#[export] Instance DefaultAllocator : Allocator Memory := {
  al_alloc := alloc;
  al_free := free;
  al_write m _ := Some m;
}.

(** [PayloadAllocator]: the buffer is the payload of the container. *)
#[export] Instance PayloadAllocator (junk : nat -> Z) : Allocator SharedBuffers := {
  al_alloc sb size := _ ← c3_assert (negb (size =? 0) && (get_payload_size sb =? 0)); set_payload_size junk sb size;
  al_free _ _ := None;
  al_write sb bs := payload_store sb 0 bs;
}.

(** ** The library *)

Section Library.
Context {St : Type} `{CompressorEngine St} (around : Z -> option Z) (junk : nat -> Z) (enterprise : bool).
Context (new_lzss3 : engine) (new_engine : Z -> St) (sizeof_engine : Z -> Z).

Definition any_engine : Type := engine + St.

#[local] Instance any_engine_ops : CompressorEngine any_engine := @sum_engine _ _ (CompressorLZSS3 around) _.

(** The data of a thread; blocks of the library are taken from [global_memory]. *)
Record CompressorLibrary := mkLibrary {
  cl_engines : gmap Z any_engine;
  cl_buffer : option bytes;
  cl_buff_size : Z;
  cl_memory : Memory;
}.

Definition with_engine (cl : CompressorLibrary) (type : Z) (e : any_engine) : CompressorLibrary :=
  mkLibrary (<[type := e]> (cl_engines cl)) (cl_buffer cl) (cl_buff_size cl) (cl_memory cl).
Definition with_buffer (cl : CompressorLibrary) (b : bytes) (size : Z) (m : Memory) : CompressorLibrary :=
  mkLibrary (cl_engines cl) (Some b) size m.

(** The types that the [switch] knows. *)
Definition third_party (type : Z) : bool :=
  bool_decide (type ∈ [CT_SNAPPY; CT_ZLIB; CT_ZSTD; CT_LZ4; CT_LZF; CT_LZHAM]) || enterprise && (type =? CT_BROTLI).

Definition instantiate_engine (type : Z) : option any_engine :=
  if type =? CT_LZSS3 then Some (inl new_lzss3)
  else if third_party type then Some (inr (new_engine type)) else None.

Definition get_engine (cl : CompressorLibrary) (type : Z) : option (any_engine * CompressorLibrary) :=
  _ ← c3_assert (type <? CT_NUMBER_OF_ELEMENTS);
  match cl_engines cl !! type with
  | Some e => Some (e, cl)
  | None =>
      e ← instantiate_engine type;
      m ← alloc (cl_memory cl) (sizeof_engine type);
      Some (e, mkLibrary (<[type := e]> (cl_engines cl)) (cl_buffer cl) (cl_buff_size cl) m)
  end.

(** [initialize()]: the members are cleared. *)
Definition lib_initialize (m : Memory) : CompressorLibrary := mkLibrary ∅ None 0 m.

Definition delete_engine (cl : CompressorLibrary) (type : Z) : option CompressorLibrary :=
  match cl_engines cl !! type with
  | Some _ =>
      m ← free (cl_memory cl) (sizeof_engine type);
      Some (mkLibrary (delete type (cl_engines cl)) (cl_buffer cl) (cl_buff_size cl) m)
  | None => Some cl
  end.

Definition cleanup_order : list Z :=
  [CT_LZSS3; CT_SNAPPY; CT_ZLIB; CT_ZSTD; CT_LZ4; CT_LZF] ++ (if enterprise then [CT_BROTLI] else []) ++ [CT_LZHAM].

Definition lib_cleanup (cl : CompressorLibrary) : option CompressorLibrary :=
  cl ← match cl_buffer cl with
       | Some _ =>
           _ ← c3_assert (negb (cl_buff_size cl =? 0));
           m ← free (cl_memory cl) (cl_buff_size cl);
           Some (mkLibrary (cl_engines cl) None 0 m)
       | None => _ ← c3_assert (cl_buff_size cl =? 0); Some cl
       end;
  foldl (fun cl type => cl ← cl; delete_engine cl type) (Some cl) cleanup_order.

(** Makes room for [size] bytes in the buffer. *)
Definition grow_buffer (cl : CompressorLibrary) (size : Z) : option CompressorLibrary :=
  if cl_buff_size cl <? size then
    match cl_buffer cl with
    | Some b => m ← realloc (cl_memory cl) size (cl_buff_size cl); Some (with_buffer cl (regrown junk b size) size m)
    | None => m ← alloc (cl_memory cl) size; Some (with_buffer cl (fresh junk size) size m)
    end
  else Some cl.

Section Operations.
Context {A : Type} `{Allocator A}.

(** The result, [dst_size] after the call, the library and the allocator. *)
Definition lib_pack (cl : CompressorLibrary) (type : Z) (src : bytes) (dst_size : Z) (a : A) (level hint : Z)
  : option (option bytes * Z * CompressorLibrary * A) :=
  _ ← c3_assert ((0 <? zlen src) && (dst_size <=? zlen src) && (level <? CL_NUMBER_OF_ELEMENTS) && (hint <? CD_NUMBER_OF_ELEMENTS));
  '(e, cl) ← get_engine cl type;
  let guessed_size := get_compressed_size e (zlen src) in
  if 0 <? guessed_size then
    cl ← grow_buffer cl guessed_size;
    buffer ← cl_buffer cl;
    '(actual_size, dst, e) ← engine_pack e src guessed_size level hint;
    buffer ← blit buffer 0 dst;
    let cl := with_engine (with_buffer cl buffer (cl_buff_size cl) (cl_memory cl)) type e in
    if negb (actual_size =? 0) && (actual_size <? dst_size) then
      a ← al_alloc a actual_size;
      bs ← slice buffer 0 actual_size;
      a ← al_write a bs;
      Some (Some bs, actual_size, cl, a)
    else Some (None, dst_size, cl, a)
  else Some (None, dst_size, cl, a).

Definition lib_unpack (cl : CompressorLibrary) (type : Z) (src : bytes) (dst_size : Z) (a : A)
  : option (option bytes * CompressorLibrary * A) :=
  _ ← c3_assert ((0 <? zlen src) && (zlen src <? dst_size));
  '(e, cl) ← get_engine cl type;
  a ← al_alloc a dst_size;
  '(ok, dst, e) ← engine_unpack e src dst_size;
  let cl := with_engine cl type e in
  if negb ok then a ← al_free a dst_size; Some (None, cl, a)
  else a ← al_write a dst; Some (Some dst, cl, a).

End Operations.

End Library.

(** ** LZSS3 keeps the promise *)

Section Laws.
Context {St : Type} `{EngineLaws St} (around : Z -> option Z).
Context (third_party_type : forall e : St, engine_type e <> CT_LZSS3).

#[local] Instance lz_ops : CompressorEngine engine := CompressorLZSS3 around.
#[local] Existing Instance any_engine_ops.

#[local] Instance CompressorLZSS3_laws : EngineLaws engine.
Proof.
  refine {| engine_limit := fun _ => 2 ^ 31 |}; cbn [engine_type get_compressed_size engine_pack engine_unpack lz_ops CompressorLZSS3].
  - intros e n Hn. lia.
  - intros e src _ _ Hok Hlen Hlim _ _ Hsize.
    destruct (pack_unpack around src e (zlen src)) as (size & dst & e' & Hp & Hd & Hr); [done|lia|unfold UINT_MAX_VAL; lia|].
    exists size, dst, e'. split; [done|]. destruct Hr as [[-> Hfull]|(Hs & Hz & Hu)].
    + split; [split; [done|apply zlen_nonneg]|done].
    + split; [lia|]. split; [done|]. intros _ e2 _. exists e2. rewrite <- Hz, zlen_to_nat, firstn_all, Hu. done.
  - done.
  - done.
Defined.

(** So do all the engines of the library together. *)
#[local] Instance any_engine_laws : EngineLaws (@any_engine St).
Proof.
  refine {| engine_limit := fun k => if k =? CT_LZSS3 then 2 ^ 31 else engine_limit (St := St) k |}.
  - intros [e|e] n Hn; [by apply (compressed_size_range e)|by apply (compressed_size_range e)].
  - intros [e|e] src level hint Hok Hlen Hlim Hlevel Hhint Hsize.
    + destruct (engine_pack_ok e src level hint Hok Hlen) as (size & dst & e' & Hp & Hs & Hd & Hu); [exact Hlim|exact Hlevel|exact Hhint|exact Hsize|].
      exists size, dst, (inl e'). split.
      { etrans; [apply sum_pack_l|]. by etrans; [exact (f_equal (mbind _) Hp)|]. }
      split; [done|]. split; [done|]. intros Hz [e2|e2] Ht2; [|by apply third_party_type in Ht2].
      destruct (Hu Hz e2 eq_refl) as (e3 & Hu3). exists (inl e3). etrans; [apply sum_unpack_l|]. by rewrite Hu3.
    + cbn in Hlim, Hsize |- *. pose proof (third_party_type e) as Hne. destruct (engine_type e =? CT_LZSS3) eqn:E; zbool; [done|].
      destruct (engine_pack_ok e src level hint Hok Hlen) as (size & dst & e' & Hp & Hs & Hd & Hu); [exact Hlim|exact Hlevel|exact Hhint|exact Hsize|].
      exists size, dst, (inr e'). rewrite Hp. split; [done|]. split; [done|]. split; [done|].
      intros Hz [e2|e2] Ht2; cbn in Ht2; [by rewrite <- Ht2 in Hne|]. destruct (Hu Hz e2 Ht2) as (e3 & Hu3). exists (inr e3). by rewrite Hu3.
  - intros [e|e] src n level hint size dst e' Hp.
    + apply (eq_trans (eq_sym (sum_pack_l e src n level hint))) in Hp. destruct (engine_pack e src n level hint) as [[[? ?] ?]|]; [|done]. cbn [mbind option_bind] in Hp. by simplify_eq.
    + cbn in Hp |- *. destruct (engine_pack e src n level hint) as [[[? ?] ?]|] eqn:Ep; [|done]. cbn in Hp. simplify_eq. by eapply engine_pack_type.
  - intros [e|e] src n ok dst e' Hp.
    + apply (eq_trans (eq_sym (sum_unpack_l e src n))) in Hp. destruct (engine_unpack e src n) as [[[? ?] ?]|]; [|done]. cbn [mbind option_bind] in Hp. by simplify_eq.
    + cbn in Hp |- *. destruct (engine_unpack e src n) as [[[? ?] ?]|] eqn:Ep; [|done]. cbn in Hp. simplify_eq. by eapply engine_unpack_type.
Defined.
End Laws.
