(* ===== verification/CompressorOk.v ===== *)
(** * CompressorOk

    The compressor library gives back what was packed, whichever engine and allocator is
    used, keeps its engines and its buffer consistent, and returns all its memory. *)

From S2P Require Import Prelude Protocol Memory Buffers ChunkBuilder HeaderBuild Lzss3 Compressor.

(** ** Allocators *)

(** What the library relies on: a buffer can be allocated and written in full; [al_holds]
    tells what the allocator has become. *)
Class AllocatorLaws (A : Type) `{Allocator A} := {
  al_room : A -> Z -> Prop;
  al_holds : A -> A -> bytes -> Prop;
  al_alloc_ok a n : al_room a n -> 0 < n ->
    exists a', al_alloc a n = Some a' /\ forall bs, zlen bs = n -> exists a2, al_write a' bs = Some a2 /\ al_holds a a2 bs;
}.

#[export] Instance DefaultAllocator_laws : AllocatorLaws Memory.
Proof.
  refine {| al_room := mem_room; al_holds := fun m m' bs => m' = fetch_add m (zlen bs) |}.
  intros m n Hr Hn. exists (fetch_add m n). split; [apply alloc_ok; [done|lia]|]. intros bs <-. by eexists.
Defined.

Section PayloadAllocatorLaws.
Context (junk : nat -> Z).
#[local] Existing Instance PayloadAllocator.

Lemma blit_all (old bs : bytes) : zlen old = zlen bs -> blit old 0 bs = Some bs.
Proof.
  intros Hl. unfold blit. destruct (_ && _) eqn:E; [|apply andb_false_iff in E as [E|E]; zbool; lia].
  cbn. unfold zlen in Hl. rewrite drop_ge by lia. by rewrite app_nil_r.
Qed.

(** The payload is empty before, and holds the bytes afterwards. *)
#[export] Instance PayloadAllocator_laws : @AllocatorLaws SharedBuffers (PayloadAllocator junk).
Proof.
  refine {| al_room := fun sb n => mem_room (sb_memory sb) n /\ sb_payload sb = empty_db;
            al_holds := fun sb sb' bs => sb' = with_payload (with_memory sb (fetch_add (sb_memory sb) (zlen bs))) (mkDataBuffer (Some bs) (zlen bs)) |}.
  intros sb n [Hr He] Hn. cbn [al_alloc PayloadAllocator]. unfold get_payload_size, set_payload_size, db_set_size. rewrite He.
  cbn [db_size empty_db Z.eqb andb negb db_buffer db_validate]. destruct (n =? 0) eqn:E; zbool; [lia|]. cbn [negb andb c3_assert mbind option_bind].
  rewrite alloc_ok by (done || lia). cbn [mbind option_bind]. eexists. split; [done|]. intros bs Hbs. cbn [al_write PayloadAllocator].
  unfold payload_store. cbn [sb_payload with_payload db_bytes db_buffer default]. unfold id. rewrite blit_all by (rewrite zlen_fresh; lia).
  eexists. split; [done|]. unfold with_payload, with_memory. cbn. by rewrite Hbs.
Defined.
End PayloadAllocatorLaws.

(** Bytes written to the beginning of a buffer. *)
Lemma blit_ok (b dst : bytes) : zlen dst <= zlen b -> exists rest, blit b 0 dst = Some (dst ++ rest) /\ zlen (dst ++ rest) = zlen b.
Proof.
  intros Hl. unfold blit. destruct (_ && _) eqn:E; [|apply andb_false_iff in E as [E|E]; zbool; lia]. cbn. eexists. split; [done|].
  unfold zlen in *. rewrite length_app, length_drop. lia.
Qed.

Lemma slice_head (l rest : bytes) n : 0 <= n <= zlen l -> slice (l ++ rest) 0 n = Some (take (Z.to_nat n) l).
Proof.
  intros Hn. pose proof (zlen_nonneg rest). unfold slice. rewrite zlen_app. destruct (_ && _) eqn:E.
  - rewrite drop_0, take_app_le; [done|]. unfold zlen in Hn. lia.
  - repeat (apply andb_false_iff in E as [E|E]); zbool; lia.
Qed.

Lemma zlen_take_le (l : bytes) n : 0 <= n <= zlen l -> zlen (take (Z.to_nat n) l) = n.
Proof. intros Hn. unfold zlen in *. rewrite length_take. lia. Qed.

(** ** The library *)

Section LibraryOk.
Context {St : Type} `{EngineLaws St} (around : Z -> option Z) (junk : nat -> Z) (enterprise : bool).
Context (new_lzss3 : engine) (new_engine : Z -> St) (sizeof_engine : Z -> Z).
Context (third_party_type : forall e : St, engine_type e <> CT_LZSS3).
Context (new_engine_type : forall k, third_party enterprise k = true -> engine_type (new_engine k) = k).
Context (sizeof_pos : forall k, 0 < sizeof_engine k).

Abbreviation library := (@CompressorLibrary St).
Abbreviation get_engine := (get_engine enterprise new_lzss3 new_engine sizeof_engine).
Abbreviation lib_pack := (lib_pack around junk enterprise new_lzss3 new_engine sizeof_engine).
Abbreviation lib_unpack := (lib_unpack around enterprise new_lzss3 new_engine sizeof_engine).
#[local] Hint Extern 0 (CompressorEngine any_engine) => exact (any_engine_ops around) : typeclass_instances.
#[local] Hint Extern 0 (EngineLaws any_engine) => exact (any_engine_laws around third_party_type) : typeclass_instances.

(** The types of engines there are. *)
Definition supported (type : Z) : Prop := type = CT_LZSS3 \/ third_party enterprise type = true.

Lemma supported_range type : supported type -> type < CT_NUMBER_OF_ELEMENTS.
Proof.
  intros [->|Hs]; [done|]. unfold third_party in Hs. apply orb_true_iff in Hs as [Hs|Hs].
  - apply bool_decide_eq_true in Hs. repeat (apply elem_of_cons in Hs as [->|Hs]; [done|]). by apply not_elem_of_nil in Hs.
  - apply andb_true_iff in Hs as [_ Hs]. zbool. by subst.
Qed.

Lemma supported_cleanup type : supported type -> type ∈ cleanup_order enterprise.
Proof.
  unfold cleanup_order. intros [->|Hs]; [by left|]. unfold third_party in Hs. apply orb_true_iff in Hs as [Hs|Hs].
  - apply bool_decide_eq_true in Hs. apply list_elem_of_In.
    repeat (apply elem_of_cons in Hs as [->|Hs]; [destruct enterprise; cbn; tauto|]). by apply not_elem_of_nil in Hs.
  - apply andb_true_iff in Hs as [-> Hs]. zbool. subst type. apply list_elem_of_In. cbn. tauto.
Qed.

(** Blocks of the library: the buffer and the engines. *)
Definition engine_block (cl : library) (type : Z) : Z := match cl_engines cl !! type with Some _ => sizeof_engine type | None => 0 end.
Definition engine_blocks (cl : library) (types : list Z) : Z := foldr (fun k n => engine_block cl k + n) 0 types.
Definition footprint (cl : library) : Z := cl_buff_size cl + engine_blocks cl (cleanup_order enterprise).

Record lib_inv (base : Z) (cl : library) : Prop := mkLibInv {
  li_buffer : match cl_buffer cl with Some b => zlen b = cl_buff_size cl /\ 0 < cl_buff_size cl | None => cl_buff_size cl = 0 end;
  li_engines : forall k e, cl_engines cl !! k = Some e -> engine_type e = k /\ supported k;
  li_memory : m_used_size (cl_memory cl) = u64 (base + footprint cl);
}.

Lemma lib_initialize_inv m : is_u64 (m_used_size m) -> lib_inv (m_used_size m) (lib_initialize m).
Proof.
  intros Hm. constructor; cbn; [done|intros k e He; by rewrite lookup_empty in He|].
  unfold footprint, engine_blocks, engine_block. cbn [cl_buff_size lib_initialize cl_engines].
  assert (forall l, foldr (fun k n => match (∅ : gmap Z (@any_engine St)) !! k with Some _ => sizeof_engine k | None => 0 end + n) 0 l = 0) as ->.
  { induction l as [|k l IH]; cbn [foldr]; [done|]. rewrite IH, lookup_empty. done. }
  rewrite u64_small; unfold is_u64 in *; lia.
Qed.

(** ** Engines and the buffer *)

Lemma engine_blocks_insert cl k e types m b n : NoDup types -> cl_engines cl !! k = None ->
  engine_blocks (mkLibrary (<[k := e]> (cl_engines cl)) b n m) types
  = engine_blocks cl types + (if bool_decide (k ∈ types) then sizeof_engine k else 0).
Proof.
  intros Hd Hk. induction Hd as [|x l Hx Hd IH]; [done|]. unfold engine_blocks in *. cbn [foldr]. rewrite IH. unfold engine_block at 1 3.
  cbn [cl_engines]. destruct (decide (k = x)) as [->|Hne].
  - rewrite lookup_insert, Hk. rewrite (bool_decide_eq_false_2 (x ∈ l)) by done. rewrite bool_decide_eq_true_2 by (by left).
    destruct (decide (x = x)); [lia|done].
  - rewrite lookup_insert_ne by done. destruct (bool_decide (k ∈ l)) eqn:E.
    + rewrite bool_decide_eq_true_2; [lia|]. right. by apply bool_decide_eq_true in E.
    + rewrite bool_decide_eq_false_2; [lia|]. apply bool_decide_eq_false in E. intros [->|?]%elem_of_cons; done.
Qed.

Lemma engine_blocks_ext cl cl' types : (forall k, is_Some (cl_engines cl' !! k) <-> is_Some (cl_engines cl !! k)) ->
  engine_blocks cl' types = engine_blocks cl types.
Proof.
  intros Hk. induction types as [|k types IH]; [done|]. unfold engine_blocks in *. cbn [foldr]. rewrite IH. f_equal. unfold engine_block.
  specialize (Hk k). destruct (cl_engines cl' !! k), (cl_engines cl !! k); try done.
  - by destruct Hk as [[? ?] _].
  - by destruct Hk as [_ [? ?]].
Qed.

Lemma cleanup_nodup : NoDup (cleanup_order enterprise).
Proof. destruct enterprise; apply (bool_decide_unpack _); vm_compute; done. Qed.

Lemma u64_add a b : u64 (u64 a + b) = u64 (a + b).
Proof. unfold u64. apply Zplus_mod_idemp_l. Qed.

Lemma get_engine_ok base cl type : lib_inv base cl -> supported type ->
  exists e cl', get_engine cl type = Some (e, cl') /\ lib_inv base cl' /\ engine_type e = type /\ is_Some (cl_engines cl' !! type).
Proof.
  intros [Hb He Hm] Hs. unfold Compressor.get_engine. pose proof (supported_range type Hs) as Hr.
  destruct (type <? CT_NUMBER_OF_ELEMENTS) eqn:E; zbool; [|lia]. cbn [c3_assert mbind option_bind].
  destruct (cl_engines cl !! type) as [e|] eqn:Ee.
  { exists e, cl. split; [done|]. split; [done|]. split; [by apply He|]. by rewrite Ee. }
  assert (exists e, instantiate_engine enterprise new_lzss3 new_engine type = Some e /\ engine_type e = type) as (e & -> & Het).
  { unfold instantiate_engine. destruct (type =? CT_LZSS3) eqn:El; zbool; [subst; by eexists|].
    destruct Hs as [Hs|Hs]; [done|]. rewrite Hs. eexists. split; [done|]. by apply new_engine_type. }
  cbn [mbind option_bind]. unfold alloc. destruct (sizeof_engine type =? 0) eqn:Ez; zbool; [specialize (sizeof_pos type); lia|].
  cbn [negb c3_assert mbind option_bind]. eexists _, _. split; [done|]. split; [constructor; cbn|cbn; rewrite lookup_insert; by destruct (decide _)].
  - done.
  - intros k e'. destruct (decide (type = k)) as [->|Hne]; [rewrite lookup_insert; destruct (decide _); [|done]; by intros [= <-]|].
    rewrite lookup_insert_ne by done. apply He.
  - rewrite Hm, u64_add. f_equal. unfold footprint. cbn [cl_buff_size]. rewrite engine_blocks_insert by (done || apply cleanup_nodup).
    rewrite bool_decide_eq_true_2 by (by apply supported_cleanup). lia.
Qed.

Lemma zlen_regrown b n : zlen b <= n -> zlen (regrown junk b n) = n.
Proof.
  intros Hn. pose proof (zlen_nonneg b). unfold regrown, zlen, fresh in *. rewrite length_take, length_app, length_drop, length_fmap, length_seq. lia.
Qed.

Lemma grow_buffer_ok base cl size : lib_inv base cl -> 0 < size ->
  exists cl' b, grow_buffer junk cl size = Some cl' /\ lib_inv base cl' /\ cl_engines cl' = cl_engines cl /\ cl_buffer cl' = Some b /\ size <= zlen b.
Proof.
  intros Hinv Hn. pose proof Hinv as [Hb He Hm]. unfold grow_buffer. destruct (cl_buff_size cl <? size) eqn:E; zbool.
  - assert (forall (b : bytes) (m : Memory), m = fetch_add (cl_memory cl) (size - cl_buff_size cl) -> zlen b = size -> lib_inv base (with_buffer cl b size m)) as Hok.
    { intros b m -> Hz. constructor; cbn; [done|done|]. rewrite Hm, u64_add. f_equal. unfold footprint. cbn [cl_buff_size with_buffer].
      rewrite (engine_blocks_ext cl (with_buffer _ _ _ _)) by done. lia. }
    destruct (cl_buffer cl) as [b|] eqn:Eb.
    + destruct Hb as [Hz Hp]. unfold realloc. destruct (size =? 0) eqn:E1, (cl_buff_size cl =? 0) eqn:E2, (size =? cl_buff_size cl) eqn:E3; zbool; try lia.
      cbn [negb andb c3_assert mbind option_bind]. destruct (_ <? size) eqn:E4; zbool; [|lia]. cbn [mbind option_bind].
      eexists _, _. split; [done|]. assert (zlen (regrown junk b size) = size) as Hl by (apply zlen_regrown; lia).
      split; [by apply (Hok _)|]. split; [done|]. split; [done|lia].
    + unfold alloc. destruct (size =? 0) eqn:E1; zbool; [lia|]. cbn [negb c3_assert mbind option_bind]. eexists _, _. split; [done|].
      assert (zlen (fresh junk size) = size) as Hl by (apply zlen_fresh; lia). rewrite Hb in *.
      split; [apply (Hok _); [by rewrite Z.sub_0_r|done]|]. split; [done|]. split; [done|lia].
  - destruct (cl_buffer cl) as [b|] eqn:Eb; [|lia]. exists cl, b. split; [done|]. split; [done|]. split; [done|]. split; [done|]. lia.
Qed.

(** Storing the state of an engine and what it has written keeps the library. *)
Lemma with_engine_inv base cl type e : lib_inv base cl -> is_Some (cl_engines cl !! type) -> engine_type e = type -> lib_inv base (with_engine cl type e).
Proof.
  intros [Hb He Hm] Hs Ht. constructor; cbn; [done|..].
  - intros k e'. destruct (decide (type = k)) as [->|Hne].
    + rewrite lookup_insert. destruct (decide _); [|done]. intros [= <-]. destruct Hs as [e1 He1]. split; [done|]. by destruct (He k e1 He1).
    + rewrite lookup_insert_ne by done. apply He.
  - rewrite Hm. f_equal. unfold footprint. cbn [cl_buff_size with_engine]. rewrite (engine_blocks_ext cl (with_engine _ _ _)); [done|]. intros k. cbn [cl_engines with_engine]. rewrite lookup_insert_is_Some.
    destruct (decide (type = k)) as [->|]; tauto.
Qed.

Lemma written_inv base cl b dst b' type e : lib_inv base cl -> cl_buffer cl = Some b -> blit b 0 dst = Some b' ->
  is_Some (cl_engines cl !! type) -> engine_type e = type ->
  lib_inv base (with_engine (with_buffer cl b' (cl_buff_size cl) (cl_memory cl)) type e).
Proof.
  intros [Hb He Hm] Hb2 Hblit Hin Ht. apply with_engine_inv; [|done|done]. rewrite Hb2 in Hb. pose proof (zlen_blit _ _ _ _ Hblit).
  constructor; cbn; [lia|done|exact Hm].
Qed.

(** ** Packing and unpacking *)

(** Bytes that every engine of a type unpacks to [src]. *)
Definition unpacks_to (type : Z) (packed src : bytes) : Prop :=
  forall e : any_engine, engine_type e = type -> exists e', engine_unpack e packed (zlen src) = Some (true, src, e').

Section Operations.
Context {A : Type} `{AllocatorLaws A}.

Lemma lib_pack_ok base cl type src dst_size a level hint :
  lib_inv base cl -> supported type -> bytes_ok src -> 0 < zlen src < 2 ^ 32 -> zlen src < engine_limit (St := any_engine) type ->
  dst_size <= zlen src -> 0 <= level < CL_NUMBER_OF_ELEMENTS -> 0 <= hint < CD_NUMBER_OF_ELEMENTS ->
  (forall n, 0 < n < dst_size -> al_room a n) ->
  exists r n cl' a', lib_pack cl type src dst_size a level hint = Some (r, n, cl', a') /\ lib_inv base cl'
    /\ match r with
       | None => n = dst_size /\ a' = a
       | Some packed => zlen packed = n /\ 0 < n < dst_size /\ al_holds a a' packed /\ unpacks_to type packed src
       end.
Proof.
  intros Hinv Hs Hok Hlen Hlim Hd Hl Hh Hroom. unfold Compressor.lib_pack.
  destruct (_ && _) eqn:E; [clear E|repeat (apply andb_false_iff in E as [E|E]); zbool; lia]. cbn [c3_assert mbind option_bind].
  destruct (get_engine_ok base cl type Hinv Hs) as (e & cl1 & -> & Hinv1 & Het & Hin). cbn [mbind option_bind].
  destruct (0 <? get_compressed_size e (zlen src)) eqn:Eg; zbool; [|eexists None, _, _, _; by split].
  destruct (grow_buffer_ok base cl1 (get_compressed_size e (zlen src)) Hinv1 Eg) as (cl2 & b & -> & Hinv2 & He2 & Hb2 & Hlb).
  cbn [mbind option_bind]. rewrite Hb2. cbn [mbind option_bind].
  destruct (engine_pack_ok e src level hint Hok Hlen) as (size & dst & e' & Hp & Hsz & Hdst & Hu); [by rewrite Het|done|done|exact Eg|].
  rewrite Hp. cbn [mbind option_bind].
  destruct (blit_ok b dst ltac:(lia)) as (rest & Hblit & Hz). rewrite Hblit. cbn [mbind option_bind].
  set (cl3 := with_engine _ _ _). assert (lib_inv base cl3) as Hinv3.
  { eapply written_inv; [done|done|done|by rewrite He2|]. rewrite <- Het. by eapply engine_pack_type. }
  destruct (negb (size =? 0) && (size <? dst_size)) eqn:Efit; [|eexists None, _, _, _; by split].
  apply andb_true_iff in Efit as [E1 E2]. apply negb_true_iff in E1. zbool.
  destruct (al_alloc_ok a size) as (a1 & -> & Hw); [apply Hroom; lia|lia|]. cbn [mbind option_bind].
  rewrite slice_head by lia. cbn [mbind option_bind]. destruct (Hw (take (Z.to_nat size) dst)) as (a2 & -> & Hholds); [apply zlen_take_le; lia|].
  cbn [mbind option_bind]. eexists (Some _), _, _, _. split; [done|]. split; [done|]. split; [apply zlen_take_le; lia|]. split; [lia|]. split; [done|].
  intros e2 He. rewrite <- Het in He. apply Hu; done.
Qed.

Lemma lib_unpack_ok base cl type packed src a :
  lib_inv base cl -> supported type -> unpacks_to type packed src -> 0 < zlen packed < zlen src -> al_room a (zlen src) ->
  exists cl' a', lib_unpack cl type packed (zlen src) a = Some (Some src, cl', a') /\ lib_inv base cl' /\ al_holds a a' src.
Proof.
  intros Hinv Hs Hu Hlen Hroom. unfold Compressor.lib_unpack.
  destruct (_ && _) eqn:E; [clear E|apply andb_false_iff in E as [E|E]; zbool; lia]. cbn [c3_assert mbind option_bind].
  destruct (get_engine_ok base cl type Hinv Hs) as (e & cl1 & -> & Hinv1 & Het & Hin). cbn [mbind option_bind].
  destruct (al_alloc_ok a (zlen src) Hroom) as (a1 & -> & Hw); [lia|]. cbn [mbind option_bind].
  destruct (Hu e Het) as (e' & Hu'). rewrite Hu'. cbn [mbind option_bind negb].
  destruct (Hw src eq_refl) as (a2 & -> & Hholds). cbn [mbind option_bind]. eexists _, _. split; [done|]. split; [|done].
  apply with_engine_inv; [done|done|]. rewrite <- Het. by eapply engine_unpack_type.
Qed.

End Operations.

(** ** Calls, then cleanup *)

Lemma zero_blocks cl types : (forall k, cl_engines cl !! k = None) -> engine_blocks cl types = 0.
Proof.
  intros Hk. induction types as [|k types IH]; [done|]. unfold engine_blocks in *. cbn [foldr]. rewrite IH. unfold engine_block. by rewrite Hk.
Qed.

Lemma engine_blocks_nonneg cl types : 0 <= engine_blocks cl types.
Proof.
  induction types as [|k types IH]; [done|]. unfold engine_blocks in *. cbn [foldr]. unfold engine_block at 1.
  destruct (cl_engines cl !! k); [specialize (sizeof_pos k)|]; lia.
Qed.

Lemma engine_blocks_delete cl k types m : k ∉ types ->
  engine_blocks (mkLibrary (delete k (cl_engines cl)) (cl_buffer cl) (cl_buff_size cl) m) types = engine_blocks cl types.
Proof.
  induction types as [|x types IH]; [done|]. intros [Hne Hx]%not_elem_of_cons. unfold engine_blocks in *. cbn [foldr]. rewrite IH by done.
  f_equal. unfold engine_block. cbn [cl_engines]. by rewrite lookup_delete_ne.
Qed.

Lemma delete_engines_ok types cl base : NoDup types -> (forall k, is_Some (cl_engines cl !! k) -> k ∈ types) ->
  m_used_size (cl_memory cl) = base + engine_blocks cl types -> 0 <= base -> base + engine_blocks cl types < 2 ^ 64 ->
  exists cl', foldl (fun cl type => cl ← cl; delete_engine sizeof_engine cl type) (Some cl) types = Some cl'
    /\ cl_engines cl' = ∅ /\ cl_buffer cl' = cl_buffer cl /\ cl_buff_size cl' = cl_buff_size cl /\ m_used_size (cl_memory cl') = base.
Proof.
  intros Hd. revert cl. induction Hd as [|k types Hk Hd IH]; intros cl Hin Hm Hb Hmax; cbn [foldl].
  { exists cl. split; [done|]. split; [|rewrite Hm; cbn; split_and!; done || lia]. apply map_eq. intros k. rewrite lookup_empty.
    destruct (cl_engines cl !! k) eqn:E; [|done]. exfalso. apply (not_elem_of_nil k), Hin. by rewrite E. }
  cbn [mbind option_bind]. unfold delete_engine at 2. pose proof (engine_blocks_nonneg cl types) as Hnn.
  unfold engine_blocks in Hm, Hmax. cbn [foldr] in Hm, Hmax. fold (engine_blocks cl types) in Hm, Hmax. unfold engine_block in Hm, Hmax.
  destruct (cl_engines cl !! k) as [e|] eqn:E.
  - specialize (sizeof_pos k) as Hpos. rewrite free_ok by lia. cbn [mbind option_bind].
    pose proof (engine_blocks_delete cl k types (fetch_sub (cl_memory cl) (sizeof_engine k)) Hk) as Hdel.
    destruct (IH (mkLibrary (delete k (cl_engines cl)) (cl_buffer cl) (cl_buff_size cl) (fetch_sub (cl_memory cl) (sizeof_engine k))))
      as (cl' & H1 & H2 & H3 & H4 & H5).
    + cbn. intros x [y Hx]. apply lookup_delete_Some in Hx as [Hne Hx]. specialize (Hin x ltac:(by eexists)).
      apply elem_of_cons in Hin as [->|Hin]; done.
    + rewrite Hdel. cbn [cl_memory]. rewrite fetch_sub_used by lia. lia.
    + done.
    + rewrite Hdel. lia.
    + by exists cl'.
  - apply IH; [|lia|done|lia]. intros x Hx. destruct (proj1 (elem_of_cons _ _ _) (Hin x Hx)) as [->|Hin']; [|done]. rewrite E in Hx. by destruct Hx.
Qed.

Lemma lib_cleanup_ok base cl : lib_inv base cl -> 0 <= base -> base + footprint cl < 2 ^ 64 ->
  exists cl', lib_cleanup enterprise sizeof_engine cl = Some cl' /\ cl_engines cl' = ∅ /\ cl_buffer cl' = None /\ cl_buff_size cl' = 0
    /\ m_used_size (cl_memory cl') = base.
Proof.
  intros [Hb He Hm] Hbase Hmax. unfold lib_cleanup. pose proof (engine_blocks_nonneg cl (cleanup_order enterprise)) as Hnn. unfold footprint in *.
  assert (forall k, is_Some (cl_engines cl !! k) -> k ∈ cleanup_order enterprise) as Hin.
  { intros k [e Hk]. apply supported_cleanup. by destruct (He k e Hk). }
  destruct (cl_buffer cl) as [b|] eqn:Eb.
  - destruct Hb as [Hz Hp]. destruct (cl_buff_size cl =? 0) eqn:E; zbool; [lia|]. cbn [negb c3_assert mbind option_bind].
    rewrite u64_small in Hm by (unfold is_u64; lia). rewrite free_ok by lia. cbn [mbind option_bind].
    destruct (delete_engines_ok (cleanup_order enterprise) (mkLibrary (cl_engines cl) None 0 (fetch_sub (cl_memory cl) (cl_buff_size cl))) base
      cleanup_nodup) as (cl' & -> & H1 & H2 & H3 & H4); [done| |done| |by exists cl'].
    + cbn [cl_memory]. rewrite fetch_sub_used by lia. rewrite (engine_blocks_ext cl (mkLibrary _ _ _ _)) by done. lia.
    + rewrite (engine_blocks_ext cl (mkLibrary _ _ _ _)) by done. lia.
  - rewrite Hb in *. cbn [Z.eqb c3_assert mbind option_bind]. rewrite u64_small in Hm by (unfold is_u64; lia).
    destruct (delete_engines_ok (cleanup_order enterprise) cl base cleanup_nodup) as (cl' & -> & H1 & H2 & H3 & H4); [done|lia|done|lia|].
    exists cl'. by rewrite H2, H3.
Qed.

(** ** Properties *)

(** (C26) Whatever engines, buffer and memory the library of the calling thread has, packing a
    text with a supported compressor either leaves it and the allocator as they were, or
    gives a shorter text in a buffer of exactly its size; the library of any other thread,
    in whatever state, unpacks that to the original through any allocator with room for
    it. Libraries keep their invariant. *)
Theorem compressor_round_trip {A : Type} `{AllocatorLaws A} {B : Type} `{AllocatorLaws B}
    base (cl : library) type src dst_size (a : A) level hint base2 (cl2 : library) (b : B) :
  lib_inv base cl -> lib_inv base2 cl2 -> supported type -> bytes_ok src -> 0 < zlen src < 2 ^ 32 ->
  zlen src < engine_limit (St := any_engine) type -> dst_size <= zlen src ->
  0 <= level < CL_NUMBER_OF_ELEMENTS -> 0 <= hint < CD_NUMBER_OF_ELEMENTS ->
  (forall n, 0 < n < dst_size -> al_room a n) -> al_room b (zlen src) ->
  exists r n cl' a', lib_pack cl type src dst_size a level hint = Some (r, n, cl', a') /\ lib_inv base cl'
    /\ match r with
       | None => n = dst_size /\ a' = a
       | Some packed => zlen packed = n /\ 0 < n < dst_size /\ al_holds a a' packed
           /\ exists cl2' b', lib_unpack cl2 type packed (zlen src) b = Some (Some src, cl2', b')
                /\ lib_inv base2 cl2' /\ al_holds b b' src
       end.
Proof.
  intros Hinv Hinv2 Hs Hok Hlen Hlim Hd Hl Hh Hroom Hroom2.
  destruct (lib_pack_ok base cl type src dst_size a level hint) as (r & n & cl' & a' & Hp & Hinv' & Hr); try done.
  exists r, n, cl', a'. split; [done|]. split; [done|]. destruct r as [packed|]; [|done]. destruct Hr as (Hz & Hn & Hh' & Hu).
  split; [done|]. split; [done|]. split; [done|]. apply lib_unpack_ok; try done. lia.
Qed.

(** A call to the library by its thread. *)
Inductive lib_call : library -> library -> Prop :=
| call_pack {A : Type} `{Allocator A} cl type src dst_size (a a' : A) level hint r n cl' :
    lib_pack cl type src dst_size a level hint = Some (r, n, cl', a') -> lib_call cl cl'
| call_unpack {A : Type} `{Allocator A} cl type src dst_size (a a' : A) r cl' :
    lib_unpack cl type src dst_size a = Some (r, cl', a') -> lib_call cl cl'.

Lemma get_engine_inv base cl type e cl' : lib_inv base cl -> get_engine cl type = Some (e, cl') ->
  lib_inv base cl' /\ engine_type e = type /\ is_Some (cl_engines cl' !! type).
Proof.
  intros Hinv Hg. assert (supported type) as Hs.
  { unfold Compressor.get_engine in Hg. inv_opt. destruct (cl_engines cl !! type) as [e0|] eqn:E; [by destruct (li_engines _ _ Hinv _ _ E)|].
    inv_opt. unfold instantiate_engine in *. destruct (type =? CT_LZSS3) eqn:El; zbool; [by left|].
    destruct (third_party enterprise type) eqn:Et; [by right|done]. }
  destruct (get_engine_ok base cl type Hinv Hs) as (e1 & cl1 & Hg1 & H1 & H2 & H3). rewrite Hg in Hg1. by simplify_eq.
Qed.

Lemma lib_call_inv base cl cl' : lib_inv base cl -> lib_call cl cl' -> lib_inv base cl'.
Proof.
  intros Hinv Hc. destruct Hc as [A HA cl type src dst_size a a' level hint r n cl' Hc|A HA cl type src dst_size a a' r cl' Hc].
  - unfold Compressor.lib_pack in Hc. inv_opt. destruct x0 as [e cl1].
    destruct (get_engine_inv _ _ _ _ _ Hinv Hx0) as (Hinv1 & Het & Hin). destruct (0 <? get_compressed_size e (zlen src)) eqn:Eg; zbool; [|by inv_opt].
    destruct (grow_buffer_ok base cl1 _ Hinv1 Eg) as (cl2 & b & Hg & Hinv2 & He2 & Hb2 & _). rewrite Hg in Hc. cbn [mbind option_bind] in Hc.
    rewrite Hb2 in Hc. cbn [mbind option_bind] in Hc. inv_opt. destruct x0 as [[size dst] e']. apply bind_Some in Hc as (b' & Hblit & Hc).
    assert (cl' = with_engine (with_buffer cl2 b' (cl_buff_size cl2) (cl_memory cl2)) type e') as -> by (destruct (_ && _); by inv_opt).
    eapply written_inv; [done|done|done|by rewrite He2|]. rewrite <- Het. by eapply engine_pack_type.
  - unfold Compressor.lib_unpack in Hc. inv_opt. destruct x0 as [e cl1].
    destruct (get_engine_inv _ _ _ _ _ Hinv Hx0) as (Hinv1 & Het & Hin). inv_opt. destruct x1 as [[ok dst] e'].
    assert (cl' = with_engine cl1 type e') as -> by (destruct (negb ok); by inv_opt).
    apply with_engine_inv; [done|done|]. rewrite <- Het. by eapply engine_unpack_type.
Qed.

(** (C27) A thread that initializes its library, makes any number of calls and cleans up
    gives back all the memory the library has taken, whatever the calls returned. *)
Theorem compressor_cleanup m (cl : library) :
  is_u64 (m_used_size m) -> rtc lib_call (lib_initialize m) cl -> m_used_size m + footprint cl < 2 ^ 64 ->
  exists cl', lib_cleanup enterprise sizeof_engine cl = Some cl' /\ cl_engines cl' = ∅ /\ cl_buffer cl' = None /\ cl_buff_size cl' = 0
    /\ m_used_size (cl_memory cl') = m_used_size m.
Proof.
  intros Hm Hcalls Hmax. apply lib_cleanup_ok; [|unfold is_u64 in Hm; lia|done].
  assert (forall cl0, rtc lib_call cl0 cl -> lib_inv (m_used_size m) cl0 -> lib_inv (m_used_size m) cl) as Hrun.
  { intros cl0. induction 1 as [|x y z Hc _ IH]; [done|]. intros Hx. apply IH; [done|done|]. by eapply lib_call_inv. }
  eapply Hrun; [exact Hcalls|]. by apply lib_initialize_inv.
Qed.

End LibraryOk.

(** ** A third-party engine for examples: runs of one byte *)

Module Runs.

Definition runs := Z.

#[export] Instance runs_ops : CompressorEngine runs := {
  engine_type e := if e =? CT_LZSS3 then CT_NONE else e;
  get_compressed_size _ n := n;
  engine_pack e src n _ _ :=
    match src with
    | x :: rest => Some (if forallb (Z.eqb x) rest then (1, [x], e) else (0, [], e))
    | [] => Some (0, [], e)
    end;
  engine_unpack e src n :=
    match src with
    | [x] => Some (true, replicate (Z.to_nat n) x, e)
    | _ => Some (false, [], e)
    end;
}.

Lemma runs_same x rest : forallb (Z.eqb x) rest = true -> rest = replicate (length rest) x.
Proof. induction rest as [|y rest IH]; [done|]. cbn. intros [E1 E2]%andb_true_iff. zbool. subst y. by rewrite <- IH. Qed.

#[export] Instance runs_laws : EngineLaws runs.
Proof.
  refine {| engine_limit := fun _ => 2 ^ 32 |}.
  - intros e n Hn. cbn. lia.
  - intros e src level hint Hok Hlen _ _ _ _. destruct src as [|x rest]; [unfold zlen in Hlen; cbn in Hlen; lia|]. cbn [engine_pack runs_ops].
    destruct (forallb (Z.eqb x) rest) eqn:E.
    + exists 1, [x], e. split; [done|]. split; [done|]. split; [change (1 <= zlen (x :: rest)); lia|].
      intros _ e2 _. exists e2. cbn [Z.to_nat Pos.to_nat Pos.iter_op firstn engine_unpack runs_ops]. change (take (Z.to_nat 1) [x]) with [x]. cbn [engine_unpack runs_ops].
      rewrite zlen_to_nat. cbn [length replicate]. by rewrite <- (runs_same x rest).
    + exists 0, [], e. split; [done|]. split; [done|]. split; [change (0 <= zlen (x :: rest)); lia|done].
  - intros e [|x rest] n level hint size dst e'; cbn [engine_pack runs_ops]; [intros; by simplify_eq|]. destruct (forallb _ _); intros; by simplify_eq.
  - intros e [|x [|y rest]] n ok dst e'; cbn [engine_unpack runs_ops]; intros; by simplify_eq.
Defined.

Lemma runs_not_lzss3 (e : runs) : engine_type e <> CT_LZSS3.
Proof. cbn. destruct (e =? CT_LZSS3) eqn:E; zbool; done. Qed.

Lemma runs_new k : third_party false k = true -> engine_type (k : runs) = k.
Proof.
  intros Hk. cbn. destruct (k =? CT_LZSS3) eqn:E; zbool; [subst; by vm_compute in Hk|done].
Qed.

Definition no_memory (_ : Z) : option Z := None.
Definition zeros (_ : nat) : Z := 0.
Definition blank : engine := mkEngine (fun _ => 0) 0 0 (fun _ => 0) (fun _ => 0) (fun _ => 0).
Definition new_runs (k : Z) : runs := k.
Definition sizeof (_ : Z) : Z := 64.
Definition memory : Memory := mkMemory 0 1000 DOMAIN_GLOBAL.

(** Two threads whose libraries have just been initialized. *)
Definition start : @CompressorLibrary runs := lib_initialize memory.

Lemma start_inv : lib_inv no_memory false sizeof 1000 start.
Proof. apply (lib_initialize_inv no_memory false sizeof memory). done. Qed.

Definition text : bytes := [1; 2; 3; 4; 1; 2; 3; 4; 1; 2; 3; 4; 9; 1; 2; 3; 4; 1; 2; 3].

Lemma text_ok : bytes_ok text.
Proof. repeat constructor; discriminate. Qed.

Lemma memory_room n : 0 < n < 2 ^ 32 -> al_room memory n.
Proof. intros Hn. cbn. unfold mem_room. cbn. lia. Qed.

End Runs.

#[export] Existing Instances Runs.runs_ops Runs.runs_laws.

(** LZSS3 and the default allocator in one thread and another. *)
Lemma compressor_round_trip_witness : exists r n cl' m', 
  lib_pack Runs.no_memory Runs.zeros false Runs.blank Runs.new_runs Runs.sizeof Runs.start CT_LZSS3 Runs.text 20 Runs.memory 0 1 = Some (r, n, cl', m')
    /\ match r with
       | None => n = 20 /\ m' = Runs.memory
       | Some packed => zlen packed = n /\ 0 < n < 20 /\ exists cl2' m2,
           lib_unpack Runs.no_memory false Runs.blank Runs.new_runs Runs.sizeof Runs.start CT_LZSS3 packed 20 Runs.memory = Some (Some Runs.text, cl2', m2)
       end.
Proof.
  destruct (compressor_round_trip Runs.no_memory Runs.zeros false Runs.blank Runs.new_runs Runs.sizeof Runs.runs_not_lzss3 Runs.runs_new
    ltac:(intros k; exact (eq_refl : 0 < Runs.sizeof k)) 1000 Runs.start CT_LZSS3 Runs.text 20 Runs.memory 0 1 1000 Runs.start Runs.memory Runs.start_inv Runs.start_inv
    (or_introl eq_refl) Runs.text_ok ltac:(change (zlen Runs.text) with 20; lia) ltac:(reflexivity) ltac:(reflexivity)
    ltac:(unfold CL_NUMBER_OF_ELEMENTS; lia) ltac:(unfold CD_NUMBER_OF_ELEMENTS; lia)
    ltac:(intros n Hn; apply Runs.memory_room; lia) ltac:(apply Runs.memory_room; change (zlen Runs.text) with 20; lia))
    as (r & n & cl' & m' & Hp & _ & Hr).
  exists r, n, cl', m'. split; [exact Hp|]. destruct r as [packed|]; [|exact Hr]. destruct Hr as (H1 & H2 & _ & cl2 & m2 & H3 & _).
  split; [exact H1|]. split; [exact H2|]. exists cl2, m2. exact H3.
Defined.

(** The library after a run of eight bytes has been packed, with an engine and a buffer. *)
Definition used_library : @CompressorLibrary Runs.runs :=
  match lib_pack Runs.no_memory Runs.zeros false Runs.blank Runs.new_runs Runs.sizeof Runs.start CT_SNAPPY (replicate 8 7) 8 Runs.memory 0 1 with
  | Some (_, _, cl, _) => cl
  | None => Runs.start
  end.

Lemma used_library_packed :
  lib_pack Runs.no_memory Runs.zeros false Runs.blank Runs.new_runs Runs.sizeof Runs.start CT_SNAPPY (replicate 8 7) 8 Runs.memory 0 1
  = Some (Some [7], 1, used_library, mkMemory 0 1001 DOMAIN_GLOBAL).
Proof. vm_compute. reflexivity. Qed.

Lemma compressor_cleanup_witness :
  rtc (lib_call Runs.no_memory Runs.zeros false Runs.blank Runs.new_runs Runs.sizeof) Runs.start used_library
  /\ exists cl', lib_cleanup false Runs.sizeof used_library = Some cl' /\ m_used_size (cl_memory cl') = 1000.
Proof.
  assert (rtc (lib_call Runs.no_memory Runs.zeros false Runs.blank Runs.new_runs Runs.sizeof) Runs.start used_library) as Hrun.
  { apply rtc_once. eapply call_pack. exact used_library_packed. }
  split; [exact Hrun|].
  destruct (compressor_cleanup Runs.no_memory Runs.zeros false Runs.blank Runs.new_runs Runs.sizeof Runs.runs_not_lzss3 Runs.runs_new
    ltac:(intros k; exact (eq_refl : 0 < Runs.sizeof k)) Runs.memory used_library) as (cl' & Hc & _ & _ & _ & Hm).
  - unfold is_u64. cbn. lia.
  - exact Hrun.
  - vm_compute. reflexivity.
  - exists cl'. split; [exact Hc|exact Hm].
Defined.
