(* ===== verification/PayloadIO.v ===== *)
(** * PayloadIO

    Payloads through the compressor library: [PayloadChunkBuilder::add]
    ([io_chunk_builders.cc]) puts a payload into a container, compressed if that makes it
    shorter; the constructor of [PayloadChunkIterator] ([io_chunk_iterators.cc]) makes it
    readable again. *)

From S2P Require Import Prelude Protocol Memory Buffers ChunkBuilder HeaderBuild ChunkIterator Accessors EndToEnd Lzss3 Compressor CompressorOk.

Section Payload.
Context {St : Type} `{CompressorEngine St} (around : Z -> option Z) (junk : nat -> Z) (enterprise : bool).
Context (new_lzss3 : engine) (new_engine : Z -> St) (sizeof_engine : Z -> Z).

(** [PayloadChunkBuilder(container, net_config)] *)
Definition pcb_new (nc : NetworkConfiguration) (domain : domain_t) : option PayloadChunkBuilder :=
  c ← get_compressor nc domain;
  Some (mkPayloadChunkBuilder 0 (nc_compression_threshold nc) c).

(** [add(buffer, usize, hint)] *)
Definition pcb_add (cl : @CompressorLibrary St) (sb : SharedBuffers) (p : PayloadChunkBuilder) (buffer : bytes) (hint : Z)
  : option (@CompressorLibrary St * SharedBuffers * PayloadChunkBuilder) :=
  _ ← c3_assert (get_payload_size sb =? 0);
  let usize := zlen buffer in
  if 0 <? usize then
    '(result, size, cl, sb) ←
      (if pcb_comp_threshold p <=? usize then
         @lib_pack St _ around junk enterprise new_lzss3 new_engine sizeof_engine _ (PayloadAllocator junk)
           cl (pcb_compressor p) buffer usize sb CL_FASTEST hint
       else Some (None, usize, cl, sb));
    match result with
    | Some _ =>
        _ ← c3_assert (negb (size =? 0) && (size <? usize) && (size =? get_payload_size sb));
        Some (cl, sb, mkPayloadChunkBuilder usize (pcb_comp_threshold p) (pcb_compressor p))
    | None =>
        sb ← set_payload_size junk sb usize;
        sb ← payload_store sb 0 buffer;
        Some (cl, sb, mkPayloadChunkBuilder usize (pcb_comp_threshold p) CT_NONE)
    end
  else Some (cl, sb, mkPayloadChunkBuilder 0 (pcb_comp_threshold p) CT_NONE).

(** [PayloadChunkIterator(rw)], given the result of [rw.get_payload_info]. *)
Definition pci_new (cl : @CompressorLibrary St) (sb : SharedBuffers) (info : bool * payload_info_t)
  : option (@CompressorLibrary St * PayloadChunkIterator * ChunkIterator) :=
  let '(ok, pi) := info in
  match (if ok then pi_buffer pi else None) with
  | None => Some (cl, mkPayloadChunkIterator sb None 0, mkChunkIterator 0 0)
  | Some p =>
      _ ← c3_assert (negb (pi_has_errors pi));
      if negb (pi_compressor pi =? CT_NONE) then
        src ← payload_load sb p (pi_size pi);
        '(buffer, cl, m) ← lib_unpack around enterprise new_lzss3 new_engine sizeof_engine cl (pi_compressor pi) src (pi_usize pi) (sb_memory sb);
        b ← buffer;
        Some (cl, mkPayloadChunkIterator (with_memory sb m) (Some b) (pi_usize pi), mkChunkIterator 0 (pi_usize pi))
      else Some (cl, mkPayloadChunkIterator sb None 0, mkChunkIterator 0 (pi_size pi))
  end.

(** [~PayloadChunkIterator()] *)
Definition pci_destroy (it : PayloadChunkIterator) : option SharedBuffers :=
  match pci_buffer it with
  | Some _ =>
      _ ← c3_assert (negb (pci_usize it =? 0));
      m ← free (sb_memory (pci_sb it)) (pci_usize it);
      Some (with_memory (pci_sb it) m)
  | None => Some (pci_sb it)
  end.

End Payload.

Section PayloadOk.
Context {St : Type} `{EngineLaws St} (around : Z -> option Z) (junk : nat -> Z) (enterprise : bool).
Context (new_lzss3 : engine) (new_engine : Z -> St) (sizeof_engine : Z -> Z).
Context (third_party_type : forall e : St, engine_type e <> CT_LZSS3).
Context (new_engine_type : forall k, third_party enterprise k = true -> engine_type (new_engine k) = k).
Context (sizeof_pos : forall k, 0 < sizeof_engine k).

Abbreviation lib_inv := (lib_inv around enterprise sizeof_engine).
Abbreviation text_limit := (@engine_limit _ _ (any_engine_laws around third_party_type)).

(** How a container holds the payload that a builder describes: as it is, or packed. *)
Definition stored_as (p : PayloadChunkBuilder) (stored data : bytes) : Prop :=
  pcb_usize p = zlen data
  /\ (pcb_compressor p = CT_NONE /\ stored = data
      \/ supported enterprise (pcb_compressor p) /\ 0 < zlen stored < zlen data /\ unpacks_to around (pcb_compressor p) stored data).

Definition with_stored (sb : SharedBuffers) (stored : bytes) : SharedBuffers :=
  with_payload (with_memory sb (fetch_add (sb_memory sb) (zlen stored))) (mkDataBuffer (Some stored) (zlen stored)).

Lemma store_plain sb data : sb_payload sb = empty_db -> mem_room (sb_memory sb) (zlen data) -> 0 < zlen data ->
  (sb ← set_payload_size junk sb (zlen data); payload_store sb 0 data) = Some (with_stored sb data).
Proof.
  intros He Hr Hn. unfold set_payload_size, db_set_size. rewrite He. change (db_validate empty_db) with (Some tt). cbn [db_buffer empty_db db_size].
  destruct (zlen data =? 0) eqn:E; zbool; [lia|]. cbn [negb c3_assert mbind option_bind].
  rewrite alloc_ok by (done || lia). cbn [mbind option_bind]. unfold payload_store. cbn [sb_payload with_payload db_bytes db_buffer default].
  unfold id. rewrite blit_all by (rewrite zlen_fresh; lia). done.
Qed.

Lemma pcb_add_ok base cl sb p data hint :
  lib_inv base cl -> supported enterprise (pcb_compressor p) -> bytes_ok data -> 0 < zlen data < 2 ^ 32 -> zlen data < text_limit (pcb_compressor p) ->
  sb_payload sb = empty_db -> mem_room (sb_memory sb) (zlen data) -> 0 <= hint < CD_NUMBER_OF_ELEMENTS ->
  exists cl' p' stored, pcb_add around junk enterprise new_lzss3 new_engine sizeof_engine cl sb p data hint = Some (cl', with_stored sb stored, p')
    /\ lib_inv base cl' /\ stored_as p' stored data.
Proof.
  intros Hinv Hs Hok Hlen Hlim He Hroom Hhint. unfold pcb_add, get_payload_size. rewrite He. cbn [db_size empty_db Z.eqb c3_assert mbind option_bind].
  destruct (0 <? zlen data) eqn:E; zbool; [|lia]. pose proof (store_plain sb data He Hroom ltac:(lia)) as Hplain.
  destruct (pcb_comp_threshold p <=? zlen data) eqn:Et.
  - destruct (@lib_pack_ok St _ _ around junk enterprise new_lzss3 new_engine sizeof_engine third_party_type new_engine_type sizeof_pos
      _ _ (PayloadAllocator_laws junk) base cl (pcb_compressor p) data (zlen data) sb CL_FASTEST hint)
      as (r & n & cl' & sb' & -> & Hinv' & Hr); try done.
    { intros n Hn. split; [|done]. destruct Hroom as (? & ? & ?). split_and!; lia. }
    cbn [mbind option_bind]. destruct r as [packed|].
    + destruct Hr as (Hz & Hn & Hholds & Hu). cbn in Hholds. subst sb'. cbn [sb_payload with_payload db_size].
      destruct (_ && _) eqn:Ea; [|repeat (apply andb_false_iff in Ea as [Ea|Ea]); try apply negb_false_iff in Ea; zbool; lia].
      cbn [c3_assert mbind option_bind]. eexists _, _, packed. split; [done|]. split; [done|]. split; [done|]. right.
      cbn [pcb_compressor]. split; [done|]. split; [lia|done].
    + destruct Hr as [_ ->]. destruct (set_payload_size junk sb (zlen data)) as [sb1|]; [|done]. cbn [mbind option_bind] in Hplain |- *.
      rewrite Hplain. cbn [mbind option_bind]. eexists _, _, data. split; [done|]. split; [done|]. split; [done|]. by left.
  - cbn [mbind option_bind]. destruct (set_payload_size junk sb (zlen data)) as [sb1|]; [|done]. cbn [mbind option_bind] in Hplain |- *.
    rewrite Hplain. cbn [mbind option_bind]. eexists _, _, data. split; [done|]. split; [done|]. split; [done|]. by left.
Qed.

(** What the builder says is what the header builder needs to know. *)
Lemma stored_described p stored data : zlen data < 2 ^ 32 -> stored_as p stored data -> payload_described (Some p) (zlen stored).
Proof.
  intros Hlen [Hu Hs]. pose proof (zlen_nonneg stored). pose proof (zlen_nonneg data). unfold payload_described, payload_ok. rewrite Hu.
  destruct Hs as [[-> ->]|(Hsup & Hz & _)].
  - cbn [Z.eqb CT_NONE]. split; [|split; [unfold is_u8, CT_NONE; lia|by left]]. split; [unfold is_u32; lia|]. done.
  - assert (0 < pcb_compressor p < CT_NUMBER_OF_ELEMENTS) as Hc.
    { split; [|by eapply supported_range]. destruct Hsup as [->|Hsup]; [done|]. unfold third_party in Hsup.
      apply orb_true_iff in Hsup as [Hs|Hs]; [apply bool_decide_eq_true in Hs|apply andb_true_iff in Hs as [_ Hs]; zbool; by rewrite Hs].
      repeat (apply elem_of_cons in Hs as [->|Hs]; [done|]). by apply not_elem_of_nil in Hs. }
    unfold CT_NUMBER_OF_ELEMENTS in Hc. destruct (pcb_compressor p =? CT_NONE) eqn:E; zbool; [unfold CT_NONE in E; lia|].
    split; [split; [unfold is_u32; lia|lia]|]. split; [unfold is_u8; lia|]. right. unfold CT_NUMBER_OF_ELEMENTS. lia.
Qed.

Lemma pci_new_ok base cl sb p stored data :
  lib_inv base cl -> 0 < zlen data < 2 ^ 32 -> stored_as p stored data ->
  sb_payload sb = mkDataBuffer (Some stored) (zlen stored) -> mem_room (sb_memory sb) (zlen data) ->
  exists cl' it, pci_new around enterprise new_lzss3 new_engine sizeof_engine cl sb
      (true, mkPayloadInfo (Some 0) (zlen stored) (pcb_usize p) (pcb_compressor p) false) = Some (cl', it, mkChunkIterator 0 (zlen data))
    /\ lib_inv base cl' /\ pci_ok it /\ pci_view it = data /\ pci_destroy it = Some sb.
Proof.
  intros Hinv Hlen [Hu Hs] Hpl Hroom. unfold pci_new. cbn [pi_buffer pi_has_errors negb c3_assert mbind option_bind pi_compressor pi_size pi_usize].
  rewrite Hu. destruct Hs as [[-> ->]|(Hsup & Hz & Hun)].
  - cbn [CT_NONE Z.eqb negb]. eexists _, _. split; [done|]. split; [done|]. unfold pci_ok, pci_view, get_payload_size, pci_destroy. cbn [pci_buffer pci_sb].
    rewrite Hpl. cbn [db_bytes db_buffer default db_size]. split; [|done]. split; [|lia]. unfold db_ok. cbn. unfold is_u32. lia.
  - destruct (pcb_compressor p =? CT_NONE) eqn:E; zbool; cbn [negb].
    { exfalso. rewrite E in Hsup. destruct Hsup as [Hsup|Hsup]; [done|]. unfold third_party in Hsup. destruct enterprise; done. }
    unfold payload_load. rewrite Hpl. cbn [db_bytes db_buffer default]. unfold id.
    replace (slice stored 0 (zlen stored)) with (Some stored).
    2:{ rewrite <- (app_nil_r stored) at 2. rewrite slice_head by (pose proof (zlen_nonneg stored); lia). by rewrite zlen_to_nat, firstn_all. }
    cbn [mbind option_bind].
    destruct (@lib_unpack_ok St _ _ around enterprise new_lzss3 new_engine sizeof_engine third_party_type new_engine_type sizeof_pos
      Memory _ _ base cl (pcb_compressor p) stored data (sb_memory sb)) as (cl' & m & Hunp & Hinv' & Hm); try done.
    rewrite Hunp. cbn [mbind option_bind]. cbn in Hm. subst m. eexists _, _. split; [done|]. split; [done|].
    unfold pci_ok, pci_view, pci_destroy. cbn [pci_buffer pci_sb pci_usize]. split; [lia|]. split; [done|].
    destruct (zlen data =? 0) eqn:E0; zbool; [lia|]. cbn [negb c3_assert mbind option_bind sb_memory with_memory].
    rewrite free_ok by (rewrite fetch_add_used by done; destruct Hroom as (? & ? & ?); lia). cbn [mbind option_bind].
    rewrite fetch_sub_add by done. by destruct sb.
Qed.

End PayloadOk.
