(* ===== verification/CompressedEndToEnd.v ===== *)
(** * CompressedEndToEnd

    Data put into a command by a client, compressed or not, and read by the handler of
    the command from the message it has received. *)

From S2P Require Import Prelude Protocol Memory Buffers ChunkBuilder HeaderBuild ChunkIterator RoundTrip Devices Accessors MessageIO CommandIO EndToEnd Lzss3 Compressor CompressorOk PayloadIO.

(** ** The header of a command with a payload *)

Lemma header_overhead b payload chunks : zlen (header_layout b payload chunks) <= 23 + zlen chunks.
Proof.
  rewrite layout_split. unfold before_payload. rewrite zlen_app, zlen_app, zlen_cons, !zlen_app.
  assert (forall n z, zlen (le_bytes (Z.to_nat (estimate_size_bytes n)) z) <= 4) as Hsz.
  { intros n z. rewrite zlen_le_bytes. unfold estimate_size_bytes. repeat case_match; lia. }
  assert (zlen (if sized payload (zlen chunks) then le_bytes (Z.to_nat (estimate_size_bytes (zlen (fixed_layout b payload) + zlen chunks)))
    (zlen (fixed_layout b payload) + zlen chunks) else []) <= 4) by (destruct (sized _ _); [apply Hsz|done]).
  assert (zlen (command_layout b) <= 1) by (unfold command_layout; by case_decide).
  assert (zlen (hash_layout b) <= 8) by (unfold hash_layout; destruct (get_password_hash b) as [[] ?]; [by rewrite zlen_le_bytes|done]).
  assert (zlen (payload_layout payload (get_payload_size (hcb_sb b))) <= 9).
  { destruct payload as [p|]; [|done]. cbn [payload_layout]. destruct (_ =? CT_NONE); [etrans; [apply Hsz|lia]|].
    rewrite zlen_cons, zlen_app. pose proof (Hsz (pcb_usize p) (get_payload_size (hcb_sb b))). pose proof (Hsz (pcb_usize p) (pcb_usize p)). lia. }
  lia.
Qed.

(** The payload information that a receiver finds. *)
Lemma received_payload_info rw nc cmd admin p chs pl rwr :
  can_build rw nc cmd admin (Some p) chs pl -> 0 < zlen pl ->
  received (header_layout (new_command rw nc cmd admin) (Some p) (chunks_bytes chs)) pl rwr ->
  command_get_payload_info (rw_sb rwr) = Some (true, mkPayloadInfo (Some 0) (zlen pl) (pcb_usize p) (pcb_compressor p) false).
Proof.
  intros Hcan Hpos (Hst & Hok & (r & Hb) & Hp). pose proof (can_build_pl _ _ _ _ _ _ _ Hcan) as [Hps Hpd].
  destruct Hcan as [Hf Hr Hfd Hc Hpl [Hpok Hdes] HF Hlt].
  set (b := new_command rw nc cmd admin) in *. set (chunks := chunks_bytes chs) in *.
  pose proof (layout_payload_of b (Some p) chunks (zlen pl) Hps Hpok Hdes) as Hpo.
  assert (byte_at (header_layout b (Some p) chunks) 0 = Some (layout_desc b (Some p) chunks)) as Hd by (by rewrite layout_eq, byte_at_0).
  assert (get_payload_size (rw_sb rwr) = zlen pl) as Hsz.
  { destruct Hok as (_ & Hdb & _). unfold get_payload_size. destruct (db_ok_size _ Hdb) as [-> _]. by rewrite Hp. }
  rewrite (command_payload_info_ok (rw_sb rwr) _ r Hok Hb (layout_desc b (Some p) chunks) (zlen pl) (pcb_usize p) (pcb_compressor p) Hd).
  - destruct (layout_fields b (Some p) chunks) as (_ & _ & -> & _). unfold payload_bits, size_mask, payload_info_of. rewrite Hsz.
    destruct (0 <? zlen pl) eqn:E; zbool; [|lia]. by destruct (_ <=? _); [|destruct (_ <=? _)].
  - unfold command_payload_of. rewrite Hd. cbn [mbind option_bind]. rewrite <- Hpo. f_equal. symmetry.
    eapply command_before_payload; [done|done].
  - right. by rewrite Hsz.
Qed.

(** ** From the data of the client to that of the handler *)

Section Compressed.
Context {St : Type} `{EngineLaws St} (around : Z -> option Z) (junk : nat -> Z) (enterprise : bool).
Context (new_lzss3 : engine) (new_engine : Z -> St) (sizeof_engine : Z -> Z).
Context (third_party_type : forall e : St, engine_type e <> CT_LZSS3).
Context (new_engine_type : forall k, third_party enterprise k = true -> engine_type (new_engine k) = k).
Context (sizeof_pos : forall k, 0 < sizeof_engine k).

Abbreviation lib_inv := (lib_inv around enterprise sizeof_engine).
Abbreviation text_limit := (@engine_limit _ _ (any_engine_laws around third_party_type)).
Abbreviation pcb_add := (pcb_add around junk enterprise new_lzss3 new_engine sizeof_engine).
Abbreviation pci_new := (pci_new around enterprise new_lzss3 new_engine sizeof_engine).

(** A container that has been given a payload is still ready to be filled. *)
Lemma stored_can_build rw nc cmd admin p chs stored data :
  fresh_writer rw -> is_clear rw IO_FLAG_IS_RESPONSE = true -> 0 < rw_fd rw -> cmd <> CMD_INVALID -> Forall chunk_ok chs ->
  23 + zlen (chunks_bytes chs) < UINT_MAX_VAL -> 0 < zlen stored -> 0 < zlen data < 2 ^ 32 -> stored_as around enterprise p stored data ->
  can_build (rw_with_sb rw (with_stored (rw_sb rw) stored)) nc cmd admin (Some p) chs stored.
Proof.
  intros Hf Hr Hfd Hc HF Hsz Hpos Hlen Hs. assert (zlen stored < 2 ^ 32) as Hst by (destruct Hs as [_ [[_ ->]|(_ & ? & _)]]; lia).
  constructor; try done.
  - destruct Hf as ((H1 & H2 & H3) & H4 & H5 & H6). split_and!; try done.
  - eapply stored_described with (data := data); [lia|done].
  - pose proof (header_overhead (new_command (rw_with_sb rw (with_stored (rw_sb rw) stored)) nc cmd admin) (Some p) (chunks_bytes chs)). lia.
Qed.

(** (C28) A client adds data to an empty container and builds a command from it; the payload is
    compressed if the data is long enough and that makes it shorter. When a server has
    received the message — in any number of calls and fragments, with any bytes following
    — the payload iterator of the handler, made with the library of the server, reads
    exactly the data; destroying the iterator leaves the container and its memory as they
    were. No assertion fails on the way. *)
Theorem compressed_command_end_to_end {E : Type} `{DeviceLaws E}
    (junk' : nat -> Z) m rw nc cmd admin chs base (cl : @CompressorLibrary St) p data hint base2 (cl2 : @CompressorLibrary St) :
  fresh_writer rw -> is_clear rw IO_FLAG_IS_RESPONSE = true -> 0 < rw_fd rw -> cmd <> CMD_INVALID -> Forall chunk_ok chs ->
  23 + zlen (chunks_bytes chs) < UINT_MAX_VAL -> sb_payload (rw_sb rw) = empty_db -> mem_room (sb_memory (rw_sb rw)) (zlen data) ->
  lib_inv base cl -> lib_inv base2 cl2 -> supported enterprise (pcb_compressor p) -> 0 <= hint < CD_NUMBER_OF_ELEMENTS ->
  bytes_ok data -> 0 < zlen data < 2 ^ 32 -> zlen data < text_limit (pcb_compressor p) ->
  exists cl' sb p' w stored, pcb_add cl (rw_sb rw) p data hint = Some (cl', sb, p') /\ zlen stored <= zlen data
    /\ build_command junk m (rw_with_sb rw sb) nc cmd admin (Some p') chs = Some w
    /\ let msg := command_bytes (header_layout (new_command (rw_with_sb rw sb) nc cmd admin) (Some p') (chunks_bytes chs)) stored in
       forall rwr (d : E) tail calls fuel,
         reader_ok rwr -> rw_state rwr = IO_STATE_CREATED ->
         using_static_header (rw_sb rwr) = true -> get_payload_size (rw_sb rwr) = 0 ->
         dev_in d = msg ++ tail -> (length msg < fuel)%nat ->
         exists r rwr' d' n, retry (command_read junk' fuel) calls rwr d = Some (r, rwr', d', n)
           /\ (r = IO_RESULT_OK -> mem_room (sb_memory (rw_sb rwr')) (zlen data) ->
               exists info cl2' it, command_get_payload_info (rw_sb rwr') = Some info
                 /\ pci_new cl2 (rw_sb rwr') info = Some (cl2', it, mkChunkIterator 0 (zlen data))
                 /\ pci_ok it /\ pci_view it = data /\ pci_destroy it = Some (rw_sb rwr')).
Proof.
  intros Hf Hr Hfd Hc HF Hsz He Hroom Hinv Hinv2 Hs Hh Hok Hlen Hlim.
  destruct (pcb_add_ok around junk enterprise new_lzss3 new_engine sizeof_engine third_party_type new_engine_type sizeof_pos
    base cl (rw_sb rw) p data hint) as (cl' & p' & stored & Hadd & Hinv' & Hst); try done.
  assert (0 < zlen stored <= zlen data) as Hsl by (destruct Hst as [_ [[_ ->]|(_ & ? & _)]]; lia).
  pose proof (stored_can_build rw nc cmd admin p' chs stored data Hf Hr Hfd Hc HF Hsz ltac:(lia) Hlen Hst) as Hcan.
  destruct (build_command_holds junk m _ _ _ _ _ _ _ Hcan) as (w & Hw & _ & _).
  pose proof (build_command_wf _ _ _ _ _ _ _ Hcan) as Hwf.
  exists cl', (with_stored (rw_sb rw) stored), p', w, stored. split; [done|]. split; [lia|]. split; [done|]. intros msg.
  intros rwr d tail calls fuel Hrok Hrst Hsh Hps Hin Hfu.
  destruct (read_retry_ok junk' _ _ tail Hwf fuel calls rwr d msg) as (r & rw' & d' & n & Hrd & Hp);
    [done|constructor; auto|done|by apply command_bytes_len|done|].
  exists r, rw', d', n. split; [done|]. intros -> Hroom2. destruct Hp as (_ & Hrec & _).
  pose proof (received_payload_info _ _ _ _ _ _ _ _ Hcan ltac:(lia) Hrec) as Hinfo. destruct Hrec as (_ & (_ & Hdb & _) & _ & Hpl).
  assert (sb_payload (rw_sb rw') = mkDataBuffer (Some stored) (zlen stored)) as Hdbuf.
  { destruct (sb_payload (rw_sb rw')) as [[b|] z]; cbn in Hdb, Hpl; [unfold id in Hpl; subst b; by destruct Hdb as [-> _]|].
    unfold zlen in Hsl. rewrite <- Hpl in Hsl. cbn in Hsl. lia. }
  destruct (pci_new_ok around enterprise new_lzss3 new_engine sizeof_engine third_party_type new_engine_type sizeof_pos
    base2 cl2 (rw_sb rw') p' stored data Hinv2 Hlen Hst Hdbuf Hroom2) as (cl2' & it & Hnew & _ & Hit).
  eexists _, cl2', it. split; [done|]. done.
Qed.

End Compressed.

(** A command whose 36 bytes of data are packed with LZSS3. *)
Module Packed.

Definition data : bytes := Runs.text ++ [3; 4; 1; 2; 3; 4; 1; 2; 3; 4; 1; 2; 3; 4; 1; 2].
Definition nc : NetworkConfiguration :=
  mkNetworkConfiguration 0x1122334455667788 7 0 16 CT_LZSS3 CT_LZF CT_ZSTD true true true.
Definition builder : PayloadChunkBuilder := mkPayloadChunkBuilder 0 16 CT_LZSS3.
Definition writer : ReaderWriter :=
  mkReaderWriter (sb_init Exchange.zeros Exchange.mem) 3 0 0 0 DOMAIN_GLOBAL IO_STATE_CREATED IO_FLAG_NETWORK.

Lemma builder_configured : pcb_new nc DOMAIN_GLOBAL = Some builder.
Proof. reflexivity. Qed.

Lemma writer_fresh : fresh_writer writer.
Proof. split; [by split_and!|]. split; [done|]. done. Qed.

Lemma data_ok : bytes_ok data.
Proof. repeat constructor; discriminate. Qed.

Lemma chunks_ok : Forall chunk_ok Exchange.chunks.
Proof. repeat constructor; done. Qed.

End Packed.

Lemma compressed_command_end_to_end_witness : exists cl sb p w,
  pcb_add Runs.no_memory Exchange.zeros false Runs.blank Runs.new_runs Runs.sizeof Runs.start (rw_sb Packed.writer) Packed.builder Packed.data CD_TEXT
    = Some (cl, sb, p)
  /\ build_command Exchange.zeros Exchange.mem (rw_with_sb Packed.writer sb) Packed.nc CMD_SAVE false (Some p) Exchange.chunks = Some w.
Proof.
  destruct (compressed_command_end_to_end (E := SocketDevice Peer) Runs.no_memory Exchange.zeros false Runs.blank Runs.new_runs Runs.sizeof
    Runs.runs_not_lzss3 Runs.runs_new ltac:(intros k; exact (eq_refl : 0 < Runs.sizeof k)) Exchange.zeros Exchange.mem Packed.writer Packed.nc CMD_SAVE false
    Exchange.chunks 1000 Runs.start Packed.builder Packed.data CD_TEXT 1000 Runs.start Packed.writer_fresh eq_refl eq_refl ltac:(discriminate) Packed.chunks_ok
    eq_refl eq_refl ltac:(unfold mem_room; vm_compute; split_and!; done) Runs.start_inv Runs.start_inv (or_introl eq_refl) ltac:(unfold CD_TEXT, CD_NUMBER_OF_ELEMENTS; lia)
    Packed.data_ok ltac:(vm_compute; split; reflexivity) eq_refl) as (cl & sb & p & w & stored & H1 & _ & H2 & _).
  exists cl, sb, p, w. split; [exact H1|exact H2].
Defined.

(** The payload is stored in 15 bytes. *)
Example packed_size :
  ('(_, sb, p) ← pcb_add Runs.no_memory Exchange.zeros false Runs.blank Runs.new_runs Runs.sizeof Runs.start (rw_sb Packed.writer) Packed.builder Packed.data CD_TEXT;
   Some (get_payload_size sb, pcb_usize p, pcb_compressor p)) = Some (15, 36, CT_LZSS3).
Proof. vm_compute. reflexivity. Qed.
