(* ===== verification/TagManagerOk.v ===== *)
(** * TagManagerOk

    The properties of the tag manager: it implements its contract in every state of a
    run, whatever is sent to it over the network, and what happens when a
    client names the special tag. *)

From S2P Require Import Prelude Protocol Memory Utils Buffers ChunkBuilder HeaderBuild ChunkIterator RoundTrip Devices Accessors MessageIO CommandIO EndToEnd DList HashObject HashTable ObjectStore NameTable Tags TagRefs TagPages TagOps TagSave TagMatch TagCommands TagHandlers TagClean TagSelect TagQueries TagRequests TagRun.

(** ** From the network *)

(** A command that has been received whole is what the handlers read. *)
Lemma received_sees rw nc cmd admin payload chs pl rwr : can_build rw nc cmd admin payload chs pl -> chs <> [] ->
  received (header_layout (new_command rw nc cmd admin) payload (chunks_bytes chs)) pl rwr ->
  is_command rwr cmd /\ sees rwr chs.
Proof.
  intros Hcan Hne Hrec. pose proof (can_build_pl _ _ _ _ _ _ _ Hcan) as [Hps Hpd]. destruct Hcan as [Hf Hr Hfd Hc Hpl Hdes HF Hlt].
  set (h := header_layout _ _ _) in *. assert (zlen h < 2 ^ 32) as Hlt' by (unfold UINT_MAX_VAL in Hlt; lia).
  split; [by apply (received_command_id (new_command rw nc cmd admin) _ _ _ _ _ _ _ eq_refl Hc _ Hrec)|].
  pose proof (received_chunks (new_command rw nc cmd admin) _ _ _ _ _ _ _ eq_refl Hc Hpd Hpl Hdes Hlt' _ Hrec chs Hlt eq_refl HF) as Hch.
  destruct (received_iterator (new_command rw nc cmd admin) _ _ _ _ _ _ _ eq_refl Hc Hpd Hpl Hdes Hlt' _ Hrec Hlt) as (it & Hit & Hrem & Hoff).
  rewrite Hit in Hch. cbn [mbind option_bind] in Hch. exists it. split; [done|]. split; [|by exists (S (length chs))].
  assert (0 < zlen (chunks_bytes chs)) as Hpos.
  { destruct chs as [|c chs]; [done|]. apply Forall_cons in HF as [Hc0 _]. unfold chunks_bytes. cbn [fmap list_fmap concat]. rewrite zlen_app.
    pose proof (zlen_encode_chunk_pos c Hc0). pose proof (zlen_nonneg (concat (encode_chunk <$> chs))). lia. }
  specialize (Hoff Hpos). fold h in Hoff. unfold ci_ok, ci_in. assert (zlen (chunks_bytes chs) <= zlen h); [|lia].
  unfold h. rewrite layout_split, !zlen_app. pose proof (zlen_nonneg (before_payload (new_command rw nc cmd admin) payload (chunks_bytes chs))).
  match goal with |- _ <= _ + (?x + _) => assert (0 <= x) by apply zlen_nonneg; lia | |- _ <= _ + ?x + _ => assert (0 <= x) by apply zlen_nonneg; lia end.
Qed.

(** Reading the specification backwards. *)
Lemma spec_save_inv ok V p ua lt ns V' evs v : spec ok V (QSave p ua lt ns) V' evs -> V !! p = Some v -> v_deleted v = false ->
  V' = <[p := saved v ns]> V /\ evs = [PostWrite p (u8 ua) (if lt <? 0 then MAX_TIMESTAMP else lt)].
Proof. inversion 1; intros; simplify_eq; [done|congruence]. Qed.

Lemma spec_metadata_inv ok V p V' evs v ts : spec ok V (QMetadata p) V' evs -> V !! p = Some v -> v_tags v = Some ts -> v_deleted v = false ->
  exists exp_time mod_time rest, evs = Respond (DataResponse exp_time mod_time ts) :: rest.
Proof.
  inversion 1 as [| | | |p2 v2 ts2 et mt rd Hv2 Ht2 Hd2 Hrd|p2 v2 Hv2 Hn| | | | | | | | |]; intros Hv Ht Hd; simplify_eq; [by eexists _, _, _|].
  destruct Hn; congruence.
Qed.

Section Properties.
Context {T : Type} `{NameTableLaws T} `{NewLocs}.
Implicit Types (st : TagStore T).

(** (C29) The tag manager implements its contract: in every state that a run of the
    thread can reach (messages handled in turn, pages created, touched, marked
    and freed by other threads in between), every message that asks for
    something the callers may ask for is handled without a failing assertion or
    a dangling pointer, has exactly the effect of the abstract specification on
    the pages and their tags, and posts exactly the specified messages to the
    optimizer, the page store and the client. *)
Theorem tag_manager_refines nint ok st msg q : 0 < nint -> reachable nint ok st -> reads_as msg q -> requires st q ->
  implements nint ok q st (process_message nint ok st msg).
Proof. intros Hn Hr. apply message_ok; [done|]. by eapply reachable_ok. Qed.

(** (C30) The invariant of the tag manager holds in every state of a run: the table of
    names and the tags agree, the references to each tag form its doubly-linked
    chain and their number is the tag's counter, user tags without pages do not
    exist, the special tag does, and each page is either linked by as many
    references as it has tags or by none. *)
Theorem tag_manager_invariant nint ok st : 0 < nint -> reachable nint ok st -> tm_ok nint st.
Proof. intros Hn. by apply reachable_ok. Qed.

(** (C31) [PageObject::matches_tags], which reads two arrays and stops at the first
    sufficient match, computes what its name says: whether at least
    [min_nmatches] of the given tags are among the tags of the page. *)
Theorem matches_tags_ok nint ok st p po min_nmatches tags : 0 < nint -> reachable nint ok st ->
  tm_pages st !! p = Some po -> linked po = true -> 0 < min_nmatches < 2 ^ 32 -> tags <> [] ->
  matches_tags nint st po min_nmatches tags
  = Some (min_nmatches <=? zlen (filter (fun t => t ∈ tags_of (tagging (tm_refs st)) po) tags)).
Proof.
  intros Hn Hr Hp Hl Hm Ht. apply (reachable_ok nint Hn) in Hr as Hok.
  destruct (settled_linked nint st _ _ None p po Hok) as [Hc Hpt]; [done..|].
  by apply (matches_tags_count nint Hn st no_dummies [] None p po).
Qed.

(** (C32) What is saved is what is reported: after a [SAVE] with a list of tags, the
    answer to [GETMETADATAS] lists these tags, each once, in the order of
    first occurrence, less the name of the special tag. *)
Theorem save_metadata_round_trip nint ok st m1 m2 p v ua lt ns : 0 < nint -> reachable nint ok st ->
  reads_as m1 (QSave p ua lt ns) -> requires st (QSave p ua lt ns) -> reads_as m2 (QMetadata p) ->
  view st !! p = Some v -> v_deleted v = false ->
  exists st1 st2 exp_time mod_time evs, process_message nint ok st m1 = Some st1 /\ process_message nint ok st1 m2 = Some st2
    /\ tm_posted st2 = tm_posted st ++ PostWrite p (u8 ua) (if lt <? 0 then MAX_TIMESTAMP else lt)
         :: Respond (DataResponse exp_time mod_time (user_names (uniq [] ns))) :: evs.
Proof.
  intros Hn Hr H1' Hq H2' Hv Hd. apply (reachable_ok nint Hn) in Hr as Hok.
  destruct (message_ok nint Hn ok st m1 _ Hok H1' Hq) as (st1 & V1 & e1 & He1 & Hok1 & [Ev1 Ep1 _ _] & Hs1).
  rewrite decide_False in Ep1 by done. destruct (spec_save_inv _ _ _ _ _ _ _ _ _ Hs1 Hv Hd) as [HV1 ->]. rewrite HV1 in Ev1.
  assert (view st1 !! p = Some (saved v ns)) as Hv1 by (by rewrite Ev1, lookup_insert_eq).
  destruct (message_ok nint Hn ok st1 m2 _ Hok1 H2') as (st2 & V2 & e2 & He2 & Hok2 & [Ev2 Ep2 _ _] & Hs2).
  { cbn. rewrite lookup_view in Hv1. destruct (tm_pages st1 !! p); [by eexists|done]. }
  rewrite decide_False in Ep2 by done. destruct (spec_metadata_inv _ _ _ _ _ _ _ Hs2 Hv1 eq_refl Hd) as (et & mt & evs & ->).
  exists st1, st2, et, mt, evs. split; [done|]. split; [done|]. by rewrite Ep2, Ep1, <- app_assoc.
Qed.

(** (C33) From the client to the tags: a [SAVE] command with an id, a user agent, a life
    time and a list of tags, built by a client and received by the server in
    whatever fragments the connection delivers, is read without a failing
    assertion, and once it has been read whole the tag manager marks the page
    with the tags in the client's list. *)
Theorem save_command_end_to_end {E : Type} `{DeviceLaws E} (junk : nat -> Z) nint ok st
    rw nc admin payload id ua lt ns pl p rwr (d : E) tail calls fuel :
  let chs := [CString id; CNumber ua; CNumber lt; CList ns] in
  let msg := command_bytes (header_layout (new_command rw nc CMD_SAVE admin) payload (chunks_bytes chs)) pl in
  0 < nint -> reachable nint ok st -> requires st (QSave p ua lt ns) -> can_build rw nc CMD_SAVE admin payload chs pl ->
  reader_ok rwr -> rw_state rwr = IO_STATE_CREATED -> using_static_header (rw_sb rwr) = true -> get_payload_size (rw_sb rwr) = 0 ->
  dev_in d = msg ++ tail -> (length msg < fuel)%nat ->
  exists r rwr' d' n, retry (command_read junk fuel) calls rwr d = Some (r, rwr', d', n)
    /\ (r = IO_RESULT_OK -> implements nint ok (QSave p ua lt ns) st (process_message nint ok st (TagCommand rwr' (Some p)))).
Proof.
  intros chs msg Hn Hr Hq Hcan Hok Hst Hsh Hps Hin Hf. pose proof (build_command_wf _ _ _ _ _ _ _ Hcan) as Hwf.
  destruct (read_retry_ok junk _ _ tail Hwf fuel calls rwr d msg) as (r & rwr' & d' & n & He & Hp);
    [done|constructor; auto|done|by apply command_bytes_len|done|].
  exists r, rwr', d', n. split; [done|]. intros ->. destruct Hp as (_ & Hrec & _).
  destruct (received_sees _ _ _ _ _ _ _ _ Hcan ltac:(done) Hrec) as [Hcmd Hsee].
  apply message_ok; [done|by eapply reachable_ok| |done]. by eapply reads_save.
Qed.

(** (C34) The special tag that links pages without tags can be named by clients: it is
    called by the first seven bytes of its intended name. If no page is without
    tags, a [CLEAN] command with that name as its only tag, in any of its three
    modes, makes the tag manager fail an assertion. *)
Theorem clean_special_tag_fails nint ok st cr mode chs u to : 0 < nint -> reachable nint ok st ->
  is_command cr CMD_CLEAN -> has_payload_data (rw_sb cr) = Some false ->
  sees cr (CNumber (clean_mode_code (clean_mode mode)) :: CList [untagged_name] :: chs) ->
  ts_untagged st = Some u -> tm_tags st !! u = Some to -> to_num to = 0 ->
  process_message nint ok st (TagCommand cr None) = None.
Proof.
  intros Hn Hr Hcmd Hpl (it & Hit & Hrd) Hu Hto Hz. apply (reachable_ok nint Hn) in Hr as Hok.
  cbn [process_message]. unfold process_command_message. rewrite Hcmd. cbn [mbind option_bind command_code Z.eqb Pos.eqb c3_assert].
  rewrite bool_decide_true by done. cbn [mbind option_bind c3_assert].
  unfold process_clean_command, process_clean. rewrite Hit. cbn [mbind option_bind].
  apply get_number_reads in Hrd as (it1 & -> & Hrd & _). cbn [mbind option_bind]. rewrite Hpl. cbn [mbind option_bind].
  rewrite mode_code_uint. cbn [negb andb].
  destruct (extract_ok nint st (rw_sb cr) it1 [untagged_name] chs Hok) as (lc & it2 & sh & tags & all & it3 & -> & Hval & He & Hex); [by repeat constructor|done|].
  assert ((clean_mode_code (clean_mode mode) =? clean_mode_code CM_ALL) = false) as -> by (by destruct mode).
  assert ((clean_mode_code (clean_mode mode) =? clean_mode_code CM_OLD) = false) as -> by (by destruct mode).
  cbn [mbind option_bind]. rewrite Hval, He. cbn [mbind option_bind].
  destruct (inv_untagged _ _ _ _ _ Hok) as (u' & to' & Hu' & Hto' & Hnm). assert (u' = u) as -> by congruence. assert (to' = to) as -> by congruence.
  assert (forall x, taken sh tags x -> x = u) as Hone.
  { intros x Hx. apply (ex_taken _ _ _ _ _ Hex) in Hx as (n & ->%list_elem_of_singleton & tx & Htx & Hnx).
    eapply (tag_name_inj nint); [done|done|exact Hto|congruence]. }
  assert (exists s, sh = Some s) as (s & ->).
  { destruct sh as [s|]; [by exists s|]. destruct (proj2 (ex_taken _ _ _ _ _ Hex u)) as [?|Hin]; [|done|].
    - exists untagged_name. split; [left|by exists to].
    - rewrite (ex_none _ _ _ _ _ Hex eq_refl) in Hin. by apply elem_of_nil in Hin. }
  assert (s = u) as -> by (apply Hone; by left).
  assert (all = true) as ->.
  { apply (ex_all _ _ _ _ _ Hex). intros n ->%list_elem_of_singleton. exists u, to. done. }
  assert (forall x, x ∈ tags -> x = u) as Htags by (intros x Hx; apply Hone; by right).
  assert (tag_add_reference st u = None) as Hadd by (unfold tag_add_reference; rewrite Hto; cbn [mbind option_bind]; by rewrite Hz).
  assert (forall tags', (forall x, x ∈ tags' -> x = u) -> add_dummy_references st (tags' ++ [u]) = None) as Hdum.
  { intros [|x tags'] Hx; cbn [app add_dummy_references]; [by rewrite Hadd|]. rewrite (Hx x) by left. by rewrite Hadd. }
  destruct mode; unfold clean_tags, clean_matching_all, clean_by_tags; cbn [clean_mode clean_mode_code Z.eqb Pos.eqb].
  - by rewrite Hadd.
  - by rewrite Hdum.
  - by rewrite Hdum.
Qed.

End Properties.

(** ** A concrete run *)

Module TagExample.

Definition hash (n : bytes) : Z := 1 + foldr Z.add 0 n mod 1000.

Lemma hash_valid n : valid_name n -> hash n <> INVALID_HASH_VALUE.
Proof. intros _. unfold hash, INVALID_HASH_VALUE. pose proof (Z.mod_pos_bound (foldr Z.add 0 n) 1000). lia. Qed.

Lemma sizeof_ok : SIZEOF_HASH_OBJECT < 128.
Proof. done. Qed.

#[export] Instance names : NameTable name_store := StoreNames hash 128.
#[export] Instance names_laws : NameTableLaws name_store := StoreNames_laws hash 128 hash_valid sizeof_ok.

#[export] Instance fresh_locs : NewLocs.
Proof.
  refine {| new_locs X n := fresh_list n X |}; [intros; apply length_fresh_list|intros; apply NoDup_fresh_list|].
  intros X n x. apply fresh_list_is_fresh.
Defined.

Definition store0 : Store := mkStore DEFAULT_FACTOR 1.
Definition memory0 : Memory := mkMemory 0 126 DOMAIN_FPC.
Definition table0 : name_store := default (mkNameStore store0 [] memory0) (init_object_store store0 2 64 memory0).
Definition start : TagStore name_store := default (empty_store table0 []) (allocate_tag_store (empty_store table0 (replicate 2 []))).

(** A page with room for one reference. *)
Definition page : PageObject :=
  mkPageObject (mkHashObject None None None None 77 2 [112; 49] (Z.lor HOF_PAYLOAD HOF_FPC) 0
    (mkPayloadFields (Buffer [1; 2; 3]) None None 3 5 100 200 0 0 UA_USER 0)) None [1001%positive].
Definition with_a_page : TagStore name_store := add_page start 7%positive page [[7%positive]; []].

(** Commands as the server's reader delivers them. *)
Definition sender : ReaderWriter :=
  mkReaderWriter (mkSharedBuffers memory0 empty_db empty_db (fresh Exchange.zeros 12) 1) 3 0 0 0 DOMAIN_FPC IO_STATE_CREATED IO_FLAG_NETWORK.
Definition wire (cmd : command_t) (chs : list chunk) : bytes :=
  command_bytes (header_layout (new_command sender Exchange.nc cmd false) None (chunks_bytes chs)) [].
Definition peer (cmd : command_t) (chs : list chunk) : SocketDevice Peer :=
  Socket (mkPeer (wire cmd chs) [] [Move 2; Fails EAGAIN; Move 3; Move 7]).
Definition command (cmd : command_t) (chs : list chunk) : ReaderWriter :=
  match retry (command_read Exchange.zeros 1000) 5 Exchange.reader (peer cmd chs) with
  | Some (_, rwr, _, _) => rwr
  | None => Exchange.reader
  end.

Definition save_chunks : list chunk := [CString [112; 49]; CNumber 1; CNumber 100; CList [[97]; [98]; [97]]].

Lemma table0_empty : nt_rep table0 [].
Proof.
  destruct (init_object_store store0 2 64 memory0) as [ns|] eqn:E; [|vm_compute in E; discriminate E].
  assert (table0 = ns) as -> by (unfold table0; rewrite E; reflexivity).
  assert (ns_rep hash ns []) as Hr; [|exact Hr]. eapply init_object_store_ok; [| | | |exact E].
  - exists 1. lia.
  - lia.
  - apply default_fill_ok.
  - cbn. lia.
Qed.

Lemma start_reachable : reachable 1 true start.
Proof. apply (reach_start 1 true table0 2); [exact table0_empty|]. vm_compute. reflexivity. Qed.

Lemma page_new : new_page 1 page.
Proof. constructor; [|done..]. constructor; try done. apply NoDup_singleton. Qed.

Lemma with_a_page_reachable : reachable 1 true with_a_page.
Proof.
  eapply reach_env; [exact start_reachable|]. apply env_add; [vm_compute; reflexivity|exact page_new| |].
  - intros r ->%list_elem_of_singleton. vm_compute. reflexivity.
  - vm_compute. reflexivity.
Qed.

Definition save : TagMessage := TagCommand (command CMD_SAVE save_chunks) (Some 7%positive).
Definition metadata : TagMessage := TagCommand (command CMD_GETMETADATAS []) (Some 7%positive).
Definition clean_chunks : list chunk := [CNumber (clean_mode_code CM_MATCHING_ANY_TAG); CList [untagged_name]].

(** The iterator is where the data is. *)
Ltac sees_data :=
  eexists; split; [vm_compute; reflexivity|]; split; [by vm_compute|]; exists 9%nat; vm_compute; reflexivity.

Lemma save_reads : reads_as save (QSave 7%positive 1 100 [[97]; [98]; [97]]).
Proof. apply (reads_save _ _ [112; 49]); [vm_compute; reflexivity|]. sees_data. Qed.

Lemma metadata_reads : reads_as metadata (QMetadata 7%positive).
Proof. apply reads_metadata. vm_compute. reflexivity. Qed.

Lemma save_requires : requires with_a_page (QSave 7%positive 1 100 [[97]; [98]; [97]]).
Proof.
  split; [vm_compute; by eexists|]. split; [lia|]. split; [by rewrite !Forall_cons|]. split; [by vm_compute|]. by vm_compute.
Qed.

Lemma save_builds : can_build sender Exchange.nc CMD_SAVE false None save_chunks [].
Proof.
  constructor; try done. repeat constructor; done.
Qed.

Definition saved_state : TagStore name_store := default with_a_page (process_message 1 true with_a_page save).

Lemma saved_reachable : reachable 1 true saved_state.
Proof.
  eapply reach_message; [exact with_a_page_reachable|exact save_reads|exact save_requires|]. vm_compute. reflexivity.
Qed.

End TagExample.

Import TagExample.

(** A page is saved with two tags, one of them named twice. *)
Lemma tag_manager_refines_witness :
  implements 1 true (QSave 7%positive 1 100 [[97]; [98]; [97]]) with_a_page (process_message 1 true with_a_page save).
Proof. apply (tag_manager_refines 1 true with_a_page save); [lia|exact with_a_page_reachable|exact save_reads|exact save_requires]. Defined.

Lemma tag_manager_invariant_witness : tm_ok 1 saved_state.
Proof. apply (tag_manager_invariant 1 true saved_state); [lia|exact saved_reachable]. Defined.

Lemma matches_tags_ok_witness : exists po, tm_pages saved_state !! 7%positive = Some po
  /\ matches_tags 1 saved_state po 1 [5; 3]%positive
     = Some (1 <=? zlen (filter (fun t => t ∈ tags_of (tagging (tm_refs saved_state)) po) [5; 3]%positive))
  /\ matches_tags 1 saved_state po 1 [5; 3]%positive = Some true.
Proof.
  destruct (tm_pages saved_state !! 7%positive) as [po|] eqn:E; [|by vm_compute in E]. exists po. split; [done|].
  assert (po = default TagExample.page (tm_pages saved_state !! 7%positive)) as Hpo by (by rewrite E). split.
  - apply (matches_tags_ok 1 true saved_state 7%positive po 1 [5; 3]%positive);
      [lia|exact saved_reachable|done|subst po; vm_compute; reflexivity|lia|done].
  - subst po. vm_compute. reflexivity.
Defined.

Lemma save_metadata_round_trip_witness : exists st1 st2 et mt evs,
  process_message 1 true with_a_page save = Some st1 /\ process_message 1 true st1 metadata = Some st2
  /\ tm_posted st2 = tm_posted with_a_page ++ PostWrite 7%positive (u8 1) 100
       :: Respond (DataResponse et mt [[97]; [98]]) :: evs.
Proof.
  exact (save_metadata_round_trip 1 true with_a_page save metadata 7%positive (view_of with_a_page page) 1 100 [[97]; [98]; [97]]
    ltac:(lia) with_a_page_reachable save_reads save_requires metadata_reads ltac:(vm_compute; reflexivity) ltac:(vm_compute; reflexivity)).
Defined.

Lemma save_command_end_to_end_witness : exists rwr d n,
  retry (command_read Exchange.zeros 1000) 5 Exchange.reader (peer CMD_SAVE save_chunks) = Some (IO_RESULT_OK, rwr, d, n)
  /\ implements 1 true (QSave 7%positive 1 100 [[97]; [98]; [97]]) with_a_page
       (process_message 1 true with_a_page (TagCommand rwr (Some 7%positive))).
Proof.
  assert (length (wire CMD_SAVE save_chunks) < 1000)%nat as Hf by (vm_compute; lia).
  destruct (save_command_end_to_end Exchange.zeros 1 true with_a_page sender Exchange.nc false None [112; 49] 1 100 [[97]; [98]; [97]] []
    7%positive Exchange.reader (peer CMD_SAVE save_chunks) [] 5%nat 1000%nat ltac:(lia) with_a_page_reachable save_requires save_builds
    Exchange.reader_fresh eq_refl eq_refl eq_refl ltac:(by rewrite app_nil_r) Hf) as (r & rwr & d & n & He & Hp).
  exists rwr, d, n. assert (r = IO_RESULT_OK) as -> by (vm_compute in He; by injection He). split; [exact He|exact (Hp eq_refl)].
Defined.

(** The page is marked with a tag, so that no page is without tags. *)
Lemma clean_special_tag_fails_witness :
  process_message 1 true saved_state (TagCommand (command CMD_CLEAN clean_chunks) None) = None.
Proof.
  apply (clean_special_tag_fails 1 true saved_state (command CMD_CLEAN clean_chunks) AnyTag [] 1%positive (mkTagObject untagged_name None 0 true));
    [lia|exact saved_reachable|vm_compute; reflexivity|vm_compute; reflexivity| |vm_compute; reflexivity|vm_compute; reflexivity|done].
  sees_data.
Defined.
