(* ===== verification/CStrings.v ===== *)
(** * C strings: comparison and wildcard masks

    [c3_matches] and [c3_starts_with], the comparisons that ignore case, and the class
    [StringMatcher] ([c3_string.*]), which matches names against masks with asterisks.
    A pointer into a C string is what follows it, without the terminating zero: to read
    at the end of the list is to read the zero, and to go on from there is [None].

    [matches_ok]: the matcher, with its search for the next fixed piece of the mask and
    its backtracking, decides the relation [glob]. *)

From S2P Require Import Prelude.

(** A string of C: no zero before its end. *)
Definition cstring (s : bytes) : Prop := Forall (fun c => 0 < c < 256) s.

(** What [str] points at. *)
Definition chr (s : bytes) : Z := hd 0 s.

(** [str++], which must not step over the terminator. *)
Definition next_chr (s : bytes) : option bytes :=
  match s with [] => None | _ :: s => Some s end.

(** [std::tolower], in the C locale. *)
Definition tolower (c : Z) : Z := if (65 <=? c) && (c <=? 90) then c + 32 else c.

Fixpoint c3_matches (str1 str2 : bytes) : option bool :=
  if negb (tolower (chr str1) =? tolower (chr str2)) then Some false
  else match str1 with
       | [] => Some true
       | _ :: str1 => str2 ← next_chr str2; c3_matches str1 str2
       end.

Fixpoint c3_starts_with (str prefix : bytes) : option bool :=
  match prefix with
  | [] => Some true
  | p :: prefix =>
      if negb (tolower p =? tolower (chr str)) then Some false
      else str ← next_chr str; c3_starts_with str prefix
  end.

(** ** [StringMatcher] *)

Module StringMatcher.

Definition ASTERISK : Z := 42.

Record StringMatcher := {
  sm_mask : bytes;
  sm_num_matches : Z;
  sm_ci : bool;
}.

(** The constructor. *)
Definition sm_new (mask : bytes) (ci : bool) : StringMatcher :=
  {| sm_mask := mask; sm_num_matches := 0; sm_ci := ci |}.

(** Whether a character of the string agrees with one of the mask. *)
Definition agree (ci : bool) (c m : Z) : bool :=
  if ci then tolower c =? tolower m else c =? m.

(** The loop of [get_match_length]. *)
Fixpoint get_match_length_loop (ci : bool) (length : Z) (str mask : bytes) : option Z :=
  match mask with
  | [] => Some length
  | m :: mask =>
      if m =? ASTERISK then Some length
      else if negb (agree ci (chr str) m) then Some 0
      else str ← next_chr str; get_match_length_loop ci (u32 (length + 1)) str mask
  end.

Definition get_match_length (ci : bool) (str mask : bytes) : option Z :=
  _ ← c3_assert (negb (chr mask =? 0) && negb (chr mask =? ASTERISK));
  get_match_length_loop ci 0 str mask.

(** The [do] loop that steps over asterisks. *)
Fixpoint skip_asterisks (mask : bytes) : bytes :=
  match mask with
  | [] => []
  | m :: mask' => if m =? ASTERISK then skip_asterisks mask' else mask
  end.

(** The [while] loop that finds a substring that matches the mask up to the next asterisk. *)
Fixpoint find_substr (ci : bool) (substr mask : bytes) : option (option (bytes * Z)) :=
  length ← get_match_length ci substr mask;
  if length =? 0 then
    match substr with
    | [] => None
    | _ :: substr => if chr substr =? 0 then Some None else find_substr ci substr mask
    end
  else Some (Some (substr, length)).

(** The [for] loop over the positions of the string. *)
Fixpoint match_rest (ci : bool) (rec : bytes -> bytes -> option bool) (str mask : bytes) : option bool :=
  match str with
  | [] => Some false
  | _ :: str' =>
      found ← find_substr ci str mask;
      match found with
      | None => Some false
      | Some (substr, length) =>
          b ← rec (drop (Z.to_nat length) substr) (drop (Z.to_nat length) mask);
          if (b : bool) then Some true else match_rest ci rec str' mask
      end
  end.

(** The recursion consumes characters of the mask, so its length bounds it. *)
Fixpoint matches_fuel (fuel : nat) (ci : bool) (str mask : bytes) : option bool :=
  match fuel with
  | O => None
  | S fuel =>
      match mask with
      | [] => Some (chr str =? 0)
      | m :: mask' =>
          if m =? ASTERISK then
            let mask := skip_asterisks mask' in
            if chr mask =? 0 then Some true else match_rest ci (matches_fuel fuel ci) str mask
          else
            n ← get_match_length ci str mask;
            if negb (n =? 0)
            then matches_fuel fuel ci (drop (Z.to_nat n) str) (drop (Z.to_nat n) mask)
            else Some false
      end
  end.

Definition matches_mask (ci : bool) (str mask : bytes) : option bool :=
  matches_fuel (S (length mask)) ci str mask.

(** The public method, which also counts. *)
Definition sm_matches (sm : StringMatcher) (str : bytes) : option (StringMatcher * bool) :=
  b ← matches_mask (sm_ci sm) str (sm_mask sm);
  if (b : bool) then
    Some ({| sm_mask := sm_mask sm; sm_num_matches := u32 (sm_num_matches sm + 1); sm_ci := sm_ci sm |}, true)
  else Some (sm, false).

(** ** What masks mean *)

Inductive glob (ci : bool) : bytes -> bytes -> Prop :=
| glob_nil : glob ci [] []
| glob_char c m str mask : m <> ASTERISK -> agree ci c m = true -> glob ci str mask -> glob ci (c :: str) (m :: mask)
| glob_star skipped str mask : glob ci str mask -> glob ci (skipped ++ str) (ASTERISK :: mask).

(** ** Proofs *)

Section Ok.
Variable ci : bool.

(** A piece of a mask, without asterisks, at the head of a string. *)
Definition agrees (str piece : bytes) : Prop := Forall2 (fun c m => agree ci c m = true) str piece.

Definition fixed (piece : bytes) : Prop := Forall (fun m => 0 < m < 256 /\ m <> ASTERISK) piece.

Definition piece_end (mask : bytes) : Prop := mask = [] \/ exists t, mask = ASTERISK :: t.

Lemma tolower_pos c : 0 < c < 256 -> tolower c <> 0.
Proof. unfold tolower. intros. zcase; lia. Qed.

Lemma agree_nul m : 0 < m < 256 -> agree ci 0 m = false.
Proof.
  intros H. unfold agree. destruct ci; [|apply Z.eqb_neq; lia].
  pose proof (tolower_pos m H). apply Z.eqb_neq. cbn. lia.
Qed.

Lemma piece_end_not_fixed m t : piece_end (m :: t) -> m = ASTERISK.
Proof. intros [[=]|(? & [= -> ->])]. done. Qed.

(** The next piece of a mask. *)
Lemma mask_split mask : cstring mask -> exists piece rest, mask = piece ++ rest /\ fixed piece /\ piece_end rest.
Proof.
  induction 1 as [|m mask Hm _ (piece & rest & -> & Hp & Hr)].
  - exists [], []. repeat split; [constructor | by left].
  - destruct (decide (m = ASTERISK)) as [->|].
    + exists [], (ASTERISK :: piece ++ rest). repeat split; [constructor | right; eauto].
    + exists (m :: piece), rest. repeat split; [constructor; auto|done].
Qed.

Lemma get_match_length_loop_ok piece : forall k str rest,
  fixed piece -> piece_end rest -> 0 <= k -> k + zlen piece < 2 ^ 32 ->
  (agrees (take (length piece) str) piece /\ get_match_length_loop ci k str (piece ++ rest) = Some (k + zlen piece)) \/
  (~ agrees (take (length piece) str) piece /\ get_match_length_loop ci k str (piece ++ rest) = Some 0).
Proof.
  induction piece as [|m piece IH]; intros k str rest Hf Hr Hk Hb; cbn [app get_match_length_loop length].
  - left. split; [constructor|]. destruct Hr as [->|[t ->]]; cbn; f_equal; unfold zlen; cbn; lia.
  - apply Forall_cons in Hf as [[Hm Hns] Hf]. pose proof (zlen_nonneg piece). zlen.
    rewrite (proj2 (Z.eqb_neq m ASTERISK) Hns).
    destruct str as [|c str]; cbn [chr hd take next_chr mbind option_bind].
    + rewrite agree_nul by done. right. split; [inversion 1|done].
    + destruct (agree ci c m) eqn:Ea; cbn [negb].
      * unfold u32. rewrite Z.mod_small by lia.
        destruct (IH (k + 1) str rest) as [[Ha ->]|[Ha ->]]; [done..|lia|lia| |].
        -- left. split; [by constructor|f_equal; lia].
        -- right. split; [by inversion 1|done].
      * right. split; [|done]. inversion 1; congruence.
Qed.

Lemma fixed_chr m piece rest : fixed (m :: piece) -> negb (chr ((m :: piece) ++ rest) =? 0) && negb (chr ((m :: piece) ++ rest) =? ASTERISK) = true.
Proof.
  intros [[Hm Hn] _]%Forall_cons. cbn. rewrite (proj2 (Z.eqb_neq m 0)), (proj2 (Z.eqb_neq m ASTERISK)); [done..|lia].
Qed.

Lemma get_match_length_ok m piece str rest :
  fixed (m :: piece) -> piece_end rest -> zlen (m :: piece) < 2 ^ 32 ->
  (agrees (take (length (m :: piece)) str) (m :: piece) /\ get_match_length ci str ((m :: piece) ++ rest) = Some (zlen (m :: piece))) \/
  (~ agrees (take (length (m :: piece)) str) (m :: piece) /\ get_match_length ci str ((m :: piece) ++ rest) = Some 0).
Proof.
  intros Hf Hr Hl. unfold get_match_length. rewrite fixed_chr by done. cbn [c3_assert mbind option_bind].
  exact (get_match_length_loop_ok _ 0 str rest Hf Hr ltac:(lia) Hl).
Qed.

(** Matching a fixed piece, and then the rest. *)
Lemma glob_piece piece rest : forall str,
  fixed piece ->
  (glob ci str (piece ++ rest) <-> agrees (take (length piece) str) piece /\ glob ci (drop (length piece) str) rest).
Proof.
  induction piece as [|m piece IH]; intros str Hf; cbn [app length take drop].
  - split; [intros; split; [constructor|done] | tauto].
  - apply Forall_cons in Hf as [[Hm Hn] Hf]. split.
    + inversion 1; subst; [|by unfold ASTERISK in *]. cbn [take drop].
      match goal with H : glob _ _ (_ ++ _) |- _ => apply IH in H as [? ?]; [|done] end.
      split; [by constructor|done].
    + destruct str as [|c str]; intros [Ha Hg]; inversion Ha; subst. cbn [drop] in Hg.
      constructor; [done..|]. apply IH; done.
Qed.

Lemma glob_star_iff str mask : glob ci str (ASTERISK :: mask) <-> exists i, glob ci (drop i str) mask.
Proof.
  split.
  - inversion 1; subst; [done|]. exists (length skipped). by rewrite drop_app_length.
  - intros [i Hg]. rewrite <- (take_drop i str). by constructor.
Qed.

Lemma glob_nil_r str : glob ci str [] <-> str = [].
Proof. split; [by inversion 1 | intros ->; constructor]. Qed.

Lemma skip_asterisks_glob mask str : glob ci str (ASTERISK :: mask) <-> glob ci str (ASTERISK :: skip_asterisks mask).
Proof.
  revert str. induction mask as [|m mask IH]; intros str; [done|]. cbn [skip_asterisks].
  destruct (Z.eqb_spec m ASTERISK) as [->|]; [|done]. rewrite <- IH, !glob_star_iff. split.
  - intros (i & (j & Hg)%glob_star_iff). rewrite drop_drop in Hg. eauto.
  - intros (i & Hg). exists 0%nat. apply glob_star_iff. rewrite drop_0. eauto.
Qed.

Lemma skip_asterisks_fixed mask : cstring mask -> skip_asterisks mask = [] \/
  exists m piece rest, skip_asterisks mask = (m :: piece) ++ rest /\ fixed (m :: piece) /\ piece_end rest.
Proof.
  induction 1 as [|m mask Hm Hc IH]; [by left|]. cbn. destruct (Z.eqb_spec m ASTERISK) as [->|]; [done|].
  right. destruct (mask_split mask Hc) as (piece & rest & -> & Hp & Hr).
  exists m, piece, rest. repeat split; [constructor; auto|done].
Qed.

Lemma skip_asterisks_length mask : (length (skip_asterisks mask) <= length mask)%nat.
Proof. induction mask as [|m mask IH]; cbn; [lia|]. zcase; cbn; lia. Qed.

Lemma skip_asterisks_cstring mask : cstring mask -> cstring (skip_asterisks mask).
Proof. induction 1; cbn; [constructor|]. zcase; [done | by constructor]. Qed.

Lemma drop_cstring n s : cstring s -> cstring (drop n s).
Proof. apply Forall_drop. Qed.

Lemma chr_zero s : cstring s -> (chr s =? 0) = true <-> s = [].
Proof. intros H. destruct s as [|c s]; cbn; [done|]. apply Forall_cons in H as [? _]. rewrite Z.eqb_eq. split; [lia|done]. Qed.

Lemma zlen_nat {A} (l : list A) : Z.to_nat (zlen l) = length l.
Proof. unfold zlen. lia. Qed.

Section Piece.
Variables (m : Z) (piece rest : bytes).
Hypotheses (Hf : fixed (m :: piece)) (Hr : piece_end rest) (Hl : zlen (m :: piece) < 2 ^ 32).
Let p := m :: piece.

(** The search stops at the first position at which the piece agrees. *)
Lemma find_substr_ok str : cstring str -> str <> [] ->
  (exists i, find_substr ci str (p ++ rest) = Some (Some (drop i str, zlen p)) /\ agrees (take (length p) (drop i str)) p /\
     forall j, (j < i)%nat -> ~ agrees (take (length p) (drop j str)) p) \/
  (find_substr ci str (p ++ rest) = Some None /\ forall j, ~ agrees (take (length p) (drop j str)) p).
Proof.
  induction 1 as [|c str Hc Hs IH]; [done|]. intros _. cbn [find_substr].
  destruct (get_match_length_ok m piece (c :: str) rest Hf Hr Hl) as [[Ha Hg]|[Ha Hg]];
    unfold p in *; rewrite Hg; cbn [mbind option_bind].
  - left. exists 0%nat. rewrite (proj2 (Z.eqb_neq _ 0)) by (unfold zlen; cbn; lia). rewrite drop_0. split; [done|]. split; [done|lia].
  - rewrite Z.eqb_refl. destruct (chr str =? 0) eqn:E.
    + apply chr_zero in E as ->; [|done]. right. split; [done|]. intros [|j]; [done|]. cbn [drop]. rewrite drop_nil. inversion 1.
    + destruct IH as [(i & -> & Hi & Hb)|[-> Hb]]; [intros ->; done| |].
      * left. exists (S i). split; [done|]. split; [done|]. intros [|j] Hj; [done|]. apply (Hb j). lia.
      * right. split; [done|]. intros [|j]; [done|apply Hb].
Qed.

Lemma glob_at str i : glob ci (drop i str) (p ++ rest) <->
  agrees (take (length p) (drop i str)) p /\ glob ci (drop (length p) (drop i str)) rest.
Proof. by apply glob_piece. Qed.

(** The loop over positions, given that the recursive calls are right. *)
Lemma match_rest_ok rec str : cstring str ->
  (forall str, cstring str -> exists b, rec str rest = Some b /\ (b = true <-> glob ci str rest)) ->
  exists b, match_rest ci rec str (p ++ rest) = Some b /\ (b = true <-> exists i, glob ci (drop i str) (p ++ rest)).
Proof.
  intros Hs Hrec. induction Hs as [|c str Hc Hs IH].
  - exists false. split; [done|]. split; [done|]. intros [i Hg]. apply glob_at in Hg as [Ha _]. rewrite drop_nil in Ha. inversion Ha.
  - assert (Hcs : cstring (c :: str)) by by constructor. cbn [match_rest].
    destruct (find_substr_ok (c :: str) Hcs ltac:(done)) as [(i & -> & Hi & Hb)|[-> Hb]]; cbn [mbind option_bind].
    + rewrite zlen_nat, drop_app_length.
      destruct (Hrec (drop (length p) (drop i (c :: str)))) as (b & -> & Hiff); [by apply drop_cstring, drop_cstring|].
      cbn [mbind option_bind]. destruct b.
      * exists true. split; [done|]. split; [|done]. intros _. exists i. apply glob_at. tauto.
      * destruct IH as (b & -> & Hb'). exists b. split; [done|]. rewrite Hb'. split.
        -- intros [j Hj]. by exists (S j).
        -- intros [[|j] Hj]; [|by exists j]. apply glob_at in Hj as [Ha Hg]. destruct i as [|i].
           ++ apply Hiff in Hg. done.
           ++ exfalso. apply (Hb 0%nat); [lia|done].
    + exists false. split; [done|]. split; [done|]. intros [j Hg]. apply glob_at in Hg as [Ha _]. by apply (Hb j) in Ha.
Qed.

End Piece.

Lemma iff_result (r : option bool) (P Q : Prop) : (P <-> Q) ->
  (exists b, r = Some b /\ (b = true <-> Q)) -> exists b, r = Some b /\ (b = true <-> P).
Proof. intros H (b & Hb & HQ). exists b. split; [done|]. tauto. Qed.

Lemma matches_fuel_ok fuel : forall str mask, cstring str -> cstring mask -> zlen mask < 2 ^ 32 -> (length mask < fuel)%nat ->
  exists b, matches_fuel fuel ci str mask = Some b /\ (b = true <-> glob ci str mask).
Proof.
  induction fuel as [|fuel IH]; intros str mask Hs Hm Hl Hfuel; [lia|].
  destruct mask as [|m mask]; cbn [matches_fuel].
  - exists (chr str =? 0). split; [done|]. rewrite glob_nil_r. by apply chr_zero.
  - destruct (Z.eqb_spec m ASTERISK) as [->|Hns].
    + apply Forall_cons in Hm as [_ Hm]. pose proof (skip_asterisks_length mask). zlen.
      assert (Hg : glob ci str (ASTERISK :: mask) <-> exists i, glob ci (drop i str) (skip_asterisks mask))
        by by rewrite skip_asterisks_glob, glob_star_iff.
      apply (iff_result _ _ _ Hg). clear Hg.
      destruct (skip_asterisks_fixed mask Hm) as [->|(p & piece & rest & E & Hf & Hr)].
      * exists true. split; [done|]. split; [|done]. intros _. exists (length str). rewrite drop_all. constructor.
      * assert (Hc := skip_asterisks_cstring mask Hm). rewrite E in *. rewrite length_app in *. cbn [length] in *.
        rewrite (proj2 (Z.eqb_neq _ 0)) by (cbn in *; apply Forall_cons in Hf as [? _]; lia).
        apply match_rest_ok; [done..|unfold zlen in *; cbn [length] in *; lia|done|].
        intros str' Hs'. apply IH; [done|by apply Forall_app in Hc as [_ ?]|unfold zlen in *; lia|lia].
    + assert (Hc := Hm). apply Forall_cons in Hm as [Hm0 Hm]. destruct (mask_split mask Hm) as (piece & rest & -> & Hp & Hr).
      assert (Hf : fixed (m :: piece)) by by constructor.
      change (m :: piece ++ rest) with ((m :: piece) ++ rest). apply (iff_result _ _ _ (glob_piece (m :: piece) rest str Hf)).
      destruct (get_match_length_ok m piece str rest Hf Hr) as [[Ha Hg]|[Ha Hg]].
      { unfold zlen in *. cbn [length] in *. rewrite length_app in *. lia. }
      * rewrite Hg. cbn [mbind option_bind]. rewrite (proj2 (Z.eqb_neq _ 0)) by (unfold zlen; cbn; lia). cbn [negb].
        rewrite zlen_nat, drop_app_length.
        destruct (IH (drop (length (m :: piece)) str) rest) as (b & -> & Hb);
          [by apply drop_cstring|by apply Forall_app in Hm as [_ ?]|unfold zlen in *; cbn [length] in *; rewrite length_app in *; lia|cbn [length] in *; rewrite length_app in *; lia|].
        exists b. split; [done|]. tauto.
      * rewrite Hg. exists false. split; [done|]. split; [done|tauto].
Qed.

Lemma matches_mask_ok str mask : cstring str -> cstring mask -> zlen mask < 2 ^ 32 ->
  exists b, matches_mask ci str mask = Some b /\ (b = true <-> glob ci str mask).
Proof. intros. apply matches_fuel_ok; [done..|lia]. Qed.

End Ok.

End StringMatcher.

(** ** Comparison without case *)

Lemma c3_matches_ok s1 : forall s2, cstring s1 -> cstring s2 ->
  c3_matches s1 s2 = Some (bool_decide (map tolower s1 = map tolower s2)).
Proof.
  induction s1 as [|c s1 IH]; intros [|d s2] H1 H2; cbn [c3_matches chr hd next_chr mbind option_bind map].
  - done.
  - apply Forall_cons in H2 as [H2 _]. pose proof (StringMatcher.tolower_pos d H2).
    rewrite (proj2 (Z.eqb_neq _ _)); [done|]. cbn; lia.
  - apply Forall_cons in H1 as [H1 _]. pose proof (StringMatcher.tolower_pos c H1).
    rewrite (proj2 (Z.eqb_neq _ _)); [done|]. cbn; lia.
  - apply Forall_cons in H1 as [_ H1], H2 as [_ H2].
    destruct (Z.eqb_spec (tolower c) (tolower d)) as [E|E]; cbn [negb].
    + rewrite IH by done. f_equal. apply bool_decide_ext. rewrite E. split; [by intros -> | by intros [= ->]].
    + f_equal. symmetry. apply bool_decide_eq_false. by intros [= ?].
Qed.
