(* ===== verification/ParserTokens.v ===== *)
(** * Values of configuration options

    [parser_token_t], an argument of a configuration statement, with the methods that read
    numbers, sizes, durations and flags from its text, and the methods of [Parser] that
    print sizes and durations ([c3_parser.*]), with the conversions of units ([c3_memory.h],
    [c3_timer.h]) and the functions of the C library they use: [strtoll] and [strtoull] with
    base 0, and [snprintf] with one number and a string.

    A token points into the parser's buffer, so its methods take the contents of that buffer;
    a pointer is an offset. [None] is a failed assertion or a read outside of the
    buffer; [Some None] is the result [false], which leaves the output arguments alone. *)

From S2P Require Import Prelude Memory CStrings.

(** ** The C library *)

(** The characters from a pointer to the terminator. *)
Fixpoint c_str (mem : bytes) : option bytes :=
  match mem with
  | [] => None
  | c :: mem => if c =? 0 then Some [] else s ← c_str mem; Some (c :: s)
  end.

Definition isspace (c : Z) : bool := (c =? 32) || ((9 <=? c) && (c <=? 13)).

(** The value of a digit in bases up to 36. *)
Definition digit_value (c : Z) : option Z :=
  if (48 <=? c) && (c <=? 57) then Some (c - 48)
  else if (97 <=? c) && (c <=? 122) then Some (c - 97 + 10)
  else if (65 <=? c) && (c <=? 90) then Some (c - 65 + 10)
  else None.

Definition is_digit (base c : Z) : bool :=
  match digit_value c with Some d => d <? base | None => false end.

(** The number at the head of a string, and how many digits it has. *)
Fixpoint scan_digits (base acc n : Z) (s : bytes) : Z * Z :=
  match s with
  | [] => (acc, n)
  | c :: s =>
      match digit_value c with
      | Some d => if d <? base then scan_digits base (acc * base + d) (n + 1) s else (acc, n)
      | None => (acc, n)
      end
  end.

Fixpoint skip_spaces (s : bytes) : bytes :=
  match s with
  | [] => []
  | c :: s' => if isspace c then skip_spaces s' else s
  end.

(** An optional sign. *)
Definition scan_sign (s : bytes) : bool * bytes :=
  match s with
  | c :: s' => if c =? 45 then (true, s') else if c =? 43 then (false, s') else (false, s)
  | [] => (false, s)
  end.

(** With base 0, the number's prefix tells its base. *)
Definition scan_base (s : bytes) : Z * bytes :=
  match s with
  | c :: s' =>
      if c =? 48 then
        match s' with
        | x :: ((h :: _) as digits) =>
            if ((x =? 120) || (x =? 88)) && is_digit 16 h then (16, digits) else (8, s)
        | _ => (8, s)
        end
      else (10, s)
  | [] => (10, s)
  end.

(** Sign, magnitude and the number of characters consumed. *)
Definition scan_number (str : bytes) : bool * Z * Z :=
  let (negative, s) := scan_sign (skip_spaces str) in
  let (base, digits) := scan_base s in
  let (value, n) := scan_digits base 0 0 digits in
  if n =? 0 then (false, 0, 0) else (negative, value, zlen str - zlen digits + n).

Definition strtoll (str : bytes) : Z * Z :=
  let '(negative, value, n) := scan_number str in
  (if negative then Z.max (- 2 ^ 63) (- value) else Z.min (2 ^ 63 - 1) value, n).

Definition strtoull (str : bytes) : Z * Z :=
  let '(negative, value, n) := scan_number str in
  (if value <=? 2 ^ 64 - 1 then (if negative then u64 (- value) else value) else 2 ^ 64 - 1, n).

(** Decimal digits, of numbers of at most 20 of them. *)
Fixpoint decimal_fuel (fuel : nat) (z : Z) : bytes :=
  match fuel with
  | O => []
  | S fuel => (if z <? 10 then [] else decimal_fuel fuel (z / 10)) ++ [48 + z mod 10]
  end.

Definition decimal (z : Z) : bytes := decimal_fuel 20 z.

(** [snprintf]: what it stores, at most [length] characters with the terminator, and the
    length of the text it would have liked to store. *)
Definition snprintf (length : Z) (text : bytes) : bytes * Z :=
  (if length =? 0 then [] else take (Z.to_nat (length - 1)) text ++ [0], zlen text).

(** ** Units *)

Definition terabytes2bytes (num : Z) : Z := u64 (gigabytes2bytes 1024 * num).

Definition minutes2seconds (minutes : Z) : Z := u32 (60 * minutes).
Definition hours2seconds (hours : Z) : Z := u32 (minutes2seconds 60 * hours).
Definition days2seconds (days : Z) : Z := u32 (hours2seconds 24 * days).
Definition weeks2seconds (weeks : Z) : Z := u32 (days2seconds 7 * weeks).

(** ** [parser_token_t] *)

Record parser_token_t := {
  pt_data : option Z; (* offset in [pr_tokens] *)
  pt_length : Z;
}.

#[global] Instance parser_token_eq_dec : EqDecision parser_token_t.
Proof. solve_decision. Defined.

Section Getters.
Variable tokens : bytes.

(** The memory from [pt_data] on. *)
Definition token_mem (t : parser_token_t) : option bytes :=
  off ← pt_data t;
  if (0 <=? off) && (off <=? zlen tokens) then Some (drop (Z.to_nat off) tokens) else None.

(** [c3_assert(pt_data && pt_length)]. *)
Definition token_assert (t : parser_token_t) : option unit :=
  c3_assert (bool_decide (is_Some (pt_data t)) && negb (pt_length t =? 0)).

Definition token_is (t : parser_token_t) (str : bytes) : option bool :=
  mem ← token_mem t;
  s ← c_str mem;
  c3_matches s str.

Definition get_long (t : parser_token_t) : option (option Z) :=
  _ ← token_assert t;
  mem ← token_mem t;
  s ← c_str mem;
  let (n, actual_end) := strtoll s in
  Some (if actual_end =? pt_length t then Some n else None).

(** [get_ulong], with or without the output argument for a suffix. *)
Definition get_ulong (t : parser_token_t) (suffux : bool) : option (option (Z * Z)) :=
  _ ← token_assert t;
  mem ← token_mem t;
  let data_end := pt_length t in
  let suffix_pos := if suffux then data_end - 1 else data_end in
  s ← c_str mem;
  let (n, actual_end) := strtoull s in
  if suffix_pos <=? actual_end then
    suffix ← (if suffux && (actual_end <? data_end) then byte_at mem suffix_pos else Some 0);
    Some (Some (n, suffix))
  else Some None.

Definition get_int (t : parser_token_t) : option (option Z) :=
  r ← get_long t;
  Some (n ← r; if (- 2 ^ 31 <=? n) && (n <=? 2 ^ 31 - 1) then Some n else None).

Definition get_uint (t : parser_token_t) (suffux : bool) : option (option (Z * Z)) :=
  r ← get_ulong t suffux;
  Some ('(n, suffix) ← r; if n <=? 2 ^ 32 - 1 then Some (n, suffix) else None).

(** The [switch] of [get_size]: [0 b B k K m M g G t T]. *)
Definition size_of_suffix (size suffix : Z) : option Z :=
  if (suffix =? 0) || (suffix =? 98) || (suffix =? 66) then Some size
  else if (suffix =? 107) || (suffix =? 75) then Some (kilobytes2bytes size)
  else if (suffix =? 109) || (suffix =? 77) then Some (megabytes2bytes size)
  else if (suffix =? 103) || (suffix =? 71) then Some (gigabytes2bytes size)
  else if (suffix =? 116) || (suffix =? 84) then Some (terabytes2bytes size)
  else None.

Definition get_size (t : parser_token_t) : option (option Z) :=
  r ← get_ulong t true;
  Some ('(size, suffix) ← r; size_of_suffix size suffix).

(** The [switch] of [get_duration]: [0 s S m M h H d D w W]. *)
Definition duration_of_suffix (duration suffix : Z) : option Z :=
  if (suffix =? 0) || (suffix =? 115) || (suffix =? 83) then Some duration
  else if (suffix =? 109) || (suffix =? 77) then Some (minutes2seconds duration)
  else if (suffix =? 104) || (suffix =? 72) then Some (hours2seconds duration)
  else if (suffix =? 100) || (suffix =? 68) then Some (days2seconds duration)
  else if (suffix =? 119) || (suffix =? 87) then Some (weeks2seconds duration)
  else None.

Definition get_duration (t : parser_token_t) : option (option Z) :=
  r ← get_uint t true;
  Some ('(duration, suffix) ← r; duration_of_suffix duration suffix).

(** [true yes on] and [false no off]. *)
Definition get_boolean (t : parser_token_t) : option (option bool) :=
  _ ← token_assert t;
  b1 ← token_is t [116; 114; 117; 101];
  if (b1 : bool) then Some (Some true) else
  b2 ← token_is t [121; 101; 115];
  if (b2 : bool) then Some (Some true) else
  b3 ← token_is t [111; 110];
  if (b3 : bool) then Some (Some true) else
  b4 ← token_is t [102; 97; 108; 115; 101];
  if (b4 : bool) then Some (Some false) else
  b5 ← token_is t [110; 111];
  if (b5 : bool) then Some (Some false) else
  b6 ← token_is t [111; 102; 102];
  if (b6 : bool) then Some (Some false) else Some None.

End Getters.

(** ** Printing *)

(** One level of the nested conditions: whether the next larger unit divides the number. *)
Definition divides (n unit : Z) : bool := (unit <=? n) && (n mod unit =? 0).

Definition duration_suffix (duration : Z) : Z * Z :=
  if divides duration 60 then
    let duration := duration / 60 in
    if divides duration 60 then
      let duration := duration / 60 in
      if divides duration 24 then
        let duration := duration / 24 in
        if divides duration 7 then (duration / 7, 119)
        else (duration, 100)
      else (duration, 104)
    else (duration, 109)
  else (duration, 115).

Definition print_duration (length duration : Z) : bytes * Z :=
  let (duration, suffix) := duration_suffix duration in
  snprintf length (decimal duration ++ [suffix]).

Definition size_suffix (size : Z) : Z * Z :=
  if divides size 1024 then
    let size := size / 1024 in
    if divides size 1024 then
      let size := size / 1024 in
      if divides size 1024 then
        let size := size / 1024 in
        if divides size 1024 then (size / 1024, 116)
        else (size, 103)
      else (size, 109)
    else (size, 107)
  else (size, 98).

Definition print_size (length size : Z) : bytes * Z :=
  let (size, suffix) := size_suffix size in
  snprintf length (decimal size ++ [suffix]).

(** ** Scanning what was printed *)

Lemma digit_value_decimal d : 0 <= d < 10 -> digit_value (48 + d) = Some d.
Proof. intros H. unfold digit_value. zcase; [f_equal; lia|]. destruct (48 <=? _) eqn:?, (_ <=? 57) eqn:?; zbool; try done; lia. Qed.

(** Digits of a number, most significant first. *)
Definition digits_ok (l : bytes) : Prop := Forall (fun c => 48 <= c < 58) l.

Definition digits_val (acc : Z) (l : bytes) : Z := foldl (fun acc c => acc * 10 + (c - 48)) acc l.

Lemma decimal_fuel_ok fuel : forall z, 0 <= z < 10 ^ Z.of_nat fuel ->
  digits_ok (decimal_fuel fuel z) /\ digits_val 0 (decimal_fuel fuel z) = z /\ zlen (decimal_fuel fuel z) <= Z.of_nat fuel.
Proof.
  induction fuel as [|fuel IH]; intros z Hz; cbn [decimal_fuel].
  { change (10 ^ Z.of_nat 0) with 1 in Hz. split_and!; [apply Forall_nil_2|cbn; lia|unfold zlen; cbn; lia]. }
  pose proof (Z.mod_pos_bound z 10 ltac:(lia)). rewrite Nat2Z.inj_succ, Z.pow_succ_r in Hz by lia.
  unfold digits_ok, digits_val in *. zlen. rewrite Forall_app, Forall_singleton, foldl_app. cbn [foldl].
  destruct (Z.ltb_spec z 10) as [Hs|Hs].
  - rewrite Z.mod_small by lia. unfold zlen. cbn. split_and!; (lia || apply Forall_nil_2).
  - destruct (IH (z / 10)) as (Hd & Hv & Hl).
    { split; [apply Z.div_pos; lia|]. apply Z.div_lt_upper_bound; lia. }
    pose proof (Z.div_mod z 10). rewrite Hv. split_and!; (lia || done).
Qed.

Lemma u64_digits z : is_u64 z -> 0 <= z < 10 ^ Z.of_nat 20.
Proof. unfold is_u64. intros. change (10 ^ Z.of_nat 20) with 100000000000000000000. lia. Qed.

Lemma u32_u64 z : is_u32 z -> is_u64 z.
Proof. unfold is_u32, is_u64. lia. Qed.

(** The first digit is not a zero, unless it is the only one. *)
Lemma decimal_fuel_head fuel : forall z, 0 < z < 10 ^ Z.of_nat fuel ->
  exists c l, decimal_fuel fuel z = c :: l /\ 48 < c < 58.
Proof.
  induction fuel as [|fuel IH]; intros z Hz; [change (10 ^ Z.of_nat 0) with 1 in Hz; lia|]. cbn [decimal_fuel].
  rewrite Nat2Z.inj_succ, Z.pow_succ_r in Hz by lia.
  destruct (Z.ltb_spec z 10) as [Hs|Hs].
  - exists (48 + z mod 10), []. rewrite Z.mod_small by lia. split; [done|lia].
  - destruct (IH (z / 10)) as (c & l & -> & Hc); [|eexists _, _; done].
    split; [apply Z.div_str_pos; lia|]. apply Z.div_lt_upper_bound; lia.
Qed.

Lemma scan_digits_app l : forall acc n rest, digits_ok l ->
  scan_digits 10 acc n (l ++ rest) = scan_digits 10 (digits_val acc l) (n + zlen l) rest.
Proof.
  induction l as [|c l IH]; intros acc n rest Hl; cbn [app scan_digits].
  - unfold zlen. cbn. by rewrite Z.add_0_r.
  - apply Forall_cons in Hl as [Hc Hl]. pose proof (digit_value_decimal (c - 48) ltac:(lia)) as E.
    replace (48 + (c - 48)) with c in E by lia. rewrite E, (proj2 (Z.ltb_lt _ _)) by lia.
    rewrite IH by done. cbn [digits_val foldl]. f_equal. zlen.
Qed.

(** A letter ends a number. *)
Definition letter (c : Z) : Prop := 97 <= c <= 122.

Lemma scan_digits_letter base acc n c : base <= 10 -> letter c -> scan_digits base acc n [c] = (acc, n).
Proof.
  unfold letter. intros Hb Hc. cbn. unfold digit_value.
  destruct (48 <=? c) eqn:?, (c <=? 57) eqn:?, (97 <=? c) eqn:?, (c <=? 122) eqn:?; zbool; try lia;
    cbn; rewrite (proj2 (Z.ltb_ge _ _)); [done|lia].
Qed.

Lemma scan_number_decimal z c : is_u64 z -> letter c -> scan_number (decimal z ++ [c]) = (false, z, zlen (decimal z)).
Proof.
  intros Hz Hc. destruct (decide (z = 0)) as [->|Hnz].
  - unfold scan_number. change (scan_sign (skip_spaces (decimal 0 ++ [c]))) with (false, [48; c]). cbv beta iota.
    change (scan_base [48; c]) with (8, [48; c]). cbv beta iota.
    change (scan_digits 8 0 0 [48; c]) with (scan_digits 8 0 1 [c]). by rewrite scan_digits_letter.
  - pose proof (u64_digits z Hz) as Hb. destruct (decimal_fuel_head 20 z ltac:(lia)) as (d & l & El & Hd).
    destruct (decimal_fuel_ok 20 z Hb) as (Hok & Hv & _). fold (decimal z) in *.
    assert (Es : skip_spaces (decimal z ++ [c]) = decimal z ++ [c]).
    { rewrite El. cbn. unfold isspace. rewrite (proj2 (Z.eqb_neq _ _)), (proj2 (Z.leb_gt d 13)), andb_false_r; [done|lia..]. }
    unfold scan_number. rewrite Es.
    assert (Eg : scan_sign (decimal z ++ [c]) = (false, decimal z ++ [c])).
    { rewrite El. cbn. rewrite (proj2 (Z.eqb_neq d 45)), (proj2 (Z.eqb_neq d 43)); [done|lia..]. }
    rewrite Eg.
    assert (Eb : scan_base (decimal z ++ [c]) = (10, decimal z ++ [c])).
    { rewrite El. cbn. rewrite (proj2 (Z.eqb_neq d 48)); [done|lia]. }
    rewrite Eb, scan_digits_app, Hv, scan_digits_letter by (done || lia).
    assert (0 < zlen (decimal z)) by (rewrite El; unfold zlen; cbn [length]; lia).
    rewrite (proj2 (Z.eqb_neq _ 0)) by lia. f_equal. lia.
Qed.

Lemma c_str_app s rest : Forall (fun c => c <> 0) s -> c_str (s ++ 0 :: rest) = Some s.
Proof.
  induction 1 as [|c s Hc Hs IH]; cbn [app c_str]; [done|]. rewrite (proj2 (Z.eqb_neq c 0)) by done. rewrite IH. done.
Qed.

Lemma decimal_letter_nonzero z c : is_u64 z -> letter c -> Forall (fun c => c <> 0) (decimal z ++ [c]).
Proof.
  intros Hz Hc. destruct (decimal_fuel_ok 20 z (u64_digits z Hz)) as (Hok & _ & _).
  apply Forall_app. split; [|constructor; [unfold letter in Hc; lia|constructor]].
  eapply Forall_impl; [exact Hok|]. cbn. lia.
Qed.

(** A number with a suffix, somewhere in the buffer. *)
Definition at_token (before text after : bytes) : bytes * parser_token_t :=
  (before ++ text ++ 0 :: after, {| pt_data := Some (zlen before); pt_length := zlen text |}).

Lemma token_mem_at before text after :
  token_mem (before ++ text ++ 0 :: after) {| pt_data := Some (zlen before); pt_length := zlen text |} = Some (text ++ 0 :: after).
Proof.
  unfold token_mem. cbn [pt_data mbind option_bind]. pose proof (zlen_nonneg before). pose proof (zlen_nonneg text).
  pose proof (zlen_nonneg after). rewrite (proj2 (Z.leb_le _ _)), (proj2 (Z.leb_le _ _)) by zlen. cbn.
  by rewrite zlen_to_nat, drop_app_length.
Qed.

Lemma get_ulong_decimal before after z c : is_u64 z -> letter c ->
  let (tokens, t) := at_token before (decimal z ++ [c]) after in get_ulong tokens t true = Some (Some (z, c)).
Proof.
  intros Hz Hc. unfold at_token, get_ulong, token_assert. rewrite token_mem_at. cbn [pt_data pt_length].
  pose proof (zlen_nonneg (decimal z)).
  assert (El : zlen (decimal z ++ [c]) = zlen (decimal z) + 1) by (zlen; unfold zlen; cbn; lia). rewrite El.
  rewrite (bool_decide_eq_true_2 (is_Some _)) by done. rewrite (proj2 (Z.eqb_neq (zlen (decimal z) + 1) 0)) by lia.
  cbn [c3_assert andb negb mbind option_bind].
  rewrite c_str_app by by apply decimal_letter_nonzero. cbn [mbind option_bind].
  unfold strtoull. rewrite scan_number_decimal by done. unfold is_u64 in Hz.
  rewrite (proj2 (Z.leb_le z _)), (proj2 (Z.leb_le _ (zlen (decimal z)))), (proj2 (Z.ltb_lt (zlen (decimal z)) _)) by lia.
  cbn [andb]. replace (zlen (decimal z) + 1 - 1) with (zlen (decimal z)) by lia.
  rewrite <- (app_assoc (decimal z)). cbn [app]. rewrite byte_at_app_mid. done.
Qed.

Lemma get_size_decimal before after z c : is_u64 z -> letter c ->
  let (tokens, t) := at_token before (decimal z ++ [c]) after in get_size tokens t = Some (size_of_suffix z c).
Proof.
  intros Hz Hc. pose proof (get_ulong_decimal before after z c Hz Hc) as E. unfold at_token, get_size in *. by rewrite E.
Qed.

Lemma get_duration_decimal before after z c : is_u32 z -> letter c ->
  let (tokens, t) := at_token before (decimal z ++ [c]) after in get_duration tokens t = Some (duration_of_suffix z c).
Proof.
  intros Hz Hc. pose proof (get_ulong_decimal before after z c (u32_u64 _ Hz) Hc) as E.
  unfold at_token, get_duration, get_uint in *. rewrite E. cbn [mbind option_bind]. unfold is_u32 in Hz.
  rewrite (proj2 (Z.leb_le _ _)) by lia. done.
Qed.

(** ** Units taken apart and put together *)

Lemma divides_exact n unit : divides n unit = true -> 0 < unit -> n = unit * (n / unit) /\ 0 < n / unit.
Proof.
  unfold divides. intros [H1 H2]%andb_true_iff Hu. zbool. pose proof (Z.div_mod n unit). split; [lia|].
  apply Z.div_str_pos. lia.
Qed.

(** The factors are constants. *)
Lemma size_units n :
  megabytes2bytes n = u64 (1048576 * n) /\ gigabytes2bytes n = u64 (1073741824 * n) /\ terabytes2bytes n = u64 (1099511627776 * n).
Proof. done. Qed.

Lemma duration_units n :
  hours2seconds n = u32 (3600 * n) /\ days2seconds n = u32 (86400 * n) /\ weeks2seconds n = u32 (604800 * n).
Proof. done. Qed.

Ltac unit_cases :=
  repeat match goal with
  | |- context [divides ?n ?u] =>
      let E := fresh "E" in destruct (divides n u) eqn:E; [apply divides_exact in E as [? ?]; [|lia] |]
  end.

Lemma size_suffix_ok size : is_u64 size ->
  let (n, c) := size_suffix size in is_u64 n /\ letter c /\ size_of_suffix n c = Some size.
Proof.
  intros Hs. unfold size_suffix, is_u64, letter in *. cbv zeta. unit_cases; split_and!; try lia;
    cbn [size_of_suffix Z.eqb Pos.eqb orb]; rewrite ?(proj1 (size_units _)), ?(proj1 (proj2 (size_units _))), ?(proj2 (proj2 (size_units _)));
    unfold kilobytes2bytes; rewrite ?u64_small; unfold is_u64; f_equal; lia.
Qed.

Lemma duration_suffix_ok duration : is_u32 duration ->
  let (n, c) := duration_suffix duration in is_u32 n /\ letter c /\ duration_of_suffix n c = Some duration.
Proof.
  intros Hs. unfold duration_suffix, is_u32, letter in *. cbv zeta. unit_cases; split_and!; try lia;
    cbn [duration_of_suffix Z.eqb Pos.eqb orb]; rewrite ?(proj1 (duration_units _)), ?(proj1 (proj2 (duration_units _))), ?(proj2 (proj2 (duration_units _)));
    unfold minutes2seconds; rewrite ?u32_small; unfold is_u32; f_equal; lia.
Qed.

Lemma snprintf_fits length text : zlen text < length -> snprintf length text = (text ++ [0], zlen text).
Proof.
  intros H. unfold snprintf. pose proof (zlen_nonneg text). rewrite (proj2 (Z.eqb_neq _ _)) by lia.
  rewrite take_ge; [done|]. unfold zlen in H. lia.
Qed.

Lemma decimal_suffix_length z c : is_u64 z -> zlen (decimal z ++ [c]) <= 21.
Proof.
  intros Hz. destruct (decimal_fuel_ok 20 z (u64_digits z Hz)) as (_ & _ & Hl). fold (decimal z) in Hl.
  zlen.
Qed.
