(* ===== verification/Parser.v ===== *)
(** * The configuration parser

    The class [Parser] ([c3_parser.*]): it cuts a configuration file, or the text of a
    [SET] command, into statements, and calls the handler of the command that each of them
    names. This file is the model; its proofs are in [ParserSafe] and [ParserGrammar].

    The state is a record with the fields of the class. [pr_tokens] and [pr_args] are arrays;
    a pointer to a token is an offset in the former. [pr_buffer] and [pr_size] are a list and
    its length. What is logged is kept in a list, with the line numbers. Handlers are functions
    of the parser, whose tokens they read, and of a state of their own.

    Loops take fuel. That of the loops within a statement is fixed, and more than enough for
    any text; that of the loops over arguments to be ignored and over statements is an argument of
    [parse], because one of them may never end. [Timeout] is lack of fuel, [Ub] an
    assertion that fails or an access outside of an array. *)

From S2P Require Import Prelude CStrings ParserTokens.

(** ** Outcomes *)

Inductive outcome (A : Type) : Type :=
| Ret (a : A)
| Ub
| Timeout.
Arguments Ret {A} a.
Arguments Ub {A}.
Arguments Timeout {A}.

#[global] Instance outcome_bind : MBind outcome := fun A B f m =>
  match m with Ret a => f a | Ub => Ub | Timeout => Timeout end.

#[global] Instance outcome_ret : MRet outcome := fun A a => Ret a.

Definition of_option {A} (o : option A) : outcome A :=
  match o with Some a => Ret a | None => Ub end.

(** ** Data *)

Definition PARSER_MAX_ARGS : Z := 16.
Definition PARSER_TOTAL_ARGS_SIZE : Z := 4096.

(** Characters. *)
Definition TAB : Z := 9.
Definition LF : Z := 10.
Definition VT : Z := 11.
Definition CR : Z := 13.
Definition SPACE : Z := 32.
Definition QUOTE2 : Z := 34.
Definition HASH : Z := 35.
Definition QUOTE1 : Z := 39.
Definition BACKSLASH : Z := 92.
Definition BACKTICK : Z := 96.

(** What the parser reports. *)
Inductive message :=
| BackslashOutside
| StatementTooLong
| IllFormedEscape (esc esc2 : Z)
| IncompleteEscape (esc : Z)
| InvalidEscape (esc : Z)
| TrailingBackslash
| MissingClosingQuote (delimiter : Z)
| TooManyArguments
| UnknownStatement (name : bytes)
| CouldNotSet (name : bytes).

Record Parser := {
  pr_tokens : bytes;
  pr_args : list parser_token_t;
  pr_file_path : option bytes;
  pr_buffer : bytes; (* and [pr_size], its length *)
  pr_pos : Z;
  pr_line : Z;
  pr_tokpos : Z;
  pr_nargs : Z;
  pr_last_command : option bytes; (* [None]: [LAST_EXECUTED_COMMAND_PLACEHOLDER] *)
  pr_nesting_level : Z;
  pr_interactive : bool;
  pr_log : list (Z * message);
}.

Section Setters.
Variable p : Parser.

Definition set_input (buffer : bytes) (interactive : bool) : Parser :=
  {| pr_tokens := pr_tokens p; pr_args := pr_args p; pr_file_path := pr_file_path p; pr_buffer := buffer; pr_pos := 0;
     pr_line := 1; pr_tokpos := pr_tokpos p; pr_nargs := pr_nargs p; pr_last_command := pr_last_command p;
     pr_nesting_level := pr_nesting_level p; pr_interactive := interactive; pr_log := pr_log p |}.

Definition clear_buffer (buffer : bytes) : Parser :=
  {| pr_tokens := pr_tokens p; pr_args := pr_args p; pr_file_path := pr_file_path p; pr_buffer := buffer; pr_pos := pr_pos p;
     pr_line := pr_line p; pr_tokpos := pr_tokpos p; pr_nargs := pr_nargs p; pr_last_command := pr_last_command p;
     pr_nesting_level := pr_nesting_level p; pr_interactive := pr_interactive p; pr_log := pr_log p |}.

Definition set_file_path (path : option bytes) : Parser :=
  {| pr_tokens := pr_tokens p; pr_args := pr_args p; pr_file_path := path; pr_buffer := pr_buffer p; pr_pos := pr_pos p;
     pr_line := pr_line p; pr_tokpos := pr_tokpos p; pr_nargs := pr_nargs p; pr_last_command := pr_last_command p;
     pr_nesting_level := pr_nesting_level p; pr_interactive := pr_interactive p; pr_log := pr_log p |}.

Definition set_pos (pos line : Z) : Parser :=
  {| pr_tokens := pr_tokens p; pr_args := pr_args p; pr_file_path := pr_file_path p; pr_buffer := pr_buffer p; pr_pos := pos;
     pr_line := line; pr_tokpos := pr_tokpos p; pr_nargs := pr_nargs p; pr_last_command := pr_last_command p;
     pr_nesting_level := pr_nesting_level p; pr_interactive := pr_interactive p; pr_log := pr_log p |}.

Definition set_tokens (tokens : bytes) (tokpos : Z) : Parser :=
  {| pr_tokens := tokens; pr_args := pr_args p; pr_file_path := pr_file_path p; pr_buffer := pr_buffer p; pr_pos := pr_pos p;
     pr_line := pr_line p; pr_tokpos := tokpos; pr_nargs := pr_nargs p; pr_last_command := pr_last_command p;
     pr_nesting_level := pr_nesting_level p; pr_interactive := pr_interactive p; pr_log := pr_log p |}.

Definition set_args (args : list parser_token_t) (nargs : Z) : Parser :=
  {| pr_tokens := pr_tokens p; pr_args := args; pr_file_path := pr_file_path p; pr_buffer := pr_buffer p; pr_pos := pr_pos p;
     pr_line := pr_line p; pr_tokpos := pr_tokpos p; pr_nargs := nargs; pr_last_command := pr_last_command p;
     pr_nesting_level := pr_nesting_level p; pr_interactive := pr_interactive p; pr_log := pr_log p |}.

Definition set_last_command (name : bytes) : Parser :=
  {| pr_tokens := pr_tokens p; pr_args := pr_args p; pr_file_path := pr_file_path p; pr_buffer := pr_buffer p; pr_pos := pr_pos p;
     pr_line := pr_line p; pr_tokpos := pr_tokpos p; pr_nargs := pr_nargs p; pr_last_command := Some name;
     pr_nesting_level := pr_nesting_level p; pr_interactive := pr_interactive p; pr_log := pr_log p |}.

(** [log_status]: the message, with the current line. *)
Definition log_status (m : message) : Parser :=
  {| pr_tokens := pr_tokens p; pr_args := pr_args p; pr_file_path := pr_file_path p; pr_buffer := pr_buffer p; pr_pos := pr_pos p;
     pr_line := pr_line p; pr_tokpos := pr_tokpos p; pr_nargs := pr_nargs p; pr_last_command := pr_last_command p;
     pr_nesting_level := pr_nesting_level p; pr_interactive := pr_interactive p; pr_log := pr_log p ++ [(pr_line p, m)] |}.

(** [log_command_status], which also shows the command, and asserts that there is one. *)
Definition log_command_status (m : message) : outcome Parser :=
  if negb (pr_nargs p =? 0) && bool_decide (is_Some (a ← pr_args p !! 0%nat; pt_data a))
  then Ret (log_status m) else Ub.

(** The character at [pr_pos] plus [i], if that is less than [pr_size]. *)
Definition peek (i : Z) : option Z := byte_at (pr_buffer p) (pr_pos p + i).

(** [pr_pos++], and the same with [pr_line++]. *)
Definition advance_pos : Parser := set_pos (pr_pos p + 1) (pr_line p).
Definition new_line : Parser := set_pos (pr_pos p) (u32 (pr_line p + 1)).

(** [pr_tokens[pr_tokpos++] = c]. *)
Definition put_char (c : Z) : outcome Parser :=
  tokens ← of_option (blit (pr_tokens p) (pr_tokpos p) [c]);
  Ret (set_tokens tokens (u32 (pr_tokpos p + 1))).

End Setters.

(** The constructor; the arrays start with whatever is in memory. *)
Definition parser_new (tokens : bytes) (args : list parser_token_t) (level : Z) : Parser :=
  {| pr_tokens := tokens; pr_args := args; pr_file_path := None; pr_buffer := []; pr_pos := 0;
     pr_line := 0; pr_tokpos := 0; pr_nargs := 0; pr_last_command := None; pr_nesting_level := level;
     pr_interactive := false; pr_log := [] |}.

(** ** White space *)

Definition is_blank (c : Z) : bool := (c =? SPACE) || (c =? TAB) || (c =? VT).
Definition is_newline (c : Z) : bool := (c =? LF) || (c =? CR).

(** The character at a position is the given one. *)
Definition peek_is (p : Parser) (i c : Z) : bool :=
  match peek p i with Some c' => c' =? c | None => false end.

(** The [do] loop that skips a comment. *)
Fixpoint skip_comment (fuel : nat) (p : Parser) : outcome Parser :=
  match fuel with
  | O => Timeout
  | S fuel =>
      let p := advance_pos p in
      match peek p 0 with
      | Some c => if is_newline c then Ret p else skip_comment fuel p
      | None => Ret p
      end
  end.

Fixpoint skip_ws_loop (fuel : nat) (p : Parser) : outcome (Parser * bool) :=
  match fuel with
  | O => Timeout
  | S fuel =>
      match peek p 0 with
      | None => Ret (p, false)
      | Some c =>
          if c =? CR then
            let p := if peek_is p 1 LF then advance_pos p else p in
            skip_ws_loop fuel (advance_pos (new_line p))
          else if c =? LF then skip_ws_loop fuel (advance_pos (new_line p))
          else if is_blank c then skip_ws_loop fuel (advance_pos p)
          else if c =? HASH then
            p ← skip_comment (S (length (pr_buffer p))) p;
            skip_ws_loop fuel p
          else Ret (p, true)
      end
  end.

Definition skip_ws (p : Parser) : outcome (Parser * bool) := skip_ws_loop (S (length (pr_buffer p))) p.

(** What follows a backslash outside of a token: the position moves to the last character of
    a line break. *)
Definition skip_continuation (p : Parser) : Parser :=
  if peek_is p 1 CR then
    let p := advance_pos p in
    new_line (if peek_is p 1 LF then advance_pos p else p)
  else if peek_is p 1 LF then new_line (advance_pos p)
  else log_status p BackslashOutside.

Fixpoint skip_line_ws_loop (fuel : nat) (p : Parser) : outcome (Parser * bool) :=
  match fuel with
  | O => Timeout
  | S fuel =>
      match peek p 0 with
      | None => Ret (p, false)
      | Some c =>
          if c =? BACKSLASH then skip_line_ws_loop fuel (advance_pos (skip_continuation p))
          else if is_blank c then skip_line_ws_loop fuel (advance_pos p)
          else if is_newline c || (c =? HASH) then Ret (p, false)
          else Ret (p, true)
      end
  end.

Definition skip_line_ws (p : Parser) : outcome (Parser * bool) := skip_line_ws_loop (S (length (pr_buffer p))) p.

(** ** Tokens *)

Definition is_valid_xdigit (c : Z) : bool :=
  ((65 <=? c) && (c <=? 70)) || ((97 <=? c) && (c <=? 102)) || ((48 <=? c) && (c <=? 57)).

Definition xdigit_value (c : Z) : Z :=
  if (65 <=? c) && (c <=? 70) then c - 65 + 10
  else if (97 <=? c) && (c <=? 102) then c - 97 + 10
  else c - 48.

Definition is_quote (c : Z) : bool := (c =? QUOTE1) || (c =? QUOTE2) || (c =? BACKTICK).

(** The [switch] on the character after a backslash, less the line breaks: [inl] the character
    it stands for, and whether it takes two characters; or [inr] the error. *)
Definition get_escape (p : Parser) (esc : Z) : (Z * bool) + message :=
  if esc =? 114 then inl (CR, false)
  else if esc =? 110 then inl (LF, false)
  else if esc =? 116 then inl (TAB, false)
  else if (esc =? BACKSLASH) || is_quote esc then inl (esc, false)
  else if is_valid_xdigit esc then
    match peek p 1 with
    | Some esc2 =>
        if is_valid_xdigit esc2 then inl (u8 (Z.shiftl (xdigit_value esc) 4 + xdigit_value esc2), true)
        else inr (IllFormedEscape esc esc2)
    | None => inr (IncompleteEscape esc)
    end
  else inr (InvalidEscape esc).

(** The loop of [get_token]; [c] is the last character it looked at. [None] is an error, upon
    which [get_token] returns [nullptr]. *)
Fixpoint get_token_loop (fuel : nat) (delimiter : Z) (p : Parser) (c : Z) : outcome (Parser * option Z) :=
  match fuel with
  | O => Timeout
  | S fuel =>
      match peek p 0 with
      | None => Ret (p, Some c)
      | Some c =>
          if PARSER_TOTAL_ARGS_SIZE <=? pr_tokpos p then Ret (log_status p StatementTooLong, None)
          else if ((c =? SPACE) || (c =? TAB) || (c =? HASH)) && negb (delimiter =? 0) then
            p ← put_char p c;
            get_token_loop fuel delimiter (advance_pos p) c
          else if is_blank c || (c =? HASH) || is_newline c then Ret (p, Some c)
          else if c =? BACKSLASH then
            let p := advance_pos p in
            match peek p 0 with
            | None => Ret (log_status p TrailingBackslash, None)
            | Some esc =>
                if is_newline esc then
                  if negb (delimiter =? 0) then
                    let p := if (esc =? CR) && peek_is p 1 LF then advance_pos p else p in
                    get_token_loop fuel delimiter (new_line (advance_pos p)) c
                  else Ret (p, Some c)
                else
                  match get_escape p esc with
                  | inl (esc, two) =>
                      p ← put_char (if (two : bool) then advance_pos p else p) esc;
                      get_token_loop fuel delimiter (advance_pos p) c
                  | inr m => Ret (log_status p m, None)
                  end
            end
          else if negb (c =? 0) && (c =? delimiter) then Ret (advance_pos p, Some c)
          else
            p ← put_char p c;
            get_token_loop fuel delimiter (advance_pos p) c
      end
  end.

(** [nullptr], with the length 0 that [get_token] sets first. *)
Definition null_token : parser_token_t := {| pt_data := None; pt_length := 0 |}.

(** What [get_token] does after its loop. *)
Definition finish_token (start_pos delimiter : Z) (p : Parser) (c : Z) : outcome (Parser * parser_token_t) :=
  if negb (delimiter =? 0) && negb (c =? delimiter)
  then Ret (log_status p (MissingClosingQuote delimiter), null_token)
  else if (start_pos <? pr_tokpos p) || negb (delimiter =? 0) then
    let length := u32 (pr_tokpos p - start_pos) in
    p ← put_char p 0;
    Ret (p, {| pt_data := Some start_pos; pt_length := length |})
  else Ret (p, null_token).

Definition get_token (p : Parser) : outcome (Parser * parser_token_t) :=
  let start_pos := pr_tokpos p in
  first ← of_option (peek p 0);
  let delimiter := if is_quote first then first else 0 in
  let p := if is_quote first then advance_pos p else p in
  '(p, r) ← get_token_loop (S (length (pr_buffer p))) delimiter p 0;
  match r with
  | None => Ret (p, null_token)
  | Some c => finish_token start_pos delimiter p c
  end.

Definition add_argument (p : Parser) (token : parser_token_t) : outcome (Parser * bool) :=
  if pr_nargs p <? PARSER_MAX_ARGS then
    if (0 <=? pr_nargs p) && (pr_nargs p <? zlen (pr_args p))
    then Ret (set_args p (<[Z.to_nat (pr_nargs p) := token]> (pr_args p)) (u32 (pr_nargs p + 1)), true)
    else Ub
  else
    p ← log_command_status p TooManyArguments;
    Ret (p, false).

(** ** Commands *)

(** [std::strcmp], the sign of its result. *)
Fixpoint strcmp (s1 s2 : bytes) : comparison :=
  match s1, s2 with
  | [], [] => Eq
  | [], _ => Lt
  | _, [] => Gt
  | c1 :: s1, c2 :: s2 => match c1 ?= c2 with Eq => strcmp s1 s2 | r => r end
  end.

Section Commands.
Context {W : Type}.

(** Handlers; [W] is the state of the program that they work on. *)
Record parser_command_t := {
  pc_name : bytes;
  pc_get_proc : Parser -> W -> Z -> Z * bytes;
  pc_set_proc : Parser -> W -> list parser_token_t -> W * bool;
}.

(** The handlers of actions that a command does not have. *)
Definition pGet_default_proc (p : Parser) (w : W) (size : Z) : Z * bytes := (-1, []).
Definition pSet_default_proc (p : Parser) (w : W) (args : list parser_token_t) : W * bool := (w, false).

Definition command_le (c1 c2 : parser_command_t) : Prop := strcmp (pc_name c1) (pc_name c2) <> Gt.

#[global] Instance command_le_dec : RelDecision command_le.
Proof. intros c1 c2. unfold command_le. solve_decision. Defined.

(** [qsort]. *)
Definition initialize_commands (commands : list parser_command_t) : list parser_command_t :=
  merge_sort command_le commands.

Variable pr_commands : list parser_command_t.

(** [bsearch]: the element between [l] and [u], if there is one, that compares equal. *)
Fixpoint bsearch (fuel : nat) (name : bytes) (l u : nat) : option parser_command_t :=
  match fuel with
  | O => None
  | S fuel =>
      if (l <? u)%nat then
        let idx := ((l + u) / 2)%nat in
        c ← pr_commands !! idx;
        match strcmp name (pc_name c) with
        | Lt => bsearch fuel name l idx
        | Gt => bsearch fuel name (S idx) u
        | Eq => Some c
        end
      else None
  end.

(** The interval gets shorter with every turn. *)
Definition find_command (name : bytes) : option parser_command_t :=
  bsearch (S (length pr_commands)) name 0 (length pr_commands).

(** ** Parsing *)

(** The name that a token points to. *)
Definition token_name (p : Parser) (t : parser_token_t) : option bytes :=
  mem ← token_mem (pr_tokens p) t; c_str mem.

(** The loop that collects arguments; there is room for no more than the fuel. *)
Fixpoint collect_arguments (fuel : nat) (p : Parser) : outcome (Parser * bool) :=
  match fuel with
  | O => Timeout
  | S fuel =>
      '(p, more) ← skip_line_ws p;
      if (more : bool) then
        '(p, arg) ← get_token p;
        '(p, added) ← add_argument p arg;
        if (added : bool) then collect_arguments fuel p else Ret (p, false)
      else Ret (p, true)
  end.

(** The loop that consumes arguments that are not wanted. *)
Fixpoint consume_arguments (fuel : nat) (p : Parser) : outcome Parser :=
  match fuel with
  | O => Timeout
  | S fuel =>
      '(p, more) ← skip_line_ws p;
      if (more : bool) then
        '(p, _) ← get_token p;
        consume_arguments fuel p
      else Ret p
  end.

(** [pr_args + 1] and [pr_nargs - 1], as the handler sees them. *)
Definition handler_args (p : Parser) : list parser_token_t :=
  take (Z.to_nat (pr_nargs p - 1)) (drop 1 (pr_args p)).

(** A statement whose command is [cmd]: the new state, whether it is fully processed, and the
    new result. *)
Definition run_command (p : Parser) (w : W) (command : bytes) (cmd : parser_command_t) : outcome (Parser * W * bool * bool) :=
  '(p, collected) ← collect_arguments (S (Z.to_nat PARSER_MAX_ARGS)) p;
  if (collected : bool) then
    let p := set_last_command p (pc_name cmd) in
    let '(w, ok) := pc_set_proc cmd p w (handler_args p) in
    if (ok : bool) then Ret (p, w, true, true)
    else
      p ← log_command_status p (CouldNotSet command);
      Ret (p, w, true, false)
  else Ret (p, w, false, false).

(** The command name, and the rest of the statement up to the consumption of arguments. *)
Definition parse_command (p : Parser) (w : W) : outcome (Parser * W * bool * bool) :=
  '(p, token) ← get_token p;
  match pt_data token with
  | None => Ret (p, w, false, true)
  | Some _ =>
      '(p, added) ← add_argument p token;
      if (added : bool) then
        command ← of_option (token_name p token);
        match find_command command with
        | Some cmd => run_command p w command cmd
        | None => Ret (log_status p (UnknownStatement command), w, false, false)
        end
      else Ret (p, w, false, true)
  end.

Fixpoint parse_loop (fuel : nat) (p : Parser) (w : W) (result : bool) : outcome (Parser * W * bool) :=
  match fuel with
  | O => Timeout
  | S fuel' =>
      '(p, more) ← skip_ws p;
      if (more : bool) then
        let p := set_args (set_tokens p (pr_tokens p) 0) (pr_args p) 0 in
        '(p, w, processed, ok) ← parse_command p w;
        p ← (if (processed : bool) then Ret p else consume_arguments fuel p);
        parse_loop fuel' p w (result && ok)
      else Ret (p, w, result)
  end.

(** [parse] of a buffer. *)
Definition parse (fuel : nat) (p : Parser) (w : W) (buffer : bytes) (interactive : bool) : outcome (Parser * W * bool) :=
  '(p, w, result) ← parse_loop fuel (set_input p buffer interactive) w true;
  Ret (clear_buffer p [], w, result).

(** [parse] of a file, which [c3_load_file] may or may not find. *)
Definition parse_file (c3_load_file : bytes -> option bytes) (fuel : nat) (p : Parser) (w : W) (path : bytes)
  : outcome (Parser * W * bool) :=
  match c3_load_file path with
  | None => Ret (p, w, false)
  | Some buffer =>
      if 0 <? zlen buffer then
        let old_path := pr_file_path p in
        '(p, w, result) ← parse fuel (set_file_path p (Some path)) w buffer false;
        Ret (set_file_path p old_path, w, result)
      else Ret (p, w, true)
  end.

Definition query (p : Parser) (w : W) (command : bytes) (size : Z) : option (Parser * (Z * bytes)) :=
  _ ← c3_assert (negb (size =? 0));
  match find_command command with
  | Some cmd =>
      let p := set_last_command p (pc_name cmd) in
      Some (p, pc_get_proc cmd p w size)
  | None => Some (p, (-1, []))
  end.

(** [enumerate]: calls [callback] on the names that match until it returns [false]. *)
Fixpoint enumerate_loop {C} (callback : C -> bytes -> C * bool) (commands : list parser_command_t)
    (matcher : StringMatcher.StringMatcher) (context : C) : option (C * Z) :=
  match commands with
  | [] => Some (context, StringMatcher.sm_num_matches matcher)
  | c :: commands =>
      '(matcher, found) ← StringMatcher.sm_matches matcher (pc_name c);
      if (found : bool) then
        let '(context, go_on) := callback context (pc_name c) in
        if (go_on : bool) then enumerate_loop callback commands matcher context
        else Some (context, StringMatcher.sm_num_matches matcher)
      else enumerate_loop callback commands matcher context
  end.

Definition enumerate {C} (mask : bytes) (callback : C -> bytes -> C * bool) (context : C) : option (C * Z) :=
  enumerate_loop callback pr_commands (StringMatcher.sm_new mask false) context.

End Commands.

Arguments parser_command_t W : clear implicits.
