(* ===== verification/ParserSafe.v ===== *)
(** * The parser on arbitrary input

    Whatever the bytes of a text shorter than the token buffer, [parse] returns, stays within
    its arrays, and calls handlers with arguments that are [nullptr] or point to
    strings with a terminator ([parse_loop_safe]). The reason is that a token is never longer than its
    spelling, and that each turn of each loop consumes a character.

    [parse_too_long], [parse_no_terminator]: both fail without the bound on the length. *)

From S2P Require Import Prelude CStrings ParserTokens Parser.

(** ** Reading the input *)

Lemma peek_Some p i c : peek p i = Some c -> 0 <= pr_pos p + i < zlen (pr_buffer p).
Proof.
  unfold peek, byte_at. zcase; [|done]. intros H%lookup_lt_Some. unfold zlen. lia.
Qed.

Lemma peek_None p : 0 <= pr_pos p -> peek p 0 = None -> zlen (pr_buffer p) <= pr_pos p.
Proof.
  unfold peek, byte_at. intros H. zcase; [|lia]. intros Hn%lookup_ge_None. unfold zlen. lia.
Qed.

Lemma peek_is_pos p c : peek_is p 1 c = true -> pr_pos p + 1 < zlen (pr_buffer p).
Proof. unfold peek_is. destruct (peek p 1) eqn:E; [|done]. apply peek_Some in E. lia. Qed.

(** Characters that end a token without quotes, and are not part of it. *)
Definition stop_char (c : Z) : bool := is_blank c || (c =? HASH) || is_newline c.

Definition stops (p : Parser) : Prop := match peek p 0 with Some c => stop_char c = true | None => True end.

(** ** What steps of the parser preserve *)

(** Only the position, the line and the log change. *)
Definition frame (p p' : Parser) : Prop :=
  pr_tokens p' = pr_tokens p /\ pr_args p' = pr_args p /\ pr_buffer p' = pr_buffer p /\
  pr_tokpos p' = pr_tokpos p /\ pr_nargs p' = pr_nargs p.

Lemma frame_refl p : frame p p.
Proof. done. Qed.

Lemma frame_trans p q r : frame p q -> frame q r -> frame p r.
Proof. unfold frame. intros (-> & -> & -> & -> & ->) (-> & -> & -> & -> & ->). done. Qed.

(** The position moved forward, within the text. *)
Definition moved (p p' : Parser) : Prop :=
  frame p p' /\ pr_pos p <= pr_pos p' <= zlen (pr_buffer p).

Lemma moved_trans p q r : moved p q -> moved q r -> moved p r.
Proof.
  intros [F1 H1] [F2 H2]. split; [by eapply frame_trans|]. destruct F1 as (_ & _ & E & _). rewrite E in H2. lia.
Qed.

Lemma moved_refl p : pr_pos p <= zlen (pr_buffer p) -> moved p p.
Proof. split; [done|lia]. Qed.

Lemma moved_advance p c : peek p 0 = Some c -> 0 <= pr_pos p -> moved p (advance_pos p).
Proof. intros H%peek_Some ?. split; [done|]. cbn. lia. Qed.

Lemma skip_comment_ok fuel : forall p, 0 <= pr_pos p < zlen (pr_buffer p) -> zlen (pr_buffer p) - pr_pos p < Z.of_nat fuel ->
  exists p', skip_comment fuel p = Ret p' /\ moved p p' /\ pr_pos p < pr_pos p'.
Proof.
  induction fuel as [|fuel IH]; intros p Hp Hf; [lia|]. cbn [skip_comment].
  assert (Hm : moved p (advance_pos p)) by (split; [done|cbn; lia]).
  destruct (peek (advance_pos p) 0) as [c|] eqn:E; [destruct (is_newline c)|]; try (exists (advance_pos p); split_and!; [done..|cbn; lia]).
  pose proof (peek_Some _ _ _ E) as HE. destruct (IH (advance_pos p)) as (p' & -> & Hm' & Hl); [cbn in *; lia..|].
  exists p'. split_and!; [done|by eapply moved_trans|cbn in Hl; lia].
Qed.

(** The end of a loop over white space. *)
Definition skipped (start : Z -> bool) (p : Parser) (r : outcome (Parser * bool)) : Prop :=
  exists p' b, r = Ret (p', b) /\ moved p p' /\
    if (b : bool) then exists c, peek p' 0 = Some c /\ start c = true else stops p'.

Lemma skipped_step start p q r : moved p q -> skipped start q r -> skipped start p r.
Proof. intros H (p' & b & -> & H' & Hb). exists p', b. split_and!; [done|by eapply moved_trans|done]. Qed.

Definition ws_start (c : Z) : bool := negb (stop_char c).
Definition arg_start (c : Z) : bool := negb (stop_char c) && negb (c =? BACKSLASH).

Lemma skip_ws_loop_ok fuel : forall p, 0 <= pr_pos p <= zlen (pr_buffer p) -> zlen (pr_buffer p) - pr_pos p < Z.of_nat fuel ->
  skipped ws_start p (skip_ws_loop fuel p).
Proof.
  induction fuel as [|fuel IH]; intros p Hp Hf; [lia|]. cbn [skip_ws_loop].
  destruct (peek p 0) as [c|] eqn:E.
  2:{ exists p, false. split_and!; [done|apply moved_refl; lia|unfold stops; by rewrite E]. }
  pose proof (peek_Some _ _ _ E) as HE.
  assert (Hstep : forall q, frame p q -> pr_pos p < pr_pos q <= zlen (pr_buffer p) -> skipped ws_start p (skip_ws_loop fuel q)).
  { intros q Hq Hl. apply (skipped_step _ _ q); [split; [done|lia]|]. destruct Hq as (_ & _ & Eb & _). apply IH; rewrite Eb; lia. }
  destruct (c =? CR) eqn:Ecr; [|destruct (c =? LF) eqn:Elf; [|destruct (is_blank c) eqn:Eb; [|destruct (c =? HASH) eqn:Eh]]].
  - destruct (peek_is p 1 LF) eqn:Ep; [apply peek_is_pos in Ep|]; apply Hstep; (done || (cbn; lia)).
  - apply Hstep; (done || (cbn; lia)).
  - apply Hstep; (done || (cbn; lia)).
  - destruct (skip_comment_ok (S (length (pr_buffer p))) p) as (q & -> & [Hq Hq'] & Hl); [lia|unfold zlen; lia|].
    cbn [mbind outcome_bind]. apply Hstep; [done|lia].
  - exists p, true. split_and!; [done|apply moved_refl; lia|]. exists c. split; [done|]. unfold ws_start, stop_char, is_newline. by rewrite Eb, Eh, Ecr, Elf.
Qed.

Lemma skip_ws_ok p : 0 <= pr_pos p <= zlen (pr_buffer p) -> skipped ws_start p (skip_ws p).
Proof. intros. apply skip_ws_loop_ok; [done|unfold zlen; lia]. Qed.

Lemma skip_continuation_ok p c : peek p 0 = Some c -> 0 <= pr_pos p ->
  frame p (skip_continuation p) /\ pr_pos p <= pr_pos (skip_continuation p) < zlen (pr_buffer p).
Proof.
  intros E%peek_Some Hp. unfold skip_continuation.
  destruct (peek_is p 1 CR) eqn:E1; [apply peek_is_pos in E1; destruct (peek_is (advance_pos p) 1 LF) eqn:E2; [apply peek_is_pos in E2|]|
    destruct (peek_is p 1 LF) eqn:E2; [apply peek_is_pos in E2|]]; (split; [done|cbn in *; lia]).
Qed.

Lemma skip_line_ws_loop_ok fuel : forall p, 0 <= pr_pos p <= zlen (pr_buffer p) -> zlen (pr_buffer p) - pr_pos p < Z.of_nat fuel ->
  skipped arg_start p (skip_line_ws_loop fuel p).
Proof.
  induction fuel as [|fuel IH]; intros p Hp Hf; [lia|]. cbn [skip_line_ws_loop].
  destruct (peek p 0) as [c|] eqn:E.
  2:{ exists p, false. split_and!; [done|apply moved_refl; lia|unfold stops; by rewrite E]. }
  pose proof (peek_Some _ _ _ E) as HE.
  assert (Hstep : forall q, frame p q -> pr_pos p < pr_pos q <= zlen (pr_buffer p) -> skipped arg_start p (skip_line_ws_loop fuel q)).
  { intros q Hq Hl. apply (skipped_step _ _ q); [split; [done|lia]|]. destruct Hq as (_ & _ & Eb & _). apply IH; rewrite Eb; lia. }
  destruct (c =? BACKSLASH) eqn:Es; [|destruct (is_blank c) eqn:Eb; [|destruct (is_newline c || (c =? HASH)) eqn:Eh]].
  - destruct (skip_continuation_ok p c E) as [Hc Hl]; [lia|]. apply Hstep; [by eapply frame_trans|cbn; lia].
  - apply Hstep; (done || (cbn; lia)).
  - exists p, false. split_and!; [done|apply moved_refl; lia|]. unfold stops. rewrite E. unfold stop_char. rewrite Eb. by rewrite orb_comm in Eh.
  - exists p, true. split_and!; [done|apply moved_refl; lia|]. exists c. split; [done|]. unfold arg_start, stop_char.
    apply orb_false_iff in Eh as [-> ->]. by rewrite Eb, Es.
Qed.

Lemma skip_line_ws_ok p : 0 <= pr_pos p <= zlen (pr_buffer p) -> skipped arg_start p (skip_line_ws p).
Proof. intros. apply skip_line_ws_loop_ok; [done|unfold zlen; lia]. Qed.

(** ** Tokens *)

(** Tokens grow: what is already there stays. *)
Record grown (p p' : Parser) : Prop := {
  gr_args : pr_args p' = pr_args p;
  gr_nargs : pr_nargs p' = pr_nargs p;
  gr_buffer : pr_buffer p' = pr_buffer p;
  gr_size : zlen (pr_tokens p') = zlen (pr_tokens p);
  gr_prefix : forall i, i < pr_tokpos p -> byte_at (pr_tokens p') i = byte_at (pr_tokens p) i;
  gr_tokpos : pr_tokpos p <= pr_tokpos p';
  gr_pos : pr_pos p <= pr_pos p';
}.

Lemma grown_refl p : grown p p.
Proof. split; (done || lia). Qed.

Lemma grown_trans p q r : grown p q -> grown q r -> grown p r.
Proof.
  intros G1 G2. split.
  - by rewrite (gr_args _ _ G2), (gr_args _ _ G1).
  - by rewrite (gr_nargs _ _ G2), (gr_nargs _ _ G1).
  - by rewrite (gr_buffer _ _ G2), (gr_buffer _ _ G1).
  - by rewrite (gr_size _ _ G2), (gr_size _ _ G1).
  - intros i Hi. rewrite (gr_prefix _ _ G2), (gr_prefix _ _ G1); [done|done|]. pose proof (gr_tokpos _ _ G1). lia.
  - pose proof (gr_tokpos _ _ G1). pose proof (gr_tokpos _ _ G2). lia.
  - pose proof (gr_pos _ _ G1). pose proof (gr_pos _ _ G2). lia.
Qed.

Lemma grown_frame p p' : frame p p' -> pr_pos p <= pr_pos p' -> grown p p'.
Proof. intros (Et & Ea & Eb & Ek & En) Hl. split; rewrite ?Et, ?Ek; (done || lia). Qed.

Lemma blit_one l i c : 0 <= i < zlen l ->
  exists l', blit l i [c] = Some l' /\ zlen l' = zlen l /\ byte_at l' i = Some c /\
    forall j, j <> i -> byte_at l' j = byte_at l j.
Proof.
  intros Hi. destruct (blit l i [c]) as [l'|] eqn:E.
  2:{ unfold blit in E. rewrite (proj2 (Z.leb_le _ _)), (proj2 (Z.leb_le _ _)) in E; [done|zlen|lia]. }
  exists l'. split; [done|]. split; [by eapply zlen_blit|].
  unfold blit in E. destruct (_ && _); [|done]. injection E as <-.
  assert (El : length (take (Z.to_nat i) l) = Z.to_nat i) by (rewrite length_take; unfold zlen in Hi; lia).
  unfold byte_at. split.
  - rewrite (proj2 (Z.leb_le 0 i)) by lia. rewrite lookup_app_r by lia. by rewrite El, Nat.sub_diag.
  - intros j Hj. zcase; [|done]. destruct (decide (j < i)).
    + rewrite lookup_app_l by lia. apply lookup_take_lt. lia.
    + rewrite lookup_app_r by lia. rewrite El. cbn [app]. rewrite lookup_cons_ne_0 by lia. rewrite lookup_drop. f_equal. cbn. lia.
Qed.

Lemma HSIZE : PARSER_TOTAL_ARGS_SIZE = 4096.
Proof. done. Qed.

(** The token buffer has its size, and what is in it is no longer than the text consumed. *)
Definition room (e : Z) (p : Parser) : Prop :=
  zlen (pr_tokens p) = PARSER_TOTAL_ARGS_SIZE /\ 0 <= pr_tokpos p /\ pr_tokpos p + e <= pr_pos p /\
  pr_pos p <= zlen (pr_buffer p) < PARSER_TOTAL_ARGS_SIZE.

Lemma put_char_ok p c : zlen (pr_tokens p) = PARSER_TOTAL_ARGS_SIZE -> 0 <= pr_tokpos p < PARSER_TOTAL_ARGS_SIZE ->
  exists p', put_char p c = Ret p' /\ grown p p' /\ pr_tokpos p' = pr_tokpos p + 1 /\ pr_pos p' = pr_pos p /\
    byte_at (pr_tokens p') (pr_tokpos p) = Some c /\ pr_line p' = pr_line p /\ pr_log p' = pr_log p.
Proof.
  intros Hz Ht. rewrite HSIZE in *. destruct (blit_one (pr_tokens p) (pr_tokpos p) c) as (l & El & Hl & Hc & Ho); [lia|].
  unfold put_char. rewrite El. cbn [of_option mbind outcome_bind]. eexists. split; [done|].
  assert (Eu : u32 (pr_tokpos p + 1) = pr_tokpos p + 1) by (apply u32_small; unfold is_u32; lia). rewrite Eu. cbn.
  split_and!; [|done..]. split; cbn; try (done || lia). intros i Hi. apply Ho. lia.
Qed.

(** Only hexadecimal escapes take two characters. *)
Lemma get_escape_two p esc d : get_escape p esc = inl (d, true) -> is_Some (peek p 1).
Proof.
  unfold get_escape. repeat match goal with |- context [if ?b then _ else _] => destruct b end; try done.
  all: destruct (peek p 1); done.
Qed.

(** The end of the loop of [get_token]. *)
Definition token_scanned (e delimiter : Z) (p : Parser) (r : outcome (Parser * option Z)) : Prop :=
  exists p' o, r = Ret (p', o) /\ grown p p' /\ room e p' /\ (pr_pos p < pr_pos p' \/ stops p) /\
    (delimiter = 0 -> is_Some o -> stops p').

Lemma token_scanned_step e delimiter p q r : grown p q -> pr_pos p < pr_pos q ->
  token_scanned e delimiter q r -> token_scanned e delimiter p r.
Proof.
  intros G Hl (p' & o & -> & G' & R & _ & Ho). exists p', o. pose proof (gr_pos _ _ G').
  split_and!; [done|by eapply grown_trans|done|lia|done].
Qed.

Lemma get_token_loop_ok e delimiter fuel : 0 <= e -> forall p c, room e p -> zlen (pr_buffer p) - pr_pos p < Z.of_nat fuel ->
  token_scanned e delimiter p (get_token_loop fuel delimiter p c).
Proof.
  intros He. induction fuel as [|fuel IH]; intros p c0 (Hz & Ht & Hp & Hb) Hf; [lia|]. cbn [get_token_loop].
  assert (Hroom : room e p) by done. rewrite HSIZE in *.
  destruct (peek p 0) as [c|] eqn:E.
  2:{ exists p, (Some c0). unfold stops. rewrite E. split_and!; auto using grown_refl. }
  pose proof (peek_Some _ _ _ E) as HE. rewrite (proj2 (Z.leb_gt _ _)) by lia.
  assert (Hret : forall q o, frame p q -> pr_pos p < pr_pos q <= zlen (pr_buffer p) -> (delimiter = 0 -> is_Some o -> stops q) ->
    token_scanned e delimiter p (Ret (q, o))).
  { intros q o Hq Hl Hd. exists q, o. destruct (Hq) as (Et & Ea & Eb & Ek & En). split_and!; [done|apply grown_frame; [done|lia]| |lia|done].
    unfold room. rewrite Et, Eb, Ek, HSIZE. lia. }
  assert (Hstep : forall q, grown p q -> room e q -> pr_pos p < pr_pos q -> token_scanned e delimiter p (get_token_loop fuel delimiter q c)).
  { intros q G R Hl. apply (token_scanned_step _ _ _ q); [done..|]. apply IH; [done|]. rewrite (gr_buffer _ _ G). lia. }
  assert (Hput : forall q d, frame p q -> pr_pos p <= pr_pos q < zlen (pr_buffer p) ->
    token_scanned e delimiter p (p ← put_char q d; get_token_loop fuel delimiter (advance_pos p) c)).
  { intros q d Hq Hl. destruct Hq as (Et & Ea & Eb & Ek & En).
    destruct (put_char_ok q d) as (q' & -> & G & Hk & Hpos & _); [by rewrite Et, HSIZE|rewrite Ek, HSIZE; lia|].
    cbn [mbind outcome_bind]. assert (Gq : grown p q) by (apply grown_frame; [done|lia]).
    assert (Gqq : grown q (advance_pos q')). { eapply grown_trans; [exact G|]. apply grown_frame; [done|cbn; lia]. }
    apply Hstep; [by eapply grown_trans| |cbn; lia].
    unfold room. cbn. rewrite (gr_size _ _ G), Et, (gr_buffer _ _ G), Eb, HSIZE. lia. }
  destruct (((c =? SPACE) || (c =? TAB) || (c =? HASH)) && negb (delimiter =? 0)) eqn:Eq; [apply Hput; [done|lia]|].
  destruct (is_blank c || (c =? HASH) || is_newline c) eqn:Es.
  { exists p, (Some c). unfold stops. rewrite E. split_and!; auto using grown_refl. }
  destruct (c =? BACKSLASH) eqn:Ebs; [|destruct (negb (c =? 0) && (c =? delimiter)) eqn:Ed; [|apply Hput; [done|lia]]].
  2:{ apply Hret; [done|cbn; lia|]. intros ->. zbool. lia. }
  destruct (peek (advance_pos p) 0) as [esc|] eqn:E2; [|apply Hret; [done|cbn; lia|by intros _ []]].
  pose proof (peek_Some _ _ _ E2) as HE2. cbn in HE2. destruct (is_newline esc) eqn:Enl.
  - destruct (delimiter =? 0) eqn:Ed; cbn [negb].
    + apply Hret; [done|cbn; lia|]. intros _ _. unfold stops. rewrite E2. unfold stop_char. rewrite Enl. by rewrite !orb_true_r.
    + destruct ((esc =? CR) && peek_is (advance_pos p) 1 LF) eqn:E3.
      * apply andb_true_iff in E3 as [_ E3%peek_is_pos]. cbn in E3.
        apply Hstep; [apply grown_frame; [done|cbn; lia]|unfold room; cbn; rewrite HSIZE; lia|cbn; lia].
      * apply Hstep; [apply grown_frame; [done|cbn; lia]|unfold room; cbn; rewrite HSIZE; lia|cbn; lia].
  - destruct (get_escape (advance_pos p) esc) as [[d two]|m] eqn:Eesc; [|apply Hret; [done|cbn; lia|by intros _ []]].
    destruct two; apply Hput; try (done || (cbn; lia)). cbn.
    apply get_escape_two in Eesc as [d' E3%peek_Some]. cbn in E3. lia.
Qed.

(** A token that points to a string within what has been stored, or to nothing. *)
Definition token_ok (tokens : bytes) (limit : Z) (t : parser_token_t) : Prop :=
  match pt_data t with
  | None => pt_length t = 0
  | Some off => 0 <= off /\ 0 <= pt_length t /\ off + pt_length t < limit /\ byte_at tokens (off + pt_length t) = Some 0
  end.

(** Between tokens: the last one may have taken one character more than was consumed, but only if
    there is white space next. *)
Definition slack (p : Parser) : Prop :=
  zlen (pr_tokens p) = PARSER_TOTAL_ARGS_SIZE /\ 0 <= pr_tokpos p /\ 0 <= pr_pos p <= zlen (pr_buffer p) /\
  zlen (pr_buffer p) < PARSER_TOTAL_ARGS_SIZE /\
  (pr_tokpos p <= pr_pos p \/ (pr_tokpos p <= pr_pos p + 1 /\ stops p)).

Lemma slack_room p : slack p -> (exists c, peek p 0 = Some c /\ stop_char c = false) -> room 0 p.
Proof.
  intros (Hz & Ht & Hp & Hb & Hk) (c & Ec & Hc). unfold stops in Hk. rewrite Ec in Hk. unfold room. rewrite Hc in Hk.
  destruct Hk as [?|[_ ?]]; [lia|done].
Qed.

(** [get_token] succeeds or reports an error, and moves on. *)
Lemma get_token_ok p c : room 0 p -> peek p 0 = Some c -> stop_char c = false ->
  exists p' t, get_token p = Ret (p', t) /\ grown p p' /\ slack p' /\ pr_pos p < pr_pos p' /\
    token_ok (pr_tokens p') (pr_tokpos p') t /\ (pt_data t = None \/ pt_data t = Some (pr_tokpos p)).
Proof.
  intros Hroom Ec Hc. pose proof (peek_Some _ _ _ Ec) as HE. destruct (Hroom) as (Hz & Ht & Hp & Hb).
  unfold get_token. rewrite Ec. cbn [of_option mbind outcome_bind].
  set (delimiter := if is_quote c then c else 0). set (q := if is_quote c then advance_pos p else p).
  set (e := if is_quote c then 1 else 0).
  assert (Hq : frame p q /\ pr_pos q = pr_pos p + e /\ 0 <= e <= 1). { unfold q, e. destruct (is_quote c); cbn; (split; [done|lia]). }
  destruct Hq as (Hq & Hqp & He). destruct (Hq) as (Et & Ea & Eb & Ek & En).
  assert (Rq : room e q). { unfold room. rewrite Et, Eb, Ek. lia. }
  destruct (get_token_loop_ok e delimiter (S (length (pr_buffer q))) (proj1 He) q 0 Rq) as (p' & o & -> & G & R & Hprog & Hstop).
  { rewrite Eb. unfold zlen. lia. }
  cbn [mbind outcome_bind].
  assert (Gp : grown p p'). { eapply grown_trans; [|exact G]. apply grown_frame; [done|lia]. }
  assert (Hlt : pr_pos p < pr_pos p').
  { pose proof (gr_pos _ _ G). unfold q, e, stops in *. destruct (is_quote c); [cbn in *; lia|]. rewrite Ec, Hc in Hprog. destruct Hprog; [lia|done]. }
  destruct R as (Hz' & Ht' & Hp' & Hb').
  assert (Hnull : forall m, exists p'' t, (Ret (m, null_token) : outcome _) = Ret (p'', t) /\ (frame p' m -> pr_pos m = pr_pos p' ->
     grown p p'' /\ slack p'' /\ pr_pos p < pr_pos p'' /\ token_ok (pr_tokens p'') (pr_tokpos p'') t /\ (pt_data t = None \/ pt_data t = Some (pr_tokpos p)))).
  { intros m. exists m, null_token. split; [done|]. intros Hm Hpm. destruct (Hm) as (Et' & Ea' & Eb' & Ek' & En').
    split_and!; [eapply grown_trans; [exact Gp|apply grown_frame; [done|lia]]| |lia|done|by left].
    unfold slack. rewrite Et', Eb', Ek', Hpm. split_and!; try (done || lia). }
  destruct o as [c'|]; [|destruct (Hnull p') as (p'' & t & E & H); exists p'', t; split; [done|by apply H]].
  unfold finish_token. destruct (negb (delimiter =? 0) && negb (c' =? delimiter)) eqn:E1.
  { destruct (Hnull (log_status p' (MissingClosingQuote delimiter))) as (p'' & t & E & H); exists p'', t; split; [done|by apply H]. }
  destruct ((pr_tokpos p <? pr_tokpos p') || negb (delimiter =? 0)) eqn:E2;
    [|destruct (Hnull p') as (p'' & t & E & H); exists p'', t; split; [done|by apply H]].
  destruct (put_char_ok p' 0) as (r & -> & Gr & Hk & Hpos & H0 & _); [done|lia|]. cbn [mbind outcome_bind].
  assert (Eu : u32 (pr_tokpos p' - pr_tokpos p) = pr_tokpos p' - pr_tokpos p).
  { pose proof (gr_tokpos _ _ Gp). rewrite HSIZE in *. apply u32_small. unfold is_u32. lia. }
  eexists r, _. split; [done|]. split_and!; [by eapply grown_trans| |lia| |by right].
  - unfold slack. rewrite (gr_size _ _ Gr), (gr_buffer _ _ Gr), Hk, Hpos. split_and!; try (done || lia).
    unfold e, delimiter in *. destruct (is_quote c) eqn:Eqc; [left; lia|]. right. split; [lia|].
    unfold stops, peek in *. rewrite (gr_buffer _ _ Gr), Hpos. by apply Hstop.
  - unfold token_ok. cbn [pt_data pt_length]. rewrite Eu. pose proof (gr_tokpos _ _ Gp).
    replace (pr_tokpos p + (pr_tokpos p' - pr_tokpos p)) with (pr_tokpos p') by lia. split_and!; [lia..|done].
Qed.

(** ** Arguments *)

(** The arguments collected so far. *)
Definition args_ok (p : Parser) : Prop :=
  length (pr_args p) = 16%nat /\ 0 <= pr_nargs p <= PARSER_MAX_ARGS /\
  forall i t, (i < Z.to_nat (pr_nargs p))%nat -> pr_args p !! i = Some t -> token_ok (pr_tokens p) (pr_tokpos p) t.

Definition first_ok (p : Parser) : Prop := 0 < pr_nargs p /\ is_Some (a ← pr_args p !! 0%nat; pt_data a).

Lemma token_ok_grown p p' t : grown p p' -> token_ok (pr_tokens p) (pr_tokpos p) t -> token_ok (pr_tokens p') (pr_tokpos p') t.
Proof.
  intros G. unfold token_ok. destruct (pt_data t) as [off|]; [|done]. intros (Ho & Hl & Hlim & Hz).
  pose proof (gr_tokpos _ _ G). split_and!; [lia..|]. by rewrite (gr_prefix _ _ G).
Qed.

Lemma args_ok_grown p p' : grown p p' -> args_ok p -> args_ok p'.
Proof.
  intros G (Hl & Hn & Ha). unfold args_ok. rewrite (gr_args _ _ G), (gr_nargs _ _ G). split_and!; [done|lia..|].
  intros i t Hi Ht. eapply token_ok_grown; [done|]. by eapply Ha.
Qed.

Lemma first_ok_grown p p' : grown p p' -> first_ok p -> first_ok p'.
Proof. intros G. unfold first_ok. by rewrite (gr_args _ _ G), (gr_nargs _ _ G). Qed.

Lemma skipped_grown p p' : moved p p' -> grown p p'.
Proof. intros [F H]. apply grown_frame; [done|lia]. Qed.

Lemma slack_moved p p' b : slack p -> moved p p' -> (if (b : bool) then exists c, peek p' 0 = Some c /\ arg_start c = true else stops p') -> slack p'.
Proof.
  intros (Hz & Ht & Hp & Hb & Hk) [F Hm] HB. destruct (F) as (Et & _ & Eb & Ek & _). unfold slack. rewrite Et, Eb, Ek.
  split_and!; try (done || lia). destruct (decide (pr_pos p' = pr_pos p)) as [E|]; [|left; lia].
  unfold stops, peek in *. rewrite E, Eb. done.
Qed.

Lemma add_argument_ok p t : args_ok p -> token_ok (pr_tokens p) (pr_tokpos p) t ->
  (pr_nargs p < PARSER_MAX_ARGS /\ exists p', add_argument p t = Ret (p', true) /\ args_ok p' /\ pr_nargs p' = pr_nargs p + 1 /\
     pr_args p' = <[Z.to_nat (pr_nargs p) := t]> (pr_args p) /\
     pr_tokens p' = pr_tokens p /\ pr_tokpos p' = pr_tokpos p /\ pr_pos p' = pr_pos p /\ pr_buffer p' = pr_buffer p) \/
  (pr_nargs p = PARSER_MAX_ARGS /\ (first_ok p -> add_argument p t = Ret (log_status p TooManyArguments, false))).
Proof.
  intros (Hl & Hn & Ha) Ht. unfold add_argument, PARSER_MAX_ARGS in *.
  destruct (Z.ltb_spec (pr_nargs p) 16) as [Hlt|Hge].
  - left. split; [done|]. rewrite (proj2 (Z.leb_le _ _)), (proj2 (Z.ltb_lt _ (zlen (pr_args p)))) by (unfold zlen; lia). cbn [andb].
    eexists. split; [done|]. assert (Eu : u32 (pr_nargs p + 1) = pr_nargs p + 1) by (apply u32_small; unfold is_u32; lia).
    rewrite Eu. split_and!; try done. unfold args_ok, PARSER_MAX_ARGS. cbn. rewrite length_insert. split_and!; [done|lia..|].
    intros i t' Hi Hi'. apply list_lookup_insert_Some in Hi' as [(_ & <- & _)|[Hne Hi']]; [done|]. eapply Ha; [|exact Hi']. lia.
  - right. split; [lia|]. intros [H0 Hf]. unfold log_command_status.
    rewrite (proj2 (Z.eqb_neq _ 0)), bool_decide_eq_true_2 by (done || lia). done.
Qed.

(** A state between tokens of a statement. *)
Definition in_statement (p : Parser) : Prop := slack p /\ args_ok p /\ first_ok p.

Lemma in_statement_skip p p' b : in_statement p -> moved p p' ->
  (if (b : bool) then exists c, peek p' 0 = Some c /\ arg_start c = true else stops p') -> in_statement p'.
Proof.
  intros (Hs & Ha & Hf) Hm HB. pose proof (skipped_grown _ _ Hm). split_and!;
    [by eapply slack_moved|by eapply args_ok_grown|by eapply first_ok_grown].
Qed.

Lemma slack_pos p : slack p -> 0 <= pr_pos p <= zlen (pr_buffer p).
Proof. unfold slack. tauto. Qed.

Lemma arg_start_stop c : arg_start c = true -> stop_char c = false.
Proof. unfold arg_start. destruct (stop_char c); done. Qed.

Lemma collect_arguments_ok fuel : forall p, in_statement p -> PARSER_MAX_ARGS - pr_nargs p < Z.of_nat fuel ->
  exists p' b, collect_arguments fuel p = Ret (p', b) /\ in_statement p' /\ pr_buffer p' = pr_buffer p /\ pr_pos p <= pr_pos p'.
Proof.
  induction fuel as [|fuel IH]; intros p Hs Hf; [destruct Hs as (_ & (_ & ? & _) & _); lia|]. cbn [collect_arguments].
  destruct (skip_line_ws_ok p (slack_pos _ (proj1 Hs))) as (q & b & -> & Hm & HB). cbn [mbind outcome_bind].
  assert (Hs' := in_statement_skip _ _ b Hs Hm HB). destruct (Hm) as [(_ & _ & Eb & _ & En) Hl].
  destruct b; [|exists q, true; split_and!; (done || lia)].
  destruct HB as (c & Ec & Hc). apply arg_start_stop in Hc. destruct Hs' as (Hsl & Ha & Hfo).
  destruct (get_token_ok q c) as (r & t & -> & G & Hsl' & Hlt & Htok & _); [by apply slack_room; eauto|done..|].
  cbn [mbind outcome_bind]. assert (Har := args_ok_grown _ _ G Ha). assert (Hfr := first_ok_grown _ _ G Hfo).
  destruct (add_argument_ok r t Har Htok) as [(Hlt' & r' & -> & Har' & Hn' & Ea' & Et' & Ek' & Ep' & Eb')|[_ ->]]; [| |done]; cbn [mbind outcome_bind].
  - destruct (IH r') as (p' & b & -> & Hin & Eb'' & Hl').
    { split_and!; [|done|].
      - unfold slack, stops, peek in *. by rewrite Et', Ek', Ep', Eb'.
      - unfold first_ok in *. rewrite Hn', Ea'. split; [lia|]. rewrite list_lookup_insert_ne; [tauto|lia]. }
    { rewrite Hn', (gr_nargs _ _ G), En. lia. }
    exists p', b. split_and!; [done|done|by rewrite Eb'', Eb', (gr_buffer _ _ G), Eb|]. rewrite Ep' in Hl'. lia.
  - exists (log_status r TooManyArguments), false. split_and!; try done; [by rewrite <- Eb, <- (gr_buffer _ _ G)|cbn; lia].
Qed.

Lemma consume_arguments_ok fuel : forall p, slack p -> zlen (pr_buffer p) - pr_pos p < Z.of_nat fuel ->
  exists p', consume_arguments fuel p = Ret p' /\ slack p' /\ length (pr_args p') = length (pr_args p) /\ pr_buffer p' = pr_buffer p /\ pr_pos p <= pr_pos p'.
Proof.
  induction fuel as [|fuel IH]; intros p Hs Hf; [apply slack_pos in Hs; lia|]. cbn [consume_arguments].
  destruct (skip_line_ws_ok p (slack_pos _ Hs)) as (q & b & -> & Hm & HB). cbn [mbind outcome_bind].
  assert (Hs' := slack_moved _ _ b Hs Hm HB). destruct (Hm) as [(_ & Ea & Eb & _) Hl].
  destruct b; [|exists q; rewrite Ea; split_and!; (done || lia)].
  destruct HB as (c & Ec & Hc). apply arg_start_stop in Hc.
  destruct (get_token_ok q c) as (r & t & -> & G & Hsl' & Hlt & _ & _); [by apply slack_room; eauto|done..|].
  cbn [mbind outcome_bind]. destruct (IH r) as (p' & -> & Hin & Ea'' & Eb'' & Hl'); [done|rewrite (gr_buffer _ _ G), Eb; lia|].
  exists p'. rewrite Ea'', Eb'', (gr_buffer _ _ G), (gr_args _ _ G), Ea. split_and!; (done || lia).
Qed.

(** ** Statements *)

Lemma c_str_Some l : forall n, l !! n = Some 0 -> is_Some (c_str l).
Proof.
  induction l as [|c l IH]; intros n Hn; [done|]. cbn [c_str]. destruct (Z.eqb_spec c 0); [by eexists|].
  destruct n as [|n]; [cbn in Hn; congruence|]. destruct (IH n Hn) as [s ->]. by eexists.
Qed.

Lemma token_ok_name p t : token_ok (pr_tokens p) (pr_tokpos p) t -> is_Some (pt_data t) ->
  is_Some (token_name p t).
Proof.
  unfold token_ok, token_name, token_mem. destruct (pt_data t) as [off|]; [|by intros _ []]. cbn [mbind option_bind].
  intros (Ho & Hl & _ & Hz) _. unfold byte_at in Hz. destruct (0 <=? _); [|done].
  pose proof (lookup_lt_Some _ _ _ Hz). rewrite (proj2 (Z.leb_le _ _)), (proj2 (Z.leb_le _ _)) by (unfold zlen; lia). cbn [andb option_bind].
  assert (Hin : drop (Z.to_nat off) (pr_tokens p) !! Z.to_nat (pt_length t) = Some 0).
  { rewrite lookup_drop. rewrite <- Hz. f_equal. lia. }
  cbn [mbind option_bind]. by eapply c_str_Some.
Qed.

Section Handlers.
Context {W : Type}.
Variable commands : list (parser_command_t W).

(** What handlers get to see: at most 15 arguments, each [nullptr] or a string with a terminator. *)
Definition handler_input (p : Parser) (args : list parser_token_t) : Prop :=
  zlen (pr_tokens p) = PARSER_TOTAL_ARGS_SIZE /\ (length args < 16)%nat /\
  Forall (token_ok (pr_tokens p) PARSER_TOTAL_ARGS_SIZE) args.

(** A property of the handlers' state that they preserve on such input. *)
Variable P : W -> Prop.
Hypothesis HP : forall c p w args, c ∈ commands -> handler_input p args -> P w -> P (pc_set_proc c p w args).1.

Lemma in_statement_input p : in_statement p -> handler_input p (handler_args p).
Proof.
  intros (Hs & (Hl & Hn & Ha) & _). unfold handler_input, handler_args, PARSER_MAX_ARGS in *. destruct Hs as (Hz & Ht & Hp & Hb & Hk).
  split_and!; [done| |].
  - rewrite length_take, length_drop. lia.
  - apply Forall_lookup. intros i t Hi. apply lookup_take_Some in Hi as [Hi Hlt]. rewrite lookup_drop in Hi.
    specialize (Ha (1 + i)%nat t ltac:(lia) Hi). unfold token_ok in *. destruct (pt_data t); [|done].
    destruct Ha as (? & ? & ? & ?). split_and!; [done..| |done]. destruct Hk; lia.
Qed.

Lemma bsearch_elem fuel name : forall l u c, bsearch commands fuel name l u = Some c -> c ∈ commands.
Proof.
  induction fuel as [|fuel IH]; intros l u c; cbn [bsearch]; [done|]. destruct (l <? u)%nat; [|done].
  destruct (commands !! _) as [d|] eqn:E; [|done]. cbn [mbind option_bind].
  destruct (strcmp name (pc_name d)); [|by apply IH..]. intros [= <-]. by eapply list_elem_of_lookup_2.
Qed.

(** One statement: all is well, and something was consumed. *)
Definition statement_ok (p : Parser) (r : outcome (Parser * W * bool * bool)) : Prop :=
  exists p' w' processed ok, r = Ret (p', w', processed, ok) /\ P w' /\ slack p' /\ length (pr_args p') = 16%nat /\
    pr_buffer p' = pr_buffer p /\ pr_pos p < pr_pos p'.

Lemma run_command_ok q p w name c : in_statement p -> P w -> c ∈ commands -> pr_buffer p = pr_buffer q -> pr_pos q < pr_pos p ->
  statement_ok q (run_command p w name c).
Proof.
  intros Hs Hw Hc Eq Hlt. unfold run_command.
  destruct (collect_arguments_ok (S (Z.to_nat PARSER_MAX_ARGS)) p Hs) as (r & b & -> & Hin & Eb & Hl).
  { destruct Hs as (_ & (_ & ? & _) & _). unfold PARSER_MAX_ARGS in *. lia. }
  cbn [mbind outcome_bind]. destruct (Hin) as (Hsl & (Hla & Hn & Ha) & H0 & Hf).
  destruct b; [|exists r, w, false, false; split_and!; (done || congruence || lia)].
  set (r' := set_last_command r (pc_name c)).
  pose proof (HP c r' w (handler_args r') Hc (in_statement_input r' Hin) Hw) as Hw'.
  destruct (pc_set_proc c r' w (handler_args r')) as [w' []]; cbn [fst] in Hw'.
  - exists r', w', true, true. split_and!; (done || (cbn; congruence) || (cbn; lia)).
  - unfold log_command_status. cbn [pr_nargs pr_args r' set_last_command].
    rewrite (proj2 (Z.eqb_neq _ 0)), bool_decide_eq_true_2 by (done || lia). cbn [negb andb mbind outcome_bind].
    exists (log_status r' (CouldNotSet name)), w', true, false. split_and!; (done || (cbn; congruence) || (cbn; lia)).
Qed.

Lemma parse_command_ok p w c : slack p -> pr_tokpos p = 0 -> pr_nargs p = 0 -> length (pr_args p) = 16%nat -> P w ->
  peek p 0 = Some c -> ws_start c = true -> statement_ok p (parse_command commands p w).
Proof.
  intros Hs Ht Hn Hl Hw Ec Hc%negb_true_iff. unfold parse_command.
  destruct (get_token_ok p c) as (q & t & -> & G & Hsl & Hlt & Htok & _); [by apply slack_room; eauto|done..|].
  cbn [mbind outcome_bind].
  assert (Hq : length (pr_args q) = 16%nat) by by rewrite (gr_args _ _ G).
  destruct (pt_data t) as [off|] eqn:Et; [|exists q, w, false, true; split_and!; (done || apply G)].
  assert (Ha : args_ok q).
  { unfold args_ok. rewrite (gr_nargs _ _ G), Hn. unfold PARSER_MAX_ARGS. split_and!; [done|lia..|]. intros i ? Hi. cbn in Hi. lia. }
  destruct (add_argument_ok q t Ha Htok) as [(_ & r & -> & Har & Hnr & Ear & Etr & Ekr & Epr & Ebr)|[Hmax _]].
  2:{ rewrite (gr_nargs _ _ G), Hn in Hmax. done. }
  cbn [mbind outcome_bind].
  assert (Hin : in_statement r).
  { split_and!; [|done|].
    - unfold slack, stops, peek in *. by rewrite Etr, Ekr, Epr, Ebr.
    - unfold first_ok. rewrite Hnr, Ear, (gr_nargs _ _ G), Hn. split; [lia|]. cbn [Z.to_nat]. rewrite list_lookup_insert_eq by lia. cbn. by rewrite Et. }
  destruct (token_ok_name r t) as [name ->]; [by rewrite Etr, Ekr|by rewrite Et|]. cbn [of_option mbind outcome_bind].
  destruct (find_command commands name) as [cmd|] eqn:Ef.
  - apply run_command_ok; [done..|by eapply bsearch_elem|by rewrite Ebr, (gr_buffer _ _ G)|lia].
  - exists (log_status r (UnknownStatement name)), w, false, false. destruct Hin as (? & (? & _) & _).
    split_and!; (done || (cbn; rewrite Ebr; apply G) || (cbn; lia)).
Qed.

Lemma parse_loop_safe fuel : forall p w b, P w -> zlen (pr_tokens p) = PARSER_TOTAL_ARGS_SIZE -> length (pr_args p) = 16%nat ->
  zlen (pr_buffer p) < PARSER_TOTAL_ARGS_SIZE -> 0 <= pr_pos p <= zlen (pr_buffer p) -> zlen (pr_buffer p) - pr_pos p < Z.of_nat fuel ->
  exists p' w' b', parse_loop commands fuel p w b = Ret (p', w', b') /\ P w'.
Proof.
  induction fuel as [|fuel IH]; intros p w b Hw Hz Hl Hb Hp Hf; [lia|]. cbn [parse_loop].
  destruct (skip_ws_ok p Hp) as (q & more & -> & [(Et & Ea & Eb & _) Hm] & HB). cbn [mbind outcome_bind].
  destruct more; [|by exists q, w, b]. destruct HB as (c & Ec & Hc).
  set (q' := set_args (set_tokens q (pr_tokens q) 0) (pr_args q) 0).
  assert (Hs : slack q'). { unfold slack. cbn. rewrite Et, Eb. split_and!; (done || lia). }
  destruct (parse_command_ok q' w c) as (r & w' & processed & ok & -> & Hw' & Hsl & Hlr & Ebr & Hlt); [done|done|done|cbn; congruence|done|done|done|].
  cbn in Ebr, Hlt. cbn [mbind outcome_bind].
  assert (Hnext : exists r', (if processed then Ret r else consume_arguments (S fuel) r) = Ret r' /\ slack r' /\
    length (pr_args r') = 16%nat /\ pr_buffer r' = pr_buffer q /\ pr_pos q < pr_pos r').
  { destruct processed; [by exists r|]. destruct (consume_arguments_ok (S fuel) r Hsl) as (r' & -> & Hs' & Ea' & Eb' & Hl'); [rewrite Ebr, Eb; lia|].
    exists r'. rewrite Ea', Eb', Ebr. split_and!; (done || lia). }
  destruct Hnext as (r' & -> & (Hz' & _ & Hp' & Hb' & _) & Hla & Eb' & Hlt'). cbn [mbind outcome_bind].
  apply IH; [done..|]. rewrite Eb', Eb. lia.
Qed.

Lemma parse_safe p w buffer interactive : P w -> zlen (pr_tokens p) = PARSER_TOTAL_ARGS_SIZE -> length (pr_args p) = 16%nat ->
  zlen buffer < PARSER_TOTAL_ARGS_SIZE ->
  exists p' w' b, parse commands (S (length buffer)) p w buffer interactive = Ret (p', w', b) /\ P w'.
Proof.
  intros Hw Hz Hl Hb. unfold parse.
  destruct (parse_loop_safe (S (length buffer)) (set_input p buffer interactive) w true Hw Hz Hl Hb) as (p' & w' & b & -> & Hw').
  - cbn. pose proof (zlen_nonneg buffer). lia.
  - cbn. unfold zlen. lia.
  - cbn [mbind outcome_bind]. by eexists _, w', b.
Qed.

End Handlers.

(** ** Statements that are too long *)

(** Characters that get into a token as they are. *)
Definition plain (c : Z) : bool := arg_start c && negb (is_quote c).

Lemma plain_inv c : plain c = true ->
  (c =? BACKSLASH) = false /\ is_quote c = false /\ is_blank c = false /\ (c =? HASH) = false /\ is_newline c = false.
Proof.
  unfold plain, arg_start, stop_char. destruct (c =? BACKSLASH), (is_quote c), (is_blank c), (c =? HASH), (is_newline c); try done.
Qed.

Lemma skip_line_ws_plain p c : peek p 0 = Some c -> plain c = true -> skip_line_ws p = Ret (p, true).
Proof.
  intros E (E1 & _ & E3 & E4 & E5)%plain_inv. unfold skip_line_ws. cbn [skip_line_ws_loop]. by rewrite E, E1, E3, E4, E5.
Qed.

Lemma skip_ws_plain p c : peek p 0 = Some c -> plain c = true -> skip_ws p = Ret (p, true).
Proof.
  intros E (_ & _ & E3 & E4 & E5)%plain_inv. unfold skip_ws. cbn [skip_ws_loop]. apply orb_false_iff in E5 as [E5 E6].
  by rewrite E, E3, E4, E5, E6.
Qed.

Lemma get_token_full p c : peek p 0 = Some c -> plain c = true -> PARSER_TOTAL_ARGS_SIZE <= pr_tokpos p ->
  get_token p = Ret (log_status p StatementTooLong, null_token).
Proof.
  intros E (_ & E2 & _)%plain_inv Hk. unfold get_token. rewrite E. cbn [of_option mbind outcome_bind]. rewrite E2.
  cbn [get_token_loop]. rewrite E. by rewrite (proj2 (Z.leb_le _ _)).
Qed.

(** Once the buffer is full, consuming arguments makes no progress. *)
Lemma consume_forever fuel : forall p c, peek p 0 = Some c -> plain c = true -> PARSER_TOTAL_ARGS_SIZE <= pr_tokpos p ->
  consume_arguments fuel p = Timeout.
Proof.
  induction fuel as [|fuel IH]; intros p c E Hc Hk; [done|]. cbn [consume_arguments].
  rewrite (skip_line_ws_plain p c) by done. cbn [mbind outcome_bind]. rewrite (get_token_full p c) by done.
  cbn [mbind outcome_bind]. by apply (IH _ c).
Qed.

(** Plain characters fill the buffer. *)
Lemma get_token_loop_fill fuel : forall p c0, zlen (pr_tokens p) = PARSER_TOTAL_ARGS_SIZE ->
  0 <= pr_pos p -> pr_tokpos p = pr_pos p -> pr_pos p <= PARSER_TOTAL_ARGS_SIZE ->
  (forall i, 0 <= i < PARSER_TOTAL_ARGS_SIZE -> exists c, byte_at (pr_buffer p) i = Some c /\ plain c = true) ->
  PARSER_TOTAL_ARGS_SIZE - pr_pos p < Z.of_nat fuel ->
  exists p' fuel' c, get_token_loop fuel 0 p c0 = get_token_loop (S fuel') 0 p' c /\ pr_pos p' = PARSER_TOTAL_ARGS_SIZE /\
    pr_tokpos p' = PARSER_TOTAL_ARGS_SIZE /\ pr_buffer p' = pr_buffer p /\ zlen (pr_tokens p') = PARSER_TOTAL_ARGS_SIZE.
Proof.
  induction fuel as [|fuel IH]; intros p c0 Hz H0 Hk Hp Hall Hf; [lia|].
  destruct (decide (pr_pos p = PARSER_TOTAL_ARGS_SIZE)) as [Hfull|Hroom]; [exists p, fuel, c0; split_and!; (done || lia)|].
  cbn [get_token_loop]. destruct (Hall (pr_pos p) ltac:(lia)) as (c & Ec & Hc). unfold peek at 1. rewrite Z.add_0_r, Ec.
  rewrite (proj2 (Z.leb_gt _ _)) by lia.
  destruct (plain_inv c Hc) as (E1 & E2 & E3 & E4 & E5). rewrite andb_false_r, E3, E4, E5, E1. cbn [orb].
  replace (negb (c =? 0) && (c =? 0)) with false by by destruct (c =? 0).
  destruct (put_char_ok p c Hz) as (q & -> & G & Hq & Hqp & _); [lia|]. cbn [mbind outcome_bind].
  destruct (IH (advance_pos q) c) as (p' & k & d & -> & ? & ? & Eb & Ez); cbn; rewrite ?(gr_size _ _ G), ?(gr_buffer _ _ G), ?Hq, ?Hqp; try (done || lia).
  exists p', k, d. cbn in Eb. rewrite (gr_buffer _ _ G) in Eb. done.
Qed.

Lemma byte_at_plain word rest i : Forall (fun c => plain c = true) word -> 0 <= i < zlen word ->
  exists c, byte_at (word ++ rest) i = Some c /\ plain c = true.
Proof.
  intros Hw Hi. rewrite byte_at_app_l by lia. unfold byte_at. rewrite (proj2 (Z.leb_le 0 i)) by lia.
  destruct (lookup_lt_is_Some_2 word (Z.to_nat i)) as [c Hc]; [unfold zlen in Hi; lia|]. exists c. split; [done|].
  by eapply Forall_lookup_1 in Hw.
Qed.

(** A text that starts with a word as long as the buffer: the first [get_token]. *)
Lemma parse_word {W} (commands : list (parser_command_t W)) fuel p w word rest interactive :
  zlen (pr_tokens p) = PARSER_TOTAL_ARGS_SIZE -> Forall (fun c => plain c = true) word -> PARSER_TOTAL_ARGS_SIZE <= zlen word ->
  exists q0 q fuel' c, parse_loop commands (S fuel) (set_input p (word ++ rest) interactive) w true =
    ('(p, w, processed, ok) ← parse_command commands q0 w;
     p ← (if (processed : bool) then Ret p else consume_arguments (S fuel) p);
     parse_loop commands fuel p w (true && ok)) /\
    get_token q0 = ('(p, r) ← get_token_loop (S fuel') 0 q c;
      match r with None => Ret (p, null_token) | Some c => finish_token 0 0 p c end) /\
    pr_pos q = PARSER_TOTAL_ARGS_SIZE /\ pr_tokpos q = PARSER_TOTAL_ARGS_SIZE /\ pr_buffer q = word ++ rest /\
    zlen (pr_tokens q) = PARSER_TOTAL_ARGS_SIZE.
Proof.
  intros Hz Hw Hl. cbn [parse_loop]. set (q := set_input p (word ++ rest) interactive). rewrite HSIZE in *.
  destruct (byte_at_plain word rest 0 Hw) as (c & Ec & Hc); [lia|].
  rewrite (skip_ws_plain q c) by done. cbn [mbind outcome_bind].
  set (q' := set_args (set_tokens q (pr_tokens q) 0) (pr_args q) 0).
  destruct (get_token_loop_fill (S (length (pr_buffer q'))) q' 0) as (r & k & d & E & Hr & Hk & Eb & Er); [done|cbn; lia|done|done| | |].
  { intros i Hi. rewrite HSIZE in Hi. apply byte_at_plain; [done|lia]. }
  { rewrite HSIZE. cbn. rewrite length_app. unfold zlen in Hl. lia. }
  exists q', r, k, d. split; [done|]. split; [|done]. unfold get_token. change (peek q' 0) with (byte_at (word ++ rest) 0).
  rewrite Ec. cbn [of_option mbind outcome_bind]. by rewrite (proj1 (proj2 (plain_inv c Hc))), E.
Qed.

Lemma parse_too_long {W} (commands : list (parser_command_t W)) fuel p w word rest interactive :
  zlen (pr_tokens p) = PARSER_TOTAL_ARGS_SIZE -> Forall (fun c => plain c = true) word -> PARSER_TOTAL_ARGS_SIZE < zlen word ->
  parse commands fuel p w (word ++ rest) interactive = Timeout.
Proof.
  intros Hz Hw Hl. unfold parse. destruct fuel as [|fuel]; [done|].
  destruct (parse_word commands fuel p w word rest interactive Hz Hw) as (q0 & q & k & c & -> & Eg & Hp & Hk & Eb & _); [lia|].
  destruct (byte_at_plain word rest PARSER_TOTAL_ARGS_SIZE Hw) as (d & Ed & Hd); [rewrite HSIZE in *; lia|].
  unfold parse_command. rewrite Eg. cbn [get_token_loop]. unfold peek. rewrite Hp, Z.add_0_r, Eb, Ed, Hk, Z.leb_refl.
  cbn [mbind outcome_bind pt_data null_token].
  rewrite (consume_forever (S fuel) _ d); [done| |done|cbn; lia]. unfold peek. cbn. by rewrite Hp, Eb.
Qed.

Lemma parse_no_terminator {W} (commands : list (parser_command_t W)) fuel p w word interactive :
  zlen (pr_tokens p) = PARSER_TOTAL_ARGS_SIZE -> Forall (fun c => plain c = true) word -> zlen word = PARSER_TOTAL_ARGS_SIZE ->
  parse commands (S fuel) p w word interactive = Ub.
Proof.
  intros Hz Hw Hl. unfold parse. rewrite <- (app_nil_r word).
  destruct (parse_word commands fuel p w word [] interactive Hz Hw) as (q0 & q & k & c & -> & Eg & Hp & Hk & Eb & Hq); [lia|].
  rewrite app_nil_r in Eb. unfold parse_command. rewrite Eg. cbn [get_token_loop]. unfold peek, byte_at. rewrite Hp, Z.add_0_r, Eb, <- Hl, zlen_to_nat.
  replace (0 <=? zlen word) with true by (symmetry; apply Z.leb_le, zlen_nonneg). rewrite lookup_ge_None_2 by done. cbn [mbind outcome_bind].
  unfold finish_token, put_char, blit. rewrite Hk, Hq, HSIZE. done.
Qed.
