(* ===== verification/ParserGrammar.v ===== *)
(** * What configuration files mean

    A grammar of configuration files, as data types with the text that they are written as:
    tokens with and without quotes, with all escape sequences and line breaks within
    quotes; statements, their arguments separated by blanks and continued lines; and what is
    between statements, empty lines and comments. The meaning of a file is that, for each statement
    in turn, the handler of its command is called with the values of its arguments; [ParserRun]
    proves that this is what the parser does. The bounds are those of the parser's arrays, per statement; the file can be of any length.

    The grammar leaves out what the parser does not treat that way: an argument without quotes that starts
    with an escape sequence, and a continued line right after a token without quotes. *)

From S2P Require Import Prelude CStrings ParserTokens Parser ParserSafe.

(** ** Grammar *)

Inductive newline := Lf | CrLf.

Definition newline_text (n : newline) : bytes := match n with Lf => [LF] | CrLf => [CR; LF] end.

(** A piece of a token. *)
Inductive piece :=
| Raw (c : Z)
| Escape (c : Z)
| Hex (c1 c2 : Z)
| Break (n : newline).

Definition piece_text (x : piece) : bytes :=
  match x with
  | Raw c => [c]
  | Escape c => [BACKSLASH; c]
  | Hex c1 c2 => [BACKSLASH; c1; c2]
  | Break n => BACKSLASH :: newline_text n
  end.

(** Escape sequences of one letter: carriage return, new line, tabulation, backslash, quotes. *)
Definition escape_value (c : Z) : option Z :=
  if c =? 114 then Some CR
  else if c =? 110 then Some LF
  else if c =? 116 then Some TAB
  else if (c =? BACKSLASH) || is_quote c then Some c
  else None.

Definition piece_value (x : piece) : bytes :=
  match x with
  | Raw c => [c]
  | Escape c => match escape_value c with Some v => [v] | None => [] end
  | Hex c1 c2 => [16 * xdigit_value c1 + xdigit_value c2]
  | Break _ => []
  end.

(** Pieces within quotes, or without ([delimiter] 0). *)
Definition piece_ok (delimiter : Z) (x : piece) : bool :=
  match x with
  | Raw c =>
      if delimiter =? 0 then negb (stop_char c) && negb (c =? BACKSLASH)
      else negb (c =? delimiter) && negb (c =? BACKSLASH) && negb (c =? VT) && negb (is_newline c)
  | Escape c => bool_decide (is_Some (escape_value c))
  | Hex c1 c2 => is_valid_xdigit c1 && is_valid_xdigit c2
  | Break _ => negb (delimiter =? 0)
  end.

Definition pieces_text (l : list piece) : bytes := concat (map piece_text l).
Definition pieces_value (l : list piece) : bytes := concat (map piece_value l).

Inductive token :=
| Word (c : Z) (l : list piece)
| Quoted (delimiter : Z) (l : list piece).

Definition token_text (t : token) : bytes :=
  match t with
  | Word c l => c :: pieces_text l
  | Quoted d l => d :: pieces_text l ++ [d]
  end.

Definition token_value (t : token) : bytes :=
  match t with
  | Word c l => c :: pieces_value l
  | Quoted d l => pieces_value l
  end.

Definition token_wf (t : token) : bool :=
  match t with
  | Word c l => plain c && forallb (piece_ok 0) l
  | Quoted d l => is_quote d && forallb (piece_ok d) l
  end.

(** White space between arguments; it starts with a blank. *)
Inductive space := Blank (c : Z) | Continue (n : newline).

Definition space_text (s : space) : bytes :=
  match s with
  | Blank c => [c]
  | Continue n => BACKSLASH :: newline_text n
  end.

Definition space_ok (s : space) : bool := match s with Blank c => is_blank c | Continue _ => true end.

Definition spaces_text (l : list space) : bytes := concat (map space_text l).

Definition spaces_wf (l : list space) : bool :=
  forallb space_ok l && match l with Continue _ :: _ => false | _ => true end.

Definition argument_text (a : list space * token) : bytes := spaces_text a.1 ++ token_text a.2.

Definition argument_wf (a : list space * token) : bool :=
  spaces_wf a.1 && negb (bool_decide (a.1 = [])) && token_wf a.2.

Record statement := {
  st_command : token;
  st_arguments : list (list space * token);
  st_trailing : list space;
}.

Definition statement_text (s : statement) : bytes :=
  token_text (st_command s) ++ concat (map argument_text (st_arguments s)) ++ spaces_text (st_trailing s).

Definition st_name (s : statement) : bytes := token_value (st_command s).
Definition st_values (s : statement) : list bytes := map (fun a => token_value a.2) (st_arguments s).

(** What a statement takes of the token buffer. *)
Definition values_size (l : list bytes) : Z := foldr (fun v n => zlen v + 1 + n) 0 l.

Definition statement_wf (s : statement) : bool :=
  token_wf (st_command s) && forallb argument_wf (st_arguments s) && spaces_wf (st_trailing s) &&
  forallb (fun c => negb (c =? 0)) (st_name s) &&
  (values_size (st_name s :: st_values s) <=? PARSER_TOTAL_ARGS_SIZE) &&
  (zlen (st_arguments s) <? PARSER_MAX_ARGS).

(** What is between statements. *)
Inductive gap := GBlank (c : Z) | GNewline (n : newline) | GComment (text : bytes) (n : newline).

Definition gap_text (g : gap) : bytes :=
  match g with
  | GBlank c => [c]
  | GNewline n => newline_text n
  | GComment text n => HASH :: text ++ newline_text n
  end.

Definition gap_ok (g : gap) : bool :=
  match g with
  | GBlank c => is_blank c
  | GNewline _ => true
  | GComment text _ => forallb (fun c => negb (is_newline c)) text
  end.

Definition gaps_text (l : list gap) : bytes := concat (map gap_text l).

(** A statement ends with a line break or a comment. *)
Definition gap_ends (l : list gap) : bool := match l with GBlank _ :: _ | [] => false | _ => true end.

(** The rest of a file after some statement: gaps and statements, and a last gap. *)
Fixpoint rest_text (l : list (list gap * statement)) (last : list gap) : bytes :=
  match l with
  | [] => gaps_text last
  | (g, s) :: l => gaps_text g ++ statement_text s ++ rest_text l last
  end.

Fixpoint rest_wf (l : list (list gap * statement)) (last : list gap) : bool :=
  match l with
  | [] => forallb gap_ok last && (gap_ends last || bool_decide (last = []))
  | (g, s) :: l => forallb gap_ok g && gap_ends g && statement_wf s && rest_wf l last
  end.

(** A file, the first statement of which can be on its first line. *)
Record file := {
  f_statements : list (list gap * statement);
  f_last : list gap;
}.

Definition file_text (f : file) : bytes := rest_text (f_statements f) (f_last f).

Definition file_wf (f : file) : bool :=
  match f_statements f with
  | [] => forallb gap_ok (f_last f)
  | (g, s) :: l => forallb gap_ok g && statement_wf s && rest_wf l (f_last f)
  end.

(** ** Meaning *)

Section Meaning.
Context {W : Type}.

(** What a handler does, as a function of the texts of its arguments. *)
Definition action : Type := W -> list bytes -> W * bool.

Fixpoint find_action (actions : list (bytes * action)) (name : bytes) : option action :=
  match actions with
  | [] => None
  | (n, f) :: actions => if bool_decide (n = name) then Some f else find_action actions name
  end.

Fixpoint run_statements (actions : list (bytes * action)) (l : list statement) (w : W) (result : bool) : W * bool :=
  match l with
  | [] => (w, result)
  | s :: l =>
      match find_action actions (st_name s) with
      | None => run_statements actions l w false
      | Some f =>
          let '(w, ok) := f w (st_values s) in
          run_statements actions l w (result && ok)
      end
  end.

(** A token of the parser that stands for a text. *)
Definition reads (tokens : bytes) (t : parser_token_t) (v : bytes) : Prop :=
  exists before after, (tokens, t) = at_token before v after.

(** A command implements an action if its handler depends on the texts of its arguments only. *)
Definition implements (c : parser_command_t W) (a : bytes * action) : Prop :=
  pc_name c = a.1 /\
  forall p w args values, Forall2 (reads (pr_tokens p)) args values -> pc_set_proc c p w args = a.2 w values.

End Meaning.
