(* ===== verification/ParserRun.v ===== *)
(** * The parser on configuration files

    The parser does with the text of a file of the grammar of [ParserGrammar] what the file
    means ([parse_file_text]); [initialize_commands] makes [find_command] find what it should
    ([find_command_action]). *)

From S2P Require Import Prelude CStrings ParserTokens Parser ParserSafe ParserGrammar.

(** ** Positions *)

(** The text that the parser has ahead of it. *)
Definition ahead (p : Parser) (rest : bytes) : Prop :=
  0 <= pr_pos p /\ drop (Z.to_nat (pr_pos p)) (pr_buffer p) = rest.

Lemma ahead_peek p rest i : ahead p rest -> 0 <= i -> peek p i = rest !! Z.to_nat i.
Proof.
  intros [H0 <-] Hi. unfold peek, byte_at. rewrite (proj2 (Z.leb_le _ _)) by lia. rewrite lookup_drop. f_equal. lia.
Qed.

Lemma ahead_peek_nil p : ahead p [] -> peek p 0 = None.
Proof. intros H. by rewrite (ahead_peek _ _ 0 H). Qed.

Lemma ahead_peek_0 p c rest : ahead p (c :: rest) -> peek p 0 = Some c.
Proof. intros H. by rewrite (ahead_peek _ _ 0 H). Qed.

Lemma ahead_peek_1 p c d rest : ahead p (c :: d :: rest) -> peek p 1 = Some d.
Proof. intros H. by rewrite (ahead_peek _ _ 1 H). Qed.

Lemma ahead_length p rest : ahead p rest -> (length rest <= length (pr_buffer p))%nat.
Proof. intros [_ <-]. rewrite length_drop. lia. Qed.

Lemma ahead_move p q c rest : ahead p (c :: rest) -> pr_buffer q = pr_buffer p -> pr_pos q = pr_pos p + 1 -> ahead q rest.
Proof.
  intros [H0 Hd] Eb Ep. split; [lia|]. rewrite Eb, Ep. replace (Z.to_nat (pr_pos p + 1)) with (Z.to_nat (pr_pos p) + 1)%nat by lia.
  by rewrite <- drop_drop, Hd.
Qed.

Lemma ahead_same p q rest : ahead p rest -> pr_buffer q = pr_buffer p -> pr_pos q = pr_pos p -> ahead q rest.
Proof. unfold ahead. by intros ? -> ->. Qed.

Lemma ahead_advance p c rest : ahead p (c :: rest) -> ahead (advance_pos p) rest.
Proof. intros H. by eapply ahead_move. Qed.

Lemma ahead_new_line p rest : ahead p rest -> ahead (new_line p) rest.
Proof. done. Qed.

#[local] Hint Resolve ahead_peek_nil ahead_peek_0 ahead_peek_1 ahead_advance ahead_new_line : c3.

(** ** White space *)

Ltac frames := repeat first [done | eapply frame_trans; [|done]].

Lemma skip_comment_text fuel : forall p c text d rest, ahead p (c :: text ++ d :: rest) ->
  forallb (fun c => negb (is_newline c)) text = true -> is_newline d = true -> (length text < fuel)%nat ->
  exists q, skip_comment fuel p = Ret q /\ frame p q /\ ahead q (d :: rest).
Proof.
  induction fuel as [|fuel IH]; intros p c text d rest Ha Ht Hd Hf; [lia|]. cbn [skip_comment].
  destruct text as [|t text]; cbn [app] in Ha; pose proof (ahead_advance _ _ _ Ha) as Ha'; rewrite (ahead_peek_0 _ _ _ Ha').
  - rewrite Hd. by exists (advance_pos p).
  - cbn [forallb] in Ht. apply andb_true_iff in Ht as [Ht1%negb_true_iff Ht]. rewrite Ht1.
    destruct (IH (advance_pos p) t text d rest) as (q & -> & Hq & Haq); [done..|cbn in Hf; lia|]. by exists q.
Qed.

(** The text after white space, as [skip_ws] sees it. *)
Definition starts (start : Z -> bool) (rest : bytes) : Prop :=
  match rest with [] => True | c :: _ => start c = true end.

Definition nonempty (rest : bytes) : bool := match rest with [] => false | _ => true end.

Lemma is_blank_inv c : is_blank c = true -> (c =? CR) = false /\ (c =? LF) = false /\ (c =? BACKSLASH) = false.
Proof. unfold is_blank, SPACE, TAB, VT, CR, LF, BACKSLASH. intros H. rewrite !Z.eqb_neq. zbool. destruct (c =? 32) eqn:?, (c =? 9) eqn:?, (c =? 11) eqn:?; zbool; try done; lia. Qed.

(** One line break. *)
Lemma skip_newline fuel p n rest : ahead p (newline_text n ++ rest) ->
  exists q, skip_ws_loop (S fuel) p = skip_ws_loop fuel q /\ frame p q /\ ahead q rest.
Proof.
  intros Ha. destruct n; cbn [newline_text app] in Ha; cbn [skip_ws_loop]; rewrite (ahead_peek_0 _ _ _ Ha); cbn [Z.eqb CR LF Pos.eqb].
  - eexists. split; [done|]. split; [done|]. eauto with c3.
  - unfold peek_is. rewrite (ahead_peek_1 _ _ _ _ Ha). cbn [Z.eqb LF Pos.eqb]. eexists. split; [done|]. split; [done|]. eauto with c3.
Qed.

Lemma skip_ws_end fuel p rest : ahead p rest -> starts ws_start rest -> skip_ws_loop (S fuel) p = Ret (p, nonempty rest).
Proof.
  intros Ha Hs. cbn [skip_ws_loop]. destruct rest as [|c rest]; [by rewrite ahead_peek_nil|]. rewrite (ahead_peek_0 _ _ _ Ha).
  cbn in Hs. unfold ws_start, stop_char, is_newline in Hs. apply negb_true_iff in Hs. apply orb_false_iff in Hs as [[H1 H2]%orb_false_iff [H3 H4]%orb_false_iff].
  by rewrite H1, H2, H3, H4.
Qed.

Lemma skip_gaps fuel : forall p l rest, ahead p (gaps_text l ++ rest) -> forallb gap_ok l = true -> starts ws_start rest ->
  (length (gaps_text l ++ rest) < fuel)%nat ->
  exists q, skip_ws_loop fuel p = Ret (q, nonempty rest) /\ frame p q /\ ahead q rest.
Proof.
  induction fuel as [fuel IH] using lt_wf_ind. intros p l rest Ha Hl Hs Hf. destruct fuel as [|fuel]; [lia|].
  destruct l as [|g l]; [exists p; split; [by apply skip_ws_end|done]|].
  cbn [forallb] in Hl. apply andb_true_iff in Hl as [Hg Hl]. cbn [gaps_text map concat] in Ha, Hf. rewrite <- app_assoc in Ha, Hf.
  fold (gaps_text l) in Ha, Hf. rewrite length_app in Hf.
  assert (Hnl : forall q n, (length (newline_text n) <= length (gap_text g))%nat -> ahead q (newline_text n ++ gaps_text l ++ rest) -> frame p q -> forall k, (length (gaps_text l ++ rest) < k <= fuel)%nat ->
    exists q', skip_ws_loop (S k) q = Ret (q', nonempty rest) /\ frame p q' /\ ahead q' rest).
  { intros q n Hn Hq Fq k Hk. destruct (skip_newline k q n (gaps_text l ++ rest) Hq) as (q1 & -> & Hq1 & Ha1).
    destruct (IH k ltac:(lia) q1 l rest) as (q' & -> & Hq' & Ha'); [done..|lia|].
    exists q'. split; [done|]. split; [|done]. eapply frame_trans; [exact Fq|]. by eapply frame_trans. }
  destruct g as [c|n|text n]; cbn [gap_text gap_ok] in *.
  - cbn [app length] in *. cbn [skip_ws_loop]. rewrite (ahead_peek_0 _ _ _ Ha). destruct (is_blank_inv c Hg) as (-> & -> & _). rewrite Hg.
    destruct (IH fuel ltac:(lia) (advance_pos p) l rest) as (q & -> & Hq & Haq); [eauto with c3|done..|lia|]. by exists q.
  - apply (Hnl p n); [done..|]. destruct n; cbn in Hf; lia.
  - cbn [app] in Ha. rewrite <- app_assoc in Ha. cbn [skip_ws_loop]. rewrite (ahead_peek_0 _ _ _ Ha). cbn [Z.eqb CR LF HASH is_blank SPACE TAB VT Pos.eqb orb].
    assert (Hd : exists d r, newline_text n ++ gaps_text l ++ rest = d :: r /\ is_newline d = true) by (destruct n; cbn; eauto).
    destruct Hd as (d & r & Ed & Hd). rewrite Ed in Ha.
    destruct (skip_comment_text (S (length (pr_buffer p))) p HASH text d r) as (q & -> & Hq & Haq); [done..| |].
    { apply ahead_length in Ha. cbn in Ha. rewrite length_app in Ha. lia. }
    cbn [mbind outcome_bind]. rewrite <- Ed in Haq. destruct fuel as [|fuel]; [cbn in Hf; lia|].
    cbn [length] in *. rewrite length_app in *. eapply (Hnl q n); [lia|done|done|]. destruct n; cbn in Hf; lia.
Qed.

Lemma skip_ws_text p l rest : ahead p (gaps_text l ++ rest) -> forallb gap_ok l = true -> starts ws_start rest ->
  exists q, skip_ws p = Ret (q, nonempty rest) /\ frame p q /\ ahead q rest.
Proof. intros Ha Hl Hs. apply (skip_gaps _ _ l); [done..|]. apply ahead_length in Ha. lia. Qed.

(** The text after the blanks of a line: an argument, or the end of the statement. *)
Definition line_end (c : Z) : bool := is_newline c || (c =? HASH).

Lemma skip_line_ws_text_loop fuel : forall p l rest, ahead p (spaces_text l ++ rest) -> forallb space_ok l = true ->
  (length (spaces_text l ++ rest) < fuel)%nat ->
  exists q fuel', skip_line_ws_loop fuel p = skip_line_ws_loop fuel' q /\ frame p q /\ ahead q rest /\ (length rest < fuel')%nat.
Proof.
  induction fuel as [|fuel IH]; intros p l rest Ha Hl Hf; [lia|].
  destruct l as [|s l]; [by exists p, (S fuel)|]. cbn [forallb] in Hl. apply andb_true_iff in Hl as [Hs Hl].
  cbn [spaces_text map concat] in Ha, Hf. rewrite <- app_assoc in Ha, Hf. fold (spaces_text l) in Ha, Hf. rewrite length_app in Hf.
  assert (Hstep : forall q, ahead q (spaces_text l ++ rest) -> frame p q -> (0 < length (space_text s))%nat ->
    exists q' fuel', skip_line_ws_loop fuel q = skip_line_ws_loop fuel' q' /\ frame p q' /\ ahead q' rest /\ (length rest < fuel')%nat).
  { intros q Hq Fq Hpos. destruct (IH q l rest) as (q' & k & -> & Hq' & Ha' & Hk); [done..|lia|].
    exists q', k. split; [done|]. split; [by eapply frame_trans|done]. }
  cbn [skip_line_ws_loop]. destruct s as [c|n]; cbn [space_text space_ok] in *.
  - cbn [app] in Ha. rewrite (ahead_peek_0 _ _ _ Ha). destruct (is_blank_inv c Hs) as (_ & _ & ->). rewrite Hs.
    apply Hstep; [eauto with c3|done|cbn; lia].
  - cbn [app] in Ha. rewrite (ahead_peek_0 _ _ _ Ha). cbn [Z.eqb BACKSLASH Pos.eqb]. unfold skip_continuation, peek_is.
    destruct n; cbn [newline_text app] in Ha; rewrite (ahead_peek_1 _ _ _ _ Ha); cbn [Z.eqb CR LF Pos.eqb].
    + apply Hstep; [eauto with c3|done|cbn; lia].
    + rewrite (ahead_peek_1 (advance_pos p) CR LF (spaces_text l ++ rest)) by eauto with c3. cbn [Z.eqb LF Pos.eqb].
      apply Hstep; [eauto with c3|done|cbn; lia].
Qed.

Lemma skip_line_ws_text p l rest (more : bool) : ahead p (spaces_text l ++ rest) -> forallb space_ok l = true ->
  starts (if more then arg_start else line_end) rest -> (more = true -> rest <> []) ->
  exists q, skip_line_ws p = Ret (q, more) /\ frame p q /\ ahead q rest.
Proof.
  intros Ha Hl Hs Hm. destruct (skip_line_ws_text_loop (S (length (pr_buffer p))) p l rest Ha Hl) as (q & k & E & Hq & Haq & Hk).
  { apply ahead_length in Ha. lia. }
  exists q. split; [|done]. unfold skip_line_ws. rewrite E. destruct k as [|k]; [lia|]. cbn [skip_line_ws_loop].
  destruct rest as [|c rest]; [rewrite ahead_peek_nil by done; destruct more; [by destruct Hm|done]|].
  rewrite (ahead_peek_0 _ _ _ Haq). cbn [starts] in Hs. destruct more.
  - unfold arg_start, stop_char in Hs. apply andb_true_iff in Hs as [Hs%negb_true_iff ->%negb_true_iff].
    apply orb_false_iff in Hs as [[-> ->]%orb_false_iff ->]. done.
  - assert (is_blank c = false /\ (c =? BACKSLASH) = false) as [-> ->].
    { unfold line_end, is_newline in Hs. rewrite !orb_true_iff, !Z.eqb_eq in Hs. by destruct Hs as [[-> | ->]| ->]. }
    unfold line_end in Hs. by rewrite Hs.
Qed.

(** ** Tokens *)

(** What is in the token buffer. *)
Definition toks (p : Parser) : bytes := take (Z.to_nat (pr_tokpos p)) (pr_tokens p).

(** The parser stored [v] in addition. *)
Record wrote (p q : Parser) (v : bytes) : Prop := {
  wr_args : pr_args q = pr_args p;
  wr_nargs : pr_nargs q = pr_nargs p;
  wr_buffer : pr_buffer q = pr_buffer p;
  wr_size : zlen (pr_tokens q) = zlen (pr_tokens p);
  wr_toks : toks q = toks p ++ v;
  wr_tokpos : pr_tokpos q = pr_tokpos p + zlen v;
}.

Lemma wrote_nil p q : frame p q -> wrote p q [].
Proof. intros (Et & Ea & Eb & Ek & En). split; try done; unfold toks; rewrite ?Et, ?Ek, ?app_nil_r; (done || (unfold zlen; cbn; lia)). Qed.

Lemma wrote_trans p q r v1 v2 : wrote p q v1 -> wrote q r v2 -> wrote p r (v1 ++ v2).
Proof.
  intros [] []. split; try congruence; [|zlen].
  rewrite wr_toks1, wr_toks0. by rewrite app_assoc.
Qed.

Lemma wrote_frame p q r v : wrote p q v -> frame q r -> wrote p r v.
Proof. intros H1 H2. rewrite <- (app_nil_r v). eapply wrote_trans; [done|by apply wrote_nil]. Qed.

Lemma frame_wrote p q r v : frame p q -> wrote q r v -> wrote p r v.
Proof. intros H1 H2. change v with ([] ++ v). eapply wrote_trans; [by apply wrote_nil|done]. Qed.

Lemma put_char_wrote p c : zlen (pr_tokens p) = PARSER_TOTAL_ARGS_SIZE -> 0 <= pr_tokpos p < PARSER_TOTAL_ARGS_SIZE ->
  exists q, put_char p c = Ret q /\ wrote p q [c] /\ pr_pos q = pr_pos p.
Proof.
  intros Hz Hk. destruct (put_char_ok p c Hz Hk) as (q & E & G & Hq & Hp & Hc & _). exists q. split; [done|]. split; [|done].
  split; try apply G; [|zlen]. unfold toks. rewrite Hq.
  replace (Z.to_nat (pr_tokpos p + 1)) with (S (Z.to_nat (pr_tokpos p))) by lia.
  unfold byte_at in Hc. rewrite (proj2 (Z.leb_le _ _)) in Hc by lia. rewrite (take_S_r _ _ c) by done. f_equal.
  apply list_eq. intros i. destruct (decide (i < Z.to_nat (pr_tokpos p))%nat) as [Hi|Hi].
  - rewrite !lookup_take_lt by done. pose proof (gr_prefix _ _ G (Z.of_nat i) ltac:(lia)) as Hpre. unfold byte_at in Hpre.
    rewrite (proj2 (Z.leb_le _ _)) in Hpre by lia. by rewrite Nat2Z.id in Hpre.
  - rewrite !lookup_take_ge by lia. done.
Qed.

(** What the text of a piece makes of the loop of [get_token]. *)
Lemma xdigit_range c : is_valid_xdigit c = true -> 0 <= xdigit_value c < 16.
Proof.
  unfold is_valid_xdigit, xdigit_value. intros H. rewrite !orb_true_iff, !andb_true_iff, !Z.leb_le in H.
  destruct (65 <=? c) eqn:?, (c <=? 70) eqn:?, (97 <=? c) eqn:?, (c <=? 102) eqn:?; cbn; zbool; lia.
Qed.

Lemma xdigit_not c : is_valid_xdigit c = true ->
  (c =? 114) = false /\ (c =? 110) = false /\ (c =? 116) = false /\ (c =? BACKSLASH) || is_quote c = false /\ is_newline c = false.
Proof.
  unfold is_valid_xdigit, is_quote, is_newline, BACKSLASH, QUOTE1, QUOTE2, BACKTICK, LF, CR. intros H.
  rewrite !orb_true_iff, !andb_true_iff, !Z.leb_le in H. rewrite !orb_false_iff, !Z.eqb_neq. lia.
Qed.

Lemma escape_not_newline c v : escape_value c = Some v -> is_newline c = false.
Proof.
  unfold is_newline. destruct (Z.eqb_spec c LF) as [->|]; [done|]. destruct (Z.eqb_spec c CR) as [->|]; done.
Qed.

Lemma get_escape_letter p c v : escape_value c = Some v -> get_escape p c = inl (v, false).
Proof.
  unfold escape_value, get_escape. destruct (c =? 114); [by intros [= <-]|]. destruct (c =? 110); [by intros [= <-]|].
  destruct (c =? 116); [by intros [= <-]|]. destruct ((c =? BACKSLASH) || is_quote c); [by intros [= <-]|done].
Qed.

Lemma get_escape_hex p c1 c2 : is_valid_xdigit c1 = true -> is_valid_xdigit c2 = true -> peek p 1 = Some c2 ->
  get_escape p c1 = inl (16 * xdigit_value c1 + xdigit_value c2, true).
Proof.
  intros H1 H2 Hp. unfold get_escape. destruct (xdigit_not c1 H1) as (-> & -> & -> & -> & _). rewrite H1, Hp, H2.
  pose proof (xdigit_range c1 H1). pose proof (xdigit_range c2 H2). do 2 f_equal. rewrite Z.shiftl_mul_pow2 by lia.
  rewrite u8_small; [lia|]. unfold is_u8. lia.
Qed.

Section Token.
Variable delimiter : Z.

Lemma get_token_piece fuel p c0 x rest : ahead p (piece_text x ++ rest) -> piece_ok delimiter x = true ->
  zlen (pr_tokens p) = PARSER_TOTAL_ARGS_SIZE -> 0 <= pr_tokpos p < PARSER_TOTAL_ARGS_SIZE ->
  exists q c, get_token_loop (S fuel) delimiter p c0 = get_token_loop fuel delimiter q c /\ wrote p q (piece_value x) /\ ahead q rest.
Proof.
  intros Ha Hx Hz Hk. cbn [get_token_loop].
  assert (Hput : forall q v c r, frame p q -> ahead q (c :: r) ->
    exists q', (forall c0, (p ← put_char q v; get_token_loop fuel delimiter (advance_pos p) c0) = get_token_loop fuel delimiter q' c0) /\ wrote p q' [v] /\ ahead q' r).
  { intros q v c r Hq Hqa. destruct (Hq) as (Et & _ & _ & Ek & _).
    destruct (put_char_wrote q v) as (q' & E & Hw & Hp); [by rewrite Et|by rewrite Ek|]. exists (advance_pos q'). rewrite E. split; [done|]. split.
    - eapply frame_wrote; [done|]. by eapply wrote_frame.
    - eapply ahead_move; [done| |by cbn; rewrite Hp]. cbn. apply (wr_buffer _ _ _ Hw). }
  assert (Hnk : (PARSER_TOTAL_ARGS_SIZE <=? pr_tokpos p) = false) by (apply Z.leb_gt; lia).
  destruct x as [c|c|c1 c2|n]; cbn [piece_text piece_ok piece_value app] in *; rewrite (ahead_peek_0 _ _ _ Ha), Hnk.
  - destruct (Hput p c c rest) as (q' & E & Hw & Ha'); [done..|]. exists q', c. split; [|done]. destruct (Z.eqb_spec delimiter 0) as [->|Hd].
    + rewrite andb_false_r. apply andb_true_iff in Hx as [Hx%negb_true_iff Hb%negb_true_iff]. unfold stop_char in Hx. rewrite Hx, Hb.
      replace (negb (c =? 0) && (c =? 0)) with false by by destruct (c =? 0). apply E.
    + cbn [negb]. rewrite andb_true_r. destruct ((c =? SPACE) || (c =? TAB) || (c =? HASH)) eqn:Es; [apply E|].
      apply andb_true_iff in Hx as [[[Hx1%negb_true_iff Hx2%negb_true_iff]%andb_true_iff Hx3%negb_true_iff]%andb_true_iff Hx4%negb_true_iff].
      apply orb_false_iff in Es as [[Es1 Es2]%orb_false_iff Es3]. unfold is_blank. rewrite Es1, Es2, Es3, Hx3, Hx4, Hx2, Hx1, andb_false_r. apply E.
  - apply bool_decide_eq_true in Hx as [v Hv]. rewrite Hv. cbn [Z.eqb BACKSLASH SPACE TAB HASH is_blank VT is_newline LF CR Pos.eqb orb andb].
    assert (Ha1 := ahead_advance _ _ _ Ha). rewrite (ahead_peek_0 _ _ _ Ha1), (escape_not_newline c v Hv), (get_escape_letter _ c v Hv).
    destruct (Hput (advance_pos p) v c rest) as (q' & E & Hw & Ha'); [done..|]. exists q', BACKSLASH. split; [apply E|done].
  - apply andb_true_iff in Hx as [H1 H2]. cbn [Z.eqb BACKSLASH SPACE TAB HASH is_blank VT is_newline LF CR Pos.eqb orb andb].
    assert (Ha1 := ahead_advance _ _ _ Ha). rewrite (ahead_peek_0 _ _ _ Ha1). destruct (xdigit_not c1 H1) as (_ & _ & _ & _ & ->).
    rewrite (get_escape_hex _ c1 c2) by (done || eauto with c3).
    destruct (Hput (advance_pos (advance_pos p)) (16 * xdigit_value c1 + xdigit_value c2) c2 rest) as (q' & E & Hw & Ha'); [done|eauto with c3|].
    exists q', BACKSLASH. split; [apply E|done].
  - cbn [Z.eqb BACKSLASH SPACE TAB HASH is_blank VT is_newline LF CR Pos.eqb orb andb].
    assert (Ha1 := ahead_advance _ _ _ Ha). destruct n; cbn [newline_text app] in Ha1; rewrite (ahead_peek_0 _ _ _ Ha1); cbn [is_newline LF CR Z.eqb Pos.eqb orb andb]; rewrite Hx.
    + eexists _, BACKSLASH. split; [done|]. split; [by apply wrote_nil|]. eauto with c3.
    + unfold peek_is. rewrite (ahead_peek_1 _ _ _ _ Ha1). cbn [LF Z.eqb Pos.eqb].
      eexists _, BACKSLASH. split; [done|]. split; [by apply wrote_nil|]. eauto with c3.
Qed.

Lemma piece_text_pos x : (0 < length (piece_text x))%nat.
Proof. destruct x; cbn; lia. Qed.

Lemma get_token_pieces l : forall fuel p c0 rest, ahead p (pieces_text l ++ rest) -> forallb (piece_ok delimiter) l = true ->
  zlen (pr_tokens p) = PARSER_TOTAL_ARGS_SIZE -> 0 <= pr_tokpos p -> pr_tokpos p + zlen (pieces_value l) < PARSER_TOTAL_ARGS_SIZE ->
  (length (pieces_text l ++ rest) < fuel)%nat ->
  exists fuel' q c, get_token_loop fuel delimiter p c0 = get_token_loop fuel' delimiter q c /\ wrote p q (pieces_value l) /\ ahead q rest /\
    (length rest < fuel')%nat.
Proof.
  induction l as [|x l IH]; intros fuel p c0 rest Ha Hl Hz H0 Hk Hf.
  { exists fuel, p, c0. split; [done|]. split; [by apply wrote_nil|done]. }
  cbn [pieces_text pieces_value map concat forallb] in *. fold (pieces_text l) (pieces_value l) in *.
  apply andb_true_iff in Hl as [Hx Hl]. rewrite <- app_assoc in Ha, Hf. rewrite zlen_app in Hk. rewrite length_app in Hf.
  pose proof (piece_text_pos x). pose proof (zlen_nonneg (piece_value x)). pose proof (zlen_nonneg (pieces_value l)).
  destruct fuel as [|fuel]; [lia|].
  destruct (get_token_piece fuel p c0 x (pieces_text l ++ rest) Ha Hx Hz) as (q & c & -> & Hw & Haq); [lia|].
  destruct (IH fuel q c rest) as (k & r & d & -> & Hr & Har & Hkr); [done|done|by rewrite (wr_size _ _ _ Hw)|rewrite (wr_tokpos _ _ _ Hw); lia|rewrite (wr_tokpos _ _ _ Hw); lia|lia|].
  exists k, r, d. split; [done|]. split; [by eapply wrote_trans|done].
Qed.

End Token.

(** A token's text becomes its value, with a terminator. *)
Lemma get_token_text p t rest : ahead p (token_text t ++ rest) -> token_wf t = true ->
  match t with Word _ _ => starts stop_char rest | Quoted _ _ => True end ->
  zlen (pr_tokens p) = PARSER_TOTAL_ARGS_SIZE -> 0 <= pr_tokpos p -> pr_tokpos p + zlen (token_value t) < PARSER_TOTAL_ARGS_SIZE ->
  exists q, get_token p = Ret (q, {| pt_data := Some (pr_tokpos p); pt_length := zlen (token_value t) |}) /\
    wrote p q (token_value t ++ [0]) /\ ahead q rest.
Proof.
  intros Ha Ht Hstop Hz H0 Hk. assert (Hfin : forall delimiter q c, wrote p q (token_value t) -> ahead q rest ->
    (delimiter = 0 /\ token_value t <> [] \/ delimiter <> 0 /\ c = delimiter) ->
    exists r, finish_token (pr_tokpos p) delimiter q c = Ret (r, {| pt_data := Some (pr_tokpos p); pt_length := zlen (token_value t) |}) /\
      wrote p r (token_value t ++ [0]) /\ ahead r rest).
  { intros d q c Hw Haq Hd. unfold finish_token. pose proof (zlen_nonneg (token_value t)).
    destruct (put_char_wrote q 0) as (r & Er & Hr & Hp); [by rewrite (wr_size _ _ _ Hw)|rewrite (wr_tokpos _ _ _ Hw); lia|].
    exists r. split; [|split; [by eapply wrote_trans|eapply ahead_same; [done|apply (wr_buffer _ _ _ Hr)|done]]]. rewrite Er.
    replace (negb (d =? 0) && negb (c =? d)) with false.
    2:{ destruct Hd as [[-> _]|[_ ->]]; [done|]. by rewrite Z.eqb_refl, andb_false_r. }
    replace ((pr_tokpos p <? pr_tokpos q) || negb (d =? 0)) with true.
    2:{ symmetry. apply orb_true_iff. destruct Hd as [[_ Hne]|[Hne _]]; [left|right; by apply negb_true_iff, Z.eqb_neq].
        apply Z.ltb_lt. rewrite (wr_tokpos _ _ _ Hw). destruct (token_value t); [done|]. pose proof (zlen_nonneg l). zlen. }
    cbn [mbind outcome_bind]. rewrite (wr_tokpos _ _ _ Hw). do 3 f_equal. rewrite u32_small; [lia|].
    rewrite HSIZE in Hk. unfold is_u32. lia. }
  unfold get_token. destruct t as [c l|d l]; cbn [token_text token_value token_wf app] in *.
  - apply andb_true_iff in Ht as [Hc Hl]. destruct (plain_inv c Hc) as (Hb & Hnq & H3 & H4 & H5).
    rewrite (ahead_peek_0 _ _ _ Ha). cbn [of_option mbind outcome_bind]. rewrite Hnq.
    destruct (get_token_pieces 0 (Raw c :: l) (S (length (pr_buffer p))) p 0 rest) as (k & q & d & -> & Hw & Haq & Hkk).
    { done. }
    { cbn [forallb piece_ok Z.eqb]. unfold stop_char. by rewrite Hb, H3, H4, H5, Hl. }
    { done. } { done. } { done. }
    { apply ahead_length in Ha. cbn [length] in Ha. change (length (c :: (pieces_text l ++ rest)) < S (length (pr_buffer p)))%nat. cbn [length]. lia. }
    destruct k as [|k]; [lia|].
    assert (E : exists d', get_token_loop (S k) 0 q d = Ret (q, Some d')).
    { cbn [get_token_loop]. destruct rest as [|e rest]; [exists d; by rewrite ahead_peek_nil|]. rewrite (ahead_peek_0 _ _ _ Haq).
      rewrite (proj2 (Z.leb_gt _ _)) by (rewrite (wr_tokpos _ _ _ Hw); exact Hk). rewrite andb_false_r. cbn [starts] in Hstop. unfold stop_char in Hstop. rewrite Hstop. by eexists. }
    destruct E as [d' ->]. cbn [mbind outcome_bind]. apply Hfin; [done..|]. by left.
  - apply andb_true_iff in Ht as [Hq Hl]. rewrite (ahead_peek_0 _ _ _ Ha). cbn [of_option mbind outcome_bind]. rewrite Hq.
    assert (Hd : d <> 0) by by intros ->. assert (Ha1 := ahead_advance _ _ _ Ha). rewrite <- app_assoc in Ha1.
    destruct (get_token_pieces d l (S (length (pr_buffer (advance_pos p)))) (advance_pos p) 0 ([d] ++ rest)) as (k & q & c & -> & Hw & Haq & Hkk);
      [done..|apply ahead_length in Ha1; lia|].
    destruct k as [|k]; [lia|]. cbn [get_token_loop]. cbn [app] in Haq. rewrite (ahead_peek_0 _ _ _ Haq).
    rewrite (proj2 (Z.leb_gt _ _)) by (rewrite (wr_tokpos _ _ _ Hw); exact Hk).
    assert (Hdd : (d =? SPACE) || (d =? TAB) || (d =? HASH) = false /\ is_blank d || (d =? HASH) || is_newline d = false /\ (d =? BACKSLASH) = false).
    { unfold is_quote in Hq. rewrite !orb_true_iff, !Z.eqb_eq in Hq. by destruct Hq as [[-> | ->]| ->]. }
    destruct Hdd as (-> & -> & ->). cbn [andb]. rewrite (proj2 (Z.eqb_neq d 0) Hd), Z.eqb_refl. cbn [negb andb mbind outcome_bind].
    apply Hfin; [|by eapply ahead_advance|by right]. eapply frame_wrote; [|by eapply wrote_frame]. done.
Qed.

(** ** Statements *)

Lemma zlen_toks p : 0 <= pr_tokpos p <= zlen (pr_tokens p) -> zlen (toks p) = pr_tokpos p.
Proof. intros H. unfold toks, zlen in *. rewrite length_take. lia. Qed.

Lemma reads_wrote p q v t u : wrote p q v -> reads (toks p) t u -> reads (toks q) t u.
Proof.
  intros Hw (before & after & [= E ->]). exists before, (after ++ v). unfold at_token. f_equal.
  rewrite (wr_toks _ _ _ Hw), E. by rewrite <- !app_assoc.
Qed.

Lemma reads_tokens p t u : reads (toks p) t u -> reads (pr_tokens p) t u.
Proof.
  intros (before & after & [= E ->]). exists before, (after ++ drop (Z.to_nat (pr_tokpos p)) (pr_tokens p)). unfold at_token. f_equal.
  rewrite <- (take_drop (Z.to_nat (pr_tokpos p)) (pr_tokens p)) at 1. fold (toks p). rewrite E. by rewrite <- !app_assoc.
Qed.

Lemma reads_new p q v : 0 <= pr_tokpos p <= zlen (pr_tokens p) -> wrote p q (v ++ [0]) ->
  reads (toks q) {| pt_data := Some (pr_tokpos p); pt_length := zlen v |} v.
Proof.
  intros Hk Hw. exists (toks p), []. unfold at_token. rewrite zlen_toks by done. f_equal. apply (wr_toks _ _ _ Hw).
Qed.

(** The arguments in the parser's array. *)
Definition args_are (p : Parser) (ts : list parser_token_t) : Prop :=
  length (pr_args p) = 16%nat /\ pr_nargs p = zlen ts /\ take (length ts) (pr_args p) = ts.

Lemma args_are_same p q ts : args_are p ts -> pr_args q = pr_args p -> pr_nargs q = pr_nargs p -> args_are q ts.
Proof. unfold args_are. by intros ? -> ->. Qed.

Lemma add_argument_are p ts t : args_are p ts -> zlen ts < PARSER_MAX_ARGS ->
  exists q, add_argument p t = Ret (q, true) /\ args_are q (ts ++ [t]) /\ toks q = toks p /\ pr_tokens q = pr_tokens p /\
    pr_tokpos q = pr_tokpos p /\ pr_buffer q = pr_buffer p /\ pr_pos q = pr_pos p.
Proof.
  intros (Hl & Hn & Ht) Hlt. unfold add_argument. pose proof (zlen_nonneg ts). unfold PARSER_MAX_ARGS in *.
  rewrite Hn, (proj2 (Z.ltb_lt _ _)), (proj2 (Z.leb_le _ _)), (proj2 (Z.ltb_lt _ (zlen (pr_args p)))) by (unfold zlen in *; lia). cbn [andb].
  eexists. split; [done|]. split; [|done]. unfold args_are. cbn. rewrite length_insert, length_app, u32_small by (unfold is_u32; lia).
  split; [done|]. split; [unfold zlen; rewrite length_app; cbn; lia|]. rewrite zlen_to_nat. cbn [length]. rewrite Nat.add_1_r.
  rewrite (take_S_r _ _ t) by (apply list_lookup_insert_eq; unfold zlen in *; lia). by rewrite take_insert_ge, Ht by lia.
Qed.

(** The state in the middle of a statement, with arguments of known values. *)
Record in_text (p : Parser) (ts : list parser_token_t) (vs : list bytes) (rest : bytes) : Prop := {
  it_size : zlen (pr_tokens p) = PARSER_TOTAL_ARGS_SIZE;
  it_tokpos : 0 <= pr_tokpos p;
  it_args : args_are p ts;
  it_reads : Forall2 (reads (toks p)) ts vs;
  it_ahead : ahead p rest;
}.

Lemma in_text_frame p q ts vs r1 r2 : in_text p ts vs r1 -> frame p q -> ahead q r2 -> in_text q ts vs r2.
Proof.
  intros [] (Et & Ea & Eb & Ek & En) Hq. split; unfold toks; rewrite ?Et, ?Ek; try done. by eapply args_are_same.
Qed.

(** One token more. *)
Lemma next_token_text p ts vs t rest : in_text p ts vs (token_text t ++ rest) -> token_wf t = true ->
  match t with Word _ _ => starts stop_char rest | Quoted _ _ => True end ->
  pr_tokpos p + zlen (token_value t) < PARSER_TOTAL_ARGS_SIZE -> zlen ts < PARSER_MAX_ARGS ->
  exists q q' u, get_token p = Ret (q, u) /\ is_Some (pt_data u) /\ add_argument q u = Ret (q', true) /\
    in_text q' (ts ++ [u]) (vs ++ [token_value t]) rest /\ pr_tokpos q' = pr_tokpos p + zlen (token_value t) + 1 /\
    pr_buffer q' = pr_buffer p.
Proof.
  intros [Hz Hk Ha Hr Hh] Ht Hst Hsp Hn. destruct (get_token_text p t rest) as (q & Eg & Hw & Haq); [done..|].
  pose proof (zlen_nonneg (token_value t)).
  destruct (add_argument_are q ts {| pt_data := Some (pr_tokpos p); pt_length := zlen (token_value t) |}) as (q' & Ea & Haa & Etk & Et & Ek & Eb & Ep).
  { by eapply args_are_same; [|apply Hw..]. } { done. }
  eexists q, q', _. split; [exact Eg|]. split; [by eexists|]. split; [exact Ea|]. split; [|split].
  - split; rewrite ?Et, ?Ek, ?Etk; [by rewrite (wr_size _ _ _ Hw)|rewrite (wr_tokpos _ _ _ Hw); zlen|done| |by eapply ahead_same].
    apply Forall2_app; [eapply Forall2_impl; [done|]; intros; by eapply reads_wrote|]. constructor; [|constructor].
    apply reads_new; [lia|done].
  - rewrite Ek, (wr_tokpos _ _ _ Hw). zlen.
  - by rewrite Eb, (wr_buffer _ _ _ Hw).
Qed.

Lemma token_start t rest : token_wf t = true -> token_text t ++ rest <> [] /\ starts arg_start (token_text t ++ rest) /\ starts ws_start (token_text t ++ rest).
Proof.
  destruct t as [c l|d l]; cbn [token_wf token_text app starts]; intros [H _]%andb_true_iff; split; try done.
  - unfold plain in H. apply andb_true_iff in H as [H _]. split; [done|]. unfold ws_start. apply andb_true_iff in H as [H _]. done.
  - unfold is_quote in H. rewrite !orb_true_iff, !Z.eqb_eq in H. by destruct H as [[-> | ->]| ->].
Qed.

Lemma spaces_start l rest : spaces_wf l = true -> starts stop_char rest -> starts stop_char (spaces_text l ++ rest).
Proof.
  destruct l as [|[c|n] l]; [done| |by intros [_ ?]%andb_true_iff]. intros [[H _]%andb_true_iff _]%andb_true_iff _. cbn in *. unfold stop_char. by rewrite H.
Qed.

Lemma line_end_stop rest : starts line_end rest -> starts stop_char rest.
Proof. destruct rest as [|c rest]; [done|]. cbn. unfold line_end, stop_char. rewrite !orb_true_iff. tauto. Qed.

Lemma arguments_start l tail : forallb argument_wf l = true -> starts stop_char tail -> starts stop_char (concat (map argument_text l) ++ tail).
Proof.
  destruct l as [|[s t] l]; [done|]. cbn [forallb map concat]. intros [[[Hs Hne]%andb_true_iff _]%andb_true_iff _]%andb_true_iff _. cbn in *.
  destruct s as [|x s]; [done|]. unfold argument_text. cbn [fst snd]. rewrite <- !app_assoc.
  destruct x as [c|n]; [|by apply andb_true_iff in Hs as [_ ?]]. apply andb_true_iff in Hs as [[H _]%andb_true_iff _]. cbn in *. unfold stop_char. by rewrite H.
Qed.

Lemma values_size_cons v l : values_size (v :: l) = zlen v + 1 + values_size l.
Proof. done. Qed.

Lemma values_size_nonneg l : 0 <= values_size l.
Proof. induction l as [|v l IH]; [done|]. rewrite values_size_cons. pose proof (zlen_nonneg v). lia. Qed.

Lemma collect_text l : forall fuel p ts vs trailing rest,
  in_text p ts vs (concat (map argument_text l) ++ spaces_text trailing ++ rest) ->
  forallb argument_wf l = true -> spaces_wf trailing = true -> starts line_end rest ->
  pr_tokpos p + values_size (map (fun a => token_value a.2) l) <= PARSER_TOTAL_ARGS_SIZE -> zlen ts + zlen l <= PARSER_MAX_ARGS ->
  (length l < fuel)%nat ->
  exists q ts', collect_arguments fuel p = Ret (q, true) /\ in_text q ts' (vs ++ map (fun a => token_value a.2) l) rest /\
    pr_buffer q = pr_buffer p.
Proof.
  induction l as [|[s t] l IH]; intros fuel p ts vs trailing rest Hin Hl Htr Hend Hsz Hn Hf; (destruct fuel as [|fuel]; [lia|]); cbn [collect_arguments].
  - destruct (skip_line_ws_text p trailing rest false) as (q & -> & Hq & Haq); [apply Hin|by apply andb_true_iff in Htr as [? _]|done..|].
    exists q, ts. split; [done|]. rewrite app_nil_r. split; [by eapply in_text_frame|apply Hq].
  - cbn [forallb map concat] in *. rewrite values_size_cons in Hsz.
    apply andb_true_iff in Hl as [[[Hs _]%andb_true_iff Ht]%andb_true_iff Hl]. cbn [fst snd] in *. apply andb_true_iff in Hs as [Hs _].
    pose proof (values_size_nonneg (map (fun a : list space * token => token_value a.2) l)).
    set (tail := concat (map argument_text l) ++ spaces_text trailing ++ rest).
    assert (Ha : ahead p (spaces_text s ++ token_text t ++ tail)).
    { pose proof (it_ahead _ _ _ _ Hin) as Ha. unfold argument_text in Ha. cbn [fst snd] in Ha. by rewrite <- !app_assoc in Ha. }
    destruct (token_start t tail Ht) as (Hne & Hst & _).
    destruct (skip_line_ws_text p s (token_text t ++ tail) true Ha Hs Hst) as (q & -> & Hq & Haq); [done|]. cbn [mbind outcome_bind].
    pose proof (in_text_frame _ _ _ _ _ _ Hin Hq Haq) as Hiq. destruct (Hq) as (_ & _ & Eb & Ek & _). rewrite zlen_cons in Hn. pose proof (zlen_nonneg l).
    destruct (next_token_text q ts vs t tail Hiq Ht) as (q1 & q2 & u & -> & _ & Ea & Hi2 & Hk2 & Eb2); [|lia..|].
    { destruct t; [|done]. apply arguments_start, spaces_start, line_end_stop; done. }
    cbn [mbind outcome_bind]. rewrite Ea. cbn [mbind outcome_bind].
    destruct (IH fuel q2 (ts ++ [u]) (vs ++ [token_value t]) trailing rest) as (r & ts' & -> & Hir & Ebr); [done..|lia|unfold zlen in *; rewrite length_app; cbn [length]; lia|cbn in Hf; lia|].
    exists r, ts'. split; [done|]. rewrite <- app_assoc in Hir. split; [done|]. by rewrite Ebr, Eb2, Eb.
Qed.

(** ** Commands *)

Lemma strcmp_eq s1 : forall s2, strcmp s1 s2 = Eq <-> s1 = s2.
Proof.
  induction s1 as [|c s1 IH]; intros [|d s2]; cbn; try done.
  destruct (Z.compare_spec c d) as [->| |]; [rewrite IH; split; [by intros ->|by intros [= ->]]|..]; split; try done; intros [= -> _]; lia.
Qed.

Lemma strcmp_opp s1 : forall s2, strcmp s2 s1 = CompOpp (strcmp s1 s2).
Proof.
  induction s1 as [|c s1 IH]; intros [|d s2]; cbn; try done. rewrite (Z.compare_antisym c d). destruct (c ?= d); cbn; [apply IH|done..].
Qed.

Lemma strcmp_trans s1 : forall s2 s3, strcmp s1 s2 <> Gt -> strcmp s2 s3 <> Gt ->
  strcmp s1 s3 <> Gt /\ (strcmp s1 s2 = Lt \/ strcmp s2 s3 = Lt -> strcmp s1 s3 = Lt).
Proof.
  induction s1 as [|c s1 IH]; intros [|d s2] [|e s3]; cbn; try done; try (intros; split; [done|by intros [?|?]]).
  destruct (Z.compare_spec c d) as [->|Hcd|Hcd]; [|destruct (Z.compare_spec d e) as [->|Hde|Hde]..]; try done.
  - destruct (d ?= e); try done. apply IH.
  - rewrite (proj2 (Z.compare_lt_iff c e) Hcd). done.
  - rewrite (proj2 (Z.compare_lt_iff c e)) by lia. done.
Qed.

Section Search.
Context {W : Type}.
Implicit Types cs : list (parser_command_t W).

#[global] Instance command_le_trans : Transitive (@command_le W).
Proof. intros c1 c2 c3 H1 H2. by apply (strcmp_trans _ (pc_name c2)). Qed.

#[global] Instance command_le_total : Total (@command_le W).
Proof. intros c1 c2. unfold command_le. rewrite (strcmp_opp (pc_name c1)). destruct (strcmp (pc_name c1) (pc_name c2)); cbn; auto. Qed.

Lemma sorted_lookup cs : StronglySorted command_le cs -> forall i j c d, (i <= j)%nat -> cs !! i = Some c -> cs !! j = Some d -> command_le c d.
Proof.
  induction 1 as [|x cs Hs IH Hx]; [done|]. intros [|i] [|j] c d Hij Hc Hd; try lia; cbn in *.
  - simplify_eq. unfold command_le. by rewrite (proj2 (strcmp_eq _ _) eq_refl).
  - simplify_eq. by eapply Forall_lookup_1 in Hx.
  - apply (IH i j); [lia|done..].
Qed.

(** The search finds a command with the name if there is one. *)
Lemma bsearch_ok cs name : StronglySorted command_le cs -> forall fuel l u, (u <= length cs)%nat -> (u - l < fuel)%nat ->
  match bsearch cs fuel name l u with
  | Some c => c ∈ cs /\ pc_name c = name
  | None => forall i c, (l <= i < u)%nat -> cs !! i = Some c -> pc_name c <> name
  end.
Proof.
  intros Hs. induction fuel as [|fuel IH]; intros l u Hu Hf; [lia|]. cbn [bsearch].
  destruct (Nat.ltb_spec l u) as [Hlu|]; [|intros; lia].
  assert (Hidx : (l <= (l + u) / 2 < u)%nat) by (split; [apply Nat.div_le_lower_bound|apply Nat.Div0.div_lt_upper_bound]; lia).
  set (idx := ((l + u) / 2)%nat) in *. clearbody idx.
  destruct (cs !! idx) as [d|] eqn:Ed; [|apply lookup_ge_None in Ed; lia]. cbn [mbind option_bind].
  destruct (strcmp name (pc_name d)) eqn:E.
  - apply strcmp_eq in E as ->. split; [by eapply list_elem_of_lookup_2|done].
  - specialize (IH l idx ltac:(lia) ltac:(lia)). destruct (bsearch cs fuel name l idx); [done|]. intros i c Hi Hc.
    destruct (decide (i < idx)%nat); [apply (IH i); [lia|done]|]. intros <-.
    pose proof (sorted_lookup cs Hs idx i d c ltac:(lia) Ed Hc) as Hle. unfold command_le in Hle. rewrite strcmp_opp, E in Hle. done.
  - specialize (IH (S idx) u ltac:(lia) ltac:(lia)). destruct (bsearch cs fuel name (S idx) u); [done|]. intros i c Hi Hc.
    destruct (decide (idx < i)%nat); [apply (IH i); [lia|done]|]. intros <-.
    pose proof (sorted_lookup cs Hs i idx c d ltac:(lia) Hc Ed) as Hle. unfold command_le in Hle. done.
Qed.

(** After [initialize_commands], [find_command] is a search for the name. *)
Lemma find_command_ok cs name :
  match find_command (initialize_commands cs) name with
  | Some c => c ∈ cs /\ pc_name c = name
  | None => forall c, c ∈ cs -> pc_name c <> name
  end.
Proof.
  unfold find_command, initialize_commands. assert (Hp := merge_sort_Permutation command_le cs).
  pose proof (bsearch_ok (merge_sort command_le cs) name (StronglySorted_merge_sort command_le cs)
    (S (length (merge_sort command_le cs))) 0 (length (merge_sort command_le cs)) ltac:(lia) ltac:(lia)) as H.
  destruct (bsearch _ _ _ _ _) as [c|].
  - destruct H as [Hc Hn]. split; [by rewrite <- Hp|done].
  - intros c Hc. rewrite <- Hp in Hc. apply list_elem_of_lookup_1 in Hc as [i Hi]. apply (H i); [|done].
    apply lookup_lt_Some in Hi. lia.
Qed.

Lemma find_action_implements cs (actions : list (bytes * action)) c : Forall2 implements cs actions -> NoDup (map pc_name cs) ->
  c ∈ cs -> exists f, find_action actions (pc_name c) = Some f /\ implements c (pc_name c, f).
Proof.
  induction 1 as [|d [n f] cs actions [Hn Hd] Hall IH]; [by intros _ ?%elem_of_nil|]. intros [Hnin Hnd]%NoDup_cons Hc.
  cbn in *. subst n. apply elem_of_cons in Hc as [->|Hc].
  - rewrite bool_decide_eq_true_2 by done. exists f. done.
  - rewrite bool_decide_eq_false_2; [by apply IH|]. intros E. apply Hnin. rewrite E. apply list_elem_of_fmap. by exists c.
Qed.

Lemma find_action_none cs (actions : list (bytes * action)) name : Forall2 implements cs actions ->
  (forall c, c ∈ cs -> pc_name c <> name) -> find_action actions name = None.
Proof.
  induction 1 as [|d [n f] cs actions [Hn Hd] Hall IH]; [done|]. intros H. cbn in *. subst n.
  rewrite bool_decide_eq_false_2 by (apply H; by constructor). apply IH. intros c Hc. apply H. by constructor.
Qed.

Lemma find_command_action cs (actions : list (bytes * action)) name : Forall2 implements cs actions -> NoDup (map pc_name cs) ->
  match find_command (initialize_commands cs) name with
  | Some c => exists f, find_action actions name = Some f /\ implements c (name, f)
  | None => find_action actions name = None
  end.
Proof.
  intros Hi Hn. pose proof (find_command_ok cs name) as H. destruct (find_command _ _) as [c|].
  - destruct H as [Hc <-]. by eapply find_action_implements.
  - by eapply find_action_none.
Qed.

End Search.

(** ** Files *)

Lemma cstr_reads tokens t v : reads tokens t v -> Forall (fun c => c <> 0) v ->
  (mem ← token_mem tokens t; c_str mem) = Some v.
Proof.
  intros (before & after & [= -> ->]) Hv. rewrite token_mem_at. cbn [mbind option_bind]. by apply c_str_app.
Qed.

Section Files.
Context {W : Type}.
Variables (cs : list (parser_command_t W)) (actions : list (bytes * action (W := W))).
Hypotheses (Hactions : Forall2 implements cs actions) (Hnames : NoDup (map pc_name cs)).

Let commands := initialize_commands cs.

(** The state between statements. *)
Definition between (p : Parser) (rest : bytes) : Prop :=
  zlen (pr_tokens p) = PARSER_TOTAL_ARGS_SIZE /\ length (pr_args p) = 16%nat /\ ahead p rest.

Lemma in_text_between p ts vs rest : in_text p ts vs rest -> between p rest.
Proof. intros []. by destruct it_args0. Qed.

(** What becomes of the handlers' state, and of the result. *)
Definition effect (s : statement) (w : W) : W * bool :=
  match find_action actions (st_name s) with
  | None => (w, false)
  | Some f => f w (st_values s)
  end.

Lemma run_command_text name p u v w s c (f : action (W := W)) rest :
  in_text p [u] [v] (concat (map argument_text (st_arguments s)) ++ spaces_text (st_trailing s) ++ rest) -> statement_wf s = true ->
  pr_tokpos p = zlen (st_name s) + 1 -> is_Some (pt_data u) -> implements c (st_name s, f) -> starts line_end rest ->
  exists q, run_command p w name c = Ret (q, (f w (st_values s)).1, true, (f w (st_values s)).2) /\ between q rest /\ pr_buffer q = pr_buffer p.
Proof.
  intros Hin Hwf Hk Hu [_ Hf] Hend. cbn [snd] in Hf. unfold statement_wf in Hwf. repeat apply andb_true_iff in Hwf as [Hwf ?]. zbool.
  rewrite values_size_cons in *. unfold run_command.
  destruct (collect_text (st_arguments s) (S (Z.to_nat PARSER_MAX_ARGS)) p [u] [v] (st_trailing s) rest) as (q & ts & -> & Hiq & Eb);
    [done..|unfold st_values in *; lia|change (zlen [u]) with 1; lia|unfold zlen, PARSER_MAX_ARGS in *; lia|].
  cbn [mbind outcome_bind]. set (q' := set_last_command q (pc_name c)).
  assert (Hbt : between q' rest) by (apply in_text_between in Hiq; done).
  destruct (Hiq) as [_ _ (Hl & Hn & Ht) Hr _].
  destruct ts as [|t0 ts]; [by apply Forall2_length in Hr; cbn in Hr|]. cbn [app] in Hr. apply Forall2_cons in Hr as [Hr0 Hr].
  assert (Hargs : handler_args q' = ts).
  { unfold handler_args. cbn [pr_nargs pr_args q' set_last_command]. rewrite Hn. rewrite zlen_cons. replace (1 + zlen ts - 1) with (zlen ts) by lia.
    rewrite zlen_to_nat. destruct (pr_args q) as [|a l]; [done|]. cbn [length take drop] in *. injection Ht as -> Ht. exact Ht. }
  rewrite Hargs, (Hf q' w ts (st_values s)).
  2:{ eapply Forall2_impl; [exact Hr|]. intros. by apply reads_tokens. }
  destruct (f w (st_values s)) as [w' []]; cbn [fst snd]; [exists q'; split; [done|]; split; [exact Hbt|exact Eb]|].
  unfold log_command_status. cbn [pr_nargs pr_args q' set_last_command]. rewrite Hn, (proj2 (Z.eqb_neq _ 0)) by (pose proof (zlen_nonneg ts); zlen).
  assert (Hd : is_Some (a ← pr_args q !! 0%nat; pt_data a)).
  { destruct (pr_args q) as [|a l]; [done|]. cbn in Ht. injection Ht as -> _. destruct Hr0 as (? & ? & [= _ ->]). by eexists. }
  rewrite bool_decide_eq_true_2 by done. cbn [negb andb mbind outcome_bind].
  eexists. split; [done|]. split; [exact Hbt|exact Eb].
Qed.

(** A statement whose command is not known is skipped. *)
Lemma consume_text l : forall fuel p trailing rest,
  zlen (pr_tokens p) = PARSER_TOTAL_ARGS_SIZE -> 0 <= pr_tokpos p -> length (pr_args p) = 16%nat ->
  ahead p (concat (map argument_text l) ++ spaces_text trailing ++ rest) ->
  forallb argument_wf l = true -> spaces_wf trailing = true -> starts line_end rest ->
  pr_tokpos p + values_size (map (fun a => token_value a.2) l) <= PARSER_TOTAL_ARGS_SIZE ->
  (length l < fuel)%nat ->
  exists q, consume_arguments fuel p = Ret q /\ between q rest /\ pr_buffer q = pr_buffer p.
Proof.
  induction l as [|[s t] l IH]; intros fuel p trailing rest Hz H0 Hla Ha Hl Htr Hend Hsz Hf; (destruct fuel as [|fuel]; [lia|]); cbn [consume_arguments].
  - destruct (skip_line_ws_text p trailing rest false) as (q & -> & Hq & Haq); [done|by apply andb_true_iff in Htr as [? _]|done..|].
    exists q. split; [done|]. destruct Hq as (Et & Ea & Eb & _). split; [|done]. split; [by rewrite Et|]. split; [by rewrite Ea|done].
  - cbn [forallb map concat] in *. rewrite values_size_cons in Hsz.
    apply andb_true_iff in Hl as [[[Hs _]%andb_true_iff Ht]%andb_true_iff Hl]. cbn [fst snd] in *. apply andb_true_iff in Hs as [Hs _].
    pose proof (values_size_nonneg (map (fun a : list space * token => token_value a.2) l)).
    set (tail := concat (map argument_text l) ++ spaces_text trailing ++ rest).
    unfold argument_text in Ha. cbn [fst snd] in Ha. rewrite <- !app_assoc in Ha.
    destruct (token_start t tail Ht) as (Hne & Hst & _).
    destruct (skip_line_ws_text p s (token_text t ++ tail) true Ha Hs Hst) as (q & -> & Hq & Haq); [done|]. cbn [mbind outcome_bind].
    destruct Hq as (Et & Ea & Eb & Ek & _).
    destruct (get_token_text q t tail Haq Ht) as (r & -> & Hw & Har); [|by rewrite Et|lia|lia|].
    { destruct t; [|done]. apply arguments_start, spaces_start, line_end_stop; done. }
    cbn [mbind outcome_bind]. pose proof (zlen_nonneg (token_value t)).
    destruct (IH fuel r trailing rest) as (q' & -> & Hb & Ebq); [by rewrite (wr_size _ _ _ Hw), Et|rewrite (wr_tokpos _ _ _ Hw); zlen|
      by rewrite (wr_args _ _ _ Hw), Ea|done..|rewrite (wr_tokpos _ _ _ Hw); zlen|cbn in Hf; lia|].
    exists q'. split; [done|]. split; [done|]. by rewrite Ebq, (wr_buffer _ _ _ Hw), Eb.
Qed.

Lemma statement_start s rest : statement_wf s = true -> statement_text s ++ rest <> [] /\ starts ws_start (statement_text s ++ rest).
Proof.
  intros Hwf. unfold statement_wf in Hwf. repeat apply andb_true_iff in Hwf as [Hwf ?].
  unfold statement_text. rewrite <- !app_assoc.
  destruct (token_start (st_command s) ((concat (map argument_text (st_arguments s)) ++ spaces_text (st_trailing s)) ++ rest) Hwf) as (? & _ & ?).
  by rewrite <- app_assoc in *.
Qed.

Lemma concat_arguments_length l : (length l <= length (concat (map argument_text l)))%nat.
Proof.
  induction l as [|[s t] l IH]; [cbn; lia|]. cbn [map concat length]. rewrite length_app. unfold argument_text at 1. cbn [fst snd]. rewrite length_app.
  assert (0 < length (token_text t))%nat by (destruct t; cbn; lia). lia.
Qed.

(** One turn of the loop over statements. *)
Lemma parse_statement fuel p g s rest w result :
  between p (gaps_text g ++ statement_text s ++ rest) -> forallb gap_ok g = true -> statement_wf s = true -> starts line_end rest ->
  (length (statement_text s) <= fuel)%nat ->
  exists q, parse_loop commands (S fuel) p w result = parse_loop commands fuel q (effect s w).1 (result && (effect s w).2) /\
    between q rest /\ pr_buffer q = pr_buffer p.
Proof.
  intros (Hz & Hla & Ha) Hg Hwf Hend Hf. cbn [parse_loop]. destruct (statement_start s rest Hwf) as [Hne Hst].
  destruct (skip_ws_text p g (statement_text s ++ rest) Ha Hg Hst) as (q & -> & (Et & Ea & Eb & _) & Haq).
  replace (nonempty (statement_text s ++ rest)) with true by (destruct (statement_text s ++ rest); done). cbn [mbind outcome_bind].
  set (q0 := set_args (set_tokens q (pr_tokens q) 0) (pr_args q) 0). assert (Hwf' := Hwf). unfold statement_wf in Hwf.
  repeat apply andb_true_iff in Hwf as [Hwf ?]. zbool. rewrite values_size_cons in *.
  set (tail := concat (map argument_text (st_arguments s)) ++ spaces_text (st_trailing s) ++ rest).
  assert (Hi0 : in_text q0 [] [] (token_text (st_command s) ++ tail)).
  { split; [by cbn; rewrite Et|done|by split; [cbn; rewrite Ea|]|constructor|]. unfold statement_text in Haq. rewrite <- !app_assoc in Haq. exact Haq. }
  pose proof (values_size_nonneg (st_values s)). fold (st_name s) in *.
  destruct (next_token_text q0 [] [] (st_command s) tail Hi0) as (q1 & q2 & u & Eg & Hu & Eadd & Hi2 & Hk2 & Eb2); [done| |fold (st_name s); cbn; lia|done|].
  { destruct (st_command s); [|done]. apply arguments_start, spaces_start, line_end_stop; done. }
  fold (st_name s) in *. cbn [app] in Hi2. unfold parse_command. rewrite Eg. cbn [mbind outcome_bind]. destruct Hu as [off Hoff]. rewrite Hoff, Eadd. cbn [mbind outcome_bind].
  assert (Hname : token_name q2 u = Some (st_name s)).
  { destruct Hi2 as [_ _ _ Hr _]. apply Forall2_cons in Hr as [Hr _]. apply cstr_reads; [by apply reads_tokens|].
    apply Forall_forall. intros c Hc. match goal with H : forallb _ (st_name s) = true |- _ => rewrite forallb_forall in H; specialize (H c (proj1 (list_elem_of_In _ _) Hc)) end. zbool. done. }
  rewrite Hname. cbn [of_option mbind outcome_bind]. unfold effect.
  pose proof (find_command_action cs actions (st_name s) Hactions Hnames) as Hfind. fold commands in Hfind.
  destruct (find_command commands (st_name s)) as [c|].
  - destruct Hfind as (f & -> & Himp).
    destruct (run_command_text (st_name s) q2 u (st_name s) w s c f rest) as (r & -> & Hb & Ebr); [done|done|rewrite Hk2; cbn; lia|by eexists|done|done|].
    cbn [mbind outcome_bind]. exists r. split; [done|]. split; [done|]. by rewrite Ebr, Eb2.
  - rewrite Hfind. cbn [mbind outcome_bind].
    destruct (consume_text (st_arguments s) (S fuel) (log_status q2 (UnknownStatement (st_name s))) (st_trailing s) rest) as (r & -> & Hb & Ebr);
      [apply Hi2|apply Hi2|apply (it_args _ _ _ _ Hi2)|apply Hi2|done|done|done|cbn; rewrite Hk2; unfold st_values in *; cbn; lia| |].
    { unfold statement_text in Hf. rewrite !length_app in Hf. pose proof (concat_arguments_length (st_arguments s)). lia. }
    cbn [mbind outcome_bind]. exists r. split; [done|]. split; [done|]. exact (eq_trans Ebr (eq_trans Eb2 Eb)).
Qed.

Lemma run_statements_cons s l w result :
  run_statements actions (s :: l) w result = run_statements actions l (effect s w).1 (result && (effect s w).2).
Proof.
  cbn [run_statements]. unfold effect. destruct (find_action actions (st_name s)) as [f|]; [|by rewrite andb_false_r].
  by destruct (f w (st_values s)).
Qed.

Lemma gap_ends_line l rest : gap_ends l = true -> starts line_end (gaps_text l ++ rest).
Proof. destruct l as [|[c|[]|text n] l]; done. Qed.

Lemma rest_start l last : rest_wf l last = true -> starts line_end (rest_text l last).
Proof.
  destruct l as [|[g s] l]; cbn [rest_wf rest_text].
  - intros [_ [H|H%bool_decide_eq_true]%orb_true_iff]%andb_true_iff; [|by rewrite H].
    rewrite <- (app_nil_r (gaps_text last)). by apply gap_ends_line.
  - intros [[[_ H]%andb_true_iff _]%andb_true_iff _]%andb_true_iff. by apply gap_ends_line.
Qed.

Lemma parse_rest l : forall fuel p last w result, between p (rest_text l last) ->
  match l with [] => forallb gap_ok last | (g, s) :: l => forallb gap_ok g && statement_wf s && rest_wf l last end = true ->
  (length (rest_text l last) < fuel)%nat ->
  exists q, parse_loop commands fuel p w result =
    Ret (q, (run_statements actions (map snd l) w result).1, (run_statements actions (map snd l) w result).2).
Proof.
  induction l as [|[g s] l IH]; intros fuel p last w result Hb Hwf Hf; (destruct fuel as [|fuel]; [lia|]).
  - destruct Hb as (Hz & Hla & Ha). cbn [parse_loop]. cbn [rest_text] in Ha. rewrite <- (app_nil_r (gaps_text last)) in Ha.
    destruct (skip_ws_text p last [] Ha Hwf) as (q & -> & _); [done|]. by exists q.
  - apply andb_true_iff in Hwf as [[Hg Hs]%andb_true_iff Hl]. cbn [rest_text map snd] in *. rewrite !length_app in Hf.
    destruct (parse_statement fuel p g s (rest_text l last) w result) as (q & -> & Hbq & _); [done..|by apply rest_start|lia|].
    rewrite run_statements_cons. apply (IH fuel q last).
    + done.
    + destruct l as [|[g' s'] l]; cbn [rest_wf] in Hl; [by apply andb_true_iff in Hl as [? _]|].
      apply andb_true_iff in Hl as [[[H1 _]%andb_true_iff H2]%andb_true_iff H3]. by rewrite H1, H2, H3.
    + destruct (statement_start s [] Hs) as [Hne _]. rewrite app_nil_r in Hne. destruct (statement_text s); [done|]. cbn in Hf. lia.
Qed.

Lemma parse_file_text p w f interactive : zlen (pr_tokens p) = PARSER_TOTAL_ARGS_SIZE -> length (pr_args p) = 16%nat -> file_wf f = true ->
  exists q, parse commands (S (length (file_text f))) p w (file_text f) interactive =
    Ret (q, (run_statements actions (map snd (f_statements f)) w true).1, (run_statements actions (map snd (f_statements f)) w true).2).
Proof.
  intros Hz Hl Hf. unfold parse.
  destruct (parse_rest (f_statements f) (S (length (file_text f))) (set_input p (file_text f) interactive) (f_last f) w true) as (q & ->).
  - split; [done|]. split; [done|]. split; [done|]. done.
  - unfold file_wf in Hf. by destruct (f_statements f) as [|[g s] l].
  - unfold file_text. lia.
  - by eexists.
Qed.

End Files.
