(* ===== verification/ParserOk.v ===== *)
(** * The configuration parser: theorems

    The theorems about option values, names and the parser, with examples. *)

From S2P Require Import Prelude CStrings ParserTokens Parser ParserSafe ParserGrammar ParserRun.
From Stdlib Require Import Ascii String.
Import Datatypes.

(** The bytes of a string. *)
Definition text (s : string) : bytes := map (fun a => Z.of_N (N_of_ascii a)) (list_ascii_of_string s).

(** ** Enumeration of names *)

Section Enumerate.
Context {W : Type}.

(** The names that match, in the order of the array, for as long as the callback wants more. *)
Fixpoint visit {C} (callback : C -> bytes -> C * bool) (names : list bytes) (context : C) (n : Z) : C * Z :=
  match names with
  | [] => (context, n)
  | name :: names =>
      let '(context, go_on) := callback context name in
      if (go_on : bool) then visit callback names context (n + 1) else (context, n + 1)
  end.

(** What the matcher says of a name. *)
Definition selected (mask name : bytes) : bool := bool_decide (StringMatcher.matches_mask false name mask = Some true).

Lemma selected_glob mask name : cstring mask -> cstring name -> zlen mask < 2 ^ 32 ->
  StringMatcher.matches_mask false name mask = Some (selected mask name) /\ (selected mask name = true <-> StringMatcher.glob false name mask).
Proof.
  intros Hm Hn Hl. destruct (StringMatcher.matches_mask_ok false name mask Hn Hm Hl) as (b & Eb & Hb).
  assert (E : selected mask name = b). { unfold selected. rewrite Eb. by destruct b. }
  rewrite E. done.
Qed.

Lemma enumerate_loop_ok {C} (callback : C -> bytes -> C * bool) mask (commands : list (parser_command_t W)) :
  cstring mask -> zlen mask < 2 ^ 32 -> Forall (fun c => cstring (pc_name c)) commands ->
  forall n context, 0 <= n -> n + zlen commands < 2 ^ 32 ->
    enumerate_loop callback commands {| StringMatcher.sm_mask := mask; StringMatcher.sm_num_matches := n; StringMatcher.sm_ci := false |} context
    = Some (visit callback (List.filter (selected mask) (map pc_name commands)) context n).
Proof.
  intros Hm Hl. induction 1 as [|c cs Hc Hcs IH]; intros n context Hn Hb; [done|].
  destruct (selected_glob mask (pc_name c) Hm Hc Hl) as [Eb _]. pose proof (zlen_nonneg cs). rewrite zlen_cons in Hb.
  cbn [enumerate_loop map List.filter]. unfold StringMatcher.sm_matches. cbn [StringMatcher.sm_mask StringMatcher.sm_ci].
  rewrite Eb. cbn [mbind option_bind StringMatcher.sm_num_matches]. destruct (selected mask (pc_name c)); [|apply IH; lia].
  rewrite u32_small by (unfold is_u32; lia). cbn [mbind option_bind visit].
  destruct (callback context (pc_name c)) as [context' []]; [|done]. apply IH; lia.
Qed.

End Enumerate.

(** ** A small program *)

Module ParserExample.

(** Its state: the calls of the two commands that it has. *)
Definition calls : Type := list (bytes * list bytes).

(** The text that a token points to. *)
Definition value (p : Parser) (t : parser_token_t) : bytes :=
  match pt_data t with Some off => default [] (slice (pr_tokens p) off (pt_length t)) | None => text "(null)" end.

Definition command (name : bytes) (ok : bool) : parser_command_t calls := {|
  pc_name := name;
  pc_get_proc := pGet_default_proc;
  pc_set_proc := fun p w args => (w ++ [(name, map (value p) args)], ok);
|}.

Definition commands : list (parser_command_t calls) := [command (text "user") true; command (text "listen") true; command (text "log") false].

Definition actions : list (bytes * action (W := calls)) :=
  [(text "user", fun w vs => (w ++ [(text "user", vs)], true)); (text "listen", fun w vs => (w ++ [(text "listen", vs)], true));
   (text "log", fun w vs => (w ++ [(text "log", vs)], false))].

Lemma value_reads p t v : reads (pr_tokens p) t v -> value p t = v.
Proof.
  intros (before & after & [= E ->]). unfold value. cbn [pt_data pt_length]. rewrite E. by rewrite slice_app_mid.
Qed.

Lemma command_implements name ok : implements (command name ok) (name, fun w vs => (w ++ [(name, vs)], ok)).
Proof.
  split; [done|]. intros p w args values H. cbn. do 4 f_equal.
  induction H as [|t v args values Ht _ IH]; cbn; [done|]. by rewrite IH, (value_reads p t v Ht).
Qed.

Lemma commands_implement : Forall2 implements commands actions.
Proof. repeat constructor; apply command_implements. Qed.

Definition parser : Parser := parser_new (replicate 4096 0) (replicate 16 null_token) 0.

(** A statement with an escape sequence, a quoted argument and a continued line; a comment; an
    unknown statement. *)
Definition word (s : string) : token :=
  match text s with [] => Word 0 [] | c :: l => Word c (map Raw l) end.

Definition example : file := {|
  f_statements := [
    ([GNewline Lf], {|
       st_command := word "listen";
       st_arguments := [([Blank SPACE], word "localhost"); ([Blank SPACE; Continue CrLf; Blank TAB], Quoted QUOTE1 [Raw 35; Hex 52 49; Escape 110; Break Lf; Raw 98])];
       st_trailing := [Blank SPACE] |});
    ([GComment (text " next") Lf; GBlank SPACE], {| st_command := word "unknown"; st_arguments := [([Blank SPACE], word "1")]; st_trailing := [] |});
    ([GNewline CrLf], {| st_command := word "user"; st_arguments := []; st_trailing := [] |})];
  f_last := [GNewline Lf] |}.

(** A text with errors. *)
Definition odd_text : bytes := text "log a\41b\z 'c # \ user '' ".

(** A continued line right after a word ends the statement: [two] is taken for a command. *)
Example continued_line_ends_statement :
  (match parse (initialize_commands commands) 100 parser [] (text "user one\" ++ [LF] ++ text "two") false with
   | Ret (p, w, r) => Some (w, r, pr_log p) | _ => None end)
  = Some ([(text "user", [text "one"])], false, [(2, UnknownStatement (text "two"))]).
Proof. vm_compute. reflexivity. Qed.

(** After an error in an argument the handler is called, with [nullptr] in its place. *)
Example null_argument :
  (match parse (initialize_commands commands) 100 parser [] (text "user on\e") false with
   | Ret (p, w, r) => Some (w, r, pr_log p) | _ => None end)
  = Some ([(text "user", [text "(null)"; text "e"])], true, [(1, IncompleteEscape 101)]).
Proof. vm_compute. reflexivity. Qed.

(** A suffix alone is a number, sizes and durations wrap around, and a negative number is large. *)
Definition token_of (s : bytes) : bytes * parser_token_t := at_token [] s [].

Example suffix_only : get_size (token_of (text "k")).1 (token_of (text "k")).2 = Some (Some 0).
Proof. reflexivity. Qed.

Example size_wraps : get_size (token_of (text "16777216t")).1 (token_of (text "16777216t")).2 = Some (Some 0).
Proof. reflexivity. Qed.

Example duration_wraps : get_duration (token_of (text "7102w")).1 (token_of (text "7102w")).2 = Some (Some 322304).
Proof. reflexivity. Qed.

Example negative_size : get_size (token_of (text "-1")).1 (token_of (text "-1")).2 = Some (Some (2 ^ 64 - 1)).
Proof. reflexivity. Qed.

End ParserExample.

(** ** The theorems *)

(** (C35) A configuration file of the grammar (words, quoted strings with escape sequences and
    line breaks, continued lines, comments, LF and CRLF line ends), of any length, whose
    statements fit the parser's arrays, does what it means: for each statement in turn, the handler of its
    command, found by binary search in the sorted table, is called with the values of the arguments. Unknown
    statements are skipped. The result is whether all handlers were found and succeeded. *)
Theorem parse_configuration {W} (cs : list (parser_command_t W)) (actions : list (bytes * action)) p w f interactive :
  Forall2 implements cs actions -> NoDup (map pc_name cs) ->
  zlen (pr_tokens p) = PARSER_TOTAL_ARGS_SIZE -> length (pr_args p) = 16%nat -> file_wf f = true ->
  exists q, parse (initialize_commands cs) (S (length (file_text f))) p w (file_text f) interactive =
    Ret (q, (run_statements actions (map snd (f_statements f)) w true).1, (run_statements actions (map snd (f_statements f)) w true).2).
Proof. intros. by apply parse_file_text. Qed.

Lemma parse_configuration_witness :
  run_statements ParserExample.actions (map snd (f_statements ParserExample.example)) [] true =
    ([(text "listen", [text "localhost"; [35; 65; 10; 98]]); (text "user", [])], false) /\
  exists q, parse (initialize_commands ParserExample.commands) (S (length (file_text ParserExample.example))) ParserExample.parser []
      (file_text ParserExample.example) false =
    Ret (q, (run_statements ParserExample.actions (map snd (f_statements ParserExample.example)) [] true).1,
            (run_statements ParserExample.actions (map snd (f_statements ParserExample.example)) [] true).2).
Proof.
  split; [vm_compute; reflexivity|]. apply (parse_configuration ParserExample.commands ParserExample.actions).
  - apply ParserExample.commands_implement.
  - apply (bool_decide_unpack _). vm_compute. exact I.
  - vm_compute. reflexivity.
  - vm_compute. reflexivity.
  - vm_compute. reflexivity.
Defined.

(** (C36) On any text shorter than the token buffer, whatever its bytes, parsing ends after at most
    as many statements as the text has characters, without an access out of bounds or a failed
    assertion; and handlers only ever get well-formed arguments: at most 15, each [nullptr] with length 0 or
    a pointer into the buffer to a string of the given length with a terminator. (Stated as: what
    the handlers preserve on such input, parsing preserves.) *)
Theorem parse_well_formed {W} (commands : list (parser_command_t W)) (P : W -> Prop) p w buffer interactive :
  (forall c p w args, c ∈ commands -> handler_input p args -> P w -> P (pc_set_proc c p w args).1) ->
  P w -> zlen (pr_tokens p) = PARSER_TOTAL_ARGS_SIZE -> length (pr_args p) = 16%nat -> zlen buffer < PARSER_TOTAL_ARGS_SIZE ->
  exists p' w' result, parse commands (S (length buffer)) p w buffer interactive = Ret (p', w', result) /\ P w'.
Proof. intros HP Hw Ht Ha Hb. by apply parse_safe. Qed.

Lemma parse_well_formed_witness :
  exists p' w' result, parse ParserExample.commands (S (length ParserExample.odd_text)) ParserExample.parser [] ParserExample.odd_text false = Ret (p', w', result) /\
    Forall (fun call => (length call.2 < 16)%nat) w'.
Proof.
  refine (parse_well_formed ParserExample.commands (fun w => Forall (fun call => (length call.2 < 16)%nat) w)
    ParserExample.parser [] ParserExample.odd_text false _ _ _ _ _).
  - intros c p w args Hc (_ & Hl & _) Hw.
    assert (Hset : exists name, (pc_set_proc c p w args).1 = w ++ [(name, map (ParserExample.value p) args)]).
    { repeat (apply elem_of_cons in Hc as [->|Hc]; [by eexists|]). by apply elem_of_nil in Hc. }
    destruct Hset as [name ->]. apply Forall_app. split; [done|]. constructor; [|constructor]. cbn. by rewrite length_map.
  - constructor.
  - vm_compute. reflexivity.
  - vm_compute. reflexivity.
  - vm_compute. reflexivity.
Defined.

(** (C37) Longer texts are another matter: on one that starts with a word longer than the token
    buffer, parsing never ends (with any amount of fuel it runs out of fuel), since the loop that is to skip the rest of
    the statement does not advance; and on a word that fills the buffer, the terminator is written past its end. *)
Theorem parse_long_words {W} (commands : list (parser_command_t W)) p w word interactive :
  zlen (pr_tokens p) = PARSER_TOTAL_ARGS_SIZE -> Forall (fun c => plain c = true) word ->
  (PARSER_TOTAL_ARGS_SIZE < zlen word -> forall fuel rest, parse commands fuel p w (word ++ rest) interactive = Timeout) /\
  (zlen word = PARSER_TOTAL_ARGS_SIZE -> forall fuel, parse commands (S fuel) p w word interactive = Ub).
Proof.
  intros Hz Hw. split; intros.
  - by apply parse_too_long.
  - by apply parse_no_terminator.
Qed.

Lemma parse_long_words_witness :
  parse ParserExample.commands 5000 ParserExample.parser [] (replicate 4097 97 ++ text " b") false = Timeout /\
  parse ParserExample.commands 5000 ParserExample.parser [] (replicate 4096 97) false = Ub.
Proof.
  split; apply parse_long_words; (vm_compute; reflexivity) || (apply Forall_replicate; vm_compute; reflexivity).
Defined.

(** (C38) A size (64 bits) or a duration (32 bits), printed with its largest unit into a buffer of 22
    or more characters, is read back as it was, wherever its text ends up among the tokens. *)
Theorem option_values_round_trip size duration len before after :
  is_u64 size -> is_u32 duration -> 22 <= len ->
  (exists s, print_size len size = (s ++ [0], zlen s) /\
     get_size (before ++ s ++ 0 :: after) {| pt_data := Some (zlen before); pt_length := zlen s |} = Some (Some size)) /\
  (exists s, print_duration len duration = (s ++ [0], zlen s) /\
     get_duration (before ++ s ++ 0 :: after) {| pt_data := Some (zlen before); pt_length := zlen s |} = Some (Some duration)).
Proof.
  intros Hs Hd Hl. unfold print_size, print_duration. pose proof (size_suffix_ok size Hs) as Es. pose proof (duration_suffix_ok duration Hd) as Ed.
  destruct (size_suffix size) as [n c], (duration_suffix duration) as [m d]. destruct Es as (Hn & Hc & <-), Ed as (Hm & Hdd & <-).
  split; eexists; (split; [apply snprintf_fits|]).
  - pose proof (decimal_suffix_length n c Hn). lia.
  - by apply get_size_decimal.
  - pose proof (decimal_suffix_length m d (u32_u64 _ Hm)). lia.
  - by apply get_duration_decimal.
Qed.

Lemma option_values_round_trip_witness :
  print_size 100 3145728 = (text "3m" ++ [0], 2) /\ print_duration 100 1209600 = (text "2w" ++ [0], 2) /\
  exists s, print_size 100 3145728 = (s ++ [0], zlen s) /\
     get_size ([] ++ s ++ 0 :: []) {| pt_data := Some (zlen (@nil Z)); pt_length := zlen s |} = Some (Some 3145728).
Proof.
  split; [reflexivity|]. split; [reflexivity|].
  apply (option_values_round_trip 3145728 1209600 100 [] []); [split; [discriminate|reflexivity]|split; [discriminate|reflexivity]|discriminate].
Defined.

(** Enumeration calls back with the names of commands that match the mask in the sense of
    the relation [glob], in the order of the table, until the callback wants no more, and returns the number of calls. *)
Theorem enumerate_names {W C} (commands : list (parser_command_t W)) mask (callback : C -> bytes -> C * bool) context :
  cstring mask -> zlen mask < 2 ^ 32 -> Forall (fun c => cstring (pc_name c)) commands -> zlen commands < 2 ^ 32 ->
  enumerate commands mask callback context = Some (visit callback (List.filter (selected mask) (map pc_name commands)) context 0) /\
  Forall (fun c => selected mask (pc_name c) = true <-> StringMatcher.glob false (pc_name c) mask) commands.
Proof.
  intros Hm Hl Hc Hb. split; [apply enumerate_loop_ok; (done || lia)|].
  eapply Forall_impl; [exact Hc|]. intros c Hn. by apply selected_glob.
Qed.

Lemma enumerate_names_witness :
  enumerate ParserExample.commands (text "*s*e*") (fun l name => (l ++ [name], true)) [] = Some ([text "user"; text "listen"], 2).
Proof.
  refine (eq_trans (proj1 (enumerate_names ParserExample.commands (text "*s*e*") (fun l name => (l ++ [name], true)) [] _ _ _ _)) _).
  - repeat (constructor; [split; reflexivity|]). constructor.
  - reflexivity.
  - repeat (constructor; [repeat (constructor; [split; reflexivity|]); constructor|]). constructor.
  - reflexivity.
  - vm_compute. reflexivity.
Defined.
