(* ===== verification/DChain.v ===== *)
(** * DChain

    Doubly linked lists with pointers to both ends, as the optimizers keep them
    ([Optimizer::ObjectChain], [ht_optimizer.cc]): elements join at the back, leave from
    anywhere, and are moved to the back. The operations are those of the class as far as links
    are concerned, with their assertions, for any pair of fields. *)

From S2P Require Import Prelude DList.

Section Operations.
Context {O : Type} (c : links O).
Abbreviation heap := (gmap loc O).

(** As in [ObjectChain::link]. *)
Definition link_back (h : heap) (first last : ptr) (x : loc) : option (heap * ptr * ptr) :=
  '(h, first) ← match last with
    | Some l =>
        lo ← h !! l;
        _ ← c3_assert (bool_decide (l_next c lo = None) && bool_decide (is_Some first));
        h ← update h l (set_next c (Some x));
        h ← update h x (set_prev c (Some l));
        Some (h, first)
    | None =>
        _ ← c3_assert (bool_decide (first = None));
        h ← update h x (set_prev c None);
        Some (h, Some x)
    end;
  h ← update h x (set_next c None);
  Some (h, first, Some x).

(** The part of unlinking that [ObjectChain::unlink] and [ObjectChain::promote] share. *)
Definition bypass_prev (h : heap) (first : ptr) (x : loc) (prev next : ptr) : option (heap * ptr) :=
  match prev with
  | Some p =>
      po ← h !! p;
      _ ← c3_assert (bool_decide (l_next c po = Some x));
      h ← update h p (set_next c next);
      Some (h, first)
  | None =>
      _ ← c3_assert (bool_decide (first = Some x));
      Some (h, next)
  end.

Definition bypass_next (h : heap) (n : loc) (x : loc) (prev : ptr) : option heap :=
  no ← h !! n;
  _ ← c3_assert (bool_decide (l_prev c no = Some x));
  update h n (set_prev c prev).

(** As in [ObjectChain::unlink]. *)
Definition unlink_chain (h : heap) (first last : ptr) (x : loc) : option (heap * ptr * ptr) :=
  o ← h !! x;
  let prev := l_prev c o in
  let next := l_next c o in
  '(h, first) ← bypass_prev h first x prev next;
  h ← match prev with Some _ => update h x (set_prev c None) | None => Some h end;
  match next with
  | Some n =>
      h ← bypass_next h n x prev;
      h ← update h x (set_next c None);
      Some (h, first, last)
  | None =>
      _ ← c3_assert (bool_decide (last = Some x));
      Some (h, first, prev)
  end.

(** As in [ObjectChain::promote]. *)
Definition move_back (h : heap) (first last : ptr) (x : loc) : option (heap * ptr * ptr) :=
  if negb (bool_decide (last = Some x)) then
    o ← h !! x;
    let prev := l_prev c o in
    let next := l_next c o in
    '(h, first) ← bypass_prev h first x prev next;
    n ← next;
    h ← bypass_next h n x prev;
    l ← last;
    lo ← h !! l;
    _ ← c3_assert (bool_decide (l_next c lo = None));
    h ← update h l (set_next c (Some x));
    h ← update h x (set_prev c (Some l));
    h ← update h x (set_next c None);
    Some (h, first, Some x)
  else Some (h, first, last).

(** [first] and [last] are the ends of a list whose elements are [l]. *)
Definition dchain (h : heap) (first last_ : ptr) (l : list loc) : Prop :=
  dlist c h first l /\ last_ = last l.

End Operations.

Section Lemmas.
Context {O : Type} (c : links O) `{!LinkLaws c}.
Abbreviation heap := (gmap loc O).
Implicit Types (h : heap).

(** ** A list, element by element *)

Lemma dseg_split h p l q : dseg c h p l q <->
  forall l1 x l2, l = l1 ++ x :: l2 -> prev_of c h x = Some (last_or p l1) /\ next_of c h x = Some (first_or l2 q).
Proof.
  revert p. induction l as [|y l IH]; intros p; cbn [dseg]; split.
  - intros _ [|? ?] ? ? [=].
  - done.
  - intros (Hp & Hn & Hl) [|z l1] x l2 E; cbn in E; injection E as <- ->; [done|].
    rewrite last_or_cons. by apply (proj1 (IH (Some y)) Hl).
  - intros H. destruct (H [] y l eq_refl) as [Hp Hn]. split_and!; [done..|]. apply IH. intros l1 x l2 ->.
    rewrite <- (last_or_cons p). by apply H.
Qed.

Lemma last_or_None l : last_or None l = last l.
Proof. unfold last_or. by destruct (last l). Qed.

Lemma first_or_None l : first_or l None = head l.
Proof. by destruct l. Qed.

Lemma dlist_split h first l : dlist c h first l <-> first = head l /\ NoDup l /\
  forall l1 x l2, l = l1 ++ x :: l2 -> prev_of c h x = Some (last l1) /\ next_of c h x = Some (head l2).
Proof.
  unfold dlist. rewrite first_or_None, dseg_split. setoid_rewrite last_or_None. setoid_rewrite first_or_None. tauto.
Qed.

(** Where an element of a concatenation is. *)
Lemma app_cons_cases {A} (a b l1 l2 : list A) x : a ++ b = l1 ++ x :: l2 ->
  (exists k, a = l1 ++ x :: k /\ l2 = k ++ b) \/ (exists k, l1 = a ++ k /\ b = k ++ x :: l2).
Proof.
  intros E. apply app_eq_app in E as (k & [[-> Eb]|[-> Eb]]).
  - destruct k as [|y k]; [right; exists []; rewrite !app_nil_r; by split|].
    cbn in Eb. injection Eb as <- ->. left. by exists k.
  - right. by exists k.
Qed.

Lemma dchain_elem h f la l x : dchain c h f la l -> x ∈ l -> is_Some (h !! x).
Proof. intros [(_ & Hd & _) _]. by apply (dseg_elem c h None l None). Qed.

Lemma update_bind {B} h x f (k : heap -> option B) : is_Some (h !! x) ->
  exists h', update h x f = Some h' /\ (update h x f ≫= k) = k h'.
Proof. intros Hs. destruct (update_some h x f Hs) as [h' E]. exists h'. by rewrite E. Qed.

Lemma link_back_ok h first la l x : dchain c h first la l -> x ∉ l -> is_Some (h !! x) ->
  exists h', link_back c h first la x = Some (h', head (l ++ [x]), Some x) /\ dchain c h' (head (l ++ [x])) (Some x) (l ++ [x]) /\
    relinked c h h' (l ++ [x]).
Proof.
  intros [Hl ->] Hx Hs. apply dlist_split in Hl as (-> & Hnd & Hsp). unfold link_back.
  assert (Hdone : forall h', relinked c h h' (l ++ [x]) ->
    (forall y, prev_of c h' y = (if bool_decide (y = x) then Some (last l) else prev_of c h y) /\
       next_of c h' y = (if bool_decide (y = x) then Some None else if bool_decide (last l = Some y) then Some (Some x) else next_of c h y)) ->
    dchain c h' (head (l ++ [x])) (Some x) (l ++ [x])).
  { intros h' _ Hy. split; [|by rewrite last_snoc]. apply dlist_split. split; [done|]. split.
    { apply NoDup_app. split_and!; [done|by intros y Hy' ->%list_elem_of_singleton|apply NoDup_singleton]. }
    intros l1 y l2 E. destruct (Hy y) as [-> ->]. apply app_cons_cases in E as [(k & -> & ->)|(k & -> & E)].
    - destruct (Hsp l1 y k eq_refl) as [-> ->]. rewrite bool_decide_false by (intros ->; set_solver). split; [done|].
      destruct k as [|z k]; [by rewrite last_snoc, bool_decide_true|]. rewrite bool_decide_false; [done|].
      rewrite last_app, last_cons_cons. destruct (last (z :: k)) as [z'|] eqn:Ez; [|by apply last_None in Ez]. intros [= ->].
      apply last_Some_elem_of in Ez. apply NoDup_app in Hnd as (_ & _ & [Hnin _]%NoDup_cons). done.
    - destruct k as [|? k]; [|destruct k; cbn in E; injection E; done]. injection E as <- <-. rewrite app_nil_r, bool_decide_true by done. done. }
  destruct (last l) as [z|] eqn:El.
  - assert (Hz : z ∈ l) by by apply last_Some_elem_of.
    apply last_Some in El as [l0 El]. destruct (Hsp l0 z [] El) as [_ Hnz].
    unfold next_of in Hnz. destruct (h !! z) as [zo|] eqn:Ez; [|done]. cbn in Hnz. injection Hnz as Hnz. cbn [mbind option_bind].
    rewrite Hnz, bool_decide_true, bool_decide_true by (done || (rewrite El; destruct l0; by eexists)). cbn [c3_assert andb mbind option_bind].
    destruct (update_some h z (set_next c (Some x))) as (h1 & E1); [by eexists|]. rewrite E1. cbn [mbind option_bind].
    destruct (update_some h1 x (set_prev c (Some z))) as (h2 & E2); [by apply (update_is_some c _ _ _ _ _ E1)|]. rewrite E2. cbn [mbind option_bind].
    destruct (update_some h2 x (set_next c None)) as (h3 & E3); [by apply (update_is_some c _ _ _ _ _ E2), (update_is_some c _ _ _ _ _ E1)|]. rewrite E3. cbn [mbind option_bind].
    assert (Hr : relinked c h h3 (l ++ [x])).
    { eapply (relinked_trans c); [eapply (relinked_next c _ _ z); [set_solver|done]|].
      eapply (relinked_trans c); [eapply (relinked_prev c _ _ x); [set_solver|done]|]. eapply (relinked_next c _ _ x); [set_solver|done]. }
    exists h3. split; [rewrite El; by destruct l0|]. split; [|exact Hr]. apply Hdone; [done|]. intros y.
    destruct (next_of_set_next c _ _ _ _ y E3) as [-> ->], (prev_of_set_prev c _ _ _ _ y E2) as [-> ->], (next_of_set_next c _ _ _ _ y E1) as [-> ->].
    split; [done|]. case_bool_decide; [done|]. destruct (decide (y = z)) as [->|]; [by rewrite !bool_decide_true|]. rewrite !bool_decide_false; congruence.
  - apply last_None in El as ->. cbn [head app] in *. rewrite bool_decide_true by done. cbn [c3_assert mbind option_bind].
    destruct (update_some h x (set_prev c None)) as (h2 & E2); [done|]. rewrite E2. cbn [mbind option_bind].
    destruct (update_some h2 x (set_next c None)) as (h3 & E3); [by apply (update_is_some c _ _ _ _ _ E2)|]. rewrite E3. cbn [mbind option_bind].
    assert (Hr : relinked c h h3 [x]).
    { eapply (relinked_trans c); [eapply (relinked_prev c _ _ x); [set_solver|done]|]. eapply (relinked_next c _ _ x); [set_solver|done]. }
    exists h3. split; [done|]. split; [|exact Hr]. apply Hdone; [done|]. intros y.
    destruct (next_of_set_next c _ _ _ _ y E3) as [-> ->], (prev_of_set_prev c _ _ _ _ y E2) as [-> ->]. split; [done|]. case_bool_decide; done.
Qed.

(** The links after [x] has been bypassed. *)
Definition bypassed h h' (l1 : list loc) (x : loc) (l2 : list loc) : Prop :=
  forall y, y <> x ->
    prev_of c h' y = (if bool_decide (head l2 = Some y) then Some (last l1) else prev_of c h y) /\
    next_of c h' y = (if bool_decide (last l1 = Some y) then Some (head l2) else next_of c h y).

Lemma bypassed_list h h' first l1 x l2 : dlist c h first (l1 ++ x :: l2) -> bypassed h h' l1 x l2 -> dlist c h' (head (l1 ++ l2)) (l1 ++ l2).
Proof.
  intros Hl Hb. apply dlist_split in Hl as (_ & Hnd & Hsp). apply dlist_split. split; [done|].
  apply NoDup_app in Hnd as (Hnd1 & Hdis & [Hx2 Hnd2]%NoDup_cons).
  assert (Hx1 : x ∉ l1) by (intros Hx; apply (Hdis x Hx); left).
  split; [apply NoDup_app; split_and!; [done| |done]; intros y Hy Hy'; apply (Hdis y Hy); by right|].
  intros a y b E. assert (y <> x) as Hyx.
  { intros ->. assert (x ∈ l1 ++ l2) as Hin by (rewrite E; set_solver). set_solver. }
  destruct (Hb y Hyx) as [-> ->]. apply app_cons_cases in E as [(k & -> & ->)|(k & -> & ->)].
  - destruct (Hsp a y (k ++ x :: l2)) as [Hp Hn]; [by rewrite <- app_assoc|]. rewrite Hp, Hn.
    rewrite (bool_decide_false (head l2 = Some y)).
    2:{ intros Hh. destruct l2; [done|]. cbn in Hh. injection Hh as ->. apply (Hdis y); set_solver. }
    split; [done|]. destruct k as [|z k]; [by rewrite last_snoc, bool_decide_true|]. rewrite bool_decide_false; [done|].
    rewrite last_app, last_cons_cons. destruct (last (z :: k)) as [z'|] eqn:Ez; [|by apply last_None in Ez]. intros [= ->].
    apply last_Some_elem_of in Ez. apply NoDup_app in Hnd1 as (_ & _ & [Hnin _]%NoDup_cons). done.
  - destruct (Hsp (l1 ++ x :: k) y b) as [Hp Hn]; [by rewrite <- app_assoc|]. rewrite Hp, Hn.
    rewrite (bool_decide_false (last l1 = Some y)).
    2:{ intros Hh%last_Some_elem_of. apply (Hdis y Hh). set_solver. }
    split; [|done]. destruct k as [|z k]; cbn [head app]; [by rewrite bool_decide_true, app_nil_r|].
    rewrite bool_decide_false. 2:{ intros [= ->]. apply NoDup_cons in Hnd2 as [Hnin _]. set_solver. }
    rewrite !last_app, !last_cons_cons. by destruct (last (z :: k)).
Qed.

(** The two halves of bypassing. *)
Lemma bypass_prev_ok h l1 x l2 : dlist c h (head (l1 ++ x :: l2)) (l1 ++ x :: l2) ->
  exists h', bypass_prev c h (head (l1 ++ x :: l2)) x (last l1) (head l2) = Some (h', head (l1 ++ l2)) /\ relinked c h h' l1 /\
    forall y, prev_of c h' y = prev_of c h y /\ next_of c h' y = (if bool_decide (last l1 = Some y) then Some (head l2) else next_of c h y).
Proof.
  intros Hl. apply dlist_split in Hl as (_ & Hnd & Hsp). unfold bypass_prev. destruct (last l1) as [p|] eqn:Ep.
  - assert (Hp : p ∈ l1) by by apply last_Some_elem_of. apply last_Some in Ep as [l0 ->].
    destruct (Hsp l0 p (x :: l2)) as [_ Hn]; [by rewrite <- app_assoc|]. unfold next_of in Hn. destruct (h !! p) as [po|] eqn:Eo; [|done].
    cbn in Hn. injection Hn as Hn. cbn [mbind option_bind]. rewrite Hn, bool_decide_true by done. cbn [c3_assert mbind option_bind].
    destruct (update_some h p (set_next c (head l2))) as (h1 & E1); [by eexists|]. rewrite E1. cbn [mbind option_bind].
    exists h1. split; [by destruct l0|]. split; [by eapply relinked_next|]. intros y. destruct (next_of_set_next c _ _ _ _ y E1) as [-> ->].
    split; [done|]. destruct (decide (y = p)) as [->|]; [by rewrite !bool_decide_true|]. rewrite !bool_decide_false; congruence.
  - apply last_None in Ep as ->. cbn. rewrite bool_decide_true by done. exists h. split; [done|]. split; [apply relinked_refl|].
    intros y. by rewrite bool_decide_false.
Qed.

Lemma bypass_next_ok h h1 l1 x n l2 : dlist c h (head (l1 ++ x :: n :: l2)) (l1 ++ x :: n :: l2) -> relinked c h h1 (l1 ++ [x]) ->
  (forall y, y <> x -> prev_of c h1 y = prev_of c h y) ->
  exists h', bypass_next c h1 n x (last l1) = Some h' /\ relinked c h1 h' (n :: l2) /\
    forall y, next_of c h' y = next_of c h1 y /\ prev_of c h' y = (if bool_decide (Some n = Some y) then Some (last l1) else prev_of c h1 y).
Proof.
  intros Hl Hr Hpv. apply dlist_split in Hl as (_ & Hnd & Hsp).
  destruct (Hsp (l1 ++ [x]) n l2) as [Hp _]; [by rewrite <- app_assoc|]. rewrite last_snoc in Hp.
  assert (n <> x) as Hnx. { intros ->. apply NoDup_app in Hnd as (_ & _ & [Hnin _]%NoDup_cons). set_solver. }
  rewrite <- Hpv in Hp by done. unfold bypass_next. unfold prev_of in Hp. destruct (h1 !! n) as [no|] eqn:Eo; [|done].
  cbn in Hp. injection Hp as Hp. cbn [mbind option_bind]. rewrite Hp, bool_decide_true by done. cbn [c3_assert mbind option_bind].
  destruct (update_some h1 n (set_prev c (last l1))) as (h2 & E2); [by eexists|]. exists h2. split; [done|]. split; [eapply (relinked_prev c _ _ n); [left|done]|].
  intros y. destruct (prev_of_set_prev c _ _ _ _ y E2) as [-> ->]. split; [done|].
  destruct (decide (y = n)) as [->|]; [by rewrite !bool_decide_true|]. rewrite !bool_decide_false; congruence.
Qed.

Lemma chain_links h first l1 x l2 : dlist c h first (l1 ++ x :: l2) ->
  exists o, h !! x = Some o /\ l_prev c o = last l1 /\ l_next c o = head l2.
Proof.
  intros Hl. apply dlist_split in Hl as (_ & _ & Hsp). destruct (Hsp l1 x l2 eq_refl) as [Hp Hn]. unfold prev_of, next_of in *.
  destruct (h !! x) as [o|]; [|done]. exists o. cbn in *. by simplify_eq.
Qed.

Lemma unlink_chain_ok h first la l1 x l2 : dchain c h first la (l1 ++ x :: l2) ->
  exists h', unlink_chain c h first la x = Some (h', head (l1 ++ l2), last (l1 ++ l2)) /\
    dchain c h' (head (l1 ++ l2)) (last (l1 ++ l2)) (l1 ++ l2) /\ relinked c h h' (l1 ++ x :: l2) /\
    prev_of c h' x = Some None /\ next_of c h' x = Some None.
Proof.
  intros [Hl ->]. destruct (chain_links _ _ _ _ _ Hl) as (o & Ho & Hp & Hn). assert (E := proj1 (proj1 (dlist_split _ _ _) Hl)). subst first.
  unfold unlink_chain. rewrite Ho. cbn [mbind option_bind]. rewrite Hp, Hn.
  destruct (bypass_prev_ok h l1 x l2 Hl) as (h1 & E1 & R1 & L1). rewrite E1. cbn [mbind option_bind].
  assert (Hnd := proj1 (proj2 (proj1 (dlist_split _ _ _) Hl))). apply NoDup_app in Hnd as (_ & Hdis & [Hx2 _]%NoDup_cons).
  assert (Hx1 : x ∉ l1) by (intros Hx; apply (Hdis x Hx); left).
  assert (Hpx : prev_of c h x = Some (last l1) /\ next_of c h x = Some (head l2)) by (unfold prev_of, next_of; rewrite Ho; cbn; by rewrite Hp, Hn).
  destruct Hpx as [Hpx Hnx].
  (* clearing the link to the previous element *)
  assert (H2 : exists h2, match last l1 with Some _ => update h1 x (set_prev c None) | None => Some h1 end = Some h2 /\ relinked c h h2 (l1 ++ [x]) /\
    forall y, prev_of c h2 y = (if bool_decide (y = x) then Some None else prev_of c h y) /\
      next_of c h2 y = (if bool_decide (last l1 = Some y) then Some (head l2) else next_of c h y)).
  { assert (Hr : relinked c h h1 (l1 ++ [x])) by (eapply (relinked_mono c); [exact R1|set_solver]). destruct (last l1) as [p|] eqn:Ep.
    - destruct (update_some h1 x (set_prev c None)) as (h2 & E2); [apply elem_of_dom; rewrite (proj1 R1); by apply elem_of_dom_2 in Ho|].
      exists h2. split; [done|]. split; [eapply (relinked_trans c); [done|eapply (relinked_prev c _ _ x); [set_solver|done]]|]. intros y.
      destruct (prev_of_set_prev c _ _ _ _ y E2) as [-> ->], (L1 y) as [-> ->]. done.
    - exists h1. split; [done|]. split; [done|]. intros y. destruct (L1 y) as [-> ->]. case_bool_decide; [subst y; done|done]. }
  destruct H2 as (h2 & -> & R2 & L2). cbn [mbind option_bind]. destruct l2 as [|n l2]; cbn [head].
  - rewrite last_snoc, bool_decide_true by done. cbn [c3_assert mbind option_bind]. exists h2. rewrite app_nil_r. split; [done|]. split; [|split; [done|split]].
    + split; [|done]. rewrite <- (app_nil_r l1). eapply bypassed_list; [done|]. intros y Hy. destruct (L2 y) as [-> ->].
      rewrite (bool_decide_false (y = x)) by done. split; [by rewrite bool_decide_false|done].
    + destruct (L2 x) as [-> _]. by rewrite bool_decide_true.
    + destruct (L2 x) as [_ ->]. rewrite bool_decide_false; [done|]. intros ?%last_Some_elem_of. done.
  - destruct (bypass_next_ok h h2 l1 x n l2 Hl R2) as (h3 & E3 & R3 & L3).
    { intros y Hy. destruct (L2 y) as [-> _]. by rewrite bool_decide_false. }
    rewrite E3. cbn [mbind option_bind].
    destruct (update_some h3 x (set_next c None)) as (h4 & E4).
    { apply elem_of_dom. rewrite (proj1 R3), (proj1 R2). by apply elem_of_dom_2 in Ho. }
    rewrite E4. cbn [mbind option_bind]. assert (L4 := fun y => next_of_set_next c _ _ _ _ y E4).
    assert (Hlast : last (l1 ++ x :: n :: l2) = last (l1 ++ n :: l2)) by (rewrite !last_app, last_cons_cons; by destruct (last (n :: l2))).
    exists h4. split; [by rewrite Hlast|]. split; [|split; [|split]].
    + split; [|done]. eapply bypassed_list; [done|]. intros y Hy. destruct (L4 y) as [-> ->], (L3 y) as [-> ->], (L2 y) as [-> ->].
      rewrite !(bool_decide_false (y = x)) by done. done.
    + eapply (relinked_trans c); [eapply (relinked_mono c); [exact R2|set_solver]|]. eapply (relinked_trans c); [eapply (relinked_mono c); [exact R3|set_solver]|].
      eapply (relinked_next c _ _ x); [set_solver|done].
    + destruct (L4 x) as [_ ->], (L3 x) as [_ ->], (L2 x) as [-> _]. rewrite bool_decide_false; [by rewrite bool_decide_true|]. intros [= ->]. set_solver.
    + destruct (L4 x) as [-> _]. by rewrite bool_decide_true.
Qed.

Lemma move_back_ok h first la l1 x l2 : dchain c h first la (l1 ++ x :: l2) ->
  exists h', move_back c h first la x = Some (h', head (l1 ++ l2 ++ [x]), Some x) /\
    dchain c h' (head (l1 ++ l2 ++ [x])) (Some x) (l1 ++ l2 ++ [x]) /\ relinked c h h' (l1 ++ x :: l2).
Proof.
  intros [Hl ->]. destruct (chain_links _ _ _ _ _ Hl) as (o & Ho & Hp & Hn). assert (E := proj1 (proj1 (dlist_split _ _ _) Hl)). subst first.
  assert (Hnd := proj1 (proj2 (proj1 (dlist_split _ _ _) Hl))). assert (Hnd' := Hnd). apply NoDup_app in Hnd as (Hnd1 & Hdis & [Hx2 Hnd2]%NoDup_cons).
  assert (Hx1 : x ∉ l1) by (intros Hx; apply (Hdis x Hx); left).
  unfold move_back. destruct l2 as [|n l2].
  { rewrite last_snoc, bool_decide_true by done. cbn [negb app]. exists h. split; [done|]. split; [|apply relinked_refl]. split; [done|by rewrite last_snoc]. }
  assert (Hlast : last (l1 ++ x :: n :: l2) = last (n :: l2)).
  { rewrite last_app, last_cons_cons. destruct (last (n :: l2)) eqn:El; [done|]. by apply last_None in El. }
  rewrite Hlast. destruct (last (n :: l2)) as [z|] eqn:Ez; [|by apply last_None in Ez].
  assert (Hz : z ∈ n :: l2) by by apply last_Some_elem_of.
  rewrite bool_decide_false by (intros [= ->]; done). cbn [negb]. rewrite Ho. cbn [mbind option_bind]. rewrite Hp, Hn.
  destruct (bypass_prev_ok h l1 x (n :: l2) Hl) as (h1 & E1 & R1 & L1). cbn [head] in *. rewrite E1. cbn [mbind option_bind].
  destruct (bypass_next_ok h h1 l1 x n l2 Hl) as (h2 & E2 & R2 & L2); [eapply (relinked_mono c); [exact R1|set_solver]|intros y _; apply L1|].
  rewrite E2. cbn [mbind option_bind].
  assert (Hb : bypassed h h2 l1 x (n :: l2)) by (intros y Hy; destruct (L2 y) as [-> ->], (L1 y) as [-> ->]; done).
  assert (Hl2 := bypassed_list _ _ _ _ _ _ Hl Hb).
  assert (R : relinked c h h2 (l1 ++ x :: n :: l2)).
  { eapply (relinked_trans c); [eapply (relinked_mono c); [exact R1|set_solver]|]. eapply (relinked_mono c); [exact R2|set_solver]. }
  (* what remains is to link at the back *)
  destruct (link_back_ok h2 (head (l1 ++ n :: l2)) (last (l1 ++ n :: l2)) (l1 ++ n :: l2) x) as (h3 & E3 & D3 & R3).
  { done. } { set_solver. } { apply elem_of_dom. rewrite (proj1 R). by apply elem_of_dom_2 in Ho. }
  exists h3. rewrite <- app_assoc in *. split; [|split; [done|]].
  - unfold link_back in E3. replace (last (l1 ++ n :: l2)) with (Some z) in E3 by (rewrite last_app, Ez; done).
    destruct (h2 !! z) as [zo|]; [|done]. cbn [mbind option_bind] in *. destruct (bool_decide (l_next c zo = None)); [|done]. cbn [andb] in E3.
    destruct (bool_decide (is_Some _)) eqn:Ef in E3; [|done]. cbn [c3_assert mbind option_bind] in *.
    destruct (update h2 z _) as [h4|]; [|done]. cbn [mbind option_bind] in *. destruct (update h4 x _) as [h5|]; [|done]. cbn [mbind option_bind] in *.
    destruct (update h5 x _) as [h6|]; [|done]. cbn [mbind option_bind] in *. exact E3.
  - eapply (relinked_trans c); [exact R|]. eapply (relinked_mono c); [exact R3|]. set_solver.
Qed.

End Lemmas.
