(* ===== verification/Optimizer.v ===== *)
(** * Optimizer

    The optimizers ([ht_optimizer.*]), threads that keep the objects of a store in order of
    use, one chain per kind of user agent, and evict objects when they expire, upon request, or when
    memory runs short. This file models their data, the iterator over chains, the handlers of
    messages and garbage collection; [SessionOptimizer] and [PageOptimizer] are instances
    of a class with the virtual methods. The proofs are in [OptimizerChains] and after it.

    A handler is a step of the optimizer's thread. A [LockableObjectGuard] takes the lock of an object;
    the step is taken when the lock is free, so to find it taken is [None]. What other threads decide
    is in [Env]: the time, and the memory used in other domains. Objects that were handed
    over, by [on_delete] or to the store, are in [o_posted], messages put back into the queue in [o_requeued].

    Not modelled here are the second part of [run], which compresses buffers again, and logging. *)

From S2P Require Import Prelude Protocol Memory DList DChain HashObject.

(** ** Fields of objects *)

Section Fields.
Variable o : HashObject.
Let p := ho_payload o.

Definition with_opt_links (prev next : ptr) : HashObject :=
  ho_with_payload o (mkPayloadFields (pho_buffer p) prev next (pho_size p) (pho_usize p) (pho_mod_time p) (pho_exp_time p)
    (pho_semaphore p) (pho_count p) (pho_opt_useragent p) (pho_opt_comp p)).

Definition with_mod_time (t : Z) : HashObject :=
  ho_with_payload o (mkPayloadFields (pho_buffer p) (pho_opt_prev p) (pho_opt_next p) (pho_size p) (pho_usize p) t (pho_exp_time p)
    (pho_semaphore p) (pho_count p) (pho_opt_useragent p) (pho_opt_comp p)).

Definition set_expiration_time (t : Z) : HashObject :=
  ho_with_payload o (mkPayloadFields (pho_buffer p) (pho_opt_prev p) (pho_opt_next p) (pho_size p) (pho_usize p) (pho_mod_time p) t
    (pho_semaphore p) (pho_count p) (pho_opt_useragent p) (pho_opt_comp p)).

(** [increment_count], which saturates. *)
Definition increment_num_writes : HashObject :=
  ho_with_payload o (mkPayloadFields (pho_buffer p) (pho_opt_prev p) (pho_opt_next p) (pho_size p) (pho_usize p) (pho_mod_time p) (pho_exp_time p)
    (pho_semaphore p) (if pho_count p <? 65535 then pho_count p + 1 else pho_count p) (pho_opt_useragent p) (pho_opt_comp p)).

Definition set_user_agent (ua : user_agent_t) : HashObject :=
  ho_with_payload o (mkPayloadFields (pho_buffer p) (pho_opt_prev p) (pho_opt_next p) (pho_size p) (pho_usize p) (pho_mod_time p) (pho_exp_time p)
    (pho_semaphore p) (pho_count p) ua (pho_opt_comp p)).

Definition with_lock_state (s : Z) : HashObject :=
  mkHashObject (ho_ht_prev o) (ho_ht_next o) (ho_prev o) (ho_next o) (ho_hash o) (ho_length o) (ho_name o) (ho_flags o) s p.

Definition lock_object : HashObject := with_lock_state (Z.lor (lo_state o) LO_LOCKED).
Definition unlock_object : HashObject := with_lock_state (Z.ldiff (lo_state o) LO_LOCKED).

Definition get_user_agent : user_agent_t := pho_opt_useragent p.
Definition get_expiration_time : Z := pho_exp_time p.
Definition get_last_modification_time : Z := pho_mod_time p.

End Fields.

(** The links of the optimizer. *)
Definition opt_chain : links HashObject :=
  mkLinks (fun o => pho_opt_prev (ho_payload o)) (fun o => pho_opt_next (ho_payload o))
    (fun p o => with_opt_links o p (pho_opt_next (ho_payload o)))
    (fun n o => with_opt_links o (pho_opt_prev (ho_payload o)) n).

#[export] Instance opt_chain_laws : LinkLaws opt_chain.
Proof. by split. Qed.

Definition ua_index (ua : user_agent_t) : nat :=
  match ua with UA_UNKNOWN => 0 | UA_BOT => 1 | UA_WARMER => 2 | UA_USER => 3 | UA_NUMBER_OF_ELEMENTS => 4 end%nat.

(** ** State *)

Record ObjectChain := {
  oc_first : ptr;
  oc_last : ptr;
  oc_num : Z;
  oc_min_num : Z;
}.

(** The constructor. *)
Definition new_chain : ObjectChain := {| oc_first := None; oc_last := None; oc_num := 0; oc_min_num := 1 |}.

Inductive eviction_mode_t := EM_INVALID | EM_STRICT_EXPIRATION_LRU | EM_EXPIRATION_LRU | EM_LRU | EM_STRICT_LRU.

#[export] Instance eviction_mode_eq_dec : EqDecision eviction_mode_t.
Proof. solve_decision. Defined.

Definition em_code (m : eviction_mode_t) : Z :=
  match m with EM_INVALID => 0 | EM_STRICT_EXPIRATION_LRU => 1 | EM_EXPIRATION_LRU => 2 | EM_LRU => 3 | EM_STRICT_LRU => 4 end.

(** [o_eviction_mode <= EM_EXPIRATION_LRU]. *)
Definition expires (m : eviction_mode_t) : bool := em_code m <=? em_code EM_EXPIRATION_LRU.

(** What a step sees of the rest of the program: the time, [global_memory], and the memory
    used by the other one of the two domains. *)
Record Env := {
  e_now : Z;
  e_global : Memory;
  e_other_used : Z;
}.

(** Requests about objects and memory. *)
Inductive OptimizerMessage :=
| OR_WRITE (x : loc) (ua : user_agent_t) (lifetime : Z)
| OR_READ (x : loc) (ua : user_agent_t)
| OR_DELETE (x : loc) (num_retries : Z)
| OR_GC (seconds : Z)
| OR_FREE_MEMORY (min_size : Z)
| OR_CONFIG_RETAIN_COUNTS (counts : list Z)
| OR_CONFIG_EVICTION_MODE (mode : eviction_mode_t)
| OR_SESSION_FIRST_WRITE_LIFETIMES (values : list Z)
| OR_SESSION_FIRST_WRITE_NUMS (values : list Z)
| OR_SESSION_DEFAULT_LIFETIMES (values : list Z)
| OR_SESSION_READ_EXTRA_LIFETIMES (values : list Z)
| OR_FPC_DEFAULT_LIFETIMES (values : list Z)
| OR_FPC_READ_EXTRA_LIFETIMES (values : list Z)
| OR_FPC_MAX_LIFETIMES (values : list Z)
| OR_FPC_TOUCH (x : loc) (lifetime : Z).

(** [process_generic_ua_slot_message]: four numbers. *)
Definition ua_slots (values : list Z) : option (list Z) :=
  _ ← c3_assert (length values =? 4)%nat;
  Some values.

Section Optimizer.

(** The configuration of the derived class. *)
Context {C : Type}.

Record Optimizer := {
  o_heap : heap;
  o_chain : list ObjectChain;
  o_next_object : ptr; (* [o_iterator.oci_next_object] *)
  o_memory : Memory;
  o_total_num_objects : Z;
  o_eviction_mode : eviction_mode_t;
  o_config : C;
  o_posted : list loc;
  o_requeued : list OptimizerMessage;
}.

(** The virtual methods; those that change an object return it. *)
Class Hooks := {
  on_write : Env -> C -> HashObject -> Z -> option HashObject;
  on_read : Env -> C -> eviction_mode_t -> HashObject -> option HashObject;
  on_delete : HashObject -> option unit;
  on_gc : Env -> C -> eviction_mode_t -> HashObject -> Z -> option bool;
  on_message : C -> OptimizerMessage -> option C; (* the messages that change the configuration *)
  handles_touch : bool; (* whether [on_message] knows [OR_FPC_TOUCH] *)
  on_touch : Env -> C -> HashObject -> Z -> option HashObject;
}.

Section State.
Variable s : Optimizer.

Definition with_heap (h : heap) : Optimizer :=
  {| o_heap := h; o_chain := o_chain s; o_next_object := o_next_object s; o_memory := o_memory s; o_total_num_objects := o_total_num_objects s;
     o_eviction_mode := o_eviction_mode s; o_config := o_config s; o_posted := o_posted s; o_requeued := o_requeued s |}.

Definition with_chain (h : heap) (i : nat) (ch : ObjectChain) : Optimizer :=
  {| o_heap := h; o_chain := <[i := ch]> (o_chain s); o_next_object := o_next_object s; o_memory := o_memory s; o_total_num_objects := o_total_num_objects s;
     o_eviction_mode := o_eviction_mode s; o_config := o_config s; o_posted := o_posted s; o_requeued := o_requeued s |}.

Definition with_next_object (p : ptr) : Optimizer :=
  {| o_heap := o_heap s; o_chain := o_chain s; o_next_object := p; o_memory := o_memory s; o_total_num_objects := o_total_num_objects s;
     o_eviction_mode := o_eviction_mode s; o_config := o_config s; o_posted := o_posted s; o_requeued := o_requeued s |}.

Definition with_memory (m : Memory) : Optimizer :=
  {| o_heap := o_heap s; o_chain := o_chain s; o_next_object := o_next_object s; o_memory := m; o_total_num_objects := o_total_num_objects s;
     o_eviction_mode := o_eviction_mode s; o_config := o_config s; o_posted := o_posted s; o_requeued := o_requeued s |}.

Definition with_total (n : Z) : Optimizer :=
  {| o_heap := o_heap s; o_chain := o_chain s; o_next_object := o_next_object s; o_memory := o_memory s; o_total_num_objects := n;
     o_eviction_mode := o_eviction_mode s; o_config := o_config s; o_posted := o_posted s; o_requeued := o_requeued s |}.

Definition with_mode (m : eviction_mode_t) : Optimizer :=
  {| o_heap := o_heap s; o_chain := o_chain s; o_next_object := o_next_object s; o_memory := o_memory s; o_total_num_objects := o_total_num_objects s;
     o_eviction_mode := m; o_config := o_config s; o_posted := o_posted s; o_requeued := o_requeued s |}.

Definition with_config (c : C) : Optimizer :=
  {| o_heap := o_heap s; o_chain := o_chain s; o_next_object := o_next_object s; o_memory := o_memory s; o_total_num_objects := o_total_num_objects s;
     o_eviction_mode := o_eviction_mode s; o_config := c; o_posted := o_posted s; o_requeued := o_requeued s |}.

Definition with_chains (l : list ObjectChain) : Optimizer :=
  {| o_heap := o_heap s; o_chain := l; o_next_object := o_next_object s; o_memory := o_memory s; o_total_num_objects := o_total_num_objects s;
     o_eviction_mode := o_eviction_mode s; o_config := o_config s; o_posted := o_posted s; o_requeued := o_requeued s |}.

Definition post (x : loc) : Optimizer :=
  {| o_heap := o_heap s; o_chain := o_chain s; o_next_object := o_next_object s; o_memory := o_memory s; o_total_num_objects := o_total_num_objects s;
     o_eviction_mode := o_eviction_mode s; o_config := o_config s; o_posted := o_posted s ++ [x]; o_requeued := o_requeued s |}.

Definition requeue (m : OptimizerMessage) : Optimizer :=
  {| o_heap := o_heap s; o_chain := o_chain s; o_next_object := o_next_object s; o_memory := o_memory s; o_total_num_objects := o_total_num_objects s;
     o_eviction_mode := o_eviction_mode s; o_config := o_config s; o_posted := o_posted s; o_requeued := o_requeued s ++ [m] |}.

(** Access to an object. *)
Definition object (x : loc) : option HashObject := o_heap s !! x.

Definition change (x : loc) (f : HashObject -> HashObject) : option Optimizer :=
  h ← update (o_heap s) x f; Some (with_heap h).

(** Taking the lock of a guard, and releasing it. *)
Definition guard_lock (x : loc) : option Optimizer :=
  o ← object x;
  _ ← c3_assert (negb (is_locked o));
  change x lock_object.

Definition guard_unlock (x : loc) : option Optimizer := change x unlock_object.

(** ** [ObjectChain] *)

Definition get_chain (ua : user_agent_t) : option ObjectChain := o_chain s !! ua_index ua.

Definition chain_link (ua : user_agent_t) (x : loc) : option Optimizer :=
  ch ← get_chain ua;
  o ← object x;
  _ ← c3_assert (is_locked o && flags_are_clear o HOF_LINKED_BY_OPTIMIZER);
  '(h, first, last) ← link_back opt_chain (o_heap s) (oc_first ch) (oc_last ch) x;
  h ← update h x (fun o => set_flags o HOF_LINKED_BY_OPTIMIZER);
  Some (with_chain h (ua_index ua) {| oc_first := first; oc_last := last; oc_num := u32 (oc_num ch + 1); oc_min_num := oc_min_num ch |}).

Definition chain_promote (ua : user_agent_t) (x : loc) : option Optimizer :=
  ch ← get_chain ua;
  o ← object x;
  _ ← c3_assert (is_locked o && flags_are_set o HOF_LINKED_BY_OPTIMIZER && negb (oc_num ch =? 0));
  '(h, first, last) ← move_back opt_chain (o_heap s) (oc_first ch) (oc_last ch) x;
  Some (with_chain h (ua_index ua) {| oc_first := first; oc_last := last; oc_num := oc_num ch; oc_min_num := oc_min_num ch |}).

Definition chain_unlink (ua : user_agent_t) (x : loc) : option Optimizer :=
  ch ← get_chain ua;
  o ← object x;
  _ ← c3_assert (is_locked o && flags_are_set o HOF_LINKED_BY_OPTIMIZER && negb (oc_num ch =? 0));
  '(h, first, last) ← unlink_chain opt_chain (o_heap s) (oc_first ch) (oc_last ch) x;
  h ← update h x (fun o => clear_flags o HOF_LINKED_BY_OPTIMIZER);
  Some (with_chain h (ua_index ua) {| oc_first := first; oc_last := last; oc_num := u32 (oc_num ch - 1); oc_min_num := oc_min_num ch |}).

(** ** [ObjectChainIterator] *)

(** The first object of the first chain that has any. *)
Fixpoint first_of (chains : list ObjectChain) : ptr :=
  match chains with
  | [] => None
  | ch :: chains => match oc_first ch with Some x => Some x | None => first_of chains end
  end.

(** [get_next_object] of an object. *)
Definition next_object (pho : ptr) : option ptr :=
  match pho with
  | None => Some None
  | Some x =>
      o ← object x;
      match pho_opt_next (ho_payload o) with
      | Some next => Some (Some next)
      | None => Some (first_of (drop (S (ua_index (get_user_agent o))) (o_chain s)))
      end
  end.

Definition gc_suitable (o : HashObject) : bool :=
  flags_are_clear o HOF_BEING_DELETED && negb (is_locked o) && negb (has_readers o).

(** The [do] loop over the rest of a chain. *)
Fixpoint scan_chain (fuel : nat) (x : loc) : option ptr :=
  match fuel with
  | O => None
  | S fuel =>
      o ← object x;
      if gc_suitable o then Some (Some x)
      else match pho_opt_next (ho_payload o) with
           | Some next => scan_chain fuel next
           | None => Some None
           end
  end.

(** The [for] loop over chains. *)
Fixpoint scan_chains (fuel : nat) (chains : list ObjectChain) (pho : ptr) : option ptr :=
  match chains with
  | [] => Some None
  | ch :: chains =>
      if oc_min_num ch <? oc_num ch then
        x ← match pho with Some x => Some x | None => oc_first ch end;
        found ← scan_chain fuel x;
        match found with
        | Some y => Some (Some y)
        | None => scan_chains fuel chains None
        end
      else scan_chains fuel chains None
  end.

(** No chain is longer than the heap. *)
Definition get_gc_object (pho : ptr) : option ptr :=
  match pho with
  | None => Some None
  | Some x =>
      o ← object x;
      scan_chains (S (size (o_heap s))) (drop (ua_index (get_user_agent o)) (o_chain s)) pho
  end.

(** The iterator's next object and the object for garbage collection, upon [get_first_gc_object]. *)
Definition get_first_gc_object : option (ptr * ptr) :=
  let first := first_of (o_chain s) in
  next ← next_object first;
  first_gc ← get_gc_object first;
  next ← (if negb (bool_decide (first_gc = first)) then next_object first_gc else Some next);
  Some (next, first_gc).

(** The same for [get_next_gc_object] of an iterator with the given next object. *)
Definition get_next_gc_object (oci_next_object : ptr) : option (ptr * ptr) :=
  let next := oci_next_object in
  oci_next_object ← next_object next;
  next_gc ← get_gc_object next;
  oci_next_object ← (if negb (bool_decide (next_gc = next)) then next_object next_gc else Some oci_next_object);
  Some (oci_next_object, next_gc).

(** [o_iterator.exclude_object(pho)]. *)
Definition exclude_object (x : loc) : option Optimizer :=
  if bool_decide (o_next_object s = Some x) then
    next ← next_object (o_next_object s);
    Some (with_next_object next)
  else Some s.

(** [prepare_next_object], before the first run. *)
Definition prepare_next_object : Optimizer := with_next_object (first_of (o_chain s)).

(** The object that the second pass of [run] is to look at: the next one, or else the first one again. *)
Definition next_to_check : option (loc * Optimizer) :=
  let next := o_next_object s in
  oci_next_object ← next_object next;
  match next with
  | Some x => Some (x, with_next_object oci_next_object)
  | None =>
      let first := first_of (o_chain s) in
      oci_next_object ← next_object first;
      x ← first;
      Some (x, with_next_object oci_next_object)
  end.

(** ** Decisions *)

Definition validate_eviction_mode (env : Env) : option Optimizer :=
  match o_eviction_mode s with
  | EM_LRU | EM_STRICT_LRU =>
      if is_quota_set (o_memory s) || is_quota_set (e_global env) then Some (with_mode EM_EXPIRATION_LRU) else Some s
  | EM_INVALID => None
  | _ => Some s
  end.

Definition is_above_memory_quota (env : Env) : bool :=
  if is_quota_set (o_memory s) then m_max_size (o_memory s) <? m_used_size (o_memory s)
  else if is_quota_set (e_global env) then m_max_size (e_global env) <? u64 (m_used_size (o_memory s) + e_other_used env)
  else false.

End State.

(** [ObjectChainIterator::unlink], for an iterator whose next object is [next]. *)
Definition iterator_unlink (s : Optimizer) (next : ptr) (x : loc) : option Optimizer :=
  o ← object s x;
  _ ← c3_assert ((ua_index (get_user_agent o) <? 4)%nat && negb (bool_decide (next = Some x)));
  s ← exclude_object s x;
  s ← chain_unlink s (get_user_agent o) x;
  _ ← c3_assert (negb (o_total_num_objects s =? 0));
  Some (with_total s (o_total_num_objects s - 1)).

(** ** Handlers *)

Context `{Hooks}.

(** The part that [process_write_message] and [process_read_message] share: an object that is
    linked moves to the back of its chain, or to that of a user agent of higher rank. *)
Definition refresh (s : Optimizer) (x : loc) (ua : user_agent_t) : option Optimizer :=
  o ← object s x;
  let current_ua := get_user_agent o in
  if (ua_index current_ua <? ua_index ua)%nat then
    s ← exclude_object s x;
    s ← change s x (fun o => set_user_agent o ua);
    s ← chain_unlink s current_ua x;
    chain_link s ua x
  else
    s ← exclude_object s x;
    chain_promote s current_ua x.

(** Linking of a new object. *)
Definition adopt (s : Optimizer) (x : loc) (ua : user_agent_t) : option Optimizer :=
  _ ← c3_assert (ua_index ua <? 4)%nat;
  s ← change s x (fun o => set_user_agent o ua);
  s ← chain_link s ua x;
  Some (with_total s (u32 (o_total_num_objects s + 1))).

(** [pho->field = ...] through a virtual method. *)
Definition call_hook (s : Optimizer) (x : loc) (f : HashObject -> option HashObject) : option Optimizer :=
  o ← object s x;
  o ← f o;
  Some (with_heap s (<[x := o]> (o_heap s))).

(** [c3_assert(pho->flags_are_set(HOF_LINKED_BY_OPTIMIZER))]. *)
Definition assert_linked (s : Optimizer) (x : loc) : option Optimizer :=
  o ← object s x;
  _ ← c3_assert (flags_are_set o HOF_LINKED_BY_OPTIMIZER);
  Some s.

Definition process_write_message (env : Env) (s : Optimizer) (x : loc) (ua : user_agent_t) (lifetime : Z) : option Optimizer :=
  s ← guard_lock s x;
  o ← object s x;
  s ← (if flags_are_clear o HOF_BEING_DELETED then
         s ← (if flags_are_clear o HOF_LINKED_BY_OPTIMIZER then adopt s x ua else refresh s x ua);
         s ← change s x (fun o => with_mod_time o (e_now env));
         s ← call_hook s x (fun o => on_write env (o_config s) o lifetime);
         assert_linked s x
       else if flags_are_clear o HOF_LINKED_BY_OPTIMIZER then
         s ← adopt s x ua;
         change s x (fun o => set_expiration_time (with_mod_time o (e_now env)) (e_now env))
       else Some s);
  guard_unlock s x.

Definition process_read_message (env : Env) (s : Optimizer) (x : loc) (ua : user_agent_t) : option Optimizer :=
  s ← guard_lock s x;
  o ← object s x;
  s ← (if flags_are_clear o HOF_BEING_DELETED && flags_are_set o HOF_LINKED_BY_OPTIMIZER then
         s ← refresh s x ua;
         s ← call_hook s x (fun o => on_read env (o_config s) (o_eviction_mode s) o);
         assert_linked s x
       else Some s);
  guard_unlock s x.

(** [MAX_NUM_RETRIES], and [increment_num_retries]. *)
Definition MAX_NUM_RETRIES : Z := 256.

Definition process_delete_message (s : Optimizer) (x : loc) (num_retries : Z) : option Optimizer :=
  s ← guard_lock s x;
  o ← object s x;
  _ ← c3_assert (flags_are_set o HOF_BEING_DELETED && flags_are_clear o HOF_LINKED_BY_TM);
  if flags_are_set o HOF_LINKED_BY_OPTIMIZER then
    s ← exclude_object s x;
    s ← chain_unlink s (get_user_agent o) x;
    _ ← c3_assert (negb (o_total_num_objects s =? 0));
    let s := with_total s (o_total_num_objects s - 1) in
    s ← guard_unlock s x;
    Some (post s x)
  else
    _ ← c3_assert (num_retries <? MAX_NUM_RETRIES);
    s ← guard_unlock s x;
    Some (if num_retries + 1 <? MAX_NUM_RETRIES then requeue s (OR_DELETE x (num_retries + 1)) else s).

(** [process_fpc_touch_message], of [PageOptimizer]. *)
Definition process_fpc_touch_message (env : Env) (s : Optimizer) (x : loc) (lifetime : Z) : option Optimizer :=
  s ← guard_lock s x;
  o ← object s x;
  s ← (if flags_are_clear o HOF_BEING_DELETED && flags_are_set o HOF_LINKED_BY_OPTIMIZER then
         s ← exclude_object s x;
         s ← chain_promote s (get_user_agent o) x;
         call_hook s x (fun o => on_touch env (o_config s) o lifetime)
       else Some s);
  guard_unlock s x.

(** *** Eviction *)

(** Marking an object as deleted, disposing of its buffer and unlinking it; the number of bytes. *)
Definition evict (s : Optimizer) (next : ptr) (x : loc) : option (Optimizer * Z) :=
  s ← change s x (fun o => set_flags o HOF_BEING_DELETED);
  o ← object s x;
  '(size, o, m) ← dispose_buffer o (o_memory s);
  let s := with_memory (with_heap s (<[x := o]> (o_heap s))) m in
  s ← iterator_unlink s next x;
  Some (s, size).

(** The body of the loop of [process_gc_message]; and whether the guard still holds the lock. *)
Definition gc_body (env : Env) (seconds : Z) (s : Optimizer) (next : ptr) (x : loc) : option (Optimizer * bool) :=
  s ← guard_lock s x;
  o ← object s x;
  _ ← c3_assert (flags_are_set o HOF_LINKED_BY_OPTIMIZER);
  if flags_are_clear o HOF_BEING_DELETED then
    purge ← (if is_above_memory_quota s env then Some true
             else if expires (o_eviction_mode s) then on_gc env (o_config s) (o_eviction_mode s) o seconds
             else Some false);
    if (purge : bool) then
      s ← (if negb (has_readers o) then '(s, _) ← evict s next x; Some s
           else
             s ← change s x (fun o => set_flags o HOF_BEING_DELETED);
             iterator_unlink s next x);
      s ← guard_unlock s x;
      o ← object s x;
      _ ← on_delete o;
      Some (post s x, false)
    else Some (s, true)
  else Some (s, true).

(** The loop of [process_gc_message]; the iterator only moves forward. The guard is released at
    the end of its scope, after the iterator has moved. *)
Fixpoint gc_loop (fuel : nat) (env : Env) (seconds : Z) (s : Optimizer) (next pho : ptr) : option Optimizer :=
  match pho with
  | None => Some s
  | Some x =>
      match fuel with
      | O => None
      | S fuel =>
          '(s, locked) ← gc_body env seconds s next x;
          '(next, pho) ← get_next_gc_object s next;
          s ← (if (locked : bool) then guard_unlock s x else Some s);
          gc_loop fuel env seconds s next pho
      end
  end.

Definition process_gc_message (env : Env) (s : Optimizer) (seconds : Z) : option Optimizer :=
  s ← validate_eviction_mode s env;
  if negb (bool_decide (o_eviction_mode s = EM_STRICT_LRU)) then
    '(next, pho) ← get_first_gc_object s;
    gc_loop (Z.to_nat (o_total_num_objects s)) env seconds s next pho
  else Some s.

(** The loop of [process_free_memory_message]; [deleted] is the chain of objects that have been
    deleted, and [freed] the size of their buffers. *)
Fixpoint free_loop (fuel : nat) (min_size freed : Z) (s : Optimizer) (next pho deleted : ptr) : option (Optimizer * ptr) :=
  match pho with
  | None => Some (s, deleted)
  | Some x =>
      if freed <? min_size then
        match fuel with
        | O => None
        | S fuel =>
            s ← guard_lock s x;
            o ← object s x;
            '(s, freed, deleted) ← (if flags_are_clear o HOF_BEING_DELETED && negb (has_readers o) then
              '(s, size) ← evict s next x;
              s ← change s x (fun o => with_opt_links o (pho_opt_prev (ho_payload o)) deleted);
              Some (s, u64 (freed + size), Some x)
            else Some (s, freed, deleted));
            '(next, pho) ← get_next_gc_object s next;
            s ← guard_unlock s x;
            free_loop fuel min_size freed s next pho deleted
        end
      else Some (s, deleted)
  end.

(** The loop that hands over what has been deleted. *)
Fixpoint hand_over (fuel : nat) (s : Optimizer) (deleted : ptr) : option Optimizer :=
  match deleted with
  | None => Some s
  | Some x =>
      match fuel with
      | O => None
      | S fuel =>
          o ← object s x;
          s ← change s x (fun o => with_opt_links o (pho_opt_prev (ho_payload o)) None);
          o' ← object s x;
          _ ← on_delete o';
          hand_over fuel (post s x) (pho_opt_next (ho_payload o))
      end
  end.

Definition process_free_memory_message (s : Optimizer) (min_size : Z) : option Optimizer :=
  let n := Z.to_nat (o_total_num_objects s) in
  '(next, pho) ← get_first_gc_object s;
  '(s, deleted) ← free_loop n min_size 0 s next pho None;
  hand_over n s deleted.

(** The first pass of [run]: eviction for as long as there is too much. *)
Definition quota_body (s : Optimizer) (next : ptr) (x : loc) : option (Optimizer * bool) :=
  s ← guard_lock s x;
  o ← object s x;
  if flags_are_clear o HOF_BEING_DELETED && negb (has_readers o) then
    '(s, _) ← evict s next x;
    s ← guard_unlock s x;
    o ← object s x;
    _ ← on_delete o;
    Some (post s x, false)
  else Some (s, true).

Fixpoint quota_loop (fuel : nat) (env : Env) (s : Optimizer) (next pho : ptr) : option Optimizer :=
  match pho with
  | None => Some s
  | Some x =>
      match fuel with
      | O => None
      | S fuel =>
          '(s, locked) ← quota_body s next x;
          if is_above_memory_quota s env then
            '(next, pho) ← get_next_gc_object s next;
            s ← (if (locked : bool) then guard_unlock s x else Some s);
            quota_loop fuel env s next pho
          else if (locked : bool) then guard_unlock s x else Some s
      end
  end.

Definition run_quota_pass (env : Env) (s : Optimizer) : option Optimizer :=
  s ← validate_eviction_mode s env;
  if is_above_memory_quota s env then
    '(next, pho) ← get_first_gc_object s;
    quota_loop (Z.to_nat (o_total_num_objects s)) env s next pho
  else Some s.

Definition process_config_retain_counts_message (s : Optimizer) (retain_counts : list Z) : option Optimizer :=
  _ ← c3_assert (length retain_counts =? 4)%nat;
  Some (with_chains s (zip_with (fun ch n => {| oc_first := oc_first ch; oc_last := oc_last ch; oc_num := oc_num ch; oc_min_num := n |})
    (o_chain s) retain_counts)).

Definition process_config_eviction_mode_message (s : Optimizer) (mode : eviction_mode_t) : option Optimizer :=
  _ ← c3_assert (negb (bool_decide (mode = EM_INVALID)));
  Some (with_mode s mode).

Definition process_message (env : Env) (s : Optimizer) (msg : OptimizerMessage) : option Optimizer :=
  match msg with
  | OR_WRITE x ua lifetime => process_write_message env s x ua lifetime
  | OR_READ x ua => process_read_message env s x ua
  | OR_DELETE x n => process_delete_message s x n
  | OR_GC seconds => process_gc_message env s seconds
  | OR_FREE_MEMORY min_size => process_free_memory_message s min_size
  | OR_CONFIG_RETAIN_COUNTS counts => process_config_retain_counts_message s counts
  | OR_CONFIG_EVICTION_MODE mode => process_config_eviction_mode_message s mode
  | OR_FPC_TOUCH x lifetime =>
      _ ← c3_assert handles_touch;
      process_fpc_touch_message env s x lifetime
  | _ =>
      c ← on_message (o_config s) msg;
      Some (with_config s c)
  end.

End Optimizer.

Arguments Optimizer C : clear implicits.
Arguments Hooks C : clear implicits.
