(* ===== verification/OptimizerHooks.v ===== *)
(** * OptimizerHooks

    The virtual methods of [SessionOptimizer] and [PageOptimizer] ([ht_optimizer.cc]): when objects
    expire. [HooksLaws]: what the rest of the optimizer needs of them. *)

From S2P Require Import Prelude Protocol Memory DList HashObject ParserTokens Optimizer.

(** [Timer::MAX_TIMESTAMP], which stands for an infinite lifetime, or asks for the default one. *)
Definition MAX_TIMESTAMP_VAL : Z := 2 ^ 31 - 1.

(** The element of an array that belongs to a user agent. *)
Definition per_agent (l : list Z) (ua : user_agent_t) : option Z := l !! ua_index ua.

(** The assertion that [on_write] and [on_read] start with. *)
Definition hook_assert (type : hash_object_type_t) (o : HashObject) : option unit :=
  c3_assert (is_locked o && flags_are_clear o HOF_BEING_DELETED && flags_are_set o HOF_LINKED_BY_OPTIMIZER &&
    (ua_index (get_user_agent o) <? 4)%nat && bool_decide (get_type o = type)).

(** The end of [on_read], which both classes have: extension of the lifetime, up to a time that
    depends on the mode. *)
Definition extend_lifetime (env : Env) (extra : list Z) (mode : eviction_mode_t) (o : HashObject) : option HashObject :=
  let expiration_time := get_expiration_time o in
  if match mode with EM_LRU | EM_STRICT_LRU => true | _ => negb (e_now env <? expiration_time) end then
    extra ← per_agent extra (get_user_agent o);
    let new_expiration_time := u32 (e_now env + extra) in
    Some (if expiration_time <? new_expiration_time then set_expiration_time o new_expiration_time else o)
  else Some o.

Definition gc_assert (type : hash_object_type_t) (mode : eviction_mode_t) (o : HashObject) : option unit :=
  c3_assert (bool_decide (get_type o = type) && is_locked o && flags_are_clear o HOF_BEING_DELETED && expires mode).

(** ** [SessionOptimizer] *)

Record SessionConfig := {
  so_first_write_lifetimes : list Z;
  so_first_write_nums : list Z;
  so_default_lifetimes : list Z;
  so_read_extra_lifetimes : list Z;
}.

(** The arrays with default values. *)
Definition so_defaults : SessionConfig := {|
  so_first_write_lifetimes := [30; minutes2seconds 1; minutes2seconds 2; minutes2seconds 10];
  so_first_write_nums := [100; 50; 20; 10];
  so_default_lifetimes := [hours2seconds 1; hours2seconds 2; days2seconds 1; weeks2seconds 2];
  so_read_extra_lifetimes := [30; minutes2seconds 1; minutes2seconds 2; weeks2seconds 2];
|}.

(** The lifetime of a record after a number of writes: it grows from that of the first write to
    the default one. *)
Definition session_lifetime (c : SessionConfig) (ua : user_agent_t) (num_writes : Z) : option Z :=
  first_write_lifetime ← per_agent (so_first_write_lifetimes c) ua;
  if num_writes =? 0 then Some first_write_lifetime
  else
    default_lifetime ← per_agent (so_default_lifetimes c) ua;
    first_num_writes ← per_agent (so_first_write_nums c) ua;
    let first_num_writes := if first_num_writes =? 0 then 1 else first_num_writes in
    if num_writes <? first_num_writes then
      let default_lifetime := if default_lifetime <? first_write_lifetime then first_write_lifetime else default_lifetime in
      Some (u32 (first_write_lifetime + u32 (u32 (default_lifetime - first_write_lifetime) * num_writes) / first_num_writes))
    else Some default_lifetime.

Definition session_on_write (env : Env) (c : SessionConfig) (o : HashObject) (lifetime : Z) : option HashObject :=
  _ ← hook_assert HOT_SESSION_OBJECT o;
  let ua := get_user_agent o in
  if bool_decide (ua = UA_USER) && negb (lifetime =? MAX_TIMESTAMP_VAL) then
    if negb (lifetime =? 0) then
      let new_expiration_time := get_last_modification_time o + lifetime in
      Some (set_expiration_time o (if MAX_TIMESTAMP_VAL <=? new_expiration_time then MAX_TIMESTAMP_VAL - 1 else new_expiration_time))
    else Some (set_expiration_time o MAX_TIMESTAMP_VAL)
  else
    lifetime ← session_lifetime c ua (pho_count (ho_payload o));
    Some (increment_num_writes (set_expiration_time o (u32 (get_last_modification_time o + lifetime)))).

Definition session_on_read (env : Env) (c : SessionConfig) (mode : eviction_mode_t) (o : HashObject) : option HashObject :=
  _ ← hook_assert HOT_SESSION_OBJECT o;
  if 0 <? pho_count (ho_payload o) then extend_lifetime env (so_read_extra_lifetimes c) mode o else Some o.

Definition session_on_delete (o : HashObject) : option unit :=
  c3_assert (negb (is_locked o) && bool_decide (get_type o = HOT_SESSION_OBJECT) && flags_are_set o HOF_BEING_DELETED &&
    flags_are_clear o HOF_LINKED_BY_OPTIMIZER).

Definition session_on_gc (env : Env) (c : SessionConfig) (mode : eviction_mode_t) (o : HashObject) (seconds : Z) : option bool :=
  _ ← gc_assert HOT_SESSION_OBJECT mode o;
  Some (u32 (get_last_modification_time o + seconds) <? e_now env).

Definition session_on_message (c : SessionConfig) (msg : OptimizerMessage) : option SessionConfig :=
  match msg with
  | OR_SESSION_FIRST_WRITE_LIFETIMES values =>
      values ← ua_slots values;
      Some {| so_first_write_lifetimes := values; so_first_write_nums := so_first_write_nums c;
              so_default_lifetimes := so_default_lifetimes c; so_read_extra_lifetimes := so_read_extra_lifetimes c |}
  | OR_SESSION_FIRST_WRITE_NUMS values =>
      values ← ua_slots values;
      Some {| so_first_write_lifetimes := so_first_write_lifetimes c; so_first_write_nums := values;
              so_default_lifetimes := so_default_lifetimes c; so_read_extra_lifetimes := so_read_extra_lifetimes c |}
  | OR_SESSION_DEFAULT_LIFETIMES values =>
      values ← ua_slots values;
      Some {| so_first_write_lifetimes := so_first_write_lifetimes c; so_first_write_nums := so_first_write_nums c;
              so_default_lifetimes := values; so_read_extra_lifetimes := so_read_extra_lifetimes c |}
  | OR_SESSION_READ_EXTRA_LIFETIMES values =>
      values ← ua_slots values;
      Some {| so_first_write_lifetimes := so_first_write_lifetimes c; so_first_write_nums := so_first_write_nums c;
              so_default_lifetimes := so_default_lifetimes c; so_read_extra_lifetimes := values |}
  | _ => None
  end.

#[export] Instance session_hooks : Hooks SessionConfig := {
  on_write := session_on_write;
  on_read := session_on_read;
  on_delete := session_on_delete;
  on_gc := session_on_gc;
  on_message := session_on_message;
  handles_touch := false;
  on_touch := fun _ _ _ _ => None;
}.

(** ** [PageOptimizer] *)

Record PageConfig := {
  po_default_lifetimes : list Z;
  po_read_extra_lifetimes : list Z;
  po_max_lifetimes : list Z;
}.

Definition po_defaults : PageConfig := {|
  po_default_lifetimes := [days2seconds 1; days2seconds 2; days2seconds 20; days2seconds 60];
  po_read_extra_lifetimes := [days2seconds 1; days2seconds 2; days2seconds 20; days2seconds 60];
  po_max_lifetimes := [days2seconds 10; days2seconds 30; days2seconds 60; days2seconds 60];
|}.

Definition page_on_write (env : Env) (c : PageConfig) (o : HashObject) (lifetime : Z) : option HashObject :=
  _ ← hook_assert HOT_PAGE_OBJECT o;
  if negb (lifetime =? 0) then
    let ua := get_user_agent o in
    lifetime ← (if lifetime =? MAX_TIMESTAMP_VAL then per_agent (po_default_lifetimes c) ua else Some lifetime);
    max_lifetime ← per_agent (po_max_lifetimes c) ua;
    let lifetime := if max_lifetime <? lifetime then max_lifetime else lifetime in
    Some (set_expiration_time o (u32 (get_last_modification_time o + lifetime)))
  else Some (set_expiration_time o MAX_TIMESTAMP_VAL).

Definition page_on_read (env : Env) (c : PageConfig) (mode : eviction_mode_t) (o : HashObject) : option HashObject :=
  _ ← hook_assert HOT_PAGE_OBJECT o;
  if negb (get_expiration_time o =? MAX_TIMESTAMP_VAL) then extend_lifetime env (po_read_extra_lifetimes c) mode o else Some o.

Definition page_on_delete (o : HashObject) : option unit :=
  c3_assert (negb (is_locked o) && bool_decide (get_type o = HOT_PAGE_OBJECT) && flags_are_set o HOF_BEING_DELETED &&
    flags_are_clear o (Z.lor HOF_DELETED HOF_LINKED_BY_OPTIMIZER)).

Definition page_on_gc (env : Env) (c : PageConfig) (mode : eviction_mode_t) (o : HashObject) (seconds : Z) : option bool :=
  _ ← gc_assert HOT_PAGE_OBJECT mode o;
  Some (get_expiration_time o <? e_now env).

(** What [process_fpc_touch_message] does with the expiration time. *)
Definition page_on_touch (env : Env) (c : PageConfig) (o : HashObject) (lifetime : Z) : option HashObject :=
  let expiration_time := get_expiration_time o in
  if negb (expiration_time =? MAX_TIMESTAMP_VAL) then
    max_lifetime ← per_agent (po_max_lifetimes c) (get_user_agent o);
    let lifetime := if e_now env <? expiration_time then u32 (lifetime + (expiration_time - e_now env)) else lifetime in
    let lifetime := if max_lifetime <? lifetime then max_lifetime else lifetime in
    Some (set_expiration_time o (u32 (e_now env + lifetime)))
  else Some o.

Definition page_on_message (c : PageConfig) (msg : OptimizerMessage) : option PageConfig :=
  match msg with
  | OR_FPC_DEFAULT_LIFETIMES values =>
      values ← ua_slots values;
      Some {| po_default_lifetimes := values; po_read_extra_lifetimes := po_read_extra_lifetimes c; po_max_lifetimes := po_max_lifetimes c |}
  | OR_FPC_READ_EXTRA_LIFETIMES values =>
      values ← ua_slots values;
      Some {| po_default_lifetimes := po_default_lifetimes c; po_read_extra_lifetimes := values; po_max_lifetimes := po_max_lifetimes c |}
  | OR_FPC_MAX_LIFETIMES values =>
      values ← ua_slots values;
      Some {| po_default_lifetimes := po_default_lifetimes c; po_read_extra_lifetimes := po_read_extra_lifetimes c; po_max_lifetimes := values |}
  | _ => None
  end.

#[export] Instance page_hooks : Hooks PageConfig := {
  on_write := page_on_write;
  on_read := page_on_read;
  on_delete := page_on_delete;
  on_gc := page_on_gc;
  on_message := page_on_message;
  handles_touch := true;
  on_touch := page_on_touch;
}.
