(* ===== verification/OptimizerChains.v ===== *)
(** * OptimizerChains

    The chains of an optimizer as lists, one per user agent: what linking, moving and unlinking do
    to them, and that the iterator walks through their concatenation. Objects are seen
    without their links ([cores]), which is what the rest of the program sees of them. *)

From S2P Require Import Prelude Protocol Memory DList DChain HashObject Optimizer.

(** ** Objects without links *)

Definition core (o : HashObject) : HashObject := with_opt_links o None None.

#[export] Instance core_unlinked : Unlinked opt_chain core.
Proof. by split. Qed.

Lemma core_idem o : core (core o) = core o.
Proof. done. Qed.

(** The flags of the optimizer, and that of deletion. *)
Definition linkedb (o : HashObject) : bool := Z.testbit (ho_flags o) 2.
Definition deletedb (o : HashObject) : bool := Z.testbit (ho_flags o) 6.

Lemma set_linked_flag o : flags_are_set o HOF_LINKED_BY_OPTIMIZER = linkedb o.
Proof. apply (flags_set_bit o 2). lia. Qed.
Lemma clear_linked_flag o : flags_are_clear o HOF_LINKED_BY_OPTIMIZER = negb (linkedb o).
Proof. apply (flags_clear_bit o 2). lia. Qed.
Lemma set_deleted_flag o : flags_are_set o HOF_BEING_DELETED = deletedb o.
Proof. apply (flags_set_bit o 6). lia. Qed.
Lemma clear_deleted_flag o : flags_are_clear o HOF_BEING_DELETED = negb (deletedb o).
Proof. apply (flags_clear_bit o 6). lia. Qed.

Section Chains.
Context {C : Type}.
Implicit Types s : Optimizer C.

Definition cores s : heap := core <$> o_heap s.

Lemma cores_lookup s x o : cores s !! x = Some o -> exists o', o_heap s !! x = Some o' /\ o = core o'.
Proof. unfold cores. rewrite lookup_fmap. intros (o' & -> & ->)%fmap_Some. by exists o'. Qed.

Lemma cores_object s x o : object s x = Some o -> cores s !! x = Some (core o).
Proof. unfold object, cores. rewrite lookup_fmap. by intros ->. Qed.

Lemma object_cores s x o : cores s !! x = Some o -> exists o', object s x = Some o' /\ core o' = o.
Proof. intros (o' & H & ->)%cores_lookup. by exists o'. Qed.

(** Changes of objects that leave links alone. *)
Lemma change_cores s x f o : (forall o, core (f o) = core (f (core o))) ->
  (forall o, pho_opt_prev (ho_payload (f o)) = pho_opt_prev (ho_payload o)) ->
  (forall o, pho_opt_next (ho_payload (f o)) = pho_opt_next (ho_payload o)) ->
  cores s !! x = Some o ->
  exists s', change s x f = Some s' /\ cores s' = <[x := core (f o)]> (cores s) /\ s' = with_heap s (o_heap s') /\
    (forall y, prev_of opt_chain (o_heap s') y = prev_of opt_chain (o_heap s) y /\ next_of opt_chain (o_heap s') y = next_of opt_chain (o_heap s) y).
Proof.
  intros Hc Hp Hn (o' & Ho & ->)%cores_lookup. unfold change. rewrite (update_ok _ _ _ _ Ho). cbn [mbind option_bind].
  eexists. split; [done|]. split; [|split; [done|]].
  - unfold cores. cbn. rewrite fmap_insert. by rewrite Hc.
  - intros y. unfold prev_of, next_of. cbn. destruct (decide (y = x)) as [->|]; [|by rewrite lookup_insert_ne].
    rewrite lookup_insert_eq, Ho. cbn. by rewrite Hp, Hn.
Qed.

(** What operations on chains do not change. *)
Record same_rest s s' : Prop := {
  sr_next : o_next_object s' = o_next_object s;
  sr_memory : o_memory s' = o_memory s;
  sr_total : o_total_num_objects s' = o_total_num_objects s;
  sr_mode : o_eviction_mode s' = o_eviction_mode s;
  sr_config : o_config s' = o_config s;
  sr_posted : o_posted s' = o_posted s;
  sr_requeued : o_requeued s' = o_requeued s;
  sr_mins : map oc_min_num (o_chain s') = map oc_min_num (o_chain s);
}.

Lemma same_rest_refl s : same_rest s s.
Proof. by split. Qed.

Lemma same_rest_trans s1 s2 s3 : same_rest s1 s2 -> same_rest s2 s3 -> same_rest s1 s3.
Proof. intros [] []. split; congruence. Qed.

Lemma same_rest_heap s h : same_rest s (with_heap s h).
Proof. by split. Qed.

(** ** Chains as lists *)

Definition chain_rep (h : heap) (ch : ObjectChain) (l : list loc) : Prop :=
  dchain opt_chain h (oc_first ch) (oc_last ch) l /\ oc_num ch = zlen l.

Definition chains_ok s (L : list (list loc)) : Prop :=
  Forall2 (chain_rep (o_heap s)) (o_chain s) L /\ length L = 4%nat /\ NoDup (concat L) /\ zlen (concat L) < 2 ^ 32 - 1.

Lemma concat_split (L : list (list loc)) i l : L !! i = Some l -> concat L = concat (take i L) ++ l ++ concat (drop (S i) L).
Proof.
  intros Hl. rewrite <- (take_drop_middle L i l Hl) at 1. by rewrite concat_app, concat_cons.
Qed.

Lemma concat_update (L : list (list loc)) i l : (i < length L)%nat -> concat (<[i := l]> L) = concat (take i L) ++ l ++ concat (drop (S i) L).
Proof.
  intros Hi. by rewrite insert_take_drop, concat_app, concat_cons.
Qed.

Lemma concat_elem (L : list (list loc)) x : x ∈ concat L -> exists i l, L !! i = Some l /\ x ∈ l.
Proof.
  induction L as [|k L IH]; [by intros ?%elem_of_nil|]. cbn. intros [Hx|Hx]%elem_of_app; [by exists 0%nat, k|].
  destruct (IH Hx) as (i & l & Hl & Hxl). by exists (S i), l.
Qed.

Lemma elem_concat (L : list (list loc)) i l x : L !! i = Some l -> x ∈ l -> x ∈ concat L.
Proof. intros Hl Hx. rewrite (concat_split L i l Hl). set_solver. Qed.

(** A change of the links of some objects leaves the chains of others alone. *)
Lemma chains_relinked h h' chains L i l : Forall2 (chain_rep h) chains L -> NoDup (concat L) -> L !! i = Some l ->
  (forall y, y ∉ l -> y ∈ concat L -> prev_of opt_chain h' y = prev_of opt_chain h y /\ next_of opt_chain h' y = next_of opt_chain h y) ->
  forall ch l', chain_rep h' ch l' -> Forall2 (chain_rep h') (<[i := ch]> chains) (<[i := l']> L).
Proof.
  intros Hall Hnd Hl Hy ch l' Hch. apply Forall2_same_length_lookup. split; [by rewrite !length_insert, (Forall2_length _ _ _ Hall)|].
  intros j c k Hc Hk. destruct (decide (i = j)) as [<-|Hne].
  - apply list_lookup_insert_Some in Hc as [(_ & -> & _)|[? _]]; [|done]. by apply list_lookup_insert_Some in Hk as [(_ & -> & _)|[? _]].
  - apply list_lookup_insert_Some in Hc as [(? & _)|[_ Hc]]; [done|]. apply list_lookup_insert_Some in Hk as [(? & _)|[_ Hk]]; [done|]. pose proof (Forall2_lookup_lr _ _ _ _ _ _ Hall Hc Hk) as [[Hd Hla] Hn].
    split; [|done]. split; [|done]. eapply dlist_frame; [|done]. intros y Hyk. apply Hy; [|by eapply elem_concat].
    intros Hyl. rewrite (concat_split L i l Hl) in Hnd. apply NoDup_app in Hnd as (_ & H1 & (_ & H2 & _)%NoDup_app).
    destruct (decide (j < i)%nat).
    + apply (H1 y); [|set_solver]. eapply (elem_concat _ j k); [|done]. by rewrite lookup_take_lt.
    + apply (H2 y Hyl). eapply (elem_concat _ (j - S i) k); [|done]. rewrite lookup_drop. by replace (S i + (j - S i))%nat with j by lia.
Qed.

Lemma relinked_links h h' k y : relinked opt_chain h h' k -> y ∉ k ->
  prev_of opt_chain h' y = prev_of opt_chain h y /\ next_of opt_chain h' y = next_of opt_chain h y.
Proof. intros (_ & E & _) Hy. unfold prev_of, next_of. by rewrite E. Qed.

Lemma relinked_cores h h' k : relinked opt_chain h h' k -> core <$> h' = core <$> h.
Proof. intros (_ & _ & F). apply map_eq. intros y. rewrite !lookup_fmap. apply (F _ core _ y). Qed.

(** ** Operations on chains *)

Lemma chains_get s L i l : chains_ok s L -> L !! i = Some l -> exists ch, o_chain s !! i = Some ch /\ chain_rep (o_heap s) ch l.
Proof.
  intros (Hall & _) Hl. destruct (Forall2_lookup_r _ _ _ _ _ Hall Hl) as (ch & Hch & Hr). by exists ch.
Qed.

Lemma chains_len s L i l : chains_ok s L -> L !! i = Some l -> 0 <= zlen l < 2 ^ 32 - 1.
Proof.
  intros (_ & _ & _ & Hn) Hl. rewrite (concat_split L i l Hl) in Hn. unfold zlen in *. rewrite !length_app in Hn. lia.
Qed.

(** Replacing one list by another one. *)
Lemma concat_replace (L : list (list loc)) i l l' : L !! i = Some l -> NoDup (concat L) ->
  (forall y, y ∈ l' -> y ∈ l \/ y ∉ concat L) -> NoDup l' -> NoDup (concat (<[i := l']> L)).
Proof.
  intros Hl Hnd Hy Hnd'. rewrite concat_update by (by eapply lookup_lt_Some). rewrite (concat_split L i l Hl) in Hnd, Hy.
  apply NoDup_app in Hnd as (H1 & H2 & (H3 & H4 & H5)%NoDup_app). apply NoDup_app. split; [done|]. split.
  - intros y Hy1 [Hy2|Hy2]%elem_of_app; [|by apply (H2 y Hy1), elem_of_app; right].
    destruct (Hy y Hy2) as [?|Hn]; [by apply (H2 y Hy1), elem_of_app; left|]. apply Hn, elem_of_app. by left.
  - apply NoDup_app. split; [done|]. split; [|done]. intros y Hy1 Hy2.
    destruct (Hy y Hy1) as [?|Hn]; [by apply (H4 y)|]. apply Hn. rewrite !elem_of_app. auto.
Qed.

Lemma mins_insert (chains : list ObjectChain) i ch ch' : chains !! i = Some ch -> oc_min_num ch' = oc_min_num ch ->
  map oc_min_num (<[i := ch']> chains) = map oc_min_num chains.
Proof.
  intros Hch E. change (oc_min_num <$> <[i := ch']> chains = oc_min_num <$> chains). rewrite list_fmap_insert, E.
  apply list_insert_id. by rewrite list_lookup_fmap, Hch.
Qed.

(** What the flags operations and the like have in common: they leave links alone. *)
Record keeps_links (f : HashObject -> HashObject) : Prop := {
  kl_prev o : pho_opt_prev (ho_payload (f o)) = pho_opt_prev (ho_payload o);
  kl_next o : pho_opt_next (ho_payload (f o)) = pho_opt_next (ho_payload o);
  kl_core o : core (f (core o)) = core (f o);
}.

Lemma relinked_object h h' k x o : relinked opt_chain h h' k -> h !! x = Some o -> exists o', h' !! x = Some o' /\ core o' = core o.
Proof.
  intros (_ & _ & F) Ho. specialize (F _ core _ x). rewrite Ho in F. apply fmap_Some in F as (o' & Ho' & E). by exists o'.
Qed.

(** The common end of the operations: [h1] is what became of the links, [f] happens to [x]. *)
Lemma chain_finish s L i l l' ch ch' h1 h2 x o f : chains_ok s L -> L !! i = Some l -> o_chain s !! i = Some ch ->
  relinked opt_chain (o_heap s) h1 (x :: l) -> x ∈ l \/ x ∉ concat L -> keeps_links f -> update h1 x f = Some h2 ->
  o_heap s !! x = Some o -> chain_rep h1 ch' l' -> (forall y, y ∈ l' -> y ∈ x :: l) -> zlen (concat (<[i := l']> L)) < 2 ^ 32 - 1 ->
  oc_min_num ch' = oc_min_num ch ->
  let s' := with_chain s h2 i ch' in
  chains_ok s' (<[i := l']> L) /\ cores s' = <[x := core (f o)]> (cores s) /\ same_rest s s' /\
    (forall y, y ∉ x :: l -> o_heap s' !! y = o_heap s !! y).
Proof.
  intros (Hall & Hlen & Hnd & Hsz) Hl Hch Hr Hx [Hfp Hfn Hfc] Hu Ho [[Hd Hla] Hn] Hl' Hsz' Hmin s'.
  assert (Hlinks : forall y, prev_of opt_chain h2 y = prev_of opt_chain h1 y /\ next_of opt_chain h2 y = next_of opt_chain h1 y).
  { intros y. split; eapply (update_other _ _ _ x f y); [apply Hfp|done|apply Hfn|done]. }
  assert (Hout : forall y, y ∉ x :: l -> h2 !! y = o_heap s !! y).
  { intros y Hy. rewrite (update_ne _ _ _ y _ Hu) by set_solver. by apply (proj1 (proj2 Hr)). }
  destruct (relinked_object _ _ _ _ _ Hr Ho) as (o1 & Ho1 & Ec). rewrite (update_ok _ _ _ _ Ho1) in Hu. injection Hu as Eh.
  split_and!.
  - split_and!; cbn; [|by rewrite length_insert| |done].
    + apply (chains_relinked (o_heap s) _ _ _ _ l); [done..| |].
      * intros y Hy Hyc. destruct (decide (y = x)) as [->|]; [by destruct Hx|]. unfold prev_of, next_of. by rewrite Hout by set_solver.
      * split; [|done]. split; [|done]. eapply dlist_frame; [|exact Hd]. intros y _. apply Hlinks.
    + eapply concat_replace; [done..| |by apply (proj1 (proj2 (proj1 (dlist_split _ _ _ _) Hd)))].
      intros y Hy. specialize (Hl' y Hy). set_solver.
  - unfold cores. cbn. subst h2. rewrite fmap_insert, (relinked_cores _ _ _ Hr). by rewrite <- (Hfc o1), Ec, Hfc.
  - split; try done. cbn. by eapply mins_insert.
  - cbn. exact Hout.
Qed.

Lemma keeps_id : keeps_links id.
Proof. by split. Qed.
Lemma keeps_set_flags n : keeps_links (fun o => set_flags o n).
Proof. by split. Qed.
Lemma keeps_clear_flags n : keeps_links (fun o => clear_flags o n).
Proof. by split. Qed.

Lemma insert_size (L : list (list loc)) i l l' : L !! i = Some l -> zlen (concat (<[i := l']> L)) = zlen (concat L) - zlen l + zlen l'.
Proof.
  intros Hl. rewrite concat_update by (by eapply lookup_lt_Some). rewrite (concat_split L i l Hl). unfold zlen. rewrite !length_app. lia.
Qed.

Lemma chain_link_ok s L ua x o l : chains_ok s L -> L !! ua_index ua = Some l -> x ∉ concat L -> zlen (concat L) + 1 < 2 ^ 32 - 1 ->
  o_heap s !! x = Some o -> is_locked o = true -> linkedb o = false ->
  exists s', chain_link s ua x = Some s' /\ chains_ok s' (<[ua_index ua := l ++ [x]]> L) /\
    cores s' = <[x := core (set_flags o HOF_LINKED_BY_OPTIMIZER)]> (cores s) /\ same_rest s s' /\
    (forall y, y ∉ x :: l -> o_heap s' !! y = o_heap s !! y).
Proof.
  intros Hok Hl Hx Hsz Ho Hlo Hli. destruct (chains_get _ _ _ _ Hok Hl) as (ch & Hch & Hd & Hn). unfold chain_link, get_chain, object.
  rewrite Hch. cbn [mbind option_bind]. rewrite Ho. cbn [mbind option_bind]. rewrite Hlo, clear_linked_flag, Hli. cbn [c3_assert andb negb mbind option_bind].
  destruct (link_back_ok opt_chain _ _ _ _ x Hd) as (h1 & -> & Hd1 & Hr); [intros ?; by apply Hx; eapply elem_concat|by eexists|]. cbn [mbind option_bind].
  destruct (relinked_object _ _ _ _ _ Hr Ho) as (o1 & Ho1 & _).
  destruct (update_some h1 x (fun o => set_flags o HOF_LINKED_BY_OPTIMIZER)) as (h2 & E2); [by eexists|]. rewrite E2. cbn [mbind option_bind].
  eexists. split; [done|]. pose proof (chains_len _ _ _ _ Hok Hl) as Hlen.
  apply (chain_finish s L _ l (l ++ [x]) ch _ h1 h2 x o (fun o => set_flags o HOF_LINKED_BY_OPTIMIZER)); [done..| |by right|apply keeps_set_flags|done|done| | | |done].
  - apply (relinked_mono opt_chain _ _ _ _ Hr). set_solver.
  - split; [exact Hd1|]. cbn. rewrite Hn. unfold zlen in *. rewrite length_app. cbn. rewrite u32_small by (unfold is_u32; lia). lia.
  - set_solver.
  - rewrite (insert_size _ _ _ _ Hl). unfold zlen in *. rewrite length_app. cbn. lia.
Qed.

Lemma chain_promote_ok s L ua x o l1 l2 : chains_ok s L -> L !! ua_index ua = Some (l1 ++ x :: l2) ->
  o_heap s !! x = Some o -> is_locked o = true -> linkedb o = true ->
  exists s', chain_promote s ua x = Some s' /\ chains_ok s' (<[ua_index ua := l1 ++ l2 ++ [x]]> L) /\ cores s' = cores s /\ same_rest s s' /\
    (forall y, y ∉ concat L -> o_heap s' !! y = o_heap s !! y).
Proof.
  intros Hok Hl Ho Hlo Hli. destruct (chains_get _ _ _ _ Hok Hl) as (ch & Hch & Hd & Hn). unfold chain_promote, get_chain, object.
  rewrite Hch. cbn [mbind option_bind]. rewrite Ho. cbn [mbind option_bind].
  assert (oc_num ch =? 0 = false) as -> by (apply Z.eqb_neq; rewrite Hn; unfold zlen; rewrite length_app; cbn; lia).
  rewrite Hlo, set_linked_flag, Hli. cbn [c3_assert andb negb mbind option_bind].
  destruct (move_back_ok opt_chain _ _ _ _ _ _ Hd) as (h1 & -> & Hd1 & Hr). cbn [mbind option_bind].
  destruct (relinked_object _ _ _ _ _ Hr Ho) as (o1 & Ho1 & _). eexists. split; [done|].
  edestruct (chain_finish s L (ua_index ua) (l1 ++ x :: l2) (l1 ++ l2 ++ [x]) ch
    {| oc_first := head (l1 ++ l2 ++ [x]); oc_last := Some x; oc_num := oc_num ch; oc_min_num := oc_min_num ch |} h1 h1 x o id)
    as (H1 & H2 & H3 & H4); [done..| | |apply keeps_id| |done| | | |done|].
  - apply (relinked_mono opt_chain _ _ _ _ Hr). set_solver.
  - left. set_solver.
  - rewrite (update_ok _ _ _ _ Ho1). by rewrite insert_id.
  - split; [exact Hd1|]. cbn. rewrite Hn. unfold zlen. rewrite !length_app. cbn. lia.
  - set_solver.
  - rewrite (insert_size _ _ _ _ Hl). destruct Hok as (_ & _ & _ & Hsz). unfold zlen in *. rewrite !length_app. cbn. lia.
  - split; [done|]. split; [|split; [done|]].
    + rewrite H2. apply insert_id. unfold cores. by rewrite lookup_fmap, Ho.
    + intros y Hy. apply H4. intros Hy'. apply Hy, (elem_concat _ _ _ _ Hl). set_solver.
Qed.

Lemma chain_unlink_ok s L ua x o l1 l2 : chains_ok s L -> L !! ua_index ua = Some (l1 ++ x :: l2) ->
  o_heap s !! x = Some o -> is_locked o = true -> linkedb o = true ->
  exists s', chain_unlink s ua x = Some s' /\ chains_ok s' (<[ua_index ua := l1 ++ l2]> L) /\
    cores s' = <[x := core (clear_flags o HOF_LINKED_BY_OPTIMIZER)]> (cores s) /\ same_rest s s' /\
    (forall y, y ∉ concat L -> o_heap s' !! y = o_heap s !! y).
Proof.
  intros Hok Hl Ho Hlo Hli. destruct (chains_get _ _ _ _ Hok Hl) as (ch & Hch & Hd & Hn). unfold chain_unlink, get_chain, object.
  rewrite Hch. cbn [mbind option_bind]. rewrite Ho. cbn [mbind option_bind].
  assert (oc_num ch =? 0 = false) as -> by (apply Z.eqb_neq; rewrite Hn; unfold zlen; rewrite length_app; cbn; lia).
  rewrite Hlo, set_linked_flag, Hli. cbn [c3_assert andb negb mbind option_bind].
  destruct (unlink_chain_ok opt_chain _ _ _ _ _ _ Hd) as (h1 & -> & Hd1 & Hr & _). cbn [mbind option_bind].
  destruct (relinked_object _ _ _ _ _ Hr Ho) as (o1 & Ho1 & _).
  destruct (update_some h1 x (fun o => clear_flags o HOF_LINKED_BY_OPTIMIZER)) as (h2 & E2); [by eexists|]. rewrite E2. cbn [mbind option_bind].
  pose proof (chains_len _ _ _ _ Hok Hl) as Hlen. eexists. split; [done|].
  edestruct (chain_finish s L (ua_index ua) (l1 ++ x :: l2) (l1 ++ l2) ch
    {| oc_first := head (l1 ++ l2); oc_last := last (l1 ++ l2); oc_num := u32 (oc_num ch - 1); oc_min_num := oc_min_num ch |} h1 h2 x o
    (fun o => clear_flags o HOF_LINKED_BY_OPTIMIZER)) as (H1 & H2 & H3 & H4); [done..| | |apply keeps_clear_flags|done|done| | | |done|].
  - apply (relinked_mono opt_chain _ _ _ _ Hr). set_solver.
  - left. set_solver.
  - split; [exact Hd1|]. cbn. rewrite Hn. unfold zlen in *. rewrite !length_app in *. cbn in *. rewrite u32_small by (unfold is_u32; lia). lia.
  - set_solver.
  - rewrite (insert_size _ _ _ _ Hl). destruct Hok as (_ & _ & _ & Hsz). unfold zlen in *. rewrite !length_app in *. cbn in *. lia.
  - split; [done|]. split; [done|]. split; [done|].
    intros y Hy. apply H4. intros Hy'. apply Hy, (elem_concat _ _ _ _ Hl). set_solver.
Qed.

(** ** The iterator *)

Lemma concat_at (L : list (list loc)) P x R : NoDup (concat L) -> concat L = P ++ x :: R ->
  exists i l1 l2, L !! i = Some (l1 ++ x :: l2) /\ P = concat (take i L) ++ l1 /\ R = l2 ++ concat (drop (S i) L).
Proof.
  intros _. revert P. induction L as [|l L IH]; intros P E; [by destruct P|]. cbn in E.
  apply app_cons_cases in E as [(k & -> & ->)|(k & -> & E)].
  - by exists 0%nat, P, k.
  - destruct (IH _ E) as (i & l1 & l2 & Hl & -> & ->). exists (S i), l1, l2. split; [done|]. split; [|done]. cbn. by rewrite app_assoc.
Qed.

Lemma first_of_ok h chains K : Forall2 (chain_rep h) chains K -> first_of chains = head (concat K).
Proof.
  induction 1 as [|ch l chains K [[Hd _] _] _ IH]; [done|]. cbn. apply dlist_split in Hd as (-> & _). destruct l; [exact IH|done].
Qed.

(** The user agents of objects say in which chain they are. *)
Definition agents_ok (h : heap) (L : list (list loc)) : Prop :=
  forall i l x o, L !! i = Some l -> x ∈ l -> h !! x = Some o -> ua_index (get_user_agent o) = i.

Lemma object_at s L P x R : chains_ok s L -> agents_ok (o_heap s) L -> concat L = P ++ x :: R ->
  exists i l1 l2 o, L !! i = Some (l1 ++ x :: l2) /\ R = l2 ++ concat (drop (S i) L) /\ o_heap s !! x = Some o /\
    ua_index (get_user_agent o) = i /\ pho_opt_next (ho_payload o) = head l2.
Proof.
  intros Hok Ha E. destruct (concat_at L P x R) as (i & l1 & l2 & Hl & -> & ->); [apply Hok|done|].
  destruct (chains_get _ _ _ _ Hok Hl) as (ch & Hch & [Hd _] & _). destruct (chain_links _ _ _ _ _ _ Hd) as (o & Ho & _ & Hn).
  exists i, l1, l2, o. split_and!; [done..| |done]. eapply Ha; [done| |done]. set_solver.
Qed.

Lemma next_object_ok s L P x R : chains_ok s L -> agents_ok (o_heap s) L -> concat L = P ++ x :: R -> next_object s (Some x) = Some (head R).
Proof.
  intros Hok Ha E. destruct (object_at _ _ _ _ _ Hok Ha E) as (i & l1 & l2 & o & Hl & -> & Ho & Hi & Hn).
  unfold next_object, object. rewrite Ho. cbn [mbind option_bind]. rewrite Hn. destruct l2; [|done]. cbn.
  rewrite Hi. f_equal. apply first_of_ok with (h := o_heap s). apply Forall2_drop, Hok.
Qed.

(** Elements that a predicate selects. *)
Lemma find_app {A} (f : A -> bool) a b : List.find f (a ++ b) = match List.find f a with Some x => Some x | None => List.find f b end.
Proof. induction a as [|x a IH]; [done|]. cbn. by destruct (f x). Qed.

Lemma find_split {A} (f : A -> bool) l z : List.find f l = Some z -> exists a b, l = a ++ z :: b /\ (forall y, y ∈ a -> f y = false) /\ f z = true.
Proof.
  induction l as [|x l IH]; [done|]. cbn. destruct (f x) eqn:E.
  - intros [= <-]. exists [], l. split_and!; [done|by intros ? ?%elem_of_nil|done].
  - intros (a & b & -> & Ha & Hz)%IH. exists (x :: a), b. split_and!; [done| |done]. by intros y [->|?]%elem_of_cons; [|apply Ha].
Qed.

Lemma find_ext {A} (f g : A -> bool) l : (forall y, y ∈ l -> f y = g y) -> List.find f l = List.find g l.
Proof.
  induction l as [|x l IH]; intros H; [done|]. cbn. rewrite <- (H x) by left. rewrite IH; [done|]. intros y Hy. apply H. by right.
Qed.

Lemma find_false {A} (f : A -> bool) l : (forall y, y ∈ l -> f y = false) -> List.find f l = None.
Proof. induction l as [|x l IH]; intros H; [done|]. cbn. rewrite (H x) by left. apply IH. intros y Hy. apply H. by right. Qed.

Lemma find_None {A} (f : A -> bool) l y : List.find f l = None -> y ∈ l -> f y = false.
Proof. induction l as [|x l IH]; [by intros _ ?%elem_of_nil|]. cbn. destruct (f x) eqn:E; [done|]. by intros H [->|?]%elem_of_cons; [|apply IH]. Qed.

(** Objects that may be evicted: of a chain that has more than it is to retain, and not in use. *)
Definition idle (h : heap) (x : loc) : bool := match h !! x with Some o => gc_suitable o | None => false end.

Definition evictable s (x : loc) : bool :=
  match o_heap s !! x with
  | Some o => match o_chain s !! ua_index (get_user_agent o) with Some ch => (oc_min_num ch <? oc_num ch) && gc_suitable o | None => false end
  | None => false
  end.

Lemma scan_chain_ok s first x l2 : forall fuel l1, dlist opt_chain (o_heap s) first (l1 ++ x :: l2) -> (length (x :: l2) <= fuel)%nat ->
  scan_chain s fuel x = Some (List.find (idle (o_heap s)) (x :: l2)).
Proof.
  revert x. induction l2 as [|y l2 IH]; intros x fuel l1 Hd Hf; (destruct fuel as [|fuel]; [cbn in Hf; lia|]);
    destruct (chain_links _ _ _ _ _ _ Hd) as (o & Ho & _ & Hn); cbn [scan_chain List.find]; unfold object, idle at 1;
    rewrite Ho; cbn [mbind option_bind]; destruct (gc_suitable o); try done; cbn in Hn; rewrite Hn; [done|].
  apply (IH y fuel (l1 ++ [x])); [by rewrite <- app_assoc|cbn in *; lia].
Qed.

Lemma scan_chains_ok s fuel chains K : Forall2 (chain_rep (o_heap s)) chains K -> (forall l, l ∈ K -> (length l <= fuel)%nat) ->
  (forall j ch l y, chains !! j = Some ch -> K !! j = Some l -> y ∈ l -> evictable s y = (oc_min_num ch <? oc_num ch) && idle (o_heap s) y) ->
  Forall (fun ch => 0 <= oc_min_num ch) chains ->
  scan_chains s fuel chains None = Some (List.find (evictable s) (concat K)).
Proof.
  induction 1 as [|ch l chains K [[Hd _] Hn] Hall IH]; intros Hfuel He Hmin; [done|]. cbn [scan_chains concat]. rewrite find_app.
  apply Forall_cons in Hmin as [Hm Hmin]. rewrite IH; [|intros k Hk; apply Hfuel; by right| |done].
  2: { intros j c k y Hc Hk. apply (He (S j) c k y Hc Hk). }
  destruct (oc_min_num ch <? oc_num ch) eqn:E.
  - assert (exists x l', l = x :: l') as (x & l' & ->) by (destruct l; [rewrite Hn in E; unfold zlen in E; cbn in E; zbool; lia|eauto]).
    assert (oc_first ch = Some x) as -> by apply (proj1 (dlist_split _ _ _ _) Hd). cbn [mbind option_bind].
    rewrite (scan_chain_ok s _ x l' fuel [] Hd) by (apply Hfuel; left). cbn [mbind option_bind].
    rewrite (find_ext (evictable s) (idle (o_heap s)) (x :: l')); [by destruct (List.find (idle (o_heap s)) (x :: l'))|].
    intros y Hy. by rewrite (He 0%nat ch (x :: l') y eq_refl eq_refl Hy), E.
  - rewrite (find_false _ l); [done|]. intros y Hy. by rewrite (He 0%nat ch l y eq_refl eq_refl Hy), E.
Qed.

Lemma chain_bounds s L l : chains_ok s L -> l ∈ L -> (length l <= size (o_heap s))%nat.
Proof.
  intros Hok (i & Hl)%list_elem_of_lookup. destruct (chains_get _ _ _ _ Hok Hl) as (ch & _ & Hd & _).
  rewrite <- (size_list_to_set (C := gset loc)) by apply (proj1 (dlist_split _ _ _ _) (proj1 Hd)). rewrite <- size_dom.
  apply subseteq_size. intros y Hy%elem_of_list_to_set. by apply elem_of_dom, (dchain_elem opt_chain _ _ _ _ _ Hd).
Qed.

Definition mins_ok s : Prop := Forall (fun ch => 0 <= oc_min_num ch) (o_chain s).

(** What can be evicted, in terms of chains. *)
Lemma evictable_at s L i l ch y : chains_ok s L -> agents_ok (o_heap s) L -> L !! i = Some l -> o_chain s !! i = Some ch -> y ∈ l ->
  evictable s y = (oc_min_num ch <? oc_num ch) && idle (o_heap s) y.
Proof.
  intros Hok Ha Hl Hch Hy. unfold evictable, idle. destruct (o_heap s !! y) as [o|] eqn:Ho; [|by rewrite andb_false_r].
  by rewrite (Ha _ _ _ _ Hl Hy Ho), Hch.
Qed.

Lemma get_gc_object_ok s L P R : chains_ok s L -> agents_ok (o_heap s) L -> mins_ok s -> concat L = P ++ R ->
  get_gc_object s (head R) = Some (List.find (evictable s) R).
Proof.
  intros Hok Ha Hm E. destruct R as [|x R]; [done|]. cbn [head]. destruct (object_at _ _ _ _ _ Hok Ha E) as (i & l1 & l2 & o & Hl & -> & Ho & Hi & Hn).
  unfold get_gc_object, object. rewrite Ho. cbn [mbind option_bind]. rewrite Hi. destruct (chains_get _ _ _ _ Hok Hl) as (ch & Hch & Hr).
  rewrite (drop_S _ _ _ Hch). cbn [scan_chains].
  assert (Hrest : scan_chains s (S (size (o_heap s))) (drop (S i) (o_chain s)) None = Some (List.find (evictable s) (concat (drop (S i) L)))).
  { apply scan_chains_ok.
    - apply Forall2_drop, Hok.
    - intros l Hin. transitivity (size (o_heap s)); [|lia]. eapply chain_bounds; [done|]. apply list_elem_of_lookup in Hin as (k & Hk).
      rewrite lookup_drop in Hk. by eapply list_elem_of_lookup_2.
    - intros j c l y Hc Hj Hy. rewrite lookup_drop in Hc. rewrite lookup_drop in Hj. by eapply evictable_at.
    - by apply Forall_drop. }
  rewrite Hrest. change (x :: l2 ++ ?k) with ((x :: l2) ++ k). rewrite find_app.
  assert (He : forall y, y ∈ x :: l2 -> evictable s y = (oc_min_num ch <? oc_num ch) && idle (o_heap s) y).
  { intros y Hy. eapply evictable_at; [done..|]. set_solver. }
  destruct (oc_min_num ch <? oc_num ch) eqn:Em.
  - cbn [mbind option_bind]. rewrite (scan_chain_ok s (oc_first ch) x l2 _ l1); [|apply Hr|].
    2: { pose proof (chain_bounds s L _ Hok (list_elem_of_lookup_2 _ _ _ Hl)) as Hb. rewrite length_app in Hb. cbn in *. lia. }
    cbn [mbind option_bind]. rewrite (find_ext (evictable s) (idle (o_heap s)) (x :: l2)); [by destruct (List.find (idle (o_heap s)) (x :: l2))|].
    intros y Hy. by rewrite He.
  - rewrite (find_false _ (x :: l2)); [done|]. intros y Hy. by rewrite He.
Qed.

(** The iterator finds the next object that may be evicted, and moves past it. *)
Inductive found s (R : list loc) : ptr -> ptr -> Prop :=
| found_none : (forall y, y ∈ R -> evictable s y = false) -> found s R None None
| found_some a z b : R = a ++ z :: b -> (forall y, y ∈ a -> evictable s y = false) -> evictable s z = true -> found s R (head b) (Some z).

Lemma get_next_gc_object_ok s L P R : chains_ok s L -> agents_ok (o_heap s) L -> mins_ok s -> concat L = P ++ R ->
  exists next pho, get_next_gc_object s (head R) = Some (next, pho) /\ found s R next pho.
Proof.
  intros Hok Ha Hm E. unfold get_next_gc_object. assert (Hnext : next_object s (head R) = Some (head (tail R))).
  { destruct R as [|x R]; [done|]. by apply (next_object_ok s L P x R). }
  rewrite Hnext. cbn [mbind option_bind]. rewrite (get_gc_object_ok s L P R) by done. cbn [mbind option_bind].
  destruct (List.find (evictable s) R) as [z|] eqn:Ef.
  - destruct (find_split _ _ _ Ef) as (a & b & -> & Ha' & Hz). case_bool_decide as Ez; cbn [negb].
    + assert (a = []) as ->. { destruct a as [|y a]; [done|]. cbn in Ez. injection Ez as <-. rewrite Ha' in Hz by left. done. }
      cbn [mbind option_bind]. eexists _, _. split; [done|]. by eapply found_some.
    + rewrite (next_object_ok s L (P ++ a) z b); [|done..|by rewrite <- app_assoc]. cbn [mbind option_bind].
      eexists _, _. split; [done|]. by eapply found_some.
  - exists None, None. split; [|apply found_none; intros y; by apply find_None]. case_bool_decide as Ez; cbn [negb]; [|done].
    destruct R; [done|]. done.
Qed.

Lemma get_first_gc_object_ok s L : chains_ok s L -> agents_ok (o_heap s) L -> mins_ok s ->
  exists next pho, get_first_gc_object s = Some (next, pho) /\ found s (concat L) next pho.
Proof.
  intros Hok Ha Hm. destruct (get_next_gc_object_ok s L [] (concat L) Hok Ha Hm eq_refl) as (next & pho & E & Hf). exists next, pho.
  split; [|done]. rewrite <- E. unfold get_first_gc_object, get_next_gc_object. by rewrite (first_of_ok (o_heap s) (o_chain s) L) by apply Hok.
Qed.

(** Objects that are about to leave their place are taken from the iterator of the optimizer. *)
Lemma exclude_object_ok s L x : chains_ok s L -> agents_ok (o_heap s) L -> (forall y, o_next_object s = Some y -> y ∈ concat L) ->
  exists p, exclude_object s x = Some (with_next_object s p) /\ p <> Some x /\ (forall y, p = Some y -> y ∈ concat L).
Proof.
  intros Hok Ha Hn. unfold exclude_object. case_bool_decide as E.
  - rewrite E in Hn |- *. destruct (list_elem_of_split _ _ (Hn x eq_refl)) as (P & R & EL). rewrite (next_object_ok s L P x R) by done.
    cbn [mbind option_bind]. exists (head R). split; [done|]. assert (Hnd : NoDup (concat L)) by apply Hok. rewrite EL in Hnd.
    apply NoDup_app in Hnd as (_ & _ & [Hx _]%NoDup_cons). rewrite EL. destruct R as [|z R]; cbn; [done|]. set_solver.
  - exists (o_next_object s). split; [by destruct s|]. by split.
Qed.

End Chains.
