(* ===== verification/OptimizerInv.v ===== *)
(** * OptimizerInv

    The invariant of an optimizer ([opt_ok]), with its chains as lists, and what the steps of
    handlers do to a state seen as an object that is being processed and the rest ([view]). *)

From S2P Require Import Prelude Protocol Memory DList DChain HashObject Optimizer OptimizerChains.

(** ** Bytes in buffers *)

Definition live_size (o : HashObject) : Z := match pho_buffer (ho_payload o) with NoBuffer => 0 | _ => pho_size (ho_payload o) end.

Definition live_bytes (h : heap) : Z := map_fold (fun _ o n => live_size o + n) 0 h.

Definition buffer_ok (o : HashObject) : Prop :=
  let p := ho_payload o in
  match pho_buffer p with
  | NoBuffer => True
  | Buffer _ => 0 < pho_size p <= pho_usize p
  | ZeroLengthBuffer => pho_size p = 0 /\ pho_usize p = 0
  end.

Lemma live_size_nonneg o : buffer_ok o -> 0 <= live_size o.
Proof. unfold buffer_ok, live_size. destruct (pho_buffer _); lia. Qed.

Lemma live_bytes_insert_new h x o : h !! x = None -> live_bytes (<[x := o]> h) = live_size o + live_bytes h.
Proof. intros Hx. unfold live_bytes. rewrite map_fold_insert_L; [done| |done]. intros. lia. Qed.

Lemma live_bytes_insert h x o o' : h !! x = Some o -> live_bytes (<[x := o']> h) = live_bytes h - live_size o + live_size o'.
Proof.
  intros Hx. rewrite <- (insert_delete_id h x o Hx) at 2. rewrite <- insert_delete_eq, !live_bytes_insert_new by apply lookup_delete_eq. lia.
Qed.

Lemma live_bytes_nonneg h : (forall x o, h !! x = Some o -> 0 <= live_size o) -> 0 <= live_bytes h.
Proof.
  induction h as [|x o h Hx IH] using map_ind; intros H; [done|]. rewrite live_bytes_insert_new by done.
  pose proof (H x o (lookup_insert_eq _ _ _)). assert (0 <= live_bytes h); [|lia]. apply IH. intros y oy Hy. apply (H y).
  rewrite lookup_insert_ne; [done|]. by intros ->; rewrite Hx in Hy.
Qed.

Lemma live_size_le h x o : (forall x o, h !! x = Some o -> 0 <= live_size o) -> h !! x = Some o -> live_size o <= live_bytes h.
Proof.
  intros H Hx. rewrite <- (insert_delete_id h x o Hx), live_bytes_insert_new by apply lookup_delete_eq.
  assert (0 <= live_bytes (delete x h)); [|lia]. apply live_bytes_nonneg. intros y oy [_ Hy]%lookup_delete_Some. by apply (H y).
Qed.

(** ** Locks *)

Lemma lock_locked o : is_locked (lock_object o) = true.
Proof.
  unfold is_locked, lock_object. cbn. apply negb_true_iff, Z.eqb_neq. intros H. apply (f_equal (fun z => Z.testbit z 63)) in H.
  rewrite Z.land_spec, Z.lor_spec, Z.bits_0 in H. change (Z.testbit LO_LOCKED 63) with true in H. by rewrite orb_true_r in H.
Qed.

Lemma unlock_unlocked o : is_locked (unlock_object o) = false.
Proof.
  unfold is_locked, unlock_object. cbn. apply negb_false_iff, Z.eqb_eq, Z.bits_inj'. intros i Hi.
  rewrite Z.land_spec, Z.ldiff_spec, Z.bits_0. by destruct (Z.testbit (lo_state o) i), (Z.testbit LO_LOCKED i).
Qed.

Lemma lock_unlock o : is_locked o = false -> unlock_object (lock_object o) = o.
Proof.
  intros H. unfold is_locked in H. apply negb_false_iff, Z.eqb_eq in H. destruct o. unfold unlock_object, lock_object, with_lock_state. cbn in *. f_equal.
  apply Z.bits_inj'. intros i Hi. apply (f_equal (fun z => Z.testbit z i)) in H. rewrite Z.land_spec, Z.bits_0 in H.
  rewrite Z.ldiff_spec, Z.lor_spec. by destruct (Z.testbit lo_state i), (Z.testbit LO_LOCKED i).
Qed.

Lemma keeps_lock : keeps_links lock_object.
Proof. by split. Qed.
Lemma keeps_unlock : keeps_links unlock_object.
Proof. by split. Qed.
Lemma keeps_agent ua : keeps_links (fun o => set_user_agent o ua).
Proof. by split. Qed.
Lemma keeps_mod_time t : keeps_links (fun o => with_mod_time o t).
Proof. by split. Qed.

(** ** Flags *)

Lemma set_bit o k j : 0 <= k -> 0 <= j -> Z.testbit (ho_flags (set_flags o (2 ^ k))) j = (j =? k) || Z.testbit (ho_flags o) j.
Proof. intros. cbn. rewrite Z.lor_spec, Z.pow2_bits_eqb, (Z.eqb_sym k) by done. apply orb_comm. Qed.

Lemma clear_bit o k j : 0 <= k < 8 -> 0 <= j < 8 -> Z.testbit (ho_flags (clear_flags o (2 ^ k))) j = negb (j =? k) && Z.testbit (ho_flags o) j.
Proof.
  intros. cbn. rewrite Z.land_spec. unfold u8. rewrite Z.mod_pow2_bits_low, Z.lnot_spec, Z.pow2_bits_eqb, (Z.eqb_sym k) by lia. apply andb_comm.
Qed.

Lemma get_type_bits o o' : (forall j, 0 <= j < 2 -> Z.testbit (ho_flags o') j = Z.testbit (ho_flags o) j) -> get_type o' = get_type o.
Proof.
  intros H. unfold get_type. replace (Z.land (ho_flags o') HOF_TYPE_BITS) with (Z.land (ho_flags o) HOF_TYPE_BITS); [done|].
  change HOF_TYPE_BITS with (Z.ones 2). apply Z.bits_inj'. intros i Hi. rewrite !Z.land_spec.
  destruct (decide (i < 2)); [by rewrite H by lia|]. by rewrite Z.ones_spec_high, !andb_false_r by lia.
Qed.

(** ** Chains as lists: removing an element, and moving it to the back of a chain *)

Definition removed (x : loc) (L : list (list loc)) : list (list loc) := map (filter (fun y => y <> x)) L.

Definition moved (i : nat) (x : loc) (L : list (list loc)) : list (list loc) := alter (fun l => l ++ [x]) i (removed x L).

Lemma filter_notin (x : loc) (l : list loc) : x ∉ l -> filter (fun y => y <> x) l = l.
Proof.
  induction l as [|y l IH]; intros Hx; [done|]. rewrite filter_cons. destruct (decide (y <> x)) as [?|Hd]; [rewrite IH; set_solver|].
  exfalso. apply Hd. intros ->. set_solver.
Qed.

Lemma removed_notin x L : x ∉ concat L -> removed x L = L.
Proof.
  intros Hx. unfold removed. induction L as [|l L IH]; [done|]. cbn in *. rewrite IH, filter_notin by set_solver. done.
Qed.

Lemma removed_elem x L y : y ∈ concat (removed x L) <-> y ∈ concat L /\ y <> x.
Proof.
  unfold removed. induction L as [|l L IH]; cbn; [set_solver|]. rewrite !elem_of_app, IH, list_elem_of_filter. tauto.
Qed.

Lemma removed_at x (L : list (list loc)) i l1 l2 : NoDup (concat L) -> L !! i = Some (l1 ++ x :: l2) -> removed x L = <[i := l1 ++ l2]> L.
Proof.
  intros Hnd Hl. rewrite (concat_split L i _ Hl) in Hnd. apply NoDup_app in Hnd as (_ & H1 & (Hndl & H2 & _)%NoDup_app).
  rewrite insert_take_drop by by eapply lookup_lt_Some.
  rewrite <- (take_drop_middle L i _ Hl) at 1. unfold removed. rewrite map_app. cbn [map].
  assert (Hx1 : x ∉ concat (take i L)) by (intros Hx; apply (H1 x Hx); set_solver).
  assert (Hx2 : x ∉ concat (drop (S i) L)) by (intros Hx; apply (H2 x); set_solver).
  pose proof (removed_notin _ _ Hx1) as E1. pose proof (removed_notin _ _ Hx2) as E2. unfold removed in E1, E2. rewrite E1, E2.
  f_equal. f_equal. apply NoDup_app in Hndl as (_ & Hd & [Hx3 _]%NoDup_cons). rewrite filter_app, filter_cons, decide_False by naive_solver.
  rewrite !filter_notin; [done|done|]. intros Hx. apply (Hd x Hx). left.
Qed.

Lemma moved_insert x L i l : removed x L !! i = Some l -> moved i x L = <[i := l ++ [x]]> (removed x L).
Proof.
  intros Hl. unfold moved. apply list_eq. intros j. destruct (decide (i = j)) as [<-|Hne].
  - rewrite list_lookup_alter_eq, Hl. cbn. by rewrite list_lookup_insert_eq by by eapply lookup_lt_Some.
  - by rewrite list_lookup_alter_ne, list_lookup_insert_ne.
Qed.

Lemma moved_same x (L : list (list loc)) i l1 l2 : NoDup (concat L) -> L !! i = Some (l1 ++ x :: l2) -> moved i x L = <[i := l1 ++ l2 ++ [x]]> L.
Proof.
  intros Hnd Hl. rewrite (moved_insert x L i (l1 ++ l2)); rewrite (removed_at _ _ _ _ _ Hnd Hl).
  - by rewrite list_insert_insert_eq, <- app_assoc.
  - by rewrite list_lookup_insert_eq by by eapply lookup_lt_Some.
Qed.

(** Every object keeps its place but for [x]. *)
Lemma removed_lookup x (L : list (list loc)) i l y : removed x L !! i = Some l -> y ∈ l -> y <> x /\ exists l0, L !! i = Some l0 /\ y ∈ l0.
Proof.
  unfold removed. change (map ?f ?l) with (f <$> l). rewrite list_lookup_fmap. intros (l0 & Hl0 & ->)%fmap_Some [Hy Hy0]%list_elem_of_filter. eauto.
Qed.

Lemma moved_lookup x (L : list (list loc)) k i l y : moved k x L !! i = Some l -> y ∈ l ->
  (y = x /\ i = k) \/ (y <> x /\ exists l0, L !! i = Some l0 /\ y ∈ l0).
Proof.
  unfold moved. destruct (decide (k = i)) as [->|Hne].
  - rewrite list_lookup_alter_eq. intros (l0 & Hl0 & ->)%fmap_Some [Hy|Hy]%elem_of_app; [right; by apply (removed_lookup x L i l0)|left; set_solver].
  - rewrite list_lookup_alter_ne by done. intros Hl Hy. right. by apply (removed_lookup x L i l).
Qed.

Lemma moved_elem x L k y : (k < length L)%nat -> y ∈ concat (moved k x L) <-> y = x \/ y ∈ concat L.
Proof.
  intros Hk. assert (exists l, removed x L !! k = Some l) as (l & Hl). { apply lookup_lt_is_Some_2. unfold removed. by rewrite length_map. }
  rewrite (moved_insert _ _ _ _ Hl), concat_update by by eapply lookup_lt_Some.
  pose proof (removed_elem x L y) as He. rewrite (concat_split _ _ _ Hl) in He. rewrite !elem_of_app in *.
  destruct (decide (y = x)) as [->|]; [set_solver|]. rewrite list_elem_of_singleton. tauto.
Qed.

(** ** The invariant *)

Section Invariant.
Context {C : Type} (T : hash_object_type_t) (config_ok : C -> Prop).
Implicit Types s : Optimizer C.

(** An object in the [i]-th chain. *)
Record placed (i : nat) (o : HashObject) : Prop := {
  p_agent : ua_index (get_user_agent o) = i;
  p_type : get_type o = T;
  p_not_deleted : Z.testbit (ho_flags o) 7 = false;
}.

Record heap_ok (h : heap) (L : list (list loc)) (used : Z) : Prop := {
  h_placed i l x : L !! i = Some l -> x ∈ l -> exists o, h !! x = Some o /\ placed i o;
  h_linked x o : h !! x = Some o -> linkedb o = true <-> x ∈ concat L;
  h_buffers x o : h !! x = Some o -> buffer_ok o;
  h_used : live_bytes h <= used < 2 ^ 64;
}.

Record opt_ok s (L : list (list loc)) : Prop := {
  ok_chains : chains_ok s L;
  ok_heap : heap_ok (cores s) L (m_used_size (o_memory s));
  ok_next y : o_next_object s = Some y -> y ∈ concat L;
  ok_total : o_total_num_objects s = zlen (concat L);
  ok_mode : o_eviction_mode s <> EM_INVALID;
  ok_config : config_ok (o_config s);
  ok_mins : mins_ok s;
}.

Lemma heap_agents s L used : heap_ok (cores s) L used -> agents_ok (o_heap s) L.
Proof.
  intros H i l x o Hl Hx Ho. destruct (h_placed _ _ _ H _ _ _ Hl Hx) as (o' & Ho' & [Ha _ _]).
  unfold cores in Ho'. rewrite lookup_fmap, Ho in Ho'. by injection Ho' as <-.
Qed.

Lemma live_nonneg h L used : heap_ok h L used -> forall x o, h !! x = Some o -> 0 <= live_size o.
Proof. intros H x o Ho. by apply live_size_nonneg, (h_buffers _ _ _ H x). Qed.

(** What happens to one object, and to its place. *)
Lemma heap_ok_insert h L L' used used' x o o' : heap_ok h L used -> h !! x = Some o ->
  (forall y, y <> x -> y ∈ concat L' <-> y ∈ concat L) ->
  (forall i l y, L' !! i = Some l -> y ∈ l -> (y = x /\ placed i o') \/ (y <> x /\ exists l0, L !! i = Some l0 /\ y ∈ l0)) ->
  linkedb o' = true <-> x ∈ concat L' -> buffer_ok o' -> used' = used - live_size o + live_size o' -> live_size o' <= live_size o ->
  heap_ok (<[x := o']> h) L' used'.
Proof.
  intros H Ho Hel Hpl Hli Hb -> Hle. split.
  - intros i l y Hl Hy. destruct (Hpl i l y Hl Hy) as [[-> Hp]|[Hne (l0 & Hl0 & Hy0)]].
    + exists o'. by rewrite lookup_insert_eq.
    + destruct (h_placed _ _ _ H _ _ _ Hl0 Hy0) as (oy & Hoy & Hp). exists oy. by rewrite lookup_insert_ne.
  - intros y oy [[<- <-]|[Hne Hy]]%lookup_insert_Some; [done|]. rewrite Hel by done. by apply (h_linked _ _ _ H).
  - intros y oy [[<- <-]|[Hne Hy]]%lookup_insert_Some; [done|]. by apply (h_buffers _ _ _ H y).
  - rewrite (live_bytes_insert _ _ _ _ Ho). pose proof (h_used _ _ _ H). lia.
Qed.

(** ** Views

    [s], as it is after some steps of a handler for [x] which began in [s0]: the object is now [o], up
    to its links. *)
Record view s0 (x : loc) s (L : list (list loc)) (o : HashObject) (next : ptr) (total : Z) (m : Memory) : Prop := {
  v_chains : chains_ok s L;
  v_cores : cores s = <[x := core o]> (cores s0);
  v_next : o_next_object s = next;
  v_total : o_total_num_objects s = total;
  v_memory : o_memory s = m;
  v_mode : o_eviction_mode s = o_eviction_mode s0;
  v_config : o_config s = o_config s0;
  v_posted : o_posted s = o_posted s0;
  v_requeued : o_requeued s = o_requeued s0;
  v_mins : map oc_min_num (o_chain s) = map oc_min_num (o_chain s0);
  v_frame y : y <> x -> y ∉ concat L -> o_heap s !! y = o_heap s0 !! y;
}.

Lemma view_start s x L o : chains_ok s L -> o_heap s !! x = Some o ->
  view s x s L o (o_next_object s) (o_total_num_objects s) (o_memory s).
Proof. intros Hok Ho. split; try done. unfold cores. by rewrite insert_id by by rewrite lookup_fmap, Ho. Qed.

Section Steps.
Context (s0 : Optimizer C) (x : loc).

Lemma view_object s L o next total m : view s0 x s L o next total m -> exists o', object s x = Some o' /\ core o' = core o.
Proof.
  intros H. apply object_cores. rewrite (v_cores _ _ _ _ _ _ _ _ H). apply lookup_insert_eq.
Qed.

Lemma view_step s L o next total m s' L' o' : view s0 x s L o next total m -> chains_ok s' L' -> cores s' = <[x := core o']> (cores s) -> same_rest s s' ->
  (forall y, y <> x -> y ∉ concat L' -> y ∉ concat L /\ o_heap s' !! y = o_heap s !! y) ->
  view s0 x s' L' o' next total m.
Proof.
  intros [] Hok Hc [] Hf. split; try done; try congruence.
  - rewrite Hc, v_cores0. by rewrite insert_insert_eq.
  - intros y Hy Hy'. destruct (Hf y Hy Hy') as [HL ->]. by apply v_frame0.
Qed.

Lemma insert_concat (L : list (list loc)) i l l' y : L !! i = Some l -> (y ∈ l -> y ∈ l') -> y ∉ concat (<[i := l']> L) -> y ∉ concat L.
Proof.
  intros Hl Hy. rewrite concat_update by by eapply lookup_lt_Some. rewrite (concat_split L i l Hl). rewrite !elem_of_app. tauto.
Qed.

(** A change of the object that does not concern links. *)
Lemma insert_view s L o next total m o1 o' : view s0 x s L o next total m -> object s x = Some o1 ->
  pho_opt_prev (ho_payload o') = pho_opt_prev (ho_payload o1) -> pho_opt_next (ho_payload o') = pho_opt_next (ho_payload o1) ->
  view s0 x (with_heap s (<[x := o']> (o_heap s))) L o' next total m.
Proof.
  intros Hv Ho Hp Hn. eapply view_step; [done| | |apply same_rest_heap|].
  - destruct (v_chains _ _ _ _ _ _ _ _ Hv) as (Hall & Hok). split; [|exact Hok]. cbn. eapply Forall2_impl; [exact Hall|].
    intros ch l [[Hd Hla] Hnum]. split; [|done]. split; [|done]. eapply dlist_frame; [|exact Hd]. intros y _. unfold prev_of, next_of.
    destruct (decide (y = x)) as [->|]; [|by rewrite lookup_insert_ne]. rewrite lookup_insert_eq. unfold object in Ho. rewrite Ho. cbn. by rewrite Hp, Hn.
  - unfold cores. cbn. by rewrite fmap_insert.
  - intros y Hy Hy'. split; [done|]. cbn. by rewrite lookup_insert_ne.
Qed.

Lemma view_change s L o next total m f : view s0 x s L o next total m -> keeps_links f ->
  exists s', change s x f = Some s' /\ view s0 x s' L (f o) next total m.
Proof.
  intros Hv [Hp Hn Hc]. destruct (view_object _ _ _ _ _ _ Hv) as (o1 & Ho & E). unfold change.
  unfold object in Ho. rewrite (update_ok _ _ _ _ Ho). cbn [mbind option_bind]. eexists. split; [done|].
  destruct (insert_view _ _ _ _ _ _ _ (f o1) Hv Ho (Hp o1) (Hn o1)). split; try done. rewrite v_cores0. by rewrite <- (Hc o1), E, Hc.
Qed.

Lemma view_link s L o next total m ua l : view s0 x s L o next total m -> L !! ua_index ua = Some l -> x ∉ concat L -> zlen (concat L) + 1 < 2 ^ 32 - 1 ->
  is_locked o = true -> linkedb o = false ->
  exists s', chain_link s ua x = Some s' /\ view s0 x s' (<[ua_index ua := l ++ [x]]> L) (set_flags o HOF_LINKED_BY_OPTIMIZER) next total m.
Proof.
  intros Hv Hl Hx Hsz Hlo Hli. destruct (view_object _ _ _ _ _ _ Hv) as (o1 & Ho & E).
  destruct (chain_link_ok s L ua x o1 l) as (s' & -> & Hok & Hc & Hr & Hf); [apply Hv|done..|by rewrite <- Hlo; apply (f_equal is_locked E)|
    by rewrite <- Hli; apply (f_equal linkedb E)|].
  exists s'. split; [done|]. eapply view_step; [done..| |done|].
  - rewrite Hc. f_equal. change (core (set_flags (core o1) HOF_LINKED_BY_OPTIMIZER) = core (set_flags (core o) HOF_LINKED_BY_OPTIMIZER)). by rewrite E.
  - intros y Hy Hy'. assert (HyL : y ∉ concat L) by (eapply insert_concat; [done| |done]; set_solver). split; [done|]. apply Hf.
    intros [?|Hyl]%elem_of_cons; [done|]. by apply HyL; eapply elem_concat.
Qed.

Lemma view_promote s L o next total m ua l1 l2 : view s0 x s L o next total m -> L !! ua_index ua = Some (l1 ++ x :: l2) ->
  is_locked o = true -> linkedb o = true ->
  exists s', chain_promote s ua x = Some s' /\ view s0 x s' (<[ua_index ua := l1 ++ l2 ++ [x]]> L) o next total m.
Proof.
  intros Hv Hl Hlo Hli. destruct (view_object _ _ _ _ _ _ Hv) as (o1 & Ho & E).
  destruct (chain_promote_ok s L ua x o1 l1 l2) as (s' & -> & Hok & Hc & Hr & Hf); [apply Hv|done..|by rewrite <- Hlo; apply (f_equal is_locked E)|
    by rewrite <- Hli; apply (f_equal linkedb E)|].
  exists s'. split; [done|]. eapply view_step; [done..| |done|].
  - rewrite Hc, (v_cores _ _ _ _ _ _ _ _ Hv). by rewrite insert_insert_eq.
  - intros y Hy Hy'. assert (HyL : y ∉ concat L) by (eapply insert_concat; [done| |done]; set_solver). split; [done|]. by apply Hf.
Qed.

Lemma view_unlink s L o next total m ua l1 l2 : view s0 x s L o next total m -> L !! ua_index ua = Some (l1 ++ x :: l2) ->
  is_locked o = true -> linkedb o = true ->
  exists s', chain_unlink s ua x = Some s' /\ view s0 x s' (<[ua_index ua := l1 ++ l2]> L) (clear_flags o HOF_LINKED_BY_OPTIMIZER) next total m.
Proof.
  intros Hv Hl Hlo Hli. destruct (view_object _ _ _ _ _ _ Hv) as (o1 & Ho & E).
  destruct (chain_unlink_ok s L ua x o1 l1 l2) as (s' & -> & Hok & Hc & Hr & Hf); [apply Hv|done..|by rewrite <- Hlo; apply (f_equal is_locked E)|
    by rewrite <- Hli; apply (f_equal linkedb E)|].
  exists s'. split; [done|]. eapply view_step; [done..| |done|].
  - rewrite Hc. f_equal.
    change (core (clear_flags (core o1) HOF_LINKED_BY_OPTIMIZER) = core (clear_flags (core o) HOF_LINKED_BY_OPTIMIZER)). by rewrite E.
  - intros y Hy Hy'. assert (HyL : y ∉ concat L) by (eapply insert_concat; [done| |done]; set_solver). split; [done|]. by apply Hf.
Qed.

End Steps.

End Invariant.
