(* ===== verification/OptimizerSteps.v ===== *)
(** * OptimizerSteps

    The handlers of messages about single objects keep the invariant of the optimizer and do to
    its chains what they should. [HooksLaws]: what is required of the virtual methods. *)

From S2P Require Import Prelude Protocol Memory DList DChain HashObject Optimizer OptimizerChains OptimizerInv.

(** ** Objects that differ in what the optimizer keeps about their use *)

Record alike (o o' : HashObject) : Prop := {
  al_bits j : 0 <= j < 8 -> j <> 2 -> Z.testbit (ho_flags o') j = Z.testbit (ho_flags o) j;
  al_buffer : pho_buffer (ho_payload o') = pho_buffer (ho_payload o);
  al_size : pho_size (ho_payload o') = pho_size (ho_payload o);
  al_usize : pho_usize (ho_payload o') = pho_usize (ho_payload o);
}.

#[export] Instance alike_preorder : PreOrder alike.
Proof.
  split; [by split|]. intros o1 o2 o3 [B1 ? ? ?] [B2 ? ? ?]. split; try congruence. intros j Hj Hne. by rewrite B2, B1.
Qed.

Lemma alike_core o o' : core o = core o' -> alike o o'.
Proof.
  intros E. split; [intros j _ _; symmetry; exact (f_equal (fun o => Z.testbit (ho_flags o) j) E)|..]; symmetry;
    [exact (f_equal (fun o => pho_buffer (ho_payload o)) E)|exact (f_equal (fun o => pho_size (ho_payload o)) E)|exact (f_equal (fun o => pho_usize (ho_payload o)) E)].
Qed.

Lemma alike_link o : alike o (set_flags o HOF_LINKED_BY_OPTIMIZER).
Proof. split; try done. intros j Hj Hne. change HOF_LINKED_BY_OPTIMIZER with (2 ^ 2). rewrite set_bit by lia. by rewrite (proj2 (Z.eqb_neq _ _) Hne). Qed.

Lemma alike_unlink o : alike o (clear_flags o HOF_LINKED_BY_OPTIMIZER).
Proof. split; try done. intros j Hj Hne. change HOF_LINKED_BY_OPTIMIZER with (2 ^ 2). rewrite clear_bit by lia. by rewrite (proj2 (Z.eqb_neq _ _) Hne). Qed.

Lemma alike_plain o f : ho_flags (f o) = ho_flags o -> pho_buffer (ho_payload (f o)) = pho_buffer (ho_payload o) ->
  pho_size (ho_payload (f o)) = pho_size (ho_payload o) -> pho_usize (ho_payload (f o)) = pho_usize (ho_payload o) -> alike o (f o).
Proof. intros E ? ? ?. split; try done. intros. by rewrite E. Qed.

Section Alike.
Context (o o' : HashObject) (H : alike o o').

Lemma alike_type : get_type o' = get_type o.
Proof using H. apply get_type_bits. intros j Hj. apply (al_bits _ _ H); lia. Qed.
Lemma alike_deleted : deletedb o' = deletedb o.
Proof using H. apply (al_bits _ _ H); lia. Qed.
Lemma alike_bit7 : Z.testbit (ho_flags o') 7 = Z.testbit (ho_flags o) 7.
Proof using H. apply (al_bits _ _ H); lia. Qed.
Lemma alike_live : live_size o' = live_size o.
Proof using H. unfold live_size. by rewrite (al_buffer _ _ H), (al_size _ _ H). Qed.
Lemma alike_buffer : buffer_ok o -> buffer_ok o'.
Proof using H. unfold buffer_ok. cbn. by rewrite (al_buffer _ _ H), (al_size _ _ H), (al_usize _ _ H). Qed.

End Alike.

Lemma linkedb_set o : linkedb (set_flags o HOF_LINKED_BY_OPTIMIZER) = true.
Proof. unfold linkedb. change HOF_LINKED_BY_OPTIMIZER with (2 ^ 2). by rewrite set_bit by lia. Qed.
Lemma linkedb_clear o : linkedb (clear_flags o HOF_LINKED_BY_OPTIMIZER) = false.
Proof. unfold linkedb. change HOF_LINKED_BY_OPTIMIZER with (2 ^ 2). by rewrite clear_bit by lia. Qed.

(** What the virtual methods may change: the time of expiration and the number of writes. *)
Definition retimed (o o' : HashObject) : Prop :=
  exists t n, let p := ho_payload o in
  o' = ho_with_payload o (mkPayloadFields (pho_buffer p) (pho_opt_prev p) (pho_opt_next p) (pho_size p) (pho_usize p) (pho_mod_time p) t
    (pho_semaphore p) n (pho_opt_useragent p) (pho_opt_comp p)).

Definition same_times (o o' : HashObject) : Prop :=
  pho_mod_time (ho_payload o') = pho_mod_time (ho_payload o) /\ pho_exp_time (ho_payload o') = pho_exp_time (ho_payload o) /\
  pho_count (ho_payload o') = pho_count (ho_payload o).

(** [x] has become [o'], up to its links. *)
Definition now_is {C} (s : Optimizer C) (x : loc) (o' : HashObject) : Prop := exists o, o_heap s !! x = Some o /\ core o = core o'.

(** ** The contract of the virtual methods *)

Class HooksLaws {C} `{Hooks C} (T : hash_object_type_t) (config_ok : C -> Prop) : Prop := {
  law_write env c o lifetime : config_ok c -> is_locked o = true -> deletedb o = false -> linkedb o = true -> (ua_index (get_user_agent o) < 4)%nat ->
    get_type o = T -> exists o', on_write env c o lifetime = Some o' /\ retimed o o';
  law_read env c mode o : config_ok c -> is_locked o = true -> deletedb o = false -> linkedb o = true -> (ua_index (get_user_agent o) < 4)%nat ->
    get_type o = T -> exists o', on_read env c mode o = Some o' /\ retimed o o';
  law_touch env c o lifetime : handles_touch = true -> config_ok c -> (ua_index (get_user_agent o) < 4)%nat ->
    exists o', on_touch env c o lifetime = Some o' /\ retimed o o';
  law_delete o : is_locked o = false -> deletedb o = true -> linkedb o = false -> Z.testbit (ho_flags o) 7 = false -> get_type o = T -> on_delete o = Some tt;
  law_gc env c mode o seconds : is_locked o = true -> deletedb o = false -> expires mode = true -> get_type o = T ->
    exists b, on_gc env c mode o seconds = Some b;
  law_message c c' msg : config_ok c -> on_message c msg = Some c' -> config_ok c';
  law_gc_core env c mode o seconds : on_gc env c mode (core o) seconds = on_gc env c mode o seconds;
}.

Section Handlers.
Context {C : Type} `{Hooks C} (T : hash_object_type_t) (config_ok : C -> Prop) `{!HooksLaws T config_ok}.
Implicit Types s : Optimizer C.
Abbreviation opt_ok := (opt_ok T config_ok).
Abbreviation heap_ok := (heap_ok T).
Abbreviation placed := (placed T).

(** ** From views to the invariant *)

Lemma view_agents s0 x s L o next total m used : view s0 x s L o next total m -> heap_ok (cores s0) L used ->
  (forall i l, L !! i = Some l -> x ∈ l -> ua_index (get_user_agent o) = i) -> agents_ok (o_heap s) L.
Proof.
  intros Hv Hh Hx i l y oy Hl Hy Hoy. apply (cores_object s) in Hoy. rewrite (v_cores _ _ _ _ _ _ _ _ Hv) in Hoy.
  apply lookup_insert_Some in Hoy as [[<- E]|[Hne Hoy]].
  - change (ua_index (get_user_agent (core oy)) = i). rewrite <- E. by eapply (Hx i l).
  - destruct (h_placed _ _ _ _ Hh _ _ _ Hl Hy) as (o' & Ho' & [Ha _ _]). rewrite Hoy in Ho'. by injection Ho' as <-.
Qed.

Lemma mins_map s s' : map oc_min_num (o_chain s') = map oc_min_num (o_chain s) -> mins_ok s -> mins_ok s'.
Proof.
  unfold mins_ok. intros E Hm. assert (Forall (Z.le 0) (map oc_min_num (o_chain s'))) as Hm'.
  { rewrite E. apply Forall_fmap. exact Hm. }
  exact (proj1 (Forall_fmap _ _ _) Hm').
Qed.

Lemma view_ok s0 L x o s L' o' next total m : opt_ok s0 L -> o_heap s0 !! x = Some o -> view s0 x s L' o' next total m ->
  (forall y, y <> x -> y ∈ concat L' <-> y ∈ concat L) ->
  (forall i l y, L' !! i = Some l -> y ∈ l -> (y = x /\ placed i o') \/ (y <> x /\ exists l0, L !! i = Some l0 /\ y ∈ l0)) ->
  linkedb o' = true <-> x ∈ concat L' -> buffer_ok o' -> m_used_size m = m_used_size (o_memory s0) - live_size o + live_size o' -> live_size o' <= live_size o ->
  (forall y, next = Some y -> y ∈ concat L') -> total = zlen (concat L') -> opt_ok s L'.
Proof.
  intros Hok Ho Hv Hel Hpl Hli Hb Hm Hle Hn Ht. destruct Hok, Hv. split; try congruence.
  - rewrite v_cores, v_memory. eapply (heap_ok_insert T _ _ _ _ _ x (core o) (core o')); [done|by apply cores_object|done| |done..].
    intros i l y Hl Hy. destruct (Hpl i l y Hl Hy) as [[-> []]|?]; [left; by split|by right].
  - intros y. rewrite v_next. apply Hn.
  - by eapply mins_map.
Qed.

(** The object stays where it is. *)
Lemma view_ok_same s0 L x o s o' next m : opt_ok s0 L -> o_heap s0 !! x = Some o -> view s0 x s L o' next (o_total_num_objects s0) m ->
  alike o o' -> linkedb o' = linkedb o -> get_user_agent o' = get_user_agent o -> m = o_memory s0 -> (forall y, next = Some y -> y ∈ concat L) -> opt_ok s L.
Proof.
  intros Hok Ho Hv Hal Hli Hua -> Hn. pose proof (ok_heap _ _ _ _ Hok) as Hh. pose proof (cores_object s0 x o Ho) as Hc.
  eapply (view_ok s0 L x o); [done..|tauto| | |exact (alike_buffer _ _ Hal (h_buffers _ _ _ _ Hh _ _ Hc))| | |done|apply Hok].
  - intros i l y Hl Hy. destruct (decide (y = x)) as [->|]; [left|right; eauto]. split; [done|].
    destruct (h_placed _ _ _ _ Hh _ _ _ Hl Hy) as (o1 & Ho1 & [P1 P2 P3]). rewrite Hc in Ho1. injection Ho1 as <-.
    split; [by rewrite Hua|by rewrite (alike_type _ _ Hal)|by rewrite (alike_bit7 _ _ Hal)].
  - rewrite Hli. apply (h_linked _ _ _ _ Hh x (core o) Hc).
  - rewrite (alike_live _ _ Hal). lia.
  - by rewrite (alike_live _ _ Hal).
Qed.

(** The object moves to the back of a chain. *)
Lemma view_ok_moved s0 L x o s k o' next total m : opt_ok s0 L -> o_heap s0 !! x = Some o -> (k < 4)%nat -> view s0 x s (moved k x L) o' next total m ->
  alike o o' -> linkedb o' = true -> ua_index (get_user_agent o') = k -> get_type o = T -> Z.testbit (ho_flags o) 7 = false -> m = o_memory s0 ->
  (forall y, next = Some y -> y ∈ concat L) -> total = zlen (concat (moved k x L)) -> opt_ok s (moved k x L).
Proof.
  intros Hok Ho Hk Hv Hal Hli Hua Hty H7 -> Hn Ht. pose proof (ok_heap _ _ _ _ Hok) as Hh. pose proof (cores_object s0 x o Ho) as Hc.
  assert (Hlen : (k < length L)%nat) by (destruct (ok_chains _ _ _ _ Hok) as (_ & -> & _); done).
  eapply (view_ok s0 L x o); [done..| | | |exact (alike_buffer _ _ Hal (h_buffers _ _ _ _ Hh _ _ Hc))| | | |done].
  - intros y Hy. rewrite moved_elem by done. tauto.
  - intros i l y Hl Hy. destruct (moved_lookup x L k i l y Hl Hy) as [[-> ->]|?]; [left|by right]. split; [done|].
    split; [done|by rewrite (alike_type _ _ Hal)|by rewrite (alike_bit7 _ _ Hal)].
  - rewrite moved_elem by done. tauto.
  - rewrite (alike_live _ _ Hal). lia.
  - by rewrite (alike_live _ _ Hal).
  - intros y Hy. rewrite moved_elem by done. right. by apply Hn.
Qed.

(** ** Steps *)

Section Step.
Context (s0 : Optimizer C) (x : loc).

Lemma view_exclude s L o next total m : view s0 x s L o next total m -> agents_ok (o_heap s) L -> (forall y, next = Some y -> y ∈ concat L) ->
  exists s' p, exclude_object s x = Some s' /\ view s0 x s' L o p total m /\ p <> Some x /\ (forall y, p = Some y -> y ∈ concat L).
Proof.
  intros Hv Ha Hn. destruct (exclude_object_ok s L x) as (p & -> & Hp & Hp'); [apply Hv|done|by rewrite (v_next _ _ _ _ _ _ _ _ Hv)|].
  exists (with_next_object s p), p. split; [done|]. split; [|done]. destruct Hv. by split.
Qed.

Lemma view_hook s L o next total m (f : HashObject -> option HashObject) : view s0 x s L o next total m ->
  (forall o1, core o1 = core o -> exists o', f o1 = Some o' /\ retimed o1 o') ->
  exists s' o1 o', call_hook s x f = Some s' /\ view s0 x s' L o' next total m /\ core o1 = core o /\ retimed o1 o' /\ f o1 = Some o'.
Proof.
  intros Hv Hf. destruct (view_object _ _ _ _ _ _ _ _ Hv) as (o1 & Ho & E). destruct (Hf o1 E) as (o' & E' & Hr). unfold call_hook.
  rewrite Ho. cbn [mbind option_bind]. rewrite E'. cbn [mbind option_bind]. eexists _, o1, o'. split; [done|]. split; [|done].
  eapply insert_view; [done..| |]; destruct Hr as (t & n & ->); done.
Qed.

Lemma view_locked s L o next total m : view s0 x s L o next total m -> forall o', object s x = Some o' -> is_locked o' = is_locked o /\
  linkedb o' = linkedb o /\ deletedb o' = deletedb o /\ get_user_agent o' = get_user_agent o.
Proof.
  intros Hv o' Ho. destruct (view_object _ _ _ _ _ _ _ _ Hv) as (o1 & Ho1 & E). rewrite Ho in Ho1. injection Ho1 as <-.
  split_and!; [exact (f_equal is_locked E)|exact (f_equal linkedb E)|exact (f_equal deletedb E)|exact (f_equal get_user_agent E)].
Qed.

(** An object that is linked moves to the back, of its chain or a higher one. *)
Lemma refresh_ok s L o next total m ua l1 l2 : view s0 x s L o next total m -> agents_ok (o_heap s) L ->
  (forall y, next = Some y -> y ∈ concat L) -> L !! ua_index (get_user_agent o) = Some (l1 ++ x :: l2) -> is_locked o = true -> linkedb o = true -> (ua_index ua < 4)%nat ->
  let k := Nat.max (ua_index (get_user_agent o)) (ua_index ua) in
  exists s' o' p, refresh s x ua = Some s' /\ view s0 x s' (moved k x L) o' p total m /\ (forall y, p = Some y -> y ∈ concat L) /\
    alike o o' /\ is_locked o' = true /\ linkedb o' = true /\ ua_index (get_user_agent o') = k /\ same_times o o'.
Proof.
  intros Hv Ha Hn Hl Hlo Hli Hua k. unfold refresh. destruct (view_object _ _ _ _ _ _ _ _ Hv) as (o1 & Ho1 & E). rewrite Ho1. cbn [mbind option_bind].
  destruct (view_locked _ _ _ _ _ _ Hv o1 Ho1) as (_ & _ & _ & ->). assert (Hnd : NoDup (concat L)) by apply Hv.
  destruct (view_exclude _ _ _ _ _ _ Hv Ha Hn) as (s1 & p & E1 & Hv1 & _ & Hp). destruct (_ <? _)%nat eqn:Elt.
  - apply Nat.ltb_lt in Elt. rewrite E1. cbn [mbind option_bind].
    destruct (view_change _ _ _ _ _ _ _ _ _ Hv1 (keeps_agent ua)) as (s2 & -> & Hv2). cbn [mbind option_bind].
    destruct (view_unlink _ _ _ _ _ _ _ _ _ _ _ Hv2 Hl) as (s3 & -> & Hv3); [done..|]. cbn [mbind option_bind].
    rewrite <- (removed_at _ _ _ _ _ Hnd Hl) in Hv3. assert (exists l, removed x L !! ua_index ua = Some l) as (l & Hl').
    { apply lookup_lt_is_Some_2. unfold removed. rewrite length_map. destruct (v_chains _ _ _ _ _ _ _ _ Hv) as (_ & -> & _). done. }
    destruct (view_link _ _ _ _ _ _ _ _ _ _ Hv3 Hl') as (s4 & E4 & Hv4); [rewrite removed_elem; naive_solver| |done|apply linkedb_clear|].
    { rewrite (removed_at _ _ _ _ _ Hnd Hl), (insert_size _ _ _ _ Hl). destruct (v_chains _ _ _ _ _ _ _ _ Hv) as (_ & _ & _ & ?).
      unfold zlen. rewrite !length_app. cbn. unfold zlen in *. lia. }
    rewrite <- (moved_insert _ _ _ _ Hl') in Hv4. subst k. rewrite Nat.max_r by lia. eexists s4, _, p. split; [exact E4|]. split; [exact Hv4|].
    split; [done|]. split; [|split; [done|split; [apply linkedb_set|done]]].
    etrans; [|apply alike_link]. etrans; [|apply alike_unlink]. by apply (alike_plain o (fun o => set_user_agent o ua)).
  - apply Nat.ltb_ge in Elt. rewrite E1. cbn [mbind option_bind]. destruct (view_promote _ _ _ _ _ _ _ _ _ _ _ Hv1 Hl) as (s2 & E2 & Hv2); [done..|].
    rewrite <- (moved_same _ _ _ _ _ Hnd Hl) in Hv2. subst k. rewrite Nat.max_l by lia. eexists s2, o, p. done.
Qed.

Lemma adopt_ok s L o next total m ua : view s0 x s L o next total m -> x ∉ concat L -> zlen (concat L) + 1 < 2 ^ 32 - 1 -> total = zlen (concat L) ->
  is_locked o = true -> linkedb o = false -> (ua_index ua < 4)%nat ->
  exists s' o', adopt s x ua = Some s' /\ view s0 x s' (moved (ua_index ua) x L) o' next (zlen (concat (moved (ua_index ua) x L))) m /\
    alike o o' /\ is_locked o' = true /\ linkedb o' = true /\ get_user_agent o' = ua /\ same_times o o'.
Proof.
  intros Hv Hx Hsz Ht Hlo Hli Hua. unfold adopt. rewrite (proj2 (Nat.ltb_lt _ _) Hua). cbn [c3_assert mbind option_bind].
  destruct (view_change _ _ _ _ _ _ _ _ _ Hv (keeps_agent ua)) as (s1 & -> & Hv1). cbn [mbind option_bind].
  assert (exists l, L !! ua_index ua = Some l) as (l & Hl).
  { apply lookup_lt_is_Some_2. destruct (v_chains _ _ _ _ _ _ _ _ Hv) as (_ & -> & _). done. }
  destruct (view_link _ _ _ _ _ _ _ _ _ _ Hv1 Hl) as (s2 & -> & Hv2); [done..|]. cbn [mbind option_bind].
  rewrite (moved_insert x L _ l) by by rewrite removed_notin. rewrite removed_notin by done.
  eexists _, (set_flags (set_user_agent o ua) HOF_LINKED_BY_OPTIMIZER). split; [done|]. split; [|split; [|split; [|split; [apply linkedb_set|done]]]].
  - destruct Hv2. split; try done. cbn. rewrite v_total, Ht, (insert_size _ _ _ _ Hl), u32_small by (unfold is_u32, zlen in *; lia).
    unfold zlen. rewrite length_app. cbn. lia.
  - etrans; [|apply alike_link]. by apply (alike_plain o (fun o => set_user_agent o ua)).
  - done.
Qed.

End Step.

(** ** Handlers *)

(** What a handler for [x] leaves alone. *)
Record kept s s' (x : loc) : Prop := {
  k_cores y : y <> x -> cores s' !! y = cores s !! y;
  k_memory : o_memory s' = o_memory s;
  k_mode : o_eviction_mode s' = o_eviction_mode s;
  k_config : o_config s' = o_config s;
  k_posted : o_posted s' = o_posted s;
  k_requeued : o_requeued s' = o_requeued s;
  k_mins : map oc_min_num (o_chain s') = map oc_min_num (o_chain s);
}.

Lemma view_kept s x s' L o next total : view s x s' L o next total (o_memory s) -> kept s s' x.
Proof. intros []. split; try done. intros y Hy. by rewrite v_cores, lookup_insert_ne. Qed.

(** What is known of an object that is linked. *)
Lemma linked_at s L x o : opt_ok s L -> o_heap s !! x = Some o -> linkedb o = true ->
  exists l1 l2, L !! ua_index (get_user_agent o) = Some (l1 ++ x :: l2) /\ get_type o = T /\ Z.testbit (ho_flags o) 7 = false /\
    (ua_index (get_user_agent o) < 4)%nat.
Proof.
  intros Hok Ho Hli. pose proof (cores_object s x o Ho) as Hc. pose proof (ok_heap _ _ _ _ Hok) as Hh.
  apply (h_linked _ _ _ _ Hh x _ Hc) in Hli. apply concat_elem in Hli as (i & l & Hl & Hx).
  destruct (h_placed _ _ _ _ Hh _ _ _ Hl Hx) as (o1 & Ho1 & [Hi Hty H7]). rewrite Hc in Ho1. injection Ho1 as <-.
  apply list_elem_of_split in Hx as (l1 & l2 & ->). exists l1, l2. change (ua_index (get_user_agent o) = i) in Hi. rewrite Hi. split_and!; [done..|].
  apply lookup_lt_Some in Hl. destruct (ok_chains _ _ _ _ Hok) as (_ & <- & _). done.
Qed.

Lemma unlinked_at s L x o : opt_ok s L -> o_heap s !! x = Some o -> linkedb o = false -> x ∉ concat L.
Proof.
  intros Hok Ho Hli Hx. apply (h_linked _ _ _ _ (ok_heap _ _ _ _ Hok) x _ (cores_object s x o Ho)) in Hx.
  change (linkedb o = true) in Hx. congruence.
Qed.

Lemma guard_lock_ok s L x o : opt_ok s L -> o_heap s !! x = Some o -> is_locked o = false ->
  exists s', guard_lock s x = Some s' /\ view s x s' L (lock_object o) (o_next_object s) (o_total_num_objects s) (o_memory s) /\ agents_ok (o_heap s') L.
Proof.
  intros Hok Ho Hlo. unfold guard_lock, object. rewrite Ho. cbn [mbind option_bind]. rewrite Hlo. cbn [negb c3_assert mbind option_bind].
  destruct (view_change s x s L o _ _ _ lock_object (view_start s x L o (ok_chains _ _ _ _ Hok) Ho) keeps_lock) as (s' & -> & Hv).
  exists s'. split; [done|]. split; [done|]. eapply view_agents; [done|apply Hok|]. intros i l Hl Hx.
  destruct (h_placed _ _ _ _ (ok_heap _ _ _ _ Hok) _ _ _ Hl Hx) as (o1 & Ho1 & [Hi _ _]). rewrite (cores_object s x o Ho) in Ho1. by injection Ho1 as <-.
Qed.

Lemma retimed_facts o o1 o' : core o1 = core o -> retimed o1 o' ->
  alike o o' /\ is_locked o' = is_locked o /\ linkedb o' = linkedb o /\ get_user_agent o' = get_user_agent o.
Proof.
  intros E (t & n & ->). split_and!.
  - etrans; [by apply alike_core|]. apply alike_plain with (f := fun o => ho_with_payload o _); done.
  - exact (f_equal is_locked E).
  - exact (f_equal linkedb E).
  - exact (f_equal get_user_agent E).
Qed.

(** Where [x] goes when it is used by [ua]. *)
Definition rank (o : HashObject) (ua : user_agent_t) : nat :=
  if linkedb o then Nat.max (ua_index (get_user_agent o)) (ua_index ua) else ua_index ua.

Lemma assert_linked_ok s x s' L o next total m : view s x s' L o next total m -> linkedb o = true -> assert_linked s' x = Some s'.
Proof.
  intros Hv Hli. unfold assert_linked. destruct (view_object _ _ _ _ _ _ _ _ Hv) as (o1 & Ho & _). rewrite Ho. cbn [mbind option_bind].
  destruct (view_locked _ _ _ _ _ _ _ _ Hv o1 Ho) as (_ & E & _). by rewrite set_linked_flag, E, Hli.
Qed.

(** The end of a handler: the lock is released. *)
Lemma unlock_moved s L x o s' k o' next total : opt_ok s L -> o_heap s !! x = Some o -> (k < 4)%nat -> view s x s' (moved k x L) o' next total (o_memory s) ->
  alike o o' -> linkedb o' = true -> ua_index (get_user_agent o') = k -> get_type o = T -> Z.testbit (ho_flags o) 7 = false ->
  (forall y, next = Some y -> y ∈ concat L) -> total = zlen (concat (moved k x L)) ->
  exists s'', guard_unlock s' x = Some s'' /\ opt_ok s'' (moved k x L) /\ kept s s'' x /\ now_is s'' x (unlock_object o').
Proof.
  intros Hok Ho Hk Hv Hal Hli Hua Hty H7 Hn Ht. destruct (view_change _ _ _ _ _ _ _ _ _ Hv keeps_unlock) as (s'' & E & Hv').
  exists s''. split; [done|]. split; [|split; [by eapply view_kept|by eapply view_object]]. eapply view_ok_moved; try done. etrans; [done|]. by apply (alike_plain o' unlock_object).
Qed.

Lemma unlock_same s L x o s' o' next : opt_ok s L -> o_heap s !! x = Some o -> view s x s' L o' next (o_total_num_objects s) (o_memory s) ->
  alike o o' -> linkedb o' = linkedb o -> get_user_agent o' = get_user_agent o -> (forall y, next = Some y -> y ∈ concat L) ->
  exists s'', guard_unlock s' x = Some s'' /\ opt_ok s'' L /\ kept s s'' x /\ now_is s'' x (unlock_object o').
Proof.
  intros Hok Ho Hv Hal Hli Hua Hn. destruct (view_change _ _ _ _ _ _ _ _ _ Hv keeps_unlock) as (s'' & E & Hv').
  exists s''. split; [done|]. split; [|split; [by eapply view_kept|by eapply view_object]]. eapply view_ok_same; try done. etrans; [done|]. by apply (alike_plain o' unlock_object).
Qed.

End Handlers.
