(* ===== verification/OptimizerHandlers.v ===== *)
(** * OptimizerHandlers

    The handlers of messages about single objects: [process_write_message], [process_read_message],
    [process_delete_message] and [process_fpc_touch_message] keep the invariant, and move objects
    between chains as they should. *)

From S2P Require Import Prelude Protocol Memory DList DChain HashObject Optimizer OptimizerChains OptimizerInv OptimizerSteps.

Lemma moved_size k x (L : list (list loc)) i l1 l2 : NoDup (concat L) -> L !! i = Some (l1 ++ x :: l2) -> (k < length L)%nat ->
  zlen (concat (moved k x L)) = zlen (concat L).
Proof.
  intros Hnd Hl Hk. assert (exists l, removed x L !! k = Some l) as (l & Hl'). { apply lookup_lt_is_Some_2. unfold removed. by rewrite length_map. }
  rewrite (moved_insert _ _ _ _ Hl'), (insert_size _ _ _ _ Hl'), (removed_at _ _ _ _ _ Hnd Hl), (insert_size _ _ _ _ Hl).
  unfold zlen. rewrite !length_app. cbn. lia.
Qed.

Lemma removed_size x (L : list (list loc)) i l1 l2 : NoDup (concat L) -> L !! i = Some (l1 ++ x :: l2) -> zlen (concat (removed x L)) = zlen (concat L) - 1.
Proof.
  intros Hnd Hl. rewrite (removed_at _ _ _ _ _ Hnd Hl), (insert_size _ _ _ _ Hl). unfold zlen. rewrite !length_app. cbn. lia.
Qed.

Section Handlers.
Context {C : Type} `{Hooks C} (T : hash_object_type_t) (config_ok : C -> Prop) `{!HooksLaws T config_ok}.
Implicit Types s : Optimizer C.
Abbreviation opt_ok := (opt_ok T config_ok).

(** [refresh] of an object of a state that satisfies the invariant. *)
Lemma refresh_linked s L x o s1 ua : opt_ok s L -> o_heap s !! x = Some o -> linkedb o = true -> (ua_index ua < 4)%nat ->
  view s x s1 L (lock_object o) (o_next_object s) (o_total_num_objects s) (o_memory s) -> agents_ok (o_heap s1) L ->
  exists s' o' p, refresh s1 x ua = Some s' /\ view s x s' (moved (rank o ua) x L) o' p (zlen (concat (moved (rank o ua) x L))) (o_memory s) /\
    (forall y, p = Some y -> y ∈ concat L) /\ alike o o' /\ is_locked o' = true /\ linkedb o' = true /\ ua_index (get_user_agent o') = rank o ua /\ same_times o o' /\ (rank o ua < 4)%nat.
Proof.
  intros Hok Ho Hli Hua Hv Ha. destruct (linked_at _ _ s L x o Hok Ho Hli) as (l1 & l2 & Hl & _ & _ & Hi).
  destruct (refresh_ok s x s1 L (lock_object o) _ _ _ ua l1 l2 Hv Ha (ok_next _ _ _ _ Hok) Hl (lock_locked o) Hli Hua) as (s' & o' & p & E & Hv' & Hp & Hal & Hlo & Hli' & Hk & Hst).
  assert (Hr : rank o ua = Nat.max (ua_index (get_user_agent o)) (ua_index ua)) by (unfold rank; by rewrite Hli).
  exists s', o', p. rewrite Hr. split; [done|]. split.
  - rewrite (moved_size _ _ _ _ _ _ (proj1 (proj2 (proj2 (ok_chains _ _ _ _ Hok)))) Hl), <- (ok_total _ _ _ _ Hok); [done|].
    destruct (ok_chains _ _ _ _ Hok) as (_ & -> & _). lia.
  - split_and!; [done| |done..|lia]. etrans; [|done]. by apply (alike_plain o lock_object).
Qed.

(** What is left of a write or a read after the object has moved. *)
Lemma hook_finish s L x o s' k o' p (f : HashObject -> option HashObject) : opt_ok s L -> o_heap s !! x = Some o -> (k < 4)%nat ->
  view s x s' (moved k x L) o' p (zlen (concat (moved k x L))) (o_memory s) -> (forall y, p = Some y -> y ∈ concat L) ->
  alike o o' -> linkedb o' = true -> ua_index (get_user_agent o') = k -> get_type o = T -> Z.testbit (ho_flags o) 7 = false ->
  (forall o1, core o1 = core o' -> exists o2, f o1 = Some o2 /\ retimed o1 o2) ->
  exists s1 s'', call_hook s' x f = Some s1 /\ assert_linked s1 x = Some s1 /\ guard_unlock s1 x = Some s'' /\ opt_ok s'' (moved k x L) /\ kept s s'' x /\
    exists o1 o2, f o1 = Some o2 /\ core o1 = core o' /\ now_is s'' x (unlock_object o2).
Proof.
  intros Hok Ho Hk Hv Hp Hal Hli Hua Hty H7 Hf. destruct (view_hook s x s' _ o' _ _ _ f Hv Hf) as (s1 & o1 & o2 & E1 & Hv1 & Ec & Hr & Ef).
  destruct (retimed_facts o' o1 o2 Ec Hr) as (Hal2 & _ & Hli2 & Hua2). rewrite Hli in Hli2.
  destruct (unlock_moved T config_ok s L x o s1 k o2 p _ Hok Ho Hk Hv1) as (s'' & E2 & Hok'' & Hk'' & Hn''); try done; [by etrans|by rewrite Hua2|].
  exists s1, s''. split_and!; try done; [by eapply assert_linked_ok|by exists o1, o2].
Qed.

Lemma alike_hook o o' o1 : alike o o' -> core o1 = core o' -> get_type o = T -> is_locked o' = true -> linkedb o' = true -> deletedb o = false ->
  (ua_index (get_user_agent o') < 4)%nat ->
  is_locked o1 = true /\ deletedb o1 = false /\ linkedb o1 = true /\ (ua_index (get_user_agent o1) < 4)%nat /\ get_type o1 = T.
Proof.
  intros Hal E Hty Hlo Hli Hde Hua. assert (alike o o1) as Hal1 by (etrans; [done|by apply alike_core]).
  rewrite (alike_type _ _ Hal1), (alike_deleted _ _ Hal1). split_and!; [|done| | |done].
  - etrans; [exact (f_equal is_locked E)|done].
  - etrans; [exact (f_equal linkedb E)|done].
  - pose proof (f_equal get_user_agent E) as Eua. change (get_user_agent o1 = get_user_agent o') in Eua. by rewrite Eua.
Qed.

(** A virtual method has been called for [x], which was [o] before, with the time of modification
    [mod_time], and then its lock was released. *)
Definition hooked (f : HashObject -> option HashObject) (mod_time : Z) (x : loc) (o : HashObject) s' : Prop :=
  exists o1 o2, f o1 = Some o2 /\ pho_mod_time (ho_payload o1) = mod_time /\ pho_exp_time (ho_payload o1) = pho_exp_time (ho_payload o) /\
    pho_count (ho_payload o1) = pho_count (ho_payload o) /\ now_is s' x (unlock_object o2).

Definition written env s (lifetime : Z) (x : loc) (o : HashObject) s' : Prop :=
  if deletedb o then
    if linkedb o then now_is s' x o
    else exists o', now_is s' x o' /\ pho_mod_time (ho_payload o') = e_now env /\ pho_exp_time (ho_payload o') = e_now env
  else hooked (fun o => on_write env (o_config s) o lifetime) (e_now env) x o s'.

Lemma hooked_core f t x o o' s' : (exists o1 o2, f o1 = Some o2 /\ core o1 = core o' /\ now_is s' x (unlock_object o2)) ->
  pho_mod_time (ho_payload o') = t -> pho_exp_time (ho_payload o') = pho_exp_time (ho_payload o) -> pho_count (ho_payload o') = pho_count (ho_payload o) -> hooked f t x o s'.
Proof.
  intros (o1 & o2 & E & Ec & Hn) E1 E2 E3. exists o1, o2. split; [done|]. split_and!; [..|done].
  - etrans; [exact (f_equal (fun o => pho_mod_time (ho_payload o)) Ec)|done].
  - etrans; [exact (f_equal (fun o => pho_exp_time (ho_payload o)) Ec)|done].
  - etrans; [exact (f_equal (fun o => pho_count (ho_payload o)) Ec)|done].
Qed.

Lemma unlock_same' s L x o s1 : opt_ok s L -> o_heap s !! x = Some o -> is_locked o = false ->
  view s x s1 L (lock_object o) (o_next_object s) (o_total_num_objects s) (o_memory s) ->
  exists s', guard_unlock s1 x = Some s' /\ opt_ok s' L /\ kept s s' x /\ now_is s' x o.
Proof.
  intros Hok Ho Hlo Hv. rewrite <- (lock_unlock o Hlo). eapply (unlock_same T config_ok s L x o); [done..| |done|done|apply (ok_next _ _ _ _ Hok)].
  by apply (alike_plain o lock_object).
Qed.

(** A write: new objects join a chain, others move; one that is deleted joins only to leave again. *)
Lemma write_ok env s L x o ua lifetime : opt_ok s L -> o_heap s !! x = Some o -> is_locked o = false -> get_type o = T -> Z.testbit (ho_flags o) 7 = false ->
  (ua_index ua < 4)%nat -> zlen (concat L) + 1 < 2 ^ 32 - 1 ->
  exists s', process_write_message env s x ua lifetime = Some s' /\ opt_ok s' (if deletedb o && linkedb o then L else moved (rank o ua) x L) /\ kept s s' x /\
    written env s lifetime x o s'.
Proof.
  intros Hok Ho Hlo Hty H7 Hua Hsz. unfold process_write_message.
  destruct (guard_lock_ok T config_ok s L x o Hok Ho Hlo) as (s1 & -> & Hv & Ha). cbn [mbind option_bind].
  destruct (view_object _ _ _ _ _ _ _ _ Hv) as (o1 & Ho1 & E). rewrite Ho1. cbn [mbind option_bind].
  destruct (view_locked _ _ _ _ _ _ _ _ Hv o1 Ho1) as (_ & E1 & E2 & _). change (linkedb o1 = linkedb o) in E1. change (deletedb o1 = deletedb o) in E2.
  rewrite clear_deleted_flag, clear_linked_flag, E1, E2.
  assert (Hadopt : linkedb o = false -> exists s' o', adopt s1 x ua = Some s' /\
    view s x s' (moved (ua_index ua) x L) o' (o_next_object s) (zlen (concat (moved (ua_index ua) x L))) (o_memory s) /\
    alike o o' /\ is_locked o' = true /\ linkedb o' = true /\ get_user_agent o' = ua /\ same_times o o').
  { intros Hli. destruct (adopt_ok s x s1 L (lock_object o) _ _ _ ua Hv) as (s' & o' & Ead & Hv' & Hal & Hrest);
      [by eapply unlinked_at|done|apply (ok_total _ _ _ _ Hok)|apply lock_locked|done|done|].
    exists s', o'. split; [done|]. split; [done|]. split; [|done]. etrans; [|done]. by apply (alike_plain o lock_object). }
  destruct (deletedb o) eqn:Hde; cbn [negb andb].
  - destruct (linkedb o) eqn:Hli; cbn [negb mbind option_bind].
    + destruct (unlock_same' s L x o s1 Hok Ho Hlo Hv) as (s' & -> & Hrest). exists s'. unfold written. by rewrite Hde, Hli.
    + destruct (Hadopt eq_refl) as (s2 & o2 & -> & Hv2 & Hal & _ & Hli2 & Hua2 & _). cbn [mbind option_bind].
      destruct (view_change _ _ _ _ _ _ _ _ (fun o => set_expiration_time (with_mod_time o (e_now env)) (e_now env)) Hv2) as (s3 & -> & Hv3); [by split|].
      cbn [mbind option_bind]. unfold rank. rewrite Hli. edestruct (unlock_moved T config_ok s L x o) as (s' & -> & Hok' & Hk' & Hn'); [done..| |done| |done|done|by apply (ok_next _ _ _ _ Hok)|done|].
      3: { exists s'. split; [done|]. split; [done|]. split; [done|]. unfold written. rewrite Hde, Hli. by eexists. }
      * etrans; [done|]. by apply (alike_plain o2 (fun o => set_expiration_time (with_mod_time o (e_now env)) (e_now env))).
      * change (ua_index (get_user_agent o2) = ua_index ua). by rewrite Hua2.
  - assert (exists s2 o2 p, (if negb (linkedb o) then adopt s1 x ua else refresh s1 x ua) = Some s2 /\
      view s x s2 (moved (rank o ua) x L) o2 p (zlen (concat (moved (rank o ua) x L))) (o_memory s) /\ (forall y, p = Some y -> y ∈ concat L) /\
      alike o o2 /\ is_locked o2 = true /\ linkedb o2 = true /\ ua_index (get_user_agent o2) = rank o ua /\ same_times o o2 /\ (rank o ua < 4)%nat)
      as (s2 & o2 & p & -> & Hv2 & Hp & Hal & Hlo2 & Hli2 & Hua2 & (_ & Hst1 & Hst2) & Hk).
    { destruct (linkedb o) eqn:Hli; cbn [negb]; [by apply refresh_linked|]. destruct (Hadopt eq_refl) as (s2 & o2 & Ead & Hv2 & Hal & Hlo2 & Hli2 & Hua2 & Hst).
      unfold rank. rewrite Hli. exists s2, o2, (o_next_object s). do 2 (split; [done|]). split; [apply (ok_next _ _ _ _ Hok)|]. by rewrite Hua2. }
    cbn [mbind option_bind]. destruct (view_change _ _ _ _ _ _ _ _ (fun o => with_mod_time o (e_now env)) Hv2) as (s3 & -> & Hv3); [apply keeps_mod_time|].
    assert (Hal3 : alike o (with_mod_time o2 (e_now env))) by (etrans; [done|]; by apply (alike_plain o2 (fun o => with_mod_time o (e_now env)))).
    cbn [mbind option_bind]. destruct (hook_finish s L x o s3 _ _ _ (fun o => on_write env (o_config s3) o lifetime) Hok Ho Hk Hv3 Hp Hal3 Hli2 Hua2 Hty H7)
      as (s4 & s5 & E4 & E4' & E5 & Hok5 & Hk5 & Hn5).
    + intros o3 Ec. destruct (alike_hook o _ o3 Hal3 Ec Hty Hlo2 Hli2 Hde) as (? & ? & ? & ? & ?); [by rewrite <- Hua2 in Hk|].
      apply (law_write (T := T) (config_ok := config_ok)); try done. rewrite (v_config _ _ _ _ _ _ _ _ Hv3). apply (ok_config _ _ _ _ Hok).
    + rewrite E4. cbn [mbind option_bind]. rewrite E4'. cbn [mbind option_bind]. exists s5. split; [done|]. split; [done|]. split; [done|]. unfold written. rewrite Hde.
      rewrite (v_config _ _ _ _ _ _ _ _ Hv3) in Hn5. by eapply hooked_core.
Qed.

(** A read: an object that is linked moves. *)
Lemma read_ok env s L x o ua : opt_ok s L -> o_heap s !! x = Some o -> is_locked o = false -> (ua_index ua < 4)%nat ->
  exists s', process_read_message env s x ua = Some s' /\ opt_ok s' (if negb (deletedb o) && linkedb o then moved (rank o ua) x L else L) /\ kept s s' x /\
    if negb (deletedb o) && linkedb o then hooked (on_read env (o_config s) (o_eviction_mode s)) (pho_mod_time (ho_payload o)) x o s' else now_is s' x o.
Proof.
  intros Hok Ho Hlo Hua. unfold process_read_message.
  destruct (guard_lock_ok T config_ok s L x o Hok Ho Hlo) as (s1 & -> & Hv & Ha). cbn [mbind option_bind].
  destruct (view_object _ _ _ _ _ _ _ _ Hv) as (o1 & Ho1 & E). rewrite Ho1. cbn [mbind option_bind].
  destruct (view_locked _ _ _ _ _ _ _ _ Hv o1 Ho1) as (_ & E1 & E2 & _). change (linkedb o1 = linkedb o) in E1. change (deletedb o1 = deletedb o) in E2.
  rewrite clear_deleted_flag, set_linked_flag, E1, E2. destruct (negb (deletedb o) && linkedb o) eqn:Eb.
  - apply andb_true_iff in Eb as [Hde%negb_true_iff Hli]. destruct (linked_at T config_ok s L x o Hok Ho Hli) as (l1 & l2 & Hl & Hty & H7 & Hi).
    destruct (refresh_linked s L x o s1 ua Hok Ho Hli Hua Hv Ha) as (s2 & o2 & p & -> & Hv2 & Hp & Hal & Hlo2 & Hli2 & Hua2 & (Hst0 & Hst1 & Hst2) & Hk). cbn [mbind option_bind].
    destruct (hook_finish s L x o s2 _ _ _ (fun o => on_read env (o_config s2) (o_eviction_mode s2) o) Hok Ho Hk Hv2 Hp Hal Hli2 Hua2 Hty H7)
      as (s4 & s5 & E4 & E4' & E5 & Hok5 & Hk5 & Hn5).
    + intros o3 Ec. destruct (alike_hook o _ o3 Hal Ec Hty Hlo2 Hli2 Hde) as (? & ? & ? & ? & ?); [by rewrite <- Hua2 in Hk|].
      apply (law_read (T := T) (config_ok := config_ok)); try done. rewrite (v_config _ _ _ _ _ _ _ _ Hv2). apply (ok_config _ _ _ _ Hok).
    + rewrite E4. cbn [mbind option_bind]. rewrite E4'. cbn [mbind option_bind]. exists s5. split; [done|]. split; [done|]. split; [done|].
      rewrite (v_config _ _ _ _ _ _ _ _ Hv2), (v_mode _ _ _ _ _ _ _ _ Hv2) in Hn5. by eapply hooked_core.
  - cbn [mbind option_bind]. by apply unlock_same'.
Qed.

(** A page that is read through the cache of a front end: it moves to the back of its chain. *)
Lemma touch_ok env s L x o lifetime : handles_touch = true -> opt_ok s L -> o_heap s !! x = Some o -> is_locked o = false ->
  exists s', process_fpc_touch_message env s x lifetime = Some s' /\
    opt_ok s' (if negb (deletedb o) && linkedb o then moved (ua_index (get_user_agent o)) x L else L) /\ kept s s' x /\
    if negb (deletedb o) && linkedb o then hooked (fun o => on_touch env (o_config s) o lifetime) (pho_mod_time (ho_payload o)) x o s' else now_is s' x o.
Proof.
  intros Ht Hok Ho Hlo. unfold process_fpc_touch_message.
  destruct (guard_lock_ok T config_ok s L x o Hok Ho Hlo) as (s1 & -> & Hv & Ha). cbn [mbind option_bind].
  destruct (view_object _ _ _ _ _ _ _ _ Hv) as (o1 & Ho1 & E). rewrite Ho1. cbn [mbind option_bind].
  destruct (view_locked _ _ _ _ _ _ _ _ Hv o1 Ho1) as (_ & E1 & E2 & ->). change (linkedb o1 = linkedb o) in E1. change (deletedb o1 = deletedb o) in E2.
  change (get_user_agent (lock_object o)) with (get_user_agent o). rewrite clear_deleted_flag, set_linked_flag, E1, E2. destruct (negb (deletedb o) && linkedb o) eqn:Eb.
  - apply andb_true_iff in Eb as [Hde%negb_true_iff Hli]. destruct (linked_at T config_ok s L x o Hok Ho Hli) as (l1 & l2 & Hl & Hty & H7 & Hi).
    assert (Hnd : NoDup (concat L)) by apply Hv.
    destruct (view_exclude s x s1 L _ _ _ _ Hv Ha (ok_next _ _ _ _ Hok)) as (s2 & p & -> & Hv2 & _ & Hp). cbn [mbind option_bind].
    destruct (view_promote s x s2 L _ _ _ _ _ l1 l2 Hv2 Hl (lock_locked o) Hli) as (s3 & -> & Hv3). cbn [mbind option_bind].
    rewrite <- (moved_same _ _ _ _ _ Hnd Hl) in Hv3. rewrite (ok_total _ _ _ _ Hok) in Hv3.
    rewrite <- (moved_size (ua_index (get_user_agent o)) x L _ l1 l2 Hnd Hl) in Hv3 by (by eapply lookup_lt_Some).
    edestruct (hook_finish s L x o s3 (ua_index (get_user_agent o)) (lock_object o) p (fun o => on_touch env (o_config s3) o lifetime)) as (s4 & s5 & E4 & _ & E5 & Hok5 & Hk5 & Hn5); try done.
    + intros o3 Ec. apply (law_touch (T := T) (config_ok := config_ok)); [done| |].
      * rewrite (v_config _ _ _ _ _ _ _ _ Hv3). apply (ok_config _ _ _ _ Hok).
      * pose proof (f_equal get_user_agent Ec) as Eua. change (get_user_agent o3 = get_user_agent o) in Eua. by rewrite Eua.
    + rewrite E4. cbn [mbind option_bind]. exists s5. split; [done|]. split; [done|]. split; [done|].
      rewrite (v_config _ _ _ _ _ _ _ _ Hv3) in Hn5. by eapply hooked_core.
  - cbn [mbind option_bind]. by apply unlock_same'.
Qed.

(** The invariant does not speak of messages. *)
Lemma opt_ok_post s L x : opt_ok s L -> opt_ok (post s x) L.
Proof. intros []. by split. Qed.
Lemma opt_ok_requeue s L msg : opt_ok s L -> opt_ok (requeue s msg) L.
Proof. intros []. by split. Qed.

Lemma view_total s x s' L o next total m n : view s x s' L o next total m -> view s x (with_total s' n) L o next n m.
Proof. intros []. by split. Qed.

(** An object leaves its chain; [m] is what the memory is then. *)
Lemma view_ok_removed s L x o s' o' next m : opt_ok s L -> o_heap s !! x = Some o -> linkedb o = true ->
  view s x s' (removed x L) o' next (o_total_num_objects s - 1) m -> linkedb o' = false -> buffer_ok o' ->
  m_used_size m = m_used_size (o_memory s) - live_size o + live_size o' -> live_size o' <= live_size o ->
  (forall y, next = Some y -> y ∈ concat L /\ y <> x) -> opt_ok s' (removed x L).
Proof.
  intros Hok Ho Hli Hv Hli' Hb Hm Hle Hn. destruct (linked_at T config_ok s L x o Hok Ho Hli) as (l1 & l2 & Hl & _).
  eapply (view_ok T config_ok s L x o); try done.
  - intros y Hy. rewrite removed_elem. tauto.
  - intros i l y Hl' Hy. right. by apply (removed_lookup x L i l).
  - rewrite removed_elem, Hli'. naive_solver.
  - intros y Hy. rewrite removed_elem. by apply Hn.
  - rewrite (ok_total _ _ _ _ Hok), (removed_size x L _ l1 l2 (proj1 (proj2 (proj2 (ok_chains _ _ _ _ Hok)))) Hl). done.
Qed.

(** A delete: the object leaves its chain and goes to the store, or the message waits for the object
    to be linked. *)
Lemma delete_ok s L x o n : opt_ok s L -> o_heap s !! x = Some o -> is_locked o = false -> deletedb o = true ->
  flags_are_clear o HOF_LINKED_BY_TM = true -> n < MAX_NUM_RETRIES ->
  exists s', kept s s' x /\ (exists o', now_is s' x o' /\ is_locked o' = false /\ linkedb o' = false /\ alike o o') /\ opt_ok s' (if linkedb o then removed x L else L) /\
    process_delete_message s x n = Some (if linkedb o then post s' x else if n + 1 <? MAX_NUM_RETRIES then requeue s' (OR_DELETE x (n + 1)) else s').
Proof.
  intros Hok Ho Hlo Hde Htm Hn. unfold process_delete_message.
  destruct (guard_lock_ok T config_ok s L x o Hok Ho Hlo) as (s1 & -> & Hv & Ha). cbn [mbind option_bind].
  destruct (view_object _ _ _ _ _ _ _ _ Hv) as (o1 & Ho1 & E). rewrite Ho1. cbn [mbind option_bind].
  destruct (view_locked _ _ _ _ _ _ _ _ Hv o1 Ho1) as (_ & E1 & E2 & E3). change (linkedb o1 = linkedb o) in E1. change (deletedb o1 = deletedb o) in E2.
  assert (flags_are_clear o1 HOF_LINKED_BY_TM = true) as ->.
  { change (flags_are_clear (core o1) HOF_LINKED_BY_TM = true). rewrite E. exact Htm. }
  rewrite set_deleted_flag, set_linked_flag, E1, E2, E3, Hde. cbn [andb c3_assert mbind option_bind]. change (get_user_agent (lock_object o)) with (get_user_agent o).
  destruct (linkedb o) eqn:Hli.
  - destruct (linked_at T config_ok s L x o Hok Ho Hli) as (l1 & l2 & Hl & _). assert (Hnd : NoDup (concat L)) by apply Hv.
    destruct (view_exclude s x s1 L _ _ _ _ Hv Ha (ok_next _ _ _ _ Hok)) as (s2 & p & -> & Hv2 & Hpx & Hp). cbn [mbind option_bind].
    destruct (view_unlink s x s2 L _ _ _ _ _ l1 l2 Hv2 Hl (lock_locked o) Hli) as (s3 & -> & Hv3). cbn [mbind option_bind].
    rewrite <- (removed_at _ _ _ _ _ Hnd Hl) in Hv3. rewrite (v_total _ _ _ _ _ _ _ _ Hv3).
    assert (o_total_num_objects s =? 0 = false) as ->.
    { apply Z.eqb_neq. rewrite (ok_total _ _ _ _ Hok). rewrite (concat_split _ _ _ Hl). unfold zlen. rewrite !length_app. cbn. lia. }
    cbn [negb c3_assert mbind option_bind]. apply (view_total _ _ _ _ _ _ _ _ (o_total_num_objects s - 1)) in Hv3.
    destruct (view_change _ _ _ _ _ _ _ _ _ Hv3 keeps_unlock) as (s4 & E4 & Hv4). unfold guard_unlock. rewrite E4. cbn [mbind option_bind]. exists s4. split; [by eapply view_kept|]. split; [|split; [|done]].
    { eexists. split; [by eapply view_object|]. split; [apply unlock_unlocked|]. split; [apply linkedb_clear|].
      etrans; [by apply (alike_plain o lock_object)|]. etrans; [apply alike_unlink|]. by apply alike_plain. }
    eapply view_ok_removed; [done..| | | | |].
    + change (linkedb (clear_flags (lock_object o) HOF_LINKED_BY_OPTIMIZER) = false). apply linkedb_clear.
    + exact (h_buffers _ _ _ _ (ok_heap _ _ _ _ Hok) x _ (cores_object s x o Ho)).
    + change (live_size (unlock_object _)) with (live_size o). lia.
    + done.
    + intros y Hy. split; [by apply Hp|]. congruence.
  - rewrite (proj2 (Z.ltb_lt _ _) Hn). cbn [c3_assert mbind option_bind].
    destruct (unlock_same' s L x o s1 Hok Ho Hlo Hv) as (s2 & -> & Hok2 & Hk2 & Hn2).
    cbn [mbind option_bind]. exists s2. split; [done|]. split; [by exists o|]. split; [done|]. by destruct (n + 1 <? MAX_NUM_RETRIES).
Qed.

End Handlers.
