(* ===== verification/OptimizerSweep.v ===== *)
(** * OptimizerSweep

    Eviction: what happens to an object ([evict_ok]), and what is true while an iterator moves
    through the chains ([sweep]). *)

From S2P Require Import Prelude Protocol Memory DList DChain HashObject Optimizer OptimizerChains OptimizerInv OptimizerSteps OptimizerHandlers.

(** ** Disposal of buffers *)

Lemma dispose_frees o m : buffer_ok o -> deletedb o = true -> has_readers o = false -> live_size o <= m_used_size m < 2 ^ 64 ->
  exists o' m', dispose_buffer o m = Some (live_size o, o', m') /\ live_size o' = 0 /\ buffer_ok o' /\
    pho_opt_prev (ho_payload o') = pho_opt_prev (ho_payload o) /\ pho_opt_next (ho_payload o') = pho_opt_next (ho_payload o) /\
    ho_flags o' = ho_flags o /\ lo_state o' = lo_state o /\ get_user_agent o' = get_user_agent o /\
    m_used_size m' = m_used_size m - live_size o /\ m_max_size m' = m_max_size m.
Proof.
  intros Hb Hde Hre Hm. unfold dispose_buffer, live_size, buffer_ok in *. cbn zeta in *. destruct (pho_buffer (ho_payload o)) as [| |bs] eqn:Ep.
  - exists o, m. rewrite Ep. split_and!; try done. lia.
  - destruct Hb as [Es Eu]. rewrite set_deleted_flag, Hde, Hre, Es, Eu. cbn. eexists _, m. split; [done|]. cbn. split_and!; try done. lia.
  - rewrite set_deleted_flag, Hde, Hre, (proj2 (Z.leb_le _ _)), (proj2 (Z.ltb_lt 0 _)) by lia. cbn [negb andb c3_assert mbind option_bind].
    rewrite free_ok by lia. cbn [mbind option_bind]. eexists _, _. split; [done|]. cbn. split_and!; try done. apply (fetch_sub_used m (pho_size (ho_payload o))); lia.
Qed.

Lemma deleted_set o : deletedb (set_flags o HOF_BEING_DELETED) = true.
Proof. unfold deletedb. change HOF_BEING_DELETED with (2 ^ 6). by rewrite set_bit by lia. Qed.

Lemma deleted_set_other o j : 0 <= j -> j <> 6 -> Z.testbit (ho_flags (set_flags o HOF_BEING_DELETED)) j = Z.testbit (ho_flags o) j.
Proof. intros Hj Hne. change HOF_BEING_DELETED with (2 ^ 6). rewrite set_bit by lia. by rewrite (proj2 (Z.eqb_neq _ _) Hne). Qed.

Lemma clear_linked_other o j : 0 <= j < 8 -> j <> 2 -> Z.testbit (ho_flags (clear_flags o HOF_LINKED_BY_OPTIMIZER)) j = Z.testbit (ho_flags o) j.
Proof. intros Hj Hne. change HOF_LINKED_BY_OPTIMIZER with (2 ^ 2). rewrite clear_bit by lia. by rewrite (proj2 (Z.eqb_neq _ _) Hne). Qed.

Section Sweep.
Context {C : Type} `{Hooks C} (T : hash_object_type_t) (config_ok : C -> Prop) `{!HooksLaws T config_ok}.
Implicit Types s : Optimizer C.
Abbreviation opt_ok := (opt_ok T config_ok).

(** An object that has been evicted. *)
Record dead (o : HashObject) : Prop := {
  d_deleted : deletedb o = true;
  d_unlinked : linkedb o = false;
  d_bit7 : Z.testbit (ho_flags o) 7 = false;
  d_type : get_type o = T;
  d_empty : live_size o = 0;
  d_buffer : buffer_ok o;
}.

Lemma dead_core o o' : core o = core o' -> dead o -> dead o'.
Proof.
  intros E [D1 D2 D3 D4 D5 D6]. split.
  - rewrite <- D1. symmetry. exact (f_equal deletedb E).
  - rewrite <- D2. symmetry. exact (f_equal linkedb E).
  - rewrite <- D3. symmetry. exact (f_equal (fun o => Z.testbit (ho_flags o) 7) E).
  - rewrite <- D4. symmetry. exact (f_equal get_type E).
  - rewrite <- D5. symmetry. exact (f_equal live_size E).
  - change (buffer_ok (core o')). rewrite <- E. exact D6.
Qed.

(** [ObjectChainIterator::unlink]. *)
Lemma iterator_unlink_ok s L x o s1 o1 next m : opt_ok s L -> o_heap s !! x = Some o -> linkedb o = true -> next <> Some x ->
  view s x s1 L o1 (o_next_object s) (o_total_num_objects s) m -> get_user_agent o1 = get_user_agent o -> is_locked o1 = true -> linkedb o1 = true ->
  exists s' p, iterator_unlink s1 next x = Some s' /\
    view s x s' (removed x L) (clear_flags o1 HOF_LINKED_BY_OPTIMIZER) p (o_total_num_objects s - 1) m /\ (forall y, p = Some y -> y ∈ concat L /\ y <> x).
Proof.
  intros Hok Ho Hli Hnext Hv Hua1 Hlo1 Hli1. destruct (linked_at T config_ok s L x o Hok Ho Hli) as (l1 & l2 & Hl & _ & _ & Hua).
  assert (Hnd : NoDup (concat L)) by apply Hv. unfold iterator_unlink.
  destruct (view_object _ _ _ _ _ _ _ _ Hv) as (o4 & Ho4 & E4). rewrite Ho4. cbn [mbind option_bind].
  assert (get_user_agent o4 = get_user_agent o) as -> by (rewrite <- Hua1; exact (f_equal get_user_agent E4)).
  rewrite (proj2 (Nat.ltb_lt _ _) Hua), bool_decide_false by done. cbn [andb negb c3_assert mbind option_bind].
  destruct (view_exclude s x s1 L o1 _ _ _ Hv) as (s5 & p & -> & Hv5 & Hpx & Hp); [|apply (ok_next _ _ _ _ Hok)|].
  { eapply (view_agents T); [exact Hv|apply Hok|]. intros i l Hl' Hx. rewrite Hua1. destruct (h_placed _ _ _ _ (ok_heap _ _ _ _ Hok) _ _ _ Hl' Hx)
      as (o' & Ho' & [Hi _ _]). rewrite (cores_object s x o Ho) in Ho'. by injection Ho' as <-. }
  cbn [mbind option_bind]. destruct (view_unlink s x s5 L o1 _ _ _ (get_user_agent o) l1 l2 Hv5 Hl Hlo1 Hli1) as (s6 & -> & Hv6). cbn [mbind option_bind].
  rewrite (v_total _ _ _ _ _ _ _ _ Hv6). assert (o_total_num_objects s =? 0 = false) as ->.
  { apply Z.eqb_neq. rewrite (ok_total _ _ _ _ Hok), (concat_split _ _ _ Hl). unfold zlen. rewrite !length_app. cbn. lia. }
  cbn [negb c3_assert mbind option_bind]. rewrite <- (removed_at _ _ _ _ _ Hnd Hl) in Hv6.
  eexists _, p. split; [done|]. split; [by eapply view_total|]. intros y Hy. split; [by apply Hp|congruence].
Qed.

(** [evict], of an object that is linked and locked. *)
Lemma evict_ok s L x o s1 next : opt_ok s L -> o_heap s !! x = Some o -> linkedb o = true -> has_readers o = false -> next <> Some x ->
  view s x s1 L (lock_object o) (o_next_object s) (o_total_num_objects s) (o_memory s) ->
  exists s' o' p m', evict s1 next x = Some (s', live_size o) /\ view s x s' (removed x L) o' p (o_total_num_objects s - 1) m' /\
    (forall y, p = Some y -> y ∈ concat L /\ y <> x) /\ dead o' /\ is_locked o' = true /\
    m_used_size m' = m_used_size (o_memory s) - live_size o /\ m_max_size m' = m_max_size (o_memory s).
Proof.
  intros Hok Ho Hli Hre Hnext Hv. destruct (linked_at T config_ok s L x o Hok Ho Hli) as (_ & _ & _ & Hty & H7 & _).
  pose proof (ok_heap _ _ _ _ Hok) as Hh. pose proof (cores_object s x o Ho) as Hc.
  assert (Hsz : live_size o <= m_used_size (o_memory s) < 2 ^ 64).
  { pose proof (live_size_le (cores s) x (core o) (live_nonneg _ _ _ _ Hh) Hc) as Hle. pose proof (h_used _ _ _ _ Hh). change (live_size (core o)) with (live_size o) in Hle. lia. }
  unfold evict. destruct (view_change _ _ _ _ _ _ _ _ _ Hv (keeps_set_flags HOF_BEING_DELETED)) as (s2 & -> & Hv2). cbn [mbind option_bind].
  destruct (view_object _ _ _ _ _ _ _ _ Hv2) as (o2 & Ho2 & E2). rewrite Ho2. cbn [mbind option_bind]. rewrite (v_memory _ _ _ _ _ _ _ _ Hv2).
  assert (Hlive : live_size o2 = live_size o) by exact (f_equal live_size E2).
  destruct (dispose_frees o2 (o_memory s)) as (o3 & m & Ed & Hl0 & Hb & Hpp & Hpn & Ef & Els & Eua & Hm & Hmax).
  { change (buffer_ok (core o2)). rewrite E2. exact (h_buffers _ _ _ _ Hh x _ Hc). }
  { etrans; [exact (f_equal deletedb E2)|]. apply deleted_set. }
  { etrans; [exact (f_equal has_readers E2)|]. done. }
  { by rewrite Hlive. }
  rewrite Ed, Hlive. cbn [mbind option_bind]. rewrite Hlive in Hm.
  pose proof (insert_view _ _ _ _ _ _ _ _ _ _ Hv2 Ho2 Hpp Hpn) as Hv3.
  assert (Hv4 : view s x (with_memory (with_heap s2 (<[x:=o3]> (o_heap s2))) m) L o3 (o_next_object s) (o_total_num_objects s) m) by (destruct Hv3; by split).
  assert (Hflags : ho_flags o3 = ho_flags (set_flags (lock_object o) HOF_BEING_DELETED)) by (rewrite Ef; exact (f_equal ho_flags E2)).
  destruct (iterator_unlink_ok s L x o _ o3 next m Hok Ho Hli Hnext Hv4) as (s' & p & -> & Hv' & Hp).
  { rewrite Eua. exact (f_equal get_user_agent E2). }
  { unfold is_locked. rewrite Els. etrans; [exact (f_equal is_locked E2)|]. apply (lock_locked o). }
  { unfold linkedb. rewrite Hflags, deleted_set_other by lia. exact Hli. }
  cbn [mbind option_bind]. eexists s', _, p, m. split; [done|]. split; [exact Hv'|]. split; [done|]. split; [split|split; [|done]].
  - unfold deletedb. rewrite clear_linked_other, Hflags by lia. apply deleted_set.
  - apply linkedb_clear.
  - rewrite clear_linked_other, Hflags, deleted_set_other by lia. exact H7.
  - etrans; [|exact Hty]. apply get_type_bits. intros j Hj. rewrite clear_linked_other, Hflags, deleted_set_other by lia. done.
  - exact Hl0.
  - exact Hb.
  - change (is_locked o3 = true). unfold is_locked. rewrite Els. etrans; [exact (f_equal is_locked E2)|]. apply (lock_locked o).
Qed.

(** What became of the state when [x] has been evicted and its lock released. *)
Record evicted s L x o s' : Prop := {
  e_ok : opt_ok s' (removed x L);
  e_cores y : y <> x -> cores s' !! y = cores s !! y;
  e_used : m_used_size (o_memory s') = m_used_size (o_memory s) - live_size o;
  e_max : m_max_size (o_memory s') = m_max_size (o_memory s);
  e_mode : o_eviction_mode s' = o_eviction_mode s;
  e_config : o_config s' = o_config s;
  e_posted : o_posted s' = o_posted s;
  e_requeued : o_requeued s' = o_requeued s;
  e_mins : map oc_min_num (o_chain s') = map oc_min_num (o_chain s);
  e_frame y : y <> x -> y ∉ concat L -> o_heap s' !! y = o_heap s !! y;
  e_dead : exists o', o_heap s' !! x = Some o' /\ dead o' /\ is_locked o' = false;
}.

Lemma dead_plain o o' : alike o o' -> linkedb o' = linkedb o -> dead o -> dead o'.
Proof.
  intros Ha Hli []. split; try congruence; [by rewrite (alike_deleted _ _ Ha)|by rewrite (alike_bit7 _ _ Ha)|by rewrite (alike_type _ _ Ha)|
    by rewrite (alike_live _ _ Ha)|by apply (alike_buffer _ _ Ha)].
Qed.

Lemma view_evicted s L x o s' o' p m' : opt_ok s L -> o_heap s !! x = Some o -> linkedb o = true ->
  view s x s' (removed x L) o' p (o_total_num_objects s - 1) m' -> (forall y, p = Some y -> y ∈ concat L /\ y <> x) -> dead o' -> is_locked o' = false ->
  m_used_size m' = m_used_size (o_memory s) - live_size o -> m_max_size m' = m_max_size (o_memory s) -> evicted s L x o s'.
Proof.
  intros Hok Ho Hli Hv Hp Hd Hlo Hm Hmax. pose proof (ok_heap _ _ _ _ Hok) as Hh. split; try (destruct Hv; congruence).
  - eapply view_ok_removed; try done; try apply Hd; rewrite (d_empty _ Hd); [lia|].
    exact (live_nonneg _ _ _ _ Hh x _ (cores_object s x o Ho)).
  - intros y Hy. by rewrite (v_cores _ _ _ _ _ _ _ _ Hv), lookup_insert_ne.
  - intros y Hy HyL. apply (v_frame _ _ _ _ _ _ _ _ Hv y Hy). rewrite removed_elem. tauto.
  - destruct (view_object _ _ _ _ _ _ _ _ Hv) as (o1 & Ho1 & E). exists o1. split; [done|]. split; [by eapply dead_core|]. etrans; [exact (f_equal is_locked E)|done].
Qed.

(** *** The iterator, while an object is locked *)

Lemma evictable_ext s s' y : cores s' !! y = cores s !! y -> o_chain s' = o_chain s -> evictable s' y = evictable s y.
Proof.
  unfold cores. rewrite !lookup_fmap. intros E Ech. unfold evictable. rewrite Ech.
  destruct (o_heap s' !! y) as [o'|], (o_heap s !! y) as [o|]; try done. apply (inj Some) in E.
  change (match o_chain s !! ua_index (get_user_agent (core o')) with Some ch => (oc_min_num ch <? oc_num ch) && gc_suitable (core o') | None => false end =
    match o_chain s !! ua_index (get_user_agent (core o)) with Some ch => (oc_min_num ch <? oc_num ch) && gc_suitable (core o) | None => false end).
  by rewrite E.
Qed.

Lemma found_ext s s' R next pho : (forall y, y ∈ R -> evictable s' y = evictable s y) -> found s R next pho -> found s' R next pho.
Proof.
  intros E [Hn|a z b -> Ha Hz].
  - apply found_none. intros y Hy. rewrite E by done. by apply Hn.
  - apply (found_some _ _ a); [done| |]; [intros y Hy; rewrite E by set_solver; by apply Ha|rewrite E by set_solver; done].
Qed.

Lemma next_before_unlock s1 s2 x L P R : guard_unlock s1 x = Some s2 -> opt_ok s2 L -> chains_ok s1 L -> x ∉ R -> concat L = P ++ R ->
  exists next pho, get_next_gc_object s1 (head R) = Some (next, pho) /\ found s2 R next pho.
Proof.
  intros Hu Hok Hch Hx E. unfold guard_unlock, change, update in Hu. destruct (o_heap s1 !! x) as [o|] eqn:Ho; [|done]. cbn in Hu. injection Hu as <-.
  assert (Hne : forall y, y <> x -> cores (with_heap s1 (<[x:=unlock_object o]> (o_heap s1))) !! y = cores s1 !! y).
  { intros y Hy. unfold cores. cbn. by rewrite fmap_insert, lookup_insert_ne. }
  destruct (get_next_gc_object_ok s1 L P R Hch) as (next & pho & En & Hf); [|exact (ok_mins _ _ _ _ Hok)|done|].
  - pose proof (heap_agents _ _ _ _ (ok_heap _ _ _ _ Hok)) as Ha. intros i l y oy Hl Hy Hoy. cbn in Ha. destruct (decide (y = x)) as [->|Hyx].
    + rewrite Ho in Hoy. injection Hoy as <-. apply (Ha i l x (unlock_object o) Hl Hy). apply lookup_insert_eq.
    + apply (Ha i l y oy Hl Hy). by rewrite lookup_insert_ne.
  - exists next, pho. split; [done|]. eapply found_ext; [|done]. intros y Hy. apply evictable_ext; [|done]. apply Hne. by intros ->.
Qed.

End Sweep.
