(* ===== verification/OptimizerGC.v ===== *)
(** * OptimizerGC

    Garbage collection: the loops of [process_gc_message], [process_free_memory_message] and [run]
    move an iterator through the chains and evict objects on their way. [chosen]: whom such a loop evicts,
    and in which order, as a function; [sweep]: what is true of it after any number of turns. *)

From S2P Require Import Prelude Protocol Memory DList DChain HashObject Optimizer OptimizerChains OptimizerInv OptimizerSteps OptimizerHandlers OptimizerSweep.

(** ** Chains without some objects *)

Definition without (ev : list loc) (L : list (list loc)) : list (list loc) := map (filter (fun y => y ∉ ev)) L.

Lemma without_nil L : without [] L = L.
Proof.
  unfold without. rewrite <- (map_id L) at 2. apply map_ext. intros l. induction l as [|y l IH]; [done|].
  rewrite filter_cons_True by set_solver. by rewrite IH.
Qed.

Lemma removed_without x ev L : removed x (without ev L) = without (ev ++ [x]) L.
Proof.
  unfold removed, without. rewrite map_map. apply map_ext. intros l. rewrite list_filter_filter. apply list_filter_iff. intros y. set_solver.
Qed.

Lemma without_elem ev L y : y ∈ concat (without ev L) <-> y ∈ concat L /\ y ∉ ev.
Proof.
  unfold without. induction L as [|l L IH]; cbn; [set_solver|]. rewrite !elem_of_app, IH, list_elem_of_filter. tauto.
Qed.

Lemma removed_concat x L P R : NoDup (concat L) -> concat L = P ++ x :: R -> concat (removed x L) = P ++ R.
Proof.
  intros Hnd E. transitivity (filter (fun y => y <> x) (concat L)).
  - unfold removed. clear. induction L as [|l L IH]; [done|]. cbn. by rewrite filter_app, IH.
  - rewrite E in Hnd |- *. apply NoDup_app in Hnd as (_ & Hd & [Hx _]%NoDup_cons).
    rewrite filter_app, filter_cons_False by naive_solver. rewrite !filter_notin; [done|done|]. intros Hx'. apply (Hd x Hx'). left.
Qed.

(** The bytes in the buffers of some objects. *)
Definition bytes_of (h : heap) (l : list loc) : Z :=
  foldr (fun y n => match h !! y with Some o => live_size o | None => 0 end + n) 0 l.

Lemma bytes_of_snoc h l x o : h !! x = Some o -> bytes_of h (l ++ [x]) = bytes_of h l + live_size o.
Proof. intros Hx. unfold bytes_of. induction l as [|y l IH]; cbn [foldr app]; [rewrite Hx|rewrite IH]; lia. Qed.

(** ** Whom a sweep takes

    [chosen]: the objects that a sweep over the objects [l] evicts, in their order. An object goes if it is idle,
    its chain has objects to spare, and [take] says so when it is reached; [spare]: how many
    objects each of the chains may still lose; [used]: the bytes in use at that time. *)

Definition available (h : heap) (spare : list Z) (x : loc) : bool :=
  match h !! x with
  | Some o => gc_suitable o && (0 <? default 0 (spare !! ua_index (get_user_agent o)))
  | None => false
  end.

Fixpoint chosen (h : heap) (take : Z -> loc -> bool) (spare : list Z) (used : Z) (l : list loc) : list loc :=
  match l with
  | [] => []
  | x :: l =>
      if available h spare x && take used x then
        match h !! x with
        | Some o => x :: chosen h take (alter Z.pred (ua_index (get_user_agent o)) spare) (used - live_size o) l
        | None => []
        end
      else chosen h take spare used l
  end.

Lemma chosen_skip h take spare used a b : (forall y, y ∈ a -> available h spare y = true -> take used y = false) ->
  chosen h take spare used (a ++ b) = chosen h take spare used b.
Proof.
  induction a as [|x a IH]; intros Ha; [done|]. cbn [chosen app]. rewrite IH by (intros y Hy; apply Ha; by right).
  destruct (available h spare x) eqn:E; [|done]. by rewrite (Ha x ltac:(left) E).
Qed.

Lemma chosen_take h take spare used x o l : available h spare x = true -> take used x = true -> h !! x = Some o ->
  chosen h take spare used (x :: l) = x :: chosen h take (alter Z.pred (ua_index (get_user_agent o)) spare) (used - live_size o) l.
Proof. intros Ha Ht Ho. cbn [chosen]. by rewrite Ha, Ht, Ho. Qed.

Section GC.
Context {C : Type} `{Hooks C} (T : hash_object_type_t) (config_ok : C -> Prop) `{!HooksLaws T config_ok}.
Implicit Types s : Optimizer C.
Abbreviation opt_ok := (opt_ok T config_ok).

(** A guard that takes a lock and releases it changes nothing. *)
Lemma lock_unlock_same s x o s1 : o_heap s !! x = Some o -> is_locked o = false -> guard_lock s x = Some s1 -> guard_unlock s1 x = Some s.
Proof.
  intros Ho Hlo E. unfold guard_lock, object in E. rewrite Ho in E. cbn [mbind option_bind] in E. rewrite Hlo in E. cbn [negb c3_assert mbind option_bind] in E.
  unfold change in E. rewrite (update_ok _ _ _ _ Ho) in E. cbn in E. injection E as <-. unfold guard_unlock, change.
  rewrite (update_ok _ _ (lock_object o)) by apply lookup_insert_eq. cbn. rewrite insert_insert_eq, lock_unlock by done. rewrite (insert_id (o_heap s) x o Ho). destruct s. reflexivity.
Qed.

(** How many objects each chain may lose. *)
Definition spares s : list Z := map (fun ch => oc_num ch - oc_min_num ch) (o_chain s).

Lemma available_evictable h s y : cores s !! y = h !! y -> available h (spares s) y = evictable s y.
Proof.
  unfold cores, available, evictable, spares. rewrite lookup_fmap. intros <-. destruct (o_heap s !! y) as [o|]; [|done].
  cbn [fmap option_fmap option_map]. change (get_user_agent (core o)) with (get_user_agent o). change (gc_suitable (core o)) with (gc_suitable o).
  change (map ?f ?k) with (f <$> k). rewrite list_lookup_fmap. destruct (o_chain s !! _) as [ch|]; cbn; [|by rewrite andb_false_r].
  rewrite andb_comm. f_equal. destruct (0 <? _) eqn:E1, (oc_min_num ch <? oc_num ch) eqn:E2; zbool; done || lia.
Qed.

Lemma spares_removed s L s' x i l : chains_ok s L -> chains_ok s' (removed x L) -> map oc_min_num (o_chain s') = map oc_min_num (o_chain s) ->
  L !! i = Some l -> x ∈ l -> spares s' = alter Z.pred i (spares s).
Proof.
  intros Hok Hok' Hm Hl Hx. assert (Hnd : NoDup (concat L)) by apply Hok. destruct (list_elem_of_split _ _ Hx) as (l1 & l2 & ->).
  rewrite (removed_at _ _ _ _ _ Hnd Hl) in Hok'. pose proof (Forall2_length _ _ _ (proj1 Hok)) as Hlen. pose proof (Forall2_length _ _ _ (proj1 Hok')) as Hlen'.
  rewrite length_insert in Hlen'. apply list_eq. intros j. unfold spares. change (map ?f ?k) with (f <$> k) in *.
  pose proof (f_equal (fun ms => ms !! j) Hm) as Em. cbn beta in Em. rewrite list_lookup_alter, !list_lookup_fmap in *.
  destruct (L !! j) as [l|] eqn:Hj; cycle 1.
  { apply lookup_ge_None in Hj. rewrite (proj2 (lookup_ge_None (o_chain s') j)), (proj2 (lookup_ge_None (o_chain s) j)) by lia.
    destruct (decide (i = j)) as [<-|]; [|done]. by apply lookup_lt_Some in Hl; lia. }
  destruct (chains_get _ _ _ _ Hok Hj) as (ch & Hch & _ & Hn). destruct (decide (i = j)) as [<-|Hne].
  - rewrite Hl in Hj. injection Hj as <-. destruct (chains_get s' _ i (l1 ++ l2) Hok') as (ch' & Hch' & _ & Hn').
    { apply list_lookup_insert_eq. by eapply lookup_lt_Some. }
    rewrite Hch, Hch' in *. cbn in Em |- *. injection Em as Em. f_equal. rewrite Em, Hn, Hn'. unfold zlen. rewrite !length_app. cbn. lia.
  - destruct (chains_get s' _ j l Hok') as (ch' & Hch' & _ & Hn'); [by rewrite list_lookup_insert_ne|].
    rewrite Hch, Hch' in *. cbn in Em |- *. injection Em as Em. f_equal. lia.
Qed.

(** ** Sweeps

    [s0] is the state at the start, [s] the present one; [ev] are the objects that have been evicted,
    [P] those that stay and [R] those to come. [Q used x]: a reason for [x] to stay, when [used]
    bytes are in use; [take]: who is to go, in the sense of [chosen]. *)

Section Sweeps.
Context (s0 : Optimizer C) (L0 : list (list loc)) (Q : Z -> loc -> Prop) (take : Z -> loc -> bool).

Record sweep s (L : list (list loc)) (ev P R : list loc) : Prop := {
  w_ok : opt_ok s L;
  w_split : concat L = P ++ R;
  w_list : L = without ev L0;
  w_nodup : NoDup ev;
  w_sub y : y ∈ ev -> y ∈ concat L0;
  w_idle y : y ∈ ev -> idle (cores s0) y = true;
  w_plan : chosen (cores s0) take (spares s0) (m_used_size (o_memory s0)) (concat L0) = ev ++ chosen (cores s0) take (spares s) (m_used_size (o_memory s)) R;
  w_cores y : y ∉ ev -> cores s !! y = cores s0 !! y;
  w_used : m_used_size (o_memory s) = m_used_size (o_memory s0) - bytes_of (cores s0) ev;
  w_max : m_max_size (o_memory s) = m_max_size (o_memory s0);
  w_mode : o_eviction_mode s = o_eviction_mode s0;
  w_config : o_config s = o_config s0;
  w_requeued : o_requeued s = o_requeued s0;
  w_mins : map oc_min_num (o_chain s) = map oc_min_num (o_chain s0);
  w_retain i l l0 n : L !! i = Some l -> L0 !! i = Some l0 -> map oc_min_num (o_chain s0) !! i = Some n -> l = l0 \/ n <= zlen l;
  w_dead y : y ∈ ev -> exists o, o_heap s !! y = Some o /\ dead T o /\ is_locked o = false;
  w_done y : y ∈ P -> evictable s y = true -> Q (m_used_size (o_memory s)) y;
}.

Lemma sweep_start : opt_ok s0 L0 -> sweep s0 L0 [] [] (concat L0).
Proof.
  intros Hok. split; try done; try (by intros ? ?%elem_of_nil).
  - by rewrite without_nil.
  - constructor.
  - cbn. lia.
  - intros i l l0 n Hl Hl0 _. left. congruence.
Qed.

(** What is still to come has its place in a chain, and looks as it did at the start. *)
Lemma sweep_available s L ev P R y : sweep s L ev P R -> y ∈ R -> available (cores s0) (spares s) y = evictable s y.
Proof.
  intros [] Hy. apply available_evictable, w_cores0. assert (y ∈ concat L) as HyL by (rewrite w_split0; set_solver).
  rewrite w_list0 in HyL. by apply without_elem in HyL as [_ ?].
Qed.

Lemma sweep_skip s L ev P a b : sweep s L ev P (a ++ b) ->
  (forall y, y ∈ a -> evictable s y = true -> Q (m_used_size (o_memory s)) y /\ take (m_used_size (o_memory s)) y = false) ->
  sweep s L ev (P ++ a) b.
Proof.
  intros Hsw Ha. assert (Hav : forall y, y ∈ a -> available (cores s0) (spares s) y = evictable s y)
    by (intros y Hy; eapply sweep_available; [exact Hsw|set_solver]).
  destruct Hsw. split; try done; [by rewrite <- app_assoc| |].
  - rewrite w_plan0. f_equal. apply chosen_skip. intros y Hy. rewrite Hav by done. intros He. by apply Ha.
  - intros y [Hy|Hy]%elem_of_app He; [by apply w_done0|by apply Ha].
Qed.

Lemma idle_core s y : idle (o_heap s) y = idle (cores s) y.
Proof. unfold idle, cores. rewrite lookup_fmap. by destruct (o_heap s !! y). Qed.

Lemma evictable_idle s y : evictable s y = true -> idle (o_heap s) y = true.
Proof.
  unfold evictable, idle. destruct (o_heap s !! y) as [o|]; [|done]. destruct (o_chain s !! _); [|done]. by intros [_ ?]%andb_true_iff.
Qed.

Lemma evictable_evicted s L x o s' y : opt_ok s L -> evicted T config_ok s L x o s' -> y ∈ concat (removed x L) -> evictable s' y = true -> evictable s y = true.
Proof.
  intros Hok He Hy Hev. apply concat_elem in Hy as (i & l' & Hl' & Hy). destruct (removed_lookup _ _ _ _ _ Hl' Hy) as [Hne (l & Hl & Hyl)].
  pose proof (e_ok _ _ _ _ _ _ _ He) as Hok'. destruct (chains_get _ _ _ _ (ok_chains _ _ _ _ Hok) Hl) as (ch & Hch & _ & Hn).
  destruct (chains_get _ _ _ _ (ok_chains _ _ _ _ Hok') Hl') as (ch' & Hch' & _ & Hn').
  rewrite (evictable_at s' (removed x L) i l' ch') in Hev; [|apply Hok'|by eapply heap_agents; apply Hok'|done..].
  rewrite (evictable_at s L i l ch); [|apply Hok|by eapply heap_agents; apply Hok|done..].
  apply andb_true_iff in Hev as [Hm Hi]. apply andb_true_iff. split.
  - pose proof (f_equal (fun ms => ms !! i) (e_mins _ _ _ _ _ _ _ He)) as Em. change (map ?f ?k) with (f <$> k) in Em. cbn beta in Em.
    rewrite !list_lookup_fmap, Hch, Hch' in Em. cbn in Em. injection Em as Em. zbool. rewrite <- Em, Hn. apply Z.ltb_lt. rewrite Hn' in Hm. eapply Z.lt_le_trans; [exact Hm|].
    unfold removed in Hl'. change (map ?f ?k) with (f <$> k) in Hl'. rewrite list_lookup_fmap, Hl in Hl'. cbn in Hl'. injection Hl' as <-.
    unfold zlen. apply Nat2Z.inj_le, length_filter.
  - rewrite idle_core in *. unfold idle in *. by rewrite <- (e_cores _ _ _ _ _ _ _ He y Hne).
Qed.

(** The object at the iterator's place is linked, not locked, and has not been evicted yet. *)
Lemma sweep_at s L ev P x R : sweep s L ev P (x :: R) -> evictable s x = true ->
  exists o i l ch, o_heap s !! x = Some o /\ is_locked o = false /\ has_readers o = false /\ deletedb o = false /\ linkedb o = true /\ x ∉ ev /\ x ∈ concat L0 /\
    cores s0 !! x = Some (core o) /\ idle (cores s0) x = true /\ L !! i = Some l /\ x ∈ l /\ o_chain s !! i = Some ch /\ oc_min_num ch < zlen l.
Proof.
  intros [] He. assert (HxL : x ∈ concat L) by (rewrite w_split0; set_solver). pose proof HxL as HxL0. rewrite w_list0 in HxL0. apply without_elem in HxL0 as [HxL0 Hxe].
  pose proof (evictable_idle _ _ He) as Hi. apply concat_elem in HxL as (i & l & Hl & Hx).
  destruct (chains_get _ _ _ _ (ok_chains _ _ _ _ w_ok0) Hl) as (ch & Hch & _ & Hn).
  rewrite (evictable_at s L i l ch) in He; [|apply w_ok0|by eapply heap_agents; apply w_ok0|done..]. apply andb_true_iff in He as [Hm _]. zbool.
  pose proof Hi as Hi0. unfold idle in Hi. destruct (o_heap s !! x) as [o|] eqn:Ho; [|done]. pose proof (cores_object s x o Ho) as Hc. unfold gc_suitable in Hi.
  apply andb_true_iff in Hi as [[Hde Hlo]%andb_true_iff Hre]. rewrite clear_deleted_flag in Hde. apply negb_true_iff in Hde, Hlo, Hre.
  exists o, i, l, ch. rewrite Hn in Hm. rewrite <- (w_cores0 x Hxe). split_and!; try done.
  - apply (h_linked _ _ _ _ (ok_heap _ _ _ _ w_ok0) x _ Hc). by eapply elem_concat.
  - rewrite idle_core in Hi0. unfold idle in *. by rewrite <- (w_cores0 x Hxe).
Qed.

Lemma without_lookup ev (L : list (list loc)) i l : without ev L !! i = Some l -> exists l0, L !! i = Some l0 /\ l = filter (fun y => y ∉ ev) l0.
Proof. unfold without. change (map ?f ?k) with (f <$> k). rewrite list_lookup_fmap. intros (l0 & ? & ->)%fmap_Some. eauto. Qed.

(** Where the iterator goes. *)
Lemma sweep_found s L ev P R next pho : sweep s L ev P R -> found s R next pho ->
  (pho = None /\ sweep s L ev (P ++ R) []) \/
  (exists x R' P', pho = Some x /\ next = head R' /\ evictable s x = true /\ sweep s L ev P' (x :: R') /\ (length (x :: R') <= length R)%nat).
Proof.
  intros Hsw [Hn|a z b -> Ha Hz].
  - left. split; [done|]. apply sweep_skip; [by rewrite app_nil_r|]. intros y Hy He. by rewrite Hn in He.
  - right. exists z, b, (P ++ a). split_and!; [done..| |rewrite length_app; lia]. apply sweep_skip; [done|]. intros y Hy He. by rewrite Ha in He.
Qed.

Lemma sweep_next s L ev P R s1 x : sweep s L ev P R -> guard_unlock s1 x = Some s -> chains_ok s1 L -> x ∉ R ->
  exists next pho, get_next_gc_object s1 (head R) = Some (next, pho) /\ found s R next pho.
Proof. intros Hsw Hu Hch Hx. by eapply (next_before_unlock T config_ok s1 s x L P R Hu); [apply Hsw| | |apply Hsw]. Qed.

Lemma sweep_next' s L ev P R : sweep s L ev P R -> exists next pho, get_next_gc_object s (head R) = Some (next, pho) /\ found s R next pho.
Proof. intros []. eapply get_next_gc_object_ok; [apply w_ok0|by eapply heap_agents; apply w_ok0|apply w_ok0|done]. Qed.

Lemma sweep_first : opt_ok s0 L0 -> exists next pho, get_first_gc_object s0 = Some (next, pho) /\ found s0 (concat L0) next pho.
Proof. intros Hok. eapply get_first_gc_object_ok; [apply Hok|by eapply heap_agents; apply Hok|apply Hok]. Qed.

(** What comes after an object is not that object. *)
Lemma sweep_tail s L ev P x R : sweep s L ev P (x :: R) -> x ∉ R /\ head R <> Some x.
Proof.
  intros []. assert (Hnd : NoDup (concat L)) by apply w_ok0. rewrite w_split0 in Hnd. apply NoDup_app in Hnd as (_ & _ & [Hx _]%NoDup_cons).
  split; [done|]. destruct R as [|z R]; [done|]. intros [= ->]. set_solver.
Qed.

Hypothesis Q_mono : forall u u' y, u' <= u -> Q u y -> Q u' y.

(** Eviction of the object at the iterator's place. *)
Lemma sweep_evict s L ev P x R o s' : sweep s L ev P (x :: R) -> evictable s x = true -> o_heap s !! x = Some o -> evicted T config_ok s L x o s' -> take (m_used_size (o_memory s)) x = true ->
  sweep s' (removed x L) (ev ++ [x]) P R.
Proof.
  intros Hsw He Ho Hev HW. pose proof (sweep_available s L ev P (x :: R) x Hsw ltac:(left)) as Hav. rewrite He in Hav. destruct (sweep_at _ _ _ _ _ _ Hsw He) as (o1 & i & l & ch & Ho1 & _ & _ & _ & _ & Hxe & HxL0 & Hc0 & Hi0 & Hl & Hx & Hch & Hm).
  rewrite Ho in Ho1. injection Ho1 as <-. pose proof (e_ok _ _ _ _ _ _ _ Hev) as Hok'. destruct Hsw, Hev. assert (Hnd : NoDup (concat L)) by apply w_ok0.
  assert (Hsplit : concat (removed x L) = P ++ R) by by apply removed_concat.
  pose proof (h_buffers _ _ _ _ (ok_heap _ _ _ _ w_ok0) x _ (cores_object s x o Ho)) as Hb. apply live_size_nonneg in Hb. change (live_size (core o)) with (live_size o) in Hb.
  split; try done; try congruence.
  - by rewrite w_list0, removed_without.
  - apply NoDup_app. split_and!; [done|set_solver|apply NoDup_singleton].
  - intros y [Hy| ->%list_elem_of_singleton]%elem_of_app; auto.
  - intros y [Hy| ->%list_elem_of_singleton]%elem_of_app; auto.
  - rewrite w_plan0, (chosen_take _ _ _ _ x (core o)) by done. rewrite <- app_assoc. cbn [app]. do 3 f_equal; [|symmetry; exact e_used].
    symmetry. eapply (spares_removed s L s' x); [apply w_ok0|apply e_ok|exact e_mins| |exact Hx].
    change (get_user_agent (core o)) with (get_user_agent o). by rewrite (heap_agents _ _ _ _ (ok_heap _ _ _ _ w_ok0) i l x o Hl Hx Ho).
  - intros y Hy. rewrite e_cores, w_cores0 by set_solver. done.
  - rewrite e_used, w_used0, (bytes_of_snoc _ _ _ _ Hc0). change (live_size (core o)) with (live_size o). lia.
  - intros j l' l0 n Hl' Hl0 Hn. destruct (decide (j = i)) as [->|Hne].
    + right. destruct (list_elem_of_split _ _ Hx) as (l1 & l2 & ->). rewrite (removed_at _ _ _ _ _ Hnd Hl) in Hl'. rewrite list_lookup_insert_eq in Hl' by (by eapply lookup_lt_Some).
      injection Hl' as <-. rewrite <- w_mins0 in Hn. change (map ?f ?k) with (f <$> k) in Hn. rewrite list_lookup_fmap, Hch in Hn. cbn in Hn. injection Hn as <-.
      unfold zlen in *. rewrite !length_app in *. cbn in Hm. lia.
    + destruct (list_elem_of_split _ _ Hx) as (l1 & l2 & ->). rewrite (removed_at _ _ _ _ _ Hnd Hl) in Hl'. rewrite list_lookup_insert_ne in Hl' by done. by eapply w_retain0.
  - intros y [Hy| ->%list_elem_of_singleton]%elem_of_app; [|done]. rewrite e_frame; [by apply w_dead0|by intros ->|]. rewrite w_list0, without_elem. tauto.
  - intros y Hy Hev'. rewrite e_used. apply (Q_mono (m_used_size (o_memory s))); [lia|]. apply w_done0; [done|].
    eapply (evictable_evicted s L x o s'); [done|by split|rewrite Hsplit; set_solver|done].
Qed.

End Sweeps.
End GC.
