(* ===== verification/OptimizerLoops.v ===== *)
(** * OptimizerLoops

    The loops that evict objects, as sweeps: [process_gc_message], the first pass of [run], and
    [process_free_memory_message]. *)

From S2P Require Import Prelude Protocol Memory DList DChain HashObject Optimizer OptimizerChains OptimizerInv OptimizerSteps OptimizerHandlers OptimizerSweep OptimizerGC.

(** ** Quotas *)

(** [is_above_memory_quota], when [used] bytes are in use. *)
Definition above_at (env : Env) (max used : Z) : bool :=
  if negb (max =? DEFAULT_QUOTA) then max <? used
  else if is_quota_set (e_global env) then m_max_size (e_global env) <? used + e_other_used env
  else false.

Definition env_ok (env : Env) (used : Z) : Prop := 0 <= e_other_used env /\ used + e_other_used env < 2 ^ 64.

Lemma above_at_mono env max u u' : u' <= u -> above_at env max u = false -> above_at env max u' = false.
Proof. unfold above_at. intros Hu. destruct (negb _); [intros; zbool; apply Z.ltb_ge; lia|]. destruct (is_quota_set _); [|done]. intros; zbool; apply Z.ltb_ge; lia. Qed.

Section Loops.
Context {C : Type} `{Hooks C} (T : hash_object_type_t) (config_ok : C -> Prop) `{!HooksLaws T config_ok}.
Implicit Types s : Optimizer C.
Abbreviation opt_ok := (opt_ok T config_ok).

Lemma used_nonneg s L : opt_ok s L -> 0 <= m_used_size (o_memory s).
Proof.
  intros Hok. pose proof (ok_heap _ _ _ _ Hok) as Hh. pose proof (live_bytes_nonneg _ (live_nonneg _ _ _ _ Hh)). pose proof (h_used _ _ _ _ Hh). lia.
Qed.

Lemma is_above_ok env s : 0 <= m_used_size (o_memory s) -> env_ok env (m_used_size (o_memory s)) ->
  is_above_memory_quota s env = above_at env (m_max_size (o_memory s)) (m_used_size (o_memory s)).
Proof.
  intros Hu [He Hs]. unfold is_above_memory_quota, above_at. change (negb (m_max_size (o_memory s) =? DEFAULT_QUOTA)) with (is_quota_set (o_memory s)).
  by rewrite u64_small by (unfold is_u64; lia).
Qed.

(** [on_gc] says that an object is to go; it is asked when the object is locked. *)
Definition expired (env : Env) s (seconds : Z) (o : HashObject) : bool :=
  expires (o_eviction_mode s) && bool_decide (on_gc env (o_config s) (o_eviction_mode s) (lock_object o) seconds = Some true).

Lemma expired_core env s seconds o : expired env s seconds (core o) = expired env s seconds o.
Proof.
  unfold expired. f_equal. change (lock_object (core o)) with (core (lock_object o)). by rewrite (law_gc_core (T := T) (config_ok := config_ok)).
Qed.

(** The steps of a turn that all three loops take. *)
Lemma sweep_lock s0 L0 Q W s L ev P x R : sweep T config_ok s0 L0 Q W s L ev P (x :: R) -> evictable s x = true ->
  exists o s1 o1, o_heap s !! x = Some o /\ is_locked o = false /\ has_readers o = false /\ deletedb o = false /\ linkedb o = true /\ cores s0 !! x = Some (core o) /\
    guard_lock s x = Some s1 /\ guard_unlock s1 x = Some s /\ view s x s1 L (lock_object o) (o_next_object s) (o_total_num_objects s) (o_memory s) /\
    object s1 x = Some o1 /\ core o1 = core (lock_object o) /\ has_readers o1 = false /\ deletedb o1 = false /\ linkedb o1 = true.
Proof.
  intros Hsw He. destruct (sweep_at _ _ _ _ _ _ _ _ _ _ _ _ Hsw He) as (o & i & l & ch & Ho & Hlo & Hre & Hde & Hli & _ & _ & Hc0 & _).
  destruct (guard_lock_ok T config_ok s L x o) as (s1 & E1 & Hv & _); [apply Hsw|done..|]. destruct (view_object _ _ _ _ _ _ _ _ Hv) as (o1 & Ho1 & E).
  exists o, s1, o1. split_and!; try done.
  - by eapply lock_unlock_same.
  - etrans; [exact (f_equal has_readers E)|done].
  - etrans; [exact (f_equal deletedb E)|done].
  - etrans; [exact (f_equal linkedb E)|done].
Qed.

Lemma dead_unlock o : dead T o -> dead T (unlock_object o).
Proof. intros Hd. apply (dead_plain _ o); [by apply (alike_plain o unlock_object)|done..]. Qed.

(** Eviction, release of the lock, and hand over: the end of a turn in which an object goes. *)
Lemma evict_unlock s L x o s1 next : opt_ok s L -> o_heap s !! x = Some o -> linkedb o = true -> has_readers o = false -> next <> Some x ->
  view s x s1 L (lock_object o) (o_next_object s) (o_total_num_objects s) (o_memory s) ->
  exists s2 s3 o3, evict s1 next x = Some (s2, live_size o) /\ guard_unlock s2 x = Some s3 /\ object s3 x = Some o3 /\ on_delete o3 = Some tt /\ evicted T config_ok s L x o s3.
Proof.
  intros Hok Ho Hli Hre Hnext Hv. destruct (evict_ok T config_ok s L x o s1 next Hok Ho Hli Hre Hnext Hv) as (s2 & o2 & p & m & E2 & Hv2 & Hp & Hd & Hlo & Hm & Hmax).
  destruct (view_change _ _ _ _ _ _ _ _ _ Hv2 keeps_unlock) as (s3 & E3 & Hv3).
  assert (Hev : evicted T config_ok s L x o s3). { eapply view_evicted; [done..|by apply dead_unlock|apply unlock_unlocked|done|done]. }
  destruct (e_dead _ _ _ _ _ _ _ Hev) as (o3 & Ho3 & [D1 D2 D3 D4 D5 D6] & Hlo3). exists s2, s3, o3. split_and!; try done.
  by apply (law_delete (T := T) (config_ok := config_ok)).
Qed.

Lemma sweep_post s0 L0 Q W s L ev P R x : sweep T config_ok s0 L0 Q W s L ev P R -> sweep T config_ok s0 L0 Q W (post s x) L ev P R.
Proof. intros []. split; try done. by apply opt_ok_post. Qed.

(** ** [process_gc_message] *)

Section GC.
Context (env : Env) (seconds : Z) (s0 : Optimizer C) (L0 : list (list loc)).
Hypothesis Henv : env_ok env (m_used_size (o_memory s0)).

(** Reasons to stay, and who is to go. *)
Definition gc_stays (used : Z) (y : loc) : Prop :=
  above_at env (m_max_size (o_memory s0)) used = false /\ forall o, cores s0 !! y = Some o -> expired env s0 seconds o = false.
Definition gc_takes (used : Z) (y : loc) : bool :=
  above_at env (m_max_size (o_memory s0)) used || match cores s0 !! y with Some o => expired env s0 seconds o | None => false end.

Abbreviation gc_sweep := (sweep T config_ok s0 L0 gc_stays gc_takes).

Lemma gc_stays_mono u u' y : u' <= u -> gc_stays u y -> gc_stays u' y.
Proof. intros Hu [Ha Hx]. split; [|done]. by eapply above_at_mono. Qed.

Lemma sweep_used Q W s L ev P R : sweep T config_ok s0 L0 Q W s L ev P R -> opt_ok s0 L0 -> 0 <= m_used_size (o_memory s) <= m_used_size (o_memory s0).
Proof.
  intros [] Hok0. split; [by eapply used_nonneg|]. rewrite w_used. assert (0 <= bytes_of (cores s0) ev); [|lia].
  pose proof (ok_heap _ _ _ _ Hok0) as Hh. clear -Hh. induction ev as [|y ev IH]; [done|]. unfold bytes_of in *. cbn [foldr].
  destruct (cores s0 !! y) as [o|] eqn:Hy; [|lia]. pose proof (live_nonneg _ _ _ _ Hh y o Hy). lia.
Qed.

Lemma gc_body_ok s L ev P x R : opt_ok s0 L0 -> gc_sweep s L ev P (x :: R) -> evictable s x = true ->
  exists s1 locked, gc_body env seconds s (head R) x = Some (s1, locked) /\
    if (locked : bool) then guard_unlock s1 x = Some s /\ chains_ok s1 L /\ gc_sweep s L ev (P ++ [x]) R
    else exists s2, s1 = post s2 x /\ o_posted s2 = o_posted s /\ gc_sweep s1 (removed x L) (ev ++ [x]) P R.
Proof.
  intros Hok0 Hsw He. destruct (sweep_lock _ _ _ _ _ _ _ _ _ _ Hsw He) as (o & s1 & o1 & Ho & Hlo & Hre & Hde & Hli & Hc0 & E1 & Eu & Hv & Ho1 & Ec & Hre1 & Hde1 & Hli1).
  unfold gc_body. rewrite E1. cbn [mbind option_bind]. rewrite Ho1. cbn [mbind option_bind]. rewrite set_linked_flag, clear_deleted_flag, Hli1, Hde1, Hre1.
  cbn [negb c3_assert mbind option_bind]. pose proof (sweep_used _ _ _ _ _ _ _ Hsw Hok0) as Hu. destruct Henv as [He0 He1].
  assert (Hab : is_above_memory_quota s1 env = above_at env (m_max_size (o_memory s0)) (m_used_size (o_memory s))).
  { rewrite is_above_ok; rewrite (v_memory _ _ _ _ _ _ _ _ Hv); [by rewrite (w_max _ _ _ _ _ _ _ _ _ _ _ Hsw)|lia|split; lia]. }
  assert (Hgc : expires (o_eviction_mode s1) = true -> exists b, on_gc env (o_config s1) (o_eviction_mode s1) o1 seconds = Some b /\ expired env s0 seconds o = b).
  { intros Hex. destruct (law_gc (T := T) (config_ok := config_ok) env (o_config s1) (o_eviction_mode s1) o1 seconds) as (b & Eb); [|done|done| |].
    - etrans; [exact (f_equal is_locked Ec)|]. apply (lock_locked o).
    - etrans; [exact (f_equal get_type Ec)|]. by destruct (linked_at T config_ok s L x o (w_ok _ _ _ _ _ _ _ _ _ _ _ Hsw) Ho Hli) as (_ & _ & _ & Hty & _).
    - exists b. split; [done|]. unfold expired. rewrite <- (w_mode _ _ _ _ _ _ _ _ _ _ _ Hsw), <- (w_config _ _ _ _ _ _ _ _ _ _ _ Hsw).
      rewrite <- (v_mode _ _ _ _ _ _ _ _ Hv), <- (v_config _ _ _ _ _ _ _ _ Hv), Hex.
      rewrite <- (law_gc_core (T := T) (config_ok := config_ok)), <- Ec, (law_gc_core (T := T) (config_ok := config_ok)), Eb. by destruct b. }
  assert (Hpurge : exists b, (if is_above_memory_quota s1 env then Some true else if expires (o_eviction_mode s1) then
      on_gc env (o_config s1) (o_eviction_mode s1) o1 seconds else Some false) = Some b /\
    gc_takes (m_used_size (o_memory s)) x = b /\ (b = false -> gc_stays (m_used_size (o_memory s)) x)).
  { rewrite Hab. unfold gc_takes. rewrite Hc0, expired_core. destruct (above_at _ _ (m_used_size (o_memory s))) eqn:Eab; [by exists true|].
    assert (forall b, expired env s0 seconds o = b -> b = false -> gc_stays (m_used_size (o_memory s)) x) as Hstay.
    { intros b Eb ->. split; [done|]. intros o' Ho'. rewrite Hc0 in Ho'. injection Ho' as <-. by rewrite expired_core. }
    destruct (expires (o_eviction_mode s1)) eqn:Eex.
    - destruct (Hgc eq_refl) as (b & -> & Eb). exists b. split; [done|]. split; [done|by apply Hstay].
    - assert (expired env s0 seconds o = false) as Ex.
      { unfold expired. by rewrite <- (w_mode _ _ _ _ _ _ _ _ _ _ _ Hsw), <- (v_mode _ _ _ _ _ _ _ _ Hv), Eex. }
      exists false. split; [done|]. split; [done|by apply Hstay]. }
  destruct Hpurge as (b & -> & Ht & Hb). cbn [mbind option_bind]. destruct b; cbn [mbind option_bind].
  - destruct (sweep_tail _ _ _ _ _ _ _ _ _ _ _ _ Hsw) as [_ Hnext].
    destruct (evict_unlock s L x o s1 (head R) (w_ok _ _ _ _ _ _ _ _ _ _ _ Hsw) Ho Hli Hre Hnext Hv) as (s2 & s3 & o3 & -> & E3 & Ho3 & Ed & Hev).
    cbn [mbind option_bind]. rewrite E3. cbn [mbind option_bind]. rewrite Ho3. cbn [mbind option_bind]. rewrite Ed. cbn [mbind option_bind].
    exists (post s3 x), false. split; [done|]. exists s3. split; [done|]. split; [apply Hev|]. apply sweep_post. by eapply (sweep_evict T config_ok s0 L0 gc_stays gc_takes gc_stays_mono).
  - exists s1, true. split; [done|]. split; [done|]. split; [apply Hv|]. apply (sweep_skip T config_ok); [done|]. intros y ->%list_elem_of_singleton _. by split; [apply Hb|].
Qed.

Lemma gc_loop_ok : opt_ok s0 L0 -> forall fuel s L ev P R next pho, gc_sweep s L ev P R -> found s R next pho -> (length R <= fuel)%nat ->
  o_posted s = o_posted s0 ++ ev ->
  exists s' L' ev', gc_loop fuel env seconds s next pho = Some s' /\ gc_sweep s' L' ev' (concat L') [] /\ o_posted s' = o_posted s0 ++ ev'.
Proof.
  intros Hok0. induction fuel as [|fuel IH]; intros s L ev P R next pho Hsw Hf Hlen Hpo;
    destruct (sweep_found _ _ _ _ _ _ _ _ _ _ _ _ _ Hsw Hf) as [[-> Hend]|(x & R' & P' & -> & -> & He & Hsw' & Hle)].
  1,3: exists s, L, ev; split; [done|]; split; [|done]; by rewrite (w_split _ _ _ _ _ _ _ _ _ _ _ Hsw).
  - cbn in Hle. lia.
  - cbn [length] in Hle. cbn [gc_loop]. destruct (gc_body_ok s L ev P' x R' Hok0 Hsw' He) as (s1 & locked & -> & Hcase). cbn [mbind option_bind].
    destruct (sweep_tail _ _ _ _ _ _ _ _ _ _ _ _ Hsw') as [HxR _]. destruct locked.
    + destruct Hcase as (Hu & Hch & Hsw1). destruct (sweep_next _ _ _ _ _ _ _ _ _ _ _ s1 x Hsw1 Hu Hch HxR) as (next & pho & -> & Hf'). cbn [mbind option_bind].
      rewrite Hu. cbn [mbind option_bind]. eapply IH; [done..|lia|done].
    + destruct Hcase as (s2 & -> & Hpo2 & Hsw1). destruct (sweep_next' _ _ _ _ _ _ _ _ _ _ _ Hsw1) as (next & pho & -> & Hf'). cbn [mbind option_bind].
      eapply IH; [done..|lia|]. cbn. by rewrite Hpo2, Hpo, app_assoc.
Qed.

(** ** The first pass of [run] *)

(** Nothing stays but for want of a reason to evict anything. *)
Definition quota_stays (used : Z) (y : loc) : Prop := above_at env (m_max_size (o_memory s0)) used = false.
Definition quota_takes (used : Z) (y : loc) : bool := above_at env (m_max_size (o_memory s0)) used.

Abbreviation quota_sweep := (sweep T config_ok s0 L0 quota_stays quota_takes).

Lemma quota_stays_mono u u' y : u' <= u -> quota_stays u y -> quota_stays u' y.
Proof. apply above_at_mono. Qed.

Lemma quota_body_ok s L ev P x R : quota_sweep s L ev P (x :: R) -> evictable s x = true ->
  above_at env (m_max_size (o_memory s0)) (m_used_size (o_memory s)) = true ->
  exists s2, quota_body s (head R) x = Some (post s2 x, false) /\ o_posted s2 = o_posted s /\ quota_sweep (post s2 x) (removed x L) (ev ++ [x]) P R.
Proof.
  intros Hsw He Hab. destruct (sweep_lock _ _ _ _ _ _ _ _ _ _ Hsw He) as (o & s1 & o1 & Ho & Hlo & Hre & Hde & Hli & Hc0 & E1 & Eu & Hv & Ho1 & Ec & Hre1 & Hde1 & Hli1).
  unfold quota_body. rewrite E1. cbn [mbind option_bind]. rewrite Ho1. cbn [mbind option_bind]. rewrite clear_deleted_flag, Hde1, Hre1. cbn [negb andb].
  destruct (sweep_tail _ _ _ _ _ _ _ _ _ _ _ _ Hsw) as [_ Hnext].
  destruct (evict_unlock s L x o s1 (head R) (w_ok _ _ _ _ _ _ _ _ _ _ _ Hsw) Ho Hli Hre Hnext Hv) as (s2 & s3 & o3 & -> & E3 & Ho3 & Ed & Hev).
  cbn [mbind option_bind]. rewrite E3. cbn [mbind option_bind]. rewrite Ho3. cbn [mbind option_bind]. rewrite Ed. cbn [mbind option_bind].
  exists s3. split; [done|]. split; [apply Hev|]. apply sweep_post. by eapply (sweep_evict T config_ok s0 L0 quota_stays quota_takes quota_stays_mono).
Qed.

Lemma quota_loop_ok : opt_ok s0 L0 -> forall fuel s L ev P R next pho, quota_sweep s L ev P R -> found s R next pho -> (length R <= fuel)%nat ->
  o_posted s = o_posted s0 ++ ev -> above_at env (m_max_size (o_memory s0)) (m_used_size (o_memory s)) = true ->
  exists s' L' ev', quota_loop fuel env s next pho = Some s' /\ quota_sweep s' L' ev' (concat L') [] /\ o_posted s' = o_posted s0 ++ ev'.
Proof.
  intros Hok0. induction fuel as [|fuel IH]; intros s L ev P R next pho Hsw Hf Hlen Hpo Hab;
    destruct (sweep_found _ _ _ _ _ _ _ _ _ _ _ _ _ Hsw Hf) as [[-> Hend]|(x & R' & P' & -> & -> & He & Hsw' & Hle)].
  1,3: exists s, L, ev; split; [done|]; split; [|done]; by rewrite (w_split _ _ _ _ _ _ _ _ _ _ _ Hsw).
  - cbn in Hle. lia.
  - cbn [length] in Hle. cbn [quota_loop]. destruct (quota_body_ok s L ev P' x R' Hsw' He Hab) as (s2 & -> & Hpo2 & Hsw1). cbn [mbind option_bind].
    assert (Hpo' : o_posted (post s2 x) = o_posted s0 ++ ev ++ [x]) by (cbn; by rewrite Hpo2, Hpo, app_assoc).
    pose proof (sweep_used _ _ _ _ _ _ _ Hsw1 Hok0) as Hu. destruct Henv as [He0 He1].
    rewrite is_above_ok by (lia || (split; lia)). rewrite (w_max _ _ _ _ _ _ _ _ _ _ _ Hsw1). destruct (above_at _ _ (m_used_size (o_memory (post s2 x)))) eqn:Eab.
    + destruct (sweep_next' _ _ _ _ _ _ _ _ _ _ _ Hsw1) as (next & pho & -> & Hf'). cbn [mbind option_bind]. eapply IH; [done..|lia|done|done].
    + exists (post s2 x), (removed x L), (ev ++ [x]). split; [done|]. split; [|done]. rewrite (w_split _ _ _ _ _ _ _ _ _ _ _ Hsw1).
      apply (sweep_skip T config_ok s0 L0 quota_stays quota_takes _ _ _ P' R' []); [by rewrite app_nil_r|]. intros y _ _. by split.
Qed.

End GC.
End Loops.
