(* ===== verification/OptimizerFree.v ===== *)
(** * OptimizerFree

    [process_free_memory_message]: a sweep that stops when enough has been freed. Objects that have been
    deleted are kept in a chain of their own, and handed over afterwards. *)

From S2P Require Import Prelude Protocol Memory DList DChain HashObject Optimizer OptimizerChains OptimizerInv OptimizerSteps OptimizerHandlers OptimizerSweep OptimizerGC OptimizerLoops.

(** The chain of deleted objects: only the links forward matter. *)
Fixpoint queue_rep (h : heap) (p : ptr) (l : list loc) : Prop :=
  match l with
  | [] => p = None
  | x :: l => p = Some x /\ exists next, next_of opt_chain h x = Some next /\ queue_rep h next l
  end.

Lemma queue_rep_frame h h' l : forall p, (forall y, y ∈ l -> h' !! y = h !! y) -> queue_rep h p l -> queue_rep h' p l.
Proof.
  induction l as [|x l IH]; intros p Hy; [done|]. cbn. intros (-> & next & Hn & Hl). split; [done|]. exists next. split.
  - unfold next_of in *. by rewrite Hy by left.
  - apply IH; [|done]. intros y Hin. apply Hy. by right.
Qed.

Section Free.
Context {C : Type} `{Hooks C} (T : hash_object_type_t) (config_ok : C -> Prop) `{!HooksLaws T config_ok}.
Implicit Types s : Optimizer C.
Abbreviation opt_ok := (opt_ok T config_ok).

(** Links of an object that is in no chain may be used for something else. *)
Lemma chains_keep s L x o' : chains_ok s L -> x ∉ concat L -> chains_ok (with_heap s (<[x := o']> (o_heap s))) L.
Proof.
  intros (Hall & Hrest) Hx. split; [|exact Hrest]. cbn. apply Forall2_same_length_lookup. split; [by eapply Forall2_length|].
  intros i ch l Hch Hl. destruct (Forall2_lookup_lr _ _ _ _ _ _ Hall Hch Hl) as [[Hd Hla] Hn]. split; [|done]. split; [|done].
  eapply dlist_frame; [|exact Hd]. intros y Hy. unfold prev_of, next_of. rewrite lookup_insert_ne; [done|]. intros ->. by apply Hx; eapply elem_concat.
Qed.

Lemma change_some s x f o : object s x = Some o -> change s x f = Some (with_heap s (<[x := f o]> (o_heap s))).
Proof. intros Ho. unfold change. by rewrite (update_ok _ _ _ _ Ho). Qed.

Lemma cores_relink s x f o : object s x = Some o -> core (f o) = core o -> cores (with_heap s (<[x := f o]> (o_heap s))) = cores s.
Proof. intros Ho E. unfold cores. cbn. rewrite fmap_insert, E, insert_id; [done|]. unfold object in Ho. by rewrite lookup_fmap, Ho. Qed.

Lemma opt_ok_relink s L x f o : opt_ok s L -> x ∉ concat L -> object s x = Some o -> core (f o) = core o -> opt_ok (with_heap s (<[x := f o]> (o_heap s))) L.
Proof.
  intros [] Hx Ho E. split; try done; [by apply chains_keep|]. by rewrite (cores_relink s x f o).
Qed.

Section Sweeps.
Context (min_size : Z) (s0 : Optimizer C) (L0 : list (list loc)).

(** Nobody stays who could go. *)
Definition free_stays (used : Z) (y : loc) : Prop := False.
Definition free_takes (used : Z) (y : loc) : bool := m_used_size (o_memory s0) - used <? min_size.

Abbreviation free_sweep := (sweep T config_ok s0 L0 free_stays free_takes).

Lemma free_stays_mono u u' y : u' <= u -> free_stays u y -> free_stays u' y.
Proof. done. Qed.

Lemma sweep_relink s L ev P R x f o : free_sweep s L ev P R -> x ∈ ev -> object s x = Some o -> core (f o) = core o -> is_locked (f o) = is_locked o ->
  free_sweep (with_heap s (<[x := f o]> (o_heap s))) L ev P R.
Proof.
  intros Hsw Hx Ho E El. assert (HxL : x ∉ concat L). { rewrite (w_list _ _ _ _ _ _ _ _ _ _ _ Hsw), without_elem. tauto. }
  destruct Hsw. pose proof (cores_relink s x f o Ho E) as Ec. split; try done.
  - by apply opt_ok_relink.
  - intros y Hy. rewrite Ec. by apply w_cores.
  - intros y Hy. cbn. destruct (decide (y = x)) as [->|Hne]; [|rewrite lookup_insert_ne by done; by apply w_dead].
    rewrite lookup_insert_eq. exists (f o). split; [done|]. destruct (w_dead x Hy) as (o1 & Ho1 & Hd & Hlo). unfold object in Ho. rewrite Ho in Ho1. injection Ho1 as <-.
    split; [by eapply dead_core|congruence].
  - intros y Hy He. apply (w_done y Hy). rewrite <- He. symmetry. apply evictable_ext; [by rewrite Ec|done].
Qed.

(** A turn of the loop. *)
Lemma free_body_ok s L ev P x R deleted : free_sweep s L ev P (x :: R) -> evictable s x = true ->
  bytes_of (cores s0) ev < min_size ->
  exists o s1 o1 s2 s3 s4, cores s0 !! x = Some (core o) /\ guard_lock s x = Some s1 /\ object s1 x = Some o1 /\ deletedb o1 = false /\ has_readers o1 = false /\
    evict s1 (head R) x = Some (s2, live_size o) /\ change s2 x (fun o => with_opt_links o (pho_opt_prev (ho_payload o)) deleted) = Some s3 /\
    guard_unlock s3 x = Some s4 /\ chains_ok s3 (removed x L) /\ o_posted s4 = o_posted s /\ free_sweep s4 (removed x L) (ev ++ [x]) P R /\
    next_of opt_chain (o_heap s4) x = Some deleted /\ (forall y, y ∈ ev -> o_heap s4 !! y = o_heap s !! y).
Proof.
  intros Hsw He Hmin. assert (Ht : free_takes (m_used_size (o_memory s)) x = true).
  { unfold free_takes. rewrite (w_used _ _ _ _ _ _ _ _ _ _ _ Hsw). apply Z.ltb_lt. lia. }
  destruct (sweep_lock T config_ok s0 L0 _ _ s L ev P x R Hsw He) as (o & s1 & o1 & Ho & Hlo & Hre & Hde & Hli & Hc0 & E1 & Eu & Hv & Ho1 & Ec & Hre1 & Hde1 & Hli1).
  destruct (sweep_tail _ _ _ _ _ _ _ _ _ _ _ _ Hsw) as [_ Hnext]. pose proof (w_ok _ _ _ _ _ _ _ _ _ _ _ Hsw) as Hok.
  destruct (evict_ok T config_ok s L x o s1 (head R) Hok Ho Hli Hre Hnext Hv) as (s2 & o2 & p & m & E2 & Hv2 & Hp & Hd & Hlo2 & Hm & Hmax).
  destruct (view_object _ _ _ _ _ _ _ _ Hv2) as (o3 & Ho3 & Ec3). set (f := fun o => with_opt_links o (pho_opt_prev (ho_payload o)) deleted).
  assert (Hx : x ∉ concat (removed x L)) by (rewrite removed_elem; tauto).
  assert (Hv3 : view s x (with_heap s2 (<[x := f o3]> (o_heap s2))) (removed x L) o2 p (o_total_num_objects s - 1) m).
  { pose proof (cores_relink s2 x f o3 Ho3 eq_refl) as Ecr. pose proof (chains_keep s2 _ x (f o3) (v_chains _ _ _ _ _ _ _ _ Hv2) Hx) as Hch. destruct Hv2.
    split; try done; [by rewrite Ecr|]. intros y Hy Hy'. cbn. rewrite lookup_insert_ne by done. by apply v_frame. }
  pose proof (view_change _ _ _ _ _ _ _ _ _ Hv3 keeps_unlock) as (s4 & E4 & Hv4).
  assert (Hev : evicted T config_ok s L x o s4). { eapply view_evicted; [done..|by apply dead_unlock|apply unlock_unlocked|done|done]. }
  exists o, s1, o1, s2, (with_heap s2 (<[x := f o3]> (o_heap s2))), s4. split_and!; try done.
  - by apply change_some.
  - apply Hv3.
  - apply Hev.
  - by eapply (sweep_evict T config_ok s0 L0 free_stays free_takes free_stays_mono).
  - erewrite change_some in E4 by apply lookup_insert_eq. injection E4 as <-. unfold next_of. cbn. by rewrite lookup_insert_eq.
  - intros y Hy. apply (e_frame _ _ _ _ _ _ _ Hev).
    + intros ->. destruct (sweep_at T config_ok s0 L0 _ _ s L ev P x R Hsw He) as (? & ? & ? & ? & _ & _ & _ & _ & _ & ? & _). done.
    + rewrite (w_list _ _ _ _ _ _ _ _ _ _ _ Hsw), without_elem. tauto.
Qed.

(** No more is evicted than it takes. *)
Definition frugal (ev : list loc) : Prop := forall k x, ev = k ++ [x] -> bytes_of (cores s0) k < min_size.

Lemma free_loop_ok : opt_ok s0 L0 -> forall fuel s L ev P R next pho deleted freed,
  free_sweep s L ev P R -> found s R next pho -> (length R <= fuel)%nat -> o_posted s = o_posted s0 -> freed = bytes_of (cores s0) ev ->
  queue_rep (o_heap s) deleted (rev ev) -> frugal ev ->
  exists s' L' ev' P' R' deleted', free_loop fuel min_size freed s next pho deleted = Some (s', deleted') /\ free_sweep s' L' ev' P' R' /\
    o_posted s' = o_posted s0 /\ queue_rep (o_heap s') deleted' (rev ev') /\ frugal ev' /\ (R' = [] \/ min_size <= bytes_of (cores s0) ev').
Proof.
  intros Hok0. induction fuel as [|fuel IH]; intros s L ev P R next pho deleted freed Hsw Hf Hlen Hpo Hfr Hq Hfg;
    destruct (sweep_found _ _ _ _ _ _ _ _ _ _ _ _ _ Hsw Hf) as [[-> Hend]|(x & R' & P' & -> & -> & He & Hsw' & Hle)].
  1,3: exists s, L, ev, (P ++ R), [], deleted; by split_and!; try done; left.
  - cbn in Hle. lia.
  - cbn [length] in Hle. cbn [free_loop]. destruct (freed <? min_size) eqn:Emin.
    2: { exists s, L, ev, P', (x :: R'), deleted. split_and!; try done. right. zbool. lia. }
    destruct (free_body_ok s L ev P' x R' deleted Hsw' He ltac:(zbool; lia)) as (o & s1 & o1 & s2 & s3 & s4 & Hc0 & -> & Ho1 & Hde & Hre & E2 & E3 & E4 & Hch & Hpo4 & Hsw4 & Hn & Hfr4).
    cbn [mbind option_bind]. rewrite Ho1. cbn [mbind option_bind]. rewrite clear_deleted_flag, Hde, Hre. cbn [negb andb]. rewrite E2. cbn [mbind option_bind].
    rewrite E3. cbn [mbind option_bind]. destruct (sweep_tail _ _ _ _ _ _ _ _ _ _ _ _ Hsw') as [HxR _].
    destruct (sweep_next _ _ _ _ _ _ _ _ _ _ _ s3 x Hsw4 E4 Hch HxR) as (next & pho & -> & Hf'). cbn [mbind option_bind]. rewrite E4. cbn [mbind option_bind].
    eapply IH; [done..|lia|congruence| | |].
    + pose proof (bytes_of_snoc _ ev _ _ Hc0) as Hsn. change (live_size (core o)) with (live_size o) in Hsn. rewrite Hsn, Hfr. apply u64_small.
      pose proof (sweep_used T config_ok s0 L0 _ _ _ _ _ _ _ Hsw4 Hok0) as Hu. rewrite (w_used _ _ _ _ _ _ _ _ _ _ _ Hsw4), Hsn in Hu.
      pose proof (h_used _ _ _ _ (ok_heap _ _ _ _ Hok0)) as Hu0. unfold is_u64. lia.
    + rewrite rev_unit. cbn [queue_rep]. split; [done|]. exists deleted. split; [done|]. eapply queue_rep_frame; [|exact Hq].
      intros y Hy. apply Hfr4. apply list_elem_of_In, in_rev. by apply list_elem_of_In.
    + intros k y E. apply app_inj_tail in E as [<- <-]. rewrite <- Hfr. by zbool.
Qed.

(** Handing over: the objects go in the order of the chain. *)
Lemma hand_over_ok ev L P R : forall l fuel s p, free_sweep s L ev P R -> queue_rep (o_heap s) p l -> NoDup l -> l ⊆ ev -> (length l <= fuel)%nat ->
  exists s', hand_over fuel s p = Some s' /\ free_sweep s' L ev P R /\ o_posted s' = o_posted s ++ l.
Proof.
  induction l as [|x l IH]; intros fuel s p Hsw Hq Hnd Hsub Hlen; cbn [queue_rep] in Hq.
  - subst p. exists s. split; [by destruct fuel|]. by rewrite app_nil_r.
  - destruct Hq as (-> & next & Hn & Hq). destruct fuel as [|fuel]; [cbn in Hlen; lia|]. cbn [hand_over]. apply NoDup_cons in Hnd as [Hx Hnd].
    destruct (w_dead _ _ _ _ _ _ _ _ _ _ _ Hsw x) as (o & Ho & Hd & Hlo); [set_solver|]. assert (Ho' : object s x = Some o) by exact Ho. rewrite Ho'. cbn [mbind option_bind].
    rewrite (change_some s x _ o Ho). cbn [mbind option_bind]. set (o' := with_opt_links o (pho_opt_prev (ho_payload o)) None).
    unfold object. cbn [o_heap with_heap]. rewrite lookup_insert_eq. cbn [mbind option_bind].
    destruct (dead_core T o o' eq_refl Hd) as [D1 D2 D3 D4 D5 D6].
    rewrite (law_delete (T := T) (config_ok := config_ok) o') by done. cbn [mbind option_bind].
    unfold next_of in Hn. rewrite Ho in Hn. injection Hn as Hn. cbn [l_next opt_chain] in Hn. rewrite Hn.
    destruct (IH fuel (post (with_heap s (<[x := o']> (o_heap s))) x) next) as (s' & E & Hsw' & Hpo).
    + apply sweep_post. apply (sweep_relink s L ev P R x (fun o => with_opt_links o (pho_opt_prev (ho_payload o)) None) o Hsw); [set_solver|done..].
    + eapply queue_rep_frame; [|exact Hq]. intros y Hy. cbn. rewrite lookup_insert_ne; [done|]. by intros ->.
    + done.
    + set_solver.
    + cbn in Hlen. lia.
    + exists s'. split; [exact E|]. split; [done|]. rewrite Hpo. cbn. by rewrite <- app_assoc.
Qed.

End Sweeps.
End Free.
