(* ===== verification/OptimizerOk.v ===== *)
(** * OptimizerOk

    The contract of an optimizer, and that [Optimizer::process_message] and the first pass of
    [Optimizer::run] keep it, for any class derived from [Optimizer] that keeps the contract of the
    virtual methods; [SessionOptimizer] and [PageOptimizer] do. *)

From S2P Require Import Prelude Protocol Memory DList DChain HashObject Optimizer OptimizerHooks OptimizerChains OptimizerInv OptimizerSteps OptimizerHandlers OptimizerSweep OptimizerGC OptimizerLoops OptimizerFree.

(** ** The derived classes *)

Definition session_config_ok (c : SessionConfig) : Prop :=
  length (so_first_write_lifetimes c) = 4%nat /\ length (so_first_write_nums c) = 4%nat /\
  length (so_default_lifetimes c) = 4%nat /\ length (so_read_extra_lifetimes c) = 4%nat.

Definition page_config_ok (c : PageConfig) : Prop :=
  length (po_default_lifetimes c) = 4%nat /\ length (po_read_extra_lifetimes c) = 4%nat /\ length (po_max_lifetimes c) = 4%nat.

Lemma per_agent_some l ua : length l = 4%nat -> (ua_index ua < 4)%nat -> exists n, per_agent l ua = Some n.
Proof. intros Hl Hua. unfold per_agent. apply lookup_lt_is_Some_2. lia. Qed.

Lemma hook_assert_ok T o : is_locked o = true -> deletedb o = false -> linkedb o = true -> (ua_index (get_user_agent o) < 4)%nat -> get_type o = T ->
  hook_assert T o = Some tt.
Proof.
  intros Hlo Hde Hli Hua Hty. unfold hook_assert. rewrite Hlo, clear_deleted_flag, Hde, set_linked_flag, Hli, (proj2 (Nat.ltb_lt _ _) Hua).
  by rewrite bool_decide_true.
Qed.

Lemma retimed_refl o : retimed o o.
Proof. exists (pho_exp_time (ho_payload o)), (pho_count (ho_payload o)). by destruct o as [? ? ? ? ? ? ? ? ? []]. Qed.

Lemma retimed_expiration o t : retimed o (set_expiration_time o t).
Proof. by exists t, (pho_count (ho_payload o)). Qed.

Lemma extend_lifetime_ok env extra mode o : length extra = 4%nat -> (ua_index (get_user_agent o) < 4)%nat ->
  exists o', extend_lifetime env extra mode o = Some o' /\ retimed o o'.
Proof.
  intros Hl Hua. unfold extend_lifetime. destruct (per_agent_some extra (get_user_agent o) Hl Hua) as (n & ->). cbn [mbind option_bind].
  destruct (match mode with EM_LRU | EM_STRICT_LRU => true | _ => _ end); [|exists o; split; [done|apply retimed_refl]].
  eexists. split; [done|]. destruct (_ <? _); [apply retimed_expiration|apply retimed_refl].
Qed.

Lemma gc_assert_ok T mode o : is_locked o = true -> deletedb o = false -> expires mode = true -> get_type o = T -> gc_assert T mode o = Some tt.
Proof. intros Hlo Hde Hex Hty. unfold gc_assert. by rewrite Hlo, clear_deleted_flag, Hde, Hex, bool_decide_true. Qed.

Lemma session_lifetime_ok c ua n : session_config_ok c -> (ua_index ua < 4)%nat -> exists t, session_lifetime c ua n = Some t.
Proof.
  intros (H1 & H2 & H3 & H4) Hua. unfold session_lifetime.
  destruct (per_agent_some _ ua H1 Hua) as (a & ->), (per_agent_some _ ua H2 Hua) as (b & ->), (per_agent_some _ ua H3 Hua) as (d & ->).
  cbn [mbind option_bind]. repeat destruct (_ =? _); repeat destruct (_ <? _); by eexists.
Qed.

#[export] Instance session_laws : HooksLaws HOT_SESSION_OBJECT session_config_ok.
Proof.
  split; cbn [on_write on_read on_delete on_gc on_message handles_touch on_touch session_hooks].
  - intros env c o lifetime Hc Hlo Hde Hli Hua Hty. unfold session_on_write. rewrite hook_assert_ok by done. cbn [mbind option_bind].
    destruct (bool_decide (get_user_agent o = UA_USER) && _).
    + destruct (negb _); eexists; (split; [done|apply retimed_expiration]).
    + destruct (session_lifetime_ok c (get_user_agent o) (pho_count (ho_payload o)) Hc Hua) as (t & ->). cbn [mbind option_bind].
      eexists. split; [done|]. by eexists _, _.
  - intros env c mode o Hc Hlo Hde Hli Hua Hty. unfold session_on_read. rewrite hook_assert_ok by done. cbn [mbind option_bind].
    destruct (0 <? _); [apply extend_lifetime_ok; [apply Hc|done]|]. exists o. split; [done|apply retimed_refl].
  - done.
  - intros o Hlo Hde Hli H7 Hty. unfold session_on_delete. by rewrite Hlo, set_deleted_flag, Hde, clear_linked_flag, Hli, bool_decide_true.
  - intros env c mode o seconds Hlo Hde Hex Hty. unfold session_on_gc. rewrite gc_assert_ok by done. by eexists.
  - intros c c' msg Hc Hm. destruct msg; try done; cbn in Hm; unfold ua_slots in Hm; destruct (length values =? 4)%nat eqn:E; try done;
      apply Nat.eqb_eq in E; cbn in Hm; injection Hm as <-; unfold session_config_ok, page_config_ok in *; cbn; tauto.
  - done.
Qed.

Lemma clear_deleted_linked o : linkedb o = false -> Z.testbit (ho_flags o) 7 = false -> flags_are_clear o (Z.lor HOF_DELETED HOF_LINKED_BY_OPTIMIZER) = true.
Proof.
  intros Hli H7. unfold flags_are_clear. apply Z.eqb_eq. rewrite Z.land_lor_distr_r.
  pose proof (flags_clear_bit o 7 ltac:(lia)) as E7. pose proof (clear_linked_flag o) as E2. rewrite H7 in E7. rewrite Hli in E2.
  unfold flags_are_clear in E7, E2. cbn [negb] in *. apply Z.eqb_eq in E7, E2. change (2 ^ 7) with HOF_DELETED in E7. by rewrite E7, E2.
Qed.

#[export] Instance page_laws : HooksLaws HOT_PAGE_OBJECT page_config_ok.
Proof.
  split; cbn [on_write on_read on_delete on_gc on_message handles_touch on_touch page_hooks].
  - intros env c o lifetime (H1 & H2 & H3) Hlo Hde Hli Hua Hty. unfold page_on_write. rewrite hook_assert_ok by done. cbn [mbind option_bind].
    destruct (negb _); [|eexists; split; [done|apply retimed_expiration]].
    destruct (per_agent_some _ _ H1 Hua) as (a & ->), (per_agent_some _ _ H3 Hua) as (b & ->).
    destruct (lifetime =? MAX_TIMESTAMP_VAL); cbn [mbind option_bind]; eexists; (split; [done|apply retimed_expiration]).
  - intros env c mode o (H1 & H2 & H3) Hlo Hde Hli Hua Hty. unfold page_on_read. rewrite hook_assert_ok by done. cbn [mbind option_bind].
    destruct (negb _); [by apply extend_lifetime_ok|]. exists o. split; [done|apply retimed_refl].
  - intros env c o lifetime _ (H1 & H2 & H3) Hua. unfold page_on_touch. destruct (negb _); [|exists o; split; [done|apply retimed_refl]].
    destruct (per_agent_some _ _ H3 Hua) as (b & ->). cbn [mbind option_bind]. eexists. split; [done|apply retimed_expiration].
  - intros o Hlo Hde Hli H7 Hty. unfold page_on_delete. rewrite Hlo, set_deleted_flag, Hde, clear_deleted_linked, bool_decide_true by done. done.
  - intros env c mode o seconds Hlo Hde Hex Hty. unfold page_on_gc. rewrite gc_assert_ok by done. by eexists.
  - intros c c' msg Hc Hm. destruct msg; try done; cbn in Hm; unfold ua_slots in Hm; destruct (length values =? 4)%nat eqn:E; try done;
      apply Nat.eqb_eq in E; cbn in Hm; injection Hm as <-; unfold session_config_ok, page_config_ok in *; cbn; tauto.
  - done.
Qed.

Lemma session_defaults_ok : session_config_ok so_defaults.
Proof. done. Qed.
Lemma page_defaults_ok : page_config_ok po_defaults.
Proof. done. Qed.

(** ** The contract *)

(** What the optimizer's thread does: it handles a message, makes the iterator ready before
    the first run, makes the first pass of [run], or has the iterator yield an object in the second one. *)
Inductive turn := Message (msg : OptimizerMessage) | Prepare | Pass | CheckNext.

Section Contract.
Context {C : Type} `{Hooks C} (T : hash_object_type_t) (config_ok : C -> Prop).
Implicit Types s : Optimizer C.

Definition take_turn (env : Env) s (t : turn) : option (Optimizer C) :=
  match t with
  | Message msg => process_message env s msg
  | Prepare => Some (prepare_next_object s)
  | Pass => run_quota_pass env s
  | CheckNext => snd <$> next_to_check s
  end.









End Contract.

Section Proofs.
Context {C : Type} `{Hooks C} (T : hash_object_type_t) (config_ok : C -> Prop) `{!HooksLaws T config_ok}.
Implicit Types s : Optimizer C.
Abbreviation opt_ok := (opt_ok T config_ok).














(** ** The theorem *)


End Proofs.

(** ** A run *)

Definition example_page (name : Z) : HashObject :=
  mkHashObject None None None None (1000 + name) 200 [name] (Z.lor HOF_PAYLOAD HOF_FPC) 0
    (mkPayloadFields (Buffer (repeat 7 10)) None None 10 10 0 0 0 0 UA_UNKNOWN 0).

Definition example_optimizer : Optimizer PageConfig := {|
  o_heap := <[1%positive := example_page 1]> (<[2%positive := example_page 2]> (<[3%positive := example_page 3]> ∅));
  o_chain := repeat new_chain 4;
  o_next_object := None;
  o_memory := mkMemory DEFAULT_QUOTA 1000 DOMAIN_FPC;
  o_total_num_objects := 0;
  o_eviction_mode := EM_EXPIRATION_LRU;
  o_config := po_defaults;
  o_posted := [];
  o_requeued := [];
|}.

Definition example_env (now : Z) : Env := {| e_now := now; e_global := mkMemory DEFAULT_QUOTA 1000 DOMAIN_GLOBAL; e_other_used := 0 |}.

Definition example_writes : list turn := map (fun x => Message (OR_WRITE x UA_USER 10)) [1; 2; 3]%positive.

Definition run_turns {C} `{Hooks C} (env : Env) (s : Optimizer C) (l : list turn) : option (Optimizer C) :=
  foldl (fun s t => s ← s; take_turn env s t) (Some s) l.

(** Three pages are written, and the first one is read. When they have expired, garbage
    collection takes the second and the third page, and keeps the number of objects to be
    retained. A request for ten bytes takes but one. *)
Example optimizer_run :
  (s ← run_turns (example_env 1000) example_optimizer (example_writes ++ [Message (OR_READ 1%positive UA_USER)]);
   s1 ← take_turn (example_env 2000) s (Message (OR_GC 0));
   s2 ← take_turn (example_env 2000) s (Message (OR_FREE_MEMORY 10));
   Some (map oc_first (o_chain s), (o_posted s1, m_used_size (o_memory s1), map oc_num (o_chain s1)),
     (o_posted s2, m_used_size (o_memory s2), map oc_num (o_chain s2)))) =
  Some ([None; None; None; Some 2%positive], ([2; 3]%positive, 980, [0; 0; 0; 1]), ([2]%positive, 990, [0; 0; 0; 2])).
Proof. vm_compute. reflexivity. Qed.


