(* ===== verification/StoreCommands.v ===== *)
(** * StoreCommands

    What the handlers of commands in the session and the page store have in common
    ([ht_session_store.cc], [ht_page_store.cc], [ht_shared_buffers.cc], [TableLock] of [ht_stores.*]): looking
    an object up by name, creating one, moving the payload of a command into it,
    attaching a response to it, and giving it up for deletion.

    Connection threads run handlers concurrently. A handler is cut into sections at the
    points where it waits: for the lock of a table, for the lock of an object, for readers
    to detach. A section is a function of the state of the store; it is taken when what
    it waits for has come true, so to find a lock taken is [None], like a failed assertion.
    Mutual exclusion of the locks themselves is the subject of [Mutexes] and [Locks]. *)

From S2P Require Import Prelude Protocol Memory Buffers ChunkIterator Accessors CommandIO DList HashObject HashTable ObjectStore Tags Optimizer.

(** ** State *)

(** The answer to a command; an object that is sent stays attached to the response. *)
Inductive answer :=
| OkAnswer
| FormatErrorAnswer
| InternalErrorAnswer
| NoEntryAnswer (id : bytes)
| ObjectAnswer (x : loc) (buffer : payload_buffer) (usize compressor : Z)
| NumberAnswer (n : Z).

Inductive store_event :=
| Answer (a : answer)
| ToOptimizer (m : OptimizerMessage)
| ToTagManager (cr : ReaderWriter) (x : loc).

(** A store, what it has posted, and the fields of [SessionObject] that are not in
    [HashObject]: the waiting threads and the request that holds the session lock. *)
Record command_store := mkCommandStore {
  cs_objects : PayloadObjectStore;
  cs_sessions : gmap loc (Z * Z);
  cs_posted : list store_event;
}.

Definition cs_heap (st : command_store) : heap := ps_heap (cs_objects st).
Definition cs_memory (st : command_store) : Memory := ps_memory (cs_objects st).

Definition with_store (st : command_store) (ps : PayloadObjectStore) : command_store :=
  mkCommandStore ps (cs_sessions st) (cs_posted st).
Definition with_objects (st : command_store) (h : heap) (m : Memory) : command_store :=
  with_store st (ps_with_objects (cs_objects st) h m).
Definition with_object (st : command_store) (x : loc) (o : HashObject) : command_store :=
  with_objects st (<[x := o]> (cs_heap st)) (cs_memory st).
Definition with_session (st : command_store) (x : loc) (s : Z * Z) : command_store :=
  mkCommandStore (cs_objects st) (<[x := s]> (cs_sessions st)) (cs_posted st).
Definition post_event (st : command_store) (e : store_event) : command_store :=
  mkCommandStore (cs_objects st) (cs_sessions st) (cs_posted st ++ [e]).

(** [post_ok_response] and the error responses: commands loaded from a binlog get no answer. *)
Definition post_answer (st : command_store) (cr : ReaderWriter) (a : answer) : command_store :=
  if is_set cr IO_FLAG_NETWORK then post_event st (Answer a) else st.

Definition notify (st : command_store) (m : OptimizerMessage) : command_store := post_event st (ToOptimizer m).

(** Locks of objects. *)
Definition lock_at (st : command_store) (x : loc) : option command_store :=
  o ← cs_heap st !! x;
  _ ← c3_assert (negb (is_locked o));
  Some (with_object st x (lock_object o)).
Definition unlock_at (st : command_store) (x : loc) : option command_store :=
  o ← cs_heap st !! x;
  Some (with_object st x (unlock_object o)).

(** ** Readers of objects *)

Definition with_semaphore (o : HashObject) (s : Z) : HashObject :=
  let p := ho_payload o in
  ho_with_payload o (mkPayloadFields (pho_buffer p) (pho_opt_prev p) (pho_opt_next p) (pho_size p) (pho_usize p)
    (pho_mod_time p) (pho_exp_time p) s (pho_count p) (pho_opt_useragent p) (pho_opt_comp p)).

Definition has_buffer (o : HashObject) : bool :=
  match pho_buffer (ho_payload o) with NoBuffer => false | _ => true end.

Definition register_reader (o : HashObject) : option HashObject :=
  let p := ho_payload o in
  _ ← c3_assert (is_locked o && flags_are_clear o HOF_BEING_DELETED && has_buffer o && (pho_size p <=? pho_usize p));
  Some (with_semaphore o (u32 (pho_semaphore p + 1))).

Definition unregister_reader (o : HashObject) : option HashObject :=
  let p := ho_payload o in
  _ ← c3_assert (has_buffer o && (pho_size p <=? pho_usize p) && has_readers o);
  Some (with_semaphore o (u32 (pho_semaphore p - 1))).

(** The call returns when there are no readers; it leaves 0, which is what
    [Semaphore.semaphore_prompt] shows of it. *)
Definition wait_until_no_readers (o : HashObject) : option HashObject :=
  _ ← c3_assert (is_locked o && flags_are_clear o HOF_BEING_DELETED);
  if has_readers o then None else Some (with_semaphore o 0).

(** [SharedObjectBuffers::is_usable] *)
Definition is_usable (o : HashObject) : bool := is_locked o && flags_are_clear o HOF_BEING_DELETED.

(** [SharedObjectBuffers::attach_payload], of buffers without a payload. *)
Definition attach_payload (o : HashObject) : option HashObject :=
  _ ← c3_assert (is_usable o);
  register_reader o.

(** [SharedObjectBuffers::transfer_payload]: the payload of the buffers of a command
    becomes the buffer of the object; they stay attached to it as a reader. *)
Definition transfer_payload (sb : SharedBuffers) (o : HashObject) (m : Memory) (usize compressor : Z)
  : option (SharedBuffers * HashObject * Memory) :=
  let size := db_size (sb_payload sb) in
  _ ← c3_assert (is_usable o && negb (has_readers o) && (size <=? usize));
  '(o, m) ← set_buffer o compressor size usize (db_bytes (sb_payload sb)) m;
  o ← register_reader o;
  if negb (size =? 0) then
    '(m, from) ← transfer_used_size m (sb_memory sb) size;
    d ← db_reset (sb_payload sb);
    Some (with_payload (Buffers.with_memory sb from) d, o, m)
  else Some (sb, o, m).

Definition command_reader_transfer_payload (cr : ReaderWriter) (o : HashObject) (m : Memory) (usize compressor : Z)
  : option (ReaderWriter * HashObject * Memory) :=
  _ ← c3_assert (is_set cr IO_FLAG_IS_READER && is_clear cr IO_FLAG_IS_RESPONSE);
  '(sb, o, m) ← transfer_payload (rw_sb cr) o m usize compressor;
  Some (rw_with_sb cr sb, o, m).

(** [try_dispose_buffer] *)
Definition try_dispose (o : HashObject) (m : Memory) : option (HashObject * Memory) :=
  if negb (has_readers o) then '(_, o, m) ← dispose_buffer o m; Some (o, m) else Some (o, m).

(** ** Objects of a store *)

Section Store.

(** [table_hasher]: one of several third-party hash functions. *)
Context (hash : bytes -> Z) `{NewLocs}.

(** What distinguishes the stores: the flags and the fixed size of their objects. *)
Context (type_flags sizeof : Z).

(** The constructor of [PayloadHashObject]. *)
Definition new_payload (now : Z) : PayloadFields :=
  mkPayloadFields NoBuffer None None 0 0 now MAX_TIMESTAMP 0 0 UA_NUMBER_OF_ELEMENTS CT_NUMBER_OF_ELEMENTS.

Definition table_of (st : command_store) (id : bytes) : option nat :=
  i ← get_table_index (cs_objects st) (hash id);
  Some (Z.to_nat i).

(** [table.find(hash, name, length)] under a shared lock on the table. *)
Definition find_object (st : command_store) (id : bytes) : option ptr :=
  i ← table_of st id;
  found (cs_objects st) i (hash id) id.

(** The object of the name, if it is not being deleted. *)
Definition find_live (st : command_store) (id : bytes) : option ptr :=
  p ← find_object st id;
  match p with
  | None => Some None
  | Some x =>
      o ← cs_heap st !! x;
      Some (if flags_are_clear o HOF_BEING_DELETED then Some x else None)
  end.

(** Allocation and construction of an object, and its lock; it is not in the table yet. *)
Definition create_object (now : Z) (st : command_store) (id : bytes) : option (loc * command_store) :=
  let size := sizeof + zlen id in
  m ← alloc (cs_memory st) size;
  o ← ho_create (hash id) type_flags id size (new_payload now);
  x ← head (new_locs (dom (cs_heap st)) 1);
  Some (x, with_objects st (<[x := lock_object o]> (cs_heap st)) m).

(** [upgrade_lock], [add] and [downgrade_lock], which disposes of deleted objects: one step, as
    the lock on the table is exclusive in between. *)
Definition add_object (st : command_store) (id : bytes) (x : loc) : option command_store :=
  i ← table_of st id;
  let ps := cs_objects st in
  t ← os_tables ps !! i;
  '(resized, t, h, m) ← ht_add (ps_store ps) t (ps_heap ps) (ps_memory ps) x;
  '(_, ps) ← process_deleted_objects (ps_with_objects (ps_with_table ps i t) h m) (Z.of_nat i) false resized;
  Some (with_store st ps).

(** The end of [destroy_session_record], of [remove_fpc_record], and the deletion of an expired session: the
    object is marked and loses its buffer unless it is being read. *)
Definition mark_deleted (st : command_store) (x : loc) : option command_store :=
  o ← cs_heap st !! x;
  '(o, m) ← try_dispose (set_flags o HOF_BEING_DELETED) (cs_memory st);
  Some (with_objects st (<[x := o]> (cs_heap st)) m).

(** The last part of a command that brings a payload, once nobody reads the object [x]. *)
Definition receive_payload (st : command_store) (cr : ReaderWriter) (x : loc) (pi : payload_info_t)
  : option (ReaderWriter * command_store) :=
  o ← cs_heap st !! x;
  '(cr, o, m) ← command_reader_transfer_payload cr o (cs_memory st) (pi_usize pi) (pi_compressor pi);
  Some (cr, with_objects st (<[x := o]> (cs_heap st)) m).

(** [post_data_response] with the object [x]: the response is attached to it as a reader. *)
Definition post_object (st : command_store) (x : loc) : option command_store :=
  o ← cs_heap st !! x;
  o ← attach_payload o;
  let p := ho_payload o in
  Some (post_event (with_object st x o) (Answer (ObjectAnswer x (pho_buffer p) (pho_usize p) (pho_opt_comp p)))).

(** Readers detach without any lock, when their response or command has been sent or disposed of. *)
Definition detach_reader (st : command_store) (x : loc) : option command_store :=
  o ← cs_heap st !! x;
  o ← unregister_reader o;
  Some (with_object st x o).

End Store.

(** ** Arguments of commands *)

(** The conversion to [user_agent_t], a byte, and the check of its range. *)
Definition user_agent_of (n : Z) : option user_agent_t :=
  let n := u8 n in
  if n =? 0 then Some UA_UNKNOWN
  else if n =? 1 then Some UA_BOT
  else if n =? 2 then Some UA_WARMER
  else if n =? 3 then Some UA_USER
  else None.

(** [NumberChunk::get_uint] *)
Definition nc_get_uint (v : Z) : option Z := _ ← c3_assert (nc_is_valid_uint v); Some v.

(** [NumberChunk::get_uint] of a lifetime, where a negative one means the longest. *)
Definition lifetime_of (v : Z) : option Z := if v <? 0 then Some MAX_TIMESTAMP else nc_get_uint v.

(** The name that most commands start with; [None] inside is a format error. *)
Definition read_id (cr : ReaderWriter) : option (option (bytes * ChunkIterator)) :=
  it ← command_header_iterator cr;
  '(id, it) ← get_string (rw_sb cr) it;
  if sc_is_valid_name it id then
    name ← get_chars (rw_sb cr) it id;
    Some (Some (name, it))
  else Some None.

(** A user agent; [check] is the test the handler makes of the number. *)
Definition read_agent (check : Z -> bool) (cr : ReaderWriter) (it : ChunkIterator) : option (option (user_agent_t * ChunkIterator)) :=
  '(agent, it) ← get_number (rw_sb cr) it;
  if check agent then
    n ← nc_get_uint agent;
    Some (match user_agent_of n with Some ua => Some (ua, it) | None => None end)
  else Some None.
