(* ===== verification/SessionStore.v ===== *)
(** * SessionStore

    The handlers of [SessionObjectStore] ([ht_session_store.cc]): the commands [READ], [WRITE],
    [DESTROY] and [GC]. Each is given in the sections between the points where it waits, and
    as a whole, for a thread that need not wait. *)

From S2P Require Import Prelude Protocol Memory Buffers ChunkIterator Accessors CommandIO DList HashObject HashTable ObjectStore Tags SessionLock Optimizer StoreCommands.

(** [sizeof(SessionObject)] *)
Definition SIZEOF_SESSION_OBJECT : Z := 120.

Inductive command_status_t := CS_FORMAT_ERROR | CS_INTERNAL_ERROR | CS_FAILURE | CS_SUCCESS.

(** ** Arguments *)

(** The optional id of the request, which ends the arguments; [None] inside is a format error. *)
Definition read_request_id (cr : ReaderWriter) (it : ChunkIterator) : option (option Z) :=
  type ← get_next_chunk_type (rw_sb cr) it;
  '(request_id, it) ← match type with
    | CHUNK_NUMBER =>
        '(n, it) ← get_number (rw_sb cr) it;
        Some (if nc_is_valid_uint n then Some n else None, it)
    | _ => Some (Some 0, it)
    end;
  Some (if has_more_chunks it then None else request_id).

(** Of [READ]: the id of the session, the user agent, the id of the request. *)
Definition read_arguments (cr : ReaderWriter) : option (option (bytes * user_agent_t * Z)) :=
  r ← read_id cr;
  match r with
  | None => Some None
  | Some (id, it) =>
      r ← read_agent nc_is_valid cr it;
      match r with
      | None => Some None
      | Some (ua, it) =>
          r ← read_request_id cr it;
          Some (match r with Some request_id => Some (id, ua, request_id) | None => None end)
      end
  end.

Record write_args := mkWriteArgs {
  wa_id : bytes;
  wa_ua : user_agent_t;
  wa_lifetime : Z;
  wa_request_id : Z;
  wa_payload : payload_info_t;
}.

(** Of [WRITE]. *)
Definition write_arguments (cr : ReaderWriter) : option (option write_args) :=
  r ← read_id cr;
  match r with
  | None => Some None
  | Some (id, it) =>
      r ← read_agent nc_is_valid_uint cr it;
      match r with
      | None => Some None
      | Some (ua, it) =>
          '(lifetime, it) ← get_number (rw_sb cr) it;
          if nc_is_valid lifetime then
            r ← read_request_id cr it;
            match r with
            | None => Some None
            | Some request_id =>
                lifetime ← lifetime_of lifetime;
                '(ok, pi) ← command_get_payload_info (rw_sb cr);
                if (ok : bool) then
                  _ ← c3_assert (negb (pi_has_errors pi));
                  Some (Some (mkWriteArgs id ua lifetime request_id pi))
                else Some None
            end
          else Some None
      end
  end.

(** Of [DESTROY]. *)
Definition destroy_arguments (cr : ReaderWriter) : option (option bytes) :=
  r ← read_id cr;
  match r with
  | None => Some None
  | Some (id, it) =>
      if has_more_chunks it then Some None
      else payload ← has_payload_data (rw_sb cr); Some (if (payload : bool) then None else Some id)
  end.

(** Of [GC]. *)
Definition gc_arguments (cr : ReaderWriter) : option (option Z) :=
  it ← command_header_iterator cr;
  '(seconds, it) ← get_number (rw_sb cr) it;
  if nc_is_valid_uint seconds && negb (has_more_chunks it) then
    payload ← has_payload_data (rw_sb cr); Some (if (payload : bool) then None else Some seconds)
  else Some None.

Section Handlers.
Context (hash : bytes -> Z) `{NewLocs}.

(** The thread, and [so_lock_wait_time]. *)
Context (t : nat) (lock_wait_time : Z).
Implicit Types (st : command_store).

Definition session_at st (x : loc) : option SessionObject :=
  o ← cs_heap st !! x;
  '(threads, request_id) ← cs_sessions st !! x;
  Some (mkSessionObject o threads request_id).
Definition put_session st (x : loc) (so : SessionObject) : command_store :=
  with_session (with_object st x (so_object so)) x (so_threads so, so_request_id so).

(** ** [READ] *)

(** A section ends with the status of the command, or the thread waits for the session lock. *)
Inductive read_outcome := ReadDone (status : command_status_t) st | ReadWaits (locking_request_id : Z) st.

(** What is done with the result of [lock_session]. *)
Definition read_result st (x : loc) (ua : user_agent_t) (out : lock_outcome) : option read_outcome :=
  match out with
  | Waiting l => st ← unlock_at st x; Some (ReadWaits l st)
  | Returned SLR_DELETED => st ← unlock_at st x; Some (ReadDone CS_FAILURE st)
  | Returned _ =>
      st ← post_object st x;
      st ← unlock_at st x;
      Some (ReadDone CS_SUCCESS (notify st (OR_READ x ua)))
  end.

(** The object has been locked. *)
Definition read_object (now : Z) st (x : loc) (ua : user_agent_t) (request_id : Z) : option read_outcome :=
  o ← cs_heap st !! x;
  if flags_are_clear o HOF_BEING_DELETED then
    if now <=? get_expiration_time o then
      so ← session_at st x;
      '(so, out) ← lock_session lock_wait_time t request_id so;
      read_result (put_session st x so) x ua out
    else
      st ← mark_deleted st x;
      st ← unlock_at st x;
      Some (ReadDone CS_FAILURE (notify st (OR_DELETE x 0)))
  else st ← unlock_at st x; Some (ReadDone CS_FAILURE st).

(** The object has been locked again after a wait. *)
Definition read_resume st (x : loc) (ua : user_agent_t) (request_id locking_request_id : Z) : option read_outcome :=
  so ← session_at st x;
  let '(so, out) := lock_session_resume t request_id locking_request_id so in
  read_result (put_session st x so) x ua out.

Definition finish_command st (cr : ReaderWriter) (status : command_status_t) : command_store :=
  match status with
  | CS_SUCCESS => st
  | CS_FORMAT_ERROR => post_answer st cr FormatErrorAnswer
  | CS_INTERNAL_ERROR => post_answer st cr InternalErrorAnswer
  | CS_FAILURE => post_answer st cr OkAnswer
  end.

(** The whole handler; [None] also if the thread would have to wait. *)
Definition process_read_command (now : Z) st (cr : ReaderWriter) : option command_store :=
  args ← read_arguments cr;
  match args with
  | None => Some (finish_command st cr CS_FORMAT_ERROR)
  | Some (id, ua, request_id) =>
      p ← find_live hash st id;
      match p with
      | None => Some (finish_command st cr CS_FAILURE)
      | Some x =>
          st ← lock_at st x;
          out ← read_object now st x ua request_id;
          match out with
          | ReadDone status st => Some (finish_command st cr status)
          | ReadWaits _ _ => None
          end
      end
  end.

(** ** [WRITE] *)

(** Where the thread of a command is between two sections. *)
Inductive write_point :=
| WStart
| WLock (x : loc)
| WCreate
| WAdd (x : loc)
| WReaders (x : loc)
| WStore (x : loc)
| WDone (x : loc).

Definition write_section (now : Z) (cr : ReaderWriter) (a : write_args) st (p : write_point)
  : option (command_store * write_point) :=
  match p with
  | WStart => p ← find_live hash st (wa_id a); Some (st, match p with Some x => WLock x | None => WCreate end)
  | WLock x =>
      st ← lock_at st x;
      o ← cs_heap st !! x;
      if flags_are_set o HOF_BEING_DELETED then st ← unlock_at st x; Some (st, WCreate)
      else Some (st, WReaders x)
  | WCreate =>
      '(x, st) ← create_object hash HOF_PAYLOAD SIZEOF_SESSION_OBJECT now st (wa_id a);
      Some (with_session st x (0, 0), WAdd x)
  | WAdd x => st ← add_object hash st (wa_id a) x; Some (st, WStore x)
  | WReaders x =>
      o ← cs_heap st !! x;
      o ← wait_until_no_readers o;
      Some (with_object st x o, WStore x)
  | WStore x =>
      o ← cs_heap st !! x;
      _ ← c3_assert (bool_decide (get_type o = HOT_SESSION_OBJECT) && is_locked o);
      '(_, st) ← receive_payload st cr x (wa_payload a);
      let st := post_answer st cr OkAnswer in
      so ← session_at st x;
      '(so, _) ← unlock_session (wa_request_id a) so;
      st ← unlock_at (put_session st x so) x;
      Some (notify st (OR_WRITE x (wa_ua a) (wa_lifetime a)), WDone x)
  | WDone _ => None
  end.

(** No command takes more than five sections. *)
Fixpoint write_sections (fuel : nat) (now : Z) (cr : ReaderWriter) (a : write_args) st (p : write_point)
  : option (command_store * loc) :=
  match p with
  | WDone x => Some (st, x)
  | p =>
      match fuel with
      | O => None
      | S fuel => '(st, p) ← write_section now cr a st p; write_sections fuel now cr a st p
      end
  end.

(** Also the object that the command stays attached to. *)
Definition process_write_command (now : Z) st (cr : ReaderWriter) : option (ptr * command_store) :=
  args ← write_arguments cr;
  match args with
  | None => Some (None, finish_command st cr CS_FORMAT_ERROR)
  | Some a => '(st, x) ← write_sections 5 now cr a st WStart; Some (Some x, st)
  end.

(** ** [DESTROY] and [GC] *)

(** [destroy_session_record] once the object has been locked. *)
Definition destroy_object st (x : loc) : option command_store :=
  o ← cs_heap st !! x;
  if flags_are_clear o HOF_BEING_DELETED then
    st ← mark_deleted st x;
    st ← unlock_at st x;
    Some (notify st (OR_DELETE x 0))
  else unlock_at st x.

Definition destroy_session_record st (id : bytes) : option command_store :=
  p ← find_live hash st id;
  match p with
  | None => Some st
  | Some x => st ← lock_at st x; destroy_object st x
  end.

Definition process_destroy_command st (cr : ReaderWriter) : option command_store :=
  args ← destroy_arguments cr;
  match args with
  | Some id => st ← destroy_session_record st id; Some (post_answer st cr OkAnswer)
  | None => Some (post_answer st cr FormatErrorAnswer)
  end.

Definition process_gc_command st (cr : ReaderWriter) : option command_store :=
  args ← gc_arguments cr;
  Some (match args with
    | Some seconds => post_answer (notify st (OR_GC seconds)) cr OkAnswer
    | None => post_answer st cr FormatErrorAnswer
    end).

(** ** [process_command] *)

(** [ReaderWriter::dispose] of the reader of a command: if nobody else uses its buffers, they
    are detached from the object. *)
Definition dispose_command st (cr : ReaderWriter) (attached : ptr) : option command_store :=
  match attached with
  | Some x => if sb_nrefs (rw_sb cr) =? 1 then detach_reader st x else Some st
  | None => Some st
  end.

Definition process_command (now : Z) st (cr : ReaderWriter) : option command_store :=
  _ ← c3_assert (rw_is_active cr);
  id ← get_command_id cr;
  '(attached, st) ← (
    if id =? command_code CMD_READ then st ← process_read_command now st cr; Some (None, st)
    else if id =? command_code CMD_WRITE then process_write_command now st cr
    else if id =? command_code CMD_DESTROY then st ← process_destroy_command st cr; Some (None, st)
    else if id =? command_code CMD_GC then st ← process_gc_command st cr; Some (None, st)
    else None);
  dispose_command st cr attached.

End Handlers.
