(* ===== verification/StoreOk.v ===== *)
(** * StoreOk

    The invariant of a store of sessions or pages: every table is a well-formed hash table
    of objects of its own, deleted objects wait in the queue of their table, memory is
    accounted for, and the object that is not being deleted is the one that is found under its
    name. The parts of the handlers keep it. *)

From S2P Require Import Prelude Protocol Memory Utils Queue MessageQueue DList HashObject HashTable ObjectStore NameTable Tags Optimizer OptimizerInv StoreCommands.

(** ** The invariant *)

Definition live (o : HashObject) : Prop := flags_are_clear o HOF_BEING_DELETED = true.

#[export] Instance live_dec o : Decision (live o).
Proof. unfold live. apply _. Defined.

(** The bytes of the buckets of all tables. *)
Definition tables_bytes (ts : list HashTable) : Z := foldr (fun t z => ht_nbuckets t * SIZEOF_POINTER + z) 0 ts.

Section Ok.
Context (hash : bytes -> Z).
Hypothesis hash_valid : forall n, valid_name n -> hash n <> INVALID_HASH_VALUE.

(** The type of the objects; the object [busy] may be locked, and need not have a buffer. *)
Context (type : hash_object_type_t).
Hypothesis type_payload : type = HOT_SESSION_OBJECT \/ type = HOT_PAGE_OBJECT.

Record object_ok (ps : PayloadObjectStore) (busy : ptr) (i : nat) (x : loc) (o : HashObject) : Prop := {
  ob_hash : ho_hash o = hash (ho_name o);
  ob_name : valid_name (ho_name o);
  ob_table : get_table_index ps (ho_hash o) = Some (Z.of_nat i);
  ob_type : get_type o = type;
  ob_buffer : buffer_wf (ho_payload o);
  ob_length : 0 < ho_length o;
  ob_live : busy <> Some x -> live o -> has_buffer o = true;
  ob_lock : busy <> Some x -> is_locked o = false;
}.

Record table_ok (ps : PayloadObjectStore) (busy : ptr) (i : nat) (l qs : list loc) : Prop := {
  tb_table : exists t, os_tables ps !! i = Some t /\ ht_rep (ps_store ps) t (ps_heap ps) l;
  tb_queue : exists q, pos_queues ps !! i = Some q /\ holds q qs;
  tb_nodup : NoDup qs;
  tb_queued : forall x, x ∈ qs -> x ∈ l;
  tb_object : forall x, x ∈ l -> exists o, ps_heap ps !! x = Some o /\ object_ok ps busy i x o
    /\ (x ∈ qs -> disposable o (ps_xrefs ps x)) /\ (flags_are_clear o HOF_DELETED = false -> x ∈ qs);
  tb_find : forall x o, x ∈ l -> ps_heap ps !! x = Some o -> live o ->
    found ps i (ho_hash o) (ho_name o) = Some (Some x);
}.

(** [ls]: the objects of each table; [qss]: its queue of deleted objects. No memory is taken by external
    references to tags, which the tag manager allocates. *)
Record store_rep (ps : PayloadObjectStore) (busy : ptr) (ls qss : list (list loc)) : Prop := {
  sr_pow2 : pow2 (os_ntables ps) /\ os_ntables ps <= MAX_NUM_TABLES_PER_STORE;
  sr_fill : fill_ok (ps_store ps);
  sr_quotas : 0 <= pos_dispose_if_resized ps /\ 0 <= pos_dispose_if_not_resized ps;
  sr_xrefs : forall x, ps_xrefs ps x = 0;
  sr_lengths : length ls = length (os_tables ps) /\ length qss = length (os_tables ps);
  sr_table : forall i l qs, ls !! i = Some l -> qss !! i = Some qs -> table_ok ps busy i l qs;
  sr_nodup : NoDup (concat ls);
  sr_heap : forall x, is_Some (ps_heap ps !! x) <-> x ∈ concat ls;
  sr_memory : exists u, 0 <= u /\ m_used_size (ps_memory ps) = u + tables_bytes (os_tables ps) + total (bytes_of ps) (concat ls)
    /\ m_used_size (ps_memory ps) < 2 ^ 62;
}.

Definition store_ok (ps : PayloadObjectStore) (busy : ptr) : Prop := exists ls qss, store_rep ps busy ls qss.

(** ** Looking objects up *)

Lemma rep_object ps busy ls qss x o : store_rep ps busy ls qss -> ps_heap ps !! x = Some o ->
  exists i l qs, ls !! i = Some l /\ qss !! i = Some qs /\ x ∈ l /\ table_ok ps busy i l qs /\ object_ok ps busy i x o
    /\ (x ∈ qs -> disposable o (ps_xrefs ps x)) /\ (flags_are_clear o HOF_DELETED = false -> x ∈ qs).
Proof.
  intros Hr Ho. assert (x ∈ concat ls) as Hx by (apply (sr_heap _ _ _ _ Hr); by eexists).
  apply elem_of_concat in Hx as (i & l & Hl & Hx). destruct (sr_lengths _ _ _ _ Hr) as [L1 L2].
  destruct (lookup_lt_is_Some_2 qss i) as [qs Hq]; [rewrite L2, <- L1; by eapply lookup_lt_Some|].
  pose proof (sr_table _ _ _ _ Hr i l qs Hl Hq) as Ht. destruct (tb_object _ _ _ _ _ Ht x Hx) as (o' & Ho' & Hob). simplify_eq.
  exists i, l, qs. tauto.
Qed.

Lemma get_table_index_ok ps h : pow2 (os_ntables ps) -> h <> INVALID_HASH_VALUE ->
  exists i, get_table_index ps h = Some (Z.of_nat i) /\ (i < length (os_tables ps))%nat.
Proof.
  intros Hp Hh. unfold get_table_index. pose proof (pow2_pos _ Hp) as [? ?].
  destruct (h =? INVALID_HASH_VALUE) eqn:E; zbool; [done|]. destruct (os_ntables ps =? 0) eqn:E'; zbool; [lia|]. cbn.
  rewrite (u32_small (os_ntables ps - 1)) by (unfold is_u32; lia). rewrite pow2_mask by done.
  pose proof (Z.mod_pos_bound (u32 h) (os_ntables ps) ltac:(lia)). exists (Z.to_nat (u32 h mod os_ntables ps)).
  rewrite Z2Nat.id by lia. split; [done|]. unfold os_ntables, zlen in *. lia.
Qed.

Lemma valid_name_nonempty n : valid_name n -> n <> [].
Proof. intros [? _] ->. done. Qed.

(** The table of a name. *)
Lemma table_of_ok st busy ls qss id : store_rep (cs_objects st) busy ls qss -> valid_name id ->
  exists i l qs, table_of hash st id = Some i /\ get_table_index (cs_objects st) (hash id) = Some (Z.of_nat i)
    /\ ls !! i = Some l /\ qss !! i = Some qs /\ table_ok (cs_objects st) busy i l qs.
Proof.
  intros Hr Hv. destruct (get_table_index_ok (cs_objects st) (hash id)) as (i & Hi & Hlt); [apply Hr|by apply hash_valid|].
  destruct (sr_lengths _ _ _ _ Hr) as [L1 L2]. destruct (lookup_lt_is_Some_2 ls i) as [l Hl]; [lia|].
  destruct (lookup_lt_is_Some_2 qss i) as [qs Hq]; [lia|]. exists i, l, qs. unfold table_of. rewrite Hi. cbn.
  rewrite Nat2Z.id. split_and!; try done. by apply (sr_table _ _ _ _ Hr).
Qed.

(** An object that is not being deleted, with its name. *)
Definition is_record (ps : PayloadObjectStore) (id : bytes) (x : loc) : Prop :=
  exists o, ps_heap ps !! x = Some o /\ ho_name o = id /\ live o.

Lemma find_live_ok st busy id : store_ok (cs_objects st) busy -> valid_name id ->
  exists r, find_live hash st id = Some r /\ forall x, r = Some x <-> is_record (cs_objects st) id x.
Proof.
  intros (ls & qss & Hr) Hv. destruct (table_of_ok st busy ls qss id Hr Hv) as (i & l & qs & Hi & Hti & Hl & Hq & Ht).
  destruct (tb_table _ _ _ _ _ Ht) as (t & Htt & Hrep).
  destruct (ht_find_ok (ps_store (cs_objects st)) t (ps_heap (cs_objects st)) l (hash id) id Hrep) as (r & Hf & Hm);
    [by apply hash_valid|by apply valid_name_nonempty|].
  assert (found (cs_objects st) i (hash id) id = Some r) as Hfd by (unfold found; by rewrite Htt).
  unfold find_live, find_object. rewrite Hi. cbn [mbind option_bind]. rewrite Hfd. cbn [mbind option_bind].
  assert (forall x, is_record (cs_objects st) id x -> r = Some x) as Hrec.
  { intros x (o & Ho & Hn & Hlv). destruct (rep_object _ _ _ _ x o Hr Ho) as (j & lj & qj & _ & _ & Hx & Htj & Hob & _ & _).
    pose proof (tb_find _ _ _ _ _ Htj x o Hx Ho Hlv) as Hfx. rewrite (ob_hash _ _ _ _ _ Hob), Hn in Hfx.
    pose proof (ob_table _ _ _ _ _ Hob) as Hj. rewrite (ob_hash _ _ _ _ _ Hob), Hn, Hti in Hj. injection Hj as Hj.
    apply Nat2Z.inj in Hj as ->. congruence. }
  destruct r as [y|]; cycle 1.
  { exists None. split; [done|]. intros x. split; [done|]. intros Hx. by apply Hrec in Hx. }
  destruct Hm as (Hy & oy & Hoy & Hhy & Hny). unfold cs_heap. rewrite Hoy. cbn [mbind option_bind].
  destruct (flags_are_clear oy HOF_BEING_DELETED) eqn:Elv.
  - exists (Some y). split; [done|]. intros x. split; [intros [= <-]; by exists oy|]. intros Hx. by apply Hrec in Hx.
  - exists None. split; [done|]. intros x. split; [done|]. intros Hx. pose proof (Hrec x Hx) as Heq. injection Heq as ->.
    destruct Hx as (o & Ho & _ & Hlv). unfold live in Hlv. congruence.
Qed.

Lemma record_unique ps busy id x y : store_ok ps busy -> is_record ps id x -> is_record ps id y -> x = y.
Proof.
  intros Hok (o & Ho & Hn & Hl) Hy. pose proof Hok as (ls & qss & Hr).
  destruct (rep_object _ _ _ _ x o Hr Ho) as (i & l & qs & _ & _ & _ & _ & Hob & _).
  assert (valid_name id) as Hv by (rewrite <- Hn; apply Hob).
  destruct (find_live_ok (mkCommandStore ps ∅ []) busy id Hok Hv) as (r & _ & Hrr). cbn in Hrr.
  assert (r = Some x) as -> by (apply Hrr; by exists o). apply Hrr in Hy. congruence.
Qed.

Lemma total_ext f g l : (forall x, x ∈ l -> f x = g x) -> total f l = total g l.
Proof.
  unfold total. induction l as [|x l IH]; intros H; [done|]. cbn. rewrite (H x) by left. rewrite IH; [done|]. intros y Hy. apply H. by right.
Qed.

Lemma concat_elem_unique (ls : list (list loc)) i j l k x : NoDup (concat ls) -> ls !! i = Some l -> ls !! j = Some k -> x ∈ l -> x ∈ k -> j <> i -> False.
Proof.
  revert i j. induction ls as [|a ls IH]; intros [|i] [|j] Hnd Hi Hj Hxl Hk Hne; try done; cbn in *; apply NoDup_app in Hnd as (Ha & Hd & Hnd); simplify_eq.
  - apply (Hd x Hxl). apply elem_of_concat. by exists j, k.
  - apply (Hd x Hk). apply elem_of_concat. by exists i, l.
  - by apply (IH i j Hnd Hi Hj Hxl Hk ltac:(congruence)).
Qed.

(** ** Changing one object *)

Lemma total_change (f g : loc -> Z) l x : NoDup l -> x ∈ l -> (forall y, y <> x -> g y = f y) ->
  total g l = total f l - f x + g x.
Proof.
  intros Hnd (l1 & l2 & ->)%list_elem_of_split Hfg. apply NoDup_app in Hnd as (_ & Hd & [Hx _]%NoDup_cons).
  assert (forall k, x ∉ k -> total g k = total f k) as Hk.
  { unfold total. induction k as [|y k IH]; intros Hn; [done|]. apply not_elem_of_cons in Hn as [? ?]. cbn. rewrite IH, Hfg by done. done. }
  rewrite !total_app. unfold total at 2 4. cbn. fold (total g l2). fold (total f l2).
  rewrite (Hk l1), (Hk l2); [lia|done|]. intros H1. apply (Hd x H1). left.
Qed.

(** What a change keeps of an object. *)
Definition fixed_view (o : HashObject) := (link_view o, ho_name o, ho_length o, get_type o, flags_are_clear o HOF_DELETED).

Record change_allowed (ps : PayloadObjectStore) (busy : ptr) (x : loc) (o o' : HashObject) : Prop := {
  ca_view : fixed_view o' = fixed_view o;
  ca_buffer : buffer_wf (ho_payload o');
  ca_live : live o' -> live o;
  ca_has : busy <> Some x -> live o' -> has_buffer o' = true;
  ca_lock : busy <> Some x -> is_locked o' = false;
  ca_queued : flags_are_clear o HOF_DELETED = false -> disposable o (ps_xrefs ps x) -> disposable o' (ps_xrefs ps x);
}.

(** Objects in a queue have been marked. *)
Lemma disposable_deleted o extra : disposable o extra -> flags_are_clear o HOF_DELETED = false.
Proof.
  intros (Hd & _). unfold is_deleted in Hd. apply andb_true_iff in Hd as [[_ Hs]%andb_true_iff _]. rewrite Z.lor_comm in Hs.
  apply flags_set_lor in Hs. change HOF_DELETED with (2 ^ 7) in *. rewrite flags_set_bit in Hs by done. rewrite flags_clear_bit by done.
  by rewrite Hs.
Qed.

Lemma fixed_link o o' : fixed_view o' = fixed_view o -> link_view o' = link_view o.
Proof. unfold fixed_view. congruence. Qed.

Lemma fixed_fields o o' : fixed_view o' = fixed_view o -> ho_hash o' = ho_hash o /\ ho_name o' = ho_name o /\ ho_length o' = ho_length o
  /\ get_type o' = get_type o /\ flags_are_clear o' HOF_DELETED = flags_are_clear o HOF_DELETED /\ ho_ht_next o' = ho_ht_next o.
Proof. unfold fixed_view, link_view. intros H. injection H. intros. split_and!; assumption. Qed.

Lemma change_rep ps busy busy' ls qss x o o' m : store_rep ps busy ls qss -> ps_heap ps !! x = Some o ->
  change_allowed ps busy' x o o' -> (forall y, y <> x -> busy' <> Some y -> busy <> Some y) ->
  m_used_size m = m_used_size (ps_memory ps) - object_bytes o (ps_xrefs ps x) + object_bytes o' (ps_xrefs ps x) ->
  m_used_size m < 2 ^ 62 ->
  store_rep (ps_with_objects ps (<[x := o']> (ps_heap ps)) m) busy' ls qss.
Proof.
  intros Hr Ho [Hv Hb Hlv Hhas Hlk Hqd] Hbusy Hm Hlt. pose proof Hr as [R1 R2 RQ RX R3 R4 R5 R6 (u & Hu & Hmu & _)].
  destruct (fixed_fields o o' Hv) as (E1 & E2 & E3 & E4 & E5 & E6). pose proof (fixed_link o o' Hv) as Elv. clear Hv.
  assert (forall y, find_view <$> <[x := o']> (ps_heap ps) !! y = find_view <$> ps_heap ps !! y) as Hfv.
  { intros y. destruct (decide (y = x)) as [->|Hne]; [|by rewrite lookup_insert_ne by done]. rewrite lookup_insert_eq, Ho. cbn.
    unfold find_view. by rewrite E1, E2, E6. }
  constructor; try done.
  - intros i l qs Hl Hq. destruct (R4 i l qs Hl Hq) as [(t & Htt & Hrep) T2 T3 T4 T5 T6]. constructor; try done.
    + exists t. split; [done|]. eapply ht_rep_view; [|done]. intros y _. cbn.
      destruct (decide (y = x)) as [->|Hne]; [|by rewrite lookup_insert_ne by done]. rewrite lookup_insert_eq, Ho. cbn. by rewrite Elv.
    + intros y Hy. destruct (T5 y Hy) as (oy & Hoy & Hob & Hdy & Hqy). cbn. destruct (decide (y = x)) as [->|Hne].
      * simplify_eq. rewrite lookup_insert_eq. exists o'. split; [done|]. destruct Hob as [O1 O2 O3 O4 O5 O6 O7 O8].
        split_and!.
        -- constructor; cbn; rewrite ?E1, ?E2, ?E3, ?E4; try done.
        -- intros Hx. pose proof (Hdy Hx) as Hd. apply Hqd; [by eapply disposable_deleted|done].
        -- rewrite E5. done.
      * rewrite lookup_insert_ne by done. exists oy. split; [done|]. split; [|done]. destruct Hob as [O1 O2 O3 O4 O5 O6 O7 O8].
        constructor; try done; intros Hb'; [apply O7|apply O8]; by apply Hbusy.
    + intros y oy Hy Hoy Hl'. cbn in Hoy. unfold found. cbn. rewrite Htt. cbn [mbind option_bind].
      rewrite (ht_find_view _ _ (ps_heap ps)) by done.
      assert (exists oy0, ps_heap ps !! y = Some oy0 /\ live oy0 /\ ho_hash oy0 = ho_hash oy /\ ho_name oy0 = ho_name oy) as (oy0 & H0 & H1 & H2 & H3).
      { destruct (decide (y = x)) as [->|Hne].
        - rewrite lookup_insert_eq in Hoy. injection Hoy as <-. exists o. split; [done|]. split; [by apply Hlv|]. by rewrite E1, E2.
        - rewrite lookup_insert_ne in Hoy by done. by exists oy. }
      rewrite <- H2, <- H3. specialize (T6 y oy0 Hy H0 H1). unfold found in T6. by rewrite Htt in T6.
  - intros y. cbn. rewrite <- R6. destruct (decide (y = x)) as [->|Hne]; [rewrite lookup_insert_eq, Ho; split; intros _; by eexists|by rewrite lookup_insert_ne by done].
  - exists u. split; [done|]. split; [|done]. cbn [ps_memory os_tables ps_with_objects]. rewrite Hm, Hmu.
    assert (x ∈ concat ls) as Hx by (apply R6; by eexists).
    rewrite (total_change (bytes_of ps) (bytes_of (ps_with_objects ps (<[x:=o']> (ps_heap ps)) m)) _ x R5 Hx).
    + replace (bytes_of ps x) with (object_bytes o (ps_xrefs ps x)) by (unfold bytes_of; by rewrite Ho).
      replace (bytes_of (ps_with_objects ps (<[x:=o']> (ps_heap ps)) m) x) with (object_bytes o' (ps_xrefs ps x))
        by (unfold bytes_of; cbn; by rewrite lookup_insert_eq). lia.
    + intros y Hne. unfold bytes_of. cbn. by rewrite lookup_insert_ne by done.
Qed.

(** Links do not matter to an object on its own. *)
Lemma core_view o o' : core o' = core o -> ho_hash o' = ho_hash o /\ ho_name o' = ho_name o /\ ho_flags o' = ho_flags o
  /\ ho_payload o' = ho_payload o /\ ho_length o' = ho_length o /\ lo_state o' = lo_state o.
Proof. unfold core. intros H. injection H. intros. split_and!; assumption. Qed.

Lemma object_ok_core ps ps' busy busy' i x o o' : core o' = core o -> length (os_tables ps') = length (os_tables ps) ->
  (busy' <> Some x -> busy <> Some x) -> object_ok ps busy i x o -> object_ok ps' busy' i x o'.
Proof.
  intros (E1 & E2 & E3 & E4 & E5 & E6)%core_view Hlen Hb [O1 O2 O3 O4 O5 O6 O7 O8].
  constructor; unfold live, has_buffer, flags_are_clear, is_locked in *; rewrite ?E1, ?E2, ?E3, ?E4, ?E5, ?E6; auto.
  - unfold get_table_index, os_ntables, zlen in *. by rewrite Hlen.
  - unfold get_type in *. by rewrite E3.
Qed.

(** ** Records *)

(** What clients see of an object that is not being deleted. *)
Record record_t := mkRecord {
  r_object : loc;
  r_buffer : payload_buffer;
  r_usize : Z;
  r_compressor : Z;
  r_expires : Z;
}.

Definition record_of (x : loc) (o : HashObject) : record_t :=
  let p := ho_payload o in mkRecord x (pho_buffer p) (pho_usize p) (pho_opt_comp p) (pho_exp_time p).

Definition models (ps : PayloadObjectStore) (M : gmap bytes record_t) : Prop :=
  forall id r, M !! id = Some r <-> exists x o, ps_heap ps !! x = Some o /\ ho_name o = id /\ live o /\ record_of x o = r.

(** The records after the object [x], which was [o], has become [o']. *)
Definition changed (M : gmap bytes record_t) (x : loc) (o o' : HashObject) : gmap bytes record_t :=
  if decide (live o') then <[ho_name o := record_of x o']> M
  else if decide (live o) then delete (ho_name o) M else M.

Lemma change_models ps busy M x o o' m : store_ok ps busy -> models ps M -> ps_heap ps !! x = Some o ->
  ho_name o' = ho_name o -> (live o' -> live o) ->
  models (ps_with_objects ps (<[x := o']> (ps_heap ps)) m) (changed M x o o').
Proof.
  intros Hok HM Ho Hn Hl id r. cbn [ps_heap ps_with_objects]. unfold changed.
  assert (forall y oy, y <> x -> ps_heap ps !! y = Some oy -> ho_name oy = ho_name o -> live oy -> live o -> False) as Hu.
  { intros y oy Hne Hoy Hny Hly Hlo. apply Hne. eapply (record_unique ps busy (ho_name o)); [done|by exists oy|by exists o]. }
  destruct (decide (live o')) as [Hl'|Hl']; [|destruct (decide (live o)) as [Hlo|Hlo]].
  - destruct (decide (id = ho_name o)) as [->|Hne].
    + rewrite lookup_insert_eq. split.
      * intros [= <-]. exists x, o'. by rewrite lookup_insert_eq.
      * intros (y & oy & Hoy & Hny & Hly & <-). destruct (decide (y = x)) as [->|Hyx].
        -- rewrite lookup_insert_eq in Hoy. by simplify_eq.
        -- rewrite lookup_insert_ne in Hoy by done. destruct (Hu y oy); auto.
    + rewrite lookup_insert_ne by done. rewrite (HM id r). split; intros (y & oy & Hoy & Hny & Hly & Hr).
      * exists y, oy. rewrite lookup_insert_ne; [done|]. intros ->. simplify_eq.
      * destruct (decide (y = x)) as [->|Hyx]; [rewrite lookup_insert_eq in Hoy; simplify_eq|].
        rewrite lookup_insert_ne in Hoy by done. by exists y, oy.
  - destruct (decide (id = ho_name o)) as [->|Hne].
    + rewrite lookup_delete_eq. split; [done|]. intros (y & oy & Hoy & Hny & Hly & _). destruct (decide (y = x)) as [->|Hyx].
      * rewrite lookup_insert_eq in Hoy. by simplify_eq.
      * rewrite lookup_insert_ne in Hoy by done. destruct (Hu y oy); auto.
    + rewrite lookup_delete_ne by done. rewrite (HM id r). split; intros (y & oy & Hoy & Hny & Hly & Hr).
      * exists y, oy. rewrite lookup_insert_ne; [done|]. intros ->. simplify_eq.
      * destruct (decide (y = x)) as [->|Hyx]; [rewrite lookup_insert_eq in Hoy; by simplify_eq|].
        rewrite lookup_insert_ne in Hoy by done. by exists y, oy.
  - rewrite (HM id r). split; intros (y & oy & Hoy & Hny & Hly & Hr); exists y, oy.
    + rewrite lookup_insert_ne; [done|]. intros ->. by simplify_eq.
    + destruct (decide (y = x)) as [->|Hyx]; [rewrite lookup_insert_eq in Hoy; by simplify_eq|]. by rewrite lookup_insert_ne in Hoy.
Qed.

(** A change of an object, in one statement. *)
Lemma change_ok ps M x o o' m : store_ok ps None -> models ps M -> ps_heap ps !! x = Some o ->
  change_allowed ps None x o o' ->
  m_used_size m = m_used_size (ps_memory ps) - object_bytes o (ps_xrefs ps x) + object_bytes o' (ps_xrefs ps x) ->
  m_used_size m < 2 ^ 62 ->
  store_ok (ps_with_objects ps (<[x := o']> (ps_heap ps)) m) None
  /\ models (ps_with_objects ps (<[x := o']> (ps_heap ps)) m) (changed M x o o').
Proof.
  intros (ls & qss & Hr) HM Ho Hca Hm Hlt. split; [exists ls, qss; by eapply change_rep|].
  eapply change_models; [by exists ls, qss|done|done| |apply Hca]. by apply fixed_fields, Hca.
Qed.

(** ** Objects that are given up *)

Lemma live_bit o : live o <-> Z.testbit (ho_flags o) 6 = false.
Proof. unfold live. change HOF_BEING_DELETED with (2 ^ 6). rewrite flags_clear_bit by done. destruct (Z.testbit _ _); done. Qed.

Lemma deleted_bit o : flags_are_clear o HOF_DELETED = negb (Z.testbit (ho_flags o) 7).
Proof. change HOF_DELETED with (2 ^ 7). by rewrite flags_clear_bit. Qed.

Lemma live_fresh ps busy x o : store_ok ps busy -> ps_heap ps !! x = Some o -> live o -> flags_are_clear o HOF_DELETED = true.
Proof.
  intros (ls & qss & Hr) Ho Hl. destruct (rep_object _ _ _ _ x o Hr Ho) as (i & l & qs & _ & _ & _ & _ & _ & Hq & Hd).
  destruct (flags_are_clear o HOF_DELETED); [done|]. destruct (Hq (Hd eq_refl)) as (Hdel & _).
  unfold is_deleted in Hdel. apply andb_true_iff in Hdel as [[_ Hs]%andb_true_iff _]. apply flags_set_lor in Hs.
  change HOF_BEING_DELETED with (2 ^ 6) in Hs. rewrite flags_set_bit in Hs by done. apply live_bit in Hl. congruence.
Qed.

Lemma object_bytes_pos o extra : buffer_wf (ho_payload o) -> 0 < ho_length o -> 0 <= extra -> 0 < object_bytes o extra.
Proof. unfold object_bytes, buffer_bytes, buffer_wf. destruct (pho_buffer _), (get_type o); lia. Qed.

Lemma tables_bytes_elem ts t : (forall t, t ∈ ts -> 0 <= ht_nbuckets t) -> t ∈ ts -> ht_nbuckets t * SIZEOF_POINTER <= tables_bytes ts.
Proof.
  unfold tables_bytes, SIZEOF_POINTER. induction ts as [|u ts IH]; intros Hn Ht; [by apply elem_of_nil in Ht|]. cbn.
  assert (0 <= foldr (fun t z => ht_nbuckets t * 8 + z) 0 ts) as Hge.
  { clear IH Ht. assert (forall t, t ∈ ts -> 0 <= ht_nbuckets t) as Hn' by (intros t' ?; apply Hn; by right). clear Hn.
    induction ts as [|v ts IH]; cbn; [lia|]. pose proof (Hn' v ltac:(left)). specialize (IH (fun t' Ht' => Hn' t' ltac:(by right))). lia. }
  pose proof (Hn u ltac:(left)). apply elem_of_cons in Ht as [->|Ht]; [lia|].
  specialize (IH (fun t' Ht' => Hn t' ltac:(by right)) Ht). lia.
Qed.

Lemma nbuckets_pos ps busy ls qss t : store_rep ps busy ls qss -> t ∈ os_tables ps -> 0 < ht_nbuckets t.
Proof.
  intros Hr Ht. apply list_elem_of_lookup in Ht as [i Hi]. destruct (sr_lengths _ _ _ _ Hr) as [L1 L2].
  destruct (lookup_lt_is_Some_2 ls i) as [li Hli]; [rewrite L1; by eapply lookup_lt_Some|].
  destruct (lookup_lt_is_Some_2 qss i) as [qi Hqi]; [rewrite L2; by eapply lookup_lt_Some|].
  destruct (tb_table _ _ _ _ _ (sr_table _ _ _ _ Hr i li qi Hli Hqi)) as (t' & Ht' & Hrep). simplify_eq.
  apply (pow2_pos _ (rep_nbuckets _ _ _ _ Hrep)).
Qed.

Lemma tables_bytes_nonneg ps busy ls qss : store_rep ps busy ls qss -> 0 <= tables_bytes (os_tables ps).
Proof.
  intros Hr. destruct (os_tables ps) as [|t ts] eqn:E; [done|].
  pose proof (nbuckets_pos _ _ _ _ t Hr ltac:(rewrite E; left)) as Ht.
  assert (forall t', t' ∈ t :: ts -> 0 <= ht_nbuckets t') as Hn.
  { intros t' Ht'. rewrite <- E in Ht'. pose proof (nbuckets_pos _ _ _ _ t' Hr Ht'). lia. }
  pose proof (tables_bytes_elem (t :: ts) t Hn ltac:(left)). unfold SIZEOF_POINTER in *. lia.
Qed.

Lemma bytes_of_pos ps busy ls qss x : store_rep ps busy ls qss -> x ∈ concat ls -> 0 < bytes_of ps x.
Proof.
  intros Hr Hx. apply (sr_heap _ _ _ _ Hr) in Hx as [o Ho]. unfold bytes_of. rewrite Ho.
  destruct (rep_object _ _ _ _ x o Hr Ho) as (i & l & qs & _ & _ & _ & _ & Hob & _).
  apply object_bytes_pos; [apply Hob..|by rewrite (sr_xrefs _ _ _ _ Hr)].
Qed.

Lemma objects_bytes_nonneg ps busy ls qss : store_rep ps busy ls qss -> 0 <= total (bytes_of ps) (concat ls).
Proof. intros Hr. apply total_nonneg. intros x Hx. by eapply Z.lt_le_incl, bytes_of_pos. Qed.

(** The memory of a store covers each of its objects. *)
Lemma bytes_in_use ps busy x o : store_ok ps busy -> ps_heap ps !! x = Some o ->
  0 < object_bytes o (ps_xrefs ps x) <= m_used_size (ps_memory ps).
Proof.
  intros (ls & qss & Hr) Ho. destruct (sr_memory _ _ _ _ Hr) as (u & Hu & Hm & _).
  assert (x ∈ concat ls) as Hx by (apply (sr_heap _ _ _ _ Hr); by eexists).
  pose proof (bytes_of_pos _ _ _ _ x Hr Hx) as Hpos. pose proof (tables_bytes_nonneg _ _ _ _ Hr) as Ht.
  assert (bytes_of ps x = object_bytes o (ps_xrefs ps x)) as E by (unfold bytes_of; by rewrite Ho). rewrite E in Hpos. split; [done|].
  assert (forall y, y ∈ concat ls -> 0 <= bytes_of ps y) as Hall by (intros y Hy; by eapply Z.lt_le_incl, bytes_of_pos).
  apply list_elem_of_split in Hx as (l1 & l2 & Hl). rewrite Hl in Hm, Hall. rewrite total_app in Hm. unfold total at 2 in Hm. cbn in Hm.
  fold (total (bytes_of ps) l2) in Hm.
  assert (0 <= total (bytes_of ps) l1 /\ 0 <= total (bytes_of ps) l2) as [? ?].
  { split; apply total_nonneg; intros y Hy; apply Hall; apply elem_of_app; [by left|right; by right]. }
  lia.
Qed.

Lemma dispose_buffer_spec o m : flags_are_set o HOF_BEING_DELETED = true -> has_readers o = false -> buffer_wf (ho_payload o) ->
  buffer_bytes (ho_payload o) <= m_used_size m < 2 ^ 64 ->
  exists n p m', dispose_buffer o m = Some (n, ho_with_payload o p, m') /\ pho_buffer p = NoBuffer
    /\ pho_semaphore p = pho_semaphore (ho_payload o)
    /\ m_used_size m' = m_used_size m - buffer_bytes (ho_payload o).
Proof.
  intros Hf Hr Hb Hm. unfold dispose_buffer, buffer_bytes, buffer_wf in *. rewrite Hf, Hr.
  destruct (pho_buffer (ho_payload o)) as [| |bs] eqn:Eb.
  - exists 0, (ho_payload o), m. split_and!; [by destruct o|done|done|lia].
  - destruct Hb as [E1 E2]. rewrite E1, E2. cbn. eexists _, _, _; split_and!; [done|done|done|lia].
  - destruct (pho_size (ho_payload o) <=? _) eqn:E; zbool; [|lia]. destruct (0 <? _) eqn:E0; zbool; [|lia].
    cbn [andb negb c3_assert mbind option_bind].
    destruct (free_exact m (pho_size (ho_payload o))) as (m' & -> & Hm'); [lia|lia|].
    cbn. eexists _, _, _; split_and!; done.
Qed.

Lemma is_locked_unlock o : is_locked (unlock_object o) = false.
Proof.
  unfold is_locked. cbn. apply negb_false_iff, Z.eqb_eq, Z.bits_inj'. intros i Hi. rewrite Z.land_spec, Z.ldiff_spec, Z.bits_0.
  by destruct (Z.testbit (lo_state o) i), (Z.testbit LO_LOCKED i).
Qed.

Lemma is_locked_lock o : is_locked (lock_object o) = true.
Proof.
  unfold is_locked. cbn. apply negb_true_iff, Z.eqb_neq. intros Hz. apply (f_equal (fun z => Z.testbit z 63)) in Hz.
  rewrite Z.land_spec, Z.lor_spec, Z.bits_0 in Hz. change (Z.testbit LO_LOCKED 63) with true in Hz. by rewrite orb_true_r in Hz.
Qed.

(** The object after it has been locked, marked, deprived of its buffer and unlocked. *)
Lemma destroyed_ok ps x o : store_ok ps None -> ps_heap ps !! x = Some o -> live o ->
  exists o1 m1, try_dispose (set_flags (lock_object o) HOF_BEING_DELETED) (ps_memory ps) = Some (o1, m1)
    /\ ~ live (unlock_object o1) /\ change_allowed ps None x o (unlock_object o1)
    /\ m_used_size m1 = m_used_size (ps_memory ps) - object_bytes o (ps_xrefs ps x) + object_bytes (unlock_object o1) (ps_xrefs ps x)
    /\ m_used_size m1 < 2 ^ 62.
Proof.
  intros Hok Ho Hl. pose proof Hok as (ls & qss & Hr). pose proof (live_fresh _ _ _ _ Hok Ho Hl) as Hnd.
  destruct (rep_object _ _ _ _ x o Hr Ho) as (i & l & qs & _ & _ & _ & _ & Hob & _).
  pose proof (bytes_in_use _ _ _ _ Hok Ho) as Hin. destruct (sr_memory _ _ _ _ Hr) as (_ & _ & _ & Hlt).
  set (o0 := set_flags (lock_object o) HOF_BEING_DELETED).
  assert (forall j, 0 <= j -> Z.testbit (ho_flags o0) j = (j =? 6) || Z.testbit (ho_flags o) j) as Hbits.
  { intros j Hj. unfold o0. change HOF_BEING_DELETED with (2 ^ 6). by rewrite set_bit. }
  assert (get_type o0 = get_type o) as Hty.
  { apply get_type_bits. intros j Hj. rewrite Hbits by lia. destruct (j =? 6) eqn:E; zbool; [lia|done]. }
  (* whatever becomes of the payload *)
  assert (forall p, buffer_wf p -> ~ live (unlock_object (ho_with_payload o0 p))
    /\ change_allowed ps None x o (unlock_object (ho_with_payload o0 p))) as Hp.
  { intros p Hwf. assert (~ live (unlock_object (ho_with_payload o0 p))) as Hnl.
    { rewrite live_bit. change (ho_flags (unlock_object (ho_with_payload o0 p))) with (ho_flags o0). rewrite Hbits by lia. done. }
    split; [done|]. constructor; [|done|by intros ?%Hnl|by intros _ ?%Hnl|intros _; apply is_locked_unlock|by rewrite Hnd].
    unfold fixed_view. rewrite !deleted_bit. change (get_type (unlock_object (ho_with_payload o0 p))) with (get_type o0). rewrite Hty.
    change (ho_flags (unlock_object (ho_with_payload o0 p))) with (ho_flags o0). by rewrite Hbits by lia. }
  assert (ho_payload o0 = ho_payload o) as Hpo by done. pose proof (ob_buffer _ _ _ _ _ Hob) as Hwf.
  unfold try_dispose. destruct (has_readers o0) eqn:Erd; cbn [negb].
  - eexists _, _. split; [done|]. destruct (Hp (ho_payload o0)) as [H1 H2]; [done|].
    replace (unlock_object o0) with (unlock_object (ho_with_payload o0 (ho_payload o0))) by done.
    split_and!; [done|done| |done]. unfold object_bytes.
    change (get_type (unlock_object (ho_with_payload o0 (ho_payload o0)))) with (get_type o0). rewrite Hty. cbn. lia.
  - assert (flags_are_set o0 HOF_BEING_DELETED = true) as Hset.
    { change HOF_BEING_DELETED with (2 ^ 6) at 1. rewrite flags_set_bit by done. by rewrite Hbits. }
    assert (0 <= object_bytes o (ps_xrefs ps x) - buffer_bytes (ho_payload o)) as Hge.
    { unfold object_bytes. pose proof (ob_length _ _ _ _ _ Hob). rewrite (sr_xrefs _ _ _ _ Hr). destruct (get_type o); lia. }
    destruct (dispose_buffer_spec o0 (ps_memory ps)) as (n & p & m1 & -> & Hpb & _ & Hm1); [done|done|done|rewrite Hpo; lia|].
    cbn [mbind option_bind]. eexists _, _. split; [done|]. destruct (Hp p) as [H1 H2]; [unfold buffer_wf; by rewrite Hpb|].
    assert (0 <= buffer_bytes (ho_payload o)) as Hbp by (clear -Hwf; unfold buffer_wf, buffer_bytes in *; destruct (pho_buffer _); lia).
    split_and!; [done|done| |rewrite Hm1, Hpo; lia]. rewrite Hm1, Hpo. unfold object_bytes.
    change (get_type (unlock_object (ho_with_payload o0 p))) with (get_type o0). rewrite Hty. cbn. unfold buffer_bytes at 3. rewrite Hpb. lia.
Qed.

(** ** Objects that are handed over for disposal *)

(** [o'] in the place of [o], in the queue of its table. *)
Record handed_over (ps : PayloadObjectStore) (x : loc) (o o' : HashObject) : Prop := {
  ho_links : link_view o' = link_view o;
  ho_same : ho_name o' = ho_name o /\ ho_length o' = ho_length o /\ get_type o' = get_type o /\ lo_state o' = lo_state o
    /\ pho_buffer (ho_payload o') = pho_buffer (ho_payload o) /\ pho_size (ho_payload o') = pho_size (ho_payload o)
    /\ pho_usize (ho_payload o') = pho_usize (ho_payload o);
  ho_dead : ~ live o';
  ho_new : flags_are_clear o HOF_DELETED = true;
  ho_disposable : disposable o' (ps_xrefs ps x);
}.

Lemma queued_rep ps ls qss i l qs x o o' q n : store_rep ps None ls qss -> ls !! i = Some l -> qss !! i = Some qs -> x ∈ l ->
  ps_heap ps !! x = Some o -> handed_over ps x o o' -> holds q (qs ++ [x]) ->
  store_rep (ps_with_deleted (ps_with_queue (ps_with_objects ps (<[x := o']> (ps_heap ps)) (ps_memory ps)) i q) n) None ls (<[i := qs ++ [x]]> qss).
Proof.
  intros Hr Hl Hq Hx Ho [Hlv (E1 & E2 & E3 & E4 & E5 & E6 & E7) Hdead Hnew Hdisp] Hh.
  pose proof Hr as [R1 R2 RQ RX [L1 L2] R4 R5 R6 (u & Hu & Hmu & Hlt)].
  assert (ho_hash o' = ho_hash o /\ ho_ht_next o' = ho_ht_next o) as [Eh En] by (unfold link_view in Hlv; split; congruence).
  assert (forall y, find_view <$> <[x := o']> (ps_heap ps) !! y = find_view <$> ps_heap ps !! y) as Hfv.
  { intros y. destruct (decide (y = x)) as [->|Hne]; [|by rewrite lookup_insert_ne by done]. rewrite lookup_insert_eq, Ho. cbn.
    unfold find_view. by rewrite Eh, E1, En. }
  assert (x ∉ qs) as Hxq.
  { intros Hxq. destruct (tb_object _ _ _ _ _ (R4 i l qs Hl Hq) x Hx) as (o2 & Ho2 & _ & Hd & _). assert (o2 = o) as -> by congruence.
    pose proof (disposable_deleted _ _ (Hd Hxq)). congruence. }
  assert (forall y oy, ps_heap ps !! y = Some oy -> y <> x -> <[x := o']> (ps_heap ps) !! y = Some oy) as Hkeep
    by (intros y oy Hoy Hne; by rewrite lookup_insert_ne).
  constructor; try done.
  - split; [done|]. by rewrite length_insert.
  - intros j lj qj Hlj Hqj. assert (exists q0, qss !! j = Some q0 /\ (j = i -> qj = q0 ++ [x]) /\ (j <> i -> qj = q0)) as (q0 & Hq0 & Hji & Hjn).
    { destruct (decide (j = i)) as [->|Hne].
      - rewrite list_lookup_insert_eq in Hqj by (by eapply lookup_lt_Some). exists qs. split_and!; [done|congruence|done].
      - rewrite list_lookup_insert_ne in Hqj by done. by exists qj. }
    destruct (R4 j lj q0 Hlj Hq0) as [(t & Htt & Hrep) (qq & Hqq & Hhq) T3 T4 T5 T6]. constructor.
    + exists t. split; [done|]. eapply ht_rep_view; [|exact Hrep]. intros y _. cbn. destruct (decide (y = x)) as [->|Hne].
      * rewrite lookup_insert_eq, Ho. cbn. by rewrite Hlv.
      * by rewrite lookup_insert_ne by done.
    + cbn. destruct (decide (j = i)) as [->|Hne].
      * exists q. rewrite list_lookup_insert_eq by (by eapply lookup_lt_Some). split; [done|]. rewrite Hji by done. by assert (q0 = qs) as -> by congruence.
      * exists qq. rewrite list_lookup_insert_ne by done. split; [done|]. by rewrite Hjn.
    + destruct (decide (j = i)) as [->|Hne]; [|by rewrite Hjn]. rewrite Hji by done. assert (q0 = qs) as -> by congruence.
      apply NoDup_app. split_and!; [done| |apply NoDup_singleton]. intros y Hy ->%list_elem_of_singleton. done.
    + intros y Hy. destruct (decide (j = i)) as [->|Hne]; [|apply T4; by rewrite <- Hjn]. assert (lj = l) as -> by congruence.
      rewrite Hji in Hy by done. apply elem_of_app in Hy as [Hy|Hy%list_elem_of_singleton]; [by apply T4|congruence].
    + intros y Hy. destruct (T5 y Hy) as (oy & Hoy & Hob & Hdy & Hqy). cbn. destruct (decide (y = x)) as [->|Hne].
      * assert (oy = o) as -> by congruence. rewrite lookup_insert_eq. exists o'. split; [done|]. destruct Hob as [O1 O2 O3 O4 O5 O6 O7 O8]. split_and!.
        -- constructor; cbn; rewrite ?E1, ?E2, ?E3, ?Eh; try done.
           ++ unfold buffer_wf in *. by rewrite E5, E6, E7.
           ++ intros _. unfold is_locked. rewrite E4. by apply O8.
        -- done.
        -- intros _. destruct (decide (j = i)) as [->|Hji']; [rewrite Hji by done; apply elem_of_app; right; by apply list_elem_of_singleton|].
           destruct (concat_elem_unique ls i j l lj x R5 Hl Hlj Hx Hy Hji').
      * rewrite (Hkeep y oy) by done. exists oy. split; [done|]. split; [by destruct Hob as [O1 O2 O3 O4 O5 O6 O7 O8]; constructor|]. split.
        -- intros Hyq. apply Hdy. destruct (decide (j = i)) as [->|Hji']; [|by rewrite <- Hjn]. rewrite Hji in Hyq by done.
           apply elem_of_app in Hyq as [?|?%list_elem_of_singleton]; done.
        -- intros Hf. specialize (Hqy Hf). destruct (decide (j = i)) as [->|Hji']; [rewrite Hji by done; apply elem_of_app; by left|by rewrite Hjn].
    + intros y oy Hy Hoy Hly. cbn in Hoy. assert (y <> x) as Hne by (intros ->; rewrite lookup_insert_eq in Hoy; congruence).
      rewrite lookup_insert_ne in Hoy by done. specialize (T6 y oy Hy Hoy Hly). unfold found in *. cbn. rewrite Htt in *. cbn [mbind option_bind] in *.
      by rewrite (ht_find_view _ _ (ps_heap ps)) by done.
  - intros y. cbn. rewrite <- R6. destruct (decide (y = x)) as [->|Hne]; [rewrite lookup_insert_eq, Ho; split; intros _; by eexists|by rewrite lookup_insert_ne by done].
  - exists u. split; [done|]. split; [|done]. cbn [ps_memory os_tables ps_with_objects ps_with_queue ps_with_deleted]. rewrite Hmu. f_equal.
    apply total_ext. intros y _. unfold bytes_of. cbn. destruct (decide (y = x)) as [->|Hne]; [|by rewrite lookup_insert_ne by done].
    rewrite lookup_insert_eq, Ho. unfold object_bytes, buffer_bytes. by rewrite E2, E3, E5, E6.
Qed.

(** What [post_unlink_message] requires: the optimizer gives up an object that is being deleted, and
    the queue of its table need not grow. *)
Record may_unlink (ps : PayloadObjectStore) (o : HashObject) : Prop := {
  mu_agent : pho_opt_useragent (ho_payload o) <> UA_NUMBER_OF_ELEMENTS;
  mu_dead : flags_are_set o HOF_BEING_DELETED = true;
  mu_flags : flags_are_clear o (Z.lor (Z.lor HOF_LINKED_BY_OPTIMIZER HOF_LINKED_BY_TM) HOF_DELETED) = true;
  mu_optimized : flags_are_clear o HOF_BEING_OPTIMIZED = true;
  mu_room : forall i q, get_table_index ps (ho_hash o) = Some i -> pos_queues ps !! Z.to_nat i = Some q -> q_count q < q_capacity q;
}.

Lemma handed_ok ps i x o : object_ok ps None i x o -> ps_xrefs ps x = 0 -> may_unlink ps o ->
  handed_over ps x o (set_flags (reset_user_agent o) HOF_DELETED).
Proof.
  intros Hob Hx [_ M2 M3 M4 _]. set (o' := set_flags (reset_user_agent o) HOF_DELETED).
  assert (forall j, 0 <= j -> Z.testbit (ho_flags o') j = (j =? 7) || Z.testbit (ho_flags o) j) as Hbits
    by (intros j Hj; unfold o'; change HOF_DELETED with (2 ^ 7); by rewrite set_bit).
  assert (get_type o' = get_type o) as Hty.
  { apply get_type_bits. intros j Hj. rewrite Hbits by lia. destruct (j =? 7) eqn:E; zbool; [lia|done]. }
  assert (Z.testbit (ho_flags o) 6 = true) as H6.
  { change HOF_BEING_DELETED with (2 ^ 6) in M2. by rewrite flags_set_bit in M2. }
  assert (flags_are_clear o (Z.lor HOF_LINKED_BY_TM HOF_LINKED_BY_OPTIMIZER) = true /\ flags_are_clear o HOF_DELETED = true) as [H3 H7].
  { unfold flags_are_clear in *. rewrite !Z.eqb_eq in *. rewrite !Z.land_lor_distr_r in *. apply Z.lor_eq_0_iff in M3 as [[-> ->]%Z.lor_eq_0_iff ->]. done. }
  constructor; try done.
  - rewrite live_bit, Hbits by lia. rewrite H6. done.
  - destruct Hob as [O1 O2 O3 O4 O5 O6 O7 O8]. unfold disposable. rewrite Hx, Hty, O4. split_and!; try done.
    + unfold is_deleted. replace (is_locked o') with (is_locked o) by done. rewrite O8 by done. rewrite andb_true_r. apply andb_true_iff. split.
      * unfold flags_are_clear in *. apply Z.eqb_eq, Z.bits_inj'. intros j Hj. apply Z.eqb_eq, (f_equal (fun z => Z.testbit z j)) in H3.
        rewrite Z.land_spec, Z.bits_0 in *. rewrite Hbits by done. destruct (Z.eqb_spec j 7) as [->|]; [done|exact H3].
      * unfold flags_are_set. apply Z.eqb_eq, Z.bits_inj'. intros j Hj. rewrite Z.land_spec, Hbits by done.
        change (Z.lor HOF_BEING_DELETED HOF_DELETED) with (Z.lor (2 ^ 6) (2 ^ 7)). rewrite Z.lor_spec, !Z.pow2_bits_eqb by lia.
        destruct (Z.eqb_spec 6 j) as [<-|]; [by rewrite H6|]. rewrite (Z.eqb_sym 7 j). destruct (Z.eqb_spec j 7) as [->|]; [done|]. apply andb_false_r.
    + unfold flags_are_clear in *. apply Z.eqb_eq, Z.bits_inj'. intros j Hj. apply Z.eqb_eq, (f_equal (fun z => Z.testbit z j)) in M4.
      rewrite Z.land_spec, Z.bits_0 in *. rewrite Hbits by done. destruct (Z.eqb_spec j 7) as [->|]; [done|exact M4].
Qed.

Lemma post_unlink_ok ps x o : store_ok ps None -> ps_heap ps !! x = Some o -> may_unlink ps o ->
  exists ps', post_unlink_message ps x = Some (true, ps') /\ store_ok ps' None
    /\ ps_heap ps' = <[x := set_flags (reset_user_agent o) HOF_DELETED]> (ps_heap ps) /\ ps_memory ps' = ps_memory ps.
Proof.
  intros (ls & qss & Hr) Ho Hmu. destruct (rep_object ps None ls qss x o Hr Ho) as (i & l & qs & Hl & Hq & Hx & Htb & Hob & _).
  pose proof (handed_ok ps i x o Hob (sr_xrefs _ _ _ _ Hr x) Hmu) as Hh. destruct Hmu as [M1 M2 M3 M4 M5].
  destruct (tb_queue _ _ _ _ _ Htb) as (q & Hqi & Hhq). pose proof (ob_table _ _ _ _ _ Hob) as Hi.
  destruct (put_always_room (q_with_memory q (ps_memory ps)) x qs) as (q' & oo & He & Hqm & Hh'); [by apply holds_memory| |].
  { destruct Hhq as [u Hring]. pose proof (ring_count _ _ _ Hring) as Hc. specialize (M5 _ q Hi). rewrite Nat2Z.id in M5. specialize (M5 Hqi).
    unfold zlen in *. rewrite length_map in Hc. cbn. lia. }
  eexists. split.
  - unfold post_unlink_message. rewrite Ho. cbn [mbind option_bind]. rewrite bool_decide_true, M2, M3 by done. cbn [andb c3_assert mbind option_bind].
    change (get_table_index (ps_with_objects ps _ _) _) with (get_table_index ps (ho_hash o)). rewrite Hi. cbn [mbind option_bind]. rewrite Nat2Z.id.
    unfold put_deleted. cbn [pos_queues ps_with_objects ps_memory]. rewrite Hqi. cbn [mbind option_bind]. rewrite He. done.
  - rewrite Hqm. split; [|done]. exists ls, (<[i := qs ++ [x]]> qss). by apply (queued_rep ps ls qss i l qs x o _ q').
Qed.

End Ok.
