(* ===== verification/StoreAdd.v ===== *)
(** * StoreAdd

    Adding an object to a store: the section in which a handler has the table for itself
    ([upgrade_lock], [add], [downgrade_lock]) keeps the invariant, although deleted objects
    are disposed of on that occasion. *)

From S2P Require Import Prelude Protocol Memory Utils Queue MessageQueue DList HashObject HashTable ObjectStore NameTable Tags Optimizer OptimizerInv StoreCommands StoreOk.

(** ** Sums *)

Lemma total_perm f l k : Permutation l k -> total f l = total f k.
Proof. intros Hp. unfold total. induction Hp; cbn; lia. Qed.

Lemma total_part f k l : (forall x, x ∈ l -> 0 <= f x) -> NoDup k -> (forall x, x ∈ k -> x ∈ l) -> total f k <= total f l.
Proof.
  intros Hf Hnd Hin. destruct (submseteq_Permutation k l (NoDup_submseteq _ _ Hnd Hin)) as [r Hr].
  rewrite (total_perm f l _ Hr), total_app. assert (0 <= total f r); [|lia]. apply total_nonneg. intros x Hx. apply Hf.
  rewrite Hr. apply elem_of_app. by right.
Qed.

Lemma tables_bytes_ext ts ts' : ht_nbuckets <$> ts = ht_nbuckets <$> ts' -> tables_bytes ts = tables_bytes ts'.
Proof.
  unfold tables_bytes. revert ts'. induction ts as [|t ts IH]; intros [|t' ts'] He; try done. cbn in *. injection He as Ht He.
  rewrite Ht. by rewrite (IH ts').
Qed.

Lemma tables_bytes_insert ts i t t' : ts !! i = Some t ->
  tables_bytes (<[i := t']> ts) = tables_bytes ts - ht_nbuckets t * SIZEOF_POINTER + ht_nbuckets t' * SIZEOF_POINTER.
Proof.
  unfold tables_bytes. revert i. induction ts as [|u ts IH]; intros [|i] Hi; try done; cbn in *; simplify_eq; [lia|]. rewrite IH by done. lia.
Qed.

(** No two objects of [k] have the same name. *)
Definition names_distinct (k : list loc) (h : heap) : Prop := forall y z oy oz, y ∈ k -> z ∈ k ->
  h !! y = Some oy -> h !! z = Some oz -> ho_name oy = ho_name oz -> y = z.

Section Add.
Context (hash : bytes -> Z).
Hypothesis hash_valid : forall n, valid_name n -> hash n <> INVALID_HASH_VALUE.
Context (type : hash_object_type_t).
Hypothesis type_payload : type = HOT_SESSION_OBJECT \/ type = HOT_PAGE_OBJECT.
Local Abbreviation store_rep := (store_rep hash type).

(** The store, the table, and the new object [o] at [x]. *)
Context (ps : PayloadObjectStore) (ls qss : list (list loc)) (i : nat) (l qs : list loc) (t : HashTable) (x : loc) (o : HashObject) (id : bytes).
Context (m1 : Memory).
Hypothesis Hr : store_rep ps None ls qss.
Hypothesis Hl : ls !! i = Some l.
Hypothesis Hq : qss !! i = Some qs.
Hypothesis Ht : os_tables ps !! i = Some t.
Hypothesis Hrep : ht_rep (ps_store ps) t (ps_heap ps) l.
Hypothesis Hnone : ps_heap ps !! x = None.
Hypothesis Hname : ho_name o = id /\ ho_hash o = hash id /\ valid_name id.
Hypothesis Hindex : get_table_index ps (hash id) = Some (Z.of_nat i).
Hypothesis Htype : get_type o = type.
Hypothesis Hlive : live o /\ flags_are_clear o HOF_DELETED = true.
Hypothesis Hbuffer : pho_buffer (ho_payload o) = NoBuffer.
Hypothesis Hlength : 0 < ho_length o.
(** The name is free, but for objects that are being deleted. *)
Hypothesis Hfree : forall y, ~ is_record ps id y.
(** A table that is resized does not have two objects of one name. *)
Hypothesis Hcalm : ht_full (ps_store ps) t = true -> names_distinct (x :: l) (<[x := o]> (ps_heap ps)).
(** There is room. *)
Hypothesis Hm1 : m_used_size m1 = m_used_size (ps_memory ps) + ho_length o.
Hypothesis Hroom : m_used_size m1 + 2 ^ 36 < 2 ^ 62.
Hypothesis Hcount : Z.of_nat (size (ps_heap ps)) + 1 < 2 ^ 32.

Local Abbreviation h1 := (<[x := o]> (ps_heap ps)).

Lemma x_not_in y : y ∈ concat ls -> y <> x.
Proof. intros Hy E. subst y. apply (sr_heap _ _ _ _ _ _ Hr) in Hy as [? ?]. congruence. Qed.

Lemma l_in_all y : y ∈ l -> y ∈ concat ls.
Proof. intros Hy. apply elem_of_concat. by exists i, l. Qed.

Lemma x_fresh : x ∉ l.
Proof. intros Hxl. by apply (x_not_in x); [by apply l_in_all|]. Qed.

Lemma heap_in_l y : y ∈ l -> h1 !! y = ps_heap ps !! y.
Proof. intros Hy. rewrite lookup_insert_ne; [done|]. intros E. apply x_fresh. by rewrite E. Qed.

Lemma l_room : zlen l + 1 < 2 ^ 32.
Proof.
  destruct (rep_table _ _ _ _ Hrep) as (_ & Hd & Hnd). assert (length l <= size (ps_heap ps))%nat; [|unfold zlen; lia].
  apply length_le_size; [done|]. intros y Hy. by eapply dseg_elem.
Qed.

(** The table after [add]. *)
Record added (r : bool) (t' : HashTable) (h' : heap) (m' : Memory) : Prop := {
  ad_rep : ht_rep (ps_store ps) t' h' (x :: l);
  ad_core : same_core h1 h';
  ad_frame : forall y, y ∉ x :: l -> h' !! y = ps_heap ps !! y;
  ad_memory : m_used_size m' = m_used_size m1 - ht_nbuckets t * SIZEOF_POINTER + ht_nbuckets t' * SIZEOF_POINTER;
  ad_bound : m_used_size m' < 2 ^ 62;
  ad_find : forall y oy, y ∈ x :: l -> h' !! y = Some oy -> live oy ->
    ht_find (ps_store ps) t' h' (ho_hash oy) (ho_name oy) = Some (Some y);
}.

(** Objects of the table by their names. *)
Lemma found_before y oy : y ∈ l -> ps_heap ps !! y = Some oy -> live oy ->
  ht_find (ps_store ps) t (ps_heap ps) (ho_hash oy) (ho_name oy) = Some (Some y) /\ ho_hash oy = hash (ho_name oy)
  /\ valid_name (ho_name oy) /\ ho_name oy <> id.
Proof.
  intros Hy Hoy Hly. pose proof (sr_table _ _ _ _ _ _ Hr i l qs Hl Hq) as Htb.
  destruct (tb_object _ _ _ _ _ _ _ Htb y Hy) as (oy' & Hoy' & Hob & _). simplify_eq.
  pose proof (tb_find _ _ _ _ _ _ _ Htb y oy Hy Hoy Hly) as Hf. unfold found in Hf. rewrite Ht in Hf. split; [done|].
  split; [apply Hob|]. split; [apply Hob|]. intros Hn. apply (Hfree y). by exists oy.
Qed.

Lemma core_live o1 o2 : core o1 = core o2 -> live o1 <-> live o2.
Proof. unfold core, live, flags_are_clear. intros H. injection H as _ _ _ Hf _ _. by rewrite Hf. Qed.

Lemma add_ok : exists r t' h' m', ht_add (ps_store ps) t h1 m1 x = Some (r, t', h', m') /\ added r t' h' m'.
Proof.
  destruct Hname as (Hn & Hh & Hv). pose proof (rep_nbuckets _ _ _ _ Hrep) as Hp. pose proof (pow2_pos _ Hp).
  assert (ht_rep (ps_store ps) t h1 l) as Hrep1 by (eapply ht_rep_frame; [|done]; apply heap_in_l).
  assert (ht_nbuckets t * SIZEOF_POINTER <= m_used_size (ps_memory ps)) as Hnb.
  { destruct (sr_memory _ _ _ _ _ _ Hr) as (u & Hu & Hm & _). assert (0 <= total (bytes_of ps) (concat ls)) by (by eapply objects_bytes_nonneg).
    assert (ht_nbuckets t * SIZEOF_POINTER <= tables_bytes (os_tables ps)); [|lia].
    apply tables_bytes_elem; [|by eapply list_elem_of_lookup_2]. intros t' Ht'. by eapply Z.lt_le_incl, nbuckets_pos. }
  assert (ht_others t m1 (m_used_size m1 - ht_nbuckets t * SIZEOF_POINTER)) as Hoth by (unfold ht_others, SIZEOF_POINTER in *; lia).
  assert (h1 !! x = Some o) as Hx1 by apply lookup_insert_eq.
  assert (ho_hash o <> INVALID_HASH_VALUE) as Hhv by (rewrite Hh; by apply hash_valid).
  destruct (ht_add_full _ _ _ _ _ _ _ _ Hrep1 Hoth (sr_fill _ _ _ _ _ _ Hr) Hx1 Hhv x_fresh l_room)
    as (r & t' & h' & m' & Hadd & Hrep' & Hc & Hoth' & Hfr & _).
  exists r, t', h', m'. split; [done|]. pose proof (rep_nbuckets _ _ _ _ Hrep') as Hp'. pose proof (pow2_pos _ Hp').
  destruct Hoth' as [_ Hm']. unfold SIZEOF_POINTER in *. constructor; unfold SIZEOF_POINTER; try done; [|lia|].
  { intros y Hy. rewrite Hfr by done. apply lookup_insert_ne. intros E. apply Hy. rewrite E. left. }
  intros y oy Hy Hoy Hly.
  destruct (same_core_lookup h' h1 y oy (fun z => eq_sym (Hc z)) Hoy) as (oy1 & Hoy1 & Hcy).
  assert (ho_hash oy1 = ho_hash oy /\ ho_name oy1 = ho_name oy) as [E1 E2] by (unfold core in Hcy; split; congruence).
  assert (valid_name (ho_name oy1) /\ ho_hash oy1 = hash (ho_name oy1)) as [Hvy Hhy].
  { apply elem_of_cons in Hy as [->|Hy]; [assert (oy1 = o) as -> by congruence; by rewrite Hn|]. rewrite heap_in_l in Hoy1 by done.
    assert (live oy1) as Hl1 by (by eapply core_live; [|exact Hly]). destruct (found_before y oy1 Hy Hoy1 Hl1) as (_ & ? & ? & _). done. }
  rewrite <- E1, <- E2. pose proof (valid_name_nonempty _ Hvy) as Hne. pose proof (hash_valid _ Hvy) as Hhne. rewrite <- Hhy in Hhne.
  destruct r eqn:Er.
  - apply (ht_find_unique _ _ _ (x :: l)); try done; [exists oy; by rewrite E1, E2|].
    pose proof (ht_add_resized _ _ _ _ _ _ _ _ Hadd) as Hw.
    intros z Hz (oz & Hoz & _ & Hnz). destruct (same_core_lookup h' h1 z oz (fun z => eq_sym (Hc z)) Hoz) as (oz1 & Hoz1 & Hcz).
    apply (Hcalm Hw z y oz1 oy1); try done. unfold core in Hcz. congruence.
  - rewrite (ht_add_find _ _ _ _ _ _ _ _ _ _ _ _ _ Hrep1 Hoth (sr_fill _ _ _ _ _ _ Hr) Hx1 Hhv x_fresh l_room Hadd Hhne Hne).
    apply elem_of_cons in Hy as [->|Hy].
    + rewrite decide_True; [done|]. by exists oy1.
    + rewrite heap_in_l in Hoy1 by done. assert (live oy1) as Hl1 by (by eapply core_live; [|exact Hly]).
      destruct (found_before y oy1 Hy Hoy1 Hl1) as (Hf & _ & _ & Hnid). rewrite decide_False.
      * rewrite (ht_find_frame _ _ _ _ _ _ _ Hrep); [done|apply heap_in_l|done|done].
      * intros (o1 & Ho1 & _ & Hn1). simplify_eq.
Qed.

(** *** The store between [add] and the disposal of deleted objects *)

Section Added.
Context (r : bool) (t' : HashTable) (h' : heap) (m' : Memory).
Hypothesis Hadd : added r t' h' m'.

Definition between : PayloadObjectStore := ps_with_objects (ps_with_table (ps_with_objects ps h1 m1) i t') h' m'.
Local Abbreviation ps2 := between.

Lemma core_same y : core <$> h' !! y = core <$> h1 !! y.
Proof. apply (ad_core _ _ _ _ Hadd). Qed.

Lemma between_object y oy : y <> x -> h' !! y = Some oy -> exists oy0, ps_heap ps !! y = Some oy0 /\ core oy = core oy0.
Proof.
  intros Hne Ho. destruct (same_core_lookup h' h1 y oy (fun z => eq_sym (core_same z)) Ho) as (oy0 & Hoy0 & Hc).
  rewrite lookup_insert_ne in Hoy0 by congruence. by exists oy0.
Qed.

Lemma between_new : exists o', h' !! x = Some o' /\ core o' = core o.
Proof. apply (same_core_lookup h1 h' x o); [apply Hadd|apply lookup_insert_eq]. Qed.

Lemma bytes_between y : y <> x -> bytes_of ps2 y = bytes_of ps y.
Proof.
  intros Hne. unfold bytes_of. cbn. pose proof (core_same y) as Hc. rewrite lookup_insert_ne in Hc by congruence.
  destruct (h' !! y) as [o1|], (ps_heap ps !! y) as [o2|]; cbn in Hc; try done. change (Some (core o1) = Some (core o2)) in Hc.
  apply core_bytes. congruence.
Qed.

Lemma bytes_new : bytes_of ps2 x = ho_length o.
Proof.
  destruct between_new as (o' & Ho' & Hc). unfold bytes_of. cbn. rewrite Ho', (core_bytes o o') by done. unfold object_bytes, buffer_bytes.
  rewrite Hbuffer, (sr_xrefs _ _ _ _ _ _ Hr). destruct (get_type o); lia.
Qed.

Lemma total_between : total (bytes_of ps2) (x :: concat ls) = ho_length o + total (bytes_of ps) (concat ls).
Proof.
  unfold total. cbn [foldr]. fold (total (bytes_of ps2) (concat ls)). rewrite bytes_new. f_equal. apply total_ext.
  intros y Hy. apply bytes_between. by apply x_not_in.
Qed.

Lemma between_nonneg y : y ∈ x :: concat ls -> 0 <= bytes_of ps2 y.
Proof.
  intros [->|Hy]%elem_of_cons; [rewrite bytes_new; lia|]. rewrite bytes_between by (by apply x_not_in).
  by eapply Z.lt_le_incl, bytes_of_pos.
Qed.

(** What the store's memory is made of. *)
Lemma memory_between : exists u, 0 <= u /\ m_used_size m' = u + tables_bytes (os_tables ps2) + total (bytes_of ps2) (x :: concat ls).
Proof.
  destruct (sr_memory _ _ _ _ _ _ Hr) as (u & Hu & Hm & _). exists u. split; [done|]. rewrite total_between, (ad_memory _ _ _ _ Hadd), Hm1, Hm.
  cbn [os_tables between ps_with_objects ps_with_table]. rewrite (tables_bytes_insert _ _ t) by done. lia.
Qed.

Lemma between_tables_nonneg : 0 <= tables_bytes (os_tables ps2).
Proof.
  cbn [os_tables between ps_with_objects ps_with_table]. rewrite (tables_bytes_insert _ _ t) by done.
  assert (ht_nbuckets t * SIZEOF_POINTER <= tables_bytes (os_tables ps)).
  { apply tables_bytes_elem; [|by eapply list_elem_of_lookup_2]. intros t1 Ht1. by eapply Z.lt_le_incl, nbuckets_pos. }
  pose proof (pow2_pos _ (rep_nbuckets _ _ _ _ (ad_rep _ _ _ _ Hadd))). unfold SIZEOF_POINTER in *. lia.
Qed.

Lemma deleting_between : deleting (readers_of ps2) (bytes_of ps2) ps2 i (x :: l) qs.
Proof.
  pose proof (sr_table _ _ _ _ _ _ Hr i l qs Hl Hq) as Htb. pose proof (lookup_lt_Some _ _ _ Ht) as Hi.
  assert (forall y, y ∈ qs -> y ∈ l /\ y <> x) as Hqs.
  { intros y Hy. assert (y ∈ l) as Hyl by (by apply (tb_queued _ _ _ _ _ _ _ Htb)). split; [done|]. by apply x_not_in, l_in_all. }
  constructor; cbn.
  - exists t'. split; [by apply list_lookup_insert_eq|apply Hadd].
  - apply (tb_queue _ _ _ _ _ _ _ Htb).
  - rewrite zlen_cons. pose proof l_room. lia.
  - apply (tb_nodup _ _ _ _ _ _ _ Htb).
  - intros y Hy. right. by apply Hqs.
  - intros y Hy. destruct (Hqs y Hy) as [Hyl Hne]. destruct (tb_object _ _ _ _ _ _ _ Htb y Hyl) as (oy & Hoy & _ & Hd & _).
    pose proof (core_same y) as Hc. rewrite lookup_insert_ne, Hoy in Hc by congruence.
    destruct (h' !! y) as [o1|] eqn:Eo; [|done]. change (Some (core o1) = Some (core oy)) in Hc.
    assert (core o1 = core oy) as Hc1 by congruence.
    exists o1. unfold readers_of, bytes_of. cbn. rewrite Eo. split_and!; try done. by eapply core_disposable; [|by apply Hd].
  - split; [|pose proof (ad_bound _ _ _ _ Hadd); lia]. destruct memory_between as (u & Hu & ->). pose proof between_tables_nonneg.
    assert (total (bytes_of ps2) qs <= total (bytes_of ps2) (x :: concat ls)); [|lia].
    apply total_part; [apply between_nonneg|apply (tb_nodup _ _ _ _ _ _ _ Htb)|]. intros y Hy. right. apply l_in_all. by apply Hqs.
Qed.

(** *** After the disposal *)

Section After.
Context (ps3 : PayloadObjectStore) (l' qs' ds : list loc).
Hypothesis Hdis : disposed (bytes_of ps2) ps2 ps3 i (x :: l) l' ds.
Hypothesis Hdel : deleting (readers_of ps2) (bytes_of ps2) ps3 i l' qs'.
Hypothesis Hperm : Permutation qs (qs' ++ ds).

Lemma ds_queued y : y ∈ ds -> y ∈ qs /\ y ∈ l /\ y <> x.
Proof.
  intros Hy. assert (y ∈ qs) as Hyq by (rewrite Hperm; apply elem_of_app; by right). split; [done|].
  assert (y ∈ l) as Hyl by (by apply (tb_queued _ _ _ _ _ _ _ (sr_table _ _ _ _ _ _ Hr i l qs Hl Hq))).
  split; [done|]. by apply x_not_in, l_in_all.
Qed.

Lemma l'_nodup : NoDup l'.
Proof. destruct (del_table _ _ _ _ _ _ Hdel) as (t3 & _ & Hrep3). apply (rep_table _ _ _ _ Hrep3). Qed.

Lemma l'_perm : Permutation (l' ++ ds) (x :: l).
Proof.
  assert (NoDup ds) as Hnd.
  { pose proof (tb_nodup _ _ _ _ _ _ _ (sr_table _ _ _ _ _ _ Hr i l qs Hl Hq)) as Hn. rewrite Hperm in Hn. by apply NoDup_app in Hn as (_ & _ & ?). }
  apply NoDup_Permutation.
  - apply NoDup_app. split; [apply l'_nodup|]. split; [|done]. intros y Hy. by apply (dis_table _ _ _ _ _ _ _ Hdis) in Hy as [_ ?].
  - constructor; [apply x_fresh|]. apply (rep_table _ _ _ _ Hrep).
  - intros y. rewrite elem_of_app, (dis_table _ _ _ _ _ _ _ Hdis). destruct (decide (y ∈ ds)) as [Hy|Hy]; [|tauto].
    split; [|tauto]. intros _. right. by apply ds_queued.
Qed.

Lemma all_perm : Permutation (concat (<[i := l']> ls) ++ ds) (x :: concat ls).
Proof.
  apply (Permutation_app_inv_r l). rewrite <- app_assoc, (Permutation_app_comm ds l), app_assoc, (concat_insert ls i l l') by done.
  rewrite <- app_assoc, l'_perm. by rewrite <- Permutation_middle.
Qed.

Lemma all_elem y : y ∈ concat (<[i := l']> ls) <-> (y = x \/ y ∈ concat ls) /\ y ∉ ds.
Proof.
  assert (NoDup (concat (<[i := l']> ls) ++ ds)) as Hnd.
  { rewrite all_perm. constructor; [intros Hxl; by apply (x_not_in x)|apply (sr_nodup _ _ _ _ _ _ Hr)]. }
  apply NoDup_app in Hnd as (_ & Hd & _). split.
  - intros Hy. split; [|by apply Hd]. assert (y ∈ x :: concat ls) as Hy' by (rewrite <- all_perm; apply elem_of_app; by left).
    by apply elem_of_cons in Hy'.
  - intros [Hy Hn]. assert (y ∈ concat (<[i := l']> ls) ++ ds) as Hy' by (rewrite all_perm; by apply elem_of_cons).
    apply elem_of_app in Hy' as [?|?]; done.
Qed.

(** Every object that is left is as it was before. *)
Lemma kept_core y o3 : y <> x -> ps_heap ps3 !! y = Some o3 -> exists o0, ps_heap ps !! y = Some o0 /\ core o3 = core o0.
Proof.
  intros Hne Ho3. assert (y ∉ ds) as Hy by (intros Hy; apply (dis_gone _ _ _ _ _ _ _ Hdis) in Hy; congruence).
  pose proof (dis_kept _ _ _ _ _ _ _ Hdis y Hy) as Hc. rewrite Ho3 in Hc. destruct (ps_heap ps2 !! y) as [o2|] eqn:E2; [|done].
  change (Some (core o3) = Some (core o2)) in Hc. destruct (between_object y o2 Hne E2) as (o0 & Ho0 & Hc0). exists o0. split; [done|]. congruence.
Qed.

Lemma kept_new : exists o3, ps_heap ps3 !! x = Some o3 /\ core o3 = core o.
Proof.
  destruct between_new as (o2 & Ho2 & Hc2). assert (x ∉ ds) as Hx by (intros Hx; apply ds_queued in Hx as (_ & _ & ?); done).
  pose proof (dis_kept _ _ _ _ _ _ _ Hdis x Hx) as Hc. change (ps_heap ps2) with h' in Hc. rewrite Ho2 in Hc.
  destruct (ps_heap ps3 !! x) as [o3|]; [|done]. change (Some (core o3) = Some (core o2)) in Hc. exists o3. split; [done|]. congruence.
Qed.

Lemma kept_some y o0 : y ∉ ds -> ps_heap ps !! y = Some o0 -> exists o3, ps_heap ps3 !! y = Some o3 /\ core o3 = core o0.
Proof.
  intros Hy Ho0. assert (y <> x) as Hne by (intros E; rewrite E in Ho0; congruence).
  pose proof (core_same y) as Hc. rewrite lookup_insert_ne, Ho0 in Hc by congruence.
  pose proof (dis_kept _ _ _ _ _ _ _ Hdis y Hy) as Hc3. change (ps_heap ps2) with h' in Hc3. rewrite Hc in Hc3.
  destruct (ps_heap ps3 !! y) as [o3|]; [|done]. change (Some (core o3) = Some (core o0)) in Hc3. exists o3. split; [done|]. congruence.
Qed.

Lemma heap_after y : is_Some (ps_heap ps3 !! y) <-> y ∈ concat (<[i := l']> ls).
Proof.
  rewrite all_elem. split.
  - intros [o3 Ho3]. split; [|intros Hy; apply (dis_gone _ _ _ _ _ _ _ Hdis) in Hy; congruence].
    destruct (decide (y = x)) as [E|Hne]; [by left|right]. destruct (kept_core y o3 Hne Ho3) as (o0 & Ho0 & _).
    apply (sr_heap _ _ _ _ _ _ Hr). by eexists.
  - intros [[E|Hy] Hn]; [rewrite E; destruct kept_new as (o3 & ? & _); by eexists|].
    apply (sr_heap _ _ _ _ _ _ Hr) in Hy as [o0 Ho0]. destruct (kept_some y o0 Hn Ho0) as (o3 & ? & _). by eexists.
Qed.

Lemma bytes_after y : y ∈ concat (<[i := l']> ls) -> bytes_of ps3 y = bytes_of ps2 y.
Proof.
  intros Hy. apply all_elem in Hy as [_ Hn]. pose proof (dis_kept _ _ _ _ _ _ _ Hdis y Hn) as Hc. unfold bytes_of.
  destruct (dis_others _ _ _ _ _ _ _ Hdis) as (_ & -> & _).
  destruct (ps_heap ps3 !! y) as [o3|], (ps_heap ps2 !! y) as [o2|]; try done. change (Some (core o3) = Some (core o2)) in Hc.
  apply core_bytes. congruence.
Qed.

Lemma memory_after : exists u, 0 <= u /\ m_used_size (ps_memory ps3) = u + tables_bytes (os_tables ps3) + total (bytes_of ps3) (concat (<[i := l']> ls))
  /\ m_used_size (ps_memory ps3) <= m_used_size m'.
Proof.
  destruct memory_between as (u & Hu & Hm). exists u. split; [done|].
  pose proof (dis_memory _ _ _ _ _ _ _ Hdis) as Hm3. change (ps_memory ps2) with m' in Hm3. rewrite Hm in Hm3.
  assert (tables_bytes (os_tables ps3) = tables_bytes (os_tables ps2)) as ->.
  { apply tables_bytes_ext. destruct (dis_fixed _ _ _ _ _ _ _ Hdis) as (Hn & Hlen & _). apply list_eq. intros j. rewrite !list_lookup_fmap.
    destruct (decide (j = i)) as [->|Hne]; [done|]. destruct (dis_others _ _ _ _ _ _ _ Hdis) as (_ & _ & Ho). by destruct (Ho j Hne) as [-> _]. }
  rewrite (total_ext _ _ _ bytes_after). rewrite Hm3, Hm. rewrite <- (total_perm _ _ _ all_perm), total_app.
  assert (0 <= total (bytes_of ps2) ds); [|lia]. apply total_nonneg. intros y Hy. apply between_nonneg. right. apply l_in_all. by apply ds_queued.
Qed.

Lemma table_after : table_ok hash type ps3 (Some x) i l' qs'.
Proof.
  pose proof (sr_table _ _ _ _ _ _ Hr i l qs Hl Hq) as Htb. destruct Hname as (Hn & Hh & Hv). destruct Hlive as [Hlv Hnd].
  destruct (dis_others _ _ _ _ _ _ _ Hdis) as (Est & Exr & _). destruct (dis_fixed _ _ _ _ _ _ _ Hdis) as (_ & Elen & _).
  assert (length (os_tables ps3) = length (os_tables ps)) as Elen3 by (rewrite Elen; apply length_insert).
  assert (forall y, y ∈ qs' -> y ∈ qs) as Hsub by (intros y Hy; rewrite Hperm; apply elem_of_app; by left).
  constructor; try apply Hdel.
  - intros y Hy. apply (dis_table _ _ _ _ _ _ _ Hdis) in Hy as [Hyl Hyd]. destruct (decide (y = x)) as [E|Hne].
    + subst y. destruct kept_new as (o3 & Ho3 & Hc). exists o3. split; [done|]. destruct (core_view _ _ Hc) as (E1 & E2 & E3 & E4 & E5 & E6).
      split_and!.
      * constructor; unfold live, has_buffer in *; rewrite ?E1, ?E2, ?E4, ?E5; try done.
        -- by rewrite Hn.
        -- by rewrite Hn.
        -- rewrite Hh, <- Hindex. unfold get_table_index, os_ntables, zlen. by rewrite Elen3.
        -- rewrite <- Htype. unfold get_type. by rewrite E3.
        -- unfold buffer_wf. by rewrite Hbuffer.
      * intros Hxq. apply Hsub, (tb_queued _ _ _ _ _ _ _ Htb) in Hxq. by apply x_fresh in Hxq.
      * unfold flags_are_clear in *. rewrite E3. intros Hf. congruence.
    + apply elem_of_cons in Hyl as [?|Hyl]; [done|]. destruct (tb_object _ _ _ _ _ _ _ Htb y Hyl) as (o0 & Ho0 & Hob & Hd & Hdl).
      destruct (kept_some y o0 Hyd Ho0) as (o3 & Ho3 & Hc). exists o3. split; [done|]. split_and!.
      * eapply object_ok_core; [exact Hc|exact Elen3| |exact Hob]. done.
      * intros Hy. rewrite Exr. eapply core_disposable; [exact Hc|]. by apply Hd, Hsub.
      * intros Hf. assert (y ∈ qs) as Hyq by (apply Hdl; destruct (core_view _ _ Hc) as (_ & _ & E3 & _); unfold flags_are_clear in *; by rewrite <- E3).
        rewrite Hperm in Hyq. by apply elem_of_app in Hyq as [?|?].
  - intros y o3 Hy Ho3 Hl3. apply (dis_table _ _ _ _ _ _ _ Hdis) in Hy as [Hyl Hyd].
    pose proof (dis_kept _ _ _ _ _ _ _ Hdis y Hyd) as Hc. rewrite Ho3 in Hc. change (ps_heap ps2) with h' in Hc.
    destruct (h' !! y) as [o2|] eqn:E2; [|done]. change (Some (core o3) = Some (core o2)) in Hc. assert (core o3 = core o2) as Hc' by congruence.
    assert (live o2) as Hl2 by (by eapply core_live; [|exact Hl3]). pose proof (ad_find _ _ _ _ Hadd y o2 Hyl E2 Hl2) as Hf.
    destruct (core_view _ _ Hc') as (E1 & E3 & _). rewrite E1, E3. apply (dis_found _ _ _ _ _ _ _ Hdis); [|done].
    unfold found. cbn [os_tables between ps_with_objects ps_with_table]. rewrite list_lookup_insert_eq by (by eapply lookup_lt_Some).
    exact Hf.
Qed.

Lemma other_table j lj qj : j <> i -> ls !! j = Some lj -> qss !! j = Some qj -> table_ok hash type ps3 (Some x) j lj qj.
Proof.
  intros Hne Hlj Hqj. pose proof (sr_table _ _ _ _ _ _ Hr j lj qj Hlj Hqj) as [(tj & Htj & Hrepj) (q & Hqq & Hh) T3 T4 T5 T6].
  destruct (dis_others _ _ _ _ _ _ _ Hdis) as (Est & Exr & Eo). destruct (Eo j Hne) as [Et Eq]. destruct (dis_fixed _ _ _ _ _ _ _ Hdis) as (_ & Elen & _).
  assert (length (os_tables ps3) = length (os_tables ps)) as Elen3 by (rewrite Elen; apply length_insert).
  assert (forall y, y ∈ lj -> ps_heap ps3 !! y = ps_heap ps !! y) as Hsame.
  { intros y Hy. assert (y ∉ x :: l) as Hyl.
    { intros [E|Hyl]%elem_of_cons; [apply (x_not_in y); [apply elem_of_concat; by exists j, lj|done]|].
      by destruct (concat_elem_unique ls i j l lj y (sr_nodup _ _ _ _ _ _ Hr) Hl Hlj Hyl Hy Hne). }
    rewrite (dis_frame _ _ _ _ _ _ _ Hdis) by done. by apply (ad_frame _ _ _ _ Hadd). }
  assert (os_tables ps3 !! j = Some tj) as Etj.
  { rewrite Et. cbn [os_tables between ps_with_objects ps_with_table]. by rewrite list_lookup_insert_ne by done. }
  constructor; try done.
  - exists tj. split; [done|]. rewrite Est. by apply (ht_rep_frame _ _ (ps_heap ps)).
  - exists q. rewrite Eq. done.
  - intros y Hy. destruct (T5 y Hy) as (oy & Hoy & Hob & Hd & Hdl). exists oy. rewrite Hsame, Exr by done. split; [done|].
    split; [|done]. by eapply object_ok_core; [|exact Elen3| |exact Hob].
  - intros y oy Hy Hoy Hly. rewrite Hsame in Hoy by done. pose proof (T6 y oy Hy Hoy Hly) as Hf. unfold found in *. rewrite Htj in Hf. rewrite Etj.
    cbn [mbind option_bind] in *. rewrite Est. destruct (ht_find_args _ _ _ _ _ _ Hf) as [Hh1 Hn1].
    by rewrite (ht_find_frame _ _ (ps_heap ps) _ lj).
Qed.

Lemma rep_after : store_rep ps3 (Some x) (<[i := l']> ls) (<[i := qs']> qss).
Proof.
  destruct (dis_others _ _ _ _ _ _ _ Hdis) as (Est & Exr & _). destruct (dis_fixed _ _ _ _ _ _ _ Hdis) as (_ & Elen & Elq & Eq1 & Eq2).
  assert (length (os_tables ps3) = length (os_tables ps)) as Elen3 by (rewrite Elen; apply length_insert).
  destruct (sr_lengths _ _ _ _ _ _ Hr) as [L1 L2]. pose proof (lookup_lt_Some _ _ _ Hl). pose proof (lookup_lt_Some _ _ _ Hq). constructor.
  - unfold os_ntables, zlen. rewrite Elen3. apply Hr.
  - rewrite Est. apply Hr.
  - rewrite Eq1, Eq2. apply (sr_quotas _ _ _ _ _ _ Hr).
  - rewrite Exr. apply (sr_xrefs _ _ _ _ _ _ Hr).
  - rewrite !length_insert. lia.
  - intros j lj qj Hlj Hqj. destruct (decide (j = i)) as [->|Hne].
    + rewrite list_lookup_insert_eq in Hlj, Hqj by done. injection Hlj as <-. injection Hqj as <-. apply table_after.
    + rewrite list_lookup_insert_ne in Hlj, Hqj by done. by apply other_table.
  - assert (NoDup (concat (<[i := l']> ls) ++ ds)) as Hnd; [|by apply NoDup_app in Hnd as [? _]].
    rewrite all_perm. constructor; [intros Hxl; by apply (x_not_in x)|apply (sr_nodup _ _ _ _ _ _ Hr)].
  - apply heap_after.
  - destruct memory_after as (u & Hu & Hm & Hle). exists u. split_and!; [done|done|]. pose proof (ad_bound _ _ _ _ Hadd). lia.
Qed.

Lemma models_after M o3 : models ps M -> ps_heap ps3 !! x = Some o3 -> models ps3 (<[id := record_of x o3]> M).
Proof.
  intros HM Ho3 id' rec. destruct kept_new as (o3' & Ho3' & Hc). assert (o3' = o3) as -> by congruence. clear Ho3'. destruct Hname as (Hn & _ & _). destruct Hlive as [Hlv _].
  destruct (core_view _ _ Hc) as (_ & En & _). assert (live o3) as Hl3 by (eapply core_live; [exact Hc|done]).
  assert (forall y oy o0, core oy = core o0 -> record_of y oy = record_of y o0 /\ ho_name oy = ho_name o0 /\ (live oy <-> live o0)) as Hrec.
  { intros y oy o0 Hcy. destruct (core_view _ _ Hcy) as (_ & -> & _ & Ep & _). split; [unfold record_of; by rewrite Ep|]. split; [done|by apply core_live]. }
  assert (forall y oy, y <> x -> ps_heap ps3 !! y = Some oy -> live oy -> ho_name oy <> id) as Hother.
  { intros y oy Hne Hoy Hly Hny. destruct (kept_core y oy Hne Hoy) as (o0 & Ho0 & Hc0). destruct (Hrec y oy o0 Hc0) as (_ & E & El).
    apply (Hfree y). exists o0. split; [done|]. split; [congruence|by apply El]. }
  destruct (decide (id' = id)) as [->|Hne].
  - rewrite lookup_insert_eq. split.
    + intros [= <-]. exists x, o3. split_and!; [done|congruence|done|done].
    + intros (y & oy & Hoy & Hny & Hly & <-). destruct (decide (y = x)) as [E|Hyx]; [subst y; congruence|]. by destruct (Hother y oy).
  - rewrite lookup_insert_ne by done. rewrite (HM id' rec). split; intros (y & oy & Hoy & Hny & Hly & <-).
    + assert (y ∉ ds) as Hyd.
      { intros Hy. apply ds_queued in Hy as (Hyq & Hyl & _). pose proof (sr_table _ _ _ _ _ _ Hr i l qs Hl Hq) as Htb.
        destruct (tb_object _ _ _ _ _ _ _ Htb y Hyl) as (oy' & Hoy' & _ & Hd & _).
        assert (oy' = oy) as -> by congruence. specialize (Hd Hyq).
        pose proof (disposable_deleted _ _ Hd) as Hdd.
        assert (flags_are_clear oy HOF_DELETED = true) by (by eapply live_fresh; [|exists ls, qss|..]). congruence. }
      destruct (kept_some y oy Hyd Hoy) as (o4 & Ho4 & Hc4). destruct (Hrec y o4 oy Hc4) as (Er & En4 & El). exists y, o4.
      split_and!; [done|congruence|by apply El|done].
    + assert (y <> x) as Hyx by (intros E; subst y; congruence).
      destruct (kept_core y oy Hyx Hoy) as (o0 & Ho0 & Hc0). destruct (Hrec y oy o0 Hc0) as (Er & En0 & El). exists y, o0.
      split_and!; [done|congruence|by apply El|done].
Qed.

End After.

End Added.

(** ** The section as a whole *)

Lemma add_object_ok st M : cs_objects st = ps_with_objects ps h1 m1 -> models ps M ->
  exists ps3 o3, add_object hash st id x = Some (with_store st ps3) /\ store_ok hash type ps3 (Some x)
    /\ ps_heap ps3 !! x = Some o3 /\ core o3 = core o /\ models ps3 (<[id := record_of x o3]> M)
    /\ m_used_size (ps_memory ps3) <= m_used_size m1 + 2 ^ 35
    /\ forall y o', y <> x -> ps_heap ps3 !! y = Some o' -> exists o0, ps_heap ps !! y = Some o0 /\ core o' = core o0.
Proof.
  intros Hst HM. destruct add_ok as (r & t' & h' & m' & Ea & Had). pose proof (deleting_between r t' h' m' Had) as Hdel.
  pose proof (sr_quotas _ _ _ _ _ _ Hr) as [Q1 Q2].
  set (num := if r then pos_dispose_if_resized ps else pos_dispose_if_not_resized ps).
  assert (0 <= num) as Hnum by (unfold num; destruct r; lia).
  destruct (deferred_disposal (between t' h' m') (Z.of_nat i) num (x :: l) qs) as (ps3 & l' & qs' & Ed & Hdis & Hdel3 & Hp & _); [lia|lia|by rewrite Nat2Z.id|].
  rewrite Nat2Z.id in Hdis, Hdel3.
  destruct (kept_new r t' h' m' Had ps3 l' qs' _ Hdis Hp) as (o3 & Ho3 & Hc). exists ps3, o3.
  assert (add_object hash st id x = Some (with_store st ps3)) as ->.
  { unfold add_object, table_of. rewrite Hst. change (get_table_index (ps_with_objects ps h1 m1) (hash id)) with (get_table_index ps (hash id)).
    rewrite Hindex. cbn [mbind option_bind os_tables ps_with_objects]. rewrite Nat2Z.id, Ht. cbn [mbind option_bind ps_store ps_heap ps_memory ps_with_objects].
    rewrite Ea. cbn [mbind option_bind]. unfold process_deleted_objects. fold (between t' h' m').
    change (pos_dispose_if_resized (between t' h' m')) with (pos_dispose_if_resized ps).
    change (pos_dispose_if_not_resized (between t' h' m')) with (pos_dispose_if_not_resized ps). fold num.
    rewrite Ed. done. }
  split; [done|]. split; [eexists _, _; by apply (rep_after r t' h' m' Had ps3 l' qs' _ Hdis Hdel3 Hp)|].
  split; [done|]. split; [done|]. split; [by eapply models_after|]. split.
  - destruct (memory_after r t' h' m' Had ps3 l' qs' _ Hdis Hdel3 Hp) as (_ & _ & _ & Hle). rewrite (ad_memory _ _ _ _ Had) in Hle.
    pose proof (pow2_pos _ (rep_nbuckets _ _ _ _ (ad_rep _ _ _ _ Had))). pose proof (pow2_pos _ (rep_nbuckets _ _ _ _ Hrep)).
    unfold SIZEOF_POINTER in *. lia.
  - intros y o' Hne Ho'. by eapply kept_core.
Qed.

End Add.
