(* ===== verification/StoreInit.v ===== *)
(** * StoreInit

    Allocation and configuration of a store of payload objects ([PayloadObjectStore] of
    [ht_stores.*]): its tables, its queues of deleted objects and its mutexes. A store as it
    is allocated has the invariant of [StoreOk]. *)

From S2P Require Import Prelude Protocol Memory Utils Queue MessageQueue DList HashObject HashTable ObjectStore NameTable Tags Optimizer StoreCommands StoreOk.

Definition DEFAULT_DISPOSE_COUNT_IF_RESIZED : Z := 4.
Definition DEFAULT_DISPOSE_COUNT_IF_NOT_RESIZED : Z := 64.

(** The constructors of the queues; that of a mutex allocates nothing. *)
Fixpoint init_queues (n : nat) (capacity max_capacity : Z) (m : Memory) : option (list (Queue Pointer) * Memory) :=
  match n with
  | O => Some ([], m)
  | S n =>
      q ← mq_create true m capacity max_capacity;
      '(qs, m) ← init_queues n capacity max_capacity (q_memory q);
      Some (q :: qs, m)
  end.

Section Init.

(** [sizeof(PayloadObjectQueue)] and [sizeof(DynamicMutex)], which contain objects of the platform. *)
Context (sizeof_queue sizeof_mutex : Z).

Definition init_payload_object_store (s : Store) (ntables table_capacity queue_capacity max_queue_capacity : Z) (m : Memory)
  : option PayloadObjectStore :=
  ns ← init_object_store s ntables table_capacity m;
  m ← calloc (ns_memory ns) ntables sizeof_queue;
  m ← calloc m ntables sizeof_mutex;
  '(qs, m) ← init_queues (Z.to_nat ntables) queue_capacity max_queue_capacity m;
  Some (mkPayloadObjectStore s (st_table <$> ns_tables ns) qs ∅ m
    DEFAULT_DISPOSE_COUNT_IF_RESIZED DEFAULT_DISPOSE_COUNT_IF_NOT_RESIZED 0 (fun _ => 0)).

(** [set_unlinking_quotas] *)
Definition set_unlinking_quotas (ps : PayloadObjectStore) (while_rebuilding while_not_rebuilding : Z) : PayloadObjectStore :=
  mkPayloadObjectStore (ps_store ps) (os_tables ps) (pos_queues ps) (ps_heap ps) (ps_memory ps) while_rebuilding while_not_rebuilding
    (pos_num_deleted_objects ps) (ps_xrefs ps).

(** [get_num_elements], the counters of the tables added up. *)
Definition get_num_elements (ps : PayloadObjectStore) : Z := foldr (fun t n => u32 (ht_count t + n)) 0 (os_tables ps).

(** ** The store as allocated *)

Local Strategy 1000 [mq_create].

Lemma init_queues_ok capacity max_capacity n : forall m qs m', 0 < capacity -> 0 <= max_capacity ->
  0 <= m_used_size m -> m_used_size m + Z.of_nat n * 2 ^ 35 < 2 ^ 62 ->
  init_queues n capacity max_capacity m = Some (qs, m') ->
  length qs = n /\ (forall i q, qs !! i = Some q -> holds q []) /\ m_used_size m <= m_used_size m' <= m_used_size m + Z.of_nat n * 2 ^ 35.
Proof.
  induction n as [|n IH]; intros m qs m' Hc Hmax Hm Hlt Hi; cbn [init_queues] in Hi; [injection Hi as <- <-; split_and!; [done|done|lia|lia]|].
  destruct (mq_create_ok (T := Pointer) (m_used_size m) m capacity max_capacity) as (q & Hq & Hring); [unfold others; lia|done|done|done|].
  rewrite Hq in Hi. cbn [mbind option_bind] in Hi. apply bind_Some in Hi as ([qs1 m1] & Hi & Heq). injection Heq as <- <-.
  pose proof (ring_used _ _ _ Hring) as Hu. pose proof (pow2_pos _ (ring_capacity _ _ _ Hring)) as Hp. change (@msg_size Pointer _) with 8 in Hu.
  destruct (IH (q_memory q) qs1 m1) as (Hl & Hh & Hle); [done|done|lia|lia|done|]. split_and!; [cbn; lia| |lia|lia].
  intros [|i] q' Hq'; [injection Hq' as <-; by exists (m_used_size m)|]. by apply (Hh i).
Qed.

Lemma calloc_used m n size m' : 0 < n <= 4 -> 0 < size < 2 ^ 32 -> 0 <= m_used_size m < 2 ^ 62 ->
  calloc m n size = Some m' -> m_used_size m' = m_used_size m + n * size.
Proof.
  intros Hn Hs Hm Hc. unfold calloc in Hc. apply bind_Some in Hc as (? & _ & Hc). injection Hc as <-. unfold fetch_add. cbn.
  rewrite (u64_small (n * size)) by (unfold is_u64; nia). rewrite u64_small; [done|]. unfold is_u64. nia.
Qed.

Lemma tables_bytes_buckets ts : tables_bytes (st_table <$> ts) = buckets_bytes ts.
Proof. unfold tables_bytes. induction ts as [|t ts IH]; [done|]. cbn in *. rewrite IH. done. Qed.

Lemma concat_nils {A} n : concat (replicate n ([] : list A)) = [].
Proof. by induction n. Qed.

Lemma init_store_ok hash type s n table_capacity capacity max_capacity m ps : pow2 n -> n <= 4 -> fill_ok s ->
  0 < capacity -> 0 <= max_capacity -> 0 < sizeof_queue < 2 ^ 32 -> 0 < sizeof_mutex < 2 ^ 32 -> 0 <= m_used_size m < 2 ^ 60 ->
  init_payload_object_store s n table_capacity capacity max_capacity m = Some ps ->
  store_ok hash type ps None /\ ps_heap ps = ∅.
Proof.
  intros Hp Hn Hf Hc Hmax Hsq Hsm Hm Hi. pose proof (pow2_pos _ Hp) as [Hn0 _]. unfold init_payload_object_store in Hi.
  apply bind_Some in Hi as (ns & Hns & Hi). unfold init_object_store in Hns. apply bind_Some in Hns as (? & _ & Hns).
  apply bind_Some in Hns as (m1 & Hm1 & Hns). apply bind_Some in Hns as ([ts m2] & Ht & Hns). injection Hns as <-. cbn [ns_memory ns_tables] in Hi.
  apply bind_Some in Hi as (m3 & Hm3 & Hi). apply bind_Some in Hi as (m4 & Hm4 & Hi). apply bind_Some in Hi as ([qs m5] & Hq & Hi). injection Hi as <-.
  apply calloc_used in Hm1; [|lia|unfold SIZEOF_HASH_TABLE; lia|lia]. unfold SIZEOF_HASH_TABLE in Hm1.
  destruct (init_tables_ok s table_capacity (Z.to_nat n) m1 ts m2) as (Hlt & Hts & Hm2); [lia|lia|done|].
  assert (forall t, t ∈ st_table <$> ts -> 0 < ht_nbuckets t <= 2 ^ 32) as Hnb.
  { intros t ([ti o] & -> & Hti)%list_elem_of_fmap. apply list_elem_of_lookup in Hti as [i Hti]. destruct (Hts i _ Hti) as [_ Hrep].
    pose proof (pow2_pos _ (rep_nbuckets _ _ _ _ Hrep)). cbn in *. lia. }
  assert (0 <= buckets_bytes ts <= Z.of_nat (length ts) * 2 ^ 35) as Hb.
  { rewrite <- tables_bytes_buckets. clear -Hnb. unfold tables_bytes, SIZEOF_POINTER. induction ts as [|t ts IH]; [done|]. cbn [fmap list_fmap foldr length] in *.
    destruct IH as [H1 H2]; [intros t' Ht'; apply Hnb; by right|]. pose proof (Hnb (st_table t) ltac:(left)).
    rewrite Nat2Z.inj_succ.
    set (z := foldr _ _ _) in H1, H2 |- *. lia. }
  assert (0 <= n * sizeof_queue <= 4 * 2 ^ 32 /\ 0 <= n * sizeof_mutex <= 4 * 2 ^ 32) as [Hq1 Hq2] by (split; nia).
  apply calloc_used in Hm3; [|lia|lia|lia]. apply calloc_used in Hm4; [|lia|lia|lia].
  destruct (init_queues_ok capacity max_capacity (Z.to_nat n) m4 qs m5) as (Hlq & Hqs & Hm5); [done|done|lia|lia|done|].
  split; [|done]. exists (replicate (length ts) []), (replicate (length ts) []).
  assert (length (st_table <$> ts) = length ts) as Hlf by apply length_fmap. constructor; cbn.
  - unfold os_ntables, zlen, MAX_NUM_TABLES_PER_STORE. cbn. rewrite Hlf, Hlt, Z2Nat.id by lia. done.
  - done.
  - done.
  - done.
  - by rewrite length_replicate, Hlf.
  - intros i l q [-> Hi]%lookup_replicate [-> _]%lookup_replicate. destruct (lookup_lt_is_Some_2 ts i Hi) as [st Hst].
    destruct (lookup_lt_is_Some_2 qs i) as [q Hqi]; [lia|]. destruct (Hts i st Hst) as [_ Hrep]. constructor; cbn.
    + exists (st_table st). rewrite list_lookup_fmap, Hst. split; [done|]. apply (ht_rep_frame _ _ ∅); [|done]. by intros y ?%elem_of_nil.
    + exists q. split; [done|]. by apply (Hqs i).
    + constructor.
    + by intros y ?%elem_of_nil.
    + by intros y ?%elem_of_nil.
    + by intros y o ?%elem_of_nil.
  - rewrite concat_nils. constructor.
  - intros y. rewrite concat_nils, lookup_empty. split; [by intros [? ?]|by intros ?%elem_of_nil].
  - exists (m_used_size m5 - buckets_bytes ts). rewrite tables_bytes_buckets, concat_nils. unfold total. cbn. split_and!; lia.
Qed.

End Init.
