(* ===== verification/SessionOk.v ===== *)
(** * SessionOk

    The contract of the session store: what a command does to the records as clients see
    them, and that the handlers implement it, whatever the optimizer and the readers of
    responses do in between. *)

From S2P Require Import Prelude Protocol Memory Buffers ChunkIterator Accessors CommandIO Utils DList HashObject HashTable ObjectStore NameTable Tags SessionLock Optimizer OptimizerInv StoreCommands SessionStore StoreOk StoreAdd.

(** ** States between the parts of a handler *)

(** One object is another, so much memory is used, and [evs] have been posted. *)
Definition after_change (st : command_store) (x : loc) (o : HashObject) (m : Memory) (evs : list store_event) : command_store :=
  mkCommandStore (ps_with_objects (cs_objects st) (<[x := o]> (cs_heap st)) m) (cs_sessions st) (cs_posted st ++ evs).

Lemma after_change_start st x o : with_object st x o = after_change st x o (cs_memory st) [].
Proof. destruct st. unfold after_change. cbn. by rewrite app_nil_r. Qed.

Lemma after_change_object st x o m evs : cs_heap (after_change st x o m evs) !! x = Some o.
Proof. apply lookup_insert_eq. Qed.

Lemma after_change_objects st x o m evs o' m' :
  with_objects (after_change st x o m evs) (<[x := o']> (cs_heap (after_change st x o m evs))) m' = after_change st x o' m' evs.
Proof. unfold after_change, with_objects, with_store, ps_with_objects, cs_heap. cbn. by rewrite insert_insert_eq. Qed.

Lemma after_change_with st x o m evs o' : with_object (after_change st x o m evs) x o' = after_change st x o' m evs.
Proof. unfold with_object. rewrite after_change_objects. done. Qed.

Lemma after_change_post st x o m evs e : post_event (after_change st x o m evs) e = after_change st x o m (evs ++ [e]).
Proof. unfold post_event, after_change. cbn. by rewrite app_assoc. Qed.

(** What [post_answer] posts. *)
Definition reply (cr : ReaderWriter) (a : answer) : list store_event := if is_set cr IO_FLAG_NETWORK then [Answer a] else [].

Lemma after_change_reply st x o m evs cr a : post_answer (after_change st x o m evs) cr a = after_change st x o m (evs ++ reply cr a).
Proof. unfold post_answer, reply. destruct (is_set cr IO_FLAG_NETWORK); [apply after_change_post|by rewrite app_nil_r]. Qed.

Lemma after_change_again st x o m evs o' m' evs' :
  after_change (after_change st x o m evs) x o' m' evs' = after_change st x o' m' (evs ++ evs').
Proof. unfold after_change, cs_heap, ps_with_objects. cbn. by rewrite insert_insert_eq, app_assoc. Qed.

Lemma after_change_session st x o m evs o' threads : cs_sessions st !! x = Some (threads, 0) ->
  session_at (after_change st x o m evs) x = Some (mkSessionObject o threads 0)
  /\ put_session (after_change st x o m evs) x (mkSessionObject o' threads 0) = after_change st x o' m evs.
Proof.
  intros Hs. split.
  - unfold session_at. rewrite after_change_object. cbn. by rewrite Hs.
  - unfold put_session. cbn [so_object so_threads so_request_id]. rewrite after_change_with. unfold with_session, after_change. cbn.
    by rewrite (insert_id (cs_sessions st)).
Qed.

(** ** Parts of handlers *)

Lemma lock_at_ok st x o : cs_heap st !! x = Some o -> is_locked o = false ->
  lock_at st x = Some (after_change st x (lock_object o) (cs_memory st) []).
Proof. intros Ho Hl. unfold lock_at. rewrite Ho. cbn. rewrite Hl. cbn. by rewrite after_change_start. Qed.

Lemma unlock_at_ok st x o m evs : unlock_at (after_change st x o m evs) x = Some (after_change st x (unlock_object o) m evs).
Proof. unfold unlock_at. rewrite after_change_object. cbn. by rewrite after_change_with. Qed.

Lemma register_ok o : is_locked o = true -> live o -> buffer_wf (ho_payload o) -> has_buffer o = true ->
  register_reader o = Some (with_semaphore o (u32 (pho_semaphore (ho_payload o) + 1))).
Proof.
  intros Hl Hv Hb Hh. unfold register_reader. unfold live in Hv. rewrite Hl, Hv, Hh. unfold buffer_wf, has_buffer in *.
  destruct (_ <=? _) eqn:E; zbool; [done|]. destruct (pho_buffer (ho_payload o)); [done|lia|lia].
Qed.

Lemma post_object_ok st x o m evs : is_locked o = true -> live o -> buffer_wf (ho_payload o) -> has_buffer o = true ->
  post_object (after_change st x o m evs) x
  = Some (after_change st x (with_semaphore o (u32 (pho_semaphore (ho_payload o) + 1))) m
            (evs ++ [Answer (ObjectAnswer x (pho_buffer (ho_payload o)) (pho_usize (ho_payload o)) (pho_opt_comp (ho_payload o)))])).
Proof.
  intros Hl Hv Hb Hh. unfold post_object. rewrite after_change_object. cbn [mbind option_bind]. unfold attach_payload, is_usable.
  rewrite Hl. unfold live in Hv. rewrite Hv. cbn [andb c3_assert mbind option_bind]. rewrite register_ok by done. cbn [mbind option_bind].
  by rewrite after_change_with, after_change_post.
Qed.

(** ** Objects as they are changed *)

Lemma semaphore_view o s : fixed_view (with_semaphore o s) = fixed_view o /\ (live (with_semaphore o s) <-> live o)
  /\ lo_state (with_semaphore o s) = lo_state o /\ has_buffer (with_semaphore o s) = has_buffer o
  /\ record_of 1 (with_semaphore o s) = record_of 1 o /\ forall n, object_bytes (with_semaphore o s) n = object_bytes o n.
Proof. by destruct o as [? ? ? ? ? ? ? ? ? []]. Qed.

Section Sessions.
Context (hash : bytes -> Z) `{NewLocs}.
Hypothesis hash_valid : forall n, valid_name n -> hash n <> INVALID_HASH_VALUE.
Context (t : nat) (lock_wait_time : Z).
Implicit Types (st : command_store) (M : gmap bytes record_t).
Local Abbreviation store_ok := (store_ok hash HOT_SESSION_OBJECT).

Lemma session_type : HOT_SESSION_OBJECT = HOT_SESSION_OBJECT \/ HOT_SESSION_OBJECT = HOT_PAGE_OBJECT.
Proof. by left. Qed.

(** No request holds a session lock, as [SessionLock] shows in general. *)
Record sessions_ok st M : Prop := {
  so_store : store_ok (cs_objects st) None;
  so_models : models (cs_objects st) M;
  so_locks : forall x, is_Some (cs_heap st !! x) -> exists threads, cs_sessions st !! x = Some (threads, 0);
}.

(** What is known of the object of a record. *)
Record session_object (x : loc) (o : HashObject) : Prop := {
  sn_live : live o;
  sn_fresh : flags_are_clear o HOF_DELETED = true;
  sn_locked : is_locked o = false;
  sn_type : get_type o = HOT_SESSION_OBJECT;
  sn_wf : buffer_wf (ho_payload o);
  sn_buffer : has_buffer o = true;
}.

Lemma object_of_record st M id r : sessions_ok st M -> M !! id = Some r ->
  exists o threads, cs_heap st !! r_object r = Some o /\ cs_sessions st !! r_object r = Some (threads, 0)
    /\ ho_name o = id /\ record_of (r_object r) o = r /\ session_object (r_object r) o
    /\ 0 < object_bytes o (ps_xrefs (cs_objects st) (r_object r)) <= m_used_size (cs_memory st).
Proof.
  intros [Hok HM Hs] Hr. apply HM in Hr as (x & o & Ho & Hn & Hl & <-). destruct (Hs x) as [threads Ht]; [by eexists|].
  exists o, threads. pose proof Hok as (ls & qss & Hrep). pose proof session_type as Hty.
  destruct (rep_object _ _ Hty _ _ _ _ x o Hrep Ho) as (i & l & qs & _ & _ & _ & _ & Hob & _).
  split_and!; [done|done|done|done| |by eapply bytes_in_use; [exact Hty|exact Hok|]|by eapply bytes_in_use; [exact Hty|exact Hok|]].
  constructor; try apply Hob; try done. by eapply live_fresh.
Qed.

Lemma find_record st M id : sessions_ok st M -> valid_name id ->
  find_live hash st id = Some (r_object <$> M !! id).
Proof.
  intros [Hok HM _] Hv. destruct (find_live_ok hash hash_valid _ session_type st None id Hok Hv) as (p & -> & Hp). f_equal.
  destruct (M !! id) as [r|] eqn:E; cbn.
  - apply HM in E as (x & o & Ho & Hn & Hl & <-). apply Hp. by exists o.
  - destruct p as [x|]; [|done]. destruct (proj1 (Hp x) eq_refl) as (o & Ho & Hn & Hl).
    assert (M !! id = Some (record_of x o)) by (apply HM; by exists x, o). congruence.
Qed.

Lemma after_change_ok st M x o o' m evs : sessions_ok st M -> cs_heap st !! x = Some o ->
  change_allowed (cs_objects st) None x o o' ->
  m_used_size m = m_used_size (cs_memory st) - object_bytes o (ps_xrefs (cs_objects st) x) + object_bytes o' (ps_xrefs (cs_objects st) x) ->
  m_used_size m < 2 ^ 62 -> sessions_ok (after_change st x o' m evs) (changed M x o o').
Proof.
  intros [Hok HM Hs] Ho Hc Hm Hlt. destruct (change_ok hash hash_valid _ session_type (cs_objects st) M x o o' m Hok HM Ho Hc Hm Hlt) as [Hok' HM'].
  constructor; [done|done|]. intros y Hy. apply Hs. cbn in Hy. destruct (decide (y = x)) as [->|Hne]; [by eexists|].
  by rewrite lookup_insert_ne in Hy.
Qed.

Lemma events_ok st M evs : sessions_ok st M -> sessions_ok (mkCommandStore (cs_objects st) (cs_sessions st) (cs_posted st ++ evs)) M.
Proof. by intros [? ? ?]. Qed.

Lemma changed_same M x o o' : live o -> live o' -> M !! ho_name o = Some (record_of x o) -> record_of x o' = record_of x o -> changed M x o o' = M.
Proof. intros Hl Hl' HM He. unfold changed. rewrite decide_True by done. rewrite He. by apply insert_id. Qed.

(** A reader attaches to an object, or detaches from it. *)
Lemma readers_ok st M x o s evs : sessions_ok st M -> cs_heap st !! x = Some o ->
  sessions_ok (after_change st x (with_semaphore o s) (cs_memory st) evs) M.
Proof.
  intros Hok Ho. destruct (semaphore_view o s) as (Hv & Hl & Hk & Hb & _ & Hby). pose proof Hok as [(ls & qss & Hr) HM Hs].
  destruct (rep_object _ _ session_type _ _ _ _ x o Hr Ho) as (i & l & qs & _ & _ & _ & _ & Hob & _).
  destruct (sr_memory _ _ _ _ _ _ Hr) as (_ & _ & _ & Hlt).
  assert (changed M x o (with_semaphore o s) = M) as <-; cycle 1.
  { eapply after_change_ok; [done|done| |rewrite Hby; fold (cs_memory st); lia|done]. constructor; [done|apply Hob|by apply Hl| | |].
    - intros Hn Hlv. rewrite Hb. apply Hob; [done|by apply Hl].
    - intros Hn. unfold is_locked. rewrite Hk. by apply Hob.
    - intros _. done. }
  unfold changed. destruct (decide (live (with_semaphore o s))) as [H1|H1]; destruct (decide (live o)) as [H2|H2]; try tauto.
  apply insert_id. apply HM. by exists x, o.
Qed.

(** ** [READ] *)

Lemma read_hit now st M id r ua request_id : sessions_ok st M -> M !! id = Some r -> now <= r_expires r ->
  exists st', (st ← lock_at st (r_object r); read_object t lock_wait_time now st (r_object r) ua request_id) = Some (ReadDone CS_SUCCESS st')
    /\ sessions_ok st' M
    /\ cs_posted st' = cs_posted st ++ [Answer (ObjectAnswer (r_object r) (r_buffer r) (r_usize r) (r_compressor r)); ToOptimizer (OR_READ (r_object r) ua)].
Proof.
  intros Hok Hr Hnow. destruct (object_of_record st M id r Hok Hr) as (o & threads & Ho & Hs & Hn & Hro & [Hl Hd Hk Ht Hw Hb] & _).
  set (x := r_object r) in *. assert (pho_exp_time (ho_payload o) = r_expires r) as He by (by rewrite <- Hro).
  rewrite (lock_at_ok st x o) by done. cbn [mbind option_bind]. unfold read_object. rewrite after_change_object. cbn [mbind option_bind].
  change (flags_are_clear (lock_object o) HOF_BEING_DELETED) with (flags_are_clear o HOF_BEING_DELETED). rewrite Hl.
  change (get_expiration_time (lock_object o)) with (pho_exp_time (ho_payload o)). rewrite He.
  destruct (now <=? r_expires r) eqn:E; zbool; [|lia].
  destruct (after_change_session st x (lock_object o) (cs_memory st) [] (lock_object o) threads Hs) as [-> Hput]. cbn [mbind option_bind].
  assert (lock_session lock_wait_time t request_id (mkSessionObject (lock_object o) threads 0)
    = Some (mkSessionObject (lock_object o) threads 0, Returned SLR_SUCCESS)) as ->.
  { unfold lock_session. cbn [so_object so_request_id]. rewrite is_locked_lock. cbn. by destruct (request_id =? 0), (lock_wait_time =? 0). }
  cbn [mbind option_bind]. rewrite Hput. unfold read_result. rewrite post_object_ok; [|apply is_locked_lock|done..].
  cbn [mbind option_bind]. rewrite unlock_at_ok. cbn [mbind option_bind]. unfold notify. rewrite after_change_post.
  eexists. split; [done|]. split.
  - replace (unlock_object _) with (with_semaphore o (u32 (pho_semaphore (ho_payload o) + 1))); [by apply readers_ok|].
    rewrite <- (lock_unlock o) at 1 by done. done.
  - cbn. by rewrite <- Hro.
Qed.

(** ** Deletion *)

(** A record is deleted: its object is marked under its lock. *)
Lemma delete_record st M id r : sessions_ok st M -> M !! id = Some r ->
  exists o m st', cs_heap st !! r_object r = Some o /\ is_locked o = false /\ flags_are_clear o HOF_BEING_DELETED = true
    /\ mark_deleted (after_change st (r_object r) (lock_object o) (cs_memory st) []) (r_object r) = Some (after_change st (r_object r) m (cs_memory st') [])
    /\ st' = after_change st (r_object r) (unlock_object m) (cs_memory st') []
    /\ sessions_ok st' (delete id M).
Proof.
  intros Hok Hr. destruct (object_of_record st M id r Hok Hr) as (o & threads & Ho & Hs & Hn & Hro & [Hl Hd Hk Ht Hw Hb] & _).
  set (x := r_object r) in *.
  destruct (destroyed_ok hash _ session_type (cs_objects st) x o) as (o1 & m1 & Ht1 & Hnl & Hca & Hm & Hlt); [apply Hok|done|done|].
  exists o, o1, (after_change st x (unlock_object o1) m1 []). split_and!; [done|done|done| |done|].
  - unfold mark_deleted. rewrite after_change_object. cbn [mbind option_bind]. fold (cs_memory st) in Ht1.
    change (cs_memory (after_change st x (lock_object o) (cs_memory st) [])) with (cs_memory st). rewrite Ht1. cbn [mbind option_bind].
    by rewrite after_change_objects.
  - replace (delete id M) with (changed M x o (unlock_object o1)); [by apply after_change_ok|].
    unfold changed. rewrite decide_False by done. rewrite decide_True by done. by rewrite Hn.
Qed.

Lemma posted_ok st st' M evs : sessions_ok st M -> st' = mkCommandStore (cs_objects st) (cs_sessions st) (cs_posted st ++ evs) -> sessions_ok st' M.
Proof. intros Hok ->. by apply events_ok. Qed.

Lemma after_change_posted st x o m evs : after_change st x o m evs
  = mkCommandStore (cs_objects (after_change st x o m [])) (cs_sessions (after_change st x o m [])) (cs_posted (after_change st x o m []) ++ evs).
Proof. unfold after_change. cbn. by rewrite app_nil_r. Qed.

Lemma read_expired now st M id r ua request_id : sessions_ok st M -> M !! id = Some r -> r_expires r < now ->
  exists st', (st ← lock_at st (r_object r); read_object t lock_wait_time now st (r_object r) ua request_id) = Some (ReadDone CS_FAILURE st')
    /\ sessions_ok st' (delete id M) /\ cs_posted st' = cs_posted st ++ [ToOptimizer (OR_DELETE (r_object r) 0)].
Proof.
  intros Hok Hr Hnow. destruct (object_of_record st M id r Hok Hr) as (o0 & _ & Ho0 & _ & _ & Hro & _).
  destruct (delete_record st M id r Hok Hr) as (o & o1 & st1 & Ho & Hk & Hl & Hmark & Hst & Hok').
  assert (o0 = o) as -> by congruence. set (x := r_object r) in *. assert (pho_exp_time (ho_payload o) = r_expires r) as He by (by rewrite <- Hro).
  rewrite (lock_at_ok st x o) by done. cbn [mbind option_bind]. unfold read_object. rewrite after_change_object. cbn [mbind option_bind].
  change (flags_are_clear (lock_object o) HOF_BEING_DELETED) with (flags_are_clear o HOF_BEING_DELETED). rewrite Hl.
  change (get_expiration_time (lock_object o)) with (pho_exp_time (ho_payload o)). rewrite He.
  destruct (now <=? r_expires r) eqn:E; zbool; [lia|]. rewrite Hmark. cbn [mbind option_bind]. rewrite unlock_at_ok. cbn [mbind option_bind].
  unfold notify. rewrite after_change_post. eexists. split; [done|]. split; [|done].
  rewrite after_change_posted. apply events_ok. by rewrite <- Hst.
Qed.

Lemma destroy_ok st M id : sessions_ok st M -> valid_name id ->
  exists st', destroy_session_record hash st id = Some st' /\ sessions_ok st' (delete id M)
    /\ cs_posted st' = cs_posted st ++ match M !! id with Some r => [ToOptimizer (OR_DELETE (r_object r) 0)] | None => [] end.
Proof.
  intros Hok Hv. unfold destroy_session_record. rewrite (find_record st M) by done. cbn [mbind option_bind].
  destruct (M !! id) as [r|] eqn:Hr; cbn [fmap option_fmap option_map].
  - destruct (delete_record st M id r Hok Hr) as (o & o1 & st1 & Ho & Hk & Hl & Hmark & Hst & Hok').
    rewrite (lock_at_ok st (r_object r) o) by done. cbn [mbind option_bind]. unfold destroy_object. rewrite after_change_object. cbn [mbind option_bind].
    change (flags_are_clear (lock_object o) HOF_BEING_DELETED) with (flags_are_clear o HOF_BEING_DELETED). rewrite Hl.
    rewrite Hmark. cbn [mbind option_bind]. rewrite unlock_at_ok. cbn [mbind option_bind].
    unfold notify. rewrite after_change_post. eexists. split; [done|]. split; [|done].
    rewrite after_change_posted. apply events_ok. by rewrite <- Hst.
  - eexists. split; [done|]. rewrite delete_id by done. split; [done|]. by rewrite app_nil_r.
Qed.

(** ** [WRITE] *)

(** The payload of a command has been received. *)
Record payload_in (cr : ReaderWriter) (pi : payload_info_t) : Prop := {
  pin_command : is_set cr IO_FLAG_IS_READER && is_clear cr IO_FLAG_IS_RESPONSE = true;
  pin_buffer : is_Some (db_validate (sb_payload (rw_sb cr)));
  pin_size : db_size (sb_payload (rw_sb cr)) = pi_size pi;
  pin_memory : 0 <= pi_size pi <= m_used_size (sb_memory (rw_sb cr));
  pin_usize : pi_size pi <= pi_usize pi /\ (pi_size pi = 0 -> pi_usize pi = 0);
}.

(** What is stored of it. *)
Definition payload_stored (cr : ReaderWriter) : payload_buffer :=
  let d := sb_payload (rw_sb cr) in if 0 <? db_size d then Buffer (db_bytes d) else ZeroLengthBuffer.

(** What a [WRITE] does to an object: it keeps everything but the buffer and what belongs to it. *)
Record filled (cr : ReaderWriter) (pi : payload_info_t) (o o' : HashObject) : Prop := {
  fl_view : fixed_view o' = fixed_view o;
  fl_state : lo_state o' = lo_state o;
  fl_live : live o';
  fl_wf : buffer_wf (ho_payload o');
  fl_buffer : pho_buffer (ho_payload o') = payload_stored cr;
  fl_size : pho_size (ho_payload o') = pi_size pi /\ pho_usize (ho_payload o') = pi_usize pi;
  fl_compressor : pho_opt_comp (ho_payload o') = pi_compressor pi;
  fl_expires : pho_exp_time (ho_payload o') = pho_exp_time (ho_payload o);
  fl_semaphore : pho_semaphore (ho_payload o') = u32 (pho_semaphore (ho_payload o) + 1);
}.

Lemma clear_optimized_bit o j : 0 <= j < 8 -> j <> 4 -> j <> 5 ->
  Z.testbit (ho_flags (clear_flags o (Z.lor HOF_BEING_OPTIMIZED HOF_OPTIMIZED))) j = Z.testbit (ho_flags o) j.
Proof.
  intros Hj H4 H5. cbn [clear_flags ho_with_flags ho_flags]. rewrite Z.land_spec.
  assert (Z.testbit (u8 (Z.lnot (Z.lor HOF_BEING_OPTIMIZED HOF_OPTIMIZED))) j = true) as ->; [|by rewrite andb_true_r].
  assert (j = 0 \/ j = 1 \/ j = 2 \/ j = 3 \/ j = 6 \/ j = 7) as Hc by lia. by destruct Hc as [->|[->|[->|[->|[->| ->]]]]].
Qed.

(** The new buffer, whatever the flags of the optimizer were. *)
Lemma filled_ok cr pi o f b : payload_in cr pi -> live o ->
  (b = o \/ b = clear_flags o (Z.lor HOF_BEING_OPTIMIZED HOF_OPTIMIZED)) ->
  f = with_semaphore (ho_with_payload b (pho_with_buffer (ho_payload b) (payload_stored cr) (pi_size pi) (pi_usize pi) (pi_compressor pi)))
        (u32 (pho_semaphore (ho_payload o) + 1)) -> filled cr pi o f.
Proof.
  intros [P1 P2 P3 P4 [P5 P6]] Hl Hb ->.
  assert (forall j, 0 <= j < 8 -> j <> 4 -> j <> 5 -> Z.testbit (ho_flags b) j = Z.testbit (ho_flags o) j) as Hbits
    by (intros j ???; destruct Hb as [-> | ->]; [done|by apply clear_optimized_bit]).
  assert (link_view b = link_view o /\ ho_name b = ho_name o /\ ho_length b = ho_length o /\ lo_state b = lo_state o
    /\ ho_payload b = ho_payload o) as (E1 & E2 & E3 & E4 & E5) by (by destruct Hb as [-> | ->]).
  constructor; cbn; try done.
  - change (fixed_view b = fixed_view o). unfold fixed_view. rewrite !deleted_bit, Hbits, E1, E2, E3 by lia. do 2 f_equal.
    apply get_type_bits. intros j Hj. apply Hbits; lia.
  - rewrite live_bit in *. change (Z.testbit (ho_flags b) 6 = false). by rewrite Hbits by lia.
  - unfold buffer_wf, payload_stored. cbn. rewrite P3. destruct (0 <? pi_size pi) eqn:E; zbool; lia.
  - by rewrite E5.
Qed.

Lemma set_buffer_ok o cr pi m : payload_in cr pi -> is_locked o = true -> live o -> has_readers o = false -> buffer_wf (ho_payload o) ->
  buffer_bytes (ho_payload o) <= m_used_size m < 2 ^ 62 ->
  exists b m', set_buffer o (pi_compressor pi) (pi_size pi) (pi_usize pi) (db_bytes (sb_payload (rw_sb cr))) m
      = Some (ho_with_payload b (pho_with_buffer (ho_payload b) (payload_stored cr) (pi_size pi) (pi_usize pi) (pi_compressor pi)), m')
    /\ (b = o \/ b = clear_flags o (Z.lor HOF_BEING_OPTIMIZED HOF_OPTIMIZED))
    /\ m_used_size m' = m_used_size m - buffer_bytes (ho_payload o).
Proof.
  intros [P1 P2 P3 P4 [P5 P6]] Hk Hl Hr Hw Hm. unfold set_buffer, payload_stored. rewrite Hk, Hr. unfold live in Hl. rewrite Hl.
  destruct (pi_size pi <=? pi_usize pi) eqn:E; zbool; [|lia]. rewrite P3. cbn [c3_assert mbind option_bind andb negb].
  unfold buffer_wf, buffer_bytes in *. destruct (pho_buffer (ho_payload o)) as [| |bs]; cbn [mbind option_bind].
  - eexists _, _. split_and!; [done|by left|lia].
  - destruct Hw as [-> ->]. cbn. exists (clear_flags o (Z.lor HOF_BEING_OPTIMIZED HOF_OPTIMIZED)); eexists. split_and!; [reflexivity|by right|lia].
  - destruct (_ <=? _) eqn:E1; zbool; [|lia]. destruct (0 <? pho_size (ho_payload o)) eqn:E2; zbool; [|lia]. cbn [c3_assert mbind option_bind].
    destruct (free_exact m (pho_size (ho_payload o))) as (m' & -> & Hm'); [lia|lia|]. cbn [mbind option_bind].
    exists (clear_flags o (Z.lor HOF_BEING_OPTIMIZED HOF_OPTIMIZED)); eexists. split_and!; [reflexivity|by right|done].
Qed.

Lemma receive_ok o cr pi m : payload_in cr pi -> is_locked o = true -> live o -> has_readers o = false -> buffer_wf (ho_payload o) ->
  buffer_bytes (ho_payload o) <= m_used_size m -> m_used_size m + pi_size pi < 2 ^ 62 ->
  exists cr' o' m', command_reader_transfer_payload cr o m (pi_usize pi) (pi_compressor pi) = Some (cr', o', m')
    /\ filled cr pi o o' /\ m_used_size m' = m_used_size m - buffer_bytes (ho_payload o) + pi_size pi.
Proof.
  intros Hp Hk Hl Hr Hw Hm1 Hm2. pose proof Hp as [P1 P2 P3 P4 [P5 P6]].
  destruct (set_buffer_ok o cr pi m Hp Hk Hl Hr Hw) as (b & m' & Hset & Hb & Hm'); [lia|].
  unfold command_reader_transfer_payload. rewrite P1. cbn [c3_assert mbind option_bind]. unfold transfer_payload, is_usable.
  pose proof Hl as Hl'. unfold live in Hl'. rewrite Hk, Hl', Hr, P3. destruct (pi_size pi <=? pi_usize pi) eqn:E; zbool; [|lia].
  cbn [c3_assert mbind option_bind andb negb]. rewrite Hset. cbn [mbind option_bind].
  assert (0 <= buffer_bytes (ho_payload o)) as Hbp by (clear -Hw; unfold buffer_wf, buffer_bytes in *; destruct (pho_buffer _); lia).
  assert (pho_semaphore (ho_payload b) = pho_semaphore (ho_payload o)) as Es by (by destruct Hb as [-> | ->]).
  pose proof (filled_ok cr pi o _ b Hp Hl Hb eq_refl) as Hf.
  rewrite register_ok; [|by destruct Hb as [-> | ->]|exact (fl_live _ _ _ _ Hf)|exact (fl_wf _ _ _ _ Hf)|]; cycle 1.
  { unfold has_buffer, payload_stored. cbn. by destruct (0 <? _). }
  cbn [mbind option_bind pho_semaphore ho_payload ho_with_payload pho_with_buffer]. rewrite Es.
  destruct (pi_size pi =? 0) eqn:E0; zbool; cbn [negb].
  - eexists _, _, _. split_and!; [done|done|lia].
  - unfold transfer_used_size. destruct (pi_size pi =? 0) eqn:E1; zbool; [lia|]. cbn [negb c3_assert mbind option_bind].
    destruct (pi_size pi <=? m_used_size (sb_memory (rw_sb cr))) eqn:E2; zbool; [|lia]. cbn [c3_assert mbind option_bind].
    destruct P2 as [[] Hv]. unfold db_reset. rewrite Hv. cbn [mbind option_bind]. eexists _, _, _. split_and!; [done|done|].
    rewrite fetch_add_used; [lia|]. unfold mem_room. lia.
Qed.

(** The last section of [WRITE], the object [o] locked. *)
Lemma store_section now cr a st x o threads : cs_heap st !! x = Some o -> cs_sessions st !! x = Some (threads, 0) ->
  payload_in cr (wa_payload a) -> get_type o = HOT_SESSION_OBJECT -> is_locked o = true -> live o -> has_readers o = false ->
  buffer_wf (ho_payload o) -> buffer_bytes (ho_payload o) <= m_used_size (cs_memory st) ->
  m_used_size (cs_memory st) + pi_size (wa_payload a) < 2 ^ 62 ->
  exists o' m', write_section hash now cr a st (WStore x)
      = Some (after_change st x (unlock_object o') m' (reply cr OkAnswer ++ [ToOptimizer (OR_WRITE x (wa_ua a) (wa_lifetime a))]), WDone x)
    /\ filled cr (wa_payload a) o o'
    /\ m_used_size m' = m_used_size (cs_memory st) - buffer_bytes (ho_payload o) + pi_size (wa_payload a).
Proof.
  intros Ho Hs Hp Ht Hk Hl Hr Hw Hm1 Hm2.
  destruct (receive_ok o cr (wa_payload a) (cs_memory st) Hp Hk Hl Hr Hw Hm1 Hm2) as (cr' & o' & m' & He & Hf & Hm).
  exists o', m'. split; [|done]. unfold write_section. rewrite Ho. cbn [mbind option_bind]. rewrite bool_decide_true, Hk by done.
  cbn [andb c3_assert mbind option_bind]. unfold receive_payload. rewrite Ho. cbn [mbind option_bind]. rewrite He. cbn [mbind option_bind].
  assert (with_objects st (<[x:=o']> (cs_heap st)) m' = after_change st x o' m' []) as ->.
  { destruct st. unfold with_objects, with_store, after_change. cbn. by rewrite app_nil_r. }
  rewrite after_change_reply. destruct (after_change_session st x o' m' ([] ++ reply cr OkAnswer) o' threads Hs) as [-> Hput].
  cbn [mbind option_bind]. assert (unlock_session (wa_request_id a) (mkSessionObject o' threads 0) = Some (mkSessionObject o' threads 0, None)) as ->.
  { unfold unlock_session. cbn [so_object so_request_id]. unfold is_locked. rewrite (fl_state _ _ _ _ Hf). fold (is_locked o). rewrite Hk.
    cbn [c3_assert mbind option_bind]. by destruct (wa_request_id a). }
  cbn [mbind option_bind]. rewrite Hput, unlock_at_ok. cbn [mbind option_bind]. unfold notify. by rewrite after_change_post.
Qed.

Lemma filled_bytes cr pi o o' : payload_in cr pi -> filled cr pi o o' -> buffer_bytes (ho_payload o') = pi_size pi.
Proof.
  intros [P1 P2 P3 P4 [P5 P6]] [F1 F2 F3 F4 F5 [F6 F7] F8 F9 F10]. unfold buffer_bytes. rewrite F5, F6. unfold payload_stored. rewrite P3.
  destruct (0 <? pi_size pi) eqn:E; zbool; lia.
Qed.

Lemma filled_has cr pi o o' : filled cr pi o o' -> has_buffer o' = true.
Proof. intros [F1 F2 F3 F4 F5 F6 F7 F8 F9]. unfold has_buffer. rewrite F5. unfold payload_stored. by destruct (0 <? _). Qed.

(** The record that a [WRITE] leaves. *)
Definition written (cr : ReaderWriter) (pi : payload_info_t) (x : loc) (expires : Z) : record_t :=
  mkRecord x (payload_stored cr) (pi_usize pi) (pi_compressor pi) expires.

Lemma filled_record cr pi o o' x : filled cr pi o o' -> record_of x (unlock_object o') = written cr pi x (pho_exp_time (ho_payload o)).
Proof. intros [F1 F2 F3 F4 F5 [F6 F7] F8 F9 F10]. unfold record_of, written. cbn. by rewrite F5, F7, F8, F9. Qed.

Lemma sections_step fuel now cr a st p st' p' : (forall x, p <> WDone x) -> write_section hash now cr a st p = Some (st', p') ->
  write_sections hash (S fuel) now cr a st p = write_sections hash fuel now cr a st' p'.
Proof. intros Hp He. destruct p; [..|by destruct (Hp x)]; cbn [write_sections]; rewrite He; done. Qed.

(** [WRITE] to a record that exists, nobody reading it. *)
Lemma write_update now cr a st M r : sessions_ok st M -> M !! wa_id a = Some r -> valid_name (wa_id a) -> payload_in cr (wa_payload a) ->
  (forall o, cs_heap st !! r_object r = Some o -> has_readers o = false) -> m_used_size (cs_memory st) + pi_size (wa_payload a) < 2 ^ 62 ->
  exists st' o', write_sections hash 5 now cr a st WStart = Some (st', r_object r)
    /\ sessions_ok st' (<[wa_id a := written cr (wa_payload a) (r_object r) (r_expires r)]> M)
    /\ cs_heap st' !! r_object r = Some o' /\ pho_semaphore (ho_payload o') = 1
    /\ cs_posted st' = cs_posted st ++ reply cr OkAnswer ++ [ToOptimizer (OR_WRITE (r_object r) (wa_ua a) (wa_lifetime a))].
Proof.
  intros Hok Hr Hv Hp Hreaders Hroom.
  destruct (object_of_record st M _ r Hok Hr) as (o & threads & Ho & Hs & Hn & Hro & [Hl Hd Hk Ht Hw Hb] & Hbytes).
  set (x := r_object r) in *. specialize (Hreaders o Ho). set (o1 := with_semaphore (lock_object o) 0).
  assert (is_locked o1 = true) as Hk1 by apply is_locked_lock.
  assert (buffer_bytes (ho_payload o) < object_bytes o (ps_xrefs (cs_objects st) x)) as Hlt.
  { unfold object_bytes. pose proof Hok as [(ls & qss & Hrep) _ _]. rewrite (sr_xrefs _ _ _ _ _ _ Hrep).
    destruct (rep_object _ _ session_type _ _ _ _ x o Hrep Ho) as (? & ? & ? & _ & _ & _ & _ & Hob & _). pose proof (ob_length _ _ _ _ _ _ _ Hob).
    destruct (get_type o); lia. }
  destruct (store_section now cr a (after_change st x o1 (cs_memory st) []) x o1 threads) as (o' & m' & He & Hf & Hm);
    [apply after_change_object|done|done|done|done|done|done|done|change (buffer_bytes (ho_payload o) <= m_used_size (cs_memory st)); lia|done|].
  exists (after_change st x (unlock_object o') m' (reply cr OkAnswer ++ [ToOptimizer (OR_WRITE x (wa_ua a) (wa_lifetime a))])), (unlock_object o').
  split_and!.
  - rewrite (sections_step 4 _ _ _ st WStart st (WLock x)); [|done|cbn [write_section]; by rewrite (find_record st M), Hr].
    rewrite (sections_step 3 _ _ _ st (WLock x) (after_change st x (lock_object o) (cs_memory st) []) (WReaders x)); [|done|]; cycle 1.
    { cbn [write_section]. rewrite (lock_at_ok st x o) by done. cbn [mbind option_bind]. rewrite after_change_object. cbn [mbind option_bind].
      assert (flags_are_set (lock_object o) HOF_BEING_DELETED = false) as ->; [|done].
      change HOF_BEING_DELETED with (2 ^ 6). rewrite flags_set_bit by done. by apply live_bit. }
    rewrite (sections_step 2 _ _ _ _ (WReaders x) (after_change st x o1 (cs_memory st) []) (WStore x)); [|done|]; cycle 1.
    { cbn [write_section]. rewrite after_change_object. cbn [mbind option_bind]. unfold wait_until_no_readers. rewrite is_locked_lock.
      change (flags_are_clear (lock_object o) HOF_BEING_DELETED) with (flags_are_clear o HOF_BEING_DELETED).
      change (has_readers (lock_object o)) with (has_readers o). rewrite Hl, Hreaders. cbn [andb c3_assert mbind option_bind].
      by rewrite after_change_with. }
    rewrite (sections_step 1 _ _ _ _ (WStore x) _ (WDone x) ltac:(done) He). by rewrite after_change_again.
  - replace (<[wa_id a := _]> M) with (changed M x o (unlock_object o')); cycle 1.
    { unfold changed. rewrite decide_True by exact (fl_live _ _ _ _ Hf). rewrite (filled_record _ _ _ _ x Hf), Hn. by rewrite <- Hro. }
    assert (fixed_view (unlock_object o') = fixed_view o) as Hfv by exact (fl_view _ _ _ _ Hf).
    assert (object_bytes (unlock_object o') (ps_xrefs (cs_objects st) x) - object_bytes o (ps_xrefs (cs_objects st) x)
      = pi_size (wa_payload a) - buffer_bytes (ho_payload o)) as Hdiff.
    { unfold object_bytes. destruct (fixed_fields _ _ Hfv) as (_ & _ & -> & -> & _).
      change (buffer_bytes (ho_payload (unlock_object o'))) with (buffer_bytes (ho_payload o')). rewrite (filled_bytes _ _ _ _ Hp Hf). lia. }
    change (cs_memory (after_change st x o1 (cs_memory st) [])) with (cs_memory st) in Hm. change (ho_payload o1) with (ho_payload (with_semaphore o 0)) in Hm.
    change (buffer_bytes (ho_payload (with_semaphore o 0))) with (buffer_bytes (ho_payload o)) in Hm.
    assert (0 <= buffer_bytes (ho_payload o)) as Hbp by (clear -Hw; unfold buffer_wf, buffer_bytes in *; destruct (pho_buffer _); lia).
    apply after_change_ok; [done|done| |lia|lia].
    constructor; [done|exact (fl_wf _ _ _ _ Hf)|done|intros _ _; exact (filled_has _ _ _ _ Hf)|intros _; apply is_locked_unlock|by rewrite Hd].
  - apply after_change_object.
  - cbn. rewrite (fl_semaphore _ _ _ _ Hf). done.
  - done.
Qed.

(** A table that would be resized does not have two objects of one name, deleted ones included:
    [resize_table] reverses the chains of the table. *)
Definition calm st (id : bytes) : Prop := forall i tb, table_of hash st id = Some i -> os_tables (cs_objects st) !! i = Some tb ->
  ht_full (ps_store (cs_objects st)) tb = true ->
  (forall y oy, cs_heap st !! y = Some oy -> ho_name oy <> id)
  /\ forall y z oy oz, cs_heap st !! y = Some oy -> cs_heap st !! z = Some oz -> table_of hash st (ho_name oy) = Some i ->
       ho_name oy = ho_name oz -> y = z.

Definition room st (n : Z) : Prop :=
  m_used_size (cs_memory st) + n + 2 ^ 37 < 2 ^ 62 /\ Z.of_nat (size (cs_heap st)) + 1 < 2 ^ 32.

(** The object that a [WRITE] creates. *)
Definition new_session now id : HashObject :=
  mkHashObject None None None None (hash id) (SIZEOF_SESSION_OBJECT + zlen id) id HOF_PAYLOAD 0 (new_payload now).

Lemma create_ok now st id : valid_name id -> m_used_size (cs_memory st) + 2 ^ 17 < 2 ^ 62 -> 0 <= m_used_size (cs_memory st) ->
  exists x m, create_object hash HOF_PAYLOAD SIZEOF_SESSION_OBJECT now st id = Some (x, after_change st x (lock_object (new_session now id)) m [])
    /\ cs_heap st !! x = None /\ m_used_size m = m_used_size (cs_memory st) + ho_length (new_session now id).
Proof.
  intros Hv Hm Hm0. unfold create_object. cbn zeta. assert (SIZEOF_SESSION_OBJECT + zlen id <> 0 /\ zlen id <> 0 /\ SIZEOF_SESSION_OBJECT + zlen id < 2 ^ 17) as (H1 & H2 & H3).
  { unfold valid_name, USHORT_MAX_VAL, SIZEOF_SESSION_OBJECT in *. lia. }
  unfold alloc. destruct (_ =? 0) eqn:E; zbool; [done|]. cbn [negb c3_assert mbind option_bind].
  assert (ho_create (hash id) HOF_PAYLOAD id (SIZEOF_SESSION_OBJECT + zlen id) (new_payload now) = Some (new_session now id)) as ->.
  { unfold ho_create. pose proof (hash_valid id Hv) as Hh. unfold SIZEOF_HASH_OBJECT, SIZEOF_SESSION_OBJECT in *.
    destruct (56 + zlen id <? 120 + zlen id) eqn:E1; zbool; [|lia]. destruct (zlen id =? 0) eqn:E2; zbool; [done|].
    destruct (hash id =? INVALID_HASH_VALUE) eqn:E3; zbool; [done|]. done. }
  cbn [mbind option_bind]. pose proof (new_locs_length (dom (cs_heap st)) 1) as Hlen. pose proof (new_locs_fresh (dom (cs_heap st)) 1) as Hfresh.
  destruct (new_locs (dom (cs_heap st)) 1) as [|x rest]; [done|]. cbn [head]. specialize (Hfresh x ltac:(left)).
  exists x, (fetch_add (cs_memory st) (SIZEOF_SESSION_OBJECT + zlen id)). split_and!.
  - cbn [mbind option_bind]. do 2 f_equal. destruct st. unfold with_objects, with_store, after_change. cbn. by rewrite app_nil_r.
  - by apply not_elem_of_dom.
  - rewrite fetch_add_used; [done|]. unfold mem_room, valid_name, SIZEOF_SESSION_OBJECT in *. lia.
Qed.

(** The new object, locked, in its table. *)
Lemma added_session now st M id x m : sessions_ok st M -> valid_name id -> M !! id = None -> calm st id -> room st 0 ->
  cs_heap st !! x = None -> m_used_size m = m_used_size (cs_memory st) + ho_length (new_session now id) ->
  exists ps o, add_object hash (with_session (after_change st x (lock_object (new_session now id)) m []) x (0, 0)) id x
      = Some (mkCommandStore ps (<[x := (0, 0)]> (cs_sessions st)) (cs_posted st))
    /\ store_ok ps (Some x) /\ ps_heap ps !! x = Some o /\ core o = core (lock_object (new_session now id))
    /\ models ps (<[id := record_of x o]> M) /\ m_used_size (ps_memory ps) <= m_used_size (cs_memory st) + 2 ^ 36
    /\ forall y, is_Some (ps_heap ps !! y) -> y <> x -> is_Some (cs_heap st !! y).
Proof.
  intros Hok Hv Hnew Hcalm [Hroom Hcount] Hx Hm. pose proof Hok as [(ls & qss & Hr) HM Hs].
  destruct (table_of_ok hash hash_valid _ st None ls qss id Hr Hv) as (i & l & qs & Hi & Hti & Hl & Hq & Htb).
  destruct (tb_table _ _ _ _ _ _ _ Htb) as (tb & Htt & Hrep). set (o0 := lock_object (new_session now id)) in *.
  assert (120 <= ho_length (new_session now id) < 2 ^ 17) as Hlen
    by (unfold new_session, SIZEOF_SESSION_OBJECT, valid_name, USHORT_MAX_VAL in *; cbn [ho_length]; lia).
  assert (forall y o, y ∈ x :: l -> <[x := o0]> (cs_heap st) !! y = Some o ->
    y = x /\ o = o0 \/ y <> x /\ cs_heap st !! y = Some o /\ table_of hash st (ho_name o) = Some i) as Hcase.
  { intros y o [->|Hy]%elem_of_cons Ho; [rewrite lookup_insert_eq in Ho; left; split; congruence|]. right.
    destruct (tb_object _ _ _ _ _ _ _ Htb y Hy) as (oy & Hoy & Hob & _). assert (y <> x) as Hne by (intros E; subst y; unfold cs_heap in *; congruence).
    rewrite lookup_insert_ne in Ho by done. unfold cs_heap in *. assert (oy = o) as -> by congruence. split_and!; [done|done|].
    unfold table_of. rewrite <- (ob_hash _ _ _ _ _ _ _ Hob), (ob_table _ _ _ _ _ _ _ Hob). cbn. by rewrite Nat2Z.id. }
  assert (forall y, ~ is_record (cs_objects st) id y) as Hfree.
  { intros y (oy & Hoy & Hny & Hly). assert (M !! id = Some (record_of y oy)) by (apply HM; by exists y, oy). congruence. }
  assert (ht_full (ps_store (cs_objects st)) tb = true -> names_distinct (x :: l) (<[x := o0]> (cs_heap st))) as Hdistinct.
  { intros Hfull y z oy oz Hy Hz Hoy Hoz Hname. destruct (Hcalm i tb Hi Htt Hfull) as [Hc1 Hc2].
    destruct (Hcase y oy Hy Hoy) as [[-> ->]|(Hny & Hoy' & Hty)]; destruct (Hcase z oz Hz Hoz) as [[-> ->]|(Hnz & Hoz' & Htz)].
    - done.
    - destruct (Hc1 z oz Hoz'). by rewrite <- Hname.
    - by destruct (Hc1 y oy Hoy').
    - by apply (Hc2 y z oy oz). }
  destruct (add_object_ok hash hash_valid _ session_type (cs_objects st) ls qss i l qs tb x o0 id m Hr Hl Hq Htt Hrep Hx
    (conj eq_refl (conj eq_refl Hv)) Hti eq_refl (conj eq_refl eq_refl) eq_refl ltac:(unfold o0; cbn [lock_object with_lock_state ho_length]; lia) Hfree Hdistinct
    Hm ltac:(unfold cs_memory in *; lia) Hcount (with_session (after_change st x o0 m []) x (0, 0)) M eq_refl HM)
    as (ps & o & He & Hok' & Ho & Hc & HM' & Hmem & Hkept).
  exists ps, o. split_and!; try done.
  - rewrite He. unfold with_store. cbn. by rewrite app_nil_r.
  - unfold cs_memory in *. lia.
  - intros y [oy Hy] Hne. destruct (Hkept y oy Hne Hy) as (oy0 & ? & _). by eexists.
Qed.

(** The object that is locked becomes an object like any other. *)
Lemma finish_session ps ss ev M x o o' m evs : store_ok ps (Some x) -> models ps M -> ps_heap ps !! x = Some o ->
  change_allowed ps None x o o' -> live o -> live o' ->
  m_used_size m = m_used_size (ps_memory ps) - object_bytes o (ps_xrefs ps x) + object_bytes o' (ps_xrefs ps x) ->
  m_used_size m < 2 ^ 62 -> (forall y, is_Some (ps_heap ps !! y) -> exists threads, ss !! y = Some (threads, 0)) ->
  sessions_ok (after_change (mkCommandStore ps ss ev) x o' m evs) (<[ho_name o := record_of x o']> M).
Proof.
  intros Hok HM Ho Hc Hl Hl' Hm Hlt Hs. pose proof Hok as (ls & qss & Hr).
  assert (forall y, y <> x -> None <> Some y -> Some x <> Some y) as Hbusy by congruence. constructor.
  - exists ls, qss. by apply (change_rep hash _ ps (Some x) None ls qss x o o' m).
  - replace (<[ho_name o := record_of x o']> M) with (changed M x o o') by (unfold changed; by rewrite decide_True).
    apply (change_models hash hash_valid _ session_type ps (Some x) M x o o' m); try done. by apply fixed_fields, Hc.
  - intros y Hy. apply Hs. cbn in Hy. destruct (decide (y = x)) as [->|Hne]; [by eexists|]. by rewrite lookup_insert_ne in Hy.
Qed.

(** [WRITE] of a record that does not exist. *)
Lemma write_create now cr a st M : sessions_ok st M -> M !! wa_id a = None -> valid_name (wa_id a) -> payload_in cr (wa_payload a) ->
  calm st (wa_id a) -> room st (pi_size (wa_payload a)) ->
  exists st' x o', write_sections hash 5 now cr a st WStart = Some (st', x) /\ cs_heap st !! x = None
    /\ sessions_ok st' (<[wa_id a := written cr (wa_payload a) x MAX_TIMESTAMP]> M)
    /\ cs_heap st' !! x = Some o' /\ pho_semaphore (ho_payload o') = 1
    /\ cs_posted st' = cs_posted st ++ reply cr OkAnswer ++ [ToOptimizer (OR_WRITE x (wa_ua a) (wa_lifetime a))].
Proof.
  intros Hok Hnew Hv Hp Hcalm [Hroom Hcount]. pose proof Hp as [_ _ _ [Hp0 _] _].
  assert (0 <= m_used_size (cs_memory st)) as Hm0.
  { pose proof Hok as [(ls & qss & Hr) _ _]. destruct (sr_memory _ _ _ _ _ _ Hr) as (u & Hu & Hm & _). unfold cs_memory. rewrite Hm.
    pose proof (tables_bytes_nonneg _ _ _ _ _ _ Hr). pose proof (objects_bytes_nonneg _ _ session_type _ _ _ _ Hr). lia. }
  destruct (create_ok now st (wa_id a) Hv) as (x & m & Hcreate & Hx & Hm); [lia|done|].
  destruct (added_session now st M (wa_id a) x m) as (ps & o & Hadd & Hok' & Ho & Hc & HM' & Hmem & Hkept); try done; [split; [lia|done]|].
  set (st3 := mkCommandStore ps (<[x := (0, 0)]> (cs_sessions st)) (cs_posted st)).
  destruct (core_view _ _ Hc) as (Eh & En & Ef & Ep & El & Es). cbn in Eh, En, Ef, Ep, El, Es.
  assert (is_locked o = true) as Hk by (unfold is_locked; by rewrite Es).
  assert (live o) as Hl by (unfold live, flags_are_clear; by rewrite Ef).
  assert (flags_are_clear o HOF_DELETED = true) as Hd by (unfold flags_are_clear; by rewrite Ef).
  assert (get_type o = HOT_SESSION_OBJECT) as Ht by (unfold get_type; by rewrite Ef).
  assert (has_readers o = false) as Hrd by (unfold has_readers; by rewrite Ep).
  assert (buffer_bytes (ho_payload o) = 0) as Hbb by (unfold buffer_bytes; by rewrite Ep).
  destruct (store_section now cr a st3 x o 0) as (o' & m' & He & Hf & Hm'); try done.
  - apply lookup_insert_eq.
  - unfold buffer_wf. by rewrite Ep.
  - rewrite Hbb. destruct Hok' as (ls & qss & Hr). destruct (sr_memory _ _ _ _ _ _ Hr) as (u & Hu & Hmu & _).
    change (cs_memory st3) with (ps_memory ps). rewrite Hmu.
    pose proof (tables_bytes_nonneg _ _ _ _ _ _ Hr). pose proof (objects_bytes_nonneg _ _ session_type _ _ _ _ Hr). lia.
  - change (cs_memory st3) with (ps_memory ps). lia.
  - rewrite Hbb in Hm'. change (cs_memory st3) with (ps_memory ps) in Hm'.
    exists (after_change st3 x (unlock_object o') m' (reply cr OkAnswer ++ [ToOptimizer (OR_WRITE x (wa_ua a) (wa_lifetime a))])), x, (unlock_object o').
    split_and!; [|done| |apply after_change_object| |done].
    + rewrite (sections_step 4 _ _ _ st WStart st WCreate); [|done|cbn [write_section]; by rewrite (find_record st M), Hnew].
      rewrite (sections_step 3 _ _ _ st WCreate (with_session (after_change st x (lock_object (new_session now (wa_id a))) m []) x (0, 0)) (WAdd x)); [|done|]; cycle 1.
      { cbn [write_section]. by rewrite Hcreate. }
      rewrite (sections_step 2 _ _ _ _ (WAdd x) st3 (WStore x)); [|done|cbn [write_section]; by rewrite Hadd].
      by rewrite (sections_step 1 _ _ _ _ (WStore x) _ (WDone x) ltac:(done) He).
    + assert (fixed_view (unlock_object o') = fixed_view o) as Hfv by exact (fl_view _ _ _ _ Hf).
      replace (<[wa_id a := _]> M) with (<[ho_name o := record_of x (unlock_object o')]> (<[wa_id a := record_of x o]> M)); cycle 1.
      { rewrite En, insert_insert_eq, (filled_record _ _ _ _ x Hf), Ep. done. }
      assert (object_bytes (unlock_object o') (ps_xrefs ps x) - object_bytes o (ps_xrefs ps x) = pi_size (wa_payload a)) as Hdiff.
      { unfold object_bytes. destruct (fixed_fields _ _ Hfv) as (_ & _ & -> & -> & _).
        change (buffer_bytes (ho_payload (unlock_object o'))) with (buffer_bytes (ho_payload o')). rewrite (filled_bytes _ _ _ _ Hp Hf). lia. }
      apply (finish_session ps _ _ _ x o); [done|done|done| |done|exact (fl_live _ _ _ _ Hf)|lia|lia|].
      * constructor; [done|exact (fl_wf _ _ _ _ Hf)|done|intros _ _; exact (filled_has _ _ _ _ Hf)|intros _; apply is_locked_unlock|by rewrite Hd].
      * intros y Hy. destruct (decide (y = x)) as [->|Hne]; [rewrite lookup_insert_eq; by eexists|]. rewrite lookup_insert_ne by done.
        apply (so_locks _ _ Hok). by apply Hkept.
    + cbn. rewrite (fl_semaphore _ _ _ _ Hf), Ep. done.
Qed.

End Sessions.
