(* ===== verification/SessionContract.v ===== *)
(** * SessionContract

    What the session store promises: a map from ids to records, what a command does to it
    and what it posts, and what the optimizer and the readers of responses do to it. The
    handlers of [SessionStore] implement it, by the lemmas of [SessionOk]. *)

From S2P Require Import Prelude Protocol Memory Buffers ChunkIterator Accessors CommandIO Utils Queue DList HashObject HashTable ObjectStore NameTable Tags TagCommands SessionLock Optimizer OptimizerInv StoreCommands SessionStore StoreOk StoreAdd SessionOk.

(** ** The contract *)

Inductive session_request :=
| QBad
| QRead (id : bytes) (ua : user_agent_t) (request_id : Z)
| QWrite (a : write_args)
| QDestroy (id : bytes)
| QGC (seconds : Z).

(** What a command asks for. *)
Definition request_of (cr : ReaderWriter) : option session_request :=
  id ← get_command_id cr;
  if id =? command_code CMD_READ then
    args ← read_arguments cr; Some (match args with Some (id, ua, request_id) => QRead id ua request_id | None => QBad end)
  else if id =? command_code CMD_WRITE then
    args ← write_arguments cr; Some (match args with Some a => QWrite a | None => QBad end)
  else if id =? command_code CMD_DESTROY then
    args ← destroy_arguments cr; Some (match args with Some id => QDestroy id | None => QBad end)
  else if id =? command_code CMD_GC then
    args ← gc_arguments cr; Some (match args with Some seconds => QGC seconds | None => QBad end)
  else None.

Local Abbreviation records := (gmap bytes record_t).

(** From records to records, with what is posted: answers to clients, and messages to the optimizer. *)
Inductive promises (now : Z) (cr : ReaderWriter) : records -> session_request -> records -> list store_event -> Prop :=
| pr_bad M : promises now cr M QBad M (reply cr FormatErrorAnswer)
| pr_read_hit M id ua rq r : M !! id = Some r -> now <= r_expires r ->
    promises now cr M (QRead id ua rq) M
      [Answer (ObjectAnswer (r_object r) (r_buffer r) (r_usize r) (r_compressor r)); ToOptimizer (OR_READ (r_object r) ua)]
| pr_read_expired M id ua rq r : M !! id = Some r -> r_expires r < now ->
    promises now cr M (QRead id ua rq) (delete id M) (ToOptimizer (OR_DELETE (r_object r) 0) :: reply cr OkAnswer)
| pr_read_miss M id ua rq : M !! id = None -> promises now cr M (QRead id ua rq) M (reply cr OkAnswer)
| pr_write_update M a r : M !! wa_id a = Some r ->
    promises now cr M (QWrite a) (<[wa_id a := written cr (wa_payload a) (r_object r) (r_expires r)]> M)
      (reply cr OkAnswer ++ [ToOptimizer (OR_WRITE (r_object r) (wa_ua a) (wa_lifetime a))])
| pr_write_create M a x : M !! wa_id a = None -> (forall id r, M !! id = Some r -> r_object r <> x) ->
    promises now cr M (QWrite a) (<[wa_id a := written cr (wa_payload a) x MAX_TIMESTAMP]> M)
      (reply cr OkAnswer ++ [ToOptimizer (OR_WRITE x (wa_ua a) (wa_lifetime a))])
| pr_destroy M id r : M !! id = Some r ->
    promises now cr M (QDestroy id) (delete id M) (ToOptimizer (OR_DELETE (r_object r) 0) :: reply cr OkAnswer)
| pr_destroy_miss M id : M !! id = None -> promises now cr M (QDestroy id) M (reply cr OkAnswer)
| pr_gc M seconds : promises now cr M (QGC seconds) M (ToOptimizer (OR_GC seconds) :: reply cr OkAnswer).

(** What the optimizer does to the fields of an object. *)
Inductive agent_change :=
| CAgent (ua : user_agent_t)
| CExpires (time : Z)
| CModified (time : Z)
| CWrites
| CLinks (prev next : ptr)
| CJoin
| CLeave.

Definition agent_changed (c : agent_change) (o : HashObject) : HashObject :=
  match c with
  | CAgent ua => set_user_agent o ua
  | CExpires time => set_expiration_time o time
  | CModified time => with_mod_time o time
  | CWrites => increment_num_writes o
  | CLinks prev next => with_opt_links o prev next
  | CJoin => set_flags o HOF_LINKED_BY_OPTIMIZER
  | CLeave => clear_flags o HOF_LINKED_BY_OPTIMIZER
  end.

(** Everything that happens to a store: a command at a time, a reader of a response that detaches, and the
    optimizer, which changes an object, evicts one, or hands one that is deleted over for disposal. *)
Inductive session_op :=
| OpCommand (now : Z) (cr : ReaderWriter)
| OpDetach (x : loc)
| OpOptimize (x : loc) (c : agent_change)
| OpEvict (x : loc)
| OpUnlink (x : loc).

Definition with_expires (r : record_t) (time : Z) : record_t :=
  mkRecord (r_object r) (r_buffer r) (r_usize r) (r_compressor r) time.

Inductive happens : records -> session_op -> records -> list store_event -> Prop :=
| hp_command now cr M q M' evs : request_of cr = Some q -> promises now cr M q M' evs -> happens M (OpCommand now cr) M' evs
| hp_detach M x : happens M (OpDetach x) M []
| hp_optimize M x c : (match c with CExpires _ => forall id r, M !! id = Some r -> r_object r <> x | _ => True end) ->
    happens M (OpOptimize x c) M []
| hp_expires M id r time : M !! id = Some r -> happens M (OpOptimize (r_object r) (CExpires time)) (<[id := with_expires r time]> M) []
| hp_evict M id r : M !! id = Some r -> happens M (OpEvict (r_object r)) (delete id M) []
| hp_unlink M x : happens M (OpUnlink x) M [].

(** Any number of them. *)
Inductive session_history : records -> list session_op -> records -> list store_event -> Prop :=
| hist_nil M : session_history M [] M []
| hist_cons M op M' evs ops M'' evs' : happens M op M' evs -> session_history M' ops M'' evs' ->
    session_history M (op :: ops) M'' (evs ++ evs').

(** ** The implementation *)

Section Contract.
Context (hash : bytes -> Z) `{NewLocs}.
Hypothesis hash_valid : forall n, valid_name n -> hash n <> INVALID_HASH_VALUE.
Context (t : nat) (lock_wait_time : Z).
Implicit Types (st : command_store) (M : records).
Local Abbreviation sessions_ok := (sessions_ok hash).

Definition run_op st (op : session_op) : option command_store :=
  match op with
  | OpCommand now cr => process_command hash t lock_wait_time now st cr
  | OpDetach x => detach_reader st x
  | OpOptimize x c => o ← cs_heap st !! x; Some (with_object st x (agent_changed c o))
  | OpEvict x => st ← lock_at st x; st ← mark_deleted st x; unlock_at st x
  | OpUnlink x => '(_, ps) ← post_unlink_message (cs_objects st) x; Some (with_store st ps)
  end.

Fixpoint run_ops st (ops : list session_op) : option command_store :=
  match ops with
  | [] => Some st
  | op :: ops => st ← run_op st op; run_ops st ops
  end.

(** What a [WRITE] requires: the reader has received the payload that its header announces; there are bytes and
    objects to spare; nobody reads the old payload, for whom it would wait; and if the session is new, the table it
    goes to is [calm]: either it does not grow now, or no name occurs twice in it, so that no deleted
    object waits there beside a live one of its name. (Without the last condition the contract
    does not hold: [table_growth_hides_session].) *)
Definition write_ready st (cr : ReaderWriter) (a : write_args) : Prop :=
  (is_set cr IO_FLAG_IS_READER && is_clear cr IO_FLAG_IS_RESPONSE = true
   /\ is_Some (db_validate (sb_payload (rw_sb cr))) /\ db_size (sb_payload (rw_sb cr)) = pi_size (wa_payload a)
   /\ 0 <= pi_size (wa_payload a) <= m_used_size (sb_memory (rw_sb cr)))
  /\ room st (pi_size (wa_payload a))
  /\ (forall x o, is_record (cs_objects st) (wa_id a) x -> cs_heap st !! x = Some o -> has_readers o = false)
  /\ ((forall x, ~ is_record (cs_objects st) (wa_id a) x) -> calm hash st (wa_id a)).

(** What an operation requires of the state in which it starts. A command has arrived as a whole, is one of the four, and its
    arguments are read without a failed assertion, as those of ill-formed commands are, too, but for a negative
    user agent; a reader detaches from an object that has readers; the optimizer changes objects that
    exist and are not deleted, evicts live ones, and hands over deleted ones that it may. *)
Definition ready st (op : session_op) : Prop :=
  match op with
  | OpCommand _ cr => rw_is_active cr = true /\ exists q, request_of cr = Some q
      /\ match q with QWrite a => write_ready st cr a | _ => True end
  | OpDetach x => exists o, cs_heap st !! x = Some o /\ has_readers o = true /\ has_buffer o = true
  | OpOptimize x _ => exists o, cs_heap st !! x = Some o /\ flags_are_clear o HOF_DELETED = true
  | OpEvict x => exists o, cs_heap st !! x = Some o /\ live o
  | OpUnlink x => exists o, cs_heap st !! x = Some o /\ may_unlink (cs_objects st) o
  end.

Fixpoint all_ready st (ops : list session_op) : Prop :=
  match ops with
  | [] => True
  | op :: ops => ready st op /\ forall st', run_op st op = Some st' -> all_ready st' ops
  end.

(** ** Arguments *)

Lemma read_id_valid cr name it : read_id cr = Some (Some (name, it)) -> valid_name name.
Proof.
  unfold read_id. intros Hr. destruct (command_header_iterator cr) as [i0|]; [|done]. cbn [mbind option_bind] in Hr.
  destruct (get_string (rw_sb cr) i0) as [[id i1]|]; [|done]. cbn [mbind option_bind] in Hr.
  destruct (sc_is_valid_name i1 id) eqn:E; [|done]. destruct (get_chars (rw_sb cr) i1 id) as [n|] eqn:Eg; [|done]. cbn in Hr. injection Hr as -> ->.
  apply get_chars_length in Eg. unfold sc_is_valid_name in E. zbool. unfold valid_name. lia.
Qed.

Lemma read_valid cr id ua rq : read_arguments cr = Some (Some (id, ua, rq)) -> valid_name id.
Proof.
  unfold read_arguments. intros Hr. destruct (read_id cr) as [[[n it]|]|] eqn:E; cbn [mbind option_bind] in Hr; try done. apply read_id_valid in E.
  destruct (read_agent nc_is_valid cr it) as [[[u it']|]|]; cbn [mbind option_bind] in Hr; try done.
  destruct (read_request_id cr it') as [[r|]|]; cbn [mbind option_bind] in Hr; try done. by injection Hr as <- _ _.
Qed.

Lemma destroy_valid cr id : destroy_arguments cr = Some (Some id) -> valid_name id.
Proof.
  unfold destroy_arguments. intros Hr. destruct (read_id cr) as [[[n it]|]|] eqn:E; cbn [mbind option_bind] in Hr; try done. apply read_id_valid in E.
  destruct (has_more_chunks it); [done|]. destruct (has_payload_data (rw_sb cr)) as [[]|]; cbn [mbind option_bind] in Hr; try done. by injection Hr as <-.
Qed.

Lemma payload_sizes sb pi : command_get_payload_info sb = Some (true, pi) -> pi_size pi <= pi_usize pi /\ (pi_size pi = 0 -> pi_usize pi = 0).
Proof.
  unfold command_get_payload_info. intros Hp. destruct (get_command_descriptor sb) as [desc|]; [|done]. cbn [mbind option_bind] in Hp.
  destruct (_ =? DESC_NO_PAYLOAD); [done|]. destruct (get_command_header_data_size_length sb) as [n|]; [|done]. cbn [mbind option_bind] in Hp.
  unfold payload_info_at in Hp.
  apply bind_Some in Hp as ([[size usize]|] & Es & Hp); [|by injection Hp as <-].
  assert (negb (Z.land desc DESC_PAYLOAD_IS_COMPRESSED =? 0) = false -> usize = size) as Hplain.
  { intros Ec. unfold read_payload_sizes in Es. rewrite Ec in Es. repeat (case_match; inv_opt); by simplify_eq. }
  apply bind_Some in Hp as ([c|] & Ec & Hp); [|by injection Hp as <-].
  assert ((pi_size pi = size /\ pi_usize pi = usize) \/ (pi_size pi = 0 /\ pi_usize pi = 0)) as [[-> ->]|[-> ->]]; [| |lia].
  { destruct (0 <? _); [|left; by injection Hp as <-]. destruct (_ =? size); [|right; by injection Hp as <-].
    apply bind_Some in Hp as (p & _ & Hp). left. by injection Hp as <-. }
  destruct (negb (Z.land desc DESC_PAYLOAD_IS_COMPRESSED =? 0)); [|rewrite Hplain by done; lia].
  apply bind_Some in Ec as (b & _ & Ec). destruct (_ || (usize <=? size)) eqn:E; [done|]. apply orb_false_iff in E as [[_ E1]%orb_false_iff E2]. zbool. lia.
Qed.

Lemma write_valid cr a : write_arguments cr = Some (Some a) ->
  valid_name (wa_id a) /\ pi_size (wa_payload a) <= pi_usize (wa_payload a) /\ (pi_size (wa_payload a) = 0 -> pi_usize (wa_payload a) = 0).
Proof.
  unfold write_arguments. intros Hr. destruct (read_id cr) as [[[n it]|]|] eqn:E; cbn [mbind option_bind] in Hr; try done. apply read_id_valid in E.
  destruct (read_agent nc_is_valid_uint cr it) as [[[u it']|]|]; cbn [mbind option_bind] in Hr; try done.
  destruct (get_number (rw_sb cr) it') as [[lt it2]|]; cbn [mbind option_bind] in Hr; [|done]. destruct (nc_is_valid lt); [|done].
  destruct (read_request_id cr it2) as [[r|]|]; cbn [mbind option_bind] in Hr; try done.
  destruct (lifetime_of lt); cbn [mbind option_bind] in Hr; [|done].
  destruct (command_get_payload_info (rw_sb cr)) as [[[] pi]|] eqn:Ep; cbn [mbind option_bind] in Hr; try done.
  destruct (c3_assert _); cbn [mbind option_bind] in Hr; [|done]. injection Hr as <-. cbn. split; [done|]. by eapply payload_sizes.
Qed.

Lemma request_write cr a : request_of cr = Some (QWrite a) -> valid_name (wa_id a).
Proof.
  unfold request_of. intros Hq. apply bind_Some in Hq as (id & _ & Hq). repeat case_match; apply bind_Some in Hq as (args & Ha & Hq) || done.
  - by destruct args as [[[? ?] ?]|].
  - destruct args as [a'|]; [|done]. injection Hq as ->. by apply write_valid in Ha as [? _].
  - by destruct args.
  - by destruct args.
Qed.

(** ** Commands *)

Definition done_with st M now cr q (r : option command_store) : Prop :=
  exists st' M' evs, r = Some st' /\ promises now cr M q M' evs /\ cs_posted st' = cs_posted st ++ evs /\ sessions_ok st' M'.

Lemma reply_ok st M cr a : sessions_ok st M ->
  sessions_ok (post_answer st cr a) M /\ cs_posted (post_answer st cr a) = cs_posted st ++ reply cr a.
Proof.
  intros Hok. unfold post_answer, reply. destruct (is_set cr IO_FLAG_NETWORK); [|by rewrite app_nil_r].
  split; [|done]. exact (events_ok hash st M [Answer a] Hok).
Qed.

Lemma read_done now st M cr id ua rq : sessions_ok st M -> read_arguments cr = Some (Some (id, ua, rq)) ->
  done_with st M now cr (QRead id ua rq) (process_read_command hash t lock_wait_time now st cr).
Proof.
  intros Hok Ha. pose proof (read_valid _ _ _ _ Ha) as Hv. unfold process_read_command. rewrite Ha. cbn [mbind option_bind].
  rewrite (find_record hash hash_valid st M) by done. cbn [mbind option_bind]. destruct (M !! id) as [r|] eqn:Hr; cbn [fmap option_fmap option_map].
  - destruct (decide (now <= r_expires r)) as [Hnow|Hnow].
    + destruct (read_hit hash hash_valid t lock_wait_time now st M id r ua rq Hok Hr Hnow) as (st' & He & Hok' & Hp).
      destruct (lock_at st (r_object r)) as [st1|]; [|done]. cbn [mbind option_bind] in *. rewrite He. cbn [mbind option_bind].
      eexists _, _, _. split_and!; [done|by eapply pr_read_hit|done|done].
    + destruct (read_expired hash hash_valid t lock_wait_time now st M id r ua rq Hok Hr ltac:(lia)) as (st' & He & Hok' & Hp).
      destruct (lock_at st (r_object r)) as [st1|]; [|done]. cbn [mbind option_bind] in *. rewrite He. cbn [mbind option_bind finish_command].
      destruct (reply_ok st' _ cr OkAnswer Hok') as [Hok'' Hp']. eexists _, _, _. split_and!; [done|eapply pr_read_expired; [done|lia]| |done].
      rewrite Hp', Hp, <- app_assoc. done.
  - destruct (reply_ok st _ cr OkAnswer Hok) as [Hok' Hp']. eexists _, _, _. split_and!; [done|by apply pr_read_miss|done|done].
Qed.

Lemma destroy_done now st M cr id : sessions_ok st M -> destroy_arguments cr = Some (Some id) ->
  done_with st M now cr (QDestroy id) (process_destroy_command hash st cr).
Proof.
  intros Hok Ha. pose proof (destroy_valid _ _ Ha) as Hv. unfold process_destroy_command. rewrite Ha. cbn [mbind option_bind].
  destruct (destroy_ok hash hash_valid st M id Hok Hv) as (st' & -> & Hok' & Hp). cbn [mbind option_bind].
  destruct (reply_ok st' _ cr OkAnswer Hok') as [Hok'' Hp']. destruct (M !! id) as [r|] eqn:Hr.
  - eexists _, _, _. split_and!; [done|by apply pr_destroy| |done]. by rewrite Hp', Hp, <- app_assoc.
  - rewrite delete_id in Hok'' by done. eexists _, _, _. split_and!; [done|by apply pr_destroy_miss| |done]. by rewrite Hp', Hp, <- app_assoc.
Qed.

Lemma gc_done now st M cr seconds : sessions_ok st M -> gc_arguments cr = Some (Some seconds) ->
  done_with st M now cr (QGC seconds) (process_gc_command st cr).
Proof.
  intros Hok Ha. unfold process_gc_command. rewrite Ha. cbn [mbind option_bind].
  pose proof (events_ok hash st M [ToOptimizer (OR_GC seconds)] Hok) as Hok1. fold (notify st (OR_GC seconds)) in Hok1.
  destruct (reply_ok (notify st (OR_GC seconds)) M cr OkAnswer Hok1) as [Hok' Hp]. eexists _, _, _. split_and!; [done|apply pr_gc| |done].
  rewrite Hp. cbn. by rewrite <- app_assoc.
Qed.

(** A reader detaches, which it may always do. *)
Lemma detach_ok st M x o : sessions_ok st M -> cs_heap st !! x = Some o -> has_readers o = true -> has_buffer o = true ->
  exists st', detach_reader st x = Some st' /\ cs_posted st' = cs_posted st /\ sessions_ok st' M.
Proof.
  intros Hok Ho Hr Hb. pose proof Hok as [(ls & qss & Hrep) _ _].
  destruct (rep_object _ _ session_type _ _ _ _ x o Hrep Ho) as (i & l & qs & _ & _ & _ & _ & Hob & _). pose proof (ob_buffer _ _ _ _ _ _ _ Hob) as Hw.
  unfold detach_reader. rewrite Ho. cbn [mbind option_bind]. unfold unregister_reader. rewrite Hr, Hb.
  destruct (_ <=? _) eqn:E; zbool; cycle 1.
  { exfalso. unfold buffer_wf, has_buffer in *. destruct (pho_buffer (ho_payload o)); [done|lia|lia]. }
  cbn [andb c3_assert mbind option_bind]. eexists. split; [done|]. split; [done|]. rewrite after_change_start.
  by apply (readers_ok hash hash_valid).
Qed.

Lemma write_done now st M cr a : sessions_ok st M -> write_arguments cr = Some (Some a) -> write_ready st cr a ->
  done_with st M now cr (QWrite a) ('(attached, st) ← process_write_command hash now st cr; dispose_command st cr attached).
Proof.
  intros Hok Ha ((Hc & Hb & Hs & Hm) & Hroom & Hread & Hcalm). destruct (write_valid _ _ Ha) as (Hv & Hu).
  assert (payload_in cr (wa_payload a)) as Hp by done.
  assert (exists st' x o' M', write_sections hash 5 now cr a st WStart = Some (st', x) /\ cs_heap st' !! x = Some o'
    /\ pho_semaphore (ho_payload o') = 1 /\ sessions_ok st' M' /\ M' !! wa_id a = Some (record_of x o')
    /\ promises now cr M (QWrite a) M' (reply cr OkAnswer ++ [ToOptimizer (OR_WRITE x (wa_ua a) (wa_lifetime a))])
    /\ cs_posted st' = cs_posted st ++ reply cr OkAnswer ++ [ToOptimizer (OR_WRITE x (wa_ua a) (wa_lifetime a))])
    as (st' & x & o' & M' & He & Ho' & Hsem & Hok' & HM' & Hpr & Hpost).
  { pose proof (so_models _ _ _ Hok) as HM. destruct (M !! wa_id a) as [r|] eqn:Hr.
    - destruct (proj1 (HM _ _) Hr) as (y & oy & Hoy & Hny & Hly & Hry). assert (r_object r = y) as Hy by (by rewrite <- Hry).
      destruct (write_update hash hash_valid now cr a st M r Hok Hr Hv Hp) as (st' & o' & He & Hok' & Ho' & Hsem & Hpost).
      + intros o Ho. apply (Hread (r_object r)); [|done]. rewrite Hy. by exists oy.
      + destruct Hroom. lia.
      + eexists st', _, o', _. split_and!; [done|done|done|exact Hok'| |by apply pr_write_update|done]. rewrite lookup_insert_eq. f_equal.
        pose proof (proj1 (so_models _ _ _ Hok' (wa_id a) _) (lookup_insert_eq _ _ _)) as (z & oz & Hoz & _ & _ & Hrz).
        assert (z = r_object r) as -> by (injection Hrz; by intros). unfold cs_heap in Ho'. assert (oz = o') as -> by congruence. done.
    - assert (forall x, ~ is_record (cs_objects st) (wa_id a) x) as Hnone.
      { intros y (oy & Hoy & Hny & Hly). assert (M !! wa_id a = Some (record_of y oy)) by (apply HM; by exists y, oy). congruence. }
      destruct (write_create hash hash_valid now cr a st M Hok Hr Hv Hp (Hcalm Hnone) Hroom) as (st' & x & o' & He & Hx & Hok' & Ho' & Hsem & Hpost).
      eexists st', x, o', _. split_and!; [done|done|done|exact Hok'| |apply pr_write_create; [done|]|done].
      + rewrite lookup_insert_eq. f_equal.
        pose proof (proj1 (so_models _ _ _ Hok' (wa_id a) _) (lookup_insert_eq _ _ _)) as (z & oz & Hoz & _ & _ & Hrz).
        assert (z = x) as -> by (injection Hrz; by intros). unfold cs_heap in Ho'. assert (oz = o') as -> by congruence. done.
      + intros id r Hid <-. apply HM in Hid as (y & oy & Hoy & _ & _ & <-). unfold cs_heap in Hx. cbn in Hx. congruence. }
  unfold process_write_command. rewrite Ha. cbn [mbind option_bind]. rewrite He. cbn [mbind option_bind]. unfold dispose_command.
  destruct (sb_nrefs (rw_sb cr) =? 1); [|by exists st', M', (reply cr OkAnswer ++ [ToOptimizer (OR_WRITE x (wa_ua a) (wa_lifetime a))])].
  destruct (object_of_record hash st' M' _ _ Hok' HM') as (o2 & _ & Ho2 & _ & _ & _ & [_ _ _ _ _ Hbuf] & _). cbn [r_object record_of] in Ho2.
  assert (o2 = o') as -> by congruence.
  destruct (detach_ok st' M' x o' Hok' Ho') as (st2 & -> & Hp2 & Hok2); [unfold has_readers; by rewrite Hsem|done|].
  eexists st2, M', _. split_and!; [done|done|by rewrite Hp2|done].
Qed.

Lemma command_done now st M cr q : sessions_ok st M -> rw_is_active cr = true -> request_of cr = Some q ->
  match q with QWrite a => write_ready st cr a | _ => True end ->
  done_with st M now cr q (process_command hash t lock_wait_time now st cr).
Proof.
  intros Hok Hact Hq Hready. unfold process_command. rewrite Hact. cbn [c3_assert mbind option_bind]. unfold request_of in Hq.
  destruct (get_command_id cr) as [id|]; [|done]. cbn [mbind option_bind] in *.
  assert (done_with st M now cr QBad (Some (post_answer st cr FormatErrorAnswer))) as Hbad.
  { destruct (reply_ok st M cr FormatErrorAnswer Hok) as [H1 H2]. eexists _, M, _. split_and!; [done|apply pr_bad|done|done]. }
  destruct (id =? command_code CMD_READ); [|destruct (id =? command_code CMD_WRITE); [|destruct (id =? command_code CMD_DESTROY); [|destruct (id =? command_code CMD_GC); [|done]]]].
  - apply bind_Some in Hq as ([[[i ua] rq]|] & Ha & Hq); injection Hq as <-.
    + destruct (read_done now st M cr i ua rq Hok Ha) as (st' & M' & evs & -> & Hpr & Hp & Hok'). by exists st', M', evs.
    + unfold process_read_command. rewrite Ha. done.
  - apply bind_Some in Hq as ([a|] & Ha & Hq); injection Hq as <-.
    + by apply write_done.
    + unfold process_write_command. rewrite Ha. done.
  - apply bind_Some in Hq as ([i|] & Ha & Hq); injection Hq as <-.
    + destruct (destroy_done now st M cr i Hok Ha) as (st' & M' & evs & -> & Hpr & Hp & Hok'). by exists st', M', evs.
    + unfold process_destroy_command. rewrite Ha. done.
  - apply bind_Some in Hq as ([s|] & Ha & Hq); injection Hq as <-.
    + destruct (gc_done now st M cr s Hok Ha) as (st' & M' & evs & -> & Hpr & Hp & Hok'). by exists st', M', evs.
    + unfold process_gc_command. rewrite Ha. done.
Qed.

(** ** The optimizer *)

Lemma agent_changed_ok o c : is_locked o = false -> flags_are_clear o HOF_DELETED = true -> buffer_wf (ho_payload o) -> (live o -> has_buffer o = true) ->
  forall ps x, change_allowed ps None x o (agent_changed c o) /\ (live (agent_changed c o) <-> live o)
    /\ object_bytes (agent_changed c o) (ps_xrefs ps x) = object_bytes o (ps_xrefs ps x)
    /\ record_of x (agent_changed c o) = match c with CExpires time => with_expires (record_of x o) time | _ => record_of x o end.
Proof.
  intros Hk Hd Hw Hb ps x. set (o' := agent_changed c o).
  assert (forall j, 0 <= j < 8 -> j <> 2 -> Z.testbit (ho_flags o') j = Z.testbit (ho_flags o) j) as Hbits.
  { intros j Hj H2. unfold o'. destruct c; try done; cbn [agent_changed]; change HOF_LINKED_BY_OPTIMIZER with (2 ^ 2);
      rewrite ?set_bit, ?clear_bit by lia; destruct (j =? 2) eqn:E; zbool; done. }
  assert (live o' <-> live o) as Hl by (rewrite !live_bit, Hbits by lia; done).
  assert (get_type o' = get_type o) as Ht by (apply get_type_bits; intros j Hj; apply Hbits; lia).
  assert (fixed_view o' = fixed_view o) as Hf.
  { unfold fixed_view. rewrite !deleted_bit, Hbits, Ht by lia. by destruct c. }
  assert (has_buffer o' = has_buffer o /\ lo_state o' = lo_state o) as [Eb Es] by (by destruct c).
  split_and!.
  - constructor; [done|by destruct c|by apply Hl|intros _ Hlv; rewrite Eb; by apply Hb, Hl|intros _; unfold is_locked; by rewrite Es|].
    intros Hdel. congruence.
  - done.
  - unfold object_bytes. rewrite Ht. by destruct c.
  - by destruct c.
Qed.

Lemma optimize_done st M x c o : sessions_ok st M -> cs_heap st !! x = Some o -> flags_are_clear o HOF_DELETED = true ->
  exists st' M', run_op st (OpOptimize x c) = Some st' /\ happens M (OpOptimize x c) M' [] /\ cs_posted st' = cs_posted st /\ sessions_ok st' M'.
Proof.
  intros Hok Ho Hd. cbn [run_op]. rewrite Ho. cbn [mbind option_bind]. pose proof Hok as [(ls & qss & Hr) HM _].
  destruct (rep_object _ _ session_type _ _ _ _ x o Hr Ho) as (i & l & qs & _ & _ & _ & _ & Hob & _).
  destruct (agent_changed_ok o c) with (ps := cs_objects st) (x := x) as (Hc & Hl & Hby & Hrec); [by apply Hob|done|apply Hob|by apply Hob|].
  destruct (sr_memory _ _ _ _ _ _ Hr) as (_ & _ & _ & Hlt).
  eexists _, (changed M x o (agent_changed c o)). split_and!; [done| |done|]; cycle 1.
  { rewrite after_change_start. apply (after_change_ok hash hash_valid); [done|done|done| |done]. rewrite Hby. unfold cs_memory. lia. }
  unfold changed. destruct (decide (live (agent_changed c o))) as [Hlv|Hlv]; cycle 1.
  { rewrite decide_False by tauto. apply hp_optimize. destruct c; try done. intros id r (y & oy & Hoy & _ & Hly & <-)%HM <-. cbn in Ho.
    unfold cs_heap in Ho. assert (oy = o) as -> by congruence. tauto. }
  assert (M !! ho_name o = Some (record_of x o)) as Hid by (apply HM; exists x, o; tauto).
  rewrite Hrec. destruct c; try (rewrite insert_id by done; by apply hp_optimize). exact (hp_expires M (ho_name o) (record_of x o) time Hid).
Qed.

Lemma evict_done st M x o : sessions_ok st M -> cs_heap st !! x = Some o -> live o ->
  exists st' M', run_op st (OpEvict x) = Some st' /\ happens M (OpEvict x) M' [] /\ cs_posted st' = cs_posted st /\ sessions_ok st' M'.
Proof.
  intros Hok Ho Hl. assert (M !! ho_name o = Some (record_of x o)) as Hr by (apply (so_models _ _ _ Hok); by exists x, o).
  destruct (delete_record hash hash_valid st M _ _ Hok Hr) as (o0 & o1 & st1 & Ho0 & Hk & _ & Hmark & Hst & Hok'). cbn [r_object record_of] in *.
  assert (o0 = o) as -> by congruence. cbn [run_op]. rewrite (lock_at_ok st x o) by done. cbn [mbind option_bind]. rewrite Hmark. cbn [mbind option_bind].
  rewrite unlock_at_ok, <- Hst. eexists st1, _. split_and!; [done|exact (hp_evict M _ _ Hr)| |done]. rewrite Hst. cbn. by rewrite app_nil_r.
Qed.

Lemma unlink_done st M x o : sessions_ok st M -> cs_heap st !! x = Some o -> may_unlink (cs_objects st) o ->
  exists st', run_op st (OpUnlink x) = Some st' /\ cs_posted st' = cs_posted st /\ sessions_ok st' M.
Proof.
  intros [Hok HM Hs] Ho Hmu. destruct (post_unlink_ok hash _ session_type (cs_objects st) x o Hok Ho Hmu) as (ps' & He & Hok' & Hh & Hm).
  cbn [run_op]. rewrite He. cbn [mbind option_bind]. eexists. split; [done|]. split; [done|].
  assert (~ live o) as Hdead.
  { destruct Hmu as [_ M2 _ _ _]. change HOF_BEING_DELETED with (2 ^ 6) in M2. rewrite flags_set_bit in M2 by done. rewrite live_bit. congruence. }
  constructor; [done| |].
  - intros id r. cbn [cs_objects with_store]. rewrite Hh, (HM id r). split; intros (y & oy & Hoy & Hny & Hly & Hr); exists y, oy.
    + rewrite lookup_insert_ne; [done|]. intros ->. unfold cs_heap in Ho. congruence.
    + destruct (decide (y = x)) as [->|Hne]; [|by rewrite lookup_insert_ne in Hoy]. rewrite lookup_insert_eq in Hoy. injection Hoy as <-.
      exfalso. apply Hdead. revert Hly. rewrite !live_bit. change HOF_DELETED with (2 ^ 7). by rewrite set_bit.
  - intros y Hy. apply Hs. unfold cs_heap in *. cbn [cs_objects with_store] in Hy. rewrite Hh in Hy.
    destruct (decide (y = x)) as [->|Hne]; [by eexists|]. by rewrite lookup_insert_ne in Hy.
Qed.

Lemma op_done st M op : sessions_ok st M -> ready st op ->
  exists st' M' evs, run_op st op = Some st' /\ happens M op M' evs /\ cs_posted st' = cs_posted st ++ evs /\ sessions_ok st' M'.
Proof.
  intros Hok Hready. destruct op as [now cr|x|x c|x|x]; cbn [ready] in Hready.
  - destruct Hready as (Hact & q & Hq & Hw). destruct (command_done now st M cr q Hok Hact Hq Hw) as (st' & M' & evs & He & Hp & Hpost & Hok').
    exists st', M', evs. split_and!; [done|by eapply hp_command|done|done].
  - destruct Hready as (o & Ho & Hr & Hb). destruct (detach_ok st M x o Hok Ho Hr Hb) as (st' & He & Hp & Hok').
    exists st', M, []. split_and!; [done|apply hp_detach|by rewrite app_nil_r|done].
  - destruct Hready as (o & Ho & Hd). destruct (optimize_done st M x c o Hok Ho Hd) as (st' & M' & He & Hh & Hp & Hok').
    exists st', M', []. split_and!; [done|done|by rewrite app_nil_r|done].
  - destruct Hready as (o & Ho & Hl). destruct (evict_done st M x o Hok Ho Hl) as (st' & M' & He & Hh & Hp & Hok').
    exists st', M', []. split_and!; [done|done|by rewrite app_nil_r|done].
  - destruct Hready as (o & Ho & Hmu). destruct (unlink_done st M x o Hok Ho Hmu) as (st' & He & Hp & Hok').
    exists st', M, []. split_and!; [done|apply hp_unlink|by rewrite app_nil_r|done].
Qed.

Lemma ops_done ops : forall st M, sessions_ok st M -> all_ready st ops ->
  exists st' M' evs, run_ops st ops = Some st' /\ session_history M ops M' evs /\ cs_posted st' = cs_posted st ++ evs /\ sessions_ok st' M'.
Proof.
  induction ops as [|op ops IH]; intros st M Hok Hready; cbn [run_ops all_ready] in *.
  - exists st, M, []. split_and!; [done|apply hist_nil|by rewrite app_nil_r|done].
  - destruct Hready as [Hop Hrest]. destruct (op_done st M op Hok Hop) as (st1 & M1 & evs1 & He & Hh & Hp & Hok1). rewrite He. cbn [mbind option_bind].
    destruct (IH st1 M1 Hok1 (Hrest st1 He)) as (st2 & M2 & evs2 & He2 & Hh2 & Hp2 & Hok2).
    exists st2, M2, (evs1 ++ evs2). split_and!; [done|by eapply hist_cons| |done]. by rewrite Hp2, Hp, app_assoc.
Qed.

End Contract.
