(* ===== verification/SessionStoreOk.v ===== *)
(** * SessionStoreOk

    Properties of the session store: the handlers implement the contract of
    [SessionContract], and what is written is what is read; and two ways in which concurrent
    commands, or the growth of a table, break the rule that a name has one record. *)

From S2P Require Import Prelude Protocol Memory Buffers ChunkIterator Accessors MessageIO CommandIO ChunkBuilder HeaderBuild RoundTrip Devices EndToEnd Utils Queue DList HashObject HashTable ObjectStore NameTable Tags TagCommands TagManagerOk SessionLock Optimizer StoreCommands SessionStore StoreOk StoreInit SessionOk SessionContract.

Local Abbreviation records := (gmap bytes record_t).

(** A store as it is allocated, with no objects. *)
Definition start (ps : PayloadObjectStore) : command_store := mkCommandStore ps ∅ [].

Section Properties.
Context (hash : bytes -> Z) `{NewLocs}.
Hypothesis hash_valid : forall n, valid_name n -> hash n <> INVALID_HASH_VALUE.
Context (t : nat) (lock_wait_time : Z).
Implicit Types (st : command_store) (M : records).

(** The geometry of a store. *)
Context (sizeof_queue sizeof_mutex : Z) (s : Store) (ntables table_capacity queue_capacity max_queue_capacity : Z) (m : Memory).

Record configured : Prop := {
  cf_tables : pow2 ntables /\ ntables <= MAX_NUM_TABLES_PER_STORE;
  cf_fill : fill_ok s;
  cf_queues : 0 < queue_capacity /\ 0 <= max_queue_capacity;
  cf_sizes : 0 < sizeof_queue < 2 ^ 32 /\ 0 < sizeof_mutex < 2 ^ 32;
  cf_memory : 0 <= m_used_size m < 2 ^ 60;
}.

Local Abbreviation allocated := (init_payload_object_store sizeof_queue sizeof_mutex s ntables table_capacity queue_capacity max_queue_capacity m).

Lemma empty_sessions_ok ps : configured -> allocated = Some ps -> sessions_ok hash (start ps) ∅.
Proof.
  intros [[C1 C2] C3 [C4 C5] [C6 C7] C8] Hi. destruct (init_store_ok sizeof_queue sizeof_mutex hash HOT_SESSION_OBJECT s ntables table_capacity
    queue_capacity max_queue_capacity m ps C1 C2 C3 C4 C5 C6 C7 C8 Hi) as [Hok Hh].
  constructor; [done| |].
  - intros id r. cbn. rewrite lookup_empty, Hh. split; [done|]. intros (x & o & Ho & _). by rewrite lookup_empty in Ho.
  - intros x [o Ho]. unfold cs_heap in Ho. cbn in Ho. by rewrite Hh, lookup_empty in Ho.
Qed.


(** ** What is written is read *)

(** The operations that leave the record of [id], at object [x], as it is, and do not let it expire before [e]. *)
Definition spares (id : bytes) (x : loc) (e : Z) (op : session_op) : Prop :=
  match op with
  | OpCommand now cr => forall q, request_of cr = Some q ->
      match q with
      | QRead i _ _ => i <> id \/ now <= e
      | QWrite a => wa_id a <> id
      | QDestroy i => i <> id
      | _ => True
      end
  | OpOptimize y (CExpires time) => y <> x \/ e <= time
  | OpEvict y => y <> x
  | _ => True
  end.

(** The record at [x], but for its expiration time. *)
Definition intact (M : records) (id : bytes) (x : loc) (e : Z) (b : payload_buffer) (usize compressor : Z) : Prop :=
  exists time, M !! id = Some (mkRecord x b usize compressor time) /\ e <= time.

Lemma intact_insert M id i x e b u c r : i <> id -> intact M id x e b u c -> intact (<[i := r]> M) id x e b u c.
Proof. intros Hne (time & HM & He). exists time. by rewrite lookup_insert_ne. Qed.

Lemma intact_delete M id i x e b u c : i <> id -> intact M id x e b u c -> intact (delete i M) id x e b u c.
Proof. intros Hne (time & HM & He). exists time. by rewrite lookup_delete_ne. Qed.

Lemma happens_spares M op M' evs id x e b u c : happens M op M' evs -> spares id x e op -> intact M id x e b u c -> intact M' id x e b u c.
Proof.
  intros Hh Hs Hi. destruct Hh as [now cr M q M' evs Hq Hp|M x'|M x' c' Hc|M id' r time Hr|M id' r Hr|M x']; try done.
  - specialize (Hs q Hq). destruct Hp; try done.
    + apply intact_delete; [|done]. intros ->. destruct Hi as (time & HM & He). destruct Hs as [?|?]; [done|].
      assert (r = mkRecord x b u c time) as -> by congruence. cbn in *. lia.
    + by apply intact_insert.
    + by apply intact_insert.
    + by apply intact_delete.
  - destruct Hi as (time' & HM & He). destruct (decide (id' = id)) as [->|Hne].
    + assert (r = mkRecord x b u c time') as -> by congruence. cbn in Hs. destruct Hs as [?|?]; [done|]. exists time.
      by rewrite lookup_insert_eq.
    + apply intact_insert; [done|]. by exists time'.
  - apply intact_delete; [|done]. intros ->. destruct Hi as (time' & HM & He). assert (r = mkRecord x b u c time') as -> by congruence. done.
Qed.

Lemma history_spares M ops M' evs id x e b u c : session_history M ops M' evs -> Forall (spares id x e) ops ->
  intact M id x e b u c -> intact M' id x e b u c.
Proof.
  intros Hh. induction Hh as [|M op M' evs ops M'' evs' Hp Hh IH]; intros Hs Hi; [done|]. inversion_clear Hs. apply IH; [done|].
  by eapply happens_spares.
Qed.

Lemma history_app M ops ops' M' evs : session_history M (ops ++ ops') M' evs ->
  exists M1 evs1 evs2, session_history M ops M1 evs1 /\ session_history M1 ops' M' evs2 /\ evs = evs1 ++ evs2.
Proof.
  revert M evs. induction ops as [|op ops IH]; intros M evs Hh; cbn in Hh.
  - exists M, [], evs. split_and!; [apply hist_nil|done|done].
  - inversion Hh as [|? ? M1 e1 ? ? e2 Hp Hh1]; subst. destruct (IH _ _ Hh1) as (M2 & e3 & e4 & H1 & H2 & ->).
    exists M2, (e1 ++ e3), e4. split_and!; [by eapply hist_cons|done|by rewrite app_assoc].
Qed.

(** (C9) What a client writes is what clients read. After a [WRITE] take any commands, readers that detach and work of the
    optimizer, each [ready] when its turn comes as in C8 (so that no other [WRITE] makes a table grow in
    which a deleted object waits beside one of its name, which may hide the record), that do not write the record again,
    destroy it, evict it or make it expire: a [READ] of it then answers with exactly the bytes of the
    payload that was written, its uncompressed size and its compressor. *)
Theorem session_write_read_round_trip st M now cr a st1 x ops now' cr' ua rq e :
  sessions_ok hash st M -> ready hash st (OpCommand now cr) -> request_of cr = Some (QWrite a) ->
  run_op hash t lock_wait_time st (OpCommand now cr) = Some st1 -> find_live hash st1 (wa_id a) = Some (Some x) ->
  (forall o, cs_heap st1 !! x = Some o -> e <= get_expiration_time o) ->
  all_ready hash t lock_wait_time st1 (ops ++ [OpCommand now' cr']) -> Forall (spares (wa_id a) x e) ops ->
  request_of cr' = Some (QRead (wa_id a) ua rq) -> now' <= e ->
  exists st2 evs, run_ops hash t lock_wait_time st1 (ops ++ [OpCommand now' cr']) = Some st2
    /\ cs_posted st2 = cs_posted st1 ++ evs
         ++ [Answer (ObjectAnswer x (payload_stored cr) (pi_usize (wa_payload a)) (pi_compressor (wa_payload a))); ToOptimizer (OR_READ x ua)].
Proof.
  intros Hok Hready Hq Hrun Hfind He Hrest Hs Hq' Hnow.
  destruct (op_done hash hash_valid t lock_wait_time st M _ Hok Hready) as (st1' & M1 & evs1 & Hrun' & Hh & _ & Hok1).
  assert (st1' = st1) as -> by congruence. clear Hrun'. inversion Hh as [? ? ? q ? ? Hq1 Hp| | | | |]; subst. assert (q = QWrite a) as -> by congruence.
  assert (exists time, M1 !! wa_id a = Some (written cr (wa_payload a) x time) /\ e <= time) as (time & HM1 & Hle).
  { assert (exists y time, M1 !! wa_id a = Some (written cr (wa_payload a) y time)) as (y & time & HM1)
      by (inversion Hp; subst; rewrite lookup_insert_eq; eauto).
    rewrite (find_record hash hash_valid st1 M1), HM1 in Hfind by (done || by eapply request_write). cbn in Hfind. injection Hfind as ->.
    exists time. split; [done|]. destruct (proj1 (so_models _ _ _ Hok1 _ _) HM1) as (y & o & Ho & _ & _ & Hr). injection Hr as -> _ _ _ Ht. rewrite <- Ht. by apply He. }
  destruct (ops_done hash hash_valid t lock_wait_time _ st1 M1 Hok1 Hrest) as (st2 & M2 & evs & Hrun2 & Hh2 & Hpost & _).
  apply history_app in Hh2 as (M3 & evs2 & evs3 & Hh3 & Hh4 & ->).
  destruct (history_spares M1 ops M3 evs2 (wa_id a) x e _ _ _ Hh3 Hs (ex_intro _ time (conj HM1 Hle))) as (time' & HM3 & Hle').
  inversion Hh4 as [|? ? M4 evs4 ? ? evs5 Hread Hnil]; subst. inversion Hnil; subst. rewrite app_nil_r in Hpost.
  inversion Hread as [? ? ? q ? ? Hq2 Hp2| | | | |]; subst. assert (q = QRead (wa_id a) ua rq) as -> by congruence.
  exists st2, evs2. split; [done|]. rewrite Hpost. do 2 f_equal.
  inversion Hp2 as [|? ? ? ? r Hr Hnw|? ? ? ? r Hr Hnw|? ? ? ? Hr| | | | |]; subst.
  - assert (r = mkRecord x (payload_stored cr) (pi_usize (wa_payload a)) (pi_compressor (wa_payload a)) time') as -> by congruence. done.
  - assert (r = mkRecord x (payload_stored cr) (pi_usize (wa_payload a)) (pi_compressor (wa_payload a)) time') as -> by congruence. cbn in *. lia.
  - congruence.
Qed.

End Properties.

(** ** Concrete runs *)

Module SessionRun.

#[export] Existing Instance TagExample.fresh_locs.
Definition hash := TagExample.hash.
Definition memory : Memory := mkMemory 0 126 DOMAIN_SESSION.
Definition session_store : Store := mkStore DEFAULT_FACTOR 1.

(** Two tables, as by default. *)
Definition empty : PayloadObjectStore :=
  default (mkPayloadObjectStore session_store [] [] ∅ memory 0 0 0 (fun _ => 0)) (init_payload_object_store 200 300 session_store 2 64 32 64 memory).
Definition run := run_ops hash 14 8000.

(** Commands as the server's reader delivers them. *)
Definition sender (data : bytes) : ReaderWriter :=
  mkReaderWriter (mkSharedBuffers memory empty_db (match data with [] => empty_db | _ => mkDataBuffer (Some data) (zlen data) end) (fresh Exchange.zeros 12) 1)
    3 0 0 0 DOMAIN_SESSION IO_STATE_CREATED IO_FLAG_NETWORK.
Definition receiver : ReaderWriter :=
  mkReaderWriter (add_reference (sb_init Exchange.zeros memory)) 4 0 0 0 DOMAIN_SESSION IO_STATE_CREATED (Z.lor IO_FLAG_IS_READER IO_FLAG_NETWORK).
Definition wire (cmd : command_t) (chs : list chunk) (data : bytes) : bytes :=
  let payload := match data with [] => None | _ => Some (mkPayloadChunkBuilder (zlen data) 2048 CT_NONE) end in
  command_bytes (header_layout (new_command (sender data) Exchange.nc cmd false) payload (chunks_bytes chs)) data.
Definition command (cmd : command_t) (chs : list chunk) (data : bytes) : ReaderWriter :=
  match retry (command_read Exchange.zeros 1000) 5 receiver (Socket (mkPeer (wire cmd chs data) [] [])) with
  | Some (_, rwr, _, _) => rwr
  | None => receiver
  end.

Definition write (id data : bytes) : ReaderWriter := command CMD_WRITE [CString id; CNumber 3; CNumber 60] data.
Definition read (id : bytes) : ReaderWriter := command CMD_READ [CString id; CNumber 3] [].
Definition destroy (id : bytes) : ReaderWriter := command CMD_DESTROY [CString id] [].

Definition id : bytes := [115; 105; 100].

Lemma configured_default : configured 200 300 session_store 2 32 64 memory.
Proof. constructor; try done. - split; [by exists 1|done]. - apply default_fill_ok. Qed.

(** A session is written, its owner becomes known, it is read, the response is sent, and it is destroyed. *)
Definition life : list session_op :=
  [OpCommand 1000 (write id [1; 2; 3]); OpOptimize 1 (CAgent UA_USER); OpCommand 1001 (read id); OpDetach 1; OpCommand 1002 (destroy id);
   OpUnlink 1; OpCommand 1003 (read id)].

Definition after (ops : list session_op) : command_store := default (start empty) (run (start empty) ops).

(** From one state to the next, without looking at either. *)
Lemma all_ready_cons st op ops st' : ready hash st op -> run_op hash 14 8000 st op = Some st' -> all_ready hash 14 8000 st' ops ->
  all_ready hash 14 8000 st (op :: ops).
Proof. intros Hr He Ho. split; [done|]. intros st1 He1. assert (st1 = st') as -> by congruence. done. Qed.

Lemma allocated : init_payload_object_store 200 300 session_store 2 64 32 64 memory = Some empty.
Proof. unfold empty. destruct (init_payload_object_store 200 300 session_store 2 64 32 64 memory) eqn:E; [done|]. by vm_compute in E. Qed.

Lemma empty_heap x : cs_heap (start empty) !! x = None.
Proof. assert (cs_heap (start empty) = ∅) as -> by (by vm_compute). apply lookup_empty. Qed.

(** The first [WRITE] to a store finds nothing that it would have to wait for. *)
Lemma first_write_ready st now cr a : (forall x, cs_heap st !! x = None) -> room st (pi_size (wa_payload a)) ->
  rw_is_active cr = true -> request_of cr = Some (QWrite a) ->
  is_set cr IO_FLAG_IS_READER && is_clear cr IO_FLAG_IS_RESPONSE = true -> is_Some (db_validate (sb_payload (rw_sb cr))) ->
  db_size (sb_payload (rw_sb cr)) = pi_size (wa_payload a) -> 0 <= pi_size (wa_payload a) <= m_used_size (sb_memory (rw_sb cr)) ->
  ready hash st (OpCommand now cr).
Proof.
  intros Hnone Hroom Ha Hq H1 H2 H3 H4. split; [done|]. exists (QWrite a). split; [done|]. split; [done|]. split; [done|]. split.
  - intros x o _ Ho. by rewrite Hnone in Ho.
  - intros _ i tb _ _ _. split; [intros y oy Hy|intros y z oy oz Hy]; by rewrite Hnone in Hy.
Qed.

(** It is read again before it is destroyed. *)
Definition visits : list session_op := [OpOptimize 1 (CAgent UA_USER); OpCommand 1001 (read id); OpDetach 1].

Definition last_events (n : nat) (st : command_store) : list store_event := drop (length (cs_posted st) - n) (cs_posted st).

Lemma life_ready : all_ready hash 14 8000 (start empty) life.
Proof.
  unfold life. eapply (all_ready_cons _ _ _ (after (take 1 life))); [|by vm_compute|].
  { eapply first_write_ready; [apply empty_heap| |by vm_compute|vm_compute; reflexivity|by vm_compute|vm_compute; by eexists|by vm_compute|by vm_compute]. by vm_compute. }
  eapply (all_ready_cons _ _ _ (after (take 2 life))); [eexists; split; [vm_compute; reflexivity|by vm_compute]|by vm_compute|].
  eapply (all_ready_cons _ _ _ (after (take 3 life))); [split; [by vm_compute|]; eexists; split; [vm_compute; reflexivity|done]|by vm_compute|].
  eapply (all_ready_cons _ _ _ (after (take 4 life))); [eexists; split; [vm_compute; reflexivity|by vm_compute]|by vm_compute|].
  eapply (all_ready_cons _ _ _ (after (take 5 life))); [split; [by vm_compute|]; eexists; split; [vm_compute; reflexivity|done]|by vm_compute|].
  eapply (all_ready_cons _ _ _ (after (take 6 life))).
  { eexists; split; [vm_compute; reflexivity|]. constructor; [by vm_compute|by vm_compute|by vm_compute|by vm_compute|].
    intros i q Hi Hq. vm_compute in Hi. injection Hi as <-. vm_compute in Hq. injection Hq as <-. by vm_compute. }
  { by vm_compute. }
  eapply (all_ready_cons _ _ _ (after (take 7 life))); [split; [by vm_compute|]; eexists; split; [vm_compute; reflexivity|done]|by vm_compute|done].
Qed.

Lemma visits_ready : all_ready hash 14 8000 (after [OpCommand 1000 (write id [1; 2; 3])]) (visits ++ [OpCommand 1002 (read id)]).
Proof.
  unfold visits. cbn [app].
  eapply (all_ready_cons _ _ _ (after (take 2 life))); [eexists; split; [vm_compute; reflexivity|by vm_compute]|by vm_compute|].
  eapply (all_ready_cons _ _ _ (after (take 3 life))); [split; [by vm_compute|]; eexists; split; [vm_compute; reflexivity|done]|by vm_compute|].
  eapply (all_ready_cons _ _ _ (after (take 4 life))); [eexists; split; [vm_compute; reflexivity|by vm_compute]|by vm_compute|].
  eapply (all_ready_cons _ _ _ (after (take 4 life ++ [OpCommand 1002 (read id)])));
    [split; [by vm_compute|]; eexists; split; [vm_compute; reflexivity|done]|by vm_compute|done].
Qed.

Lemma visits_spare : Forall (spares id 1 2000) visits.
Proof.
  constructor; [done|]. constructor; [|by constructor]. intros q Hq.
  assert (request_of (read id) = Some (QRead id UA_USER 0)) as Hr by (by vm_compute).
  assert (q = QRead id UA_USER 0) as -> by congruence. right. lia.
Qed.

(** *** Two clients write a new session at once *)

Definition written_by (cr : ReaderWriter) : write_args :=
  match write_arguments cr with
  | Some (Some a) => a
  | _ => mkWriteArgs [] UA_BOT 0 0 (mkPayloadInfo None 0 0 CT_NONE true)
  end.
Definition section (cr : ReaderWriter) (st : command_store) (p : write_point) : option (command_store * write_point) :=
  write_section hash 1000 cr (written_by cr) st p.

(** Both look the session up under the shared lock and create an object; [upgrade_lock] of the first
    has to wait for the second, which adds its object; then the first adds its own. *)
Definition two_writes (a b : ReaderWriter) : option command_store :=
  '(st, p) ← section a (start empty) WStart;
  '(st, q) ← section b st WStart;
  '(st, p) ← section a st p;
  '(st, q) ← section b st q;
  '(st, q) ← section b st q;
  '(st, q) ← section b st q;
  '(st, p) ← section a st p;
  '(st, p) ← section a st p;
  Some st.
Definition both_written : option command_store := two_writes (write id [1; 1; 1]) (write id [2; 2]).

Lemma both_records : is_record (cs_objects (default (start empty) both_written)) id 1 /\ is_record (cs_objects (default (start empty) both_written)) id 2.
Proof.
  split.
  - eexists. split; [vm_compute; reflexivity|]. by vm_compute.
  - eexists. split; [vm_compute; reflexivity|]. by vm_compute.
Qed.

(** The session is destroyed, and its object disposed of when another session is added to the table. *)
Definition destroyed : list session_op :=
  [OpDetach 1; OpDetach 2; OpCommand 1001 (destroy id); OpOptimize 1 (CAgent UA_USER); OpUnlink 1; OpCommand 1002 (read id);
   OpCommand 1003 (write [115; 105; 102] [7])].

(** *** A table grows while a deleted session is still in it *)

(** One table of 64 buckets, which grows when it holds 32 objects. *)
Definition small : PayloadObjectStore := default empty (init_payload_object_store 200 300 (mkStore MIN_FACTOR 0) 1 16 32 64 memory).
Definition renewed : list session_op := [OpCommand 1000 (write id [1; 1; 1]); OpCommand 1001 (destroy id); OpCommand 1002 (write id [2; 2])].
Definition other_writes : list session_op := map (fun i => OpCommand 1003 (write [200; i] [9])) (seqZ 1 31).
Definition grown : option command_store := run (default (start empty) (run (start small) renewed)) other_writes.

Lemma renewed_record : is_record (cs_objects (default (start empty) (run (start small) renewed))) id 2.
Proof. eexists. split; [vm_compute; reflexivity|]. by vm_compute. Qed.
Lemma grown_record : is_record (cs_objects (default (start empty) grown)) id 2.
Proof. eexists. split; [vm_compute; reflexivity|]. by vm_compute. Qed.

End SessionRun.

Import SessionRun.

(** (C39) Two clients that write a new session at the same time both succeed, and the older payload
    survives [DESTROY]: each thread finds no object under the shared lock on the table, the upgrade of
    the lock lets one in after the other, and neither looks again. Two objects of one name are live;
    after [DESTROY] has been answered, and once its object has been disposed of, [READ] answers
    with the payload of the other [WRITE]. *)
Theorem concurrent_writes_resurrect : exists st st',
  both_written = Some st
  /\ is_record (cs_objects st) id 1 /\ is_record (cs_objects st) id 2
  /\ run st (destroyed ++ [OpCommand 1004 (read id)]) = Some st'
  /\ cs_posted st' = [Answer OkAnswer; ToOptimizer (OR_WRITE 2 UA_USER 60); Answer OkAnswer; ToOptimizer (OR_WRITE 1 UA_USER 60);
       ToOptimizer (OR_DELETE 1 0); Answer OkAnswer; (* DESTROY *)
       Answer OkAnswer; (* READ finds nothing *)
       Answer OkAnswer; ToOptimizer (OR_WRITE 3 UA_USER 60);
       Answer (ObjectAnswer 2 (Buffer [2; 2]) 2 CT_NONE); ToOptimizer (OR_READ 2 UA_USER)].
Proof.
  destruct both_written as [st|] eqn:E; [|by vm_compute in E]. assert (st = default (start empty) both_written) as Hst by (by rewrite E). clear E.
  exists st. assert (is_record (cs_objects st) id 1 /\ is_record (cs_objects st) id 2) as [H1 H2] by (rewrite Hst; exact both_records).
  destruct (run st (destroyed ++ [OpCommand 1004 (read id)])) as [st'|] eqn:E; rewrite Hst in E; [|by vm_compute in E].
  exists st'. split; [reflexivity|]. split; [exact H1|]. split; [exact H2|]. split; [reflexivity|].
  apply (f_equal (fun r => match r with Some st => cs_posted st | None => [] end)) in E. rewrite <- E. by vm_compute.
Qed.

(** (C22) The growth of a table hides a session. A session that was destroyed and written again can be read; then other sessions
    are written, until the table grows while the deleted object is still there: [resize_table] links the objects of
    a bucket in reverse order, so that the deleted object is found first, and [find] has no session to
    show although the live record is still in the store. *)
Theorem table_growth_hides_session : exists st st',
  run (start small) renewed = Some st /\ is_record (cs_objects st) id 2
  /\ find_live hash st id = Some (Some 2%positive)
  /\ run st other_writes = Some st' /\ is_record (cs_objects st') id 2
  /\ (ht_nbuckets <$> os_tables (cs_objects st)) = [64] /\ (ht_nbuckets <$> os_tables (cs_objects st')) = [128]
  /\ find_live hash st' id = Some None.
Proof.
  destruct (run (start small) renewed) as [st|] eqn:E; [|by vm_compute in E].
  assert (st = default (start empty) (run (start small) renewed)) as Hst by (by rewrite E). clear E. exists st.
  destruct (run st other_writes) as [st'|] eqn:E; rewrite Hst in E; [|by vm_compute in E].
  assert (st' = default (start empty) grown) as Hst' by (unfold grown; rewrite E; reflexivity). clear E.
  exists st'. split; [reflexivity|]. split; [rewrite Hst; exact renewed_record|]. split; [rewrite Hst; by vm_compute|]. split; [reflexivity|].
  split; [rewrite Hst'; exact grown_record|]. split; [rewrite Hst; by vm_compute|]. split; rewrite Hst'; by vm_compute.
Qed.


Lemma session_write_read_round_trip_witness : exists st2 evs,
  run (after [OpCommand 1000 (write id [1; 2; 3])]) (visits ++ [OpCommand 1002 (read id)]) = Some st2
    /\ cs_posted st2 = cs_posted (after [OpCommand 1000 (write id [1; 2; 3])]) ++ evs
         ++ [Answer (ObjectAnswer 1 (Buffer [1; 2; 3]) 3 CT_NONE); ToOptimizer (OR_READ 1 UA_USER)].
Proof.
  exact (session_write_read_round_trip hash TagExample.hash_valid 14 8000 (start empty) ∅ 1000 (write id [1; 2; 3]) (written_by (write id [1; 2; 3]))
    (after [OpCommand 1000 (write id [1; 2; 3])]) 1 visits 1002 (read id) UA_USER 0 2000
    (empty_sessions_ok hash 200 300 session_store 2 64 32 64 memory empty configured_default allocated)
    (proj1 life_ready) ltac:(by vm_compute) ltac:(by vm_compute) ltac:(by vm_compute)
    ltac:(intros o Ho; vm_compute in Ho; injection Ho as <-; by vm_compute) visits_ready visits_spare ltac:(by vm_compute) ltac:(by vm_compute)).
Defined.
